(* ===== verification/_CoqProject ===== *)
-Q . S2P
Prelude.v
RustStr.v
Value.v
Canonical.v
Intent.v
Policy.v
Documents.v
CorePlan.v
Metadata.v
SolverModel.v
Preflight.v
SolverPlan.v
NativeAdapter.v
RustText.v
Variables.v
MainConfig.v
RepoFile.v
UnixPath.v
Xml.v
Repomd.v
Filelists.v
FilelistsFacts.v
PathScanner.v
PathScannerFacts.v
ScanDocument.v
Primary.v
PrimaryFacts.v
Compression.v
CompressionFacts.v
UpdateInfo.v
Comps.v
AdvisoryFacts.v
AnchoredFs.v
Trust.v
RepoProfile.v
ProfileFacts.v
SourceLoader.v
ProfileSafety.v
Modulemd.v
ModulemdFacts.v
CacheModel.v
Snapshot.v
SnapshotFacts.v
FileIndex.v
FileIndexFacts.v
Effects.v
StateFs.v
Journal.v
JournalFacts.v
EventLog.v
JournalSafety.v
JournalCreate.v
StateFile.v
GroupState.v
GroupFacts.v
GroupSafety.v
ReasonState.v
ReasonFacts.v
PlanningFs.v
SnapshotStore.v
StoreFacts.v
StoreSafety.v
NativeTrust.v
Artifact.v
ExecutorInventory.v
RootInputs.v
StagedInputs.v
Execute.v
ExecuteFacts.v
RootInputsFacts.v
ExecuteExamples.v
ExecuteSafety.v
ExecuteInputs.v
ExecuteOutcome.v
Recovery.v
RecoveryFacts.v
RecoverySettles.v
Staging.v
StagingFacts.v
StagingSafety.v
