(* ===== verification/Prelude.v ===== *)
(** * dnfast: a verification development

    dnfast is a package manager for RPM systems in Rust: it reads the configuration of
    repositories, refreshes and validates their metadata, lets libsolv solve a request, explains
    and checks the solution, and runs it as a transaction whose journal, groups and reasons it
    keeps on disk.  This library models the Rust code of its crates (src/crates/) as executable
    functions over the same data and proves what the code promises.

    ** The program and the files that model it

    - dnfast-core: the values and documents all other crates exchange.  [Value] (value.rs: digests,
      architectures, the RPM version order), [Canonical] (canonical.rs: canonical JSON documents,
      and in [Json] what serde_json prints and when the reader takes it back),
      [Intent] (intent.rs), [Policy] (policy.rs), [Documents] (integrity.rs, trust.rs,
      inventory.rs, journal.rs), [CorePlan] (plan.rs: the plan envelope and the check before it
      runs).
    - dnfast-solver: from the solver's answer to an explained plan.  [SolverModel] (model.rs,
      validation.rs), [NativeAdapter] (native_adapter.rs: pairing the columns of libsolv),
      [Preflight] (preflight.rs: checks, reachability, the execution order), [SolverPlan] (plan.rs:
      the explained plan, which proposes a plan of the core).
    - dnfast-state: what survives a transaction.  [StateFs] (error.rs, fault.rs, fs.rs: the file
      system), [Journal] (model.rs, store.rs, recovery.rs) with [JournalFacts]; [EventLog]
      (log.rs); [JournalSafety] and [JournalCreate], over both; [StateFile] (the state file of
      the two stores), [GroupState] (group.rs) with [GroupFacts] and [GroupSafety];
      [ReasonState] (reason.rs) with [ReasonFacts].
    - dnfast-repo: the configuration.  [Variables] (variables.rs, error.rs), [MainConfig]
      (main_config.rs), [RepoFile] (model.rs, parser.rs, refresh_policy.rs), [RepoProfile]
      (profile.rs) with [ProfileFacts], [AnchoredFs] (anchored_fs.rs), [Trust] (trust.rs),
      [SourceLoader] (source_loader.rs, loader.rs) with [ProfileSafety].
    - dnfast-metadata: the documents of a repository.  [Metadata] (error.rs, limits.rs, search.rs,
      the records), [Xml] (xml.rs), [Repomd] (repomd.rs), [Filelists] and [PathScanner]
      (filelists.rs) with [FilelistsFacts], [PathScannerFacts] and [ScanDocument], [Primary]
      (primary.rs, relations.rs) with [PrimaryFacts].
      [Compression] (compression.rs: verified and bounded decompression) with
      [CompressionFacts]; [UpdateInfo] (updateinfo.rs) and [Comps] (comps.rs) with
      [AdvisoryFacts].
    - dnfast-planning: [Modulemd] (modulemd.rs: module streams and their state) with
      [ModulemdFacts].
      [Snapshot] (model.rs, error.rs: what a plan is made from, its checks and digests) with
      [SnapshotFacts]; [FileIndex] (file_provides.rs: the compact index of files) with
      [FileIndexFacts]; [PlanningFs] (fs.rs) and [SnapshotStore] (snapshot_store.rs: snapshots,
      blobs, the current pointer and both collections) with [StoreFacts] and [StoreSafety].
    - dnfast-cache: [CacheModel] (model.rs: errors, evidence, origins and files that others may
      change while they are read), [Artifact] (artifact.rs, artifact_store.rs: package URLs,
      capacity, the check of a package file).
    - dnfast-native: [NativeTrust] (trust.rs, keyring.rs: keyrings and the verification of a
      package) and [ExecutorInventory] (inventory.rs, checked_transaction.rs, with the C side of
      transaction.c, transaction_run.c and inventory_write.c): a transaction as a state machine
      over one machine, which has the database of RPM, the directories of the journal and of the
      reasons, the native context, the executor and its cached inventory.
    - dnfast-executor: [RootInputs] (root_inputs.rs, input_model.rs, error.rs: the inputs of a
      plan) with [RootInputsFacts]; [StagedInputs] (staged_inputs.rs, compact_inputs.rs);
      [Staging] (staging.rs and the copies of staged_inputs.rs: the staging directory of a
      transaction) with [StagingFacts] and [StagingSafety];
      [Execute] (execute.rs: the run of a plan) with [ExecuteFacts], [ExecuteSafety],
      [ExecuteInputs] and [ExecuteOutcome]; [Recovery] (recovery.rs: closing what earlier
      processes left) with [RecoveryFacts] and [RecoverySettles]; [ExecuteExamples] is a
      concrete machine.
    - [Effects] is the language of everything that calls the system: operations on a world whose
      calls may fail with any text or end the process, with Hoare triples ([triple]), runs without
      failures ([runs]), steps within a relation ([within]) and values ([yields]).  The stores, the
      journal, the native transaction and the executor are written in it over their own states
      and errors, and one runs in a part of the state of the other with [zoom].
    - [Prelude] has results and their monad, folds that may fail, ordered maps and sets as sorted
      lists, and the automation; [RustStr], [RustText] and [UnixPath] are the part of Rust's [str],
      [char] and [std::path] the code uses.

    A definition has the name of the Rust item it models, in a module for its type; a loop body is
    a definition of its own.  A [Result] is [result], a struct a record in a module whose [t] is
    the type, an enum an inductive type, an integer an [N] with its width checked where the code
    checks it or could overflow ([usize] has 64 bits), a [String] the bytes of its UTF-8 encoding.

    ** What the theorems show

    - Plans.  An explained plan that is built explains every resolved action once, in an order that
      respects every edge whose target lies on no cycle; what is executable has not expired, is
      safe under the policy and asked for; canonical documents are read back and only canonical
      texts are read.
      The checks of solver input, pairing and selectors are sound; the loops end.
    - The journal.  Through every history of operations (the event log's included), faults, failing
      system calls and deaths of the process, the journal loads and its entries follow the state
      machine, as long as no problem text is longer than 1 MiB with its escapes; recovery does what
      the outcome it finds requires; creation and transition are specified on every branch, and two
      ways to lose a journal are proved ([JournalCreate]).
    - The stores.  Groups and reasons change by whole states, and the packages to be removed are
      exactly those no longer needed; the event log is bounded.
    - The configuration.  An accepted profile verifies signatures and TLS in every repository and
      binds keys that only root can have written; anchored reads hold against every change others
      make to the file system between their system calls.
    - Metadata.  Accepted documents name safe locations, checksums and bounded records; the two
      modes of the reader of primary.xml agree, the visitor of filelists.xml is the parser, and the
      path scanner is a machine that reads byte by byte.
    - Module streams.  Mutations have the outcome asked for, artifacts follow the active streams,
      and the completion of dependencies ends.
    - Snapshots and indexes.  Accepted snapshots are coherent, their digests bind what a plan was
      made from, indexes find every path, and whatever fails or stops, publication (of payloads,
      cloned or written, and of verified files) and collection leave a store that can be read; one
      way to block it is proved.
    - Execution.  However a run ends, by success, an error or the death of the process, the
      database is as it was, or was changed by running the planned items and the journal says so
      ([ExecuteSafety]); the items have the digests, identities and signers that the plan recorded
      ([ExecuteInputs]), because the inputs that are accepted are those of the snapshot the plan
      was made from; and a run that succeeds leaves the expected packages, a reconciled journal
      and the reasons of the packages ([ExecuteOutcome]).
    - Staging.  What staging returns are verified copies that its directory holds, the same bytes
      that are used when nothing is copied, and removing the directory leaves no trace; a copy
      that fails is proved to leave one ([StagingSafety]).
    - Recovery.  Whatever fails in it, the recovery before a run changes no database and adds to
      a journal at most that its transaction is over ([RecoveryFacts]); when nothing fails it
      ends, every journal is prepared or closed, and a second one has nothing to do
      ([RecoverySettles]).

    ** Models of the environment

    - The file system of the state crate ([StateFs]) is one directory with files, a world with the
      outcomes of the system calls to come: each may fail or be the last one of the process.  It is
      process death, not loss of power: what was written stays.  Names are UTF-8 except for a flag
      of the directory entry; a lock is held between the operations of its holder;
      [open_or_create_root] counts as one call.
    - The file system of anchored reads ([AnchoredFs]) is a history that others write: inode
      numbers are not reused, and steps of other users do not change what only root may write.
      [SourceLoader] reads a file system that stays as it is; look-ups follow at most 40 links.
    - An XML document is the finite list of the events quick-xml delivers, ended by the end of the
      input or by an error.  A document read in pieces is the list of the pieces.
    - Loops that do not recur on their data run on fuel: the lengths of the inputs they consume, or
      the number of nodes of a graph; the theorems on termination show the fuel is enough, so the
      results do not depend on it.
    - Parameters: serde_json and the derived (de)serializers ([Canonical.SerdeJson]), SHA-256, the
      OpenPGP parser, the rpm program, the native solver, quick-xml's tokenizing and [unescape], and
      the texts of errors of the standard library.  What a theorem needs of them is a named
      hypothesis or class, and its witness has a concrete one: [SerdeJsonLaws] (what was written
      is parsed back), and [Canonical.JsonText] (what is written is the documented text of the
      value's derived Serialize, the [tree] of its module).
      That a journal entry or a state passes the byte inspection of canonical.rs follows from
      [JsonText] and the bounds the code checks ([Canonical.Inspection],
      [JournalFacts.fits_readable], [ReasonFacts.state_bounded]); where a theorem has it as a
      hypothesis, a lemma discharges it ([JournalCreate.first_entry_readable],
      [GroupSafety.written_group_readable]).  Where the code checks too little the theorems say
      so: a problem text above 1 MiB, reasons above 16 MiB and snapshots above 128 MiB are
      written and never read back.
    - A digest is a parameter, so no theorem says that it determines a text: the conclusion names
      the two texts that were hashed and says that they are equal or a collision
      ([SnapshotSafety.collide]).  Nor does the identity of a file determine its bytes: the reads
      of [CacheModel] give what was verified unless the bytes changed and the identity did not.

    ** Not modelled

    The bindings and the C code around libsolv (dnfast-native, dnfast-native-sys,
    src/native), network transport, locking and OpenPGP verification (dnfast-refresh), the command
    line and its output (dnfast-cli), the SQLite history of dnf5 (dnfast-dnf5-history), and the
    mounts and processes of the executor (dnfast-executor) are calls into the system
    and into libraries, whose behaviour is not in this repository.
    Of the parts above: the publication and loading of generations and the cache of solv files
    (dnfast-cache), the orchestration of a publication (publisher.rs), sealed memory files
    (compact_inputs.rs, plan_fd.rs), the private mount (mount_root.rs), the resident process with
    its protocol, threads and sockets (resident.rs), and the second solve of the executor.
    librpm and OpenPGP are the classes [KeyLibrary] and [RpmLibrary]: a run of RPM is a number of
    steps on its database, of which any prefix may have happened when it fails or dies.
*)
From stdpp Require Export base list strings gmap sorting pretty.

(** ** Results: Rust's [Result<T, E>] with the monadic notation of stdpp. *)

Inductive result (E T : Type) : Type :=
  | Ok (v : T)
  | Err (e : E).
Arguments Ok {E T} v.
Arguments Err {E T} e.

#[export] Instance result_mret {E} : MRet (result E) := fun T v => Ok v.

#[export] Instance result_mbind {E} : MBind (result E) := fun T U k c =>
  match c with Ok v => k v | Err e => Err e end.

#[export] Instance result_fmap {E} : FMap (result E) := fun T U f c =>
  match c with Ok v => Ok (f v) | Err e => Err e end.

#[export] Instance result_eq_dec {E T} `{!EqDecision E, !EqDecision T} :
  EqDecision (result E T).
Proof. solve_decision. Defined.

(** [Result::map_err]. *)
Definition map_err {E F T} (f : E -> F) (c : result E T) : result F T :=
  match c with Ok v => Ok v | Err e => Err (f e) end.

(** [Option::ok_or]. *)
Definition ok_or {E T} (e : E) (o : option T) : result E T :=
  match o with Some v => Ok v | None => Err e end.

(** [if b { return Err(e) }]. *)
Definition reject_if {E} (b : bool) (e : E) : result E unit :=
  if b then Err e else Ok tt.

Definition is_ok {E T} (c : result E T) : bool :=
  match c with Ok _ => true | Err _ => false end.

(** [for x in l { f(x)?; }]. *)
Fixpoint for_each {E A} (f : A -> result E unit) (l : list A) : result E unit :=
  match l with
  | [] => Ok tt
  | x :: t => _ ← f x; for_each f t
  end.

(** A loop over [l] threading a state, leaving at the first error. *)
Fixpoint fold_result {E A S} (f : S -> A -> result E S) (s : S) (l : list A) : result E S :=
  match l with
  | [] => Ok s
  | x :: t => s' ← f s x; fold_result f s' t
  end.

(** ** Machine integers *)

(** The largest [u64]. *)
Definition u64_max : N := (2 ^ 64 - 1)%N.

(** [u64::checked_add]. *)
Definition u64_checked_add (a b : N) : option N :=
  if (a + b <=? u64_max)%N then Some (a + b)%N else None.

(** ** Three-way comparison: [Ord], [Ordering] and [then_with]. *)

Definition then_cmp (o1 o2 : comparison) : comparison :=
  match o1 with Eq => o2 | _ => o1 end.

Definition is_lt (o : comparison) : bool := match o with Lt => true | _ => false end.
Definition is_gt (o : comparison) : bool := match o with Gt => true | _ => false end.
Definition is_eq (o : comparison) : bool := match o with Eq => true | _ => false end.

(** The laws every Rust comparator has to obey: [c] orders the quotient by [c x y = Eq]. *)
Record cmp_preorder {A} (c : A -> A -> comparison) : Prop := {
  cp_flip : forall x y, c y x = CompOpp (c x y);
  cp_trans : forall x y z, c x y <> Gt -> c y z <> Gt -> c x z <> Gt
}.

(** The interface a type with [#[derive(Ord)]] gives its clients. *)
Class RustOrd (A : Type) := cmp : A -> A -> comparison.

Class RustOrdLaws (A : Type) `{RustOrd A} : Prop := {
  cmp_is_preorder : cmp_preorder (cmp (A := A));
  cmp_eq : forall x y : A, cmp x y = Eq -> x = y
}.

(** [x >= y] and [x < y] of a derived [PartialOrd]. *)
Definition geb {A} `{RustOrd A} (x y : A) : bool := negb (is_lt (cmp x y)).
Definition clt {A} `{RustOrd A} (x y : A) : Prop := cmp x y = Lt.

#[export] Instance clt_dec {A} `{RustOrd A} (x y : A) : Decision (clt x y).
Proof. unfold clt. solve_decision. Defined.

(** Lexicographic comparison of slices. *)
Fixpoint list_cmp {A} (c : A -> A -> comparison) (l1 l2 : list A) : comparison :=
  match l1, l2 with
  | [], [] => Eq
  | [], _ :: _ => Lt
  | _ :: _, [] => Gt
  | x :: t1, y :: t2 => then_cmp (c x y) (list_cmp c t1 t2)
  end.

(** Derived orders of structs and enums: compare the image under an injection. *)
Definition ord_on {A B} `{RustOrd B} (f : A -> B) : RustOrd A := fun x y => cmp (f x) (f y).

#[export] Instance N_ord : RustOrd N := N.compare.
#[export] Instance bool_ord : RustOrd bool := ord_on N.b2n.
#[export] Instance ascii_ord : RustOrd Ascii.ascii := ord_on Ascii.N_of_ascii.
#[export] Instance list_ord {A} `{RustOrd A} : RustOrd (list A) := list_cmp cmp.
(** [str] compares its bytes. *)
#[export] Instance string_ord : RustOrd string := ord_on String.list_ascii_of_string.
#[export] Instance option_ord {A} `{RustOrd A} : RustOrd (option A) := fun x y =>
  match x, y with
  | None, None => Eq
  | None, Some _ => Lt
  | Some _, None => Gt
  | Some a, Some b => cmp a b
  end.
#[export] Instance prod_ord {A B} `{RustOrd A, RustOrd B} : RustOrd (A * B) := fun x y =>
  then_cmp (cmp x.1 y.1) (cmp x.2 y.2).

(** ** Slices: [windows(2).any], [sort], [dedup] *)

Fixpoint windows2_any {A} (f : A -> A -> bool) (l : list A) : bool :=
  match l with
  | a :: t => match t with b :: _ => f a b || windows2_any f t | [] => false end
  | [] => false
  end.

(** The stable sort [slice::sort_by]: equal elements keep their order. *)
Fixpoint insert_by {A} (c : A -> A -> comparison) (x : A) (l : list A) : list A :=
  match l with
  | [] => [x]
  | y :: t => if is_gt (c x y) then y :: insert_by c x t else x :: y :: t
  end.

Definition sort_by {A} (c : A -> A -> comparison) (l : list A) : list A :=
  foldr (insert_by c) [] l.

Definition sort {A} `{RustOrd A} (l : list A) : list A := sort_by cmp l.

(** [Vec::dedup]: drops every element equal to the one kept before it. *)
Fixpoint dedup_from {A} `{EqDecision A} (x : A) (l : list A) : list A :=
  match l with
  | [] => []
  | y :: t => if decide (x = y) then dedup_from x t else y :: dedup_from y t
  end.

Definition dedup {A} `{EqDecision A} (l : list A) : list A :=
  match l with [] => [] | x :: t => x :: dedup_from x t end.

(** [Iterator::max_by]: the last of the maximal elements. *)
Definition max_by {A} (c : A -> A -> comparison) (l : list A) : option A :=
  match l with
  | [] => None
  | x :: t => Some (foldl (fun m y => if is_gt (c m y) then m else y) x t)
  end.

(** ** Ordered sets and maps: [BTreeSet] and [BTreeMap] as sorted lists *)

Fixpoint bset_insert {A} `{RustOrd A} (x : A) (s : list A) : list A :=
  match s with
  | [] => [x]
  | y :: t =>
      match cmp x y with
      | Lt => x :: y :: t
      | Eq => y :: t
      | Gt => y :: bset_insert x t
      end
  end.

Definition bset_of_list {A} `{RustOrd A} (l : list A) : list A :=
  foldl (fun s x => bset_insert x s) [] l.

Definition bset_remove {A} `{RustOrd A} (x : A) (s : list A) : list A :=
  base.filter (fun y => cmp x y <> Eq) s.

Definition bset_contains {A} `{RustOrd A} (x : A) (s : list A) : bool :=
  existsb (fun y => is_eq (cmp x y)) s.

Fixpoint bmap_insert {K V} `{RustOrd K} (k : K) (v : V) (m : list (K * V)) : list (K * V) :=
  match m with
  | [] => [(k, v)]
  | (k', v') :: t =>
      match cmp k k' with
      | Lt => (k, v) :: (k', v') :: t
      | Eq => (k', v) :: t
      | Gt => (k', v') :: bmap_insert k v t
      end
  end.

Fixpoint bmap_lookup {K V} `{RustOrd K} (k : K) (m : list (K * V)) : option V :=
  match m with
  | [] => None
  | (k', v) :: t => if is_eq (cmp k k') then Some v else bmap_lookup k t
  end.

Definition bmap_remove {K V} `{RustOrd K} (k : K) (m : list (K * V)) : list (K * V) :=
  base.filter (fun p => cmp k p.1 <> Eq) m.

Definition bmap_of_list {K V} `{RustOrd K} (l : list (K * V)) : list (K * V) :=
  foldl (fun m p => bmap_insert p.1 p.2 m) [] l.

Abbreviation bmap_keys := (fmap fst).

(** ** Laws of the result monad *)

Create HintDb rust discriminated.

Section result_laws.
Context {E : Type}.

Lemma bind_ok {T U} (c : result E T) (k : T -> result E U) u :
  c ≫= k = Ok u <-> exists v, c = Ok v /\ k v = Ok u.
Proof.
  destruct c as [v|e]; simpl; split; [eauto | | discriminate |].
  - by intros (? & [= ->] & ?).
  - by intros (? & [=] & _).
Qed.

Lemma bind_err {T U} (c : result E T) (k : T -> result E U) e :
  c ≫= k = Err e <-> c = Err e \/ exists v, c = Ok v /\ k v = Err e.
Proof.
  destruct c as [v|e']; simpl; split; [eauto | | |].
  - by intros [?|(? & [= ->] & ?)].
  - intros [= ->]. by left.
  - by intros [[= ->]|(? & [=] & _)].
Qed.

Lemma Ok_inj {T} (x y : T) : @Ok E T x = Ok y -> x = y.
Proof. congruence. Qed.

Lemma reject_if_ok (b : bool) (e : E) u : reject_if b e = Ok u <-> b = false.
Proof. destruct b, u; simpl; split; congruence. Qed.

Lemma reject_if_err (b : bool) (e e' : E) :
  reject_if b e = Err e' <-> b = true /\ e = e'.
Proof. destruct b; simpl; split; [intros [= ->]; done | | done | by intros []].
  by intros [_ ->]. Qed.

Lemma ok_or_ok {T} (e : E) (o : option T) v : ok_or e o = Ok v <-> o = Some v.
Proof. destruct o; simpl; split; congruence. Qed.

Lemma map_err_ok {F T} (f : E -> F) (c : result E T) v : map_err f c = Ok v <-> c = Ok v.
Proof. destruct c; simpl; split; congruence. Qed.

Lemma fmap_ok {T U} (f : T -> U) (c : result E T) u :
  f <$> c = Ok u <-> exists v, c = Ok v /\ f v = u.
Proof.
  destruct c; simpl; split; [| | done |].
  - intros [= <-]; eauto.
  - by intros (? & [= ->] & ->).
  - by intros (? & [=] & _).
Qed.

Lemma for_each_ok {A} (f : A -> result E unit) (l : list A) u :
  for_each f l = Ok u <-> Forall (fun x => f x = Ok tt) l.
Proof.
  destruct u. induction l as [|x t IH]; simpl; [split; [constructor | done] |].
  rewrite bind_ok, Forall_cons. setoid_rewrite IH.
  split; [intros ([] & ? & ?); done | eauto].
Qed.

(** The first element the body refuses decides the error. *)
Lemma for_each_err {A} (f : A -> result E unit) (l : list A) e :
  for_each f l = Err e <->
  exists l1 x l2, l = l1 ++ x :: l2 /\ Forall (fun y => f y = Ok tt) l1 /\ f x = Err e.
Proof.
  induction l as [|y t IH]; simpl.
  - split; [done | by intros ([] & ? & ? & ? & _)].
  - rewrite bind_err. split.
    + intros [Hy|([] & Hy & (l1 & x & l2 & -> & ? & ?)%IH)].
      * by exists [], y, t.
      * exists (y :: l1), x, l2. eauto.
    + intros ([|y' l1] & x & l2 & Heq & Hall & Hx); simplify_eq/=; [by left |].
      apply Forall_cons in Hall as [? ?]. right. exists tt. split; [done |].
      apply IH. eauto 10.
Qed.

Lemma mapM_ok {A B} (f : A -> result E B) (l : list A) (k : list B) :
  mapM f l = Ok k <-> Forall2 (fun x y => f x = Ok y) l k.
Proof.
  revert k. induction l as [|x t IH]; intros k; simpl.
  - split; [by intros [= <-] | by intros ->%Forall2_nil_inv_l].
  - rewrite bind_ok. setoid_rewrite bind_ok. setoid_rewrite IH. split.
    + intros (y & ? & k' & ? & [= <-]). by constructor.
    + intros (y & k' & ? & ? & ->)%Forall2_cons_inv_l. eauto.
Qed.

Lemma fold_result_ind {A S} (f : S -> A -> result E S) (P : S -> Prop) s l s' :
  P s -> (forall s1 x s2, x ∈ l -> P s1 -> f s1 x = Ok s2 -> P s2) ->
  fold_result f s l = Ok s' -> P s'.
Proof.
  revert s. induction l as [|x t IH]; intros s Hs Hstep; simpl; [by intros [= <-] |].
  rewrite bind_ok. intros (s1 & H1 & H2).
  eapply (IH s1); [eapply Hstep; eauto; left | | done].
  intros. eapply Hstep; eauto. by right.
Qed.

(** A loop keeps an invariant about the elements read so far. *)
Lemma fold_result_prefix_ind {A S} (f : S -> A -> result E S) (P : list A -> S -> Prop) l s s' :
  P [] s -> (forall pre x s1 s2, P pre s1 -> f s1 x = Ok s2 -> P (pre ++ [x]) s2) ->
  fold_result f s l = Ok s' -> P l s'.
Proof.
  intros H0 Hstep. change l with ([] ++ l) at 2. revert s H0. generalize (@nil A) as pre.
  induction l as [|x l IH]; intros pre s Hp; simpl.
  - intros [= <-]. by rewrite app_nil_r.
  - intros (s1 & H1 & Hf)%bind_ok. replace (pre ++ x :: l) with ((pre ++ [x]) ++ l)
      by (by rewrite <- app_assoc). apply (IH (pre ++ [x]) s1); [by eapply Hstep | done].
Qed.

(** Every element a loop has read was accepted. *)
Lemma fold_result_accepts {A S} (f : S -> A -> result E S) l : forall s s' x,
  fold_result f s l = Ok s' -> x ∈ l -> exists s1 s2, f s1 x = Ok s2.
Proof.
  induction l as [|y l IH]; intros s s' x; simpl; [by intros _ ?%not_elem_of_nil |].
  intros (s1 & H1 & H2)%bind_ok [->|Hx]%elem_of_cons; [eauto | by eapply IH].
Qed.

Lemma bind_assoc {T U V} (c : result E T) (f : T -> result E U) (g : U -> result E V) :
  (c ≫= f) ≫= g = c ≫= fun x => f x ≫= g.
Proof. by destruct c. Qed.

Lemma fold_result_app {A S} (f : S -> A -> result E S) l1 l2 : forall s,
  fold_result f s (l1 ++ l2) = fold_result f s l1 ≫= fun s' => fold_result f s' l2.
Proof.
  induction l1 as [|x l1 IH]; intros s; [done |]. simpl. rewrite bind_assoc. destruct (f s x); [apply IH | done].
Qed.

(** A loop over blocks is a loop that takes each block in one step. *)
Lemma fold_result_blocks {A B S} (f : S -> B -> result E S) (g : S -> A -> result E S) (block : A -> list B)
    (Inv : S -> Prop) l : forall s, Inv s ->
  (forall s x, Inv s -> x ∈ l -> fold_result f s (block x) = g s x) ->
  (forall s x s', Inv s -> x ∈ l -> g s x = Ok s' -> Inv s') ->
  fold_result f s (concat (block <$> l)) = fold_result g s l.
Proof.
  induction l as [|x l IH]; intros s Hs Hstep Hinv; [done |].
  rewrite fmap_cons. cbn [concat fold_result]. rewrite fold_result_app, (Hstep s x) by (done || left).
  destruct (g s x) as [s'|e] eqn:Hg; [| done]. simpl. apply IH.
  - by apply (Hinv s x s'); [| left |].
  - intros s1 y H1 Hy. apply Hstep; [done | by right].
  - intros s1 y s2 H1 Hy. apply Hinv; [done | by right].
Qed.
End result_laws.

Create Rewrite HintDb result.

#[export] Hint Rewrite @bind_ok @reject_if_ok @ok_or_ok @map_err_ok @fmap_ok
  @for_each_ok : result.

(** Inverts every successful result of the context into its steps. *)
Ltac result_inv :=
  repeat match goal with
  | H : Ok _ = Ok _ |- _ => injection H as H; try subst
  | H : Err _ = Err _ |- _ => injection H as H; try subst
  | H : Ok _ = Err _ |- _ => discriminate H
  | H : Err _ = Ok _ |- _ => discriminate H
  | H : mret _ = Ok _ |- _ => injection H as H; try subst
  | H : _ ≫= _ = Ok _ |- _ => apply bind_ok in H as (? & ? & H)
  | H : reject_if _ _ = Ok _ |- _ => apply reject_if_ok in H
  | H : ok_or _ _ = Ok _ |- _ => apply ok_or_ok in H
  | H : map_err _ _ = Ok _ |- _ => apply map_err_ok in H
  | H : for_each _ _ = Ok _ |- _ => apply for_each_ok in H
  | H : _ <$> _ = Ok _ |- _ => apply fmap_ok in H as (? & ? & ?)
  | u : unit |- _ => destruct u
  end.

(** Splits boolean conjunctions and disjunctions that are known. *)
Ltac bool_inv :=
  repeat match goal with
  | H : _ || _ = false |- _ => apply orb_false_iff in H as [? ?]
  | H : _ && _ = true |- _ => apply andb_true_iff in H as [? ?]
  | H : negb _ = true |- _ => apply negb_true_iff in H
  | H : negb _ = false |- _ => apply negb_false_iff in H
  | H : bool_decide _ = true |- _ => apply bool_decide_eq_true in H
  | H : bool_decide _ = false |- _ => apply bool_decide_eq_false in H
  end.

(** Membership goals over [::] and [[]]. *)
Ltac list_mem :=
  rewrite ?elem_of_cons, ?not_elem_of_cons, ?elem_of_nil in *; first [tauto | firstorder congruence].

(** ** Laws of comparators *)

Section preorder_laws.
Context {A : Type} {c : A -> A -> comparison} (Hc : cmp_preorder c).

Lemma cp_refl x : c x x = Eq.
Proof. pose proof (cp_flip _ Hc x x) as H. by destruct (c x x). Qed.

Lemma cp_lt_le x y z : c x y = Lt -> c y z <> Gt -> c x z = Lt.
Proof.
  intros Hxy Hyz. pose proof (cp_flip _ Hc x y) as Fxy.
  pose proof (cp_flip _ Hc x z) as Fxz.
  pose proof (cp_trans _ Hc x y z) as T. pose proof (cp_trans _ Hc y z x) as T'.
  rewrite Hxy in *. destruct (c x z); simpl in *; [|done|].
  - destruct T'; congruence.
  - destruct T; congruence.
Qed.

Lemma cp_le_lt x y z : c x y <> Gt -> c y z = Lt -> c x z = Lt.
Proof.
  intros Hxy Hyz. pose proof (cp_flip _ Hc y z) as Fyz.
  pose proof (cp_flip _ Hc x z) as Fxz.
  pose proof (cp_trans _ Hc x y z) as T. pose proof (cp_trans _ Hc z x y) as T'.
  rewrite Hyz in *. destruct (c x z); simpl in *; [|done|].
  - destruct T'; congruence.
  - destruct T; congruence.
Qed.

Lemma cp_lt_trans x y z : c x y = Lt -> c y z = Lt -> c x z = Lt.
Proof. intros Hxy Hyz. eapply cp_lt_le; [done | congruence]. Qed.

Lemma cp_gt_lt x y : c x y = Gt <-> c y x = Lt.
Proof. rewrite (cp_flip _ Hc x y). by destruct (c x y). Qed.

Lemma cp_eq_sym x y : c x y = Eq -> c y x = Eq.
Proof. rewrite (cp_flip _ Hc x y). by intros ->. Qed.

(** Equivalent elements compare alike with everything. *)
Lemma cp_eq_l x y z : c x y = Eq -> c x z = c y z.
Proof.
  intros Hxy. pose proof (cp_eq_sym _ _ Hxy) as Hyx.
  destruct (c y z) eqn:Hyz.
  - pose proof (cp_flip _ Hc x z) as F. pose proof (cp_flip _ Hc y z) as F'.
    pose proof (cp_trans _ Hc x y z) as T. pose proof (cp_trans _ Hc z y x) as T'.
    rewrite Hxy, Hyx, Hyz in *. simpl in *. rewrite F' in T'.
    destruct (c x z); simpl in *; [done | |].
    + destruct T'; congruence.
    + destruct T; congruence.
  - apply (cp_le_lt x y z); congruence.
  - apply cp_gt_lt. apply cp_gt_lt in Hyz. apply (cp_lt_le z y x); congruence.
Qed.
End preorder_laws.

Lemma cp_on {A B} (f : A -> B) (c : B -> B -> comparison) :
  cmp_preorder c -> cmp_preorder (fun x y => c (f x) (f y)).
Proof. intros [Hf Ht]. split; intros; [apply Hf | eapply Ht; eauto]. Qed.

Lemma cp_rev {A} (c : A -> A -> comparison) :
  cmp_preorder c -> cmp_preorder (fun x y => c y x).
Proof. intros [Hf Ht]. split; intros; [apply Hf | eapply Ht; eauto]. Qed.

Lemma cp_ext {A} (c d : A -> A -> comparison) :
  (forall x y, c x y = d x y) -> cmp_preorder c -> cmp_preorder d.
Proof. intros E [Hf Ht]. split; intros *; rewrite <- !E; [apply Hf | apply Ht]. Qed.

(** [Ordering::then_with] of two comparators. *)
Lemma cp_then {A} (c d : A -> A -> comparison) :
  cmp_preorder c -> cmp_preorder d -> cmp_preorder (fun x y => then_cmp (c x y) (d x y)).
Proof.
  intros Hc Hd. split.
  - intros x y. rewrite (cp_flip _ Hc x y), (cp_flip _ Hd x y). by destruct (c x y).
  - intros x y z. destruct (c x y) eqn:Exy; simpl; [| | done].
    + rewrite (cp_eq_l Hc _ _ z Exy). destruct (c y z); simpl; [| done | done].
      apply (cp_trans _ Hd).
    + intros _. destruct (c y z) eqn:Eyz; simpl; [| | done]; intros _;
        by rewrite (cp_lt_le Hc x y z) by congruence.
Qed.

Lemma cp_list {A} (c : A -> A -> comparison) : cmp_preorder c -> cmp_preorder (list_cmp c).
Proof.
  intros Hc. split.
  - induction x as [|a x IH]; intros [|b y]; simpl; [done.. |].
    rewrite (cp_flip _ Hc a b), IH. by destruct (c a b).
  - induction x as [|a x IH]; intros [|b y] [|d z]; simpl; [done.. |].
    destruct (c a b) eqn:Eab; simpl; [| | done].
    + rewrite (cp_eq_l Hc _ _ d Eab). destruct (c b d); simpl; [| done | done]. apply IH.
    + intros _. destruct (c b d) eqn:Ebd; simpl; [| | done]; intros _;
        by rewrite (cp_lt_le Hc a b d) by congruence.
Qed.

Lemma list_cmp_eq {A} (c : A -> A -> comparison) (l1 l2 : list A) :
  (forall x y, c x y = Eq -> x = y) -> list_cmp c l1 l2 = Eq -> l1 = l2.
Proof.
  intros Hc. revert l2. induction l1 as [|x l1 IH]; intros [|y l2]; simpl; [done.. |].
  destruct (c x y) eqn:E; simpl; [|done|done]. intros ?%IH. f_equal; auto.
Qed.

Lemma cp_N : cmp_preorder N.compare.
Proof. split; intros; [apply N.compare_antisym |]. rewrite !N.compare_le_iff in *. lia. Qed.

#[export] Instance N_ord_laws : RustOrdLaws N.
Proof. split; [apply cp_N | apply N.compare_eq]. Qed.

Lemma ord_on_laws {A B} `{RustOrdLaws B} (f : A -> B) :
  Inj (=) (=) f -> @RustOrdLaws A (ord_on f).
Proof.
  intros Hf. split.
  - apply (cp_on f), cmp_is_preorder.
  - intros x y E. apply Hf. by apply cmp_eq.
Qed.

#[export] Instance bool_ord_laws : RustOrdLaws bool.
Proof. apply (ord_on_laws N.b2n). by intros [] []. Qed.

#[export] Instance ascii_ord_laws : RustOrdLaws Ascii.ascii.
Proof.
  apply (ord_on_laws Ascii.N_of_ascii). intros x y E.
  by rewrite <- (Ascii.ascii_N_embedding x), <- (Ascii.ascii_N_embedding y), E.
Qed.

#[export] Instance list_ord_laws {A} `{RustOrdLaws A} : RustOrdLaws (list A).
Proof.
  split; [apply cp_list, cmp_is_preorder |].
  intros x y. apply list_cmp_eq, cmp_eq.
Qed.

#[export] Instance string_ord_laws : RustOrdLaws string.
Proof.
  apply (ord_on_laws String.list_ascii_of_string). intros x y E.
  by rewrite <- (String.string_of_list_ascii_of_string x),
    <- (String.string_of_list_ascii_of_string y), E.
Qed.

#[export] Instance option_ord_laws {A} `{RustOrdLaws A} : RustOrdLaws (option A).
Proof.
  split; [split|].
  - intros [x|] [y|]; try done. apply (cp_flip _ (cmp_is_preorder (A := A))).
  - intros [x|] [y|] [z|]; try done. apply (cp_trans _ (cmp_is_preorder (A := A))).
  - intros [x|] [y|]; try done. intros E. f_equal. by apply (cmp_eq (A := A)).
Qed.

#[export] Instance prod_ord_laws {A B} `{RustOrdLaws A, RustOrdLaws B} :
  RustOrdLaws (A * B).
Proof.
  split.
  - apply cp_then; apply cp_on, cmp_is_preorder.
  - intros [x1 x2] [y1 y2]. unfold cmp, prod_ord, then_cmp. simpl.
    destruct (cmp x1 y1) eqn:E1; [|done|done]. intros E2.
    by f_equal; apply cmp_eq.
Qed.

Section ord_laws.
Context `{RustOrdLaws A}.
Implicit Types (x y : A) (l s : list A).

Lemma cmp_refl x : cmp x x = Eq.
Proof. apply cp_refl, cmp_is_preorder. Qed.

Lemma cmp_eq_iff x y : cmp x y = Eq <-> x = y.
Proof. split; [apply cmp_eq | intros ->; apply cmp_refl]. Qed.

#[export] Instance clt_trans : Transitive (clt (A := A)).
Proof. intros x y z. apply (cp_lt_trans cmp_is_preorder). Qed.

#[export] Instance clt_irrefl : Irreflexive (clt (A := A)).
Proof. intros x. unfold complement, clt. by rewrite cmp_refl. Qed.

Lemma clt_total x y : clt x y \/ x = y \/ clt y x.
Proof.
  unfold clt. rewrite <- (cp_gt_lt cmp_is_preorder x y), <- cmp_eq_iff.
  destruct (cmp x y); auto.
Qed.

Lemma clt_le x y : clt x y -> cmp x y <> Gt.
Proof. unfold clt. congruence. Qed.

Lemma geb_false x y : geb x y = false <-> clt x y.
Proof. unfold geb, clt. by destruct (cmp x y). Qed.

(** [windows(2).any(|p| p[0] >= p[1])] is the test for strictly increasing. *)
Lemma windows2_geb_sorted l : windows2_any geb l = false <-> StronglySorted clt l.
Proof.
  split.
  - intros Hw. apply (Sorted_StronglySorted clt).
    induction l as [|a [|b t] IH]; simpl in *; [constructor | repeat constructor |].
    apply orb_false_iff in Hw as [Hab Ht]. constructor; [by apply IH |].
    constructor. by apply geb_false.
  - induction 1 as [|a [|b t] Hs IH Hall]; [done.. |].
    simpl. apply orb_false_iff. split; [| apply IH].
    apply geb_false. by apply Forall_cons in Hall as [? _].
Qed.

Lemma clt_sorted_NoDup l : StronglySorted clt l -> NoDup l.
Proof.
  induction 1 as [|a t _ IH Hall]; constructor; [| done].
  intros Hin. rewrite Forall_forall in Hall. by apply (clt_irrefl a), Hall.
Qed.

(** A strictly sorted list is determined by its elements. *)
Lemma clt_sorted_ext l1 l2 :
  StronglySorted clt l1 -> StronglySorted clt l2 ->
  (forall x, x ∈ l1 <-> x ∈ l2) -> l1 = l2.
Proof.
  intros S1 S2 Hext. apply (StronglySorted_unique_strong clt); [| done | done |].
  - intros x y _ _ Hxy Hyx. destruct (clt_irrefl x). by transitivity y.
  - apply NoDup_Permutation; eauto using clt_sorted_NoDup.
Qed.
End ord_laws.

#[export] Hint Resolve cmp_is_preorder clt_sorted_NoDup : rust.

(** ** Laws of [sort_by], [dedup] and [max_by] *)

Section sort_laws.
Context {A : Type} {c : A -> A -> comparison} (Hc : cmp_preorder c).
Implicit Types (x y : A) (l : list A).

Lemma insert_by_perm x l : insert_by c x l ≡ₚ x :: l.
Proof.
  induction l as [|y t IH]; simpl; [done |].
  destruct (is_gt (c x y)); [| done]. rewrite IH. apply Permutation_swap.
Qed.

Lemma sort_by_perm l : sort_by c l ≡ₚ l.
Proof. induction l as [|x t IH]; simpl; [done |]. by rewrite insert_by_perm, IH. Qed.

Lemma insert_by_sorted x l :
  StronglySorted (fun a b => c a b <> Gt) l ->
  StronglySorted (fun a b => c a b <> Gt) (insert_by c x l).
Proof.
  induction 1 as [|y t Hs IH Hall]; simpl; [repeat constructor |].
  destruct (c x y) eqn:E; simpl.
  - constructor; [by constructor |]. constructor; [congruence |].
    eapply Forall_impl; [done |]. intros z Hz. apply (cp_trans _ Hc x y z); [congruence | exact Hz].
  - constructor; [by constructor |]. constructor; [congruence |].
    eapply Forall_impl; [done |]. intros z Hz. apply (cp_trans _ Hc x y z); [congruence | exact Hz].
  - constructor; [done |]. rewrite insert_by_perm. constructor; [| done].
    apply (cp_gt_lt Hc) in E. congruence.
Qed.

Lemma sort_by_sorted l : StronglySorted (fun a b => c a b <> Gt) (sort_by c l).
Proof. induction l; simpl; [constructor | by apply insert_by_sorted]. Qed.

Lemma sort_by_id l : StronglySorted (fun a b => c a b <> Gt) l -> sort_by c l = l.
Proof.
  induction 1 as [|x t Hs IH Hall]; simpl; [done |]. rewrite IH.
  destruct t as [|y t]; [done |]. simpl. apply Forall_cons in Hall as [Hxy _].
  by destruct (c x y).
Qed.

(** Stability: the elements equivalent to [k] keep their order. *)
Lemma sort_by_stable k l :
  base.filter (fun x => c k x = Eq) (sort_by c l) = base.filter (fun x => c k x = Eq) l.
Proof.
  assert (Hins : forall x l', base.filter (fun z => c k z = Eq) (insert_by c x l') =
                              base.filter (fun z => c k z = Eq) (x :: l')).
  { intros x l'. induction l' as [|y t IH]; [done |]. simpl.
    destruct (c x y) eqn:E; simpl; try done.
    rewrite !filter_cons, IH, filter_cons.
    destruct (decide (c k y = Eq)) as [Hy|]; [| done].
    destruct (decide (c k x = Eq)) as [Hx|]; [| done].
    pose proof (cp_eq_l Hc _ _ y Hx) as Hxy. congruence. }
  induction l as [|x t IH]; [done |]. simpl. rewrite Hins, !filter_cons. by rewrite IH.
Qed.
End sort_laws.

#[export] Hint Resolve sort_by_perm : rust.

Section sort_ord_laws.
Context `{RustOrdLaws A}.
Implicit Types (x y : A) (l : list A).

Lemma elem_of_sort x l : x ∈ sort l <-> x ∈ l.
Proof. unfold sort. by rewrite (sort_by_perm (c := cmp) l). Qed.

Lemma length_sort l : length (sort l) = length l.
Proof. unfold sort. by rewrite (sort_by_perm (c := cmp) l). Qed.

Lemma sort_clt_id l : StronglySorted clt l -> sort l = l.
Proof.
  intros Hs. apply sort_by_id. revert Hs. induction 1; constructor; [done |].
  eapply Forall_impl; [done |]. intros y. apply clt_le.
Qed.

(** A list without repetitions sorts to a strictly increasing list. *)
Lemma sort_NoDup_clt l : NoDup l -> StronglySorted clt (sort l).
Proof.
  intros Hnd. assert (Hnd' : NoDup (sort l)) by (unfold sort; by rewrite sort_by_perm).
  pose proof (sort_by_sorted (c := cmp) cmp_is_preorder l) as Hs.
  fold (sort l) in Hs. induction Hs as [|x t Hs IH Hall]; constructor.
  - apply IH. by apply NoDup_cons in Hnd' as [_ ?].
  - apply NoDup_cons in Hnd' as [Hx _]. rewrite Forall_forall in *. intros y Hy.
    unfold clt. specialize (Hall y Hy). destruct (cmp x y) eqn:E; try done.
    apply cmp_eq in E as ->. done.
Qed.

Lemma sort_ext l1 l2 : NoDup l1 -> NoDup l2 -> (forall x, x ∈ l1 <-> x ∈ l2) -> sort l1 = sort l2.
Proof.
  intros. apply clt_sorted_ext; [by apply sort_NoDup_clt.. |].
  intros x. by rewrite !elem_of_sort.
Qed.
End sort_ord_laws.

Section dedup_laws.
Context `{!EqDecision A, RustOrdLaws A}.
Implicit Types (x y : A) (l : list A).

Lemma elem_of_dedup_from z x l : z ∈ x :: dedup_from x l <-> z ∈ x :: l.
Proof.
  revert x. induction l as [|y t IH]; intros x; simpl; [done |].
  destruct (decide (x = y)) as [->|]; [rewrite IH, !elem_of_cons; tauto |].
  rewrite elem_of_cons, IH, !elem_of_cons. tauto.
Qed.

Lemma elem_of_dedup z l : z ∈ dedup l <-> z ∈ l.
Proof. destruct l; [done | apply elem_of_dedup_from]. Qed.

Lemma dedup_sorted l :
  StronglySorted (fun a b => cmp a b <> Gt) l -> StronglySorted clt (dedup l).
Proof.
  assert (Hfrom : forall l x, StronglySorted (fun a b => cmp a b <> Gt) (x :: l) ->
    StronglySorted clt (x :: dedup_from x l)).
  { clear l. induction l as [|y t IH]; intros x Hs; simpl; [repeat constructor |].
    apply StronglySorted_cons in Hs as [Hx Hs].
    apply StronglySorted_cons in Hs as Hyt. destruct Hyt as [Hy Hs'].
    apply Forall_cons in Hx as [Hxy Hx].
    destruct (decide (x = y)) as [->|Hne]; [apply IH; by apply StronglySorted_cons |].
    assert (Hlt : clt x y).
    { unfold clt. destruct (cmp x y) eqn:E; [by apply cmp_eq in E | done | done]. }
    specialize (IH y Hs). constructor; [done |]. constructor; [done |].
    apply StronglySorted_cons in IH as [IH _].
    eapply Forall_impl; [done |]. intros z. by transitivity y. }
  destruct l as [|x t]; [constructor | apply Hfrom].
Qed.

(** [v.sort(); v.dedup();] *)
Lemma dedup_sort_sorted l : StronglySorted clt (dedup (sort l)).
Proof. apply dedup_sorted, sort_by_sorted, cmp_is_preorder. Qed.

Lemma elem_of_dedup_sort x l : x ∈ dedup (sort l) <-> x ∈ l.
Proof. by rewrite elem_of_dedup, elem_of_sort. Qed.
End dedup_laws.

Section max_laws.
Context {A : Type} {c : A -> A -> comparison} (Hc : cmp_preorder c).

Lemma max_by_spec l m :
  max_by c l = Some m -> m ∈ l /\ forall x, x ∈ l -> c x m <> Gt.
Proof.
  destruct l as [|a t]; [done |]. simpl. intros [= <-].
  assert (Hgen : forall t a, let m := foldl (fun m y => if is_gt (c m y) then m else y) a t in
    m ∈ a :: t /\ c a m <> Gt /\ forall x, x ∈ t -> c x m <> Gt).
  { clear a t. induction t as [|y t IH]; intros a; simpl.
    - split; [left |]. split; [by rewrite (cp_refl Hc) | by intros x ?%not_elem_of_nil].
    - specialize (IH (if is_gt (c a y) then a else y)) as (Hin & Hge & Hall).
      set (m := foldl _ _ t) in *. split.
      { rewrite !elem_of_cons in *. destruct (is_gt (c a y)); tauto. }
      assert (c a (if is_gt (c a y) then a else y) <> Gt /\
              c y (if is_gt (c a y) then a else y) <> Gt) as [Ha Hy].
      { destruct (c a y) eqn:E; simpl; rewrite ?E, ?(cp_refl Hc); try done.
        apply (cp_gt_lt Hc) in E. by rewrite E. }
      split; [by eapply (cp_trans _ Hc) |].
      intros x [->|Hx]%elem_of_cons; [by eapply (cp_trans _ Hc) | auto]. }
  destruct (Hgen t a) as (Hin & Ha & Hall). split; [done |].
  intros x [->|Hx]%elem_of_cons; auto.
Qed.
End max_laws.

(** ** Laws of ordered sets and maps *)

Section bset_laws.
Context `{RustOrdLaws A}.
Implicit Types (x y : A) (s l : list A).

Lemma elem_of_bset_insert y x s : y ∈ bset_insert x s <-> y = x \/ y ∈ s.
Proof.
  induction s as [|z s IH]; simpl; [list_mem |].
  destruct (cmp x z) eqn:E; [| list_mem |].
  - apply cmp_eq in E as ->. list_mem.
  - rewrite !elem_of_cons, IH. tauto.
Qed.

Lemma bset_insert_sorted x s : StronglySorted clt s -> StronglySorted clt (bset_insert x s).
Proof.
  induction 1 as [|y t Hs IH Hall]; simpl; [repeat constructor |].
  destruct (cmp x y) eqn:E.
  - by constructor.
  - constructor; [by constructor |]. constructor; [done |].
    eapply Forall_impl; [done |]. intros z. by transitivity y.
  - constructor; [done |]. apply Forall_forall. intros z [->|Hz]%elem_of_bset_insert.
    + by apply (cp_gt_lt cmp_is_preorder) in E.
    + rewrite Forall_forall in Hall. auto.
Qed.

Lemma bset_of_list_spec_aux l s :
  StronglySorted clt s ->
  StronglySorted clt (foldl (fun s x => bset_insert x s) s l) /\
  forall x, x ∈ foldl (fun s x => bset_insert x s) s l <-> x ∈ s \/ x ∈ l.
Proof.
  revert s. induction l as [|y l IH]; intros s Hs; simpl.
  { split; [done |]. intros x. list_mem. }
  destruct (IH (bset_insert y s)) as [? Hin]; [by apply bset_insert_sorted |].
  split; [done |]. intros x. rewrite Hin, elem_of_bset_insert, elem_of_cons. tauto.
Qed.

Lemma elem_of_bset_of_list x l : x ∈ bset_of_list l <-> x ∈ l.
Proof.
  destruct (bset_of_list_spec_aux l []) as [_ Hin]; [constructor |].
  unfold bset_of_list. rewrite Hin. split; [intros [?%not_elem_of_nil|?]; done | auto].
Qed.

Lemma bset_of_list_sorted l : StronglySorted clt (bset_of_list l).
Proof. apply (bset_of_list_spec_aux l []). constructor. Qed.

Lemma bset_of_list_NoDup l : NoDup (bset_of_list l).
Proof. apply clt_sorted_NoDup, bset_of_list_sorted. Qed.

Lemma length_bset_of_list l : NoDup l -> length (bset_of_list l) = length l.
Proof.
  intros Hnd. apply Permutation_length, NoDup_Permutation;
    [apply bset_of_list_NoDup | done | intros x; apply elem_of_bset_of_list].
Qed.

(** [set.len() != vec.len()] detects repetitions. *)
Lemma length_bset_of_list_NoDup l : length (bset_of_list l) = length l -> NoDup l.
Proof.
  intros Hlen.
  assert (Hperm : bset_of_list l ≡ₚ l).
  { apply submseteq_length_Permutation; [| lia].
    apply NoDup_submseteq; [apply bset_of_list_NoDup |].
    intros x. apply elem_of_bset_of_list. }
  rewrite <- Hperm. apply bset_of_list_NoDup.
Qed.

Lemma bset_contains_spec x s : bset_contains x s = true <-> x ∈ s.
Proof.
  unfold bset_contains. rewrite existsb_exists. setoid_rewrite <- list_elem_of_In. split.
  - intros (y & Hy & E). destruct (cmp x y) eqn:E'; try done. by apply cmp_eq in E' as ->.
  - intros Hx. exists x. by rewrite cmp_refl.
Qed.

Lemma bset_contains_false x s : bset_contains x s = false <-> x ∉ s.
Proof. rewrite <- bset_contains_spec. by destruct (bset_contains x s). Qed.

Lemma elem_of_bset_remove y x s : y ∈ bset_remove x s <-> y <> x /\ y ∈ s.
Proof.
  unfold bset_remove. rewrite list_elem_of_filter, cmp_eq_iff. naive_solver.
Qed.

Lemma bset_remove_sorted x s : StronglySorted clt s -> StronglySorted clt (bset_remove x s).
Proof.
  unfold bset_remove. induction 1 as [|y t Hs IH Hall]; [constructor |].
  rewrite filter_cons. destruct (decide _); [| done]. constructor; [done |].
  apply Forall_forall. intros z [_ Hz]%list_elem_of_filter.
  rewrite Forall_forall in Hall. auto.
Qed.

Lemma length_bset_remove x s :
  NoDup s -> x ∈ s -> S (length (bset_remove x s)) = length s.
Proof.
  intros Hnd Hx. change (length (x :: bset_remove x s) = length s).
  apply Permutation_length, NoDup_Permutation; [| done |].
  - constructor; [by intros [[] _]%elem_of_bset_remove | by apply NoDup_filter].
  - intros y. rewrite elem_of_cons, elem_of_bset_remove.
    destruct (cmp y x) eqn:E; [apply cmp_eq in E as ->; tauto | |];
      assert (y <> x) by (intros ->; by rewrite cmp_refl in E); tauto.
Qed.
End bset_laws.

Section bmap_laws.
Context {V : Type} `{RustOrdLaws K}.
Implicit Types (k : K) (v : V) (m : list (K * V)).

Lemma bmap_lookup_insert_eq k v m : bmap_lookup k (bmap_insert k v m) = Some v.
Proof.
  induction m as [|[k' v'] m IH]; simpl; [by rewrite cmp_refl |].
  destruct (cmp k k') eqn:E; simpl; [by rewrite E | by rewrite cmp_refl | by rewrite E].
Qed.

Lemma bmap_lookup_insert_ne k k' v m :
  k <> k' -> bmap_lookup k' (bmap_insert k v m) = bmap_lookup k' m.
Proof.
  intros Hne. assert (Hf : is_eq (cmp k' k) = false).
  { destruct (cmp k' k) eqn:E; try done. apply cmp_eq in E. congruence. }
  induction m as [|[k0 v0] m IH]; simpl; [by rewrite Hf |].
  destruct (cmp k k0) eqn:E; simpl; [| by rewrite Hf | by rewrite IH].
  apply cmp_eq in E as <-. by rewrite Hf.
Qed.

Lemma bmap_lookup_elem k v m : bmap_lookup k m = Some v -> (k, v) ∈ m.
Proof.
  induction m as [|[k' v'] m IH]; simpl; [done |].
  destruct (cmp k k') eqn:E; simpl; [| intros ?; right; auto..].
  apply cmp_eq in E as ->. intros [= ->]. left.
Qed.

Lemma elem_bmap_lookup k v m : NoDup m.*1 -> (k, v) ∈ m -> bmap_lookup k m = Some v.
Proof.
  induction m as [|[k' v'] m IH]; simpl; [by intros _ ?%not_elem_of_nil |].
  intros [Hk Hnd]%NoDup_cons [[= <- <-]|Hin]%elem_of_cons; [by rewrite cmp_refl |].
  destruct (cmp k k') eqn:E; simpl; [| by apply IH..].
  apply cmp_eq in E as ->. destruct Hk. apply list_elem_of_fmap. by exists (k', v).
Qed.

Lemma bmap_lookup_None k m : bmap_lookup k m = None <-> k ∉ m.*1.
Proof.
  induction m as [|[k' v'] m IH]; simpl; [list_mem |].
  destruct (cmp k k') eqn:E; simpl.
  - apply cmp_eq in E as ->. list_mem.
  - rewrite IH, not_elem_of_cons.
    assert (k <> k') by (intros ->; by rewrite cmp_refl in E). tauto.
  - rewrite IH, not_elem_of_cons.
    assert (k <> k') by (intros ->; by rewrite cmp_refl in E). tauto.
Qed.

Lemma bmap_insert_keys k v m : (bmap_insert k v m).*1 = bset_insert k m.*1.
Proof.
  induction m as [|[k' v'] m IH]; simpl; [done |].
  destruct (cmp k k') eqn:E; csimpl; [done | done | by rewrite IH].
Qed.

Lemma bmap_insert_sorted k v m :
  StronglySorted clt m.*1 -> StronglySorted clt (bmap_insert k v m).*1.
Proof. rewrite bmap_insert_keys. apply bset_insert_sorted. Qed.

Lemma bmap_remove_keys k m : (bmap_remove k m).*1 = bset_remove k m.*1.
Proof.
  unfold bmap_remove, bset_remove. induction m as [|[k' v'] m IH]; [done |].
  rewrite fmap_cons, !filter_cons. simpl.
  destruct (decide (cmp k k' <> Eq)); csimpl; by rewrite ?IH.
Qed.

Lemma bmap_remove_sorted k m :
  StronglySorted clt m.*1 -> StronglySorted clt (bmap_remove k m).*1.
Proof. rewrite bmap_remove_keys. apply bset_remove_sorted. Qed.

Lemma bmap_lookup_remove_eq k m : bmap_lookup k (bmap_remove k m) = None.
Proof. rewrite bmap_lookup_None, bmap_remove_keys, elem_of_bset_remove. tauto. Qed.

Lemma bmap_lookup_remove_ne k k' m :
  k <> k' -> bmap_lookup k' (bmap_remove k m) = bmap_lookup k' m.
Proof.
  intros Hne. unfold bmap_remove. induction m as [|[k0 v0] m IH]; [done |].
  rewrite filter_cons. simpl. destruct (decide _) as [Hk|Hk]; simpl; [by rewrite IH |].
  rewrite IH. destruct (cmp k k0) eqn:E; try by destruct Hk.
  apply cmp_eq in E as <-.
  destruct (cmp k' k) eqn:E'; [by apply cmp_eq in E' |done | done].
Qed.

Lemma elem_of_bmap_remove p k m : p ∈ bmap_remove k m <-> p.1 <> k /\ p ∈ m.
Proof.
  unfold bmap_remove. rewrite list_elem_of_filter, cmp_eq_iff. naive_solver.
Qed.

Lemma elem_of_bmap_insert k v m p :
  StronglySorted clt m.*1 -> p ∈ bmap_insert k v m <-> p = (k, v) \/ (p.1 <> k /\ p ∈ m).
Proof.
  induction m as [|[k' v'] m IH]; simpl; [list_mem |].
  intros [Hk Hs]%StronglySorted_cons. specialize (IH Hs).
  assert (Hfst : forall q, q ∈ m -> clt k' q.1).
  { intros q Hq. rewrite Forall_forall in Hk. by apply Hk, list_elem_of_fmap_2. }
  destruct (cmp k k') eqn:E; rewrite !elem_of_cons.
  - apply cmp_eq in E as ->. split; [intros [->|Hp] | naive_solver]; [by left | right].
    split; [| by right]. intros Hpk. apply Hfst in Hp. rewrite Hpk in Hp.
    by apply clt_irrefl in Hp.
  - split; [intros [->|[->|Hp]] | naive_solver]; [by left | right..]; (split; [| tauto]).
    + simpl. intros ->. by apply clt_irrefl in E.
    + intros Hpk. apply Hfst in Hp. rewrite Hpk in Hp. apply (clt_irrefl k).
      by transitivity k'.
  - rewrite IH. assert (k' <> k) by (intros ->; by rewrite cmp_refl in E). naive_solver.
Qed.
End bmap_laws.

#[export] Hint Resolve bset_of_list_sorted bset_insert_sorted bset_remove_sorted
  bmap_insert_sorted bmap_remove_sorted : rust.

(** ** Filters *)

Lemma filter_all {A} (P : A -> Prop) `{!forall x, Decision (P x)} (l : list A) :
  (forall x, x ∈ l -> P x) -> base.filter P l = l.
Proof.
  induction l as [|y l IH]; intros Hall; [done |]. rewrite filter_cons_True by (apply Hall; by left).
  rewrite IH; [done |]. intros x Hx. apply Hall. by right.
Qed.

Lemma StronglySorted_filter {A} (R : A -> A -> Prop) (P : A -> Prop) `{!forall x, Decision (P x)} l :
  StronglySorted R l -> StronglySorted R (base.filter P l).
Proof.
  induction 1 as [|x l Hs IH Hx]; [constructor |]. rewrite filter_cons. case_decide; [| done].
  constructor; [done |]. apply Forall_forall. intros y [_ Hy]%list_elem_of_filter.
  rewrite Forall_forall in Hx. by apply Hx.
Qed.

Lemma filter_nil_iff {A} (P : A -> Prop) `{!forall x, Decision (P x)} (l : list A) :
  base.filter P l = [] <-> forall x, x ∈ l -> ~ P x.
Proof.
  induction l as [|y l IH].
  - split; [intros _ ? ?%not_elem_of_nil; done | done].
  - rewrite filter_cons. setoid_rewrite elem_of_cons. destruct (decide (P y)) as [Hy|Hy].
    + split; [done |]. intros Hl. by destruct (Hl y (or_introl eq_refl)).
    + rewrite IH. split; [intros Hl x [->|Hx]; auto | auto].
Qed.

(** A key without duplicates picks one element. *)
Lemma filter_unique_key {A K} `{EqDecision K} (f : A -> K) (k : K) l x :
  NoDup (f <$> l) -> x ∈ l -> f x = k -> base.filter (fun y => f y = k) l = [x].
Proof.
  induction l as [|y l IH]; [by intros _ ?%not_elem_of_nil |].
  rewrite fmap_cons, NoDup_cons, elem_of_cons. intros [Hy Hnd] [->|Hx] Hk; rewrite filter_cons.
  - rewrite decide_True by done. f_equal. apply filter_nil_iff.
    intros z Hz Hf. apply Hy. rewrite list_elem_of_fmap. exists z. split; [congruence | done].
  - rewrite decide_False; [auto |]. intros Hf. apply Hy. rewrite list_elem_of_fmap.
    exists x. split; [congruence | done].
Qed.

Lemma existsb_false {A} (f : A -> bool) l : existsb f l = false <-> Forall (fun x => f x = false) l.
Proof.
  induction l as [|x l IH]; simpl; [split; [constructor | done] |].
  by rewrite orb_false_iff, Forall_cons, IH.
Qed.

Lemma forallb_true {A} (f : A -> bool) l : forallb f l = true <-> Forall (fun x => f x = true) l.
Proof.
  induction l as [|x l IH]; simpl; [split; [constructor | done] |].
  by rewrite andb_true_iff, Forall_cons, IH.
Qed.

Lemma existsb_true {A} (f : A -> bool) l : existsb f l = true <-> exists x, x ∈ l /\ f x = true.
Proof. rewrite existsb_exists. by setoid_rewrite list_elem_of_In. Qed.

(** ** More on ordered maps *)

Section bmap_more.
Context {K V : Type} `{RustOrdLaws K}.
Implicit Types (m l : list (K * V)).

Lemma bmap_insert_last k (v : V) m :
  Forall (fun k' => clt k' k) m.*1 -> bmap_insert k v m = m ++ [(k, v)].
Proof.
  induction m as [|[k' v'] m IH]; csimpl; [done |]. intros [Hk Hm]%Forall_cons.
  unfold clt in Hk. rewrite (cp_flip cmp cmp_is_preorder k' k), Hk. simpl. by rewrite IH.
Qed.

(** A list in the order of its keys is the map it builds. *)
Lemma bmap_of_list_id l : StronglySorted clt l.*1 -> bmap_of_list l = l.
Proof.
  unfold bmap_of_list. change l with ([] ++ l) at 1 3. generalize (@nil (K * V)) as acc.
  induction l as [|[k v] l IH]; intros acc; [by rewrite app_nil_r |]. simpl. intros Hs.
  rewrite bmap_insert_last.
  - rewrite IH; [by rewrite <- app_assoc |]. by rewrite <- app_assoc.
  - rewrite fmap_app in Hs. csimpl in Hs. apply Forall_forall. intros k' Hk'.
    apply StronglySorted_app in Hs as (Hlt & _ & _). apply (Hlt k' k Hk'). left.
Qed.

Lemma bmap_of_list_keys l : (bmap_of_list l).*1 = bset_of_list l.*1.
Proof.
  unfold bmap_of_list, bset_of_list.
  change (@nil K) with ((@nil (K * V)).*1). generalize (@nil (K * V)) as acc.
  induction l as [|[k v] l IH]; intros acc; csimpl; [done |].
  by rewrite IH, bmap_insert_keys.
Qed.

Lemma bmap_insert_perm k (v : V) m : k ∉ m.*1 -> bmap_insert k v m ≡ₚ (k, v) :: m.
Proof.
  induction m as [|[k' v'] m IH]; csimpl; [done |]. intros [Hk Hm]%not_elem_of_cons.
  destruct (cmp k k') eqn:E; [by apply cmp_eq in E | done |].
  rewrite IH by done. apply Permutation_swap.
Qed.

Lemma bmap_of_list_perm l : NoDup l.*1 -> bmap_of_list l ≡ₚ l.
Proof.
  intros Hnd. unfold bmap_of_list.
  assert (Hgen : forall acc, NoDup (acc ++ l).*1 ->
    foldl (fun m p => bmap_insert p.1 p.2 m) acc l ≡ₚ acc ++ l).
  { clear Hnd. induction l as [|[k v] l IH]; intros acc Hnd; simpl; [by rewrite app_nil_r |].
    rewrite fmap_app in Hnd. csimpl in Hnd.
    assert (Hk : k ∉ acc.*1).
    { apply NoDup_app in Hnd as (_ & Hd & _). intros Hin. apply (Hd k Hin). left. }
    assert (Hp : bmap_insert k v acc ++ l ≡ₚ acc ++ (k, v) :: l).
    { rewrite bmap_insert_perm by done. apply Permutation_middle. }
    rewrite IH; [done |]. rewrite Hp, fmap_app. done. }
  by apply (Hgen []).
Qed.

(** A map collected from pairs: the last pair of a key wins. *)
Lemma elem_of_bmap_insert_sub k (v : V) m p : p ∈ bmap_insert k v m -> p.2 = v /\ p.1 = k \/ p ∈ m.
Proof.
  induction m as [|[k' v'] m IH]; simpl.
  - intros ->%list_elem_of_singleton. auto.
  - destruct (cmp k k') eqn:E; rewrite !elem_of_cons.
    + apply cmp_eq in E as ->. intros [->|?]; auto.
    + intros [->|?]; auto.
    + intros [->|Hp]; [auto |]. destruct (IH Hp) as [?|?]; auto.
Qed.

Lemma elem_of_bmap_of_list l p : p ∈ bmap_of_list l -> p ∈ l.
Proof.
  assert (Hgen : forall acc : list (K * V),
    p ∈ foldl (fun m p => bmap_insert p.1 p.2 m) acc l -> p ∈ acc \/ p ∈ l).
  { induction l as [|[k v] l IH]; intros acc Hp; simpl in *; [by left |].
    destruct (IH _ Hp) as [Hin|Hin]; [| right; by right].
    apply elem_of_bmap_insert_sub in Hin as [[Hv Hk]|?]; [| by left].
    right. apply elem_of_cons. left. destruct p; simpl in *; congruence. }
  intros Hp. destruct (Hgen [] Hp) as [?%elem_of_nil|?]; done.
Qed.

Lemma bmap_of_list_NoDup l : NoDup (bmap_of_list l).*1.
Proof. rewrite bmap_of_list_keys. apply bset_of_list_NoDup. Qed.

Lemma bmap_lookup_of_list_Some l k (v : V) : bmap_lookup k (bmap_of_list l) = Some v -> (k, v) ∈ l.
Proof. intros Hl. by apply elem_of_bmap_of_list, bmap_lookup_elem. Qed.

Lemma bmap_lookup_of_list_None l k : bmap_lookup k (bmap_of_list l) = None <-> k ∉ l.*1.
Proof. by rewrite bmap_lookup_None, bmap_of_list_keys, elem_of_bset_of_list. Qed.

Lemma bmap_lookup_of_list l k (v : V) :
  NoDup l.*1 -> bmap_lookup k (bmap_of_list l) = Some v <-> (k, v) ∈ l.
Proof.
  intros Hnd. split; [apply bmap_lookup_of_list_Some |]. intros Hin.
  apply elem_bmap_lookup; [apply bmap_of_list_NoDup |]. by rewrite bmap_of_list_perm.
Qed.

Lemma bmap_remove_perm k (v : V) m :
  NoDup m.*1 -> bmap_lookup k m = Some v -> m ≡ₚ (k, v) :: bmap_remove k m.
Proof.
  intros Hnd Hv%bmap_lookup_elem. apply NoDup_Permutation.
  - by apply NoDup_fmap_1 in Hnd.
  - constructor; [by rewrite elem_of_bmap_remove; intros [? _] |].
    apply NoDup_fmap_1 in Hnd. unfold bmap_remove. by apply NoDup_filter.
  - intros [k' v']. rewrite elem_of_cons, elem_of_bmap_remove. simpl. split.
    + intros Hin. destruct (decide (cmp k k' = Eq)) as [E|E].
      * apply cmp_eq in E as <-. left. f_equal.
        pose proof (elem_bmap_lookup k v' m Hnd Hin). pose proof (elem_bmap_lookup k v m Hnd Hv).
        congruence.
      * right. split; [| done]. intros ->. apply E, cmp_refl.
    + intros [[= -> ->]|[_ ?]]; done.
Qed.
End bmap_more.

(** [HashSet::insert] over a sequence of keys: the first key met twice. *)
Fixpoint first_repeated {A} `{EqDecision A} (seen l : list A) : option A :=
  match l with
  | [] => None
  | x :: l => if bool_decide (x ∈ seen) then Some x else first_repeated (x :: seen) l
  end.

Lemma first_repeated_None {A} `{EqDecision A} (seen l : list A) :
  first_repeated seen l = None <-> NoDup l /\ forall x, x ∈ l -> x ∉ seen.
Proof.
  revert seen. induction l as [|x l IH]; intros seen; simpl.
  - split; [intros _; split; [constructor | by intros ? ?%not_elem_of_nil] | done].
  - case_bool_decide as Hx.
    + split; [done |]. intros [_ H]. destruct (H x); [left | done].
    + rewrite IH, NoDup_cons. setoid_rewrite elem_of_cons. naive_solver.
Qed.
