(* ===== verification/RustStr.v ===== *)
(** * Rust strings

    The part of [core::str], [u8] and [char] the modelled code uses.  A [String] is the
    byte string of its UTF-8 encoding, so [len], [bytes] and the derived order are those
    of the bytes; [chars] decodes it, and the [char] predicates range over code points. *)
From Stdlib Require Import Ascii.
From S2P Require Import Prelude.

Local Open Scope N_scope.

(** ** Bytes *)

Abbreviation byte := Ascii.ascii.

Definition byte_val (b : byte) : N := Ascii.N_of_ascii b.

Definition in_range (lo hi v : N) : bool := (lo <=? v) && (v <=? hi).

(** [u8::is_ascii_digit] and the other ASCII classes. *)
Definition is_ascii_digit (b : byte) : bool := in_range 48 57 (byte_val b).
Definition is_ascii_uppercase (b : byte) : bool := in_range 65 90 (byte_val b).
Definition is_ascii_lowercase (b : byte) : bool := in_range 97 122 (byte_val b).
Definition is_ascii_alphabetic (b : byte) : bool := is_ascii_uppercase b || is_ascii_lowercase b.
Definition is_ascii_alphanumeric (b : byte) : bool := is_ascii_alphabetic b || is_ascii_digit b.
Definition is_ascii_hexdigit (b : byte) : bool :=
  is_ascii_digit b || in_range 65 70 (byte_val b) || in_range 97 102 (byte_val b).

Definition byte_to_lower (b : byte) : byte :=
  if is_ascii_uppercase b then Ascii.ascii_of_N (byte_val b + 32) else b.
Definition byte_to_upper (b : byte) : byte :=
  if is_ascii_lowercase b then Ascii.ascii_of_N (byte_val b - 32) else b.

(** ** Strings as bytes *)

Definition bytes (s : string) : list byte := String.list_ascii_of_string s.
Definition of_bytes (l : list byte) : string := String.string_of_list_ascii l.

(** [str::len]. *)
Definition str_len (s : string) : N := N.of_nat (length (bytes s)).
Definition str_is_empty (s : string) : bool := bool_decide (s = "").

Definition to_ascii_lowercase (s : string) : string := of_bytes (byte_to_lower <$> bytes s).
Definition to_ascii_uppercase (s : string) : string := of_bytes (byte_to_upper <$> bytes s).

(** ** Characters *)

Fixpoint utf8_decode (l : list byte) : list N :=
  match l with
  | [] => []
  | a :: t =>
      let x := byte_val a in
      if x <? 128 then x :: utf8_decode t
      else if x <? 224 then
        match t with
        | b :: t => ((x - 192) * 64 + (byte_val b - 128)) :: utf8_decode t
        | _ => []
        end
      else if x <? 240 then
        match t with
        | b :: c :: t =>
            ((x - 224) * 4096 + (byte_val b - 128) * 64 + (byte_val c - 128)) :: utf8_decode t
        | _ => []
        end
      else
        match t with
        | b :: c :: d :: t =>
            ((x - 240) * 262144 + (byte_val b - 128) * 4096 + (byte_val c - 128) * 64
              + (byte_val d - 128)) :: utf8_decode t
        | _ => []
        end
  end.

(** [str::chars], as code points. *)
Definition chars (s : string) : list N := utf8_decode (bytes s).

(** [char::is_control]: general category Cc. *)
Definition char_is_control (c : N) : bool := (c <=? 31) || in_range 127 159 c.

(** [char::is_whitespace]: Unicode [White_Space]. *)
Definition char_is_whitespace (c : N) : bool :=
  in_range 9 13 c || (c =? 32) || (c =? 133) || (c =? 160) || (c =? 5760)
  || in_range 8192 8202 c || (c =? 8232) || (c =? 8233) || (c =? 8239) || (c =? 8287)
  || (c =? 12288).

Fixpoint drop_while {A} (f : A -> bool) (l : list A) : list A :=
  match l with
  | [] => []
  | x :: t => if f x then drop_while f t else x :: t
  end.

Fixpoint take_while {A} (f : A -> bool) (l : list A) : list A :=
  match l with
  | [] => []
  | x :: t => if f x then x :: take_while f t else []
  end.

(** [str::trim_start] and [str::trim] on the decoded characters. *)
Definition chars_trim_start (l : list N) : list N := drop_while char_is_whitespace l.
Definition chars_trim (l : list N) : list N := rev (chars_trim_start (rev (chars_trim_start l))).

(** ** Formatting *)

(** [{}] of an unsigned integer. *)
Definition display (n : N) : string := pretty n.

Definition hex_digit (n : N) : byte :=
  Ascii.ascii_of_N (if n <? 10 then 48 + n else 87 + n).

Fixpoint hex_digits (fuel : nat) (n : N) (acc : list byte) : list byte :=
  match fuel with
  | O => acc
  | S fuel =>
      let acc := hex_digit (n mod 16) :: acc in
      if n <? 16 then acc else hex_digits fuel (n / 16) acc
  end.

(** [char::escape_default]; a code point has at most six hexadecimal digits. *)
Definition char_escape_default (c : N) : list byte :=
  let backslash := Ascii.ascii_of_N 92 in
  if c =? 9 then [backslash; "t"%char]
  else if c =? 13 then [backslash; "r"%char]
  else if c =? 10 then [backslash; "n"%char]
  else if (c =? 39) || (c =? 34) || (c =? 92) then [backslash; Ascii.ascii_of_N c]
  else if in_range 32 126 c then [Ascii.ascii_of_N c]
  else [backslash; "u"%char; "{"%char] ++ hex_digits 6 c [] ++ ["}"%char].

(** [str::escape_default]. *)
Definition escape_default (s : string) : string :=
  of_bytes (concat (char_escape_default <$> chars s)).

(** ** Lemmas *)

Lemma bytes_of_bytes l : bytes (of_bytes l) = l.
Proof. apply String.list_ascii_of_string_of_list_ascii. Qed.

Lemma of_bytes_bytes s : of_bytes (bytes s) = s.
Proof. apply String.string_of_list_ascii_of_string. Qed.

Lemma byte_val_lt b : byte_val b < 256.
Proof. apply Ascii.N_ascii_bounded. Qed.

Lemma byte_val_of_N n : n < 256 -> byte_val (Ascii.ascii_of_N n) = n.
Proof. apply Ascii.N_ascii_embedding. Qed.

Lemma in_range_spec lo hi v : in_range lo hi v = true <-> lo <= v <= hi.
Proof. unfold in_range. rewrite andb_true_iff, !N.leb_le. done. Qed.

Lemma in_range_false lo hi v : in_range lo hi v = false <-> v < lo \/ hi < v.
Proof. unfold in_range. rewrite andb_false_iff, !N.leb_gt. done. Qed.

Lemma str_len_of_bytes l : str_len (of_bytes l) = N.of_nat (length l).
Proof. unfold str_len. by rewrite bytes_of_bytes. Qed.

Lemma str_len_lower s : str_len (to_ascii_lowercase s) = str_len s.
Proof.
  unfold to_ascii_lowercase. rewrite str_len_of_bytes, length_fmap. done.
Qed.

Lemma str_is_empty_spec s : str_is_empty s = true <-> s = "".
Proof. apply bool_decide_eq_true. Qed.

Lemma str_is_empty_false s : str_is_empty s = false <-> s <> "".
Proof. apply bool_decide_eq_false. Qed.

(** [to_ascii_lowercase] clears the upper case letters and keeps everything else. *)
Lemma byte_to_lower_val b :
  byte_val (byte_to_lower b) =
    if in_range 65 90 (byte_val b) then byte_val b + 32 else byte_val b.
Proof.
  unfold byte_to_lower, is_ascii_uppercase. destruct (in_range 65 90 _) eqn:E; [| done].
  apply in_range_spec in E. apply byte_val_of_N. lia.
Qed.

Ltac byte_cases :=
  unfold is_ascii_hexdigit, is_ascii_alphanumeric, is_ascii_alphabetic, is_ascii_uppercase,
    is_ascii_lowercase, is_ascii_digit in *;
  rewrite ?byte_to_lower_val;
  repeat match goal with
  | |- context [in_range ?lo ?hi ?v] => destruct (in_range lo hi v) eqn:?
  | H : context [in_range ?lo ?hi ?v] |- _ =>
      lazymatch type of H with in_range lo hi v = _ => fail | _ =>
        destruct (in_range lo hi v) eqn:? end
  end;
  repeat match goal with
  | H : in_range _ _ _ = true |- _ => apply in_range_spec in H
  | H : in_range _ _ _ = false |- _ => apply in_range_false in H
  end.

Lemma byte_to_lower_not_upper b : is_ascii_uppercase (byte_to_lower b) = false.
Proof. byte_cases; try done; lia. Qed.

Lemma byte_to_lower_hexdigit b : is_ascii_hexdigit (byte_to_lower b) = is_ascii_hexdigit b.
Proof. byte_cases; try done; lia. Qed.

Lemma byte_to_lower_id b : is_ascii_uppercase b = false -> byte_to_lower b = b.
Proof. unfold byte_to_lower. by intros ->. Qed.

Lemma to_ascii_lowercase_id s :
  forallb (fun b => negb (is_ascii_uppercase b)) (bytes s) = true -> to_ascii_lowercase s = s.
Proof.
  intros Hall. unfold to_ascii_lowercase. rewrite <- (of_bytes_bytes s) at 2. f_equal.
  induction (bytes s) as [|b t IH]; csimpl in *; [done |]. bool_inv.
  by rewrite byte_to_lower_id, IH.
Qed.

Section while_laws.
Context {A : Type} (f : A -> bool).

Lemma take_drop_while l : take_while f l ++ drop_while f l = l.
Proof. induction l as [|x t IH]; simpl; [done |]. destruct (f x); simpl; by rewrite ?IH. Qed.

Lemma length_drop_while l : (length (drop_while f l) <= length l)%nat.
Proof. induction l as [|x t IH]; simpl; [lia |]. destruct (f x); simpl; lia. Qed.

Lemma drop_while_nil l : drop_while f l = [] <-> forallb f l = true.
Proof.
  induction l as [|x t IH]; simpl; [done |]. destruct (f x); simpl; [done |].
  split; discriminate.
Qed.

Lemma drop_while_head l x t : drop_while f l = x :: t -> f x = false.
Proof.
  induction l as [|y l IH]; simpl; [done |]. destruct (f y) eqn:E; [done |].
  by intros [= <- <-].
Qed.

Lemma take_while_all l : forallb f (take_while f l) = true.
Proof. induction l as [|x t IH]; simpl; [done |]. destruct (f x) eqn:E; simpl; by rewrite ?E. Qed.

Lemma take_while_head l x t : take_while f (x :: t) = l -> f x = true -> l <> [].
Proof. simpl. by intros <- ->. Qed.
End while_laws.

Create Rewrite HintDb rust_str.

#[export] Hint Rewrite bytes_of_bytes of_bytes_bytes str_len_of_bytes str_len_lower : rust_str.

(** ** Searching *)

Section search.
Context {A : Type} `{EqDecision A}.

(** [starts_with] and [strip_prefix]. *)
Fixpoint strip_prefix (p l : list A) : option (list A) :=
  match p, l with
  | [], _ => Some l
  | _ :: _, [] => None
  | x :: p, y :: l => if decide (x = y) then strip_prefix p l else None
  end.

Definition starts_with (p l : list A) : bool :=
  match strip_prefix p l with Some _ => true | None => false end.

(** [contains] of a non-empty or empty pattern. *)
Fixpoint contains (p l : list A) : bool :=
  starts_with p l || match l with [] => false | _ :: l => contains p l end.

(** [split_once]: at the first occurrence. *)
Fixpoint split_once (p l : list A) : option (list A * list A) :=
  match strip_prefix p l with
  | Some rest => Some ([], rest)
  | None =>
      match l with
      | [] => None
      | x :: l => (fun r => (x :: r.1, r.2)) <$> split_once p l
      end
  end.

(** [rsplit_once] of one element: at the last occurrence. *)
Fixpoint rsplit_once (c : A) (l : list A) : option (list A * list A) :=
  match l with
  | [] => None
  | x :: l =>
      match rsplit_once c l with
      | Some (a, b) => Some (x :: a, b)
      | None => if decide (x = c) then Some ([], l) else None
      end
  end.

Lemma strip_prefix_some p l r : strip_prefix p l = Some r <-> l = p ++ r.
Proof.
  revert l. induction p as [|x p IH]; intros [|y l]; simpl; [naive_solver.. |].
  case_decide as Hxy; [subst; rewrite IH; naive_solver | naive_solver].
Qed.

Lemma starts_with_spec p l : starts_with p l = true <-> exists r, l = p ++ r.
Proof.
  unfold starts_with. setoid_rewrite <- strip_prefix_some.
  destruct (strip_prefix p l); naive_solver.
Qed.

Lemma contains_spec p l : contains p l = true <-> exists a b, l = a ++ p ++ b.
Proof.
  induction l as [|x l IH]; simpl; rewrite orb_true_iff, starts_with_spec.
  - split.
    + intros [[r Hr]|]; [by exists [], r | done].
    + intros (a & b & Hab). left. symmetry in Hab.
      apply app_nil in Hab as [-> Hab]. by exists b.
  - rewrite IH. split.
    + intros [[r Hr]|(a & b & ->)]; [by exists [], r | by exists (x :: a), b].
    + intros ([|y a] & b & Hab); [left; by exists b |]. simplify_eq/=. right. eauto.
Qed.

Lemma split_once_some p l a b : split_once p l = Some (a, b) -> l = a ++ p ++ b.
Proof.
  revert a b. induction l as [|x l IH]; intros a b; simpl.
  - destruct (strip_prefix p []) eqn:E; [| done]. intros [= <- <-].
    by apply strip_prefix_some in E.
  - destruct (strip_prefix p (x :: l)) eqn:E.
    + intros [= <- <-]. by apply strip_prefix_some in E.
    + destruct (split_once p l) as [[a' b']|]; [| done]. intros [= <- <-]. simpl.
      f_equal. by apply IH.
Qed.

Lemma split_once_none p l : split_once p l = None <-> contains p l = false.
Proof.
  induction l as [|x l IH]; simpl; unfold starts_with.
  - by destruct (strip_prefix p []).
  - destruct (strip_prefix p (x :: l)); simpl; [done |]. rewrite <- IH.
    destruct (split_once p l) as [[]|]; split; done.
Qed.

(** A separator of one element splits at its first occurrence. *)
Lemma split_once_single c a b : c ∉ a -> split_once [c] (a ++ c :: b) = Some (a, b).
Proof.
  induction a as [|x a IH]; simpl; intros Hc; [by rewrite decide_True |].
  apply not_elem_of_cons in Hc as [Hx Hc]. rewrite decide_False by done. by rewrite IH.
Qed.

Lemma split_once_single_none c l : c ∉ l -> split_once [c] l = None.
Proof.
  induction l as [|x l IH]; intros Hc; simpl; [done |].
  apply not_elem_of_cons in Hc as [Hx Hc]. rewrite decide_False by done. by rewrite IH.
Qed.

Lemma rsplit_once_none c l : rsplit_once c l = None <-> c ∉ l.
Proof.
  induction l as [|x l IH]; simpl; [split; [intros _; apply not_elem_of_nil | done] |].
  rewrite not_elem_of_cons. destruct (rsplit_once c l) as [[]|]; [| case_decide]; naive_solver.
Qed.

Lemma rsplit_once_some c l a b : rsplit_once c l = Some (a, b) <-> l = a ++ c :: b /\ c ∉ b.
Proof.
  revert a b. induction l as [|x l IH]; intros a b; simpl; [split; [done | by intros [?%app_cons_not_nil _]] |].
  destruct (rsplit_once c l) as [[a' b']|] eqn:E.
  - destruct (proj1 (IH a' b') eq_refl) as [-> Hb']. split.
    + intros [= <- <-]. by split.
    + intros [Hl Hb]. destruct a as [|y a]; simplify_eq/=.
      * exfalso. apply Hb. apply elem_of_app. right. left.
      * assert (Some (a', b') = Some (a, b)) by (apply IH; by split). congruence.
  - apply rsplit_once_none in E. case_decide as Hx; split.
    + intros [= <- <-]. by subst.
    + intros [Hl Hb]. destruct a as [|y a]; simplify_eq/=; [done |].
      exfalso. apply E. apply elem_of_app. right. left.
    + discriminate.
    + intros [Hl Hb]. destruct a as [|y a]; simplify_eq/=.
      exfalso. apply E. apply elem_of_app. right. left.
Qed.

End search.

(** [split_once] and [rsplit_once] of strings. *)
Definition str_split_once (p s : string) : option (string * string) :=
  (fun r => (of_bytes r.1, of_bytes r.2)) <$> split_once (bytes p) (bytes s).

Definition str_rsplit_once (c : byte) (s : string) : option (string * string) :=
  (fun r => (of_bytes r.1, of_bytes r.2)) <$> rsplit_once c (bytes s).

Lemma bytes_app a b : bytes (a +:+ b) = bytes a ++ bytes b.
Proof.
  unfold bytes. induction a as [|x a IH]; [done |].
  change (String x a +:+ b) with (String x (a +:+ b)). simpl. by rewrite IH.
Qed.

Lemma of_bytes_app a b : of_bytes (a ++ b) = of_bytes a +:+ of_bytes b.
Proof. unfold of_bytes. induction a as [|x a IH]; [done |]. simpl. by rewrite IH. Qed.

Lemma bytes_inj a b : bytes a = bytes b -> a = b.
Proof. intros H. by rewrite <- (of_bytes_bytes a), <- (of_bytes_bytes b), H. Qed.

Lemma str_split_once_some p s a b : str_split_once p s = Some (a, b) -> s = a +:+ p +:+ b.
Proof.
  unfold str_split_once. destruct (split_once _ _) as [[a' b']|] eqn:E; [| done].
  intros [= <- <-]. apply split_once_some in E. apply bytes_inj.
  rewrite !bytes_app, !bytes_of_bytes. done.
Qed.

Lemma str_rsplit_once_some c s a b :
  str_rsplit_once c s = Some (a, b) ->
  s = a +:+ String c b /\ c ∉ bytes b.
Proof.
  unfold str_rsplit_once. destruct (rsplit_once _ _) as [[a' b']|] eqn:E; [| done].
  intros [= <- <-]. apply rsplit_once_some in E as [E Hc]. split; [| by rewrite bytes_of_bytes].
  apply bytes_inj. rewrite bytes_app. simpl. rewrite !bytes_of_bytes. done.
Qed.

(** ** Decimal digits *)

(** The value of decimal digits, which leading zeros do not change. *)
Definition decimal (l : list byte) : N := foldl (fun v b => 10 * v + (byte_val b - 48)) 0 l.

Lemma decimal_app l k : decimal (l ++ k) = foldl (fun v b => 10 * v + (byte_val b - 48)) (decimal l) k.
Proof. unfold decimal. by rewrite foldl_app. Qed.

Lemma decimal_zeros n l : decimal (replicate n (Ascii.ascii_of_N 48) ++ l) = decimal l.
Proof. induction n as [|n IH]; [done |]. by rewrite <- IH. Qed.

Lemma pretty_N_char_val x : x < 10 -> byte_val (pretty_N_char x) - 48 = x /\ is_ascii_digit (pretty_N_char x) = true.
Proof.
  intros Hx. assert (Hc : x = 0 \/ x = 1 \/ x = 2 \/ x = 3 \/ x = 4 \/ x = 5 \/ x = 6 \/ x = 7 \/
    x = 8 \/ x = 9) by lia.
  by repeat (destruct Hc as [->|Hc]; [done |]); subst.
Qed.

Lemma pretty_N_go_decimal x : forall s v,
  exists l, bytes (pretty_N_go x s) = l ++ bytes s /\ Forall (fun b => is_ascii_digit b = true) l /\
    foldl (fun v b => 10 * v + (byte_val b - 48)) v l = v * 10 ^ N.of_nat (length l) + x.
Proof.
  induction (N.lt_wf_0 x) as [x _ IH]; intros s v.
  destruct (N.eq_0_gt_0_cases x) as [->|Hx].
  { exists []. rewrite pretty_N_go_0. split; [done |]. split; [constructor |]. simpl. lia. }
  rewrite pretty_N_go_step by done.
  assert (Hlt : x `div` 10 < x) by (apply N.div_lt; lia).
  assert (Hm : x `mod` 10 < 10) by (by apply N.mod_lt).
  destruct (IH _ Hlt (String (pretty_N_char (x `mod` 10)) s) v) as (l & E & Hl & Hv).
  exists (l ++ [pretty_N_char (x `mod` 10)]). split; [by rewrite E, <- app_assoc |].
  destruct (pretty_N_char_val _ Hm) as [Hc Hd]. split.
  { apply Forall_app; split; [done | by constructor]. }
  rewrite foldl_app, Hv. cbn [foldl]. rewrite Hc, length_app. cbn [length].
  rewrite Nat2N.inj_add, N.pow_add_r. change (10 ^ N.of_nat 1) with 10.
  pose proof (N.div_mod x 10). lia.
Qed.

Lemma display_decimal n :
  decimal (bytes (display n)) = n /\ Forall (fun b => is_ascii_digit b = true) (bytes (display n)) /\
  bytes (display n) <> [].
Proof.
  unfold display, pretty, pretty_N. case_decide as Hn.
  - subst. split; [done |]. split; [by repeat constructor | done].
  - destruct (pretty_N_go_decimal n "" 0) as (l & E & Hl & Hv). simpl in E. rewrite app_nil_r in E.
    rewrite E. split; [unfold decimal; rewrite Hv; lia |]. split; [done |].
    intros ->. simpl in Hv. lia.
Qed.
