(* ===== verification/Value.v ===== *)
(** * Core values ([dnfast-core/src/value.rs])

    Digests, architectures, package versions and the RPM version comparison, with the
    errors every document of the core shares.  [rpm_part_cmp] walks two byte slices with an
    index each; the model carries the suffixes those indices point at.  Its reference is
    the lexicographic order of the segments of the two versions ([version_key]), which is
    where its order laws come from. *)
From Stdlib Require Import Ascii.
From S2P Require Import Prelude.
From S2P Require Import RustStr.

Local Open Scope N_scope.

Module DomainError.
Inductive t : Type :=
  | Empty (field : string)
  | InvalidDigest (field : string)
  | SchemaVersion (expected actual : N)
  | Architecture
  | UnsafeAction (reason : string)
  | Duplicate (identity : string)
  | InvalidPlan (reason : string)
  | Json (message : string)
  | NonCanonical
  | DocumentTooLarge
  | DepthExceeded
  | StringTooLarge.

#[global] Instance domain_error_eq_dec : EqDecision t.
Proof. solve_decision. Defined.

(** The [#[error(...)]] texts. *)
Definition to_string (e : t) : string :=
  match e with
  | Empty field => field +:+ " cannot be empty"
  | InvalidDigest field => field +:+ " is not a 64-character hexadecimal SHA-256 digest"
  | SchemaVersion expected actual =>
      "unsupported schema version " +:+ display actual +:+ "; expected " +:+ display expected
  | Architecture => "unsupported architecture"
  | UnsafeAction reason => "unsafe solver action: " +:+ reason
  | Duplicate identity => "duplicate canonical identity: " +:+ identity
  | InvalidPlan reason => "invalid plan: " +:+ reason
  | Json message => "JSON boundary rejected input: " +:+ message
  | NonCanonical => "JSON is not canonical JCS form"
  | DocumentTooLarge => "document exceeds 16 MiB"
  | DepthExceeded => "JSON nesting exceeds depth 32"
  | StringTooLarge => "JSON string exceeds 1 MiB"
  end.
End DomainError.

(** The type of fallible core functions. *)
Abbreviation domain := (result DomainError.t).

Module Sha256Digest.
Record t : Type := mk { as_str : string }.

#[global] Instance sha256_eq_dec : EqDecision t.
Proof. solve_decision. Defined.

Definition parse (value field : string) : domain t :=
  if negb (str_len value =? 64) || negb (forallb is_ascii_hexdigit (bytes value))
  then Err (DomainError.InvalidDigest field)
  else Ok (mk (to_ascii_lowercase value)).

(** [Deserialize]: every digest of a document goes through [parse]. *)
Definition deserialize (value : string) : domain t := parse value "sha256".

(** What [parse] establishes of the private field. *)
Definition valid (d : t) : Prop :=
  str_len (as_str d) = 64 /\
  Forall (fun b => is_ascii_hexdigit b = true /\ is_ascii_uppercase b = false)
    (bytes (as_str d)).

#[global] Instance sha256_ord : RustOrd t := ord_on as_str.
#[global] Instance sha256_ord_laws : RustOrdLaws t.
Proof. apply (ord_on_laws as_str). intros [x] [y]; simpl. congruence. Qed.
End Sha256Digest.

Module Architecture.
Inductive t : Type := Aarch64 | X86_64 | Noarch.

#[global] Instance architecture_eq_dec : EqDecision t.
Proof. solve_decision. Defined.

Definition as_rpm_arch (a : t) : string :=
  match a with Aarch64 => "aarch64" | X86_64 => "x86_64" | Noarch => "noarch" end.

Definition discriminant (a : t) : N :=
  match a with Aarch64 => 0 | X86_64 => 1 | Noarch => 2 end.

#[global] Instance architecture_ord : RustOrd t := ord_on discriminant.
#[global] Instance architecture_ord_laws : RustOrdLaws t.
Proof. apply (ord_on_laws discriminant). by intros [] []. Qed.
End Architecture.

(** ** RPM version comparison *)

Module Rpm.
Definition is_tilde (b : byte) : bool := byte_val b =? 126.
Definition is_caret (b : byte) : bool := byte_val b =? 94.

Definition first_is (f : byte -> bool) (l : list byte) : bool :=
  match l with b :: _ => f b | [] => false end.

(** The two [while] loops at the head of the iteration. *)
Definition skip_separators (l : list byte) : list byte :=
  drop_while (fun b => negb (is_ascii_alphanumeric b) && negb (is_tilde b || is_caret b)) l.

(** The bytes of the segment a byte starts. *)
Definition in_segment (numeric : bool) (b : byte) : bool :=
  Bool.eqb (is_ascii_digit b) numeric && is_ascii_alphanumeric b.

Definition strip_zeros (l : list byte) : list byte := drop_while (fun b => byte_val b =? 48) l.

(** One iteration of the loop: a verdict or the two remaining suffixes. *)
Definition part_step (left right : list byte) : comparison + (list byte * list byte) :=
  let left := skip_separators left in
  let right := skip_separators right in
  if first_is is_tilde left || first_is is_tilde right then
    match first_is is_tilde left, first_is is_tilde right with
    | true, true => inr (tail left, tail right)
    | true, false => inl Lt
    | false, true => inl Gt
    | false, false => inl Eq
    end
  else if first_is is_caret left || first_is is_caret right then
    match first_is is_caret left, first_is is_caret right, left, right with
    | true, true, _, _ => inr (tail left, tail right)
    | true, false, _, [] => inl Gt
    | false, true, [], _ => inl Lt
    | true, false, _, _ :: _ => inl Lt
    | false, true, _ :: _, _ => inl Gt
    | _, _, _, _ => inl Eq
    end
  else
    match left, right with
    | [], _ | _, [] => inl (Nat.compare (length left) (length right))
    | a :: _, b :: _ =>
        let numeric := is_ascii_digit a in
        if negb (Bool.eqb numeric (is_ascii_digit b)) then inl (if numeric then Gt else Lt)
        else
          let la := take_while (in_segment numeric) left in
          let ra := take_while (in_segment numeric) right in
          let left := drop_while (in_segment numeric) left in
          let right := drop_while (in_segment numeric) right in
          let la := if numeric then strip_zeros la else la in
          let ra := if numeric then strip_zeros ra else ra in
          let length := Nat.compare (length la) (length ra) in
          if numeric && negb (is_eq length) then inl length
          else
            let ordering := list_cmp cmp la ra in
            if negb (is_eq ordering) then inl ordering else inr (left, right)
    end.

Fixpoint part_loop (fuel : nat) (left right : list byte) : option comparison :=
  match fuel with
  | O => None
  | S fuel =>
      match part_step left right with
      | inl ordering => Some ordering
      | inr (l, r) => part_loop fuel l r
      end
  end.

(** Every iteration consumes a byte of each side, so this fuel is never exhausted. *)
Definition part_fuel (left right : list byte) : nat := S (length left + length right).

Definition rpm_part_cmp (left right : string) : comparison :=
  default Eq (part_loop (part_fuel (bytes left) (bytes right)) (bytes left) (bytes right)).

(** *** Reference: the segments of a version, compared lexicographically *)

Inductive token : Type :=
  | Tilde
  | End
  | Caret
  | Alpha (segment : list byte)
  | Num (digits : list byte).

#[global] Instance token_eq_dec : EqDecision token.
Proof. solve_decision. Defined.

(** A tilde sorts before the end of the version, a caret after it; a number sorts after a
    word, numbers by length and then by digits. *)
Definition token_key (t : token) : N * (N * list byte) :=
  match t with
  | Tilde => (0, (0, []))
  | End => (1, (0, []))
  | Caret => (2, (0, []))
  | Alpha l => (3, (0, l))
  | Num l => (4, (N.of_nat (length l), l))
  end.

Definition next_token (l : list byte) : token * list byte :=
  match skip_separators l with
  | [] => (End, [])
  | b :: t =>
      if is_tilde b then (Tilde, t)
      else if is_caret b then (Caret, t)
      else
        let numeric := is_ascii_digit b in
        let segment := take_while (in_segment numeric) (b :: t) in
        ((if numeric then Num (strip_zeros segment) else Alpha segment),
         drop_while (in_segment numeric) (b :: t))
  end.

Fixpoint tokens (fuel : nat) (l : list byte) : list token :=
  match fuel with
  | O => [End]
  | S fuel =>
      match next_token l with
      | (End, _) => [End]
      | (t, rest) => t :: tokens fuel rest
      end
  end.

Definition version_key (s : string) : list (N * (N * list byte)) :=
  token_key <$> tokens (S (length (bytes s))) (bytes s).
End Rpm.

Module Evra.
Record t : Type := mk {
  epoch : N;
  version : string;
  release : string;
  arch : Architecture.t
}.

#[global] Instance evra_eq_dec : EqDecision t.
Proof. solve_decision. Defined.

Definition tuple (e : t) := (epoch e, (version e, (release e, arch e))).

#[global] Instance evra_ord : RustOrd t := ord_on tuple.
#[global] Instance evra_ord_laws : RustOrdLaws t.
Proof. apply (ord_on_laws tuple). intros [] []; simpl. unfold tuple; simpl. congruence. Qed.

Definition validate (e : t) : domain unit :=
  _ ← reject_if (str_is_empty (version e)) (DomainError.Empty "version");
  reject_if (str_is_empty (release e)) (DomainError.Empty "release").

(** [Deserialize]: the fields as decoded, then [validate]. *)
Definition deserialize (raw : t) : domain t :=
  _ ← validate raw; Ok raw.

Definition is_strictly_newer_than (self installed : t) : bool :=
  if negb (epoch self =? epoch installed) then epoch installed <? epoch self
  else
    match Rpm.rpm_part_cmp (version self) (version installed) with
    | Eq => is_gt (Rpm.rpm_part_cmp (release self) (release installed))
    | ordering => is_gt ordering
    end.

(** Reference: epoch, version and release in this order. *)
Definition evr_cmp (a b : t) : comparison :=
  then_cmp (N.compare (epoch a) (epoch b))
    (then_cmp (Rpm.rpm_part_cmp (version a) (version b))
      (Rpm.rpm_part_cmp (release a) (release b))).
End Evra.

(** ** The comparison loop against its reference *)

Module RpmFacts.
Import Rpm.

#[local] Arguments take_while : simpl never.
#[local] Arguments drop_while : simpl never.

Definition token_cmp (a b : token) : comparison := cmp (token_key a) (token_key b).

Lemma token_cmp_refl a : token_cmp a a = Eq.
Proof. apply (cmp_refl (token_key a)). Qed.

Lemma skip_separators_head l b t :
  skip_separators l = b :: t -> is_ascii_alphanumeric b = true \/ is_tilde b = true \/ is_caret b = true.
Proof.
  intros H. apply drop_while_head in H. bool_inv.
  destruct (is_ascii_alphanumeric b); simpl in H; [by left | right].
  apply negb_false_iff, orb_true_iff in H. tauto.
Qed.

Lemma in_segment_head b :
  is_ascii_alphanumeric b = true -> in_segment (is_ascii_digit b) b = true.
Proof. intros H. unfold in_segment. by rewrite eqb_reflx, H. Qed.

Lemma drop_segment_shorter b t :
  is_ascii_alphanumeric b = true ->
  (length (drop_while (in_segment (is_ascii_digit b)) (b :: t)) <= length t)%nat.
Proof.
  intros H. unfold drop_while; fold (@drop_while byte). rewrite in_segment_head by done. apply length_drop_while.
Qed.

(** Everything but the end of the version consumes a byte. *)
Lemma next_token_shorter l t rest :
  next_token l = (t, rest) -> t <> End -> (length rest < length l)%nat.
Proof.
  unfold next_token. pose proof (length_drop_while
    (fun b => negb (is_ascii_alphanumeric b) && negb (is_tilde b || is_caret b)) l) as Hlen.
  fold (skip_separators l) in Hlen.
  destruct (skip_separators l) as [|b u] eqn:E; [by intros [= <- <-] |].
  destruct (is_tilde b) eqn:Et; [intros [= <- <-] _; simpl in *; lia |].
  destruct (is_caret b) eqn:Ec; [intros [= <- <-] _; simpl in *; lia |].
  assert (Ha : is_ascii_alphanumeric b = true).
  { apply skip_separators_head in E as [?|[?|?]]; congruence. }
  intros [= <- <-] _. pose proof (drop_segment_shorter b u Ha). simpl length in *. lia.
Qed.

(** The fuel of [tokens] does not matter once it exceeds the length. *)
Lemma tokens_fuel f g l :
  (length l < f)%nat -> (length l < g)%nat -> tokens f l = tokens g l.
Proof.
  revert g l. induction f as [|f IH]; intros [|g] l Hf Hg; try lia. simpl.
  destruct (next_token l) as [t rest] eqn:E.
  destruct (decide (t = End)) as [->|Hne]; [done |].
  apply next_token_shorter in E; [| done].
  rewrite (IH g rest) by lia. by destruct t.
Qed.


(** Comparing two segments of the same class, the way the loop does. *)
Lemma num_token_cmp la ra :
  token_cmp (Num la) (Num ra) = then_cmp (Nat.compare (length la) (length ra)) (list_cmp cmp la ra).
Proof.
  rewrite Nat2N.inj_compare. reflexivity.
Qed.

(** What one iteration decides, in terms of the next segments of both sides. *)
Lemma part_step_spec l r a l' b r' :
  next_token l = (a, l') -> next_token r = (b, r') ->
  match part_step l r with
  | inl o => o = token_cmp a b /\ (o = Eq -> a = End /\ b = End)
  | inr (l1, r1) => l1 = l' /\ r1 = r' /\ token_cmp a b = Eq /\ a <> End /\ b <> End
  end.
Proof.
  unfold next_token, part_step. cbv zeta.
  pose proof (skip_separators_head l) as Hl. pose proof (skip_separators_head r) as Hr.
  destruct (skip_separators l) as [|x lt], (skip_separators r) as [|y rt]; cbn [first_is orb].
  - by intros [= <- <-] [= <- <-].
  - intros [= <- <-].
    destruct (is_tilde y) eqn:Ty; [by intros [= <- <-] |].
    destruct (is_caret y) eqn:Cy; [by intros [= <- <-] |].
    intros [= <- <-]. by destruct (is_ascii_digit y).
  - intros Ha [= <- <-]. revert Ha.
    destruct (is_tilde x) eqn:Tx; [by intros [= <- <-] |].
    destruct (is_caret x) eqn:Cx; [by intros [= <- <-] |].
    intros [= <- <-]. by destruct (is_ascii_digit x).
  - destruct (is_tilde x) eqn:Tx, (is_tilde y) eqn:Ty; cbn [orb].
    + intros [= <- <-] [= <- <-]. done.
    + intros [= <- <-] Hb.
      destruct (is_caret y); [| destruct (is_ascii_digit y)]; by injection Hb as <- <-.
    + intros Ha [= <- <-].
      destruct (is_caret x); [| destruct (is_ascii_digit x)]; by injection Ha as <- <-.
    + destruct (is_caret x) eqn:Cx, (is_caret y) eqn:Cy; cbn [orb].
      * by intros [= <- <-] [= <- <-].
      * intros [= <- <-] [= <- <-]. by destruct (is_ascii_digit y).
      * intros [= <- <-] [= <- <-]. by destruct (is_ascii_digit x).
      * intros [= <- <-] [= <- <-].
        destruct (is_ascii_digit x) eqn:Dx, (is_ascii_digit y) eqn:Dy; cbn [Bool.eqb negb andb];
          [| done | done |].
        -- set (la := strip_zeros (take_while _ (x :: lt))). 
           set (ra := strip_zeros (take_while _ (y :: rt))).
           rewrite num_token_cmp.
           destruct (Nat.compare (length la) (length ra)); 
             cbn [is_eq negb then_cmp andb]; [| split; [done | discriminate]..].
           by destruct (list_cmp cmp la ra).
        -- set (la := take_while _ (x :: lt)). set (ra := take_while _ (y :: rt)).
           change (token_cmp (Alpha la) (Alpha ra)) with (list_cmp cmp la ra).
           by destruct (list_cmp cmp la ra).
Qed.

Definition tokens_match (t : token) (rest : list token) : list token :=
  match t with End => [End] | _ => t :: rest end.

Lemma tokens_unfold f l :
  tokens (S f) l = tokens_match (next_token l).1 (tokens f (next_token l).2).
Proof. simpl. by destruct (next_token l) as [[] ?]. Qed.

Lemma tokens_head t rest : exists tl, tokens_match t rest = t :: tl.
Proof. destruct t; simpl; eauto. Qed.

Lemma tokens_tail t rest : t <> End -> tokens_match t rest = t :: rest.
Proof. by destruct t. Qed.

Lemma keys_cmp_cons a b (A B : list (N * (N * list byte))) :
  cmp (token_key a :: A) (token_key b :: B) = then_cmp (token_cmp a b) (cmp A B).
Proof. reflexivity. Qed.

(** With fuel above both lengths the loop ends, with the verdict of the reference. *)
Lemma part_loop_spec fuel l r f g :
  (length l + length r < fuel)%nat -> (length l < f)%nat -> (length r < g)%nat ->
  part_loop fuel l r = Some (cmp (token_key <$> tokens f l) (token_key <$> tokens g r)).
Proof.
  revert l r f g. induction fuel as [|fuel IH]; intros l r [|f] [|g] Hfuel Hf Hg; try lia.
  rewrite !tokens_unfold. simpl.
  destruct (next_token l) as [a l'] eqn:Ea. destruct (next_token r) as [b r'] eqn:Eb. simpl.
  pose proof (part_step_spec _ _ _ _ _ _ Ea Eb) as Hstep.
  pose proof (next_token_shorter _ _ _ Ea) as La. pose proof (next_token_shorter _ _ _ Eb) as Lb.
  destruct (part_step l r) as [o|[l1 r1]].
  - destruct Hstep as [Ho Heq]. f_equal.
    destruct (tokens_head a (tokens f l')) as [A HA].
    destruct (tokens_head b (tokens g r')) as [B HB].
    destruct o; [by destruct (Heq eq_refl) as [-> ->] | |];
      rewrite HA, HB, !fmap_cons, keys_cmp_cons, <- Ho; done.
  - destruct Hstep as (-> & -> & Heq & Hna & Hnb). specialize (La Hna). specialize (Lb Hnb).
    rewrite (IH l' r' f g) by lia. f_equal.
    rewrite (tokens_tail a), (tokens_tail b) by done.
    by rewrite !fmap_cons, keys_cmp_cons, Heq.
Qed.

Lemma rpm_part_cmp_key a b : rpm_part_cmp a b = cmp (version_key a) (version_key b).
Proof.
  unfold rpm_part_cmp, version_key.
  by rewrite (part_loop_spec _ _ _ (S (length (bytes a))) (S (length (bytes b))))
    by (unfold part_fuel; lia).
Qed.

Lemma rpm_part_cmp_preorder : cmp_preorder rpm_part_cmp.
Proof.
  apply (cp_ext (fun a b => cmp (version_key a) (version_key b))).
  - intros. symmetry. apply rpm_part_cmp_key.
  - apply cp_on, cmp_is_preorder.
Qed.

(** [rpm_part_cmp] ends: the fuel of the model, and any larger one, reaches a verdict. *)
Theorem rpm_part_cmp_terminates (left right : string) (fuel : nat)
  (Hfuel : (part_fuel (bytes left) (bytes right) <= fuel)%nat) :
  part_loop fuel (bytes left) (bytes right) = Some (rpm_part_cmp left right).
Proof.
  unfold part_fuel in Hfuel. rewrite rpm_part_cmp_key.
  apply part_loop_spec; unfold part_fuel in *; lia.
Qed.

Lemma rpm_part_cmp_terminates_witness :
  part_loop 99 (bytes "1.0~rc1") (bytes "1.0") = Some (rpm_part_cmp "1.0~rc1" "1.0") /\
  rpm_part_cmp "1.0~rc1" "1.0" = Lt.
Proof.
  split; [| reflexivity]. apply rpm_part_cmp_terminates. vm_compute. lia.
Defined.

(** C25: [rpm_part_cmp] is the lexicographic order of the segments of the two versions, with
    a tilde before the end of the version, the end before a caret, a caret before a word
    and a word before a number, numbers compared by length and digits without leading
    zeros. *)
Theorem rpm_part_cmp_reference (left right : string) :
  rpm_part_cmp left right = list_cmp cmp (version_key left) (version_key right).
Proof. apply rpm_part_cmp_key. Qed.

(** [rpm_part_cmp] is a comparison in the sense [sort] and [max_by] rely on: reflexive,
    antisymmetric under exchange of its arguments, transitive, and compatible with its own
    equivalence. *)
Theorem rpm_part_cmp_order (a b c : string) :
  rpm_part_cmp a a = Eq /\
  rpm_part_cmp b a = CompOpp (rpm_part_cmp a b) /\
  (rpm_part_cmp a b <> Gt -> rpm_part_cmp b c <> Gt -> rpm_part_cmp a c <> Gt) /\
  (rpm_part_cmp a b = Eq -> rpm_part_cmp a c = rpm_part_cmp b c).
Proof.
  pose proof rpm_part_cmp_preorder as H.
  repeat split; [apply (cp_refl H) | apply H | apply H | apply (cp_eq_l H)].
Qed.
End RpmFacts.

(** ** Versions *)

Module EvraFacts.
Import Evra.

Lemma evr_cmp_preorder : cmp_preorder evr_cmp.
Proof.
  apply cp_then; [apply cp_on, cp_N |].
  apply cp_then; apply cp_on, RpmFacts.rpm_part_cmp_preorder.
Qed.

Lemma newer_evr_cmp a b : is_strictly_newer_than a b = is_gt (evr_cmp a b).
Proof.
  unfold is_strictly_newer_than, evr_cmp.
  destruct (N.compare_spec (epoch a) (epoch b)) as [E|E|E]; simpl.
  - rewrite E, N.eqb_refl. simpl. by destruct (Rpm.rpm_part_cmp _ _).
  - rewrite (proj2 (N.eqb_neq _ _)) by lia. simpl. by apply N.ltb_ge; lia.
  - rewrite (proj2 (N.eqb_neq _ _)) by lia. simpl. by apply N.ltb_lt.
Qed.

Lemma newer_spec a b : is_strictly_newer_than a b = true <-> evr_cmp a b = Gt.
Proof. rewrite newer_evr_cmp. by destruct (evr_cmp a b). Qed.

Lemma newer_asym a b : is_strictly_newer_than a b = true -> is_strictly_newer_than b a = false.
Proof.
  rewrite newer_spec. intros E. rewrite newer_evr_cmp, (cp_flip _ evr_cmp_preorder a b).
  by rewrite E.
Qed.

Lemma newer_irrefl a : is_strictly_newer_than a a = false.
Proof. rewrite newer_evr_cmp. by rewrite (cp_refl evr_cmp_preorder). Qed.

Lemma evra_validate_ok e u : validate e = Ok u <-> version e <> "" /\ release e <> "".
Proof.
  destruct u. unfold validate, reject_if. rewrite <- !str_is_empty_false.
  by destruct (str_is_empty (version e)), (str_is_empty (release e)); simpl; intuition.
Qed.

(** [is_strictly_newer_than] is the strict part of the epoch-version-release order, and a
    strict weak order: irreflexive, transitive, and with incomparable versions forming an
    equivalence; the architecture plays no role. *)
Theorem newer_strict_weak_order (a b c : t) :
  is_strictly_newer_than a b = is_gt (evr_cmp a b) /\
  is_strictly_newer_than a a = false /\
  (is_strictly_newer_than a b = true -> is_strictly_newer_than b c = true ->
   is_strictly_newer_than a c = true) /\
  (is_strictly_newer_than a b = false -> is_strictly_newer_than b c = false ->
   is_strictly_newer_than a c = false).
Proof.
  pose proof evr_cmp_preorder as H. split; [apply newer_evr_cmp |].
  split; [apply newer_irrefl |]. split.
  - rewrite !newer_spec, !(cp_gt_lt H). intros ? ?. by apply (cp_lt_trans H c b a).
  - rewrite !newer_evr_cmp. intros Hab Hbc.
    assert (evr_cmp a c <> Gt) as Hac.
    { apply (cp_trans _ H a b c); [by destruct (evr_cmp a b) | by destruct (evr_cmp b c)]. }
    by destruct (evr_cmp a c).
Qed.

End EvraFacts.

(** ** Digests *)

Module Sha256Facts.
Import Sha256Digest.

Lemma sha256_parse_ok v f d :
  parse v f = Ok d <->
  str_len v = 64 /\ forallb is_ascii_hexdigit (bytes v) = true /\ d = mk (to_ascii_lowercase v).
Proof.
  unfold parse. destruct (str_len v =? 64) eqn:El; simpl.
  - apply N.eqb_eq in El. destruct (forallb _ _); simpl; split.
    + by intros [= <-].
    + by intros (_ & _ & ->).
    + done.
    + by intros (_ & ? & _).
  - apply N.eqb_neq in El. split; [done | by intros [? _]].
Qed.

Lemma bytes_lower v : bytes (to_ascii_lowercase v) = byte_to_lower <$> bytes v.
Proof. apply bytes_of_bytes. Qed.

Lemma sha256_parse_valid v f d : parse v f = Ok d -> valid d.
Proof.
  intros (Hl & Hx & ->)%sha256_parse_ok. split; simpl; [by rewrite str_len_lower |].
  rewrite bytes_lower. apply Forall_fmap, Forall_forall. intros b Hb. simpl.
  rewrite forallb_forall in Hx. split.
  - rewrite byte_to_lower_hexdigit. by apply Hx, list_elem_of_In.
  - apply byte_to_lower_not_upper.
Qed.

Lemma valid_sha256_parse d f : valid d -> parse (as_str d) f = Ok d.
Proof.
  intros [Hl Hx]. apply sha256_parse_ok. split; [done |]. split.
  - apply forallb_forall. intros b Hb%list_elem_of_In. rewrite Forall_forall in Hx.
    by apply Hx in Hb as [? _].
  - rewrite to_ascii_lowercase_id; [by destruct d |].
    apply forallb_forall. intros b Hb%list_elem_of_In. rewrite Forall_forall in Hx.
    apply Hx in Hb as [_ ->]. done.
Qed.

(** [Sha256Digest::parse] accepts exactly the 64 digit hexadecimal strings and stores the
    lower case form, so that a stored digest parses to itself. *)
Theorem sha256_parse_canonical (v f : string) :
  match parse v f with
  | Ok d => str_len v = 64 /\ forallb is_ascii_hexdigit (bytes v) = true /\
            valid d /\ (forall g, parse (as_str d) g = Ok d)
  | Err e => e = DomainError.InvalidDigest f /\
            (str_len v <> 64 \/ forallb is_ascii_hexdigit (bytes v) = false)
  end.
Proof.
  destruct (parse v f) as [d|e] eqn:E.
  - pose proof (sha256_parse_valid _ _ _ E) as Hv. apply sha256_parse_ok in E as (? & ? & _).
    eauto using valid_sha256_parse.
  - revert E. unfold parse. destruct (str_len v =? 64) eqn:El; simpl.
    + destruct (forallb _ _); simpl; [done |]. intros [= <-]. auto.
    + intros [= <-]. apply N.eqb_neq in El. auto.
Qed.
End Sha256Facts.

#[export] Hint Resolve Sha256Facts.sha256_parse_valid Sha256Facts.valid_sha256_parse : rust.
