(* ===== verification/Canonical.v ===== *)
(** * Canonical documents ([dnfast-core/src/canonical.rs])

    [inspect] bounds a document before the JSON parser sees it; [parse] accepts only the
    bytes [serialize] writes.  [serde_json] and the derived (de)serializers are outside the
    repository: they are the operations of the class [SerdeJson], and what a client relies on
    of them are the classes [SerdeJsonLaws] (what was written is parsed back) and [JsonText]
    (what is written is the documented text of a tree). *)
From Stdlib Require Import Ascii.
From S2P Require Import Prelude.
From S2P Require Import RustStr.
From S2P Require Import Value.

Local Open Scope N_scope.

Definition MAX_DOCUMENT_BYTES : N := 16 * 1024 * 1024.
Definition MAX_STRING_BYTES : N := 1024 * 1024.
Definition MAX_DEPTH : N := 32.

(** [serde_json::to_vec(serde_json::to_value(v))] and [serde_json::from_slice], with the
    texts of their errors. *)
Class SerdeJson (T : Type) := {
  to_vec : T -> result string (list byte);
  from_slice : list byte -> result string T
}.

(** A value that passes the validation of its [Deserialize] is read back from its text. *)
Class SerdeJsonLaws (T : Type) `{SerdeJson T} (valid : T -> Prop) : Prop := {
  from_slice_to_vec : forall v b, valid v -> to_vec v = Ok b -> from_slice b = Ok v
}.

(** ** The scanner *)

Record scan : Type := mk_scan {
  depth : N;
  string_bytes : N;
  in_string : bool;
  escaped : bool
}.

Definition scan_start : scan := mk_scan 0 0 false false.

Definition is_quote (b : byte) : bool := byte_val b =? 34.
Definition is_backslash (b : byte) : bool := byte_val b =? 92.
Definition is_open (b : byte) : bool := (byte_val b =? 123) || (byte_val b =? 91).
Definition is_close (b : byte) : bool := (byte_val b =? 125) || (byte_val b =? 93).

Definition inspect_byte (s : scan) (b : byte) : domain scan :=
  if in_string s then
    if escaped s then Ok (mk_scan (depth s) (string_bytes s + 1) true false)
    else if is_backslash b then Ok (mk_scan (depth s) (string_bytes s) true true)
    else if is_quote b then Ok (mk_scan (depth s) 0 false false)
    else
      _ ← reject_if (MAX_STRING_BYTES <? string_bytes s + 1) DomainError.StringTooLarge;
      Ok (mk_scan (depth s) (string_bytes s + 1) true false)
  else if is_quote b then Ok (mk_scan (depth s) (string_bytes s) true (escaped s))
  else if is_open b then
    _ ← reject_if (MAX_DEPTH <? depth s + 1) DomainError.DepthExceeded;
    Ok (mk_scan (depth s + 1) (string_bytes s) false (escaped s))
  else if is_close b then Ok (mk_scan (depth s - 1) (string_bytes s) false (escaped s))
  else Ok s.

Definition inspect (document : list byte) : domain unit :=
  _ ← reject_if (MAX_DOCUMENT_BYTES <? N.of_nat (length document)) DomainError.DocumentTooLarge;
  _ ← fold_result inspect_byte scan_start document; Ok tt.

(** ** Documents *)

Section documents.
Context `{SerdeJson T} `{!EqDecision T}.

Definition serialize (value : T) : domain (list byte) :=
  map_err DomainError.Json (to_vec value).

Definition parse (document : list byte) : domain T :=
  _ ← inspect document;
  value ← map_err DomainError.Json (from_slice document);
  canonical ← serialize value;
  _ ← reject_if (negb (bool_decide (canonical = document))) DomainError.NonCanonical;
  Ok value.

(** The default [CanonicalDocument::canonical_sha256]; [sha256_hex] is the external digest
    printed in lower case hexadecimal. *)
Definition canonical_sha256 (sha256_hex : list byte -> string)
    (to_canonical_json : T -> domain (list byte)) (value : T) : domain Sha256Digest.t :=
  document ← to_canonical_json value;
  Sha256Digest.parse (sha256_hex document) "canonical_sha256".
End documents.

(** The trait [CanonicalDocument]. *)
Class CanonicalDocument (T : Type) := {
  from_canonical_json : list byte -> domain T;
  to_canonical_json : T -> domain (list byte)
}.

(** What the trait promises: the two directions are inverse on documents within the limits
    of [inspect]; [inv] is the invariant the type itself keeps. *)
Class CanonicalDocumentLaws (T : Type) `{CanonicalDocument T} (inv : T -> Prop) : Prop := {
  to_from_canonical_json : forall d v,
    from_canonical_json d = Ok v -> to_canonical_json v = Ok d;
  from_to_canonical_json : forall d v, inv v ->
    to_canonical_json v = Ok d -> inspect d = Ok tt -> from_canonical_json d = Ok v
}.

(** A derived [Deserialize] through a raw struct: decode the fields, then check. *)
Definition checked_serde {T} (raw : SerdeJson T) (check : T -> result string T) : SerdeJson T := {|
  to_vec := to_vec;
  from_slice d := v ← from_slice d; check v
|}.

(** ** The scanner without limits, as a reference *)

Definition scan_byte (s : scan) (b : byte) : scan :=
  if in_string s then
    if escaped s then mk_scan (depth s) (string_bytes s + 1) true false
    else if is_backslash b then mk_scan (depth s) (string_bytes s) true true
    else if is_quote b then mk_scan (depth s) 0 false false
    else mk_scan (depth s) (string_bytes s + 1) true false
  else if is_quote b then mk_scan (depth s) (string_bytes s) true (escaped s)
  else if is_open b then mk_scan (depth s + 1) (string_bytes s) false (escaped s)
  else if is_close b then mk_scan (depth s - 1) (string_bytes s) false (escaped s)
  else s.

Definition scan_all (s : scan) (l : list byte) : scan := foldl scan_byte s l.

(** The byte [b], read in state [s], is one of those the string limit looks at. *)
Definition counted (s : scan) (b : byte) : bool :=
  in_string s && negb (escaped s) && negb (is_backslash b) && negb (is_quote b).

Definition within_limits (s : scan) (b : byte) : Prop :=
  depth (scan_byte s b) <= N.max MAX_DEPTH (depth s) /\
  (counted s b = true -> string_bytes s + 1 <= MAX_STRING_BYTES).

Lemma inspect_byte_ok s b s' :
  inspect_byte s b = Ok s' <-> s' = scan_byte s b /\ within_limits s b.
Proof.
  unfold inspect_byte, within_limits, counted, scan_byte, reject_if.
  destruct (in_string s) eqn:Es, (escaped s) eqn:Ee, (is_backslash b), (is_quote b),
    (is_open b), (is_close b); simpl; rewrite ?Es, ?Ee;
    try (destruct (N.ltb_spec MAX_STRING_BYTES (string_bytes s + 1)));
    try (destruct (N.ltb_spec MAX_DEPTH (depth s + 1))); simpl;
    (split; [intros [=]; subst; simpl; repeat split; lia |]);
    try (intros (-> & ? & ?); simpl in *; done);
    intros (-> & ? & Hs); simpl in *; try specialize (Hs eq_refl); exfalso; lia.
Qed.

Lemma fold_inspect_ok s l s' :
  fold_result inspect_byte s l = Ok s' <->
  s' = scan_all s l /\ forall p b q, l = p ++ b :: q -> within_limits (scan_all s p) b.
Proof.
  revert s. induction l as [|x l IH]; intros s; simpl.
  - split; [intros [= <-]; split; [done | by intros [] ? ?] | by intros [-> _]].
  - rewrite bind_ok. split.
    + intros (s1 & [-> Hx]%inspect_byte_ok & [-> Hl]%IH). split; [done |].
      intros [|y p] b q [= -> ->]; simpl; [done | by eapply Hl].
    + intros [-> Hall]. exists (scan_byte s x).
      split; [apply inspect_byte_ok; split; [done | by apply (Hall [] x l)] |].
      apply IH. split; [done |]. intros p b q ->. by apply (Hall (x :: p) b q).
Qed.

Lemma scan_all_snoc s p b : scan_all s (p ++ [b]) = scan_byte (scan_all s p) b.
Proof. unfold scan_all. by rewrite foldl_app. Qed.

Lemma depth_bound l :
  (forall p b q, l = p ++ b :: q -> within_limits (scan_all scan_start p) b) ->
  forall p q, l = p ++ q -> depth (scan_all scan_start p) <= MAX_DEPTH.
Proof.
  intros Hall p. induction p as [|b p IH] using rev_ind; intros q ->; [by vm_compute |].
  rewrite scan_all_snoc. rewrite <- app_assoc in Hall, IH.
  destruct (Hall p b q eq_refl) as [Hd _]. specialize (IH _ eq_refl). lia.
Qed.

Lemma inspect_ok_iff d u :
  inspect d = Ok u <->
  N.of_nat (length d) <= MAX_DOCUMENT_BYTES /\
  (forall p q, d = p ++ q -> depth (scan_all scan_start p) <= MAX_DEPTH) /\
  (forall p b q, d = p ++ b :: q -> counted (scan_all scan_start p) b = true ->
     string_bytes (scan_all scan_start p) + 1 <= MAX_STRING_BYTES).
Proof.
  destruct u. unfold inspect. rewrite bind_ok. split.
  - intros ([] & Hlen%reject_if_ok & H). apply bind_ok in H as (s & [_ Hall]%fold_inspect_ok & _).
    apply N.ltb_ge in Hlen. split; [done |].
    split; [by apply depth_bound | intros p b q Hd; by apply (Hall p b q)].
  - intros (Hlen & Hdepth & Hstr). exists tt.
    split; [by apply reject_if_ok, N.ltb_ge |].
    apply bind_ok. exists (scan_all scan_start d). split; [| done].
    apply fold_inspect_ok. split; [done |]. intros p b q Hd. split; [| by apply (Hstr p b q)].
    rewrite <- scan_all_snoc.
    pose proof (Hdepth (p ++ [b]) q) as Hp. rewrite <- app_assoc in Hp. specialize (Hp Hd). lia.
Qed.

(** [inspect] accepts exactly the documents of at most 16 MiB whose bracket nesting never
    passes depth 32 at any prefix and whose strings stay within 1 MiB at every byte the
    limit looks at, so that the recursion of the JSON parser behind it is bounded. *)
Theorem inspect_limits (document : list byte) :
  inspect document = Ok tt <->
  N.of_nat (length document) <= 16777216 /\
  (forall p q, document = p ++ q -> depth (scan_all scan_start p) <= 32) /\
  (forall p b q, document = p ++ b :: q -> counted (scan_all scan_start p) b = true ->
     string_bytes (scan_all scan_start p) + 1 <= 1048576).
Proof. apply inspect_ok_iff. Qed.

(** ** The string limit and escapes *)

Definition quote_byte : byte := Ascii.ascii_of_N 34.
Definition escaped_newline : list byte := [Ascii.ascii_of_N 92; Ascii.ascii_of_N 110].

(** A JSON string of [n] escaped newlines. *)
Definition escaped_string (n : nat) : list byte :=
  quote_byte :: concat (replicate n escaped_newline) ++ [quote_byte].

Lemma fold_inspect_escapes n d k :
  fold_result inspect_byte (mk_scan d k true false) (concat (replicate n escaped_newline) ++ [quote_byte])
  = Ok (mk_scan d 0 false false).
Proof.
  revert k. induction n as [|n IH]; intros k; [done |].
  exact (IH (k + 1)).
Qed.

Lemma length_escaped_string n : length (escaped_string n) = S (S (2 * n)).
Proof.
  unfold escaped_string. simpl length. rewrite length_app. f_equal.
  induction n as [|n IH]; [done |]. simpl in *. lia.
Qed.

(** The string limit of [inspect] does not see escape sequences: a string of escapes of
    any length passes as long as the document limit holds, in particular one whose content
    is longer than 1 MiB. *)
Theorem inspect_escapes_unlimited (n : nat) (Hn : 2 * N.of_nat n + 2 <= 16777216) :
  inspect (escaped_string n) = Ok tt.
Proof.
  unfold inspect. rewrite length_escaped_string.
  assert ((MAX_DOCUMENT_BYTES <? N.of_nat (S (S (2 * n)))) = false) as ->.
  { apply N.ltb_ge. unfold MAX_DOCUMENT_BYTES. lia. }
  unfold escaped_string. cbn [fold_result]. simpl mbind at 1.
  pose proof (fold_inspect_escapes n 0 0) as E. simpl. by rewrite E.
Qed.

Lemma inspect_escapes_unlimited_witness :
  inspect (escaped_string (N.to_nat 2000000)) = Ok tt.
Proof. apply inspect_escapes_unlimited. rewrite N2Nat.id. vm_compute. discriminate. Defined.

(** ** Canonical form *)

Section canonical_laws.
Context `{SerdeJson T} `{!EqDecision T}.
Implicit Types (d : list byte) (v : T).

Lemma serialize_ok v d : serialize v = Ok d <-> to_vec v = Ok d.
Proof. apply map_err_ok. Qed.

Lemma canonical_parse_ok d v :
  parse d = Ok v <-> inspect d = Ok tt /\ from_slice d = Ok v /\ to_vec v = Ok d.
Proof.
  unfold parse. split.
  - intros E. result_inv. bool_inv. subst. apply serialize_ok in H2. done.
  - intros (-> & Hf & Ht). simpl. rewrite Hf. simpl.
    apply serialize_ok in Ht. rewrite Ht. simpl. by rewrite bool_decide_eq_true_2.
Qed.

(** What [parse] accepts is what [serialize] writes, byte for byte. *)
Lemma parse_serialize d v : parse d = Ok v -> serialize v = Ok d.
Proof. intros (_ & _ & ?)%canonical_parse_ok. by apply serialize_ok. Qed.

Lemma serialize_parse (valid : T -> Prop) `{!SerdeJsonLaws T valid} d v :
  valid v -> serialize v = Ok d -> inspect d = Ok tt -> parse d = Ok v.
Proof.
  intros Hv Hd%serialize_ok Hi. apply canonical_parse_ok.
  eauto using from_slice_to_vec.
Qed.
End canonical_laws.

#[export] Hint Resolve parse_serialize serialize_parse : rust.

(** The implementations of the trait all check the value on both ways. *)
Section validated_documents.
Context {T : Type} `{!EqDecision T} (raw : SerdeJson T).
Context (check : T -> result string T) (validate : T -> domain unit) (inv : T -> Prop).
Context (raw_laws : SerdeJsonLaws T (fun _ => True)).
Context (validate_check : forall v, inv v -> validate v = Ok tt -> check v = Ok v).

#[local] Instance document_serde : SerdeJson T := checked_serde raw check.

Definition validated_document : CanonicalDocument T := {|
  from_canonical_json d := value ← parse d; _ ← validate value; Ok value;
  to_canonical_json v := _ ← validate v; serialize v
|}.

Lemma validated_document_laws : @CanonicalDocumentLaws T validated_document inv.
Proof using raw_laws validate_check.
  split; simpl.
  - intros d v E. apply bind_ok in E as (w & Hw & E). apply bind_ok in E as ([] & Hv & [= ->]).
    rewrite Hv. simpl. by apply parse_serialize.
  - intros d v Hinv E Hi. apply bind_ok in E as ([] & Hv & E%serialize_ok).
    assert (Hp : parse d = Ok v).
    { apply canonical_parse_ok. split; [done |]. split; [| done]. simpl.
      rewrite (from_slice_to_vec v d) by done. simpl. by apply validate_check. }
    rewrite Hp. simpl. by rewrite Hv.
Qed.

Lemma from_validated_document d v : @from_canonical_json T validated_document d = Ok v -> validate v = Ok tt.
Proof. simpl. intros E. apply bind_ok in E as (w & Hw & E). by result_inv. Qed.
End validated_documents.

(** ** A concrete codec

    Any countable type read and written as the bits of its encoding: an instance of
    [SerdeJson] and its laws on which the hypotheses of the theorems can be checked. *)
Module BitCodec.
Section codec.
Context `{Countable T}.

Fixpoint pos_bits (p : positive) : list byte :=
  match p with
  | xH => []
  | xO p => "0"%char :: pos_bits p
  | xI p => "1"%char :: pos_bits p
  end.

Fixpoint bits_pos (l : list byte) : option positive :=
  match l with
  | [] => Some xH
  | b :: t =>
      p ← bits_pos t;
      if Ascii.eqb b "0" then Some (xO p) else if Ascii.eqb b "1" then Some (xI p) else None
  end.

Definition bit_codec : SerdeJson T := {|
  to_vec v := Ok (pos_bits (encode v));
  from_slice l :=
    match bits_pos l ≫= decode with Some v => Ok v | None => Err "not a codeword" end
|}.

Lemma bits_pos_pos_bits p : bits_pos (pos_bits p) = Some p.
Proof. induction p as [p IH|p IH|]; simpl; [by rewrite IH.. | done]. Qed.

Lemma bit_codec_laws (valid : T -> Prop) : @SerdeJsonLaws T bit_codec valid.
Proof.
  constructor. intros v b _ [= <-]. simpl. by rewrite bits_pos_pos_bits; simpl; rewrite decode_encode.
Qed.

End codec.
End BitCodec.

(** A codec that knows one document. *)
Module OneCodec.
Section codec.
Context {T : Type} `{!EqDecision T} (value : T) (text : list byte).

Definition one_codec : SerdeJson T := {|
  to_vec v := if decide (v = value) then Ok text else Err "unsupported value";
  from_slice l := if decide (l = text) then Ok value else Err "unsupported text"
|}.

Lemma one_codec_laws (valid : T -> Prop) : @SerdeJsonLaws T one_codec valid.
Proof.
  constructor. intros v b _. simpl. case_decide; [| done]. intros [= <-].
  rewrite decide_True by done. congruence.
Qed.
End codec.
End OneCodec.

(** The bytes of a document are determined by its value: two documents that parse to the
    same value are equal, and what [serialize] writes of a valid value parses back to it. *)
Theorem parse_canonical_roundtrip `{SerdeJson T} `{!EqDecision T} (valid : T -> Prop)
    (Hlaws : SerdeJsonLaws T valid) (d1 d2 : list byte) (v : T)
    (Hvalid : valid v) (Hinspect : inspect d1 = Ok tt) :
  (serialize v = Ok d1 <-> parse d1 = Ok v) /\
  (parse d1 = Ok v -> parse d2 = Ok v -> d1 = d2).
Proof.
  split; [split; [eauto with rust | apply parse_serialize] |].
  intros E1%parse_serialize E2%parse_serialize. congruence.
Qed.

Lemma parse_canonical_roundtrip_witness :
  let codec := BitCodec.bit_codec (T := N) in
  parse (H := codec) (BitCodec.pos_bits (encode 5)) = Ok 5.
Proof.
  intros codec.
  assert (Hi : inspect (BitCodec.pos_bits (encode (5 : N))) = Ok tt) by (vm_compute; reflexivity).
  apply (parse_canonical_roundtrip (fun _ => True) (BitCodec.bit_codec_laws _)
    (BitCodec.pos_bits (encode 5)) [] 5 I Hi).
  vm_compute. reflexivity.
Defined.

(** A codec that knows the documents of a table. *)
Module TableCodec.
Section codec.
Context {T : Type} `{!EqDecision T} (table : list (T * list byte)).

Definition table_codec : SerdeJson T := {|
  to_vec v :=
    match list_find (fun p => p.1 = v) table with
    | Some (_, p) => Ok p.2 | None => Err "unsupported value" end;
  from_slice l :=
    match list_find (fun p => p.2 = l) table with
    | Some (_, p) => Ok p.1 | None => Err "unsupported text" end
|}.

Lemma table_codec_text v t : @to_vec T table_codec v = Ok t -> (v, t) ∈ table.
Proof.
  simpl. destruct (list_find _ table) as [[i p]|] eqn:E; [| done]. intros [= <-].
  apply list_find_Some in E as (Hi & <- & _). destruct p. by eapply list_elem_of_lookup_2.
Qed.

Lemma table_codec_laws (valid : T -> Prop) :
  NoDup table.*2 -> @SerdeJsonLaws T table_codec valid.
Proof.
  intros Hnd. constructor. intros v b _ Hv%table_codec_text. simpl.
  destruct (list_find (fun p => p.2 = b) table) as [[i p]|] eqn:E.
  - apply list_find_Some in E as (Hi & Hp & _). apply list_elem_of_lookup_2 in Hi.
    apply list_elem_of_lookup in Hv as [j Hj]. apply list_elem_of_lookup in Hi as [k Hk].
    assert (j = k) as ->.
    { eapply (NoDup_lookup _ j k b Hnd); rewrite list_lookup_fmap; [by rewrite Hj | by rewrite Hk; simpl; rewrite Hp]. }
    rewrite Hj in Hk. by injection Hk as <-.
  - apply list_find_None in E. rewrite Forall_forall in E. by destruct (E _ Hv).
Qed.
End codec.
End TableCodec.

(** ** The text of JSON values

    What the compact writer of [serde_json] prints: a value is first turned into a tree whose
    objects are sorted maps, and the tree is printed without spaces.  The writer is outside
    the repository: [Json.print] is its documented output (RFC 8259 with the escapes of
    [serde_json]), and that a type is written so is the class [JsonText].  The section
    [Inspection] proves which of these texts the scanner lets through. *)

(** [itertools::join]: the texts with a separator between them. *)
Fixpoint separated {A} (separator : A) (texts : list (list A)) : list A :=
  match texts with
  | [] => []
  | text :: rest => text ++ match rest with [] => [] | _ => separator :: separated separator rest end
  end.

Module Json.
#[local] Unset Elimination Schemes.
Inductive t : Type :=
  | Null
  | Bool (value : bool)
  | Number (value : Z)
  | Text (value : string)
  | Array (items : list t)
  | Object (members : list (string * t)).
#[local] Set Elimination Schemes.

(** The object of a struct: the map of its fields, sorted by their names. *)
Definition struct (fields : list (string * t)) : t := Object (bmap_of_list fields).

(** The member of a field that is skipped when it is [None]. *)
Definition member {A} (name : string) (value : option A) (tree : A -> t) : list (string * t) :=
  match value with Some v => [(name, tree v)] | None => [] end.

Section induction.
Context (P : t -> Prop).
Context (null : P Null) (boolean : forall b, P (Bool b)) (number : forall z, P (Number z)).
Context (text : forall s, P (Text s)) (array : forall items, Forall P items -> P (Array items)).
Context (object : forall members, Forall (fun m => P m.2) members -> P (Object members)).

Fixpoint tree_ind (j : t) : P j :=
  match j with
  | Null => null
  | Bool b => boolean b
  | Number z => number z
  | Text s => text s
  | Array items => array items
      ((fix go l := match l return Forall P l with
        | [] => Forall_nil_2 P
        | x :: l => Forall_cons_2 P x l (tree_ind x) (go l) end) items)
  | Object members => object members
      ((fix go l := match l return Forall (fun m => P m.2) l with
        | [] => Forall_nil_2 _
        | x :: l => Forall_cons_2 (fun m => P m.2) x l (tree_ind x.2) (go l) end) members)
  end.
End induction.

(** *** Printing *)

Definition quote : byte := Ascii.ascii_of_N 34.
Definition backslash : byte := Ascii.ascii_of_N 92.

(** The bytes with an escape of two characters. *)
Definition short_escape (b : byte) : option byte :=
  let v := byte_val b in
  if (v =? 34) || (v =? 92) then Some b
  else if v =? 8 then Some "b"%char
  else if v =? 9 then Some "t"%char
  else if v =? 10 then Some "n"%char
  else if v =? 12 then Some "f"%char
  else if v =? 13 then Some "r"%char
  else None.

Definition escape (b : byte) : list byte :=
  match short_escape b with
  | Some c => [backslash; c]
  | None =>
      if byte_val b <? 32
      then bytes "\u00" ++ [hex_digit (byte_val b / 16); hex_digit (byte_val b mod 16)]
      else [b]
  end.

Definition print_text (s : string) : list byte := quote :: concat (escape <$> bytes s) ++ [quote].

Definition print_number (z : Z) : list byte :=
  (if (z <? 0)%Z then bytes "-" else []) ++ bytes (display (Z.abs_N z)).

Fixpoint print (j : t) : list byte :=
  match j with
  | Null => bytes "null"
  | Bool b => bytes (if b then "true" else "false")
  | Number z => print_number z
  | Text s => print_text s
  | Array items => bytes "[" ++ separated ","%char (map print items) ++ bytes "]"
  | Object members =>
      bytes "{" ++ separated ","%char (map (fun m => print_text m.1 ++ bytes ":" ++ print m.2) members)
        ++ bytes "}"
  end.

(** *** Measures *)

(** How much [inspect] counts for a byte of a string: an escape of two characters is one,
    one of six is five. *)
Definition weight (b : byte) : N :=
  match short_escape b with Some _ => 1 | None => if byte_val b <? 32 then 5 else 1 end.

Definition text_weight (s : string) : N := foldr (fun b n => weight b + n) 0 (bytes s).

Definition text_fits (s : string) : bool := text_weight s <=? MAX_STRING_BYTES.

(** No string of the tree is longer than [inspect] lets through. *)
Fixpoint fits (j : t) : bool :=
  match j with
  | Text s => text_fits s
  | Array items => forallb fits items
  | Object members => forallb (fun m => text_fits m.1 && fits m.2) members
  | _ => true
  end.

Fixpoint nesting (j : t) : N :=
  match j with
  | Array items => 1 + foldr (fun i n => N.max (nesting i) n) 0 items
  | Object members => 1 + foldr (fun m n => N.max (nesting m.2) n) 0 members
  | _ => 0
  end.
End Json.

(** The texts of a type are the compact texts of its trees. *)
Class JsonText (T : Type) `{SerdeJson T} (tree : T -> Json.t) : Prop := {
  to_vec_print : forall v b, to_vec v = Ok b -> b = Json.print (tree v)
}.

(** *** What the scanner makes of them *)

Section Inspection.
Import Json.

(** The scanner at depth [d] outside a string, and in one of which it has counted [k]. *)
Abbreviation outside d := (mk_scan d 0 false false).
Abbreviation inside d k := (mk_scan d k true false).

(** [text] is read from depth [d] to its end, back at depth [d]. *)
Definition passes (d : N) (text : list byte) : Prop :=
  fold_result inspect_byte (outside d) text = Ok (outside d).

Lemma passes_app d a b : passes d a -> passes d b -> passes d (a ++ b).
Proof. unfold passes. intros Ha Hb. by rewrite fold_result_app, Ha. Qed.

Lemma passes_separated d texts : Forall (passes d) texts -> passes d (separated ","%char texts).
Proof.
  induction 1 as [|text texts Ht Hts IH]; [done |]. simpl. apply passes_app; [done |].
  destruct texts; [done |]. exact IH.
Qed.

Definition neutral (b : byte) : bool := negb (is_quote b) && negb (is_open b) && negb (is_close b).

Lemma neutral_byte d b : neutral b = true -> inspect_byte (outside d) b = Ok (outside d).
Proof.
  unfold neutral, inspect_byte. cbn [in_string]. intros Hb. bool_inv. by rewrite H, H1, H0.
Qed.

Lemma passes_neutral d text : Forall (fun b => neutral b = true) text -> passes d text.
Proof.
  unfold passes. induction 1 as [|b text Hb _ IH]; [done |]. cbn [fold_result].
  by rewrite neutral_byte.
Qed.

Lemma digit_neutral b : is_ascii_digit b = true -> neutral b = true.
Proof.
  unfold is_ascii_digit, neutral, is_quote, is_open, is_close. rewrite in_range_spec. intros Hb.
  rewrite !andb_true_iff, !negb_true_iff, !orb_false_iff, !N.eqb_neq. lia.
Qed.

Lemma passes_number d z : passes d (print_number z).
Proof.
  apply passes_neutral. unfold print_number. apply Forall_app. split.
  - destruct (_ <? _)%Z; by repeat constructor.
  - destruct (display_decimal (Z.abs_N z)) as (_ & Hd & _). eapply Forall_impl; [exact Hd |].
    apply digit_neutral.
Qed.

Lemma raw_byte d k b :
  is_quote b = false -> is_backslash b = false -> k + 1 <= MAX_STRING_BYTES ->
  inspect_byte (inside d k) b = Ok (inside d (k + 1)).
Proof.
  intros Hq Hb Hk%N.ltb_ge. unfold inspect_byte. cbn [in_string escaped string_bytes depth].
  by rewrite Hq, Hb, Hk.
Qed.

Lemma hex_digit_raw n : n < 16 -> is_quote (hex_digit n) = false /\ is_backslash (hex_digit n) = false.
Proof.
  intros Hn. unfold is_quote, is_backslash, hex_digit, byte_val.
  rewrite Ascii.N_ascii_embedding by (destruct (N.ltb_spec n 10); lia).
  rewrite !N.eqb_neq. destruct (N.ltb_spec n 10); lia.
Qed.

Lemma escape_passes d k b :
  k + weight b <= MAX_STRING_BYTES ->
  fold_result inspect_byte (inside d k) (escape b) = Ok (inside d (k + weight b)).
Proof.
  unfold weight, escape. destruct (short_escape b) as [c|] eqn:Es; [done |].
  destruct (byte_val b <? 32) eqn:Ev; intros Hk.
  - destruct (hex_digit_raw (byte_val b / 16)) as [Hq1 Hb1].
    { apply N.Div0.div_lt_upper_bound. pose proof (byte_val_lt b). lia. }
    destruct (hex_digit_raw (byte_val b mod 16)) as [Hq2 Hb2]; [by apply N.mod_lt |].
    change (fold_result inspect_byte (inside d (k + 1)) (["0"; "0"]%char ++
      [hex_digit (byte_val b / 16); hex_digit (byte_val b mod 16)]) = Ok (inside d (k + 5))).
    cbn [app fold_result].
    rewrite raw_byte by (done || lia). cbn [mbind result_mbind].
    rewrite raw_byte by (done || lia). cbn [mbind result_mbind].
    rewrite raw_byte by (done || lia). cbn [mbind result_mbind].
    rewrite raw_byte by (done || lia). cbn [mbind result_mbind]. do 2 f_equal. lia.
  - cbn [fold_result]. rewrite raw_byte; [done | | | done];
      unfold short_escape in Es; unfold is_quote, is_backslash;
      destruct (byte_val b =? 34), (byte_val b =? 92); done.
Qed.

Lemma escapes_pass d l : forall k,
  k + foldr (fun b n => weight b + n) 0 l <= MAX_STRING_BYTES ->
  fold_result inspect_byte (inside d k) (concat (escape <$> l)) =
    Ok (inside d (k + foldr (fun b n => weight b + n) 0 l)).
Proof.
  induction l as [|b l IH]; intros k Hk; [simpl; by rewrite N.add_0_r |].
  rewrite fmap_cons. cbn [concat foldr] in *. rewrite fold_result_app, escape_passes by lia.
  cbn [mbind result_mbind]. rewrite IH by lia. do 2 f_equal. lia.
Qed.

Lemma passes_text d s : text_fits s = true -> passes d (print_text s).
Proof.
  unfold text_fits, text_weight, passes, print_text. intros Hs%N.leb_le.
  cbn [fold_result]. change (inspect_byte (outside d) quote) with (Ok (E := DomainError.t) (inside d 0)).
  cbn [mbind result_mbind]. rewrite fold_result_app, escapes_pass by lia. done.
Qed.

Lemma passes_brackets d open close text :
  is_quote open = false -> is_open open = true -> is_quote close = false -> is_open close = false ->
  is_close close = true -> d + 1 <= MAX_DEPTH -> passes (d + 1) text ->
  passes d ([open] ++ text ++ [close]).
Proof.
  unfold passes. intros Hoq Ho Hcq Hco Hc Hd%N.ltb_ge Ht. cbn [app fold_result].
  assert (inspect_byte (outside d) open = Ok (outside (d + 1))) as ->.
  { unfold inspect_byte. cbn [in_string depth escaped string_bytes]. by rewrite Hoq, Ho, Hd. }
  cbn [mbind result_mbind]. rewrite fold_result_app, Ht. cbn [mbind result_mbind fold_result].
  unfold inspect_byte. cbn [in_string depth escaped string_bytes]. rewrite Hcq, Hco, Hc. by rewrite N.add_sub.
Qed.

Lemma nesting_in {A} (f : A -> N) (l : list A) x :
  x ∈ l -> f x <= foldr (fun i n => N.max (f i) n) 0 l.
Proof. induction 1 as [x l|x y l _ IH]; simpl; lia. Qed.

Lemma print_passes j : forall d, fits j = true -> d + nesting j <= MAX_DEPTH -> passes d (print j).
Proof.
  induction j as [|b|z|s|items IH|members IH] using tree_ind; intros d Hf Hn.
  - done.
  - by destruct b.
  - apply passes_number.
  - by apply passes_text.
  - cbn [print fits nesting] in *. apply passes_brackets; try done; [lia |].
    apply passes_separated, List.Forall_map, Forall_forall. intros j Hj.
    rewrite Forall_forall in IH. apply IH; [done | |].
    + rewrite forallb_forall in Hf. by apply Hf, list_elem_of_In.
    + pose proof (nesting_in nesting items j Hj). lia.
  - cbn [print fits nesting] in *. apply passes_brackets; try done; [lia |].
    apply passes_separated, List.Forall_map, Forall_forall. intros [k j] Hj.
    rewrite forallb_forall in Hf. pose proof (Hf _ (proj1 (list_elem_of_In _ _) Hj)) as Hkj.
    apply andb_true_iff in Hkj as [Hk Hj']. cbn [fst snd] in *.
    apply passes_app; [by apply passes_text |]. apply (passes_app _ (bytes ":")); [done |].
    rewrite Forall_forall in IH. apply (IH _ Hj); [done |].
    pose proof (nesting_in (fun m => nesting m.2) members (k, j) Hj). cbn [snd] in *. lia.
Qed.

(** The text of a tree passes the scanner when its strings, its nesting and its length are
    within the limits. *)
Lemma inspect_print j :
  fits j = true -> nesting j <= MAX_DEPTH -> N.of_nat (length (print j)) <= MAX_DOCUMENT_BYTES ->
  inspect (print j) = Ok tt.
Proof.
  intros Hf Hn Hl. unfold inspect. rewrite (proj2 (N.ltb_ge _ _) Hl). cbn [reject_if mbind result_mbind].
  pose proof (print_passes j 0 Hf) as Hp. unfold passes in Hp. unfold scan_start.
  by rewrite Hp by lia.
Qed.

(** Trees within bounds. *)

Definition tree_within (n : N) (j : Json.t) : Prop := fits j = true /\ nesting j <= n.

Lemma bounded_leaf n j : fits j = true -> nesting j = 0 -> tree_within n j.
Proof. intros Hf Hn. split; [done | lia]. Qed.

Lemma bounded_le n m j : n <= m -> tree_within n j -> tree_within m j.
Proof. intros Hnm [Hf Hn]. split; [done | lia]. Qed.

Lemma bounded_array n items : Forall (tree_within n) items -> tree_within (n + 1) (Array items).
Proof.
  intros Hi. split; cbn [fits nesting].
  - apply forallb_forall. intros j Hj%list_elem_of_In. rewrite Forall_forall in Hi. by apply Hi.
  - rewrite N.add_comm. apply N.add_le_mono_r. induction Hi as [|j items [_ Hj] _ IH]; simpl; lia.
Qed.

Definition bounded_member (n : N) (m : string * Json.t) : Prop :=
  text_fits m.1 = true /\ tree_within n m.2.

Lemma bounded_insert n k j members :
  bounded_member n (k, j) -> Forall (bounded_member n) members ->
  Forall (bounded_member n) (bmap_insert k j members).
Proof.
  intros Hkj. induction 1 as [|[k' j'] members Hm Hms IH]; simpl; [by constructor |].
  destruct (cmp k k'); repeat apply Forall_cons_2; try done. split; [apply Hm | apply Hkj].
Qed.

Lemma bounded_object n members : Forall (bounded_member n) members -> tree_within (n + 1) (Object members).
Proof.
  intros Hm. split; cbn [fits nesting].
  - apply forallb_forall. intros m Hin%list_elem_of_In. rewrite Forall_forall in Hm.
    destruct (Hm m Hin) as [-> [-> _]]. done.
  - rewrite N.add_comm. apply N.add_le_mono_r. induction Hm as [|m members [_ [_ Hj]] _ IH]; simpl; lia.
Qed.

Lemma bounded_struct n fields : Forall (bounded_member n) fields -> tree_within (n + 1) (struct fields).
Proof.
  intros Hf. assert (Hm : Forall (bounded_member n) (bmap_of_list fields)).
  { unfold bmap_of_list. assert (Hacc : Forall (bounded_member n) []) by constructor. revert Hacc.
    generalize (@nil (string * Json.t)). induction Hf as [|[k j] fields Hkj _ IH]; intros acc Hacc;
      simpl; [done |]. by apply IH, bounded_insert. }
  by apply bounded_object.
Qed.

Lemma bounded_optional {A} n name (value : option A) tree :
  text_fits name = true -> (forall v, value = Some v -> tree_within n (tree v)) ->
  Forall (bounded_member n) (member name value tree).
Proof. intros Hname Hv. destruct value as [v|]; repeat constructor; try done; by apply Hv. Qed.

Lemma inspect_bounded j :
  tree_within MAX_DEPTH j -> N.of_nat (length (print j)) <= MAX_DOCUMENT_BYTES -> inspect (print j) = Ok tt.
Proof. intros [Hf Hn] Hl. by apply inspect_print. Qed.

(** A string of bytes that need no long escape weighs its length. *)
Lemma text_weight_length s :
  Forall (fun b => 32 <= byte_val b) (bytes s) -> text_weight s = str_len s.
Proof.
  unfold text_weight, str_len. induction 1 as [|b l Hb _ IH]; [done |].
  cbn [foldr length]. rewrite IH. unfold weight.
  destruct (short_escape b), (N.ltb_spec (byte_val b) 32); lia.
Qed.

(** Whatever its bytes, a string that is not too long fits. *)
Lemma short_text_fits s : 5 * str_len s <= MAX_STRING_BYTES -> text_fits s = true.
Proof.
  intros Hs. apply N.leb_le. etrans; [| exact Hs]. unfold text_weight, str_len. clear Hs.
  induction (bytes s) as [|b l IH]; [done |]. cbn [foldr length]. unfold weight at 1.
  destruct (short_escape b), (byte_val b <? 32); lia.
Qed.
End Inspection.

(** The fields of a struct, those that are numbers and constants at once. *)
Ltac bounded_fields :=
  repeat first [apply Forall_nil_2 | apply Forall_cons_2 | apply Forall_app; split];
  try (split; [vm_compute; reflexivity |]; try (apply bounded_leaf; [done | done])).

(** *** Concrete codecs *)

(** A codec that knows the texts of some values. *)
Section codec.
Context {T : Type} `{!EqDecision T} (tree : T -> Json.t) (values : list T).

Definition json_codec : SerdeJson T :=
  TableCodec.table_codec ((fun v => (v, Json.print (tree v))) <$> values).

Lemma json_codec_text : @JsonText T json_codec tree.
Proof.
  constructor. intros v b Hv%TableCodec.table_codec_text.
  apply list_elem_of_fmap in Hv as (v' & [= <- ->] & _). done.
Qed.

Lemma json_codec_laws (valid : T -> Prop) :
  NoDup ((fun v => Json.print (tree v)) <$> values) -> @SerdeJsonLaws T json_codec valid.
Proof.
  intros Hnd. apply TableCodec.table_codec_laws. rewrite <- list_fmap_compose. exact Hnd.
Qed.
End codec.
