(* ===== verification/Intent.v ===== *)
(** * Transaction intents ([dnfast-core/src/intent.rs])

    What the user asked for: an action and package specifications in strictly increasing
    order.  [TransactionIntent.new] sorts, [validate] checks, and the canonical JSON is
    read and written only through [validate]. *)
From Stdlib Require Import Ascii.
From S2P Require Import Prelude.
From S2P Require Import RustStr.
From S2P Require Import Value.
From S2P Require Import Canonical.

Local Open Scope N_scope.

Definition SCHEMA_VERSION : N := 1.

Module Action.
Inductive t : Type :=
  | Install
  | Upgrade
  | Remove
  | Downgrade
  | Reinstall
  | DistroSync
  | Autoremove.

#[global] Instance action_eq_dec : EqDecision t.
Proof. solve_decision. Defined.

Definition as_str (a : t) : string :=
  match a with
  | Install => "install"
  | Upgrade => "upgrade"
  | Remove => "remove"
  | Downgrade => "downgrade"
  | Reinstall => "reinstall"
  | DistroSync => "distro-sync"
  | Autoremove => "autoremove"
  end.

(** [{:?}] of the derived [Debug]. *)
Definition debug (a : t) : string :=
  match a with
  | Install => "Install"
  | Upgrade => "Upgrade"
  | Remove => "Remove"
  | Downgrade => "Downgrade"
  | Reinstall => "Reinstall"
  | DistroSync => "DistroSync"
  | Autoremove => "Autoremove"
  end.
End Action.

Module IntentError.
Inductive t : Type :=
  | MissingPackages (action : Action.t)
  | EmptyPackage
  | OptionLikePackage (value : string)
  | ControlCharacter (escaped : string)
  | DuplicatePackage (value : string)
  | SchemaVersion (version : N)
  | Json (message : string)
  | NonCanonicalPackages.

Definition to_string (e : t) : string :=
  match e with
  | MissingPackages action => Action.debug action +:+ " requires at least one package"
  | EmptyPackage => "package specification cannot be empty"
  | OptionLikePackage value => "package specification cannot start with '-': " +:+ value
  | ControlCharacter value => "package specification contains a control character: " +:+ value
  | DuplicatePackage value => "duplicate package specification: " +:+ value
  | SchemaVersion version =>
      "unsupported transaction intent schema version: " +:+ display version
  | Json message => "transaction intent JSON rejected: " +:+ message
  | NonCanonicalPackages => "package specifications are not in unique canonical order"
  end.
End IntentError.

Module PackageSpec.
Record t : Type := mk { as_str : string }.

#[global] Instance package_spec_eq_dec : EqDecision t.
Proof. solve_decision. Defined.

#[global] Instance package_spec_ord : RustOrd t := ord_on as_str.
#[global] Instance package_spec_ord_laws : RustOrdLaws t.
Proof. apply (ord_on_laws as_str). intros [] []; simpl. congruence. Qed.

Definition starts_with_dash (l : list N) : bool :=
  match l with c :: _ => c =? 45 | [] => false end.

Definition parse (value : string) : result IntentError.t t :=
  _ ← reject_if (bool_decide (chars_trim (chars value) = [])) IntentError.EmptyPackage;
  _ ← reject_if (starts_with_dash (chars_trim_start (chars value)))
        (IntentError.OptionLikePackage value);
  _ ← reject_if (existsb char_is_control (chars value))
        (IntentError.ControlCharacter (escape_default value));
  Ok (mk value).

(** [Deserialize]. *)
Definition deserialize (value : string) : result string t :=
  map_err IntentError.to_string (parse value).

(** The specifications a command line can name. *)
Definition acceptable (value : string) : Prop :=
  (exists c, c ∈ chars value /\ char_is_whitespace c = false) /\
  (forall c t, chars_trim_start (chars value) = c :: t -> c <> 45) /\
  (forall c, c ∈ chars value -> char_is_control c = false).
End PackageSpec.

Module TransactionIntent.
Record t : Type := mk {
  schema_version : N;
  action : Action.t;
  packages : list PackageSpec.t
}.

#[global] Instance transaction_intent_eq_dec : EqDecision t.
Proof. solve_decision. Defined.

Definition requires_packages (a : Action.t) : bool :=
  match a with
  | Action.Install | Action.Remove | Action.Downgrade | Action.Reinstall => true
  | _ => false
  end.

(** The loop over the packages, with the set of names seen so far. *)
Fixpoint validate_packages (seen : list string) (l : list PackageSpec.t) :
    result IntentError.t unit :=
  match l with
  | [] => Ok tt
  | package :: l =>
      _ ← PackageSpec.parse (PackageSpec.as_str package);
      _ ← reject_if (bool_decide (PackageSpec.as_str package ∈ seen))
            (IntentError.DuplicatePackage (PackageSpec.as_str package));
      validate_packages (PackageSpec.as_str package :: seen) l
  end.

Definition validate (i : t) : result IntentError.t unit :=
  _ ← reject_if (negb (schema_version i =? SCHEMA_VERSION))
        (IntentError.SchemaVersion (schema_version i));
  _ ← reject_if (requires_packages (action i) && bool_decide (packages i = []))
        (IntentError.MissingPackages (action i));
  _ ← reject_if
        (windows2_any (fun a b => geb (PackageSpec.as_str a) (PackageSpec.as_str b)) (packages i))
        IntentError.NonCanonicalPackages;
  validate_packages [] (packages i).

Definition new (action : Action.t) (packages : list PackageSpec.t) : result IntentError.t t :=
  let packages := sort_by (fun l r => cmp (PackageSpec.as_str l) (PackageSpec.as_str r)) packages in
  let value := mk SCHEMA_VERSION action packages in
  _ ← validate value;
  Ok value.

Definition from_package_names (action : Action.t) (names : list string) :
    result IntentError.t t :=
  packages ← mapM PackageSpec.parse names;
  new action packages.

(** [Deserialize], from the fields of [RawTransactionIntent]. *)
Definition deserialize (raw : t) : result string t :=
  _ ← mapM PackageSpec.deserialize (PackageSpec.as_str <$> packages raw);
  _ ← map_err IntentError.to_string (validate raw);
  Ok raw.

Section json.
Context (raw : SerdeJson t).

#[local] Instance intent_serde : SerdeJson t := checked_serde raw deserialize.

Definition validate_document (i : t) : domain unit :=
  map_err (fun e => DomainError.Json (IntentError.to_string e)) (validate i).

#[local] Instance intent_document : CanonicalDocument t := {|
  from_canonical_json d := value ← parse d; _ ← validate_document value; Ok value;
  to_canonical_json i := _ ← validate_document i; serialize i
|}.

Definition from_json (d : list byte) : result IntentError.t t :=
  map_err (fun e => IntentError.Json (DomainError.to_string e)) (from_canonical_json d).

Definition to_json (i : t) : result IntentError.t (list byte) :=
  map_err (fun e => IntentError.Json (DomainError.to_string e)) (to_canonical_json i).
End json.
End TransactionIntent.

(** ** Package specifications *)

Module IntentFacts.
Import TransactionIntent.

Lemma chars_trim_nil l :
  chars_trim l = [] <-> forallb char_is_whitespace l = true.
Proof.
  unfold chars_trim, chars_trim_start. split.
  - intros H. apply drop_while_nil. apply (f_equal (@rev N)) in H.
    rewrite rev_involutive in H. simpl in H. apply drop_while_nil in H.
    destruct (drop_while _ l) as [|c t] eqn:E; [done | exfalso].
    pose proof (drop_while_head _ _ _ _ E) as Hc. rewrite forallb_forall in H.
    rewrite (H c) in Hc; [done |]. apply (proj1 (in_rev _ _)). by left.
  - intros H. apply drop_while_nil in H. by rewrite H.
Qed.

Lemma forallb_false_exists {A} (f : A -> bool) l :
  forallb f l = false <-> exists x, x ∈ l /\ f x = false.
Proof.
  induction l as [|y l IH]; simpl.
  - split; [done | by intros (? & ?%not_elem_of_nil & _)].
  - rewrite andb_false_iff, IH. setoid_rewrite elem_of_cons. naive_solver.
Qed.

Lemma spec_parse_ok v p : PackageSpec.parse v = Ok p <-> PackageSpec.acceptable v /\ p = PackageSpec.mk v.
Proof.
  unfold PackageSpec.parse, PackageSpec.acceptable. split.
  - intros E. result_inv. split; [| done]. repeat split.
    + apply forallb_false_exists. apply not_true_is_false. rewrite <- chars_trim_nil.
      by apply bool_decide_eq_false in H.
    + intros c t Ht ->. by rewrite Ht in H0.
    + intros c Hc. apply not_true_is_false. intros Hx.
      assert (existsb char_is_control (chars v) = true); [| congruence].
      apply existsb_exists. exists c. by rewrite <- list_elem_of_In.
  - intros [(Hws & Hdash & Hctl) ->].
    rewrite bool_decide_eq_false_2; simpl.
    + destruct (chars_trim_start (chars v)) as [|c t] eqn:E; simpl.
      * destruct (existsb _ _) eqn:Ex; [| done].
        apply existsb_exists in Ex as (x & Hx%list_elem_of_In & Hc). by rewrite Hctl in Hc.
      * rewrite (proj2 (N.eqb_neq _ _)) by (by eapply Hdash). simpl.
        destruct (existsb _ _) eqn:Ex; [| done].
        apply existsb_exists in Ex as (x & Hx%list_elem_of_In & Hc). by rewrite Hctl in Hc.
    + rewrite chars_trim_nil. intros H. apply forallb_false_exists in Hws. congruence.
Qed.

(** A stored specification came through [parse]. *)
Definition spec_valid (p : PackageSpec.t) : Prop := PackageSpec.acceptable (PackageSpec.as_str p).

Lemma spec_parse_valid p : spec_valid p -> PackageSpec.parse (PackageSpec.as_str p) = Ok p.
Proof. intros H. apply spec_parse_ok. split; [done | by destruct p]. Qed.

Lemma validate_packages_ok seen l :
  Forall spec_valid l -> NoDup (PackageSpec.as_str <$> l) ->
  (forall p, p ∈ l -> PackageSpec.as_str p ∉ seen) ->
  validate_packages seen l = Ok tt.
Proof.
  revert seen. induction l as [|p l IH]; intros seen Hv Hnd Hseen; simpl; [done |].
  apply Forall_cons in Hv as [Hp Hv]. csimpl in Hnd. apply NoDup_cons in Hnd as [Hin Hnd].
  rewrite spec_parse_valid by done. simpl.
  rewrite bool_decide_eq_false_2 by (apply Hseen; left). simpl.
  apply IH; [done | done |]. intros q Hq [E|Hs]%elem_of_cons.
  - apply Hin. apply list_elem_of_fmap. eauto.
  - by apply (Hseen q); [right |].
Qed.

Lemma validate_packages_inv seen l u : validate_packages seen l = Ok u -> Forall spec_valid l.
Proof.
  revert seen. induction l as [|p l IH]; intros seen; simpl; [constructor |].
  intros E. result_inv. apply spec_parse_ok in H as [? _].
  constructor; [done | by eapply IH].
Qed.

Lemma windows2_as_str l :
  windows2_any (fun a b => geb (PackageSpec.as_str a) (PackageSpec.as_str b)) l = false <->
  StronglySorted clt l.
Proof. apply (windows2_geb_sorted (A := PackageSpec.t)). Qed.

Lemma sorted_names_NoDup l : StronglySorted clt l -> NoDup (PackageSpec.as_str <$> l).
Proof.
  intros Hs. apply NoDup_fmap_2; [| by apply clt_sorted_NoDup].
  intros [] []; simpl; congruence.
Qed.

(** The conditions [validate] checks. *)
Definition wf (i : t) : Prop :=
  schema_version i = SCHEMA_VERSION /\
  (requires_packages (action i) = true -> packages i <> []) /\
  StronglySorted clt (packages i) /\ Forall spec_valid (packages i).

Lemma intent_validate_ok i u : validate i = Ok u <-> wf i.
Proof.
  destruct u. unfold validate, wf. split.
  - intros E. result_inv. bool_inv. apply N.eqb_eq in H.
    apply validate_packages_inv in E. apply windows2_as_str in H1.
    split; [done |]. split; [| done]. intros Hr Hnil.
    rewrite Hr, Hnil in H0. done.
  - intros (-> & Hne & Hs & Hv). rewrite N.eqb_refl. simpl.
    assert (requires_packages (action i) && bool_decide (packages i = []) = false) as ->.
    { destruct (requires_packages _); simpl; [| done]. apply bool_decide_eq_false. by apply Hne. }
    simpl. rewrite (proj2 (windows2_as_str _) Hs). simpl.
    apply validate_packages_ok; [done | by apply sorted_names_NoDup | set_solver].
Qed.

Lemma sort_specs l :
  sort_by (fun l r => cmp (PackageSpec.as_str l) (PackageSpec.as_str r)) l = sort l.
Proof. reflexivity. Qed.

Lemma intent_new_ok a ps i :
  new a ps = Ok i <->
  Forall spec_valid ps /\ NoDup ps /\ (requires_packages a = true -> ps <> []) /\
  i = mk SCHEMA_VERSION a (sort ps).
Proof.
  unfold new. rewrite sort_specs.
  assert (Hperm : sort ps ≡ₚ ps) by apply sort_by_perm. split.
  - intros E. result_inv. apply intent_validate_ok in H as (_ & Hne & Hs & Hv). simpl in *.
    rewrite Hperm in Hv. split; [done |].
    split; [apply clt_sorted_NoDup in Hs; by rewrite Hperm in Hs |].
    split; [| done]. intros Hr ->. by apply Hne.
  - intros (Hv & Hnd & Hne & ->).
    rewrite (proj2 (intent_validate_ok (mk SCHEMA_VERSION a (sort ps)) tt)); [done |].
    split; [done |]. simpl. split; [| split; [by apply sort_NoDup_clt | by rewrite Hperm]].
    intros Hr Hnil. apply (Hne Hr). apply Permutation_nil_r. rewrite <- Hperm. by rewrite Hnil.
Qed.

Lemma validate_packages_err seen l e :
  NoDup (PackageSpec.as_str <$> l) -> (forall p, p ∈ l -> PackageSpec.as_str p ∉ seen) ->
  validate_packages seen l = Err e ->
  exists p, p ∈ l /\ PackageSpec.parse (PackageSpec.as_str p) = Err e.
Proof.
  revert seen. induction l as [|p l IH]; intros seen Hnd Hseen; simpl; [done |].
  csimpl in Hnd. apply NoDup_cons in Hnd as [Hin Hnd].
  rewrite bind_err. intros [Hp|(q & Hq & E)]; [exists p; split; [left | done] |].
  rewrite bool_decide_eq_false_2 in E by (apply Hseen; left). simpl in E.
  apply IH in E as (r & Hr & E); [exists r; split; [by right | done] | done |].
  intros r Hr [Er|Hs]%elem_of_cons.
  - apply Hin. apply list_elem_of_fmap. eauto.
  - by apply (Hseen r); [right |].
Qed.

(** [TransactionIntent::new] succeeds exactly on distinct acceptable specifications, at
    least one where the action needs it, and keeps all of them in increasing order. *)
Theorem intent_new_spec (a : Action.t) (ps : list PackageSpec.t) (i : t) :
  new a ps = Ok i <->
  (forall p, p ∈ ps -> PackageSpec.acceptable (PackageSpec.as_str p)) /\ NoDup ps /\
  (requires_packages a = true -> ps <> []) /\ i = mk 1 a (sort ps).
Proof. rewrite intent_new_ok. by rewrite Forall_forall. Qed.

(** Every error of [TransactionIntent::validate] has its cause in the intent, checked in
    this order; a repeated name is reported as a broken order, never as
    [DuplicatePackage]. *)
Theorem intent_validate_errors (i : t) (e : IntentError.t) (He : validate i = Err e) :
  match e with
  | IntentError.SchemaVersion v => v = schema_version i /\ v <> 1
  | IntentError.MissingPackages a =>
      a = action i /\ requires_packages a = true /\ packages i = []
  | IntentError.NonCanonicalPackages => ~ StronglySorted clt (packages i)
  | IntentError.EmptyPackage | IntentError.OptionLikePackage _
  | IntentError.ControlCharacter _ =>
      exists p, p ∈ packages i /\ ~ PackageSpec.acceptable (PackageSpec.as_str p)
  | IntentError.DuplicatePackage _ | IntentError.Json _ => False
  end.
Proof.
  unfold validate in He. apply bind_err in He as [He|([] & H1 & He)].
  { apply reject_if_err in He as [Hv <-]. bool_inv. by apply N.eqb_neq in Hv. }
  apply bind_err in He as [He|([] & H2 & He)].
  { apply reject_if_err in He as [Hv <-]. by bool_inv. }
  apply bind_err in He as [He|([] & H3 & He)].
  { apply reject_if_err in He as [Hv <-]. rewrite <- windows2_as_str. congruence. }
  apply reject_if_ok, windows2_as_str in H3.
  apply validate_packages_err in He as (p & Hp & E);
    [| by apply sorted_names_NoDup | intros ? ? ?%not_elem_of_nil; done].
  assert (Hbad : ~ PackageSpec.acceptable (PackageSpec.as_str p)).
  { intros Ha. by rewrite spec_parse_valid in E. }
  unfold PackageSpec.parse, reject_if in E.
  repeat case_match; simplify_eq/=; eauto.
Qed.

Lemma intent_validate_errors_witness :
  ~ StronglySorted clt [PackageSpec.mk "bash"; PackageSpec.mk "bash"].
Proof.
  apply (intent_validate_errors
    (mk 1 Action.Install [PackageSpec.mk "bash"; PackageSpec.mk "bash"])
    IntentError.NonCanonicalPackages). reflexivity.
Defined.

(** ** Canonical JSON *)

Section json.
Context (raw : SerdeJson t) (raw_laws : SerdeJsonLaws t (fun _ => True)).

Lemma deserialize_id v w : deserialize v = Ok w -> w = v.
Proof. unfold deserialize. intros E. by result_inv. Qed.

Lemma deserialize_wf v : wf v -> deserialize v = Ok v.
Proof.
  intros Hv. unfold deserialize. pose proof Hv as (_ & _ & _ & Hps).
  assert (Hm : mapM PackageSpec.deserialize (PackageSpec.as_str <$> packages v) = Ok (packages v)).
  { apply mapM_ok. apply Forall2_fmap_l. apply Forall_Forall2_diag.
    eapply Forall_impl; [done |]. intros p Hp. unfold PackageSpec.deserialize. simpl.
    by rewrite spec_parse_valid. }
  rewrite Hm. simpl. by rewrite (proj2 (intent_validate_ok v tt) Hv).
Qed.

#[export] Instance intent_document_laws :
  @CanonicalDocumentLaws t (intent_document raw) (fun _ => True).
Proof.
  apply (validated_document_laws raw deserialize validate_document (fun _ => True) raw_laws).
  intros w _ Hw%map_err_ok. apply intent_validate_ok in Hw. by apply deserialize_wf.
Qed.
End json.

(** The canonical JSON of an intent: what [to_json] writes [from_json] reads back, and only
    that text; every intent read is well formed: schema 1, packages where the action needs
    them, specifications acceptable and in strictly increasing order. *)
Theorem intent_json_roundtrip (raw : SerdeJson t) (Hraw : SerdeJsonLaws t (fun _ => True))
    (document : list byte) (Hinspect : inspect document = Ok tt) (i : t) :
  (to_json raw i = Ok document <-> from_json raw document = Ok i) /\
  (from_json raw document = Ok i -> wf i).
Proof.
  pose proof (intent_document_laws raw Hraw) as L. unfold to_json, from_json. split.
  - rewrite !map_err_ok. split; intros; [by apply from_to_canonical_json |].
    by apply to_from_canonical_json.
  - intros E%map_err_ok. apply (intent_validate_ok i tt).
    by apply from_validated_document, map_err_ok in E.
Qed.

(** A concrete codec of intents. *)
#[local] Instance action_countable : Countable Action.t.
Proof.
  refine (inj_countable (fun a => match a with
    | Action.Install => 0 | Action.Upgrade => 1 | Action.Remove => 2 | Action.Downgrade => 3
    | Action.Reinstall => 4 | Action.DistroSync => 5 | Action.Autoremove => 6 end)
    (fun n => match n with
    | 0 => Some Action.Install | 1 => Some Action.Upgrade | 2 => Some Action.Remove
    | 3 => Some Action.Downgrade | 4 => Some Action.Reinstall | 5 => Some Action.DistroSync
    | 6 => Some Action.Autoremove | _ => None end) _).
  by intros [].
Defined.

#[local] Instance intent_countable : Countable t.
Proof.
  refine (inj_countable'
    (fun i => (schema_version i, action i, PackageSpec.as_str <$> packages i))
    (fun '(v, a, ps) => mk v a (PackageSpec.mk <$> ps)) _).
  intros [v a ps]. simpl. f_equal. induction ps as [|[p] ps IH]; csimpl; congruence.
Defined.

Definition example_intent : t := mk 1 Action.Install [PackageSpec.mk "bash"].

Lemma intent_json_roundtrip_witness :
  from_json BitCodec.bit_codec (BitCodec.pos_bits (encode example_intent)) = Ok example_intent.
Proof.
  assert (Hi : inspect (BitCodec.pos_bits (encode example_intent)) = Ok tt)
    by (vm_compute; reflexivity).
  apply (intent_json_roundtrip _ (BitCodec.bit_codec_laws _) _ Hi example_intent).
  vm_compute. reflexivity.
Defined.
End IntentFacts.
