(* ===== verification/Policy.v ===== *)
(** * The solver policy ([dnfast-core/src/policy.rs])

    Which packages may be removed and which replacements are upgrades, downgrades or
    reinstalls.  The ordered sets of the source are strictly increasing lists; a document
    decodes to plain lists, which [SolverPolicy.deserialize] turns into sets. *)
From S2P Require Import Prelude.
From S2P Require Import RustStr.
From S2P Require Import Value.
From S2P Require Import Canonical.

Local Open Scope N_scope.

Module PackageReason.
Inductive t : Type := User | Dependency | WeakDependency | External | Unknown.

#[global] Instance package_reason_eq_dec : EqDecision t.
Proof. solve_decision. Defined.

Definition discriminant (r : t) : N :=
  match r with User => 0 | Dependency => 1 | WeakDependency => 2 | External => 3 | Unknown => 4 end.

#[global] Instance package_reason_ord : RustOrd t := ord_on discriminant.
#[global] Instance package_reason_ord_laws : RustOrdLaws t.
Proof. apply (ord_on_laws discriminant). by intros [] []. Qed.

Definition is_autoremove_candidate (r : t) : bool :=
  match r with Dependency | WeakDependency => true | _ => false end.
End PackageReason.

Module ReplacementOperation.
Inductive t : Type := Upgrade | Downgrade | Reinstall.

#[global] Instance replacement_operation_eq_dec : EqDecision t.
Proof. solve_decision. Defined.
End ReplacementOperation.

Module CandidateAction.
Inductive t : Type :=
  | Replace (operation : ReplacementOperation.t) (installed candidate : Evra.t)
      (installed_vendor candidate_vendor : string)
  | Deferred (name : string).

Definition upgrade : Evra.t -> Evra.t -> string -> string -> t := Replace ReplacementOperation.Upgrade.
Definition downgrade : Evra.t -> Evra.t -> string -> string -> t := Replace ReplacementOperation.Downgrade.
Definition reinstall : Evra.t -> Evra.t -> string -> string -> t := Replace ReplacementOperation.Reinstall.
Definition distro_sync : t := Deferred "distro-sync".
Definition vendor_switch : t := Deferred "vendor switch".
Definition arch_switch : t := Deferred "architecture switch".
End CandidateAction.

Module RepoPreference.
Record t : Type := mk {
  priority : N;
  cost : N;
  repo_id : string
}.

#[global] Instance repo_preference_eq_dec : EqDecision t.
Proof. solve_decision. Defined.

Definition tuple (r : t) := (priority r, (cost r, repo_id r)).

#[global] Instance repo_preference_ord : RustOrd t := ord_on tuple.
#[global] Instance repo_preference_ord_laws : RustOrdLaws t.
Proof. apply (ord_on_laws tuple). intros [] []; unfold tuple; simpl. congruence. Qed.

Definition new (repo_id : string) (priority cost : N) : domain t :=
  _ ← reject_if (str_is_empty repo_id) (DomainError.Empty "repo_id");
  Ok (mk priority cost repo_id).

(** [Deserialize]. *)
Definition deserialize (raw : t) : result string t :=
  map_err DomainError.to_string (new (repo_id raw) (priority raw) (cost raw)).
End RepoPreference.

Module SolverPolicy.
Record t : Type := mk {
  schema_version : N;
  install_weak_deps : bool;
  best : bool;
  base_arch : Architecture.t;
  allowed_arches : list Architecture.t;
  allow_multilib : bool;
  allow_vendor_change : bool;
  upgrade_only : bool;
  repo_preferences : list RepoPreference.t;
  protected_packages : list string;
  installonly_packages : list string;
  running_kernel_name : option string;
  excludes : list string
}.

#[global] Instance solver_policy_eq_dec : EqDecision t.
Proof. solve_decision. Defined.

(** *** Construction *)

Definition fedora44 (arch : Architecture.t) (protected installonly : list string) : t := {|
  schema_version := 1;
  install_weak_deps := true;
  best := false;
  base_arch := arch;
  allowed_arches := bset_of_list [arch; Architecture.Noarch];
  allow_multilib := false;
  allow_vendor_change := false;
  upgrade_only := true;
  repo_preferences := [];
  protected_packages := bset_of_list protected;
  installonly_packages := bset_of_list installonly;
  running_kernel_name := None;
  excludes := []
|}.

Definition fedora44_aarch64 : list string -> list string -> t := fedora44 Architecture.Aarch64.
Definition fedora44_x86_64 : list string -> list string -> t := fedora44 Architecture.X86_64.

Definition with_repositories (p : t) (repositories : list RepoPreference.t) : t :=
  mk (schema_version p) (install_weak_deps p) (best p) (base_arch p) (allowed_arches p)
    (allow_multilib p) (allow_vendor_change p) (upgrade_only p) (sort repositories)
    (protected_packages p) (installonly_packages p) (running_kernel_name p) (excludes p).

Definition with_excludes (p : t) (excludes : list string) : t :=
  mk (schema_version p) (install_weak_deps p) (best p) (base_arch p) (allowed_arches p)
    (allow_multilib p) (allow_vendor_change p) (upgrade_only p) (repo_preferences p)
    (protected_packages p) (installonly_packages p) (running_kernel_name p)
    (bset_of_list excludes).

Definition with_running_kernel_name (p : t) (package_name : string) : t :=
  mk (schema_version p) (install_weak_deps p) (best p) (base_arch p) (allowed_arches p)
    (allow_multilib p) (allow_vendor_change p) (upgrade_only p) (repo_preferences p)
    (protected_packages p) (installonly_packages p) (Some package_name) (excludes p).

(** *** Queries *)

Definition is_excluded (p : t) (name : string) : bool := bset_contains name (excludes p).
Definition is_protected (p : t) (name : string) : bool := bset_contains name (protected_packages p).
Definition is_installonly (p : t) (name : string) : bool := bset_contains name (installonly_packages p).
Definition is_running_kernel (p : t) (name : string) : bool :=
  bool_decide (running_kernel_name p = Some name).

(** *** Actions *)

Definition validate_action (p : t) (action : CandidateAction.t) : domain unit :=
  match action with
  | CandidateAction.Replace _ _ _ _ _ => Ok tt
  | CandidateAction.Deferred name => Err (DomainError.UnsafeAction name)
  end.

Definition validate_upgrade (p : t) (action : CandidateAction.t) : domain unit :=
  match action with
  | CandidateAction.Replace ReplacementOperation.Upgrade installed candidate
      installed_vendor candidate_vendor =>
      _ ← Evra.validate installed;
      _ ← Evra.validate candidate;
      _ ← reject_if (bool_decide (Evra.arch installed <> Evra.arch candidate))
            (DomainError.UnsafeAction "architecture switch");
      _ ← reject_if (bool_decide (installed_vendor <> candidate_vendor))
            (DomainError.UnsafeAction "vendor switch");
      _ ← reject_if (negb (Evra.is_strictly_newer_than candidate installed))
            (DomainError.UnsafeAction "candidate is not newer");
      Ok tt
  | _ => validate_action p action
  end.

Definition validate_replacement_identity (p : t) (installed candidate : Evra.t)
    (installed_vendor candidate_vendor : string) : domain unit :=
  _ ← Evra.validate installed;
  _ ← Evra.validate candidate;
  _ ← reject_if (bool_decide (Evra.arch installed <> Evra.arch candidate))
        (DomainError.UnsafeAction "architecture switch");
  _ ← reject_if (bool_decide (installed_vendor <> candidate_vendor))
        (DomainError.UnsafeAction "vendor switch");
  Ok tt.

Definition validate_downgrade (p : t) (action : CandidateAction.t) : domain unit :=
  match action with
  | CandidateAction.Replace ReplacementOperation.Downgrade installed candidate
      installed_vendor candidate_vendor =>
      _ ← validate_replacement_identity p installed candidate installed_vendor candidate_vendor;
      _ ← reject_if (negb (Evra.is_strictly_newer_than installed candidate))
            (DomainError.UnsafeAction "candidate is not older");
      Ok tt
  | _ => validate_action p action
  end.

Definition validate_reinstall (p : t) (action : CandidateAction.t) : domain unit :=
  match action with
  | CandidateAction.Replace ReplacementOperation.Reinstall installed candidate
      installed_vendor candidate_vendor =>
      _ ← validate_replacement_identity p installed candidate installed_vendor candidate_vendor;
      _ ← reject_if (bool_decide (installed <> candidate))
            (DomainError.UnsafeAction "reinstall candidate differs");
      Ok tt
  | _ => validate_action p action
  end.

Definition validate_removal (p : t) (name : string) (reason : PackageReason.t) : domain unit :=
  _ ← reject_if (bset_contains name (protected_packages p))
        (DomainError.UnsafeAction "protected package removal");
  _ ← reject_if (bset_contains name (installonly_packages p))
        (DomainError.UnsafeAction "installonly package removal");
  _ ← reject_if (bool_decide (running_kernel_name p = Some name))
        (DomainError.UnsafeAction "running kernel removal");
  match reason with
  | PackageReason.User | PackageReason.Dependency | PackageReason.WeakDependency => Ok tt
  | PackageReason.External | PackageReason.Unknown =>
      Err (DomainError.UnsafeAction "package reason requires keep")
  end.

Definition validate_planned_removal : t -> string -> PackageReason.t -> domain unit :=
  validate_removal.

Definition validate_planned_upgrade (p : t) (installed candidate : Evra.t)
    (installed_vendor candidate_vendor : string) : domain unit :=
  validate_upgrade p (CandidateAction.upgrade installed candidate installed_vendor candidate_vendor).

(** *** Validity of the policy itself *)

Definition validate (p : t) : domain unit :=
  _ ← reject_if (negb (schema_version p =? 1)) (DomainError.SchemaVersion 1 (schema_version p));
  expected_arches ←
    match base_arch p with
    | Architecture.Aarch64 => Ok (bset_of_list [Architecture.Aarch64; Architecture.Noarch])
    | Architecture.X86_64 => Ok (bset_of_list [Architecture.X86_64; Architecture.Noarch])
    | Architecture.Noarch => Err DomainError.Architecture
    end;
  _ ← reject_if (bool_decide (allowed_arches p <> expected_arches)) DomainError.Architecture;
  _ ← reject_if
        (negb (install_weak_deps p) || best p || allow_multilib p || allow_vendor_change p
           || negb (upgrade_only p))
        (DomainError.UnsafeAction "unsafe solver policy");
  _ ← reject_if (windows2_any geb (repo_preferences p)) DomainError.NonCanonical;
  _ ← reject_if (existsb (fun repo => str_is_empty (RepoPreference.repo_id repo)) (repo_preferences p))
        (DomainError.Empty "repo_id");
  _ ← reject_if
        (existsb str_is_empty
           (protected_packages p ++ installonly_packages p ++ excludes p)
         || match running_kernel_name p with Some name => str_is_empty name | None => false end)
        (DomainError.Empty "solver package name");
  Ok tt.

Definition ensure_supported (p : t) : domain unit := validate p.

(** [Deserialize], from the fields of [RawSolverPolicy]. *)
Definition deserialize (raw : t) : result string t :=
  repo_preferences ← mapM RepoPreference.deserialize (repo_preferences raw);
  let arches := bset_of_list (allowed_arches raw) in
  let protected := bset_of_list (protected_packages raw) in
  let installonly := bset_of_list (installonly_packages raw) in
  let excluded := bset_of_list (excludes raw) in
  _ ← reject_if
        (negb (Nat.eqb (length arches) (length (allowed_arches raw)))
         || negb (Nat.eqb (length protected) (length (protected_packages raw)))
         || negb (Nat.eqb (length installonly) (length (installonly_packages raw)))
         || negb (Nat.eqb (length excluded) (length (excludes raw))))
        "duplicate solver policy entry";
  let value :=
    mk (schema_version raw) (install_weak_deps raw) (best raw) (base_arch raw) arches
      (allow_multilib raw) (allow_vendor_change raw) (upgrade_only raw) repo_preferences
      protected installonly (running_kernel_name raw) excluded in
  _ ← map_err DomainError.to_string (validate value);
  Ok value.

Section json.
Context (raw : SerdeJson t).

#[local] Instance policy_serde : SerdeJson t := checked_serde raw deserialize.

#[local] Instance policy_document : CanonicalDocument t := {|
  from_canonical_json d := value ← parse d; _ ← validate value; Ok value;
  to_canonical_json p := _ ← validate p; serialize p
|}.
End json.
End SolverPolicy.

Module PolicyFacts.
Import SolverPolicy.

(** ** Removals and replacements *)

(** The reasons under which a package may go. *)
Definition removable_reason (r : PackageReason.t) : Prop :=
  r = PackageReason.User \/ r = PackageReason.Dependency \/ r = PackageReason.WeakDependency.

Lemma removal_ok p name reason u :
  validate_removal p name reason = Ok u <->
  name ∉ protected_packages p /\ name ∉ installonly_packages p /\
  running_kernel_name p <> Some name /\ removable_reason reason.
Proof.
  destruct u. unfold validate_removal, removable_reason. split.
  - intros E. result_inv. bool_inv. apply bset_contains_false in H, H0.
    repeat split; [done.. |]. destruct reason; naive_solver.
  - intros (H1%bset_contains_false & H2%bset_contains_false & H3 & H4).
    rewrite H1, H2. simpl. rewrite bool_decide_eq_false_2 by done. simpl.
    by destruct H4 as [->|[->| ->]].
Qed.

(** What every replacement has to keep. *)
Definition same_identity (installed candidate : Evra.t) (iv cv : string) : Prop :=
  (Evra.version installed <> "" /\ Evra.release installed <> "") /\
  (Evra.version candidate <> "" /\ Evra.release candidate <> "") /\
  Evra.arch installed = Evra.arch candidate /\ iv = cv.

Lemma replacement_identity_ok p i c iv cv u :
  validate_replacement_identity p i c iv cv = Ok u <-> same_identity i c iv cv.
Proof.
  destruct u. unfold validate_replacement_identity, same_identity.
  rewrite <- !EvraFacts.evra_validate_ok with (u := tt). split.
  - intros E. result_inv. bool_inv. repeat split; try done; by apply dec_stable.
  - intros (Hi & Hc & Ha & ->). rewrite Hi, Hc. simpl.
    rewrite bool_decide_eq_false_2 by auto. simpl. by rewrite bool_decide_eq_false_2 by auto.
Qed.

Lemma upgrade_ok p i c iv cv u :
  validate_upgrade p (CandidateAction.upgrade i c iv cv) = Ok u <->
  same_identity i c iv cv /\ Evra.is_strictly_newer_than c i = true.
Proof.
  destruct u. rewrite <- (replacement_identity_ok p i c iv cv tt).
  unfold CandidateAction.upgrade, validate_upgrade, validate_replacement_identity.
  destruct (Evra.validate i) as [[]|], (Evra.validate c) as [[]|];
    repeat (simpl; destruct (bool_decide _)); simpl;
    destruct (Evra.is_strictly_newer_than c i); simpl; naive_solver.
Qed.

Lemma downgrade_ok p i c iv cv u :
  validate_downgrade p (CandidateAction.downgrade i c iv cv) = Ok u <->
  same_identity i c iv cv /\ Evra.is_strictly_newer_than i c = true.
Proof.
  destruct u. rewrite <- (replacement_identity_ok p i c iv cv tt).
  unfold CandidateAction.downgrade, validate_downgrade.
  destruct (validate_replacement_identity p i c iv cv) as [[]|]; simpl; [| naive_solver].
  destruct (Evra.is_strictly_newer_than i c); simpl; naive_solver.
Qed.

Lemma reinstall_ok p i c iv cv u :
  validate_reinstall p (CandidateAction.reinstall i c iv cv) = Ok u <->
  same_identity i c iv cv /\ i = c.
Proof.
  destruct u. rewrite <- (replacement_identity_ok p i c iv cv tt).
  unfold CandidateAction.reinstall, validate_reinstall.
  destruct (validate_replacement_identity p i c iv cv) as [[]|]; simpl; [| naive_solver].
  destruct (decide (i = c)) as [->|Hne].
  - rewrite bool_decide_eq_false_2 by auto. naive_solver.
  - rewrite bool_decide_eq_true_2 by auto. naive_solver.
Qed.

(** A package may be removed exactly when it is neither protected nor installonly nor the
    running kernel and its recorded reason is the user's or a dependency's. *)
Theorem removal_safety (p : t) (name : string) (reason : PackageReason.t) :
  validate_removal p name reason = Ok tt <->
  is_protected p name = false /\ is_installonly p name = false /\
  is_running_kernel p name = false /\
  (reason = PackageReason.User \/ PackageReason.is_autoremove_candidate reason = true).
Proof.
  rewrite removal_ok. unfold is_protected, is_installonly, is_running_kernel.
  rewrite !bset_contains_false, bool_decide_eq_false. unfold removable_reason.
  destruct reason; naive_solver.
Qed.

(** The three replacement checks accept valid versions of one architecture and vendor,
    for a newer, an older and the identical candidate respectively; no replacement is
    accepted as two kinds, and a deferred action is never accepted. *)
Theorem replacement_kinds (p : t) (i c : Evra.t) (iv cv : string) :
  (validate_upgrade p (CandidateAction.upgrade i c iv cv) = Ok tt <->
     same_identity i c iv cv /\ Evra.evr_cmp i c = Lt) /\
  (validate_downgrade p (CandidateAction.downgrade i c iv cv) = Ok tt <->
     same_identity i c iv cv /\ Evra.evr_cmp i c = Gt) /\
  (validate_reinstall p (CandidateAction.reinstall i c iv cv) = Ok tt <->
     same_identity i c iv cv /\ i = c) /\
  (validate_reinstall p (CandidateAction.reinstall i c iv cv) = Ok tt ->
     Evra.evr_cmp i c = Eq) /\
  (forall name, validate_upgrade p (CandidateAction.Deferred name) =
     Err (DomainError.UnsafeAction name)).
Proof.
  pose proof EvraFacts.evr_cmp_preorder as P.
  rewrite upgrade_ok, downgrade_ok, reinstall_ok, !EvraFacts.newer_spec.
  rewrite <- (cp_gt_lt P c i). split; [done |]. split; [done |]. split; [done |].
  split; [| done]. intros [_ ->]. apply (cp_refl P).
Qed.

(** ** Valid policies *)

Definition names_of (p : t) : list string :=
  protected_packages p ++ installonly_packages p ++ excludes p.

(** The conditions [validate] checks. *)
Definition wf (p : t) : Prop :=
  schema_version p = 1 /\ base_arch p <> Architecture.Noarch /\
  allowed_arches p = bset_of_list [base_arch p; Architecture.Noarch] /\
  install_weak_deps p = true /\ best p = false /\ allow_multilib p = false /\
  allow_vendor_change p = false /\ upgrade_only p = true /\
  StronglySorted clt (repo_preferences p) /\
  Forall (fun r => RepoPreference.repo_id r <> "") (repo_preferences p) /\
  Forall (fun n => n <> "") (names_of p) /\ running_kernel_name p <> Some "".

(** What the [BTreeSet] fields hold by their type. *)
Definition sets_sorted (p : t) : Prop :=
  StronglySorted clt (allowed_arches p) /\ StronglySorted clt (protected_packages p) /\
  StronglySorted clt (installonly_packages p) /\ StronglySorted clt (excludes p).

Lemma existsb_empty {A} (f : A -> string) l :
  existsb (fun x => str_is_empty (f x)) l = false <-> Forall (fun x => f x <> "") l.
Proof. rewrite existsb_false. by setoid_rewrite str_is_empty_false. Qed.

Lemma policy_validate_ok p u : validate p = Ok u <-> wf p.
Proof.
  destruct u. unfold validate, wf. split.
  - intros E. result_inv. bool_inv. apply N.eqb_eq in H.
    apply windows2_geb_sorted in H3. apply existsb_empty in H4.
    apply (existsb_empty (fun n => n)) in H5.
    assert (running_kernel_name p <> Some "") by (intros Hk; by rewrite Hk in H6).
    destruct (base_arch p); result_inv; repeat split; try done; by apply dec_stable.
  - intros (Hv & Hb & Ha & Hw & Hbest & Hm & Hvc & Hu & Hs & Hr & Hn & Hk).
    rewrite Hv, Hw, Hbest, Hm, Hvc, Hu. simpl.
    assert (E : match base_arch p with
      | Architecture.Aarch64 => Ok (bset_of_list [Architecture.Aarch64; Architecture.Noarch])
      | Architecture.X86_64 => Ok (bset_of_list [Architecture.X86_64; Architecture.Noarch])
      | Architecture.Noarch => Err DomainError.Architecture
      end = Ok (allowed_arches p)) by (rewrite Ha; by destruct (base_arch p)).
    rewrite E. simpl. rewrite bool_decide_eq_false_2 by auto. simpl.
    rewrite (proj2 (windows2_geb_sorted _) Hs). simpl.
    rewrite (proj2 (existsb_empty _ _) Hr). simpl.
    apply (existsb_empty (fun n => n)) in Hn. unfold names_of in Hn.
    change (existsb (fun n => str_is_empty n)) with (existsb str_is_empty) in Hn.
    rewrite Hn. simpl.
    destruct (running_kernel_name p) as [[]|]; done.
Qed.

(** The policy the program builds is accepted exactly when the architecture is a real
    one, no name is empty, no repository is named twice with the same rank and no
    repository name is empty; it then passes the same checks when read back. *)
Theorem policy_construction (arch : Architecture.t)
    (protected installonly excluded : list string) (repositories : list RepoPreference.t)
    (kernel : string) :
  let p := with_running_kernel_name
    (with_excludes (with_repositories (fedora44 arch protected installonly) repositories) excluded)
    kernel in
  (ensure_supported p = Ok tt <->
    arch <> Architecture.Noarch /\ kernel <> "" /\
    (forall n, n ∈ protected \/ n ∈ installonly \/ n ∈ excluded -> n <> "") /\
    NoDup repositories /\ forall r, r ∈ repositories -> RepoPreference.repo_id r <> "") /\
  sets_sorted p.
Proof.
  intros p. split.
  - unfold ensure_supported. rewrite policy_validate_ok. unfold wf, names_of, p. simpl.
    rewrite !Forall_app, !Forall_forall. setoid_rewrite elem_of_bset_of_list.
    setoid_rewrite elem_of_sort. split.
    + intros (_ & Ha & _ & _ & _ & _ & _ & _ & Hs & Hr & (Hp & Hi & He) & Hk).
      split; [done |]. split; [congruence |]. split; [naive_solver |]. split; [| done].
      apply clt_sorted_NoDup in Hs. unfold sort in Hs. by rewrite sort_by_perm in Hs.
    + intros (Ha & Hk & Hn & Hd & Hr). repeat split; try done; try naive_solver.
      by apply sort_NoDup_clt.
  - unfold sets_sorted, p. simpl. repeat split; apply bset_of_list_sorted.
Qed.

(** ** Canonical JSON *)

Lemma bset_of_list_id {A} `{RustOrdLaws A} (l : list A) :
  StronglySorted clt l -> bset_of_list l = l.
Proof.
  intros Hl. apply clt_sorted_ext; [apply bset_of_list_sorted | done |].
  intros x. apply elem_of_bset_of_list.
Qed.

Lemma repo_preferences_deserialize l :
  Forall (fun r => RepoPreference.repo_id r <> "") l -> mapM RepoPreference.deserialize l = Ok l.
Proof.
  intros Hl. apply mapM_ok. apply Forall_Forall2_diag. eapply Forall_impl; [done |].
  intros [pr co id] Hid. unfold RepoPreference.deserialize, RepoPreference.new.
  simpl in *. by rewrite (proj2 (str_is_empty_false id) Hid).
Qed.

Lemma policy_deserialize_wf p : sets_sorted p -> wf p -> deserialize p = Ok p.
Proof.
  intros (Ha & Hp & Hi & He) Hwf. pose proof Hwf as (_ & _ & _ & _ & _ & _ & _ & _ & _ & Hr & _).
  unfold deserialize. rewrite repo_preferences_deserialize by done. simpl.
  rewrite !bset_of_list_id by done. rewrite !Nat.eqb_refl. simpl.
  pose proof (proj2 (policy_validate_ok p tt) Hwf) as Hv. destruct p; simpl in *. by rewrite Hv.
Qed.

Section json.
Context (raw : SerdeJson t) (raw_laws : SerdeJsonLaws t (fun _ => True)).

#[export] Instance policy_document_laws :
  @CanonicalDocumentLaws t (policy_document raw) sets_sorted.
Proof.
  apply (validated_document_laws raw deserialize validate sets_sorted raw_laws).
  intros p Hs Hp%policy_validate_ok. by apply policy_deserialize_wf.
Qed.
End json.

Lemma policy_deserialize_inv v w : deserialize v = Ok w -> sets_sorted w /\ wf w.
Proof.
  unfold deserialize. intros E. result_inv. apply policy_validate_ok in H1.
  split; [| done]. repeat split; apply bset_of_list_sorted.
Qed.
End PolicyFacts.

#[export] Hint Resolve PolicyFacts.policy_deserialize_wf : rust.
