(* ===== verification/Documents.v ===== *)
(** * The smaller documents of the domain

    [dnfast-core/src/integrity.rs] ([RepositoryBinding], [PlanIntegrity]),
    [dnfast-core/src/trust.rs] ([RepoTrustPolicy]), [dnfast-core/src/inventory.rs]
    ([InstalledPackage], [InstalledInventory]) and [dnfast-core/src/journal.rs]
    ([JournalRecord], [HistoryRecord]). *)
From Stdlib Require Import Ascii.
From S2P Require Import Prelude.
From S2P Require Import RustStr.
From S2P Require Import Value.
From S2P Require Import Canonical.
From S2P Require Import Policy.

Local Open Scope N_scope.

(** ** Integrity *)

Module RepositoryBinding.
Record t : Type := mk {
  id : string;
  generation_sha256 : Sha256Digest.t;
  origin_sha256 : Sha256Digest.t;
  trust_sha256 : Sha256Digest.t
}.

#[global] Instance repository_binding_eq_dec : EqDecision t.
Proof. solve_decision. Defined.

Definition tuple (b : t) :=
  (id b, (generation_sha256 b, (origin_sha256 b, trust_sha256 b))).

#[global] Instance repository_binding_ord : RustOrd t := ord_on tuple.
#[global] Instance repository_binding_ord_laws : RustOrdLaws t.
Proof. apply (ord_on_laws tuple). intros [] []; unfold tuple; simpl. congruence. Qed.

Definition id_byte (b : byte) : bool :=
  is_ascii_alphanumeric b || existsb (Ascii.eqb b) (bytes "_.-").

Definition new (id : string) (generation_sha256 origin_sha256 trust_sha256 : Sha256Digest.t) :
    domain t :=
  _ ← reject_if (str_is_empty id || existsb (fun b => negb (id_byte b)) (bytes id))
        (DomainError.InvalidPlan "invalid repository binding identifier");
  Ok (mk id generation_sha256 origin_sha256 trust_sha256).

(** [Deserialize]; the digests have gone through their own. *)
Definition deserialize (raw : t) : result string t :=
  map_err DomainError.to_string
    (new (id raw) (generation_sha256 raw) (origin_sha256 raw) (trust_sha256 raw)).
End RepositoryBinding.

Module PlanIntegrity.
Record t : Type := mk {
  policy_sha256 : Sha256Digest.t;
  trust_sha256 : Sha256Digest.t;
  inventory_sha256 : Sha256Digest.t;
  metadata_sha256 : Sha256Digest.t;
  planning_snapshot_sha256 : Sha256Digest.t;
  selected_repositories : list RepositoryBinding.t
}.

#[global] Instance plan_integrity_eq_dec : EqDecision t.
Proof. solve_decision. Defined.

Definition validate (i : t) : domain unit :=
  reject_if
    (bool_decide (selected_repositories i = []) || windows2_any geb (selected_repositories i))
    DomainError.NonCanonical.

(** [digests: [&str; 5]]. *)
Definition new (d0 d1 d2 d3 d4 : string) (selected : list RepositoryBinding.t) : domain t :=
  policy ← Sha256Digest.parse d0 "policy_sha256";
  trust ← Sha256Digest.parse d1 "trust_sha256";
  inventory ← Sha256Digest.parse d2 "inventory_sha256";
  metadata ← Sha256Digest.parse d3 "metadata_sha256";
  snapshot ← Sha256Digest.parse d4 "planning_snapshot_sha256";
  let value := mk policy trust inventory metadata snapshot selected in
  _ ← validate value;
  Ok value.

Definition into_parts (i : t) :=
  (policy_sha256 i, trust_sha256 i, inventory_sha256 i, metadata_sha256 i,
   planning_snapshot_sha256 i, selected_repositories i).

Definition from_parts (policy trust inventory metadata snapshot : Sha256Digest.t)
    (selected : list RepositoryBinding.t) : t :=
  mk policy trust inventory metadata snapshot selected.
End PlanIntegrity.

(** ** Trust *)

Module SigningSubkeyRule.
Inductive t : Type := PrimaryOnly | AuthorizedSubkeys.

#[global] Instance signing_subkey_rule_eq_dec : EqDecision t.
Proof. solve_decision. Defined.
End SigningSubkeyRule.

Module RepoTrustPolicy.
Definition SCHEMA_VERSION : N := 1.

Record t : Type := mk {
  schema_version : N;
  repo_id : string;
  key_bundle_sha256 : Sha256Digest.t;
  allowed_primary_fingerprints : list string;
  signing_subkey_rule : SigningSubkeyRule.t;
  valid_at_unix : N;
  require_package_signature : bool
}.

#[global] Instance repo_trust_policy_eq_dec : EqDecision t.
Proof. solve_decision. Defined.

Definition fingerprint_shape (f : string) : bool :=
  (str_len f =? 40) && forallb is_ascii_hexdigit (bytes f).

Definition validate (p : t) : domain unit :=
  _ ← reject_if (negb (schema_version p =? SCHEMA_VERSION))
        (DomainError.SchemaVersion SCHEMA_VERSION (schema_version p));
  _ ← reject_if (str_is_empty (repo_id p)) (DomainError.Empty "repo_id");
  _ ← reject_if (bool_decide (allowed_primary_fingerprints p = []))
        (DomainError.Empty "allowed_primary_fingerprints");
  _ ← reject_if (windows2_any geb (allowed_primary_fingerprints p))
        (DomainError.Duplicate "primary fingerprint");
  _ ← reject_if (negb (forallb fingerprint_shape (allowed_primary_fingerprints p)))
        (DomainError.InvalidDigest "allowed_primary_fingerprints");
  _ ← reject_if (negb (require_package_signature p))
        (DomainError.UnsafeAction "package signatures are mandatory");
  Ok tt.

Definition new (repo_id key_bundle_sha256 : string) (fingerprints : list string)
    (rule : SigningSubkeyRule.t) (valid_at_unix : N) : domain t :=
  _ ← reject_if (str_is_empty repo_id) (DomainError.Empty "repo_id");
  let allowed := sort (to_ascii_uppercase <$> fingerprints) in
  bundle ← Sha256Digest.parse key_bundle_sha256 "key_bundle_sha256";
  let value := mk SCHEMA_VERSION repo_id bundle allowed rule valid_at_unix true in
  _ ← validate value;
  Ok value.

(** [Deserialize]; the digest has gone through its own. *)
Definition deserialize (raw : t) : result string t :=
  _ ← map_err DomainError.to_string (validate raw);
  Ok raw.

Section json.
Context (raw : SerdeJson t).

#[local] Instance trust_serde : SerdeJson t := checked_serde raw deserialize.

#[local] Instance trust_document : CanonicalDocument t := {|
  from_canonical_json d := value ← parse d; _ ← validate value; Ok value;
  to_canonical_json p := _ ← validate p; serialize p
|}.

Definition from_json (d : list byte) : domain t := from_canonical_json d.
End json.
End RepoTrustPolicy.

(** ** Inventory *)

Module EraseLookupError.
Inductive t : Type := NotFound | HeaderMismatch | Ambiguous.

#[global] Instance erase_lookup_error_eq_dec : EqDecision t.
Proof. solve_decision. Defined.
End EraseLookupError.

Module InstalledPackage.
Record t : Type := mk {
  name : string;
  evra : Evra.t;
  vendor : string;
  db_instance : N;
  install_time : N;
  immutable_header_sha256 : Sha256Digest.t
}.

#[global] Instance installed_package_eq_dec : EqDecision t.
Proof. solve_decision. Defined.

Definition tuple (p : t) :=
  (name p, (evra p, (vendor p, (db_instance p, (install_time p, immutable_header_sha256 p))))).

#[global] Instance installed_package_ord : RustOrd t := ord_on tuple.
#[global] Instance installed_package_ord_laws : RustOrdLaws t.
Proof. apply (ord_on_laws tuple). intros [] []; unfold tuple; simpl. congruence. Qed.

Definition new (name : string) (evra : Evra.t) (vendor : string)
    (db_instance install_time : N) (digest : string) : domain t :=
  _ ← reject_if (str_is_empty name) (DomainError.Empty "package_name");
  _ ← Evra.validate evra;
  header ← Sha256Digest.parse digest "immutable_header_sha256";
  Ok (mk name evra vendor db_instance install_time header).

(** [Deserialize]; the version and the digest have gone through their own. *)
Definition deserialize (raw : t) : result string t :=
  _ ← map_err DomainError.to_string (Evra.validate (evra raw));
  _ ← reject_if (str_is_empty (name raw)) "empty package name";
  Ok raw.
End InstalledPackage.

Module InstalledInventory.
Import InstalledPackage.

(** The fields of the document; the memo of the digest is [cached] below. *)
Record t : Type := mk {
  schema_version : N;
  install_root : string;
  rpmdb_backend : string;
  rpm_version : string;
  packages : list InstalledPackage.t
}.

(** [PartialEq]: the memo does not count. *)
#[global] Instance installed_inventory_eq_dec : EqDecision t.
Proof. solve_decision. Defined.

(** The loop inserting every [db_instance] into a [HashSet]. *)
Definition check_instances (packages : list InstalledPackage.t) : domain unit :=
  match first_repeated [] (db_instance <$> packages) with
  | Some instance => Err (DomainError.Duplicate ("rpmdb instance " +:+ display instance))
  | None => Ok tt
  end.

Definition validate (i : t) : domain unit :=
  _ ← reject_if (negb (schema_version i =? 1)) (DomainError.SchemaVersion 1 (schema_version i));
  _ ← reject_if (bool_decide (install_root i <> "/"))
        (DomainError.InvalidPlan "inventory root must be /");
  _ ← reject_if (str_is_empty (rpmdb_backend i)) (DomainError.Empty "rpmdb_backend");
  _ ← reject_if (str_is_empty (rpm_version i)) (DomainError.Empty "rpm_version");
  _ ← reject_if (windows2_any geb (packages i)) DomainError.NonCanonical;
  check_instances (packages i).

Definition new (backend rpm_version : string) (packages : list InstalledPackage.t) : domain t :=
  let packages := sort packages in
  _ ← check_instances packages;
  let value := mk 1 "/" backend rpm_version packages in
  _ ← validate value;
  Ok value.

Definition erase_target (i : t) (instance : N) (header_sha256 : string) :
    result EraseLookupError.t InstalledPackage.t :=
  match base.filter (fun p => db_instance p = instance) (packages i) with
  | [] => Err EraseLookupError.NotFound
  | [package] =>
      if bool_decide (Sha256Digest.as_str (immutable_header_sha256 package) = header_sha256)
      then Ok package else Err EraseLookupError.HeaderMismatch
  | _ => Err EraseLookupError.Ambiguous
  end.

(** [Deserialize]. *)
Definition deserialize (raw : t) : result string t :=
  _ ← mapM InstalledPackage.deserialize (packages raw);
  _ ← map_err DomainError.to_string (validate raw);
  Ok raw.

Section json.
Context (raw : SerdeJson t).

#[local] Instance inventory_serde : SerdeJson t := checked_serde raw deserialize.

#[local] Instance inventory_document : CanonicalDocument t := {|
  from_canonical_json d := value ← parse d; _ ← validate value; Ok value;
  to_canonical_json p := _ ← validate p; serialize p
|}.

(** The value with its [OnceLock]: the digest is computed once and then repeated. *)
Record cached : Type := mk_cached {
  inventory : t;
  memo : option Sha256Digest.t
}.

Definition canonical_sha256 (sha256_hex : list byte -> string) (c : cached) :
    domain Sha256Digest.t * cached :=
  match memo c with
  | Some digest => (Ok digest, c)
  | None =>
      match (json ← to_canonical_json (inventory c);
             Sha256Digest.parse (sha256_hex json) "canonical_sha256") with
      | Ok digest => (Ok digest, mk_cached (inventory c) (Some digest))
      | Err e => (Err e, c)
      end
  end.
End json.
End InstalledInventory.

(** ** Journal and history records *)

Module JournalState.
Inductive t : Type := Prepared | Started | RpmResult | Reconciled.

#[global] Instance journal_state_eq_dec : EqDecision t.
Proof. solve_decision. Defined.
End JournalState.

Module JournalRecord.
Record t : Type := mk {
  schema_version : N;
  plan_sha256 : Sha256Digest.t;
  sequence : N;
  state : JournalState.t
}.

#[global] Instance journal_record_eq_dec : EqDecision t.
Proof. solve_decision. Defined.

Definition new (plan_sha256 : string) (sequence : N) (state : JournalState.t) : domain t :=
  plan ← Sha256Digest.parse plan_sha256 "plan_sha256";
  Ok (mk 1 plan sequence state).

Definition deserialize (raw : t) : result string t :=
  _ ← reject_if (negb (schema_version raw =? 1)) "unsupported journal schema";
  Ok raw.

Section json.
Context (raw : SerdeJson t).

#[local] Instance journal_record_serde : SerdeJson t := checked_serde raw deserialize.

#[local] Instance journal_record_document : CanonicalDocument t := {|
  from_canonical_json d :=
    value ← parse d;
    _ ← reject_if (negb (schema_version value =? 1))
          (DomainError.SchemaVersion 1 (schema_version value));
    Ok value;
  to_canonical_json r := serialize r
|}.
End json.
End JournalRecord.

Module HistoryRecord.
Record t : Type := mk {
  schema_version : N;
  package_name : string;
  reason : PackageReason.t;
  state : JournalState.t
}.

#[global] Instance history_record_eq_dec : EqDecision t.
Proof. solve_decision. Defined.

Definition new (package_name : string) (reason : PackageReason.t) (state : JournalState.t) :
    domain t :=
  _ ← reject_if (str_is_empty package_name) (DomainError.Empty "package_name");
  Ok (mk 1 package_name reason state).

Definition may_autoremove (r : t) : bool := false.

Definition deserialize (raw : t) : result string t :=
  _ ← reject_if (negb (schema_version raw =? 1) || str_is_empty (package_name raw))
        "invalid history record";
  Ok raw.

Section json.
Context (raw : SerdeJson t).

#[local] Instance history_record_serde : SerdeJson t := checked_serde raw deserialize.

#[local] Instance history_record_document : CanonicalDocument t := {|
  from_canonical_json d :=
    value ← parse d;
    _ ← reject_if (negb (schema_version value =? 1))
          (DomainError.SchemaVersion 1 (schema_version value));
    _ ← reject_if (str_is_empty (package_name value)) (DomainError.Empty "package_name");
    Ok value;
  to_canonical_json r := serialize r
|}.
End json.
End HistoryRecord.

(** ** What the constructors establish *)

Module BindingFacts.
Import RepositoryBinding.

Definition valid_id (i : string) : Prop :=
  i <> "" /\ Forall (fun b => id_byte b = true) (bytes i).

Lemma binding_new_ok i g o t b :
  new i g o t = Ok b <-> valid_id i /\ b = mk i g o t.
Proof.
  unfold new, valid_id. rewrite <- str_is_empty_false.
  assert (Hb : existsb (fun b => negb (id_byte b)) (bytes i) = false <->
    Forall (fun b => id_byte b = true) (bytes i)).
  { rewrite existsb_false. by setoid_rewrite negb_false_iff. }
  rewrite <- Hb. split.
  - intros E. result_inv. by bool_inv.
  - intros [[He Hb'] ->]. by rewrite He, Hb'.
Qed.
End BindingFacts.

Module IntegrityFacts.
Import PlanIntegrity.

Definition wf (i : t) : Prop :=
  selected_repositories i <> [] /\ StronglySorted clt (selected_repositories i).

Lemma integrity_validate_ok i u : validate i = Ok u <-> wf i.
Proof.
  unfold validate, wf. rewrite reject_if_ok, orb_false_iff, bool_decide_eq_false.
  by rewrite windows2_geb_sorted.
Qed.
End IntegrityFacts.

Module TrustFacts.
Import RepoTrustPolicy.

Definition wf (p : t) : Prop :=
  schema_version p = 1 /\ repo_id p <> "" /\ allowed_primary_fingerprints p <> [] /\
  StronglySorted clt (allowed_primary_fingerprints p) /\
  Forall (fun f => fingerprint_shape f = true) (allowed_primary_fingerprints p) /\
  require_package_signature p = true.

Lemma trust_validate_ok p u : validate p = Ok u <-> wf p.
Proof.
  destruct u. unfold validate, wf. split.
  - intros E. result_inv. bool_inv. apply windows2_geb_sorted in H2.
    apply N.eqb_eq in H. apply str_is_empty_false in H0.
    rewrite forallb_forall in H3. repeat split; try done.
    apply Forall_forall. intros f Hf. apply H3. by apply list_elem_of_In.
  - intros (-> & Hr%str_is_empty_false & Hne & Hs & Hf & ->). rewrite Hr. simpl.
    rewrite bool_decide_eq_false_2 by done. simpl.
    rewrite (proj2 (windows2_geb_sorted _) Hs). simpl.
    rewrite (proj2 (forallb_forall _ _)); [done |].
    intros f Hi%list_elem_of_In. rewrite Forall_forall in Hf. auto.
Qed.

Lemma trust_deserialize_wf p : True -> validate p = Ok tt -> deserialize p = Ok p.
Proof. intros _ Hp. unfold deserialize. by rewrite Hp. Qed.

Section json.
Context (raw : SerdeJson t) (raw_laws : SerdeJsonLaws t (fun _ => True)).

#[export] Instance trust_document_laws : @CanonicalDocumentLaws t (trust_document raw) (fun _ => True).
Proof. apply (validated_document_laws raw deserialize validate (fun _ => True) raw_laws trust_deserialize_wf). Qed.
End json.

(** A trust policy names fingerprints in upper case, in strictly increasing order, each
    of forty hexadecimal digits, and always demands package signatures; construction fails
    exactly when a name, a digest or a fingerprint is malformed or two spellings of the same
    fingerprint are given. *)
Theorem trust_new_spec (id bundle : string) (fps : list string) (rule : SigningSubkeyRule.t)
    (valid_at : N) (p : t) :
  new id bundle fps rule valid_at = Ok p <->
  exists digest,
    id <> "" /\ Sha256Digest.parse bundle "key_bundle_sha256" = Ok digest /\
    fps <> [] /\ NoDup (to_ascii_uppercase <$> fps) /\
    (forall f, f ∈ fps -> fingerprint_shape (to_ascii_uppercase f) = true) /\
    p = mk 1 id digest (sort (to_ascii_uppercase <$> fps)) rule valid_at true.
Proof.
  unfold new. split.
  - intros E. result_inv. exists x0. apply str_is_empty_false in H.
    apply trust_validate_ok in H1 as (_ & _ & Hne & Hs & Hf & _). simpl in *.
    assert (Hp : sort (to_ascii_uppercase <$> fps) ≡ₚ to_ascii_uppercase <$> fps)
      by apply sort_by_perm.
    split; [done |]. split; [done |]. split; [by intros -> |].
    split; [apply clt_sorted_NoDup in Hs; by rewrite Hp in Hs |]. split; [| done].
    rewrite Hp, Forall_fmap, Forall_forall in Hf. intros f Hin. by apply Hf.
  - intros (d & Hid%str_is_empty_false & Hd & Hne & Hnd & Hf & ->).
    rewrite Hid, Hd. simpl.
    assert (Hp : sort (to_ascii_uppercase <$> fps) ≡ₚ to_ascii_uppercase <$> fps)
      by apply sort_by_perm.
    rewrite (proj2 (trust_validate_ok _ tt)); [done |].
    split; [done |]. split; [by apply str_is_empty_false |]. simpl.
    split; [| split; [by apply sort_NoDup_clt | split; [| done]]].
    + intros Hn. apply Hne. rewrite Hn in Hp. apply Permutation_nil in Hp.
      by apply fmap_nil_inv in Hp.
    + rewrite Hp, Forall_fmap, Forall_forall. intros f Hin. by apply Hf.
Qed.
End TrustFacts.

Module InventoryFacts.
Import InstalledInventory.

Definition instances (ps : list InstalledPackage.t) : list N := InstalledPackage.db_instance <$> ps.

Definition wf (i : t) : Prop :=
  schema_version i = 1 /\ install_root i = "/" /\ rpmdb_backend i <> "" /\ rpm_version i <> "" /\
  StronglySorted clt (packages i) /\ NoDup (instances (packages i)).

Lemma check_instances_ok ps u : check_instances ps = Ok u <-> NoDup (instances ps).
Proof.
  destruct u. unfold check_instances, instances.
  pose proof (first_repeated_None [] (InstalledPackage.db_instance <$> ps)) as H.
  destruct (first_repeated _ _).
  - split; [done |]. intros Hnd. assert (Some n = None); [| done].
    apply H. split; [done |]. intros ? _. by intros ?%not_elem_of_nil.
  - split; [intros _; by apply H | done].
Qed.

Lemma inventory_validate_ok i u : validate i = Ok u <-> wf i.
Proof.
  destruct u. unfold validate, wf. split.
  - intros E. result_inv. bool_inv. apply windows2_geb_sorted in H3.
    apply N.eqb_eq in H. apply str_is_empty_false in H1, H2.
    apply dec_stable in H0. by apply check_instances_ok in E.
  - intros (-> & -> & Hb%str_is_empty_false & Hv%str_is_empty_false & Hs & Hn).
    rewrite Hb, Hv. simpl. rewrite (proj2 (windows2_geb_sorted _) Hs). simpl.
    by apply check_instances_ok.
Qed.

Lemma inventory_new_ok backend version ps i :
  new backend version ps = Ok i <->
  backend <> "" /\ version <> "" /\ NoDup (instances ps) /\ i = mk 1 "/" backend version (sort ps).
Proof.
  assert (Hp : sort ps ≡ₚ ps) by apply sort_by_perm.
  assert (Hi : NoDup (instances (sort ps)) <-> NoDup (instances ps))
    by (unfold instances; by rewrite Hp).
  unfold new. split.
  - intros E. result_inv. apply inventory_validate_ok in H0 as (_ & _ & ? & ? & _ & ?).
    simpl in *. by rewrite Hi in *.
  - intros (Hb & Hv & Hn & ->).
    rewrite (proj2 (check_instances_ok _ tt)) by (by apply Hi). simpl.
    rewrite (proj2 (inventory_validate_ok _ tt)); [done |]. repeat split; try done; simpl.
    + apply sort_NoDup_clt. by apply NoDup_fmap_1 in Hn.
    + by apply Hi.
Qed.

(** In a validated inventory the rpmdb instance identifies a package: the erase target is
    the installed package with that instance and header digest, the lookup reports
    [HeaderMismatch] exactly when the header has changed, and never [Ambiguous]. *)
Theorem erase_target_spec (i : t) (instance : N) (header : string)
    (Hvalid : validate i = Ok tt) :
  match erase_target i instance header with
  | Ok p => p ∈ packages i /\ InstalledPackage.db_instance p = instance /\
      Sha256Digest.as_str (InstalledPackage.immutable_header_sha256 p) = header /\
      forall q, q ∈ packages i -> InstalledPackage.db_instance q = instance -> q = p
  | Err EraseLookupError.NotFound =>
      forall q, q ∈ packages i -> InstalledPackage.db_instance q <> instance
  | Err EraseLookupError.HeaderMismatch =>
      exists p, p ∈ packages i /\ InstalledPackage.db_instance p = instance /\
        Sha256Digest.as_str (InstalledPackage.immutable_header_sha256 p) <> header
  | Err EraseLookupError.Ambiguous => False
  end.
Proof.
  apply inventory_validate_ok in Hvalid as (_ & _ & _ & _ & _ & Hnd). unfold erase_target.
  destruct (base.filter _ (packages i)) as [|p l] eqn:Hf.
  { intros q Hq Hi. by apply (proj1 (filter_nil_iff _ _) Hf q). }
  assert (Hp : InstalledPackage.db_instance p = instance /\ p ∈ packages i).
  { apply (list_elem_of_filter (fun p => InstalledPackage.db_instance p = instance)).
    rewrite Hf. left. }
  destruct Hp as [Hp Hin].
  rewrite (filter_unique_key InstalledPackage.db_instance instance (packages i) p) in Hf by done.
  injection Hf as <-. case_bool_decide; [| eauto].
  repeat split; [done.. |]. intros q Hq Hk.
  pose proof (filter_unique_key _ instance (packages i) q Hnd Hq Hk) as E.
  rewrite (filter_unique_key _ instance (packages i) p Hnd Hin Hp) in E. congruence.
Qed.

(** Only what the constructors make of their fields. *)
Definition packages_valid (i : t) : Prop :=
  Forall (fun p => InstalledPackage.deserialize p = Ok p) (packages i).

Lemma inventory_deserialize_wf i :
  packages_valid i -> validate i = Ok tt -> deserialize i = Ok i.
Proof.
  intros Hp Hv. unfold deserialize.
  rewrite (proj2 (mapM_ok _ _ (packages i))) by (by apply Forall_Forall2_diag). simpl.
  by rewrite Hv.
Qed.

Lemma installed_package_new_ok n e v i t d p :
  InstalledPackage.new n e v i t d = Ok p -> InstalledPackage.deserialize p = Ok p.
Proof.
  unfold InstalledPackage.new, InstalledPackage.deserialize. intros E. result_inv. simpl.
  rewrite H0. simpl. by rewrite H.
Qed.

Section json.
Context (raw : SerdeJson t) (raw_laws : SerdeJsonLaws t (fun _ => True)).

#[export] Instance inventory_document_laws :
  @CanonicalDocumentLaws t (inventory_document raw) packages_valid.
Proof. apply (validated_document_laws raw deserialize validate packages_valid raw_laws inventory_deserialize_wf). Qed.
End json.

Definition witness_digest : Sha256Digest.t :=
  Sha256Digest.mk "aaaaaaaaaaaaaaaaaaaaaaaaaaaaaaaaaaaaaaaaaaaaaaaaaaaaaaaaaaaaaaaa".

Definition witness_inventory : t :=
  mk 1 "/" "sqlite" "6.0"
    [InstalledPackage.mk "bash" (Evra.mk 0 "5" "1" Architecture.X86_64) "Fedora" 7 1 witness_digest].

Lemma erase_target_spec_witness :
  exists p, erase_target witness_inventory 7 "aaaaaaaaaaaaaaaaaaaaaaaaaaaaaaaaaaaaaaaaaaaaaaaaaaaaaaaaaaaaaaaa" = Ok p /\
    p ∈ packages witness_inventory.
Proof.
  pose proof (erase_target_spec witness_inventory 7
    "aaaaaaaaaaaaaaaaaaaaaaaaaaaaaaaaaaaaaaaaaaaaaaaaaaaaaaaaaaaaaaaa" eq_refl) as H.
  eexists. split; [vm_compute; reflexivity |]. exact (proj1 H).
Defined.

(** The memo is empty or holds the digest of the document. *)
Definition document_sha256 (raw : SerdeJson t) (sha256_hex : list byte -> string) (i : t) :
    domain Sha256Digest.t :=
  Canonical.canonical_sha256 sha256_hex (@to_canonical_json t (inventory_document raw)) i.

Definition coherent (raw : SerdeJson t) (sha256_hex : list byte -> string) (c : cached) : Prop :=
  forall d, memo c = Some d -> document_sha256 raw sha256_hex (inventory c) = Ok d.

Lemma canonical_sha256_coherent raw sha256_hex c :
  coherent raw sha256_hex c ->
  let r := canonical_sha256 raw sha256_hex c in
  r.1 = document_sha256 raw sha256_hex (inventory c) /\
  coherent raw sha256_hex r.2 /\ inventory r.2 = inventory c.
Proof.
  intros Hc. unfold canonical_sha256. destruct (memo c) as [d|] eqn:Em.
  - simpl. split; [symmetry; by apply Hc | done].
  - change (json ← @to_canonical_json t (inventory_document raw) (inventory c);
      Sha256Digest.parse (sha256_hex json) "canonical_sha256")
      with (document_sha256 raw sha256_hex (inventory c)).
    destruct (document_sha256 raw sha256_hex (inventory c)) as [d|e] eqn:Ed; simpl; [| done].
    split; [done |]. split; [| done]. intros d' [= <-]. done.
Qed.

(** An inventory is built exactly of packages with distinct rpmdb instances, which it
    keeps in increasing order; its digest is memoised: after any number of calls the next
    one still returns the digest of the document, computed or failed as the first. *)
Theorem inventory_new_and_memo (raw : SerdeJson t) (sha256_hex : list byte -> string)
    (backend version : string) (ps : list InstalledPackage.t) (i : t) (n : nat) :
  (new backend version ps = Ok i <->
     backend <> "" /\ version <> "" /\ NoDup (instances ps) /\
     i = mk 1 "/" backend version (sort ps)) /\
  (canonical_sha256 raw sha256_hex
     (Nat.iter n (fun c => (canonical_sha256 raw sha256_hex c).2) (mk_cached i None))).1 =
  Canonical.canonical_sha256 sha256_hex (@to_canonical_json t (inventory_document raw)) i.
Proof.
  split; [apply inventory_new_ok |].
  assert (H : let c := Nat.iter n (fun c => (canonical_sha256 raw sha256_hex c).2) (mk_cached i None) in
    coherent raw sha256_hex c /\ inventory c = i).
  { induction n as [|n [Hc Hi]]; simpl; [done |].
    apply canonical_sha256_coherent in Hc as (_ & ? & ->). done. }
  destruct H as [Hc Hi]. apply canonical_sha256_coherent in Hc as (-> & _).
  by rewrite Hi.
Qed.
End InventoryFacts.

Module RecordFacts.
Lemma journal_deserialize_ok r r' :
  JournalRecord.deserialize r = Ok r' <-> JournalRecord.schema_version r = 1 /\ r' = r.
Proof.
  unfold JournalRecord.deserialize. split.
  - intros E. result_inv. bool_inv. by apply N.eqb_eq in H.
  - intros [Hv ->]. by rewrite Hv.
Qed.

(** What a journal record constructor makes is written and read back as itself; nothing
    else than schema 1 is ever read, and the digest it names is in canonical spelling. *)
Theorem journal_record_roundtrip (raw : SerdeJson JournalRecord.t)
    (Hraw : SerdeJsonLaws JournalRecord.t (fun _ => True))
    (plan : string) (sequence : N) (state : JournalState.t) (r : JournalRecord.t) (d : list byte)
    (Hnew : JournalRecord.new plan sequence state = Ok r) (Hinspect : inspect d = Ok tt) :
  Sha256Digest.valid (JournalRecord.plan_sha256 r) /\
  (@to_canonical_json _ (JournalRecord.journal_record_document raw) r = Ok d <->
   @from_canonical_json _ (JournalRecord.journal_record_document raw) d = Ok r).
Proof.
  unfold JournalRecord.new in Hnew. result_inv.
  split; [by eapply Sha256Facts.sha256_parse_valid |]. simpl. split.
  - intros Hd%serialize_ok.
    rewrite (proj2 (@canonical_parse_ok JournalRecord.t (JournalRecord.journal_record_serde raw) d
      (JournalRecord.mk 1 x sequence state))); [done |].
    split; [done |]. split; [| done]. unfold JournalRecord.journal_record_serde. simpl.
    pose proof (@from_slice_to_vec _ raw _ Hraw _ _ I Hd) as E. by rewrite E.
  - intros E. result_inv. by apply parse_serialize in H0.
Qed.

#[local] Instance journal_record_countable : Countable JournalRecord.t.
Proof.
  refine (inj_countable' (fun r => (JournalRecord.schema_version r,
      Sha256Digest.as_str (JournalRecord.plan_sha256 r), JournalRecord.sequence r,
      match JournalRecord.state r with JournalState.Prepared => 0 | JournalState.Started => 1
        | JournalState.RpmResult => 2 | JournalState.Reconciled => 3 end))
    (fun '(v, p, s, st) => JournalRecord.mk v (Sha256Digest.mk p) s
      (match st with 0 => JournalState.Prepared | 1 => JournalState.Started
        | 2 => JournalState.RpmResult | _ => JournalState.Reconciled end)) _).
  intros [v [p] s st]. by destruct st.
Defined.

Definition witness_record : JournalRecord.t :=
  JournalRecord.mk 1 InventoryFacts.witness_digest 3 JournalState.Started.

Lemma journal_record_roundtrip_witness :
  @from_canonical_json _ (JournalRecord.journal_record_document BitCodec.bit_codec)
    (BitCodec.pos_bits (encode witness_record)) = Ok witness_record.
Proof.
  apply (journal_record_roundtrip _ (BitCodec.bit_codec_laws _)
    "aaaaaaaaaaaaaaaaaaaaaaaaaaaaaaaaaaaaaaaaaaaaaaaaaaaaaaaaaaaaaaaa" 3 JournalState.Started);
    vm_compute; reflexivity.
Defined.
End RecordFacts.
