(* ===== verification/CorePlan.v ===== *)
(** * Transaction plans ([dnfast-core/src/plan.rs])

    A plan binds an intent, the digests of everything it was made from and the package
    actions, in strictly increasing order.  [PlanEnvelope.validate_now] is the check of a
    document, [PlanEnvelope.validate_executable] the check before the plan is run. *)
From S2P Require Import Prelude.
From S2P Require Import RustStr.
From S2P Require Import Value.
From S2P Require Import Canonical.
From S2P Require Import Intent.
From S2P Require Import Policy.
From S2P Require Import Documents.

Local Open Scope N_scope.

Definition MAX_PLAN_ACTIONS : N := 100000.

Module PackageOperation.
Inductive t : Type := Install | Upgrade | Downgrade | Reinstall | Remove.

#[global] Instance package_operation_eq_dec : EqDecision t.
Proof. solve_decision. Defined.

Definition discriminant (o : t) : N :=
  match o with Install => 0 | Upgrade => 1 | Downgrade => 2 | Reinstall => 3 | Remove => 4 end.

#[global] Instance package_operation_ord : RustOrd t := ord_on discriminant.
#[global] Instance package_operation_ord_laws : RustOrdLaws t.
Proof. apply (ord_on_laws discriminant). by intros [] []. Qed.
End PackageOperation.

Module ActionProvenance.
Inductive t : Type := ObsoletedBy (parent_action_identity : string).

#[global] Instance action_provenance_eq_dec : EqDecision t.
Proof. solve_decision. Defined.

Definition parent (p : t) : string := let 'ObsoletedBy i := p in i.

#[global] Instance action_provenance_ord : RustOrd t := ord_on parent.
#[global] Instance action_provenance_ord_laws : RustOrdLaws t.
Proof. apply (ord_on_laws parent). intros [] []; simpl; congruence. Qed.
End ActionProvenance.

Module PackageAction.
Record t : Type := mk {
  operation : PackageOperation.t;
  name : string;
  target_evra : Evra.t;
  installed_evra : option Evra.t;
  installed_instance : option N;
  installed_header_sha256 : option Sha256Digest.t;
  installed_vendor : option string;
  candidate_vendor : option string;
  repo_id : option string;
  reason : PackageReason.t;
  provenance : option ActionProvenance.t
}.

#[global] Instance package_action_eq_dec : EqDecision t.
Proof. solve_decision. Defined.

Definition tuple (a : t) :=
  (operation a, (name a, (target_evra a, (installed_evra a, (installed_instance a,
    (installed_header_sha256 a, (installed_vendor a, (candidate_vendor a, (repo_id a,
      (reason a, provenance a)))))))))).

#[global] Instance package_action_ord : RustOrd t := ord_on tuple.
#[global] Instance package_action_ord_laws : RustOrdLaws t.
Proof. apply (ord_on_laws tuple). intros [] []; unfold tuple; simpl. congruence. Qed.

(** *** Constructors *)

Definition install_with_vendor (name : string) (evra : Evra.t) (repo_id vendor : string)
    (reason : PackageReason.t) : t :=
  mk PackageOperation.Install name evra None None None None (Some vendor) (Some repo_id) reason None.

Definition install (name : string) (evra : Evra.t) (repo_id : string) (reason : PackageReason.t) : t :=
  mk PackageOperation.Install name evra None None None None (Some "unknown") (Some repo_id) reason None.

Definition remove_with_vendor (name : string) (evra : Evra.t) (vendor : string)
    (reason : PackageReason.t) : t :=
  mk PackageOperation.Remove name evra (Some evra) None None (Some vendor) None None reason None.

Definition remove (name : string) (evra : Evra.t) (reason : PackageReason.t) : t :=
  mk PackageOperation.Remove name evra (Some evra) None None (Some "unknown") None None reason None.

Definition upgrade (name : string) (installed_evra target_evra : Evra.t)
    (repo_id installed_vendor candidate_vendor : string) (reason : PackageReason.t) : t :=
  mk PackageOperation.Upgrade name target_evra (Some installed_evra) None None
    (Some installed_vendor) (Some candidate_vendor) (Some repo_id) reason None.

Definition downgrade (name : string) (installed_evra target_evra : Evra.t)
    (repo_id installed_vendor candidate_vendor : string) (reason : PackageReason.t) : t :=
  mk PackageOperation.Downgrade name target_evra (Some installed_evra) None None
    (Some installed_vendor) (Some candidate_vendor) (Some repo_id) reason None.

Definition reinstall (name : string) (installed_evra target_evra : Evra.t)
    (repo_id installed_vendor candidate_vendor : string) (reason : PackageReason.t) : t :=
  mk PackageOperation.Reinstall name target_evra (Some installed_evra) None None
    (Some installed_vendor) (Some candidate_vendor) (Some repo_id) reason None.

Definition remove_obsoleted (name : string) (evra : Evra.t) (vendor : string)
    (reason : PackageReason.t) (parent_action_identity : string) : t :=
  mk PackageOperation.Remove name evra (Some evra) None None (Some vendor) None None reason
    (Some (ActionProvenance.ObsoletedBy parent_action_identity)).

Definition remove_with_identity (name : string) (evra : Evra.t) (vendor : string)
    (reason : PackageReason.t) (instance : N) (header_sha256 : string) : domain t :=
  header ← Sha256Digest.parse header_sha256 "installed_header_sha256";
  Ok (mk PackageOperation.Remove name evra (Some evra) (Some instance) (Some header)
        (Some vendor) None None reason None).

Definition remove_obsoleted_with_identity (name : string) (evra : Evra.t) (vendor : string)
    (reason : PackageReason.t) (instance : N) (header_sha256 parent_action_identity : string) :
    domain t :=
  header ← Sha256Digest.parse header_sha256 "installed_header_sha256";
  Ok (mk PackageOperation.Remove name evra (Some evra) (Some instance) (Some header)
        (Some vendor) None None reason
        (Some (ActionProvenance.ObsoletedBy parent_action_identity))).

Definition upgrade_with_identity (name : string) (installed_evra target_evra : Evra.t)
    (repo_id installed_vendor candidate_vendor : string) (reason : PackageReason.t)
    (instance : N) (header_sha256 : string) : domain t :=
  header ← Sha256Digest.parse header_sha256 "installed_header_sha256";
  Ok (mk PackageOperation.Upgrade name target_evra (Some installed_evra) (Some instance)
        (Some header) (Some installed_vendor) (Some candidate_vendor) (Some repo_id) reason None).

Definition downgrade_with_identity (name : string) (installed_evra target_evra : Evra.t)
    (repo_id installed_vendor candidate_vendor : string) (reason : PackageReason.t)
    (instance : N) (header_sha256 : string) : domain t :=
  header ← Sha256Digest.parse header_sha256 "installed_header_sha256";
  Ok (mk PackageOperation.Downgrade name target_evra (Some installed_evra) (Some instance)
        (Some header) (Some installed_vendor) (Some candidate_vendor) (Some repo_id) reason None).

Definition reinstall_with_identity (name : string) (installed_evra target_evra : Evra.t)
    (repo_id installed_vendor candidate_vendor : string) (reason : PackageReason.t)
    (instance : N) (header_sha256 : string) : domain t :=
  header ← Sha256Digest.parse header_sha256 "installed_header_sha256";
  Ok (mk PackageOperation.Reinstall name target_evra (Some installed_evra) (Some instance)
        (Some header) (Some installed_vendor) (Some candidate_vendor) (Some repo_id) reason None).

(** *** Identity and validity *)

Definition action_identity (a : t) : option string :=
  (fun repo =>
    repo +:+ ":" +:+ name a +:+ "-" +:+ display (Evra.epoch (target_evra a)) +:+ ":"
    +:+ Evra.version (target_evra a) +:+ "-" +:+ Evra.release (target_evra a) +:+ "."
    +:+ Architecture.as_rpm_arch (Evra.arch (target_evra a))) <$> repo_id a.

Definition is_remove (a : t) : bool := bool_decide (operation a = PackageOperation.Remove).
Definition is_install (a : t) : bool := bool_decide (operation a = PackageOperation.Install).
Definition is_replacement (a : t) : bool := negb (is_remove a) && negb (is_install a).

(** [is_none_or(str::is_empty)]. *)
Definition missing_or_empty (o : option string) : bool :=
  match o with None => true | Some s => str_is_empty s end.

Definition is_none {A} (o : option A) : bool := match o with None => true | Some _ => false end.

(** The arms of the [match] in order, each with its guard. *)
Definition validate (a : t) : domain unit :=
  _ ← reject_if (str_is_empty (name a)) (DomainError.Empty "action_name");
  _ ← Evra.validate (target_evra a);
  _ ← reject_if (negb (is_remove a) && missing_or_empty (repo_id a))
        (DomainError.InvalidPlan "install/replacement action requires repo");
  _ ← reject_if (is_remove a && negb (is_none (repo_id a)))
        (DomainError.InvalidPlan "remove action cannot have repo");
  _ ← reject_if (is_remove a &&
          (bool_decide (reason a = PackageReason.Unknown)
           || bool_decide (reason a = PackageReason.External)))
        (DomainError.UnsafeAction "package reason requires keep");
  _ ← reject_if (is_install a &&
          (negb (is_none (installed_evra a)) || negb (is_none (installed_instance a))
           || negb (is_none (installed_header_sha256 a)) || negb (is_none (installed_vendor a))))
        (DomainError.InvalidPlan "install cannot carry installed package");
  _ ← reject_if (is_install a && missing_or_empty (candidate_vendor a))
        (DomainError.InvalidPlan "install requires candidate vendor");
  _ ← reject_if (is_replacement a &&
          (is_none (installed_evra a) || is_none (installed_vendor a)
           || missing_or_empty (candidate_vendor a) || is_none (installed_instance a)
           || is_none (installed_header_sha256 a)))
        (DomainError.InvalidPlan "replacement requires installed and candidate identity");
  _ ← reject_if (is_remove a &&
          (bool_decide (installed_evra a <> Some (target_evra a)) || is_none (installed_vendor a)
           || is_none (installed_instance a) || is_none (installed_header_sha256 a)))
        (DomainError.InvalidPlan "remove requires exact installed identity");
  _ ← reject_if (is_remove a && negb (is_none (candidate_vendor a)))
        (DomainError.InvalidPlan "remove cannot carry candidate vendor");
  _ ← reject_if (negb (is_remove a) && negb (is_none (provenance a)))
        (DomainError.InvalidPlan "install/replacement cannot carry side-effect provenance");
  Ok tt.

(** [Deserialize]: the versions through their own, then [validate]. *)
Definition deserialize (raw : t) : result string t :=
  _ ← map_err DomainError.to_string (Evra.validate (target_evra raw));
  _ ← match installed_evra raw with
      | Some installed => map_err DomainError.to_string (Evra.validate installed)
      | None => Ok tt
      end;
  _ ← map_err DomainError.to_string (validate raw);
  Ok raw.

(** The key of [canonical_actions]. *)
Definition identity (a : t) : PackageOperation.t * string * Evra.t :=
  (operation a, name a, target_evra a).
End PackageAction.

(** The loop of [canonical_actions] over the sorted actions. *)
Fixpoint check_actions (seen : list (PackageOperation.t * string * Evra.t))
    (l : list PackageAction.t) : domain unit :=
  match l with
  | [] => Ok tt
  | action :: l =>
      _ ← PackageAction.validate action;
      _ ← reject_if (bool_decide (PackageAction.identity action ∈ seen))
            (DomainError.Duplicate (PackageAction.name action));
      check_actions (PackageAction.identity action :: seen) l
  end.

Definition canonical_actions (actions : list PackageAction.t) : domain (list PackageAction.t) :=
  _ ← reject_if (MAX_PLAN_ACTIONS <? N.of_nat (length actions))
        (DomainError.InvalidPlan "action limit exceeded");
  let actions := sort actions in
  _ ← check_actions [] actions;
  Ok actions.

Module PlanEnvelope.
Record t : Type := mk {
  schema_version : N;
  install_root : string;
  intent : TransactionIntent.t;
  policy_sha256 : Sha256Digest.t;
  trust_sha256 : Sha256Digest.t;
  inventory_sha256 : Sha256Digest.t;
  metadata_sha256 : Sha256Digest.t;
  planning_snapshot_sha256 : Sha256Digest.t;
  selected_repositories : list RepositoryBinding.t;
  expires_at_unix : N;
  actions : list PackageAction.t
}.

#[global] Instance plan_envelope_eq_dec : EqDecision t.
Proof. solve_decision. Defined.

Definition new (intent : TransactionIntent.t) (integrity : PlanIntegrity.t)
    (expires_at_unix : N) (actions : list PackageAction.t) : domain t :=
  _ ← PlanIntegrity.validate integrity;
  let '(policy, trust, inventory, metadata, snapshot, selected) :=
    PlanIntegrity.into_parts integrity in
  actions ← canonical_actions actions;
  Ok (mk 2 "/" intent policy trust inventory metadata snapshot selected expires_at_unix actions).

Definition integrity (p : t) : PlanIntegrity.t :=
  PlanIntegrity.from_parts (policy_sha256 p) (trust_sha256 p) (inventory_sha256 p)
    (metadata_sha256 p) (planning_snapshot_sha256 p) (selected_repositories p).

(** The body of the loop of [validate_now]. *)
Definition validate_listed (p : t) (action : PackageAction.t) : domain unit :=
  _ ← PackageAction.validate action;
  match PackageAction.repo_id action with
  | Some repository =>
      reject_if
        (negb (existsb (fun binding => bool_decide (RepositoryBinding.id binding = repository))
                 (selected_repositories p)))
        (DomainError.InvalidPlan "action repository is not selected")
  | None => Ok tt
  end.

Definition validate_now (p : t) (now_unix : N) : domain unit :=
  _ ← reject_if (negb (schema_version p =? 2)) (DomainError.SchemaVersion 2 (schema_version p));
  _ ← reject_if (bool_decide (install_root p <> "/"))
        (DomainError.InvalidPlan "install root must be /");
  _ ← PlanIntegrity.validate (integrity p);
  _ ← reject_if (expires_at_unix p <? now_unix) (DomainError.InvalidPlan "plan expired");
  _ ← reject_if ((MAX_PLAN_ACTIONS <? N.of_nat (length (actions p))) || windows2_any geb (actions p))
        DomainError.NonCanonical;
  for_each (validate_listed p) (actions p).

Definition requested_action (p : t) : Action.t := TransactionIntent.action (intent p).

(** [Deserialize]: the intent, the bindings and the actions through their own, then
    [validate_now] at time 0. *)
Definition deserialize (raw : t) : result string t :=
  _ ← TransactionIntent.deserialize (intent raw);
  _ ← mapM RepositoryBinding.deserialize (selected_repositories raw);
  _ ← mapM PackageAction.deserialize (actions raw);
  _ ← map_err DomainError.to_string (validate_now raw 0);
  Ok raw.

Definition is_dependency (r : PackageReason.t) : bool :=
  bool_decide (r = PackageReason.Dependency) || bool_decide (r = PackageReason.WeakDependency).

(** The pairs of the [matches!] of [ordinary]. *)
Definition ordinary_operation (requested : Action.t) (operation : PackageOperation.t) : bool :=
  match requested, operation with
  | Action.Install, (PackageOperation.Install | PackageOperation.Upgrade)
  | Action.Upgrade, PackageOperation.Upgrade
  | Action.Remove, PackageOperation.Remove
  | Action.Downgrade, PackageOperation.Downgrade
  | Action.Reinstall, PackageOperation.Reinstall
  | Action.DistroSync, (PackageOperation.Upgrade | PackageOperation.Downgrade | PackageOperation.Reinstall)
  | Action.Autoremove, PackageOperation.Remove => true
  | _, _ => false
  end.

Definition dependency_install (requested : Action.t) (a : PackageAction.t) : bool :=
  match requested with Action.Upgrade | Action.DistroSync => true | _ => false end
  && bool_decide (PackageAction.operation a = PackageOperation.Install)
  && is_dependency (PackageAction.reason a).

Definition ordinary (requested : Action.t) (a : PackageAction.t) : bool :=
  ordinary_operation requested (PackageAction.operation a) || dependency_install requested a.

Definition side_effect (requested : Action.t) (parents : list string) (a : PackageAction.t) : bool :=
  match PackageAction.provenance a, PackageAction.operation a with
  | Some (ActionProvenance.ObsoletedBy parent), PackageOperation.Remove =>
      bool_decide (requested <> Action.Remove) && bool_decide (parent ∈ parents)
      && is_dependency (PackageAction.reason a)
  | _, _ => false
  end.

(** The candidate built from the three optional fields of a replacement. *)
Definition candidate (build : Evra.t -> Evra.t -> string -> string -> CandidateAction.t)
    (a : PackageAction.t) : domain CandidateAction.t :=
  installed ← ok_or (DomainError.InvalidPlan "missing installed EVRA") (PackageAction.installed_evra a);
  installed_vendor ← ok_or (DomainError.InvalidPlan "missing installed vendor")
    (PackageAction.installed_vendor a);
  candidate_vendor ← ok_or (DomainError.InvalidPlan "missing candidate vendor")
    (PackageAction.candidate_vendor a);
  Ok (build installed (PackageAction.target_evra a) installed_vendor candidate_vendor).

(** The body of the loop of [validate_executable]. *)
Definition validate_action (policy : SolverPolicy.t) (requested : Action.t)
    (parents : list string) (a : PackageAction.t) : domain unit :=
  _ ← reject_if (negb (ordinary requested a) && negb (side_effect requested parents a))
        (DomainError.InvalidPlan "intent and package operation differ");
  _ ← reject_if (ordinary requested a && negb (PackageAction.is_none (PackageAction.provenance a)))
        (DomainError.InvalidPlan "unexpected action provenance");
  _ ← reject_if (bool_decide (requested = Action.Autoremove)
                 && negb (PackageReason.is_autoremove_candidate (PackageAction.reason a)))
        (DomainError.UnsafeAction "autoremove requires dependency reason");
  match PackageAction.operation a with
  | PackageOperation.Remove =>
      SolverPolicy.validate_removal policy (PackageAction.name a) (PackageAction.reason a)
  | PackageOperation.Upgrade =>
      c ← candidate CandidateAction.upgrade a; SolverPolicy.validate_upgrade policy c
  | PackageOperation.Downgrade =>
      c ← candidate CandidateAction.downgrade a; SolverPolicy.validate_downgrade policy c
  | PackageOperation.Reinstall =>
      c ← candidate CandidateAction.reinstall a; SolverPolicy.validate_reinstall policy c
  | PackageOperation.Install => Ok tt
  end.

Definition parent_identities (p : t) : list string :=
  omap PackageAction.action_identity (actions p).

Definition validate_executable (p : t) (policy : SolverPolicy.t) (now_unix : N) : domain unit :=
  _ ← validate_now p now_unix;
  _ ← SolverPolicy.validate policy;
  for_each (validate_action policy (requested_action p) (parent_identities p)) (actions p).

Section json.
Context (raw : SerdeJson t).

#[local] Instance plan_serde : SerdeJson t := checked_serde raw deserialize.

#[local] Instance plan_document : CanonicalDocument t := {|
  from_canonical_json d := value ← parse d; _ ← validate_now value 0; Ok value;
  to_canonical_json p := _ ← validate_now p 0; serialize p
|}.

Definition from_canonical_json_at (d : list byte) (now_unix : N) : domain t :=
  value ← parse d;
  _ ← validate_now value now_unix;
  Ok value.
End json.
End PlanEnvelope.

Module PlanFacts.
Import PlanEnvelope.

(** ** Package actions *)

(** What [PackageAction::validate] demands of each operation. *)
Definition shape (a : PackageAction.t) : Prop :=
  match PackageAction.operation a with
  | PackageOperation.Install =>
      (exists r, PackageAction.repo_id a = Some r /\ r <> "") /\
      PackageAction.installed_evra a = None /\ PackageAction.installed_instance a = None /\
      PackageAction.installed_header_sha256 a = None /\ PackageAction.installed_vendor a = None /\
      (exists v, PackageAction.candidate_vendor a = Some v /\ v <> "") /\
      PackageAction.provenance a = None
  | PackageOperation.Remove =>
      PackageAction.repo_id a = None /\
      PackageAction.reason a <> PackageReason.Unknown /\
      PackageAction.reason a <> PackageReason.External /\
      PackageAction.installed_evra a = Some (PackageAction.target_evra a) /\
      is_Some (PackageAction.installed_vendor a) /\ is_Some (PackageAction.installed_instance a) /\
      is_Some (PackageAction.installed_header_sha256 a) /\ PackageAction.candidate_vendor a = None
  | _ =>
      (exists r, PackageAction.repo_id a = Some r /\ r <> "") /\
      is_Some (PackageAction.installed_evra a) /\ is_Some (PackageAction.installed_vendor a) /\
      (exists v, PackageAction.candidate_vendor a = Some v /\ v <> "") /\
      is_Some (PackageAction.installed_instance a) /\
      is_Some (PackageAction.installed_header_sha256 a) /\ PackageAction.provenance a = None
  end.

Definition action_wf (a : PackageAction.t) : Prop :=
  PackageAction.name a <> "" /\ Evra.validate (PackageAction.target_evra a) = Ok tt /\ shape a.

Lemma missing_or_empty_false o :
  PackageAction.missing_or_empty o = false <-> exists s, o = Some s /\ s <> "".
Proof.
  destruct o as [s|]; simpl; [rewrite str_is_empty_false |]; naive_solver.
Qed.

Lemma is_none_false {A} (o : option A) : PackageAction.is_none o = false <-> is_Some o.
Proof. destruct o; simpl; split; (done || by intros [? [=]]). Qed.

Lemma is_none_true {A} (o : option A) : PackageAction.is_none o = true <-> o = None.
Proof. by destruct o. Qed.

Ltac none_inv :=
  repeat match goal with
  | H : PackageAction.missing_or_empty _ = false |- _ => apply missing_or_empty_false in H
  | H : PackageAction.is_none _ = false |- _ => apply is_none_false in H
  | H : PackageAction.is_none _ = true |- _ => apply is_none_true in H
  end.

Lemma action_validate_ok a u : PackageAction.validate a = Ok u <-> action_wf a.
Proof.
  destruct u. unfold PackageAction.validate, action_wf, shape, PackageAction.is_replacement,
    PackageAction.is_remove, PackageAction.is_install. split.
  - intros E. result_inv. apply str_is_empty_false in H.
    split; [done |]. split; [done |].
    destruct (PackageAction.operation a); simpl in *; bool_inv; none_inv; repeat split; try done;
      by apply dec_stable.
  - intros (Hn%str_is_empty_false & -> & Hs). rewrite Hn. simpl.
    destruct a as [op n te ie ii ih iv cv r re pr]; simpl in *.
    destruct op; simpl; destruct_and!;
      repeat match goal with
      | H : exists s, _ = Some s /\ s <> "" |- _ =>
          destruct H as (? & -> & H); apply str_is_empty_false in H
      | H : is_Some _ |- _ => destruct H as [? ->]
      end; simplify_eq; simpl;
      repeat match goal with
      | H : str_is_empty _ = false |- _ => rewrite H; simpl
      end; try done.
    rewrite !bool_decide_eq_false_2 by auto. done.
Qed.

(** ** Canonical action lists *)

Lemma check_actions_ok seen l u :
  check_actions seen l = Ok u <->
  Forall action_wf l /\ NoDup (PackageAction.identity <$> l) /\
  forall a, a ∈ l -> PackageAction.identity a ∉ seen.
Proof.
  destruct u. revert seen. induction l as [|a l IH]; intros seen; simpl.
  - split; [intros _; repeat split; [constructor.. | by intros ? ?%not_elem_of_nil] | done].
  - rewrite Forall_cons, NoDup_cons. setoid_rewrite elem_of_cons. split.
    + intros E. result_inv. apply action_validate_ok in H. bool_inv.
      apply IH in E as (Hl & Hnd & Hseen). setoid_rewrite elem_of_cons in Hseen.
      split_and!; try done.
      * intros (b & Hb & Hin)%list_elem_of_fmap. apply (Hseen b Hin). by left.
      * intros b [->|Hb]; [done |]. intros ?. apply (Hseen b Hb). by right.
    + intros ([Ha Hl] & [Hin Hnd] & Hseen).
      rewrite (proj2 (action_validate_ok a tt) Ha). simpl.
      rewrite bool_decide_eq_false_2 by (apply Hseen; by left). simpl.
      apply IH. split_and!; try done. setoid_rewrite elem_of_cons.
      intros b Hb [E|?]; [| by apply (Hseen b); [right |]].
      apply Hin. apply list_elem_of_fmap. exists b. by rewrite E.
Qed.

Lemma canonical_actions_ok l k :
  canonical_actions l = Ok k <->
  N.of_nat (length l) <= 100000 /\ Forall action_wf l /\ NoDup (PackageAction.identity <$> l) /\
  k = sort l.
Proof.
  assert (Hp : sort l ≡ₚ l) by apply sort_by_perm. unfold canonical_actions. split.
  - intros E. result_inv. apply check_actions_ok in H0 as (Ha & Hnd & _).
    rewrite Hp in Ha, Hnd. apply N.ltb_ge in H. unfold MAX_PLAN_ACTIONS in H.
    split_and!; done.
  - intros (Hlen & Ha & Hnd & ->). unfold MAX_PLAN_ACTIONS.
    rewrite (proj2 (N.ltb_ge _ _)) by done. simpl.
    rewrite (proj2 (check_actions_ok [] (sort l) tt)); [done |].
    rewrite !Hp. split_and!; try done. by intros ? _ ?%not_elem_of_nil.
Qed.

(** The canonical form of a list of actions exists exactly when there are at most 100000,
    each is complete for its operation and no two share operation, name and target; it is
    then the same actions in increasing order, whatever their order was. *)
Theorem canonical_actions_spec (l l' k : list PackageAction.t) :
  (canonical_actions l = Ok k <->
    N.of_nat (length l) <= 100000 /\ (forall a, a ∈ l -> action_wf a) /\
    NoDup (PackageAction.identity <$> l) /\ k = sort l) /\
  (canonical_actions l = Ok k -> l ≡ₚ l' -> canonical_actions l' = Ok k).
Proof.
  rewrite <- Forall_forall, <- canonical_actions_ok. split; [done |].
  rewrite !canonical_actions_ok. intros (Hlen & Ha & Hnd & ->) Hp.
  assert (Hnd1 : NoDup l) by (by apply NoDup_fmap_1 in Hnd).
  split; [by rewrite <- (Permutation_length Hp) |].
  split; [eapply Permutation_Forall; eauto |].
  split; [by rewrite <- Hp |].
  apply sort_ext; [done | by rewrite <- Hp |]. intros x. by rewrite Hp.
Qed.

(** ** Plans *)

(** Every repository an action names is among the bindings. *)
Definition repository_selected (p : t) (a : PackageAction.t) : Prop :=
  forall r, PackageAction.repo_id a = Some r ->
    exists b, b ∈ selected_repositories p /\ RepositoryBinding.id b = r.

Lemma validate_listed_ok p a u :
  validate_listed p a = Ok u <-> action_wf a /\ repository_selected p a.
Proof.
  destruct u. unfold validate_listed, repository_selected.
  rewrite <- (action_validate_ok a tt).
  destruct (PackageAction.validate a) as [[]|]; simpl; [| split; [done | by intros []]].
  destruct (PackageAction.repo_id a) as [r|]; [| by split].
  rewrite reject_if_ok, negb_false_iff, existsb_exists. setoid_rewrite <- list_elem_of_In.
  split.
  - intros (b & Hb & E%bool_decide_eq_true). split; [done |]. intros r' [= <-]. eauto.
  - intros [_ H]. destruct (H r eq_refl) as (b & Hb & E). exists b.
    by rewrite bool_decide_eq_true.
Qed.

Definition now_wf (p : t) (now : N) : Prop :=
  schema_version p = 2 /\ install_root p = "/" /\ IntegrityFacts.wf (integrity p) /\
  now <= expires_at_unix p /\ N.of_nat (length (actions p)) <= 100000 /\
  StronglySorted clt (actions p) /\
  Forall (fun a => action_wf a /\ repository_selected p a) (actions p).

Lemma validate_now_ok p now u : validate_now p now = Ok u <-> now_wf p now.
Proof.
  destruct u. unfold validate_now, now_wf, MAX_PLAN_ACTIONS. split.
  - intros E. result_inv. bool_inv.
    apply N.eqb_eq in H. apply dec_stable in H0. apply IntegrityFacts.integrity_validate_ok in H1.
    apply N.ltb_ge in H2. apply N.ltb_ge in H3. apply windows2_geb_sorted in H4.
    split_and!; try done. eapply Forall_impl; [done |].
    intros a. simpl. by rewrite validate_listed_ok.
  - intros (-> & -> & Hi & Hn & Hlen & Hs & Ha). simpl.
    rewrite (proj2 (IntegrityFacts.integrity_validate_ok _ tt) Hi). simpl.
    rewrite (proj2 (N.ltb_ge _ _) Hn), (proj2 (N.ltb_ge _ _) Hlen). simpl.
    rewrite (proj2 (windows2_geb_sorted _) Hs). simpl.
    apply for_each_ok. eapply Forall_impl; [done |].
    intros a. simpl. by rewrite validate_listed_ok.
Qed.

(** What the policy guarantees of an action that is run. *)
Definition policy_safe (policy : SolverPolicy.t) (a : PackageAction.t) : Prop :=
  let replaces (o : comparison) := exists installed vendor,
    PackageAction.installed_evra a = Some installed /\
    PackageAction.installed_vendor a = Some vendor /\
    PackageAction.candidate_vendor a = Some vendor /\
    Evra.arch installed = Evra.arch (PackageAction.target_evra a) /\
    Evra.evr_cmp installed (PackageAction.target_evra a) = o in
  match PackageAction.operation a with
  | PackageOperation.Install => True
  | PackageOperation.Remove =>
      SolverPolicy.is_protected policy (PackageAction.name a) = false /\
      SolverPolicy.is_installonly policy (PackageAction.name a) = false /\
      SolverPolicy.is_running_kernel policy (PackageAction.name a) = false /\
      PolicyFacts.removable_reason (PackageAction.reason a)
  | PackageOperation.Upgrade => replaces Lt
  | PackageOperation.Downgrade => replaces Gt
  | PackageOperation.Reinstall =>
      replaces Eq /\ PackageAction.installed_evra a = Some (PackageAction.target_evra a)
  end.

Lemma candidate_ok build a c :
  candidate build a = Ok c <->
  exists i iv cv, PackageAction.installed_evra a = Some i /\
    PackageAction.installed_vendor a = Some iv /\ PackageAction.candidate_vendor a = Some cv /\
    c = build i (PackageAction.target_evra a) iv cv.
Proof.
  unfold candidate. destruct (PackageAction.installed_evra a), (PackageAction.installed_vendor a),
    (PackageAction.candidate_vendor a); simpl; naive_solver.
Qed.

Lemma validate_action_policy policy requested parents a u :
  validate_action policy requested parents a = Ok u -> policy_safe policy a.
Proof.
  unfold validate_action, policy_safe. intros E. result_inv.
  destruct (PackageAction.operation a); [done | ..].
  - apply bind_ok in E as (c & (i & iv & cv & ? & ? & ? & ->)%candidate_ok & E).
    apply PolicyFacts.upgrade_ok in E as ((_ & _ & ? & ->) & Hn%EvraFacts.newer_spec).
    exists i, cv. split_and!; try done. by apply (cp_gt_lt EvraFacts.evr_cmp_preorder).
  - apply bind_ok in E as (c & (i & iv & cv & ? & ? & ? & ->)%candidate_ok & E).
    apply PolicyFacts.downgrade_ok in E as ((_ & _ & ? & ->) & Hn%EvraFacts.newer_spec).
    by exists i, cv.
  - apply bind_ok in E as (c & (i & iv & cv & Hi & ? & ? & ->)%candidate_ok & E).
    apply PolicyFacts.reinstall_ok in E as ((_ & _ & ? & ->) & ->).
    split; [| done]. eexists _, cv. split_and!; try done.
    apply (cp_refl EvraFacts.evr_cmp_preorder).
  - apply PolicyFacts.removal_ok in E as (? & ? & ? & ?).
    unfold SolverPolicy.is_protected, SolverPolicy.is_installonly, SolverPolicy.is_running_kernel.
    rewrite !bset_contains_false, bool_decide_eq_false. done.
Qed.

Lemma executable_ok p policy now u :
  validate_executable p policy now = Ok u <->
  now_wf p now /\ PolicyFacts.wf policy /\
  Forall (fun a => validate_action policy (requested_action p) (parent_identities p) a = Ok tt)
    (actions p).
Proof.
  destruct u. unfold validate_executable. rewrite <- validate_now_ok with (u := tt).
  rewrite <- PolicyFacts.policy_validate_ok with (u := tt), <- for_each_ok with (u := tt).
  destruct (validate_now p now) as [[]|]; simpl; [| naive_solver].
  destruct (SolverPolicy.validate policy) as [[]|]; simpl; naive_solver.
Qed.

(** C11: a plan that may be executed at a time has not expired, and each of its actions is safe
    under the policy: no protected, installonly or running kernel package goes, nothing is
    removed for an unknown or external reason, and every upgrade, downgrade or reinstall
    replaces a version by a strictly newer, strictly older or the same one, of the same
    architecture and vendor. *)
Theorem executable_plan_safety (p : t) (policy : SolverPolicy.t) (now : N)
    (Hexec : validate_executable p policy now = Ok tt) :
  now <= expires_at_unix p /\ N.of_nat (length (actions p)) <= 100000 /\
  forall a, a ∈ actions p ->
    action_wf a /\ repository_selected p a /\ policy_safe policy a.
Proof.
  apply executable_ok in Hexec as ((_ & _ & _ & Hn & Hlen & _ & Ha) & _ & Hp).
  rewrite Forall_forall in Ha, Hp. split_and!; [done.. |].
  intros a Hin. destruct (Ha a Hin) as [? ?]. split_and!; try done.
  eapply validate_action_policy. by apply Hp.
Qed.

(** The operations an intent allows by themselves. *)
Definition intent_allows (requested : Action.t) (a : PackageAction.t) : Prop :=
  let op := PackageAction.operation a in
  let dependency := PackageReason.is_autoremove_candidate (PackageAction.reason a) = true in
  match requested with
  | Action.Install => op = PackageOperation.Install \/ op = PackageOperation.Upgrade
  | Action.Upgrade =>
      op = PackageOperation.Upgrade \/ (op = PackageOperation.Install /\ dependency)
  | Action.Remove => op = PackageOperation.Remove
  | Action.Downgrade => op = PackageOperation.Downgrade
  | Action.Reinstall => op = PackageOperation.Reinstall
  | Action.DistroSync =>
      op = PackageOperation.Upgrade \/ op = PackageOperation.Downgrade \/
      op = PackageOperation.Reinstall \/ (op = PackageOperation.Install /\ dependency)
  | Action.Autoremove => op = PackageOperation.Remove /\ dependency
  end.

Lemma is_dependency_spec r : is_dependency r = PackageReason.is_autoremove_candidate r.
Proof. by destruct r. Qed.

Lemma ordinary_allows requested a :
  ordinary requested a = true ->
  (requested = Action.Autoremove ->
   PackageReason.is_autoremove_candidate (PackageAction.reason a) = true) ->
  intent_allows requested a.
Proof.
  unfold ordinary, dependency_install, intent_allows. rewrite is_dependency_spec.
  destruct requested, (PackageAction.operation a); simpl; intros E Haut; bool_inv; naive_solver.
Qed.

Lemma identity_not_remove a i :
  action_wf a -> PackageAction.action_identity a = Some i ->
  PackageAction.operation a <> PackageOperation.Remove.
Proof.
  intros (_ & _ & Hs) Hi Hop. unfold shape in Hs. rewrite Hop in Hs.
  destruct Hs as [Hr _]. unfold PackageAction.action_identity in Hi. by rewrite Hr in Hi.
Qed.

(** Every action of an executable plan is one its intent asks for, or the removal, for a
    dependency reason, of a package obsoleted by an action of the same plan; an autoremove
    plan removes dependencies only, and installs never appear where only replacements or
    removals were asked for, except as dependencies of an upgrade or synchronisation. *)
Theorem executable_intent (p : t) (policy : SolverPolicy.t) (now : N) (a : PackageAction.t)
    (Hexec : validate_executable p policy now = Ok tt) (Hin : a ∈ actions p) :
  match PackageAction.provenance a with
  | None => intent_allows (requested_action p) a
  | Some (ActionProvenance.ObsoletedBy parent) =>
      PackageAction.operation a = PackageOperation.Remove /\
      PackageReason.is_autoremove_candidate (PackageAction.reason a) = true /\
      requested_action p <> Action.Remove /\ requested_action p <> Action.Autoremove /\
      exists b, b ∈ actions p /\ PackageAction.operation b <> PackageOperation.Remove /\
        PackageAction.action_identity b = Some parent
  end.
Proof.
  apply executable_ok in Hexec as ((_ & _ & _ & _ & _ & _ & Ha) & _ & Hp).
  rewrite Forall_forall in Ha, Hp. specialize (Hp a Hin). unfold validate_action in Hp.
  result_inv. rename H into Hkind, H0 into Hprov, H1 into Haut.
  destruct (ordinary (requested_action p) a) eqn:Hord.
  - bool_inv. simpl in Hprov. apply negb_false_iff, is_none_true in Hprov. rewrite Hprov.
    apply ordinary_allows; [done |]. intros Hr. rewrite bool_decide_eq_true_2 in Haut by done.
    by apply negb_false_iff in Haut.
  - simpl in Hkind. bool_inv. unfold side_effect in Hkind.
    destruct (PackageAction.provenance a) as [[parent]|]; [| done].
    destruct (PackageAction.operation a) eqn:Hop; try done. bool_inv.
    rewrite is_dependency_spec in H0. split_and!; try done.
    + intros Hr. unfold ordinary, ordinary_operation in Hord. by rewrite Hr, Hop in Hord.
    + apply list_elem_of_omap in H1 as (b & Hb & Hid). exists b. split_and!; try done.
      eapply identity_not_remove; [| done]. by apply Ha.
Qed.

(** [PlanEnvelope::new] and the check of a plan fit together: a plan built from valid
    inputs passes [validate_now] exactly while it has not expired, provided the repositories
    its actions name are among those bound; the actions are those given, in order. *)
Theorem plan_new_checked (i : TransactionIntent.t) (g : PlanIntegrity.t) (expires now : N)
    (l : list PackageAction.t) (p : t) (Hnew : new i g expires l = Ok p) :
  (validate_now p now = Ok tt <->
    now <= expires /\
    forall a r, a ∈ l -> PackageAction.repo_id a = Some r ->
      exists b, b ∈ PlanIntegrity.selected_repositories g /\ RepositoryBinding.id b = r) /\
  requested_action p = TransactionIntent.action i /\ integrity p = g /\ actions p ≡ₚ l.
Proof.
  unfold new in Hnew. apply bind_ok in Hnew as ([] & Hg & Hnew). simpl in Hnew. result_inv.
  apply canonical_actions_ok in H as (Hlen & Hwf & Hnd & ->).
  assert (Hp : sort l ≡ₚ l) by apply sort_by_perm.
  split; [| split; [done | split; [by destruct g | done]]].
  rewrite validate_now_ok. unfold now_wf, repository_selected, integrity. simpl.
  apply IntegrityFacts.integrity_validate_ok in Hg. rewrite length_sort. split.
  - intros (_ & _ & _ & Hn & _ & _ & Ha). split; [done |]. rewrite Forall_forall in Ha.
    intros a r Hin. apply Ha. by apply elem_of_sort.
  - intros [Hn Hsel]. split_and!; try done.
    + apply sort_NoDup_clt. by apply NoDup_fmap_1 in Hnd.
    + apply Forall_forall. intros a Hin. unfold sort in Hin. rewrite Hp in Hin.
      rewrite Forall_forall in Hwf. split; [by apply Hwf |]. intros r Hr. by apply (Hsel a r).
Qed.

(** ** Canonical JSON *)

(** What the types of the fields keep by construction. *)
Definition fields_valid (p : t) : Prop :=
  IntentFacts.wf (intent p) /\
  Forall (fun b => BindingFacts.valid_id (RepositoryBinding.id b)) (selected_repositories p) /\
  Forall (fun a => forall e, PackageAction.installed_evra a = Some e -> Evra.validate e = Ok tt)
    (actions p).

Lemma action_deserialize_wf a :
  action_wf a ->
  (forall e, PackageAction.installed_evra a = Some e -> Evra.validate e = Ok tt) ->
  PackageAction.deserialize a = Ok a.
Proof.
  intros Ha He. unfold PackageAction.deserialize.
  rewrite (proj2 (action_validate_ok a tt) Ha). destruct Ha as (_ & -> & _). simpl.
  destruct (PackageAction.installed_evra a) as [e|]; simpl; [| done]. by rewrite He.
Qed.

Lemma binding_deserialize_valid b :
  BindingFacts.valid_id (RepositoryBinding.id b) -> RepositoryBinding.deserialize b = Ok b.
Proof.
  intros Hb. unfold RepositoryBinding.deserialize. apply map_err_ok, BindingFacts.binding_new_ok.
  split; [done | by destruct b].
Qed.

Lemma plan_deserialize_wf p : fields_valid p -> validate_now p 0 = Ok tt -> deserialize p = Ok p.
Proof.
  intros (Hi & Hb & He) Hv. pose proof Hv as (_ & _ & _ & _ & _ & _ & Ha)%validate_now_ok.
  unfold deserialize. rewrite (IntentFacts.deserialize_wf _ Hi). simpl.
  rewrite (proj2 (mapM_ok _ _ (selected_repositories p)))
    by (apply Forall_Forall2_diag; eapply Forall_impl; [done | apply binding_deserialize_valid]).
  simpl. rewrite (proj2 (mapM_ok _ _ (actions p))).
  - simpl. by rewrite Hv.
  - apply Forall_Forall2_diag, Forall_forall. intros a Hin. rewrite Forall_forall in Ha, He.
    apply action_deserialize_wf; [by apply Ha | by apply He].
Qed.

Section json.
Context (raw : SerdeJson t) (raw_laws : SerdeJsonLaws t (fun _ => True)).

#[export] Instance plan_document_laws : @CanonicalDocumentLaws t (plan_document raw) fields_valid.
Proof.
  apply (validated_document_laws raw deserialize (fun p => validate_now p 0) fields_valid raw_laws).
  apply plan_deserialize_wf.
Qed.

Lemma from_json_at_ok d now p :
  from_canonical_json_at raw d now = Ok p <->
  @from_canonical_json t (plan_document raw) d = Ok p /\ now <= expires_at_unix p.
Proof.
  unfold from_canonical_json_at. simpl. split.
  - intros E. apply bind_ok in E as (q & Hq & E). apply bind_ok in E as ([] & Hv & [= ->]).
    apply validate_now_ok in Hv. rewrite Hq. simpl. split; [| by destruct Hv as (_ & _ & _ & ? & _)].
    rewrite (proj2 (validate_now_ok p 0 tt)); [done |].
    destruct Hv as (? & ? & ? & ? & ? & ? & ?). unfold now_wf. split_and!; try done. lia.
  - intros [E Hn]. apply bind_ok in E as (q & Hq & E). apply bind_ok in E as ([] & Hv & [= ->]).
    rewrite Hq. simpl. rewrite (proj2 (validate_now_ok p now tt)); [done |].
    apply validate_now_ok in Hv.
    destruct Hv as (? & ? & ? & ? & ? & ? & ?). unfold now_wf. by split_and!.
Qed.
End json.

(** The text of a plan is read back as the plan exactly until it expires, and a text read
    at any time is the text of the plan it gives. *)
Theorem plan_json_roundtrip (raw : SerdeJson t) (Hraw : SerdeJsonLaws t (fun _ => True))
    (d : list byte) (now : N) (p : t) (Hinspect : inspect d = Ok tt) (Hfields : fields_valid p) :
  (@to_canonical_json t (plan_document raw) p = Ok d ->
     (from_canonical_json_at raw d now = Ok p <-> now <= expires_at_unix p)) /\
  (from_canonical_json_at raw d now = Ok p -> @to_canonical_json t (plan_document raw) p = Ok d).
Proof.
  pose proof (plan_document_laws raw Hraw) as L. rewrite from_json_at_ok. split.
  - intros Hto. split; [by intros [_ ?] |]. intros Hn. split; [| done].
    by apply (from_to_canonical_json d p Hfields).
  - intros [Hfrom _]. by apply (to_from_canonical_json d p).
Qed.

(** ** A concrete plan *)

Definition example_digest : Sha256Digest.t := InventoryFacts.witness_digest.
Definition example_binding : RepositoryBinding.t :=
  RepositoryBinding.mk "fedora" example_digest example_digest example_digest.
Definition example_integrity : PlanIntegrity.t :=
  PlanIntegrity.mk example_digest example_digest example_digest example_digest example_digest
    [example_binding].
Definition example_policy : SolverPolicy.t := SolverPolicy.fedora44_x86_64 ["glibc"] ["kernel"].
Definition new_evra : Evra.t := Evra.mk 0 "2" "1" Architecture.X86_64.
Definition old_evra : Evra.t := Evra.mk 0 "1.9" "3" Architecture.X86_64.

(** Installs one package, upgrades another and removes what the first one obsoletes. *)
Definition example_actions : list PackageAction.t :=
  [ PackageAction.install_with_vendor "zsh" new_evra "fedora" "Fedora" PackageReason.User;
    PackageAction.mk PackageOperation.Upgrade "bash" new_evra (Some old_evra) (Some 3)
      (Some example_digest) (Some "Fedora") (Some "Fedora") (Some "fedora") PackageReason.User None;
    PackageAction.mk PackageOperation.Remove "ksh" old_evra (Some old_evra) (Some 4)
      (Some example_digest) (Some "Fedora") None None PackageReason.Dependency
      (Some (ActionProvenance.ObsoletedBy "fedora:zsh-0:2-1.x86_64")) ].

Definition example_plan : t :=
  mk 2 "/" (TransactionIntent.mk 1 Action.Install [PackageSpec.mk "zsh"])
    example_digest example_digest example_digest example_digest example_digest
    [example_binding] 100 example_actions.

Lemma executable_plan_safety_witness :
  exists a, a ∈ actions example_plan /\ PackageAction.operation a = PackageOperation.Remove /\
    policy_safe example_policy a.
Proof.
  assert (E : validate_executable example_plan example_policy 50 = Ok tt)
    by (vm_compute; reflexivity).
  destruct (executable_plan_safety example_plan example_policy 50 E) as (_ & _ & H).
  eexists (List.nth 2 example_actions _). split; [| split].
  - apply list_elem_of_In. right. right. left. reflexivity.
  - reflexivity.
  - apply H. apply list_elem_of_In. right. right. left. reflexivity.
Unshelve. exact (PackageAction.install "" new_evra "" PackageReason.User).
Defined.

Lemma executable_intent_witness :
  exists b, b ∈ actions example_plan /\ PackageAction.operation b <> PackageOperation.Remove /\
    PackageAction.action_identity b = Some "fedora:zsh-0:2-1.x86_64".
Proof.
  refine (proj2 (proj2 (proj2 (proj2 (executable_intent example_plan example_policy 50
    (PackageAction.mk PackageOperation.Remove "ksh" old_evra (Some old_evra) (Some 4)
      (Some example_digest) (Some "Fedora") None None PackageReason.Dependency
      (Some (ActionProvenance.ObsoletedBy "fedora:zsh-0:2-1.x86_64"))) _ _))))).
  - vm_compute. reflexivity.
  - apply list_elem_of_In. right. right. left. reflexivity.
Defined.

Lemma plan_new_checked_witness :
  actions example_plan ≡ₚ rev example_actions.
Proof.
  refine (proj2 (proj2 (proj2 (plan_new_checked (intent example_plan) example_integrity 100 50
    (rev example_actions) example_plan _)))).
  vm_compute. reflexivity.
Defined.

Lemma plan_json_roundtrip_witness :
  let raw := OneCodec.one_codec example_plan (bytes "plan") in
  from_canonical_json_at raw (bytes "plan") 50 = Ok example_plan.
Proof.
  intros raw.
  assert (Hi : inspect (bytes "plan") = Ok tt) by (vm_compute; reflexivity).
  assert (Hf : fields_valid example_plan).
  { split; [apply (IntentFacts.intent_validate_ok _ tt); vm_compute; reflexivity |]. split.
    - repeat constructor; done.
    - repeat constructor; intros e He; simpl in He; simplify_eq; reflexivity. }
  apply (plan_json_roundtrip raw (OneCodec.one_codec_laws _ _ _) (bytes "plan") 50 example_plan Hi Hf);
    vm_compute; [reflexivity | discriminate].
Defined.
End PlanFacts.
