(* ===== verification/Metadata.v ===== *)
(** * Repository metadata ([dnfast-metadata])

    The error type, the limits ([limits.rs]), relations ([relations.rs]), the package records
    of [primary.rs] and the search over them ([search.rs]).  The XML readers are in the files
    Repomd, Filelists and Primary. *)
From Stdlib Require Import Ascii.
From S2P Require Import Prelude.
From S2P Require Import RustStr.

Local Open Scope N_scope.

Module MetadataError.
Inductive t : Type :=
  | Xml (message : string)
  | MissingPrimary
  | MissingFilelists
  | DuplicateRecord (kind : string)
  | InvalidNumber (value : string)
  | UnsafeLocation (location : string)
  | UnsupportedChecksum (kind : string)
  | ChecksumMismatch
  | SizeMismatch (expected actual : N)
  | UnsupportedCompression (suffix : string)
  | Io (message : string)
  | LimitExceeded (kind : string) (maximum actual : N).

#[global] Instance metadata_error_eq_dec : EqDecision t.
Proof. solve_decision. Defined.
End MetadataError.

(** ** Limits *)

Definition MAX_TOTAL_OPEN_BYTES : N := 16 * 1024 * 1024 * 1024.

(** [try_fold(0, u64::checked_add)]. *)
Fixpoint checked_sum (total : N) (sizes : list N) : option N :=
  match sizes with
  | [] => Some total
  | size :: sizes => total ← u64_checked_add total size; checked_sum total sizes
  end.

Definition checked_total_open (sizes : list N) : result MetadataError.t N :=
  total ← ok_or (MetadataError.LimitExceeded "total opened metadata" MAX_TOTAL_OPEN_BYTES u64_max)
    (checked_sum 0 sizes);
  _ ← reject_if (MAX_TOTAL_OPEN_BYTES <? total)
        (MetadataError.LimitExceeded "total opened metadata" MAX_TOTAL_OPEN_BYTES total);
  Ok total.

Definition checked_increment (current maximum : N) (kind : string) : result MetadataError.t N :=
  actual ← ok_or (MetadataError.LimitExceeded kind maximum u64_max) (u64_checked_add current 1);
  _ ← reject_if (maximum <? actual) (MetadataError.LimitExceeded kind maximum actual);
  Ok actual.

Definition checked_limit (actual maximum : N) (kind : string) : result MetadataError.t N :=
  _ ← reject_if (maximum <? actual) (MetadataError.LimitExceeded kind maximum actual);
  Ok actual.

(** ** Relations and packages *)

Module RelationFlags.
Inductive t : Type := Equal | Less | LessEqual | Greater | GreaterEqual.

#[global] Instance relation_flags_eq_dec : EqDecision t.
Proof. solve_decision. Defined.

(** The operator printed for a flag. *)
Definition operator (f : t) : string :=
  match f with
  | Equal => "="
  | Less => "<"
  | LessEqual => "<="
  | Greater => ">"
  | GreaterEqual => ">="
  end.
End RelationFlags.

Module Relation.
Record t : Type := mk {
  name : string;
  flags : option RelationFlags.t;
  epoch : option string;
  version : option string;
  release : option string;
  pre : bool
}.

#[global] Instance relation_eq_dec : EqDecision t.
Proof. solve_decision. Defined.
End Relation.

Module CompletePackage.
Record t : Type := mk {
  name : string;
  arch : string;
  epoch : string;
  version : string;
  release : string;
  summary : string;
  checksum : string;
  location : string;
  description : string;
  vendor : string;
  build_host : string;
  source_rpm : string;
  package_size : N;
  installed_size : N;
  archive_size : N;
  build_time : N;
  provides : list Relation.t;
  requires : list Relation.t;
  recommends : list Relation.t;
  suggests : list Relation.t;
  supplements : list Relation.t;
  enhances : list Relation.t;
  conflicts : list Relation.t;
  obsoletes : list Relation.t;
  files : list string
}.

Definition nevra (p : t) : string :=
  name p +:+ "-" +:+ epoch p +:+ ":" +:+ version p +:+ "-" +:+ release p +:+ "." +:+ arch p.
End CompletePackage.

Module Package.
Record t : Type := mk {
  name : string;
  arch : string;
  epoch : string;
  version : string;
  release : string;
  summary : string
}.
End Package.

(** ** Search *)

Module Search.
(** [to_ascii_lowercase] of the characters of a string. *)
Definition char_to_lower (c : N) : N := if in_range 65 90 c then c + 32 else c.

(** The query or a field as the search compares it. *)
Definition folded (s : string) : list N := char_to_lower <$> chars s.

Definition folded_query (query : string) : list N := char_to_lower <$> chars_trim (chars query).

Definition rank (query : list N) (p : Package.t) : option N :=
  let name := folded (Package.name p) in
  let summary := folded (Package.summary p) in
  if bool_decide (name = query) then Some 0
  else if starts_with query name then Some 1
  else if contains query name then Some 2
  else if contains query summary then Some 3
  else None.

Definition key (r : N * Package.t) :=
  (r.1, (Package.name r.2, (Package.epoch r.2, (Package.version r.2, (Package.release r.2,
    (Package.arch r.2, Package.summary r.2)))))).

(** The chain of [then_with]. *)
Definition result_cmp (l r : N * Package.t) : comparison :=
  then_cmp (cmp l.1 r.1)
    (then_cmp (cmp (Package.name l.2) (Package.name r.2))
      (then_cmp (cmp (Package.epoch l.2) (Package.epoch r.2))
        (then_cmp (cmp (Package.version l.2) (Package.version r.2))
          (then_cmp (cmp (Package.release l.2) (Package.release r.2))
            (then_cmp (cmp (Package.arch l.2) (Package.arch r.2))
              (cmp (Package.summary l.2) (Package.summary r.2))))))).

Definition search (packages : list Package.t) (query : string) : list Package.t :=
  let query := folded_query query in
  if bool_decide (query = []) then []
  else
    snd <$> sort_by result_cmp (omap (fun p => (fun r => (r, p)) <$> rank query p) packages).
End Search.

Module SearchFacts.
Import Search.

Lemma result_cmp_key l r : result_cmp l r = cmp (key l) (key r).
Proof. reflexivity. Qed.

Lemma result_cmp_preorder : cmp_preorder result_cmp.
Proof.
  apply (cp_ext (fun l r => cmp (key l) (key r))); [done |].
  apply (cp_on key cmp), cmp_is_preorder.
Qed.

(** A query matches where the folded name or summary contains it. *)
Definition matches (query : list N) (p : Package.t) : Prop :=
  (exists a b, folded (Package.name p) = a ++ query ++ b) \/
  (exists a b, folded (Package.summary p) = a ++ query ++ b).

Lemma rank_some query p : is_Some (rank query p) <-> matches query p.
Proof.
  unfold rank, matches. rewrite <- !contains_spec.
  case_bool_decide as Hn.
  - split; [| done]. intros _. left. apply contains_spec. exists [], [].
    by rewrite app_nil_r.
  - destruct (starts_with query _) eqn:Hs.
    + split; [| done]. intros _. left. apply starts_with_spec in Hs as [r Hr].
      apply contains_spec. by exists [], r.
    + destruct (contains query (folded (Package.name p))) eqn:Hc; [naive_solver |].
      destruct (contains query (folded (Package.summary p))) eqn:Hm; [naive_solver |].
      split; [by intros [] | by intros [|]].
Qed.

(** The search returns every package whose name or summary contains the trimmed query,
    ignoring ASCII case, with its multiplicity, and no other; an exact name comes before a
    prefix, a prefix before another match in the name, and that before one in the summary.
    A blank query finds nothing. *)
Theorem search_spec (packages : list Package.t) (query : string) :
  let q := folded_query query in
  (q = [] -> search packages query = []) /\
  (q <> [] ->
    search packages query ≡ₚ base.filter (fun p => is_Some (rank q p)) packages /\
    (forall p, p ∈ search packages query <-> p ∈ packages /\ matches q p) /\
    StronglySorted (fun a b => from_option id 4 (rank q a) <= from_option id 4 (rank q b))
      (search packages query)).
Proof.
  intros q. unfold search. fold q. split; [intros ->; by rewrite bool_decide_eq_true_2 |].
  intros Hq. rewrite bool_decide_eq_false_2 by done.
  set (ranked := omap (fun p => (fun r => (r, p)) <$> rank q p) packages).
  pose proof (sort_by_perm (c := result_cmp) ranked) as Hp.
  pose proof (sort_by_sorted (c := result_cmp) result_cmp_preorder ranked) as Hs.
  assert (Hr : Forall (fun r => rank q r.2 = Some r.1) (sort_by result_cmp ranked)).
  { rewrite Hp. apply Forall_forall. intros [r p] (p' & _ & E)%list_elem_of_omap.
    destruct (rank q p') eqn:Er; simplify_eq/=. done. }
  assert (Hperm : snd <$> sort_by result_cmp ranked ≡ₚ base.filter (fun p => is_Some (rank q p)) packages).
  { rewrite Hp. unfold ranked. clear. induction packages as [|p l IH]; [done |].
    rewrite filter_cons. simpl. destruct (rank q p) eqn:Er; simpl.
    - csimpl. by f_equiv.
    - done. }
  split; [done |]. split.
  - intros p. rewrite Hperm, list_elem_of_filter, rank_some. tauto.
  - revert Hs Hr. generalize (sort_by result_cmp ranked). clear. intros l Hs.
    induction Hs as [|x l Hs IH Hall]; intros [Hx Hl]%Forall_cons || intros Hl.
    + constructor.
    + rewrite fmap_cons. constructor; [by apply IH |].
      apply Forall_fmap, Forall_forall. intros y Hy. rewrite Forall_forall in Hall, Hl.
      specialize (Hall y Hy). specialize (Hl y Hy). simpl. rewrite Hx, Hl. simpl.
      unfold result_cmp in Hall. unfold cmp, N_ord in Hall.
      destruct (N.compare_spec x.1 y.1); simpl in Hall; [lia | lia | done].
Qed.
End SearchFacts.

Module LimitFacts.
Lemma checked_sum_exact t l :
  t <= u64_max ->
  checked_sum t l =
    if t + foldr N.add 0 l <=? u64_max then Some (t + foldr N.add 0 l) else None.
Proof.
  revert t. induction l as [|s l IH]; intros t Ht; simpl.
  - rewrite N.add_0_r. by rewrite (proj2 (N.leb_le _ _) Ht).
  - unfold u64_checked_add. destruct (N.leb_spec (t + s) u64_max) as [H|H]; simpl.
    + rewrite IH by done. by rewrite N.add_assoc.
    + destruct (N.leb_spec (t + (s + foldr N.add 0 l)) u64_max); [lia | done].
Qed.

(** The sum of opened sizes is exact, never wraps, and is accepted exactly up to 16 GiB;
    an increment is accepted exactly up to its maximum. *)
Theorem limits_exact (sizes : list N) (current maximum : N) (kind : string)
    (Hmax : maximum <= u64_max) :
  (forall total, checked_total_open sizes = Ok total <->
     total = foldr N.add 0 sizes /\ total <= 17179869184) /\
  (forall actual, checked_increment current maximum kind = Ok actual <->
     actual = current + 1 /\ actual <= maximum).
Proof.
  split.
  - intros total. unfold checked_total_open. rewrite checked_sum_exact by done. unfold MAX_TOTAL_OPEN_BYTES.
    change (16 * 1024 * 1024 * 1024) with 17179869184. rewrite N.add_0_l.
    destruct (N.leb_spec (foldr N.add 0 sizes) u64_max) as [H|H]; simpl.
    + destruct (N.ltb_spec 17179869184 (foldr N.add 0 sizes)); simpl; split;
        [done | lia | by intros [= <-] | by intros [-> _]].
    + split; [done |]. intros [-> Hle]. unfold u64_max in H. simpl in H. lia.
  - intros actual. unfold checked_increment, u64_checked_add.
    destruct (N.leb_spec (current + 1) u64_max) as [H|H]; simpl.
    + destruct (N.ltb_spec maximum (current + 1)); simpl; split;
        [done | lia | by intros [= <-] | by intros [-> _]].
    + split; [done | lia].
Qed.

Lemma limits_exact_witness :
  checked_total_open [17179869183; 1] = Ok 17179869184.
Proof.
  apply (limits_exact [17179869183; 1] 0 5 "packages").
  - unfold u64_max; lia.
  - split; vm_compute; [reflexivity | discriminate].
Defined.
End LimitFacts.
