(* ===== verification/SolverModel.v ===== *)
(** * The solver's data ([dnfast-solver/src/model.rs], [validation.rs])

    Candidates, resolved actions with their causal edges, the explained actions of a plan and
    the errors of the planning pipeline. *)
From S2P Require Import Prelude.
From S2P Require Import RustStr.
From S2P Require Import Value.
From S2P Require Import Intent.
From S2P Require Import Policy.
From S2P Require Import Metadata.

Local Open Scope N_scope.

(** [lib.rs]. *)
Definition MAX_PLAN_ARTIFACT_BYTES : N := 16 * 1024 * 1024 * 1024 * 1024.

Module PlanError.
Inductive t : Type :=
  | NoChanges
  | IntentCoverage
  | UnrelatedAction (name : string)
  | ConflictingAction (name : string)
  | DuplicateAction (name : string)
  | Unresolved (name : string)
  | DuplicateCandidate (name : string)
  | AmbiguousCandidate (name : string)
  | DependencyCycle
  | MissingParent (name : string)
  | DisconnectedGraph
  | Invalid (reason : string)
  | Excluded (name : string)
  | Modular (name : string)
  | NonPreferred (name : string)
  | RepositoryNotSelected (repository : string)
  | InstalledMissing (name : string)
  | AmbiguousInstalled (name : string)
  | UnpairedNativeOld (description : string)
  | Unsafe (message : string)
  | Canonical (message : string)
  | ReSolveMismatch.

#[global] Instance plan_error_eq_dec : EqDecision t.
Proof. solve_decision. Defined.

(** The [#[error(...)]] texts. *)
Definition to_string (e : t) : string :=
  match e with
  | NoChanges => "solver produced no changes"
  | IntentCoverage => "transaction intent is not covered exactly once"
  | UnrelatedAction s => "unrelated requested action: " +:+ s
  | ConflictingAction s => "conflicting action kind: " +:+ s
  | DuplicateAction s => "duplicate action identity: " +:+ s
  | Unresolved s => "unresolved dependency set for: " +:+ s
  | DuplicateCandidate s => "duplicate candidate: " +:+ s
  | AmbiguousCandidate s => "ambiguous candidate identity: " +:+ s
  | DependencyCycle => "dependency ordering cycle"
  | MissingParent s => "dependency parent does not exist: " +:+ s
  | DisconnectedGraph => "dependency graph contains a disconnected component"
  | Invalid s => "invalid plan input: " +:+ s
  | Excluded s => "excluded package: " +:+ s
  | Modular s => "unsupported modular package: " +:+ s
  | NonPreferred s => "solver selected a non-preferred candidate: " +:+ s
  | RepositoryNotSelected s =>
      "candidate repository is not selected in the planning snapshot: " +:+ s
  | InstalledMissing s => "installed package was not found: " +:+ s
  | AmbiguousInstalled s => "installed package identity is ambiguous: " +:+ s
  | UnpairedNativeOld s => "unpaired native old action: " +:+ s
  | Unsafe s => "unsafe action: " +:+ s
  | Canonical s => "canonical document failed: " +:+ s
  | ReSolveMismatch => "root re-solve action bytes differ"
  end.
End PlanError.

Abbreviation planned := (result PlanError.t).

Module CandidatePackage.
Record t : Type := mk {
  name : string;
  evra : Evra.t;
  vendor : string;
  repo_id : string;
  priority : N;
  cost : N;
  package_size : N;
  installed_size : N;
  checksum_sha256 : string;
  location : string;
  excluded : bool;
  modular : bool
}.

#[global] Instance candidate_package_eq_dec : EqDecision t.
Proof. solve_decision. Defined.
End CandidatePackage.

(** [compact_relation] of [model.rs] and [relation_text] of [native_adapter.rs]: the same text. *)
Definition compact_relation (item : Relation.t) : string :=
  match Relation.flags item with
  | None => Relation.name item
  | Some flags =>
      let epoch :=
        match Relation.epoch item with
        | Some value => if bool_decide (value = "0") then "" else value +:+ ":"
        | None => ""
        end in
      let release := match Relation.release item with Some value => "-" +:+ value | None => "" end in
      Relation.name item +:+ " " +:+ RelationFlags.operator flags +:+ " " +:+ epoch
      +:+ default "" (Relation.version item) +:+ release
  end.

Module NativePackageEvidence.
Record t : Type := mk {
  name : string;
  arch : string;
  epoch : string;
  version : string;
  release : string;
  requires : list string;
  recommends : list string;
  supplements : list string;
  enhances : list string
}.

Definition from_complete (p : CompletePackage.t) : t := {|
  name := CompletePackage.name p;
  arch := CompletePackage.arch p;
  epoch := CompletePackage.epoch p;
  version := CompletePackage.version p;
  release := CompletePackage.release p;
  requires := compact_relation <$> CompletePackage.requires p;
  recommends := compact_relation <$> CompletePackage.recommends p;
  supplements := compact_relation <$> CompletePackage.supplements p;
  enhances := compact_relation <$> CompletePackage.enhances p
|}.
End NativePackageEvidence.

Module ResolvedOperation.
Inductive t : Type := Install | Upgrade | Downgrade | Reinstall | Remove.

#[global] Instance resolved_operation_eq_dec : EqDecision t.
Proof. solve_decision. Defined.
End ResolvedOperation.

Module DependencyKind.
Inductive t : Type := Strong | Weak.

#[global] Instance dependency_kind_eq_dec : EqDecision t.
Proof. solve_decision. Defined.
End DependencyKind.

Module DependencyEdge.
Record t : Type := mk { parent : string; kind : DependencyKind.t }.

#[global] Instance dependency_edge_eq_dec : EqDecision t.
Proof. solve_decision. Defined.
End DependencyEdge.

(** The solver's own copy of the enum of the core; see [CorePlan.ActionProvenance]. *)
Module SolverProvenance.
Inductive t : Type := ObsoletedBy (parent_action_identity : string).

#[global] Instance solver_provenance_eq_dec : EqDecision t.
Proof. solve_decision. Defined.
End SolverProvenance.

Module ResolvedAction.
Record t : Type := mk {
  operation : ResolvedOperation.t;
  name : string;
  requested : bool;
  requested_spec : option PackageSpec.t;
  requested_relation : bool;
  candidate : option CandidatePackage.t;
  installed_instance : option N;
  installed_header_sha256 : option string;
  installed_vendor : option string;
  dependency_edges : list DependencyEdge.t;
  provenance : option SolverProvenance.t;
  required_by_remaining : list string;
  unresolved_dependencies : list string;
  introduced_by_requested : bool;
  solver_rule : string
}.

#[global] Instance resolved_action_eq_dec : EqDecision t.
Proof. solve_decision. Defined.
End ResolvedAction.

Module ArtifactRecord.
Record t : Type := mk {
  checksum_sha256 : string;
  location : string;
  package_size : N
}.

#[global] Instance artifact_record_eq_dec : EqDecision t.
Proof. solve_decision. Defined.
End ArtifactRecord.

Module RequestedRelation.
Inductive t : Type := Requested | Dependency | WeakDependency.

#[global] Instance requested_relation_eq_dec : EqDecision t.
Proof. solve_decision. Defined.

Definition reason (r : t) : PackageReason.t :=
  match r with
  | Requested => PackageReason.User
  | Dependency => PackageReason.Dependency
  | WeakDependency => PackageReason.WeakDependency
  end.
End RequestedRelation.

Module PlanProtection.
Record t : Type := mk {
  installonly : bool;
  protected : bool;
  running_kernel : bool
}.

#[global] Instance plan_protection_eq_dec : EqDecision t.
Proof. solve_decision. Defined.
End PlanProtection.

Module ExplainedAction.
Record t : Type := mk {
  operation : string;
  name : string;
  target_evra : Evra.t;
  installed_evra : option Evra.t;
  installed_instance : option N;
  installed_header_sha256 : option string;
  installed_vendor : option string;
  vendor : option string;
  repo_id : option string;
  reason : PackageReason.t;
  relation : RequestedRelation.t;
  requested_by : option string;
  dependency_edges : list DependencyEdge.t;
  provenance : option SolverProvenance.t;
  package_size : N;
  installed_size : N;
  artifact : option ArtifactRecord.t;
  protection : PlanProtection.t;
  explanation : string
}.

#[global] Instance explained_action_eq_dec : EqDecision t.
Proof. solve_decision. Defined.
End ExplainedAction.
