(* ===== verification/Preflight.v ===== *)
(** * Checking and ordering a solver result ([dnfast-solver/src/preflight.rs])

    [validate_inputs] checks the resolved actions against the intent and the snapshots;
    [validate_reachable] that every action has a cause; [execution_order] sorts the actions
    along their dependency edges and breaks cycles.  The loops of the source run on fuel,
    which the theorems show to suffice. *)
From S2P Require Import Prelude.
From S2P Require Import RustStr.
From S2P Require Import Value.
From S2P Require Import Intent.
From S2P Require Import Policy.
From S2P Require Import Documents.
From S2P Require Import CorePlan.
From S2P Require Import Metadata.
From S2P Require Import SolverModel.

Local Open Scope N_scope.

(** The inputs of planning ([plan.rs]). *)
Module PlanBuilder.
Record t : Type := mk {
  intent : TransactionIntent.t;
  snapshots : PlanIntegrity.t;
  inventory : InstalledInventory.t;
  policy : SolverPolicy.t;
  candidates : list CandidatePackage.t;
  expires_at_unix : N
}.
End PlanBuilder.

Definition action_identity (action : ResolvedAction.t) : option string :=
  (fun candidate =>
    CandidatePackage.repo_id candidate +:+ ":" +:+ CandidatePackage.name candidate +:+ "-"
    +:+ display (Evra.epoch (CandidatePackage.evra candidate)) +:+ ":"
    +:+ Evra.version (CandidatePackage.evra candidate) +:+ "-"
    +:+ Evra.release (CandidatePackage.evra candidate) +:+ "."
    +:+ Architecture.as_rpm_arch (Evra.arch (CandidatePackage.evra candidate)))
  <$> ResolvedAction.candidate action.

(** ** Input validation *)

Definition validate_repository_selection (builder : PlanBuilder.t) : planned unit :=
  for_each (fun candidate =>
    reject_if
      (negb (existsb (fun repository =>
               bool_decide (RepositoryBinding.id repository = CandidatePackage.repo_id candidate))
             (PlanIntegrity.selected_repositories (PlanBuilder.snapshots builder))))
      (PlanError.RepositoryNotSelected (CandidatePackage.repo_id candidate)))
    (PlanBuilder.candidates builder).

Definition exact_key (item : CandidatePackage.t) :=
  (CandidatePackage.name item, CandidatePackage.evra item, CandidatePackage.repo_id item,
   CandidatePackage.priority item, CandidatePackage.cost item, CandidatePackage.vendor item,
   CandidatePackage.checksum_sha256 item, CandidatePackage.location item).

Definition policy_key (item : CandidatePackage.t) :=
  (CandidatePackage.name item, CandidatePackage.evra item, CandidatePackage.repo_id item,
   CandidatePackage.priority item, CandidatePackage.cost item).

Definition policy_identity (item : CandidatePackage.t) :=
  (CandidatePackage.vendor item, CandidatePackage.checksum_sha256 item,
   CandidatePackage.location item, CandidatePackage.package_size item,
   CandidatePackage.installed_size item).

(** The loop of [validate_candidates]: [seen] are the candidates inserted before, the latest
    first, so that the entry of a key in [policy] is that of its first element in [seen]. *)
Fixpoint validate_candidates_from (seen candidates : list CandidatePackage.t) : planned unit :=
  match candidates with
  | [] => Ok tt
  | item :: candidates =>
      _ ← reject_if (bool_decide (exact_key item ∈ exact_key <$> seen))
            (PlanError.DuplicateCandidate (CandidatePackage.name item));
      _ ← reject_if
            (match List.find (fun p => bool_decide (policy_key p = policy_key item)) seen with
             | Some previous => bool_decide (policy_identity previous <> policy_identity item)
             | None => false
             end)
            (PlanError.AmbiguousCandidate (CandidatePackage.name item));
      validate_candidates_from (item :: seen) candidates
  end.

Definition validate_candidates : list CandidatePackage.t -> planned unit :=
  validate_candidates_from [].

Definition is_operation (o : ResolvedOperation.t) (a : ResolvedAction.t) : bool :=
  bool_decide (ResolvedAction.operation a = o).

Definition is_some {A} (o : option A) : bool := match o with Some _ => true | None => false end.

Definition synchronises (intent : Action.t) : bool :=
  match intent with Action.Upgrade | Action.DistroSync => true | _ => false end.

Definition is_replacement (a : ResolvedAction.t) : bool :=
  match ResolvedAction.operation a with
  | ResolvedOperation.Upgrade | ResolvedOperation.Downgrade | ResolvedOperation.Reinstall => true
  | _ => false
  end.

(** The operations an intent asks for. *)
Definition asked_operation (intent : Action.t) (a : ResolvedAction.t) : bool :=
  match intent, ResolvedAction.operation a with
  | Action.Install, (ResolvedOperation.Install | ResolvedOperation.Upgrade) => true
  | Action.Remove, ResolvedOperation.Remove => negb (is_some (ResolvedAction.provenance a))
  | Action.Upgrade, ResolvedOperation.Upgrade => true
  | Action.Downgrade, ResolvedOperation.Downgrade => true
  | Action.Reinstall, ResolvedOperation.Reinstall => true
  | Action.DistroSync,
    (ResolvedOperation.Upgrade | ResolvedOperation.Downgrade | ResolvedOperation.Reinstall) => true
  | Action.Autoremove, ResolvedOperation.Remove => negb (is_some (ResolvedAction.provenance a))
  | _, _ => false
  end.

Definition validate_kind (intent : Action.t) (action : ResolvedAction.t) : planned unit :=
  let obsoletion_side_effect :=
    is_some (ResolvedAction.provenance action) && is_operation ResolvedOperation.Remove action
    && bool_decide (intent <> Action.Remove) in
  let dependency_install :=
    synchronises intent && is_operation ResolvedOperation.Install action
    && negb (ResolvedAction.requested action)
    && negb (is_some (ResolvedAction.requested_spec action))
    && bool_decide (ResolvedAction.dependency_edges action <> []) in
  if obsoletion_side_effect || dependency_install || asked_operation intent action
  then Ok tt
  else Err (PlanError.ConflictingAction (ResolvedAction.name action)).

(** [*covered.entry(spec).or_default() += 1]. *)
Definition cover (spec : string) (covered : list (string * N)) : list (string * N) :=
  bmap_insert spec (default 0 (bmap_lookup spec covered) + 1) covered.

Definition action_key : Type :=
  ResolvedOperation.t * string * option N * option (Evra.t * string).

Definition key_of (a : ResolvedAction.t) : action_key :=
  (ResolvedAction.operation a, ResolvedAction.name a, ResolvedAction.installed_instance a,
   (fun item => (CandidatePackage.evra item, CandidatePackage.repo_id item))
     <$> ResolvedAction.candidate a).

(** The test of the selector of a requested action. *)
Definition cover_requested (intent : Action.t) (requested : list string) (action : ResolvedAction.t)
    (covered : list (string * N)) : planned (list (string * N)) :=
  if ResolvedAction.requested action then
    match ResolvedAction.requested_spec action with
    | Some spec =>
        _ ← reject_if (negb (bset_contains (PackageSpec.as_str spec) requested))
              (PlanError.UnrelatedAction (ResolvedAction.name action));
        Ok (cover (PackageSpec.as_str spec) covered)
    | None =>
        if synchronises intent && bool_decide (requested = []) then Ok covered
        else Err (PlanError.Invalid "requested action lacks selector provenance")
    end
  else Ok covered.

Definition validate_edges (names : list string) (action : ResolvedAction.t) : planned unit :=
  for_each (fun edge =>
    _ ← reject_if (bool_decide (DependencyEdge.parent edge = ResolvedAction.name action))
          PlanError.DependencyCycle;
    reject_if (negb (bset_contains (DependencyEdge.parent edge) names))
      (PlanError.MissingParent (DependencyEdge.parent edge)))
    (ResolvedAction.dependency_edges action).

Definition validate_provenance (actions : list ResolvedAction.t) (action : ResolvedAction.t) :
    planned unit :=
  match ResolvedAction.provenance action with
  | Some (SolverProvenance.ObsoletedBy parent) =>
      reject_if
        (negb (is_operation ResolvedOperation.Remove action)
         || negb (existsb (fun p => bool_decide (action_identity p = Some parent)) actions))
        (PlanError.MissingParent parent)
  | None => Ok tt
  end.

(** The body of the loop over the actions, with the identities and the coverage so far. *)
Definition validate_resolved (intent : Action.t) (requested names : list string)
    (actions : list ResolvedAction.t) (st : list action_key * list (string * N))
    (action : ResolvedAction.t) : planned (list action_key * list (string * N)) :=
  let '(identities, covered) := st in
  _ ← reject_if
        (str_is_empty (ResolvedAction.name action)
         || bool_decide (ResolvedAction.unresolved_dependencies action <> []))
        (PlanError.Unresolved (ResolvedAction.name action));
  _ ← reject_if (bool_decide (key_of action ∈ identities))
        (PlanError.DuplicateAction (ResolvedAction.name action));
  let all_replacement_root :=
    ResolvedAction.requested action && negb (is_some (ResolvedAction.requested_spec action))
    && synchronises intent && bool_decide (requested = []) && is_replacement action in
  _ ← reject_if
        (negb (Bool.eqb (ResolvedAction.requested action)
                 (is_some (ResolvedAction.requested_spec action)))
         && negb all_replacement_root)
        (PlanError.Invalid "requested action provenance differs");
  _ ← reject_if (ResolvedAction.requested_relation action && negb (ResolvedAction.requested action))
        (PlanError.Invalid "relation selector is not requested");
  covered ← cover_requested intent requested action covered;
  _ ← validate_edges names action;
  _ ← validate_provenance actions action;
  _ ← validate_kind intent action;
  Ok (key_of action :: identities, covered).

Definition cover_satisfied (requested : list string) (covered : list (string * N))
    (spec : PackageSpec.t) : planned (list (string * N)) :=
  _ ← reject_if (negb (bset_contains (PackageSpec.as_str spec) requested))
        (PlanError.Invalid "satisfied selector is not in requested intent");
  Ok (cover (PackageSpec.as_str spec) covered).

(** ** Reachability *)

(** Does the cause of [item] lie in [reachable]? *)
Definition has_cause (actions : list ResolvedAction.t) (reachable : list string)
    (item : ResolvedAction.t) : bool :=
  match ResolvedAction.provenance item with
  | Some (SolverProvenance.ObsoletedBy id) =>
      existsb (fun parent => bset_contains (ResolvedAction.name parent) reachable
        && bool_decide (action_identity parent = Some id)) actions
  | None => false
  end
  || existsb (fun edge => bset_contains (DependencyEdge.parent edge) reachable)
       (ResolvedAction.dependency_edges item).

(** One run of the inner [for]. *)
Definition reach_pass (actions : list ResolvedAction.t) (reachable : list string) : list string :=
  foldl (fun reachable item =>
    if has_cause actions reachable item then bset_insert (ResolvedAction.name item) reachable
    else reachable) reachable actions.

Fixpoint reach_loop (fuel : nat) (actions : list ResolvedAction.t) (reachable : list string) :
    option (list string) :=
  match fuel with
  | O => None
  | S fuel =>
      let after := reach_pass actions reachable in
      if Nat.eqb (length after) (length reachable) then Some after
      else reach_loop fuel actions after
  end.

Definition roots (actions : list ResolvedAction.t) : list string :=
  bset_of_list (ResolvedAction.name <$> base.filter (fun a => ResolvedAction.requested a = true) actions).

(** Every pass but the last adds a name, so one more pass than names is enough. *)
Definition reach_fuel (actions : list ResolvedAction.t) : nat := S (length actions).

Definition validate_reachable (actions : list ResolvedAction.t) : planned unit :=
  match reach_loop (reach_fuel actions) actions (roots actions) with
  | Some reachable =>
      if Nat.eqb (length reachable) (length actions) then Ok tt
      else Err PlanError.DisconnectedGraph
  | None => Err (PlanError.Invalid "fuel")
  end.

Definition validate_inputs (builder : PlanBuilder.t) (actions : list ResolvedAction.t)
    (satisfied_specs : list PackageSpec.t) : planned unit :=
  _ ← reject_if (bool_decide (actions = [])) PlanError.NoChanges;
  _ ← reject_if (MAX_PLAN_ACTIONS <? N.of_nat (length actions))
        (PlanError.Invalid "action limit exceeded");
  _ ← validate_repository_selection builder;
  _ ← validate_candidates (PlanBuilder.candidates builder);
  total ← ok_or (PlanError.Invalid "artifact size overflow")
    (checked_sum 0 (CandidatePackage.package_size <$> omap ResolvedAction.candidate actions));
  _ ← reject_if (MAX_PLAN_ARTIFACT_BYTES <? total)
        (PlanError.Invalid "artifact size limit exceeded");
  let intent := TransactionIntent.action (PlanBuilder.intent builder) in
  let requested :=
    bset_of_list (PackageSpec.as_str <$> TransactionIntent.packages (PlanBuilder.intent builder)) in
  let names := bset_of_list (ResolvedAction.name <$> actions) in
  _ ← reject_if (negb (Nat.eqb (length names) (length actions))) (PlanError.DuplicateAction "name");
  covered ← fold_result (cover_satisfied requested) [] satisfied_specs;
  st ← fold_result (validate_resolved intent requested names actions) ([], covered) actions;
  let covered := st.2 in
  _ ← reject_if
        (existsb (fun name => bool_decide (bmap_lookup name covered <> Some 1)) requested
         || existsb (fun entry => bool_decide (entry.2 <> 1)) covered)
        PlanError.IntentCoverage;
  validate_reachable actions.

(** ** Execution order *)

(** [outgoing.entry(k).or_default().insert(v)], without its result. *)
Definition adj_insert (k v : string) (m : list (string * list string)) : list (string * list string) :=
  bmap_insert k (bset_insert v (default [] (bmap_lookup k m))) m.

Definition adj (m : list (string * list string)) (k : string) : list string :=
  default [] (bmap_lookup k m).

(** Is the plan a removal? The first action tells. *)
Definition removing (resolved : list ResolvedAction.t) : bool :=
  match resolved with item :: _ => is_operation ResolvedOperation.Remove item | [] => false end.

Definition dependency_edge (remove : bool) (item : ResolvedAction.t) (edge : DependencyEdge.t) :
    string * string :=
  if remove then (DependencyEdge.parent edge, ResolvedAction.name item)
  else (ResolvedAction.name item, DependencyEdge.parent edge).

(** The edges of one action, into the set of edges. *)
Definition insert_edges (keys : list string) (resolved : list ResolvedAction.t)
    (edges : list (string * string)) (item : ResolvedAction.t) :
    planned (list (string * string)) :=
  edges ← fold_result (fun edges dependency =>
      _ ← reject_if (negb (bset_contains (DependencyEdge.parent dependency) keys))
            (PlanError.MissingParent (DependencyEdge.parent dependency));
      Ok (bset_insert (dependency_edge (removing resolved) item dependency) edges))
    edges (ResolvedAction.dependency_edges item);
  match ResolvedAction.provenance item with
  | Some (SolverProvenance.ObsoletedBy id) =>
      parent ← ok_or (PlanError.MissingParent id)
        (List.find (fun candidate => bool_decide (action_identity candidate = Some id)) resolved);
      Ok (bset_insert (ResolvedAction.name parent, ResolvedAction.name item) edges)
  | None => Ok edges
  end.

Definition edge_set (keys : list string) (resolved : list ResolvedAction.t) :
    planned (list (string * string)) :=
  fold_result (insert_edges keys resolved) [] resolved.

Record graph : Type := mk_graph {
  outgoing : list (string * list string);
  incoming : list (string * list string);
  indegree : list (string * N)
}.

(** The loop filling the three maps. *)
Definition add_edge (g : graph) (edge : string * string) : planned graph :=
  let '(from, to) := edge in
  if bset_contains to (adj (outgoing g) from) then Ok g
  else
    count ← ok_or (PlanError.MissingParent to) (bmap_lookup to (indegree g));
    Ok (mk_graph (adj_insert from to (outgoing g)) (adj_insert to from (incoming g))
          (bmap_insert to (count + 1) (indegree g))).

Definition build_graph (keys : list string) (edges : list (string * string)) : planned graph :=
  fold_result add_edge (mk_graph [] [] (bmap_of_list ((fun k => (k, 0)) <$> keys))) edges.

(** The walk against the edges until a name repeats. *)
Fixpoint cycle_walk (fuel : nat) (active : list string) (incoming : list (string * list string))
    (seen : list string) (current : string) : option string :=
  match fuel with
  | O => None
  | S fuel =>
      if bset_contains current seen then Some current
      else
        parents ← bmap_lookup current incoming;
        parent ← List.find (fun parent => bset_contains parent active) parents;
        cycle_walk fuel active incoming (bset_insert current seen) parent
  end.

(** The walk stays in [active], so it repeats a name within this many steps. *)
Definition cycle_member (active : list string) (incoming : list (string * list string)) :
    option string :=
  match active with
  | [] => None
  | first :: _ => cycle_walk (S (length active)) active incoming [] first
  end.

Record schedule : Type := mk_schedule {
  remaining : list (string * ExplainedAction.t);
  active : list string;
  ready : list string;
  degrees : list (string * N);
  ordered : list ExplainedAction.t
}.

(** [count.checked_sub(1)] for one active target. *)
Definition release_target (st : list (string * N) * list string) (target : string) :
    planned (list (string * N) * list string) :=
  let '(degrees, ready) := st in
  count ← ok_or (PlanError.MissingParent target) (bmap_lookup target degrees);
  count ← ok_or PlanError.DependencyCycle (if count =? 0 then None else Some (count - 1));
  Ok (bmap_insert target count degrees, if count =? 0 then bset_insert target ready else ready).

(** One iteration of the [while]. *)
Definition order_step (g : graph) (s : schedule) : planned schedule :=
  choice ←
    match ready s with
    | name :: rest => Ok (name, rest)
    | [] => name ← ok_or PlanError.DependencyCycle (cycle_member (active s) (incoming g));
            Ok (name, [])
    end;
  let '(next, ready) := choice in
  _ ← reject_if (negb (bset_contains next (active s))) PlanError.DependencyCycle;
  let active := bset_remove next (active s) in
  item ← ok_or PlanError.DependencyCycle (bmap_lookup next (remaining s));
  let remaining := bmap_remove next (remaining s) in
  st ← fold_result release_target (degrees s, ready)
    (base.filter (fun target => bset_contains target active = true) (adj (outgoing g) next));
  Ok (mk_schedule remaining active st.2 st.1 (ordered s ++ [item])).

Fixpoint order_loop (fuel : nat) (g : graph) (s : schedule) : planned (list ExplainedAction.t) :=
  match active s with
  | [] => Ok (ordered s)
  | _ =>
      match fuel with
      | O => Err (PlanError.Invalid "fuel")
      | S fuel => s ← order_step g s; order_loop fuel g s
      end
  end.

Definition execution_order (resolved : list ResolvedAction.t)
    (actions : list ExplainedAction.t) : planned (list ExplainedAction.t) :=
  let remaining := bmap_of_list ((fun item => (ExplainedAction.name item, item)) <$> actions) in
  _ ← reject_if (negb (Nat.eqb (length remaining) (length resolved)))
        (PlanError.DuplicateAction "name");
  let keys := bmap_keys remaining in
  edges ← edge_set keys resolved;
  g ← build_graph keys edges;
  let ready := bmap_keys (base.filter (fun entry => entry.2 = 0) (indegree g)) in
  order_loop (length keys) g (mk_schedule remaining keys ready (indegree g) []).

(** ** Reachability: the loop computes the causal closure *)

Module ReachFacts.
(** Reference: a name is caused if its action is requested or a cause of it is caused. *)
Inductive caused (actions : list ResolvedAction.t) : string -> Prop :=
  | caused_requested a :
      a ∈ actions -> ResolvedAction.requested a = true -> caused actions (ResolvedAction.name a)
  | caused_dependency a edge :
      a ∈ actions -> edge ∈ ResolvedAction.dependency_edges a ->
      caused actions (DependencyEdge.parent edge) -> caused actions (ResolvedAction.name a)
  | caused_obsoleted a parent id :
      a ∈ actions -> ResolvedAction.provenance a = Some (SolverProvenance.ObsoletedBy id) ->
      parent ∈ actions -> action_identity parent = Some id ->
      caused actions (ResolvedAction.name parent) -> caused actions (ResolvedAction.name a).

Section reach.
Context (actions : list ResolvedAction.t).

Lemma has_cause_spec R item :
  has_cause actions R item = true <->
  (exists id parent, ResolvedAction.provenance item = Some (SolverProvenance.ObsoletedBy id) /\
     parent ∈ actions /\ ResolvedAction.name parent ∈ R /\ action_identity parent = Some id) \/
  (exists edge, edge ∈ ResolvedAction.dependency_edges item /\ DependencyEdge.parent edge ∈ R).
Proof.
  unfold has_cause. rewrite orb_true_iff, existsb_true. setoid_rewrite bset_contains_spec.
  destruct (ResolvedAction.provenance item) as [[id]|]; [| naive_solver].
  rewrite existsb_true. setoid_rewrite andb_true_iff. setoid_rewrite bset_contains_spec.
  setoid_rewrite bool_decide_eq_true. naive_solver.
Qed.

Definition pass_step R item :=
  if has_cause actions R item then bset_insert (ResolvedAction.name item) R else R.

Lemma pass_step_sorted R item : StronglySorted clt R -> StronglySorted clt (pass_step R item).
Proof. unfold pass_step. destruct (has_cause _ _ _); [apply bset_insert_sorted | done]. Qed.

Lemma pass_step_incl R item x : x ∈ R -> x ∈ pass_step R item.
Proof. unfold pass_step. destruct (has_cause _ _ _); [rewrite elem_of_bset_insert |]; auto. Qed.

Lemma pass_incl l R x : x ∈ R -> x ∈ foldl pass_step R l.
Proof. revert R. induction l as [|a l IH]; intros R Hx; simpl; [done |]. by apply IH, pass_step_incl. Qed.

Lemma pass_sorted l R : StronglySorted clt R -> StronglySorted clt (foldl pass_step R l).
Proof. revert R. induction l as [|a l IH]; intros R Hs; simpl; [done |]. by apply IH, pass_step_sorted. Qed.

Lemma pass_sound l R :
  (forall a, a ∈ l -> a ∈ actions) -> (forall x, x ∈ R -> caused actions x) ->
  forall x, x ∈ foldl pass_step R l -> caused actions x.
Proof.
  revert R. induction l as [|a l IH]; intros R Hl HR; simpl; [done |].
  apply IH; [intros; apply Hl; by right |]. unfold pass_step.
  destruct (has_cause actions R a) eqn:E; [| done].
  intros x [->|Hx]%elem_of_bset_insert; [| by apply HR].
  assert (Ha : a ∈ actions) by (apply Hl; left).
  apply has_cause_spec in E as [(id & p & Hid & Hp & Hn & Hi)|(e & He & Hn)].
  - apply (caused_obsoleted actions a p id); auto.
  - apply (caused_dependency actions a e); auto.
Qed.

(** A pass that adds nothing has found nothing to add. *)
Lemma pass_fixpoint l R :
  (forall x, x ∈ foldl pass_step R l -> x ∈ R) ->
  forall a, a ∈ l -> has_cause actions R a = true -> ResolvedAction.name a ∈ R.
Proof.
  revert R. induction l as [|b l IH]; intros R Hfix a; simpl in *; [by intros ?%not_elem_of_nil |].
  assert (Hb : has_cause actions R b = true -> ResolvedAction.name b ∈ R).
  { intros E. apply Hfix. apply pass_incl. unfold pass_step. rewrite E.
    apply elem_of_bset_insert. by left. }
  assert (Hstep : forall x, x ∈ pass_step R b <-> x ∈ R).
  { intros x. split; [| apply pass_step_incl]. unfold pass_step.
    destruct (has_cause actions R b); [| done]. intros [->|?]%elem_of_bset_insert; auto. }
  intros [->|Ha]%elem_of_cons E; [by apply Hb |].
  apply Hstep. apply (IH (pass_step R b)); [| done |].
  - intros x Hx. apply Hstep. by apply Hfix.
  - apply has_cause_spec. apply has_cause_spec in E. setoid_rewrite Hstep. exact E.
Qed.

Lemma length_subset (R S : list string) :
  NoDup R -> (forall x, x ∈ R -> x ∈ S) -> (length R <= length S)%nat.
Proof. intros Hnd Hsub. apply submseteq_length, NoDup_submseteq; done. Qed.

(** Equal length and inclusion make two sets equal. *)
Lemma subset_same_length (R S : list string) :
  NoDup R -> NoDup S -> (forall x, x ∈ R -> x ∈ S) -> length R = length S ->
  forall x, x ∈ S -> x ∈ R.
Proof.
  intros HR HS Hsub Hlen x Hx.
  assert (Hp : R ≡ₚ S).
  { apply submseteq_length_Permutation; [by apply NoDup_submseteq | lia]. }
  by rewrite Hp.
Qed.

Definition closed (R : list string) : Prop :=
  forall a, a ∈ actions -> has_cause actions R a = true -> ResolvedAction.name a ∈ R.

Lemma reach_loop_spec fuel R :
  StronglySorted clt R -> (forall x, x ∈ R -> caused actions x) ->
  (length (bset_of_list (ResolvedAction.name <$> actions)) < fuel + length R)%nat ->
  exists R', reach_loop fuel actions R = Some R' /\ StronglySorted clt R' /\
    (forall x, x ∈ R -> x ∈ R') /\ (forall x, x ∈ R' -> caused actions x) /\ closed R'.
Proof.
  assert (Hnames : forall x, caused actions x -> x ∈ bset_of_list (ResolvedAction.name <$> actions)).
  { intros x Hx. apply elem_of_bset_of_list, list_elem_of_fmap. destruct Hx; eauto. }
  revert R. induction fuel as [|fuel IH]; intros R Hs Hc Hfuel.
  { exfalso. apply clt_sorted_NoDup in Hs.
    pose proof (length_subset R _ Hs (fun x Hx => Hnames x (Hc x Hx))). lia. }
  simpl. change (reach_pass actions R) with (foldl pass_step R actions).
  pose proof (pass_sorted actions R Hs) as Hs'.
  pose proof (pass_sound actions R (fun _ H => H) Hc) as Hc'.
  pose proof (fun x => pass_incl actions R x) as Hincl.
  pose proof (clt_sorted_NoDup _ Hs) as Hnd. pose proof (clt_sorted_NoDup _ Hs') as Hnd'.
  destruct (Nat.eqb_spec (length (foldl pass_step R actions)) (length R)) as [Hl|Hl].
  - eexists. split; [done |]. split; [done |]. split; [done |]. split; [done |].
    assert (Hfix : forall x, x ∈ foldl pass_step R actions -> x ∈ R).
    { by apply (subset_same_length R (foldl pass_step R actions)). }
    intros a Ha E. apply Hincl. apply (pass_fixpoint actions R Hfix a Ha).
    apply has_cause_spec. apply has_cause_spec in E. naive_solver.
  - pose proof (length_subset R _ Hnd Hincl).
    destruct (IH (foldl pass_step R actions)) as (R' & -> & ? & HR' & ? & ?); [done | done | lia |].
    exists R'. split_and!; auto.
Qed.

Lemma roots_spec x :
  x ∈ roots actions <-> exists a, a ∈ actions /\ ResolvedAction.requested a = true /\ x = ResolvedAction.name a.
Proof.
  unfold roots. rewrite elem_of_bset_of_list, list_elem_of_fmap.
  setoid_rewrite list_elem_of_filter. naive_solver.
Qed.

Lemma validate_reachable_loop :
  exists R, reach_loop (reach_fuel actions) actions (roots actions) = Some R /\
    NoDup R /\ forall x, x ∈ R <-> caused actions x.
Proof.
  destruct (reach_loop_spec (reach_fuel actions) (roots actions)) as (R & E & Hs & Hin & Hc & Hcl).
  - apply bset_of_list_sorted.
  - intros x (a & Ha & Hr & ->)%roots_spec. by apply caused_requested.
  - unfold reach_fuel.
    pose proof (length_subset (bset_of_list (ResolvedAction.name <$> actions))
      (ResolvedAction.name <$> actions) (bset_of_list_NoDup _)
      (fun x => proj1 (elem_of_bset_of_list x _))) as Hl.
    rewrite length_fmap in Hl. lia.
  - exists R. split; [done |]. split; [by apply clt_sorted_NoDup |].
    intros x. split; [apply Hc |]. induction 1 as [a Ha Hr|a e Ha He _ IH|a p id Ha Hpr Hp Hid _ IH].
    + apply Hin, roots_spec. eauto.
    + apply Hcl; [done |]. apply has_cause_spec. right. eauto.
    + apply Hcl; [done |]. apply has_cause_spec. left. eauto 10.
Qed.
End reach.

Lemma validate_reachable_ok actions :
  NoDup (ResolvedAction.name <$> actions) ->
  validate_reachable actions = Ok tt <->
  forall a, a ∈ actions -> caused actions (ResolvedAction.name a).
Proof.
  intros Hnd. destruct (validate_reachable_loop actions) as (R & E & HR & Hspec).
  unfold validate_reachable. rewrite E.
  assert (Hsub : forall x, x ∈ R -> x ∈ ResolvedAction.name <$> actions).
  { intros x Hx%Hspec. apply list_elem_of_fmap. destruct Hx; eauto. }
  destruct (Nat.eqb_spec (length R) (length actions)) as [Hl|Hl]; split; try done.
  - intros _ a Ha. apply Hspec. rewrite <- (length_fmap ResolvedAction.name) in Hl.
    apply (subset_same_length R (ResolvedAction.name <$> actions)); try done.
    apply list_elem_of_fmap. eauto.
  - intros Hall. exfalso. apply Hl. rewrite <- (length_fmap ResolvedAction.name).
    apply Nat.le_antisymm; apply length_subset; try done.
    intros x (a & -> & Ha)%list_elem_of_fmap. by apply Hspec, Hall.
Qed.

(** The reachability loop always ends, and accepts actions with distinct names exactly
    when each of them is requested or follows, through dependency edges and obsoleting
    parents, from one that is. *)
Theorem validate_reachable_spec (actions : list ResolvedAction.t)
    (Hnames : NoDup (ResolvedAction.name <$> actions)) :
  (validate_reachable actions = Ok tt \/
   validate_reachable actions = Err PlanError.DisconnectedGraph) /\
  (validate_reachable actions = Ok tt <->
   forall a, a ∈ actions -> caused actions (ResolvedAction.name a)).
Proof.
  split; [| by apply validate_reachable_ok].
  destruct (validate_reachable_loop actions) as (R & E & _). unfold validate_reachable.
  rewrite E. destruct (Nat.eqb _ _); auto.
Qed.
End ReachFacts.

(** ** The execution order *)

Module OrderFacts.
(** *** The edges *)

(** [u] has to come before [v]. *)
Definition edge_rel (resolved : list ResolvedAction.t) (u v : string) : Prop :=
  exists a, a ∈ resolved /\
    ((exists d, d ∈ ResolvedAction.dependency_edges a /\
        (u, v) = dependency_edge (removing resolved) a d) \/
     (exists id p, ResolvedAction.provenance a = Some (SolverProvenance.ObsoletedBy id) /\
        List.find (fun c => bool_decide (action_identity c = Some id)) resolved = Some p /\
        u = ResolvedAction.name p /\ v = ResolvedAction.name a)).

(** A parent no action has. *)
Definition missing_parent (resolved : list ResolvedAction.t) (keys : list string) (p : string) : Prop :=
  (exists a d, a ∈ resolved /\ d ∈ ResolvedAction.dependency_edges a /\
     p = DependencyEdge.parent d /\ p ∉ keys) \/
  (exists a, a ∈ resolved /\ ResolvedAction.provenance a = Some (SolverProvenance.ObsoletedBy p) /\
     forall c, c ∈ resolved -> action_identity c <> Some p).

Section edges.
Context (keys : list string) (resolved : list ResolvedAction.t).

Lemma insert_dependencies a l es :
  StronglySorted clt es ->
  match fold_result (fun edges dependency =>
      _ ← reject_if (negb (bset_contains (DependencyEdge.parent dependency) keys))
            (PlanError.MissingParent (DependencyEdge.parent dependency));
      Ok (bset_insert (dependency_edge (removing resolved) a dependency) edges)) es l with
  | Ok es' => StronglySorted clt es' /\ (forall d, d ∈ l -> DependencyEdge.parent d ∈ keys) /\
      forall e, e ∈ es' <-> e ∈ es \/ exists d, d ∈ l /\ e = dependency_edge (removing resolved) a d
  | Err e => exists d, d ∈ l /\ e = PlanError.MissingParent (DependencyEdge.parent d) /\
      DependencyEdge.parent d ∉ keys
  end.
Proof.
  revert es. induction l as [|d l IH]; intros es Hs; simpl.
  - split_and!; [done | by intros ? ?%not_elem_of_nil |].
    intros e. split; [auto |]. intros [?|(? & ?%not_elem_of_nil & _)]; done.
  - destruct (bset_contains (DependencyEdge.parent d) keys) eqn:Hk; simpl.
    + apply bset_contains_spec in Hk.
      specialize (IH _ (bset_insert_sorted (dependency_edge (removing resolved) a d) es Hs)).
      destruct (fold_result _ _ l).
      * destruct IH as (? & Hp & He). split_and!; [done | |].
        -- intros d' [->|?]%elem_of_cons; auto.
        -- intros e. rewrite He, elem_of_bset_insert. setoid_rewrite elem_of_cons. naive_solver.
      * destruct IH as (d' & ? & ? & ?). exists d'. split_and!; try done. by right.
    + exists d. split_and!; [left | done | by apply bset_contains_false].
Qed.

Lemma insert_edges_spec es a :
  StronglySorted clt es ->
  match insert_edges keys resolved es a with
  | Ok es' => StronglySorted clt es' /\
      (forall d, d ∈ ResolvedAction.dependency_edges a -> DependencyEdge.parent d ∈ keys) /\
      forall u v, (u, v) ∈ es' <-> (u, v) ∈ es \/
        (exists d, d ∈ ResolvedAction.dependency_edges a /\
           (u, v) = dependency_edge (removing resolved) a d) \/
        (exists id p, ResolvedAction.provenance a = Some (SolverProvenance.ObsoletedBy id) /\
           List.find (fun c => bool_decide (action_identity c = Some id)) resolved = Some p /\
           u = ResolvedAction.name p /\ v = ResolvedAction.name a)
  | Err e => exists p, e = PlanError.MissingParent p /\
      (a ∈ resolved -> missing_parent resolved keys p)
  end.
Proof.
  intros Hs. unfold insert_edges.
  pose proof (insert_dependencies a (ResolvedAction.dependency_edges a) es Hs) as H.
  destruct (fold_result _ es _) as [es'|e]; simpl.
  - destruct H as (Hs' & Hp & He).
    destruct (ResolvedAction.provenance a) as [[id]|] eqn:Hpr.
    + destruct (List.find _ resolved) as [p|] eqn:Hf; simpl.
      * split_and!; [by apply bset_insert_sorted | done |].
        intros u v. rewrite elem_of_bset_insert, He. naive_solver.
      * exists id. split; [done |]. intros Ha. right. exists a. split_and!; try done.
        intros c Hc Hid. apply list_elem_of_In in Hc.
        pose proof (List.find_none _ _ Hf c Hc) as Hn. simpl in Hn.
        by rewrite bool_decide_eq_true_2 in Hn.
    + split_and!; try done. intros u v. rewrite He. naive_solver.
  - destruct H as (d & Hd & -> & Hk). eexists. split; [done |]. intros Ha. left. eauto 10.
Qed.

Lemma edge_fold_spec l es :
  StronglySorted clt es -> (forall a, a ∈ l -> a ∈ resolved) ->
  match fold_result (insert_edges keys resolved) es l with
  | Ok es' => StronglySorted clt es' /\
      (forall a d, a ∈ l -> d ∈ ResolvedAction.dependency_edges a -> DependencyEdge.parent d ∈ keys) /\
      forall u v, (u, v) ∈ es' <-> (u, v) ∈ es \/ exists a, a ∈ l /\
        ((exists d, d ∈ ResolvedAction.dependency_edges a /\
            (u, v) = dependency_edge (removing resolved) a d) \/
         (exists id p, ResolvedAction.provenance a = Some (SolverProvenance.ObsoletedBy id) /\
           List.find (fun c => bool_decide (action_identity c = Some id)) resolved = Some p /\
           u = ResolvedAction.name p /\ v = ResolvedAction.name a))
  | Err e => exists p, e = PlanError.MissingParent p /\ missing_parent resolved keys p
  end.
Proof.
  revert es. induction l as [|a l IH]; intros es Hs Hl; simpl.
  - split_and!; [done | by intros ? ? ?%not_elem_of_nil |].
    intros u v. split; [auto |]. intros [?|(? & ?%not_elem_of_nil & _)]; done.
  - pose proof (insert_edges_spec es a Hs) as H.
    destruct (insert_edges keys resolved es a) as [es1|e]; simpl.
    + destruct H as (Hs1 & Hp1 & He1).
      specialize (IH es1 Hs1 (fun x Hx => Hl x (list_elem_of_further x a l Hx))).
      destruct (fold_result _ es1 l) as [es2|].
      * destruct IH as (? & Hp & He). split_and!; [done | |].
        -- intros b d [->|Hb]%elem_of_cons; eauto.
        -- intros u v. rewrite He, He1. setoid_rewrite elem_of_cons. naive_solver.
      * done.
    + destruct H as (p & -> & Hm). exists p. split; [done |]. apply Hm, Hl. left.
Qed.

Lemma edge_set_spec :
  (forall a, a ∈ resolved -> ResolvedAction.name a ∈ keys) ->
  match edge_set keys resolved with
  | Ok es => NoDup es /\ (forall u v, (u, v) ∈ es <-> edge_rel resolved u v) /\
      (forall u v, (u, v) ∈ es -> u ∈ keys /\ v ∈ keys)
  | Err e => exists p, e = PlanError.MissingParent p /\ missing_parent resolved keys p
  end.
Proof.
  intros Hkeys. pose proof (edge_fold_spec resolved [] ltac:(constructor) (fun _ H => H)) as H.
  unfold edge_set. destruct (fold_result _ [] resolved) as [es|]; [| done].
  destruct H as (Hs & Hp & He).
  assert (Hrel : forall u v, (u, v) ∈ es <-> edge_rel resolved u v).
  { intros u v. rewrite He. unfold edge_rel. split; [| auto].
    intros [?%not_elem_of_nil|?]; done. }
  split_and!; [by apply clt_sorted_NoDup | done |].
  intros u v Huv. apply Hrel in Huv as (a & Ha & [(d & Hd & E)|(id & p & _ & Hf & -> & ->)]).
  - pose proof (Hp a d Ha Hd). pose proof (Hkeys a Ha).
    unfold dependency_edge in E. destruct (removing resolved); by simplify_eq.
  - apply List.find_some in Hf as [Hf _]. apply list_elem_of_In in Hf. split; auto.
Qed.
End edges.

(** *** The graph *)

Lemma adj_insert_lookup k v m k' :
  adj (adj_insert k v m) k' = if decide (k = k') then bset_insert v (adj m k) else adj m k'.
Proof.
  unfold adj, adj_insert. case_decide as Hk.
  - subst. by rewrite bmap_lookup_insert_eq.
  - by rewrite bmap_lookup_insert_ne.
Qed.

Lemma length_bset_insert {A} `{RustOrdLaws A} (x : A) s :
  x ∉ s -> length (bset_insert x s) = S (length s).
Proof.
  induction s as [|y s IH]; simpl; [done |]. intros [Hxy Hs]%not_elem_of_cons.
  destruct (cmp x y) eqn:E; simpl; [by apply cmp_eq in E | done | by rewrite IH].
Qed.

(** What the maps hold after the edges [es]. *)
Definition graph_of (keys : list string) (es : list (string * string)) (g : graph) : Prop :=
  (forall u v, v ∈ adj (outgoing g) u <-> (u, v) ∈ es) /\
  (forall u v, u ∈ adj (incoming g) v <-> (u, v) ∈ es) /\
  (forall u, StronglySorted clt (adj (outgoing g) u)) /\
  (forall v, StronglySorted clt (adj (incoming g) v)) /\
  (forall v, v ∈ keys ->
     bmap_lookup v (indegree g) = Some (N.of_nat (length (adj (incoming g) v)))) /\
  (indegree g).*1 = keys.

Lemma bset_insert_id {A} `{RustOrdLaws A} (x : A) s : x ∈ s -> StronglySorted clt s -> bset_insert x s = s.
Proof.
  intros Hx Hs. apply clt_sorted_ext; [by apply bset_insert_sorted | done |].
  intros y. rewrite elem_of_bset_insert. naive_solver.
Qed.

Lemma add_edge_spec keys es g u v :
  StronglySorted clt keys -> graph_of keys es g -> (u, v) ∉ es -> v ∈ keys ->
  exists g', add_edge g (u, v) = Ok g' /\ graph_of keys (es ++ [(u, v)]) g'.
Proof.
  intros Hkeys (Hout & Hin & Hso & Hsi & Hdeg & Hk) Huv Hv. unfold add_edge.
  assert (Hc : bset_contains v (adj (outgoing g) u) = false).
  { apply bset_contains_false. by rewrite Hout. }
  rewrite Hc, (Hdeg v Hv). simpl. eexists. split; [done |]. unfold graph_of. simpl.
  assert (Hmem : forall x y : string, (x, y) ∈ es ++ [(u, v)] <-> (x, y) ∈ es \/ (x = u /\ y = v)).
  { intros x y. rewrite elem_of_app, list_elem_of_singleton. naive_solver. }
  split_and!.
  - intros x y. rewrite adj_insert_lookup, Hmem. case_decide; subst.
    + rewrite elem_of_bset_insert, Hout. naive_solver.
    + rewrite Hout. naive_solver.
  - intros x y. rewrite adj_insert_lookup, Hmem. case_decide; subst.
    + rewrite elem_of_bset_insert, Hin. naive_solver.
    + rewrite Hin. naive_solver.
  - intros x. rewrite adj_insert_lookup. case_decide; [by apply bset_insert_sorted | done].
  - intros x. rewrite adj_insert_lookup. case_decide; [by apply bset_insert_sorted | done].
  - intros x Hx. rewrite adj_insert_lookup. case_decide as Hvx.
    + subst. rewrite bmap_lookup_insert_eq, length_bset_insert by (by rewrite Hin).
      f_equal. lia.
    + by rewrite bmap_lookup_insert_ne, Hdeg.
  - rewrite bmap_insert_keys, Hk. by apply bset_insert_id.
Qed.

Lemma add_edges_spec keys es es' g :
  StronglySorted clt keys -> graph_of keys es g -> NoDup (es ++ es') ->
  (forall u v, (u, v) ∈ es' -> v ∈ keys) ->
  exists g', fold_result add_edge g es' = Ok g' /\ graph_of keys (es ++ es') g'.
Proof.
  intros Hkeys. revert es g. induction es' as [|[u v] es' IH]; intros es g Hg Hnd Hv.
  - exists g. by rewrite app_nil_r.
  - destruct (add_edge_spec keys es g u v) as (g1 & E & Hg1); try done.
    { apply NoDup_app in Hnd as (_ & Hd & _). intros Hin. apply (Hd _ Hin). left. }
    { apply (Hv u). left. }
    destruct (IH (es ++ [(u, v)]) g1) as (g2 & E2 & Hg2); [done | by rewrite <- app_assoc | |].
    { intros x y Hxy. apply (Hv x). by right. }
    exists g2. cbn [fold_result]. rewrite E. split; [done |]. by rewrite <- app_assoc in Hg2.
Qed.

Lemma build_graph_spec keys es :
  StronglySorted clt keys -> NoDup es -> (forall u v, (u, v) ∈ es -> v ∈ keys) ->
  exists g, build_graph keys es = Ok g /\ graph_of keys es g.
Proof.
  intros Hkeys Hnd Hv. unfold build_graph.
  assert (Hk : ((fun k : string => (k, 0)) <$> keys).*1 = keys).
  { clear. induction keys as [|k keys IH]; csimpl; [done |]. by f_equal. }
  rewrite bmap_of_list_id by (by rewrite Hk).
  apply (add_edges_spec keys [] es); [done | | done..].
  unfold graph_of. simpl. split_and!; try (intros; by constructor); try done.
  - intros u v. split; intros ?%not_elem_of_nil; done.
  - intros u v. split; intros ?%not_elem_of_nil; done.
  - intros v Hin. apply elem_bmap_lookup; [rewrite Hk; by apply clt_sorted_NoDup |].
    apply list_elem_of_fmap. by exists v.
Qed.

(** *** The walk finds a cycle *)

Section cycle.
Context (es : list (string * string)) (keys : list string) (g : graph).
Context (Hg : graph_of keys es g).

Definition precedes_edge (u v : string) : Prop := (u, v) ∈ es.

(** Every active name waits for an active one. *)
Definition blocked (A : list string) : Prop :=
  forall x, x ∈ A -> exists u, u ∈ A /\ precedes_edge u x.

Lemma cycle_walk_spec fuel A seen current :
  blocked A -> current ∈ A -> NoDup seen -> (forall s, s ∈ seen -> s ∈ A) ->
  (forall s, s ∈ seen -> tc precedes_edge current s) ->
  (length A < fuel + length seen)%nat -> StronglySorted clt seen ->
  exists v, cycle_walk fuel A (incoming g) seen current = Some v /\ v ∈ A /\ tc precedes_edge v v.
Proof using Hg.
  destruct Hg as (_ & Hin & _). intros Hb.
  revert seen current. induction fuel as [|fuel IH]; intros seen current Hc Hnd Hsub Htc Hlen Hs.
  { exfalso. assert (length seen <= length A)%nat; [| lia].
    apply submseteq_length, NoDup_submseteq; done. }
  simpl. destruct (bset_contains current seen) eqn:Hseen.
  - apply bset_contains_spec in Hseen. exists current. split_and!; auto.
  - apply bset_contains_false in Hseen.
    destruct (Hb current Hc) as (u & Hu & Huc).
    assert (Hparents : exists l, bmap_lookup current (incoming g) = Some l).
    { apply Hin in Huc. unfold adj in Huc. destruct (bmap_lookup current (incoming g)); [eauto |].
      by apply not_elem_of_nil in Huc. }
    destruct Hparents as (l & Hl). rewrite Hl. simpl.
    assert (Hadj : adj (incoming g) current = l) by (unfold adj; by rewrite Hl).
    destruct (List.find (fun parent => bset_contains parent A) l) as [parent|] eqn:Hf; simpl.
    + apply List.find_some in Hf as [Hpl HpA%bset_contains_spec].
      apply list_elem_of_In in Hpl. rewrite <- Hadj, Hin in Hpl.
      apply IH; [done | | | | |].
      * by apply clt_sorted_NoDup, bset_insert_sorted.
      * intros s [->|?]%elem_of_bset_insert; auto.
      * intros s [->|?]%elem_of_bset_insert; [by apply tc_once |].
        eapply tc_l; [done |]. by apply Htc.
      * rewrite length_bset_insert by done. lia.
      * by apply bset_insert_sorted.
    + exfalso. apply Hin in Huc. rewrite Hadj in Huc. apply list_elem_of_In in Huc.
      pose proof (List.find_none _ _ Hf u Huc) as Hn. simpl in Hn.
      by apply bset_contains_false in Hn.
Qed.

Lemma cycle_member_spec A :
  blocked A -> A <> [] ->
  exists v, cycle_member A (incoming g) = Some v /\ v ∈ A /\ tc precedes_edge v v.
Proof using Hg.
  intros Hb Hne. destruct A as [|first A]; [done |]. unfold cycle_member.
  apply cycle_walk_spec; try done.
  - left.
  - constructor.
  - by intros ? ?%not_elem_of_nil.
  - by intros ? ?%not_elem_of_nil.
  - simpl. lia.
  - constructor.
Qed.

(** *** One step of the schedule *)

(** The predecessors of [x] that are still active. *)
Definition waiting (A : list string) (x : string) : list string :=
  base.filter (fun u => u ∈ A) (adj (incoming g) x).

Lemma elem_of_waiting A x u : u ∈ waiting A x <-> u ∈ A /\ precedes_edge u x.
Proof using Hg.
  destruct Hg as (_ & Hin & _). unfold waiting. rewrite list_elem_of_filter, Hin. done.
Qed.

Lemma waiting_NoDup A x : NoDup (waiting A x).
Proof using Hg.
  destruct Hg as (_ & _ & _ & Hs & _). apply NoDup_filter, clt_sorted_NoDup, Hs.
Qed.

(** Scheduling [n] frees its successors by one. *)
Lemma waiting_remove A n x :
  n ∈ A -> length (waiting A x) =
    ((if decide ((n, x) ∈ es) then 1 else 0) + length (waiting (bset_remove n A) x))%nat.
Proof using Hg.
  intros Hn. case_decide as Hnx.
  - change (length (waiting A x) = length (n :: waiting (bset_remove n A) x)).
    apply Permutation_length, NoDup_Permutation; [apply waiting_NoDup | |].
    + constructor; [| apply waiting_NoDup]. rewrite elem_of_waiting, elem_of_bset_remove. tauto.
    + intros u. rewrite elem_of_cons, !elem_of_waiting, elem_of_bset_remove.
      destruct (decide (u = n)) as [->|]; naive_solver.
  - apply Permutation_length, NoDup_Permutation; [apply waiting_NoDup.. |].
    intros u. rewrite !elem_of_waiting, elem_of_bset_remove. naive_solver.
Qed.

Lemma release_targets l degrees ready :
  NoDup l -> StronglySorted clt ready ->
  (forall t, t ∈ l -> exists c, bmap_lookup t degrees = Some (N.of_nat (S c))) ->
  exists degrees' ready', fold_result release_target (degrees, ready) l = Ok (degrees', ready') /\
    StronglySorted clt ready' /\
    (forall x, x ∉ l -> bmap_lookup x degrees' = bmap_lookup x degrees) /\
    (forall x c, x ∈ l -> bmap_lookup x degrees = Some (N.of_nat (S c)) ->
       bmap_lookup x degrees' = Some (N.of_nat c)) /\
    (forall x, x ∈ ready' <-> x ∈ ready \/ (x ∈ l /\ bmap_lookup x degrees = Some 1)).
Proof.
  revert degrees ready. induction l as [|t l IH]; intros degrees ready Hnd Hs Hl.
  { exists degrees, ready. split_and!; try done.
    - by intros ? ? ?%not_elem_of_nil.
    - intros x. split; [auto |]. intros [?|[?%not_elem_of_nil _]]; done. }
  apply NoDup_cons in Hnd as [Ht Hnd].
  destruct (Hl t (list_elem_of_here t l)) as (c & Hc).
  assert (E : release_target (degrees, ready) t =
    Ok (bmap_insert t (N.of_nat c) degrees, if N.of_nat c =? 0 then bset_insert t ready else ready)).
  { unfold release_target. rewrite Hc. cbn [mbind result_mbind ok_or].
    rewrite (proj2 (N.eqb_neq _ _)) by lia. cbn [mbind result_mbind ok_or].
    by replace (N.of_nat (S c) - 1) with (N.of_nat c) by lia. }
  cbn [fold_result]. rewrite E. cbn [mbind result_mbind].
  destruct (IH (bmap_insert t (N.of_nat c) degrees)
    (if N.of_nat c =? 0 then bset_insert t ready else ready))
    as (d' & r' & -> & Hs' & Hout & Hin & Hr); [done | | |].
  { destruct (_ =? 0); [by apply bset_insert_sorted | done]. }
  { intros x Hx. destruct (Hl x (list_elem_of_further x t l Hx)) as (cx & Hcx). exists cx.
    rewrite bmap_lookup_insert_ne by (by intros ->). done. }
  exists d', r'. split_and!; try done.
  - intros x [Hxt Hx]%not_elem_of_cons. rewrite Hout by done. by apply bmap_lookup_insert_ne.
  - intros x cx [->|Hx]%elem_of_cons Hcx.
    + rewrite Hout by done. rewrite bmap_lookup_insert_eq. congruence || (f_equal; simplify_eq; lia).
    + apply Hin; [done |]. rewrite bmap_lookup_insert_ne by (by intros ->). done.
  - intros x. rewrite Hr, elem_of_cons.
    assert (Hins : x ∈ l -> bmap_lookup x (bmap_insert t (N.of_nat c) degrees) = bmap_lookup x degrees).
    { intros Hx. apply bmap_lookup_insert_ne. by intros ->. }
    destruct (N.eqb_spec (N.of_nat c) 0) as [H0|H0].
    + rewrite elem_of_bset_insert. assert (c = 0)%nat as -> by lia. split.
      * intros [[->|?]|[Hx Hd]]; [right; split; [by left | done] | by left |].
        right. split; [by right | by rewrite <- Hins].
      * intros [?|[[->|Hx] Hd]]; [left; by right | left; by left |].
        right. split; [done | by rewrite Hins].
    + split.
      { intros [?|[Hx Hd]]; [by left |]. right. split; [by right | by rewrite <- Hins]. }
      intros [?|[[->|?] Hx]]; [by left | | right; split; [done |]; by rewrite Hins].
      exfalso. rewrite Hc in Hx. injection Hx. lia.
Qed.

(** *** The loop *)

(** [u] stands before [v]. *)
Definition before (u v : string) (l : list string) : Prop :=
  exists l1 l2, l = l1 ++ v :: l2 /\ u ∈ l1.

Lemma before_snoc u v l x : before u v l -> before u v (l ++ [x]).
Proof. intros (l1 & l2 & -> & Hu). exists l1, (l2 ++ [x]). by rewrite <- app_assoc. Qed.

Definition names_of (l : list ExplainedAction.t) : list string := ExplainedAction.name <$> l.

(** What every iteration keeps: the maps describe the active names, the ready ones are those
    that wait for nothing, and the ordered ones respect the edges outside cycles. *)
Record sched_inv (items : list ExplainedAction.t) (s : schedule) : Prop := {
  si_sorted : StronglySorted clt (active s);
  si_remaining : (remaining s).*1 = active s;
  si_named : forall k item, (k, item) ∈ remaining s -> ExplainedAction.name item = k;
  si_items : ordered s ++ (remaining s).*2 ≡ₚ items;
  si_degrees : forall x, x ∈ active s ->
    bmap_lookup x (degrees s) = Some (N.of_nat (length (waiting (active s) x)));
  si_ready_sorted : StronglySorted clt (ready s);
  si_ready : forall x, x ∈ ready s <-> x ∈ active s /\ waiting (active s) x = [];
  si_done : forall x, x ∈ keys -> x ∈ active s \/ x ∈ names_of (ordered s);
  si_order : forall u v, precedes_edge u v -> v ∈ names_of (ordered s) ->
    before u v (names_of (ordered s)) \/ tc precedes_edge v v
}.

Context (Hends : forall u v, precedes_edge u v -> u ∈ keys /\ v ∈ keys).

(** The name an iteration takes, and what is left of [ready]. *)
Lemma choose_next items s :
  sched_inv items s -> active s <> [] ->
  exists next rest,
    match ready s with
    | name :: rest => Ok (name, rest)
    | [] => name ← ok_or PlanError.DependencyCycle (cycle_member (active s) (incoming g));
            Ok (name, [])
    end = Ok (next, rest) /\
    next ∈ active s /\ StronglySorted clt rest /\
    (forall x, x ∈ rest <-> x ∈ bset_remove next (active s) /\ waiting (active s) x = []) /\
    (waiting (active s) next = [] \/ tc precedes_edge next next).
Proof using Hg.
  intros Hinv Hne. destruct (ready s) as [|next rest] eqn:Hr.
  - assert (Hnone : forall x, x ∈ active s -> waiting (active s) x <> []).
    { intros x Hx Hw. assert (Hin : x ∈ ready s) by (by apply (si_ready _ _ Hinv)).
      rewrite Hr in Hin. by apply not_elem_of_nil in Hin. }
    destruct (cycle_member_spec (active s)) as (v & E & Hv & Htc); [| done |].
    { intros x Hx. destruct (waiting (active s) x) as [|u l] eqn:E; [by destruct (Hnone x Hx) |].
      exists u. apply elem_of_waiting. rewrite E. left. }
    exists v, []. rewrite E. split_and!; [done | done | constructor | | by right].
    intros x. rewrite elem_of_bset_remove. split; [by intros ?%not_elem_of_nil |].
    intros [[_ Hx] Hw]. by destruct (Hnone x Hx).
  - exists next, rest. pose proof (si_ready_sorted _ _ Hinv) as Hs. rewrite Hr in Hs.
    assert (Hmem : forall x, x ∈ next :: rest <-> x ∈ active s /\ waiting (active s) x = []).
    { intros x. rewrite <- Hr. apply (si_ready _ _ Hinv). }
    destruct (proj1 (Hmem next) (list_elem_of_here _ _)) as [Hn Hw].
    pose proof (clt_sorted_NoDup _ Hs) as Hnd. apply NoDup_cons in Hnd as [Hnin _].
    split_and!; [done | done | by apply StronglySorted_inv in Hs as [? _] | | by left].
    intros x. rewrite elem_of_bset_remove. split.
    + intros Hx. destruct (proj1 (Hmem x) (list_elem_of_further _ _ _ Hx)) as [? ?].
      split; [| done]. split; [by intros -> | done].
    + intros [[Hxn Hx] Hxw]. pose proof (proj2 (Hmem x) (conj Hx Hxw)) as Hin.
      apply elem_of_cons in Hin as [->|?]; done.
Qed.

(** The order is kept when a free name, or one on a cycle, is appended. *)
Lemma order_snoc items s next item :
  sched_inv items s -> next ∈ active s -> ExplainedAction.name item = next ->
  (waiting (active s) next = [] \/ tc precedes_edge next next) ->
  forall u v, precedes_edge u v -> v ∈ names_of (ordered s ++ [item]) ->
    before u v (names_of (ordered s ++ [item])) \/ tc precedes_edge v v.
Proof using Hg Hends.
  intros Hinv Hn Hname Hfree u v Huv Hv. unfold names_of in *. rewrite fmap_app in *. csimpl in *.
  rewrite Hname in *. apply elem_of_app in Hv as [Hv|Hv].
  - destruct (si_order _ _ Hinv u v Huv Hv) as [Hb|]; [left | by right]. by apply before_snoc.
  - apply list_elem_of_singleton in Hv as ->. destruct Hfree as [Hw|]; [left | by right].
    exists (ExplainedAction.name <$> ordered s), []. split; [done |].
    destruct (Hends u next Huv) as [Hu _].
    destruct (si_done _ _ Hinv u Hu) as [Hact|]; [| done].
    exfalso. assert (Hin : u ∈ waiting (active s) next) by (by apply elem_of_waiting).
    rewrite Hw in Hin. by apply not_elem_of_nil in Hin.
Qed.

Lemma order_step_ok items s :
  sched_inv items s -> active s <> [] ->
  exists s', order_step g s = Ok s' /\ sched_inv items s' /\
    S (length (active s')) = length (active s).
Proof using Hg Hends.
  intros Hinv Hne. destruct (choose_next items s Hinv Hne) as (next & rest & Hchoice & Hn & Hrs & Hrest & Hfree).
  pose proof (clt_sorted_NoDup _ (si_sorted _ _ Hinv)) as Hnd.
  assert (Hnd' : NoDup (remaining s).*1) by (by rewrite (si_remaining _ _ Hinv)).
  destruct (bmap_lookup next (remaining s)) as [item|] eqn:Hitem; cycle 1.
  { apply bmap_lookup_None in Hitem. by rewrite (si_remaining _ _ Hinv) in Hitem. }
  assert (Hname : ExplainedAction.name item = next).
  { apply (si_named _ _ Hinv). by apply bmap_lookup_elem. }
  set (A := bset_remove next (active s)).
  set (targets := base.filter (fun target => bset_contains target A = true) (adj (outgoing g) next)).
  assert (HA : forall x, x ∈ A <-> x <> next /\ x ∈ active s) by (intros x; apply elem_of_bset_remove).
  assert (Htargets : forall x, x ∈ targets <-> x ∈ A /\ precedes_edge next x).
  { intros x. unfold targets. rewrite list_elem_of_filter, bset_contains_spec.
    destruct Hg as (Hout & _). by rewrite Hout. }
  assert (Hwait : forall x, length (waiting (active s) x) =
    ((if decide ((next, x) ∈ es) then 1 else 0) + length (waiting A x))%nat)
    by (intros x; by apply waiting_remove).
  destruct (release_targets targets (degrees s) rest) as (degrees' & ready' & E & Hs' & Hout & Hin & Hr).
  { destruct Hg as (_ & _ & Hso & _). apply NoDup_filter, clt_sorted_NoDup, Hso. }
  { done. }
  { intros t [Ht Hnt]%Htargets. exists (length (waiting A t)).
    rewrite (si_degrees _ _ Hinv) by (by apply HA). rewrite Hwait.
    by rewrite decide_True by done. }
  unfold order_step. rewrite Hchoice. cbn [mbind result_mbind].
  rewrite (proj2 (bset_contains_spec _ _) Hn). cbn [negb reject_if].
  rewrite Hitem. cbn [ok_or mbind result_mbind]. fold A. fold targets. rewrite E.
  eexists. split; [done |]. split; [| by apply length_bset_remove].
  constructor; simpl.
  - by apply bset_remove_sorted, (si_sorted _ _ Hinv).
  - by rewrite bmap_remove_keys, (si_remaining _ _ Hinv).
  - intros k it [_ ?]%elem_of_bmap_remove. by apply (si_named _ _ Hinv).
  - rewrite <- (si_items _ _ Hinv), <- app_assoc.
    rewrite (bmap_remove_perm next item (remaining s)) at 2 by done. done.
  - intros x Hx. destruct (decide ((next, x) ∈ es)) as [Hnx|Hnx].
    + apply Hin; [by apply Htargets |]. rewrite (si_degrees _ _ Hinv) by (by apply HA).
      rewrite Hwait. by rewrite decide_True by done.
    + rewrite Hout by (rewrite Htargets; by intros [_ ?]).
      rewrite (si_degrees _ _ Hinv) by (by apply HA). rewrite Hwait. by rewrite decide_False by done.
  - done.
  - intros x. rewrite Hr, Hrest, Htargets. fold A. specialize (Hwait x).
    pose proof (fun Hx => si_degrees _ _ Hinv x (proj2 (proj1 (HA x) Hx))) as Hd.
    unfold precedes_edge. split.
    + intros [[Hx Hw]|[[Hx Hnx] H1]]; (split; [done |]); apply nil_length_inv.
      * rewrite Hw in Hwait. simpl in Hwait. lia.
      * rewrite (Hd Hx) in H1. injection H1 as H1. rewrite decide_True in Hwait by done. lia.
    + intros [Hx Hw]. rewrite Hw in Hwait. simpl in Hwait. destruct (decide ((next, x) ∈ es)).
      * right. split; [done |]. rewrite (Hd Hx), Hwait. done.
      * left. split; [done |]. by apply nil_length_inv.
  - intros x Hx. unfold names_of. rewrite fmap_app, elem_of_app. csimpl. rewrite list_elem_of_singleton.
    destruct (si_done _ _ Hinv x Hx) as [Ha|]; [| by right; left].
    destruct (decide (x = next)) as [->|]; [by right; right | left; by apply HA].
  - by apply (order_snoc items s next item).
Qed.

Lemma order_loop_ok items fuel s :
  sched_inv items s -> (length (active s) <= fuel)%nat ->
  exists out, order_loop fuel g s = Ok out /\ out ≡ₚ items /\
    forall u v, precedes_edge u v -> before u v (names_of out) \/ tc precedes_edge v v.
Proof using Hg Hends.
  revert s. induction fuel as [|fuel IH]; intros s Hinv Hlen.
  all: destruct (active s) as [|a l] eqn:Ha.
  2: { simpl in Hlen. lia. }
  3: { destruct (order_step_ok items s Hinv) as (s' & E & Hinv' & Hl); [by rewrite Ha |].
       simpl. rewrite Ha, E. simpl. apply IH; [done |]. rewrite Ha in Hl. simpl in *. lia. }
  all: exists (ordered s); simpl; rewrite Ha; split; [done |].
  all: pose proof (si_remaining _ _ Hinv) as Hrem; rewrite Ha in Hrem; apply fmap_nil_inv in Hrem.
  all: pose proof (si_items _ _ Hinv) as Hit; rewrite Hrem, app_nil_r in Hit; split; [done |].
  all: intros u v Huv; apply (si_order _ _ Hinv); [done |].
  all: destruct (Hends u v Huv) as [_ Hv]; destruct (si_done _ _ Hinv v Hv) as [Hin|]; [| done].
  all: rewrite Ha in Hin; by apply not_elem_of_nil in Hin.
Qed.
End cycle.

(** *** The whole function *)

Lemma filter_keys_sorted {V} (P : string * V -> Prop) `{!forall x, Decision (P x)} (m : list (string * V)) :
  StronglySorted clt m.*1 -> StronglySorted clt (base.filter P m).*1.
Proof.
  induction m as [|[k v] m IH]; [done |]. csimpl. intros [Hs Hall]%StronglySorted_inv.
  rewrite filter_cons. destruct (decide _); [| by apply IH]. csimpl. constructor; [by apply IH |].
  apply Forall_forall. intros k' Hk'. apply list_elem_of_fmap in Hk' as (q & -> & Hq).
  apply list_elem_of_filter in Hq as [_ Hq].
  rewrite Forall_forall in Hall. apply Hall, list_elem_of_fmap. eauto.
Qed.

Section initial.
Context (es : list (string * string)) (actions : list ExplainedAction.t) (g : graph).

Definition pairs : list (string * ExplainedAction.t) :=
  (fun item => (ExplainedAction.name item, item)) <$> actions.

Lemma pairs_keys : pairs.*1 = names_of actions.
Proof. unfold pairs, names_of. by rewrite <- list_fmap_compose. Qed.

Lemma pairs_values : pairs.*2 = actions.
Proof. unfold pairs. rewrite <- list_fmap_compose. apply list_fmap_id. Qed.

Lemma initial_inv :
  NoDup (names_of actions) ->
  let keys := bmap_keys (bmap_of_list pairs) in
  graph_of keys es g -> (forall u v, (u, v) ∈ es -> u ∈ keys /\ v ∈ keys) ->
  sched_inv es keys g actions
    (mk_schedule (bmap_of_list pairs) keys
       (bmap_keys (base.filter (fun entry => entry.2 = 0) (indegree g))) (indegree g) []).
Proof.
  intros Hnd keys Hg Hends.
  assert (Hks : StronglySorted clt keys)
    by (unfold keys; rewrite bmap_of_list_keys; apply bset_of_list_sorted).
  assert (Hperm : bmap_of_list pairs ≡ₚ pairs) by (apply bmap_of_list_perm; by rewrite pairs_keys).
  pose proof Hg as (_ & Hin & _ & Hsi & Hdeg & Hik).
  assert (Hw : forall x, waiting g keys x ≡ₚ adj (incoming g) x).
  { intros x. apply NoDup_Permutation; [by apply (waiting_NoDup es keys) | by apply clt_sorted_NoDup |].
    intros u. rewrite (elem_of_waiting es keys g Hg), Hin. unfold precedes_edge.
    split; [by intros [_ ?] |]. intros Hu. split; [by apply (Hends u x) | done]. }
  constructor; simpl.
  - done.
  - done.
  - intros k item Hki. rewrite Hperm in Hki. unfold pairs in Hki.
    apply list_elem_of_fmap in Hki as (it & [= -> ->] & _). done.
  - by rewrite Hperm, pairs_values.
  - intros x Hx. rewrite (Hdeg x Hx). by rewrite (Hw x).
  - apply filter_keys_sorted. by rewrite Hik.
  - intros x. rewrite list_elem_of_fmap. split.
    + intros ([k c] & -> & [Hc Hkc]%list_elem_of_filter). simpl in *. subst c.
      assert (Hk : k ∈ keys). { rewrite <- Hik. apply list_elem_of_fmap. by exists (k, 0). }
      split; [done |]. specialize (Hw k). pose proof (Hdeg k Hk) as Hd.
      rewrite (elem_bmap_lookup k 0) in Hd; [| rewrite Hik; by apply clt_sorted_NoDup | done].
      injection Hd as Hd. apply nil_length_inv. rewrite Hw. lia.
    + intros [Hx Hwx]. exists (x, 0). split; [done |]. apply list_elem_of_filter. split; [done |].
      apply bmap_lookup_elem. rewrite (Hdeg x Hx). f_equal. pose proof (Hw x) as Hp.
      rewrite Hwx in Hp. apply Permutation_nil in Hp. by rewrite Hp.
  - intros x Hx. by left.
  - intros u v _ ?%not_elem_of_nil. done.
Qed.
End initial.

Lemma execution_order_cases (resolved : list ResolvedAction.t) (actions : list ExplainedAction.t)
    (Hnames : names_of actions = ResolvedAction.name <$> resolved) :
  match execution_order resolved actions with
  | Ok out => out ≡ₚ actions /\ NoDup (names_of actions) /\
      forall u v, edge_rel resolved u v ->
        before u v (names_of out) \/ tc (edge_rel resolved) v v
  | Err (PlanError.DuplicateAction _) => ~ NoDup (names_of actions)
  | Err (PlanError.MissingParent p) => missing_parent resolved (names_of actions) p
  | Err _ => False
  end.
Proof.
  unfold execution_order. fold (pairs actions).
  set (keys := bmap_keys (bmap_of_list (pairs actions))).
  assert (Hkeys : keys = bset_of_list (names_of actions))
    by (unfold keys; by rewrite bmap_of_list_keys, pairs_keys).
  assert (Hlen : length (bmap_of_list (pairs actions)) = length keys) by (by rewrite <- (length_fmap fst)).
  assert (Hres : length resolved = length (names_of actions)) by (rewrite Hnames; by rewrite length_fmap).
  rewrite Hlen, Hres, Hkeys.
  destruct (Nat.eqb_spec (length (bset_of_list (names_of actions))) (length (names_of actions)))
    as [Heq|Hne]; simpl; cycle 1.
  { intros Hnd. by apply Hne, length_bset_of_list. }
  apply length_bset_of_list_NoDup in Heq. rewrite <- Hkeys.
  assert (Hmem : forall x, x ∈ keys <-> x ∈ names_of actions)
    by (intros x; rewrite Hkeys; apply elem_of_bset_of_list).
  pose proof (edge_set_spec keys resolved) as Hes.
  destruct (edge_set keys resolved) as [es|e]; simpl; cycle 1.
  { destruct Hes as (p & -> & Hm).
    { intros a Ha. rewrite Hmem, Hnames. apply list_elem_of_fmap. eauto. }
    destruct Hm as [(a & d & Ha & Hd & -> & Hk)|Hm]; [left | by right].
    exists a, d. split_and!; try done. by rewrite <- Hmem. }
  destruct Hes as (Hend & Hrel & Hends).
  { intros a Ha. rewrite Hmem, Hnames. apply list_elem_of_fmap. eauto. }
  destruct (build_graph_spec keys es) as (g & -> & Hg).
  { rewrite Hkeys. apply bset_of_list_sorted. }
  { done. }
  { intros u v Huv. by apply (Hends u v). }
  simpl.
  destruct (order_loop_ok es keys g Hg Hends actions (length keys)
    (mk_schedule (bmap_of_list (pairs actions)) keys
       (bmap_keys (base.filter (fun entry => entry.2 = 0) (indegree g))) (indegree g) []))
    as (out & -> & Hp & Hord).
  { by apply initial_inv. }
  { done. }
  split_and!; [done | done |]. intros u v Huv. apply Hrel in Huv.
  destruct (Hord u v Huv) as [|Htc]; [by left | right].
  eapply tc_congruence with (f := id); [| done]. intros x y Hxy. by apply Hrel.
Qed.

Lemma execution_order_ok resolved actions out :
  names_of actions = ResolvedAction.name <$> resolved ->
  execution_order resolved actions = Ok out ->
  out ≡ₚ actions /\ NoDup (names_of actions) /\
  forall u v, edge_rel resolved u v -> before u v (names_of out) \/ tc (edge_rel resolved) v v.
Proof.
  intros Hnames E. pose proof (execution_order_cases resolved actions Hnames) as H.
  by rewrite E in H.
Qed.

(** C23: the execution order of explained actions, one for each resolved one, always comes
    out: it contains exactly the actions, and every edge is respected unless its target lies
    on a dependency cycle.  The only failures are a repeated name and a parent that does not
    exist; the cycle errors of the code are never reached. *)
Theorem execution_order_spec (resolved : list ResolvedAction.t) (actions : list ExplainedAction.t)
    (Hnames : names_of actions = ResolvedAction.name <$> resolved) :
  match execution_order resolved actions with
  | Ok out => out ≡ₚ actions /\ NoDup (names_of actions) /\
      forall u v, edge_rel resolved u v ->
        before u v (names_of out) \/ tc (edge_rel resolved) v v
  | Err (PlanError.DuplicateAction _) => ~ NoDup (names_of actions)
  | Err (PlanError.MissingParent p) => missing_parent resolved (names_of actions) p
  | Err _ => False
  end.
Proof. by apply execution_order_cases. Qed.
End OrderFacts.

(** ** An edge outside every cycle that the order does not respect *)

Module CycleBreaking.
Definition example_evra : Evra.t := Evra.mk 0 "1" "1" Architecture.X86_64.

Definition resolved_install (name : string) (parents : list string) : ResolvedAction.t :=
  ResolvedAction.mk ResolvedOperation.Install name false None false None None None None
    ((fun p => DependencyEdge.mk p DependencyKind.Strong) <$> parents) None [] [] false "rule".

Definition explained_install (name : string) : ExplainedAction.t :=
  ExplainedAction.mk "install" name example_evra None None None None None None
    PackageReason.Dependency RequestedRelation.Dependency None [] None 0 0 None
    (PlanProtection.mk false false false) "rule".

(** Two applications that require each other, the first of which also requires the first of
    two libraries that require each other. *)
Definition mutual : list ResolvedAction.t :=
  [ resolved_install "app-a" ["app-b"]; resolved_install "app-b" ["app-a"];
    resolved_install "lib-y" ["app-a"; "lib-z"]; resolved_install "lib-z" ["lib-y"] ].

Definition mutual_actions : list ExplainedAction.t :=
  explained_install <$> ["app-a"; "app-b"; "lib-y"; "lib-z"].

Lemma tc_closed {A} (R : A -> A -> Prop) (P : A -> Prop) x y :
  (forall u v, R u v -> P u -> P v) -> tc R x y -> P x -> P y.
Proof. intros Hstep. induction 1; eauto. Qed.

(** Breaking a cycle does not keep every other constraint: for these four packages the
    library comes after the application that requires it, although that requirement lies on
    no cycle. *)
Theorem execution_order_breaks_acyclic_edge :
  exists out,
    execution_order mutual mutual_actions = Ok out /\
    OrderFacts.edge_rel mutual "lib-y" "app-a" /\
    ~ tc (OrderFacts.edge_rel mutual) "app-a" "lib-y" /\
    OrderFacts.before "app-a" "lib-y" (OrderFacts.names_of out).
Proof.
  pose proof (OrderFacts.edge_set_spec ["app-a"; "app-b"; "lib-y"; "lib-z"] mutual) as Hes.
  assert (E : edge_set ["app-a"; "app-b"; "lib-y"; "lib-z"] mutual =
    Ok [("app-a", "app-b"); ("app-b", "app-a"); ("lib-y", "app-a"); ("lib-y", "lib-z"); ("lib-z", "lib-y")])
    by (vm_compute; reflexivity).
  rewrite E in Hes. destruct Hes as (_ & Hrel & _).
  { intros a Ha. apply list_elem_of_In in Ha.
    repeat (destruct Ha as [<-|Ha]; [apply list_elem_of_In; simpl; tauto |]). done. }
  eexists. split; [vm_compute; reflexivity |]. split_and!.
  - apply Hrel, list_elem_of_In. simpl. tauto.
  - intros Htc. apply (tc_closed _ (fun x => x = "app-a" \/ x = "app-b")) in Htc; [| | by left].
    + by destruct Htc.
    + intros u v Huv%Hrel. apply list_elem_of_In in Huv. simpl in Huv.
      intros [-> | ->]; naive_solver.
  - exists ["app-a"; "app-b"], ["lib-z"]. split; [reflexivity | left].
Qed.
End CycleBreaking.

(** ** What accepted inputs satisfy *)

Module InputFacts.
(** How often a selector is assigned. *)
Definition count (s : string) (l : list string) : nat := length (base.filter (fun x => x = s) l).

Definition covered_count (covered : list (string * N)) (s : string) : N :=
  default 0 (bmap_lookup s covered).

Lemma cover_count spec covered s :
  covered_count (cover spec covered) s =
  (covered_count covered s + if decide (spec = s) then 1 else 0).
Proof.
  unfold covered_count, cover. case_decide as Hs.
  - subst. by rewrite bmap_lookup_insert_eq.
  - rewrite bmap_lookup_insert_ne by done. lia.
Qed.

Lemma count_app s l k : count s (l ++ k) = (count s l + count s k)%nat.
Proof. unfold count. by rewrite filter_app, length_app. Qed.

(** The selector an action covers. *)
Definition assigned_spec (a : ResolvedAction.t) : option string :=
  if ResolvedAction.requested a then PackageSpec.as_str <$> ResolvedAction.requested_spec a else None.

Lemma count_cons s x l : count s (x :: l) = ((if decide (x = s) then 1 else 0) + count s l)%nat.
Proof. unfold count. rewrite filter_cons. by destruct (decide (x = s)). Qed.

Lemma cover_satisfied_fold requested l covered covered' :
  fold_result (cover_satisfied requested) covered l = Ok covered' ->
  (forall s, covered_count covered' s =
     covered_count covered s + N.of_nat (count s (PackageSpec.as_str <$> l))) /\
  Forall (fun p => PackageSpec.as_str p ∈ requested) l.
Proof.
  revert covered. induction l as [|p l IH]; intros covered; csimpl.
  - intros [= <-]. split; [| constructor]. intros s. unfold count. simpl. lia.
  - intros E. apply bind_ok in E as (c1 & E1 & E). unfold cover_satisfied in E1.
    apply bind_ok in E1 as ([] & Hp%reject_if_ok%negb_false_iff%bset_contains_spec & [= <-]).
    apply IH in E as [Hc Hl]. split; [| by constructor].
    intros s. rewrite Hc, cover_count, count_cons. repeat case_decide; try done; lia.
Qed.

(** What one iteration checks of its action. *)
(** What an intent admits: the removal of an obsoleted package except under a removal, an
    explained new dependency of an upgrade or synchronisation, or one of its own operations. *)
Definition kind_fits (intent : Action.t) (a : ResolvedAction.t) : Prop :=
  let op := ResolvedAction.operation a in
  (op = ResolvedOperation.Remove /\ ResolvedAction.provenance a <> None /\ intent <> Action.Remove) \/
  (op = ResolvedOperation.Install /\ (intent = Action.Upgrade \/ intent = Action.DistroSync) /\
   ResolvedAction.requested a = false /\ ResolvedAction.requested_spec a = None /\
   ResolvedAction.dependency_edges a <> []) \/
  match intent with
  | Action.Install => op = ResolvedOperation.Install \/ op = ResolvedOperation.Upgrade
  | Action.Remove | Action.Autoremove =>
      op = ResolvedOperation.Remove /\ ResolvedAction.provenance a = None
  | Action.Upgrade => op = ResolvedOperation.Upgrade
  | Action.Downgrade => op = ResolvedOperation.Downgrade
  | Action.Reinstall => op = ResolvedOperation.Reinstall
  | Action.DistroSync => op <> ResolvedOperation.Install /\ op <> ResolvedOperation.Remove
  end.

Lemma validate_kind_ok intent a u : validate_kind intent a = Ok u <-> kind_fits intent a.
Proof.
  unfold validate_kind, kind_fits, is_operation, asked_operation, synchronises, is_some.
  destruct u. destruct intent, (ResolvedAction.operation a), (ResolvedAction.provenance a),
    (ResolvedAction.requested a), (ResolvedAction.requested_spec a),
    (ResolvedAction.dependency_edges a); simpl; split; naive_solver.
Qed.

Definition action_ok (intent : Action.t) (names : list string) (actions : list ResolvedAction.t)
    (a : ResolvedAction.t) : Prop :=
  ResolvedAction.name a <> "" /\ ResolvedAction.unresolved_dependencies a = [] /\
  (forall d, d ∈ ResolvedAction.dependency_edges a ->
     DependencyEdge.parent d <> ResolvedAction.name a /\ DependencyEdge.parent d ∈ names) /\
  (forall id, ResolvedAction.provenance a = Some (SolverProvenance.ObsoletedBy id) ->
     ResolvedAction.operation a = ResolvedOperation.Remove /\
     exists p, p ∈ actions /\ action_identity p = Some id) /\
  kind_fits intent a.

Lemma validate_edges_ok names a u :
  validate_edges names a = Ok u ->
  forall d, d ∈ ResolvedAction.dependency_edges a ->
    DependencyEdge.parent d <> ResolvedAction.name a /\ DependencyEdge.parent d ∈ names.
Proof.
  intros E%for_each_ok d Hd. rewrite Forall_forall in E. specialize (E d Hd). simpl in E.
  result_inv. bool_inv. by apply bset_contains_spec in E.
Qed.

Lemma validate_provenance_ok actions a u :
  validate_provenance actions a = Ok u ->
  forall id, ResolvedAction.provenance a = Some (SolverProvenance.ObsoletedBy id) ->
    ResolvedAction.operation a = ResolvedOperation.Remove /\
    exists p, p ∈ actions /\ action_identity p = Some id.
Proof.
  unfold validate_provenance, is_operation. intros E id Hid. rewrite Hid in E.
  result_inv. bool_inv. split; [done |].
  apply existsb_true in H0 as (p & Hp & E%bool_decide_eq_true). eauto.
Qed.

Lemma cover_requested_ok intent requested a covered covered' :
  cover_requested intent requested a covered = Ok covered' ->
  (forall s, covered_count covered' s =
     covered_count covered s + N.of_nat (count s (option_list (assigned_spec a)))) /\
  (forall s, assigned_spec a = Some s -> s ∈ requested).
Proof.
  unfold cover_requested, assigned_spec.
  destruct (ResolvedAction.requested a); [destruct (ResolvedAction.requested_spec a) as [spec|] |].
  - intros E. apply bind_ok in E as ([] & Hp%reject_if_ok%negb_false_iff%bset_contains_spec & [= <-]).
    split.
    + intros s. rewrite cover_count. simpl. rewrite count_cons. unfold count. simpl.
      repeat case_decide; try done; lia.
    + by intros s [= <-].
  - simpl. destruct (_ && _); [| done]. intros [= <-]. split; [| done]. intros s. unfold count. simpl. lia.
  - intros [= <-]. split; [| done]. intros s. unfold count. simpl. lia.
Qed.

Lemma validate_resolved_fold intent requested names actions l st st' :
  fold_result (validate_resolved intent requested names actions) st l = Ok st' ->
  (forall s, covered_count st'.2 s =
     covered_count st.2 s + N.of_nat (count s (omap assigned_spec l))) /\
  Forall (action_ok intent names actions) l /\
  (forall s, s ∈ omap assigned_spec l -> s ∈ requested).
Proof.
  revert st. induction l as [|a l IH]; intros [ids covered]; cbn [fold_result].
  - intros [= <-]. split_and!; [| constructor | by intros ? ?%not_elem_of_nil].
    intros s. unfold count. simpl. lia.
  - intros E. apply bind_ok in E as (st1 & E1 & E). apply IH in E as (Hc & Hl & Hs).
    unfold validate_resolved in E1.
    apply bind_ok in E1 as ([] & H1%reject_if_ok & E1).
    apply bind_ok in E1 as ([] & H2%reject_if_ok & E1).
    apply bind_ok in E1 as ([] & H3%reject_if_ok & E1).
    apply bind_ok in E1 as ([] & H4%reject_if_ok & E1).
    apply bind_ok in E1 as (covered1 & H5%cover_requested_ok & E1).
    apply bind_ok in E1 as (u6 & H6 & E1). pose proof (validate_edges_ok _ _ _ H6) as H6'.
    apply bind_ok in E1 as (u7 & H7 & E1). pose proof (validate_provenance_ok _ _ _ H7) as H7'.
    apply bind_ok in E1 as ([] & H8%validate_kind_ok & E1). injection E1 as <-. cbn [fst snd] in *.
    destruct H5 as [Hc1 Hs1]. bool_inv. apply str_is_empty_false in H. apply dec_stable in H0.
    assert (Hom : omap assigned_spec (a :: l) = option_list (assigned_spec a) ++ omap assigned_spec l)
      by (simpl; by destruct (assigned_spec a)).
    rewrite Hom. split_and!.
    + intros s. rewrite Hc, Hc1, count_app. lia.
    + constructor; [| done]. unfold action_ok. split_and!; auto.
    + intros s [Hsa|?]%elem_of_app; [| by apply Hs].
      apply Hs1. destruct (assigned_spec a); simpl in Hsa; [| by apply not_elem_of_nil in Hsa].
      by apply list_elem_of_singleton in Hsa as ->.
Qed.

Lemma count_one_NoDup l : (forall s, s ∈ l -> count s l = 1%nat) -> NoDup l.
Proof.
  induction l as [|x l IH]; intros Hl; constructor.
  - intros Hx. specialize (Hl x (list_elem_of_here _ _)). rewrite count_cons, decide_True in Hl by done.
    assert (Hc : count x l = 0%nat) by lia. unfold count in Hc. apply nil_length_inv in Hc.
    rewrite filter_nil_iff in Hc. by apply (Hc x).
  - apply IH. intros s Hs. specialize (Hl s (list_elem_of_further _ _ _ Hs)).
    rewrite count_cons in Hl. case_decide as Hxs; [| done]. exfalso. subst.
    assert (Hc : count s l = 0%nat) by lia. unfold count in Hc. apply nil_length_inv in Hc.
    rewrite filter_nil_iff in Hc. by apply (Hc s).
Qed.

(** Inputs that pass: no two actions share a name and each has a cause that leads to a
    requested one; dependency parents exist and are other actions, obsoleting parents exist;
    the operations fit the intent; every selector of the intent is accounted for exactly
    once, by one action or one satisfied selector, and no other selector is; candidates come
    from bound repositories and their sizes do not exceed 16 TiB together. *)
Theorem validate_inputs_sound (b : PlanBuilder.t) (actions : list ResolvedAction.t)
    (satisfied : list PackageSpec.t) (Hok : validate_inputs b actions satisfied = Ok tt) :
  let intent := PlanBuilder.intent b in
  let names := ResolvedAction.name <$> actions in
  let assigned := (PackageSpec.as_str <$> satisfied) ++ omap assigned_spec actions in
  actions <> [] /\ N.of_nat (length actions) <= 100000 /\ NoDup names /\
  (forall a, a ∈ actions -> ReachFacts.caused actions (ResolvedAction.name a) /\
     action_ok (TransactionIntent.action intent) names actions a) /\
  NoDup assigned /\
  (forall s, s ∈ assigned <-> s ∈ PackageSpec.as_str <$> TransactionIntent.packages intent) /\
  (forall c, c ∈ PlanBuilder.candidates b -> exists r,
     r ∈ PlanIntegrity.selected_repositories (PlanBuilder.snapshots b) /\
     RepositoryBinding.id r = CandidatePackage.repo_id c) /\
  foldr N.add 0 (CandidatePackage.package_size <$> omap ResolvedAction.candidate actions)
    <= 17592186044416.
Proof.
  intros intent names assigned. unfold validate_inputs in Hok.
  apply bind_ok in Hok as ([] & H1%reject_if_ok%bool_decide_eq_false & Hok).
  apply bind_ok in Hok as ([] & H2%reject_if_ok%N.ltb_ge & Hok).
  apply bind_ok in Hok as ([] & H3%for_each_ok & Hok).
  apply bind_ok in Hok as ([] & _ & Hok).
  apply bind_ok in Hok as (total & H4%ok_or_ok & Hok).
  apply bind_ok in Hok as ([] & H5%reject_if_ok%N.ltb_ge & Hok).
  apply bind_ok in Hok as ([] & H6%reject_if_ok%negb_false_iff%Nat.eqb_eq & Hok).
  apply bind_ok in Hok as (covered & [Hc1 Hs1]%cover_satisfied_fold & Hok).
  apply bind_ok in Hok as (st & (Hc2 & Ha & Hs2)%validate_resolved_fold & Hok).
  apply bind_ok in Hok as ([] & H7%reject_if_ok & Hok).
  rewrite LimitFacts.checked_sum_exact in H4 by (unfold u64_max; lia).
  destruct (_ <=? u64_max); [| done]. injection H4 as <-. rewrite N.add_0_l in H5.
  rewrite <- (length_fmap ResolvedAction.name actions) in H6. apply length_bset_of_list_NoDup in H6.
  apply orb_false_iff in H7 as [H7 _]. rewrite existsb_false, Forall_forall in H7.
  assert (Hcount : forall s, covered_count st.2 s = N.of_nat (count s assigned)).
  { intros s. unfold assigned. rewrite Hc2, Hc1, count_app. unfold covered_count. simpl. lia. }
  assert (Hone : forall s, s ∈ PackageSpec.as_str <$> TransactionIntent.packages intent ->
    count s assigned = 1%nat).
  { intros s Hs. specialize (Hcount s). unfold covered_count in Hcount.
    specialize (H7 s (proj2 (elem_of_bset_of_list s _) Hs)).
    apply bool_decide_eq_false, dec_stable in H7. rewrite H7 in Hcount. simpl in Hcount. lia. }
  assert (Hsub : forall s, s ∈ assigned -> s ∈ PackageSpec.as_str <$> TransactionIntent.packages intent).
  { intros s [Hs|Hs]%elem_of_app; apply (elem_of_bset_of_list s).
    - apply list_elem_of_fmap in Hs as (p & -> & Hp). rewrite Forall_forall in Hs1. by apply Hs1.
    - by apply Hs2. }
  rewrite Forall_forall in Ha. split_and!; try done.
  - intros a Hin. split; [by apply ReachFacts.validate_reachable_ok |].
    destruct (Ha a Hin) as (? & ? & He & ? & ?). split_and!; try done.
    intros d Hd. destruct (He d Hd) as [? Hp]. split; [done |].
    exact (proj1 (elem_of_bset_of_list _ _) Hp).
  - apply count_one_NoDup. intros s Hs. by apply Hone, Hsub.
  - intros s. split; [apply Hsub |]. intros Hs%Hone.
    destruct (decide (s ∈ assigned)) as [|Hn]; [done |]. exfalso.
    assert (Hz : count s assigned = 0%nat); [| lia]. unfold count. apply length_zero_iff_nil.
    apply filter_nil_iff. by intros x Hx ->.
  - intros c Hc. rewrite Forall_forall in H3. specialize (H3 c Hc). simpl in H3.
    apply reject_if_ok, negb_false_iff, existsb_true in H3 as (r & Hr & E%bool_decide_eq_true).
    eauto.
Qed.
End InputFacts.

(** ** A concrete input *)

Module PreflightExamples.
Definition root_action : ResolvedAction.t :=
  ResolvedAction.mk ResolvedOperation.Install "zsh" true (Some (PackageSpec.mk "zsh")) false None
    None None None [] None [] [] false "rule".

Definition library_action : ResolvedAction.t :=
  ResolvedAction.mk ResolvedOperation.Install "ncurses" false None false None None None None
    [DependencyEdge.mk "zsh" DependencyKind.Strong] None [] [] false "rule".

Definition builder : PlanBuilder.t :=
  PlanBuilder.mk (TransactionIntent.mk 1 Action.Install [PackageSpec.mk "zsh"])
    PlanFacts.example_integrity InventoryFacts.witness_inventory PlanFacts.example_policy [] 100.

Lemma validate_reachable_spec_witness :
  ReachFacts.caused [root_action; library_action] "ncurses".
Proof.
  assert (Hn : NoDup (ResolvedAction.name <$> [root_action; library_action]))
    by (repeat constructor; set_solver).
  refine (proj1 (proj2 (ReachFacts.validate_reachable_spec _ Hn)) _ library_action _).
  - vm_compute. reflexivity.
  - apply list_elem_of_In. right. left. reflexivity.
Defined.

Lemma validate_inputs_sound_witness :
  ReachFacts.caused [library_action; root_action] "ncurses" /\
  ("zsh" ∈ ["zsh"] <-> "zsh" ∈ ["zsh"]).
Proof.
  assert (E : validate_inputs builder [library_action; root_action] [] = Ok tt)
    by (vm_compute; reflexivity).
  destruct (InputFacts.validate_inputs_sound _ _ _ E) as (_ & _ & _ & Ha & _ & Hs & _).
  split.
  - apply (Ha library_action). apply list_elem_of_In. left. reflexivity.
  - exact (Hs "zsh").
Defined.

Lemma execution_order_spec_witness :
  exists out, execution_order CycleBreaking.mutual CycleBreaking.mutual_actions = Ok out /\
    out ≡ₚ CycleBreaking.mutual_actions.
Proof.
  pose proof (OrderFacts.execution_order_spec CycleBreaking.mutual CycleBreaking.mutual_actions
    eq_refl) as H.
  destruct (execution_order CycleBreaking.mutual CycleBreaking.mutual_actions) as [out|e] eqn:E.
  - exists out. split; [reflexivity | exact (proj1 H)].
  - vm_compute in E. discriminate E.
Defined.
End PreflightExamples.
