(* ===== verification/SolverPlan.v ===== *)
(** * The explained plan ([dnfast-solver/src/plan.rs])

    [build_with_satisfied] turns checked solver actions into explained actions in execution
    order and into the plan of the core they propose; [CanonicalSolverPlan] is the document
    that carries both, and [require_equal] the comparison made after the root solves again. *)
From Stdlib Require Import Ascii.
From S2P Require Import Prelude.
From S2P Require Import RustStr.
From S2P Require Import Value.
From S2P Require Import Canonical.
From S2P Require Import Intent.
From S2P Require Import Policy.
From S2P Require Import Documents.
From S2P Require Import CorePlan.
From S2P Require Import Metadata.
From S2P Require Import SolverModel.
From S2P Require Import Preflight.

Local Open Scope N_scope.

(** ** Candidates *)

(** The epoch, version and release come first; then the lower priority and cost, the smaller
    repository name and location are the better ones. *)
Definition candidate_cmp (left right : CandidatePackage.t) : comparison :=
  let rest :=
    then_cmp (N.compare (CandidatePackage.priority right) (CandidatePackage.priority left))
      (then_cmp (N.compare (CandidatePackage.cost right) (CandidatePackage.cost left))
        (then_cmp (cmp (CandidatePackage.repo_id right) (CandidatePackage.repo_id left))
          (cmp (CandidatePackage.location right) (CandidatePackage.location left)))) in
  if bool_decide (CandidatePackage.evra left <> CandidatePackage.evra right) then
    if Evra.is_strictly_newer_than (CandidatePackage.evra left) (CandidatePackage.evra right) then Gt
    else if Evra.is_strictly_newer_than (CandidatePackage.evra right) (CandidatePackage.evra left) then Lt
    else rest
  else rest.

Definition unsafe_location (location : string) : bool :=
  starts_with (bytes "/") (bytes location)
  || contains (bytes "..") (bytes location)
  || contains (bytes "//") (bytes location)
  || contains [ascii_of_N 92] (bytes location)
  || existsb char_is_control (chars location).

(** The filters of [preferred]. *)
Definition comparable (candidate : CandidatePackage.t) (installed : option InstalledPackage.t)
    (installed_vendor : option string) (item : CandidatePackage.t) : Prop :=
  CandidatePackage.name item = CandidatePackage.name candidate /\
  CandidatePackage.excluded item = false /\
  match installed with
  | Some current => Evra.arch (CandidatePackage.evra item) = Evra.arch (InstalledPackage.evra current)
  | None => True
  end /\
  match installed_vendor with
  | Some vendor => CandidatePackage.vendor item = vendor
  | None => True
  end.

#[export] Instance comparable_dec candidate installed vendor item :
  Decision (comparable candidate installed vendor item).
Proof. unfold comparable. destruct installed, vendor; apply _. Defined.

Definition preferred (candidates : list CandidatePackage.t) (candidate : CandidatePackage.t)
    (installed : option InstalledPackage.t) (installed_vendor : option string) :
    option CandidatePackage.t :=
  max_by candidate_cmp (base.filter (comparable candidate installed installed_vendor) candidates).

Definition validate_candidate (b : PlanBuilder.t) (candidate : CandidatePackage.t)
    (installed : option InstalledPackage.t) (installed_vendor : option string)
    (enforce_preferred exact_requested_relation : bool) : planned unit :=
  _ ← reject_if
        (CandidatePackage.excluded candidate
         || SolverPolicy.is_excluded (PlanBuilder.policy b) (CandidatePackage.name candidate))
        (PlanError.Excluded (CandidatePackage.name candidate));
  _ ← reject_if (unsafe_location (CandidatePackage.location candidate))
        (PlanError.Invalid "unsafe artifact location");
  reject_if
    (enforce_preferred
     && bool_decide (preferred (PlanBuilder.candidates b) candidate installed installed_vendor
                       <> Some candidate)
     && negb exact_requested_relation)
    (PlanError.NonPreferred (CandidatePackage.name candidate)).

Definition digest (value : string) : planned string :=
  if (str_len value =? 64) && forallb is_ascii_hexdigit (bytes value)
  then Ok (to_ascii_lowercase value)
  else Err (PlanError.Invalid "invalid SHA-256 digest").

(** ** Explained actions *)

Definition protection (b : PlanBuilder.t) (name : string) : PlanProtection.t :=
  PlanProtection.mk (SolverPolicy.is_installonly (PlanBuilder.policy b) name)
    (SolverPolicy.is_protected (PlanBuilder.policy b) name)
    (SolverPolicy.is_running_kernel (PlanBuilder.policy b) name).

Definition requested_by (r : ResolvedAction.t) : option string :=
  match ResolvedAction.dependency_edges r with
  | edge :: _ => Some (DependencyEdge.parent edge)
  | [] => None
  end.

Definition unsafe (e : DomainError.t) : PlanError.t := PlanError.Unsafe (DomainError.to_string e).
Definition canonical (e : DomainError.t) : PlanError.t := PlanError.Canonical (DomainError.to_string e).

Definition intent_of (b : PlanBuilder.t) : Action.t :=
  TransactionIntent.action (PlanBuilder.intent b).

Definition remove (b : PlanBuilder.t) (r : ResolvedAction.t)
    (installed : option InstalledPackage.t) (relation : RequestedRelation.t) :
    planned ExplainedAction.t :=
  installed ← ok_or (PlanError.InstalledMissing (ResolvedAction.name r)) installed;
  _ ← reject_if (bool_decide (InstalledPackage.name installed <> ResolvedAction.name r))
        (PlanError.Invalid "installed package name mismatch");
  _ ← reject_if
        (bool_decide (ResolvedAction.required_by_remaining r <> [])
         || (bool_decide (relation <> RequestedRelation.Requested)
             && bool_decide (intent_of b <> Action.Autoremove)
             && negb (ResolvedAction.introduced_by_requested r)
             && negb (is_some (ResolvedAction.provenance r))))
        (PlanError.Unsafe ("reverse dependency requires " +:+ ResolvedAction.name r));
  _ ← map_err unsafe
        (SolverPolicy.validate_planned_removal (PlanBuilder.policy b) (ResolvedAction.name r)
           (RequestedRelation.reason relation));
  Ok {|
    ExplainedAction.operation := "remove";
    ExplainedAction.name := ResolvedAction.name r;
    ExplainedAction.target_evra := InstalledPackage.evra installed;
    ExplainedAction.installed_evra := Some (InstalledPackage.evra installed);
    ExplainedAction.installed_instance := Some (InstalledPackage.db_instance installed);
    ExplainedAction.installed_header_sha256 :=
      Some (Sha256Digest.as_str (InstalledPackage.immutable_header_sha256 installed));
    ExplainedAction.vendor := None;
    ExplainedAction.installed_vendor := ResolvedAction.installed_vendor r;
    ExplainedAction.repo_id := None;
    ExplainedAction.reason := RequestedRelation.reason relation;
    ExplainedAction.relation := relation;
    ExplainedAction.requested_by := requested_by r;
    ExplainedAction.dependency_edges := ResolvedAction.dependency_edges r;
    ExplainedAction.provenance := ResolvedAction.provenance r;
    ExplainedAction.package_size := 0;
    ExplainedAction.installed_size := 0;
    ExplainedAction.artifact := None;
    ExplainedAction.protection := protection b (ResolvedAction.name r);
    ExplainedAction.explanation := ResolvedAction.solver_rule r
  |}.

Definition operation_text (o : ResolvedOperation.t) : string :=
  match o with
  | ResolvedOperation.Install => "install"
  | ResolvedOperation.Upgrade => "upgrade"
  | ResolvedOperation.Downgrade => "downgrade"
  | ResolvedOperation.Reinstall => "reinstall"
  | ResolvedOperation.Remove => "remove"
  end.

(** The check of the policy for a replacement of [previous]. *)
Definition validate_replacement (policy : SolverPolicy.t) (o : ResolvedOperation.t)
    (previous candidate : Evra.t) (installed_vendor candidate_vendor : string) : domain unit :=
  match o with
  | ResolvedOperation.Upgrade =>
      SolverPolicy.validate_upgrade policy
        (CandidateAction.upgrade previous candidate installed_vendor candidate_vendor)
  | ResolvedOperation.Downgrade =>
      SolverPolicy.validate_downgrade policy
        (CandidateAction.downgrade previous candidate installed_vendor candidate_vendor)
  | ResolvedOperation.Reinstall =>
      SolverPolicy.validate_reinstall policy
        (CandidateAction.reinstall previous candidate installed_vendor candidate_vendor)
  | _ => Ok tt
  end.

Definition install_or_upgrade (b : PlanBuilder.t) (r : ResolvedAction.t)
    (installed : option InstalledPackage.t) (relation : RequestedRelation.t) :
    planned ExplainedAction.t :=
  candidate ← ok_or (PlanError.Invalid "missing candidate") (ResolvedAction.candidate r);
  _ ← validate_candidate b candidate installed (ResolvedAction.installed_vendor r)
        (ResolvedAction.requested r)
        (ResolvedAction.requested r && is_some (ResolvedAction.requested_spec r)
         && ResolvedAction.requested_relation r);
  _ ← reject_if (bool_decide (CandidatePackage.name candidate <> ResolvedAction.name r))
        (PlanError.Invalid "candidate name mismatch");
  _ ← (if is_replacement r then
         previous ← ok_or (PlanError.InstalledMissing (ResolvedAction.name r)) installed;
         installed_vendor ← ok_or (PlanError.Invalid "missing installed vendor")
           (ResolvedAction.installed_vendor r);
         map_err unsafe
           (validate_replacement (PlanBuilder.policy b) (ResolvedAction.operation r)
              (InstalledPackage.evra previous) (CandidatePackage.evra candidate)
              installed_vendor (CandidatePackage.vendor candidate))
       else
         reject_if (is_some installed) (PlanError.Invalid "install action already installed"));
  checksum ← digest (CandidatePackage.checksum_sha256 candidate);
  Ok {|
    ExplainedAction.operation := operation_text (ResolvedAction.operation r);
    ExplainedAction.name := ResolvedAction.name r;
    ExplainedAction.target_evra := CandidatePackage.evra candidate;
    ExplainedAction.installed_evra := InstalledPackage.evra <$> installed;
    ExplainedAction.installed_instance := InstalledPackage.db_instance <$> installed;
    ExplainedAction.installed_header_sha256 :=
      (fun item => Sha256Digest.as_str (InstalledPackage.immutable_header_sha256 item)) <$> installed;
    ExplainedAction.installed_vendor := ResolvedAction.installed_vendor r;
    ExplainedAction.vendor := Some (CandidatePackage.vendor candidate);
    ExplainedAction.repo_id := Some (CandidatePackage.repo_id candidate);
    ExplainedAction.reason := RequestedRelation.reason relation;
    ExplainedAction.relation := relation;
    ExplainedAction.requested_by := requested_by r;
    ExplainedAction.dependency_edges := ResolvedAction.dependency_edges r;
    ExplainedAction.provenance := ResolvedAction.provenance r;
    ExplainedAction.package_size := CandidatePackage.package_size candidate;
    ExplainedAction.installed_size := CandidatePackage.installed_size candidate;
    ExplainedAction.artifact :=
      Some (ArtifactRecord.mk checksum (CandidatePackage.location candidate)
              (CandidatePackage.package_size candidate));
    ExplainedAction.protection := protection b (ResolvedAction.name r);
    ExplainedAction.explanation := ResolvedAction.solver_rule r
  |}.

Definition relation_of (b : PlanBuilder.t) (r : ResolvedAction.t) : RequestedRelation.t :=
  if bool_decide (intent_of b = Action.Autoremove) then RequestedRelation.Dependency
  else if ResolvedAction.requested r then RequestedRelation.Requested
  else if is_some (ResolvedAction.provenance r) then RequestedRelation.Dependency
  else if forallb (fun edge => bool_decide (DependencyEdge.kind edge = DependencyKind.Weak))
            (ResolvedAction.dependency_edges r)
  then RequestedRelation.WeakDependency
  else RequestedRelation.Dependency.

(** [self.inventory.packages().iter().find(..)]. *)
Definition find_installed (b : PlanBuilder.t) (instance : N) : option InstalledPackage.t :=
  List.find (fun item => InstalledPackage.db_instance item =? instance)
    (InstalledInventory.packages (PlanBuilder.inventory b)).

Definition action (b : PlanBuilder.t) (r : ResolvedAction.t) : planned ExplainedAction.t :=
  _ ← reject_if (str_is_empty (ResolvedAction.solver_rule r))
        (PlanError.Invalid "missing solver explanation");
  installed ←
    match ResolvedAction.installed_instance r with
    | Some instance =>
        Some <$> ok_or (PlanError.InstalledMissing (ResolvedAction.name r)) (find_installed b instance)
    | None => Ok None
    end;
  match ResolvedAction.operation r with
  | ResolvedOperation.Remove => remove b r installed (relation_of b r)
  | _ => install_or_upgrade b r installed (relation_of b r)
  end.

(** ** The plan of the core *)

Definition replacement_action
    (build : string -> Evra.t -> Evra.t -> string -> string -> string -> PackageReason.t -> N ->
       string -> domain PackageAction.t)
    (a : ExplainedAction.t) : planned PackageAction.t :=
  installed ← ok_or (PlanError.Invalid "missing installed EVRA") (ExplainedAction.installed_evra a);
  repo ← ok_or (PlanError.Invalid "missing repo") (ExplainedAction.repo_id a);
  installed_vendor ← ok_or (PlanError.Invalid "missing installed vendor")
    (ExplainedAction.installed_vendor a);
  vendor ← ok_or (PlanError.Invalid "missing candidate vendor") (ExplainedAction.vendor a);
  instance ← ok_or (PlanError.Invalid "missing installed instance")
    (ExplainedAction.installed_instance a);
  header ← ok_or (PlanError.Invalid "missing installed header")
    (ExplainedAction.installed_header_sha256 a);
  map_err canonical
    (build (ExplainedAction.name a) installed (ExplainedAction.target_evra a) repo installed_vendor
       vendor (ExplainedAction.reason a) instance header).

Definition removal_action (a : ExplainedAction.t) : planned PackageAction.t :=
  installed_vendor ← ok_or (PlanError.Invalid "missing installed vendor")
    (ExplainedAction.installed_vendor a);
  instance ← ok_or (PlanError.Invalid "missing installed instance")
    (ExplainedAction.installed_instance a);
  header ← ok_or (PlanError.Invalid "missing installed header")
    (ExplainedAction.installed_header_sha256 a);
  map_err canonical
    match ExplainedAction.provenance a with
    | Some (SolverProvenance.ObsoletedBy parent) =>
        PackageAction.remove_obsoleted_with_identity (ExplainedAction.name a)
          (ExplainedAction.target_evra a) installed_vendor (ExplainedAction.reason a) instance
          header parent
    | None =>
        PackageAction.remove_with_identity (ExplainedAction.name a)
          (ExplainedAction.target_evra a) installed_vendor (ExplainedAction.reason a) instance header
    end.

Definition core_action (a : ExplainedAction.t) : planned PackageAction.t :=
  let operation := ExplainedAction.operation a in
  if bool_decide (operation = "install") then
    repo ← ok_or (PlanError.Invalid "missing repo") (ExplainedAction.repo_id a);
    vendor ← ok_or (PlanError.Invalid "missing vendor") (ExplainedAction.vendor a);
    Ok (PackageAction.install_with_vendor (ExplainedAction.name a) (ExplainedAction.target_evra a)
          repo vendor (ExplainedAction.reason a))
  else if bool_decide (operation = "upgrade") then
    replacement_action PackageAction.upgrade_with_identity a
  else if bool_decide (operation = "downgrade") then
    replacement_action PackageAction.downgrade_with_identity a
  else if bool_decide (operation = "reinstall") then
    replacement_action PackageAction.reinstall_with_identity a
  else if bool_decide (operation = "remove") then removal_action a
  else Err (PlanError.Invalid "unknown operation").

Module CanonicalSolverPlan.
Record t : Type := mk {
  schema : string;
  proposal : PlanEnvelope.t;
  actions : list ExplainedAction.t
}.

#[global] Instance canonical_solver_plan_eq_dec : EqDecision t.
Proof. solve_decision. Defined.

(** [serde_json] on the plans and [serde_json::to_value] of an action of the core. *)
Class PlanSerde := {
  proposal_serde :: SerdeJson PlanEnvelope.t;
  plan_raw : SerdeJson t;
  json_value : Type;
  json_value_eq_dec :: EqDecision json_value;
  to_value : PackageAction.t -> result string json_value;
  value_to_string : json_value -> string
}.

Section plan.
Context `{PlanSerde}.

Definition value_of (a : PackageAction.t) : planned json_value :=
  map_err PlanError.Canonical (to_value a).

Definition sort_values : list json_value -> list json_value :=
  sort_by (fun l r => cmp (value_to_string l) (value_to_string r)).

Definition validate (p : t) : planned unit :=
  _ ← reject_if (bool_decide (schema p <> "dnfast.explained-plan.v1")) (PlanError.Invalid "schema");
  _ ← map_err canonical (@to_canonical_json _ (PlanEnvelope.plan_document proposal_serde) (proposal p));
  _ ← reject_if (negb (Nat.eqb (length (PlanEnvelope.actions (proposal p))) (length (actions p))))
        (PlanError.Invalid "proposal action mismatch");
  left ← mapM value_of (PlanEnvelope.actions (proposal p));
  right ← mapM (fun a => core_action a ≫= value_of) (actions p);
  _ ← reject_if (bool_decide (sort_values left <> sort_values right))
        (PlanError.Invalid "proposal action mismatch");
  Ok tt.

(** The versions of an explained action go through their own [Deserialize]. *)
Definition deserialize_action (a : ExplainedAction.t) : result string unit :=
  _ ← map_err DomainError.to_string (Evra.validate (ExplainedAction.target_evra a));
  match ExplainedAction.installed_evra a with
  | Some installed => map_err DomainError.to_string (Evra.validate installed)
  | None => Ok tt
  end.

(** [Deserialize], from the fields of [RawPlan]. *)
Definition deserialize (raw : t) : result string t :=
  _ ← PlanEnvelope.deserialize (proposal raw);
  _ ← for_each deserialize_action (actions raw);
  _ ← map_err PlanError.to_string (validate raw);
  Ok raw.

Definition canonical_json (p : t) : planned (list byte) :=
  _ ← validate p;
  map_err PlanError.Canonical (@to_vec _ plan_raw p).

Definition sha256_digest (sha256_hex : list byte -> string) (p : t) : planned string :=
  sha256_hex <$> canonical_json p.

Definition from_canonical_json (document : list byte) (now_unix : N) : planned t :=
  _ ← reject_if (16 * 1024 * 1024 <? N.of_nat (length document))
        (PlanError.Invalid "plan exceeds 16 MiB");
  value ← map_err PlanError.Canonical (@from_slice _ (checked_serde plan_raw deserialize) document);
  json ← canonical_json value;
  _ ← reject_if (bool_decide (json <> document)) (PlanError.Canonical "non-canonical JSON");
  _ ← map_err canonical (PlanEnvelope.validate_now (proposal value) now_unix);
  Ok value.

(** [ReSolveContract::require_equal]. *)
Definition require_equal (proposed root : t) : planned unit :=
  left ← canonical_json proposed;
  right ← canonical_json root;
  if bool_decide (left = right) then Ok tt else Err PlanError.ReSolveMismatch.

(** *** Building *)

Definition build_with_satisfied (b : PlanBuilder.t) (resolved : list ResolvedAction.t)
    (satisfied_specs : list PackageSpec.t) : planned t :=
  _ ← map_err unsafe (SolverPolicy.ensure_supported (PlanBuilder.policy b));
  _ ← validate_inputs b resolved satisfied_specs;
  actions ← mapM (action b) resolved;
  actions ← execution_order resolved actions;
  core_actions ← mapM core_action actions;
  proposal ← map_err canonical
    (PlanEnvelope.new (PlanBuilder.intent b) (PlanBuilder.snapshots b)
       (PlanBuilder.expires_at_unix b) core_actions);
  _ ← map_err unsafe (PlanEnvelope.validate_executable proposal (PlanBuilder.policy b) 0);
  let plan := mk "dnfast.explained-plan.v1" proposal actions in
  _ ← validate plan;
  Ok plan.

Definition build (b : PlanBuilder.t) (resolved : list ResolvedAction.t) : planned t :=
  build_with_satisfied b resolved [].
End plan.
End CanonicalSolverPlan.

(** ** Candidate selection *)

Module CandidateFacts.
(** The rank behind the version: smaller is better, so it is compared the other way round. *)
Definition rank (c : CandidatePackage.t) :=
  (CandidatePackage.priority c, (CandidatePackage.cost c,
    (CandidatePackage.repo_id c, CandidatePackage.location c))).

Lemma candidate_cmp_spec l r :
  candidate_cmp l r =
  then_cmp (Evra.evr_cmp (CandidatePackage.evra l) (CandidatePackage.evra r)) (cmp (rank r) (rank l)).
Proof.
  pose proof EvraFacts.evr_cmp_preorder as P.
  unfold candidate_cmp. change (then_cmp (N.compare (CandidatePackage.priority r) _) _)
    with (cmp (rank r) (rank l)).
  case_bool_decide as He.
  - rewrite !EvraFacts.newer_evr_cmp.
    rewrite (cp_flip _ P (CandidatePackage.evra l) (CandidatePackage.evra r)).
    by destruct (Evra.evr_cmp (CandidatePackage.evra l) (CandidatePackage.evra r)).
  - by rewrite He, (cp_refl P).
Qed.

Lemma candidate_cmp_preorder : cmp_preorder candidate_cmp.
Proof.
  apply (cp_ext (fun l r => then_cmp (Evra.evr_cmp (CandidatePackage.evra l) (CandidatePackage.evra r))
    (cmp (rank r) (rank l)))); [intros; symmetry; apply candidate_cmp_spec |].
  apply cp_then.
  - apply (cp_on CandidatePackage.evra), EvraFacts.evr_cmp_preorder.
  - apply (cp_rev (fun l r => cmp (rank l) (rank r))), (cp_on rank), cmp_is_preorder.
Qed.

Lemma validate_candidate_ok b c installed vendor enforce exact u :
  validate_candidate b c installed vendor enforce exact = Ok u ->
  CandidatePackage.excluded c = false /\
  SolverPolicy.is_excluded (PlanBuilder.policy b) (CandidatePackage.name c) = false /\
  unsafe_location (CandidatePackage.location c) = false /\
  (enforce = true -> exact = false ->
   preferred (PlanBuilder.candidates b) c installed vendor = Some c).
Proof.
  unfold validate_candidate. intros E. result_inv. bool_inv. split_and!; try done.
  intros -> ->. simpl in E. rewrite andb_true_r in E. apply bool_decide_eq_false in E.
  by apply dec_stable.
Qed.

(** A candidate that passes as a preferred one is among the candidates, its version is at
    least that of every comparable candidate (same name, not excluded, same architecture and
    vendor as the installed package), and among the comparable ones of that version none has
    a better priority, cost, repository or location; it is not excluded and its location
    neither is absolute nor climbs out of the repository. *)
Theorem preferred_candidate (b : PlanBuilder.t) (c : CandidatePackage.t)
    (installed : option InstalledPackage.t) (vendor : option string)
    (Hok : validate_candidate b c installed vendor true false = Ok tt) :
  c ∈ PlanBuilder.candidates b /\ comparable c installed vendor c /\
  (forall d, d ∈ PlanBuilder.candidates b -> comparable c installed vendor d ->
     Evra.evr_cmp (CandidatePackage.evra d) (CandidatePackage.evra c) <> Gt /\
     (Evra.evr_cmp (CandidatePackage.evra d) (CandidatePackage.evra c) = Eq ->
      cmp (rank c) (rank d) <> Gt)) /\
  SolverPolicy.is_excluded (PlanBuilder.policy b) (CandidatePackage.name c) = false /\
  (forall p q, CandidatePackage.location c <> p +:+ ".." +:+ q) /\
  (forall q, CandidatePackage.location c <> "/" +:+ q).
Proof.
  apply validate_candidate_ok in Hok as (Hx & Hex & Hloc & Hpref).
  specialize (Hpref eq_refl eq_refl). unfold preferred in Hpref.
  apply (max_by_spec candidate_cmp_preorder) in Hpref as [Hin Hmax].
  apply list_elem_of_filter in Hin as [Hcomp Hin].
  unfold unsafe_location in Hloc. bool_inv.
  assert (Hdots : contains (bytes "..") (bytes (CandidatePackage.location c)) = false) by done.
  assert (Hroot : starts_with (bytes "/") (bytes (CandidatePackage.location c)) = false) by done.
  split_and!; try done.
  - intros d Hd Hcd. specialize (Hmax d). rewrite candidate_cmp_spec in Hmax.
    assert (Hm : d ∈ base.filter (comparable c installed vendor) (PlanBuilder.candidates b))
      by (by apply list_elem_of_filter).
    specialize (Hmax Hm). destruct (Evra.evr_cmp _ _); simpl in Hmax; naive_solver.
  - intros p q E. apply not_true_iff_false in Hdots. apply Hdots, contains_spec.
    exists (bytes p), (bytes q). rewrite E, !bytes_app. done.
  - intros q E. apply not_true_iff_false in Hroot. apply Hroot, starts_with_spec.
    exists (bytes q). rewrite E, bytes_app. done.
Qed.

Definition example_candidate (version repo : string) (priority : N) : CandidatePackage.t :=
  CandidatePackage.mk "zsh" (Evra.mk 0 version "1" Architecture.X86_64) "Fedora" repo priority 1000
    10 20 "aaaaaaaaaaaaaaaaaaaaaaaaaaaaaaaaaaaaaaaaaaaaaaaaaaaaaaaaaaaaaaaa" "Packages/zsh.rpm" false false.

Definition example_builder : PlanBuilder.t :=
  PlanBuilder.mk (TransactionIntent.mk 1 Action.Install [PackageSpec.mk "zsh"])
    PlanFacts.example_integrity InventoryFacts.witness_inventory PlanFacts.example_policy
    [example_candidate "1" "fedora" 10; example_candidate "2" "fedora" 99] 100.

Lemma preferred_candidate_witness :
  example_candidate "2" "fedora" 99 ∈ PlanBuilder.candidates example_builder.
Proof.
  apply (preferred_candidate example_builder (example_candidate "2" "fedora" 99) None None).
  vm_compute. reflexivity.
Defined.
End CandidateFacts.

(** ** Plans *)

Module BuildFacts.
Import CanonicalSolverPlan.

Lemma action_name b r e : action b r = Ok e -> ExplainedAction.name e = ResolvedAction.name r.
Proof.
  unfold action. intros E. result_inv.
  destruct (ResolvedAction.operation r); unfold install_or_upgrade, remove in *; result_inv; done.
Qed.

Lemma mapM_names b resolved actions :
  mapM (action b) resolved = Ok actions ->
  OrderFacts.names_of actions = ResolvedAction.name <$> resolved.
Proof.
  intros Hm%mapM_ok. unfold OrderFacts.names_of.
  induction Hm as [|r e rs es He _ IH]; csimpl; [done |]. f_equal; [by apply action_name in He | done].
Qed.

(** The core action of an explained one carries its name, target and reason. *)
Lemma core_action_name e c :
  core_action e = Ok c ->
  PackageAction.name c = ExplainedAction.name e /\
  PackageAction.target_evra c = ExplainedAction.target_evra e /\
  PackageAction.reason c = ExplainedAction.reason e.
Proof.
  unfold core_action, replacement_action, removal_action, PackageAction.upgrade_with_identity,
    PackageAction.downgrade_with_identity, PackageAction.reinstall_with_identity,
    PackageAction.remove_with_identity, PackageAction.remove_obsoleted_with_identity.
  repeat case_bool_decide; intros E; result_inv; try done.
  destruct (ExplainedAction.provenance e) as [[]|]; result_inv; done.
Qed.

Lemma action_reason b r e :
  action b r = Ok e -> ExplainedAction.reason e = RequestedRelation.reason (relation_of b r).
Proof.
  unfold action. intros E. result_inv.
  destruct (ResolvedAction.operation r); unfold install_or_upgrade, remove in *; result_inv; done.
Qed.

(** C12: a plan that is built proposes exactly the explained actions, and explains every
    resolved action once: in an order that respects every edge whose target lies on no cycle,
    with the reason its relation to the request gives it; the inputs were valid, and the
    proposal is the plan of the given intent, valid and executable under the policy. *)
Theorem build_sound `{PlanSerde} (b : PlanBuilder.t) (resolved : list ResolvedAction.t)
    (satisfied : list PackageSpec.t) (p : t)
    (Hbuild : build_with_satisfied b resolved satisfied = Ok p) :
  validate_inputs b resolved satisfied = Ok tt /\
  PlanEnvelope.intent (proposal p) = PlanBuilder.intent b /\
  PlanEnvelope.validate_executable (proposal p) (PlanBuilder.policy b) 0 = Ok tt /\
  (exists explained, Forall2 (fun r e => action b r = Ok e) resolved explained /\
     actions p ≡ₚ explained) /\
  (exists core, Forall2 (fun e c => core_action e = Ok c) (actions p) core /\
     PlanEnvelope.actions (proposal p) ≡ₚ core) /\
  (forall u v, OrderFacts.edge_rel resolved u v ->
     OrderFacts.before u v (OrderFacts.names_of (actions p)) \/
     tc (OrderFacts.edge_rel resolved) v v) /\
  (forall c, c ∈ PlanEnvelope.actions (proposal p) -> exists r, r ∈ resolved /\
     PackageAction.name c = ResolvedAction.name r /\
     PackageAction.reason c = RequestedRelation.reason (relation_of b r)).
Proof.
  unfold build_with_satisfied in Hbuild.
  apply bind_ok in Hbuild as (? & _ & E). apply bind_ok in E as ([] & Hin & E).
  apply bind_ok in E as (explained & Hexp & E). apply bind_ok in E as (ordered & Hord & E).
  apply bind_ok in E as (core & Hcore%mapM_ok & E).
  apply bind_ok in E as (prop & Hprop%map_err_ok & E).
  apply bind_ok in E as ([] & Hexec%map_err_ok & E). apply bind_ok in E as (? & _ & [= <-]). simpl.
  pose proof (mapM_names _ _ _ Hexp) as Hnames. apply mapM_ok in Hexp.
  pose proof (OrderFacts.execution_order_ok resolved explained ordered Hnames Hord) as (Hperm & _ & Hedges).
  unfold PlanEnvelope.new in Hprop. apply bind_ok in Hprop as (? & _ & Hprop). simpl in Hprop.
  apply bind_ok in Hprop as (sorted & Hs & [= <-]).
  apply PlanFacts.canonical_actions_ok in Hs as (_ & _ & _ & ->). simpl.
  assert (Hp : sort core ≡ₚ core) by apply sort_by_perm.
  split_and!; eauto. intros c Hc. unfold sort in Hc. rewrite Hp in Hc.
  apply list_elem_of_lookup in Hc as (i & Hc).
  destruct (Forall2_lookup_r _ _ _ _ _ Hcore Hc) as (e & He & Hec).
  apply list_elem_of_lookup_2 in He. rewrite Hperm in He.
  apply list_elem_of_lookup in He as (j & He).
  destruct (Forall2_lookup_r _ _ _ _ _ Hexp He) as (r & Hr & Hre).
  exists r. split; [by eapply list_elem_of_lookup_2 |].
  apply core_action_name in Hec as (-> & _ & ->).
  split; [by eapply action_name | by eapply action_reason].
Qed.

(** ** The document *)

(** What the types of the fields keep by construction. *)
Definition plan_fields_valid (p : t) : Prop :=
  PlanFacts.fields_valid (proposal p) /\
  Forall (fun a => deserialize_action a = Ok tt) (actions p).

Lemma validate_proposal `{PlanSerde} p u :
  validate p = Ok u -> PlanEnvelope.validate_now (proposal p) 0 = Ok tt.
Proof.
  unfold validate. intros E. apply bind_ok in E as (? & _ & E).
  apply bind_ok in E as (? & Ht%map_err_ok & _). simpl in Ht. by apply bind_ok in Ht as ([] & ? & _).
Qed.

Lemma solver_deserialize_valid `{PlanSerde} p :
  plan_fields_valid p -> validate p = Ok tt -> deserialize p = Ok p.
Proof.
  intros [Hp Ha] Hv. unfold deserialize.
  rewrite (PlanFacts.plan_deserialize_wf _ Hp (validate_proposal p tt Hv)). simpl.
  rewrite (proj2 (for_each_ok _ _ tt) Ha). simpl. by rewrite Hv.
Qed.

Lemma canonical_json_ok `{PlanSerde} p d :
  canonical_json p = Ok d <-> validate p = Ok tt /\ @to_vec _ plan_raw p = Ok d.
Proof.
  unfold canonical_json. destruct (validate p) as [[]|]; simpl; [| naive_solver].
  rewrite map_err_ok. naive_solver.
Qed.

(** The text of an explained plan of at most 16 MiB is read back as the plan exactly until
    the proposal expires; only the canonical text of a plan is ever read; and the comparison
    after the second solve accepts exactly equal plans. *)
Theorem solver_plan_roundtrip `{PlanSerde} (Hraw : @SerdeJsonLaws t plan_raw (fun _ => True))
    (p q : t) (d : list byte) (now : N)
    (Hp : plan_fields_valid p) (Hd : N.of_nat (length d) <= 16777216) :
  (canonical_json p = Ok d ->
     (from_canonical_json d now = Ok p <-> now <= PlanEnvelope.expires_at_unix (proposal p))) /\
  (from_canonical_json d now = Ok p -> canonical_json p = Ok d) /\
  (require_equal p q = Ok tt -> p = q) /\
  (canonical_json p = Ok d -> require_equal p p = Ok tt).
Proof.
  assert (Hexp : forall p, PlanEnvelope.validate_now (proposal p) 0 = Ok tt ->
    PlanEnvelope.validate_now (proposal p) now = Ok tt <-> now <= PlanEnvelope.expires_at_unix (proposal p)).
  { intros r Hr%PlanFacts.validate_now_ok. rewrite PlanFacts.validate_now_ok.
    destruct Hr as (? & ? & ? & ? & ? & ? & ?). unfold PlanFacts.now_wf.
    split; [tauto | intros; by split_and!]. }
  split_and!.
  - intros Hj. pose proof Hj as [Hv Ht]%canonical_json_ok.
    rewrite <- Hexp by (by eapply validate_proposal). unfold from_canonical_json.
    change (16 * 1024 * 1024) with 16777216. rewrite (proj2 (N.ltb_ge _ _) Hd). simpl.
    rewrite (@from_slice_to_vec _ plan_raw _ Hraw p d I Ht). simpl.
    rewrite (solver_deserialize_valid p Hp Hv). simpl. rewrite Hj. simpl.
    rewrite bool_decide_eq_false_2 by auto. simpl.
    destruct (PlanEnvelope.validate_now (proposal p) now) as [[]|]; simpl; naive_solver.
  - unfold from_canonical_json. intros E. result_inv. bool_inv. by apply dec_stable in H3 as ->.
  - unfold require_equal. intros E.
    apply bind_ok in E as (l & [_ Hl]%canonical_json_ok & E).
    apply bind_ok in E as (r & [_ Hr]%canonical_json_ok & E). case_bool_decide as Hlr; [| done].
    subst. apply (@from_slice_to_vec _ plan_raw _ Hraw) in Hl; [| done].
    apply (@from_slice_to_vec _ plan_raw _ Hraw) in Hr; [| done]. congruence.
  - intros Hj. unfold require_equal. rewrite Hj. simpl. by rewrite bool_decide_eq_true_2.
Qed.

(** ** A concrete plan *)

Definition requested_zsh : ResolvedAction.t :=
  ResolvedAction.mk ResolvedOperation.Install "zsh" true (Some (PackageSpec.mk "zsh")) false
    (Some (CandidateFacts.example_candidate "2" "fedora" 99)) None None None [] None [] [] false "rule".

Definition explained_zsh : ExplainedAction.t :=
  ExplainedAction.mk "install" "zsh" (Evra.mk 0 "2" "1" Architecture.X86_64) None None None None
    (Some "Fedora") (Some "fedora") PackageReason.User RequestedRelation.Requested None [] None 10 20
    (Some (ArtifactRecord.mk "aaaaaaaaaaaaaaaaaaaaaaaaaaaaaaaaaaaaaaaaaaaaaaaaaaaaaaaaaaaaaaaa"
      "Packages/zsh.rpm" 10)) (PlanProtection.mk false false false) "rule".

Definition zsh_proposal : PlanEnvelope.t :=
  PlanEnvelope.mk 2 "/" (TransactionIntent.mk 1 Action.Install [PackageSpec.mk "zsh"])
    PlanFacts.example_digest PlanFacts.example_digest PlanFacts.example_digest
    PlanFacts.example_digest PlanFacts.example_digest [PlanFacts.example_binding] 100
    [PackageAction.install_with_vendor "zsh" (Evra.mk 0 "2" "1" Architecture.X86_64) "fedora" "Fedora"
       PackageReason.User].

Definition zsh_plan : t := mk "dnfast.explained-plan.v1" zsh_proposal [explained_zsh].

Definition example_serde : PlanSerde := {|
  proposal_serde := OneCodec.one_codec zsh_proposal (bytes "proposal");
  plan_raw := OneCodec.one_codec zsh_plan (bytes "plan");
  json_value := PackageAction.t;
  to_value := Ok;
  value_to_string := PackageAction.name
|}.

Lemma build_sound_witness :
  PlanEnvelope.validate_executable zsh_proposal PlanFacts.example_policy 0 = Ok tt.
Proof.
  refine (proj1 (proj2 (proj2 (@build_sound example_serde CandidateFacts.example_builder
    [requested_zsh] [] zsh_plan _)))).
  vm_compute. reflexivity.
Defined.

Lemma solver_plan_roundtrip_witness :
  @from_canonical_json example_serde (bytes "plan") 50 = Ok zsh_plan.
Proof.
  assert (Hp : plan_fields_valid zsh_plan).
  { split; [split; [| split] |].
    - apply (IntentFacts.intent_validate_ok _ tt). vm_compute. reflexivity.
    - repeat constructor; done.
    - repeat constructor; intros e He; simpl in He; simplify_eq.
    - repeat constructor. }
  apply (@solver_plan_roundtrip example_serde (OneCodec.one_codec_laws _ _ _) zsh_plan zsh_plan
    (bytes "plan") 50 Hp); vm_compute; [discriminate | reflexivity | discriminate].
Defined.
End BuildFacts.
