(* ===== verification/NativeAdapter.v ===== *)
(** * From the native solver to resolved actions ([dnfast-solver/src/native_adapter.rs])

    libsolv answers with parallel columns and typed decisions.  [from_native_evidence] pairs
    new and old packages and ties every decision to the rpm-md evidence;
    [into_resolved_evidence] checks the selectors and turns actions into resolved actions. *)
From Stdlib Require Import Ascii.
From S2P Require Import Prelude.
From S2P Require Import RustStr.
From S2P Require Import Value.
From S2P Require Import Intent.
From S2P Require Import Documents.
From S2P Require Import Metadata.
From S2P Require Import SolverModel.

Local Open Scope N_scope.

(** What [dnfast-native] returns. *)
Module SolveDecision.
Record t : Type := mk {
  requiring : string;
  provider : string;
  relation : string;
  weak : bool;
  provider_installed : bool
}.
End SolveDecision.

Module SolveResult.
Record t : Type := mk {
  actions : list string;
  repositories : list string;
  kinds : list string;
  obsoletes : list (option string);
  requested_specs : list (option string);
  requested_relation_kinds : list bool;
  satisfied_specs : list string;
  problems : list string;
  decisions : list SolveDecision.t
}.
End SolveResult.

(** ** Evidence *)

Definition nevra_text (name epoch version release arch : string) : string :=
  name +:+ "-" +:+ epoch +:+ ":" +:+ version +:+ "-" +:+ release +:+ "." +:+ arch.

Module PackageEvidence.
Inductive t : Type :=
  | Complete (package : CompletePackage.t)
  | Compact (package : NativePackageEvidence.t).

Definition nevra (e : t) : string :=
  match e with
  | Complete p => nevra_text (CompletePackage.name p) (CompletePackage.epoch p)
      (CompletePackage.version p) (CompletePackage.release p) (CompletePackage.arch p)
  | Compact p => nevra_text (NativePackageEvidence.name p) (NativePackageEvidence.epoch p)
      (NativePackageEvidence.version p) (NativePackageEvidence.release p)
      (NativePackageEvidence.arch p)
  end.

(** [RelationEvidenceRef]. *)
Definition relations : Type := list Relation.t + list string.

Definition requires (e : t) : relations :=
  match e with
  | Complete p => inl (CompletePackage.requires p)
  | Compact p => inr (NativePackageEvidence.requires p)
  end.

Definition recommends (e : t) : relations :=
  match e with
  | Complete p => inl (CompletePackage.recommends p)
  | Compact p => inr (NativePackageEvidence.recommends p)
  end.

Definition supplements (e : t) : relations :=
  match e with
  | Complete p => inl (CompletePackage.supplements p)
  | Compact p => inr (NativePackageEvidence.supplements p)
  end.

Definition enhances (e : t) : relations :=
  match e with
  | Complete p => inl (CompletePackage.enhances p)
  | Compact p => inr (NativePackageEvidence.enhances p)
  end.
End PackageEvidence.

(** [HashMap<repository, HashMap<nevra, package>>]: of equal keys the last one stays. *)
Definition evidence_index : Type := list (string * PackageEvidence.t).

Definition index_get (metadata : evidence_index) (repository nevra : string) :
    option PackageEvidence.t :=
  snd <$> List.find (fun entry =>
    bool_decide (entry.1 = repository) && bool_decide (PackageEvidence.nevra entry.2 = nevra))
    (rev metadata).

(** ** Relations *)

Definition relation_text : Relation.t -> string := compact_relation.

(** The table of separators, in the order they are tried. *)
Definition operators : list (string * RelationFlags.t) :=
  [(" <= ", RelationFlags.LessEqual); (" >= ", RelationFlags.GreaterEqual);
   (" = ", RelationFlags.Equal); (" < ", RelationFlags.Less); (" > ", RelationFlags.Greater)].

Fixpoint find_operator (ops : list (string * RelationFlags.t)) (value : string) :
    option (string * string * RelationFlags.t) :=
  match ops with
  | [] => None
  | (separator, flags) :: ops =>
      match str_split_once separator value with
      | Some (name, evr) => Some (name, evr, flags)
      | None => find_operator ops value
      end
  end.

(** The relation of a version, split at its last dash. *)
Definition version_relation (name : string) (flags : RelationFlags.t) (epoch : option string)
    (version_release : string) : Relation.t :=
  match str_rsplit_once "-"%char version_release with
  | Some (version, release) => Relation.mk name (Some flags) epoch (Some version) (Some release) false
  | None => Relation.mk name (Some flags) epoch (Some version_release) None false
  end.

Definition parse_compact_relation (value : string) : planned Relation.t :=
  match find_operator operators value with
  | None =>
      if str_is_empty value then Err (PlanError.Invalid "empty compact rpm-md relation")
      else Ok (Relation.mk value None None None None false)
  | Some (name, evr, flags) =>
      _ ← reject_if (str_is_empty name) (PlanError.Invalid "empty compact rpm-md relation name");
      match str_split_once ":" evr with
      | Some (epoch, rest) => Ok (version_relation name flags (Some epoch) rest)
      | None => Ok (version_relation name flags None evr)
      end
  end.

(** The loops of [matching_relation]: at most one match. *)
Fixpoint unique_match {A} (test : A -> bool) (convert : A -> planned Relation.t)
    (found : option Relation.t) (items : list A) : planned (option Relation.t) :=
  match items with
  | [] => Ok found
  | item :: items =>
      if test item then
        relation ← convert item;
        match found with
        | Some _ => Err (PlanError.Invalid "native relation is ambiguous in rpm-md")
        | None => unique_match test convert (Some relation) items
        end
      else unique_match test convert found items
  end.

Definition matching_relation (evidence : PackageEvidence.relations) (relation : string) :
    planned (option Relation.t) :=
  match evidence with
  | inl items => unique_match (fun item => bool_decide (relation_text item = relation)) Ok None items
  | inr items => unique_match (fun item => bool_decide (item = relation)) parse_compact_relation None items
  end.

Definition decision_requirement (requiring : PackageEvidence.t)
    (provider : option PackageEvidence.t) (weak : bool) (relation : string) : planned Relation.t :=
  let absent := Err (PlanError.Invalid "native relation absent from rpm-md") in
  let direct :=
    if weak then PackageEvidence.recommends requiring else PackageEvidence.requires requiring in
  found ← matching_relation direct relation;
  match found with
  | Some found => Ok found
  | None =>
      match weak, provider with
      | true, Some provider =>
          supplement ← matching_relation (PackageEvidence.supplements provider) relation;
          enhance ← matching_relation (PackageEvidence.enhances provider) relation;
          match supplement, enhance with
          | Some found, None | None, Some found => Ok found
          | Some _, Some _ =>
              Err (PlanError.Invalid "native reverse relation is ambiguous in rpm-md")
          | None, None => absent
          end
      | _, _ => absent
      end
  end.

(** ** Identities *)

Definition installed_nevra (item : InstalledPackage.t) : string :=
  let evra := InstalledPackage.evra item in
  nevra_text (InstalledPackage.name item) (display (Evra.epoch evra)) (Evra.version evra)
    (Evra.release evra) (Architecture.as_rpm_arch (Evra.arch evra)).

Definition full_nevra (item : CandidatePackage.t) : string :=
  let evra := CandidatePackage.evra item in
  nevra_text (CandidatePackage.name item) (display (Evra.epoch evra)) (Evra.version evra)
    (Evra.release evra) (Architecture.as_rpm_arch (Evra.arch evra)).

(** Everything before the second dash from the right. *)
Definition nevra_name (value : string) : planned string :=
  ok_or (PlanError.Invalid "invalid native full NEVRA")
    (outer ← str_rsplit_once "-"%char value;
     inner ← str_rsplit_once "-"%char outer.1;
     Some inner.1).

Definition unique_installed (nevra : string) (inventory : InstalledInventory.t) :
    planned InstalledPackage.t :=
  match base.filter (fun item => installed_nevra item = nevra) (InstalledInventory.packages inventory) with
  | [] => Err (PlanError.InstalledMissing nevra)
  | [item] => Ok item
  | _ => Err (PlanError.AmbiguousInstalled nevra)
  end.

(** ** Actions *)

Module NativeAction.
Record t : Type := mk {
  kind : string;
  repository : string;
  nevra : string;
  old_nevra : option string;
  installed_instance : option N;
  installed_header_sha256 : option string;
  requested_spec : option PackageSpec.t;
  requested_relation : bool;
  provenance : option SolverProvenance.t;
  transaction_counterpart_nevra : option string
}.

#[global] Instance native_action_eq_dec : EqDecision t.
Proof. solve_decision. Defined.

Definition set_installed (a : t) (old : option string) (instance : option N) (header : option string) : t :=
  mk (kind a) (repository a) (nevra a) old instance header (requested_spec a)
    (requested_relation a) (provenance a) (transaction_counterpart_nevra a).

(** [kind = "erase"; provenance = ObsoletedBy parent]. *)
Definition set_obsoleted (a : t) (parent : string) : t :=
  mk "erase" (repository a) (nevra a) (old_nevra a) (installed_instance a)
    (installed_header_sha256 a) (requested_spec a) (requested_relation a)
    (Some (SolverProvenance.ObsoletedBy parent)) (transaction_counterpart_nevra a).
End NativeAction.

Module NativeDecision.
Record t : Type := mk {
  requiring_nevra : string;
  requiring_repo : string;
  requirement : Relation.t;
  kind : DependencyKind.t;
  provider_nevra : string;
  provider_repo : string;
  provider_installed : bool
}.
End NativeDecision.

(** *** Pairing the two sides of a replacement *)

(** The first loop: the installed package of every old side. *)
Definition identify_old (inventory : InstalledInventory.t) (a : NativeAction.t) :
    planned NativeAction.t :=
  if bool_decide (NativeAction.repository a = "@System") then
    installed ← unique_installed (NativeAction.nevra a) inventory;
    Ok (NativeAction.set_installed a (Some (NativeAction.nevra a))
          (Some (InstalledPackage.db_instance installed))
          (Some (Sha256Digest.as_str (InstalledPackage.immutable_header_sha256 installed))))
  else Ok a.

Definition old_kind (kind : string) : option string :=
  if bool_decide (kind = "upgrade") then Some "upgraded"
  else if bool_decide (kind = "downgrade") then Some "downgraded"
  else if bool_decide (kind = "reinstall") then Some "reinstalled"
  else if bool_decide (kind = "change") then Some "changed"
  else if bool_decide (kind = "obsoletes") then Some "obsoleted"
  else None.

(** The positions of the elements with a property. *)
Definition positions {A} (P : A -> Prop) `{!forall x, Decision (P x)} (l : list A) : list nat :=
  fst <$> base.filter (fun p => P p.2) (imap pair l).

Definition is_old_side (active : NativeAction.t) (old name : string) (item : NativeAction.t) : Prop :=
  NativeAction.kind item = old /\ NativeAction.repository item = "@System" /\
  (NativeAction.transaction_counterpart_nevra item = Some (NativeAction.nevra active) \/
   NativeAction.transaction_counterpart_nevra active = Some (NativeAction.nevra item)) /\
  (old = "obsoleted" \/ nevra_name (NativeAction.nevra item) = Ok name).

Definition parent_text (active : NativeAction.t) : string :=
  NativeAction.repository active +:+ ":" +:+ NativeAction.nevra active.

(** The vector and the set of old positions already taken. *)
Definition pairing : Type := list NativeAction.t * list nat.

Definition pair_old (index : nat) (old_kind parent : string) (st : pairing) (old : nat) :
    planned pairing :=
  let '(raw, paired) := st in
  match raw !! old with
  | None => Ok st
  | Some item =>
      _ ← reject_if (bool_decide (old ∈ paired))
            (PlanError.AmbiguousInstalled (NativeAction.nevra item));
      if bool_decide (old_kind = "obsoleted") then
        Ok (<[old := NativeAction.set_obsoleted item parent]> raw, old :: paired)
      else
        match raw !! index with
        | None => Ok st
        | Some active =>
            Ok (<[index := NativeAction.set_installed active (Some (NativeAction.nevra item))
                    (NativeAction.installed_instance item)
                    (NativeAction.installed_header_sha256 item)]> raw, old :: paired)
        end
  end.

(** The body of the second loop; [index] is a position of the vector. *)
Definition pair_active (st : pairing) (index : nat) : planned pairing :=
  match st.1 !! index with
  | None => Ok st
  | Some active =>
      match old_kind (NativeAction.kind active) with
      | None => Ok st
      | Some old =>
          name ← nevra_name (NativeAction.nevra active);
          let matches := positions (is_old_side active old name) st.1 in
          _ ← reject_if (bool_decide (matches = [])) (PlanError.InstalledMissing name);
          _ ← reject_if (bool_decide (old <> "obsoleted") && negb (Nat.eqb (length matches) 1))
                (PlanError.AmbiguousInstalled name);
          fold_result (pair_old index old (parent_text active)) st matches
      end
  end.

Definition active_kind (kind : string) : Prop :=
  kind ∈ ["install"; "upgrade"; "downgrade"; "reinstall"; "change"; "obsoletes"].

(** The body of the third loop: an obsoleted package no active step named. *)
Definition pair_left_over (st : pairing) (old : nat) : planned pairing :=
  let '(raw, paired) := st in
  match raw !! old with
  | None => Ok st
  | Some item =>
      if bool_decide (NativeAction.kind item <> "obsoleted") || bool_decide (old ∈ paired) then Ok st
      else
        counterpart ← ok_or (PlanError.UnpairedNativeOld (NativeAction.nevra item))
          (NativeAction.transaction_counterpart_nevra item);
        match base.filter (fun a => NativeAction.repository a <> "@System" /\
                NativeAction.nevra a = counterpart /\ active_kind (NativeAction.kind a)) raw with
        | [active] => Ok (<[old := NativeAction.set_obsoleted item (parent_text active)]> raw, old :: paired)
        | matches =>
            Err (PlanError.UnpairedNativeOld
              ("identity=" +:+ NativeAction.nevra item +:+ " counterpart=" +:+ counterpart
               +:+ " active_matches=" +:+ display (N.of_nat (length matches))))
        end
  end.

Definition passive_kind (kind : string) : Prop :=
  kind ∈ ["upgraded"; "downgraded"; "reinstalled"; "changed"].

Definition is_unpaired (paired : list nat) (entry : nat * NativeAction.t) : bool :=
  bool_decide (passive_kind (NativeAction.kind entry.2) \/ NativeAction.kind entry.2 = "obsoleted")
  && negb (bool_decide (entry.1 ∈ paired)).

Definition pair_actions (raw : list NativeAction.t) (inventory : InstalledInventory.t) :
    planned (list NativeAction.t) :=
  raw ← mapM (identify_old inventory) raw;
  st ← fold_result pair_active (raw, []) (seq 0 (length raw));
  st ← fold_result pair_left_over st (seq 0 (length st.1));
  _ ← match List.find (is_unpaired st.2) (imap pair st.1) with
      | Some (_, item) =>
          Err (PlanError.UnpairedNativeOld
            ("kind=" +:+ NativeAction.kind item +:+ " identity=" +:+ NativeAction.nevra item
             +:+ " counterpart=" +:+ default "none" (NativeAction.transaction_counterpart_nevra item)))
      | None => Ok tt
      end;
  Ok (base.filter (fun item => ~ passive_kind (NativeAction.kind item)) st.1).

(** *** What an action becomes *)

(** [exact_installed]: the installed package an old side was identified with. *)
Definition exact_installed (action : NativeAction.t) (inventory : InstalledInventory.t) :
    planned InstalledPackage.t :=
  let nevra := default (NativeAction.nevra action) (NativeAction.old_nevra action) in
  instance ← ok_or (PlanError.Invalid "native old action missing instance")
    (NativeAction.installed_instance action);
  header ← ok_or (PlanError.Invalid "native old action missing header")
    (NativeAction.installed_header_sha256 action);
  item ← map_err (fun _ => PlanError.InstalledMissing nevra)
    (InstalledInventory.erase_target inventory instance header);
  if bool_decide (installed_nevra item = nevra) then Ok item
  else Err (PlanError.InstalledMissing nevra).

Record resolved_identity : Type := mk_identity {
  ri_operation : ResolvedOperation.t;
  ri_name : string;
  ri_instance : option N;
  ri_header : option string;
  ri_vendor : option string
}.

(** The identity of an action on an installed package. *)
Definition old_identity (operation : ResolvedOperation.t) (name : string)
    (old : InstalledPackage.t) : resolved_identity :=
  mk_identity operation name (Some (InstalledPackage.db_instance old))
    (Some (Sha256Digest.as_str (InstalledPackage.immutable_header_sha256 old)))
    (Some (InstalledPackage.vendor old)).

Definition replacement_identity (operation : ResolvedOperation.t) (missing : string)
    (action : NativeAction.t) (candidate : option CandidatePackage.t)
    (inventory : InstalledInventory.t) : planned resolved_identity :=
  value ← ok_or (PlanError.Invalid missing) candidate;
  old ← exact_installed action inventory;
  Ok (old_identity operation (CandidatePackage.name value) old).

Definition native_identity (action : NativeAction.t) (candidate : option CandidatePackage.t)
    (inventory : InstalledInventory.t) : planned resolved_identity :=
  let kind := NativeAction.kind action in
  if bool_decide (kind = "install") || bool_decide (kind = "obsoletes") then
    value ← ok_or (PlanError.Invalid "native install missing exact candidate") candidate;
    Ok (mk_identity ResolvedOperation.Install (CandidatePackage.name value) None None None)
  else if bool_decide (kind = "upgrade") then
    replacement_identity ResolvedOperation.Upgrade "native upgrade missing exact candidate"
      action candidate inventory
  else if bool_decide (kind = "downgrade") then
    replacement_identity ResolvedOperation.Downgrade "native downgrade missing exact candidate"
      action candidate inventory
  else if bool_decide (kind = "reinstall") || bool_decide (kind = "change") then
    replacement_identity ResolvedOperation.Reinstall "native reinstall missing exact candidate"
      action candidate inventory
  else if bool_decide (kind = "erase") || bool_decide (kind = "obsoleted") then
    old ← exact_installed action inventory;
    Ok (old_identity ResolvedOperation.Remove (InstalledPackage.name old) old)
  else Err (PlanError.ConflictingAction (NativeAction.nevra action)).

Module NativeSolveOutput.
Record t : Type := mk {
  source_transcript_sha256 : string;
  actions : list NativeAction.t;
  decisions : list NativeDecision.t;
  satisfied_specs : list PackageSpec.t
}.

(** *** From the native columns *)

Record row : Type := mk_row {
  r_nevra : string;
  r_repository : string;
  r_kind : string;
  r_counterpart : option string;
  r_spec : option string;
  r_relation : bool
}.

(** The chain of [zip]. *)
Definition rows (r : SolveResult.t) : list row :=
  zip_with (fun f b => f b)
    (zip_with (fun f b => f b)
      (zip_with (fun f b => f b)
        (zip_with (fun f b => f b)
          (zip_with mk_row (SolveResult.actions r) (SolveResult.repositories r))
          (SolveResult.kinds r))
        (SolveResult.obsoletes r))
      (SolveResult.requested_specs r))
    (SolveResult.requested_relation_kinds r).

Definition native_action (w : row) : planned NativeAction.t :=
  spec ← match r_spec w with
         | Some value =>
             Some <$> map_err (fun _ => PlanError.Invalid "native requested selector is invalid")
               (PackageSpec.parse value)
         | None => Ok None
         end;
  Ok (NativeAction.mk (r_kind w) (r_repository w) (r_nevra w) None None None spec (r_relation w)
        None (r_counterpart w)).

(** [identities]: the repository of every action that is not of the installed system. *)
Definition add_identity (identities : list (string * string)) (entry : string * string) :
    planned (list (string * string)) :=
  let '(nevra, repo) := entry in
  if bool_decide (repo = "@System") then Ok identities
  else
    match bmap_lookup nevra identities with
    | Some _ => Err (PlanError.DuplicateAction nevra)
    | None => Ok (bmap_insert nevra repo identities)
    end.

Definition provider_evidence (metadata : evidence_index) (installed : bool) (repo nevra : string) :
    planned (option PackageEvidence.t) :=
  if installed then Ok None
  else Some <$> ok_or (PlanError.Invalid "native provider identity absent from rpm-md")
    (index_get metadata repo nevra).

Definition native_decision (metadata : evidence_index) (identities : list (string * string))
    (item : SolveDecision.t) : planned NativeDecision.t :=
  requiring_repo ← ok_or (PlanError.MissingParent (SolveDecision.requiring item))
    (bmap_lookup (SolveDecision.requiring item) identities);
  provider_repo ←
    (if SolveDecision.provider_installed item then Ok "@System"
     else ok_or (PlanError.Unresolved (SolveDecision.provider item))
       (bmap_lookup (SolveDecision.provider item) identities));
  package ← ok_or (PlanError.Invalid "native requiring identity absent from rpm-md")
    (index_get metadata requiring_repo (SolveDecision.requiring item));
  provider_package ← provider_evidence metadata (SolveDecision.provider_installed item)
    provider_repo (SolveDecision.provider item);
  requirement ← decision_requirement package provider_package (SolveDecision.weak item)
    (SolveDecision.relation item);
  Ok (NativeDecision.mk (SolveDecision.requiring item) requiring_repo requirement
        (if SolveDecision.weak item then DependencyKind.Weak else DependencyKind.Strong)
        (SolveDecision.provider item) provider_repo (SolveDecision.provider_installed item)).

Definition from_native_evidence (result : SolveResult.t) (source_transcript_sha256 : string)
    (metadata : evidence_index) (inventory : InstalledInventory.t) : planned t :=
  let n := length (SolveResult.actions result) in
  _ ← reject_if
        (negb (Nat.eqb n (length (SolveResult.repositories result)))
         || negb (Nat.eqb n (length (SolveResult.kinds result)))
         || negb (Nat.eqb n (length (SolveResult.obsoletes result)))
         || negb (Nat.eqb n (length (SolveResult.requested_specs result)))
         || negb (Nat.eqb n (length (SolveResult.requested_relation_kinds result))))
        (PlanError.Invalid "native action columns differ");
  identities ← fold_result add_identity []
    (zip (SolveResult.actions result) (SolveResult.repositories result));
  raw ← mapM native_action (rows result);
  actions ← pair_actions raw inventory;
  decisions ← mapM (native_decision metadata identities) (SolveResult.decisions result);
  satisfied ← map_err (fun _ => PlanError.Invalid "native satisfied selector is invalid")
    (mapM PackageSpec.parse (SolveResult.satisfied_specs result));
  Ok (mk source_transcript_sha256 actions decisions satisfied).

(** *** To resolved actions *)

Definition validate_decision (action_ids : list (string * string)) (metadata : evidence_index)
    (inventory : InstalledInventory.t) (d : NativeDecision.t) : planned unit :=
  let requiring := (NativeDecision.requiring_nevra d, NativeDecision.requiring_repo d) in
  let provider := (NativeDecision.provider_nevra d, NativeDecision.provider_repo d) in
  let installed := NativeDecision.provider_installed d in
  _ ← reject_if (negb (bool_decide (requiring ∈ action_ids)))
        (PlanError.MissingParent (NativeDecision.requiring_nevra d));
  _ ← reject_if (negb installed && negb (bool_decide (provider ∈ action_ids)))
        (PlanError.Unresolved (NativeDecision.requiring_nevra d));
  _ ← (if installed then
         _ ← reject_if (bool_decide (NativeDecision.provider_repo d <> "@System"))
               (PlanError.Invalid "installed provider repository differs");
         _ ← unique_installed (NativeDecision.provider_nevra d) inventory;
         Ok tt
       else
         reject_if (bool_decide (NativeDecision.provider_repo d = "@System"))
           (PlanError.Invalid "action provider marked as system"));
  requiring_package ← ok_or (PlanError.Invalid "native requiring identity absent from rpm-md")
    (index_get metadata (NativeDecision.requiring_repo d) (NativeDecision.requiring_nevra d));
  provider_package ← provider_evidence metadata installed (NativeDecision.provider_repo d)
    (NativeDecision.provider_nevra d);
  requirement ← decision_requirement requiring_package provider_package
    (bool_decide (NativeDecision.kind d = DependencyKind.Weak))
    (relation_text (NativeDecision.requirement d));
  reject_if (bool_decide (requirement <> NativeDecision.requirement d))
    (PlanError.Invalid "native decision relation differs from rpm-md").

Definition validate_decisions (o : t) (action_ids : list (string * string))
    (metadata : evidence_index) (inventory : InstalledInventory.t) : planned unit :=
  for_each (validate_decision action_ids metadata inventory) (decisions o).

(** The loop over the actions collecting [assigned_specs]. *)
Definition assign_spec (expected : list string) (assigned : list string) (action : NativeAction.t) :
    planned (list string) :=
  _ ← reject_if (NativeAction.requested_relation action
          && bool_decide (NativeAction.requested_spec action = None))
        (PlanError.Invalid "native relation selector is missing");
  match NativeAction.requested_spec action with
  | Some spec =>
      let spec := PackageSpec.as_str spec in
      _ ← reject_if (negb (bset_contains spec expected))
            (PlanError.Invalid "native selector is not in requested intent");
      _ ← reject_if (bset_contains spec assigned)
            (PlanError.Invalid "native selector provenance is duplicated");
      Ok (bset_insert spec assigned)
  | None => Ok assigned
  end.

(** The loop over the satisfied selectors. *)
Definition satisfy_spec (expected assigned : list string) (satisfied : list string)
    (spec : PackageSpec.t) : planned (list string) :=
  let spec := PackageSpec.as_str spec in
  _ ← reject_if (negb (bset_contains spec expected))
        (PlanError.Invalid "native satisfied selector is not in requested intent");
  _ ← reject_if (bset_contains spec assigned || bset_contains spec satisfied)
        (PlanError.Invalid "native selector provenance is duplicated");
  Ok (bset_insert spec satisfied).

(** [candidate_index]: of equal keys the last one stays. *)
Definition candidate_get (candidates : list CandidatePackage.t) (repository nevra : string) :
    option CandidatePackage.t :=
  List.find (fun c =>
    bool_decide (CandidatePackage.repo_id c = repository) && bool_decide (full_nevra c = nevra))
    (rev candidates).

(** The decisions an action was chosen for. *)
Definition causes (action : NativeAction.t) (d : NativeDecision.t) : bool :=
  negb (NativeDecision.provider_installed d)
  && bool_decide (NativeDecision.provider_nevra d = NativeAction.nevra action)
  && bool_decide (NativeDecision.provider_repo d = NativeAction.repository action)
  && (bool_decide (NativeDecision.requiring_nevra d <> NativeDecision.provider_nevra d)
      || bool_decide (NativeDecision.requiring_repo d <> NativeDecision.provider_repo d)).

Definition is_replacement_operation (o : ResolvedOperation.t) : bool :=
  match o with
  | ResolvedOperation.Upgrade | ResolvedOperation.Downgrade | ResolvedOperation.Reinstall => true
  | _ => false
  end.

Definition resolve_action (o : t) (expected : list string) (candidates : list CandidatePackage.t)
    (inventory : InstalledInventory.t) (action : NativeAction.t) : planned ResolvedAction.t :=
  let candidate := candidate_get candidates (NativeAction.repository action) (NativeAction.nevra action) in
  identity ← native_identity action candidate inventory;
  edges ← mapM (fun d =>
      parent ← nevra_name (NativeDecision.requiring_nevra d);
      Ok (DependencyEdge.mk parent (NativeDecision.kind d)))
    (base.filter (fun d => causes action d = true) (decisions o));
  let requested :=
    bool_decide (NativeAction.requested_spec action <> None)
    || (bool_decide (expected = []) && is_replacement_operation (ri_operation identity)) in
  Ok {|
    ResolvedAction.operation := ri_operation identity;
    ResolvedAction.name := ri_name identity;
    ResolvedAction.requested := requested;
    ResolvedAction.requested_spec := NativeAction.requested_spec action;
    ResolvedAction.requested_relation := NativeAction.requested_relation action;
    ResolvedAction.candidate := candidate;
    ResolvedAction.installed_instance := ri_instance identity;
    ResolvedAction.installed_header_sha256 := ri_header identity;
    ResolvedAction.installed_vendor := ri_vendor identity;
    ResolvedAction.dependency_edges := edges;
    ResolvedAction.provenance := NativeAction.provenance action;
    ResolvedAction.required_by_remaining := [];
    ResolvedAction.unresolved_dependencies := [];
    ResolvedAction.introduced_by_requested := false;
    ResolvedAction.solver_rule := "libsolv typed causal decision"
  |}.

Definition into_resolved_evidence (o : t) (requested : list string)
    (candidates : list CandidatePackage.t) (metadata : evidence_index)
    (inventory : InstalledInventory.t) : planned (list ResolvedAction.t) :=
  _ ← reject_if
        (negb (str_len (source_transcript_sha256 o) =? 64)
         || negb (forallb is_ascii_hexdigit (bytes (source_transcript_sha256 o))))
        (PlanError.Invalid "invalid native transcript digest");
  specs ← mapM (fun value =>
      PackageSpec.as_str <$> map_err (fun _ => PlanError.Invalid "requested selector is invalid")
        (PackageSpec.parse value)) requested;
  let expected := bset_of_list specs in
  _ ← reject_if (negb (Nat.eqb (length expected) (length requested)))
        (PlanError.Invalid "requested selector is duplicated");
  let action_ids :=
    bset_of_list ((fun a => (NativeAction.nevra a, NativeAction.repository a)) <$> actions o) in
  _ ← reject_if (negb (Nat.eqb (length action_ids) (length (actions o))))
        (PlanError.DuplicateAction "native identity");
  assigned ← fold_result (assign_spec expected) [] (actions o);
  satisfied ← fold_result (satisfy_spec expected assigned) [] (satisfied_specs o);
  _ ← reject_if (negb (Nat.eqb (length assigned + length satisfied) (length expected)))
        (PlanError.Invalid "native selector provenance is missing");
  _ ← validate_decisions o action_ids metadata inventory;
  mapM (resolve_action o expected candidates inventory) (actions o).

(** The public entry points wrap the evidence in its reference type. *)
Definition complete_index (metadata : list (string * CompletePackage.t)) : evidence_index :=
  (fun p => (p.1, PackageEvidence.Complete p.2)) <$> metadata.

Definition compact_index (metadata : list (string * NativePackageEvidence.t)) : evidence_index :=
  (fun p => (p.1, PackageEvidence.Compact p.2)) <$> metadata.

Definition from_native (result : SolveResult.t) (digest : string)
    (metadata : list (string * CompletePackage.t)) (inventory : InstalledInventory.t) : planned t :=
  from_native_evidence result digest (complete_index metadata) inventory.

Definition from_native_compact (result : SolveResult.t) (digest : string)
    (metadata : list (string * NativePackageEvidence.t)) (inventory : InstalledInventory.t) : planned t :=
  from_native_evidence result digest (compact_index metadata) inventory.

Definition into_resolved (o : t) (requested : list string) (candidates : list CandidatePackage.t)
    (metadata : list (string * CompletePackage.t)) (inventory : InstalledInventory.t) :
    planned (list ResolvedAction.t) :=
  into_resolved_evidence o requested candidates (complete_index metadata) inventory.

Definition into_resolved_compact (o : t) (requested : list string)
    (candidates : list CandidatePackage.t) (metadata : list (string * NativePackageEvidence.t))
    (inventory : InstalledInventory.t) : planned (list ResolvedAction.t) :=
  into_resolved_evidence o requested candidates (compact_index metadata) inventory.
End NativeSolveOutput.

(** ** The text of a relation *)

Module RelationFacts.
Lemma find_operator_some ops v name evr fl :
  find_operator ops v = Some (name, evr, fl) ->
  exists sep, (sep, fl) ∈ ops /\ v = name +:+ sep +:+ evr.
Proof.
  induction ops as [|[sep f] ops IH]; simpl; [done |].
  destruct (str_split_once sep v) as [[n e]|] eqn:E.
  - intros [= -> -> ->]. exists sep. split; [left | by apply str_split_once_some].
  - intros (s & Hs & Hv)%IH. exists s. split; [by right | done].
Qed.

Lemma operators_spec sep fl :
  (sep, fl) ∈ operators -> sep = " " +:+ RelationFlags.operator fl +:+ " ".
Proof.
  intros H%list_elem_of_In. repeat (destruct H as [[= <- <-]|H]; [done |]). done.
Qed.

Lemma version_relation_text name fl epoch vr :
  let r := version_relation name fl epoch vr in
  Relation.name r = name /\ Relation.epoch r = epoch /\
  relation_text r = name +:+ " " +:+ RelationFlags.operator fl +:+ " " +:+
    match epoch with Some e => if bool_decide (e = "0") then "" else e +:+ ":" | None => "" end
    +:+ vr.
Proof.
  unfold version_relation, relation_text, compact_relation.
  destruct (str_rsplit_once "-"%char vr) as [[v rel]|] eqn:E; simpl.
  - apply str_rsplit_once_some in E as [-> _]. done.
  - split; [done |]. split; [done |]. apply bytes_inj. rewrite !bytes_app. simpl.
    by rewrite app_nil_r.
Qed.

(** An accepted compact relation is printed back as the text it was read from, except
    that an explicit epoch 0 is dropped; its name is never empty. *)
Theorem compact_relation_roundtrip (value : string) (r : Relation.t)
    (Hr : parse_compact_relation value = Ok r) :
  Relation.name r <> "" /\
  (relation_text r = value \/
   (Relation.epoch r = Some "0" /\
    exists name op rest, value = name +:+ " " +:+ op +:+ " 0:" +:+ rest /\
      relation_text r = name +:+ " " +:+ op +:+ " " +:+ rest)).
Proof.
  unfold parse_compact_relation in Hr.
  destruct (find_operator operators value) as [[[name evr] fl]|] eqn:Hop; cycle 1.
  { destruct (str_is_empty value) eqn:He; [done |]. apply str_is_empty_false in He.
    injection Hr as <-. split; [done | by left]. }
  apply bind_ok in Hr as ([] & Hn%reject_if_ok & Hr). apply str_is_empty_false in Hn.
  apply find_operator_some in Hop as (sep & ->%operators_spec & ->).
  destruct (str_split_once ":" evr) as [[e rest]|] eqn:E; injection Hr as <-.
  all: match goal with |- context [version_relation ?n ?f ?ep ?vr] =>
    destruct (version_relation_text n f ep vr) as (Hname & Hepoch & Htext) end.
  all: rewrite Hname, Hepoch, Htext; split; [done |].
  - apply str_split_once_some in E as ->. case_bool_decide as He.
    + right. subst. split; [done |]. exists name, (RelationFlags.operator fl), rest.
      split; apply bytes_inj; rewrite !bytes_app, <- ?app_assoc; done.
    + left. apply bytes_inj. rewrite !bytes_app, <- ?app_assoc. done.
  - left. apply bytes_inj. rewrite !bytes_app, <- ?app_assoc. done.
Qed.

Lemma compact_relation_roundtrip_witness :
  exists r, parse_compact_relation "example = 2:1.4.0-3.fc44" = Ok r /\
    relation_text r = "example = 2:1.4.0-3.fc44".
Proof.
  eexists. split; [vm_compute; reflexivity |].
  edestruct (compact_relation_roundtrip "example = 2:1.4.0-3.fc44") as [_ [H|[H _]]].
  - vm_compute. reflexivity.
  - exact H.
  - discriminate H.
Defined.
End RelationFacts.

(** ** The selectors and identities of resolved actions *)

Module ResolveFacts.
Import NativeSolveOutput.

Lemma assign_spec_fold expected l assigned assigned' :
  StronglySorted clt assigned ->
  fold_result (assign_spec expected) assigned l = Ok assigned' ->
  let specs := PackageSpec.as_str <$> omap NativeAction.requested_spec l in
  StronglySorted clt assigned' /\ NoDup specs /\
  (forall s, s ∈ specs -> s ∈ expected /\ s ∉ assigned) /\
  (forall s, s ∈ assigned' <-> s ∈ assigned \/ s ∈ specs).
Proof.
  revert assigned. induction l as [|a l IH]; intros assigned Hs; simpl.
  { intros [= <-]. split_and!; [done | constructor | by intros ? ?%not_elem_of_nil |].
    intros s. split; [auto | by intros [|?%not_elem_of_nil]]. }
  intros E. apply bind_ok in E as (mid & E1 & E). unfold assign_spec in E1.
  apply bind_ok in E1 as ([] & _ & E1).
  destruct (NativeAction.requested_spec a) as [spec|]; cycle 1.
  { injection E1 as ->. by apply IH. }
  apply bind_ok in E1 as ([] & Hx%reject_if_ok%negb_false_iff & E1).
  apply bind_ok in E1 as ([] & Hn%reject_if_ok & [= <-]).
  apply bset_contains_spec in Hx. apply bset_contains_false in Hn.
  apply IH in E as (Hs' & Hnd & Hin & Hmem); [| by apply bset_insert_sorted].
  setoid_rewrite elem_of_bset_insert in Hin. setoid_rewrite elem_of_bset_insert in Hmem.
  rewrite fmap_cons. setoid_rewrite elem_of_cons. split_and!; [done | | |].
  - constructor; [| done]. intros Hc. destruct (Hin _ Hc) as [_ H]. apply H. by left.
  - intros s [->|Hc]; [done |]. destruct (Hin s Hc) as [? H]. split; [done |].
    intros ?. apply H. by right.
  - intros s. rewrite Hmem. tauto.
Qed.

Lemma satisfy_spec_fold expected assigned l satisfied satisfied' :
  StronglySorted clt satisfied ->
  fold_result (satisfy_spec expected assigned) satisfied l = Ok satisfied' ->
  let specs := PackageSpec.as_str <$> l in
  StronglySorted clt satisfied' /\ NoDup specs /\
  (forall s, s ∈ specs -> s ∈ expected /\ s ∉ assigned /\ s ∉ satisfied) /\
  (forall s, s ∈ satisfied' <-> s ∈ satisfied \/ s ∈ specs).
Proof.
  revert satisfied. induction l as [|p l IH]; intros satisfied Hs; csimpl.
  { intros [= <-]. split_and!; [done | constructor | by intros ? ?%not_elem_of_nil |].
    intros s. split; [auto | by intros [|?%not_elem_of_nil]]. }
  intros E. apply bind_ok in E as (mid & E1 & E). unfold satisfy_spec in E1.
  apply bind_ok in E1 as ([] & Hx%reject_if_ok%negb_false_iff & E1).
  apply bind_ok in E1 as ([] & Hn%reject_if_ok & [= <-]).
  apply orb_false_iff in Hn as [Ha Hn].
  apply bset_contains_spec in Hx. apply bset_contains_false in Ha, Hn.
  apply IH in E as (Hs' & Hnd & Hin & Hmem); [| by apply bset_insert_sorted].
  setoid_rewrite elem_of_bset_insert in Hin. setoid_rewrite elem_of_bset_insert in Hmem.
  setoid_rewrite elem_of_cons. split_and!; [done | | |].
  - constructor; [| done]. intros Hc. destruct (Hin _ Hc) as (_ & _ & H). apply H. by left.
  - intros s [->|Hc]; [done |]. destruct (Hin s Hc) as (? & ? & H). split_and!; [done..|].
    intros ?. apply H. by right.
  - intros s. rewrite Hmem. tauto.
Qed.

Lemma exact_installed_ok a inv p :
  exact_installed a inv = Ok p ->
  p ∈ InstalledInventory.packages inv /\
  NativeAction.installed_instance a = Some (InstalledPackage.db_instance p) /\
  NativeAction.installed_header_sha256 a =
    Some (Sha256Digest.as_str (InstalledPackage.immutable_header_sha256 p)) /\
  installed_nevra p = default (NativeAction.nevra a) (NativeAction.old_nevra a).
Proof.
  unfold exact_installed. intros E. apply bind_ok in E as (instance & Hi%ok_or_ok & E).
  apply bind_ok in E as (header & Hh%ok_or_ok & E).
  apply bind_ok in E as (item & Ht%map_err_ok & E).
  case_bool_decide as Hn; [| done]. injection E as <-.
  unfold InstalledInventory.erase_target in Ht.
  destruct (base.filter _ _) as [|q [|? ?]] eqn:Hf; try done.
  case_bool_decide as Hd; [| done]. injection Ht as ->.
  assert (Hq : item ∈ base.filter (fun p => InstalledPackage.db_instance p = instance)
    (InstalledInventory.packages inv)) by (rewrite Hf; left).
  apply list_elem_of_filter in Hq as [Hq ?]. rewrite Hi, Hh, <- Hd, Hq. done.
Qed.

(** What the identity of an action promises. *)
Definition identity_ok (inv : InstalledInventory.t) (a : NativeAction.t) (r : ResolvedAction.t) : Prop :=
  match ResolvedAction.operation r with
  | ResolvedOperation.Install =>
      ResolvedAction.installed_instance r = None /\ exists c, ResolvedAction.candidate r = Some c /\
        CandidatePackage.name c = ResolvedAction.name r
  | o => exists p, p ∈ InstalledInventory.packages inv /\
      ResolvedAction.installed_instance r = Some (InstalledPackage.db_instance p) /\
      ResolvedAction.installed_header_sha256 r =
        Some (Sha256Digest.as_str (InstalledPackage.immutable_header_sha256 p)) /\
      ResolvedAction.installed_vendor r = Some (InstalledPackage.vendor p) /\
      installed_nevra p = default (NativeAction.nevra a) (NativeAction.old_nevra a) /\
      (o = ResolvedOperation.Remove -> ResolvedAction.name r = InstalledPackage.name p)
  end.

Lemma resolve_action_ok o expected candidates inv a r :
  resolve_action o expected candidates inv a = Ok r ->
  identity_ok inv a r /\ ResolvedAction.requested_spec r = NativeAction.requested_spec a /\
  ResolvedAction.provenance r = NativeAction.provenance a.
Proof.
  unfold resolve_action. intros E. apply bind_ok in E as (i & Hi & E).
  apply bind_ok in E as (edges & _ & [= <-]). simpl. split; [| done].
  unfold identity_ok. simpl. unfold native_identity in Hi.
  assert (Hrep : forall op missing,
    replacement_identity op missing a (candidate_get candidates (NativeAction.repository a)
      (NativeAction.nevra a)) inv = Ok i ->
    ri_operation i = op /\ exists p, p ∈ InstalledInventory.packages inv /\
      ri_instance i = Some (InstalledPackage.db_instance p) /\
      ri_header i = Some (Sha256Digest.as_str (InstalledPackage.immutable_header_sha256 p)) /\
      ri_vendor i = Some (InstalledPackage.vendor p) /\
      installed_nevra p = default (NativeAction.nevra a) (NativeAction.old_nevra a)).
  { intros op missing E. apply bind_ok in E as (c & _ & E). apply bind_ok in E as (p & Hp & [= <-]).
    apply exact_installed_ok in Hp as (? & ? & ? & ?). split; [done |]. by exists p. }
  repeat match type of Hi with (if ?b then _ else _) = _ => destruct b end; try done.
  - apply bind_ok in Hi as (c & Hc%ok_or_ok & [= <-]). split; [done |]. by exists c.
  - apply Hrep in Hi as (Hop & p & ? & ? & ? & ? & ?). rewrite Hop. by exists p.
  - apply Hrep in Hi as (Hop & p & ? & ? & ? & ? & ?). rewrite Hop. by exists p.
  - apply Hrep in Hi as (Hop & p & ? & ? & ? & ? & ?). rewrite Hop. by exists p.
  - apply bind_ok in Hi as (p & Hp & [= <-]).
    apply exact_installed_ok in Hp as (? & ? & ? & ?). by exists p.
Qed.

(** C24: the resolved actions account for the request exactly: the selectors the native
    actions carry, together with the satisfied ones, are the requested ones, each once; and
    every removal or replacement is about an installed package whose instance, header and
    name the native solver named. *)
Theorem into_resolved_sound (o : t) (requested : list string) (candidates : list CandidatePackage.t)
    (metadata : evidence_index) (inv : InstalledInventory.t) (out : list ResolvedAction.t)
    (Hok : into_resolved_evidence o requested candidates metadata inv = Ok out) :
  (PackageSpec.as_str <$> omap ResolvedAction.requested_spec out)
    ++ (PackageSpec.as_str <$> satisfied_specs o) ≡ₚ requested /\
  NoDup requested /\
  Forall2 (identity_ok inv) (actions o) out /\
  (forall d, d ∈ decisions o ->
     (exists a, a ∈ actions o /\ NativeAction.nevra a = NativeDecision.requiring_nevra d) /\
     (NativeDecision.provider_installed d = true \/
      exists a, a ∈ actions o /\ NativeAction.nevra a = NativeDecision.provider_nevra d)).
Proof.
  unfold into_resolved_evidence in Hok.
  apply bind_ok in Hok as ([] & _ & E). apply bind_ok in E as (specs & Hspecs%mapM_ok & E).
  apply bind_ok in E as ([] & Hlen%reject_if_ok%negb_false_iff%Nat.eqb_eq & E).
  apply bind_ok in E as ([] & _ & E).
  apply bind_ok in E as (assigned & Ha & E). apply bind_ok in E as (satisfied & Hs & E).
  apply bind_ok in E as ([] & Htot%reject_if_ok%negb_false_iff%Nat.eqb_eq & E).
  apply bind_ok in E as ([] & Hd%for_each_ok & Hout%mapM_ok).
  assert (specs = requested) as ->.
  { clear -Hspecs. induction Hspecs as [|v s vs ss Hv _ IH]; [done |]. f_equal; [| done].
    apply fmap_ok in Hv as (p & Hp%map_err_ok & <-).
    unfold PackageSpec.parse in Hp. by result_inv. }
  rewrite Hlen in Htot. pose proof (length_bset_of_list_NoDup _ Hlen) as Hnd.
  apply assign_spec_fold in Ha as (Has & Hnda & Hina & Hma); [| constructor].
  apply satisfy_spec_fold in Hs as (Hss & Hnds & Hins & Hms); [| constructor].
  set (sa := PackageSpec.as_str <$> omap NativeAction.requested_spec (actions o)) in *.
  set (ss := PackageSpec.as_str <$> satisfied_specs o) in *.
  assert (Hsame : omap ResolvedAction.requested_spec out = omap NativeAction.requested_spec (actions o)).
  { clear -Hout. induction Hout as [|a r al rl Hr _ IH]; [done |].
    apply resolve_action_ok in Hr as (_ & Hr & _). simpl. rewrite Hr.
    destruct (NativeAction.requested_spec a); [f_equal |]; exact IH. }
  assert (Hpa : assigned ≡ₚ sa).
  { apply NoDup_Permutation; [by apply clt_sorted_NoDup | done |].
    intros s. rewrite Hma. split; [by intros [?%not_elem_of_nil|] | auto]. }
  assert (Hps : satisfied ≡ₚ ss).
  { apply NoDup_Permutation; [by apply clt_sorted_NoDup | done |].
    intros s. rewrite Hms. split; [by intros [?%not_elem_of_nil|] | auto]. }
  split_and!; [| done | |].
  - rewrite Hsame. apply submseteq_length_Permutation.
    + apply NoDup_submseteq.
      * apply NoDup_app. split_and!; [done | | done]. intros s Hsa Hss'.
        destruct (Hins s Hss') as (_ & Hn & _). apply Hn, Hma. by right.
      * intros s [Hc|Hc]%elem_of_app.
        -- exact (proj1 (elem_of_bset_of_list s _) (proj1 (Hina s Hc))).
        -- exact (proj1 (elem_of_bset_of_list s _) (proj1 (Hins s Hc))).
    + rewrite length_app. fold sa ss. rewrite <- Hpa, <- Hps. lia.
  - eapply Forall2_impl; [exact Hout |]. intros a r Hr. by apply resolve_action_ok in Hr as [? _].
  - intros d Hin. rewrite Forall_forall in Hd. specialize (Hd d Hin). unfold validate_decision in Hd.
    apply bind_ok in Hd as ([] & H1%reject_if_ok%negb_false_iff%bool_decide_eq_true & Hd).
    apply bind_ok in Hd as ([] & H2%reject_if_ok & _).
    assert (Hid : forall n r, (n, r) ∈ bset_of_list
        ((fun a => (NativeAction.nevra a, NativeAction.repository a)) <$> actions o) ->
      exists a, a ∈ actions o /\ NativeAction.nevra a = n).
    { intros n r Hnr. apply (proj1 (elem_of_bset_of_list _ _)) in Hnr.
      apply list_elem_of_fmap in Hnr as (a & [= -> ->] & ?). eauto. }
    split; [by eapply Hid |]. apply andb_false_iff in H2 as [H2|H2].
    + left. by apply negb_false_iff in H2.
    + right. apply negb_false_iff, bool_decide_eq_true in H2. by eapply Hid.
Qed.
End ResolveFacts.

(** ** Pairing *)

Module PairFacts.
Section positions.
Context {A : Type} (P : A -> Prop) `{!forall x, Decision (P x)}.

Lemma elem_of_imap_pair (l : list A) i x : (i, x) ∈ imap pair l <-> l !! i = Some x.
Proof.
  rewrite list_elem_of_lookup. setoid_rewrite list_lookup_imap. split.
  - intros (j & E). destruct (l !! j) eqn:Hj; simplify_eq/=. done.
  - intros Hi. exists i. by rewrite Hi.
Qed.

Lemma positions_spec (l : list A) i : i ∈ positions P l <-> exists x, l !! i = Some x /\ P x.
Proof.
  unfold positions. rewrite list_elem_of_fmap. split.
  - intros ([j x] & -> & [Hp Hx%elem_of_imap_pair]%list_elem_of_filter). eauto.
  - intros (x & Hx & Hp). exists (i, x). split; [done |]. apply list_elem_of_filter.
    split; [done |]. by apply elem_of_imap_pair.
Qed.

Lemma positions_NoDup (l : list A) : NoDup (positions P l).
Proof.
  unfold positions. assert (Hnd : NoDup (imap pair l).*1).
  { rewrite fmap_imap. apply NoDup_alt. intros i j x Hi Hj.
    rewrite list_lookup_imap in Hi, Hj. destruct (l !! i), (l !! j); simplify_eq/=. done. }
  induction (imap pair l) as [|[i x] k IH]; [constructor |]. csimpl in Hnd.
  apply NoDup_cons in Hnd as [Hi Hnd]. rewrite filter_cons. destruct (decide _); [| by apply IH].
  csimpl. constructor; [| by apply IH]. intros (q & -> & Hq)%list_elem_of_fmap.
  apply list_elem_of_filter in Hq as [_ Hq]. apply Hi, list_elem_of_fmap. eauto.
Qed.
End positions.

Definition replacing_kind (kind : string) : Prop :=
  kind ∈ ["upgrade"; "downgrade"; "reinstall"; "change"].

(** The three fields of the installed side name one installed package. *)
Definition identified (inv : InstalledInventory.t) (a : NativeAction.t) : Prop :=
  exists p, p ∈ InstalledInventory.packages inv /\
    NativeAction.old_nevra a = Some (installed_nevra p) /\
    NativeAction.installed_instance a = Some (InstalledPackage.db_instance p) /\
    NativeAction.installed_header_sha256 a =
      Some (Sha256Digest.as_str (InstalledPackage.immutable_header_sha256 p)).

Section pairing.
Context (inv : InstalledInventory.t).

(** What both loops keep: [k] positions have had their turn as new sides. *)
Record pair_inv (k : nat) (st : pairing) : Prop := {
  pi_system : forall i a, st.1 !! i = Some a -> NativeAction.repository a = "@System" -> identified inv a;
  pi_old : forall i a, st.1 !! i = Some a -> NativeAction.repository a = "@System" ->
    ~ replacing_kind (NativeAction.kind a) -> NativeAction.old_nevra a = Some (NativeAction.nevra a);
  pi_obsoleted : forall i a id, st.1 !! i = Some a ->
    NativeAction.provenance a = Some (SolverProvenance.ObsoletedBy id) ->
    NativeAction.kind a = "erase" /\
    exists j b, st.1 !! j = Some b /\ active_kind (NativeAction.kind b) /\ id = parent_text b;
  pi_done : forall i a, (i < k)%nat -> st.1 !! i = Some a ->
    replacing_kind (NativeAction.kind a) -> identified inv a;
  pi_paired : forall i a, i ∈ st.2 -> st.1 !! i = Some a -> NativeAction.kind a <> "obsoleted"
}.

Lemma update_obsoleted k raw paired old item parent :
  pair_inv k (raw, paired) -> raw !! old = Some item -> NativeAction.kind item = "obsoleted" ->
  (exists j b, raw !! j = Some b /\ active_kind (NativeAction.kind b) /\ parent = parent_text b) ->
  pair_inv k (<[old := NativeAction.set_obsoleted item parent]> raw, old :: paired).
Proof.
  intros [H1 H5 H2 H3 H4] Hold Hkind (j & b & Hj & Hb & ->). simpl in *.
  assert (Hlen : (old < length raw)%nat) by (by eapply lookup_lt_Some).
  assert (Hother : forall j b, raw !! j = Some b -> active_kind (NativeAction.kind b) ->
    <[old := NativeAction.set_obsoleted item (parent_text b)]> raw !! j = Some b /\
    forall parent, <[old := NativeAction.set_obsoleted item parent]> raw !! j = Some b).
  { intros j' b' Hj' Hb'. assert (old <> j').
    { intros ->. rewrite Hold in Hj'. injection Hj' as ->. rewrite Hkind in Hb'.
      unfold active_kind in Hb'. apply list_elem_of_In in Hb'. simpl in Hb'. intuition discriminate. }
    split; intros; by rewrite list_lookup_insert_ne. }
  constructor; simpl.
  - intros i a Hi Hr. destruct (decide (old = i)) as [<-|Hne].
    + rewrite list_lookup_insert_eq in Hi by done. injection Hi as <-.
      destruct (H1 old item Hold Hr) as (p & Hp). by exists p.
    + rewrite list_lookup_insert_ne in Hi by done. by eapply H1.
  - intros i a Hi Hr Hn. destruct (decide (old = i)) as [<-|Hne].
    + rewrite list_lookup_insert_eq in Hi by done. injection Hi as <-. simpl.
      apply (H5 old item); [done | done |]. rewrite Hkind. intros Hc.
      apply list_elem_of_In in Hc. simpl in Hc. intuition discriminate.
    + rewrite list_lookup_insert_ne in Hi by done. by eapply H5.
  - intros i a id Hi Hp. destruct (decide (old = i)) as [<-|Hne].
    + rewrite list_lookup_insert_eq in Hi by done. injection Hi as <-. simpl in *.
      injection Hp as <-. split; [done |]. exists j, b. split; [by apply Hother | done].
    + rewrite list_lookup_insert_ne in Hi by done.
      destruct (H2 i a id Hi Hp) as (Hk & j' & b' & Hj' & Hb' & ->). split; [done |].
      exists j', b'. split; [by apply (Hother j' b') | done].
  - intros i a Hik Hi Hk. destruct (decide (old = i)) as [<-|Hne].
    + rewrite list_lookup_insert_eq in Hi by done. injection Hi as <-. simpl in Hk.
      apply list_elem_of_In in Hk. simpl in Hk. intuition discriminate.
    + rewrite list_lookup_insert_ne in Hi by done. by eapply H3.
  - intros i a Hin Hi. destruct (decide (old = i)) as [<-|Hne].
    + rewrite list_lookup_insert_eq in Hi by done. by injection Hi as <-.
    + rewrite list_lookup_insert_ne in Hi by done.
      apply elem_of_cons in Hin as [->|Hin]; [done |]. by eapply H4.
Qed.

Lemma update_active k raw paired old item active :
  pair_inv k (raw, paired) -> raw !! k = Some active -> active_kind (NativeAction.kind active) ->
  raw !! old = Some item -> NativeAction.repository item = "@System" ->
  NativeAction.kind item <> "obsoleted" -> replacing_kind (NativeAction.kind active) ->
  pair_inv (S k) (<[k := NativeAction.set_installed active (NativeAction.old_nevra item)
      (NativeAction.installed_instance item) (NativeAction.installed_header_sha256 item)]> raw,
    old :: paired).
Proof.
  intros [H1 H5 H2 H3 H4] Hk Hactive Hold Hsys Hkind Hrep. simpl in *.
  assert (Hlen : (k < length raw)%nat) by (by eapply lookup_lt_Some).
  destruct (H1 old item Hold Hsys) as (p & Hp & Ho & Hi & Hh).
  assert (Hid : identified inv (NativeAction.set_installed active (NativeAction.old_nevra item)
      (NativeAction.installed_instance item) (NativeAction.installed_header_sha256 item)))
    by (by exists p).
  constructor; simpl.
  - intros i a Hia Hr. destruct (decide (k = i)) as [<-|Hne].
    + rewrite list_lookup_insert_eq in Hia by done. by injection Hia as <-.
    + rewrite list_lookup_insert_ne in Hia by done. by eapply H1.
  - intros i a Hia Hr Hn. destruct (decide (k = i)) as [<-|Hne].
    + rewrite list_lookup_insert_eq in Hia by done. injection Hia as <-. by destruct Hn.
    + rewrite list_lookup_insert_ne in Hia by done. by eapply H5.
  - intros i a id Hia Hpr.
    assert (Hold' : exists a', raw !! i = Some a' /\ NativeAction.provenance a' = Some (SolverProvenance.ObsoletedBy id)
      /\ NativeAction.kind a = NativeAction.kind a').
    { destruct (decide (k = i)) as [<-|Hne].
      - rewrite list_lookup_insert_eq in Hia by done. injection Hia as <-. by exists active.
      - rewrite list_lookup_insert_ne in Hia by done. by exists a. }
    destruct Hold' as (a' & Ha' & Hpr' & ->).
    destruct (H2 i a' id Ha' Hpr') as (Hke & j & b & Hj & Hb & ->). split; [done |].
    destruct (decide (k = j)) as [<-|Hne].
    + rewrite Hk in Hj. injection Hj as ->. exists k. eexists.
      split; [by apply list_lookup_insert_eq | done].
    + exists j, b. split; [by rewrite list_lookup_insert_ne | done].
  - intros i a Hik Hia Hr. destruct (decide (k = i)) as [<-|Hne].
    + rewrite list_lookup_insert_eq in Hia by done. by injection Hia as <-.
    + rewrite list_lookup_insert_ne in Hia by done. apply (H3 i a); [lia | done | done].
  - intros i a Hin Hia. destruct (decide (k = i)) as [<-|Hne].
    + rewrite list_lookup_insert_eq in Hia by done. injection Hia as <-. simpl.
      apply list_elem_of_In in Hactive. simpl in Hactive. intros Hc. rewrite Hc in Hactive.
      intuition discriminate.
    + rewrite list_lookup_insert_ne in Hia by done.
      apply elem_of_cons in Hin as [->|Hin]; [congruence |]. by eapply H4.
Qed.

(** All the old sides of one obsoleting action. *)
Lemma obsolete_fold k index parent matches raw paired st' :
  pair_inv k (raw, paired) -> NoDup matches ->
  (forall o, o ∈ matches -> exists it, raw !! o = Some it /\ NativeAction.kind it = "obsoleted") ->
  (exists j b, raw !! j = Some b /\ active_kind (NativeAction.kind b) /\ parent = parent_text b) ->
  fold_result (pair_old index "obsoleted" parent) (raw, paired) matches = Ok st' ->
  pair_inv k st' /\
  (forall i a, raw !! i = Some a -> NativeAction.kind a <> "obsoleted" -> st'.1 !! i = Some a) /\
  length st'.1 = length raw.
Proof.
  revert raw paired. induction matches as [|o matches IH]; intros raw paired Hinv Hnd Hm Hp; cbn [fold_result].
  { intros [= <-]. by split. }
  apply NoDup_cons in Hnd as [Ho Hnd]. intros E. apply bind_ok in E as (st1 & E1 & E).
  unfold pair_old in E1. destruct (Hm o (list_elem_of_here _ _)) as (it & Hit & Hk). rewrite Hit in E1.
  apply bind_ok in E1 as ([] & _ & E1). rewrite bool_decide_eq_true_2 in E1 by done. injection E1 as <-.
  assert (Hkeep : forall i a, raw !! i = Some a -> NativeAction.kind a <> "obsoleted" ->
    <[o := NativeAction.set_obsoleted it parent]> raw !! i = Some a).
  { intros i a Hi Ha. rewrite list_lookup_insert_ne; [done |]. intros ->. congruence. }
  apply IH in E as (Hinv' & Hst & Hlen).
  - split; [done |]. split; [| by rewrite Hlen, length_insert]. intros i a Hi Ha.
    apply Hst; auto.
  - by apply update_obsoleted.
  - done.
  - intros o' Ho'. destruct (Hm o' (list_elem_of_further _ _ _ Ho')) as (it' & Hit' & Hk').
    exists it'. split; [| done]. rewrite list_lookup_insert_ne; [done |]. by intros ->.
  - destruct Hp as (j & b & Hj & Hb & ->). exists j, b. split; [| done]. apply Hkeep; [done |].
    intros Hc. rewrite Hc in Hb. apply list_elem_of_In in Hb. simpl in Hb. intuition discriminate.
Qed.

Lemma string_mem_false s l : existsb (String.eqb s) l = false -> s ∉ l.
Proof.
  intros Hf%existsb_false Hs. rewrite Forall_forall in Hf. specialize (Hf s Hs).
  by rewrite String.eqb_refl in Hf.
Qed.

(** The kinds [old_kind] knows, and what they mean. *)
Lemma old_kind_some kind old :
  old_kind kind = Some old ->
  active_kind kind /\
  ((kind = "obsoletes" /\ old = "obsoleted") \/ (replacing_kind kind /\ old <> "obsoleted" /\ ~ replacing_kind old)).
Proof.
  assert (Hact : forall x, existsb (String.eqb x)
      ["install"; "upgrade"; "downgrade"; "reinstall"; "change"; "obsoletes"] = true -> active_kind x).
  { intros x (y & Hy & ->%String.eqb_eq)%existsb_true. done. }
  assert (Hrep : forall x, existsb (String.eqb x) ["upgrade"; "downgrade"; "reinstall"; "change"] = true ->
      replacing_kind x).
  { intros x (y & Hy & ->%String.eqb_eq)%existsb_true. done. }
  unfold old_kind.
  do 4 (case_bool_decide; [subst; intros [= <-]; split; [by apply Hact |]; right; split_and!;
    [by apply Hrep | done | by apply string_mem_false] |]).
  case_bool_decide; [| done]. subst. intros [= <-]. split; [by apply Hact | by left].
Qed.

Lemma old_kind_none kind : old_kind kind = None -> ~ replacing_kind kind.
Proof.
  unfold old_kind. repeat (case_bool_decide; [done |]). intros _ Hr.
  apply list_elem_of_In in Hr. simpl in Hr. intuition congruence.
Qed.

(** A turn that leaves a new side which is no replacement is over. *)
Lemma pair_inv_skip k st :
  pair_inv k st -> (forall a, st.1 !! k = Some a -> ~ replacing_kind (NativeAction.kind a)) ->
  pair_inv (S k) st.
Proof.
  intros [H1 H2 H3 H4 H5] Hk. constructor; try done. intros i a Hik Hi Hr.
  destruct (decide (i = k)) as [->|]; [by destruct (Hk a Hi) | apply (H4 i a); [lia | done..]].
Qed.

Lemma pair_active_inv k st st' :
  pair_inv k st -> pair_active st k = Ok st' -> pair_inv (S k) st' /\ length st'.1 = length st.1.
Proof.
  intros Hinv. unfold pair_active. destruct (st.1 !! k) as [active|] eqn:Hk; cycle 1.
  { intros [= <-]. split; [| done]. apply pair_inv_skip; [done |]. intros a Ha. congruence. }
  destruct (old_kind (NativeAction.kind active)) as [old|] eqn:Hold; cycle 1.
  { intros [= <-]. split; [| done]. apply pair_inv_skip; [done |]. intros a Ha.
    rewrite Hk in Ha. injection Ha as <-. by apply old_kind_none. }
  intros E. apply bind_ok in E as (name & _ & E). apply bind_ok in E as ([] & Hne%reject_if_ok & E).
  apply bind_ok in E as ([] & Hone%reject_if_ok & E).
  set (matches := positions (is_old_side active old name) st.1) in *.
  assert (Hmatch : forall o, o ∈ matches ->
    exists it, st.1 !! o = Some it /\ is_old_side active old name it)
    by (intros o Ho; by apply (positions_spec (is_old_side active old name))).
  destruct st as [raw paired]. simpl in *.
  apply old_kind_some in Hold as (Hactive & [[Hkind ->]|(Hrep & Hobs & Hnrep)]).
  - assert (Hfold := obsolete_fold k k (parent_text active) matches raw paired st' Hinv).
    destruct Hfold as (Hinv' & Hkeep & Hlen); [apply positions_NoDup | | | done |].
    + intros o (it & Hit & Hside)%Hmatch. exists it. by destruct Hside.
    + by exists k, active.
    + split; [| done]. apply pair_inv_skip; [done |]. intros a Ha.
      rewrite (Hkeep k active Hk) in Ha by (by rewrite Hkind). injection Ha as <-.
      rewrite Hkind. by apply string_mem_false.
  - rewrite bool_decide_eq_true_2 in Hone by done. simpl in Hone.
    apply negb_false_iff, Nat.eqb_eq in Hone.
    destruct matches as [|o [|? ?]] eqn:Hm; try done.
    destruct (Hmatch o) as (item & Hitem & Hit_kind & Hsys & _); [left |].
    cbn [fold_result] in E. apply bind_ok in E as (st1 & E & [= <-]). unfold pair_old in E.
    rewrite Hitem in E. apply bind_ok in E as ([] & _ & E).
    rewrite bool_decide_eq_false_2 in E by done. rewrite Hk in E. injection E as <-. simpl.
    rewrite length_insert. split; [| done].
    rewrite <- (pi_old _ _ Hinv o item Hitem Hsys); [| by rewrite Hit_kind].
    apply update_active; try done. by rewrite Hit_kind.
Qed.

Lemma pair_loop_inv n k st st' :
  pair_inv k st -> fold_result pair_active st (seq k n) = Ok st' ->
  pair_inv (k + n) st' /\ length st'.1 = length st.1.
Proof.
  revert k st. induction n as [|n IH]; intros k st Hinv; cbn [fold_result seq].
  - intros [= <-]. by rewrite Nat.add_0_r.
  - intros E. apply bind_ok in E as (st1 & E1 & E).
    apply pair_active_inv in E1 as [Hinv1 Hl1]; [| done].
    apply IH in E as [Hinv' Hl']; [| done]. rewrite Nat.add_succ_r. split; [done | congruence].
Qed.

Lemma left_over_inv k l st st' :
  pair_inv k st -> fold_result pair_left_over st l = Ok st' ->
  pair_inv k st' /\ length st'.1 = length st.1.
Proof.
  revert st. induction l as [|o l IH]; intros st Hinv; cbn [fold_result]; [by intros [= <-] |].
  intros E. apply bind_ok in E as (st1 & E1 & E).
  assert (H1 : pair_inv k st1 /\ length st1.1 = length st.1).
  { unfold pair_left_over in E1. destruct st as [raw paired]. simpl.
    destruct (raw !! o) as [item|] eqn:Hitem; [| by injection E1 as <-].
    destruct (bool_decide (NativeAction.kind item <> "obsoleted") || bool_decide (o ∈ paired)) eqn:Hc;
      [by injection E1 as <- |].
    apply orb_false_iff in Hc as [Hkind%bool_decide_eq_false _]. apply dec_stable in Hkind.
    apply bind_ok in E1 as (counterpart & _ & E1).
    destruct (base.filter _ raw) as [|active [|? ?]] eqn:Hf; try done. injection E1 as <-. simpl.
    rewrite length_insert. split; [| done]. apply update_obsoleted; [done.. |].
    assert (Hin : active ∈ base.filter (fun a => NativeAction.repository a <> "@System" /\
      NativeAction.nevra a = counterpart /\ active_kind (NativeAction.kind a)) raw) by (rewrite Hf; left).
    apply list_elem_of_filter in Hin as [(_ & _ & Ha) Hin].
    apply list_elem_of_lookup in Hin as (j & Hj). by exists j, active. }
  destruct H1 as [Hinv1 Hl1]. apply IH in E as [Hinv' Hl']; [| done]. split; [done | congruence].
Qed.

Lemma identify_old_inv raw raw' :
  (forall a, a ∈ raw -> NativeAction.provenance a = None) ->
  mapM (identify_old inv) raw = Ok raw' -> pair_inv 0 (raw', []).
Proof.
  intros Hraw Hm%mapM_ok.
  assert (Hall : forall i a, raw' !! i = Some a -> NativeAction.provenance a = None /\
    (NativeAction.repository a = "@System" ->
     identified inv a /\ NativeAction.old_nevra a = Some (NativeAction.nevra a))).
  { intros i a Hi. destruct (Forall2_lookup_r _ _ _ _ _ Hm Hi) as (a0 & Hi0 & E).
    specialize (Hraw a0 (list_elem_of_lookup_2 _ _ _ Hi0)). unfold identify_old in E.
    case_bool_decide as Hsys; [| injection E as <-; done].
    apply bind_ok in E as (p & Hp & [= <-]). simpl. split; [done |]. intros _.
    unfold unique_installed in Hp. destruct (base.filter _ _) as [|q [|? ?]] eqn:Hf; try done.
    injection Hp as ->.
    assert (Hin : p ∈ base.filter (fun item => installed_nevra item = NativeAction.nevra a0)
      (InstalledInventory.packages inv)) by (rewrite Hf; left).
    apply list_elem_of_filter in Hin as [Hn Hin]. split; [| done].
    exists p. simpl. by rewrite Hn. }
  constructor; simpl.
  - intros i a Hi Hs. by apply (Hall i a Hi).
  - intros i a Hi Hs _. by apply (Hall i a Hi).
  - intros i a id Hi Hp. destruct (Hall i a Hi) as [Hn _]. congruence.
  - intros i a Hlt. lia.
  - by intros i a ?%not_elem_of_nil.
Qed.
End pairing.

(** Pairing leaves no old side behind: of the actions that come out none is the passive
    half of a replacement or an unexplained obsoleted package; every upgrade, downgrade,
    reinstall or change names exactly one installed package by version, instance and header;
    and every removal blamed on an obsoleting action names one that is among the results. *)
Theorem pair_actions_sound (raw : list NativeAction.t) (inv : InstalledInventory.t)
    (out : list NativeAction.t)
    (Hraw : forall a, a ∈ raw -> NativeAction.provenance a = None)
    (Hok : pair_actions raw inv = Ok out) :
  forall a, a ∈ out ->
    ~ passive_kind (NativeAction.kind a) /\ NativeAction.kind a <> "obsoleted" /\
    (replacing_kind (NativeAction.kind a) -> identified inv a) /\
    (forall id, NativeAction.provenance a = Some (SolverProvenance.ObsoletedBy id) ->
       NativeAction.kind a = "erase" /\
       exists b, b ∈ out /\ active_kind (NativeAction.kind b) /\ id = parent_text b).
Proof.
  unfold pair_actions in Hok. apply bind_ok in Hok as (raw1 & Hid & E).
  pose proof (identify_old_inv inv _ _ Hraw Hid) as H0.
  apply bind_ok in E as (st1 & E1 & E). apply (pair_loop_inv inv) in E1 as [H1 Hl1]; [| done].
  apply bind_ok in E as (st2 & E2 & E). apply (left_over_inv inv (0 + length raw1)) in E2 as [H2 Hl2]; [| done].
  apply bind_ok in E as ([] & Hfind & [= <-]).
  destruct (List.find (is_unpaired st2.2) (imap pair st2.1)) as [[]|] eqn:Hnone; [done |].
  intros a [Hpass Ha]%list_elem_of_filter. apply list_elem_of_lookup in Ha as (i & Hi).
  assert (Hlt : (i < 0 + length raw1)%nat).
  { apply lookup_lt_Some in Hi. rewrite Hl2, Hl1 in Hi. simpl in Hi. simpl. lia. }
  split_and!; [done | | by apply (pi_done _ _ _ H2 i) |].
  - intros Hobs. assert (Hin : (i, a) ∈ imap pair st2.1) by (by apply elem_of_imap_pair).
    apply list_elem_of_In in Hin. pose proof (List.find_none _ _ Hnone _ Hin) as Hf.
    unfold is_unpaired in Hf. simpl in Hf. rewrite bool_decide_eq_true_2 in Hf by (by right).
    simpl in Hf. apply negb_false_iff, bool_decide_eq_true in Hf.
    by apply (pi_paired _ _ _ H2 i a Hf Hi).
  - intros id Hp. destruct (pi_obsoleted _ _ _ H2 i a id Hi Hp) as (Hk & j & b & Hj & Hb & ->).
    split; [done |]. exists b. split; [| done]. apply list_elem_of_filter.
    split; [| by eapply list_elem_of_lookup_2]. intros Hc. apply list_elem_of_In in Hc, Hb.
    simpl in Hc, Hb. intuition congruence.
Qed.
End PairFacts.

(** ** A concrete transaction *)

Module NativeExamples.
Import NativeSolveOutput.

Definition old_demo : InstalledPackage.t :=
  InstalledPackage.mk "demo" (Evra.mk 0 "1" "1" Architecture.X86_64) "Fedora" 7 1
    InventoryFacts.witness_digest.
Definition old_plugin : InstalledPackage.t :=
  InstalledPackage.mk "demo-plugin" (Evra.mk 0 "1" "1" Architecture.X86_64) "Fedora" 8 1
    InventoryFacts.witness_digest.
Definition inventory : InstalledInventory.t :=
  InstalledInventory.mk 1 "/" "sqlite" "6" [old_demo; old_plugin].

Definition native (kind repository nevra counterpart : string) : NativeAction.t :=
  NativeAction.mk kind repository nevra None None None None false None (Some counterpart).

(** An upgrade that also obsoletes a second installed package. *)
Definition columns : list NativeAction.t :=
  [ native "upgrade" "fedora" "demo-0:2-1.x86_64" "demo-0:1-1.x86_64";
    native "upgraded" "@System" "demo-0:1-1.x86_64" "demo-0:2-1.x86_64";
    native "obsoleted" "@System" "demo-plugin-0:1-1.x86_64" "demo-0:2-1.x86_64" ].

Definition paired : list NativeAction.t :=
  [ NativeAction.mk "upgrade" "fedora" "demo-0:2-1.x86_64" (Some "demo-0:1-1.x86_64") (Some 7)
      (Some (Sha256Digest.as_str InventoryFacts.witness_digest)) None false None
      (Some "demo-0:1-1.x86_64");
    NativeAction.mk "erase" "@System" "demo-plugin-0:1-1.x86_64" (Some "demo-plugin-0:1-1.x86_64")
      (Some 8) (Some (Sha256Digest.as_str InventoryFacts.witness_digest)) None false
      (Some (SolverProvenance.ObsoletedBy "fedora:demo-0:2-1.x86_64")) (Some "demo-0:2-1.x86_64") ].

Lemma pair_actions_sound_witness :
  exists b, b ∈ paired /\ active_kind (NativeAction.kind b) /\
    "fedora:demo-0:2-1.x86_64" = parent_text b.
Proof.
  assert (Hraw : forall a, a ∈ columns -> NativeAction.provenance a = None).
  { intros a Ha. apply list_elem_of_In in Ha. simpl in Ha.
    repeat (destruct Ha as [<-|Ha]; [reflexivity |]). destruct Ha. }
  assert (Hok : pair_actions columns inventory = Ok paired) by (vm_compute; reflexivity).
  refine (proj2 (proj2 (proj2 (proj2 (PairFacts.pair_actions_sound columns inventory paired Hraw Hok
    (NativeAction.mk "erase" "@System" "demo-plugin-0:1-1.x86_64" (Some "demo-plugin-0:1-1.x86_64")
      (Some 8) (Some (Sha256Digest.as_str InventoryFacts.witness_digest)) None false
      (Some (SolverProvenance.ObsoletedBy "fedora:demo-0:2-1.x86_64")) (Some "demo-0:2-1.x86_64")) _))) _ _)).
  - apply list_elem_of_In. right. left. reflexivity.
  - reflexivity.
Defined.

Definition new_demo : CandidatePackage.t :=
  CandidatePackage.mk "demo" (Evra.mk 0 "2" "1" Architecture.X86_64) "Fedora" "fedora" 99 1000 10 20
    "aaaaaaaaaaaaaaaaaaaaaaaaaaaaaaaaaaaaaaaaaaaaaaaaaaaaaaaaaaaaaaaa" "Packages/demo.rpm" false false.

Definition output : t :=
  mk "aaaaaaaaaaaaaaaaaaaaaaaaaaaaaaaaaaaaaaaaaaaaaaaaaaaaaaaaaaaaaaaa" paired [] [PackageSpec.mk "bash"].

Lemma into_resolved_sound_witness :
  exists out, into_resolved_evidence output ["bash"] [new_demo] [] inventory = Ok out /\
    (PackageSpec.as_str <$> omap ResolvedAction.requested_spec out) ++ ["bash"] ≡ₚ ["bash"].
Proof.
  eexists. split; [vm_compute; reflexivity |].
  refine (proj1 (ResolveFacts.into_resolved_sound output ["bash"] [new_demo] [] inventory _ _)).
  vm_compute. reflexivity.
Defined.
End NativeExamples.
