(* ===== verification/RustText.v ===== *)
(** * Rust text processing

    The part of [str] that the configuration readers use: lines, white space, the parsing of
    unsigned integers, and paths.  White space is Unicode's, so [trim] and
    [split_whitespace] look at the characters of the UTF-8 text; delimiters are ASCII and can
    be searched for among the bytes. *)
From Stdlib Require Import Ascii.
From S2P Require Import Prelude.
From S2P Require Import RustStr.

#[local] Open Scope N_scope.

(** ** Characters as the bytes that encode them *)

Fixpoint utf8_chunks (l : list byte) : list (list byte) :=
  match l with
  | [] => []
  | a :: t =>
      let x := byte_val a in
      if x <? 128 then [a] :: utf8_chunks t
      else if x <? 224 then
        match t with b :: t => [a; b] :: utf8_chunks t | _ => [] end
      else if x <? 240 then
        match t with b :: c :: t => [a; b; c] :: utf8_chunks t | _ => [] end
      else
        match t with b :: c :: d :: t => [a; b; c; d] :: utf8_chunks t | _ => [] end
  end.

Definition chunk_is_whitespace (chunk : list byte) : bool :=
  forallb char_is_whitespace (utf8_decode chunk).

(** [str::trim]. *)
Definition trim_start_chunks (l : list (list byte)) : list (list byte) :=
  drop_while chunk_is_whitespace l.
Definition trim_bytes (l : list byte) : list byte :=
  concat (rev (trim_start_chunks (rev (trim_start_chunks (utf8_chunks l))))).
Definition trim (s : string) : string := of_bytes (trim_bytes (bytes s)).

(** [str::split_whitespace]. *)
Fixpoint split_chunks (word : list byte) (l : list (list byte)) : list (list byte) :=
  match l with
  | [] => match word with [] => [] | _ => [word] end
  | c :: t =>
      if chunk_is_whitespace c
      then match word with [] => split_chunks [] t | _ => word :: split_chunks [] t end
      else split_chunks (word ++ c) t
  end.
Definition split_whitespace (s : string) : list string :=
  of_bytes <$> split_chunks [] (utf8_chunks (bytes s)).

(** [str::lines]: a final line without a line feed keeps its carriage return. *)
Definition strip_return (line : list byte) : list byte :=
  match rev line with
  | c :: t => if decide (c = "013"%char) then rev t else line
  | [] => []
  end.

Fixpoint lines_from (line l : list byte) : list (list byte) :=
  match l with
  | [] => match line with [] => [] | _ => [line] end
  | b :: t =>
      if decide (b = "010"%char) then strip_return line :: lines_from [] t
      else lines_from (line ++ [b]) t
  end.
Definition lines (s : string) : list string := of_bytes <$> lines_from [] (bytes s).

(** A text with these lines. *)
Definition unlines (l : list string) : string :=
  of_bytes (concat ((fun line => bytes line ++ ["010"%char]) <$> l)).

(** [iter().enumerate()], counting from one. *)
Fixpoint numbered {A} (number : N) (l : list A) : list (N * A) :=
  match l with
  | [] => []
  | x :: t => (number, x) :: numbered (number + 1) t
  end.

Definition str_starts_with (prefix s : string) : bool := starts_with (bytes prefix) (bytes s).
Definition str_ends_with (suffix s : string) : bool :=
  starts_with (rev (bytes suffix)) (rev (bytes s)).
Definition str_contains (pattern s : string) : bool := contains (bytes pattern) (bytes s).
Definition str_strip_prefix (prefix s : string) : option string :=
  of_bytes <$> strip_prefix (bytes prefix) (bytes s).

(** [&line[1..line.len() - 1]] of a line in brackets. *)
Definition between_brackets (line : string) : string :=
  of_bytes (removelast (tail (bytes line))).

(** [str::parse] of an unsigned integer type with largest value [max]. *)
Definition digits_value (l : list byte) : N := foldl (fun v b => 10 * v + (byte_val b - 48)) 0 l.
Definition parse_unsigned (max : N) (s : string) : option N :=
  let digits := match bytes s with
                | c :: t => if decide (c = "+"%char) then t else c :: t
                | [] => []
                end in
  if bool_decide (digits = []) || negb (forallb is_ascii_digit digits)
     || (max <? digits_value digits)
  then None else Some (digits_value digits).

Definition u16_max : N := 65535.
Definition u32_max : N := 4294967295.

(** The texts of booleans in configuration files. *)
Definition boolean_text (value : string) : option bool :=
  let value := to_ascii_lowercase value in
  if bool_decide (value ∈ ["1"; "true"; "yes"; "on"]) then Some true
  else if bool_decide (value ∈ ["0"; "false"; "no"; "off"]) then Some false
  else None.

(** A blank line or a comment of a configuration file. *)
Definition skipped_line (line : string) : bool :=
  str_is_empty line || str_starts_with "#" line || str_starts_with ";" line.

(** [to_be_bytes] and [from_be_bytes] of unsigned integers of [width] bytes. *)
Fixpoint be_bytes (width : nat) (n : N) : list byte :=
  match width with
  | O => []
  | S width => be_bytes width (n / 256) ++ [Ascii.ascii_of_N (n mod 256)]
  end.
Definition u64_be (n : N) : list byte := be_bytes 8 n.
Definition u32_be (n : N) : list byte := be_bytes 4 n.

Definition be_value (l : list byte) : N := foldl (fun v b => 256 * v + byte_val b) 0 l.

(** [slice.get(from..to)]. *)
Definition get_range {A} (l : list A) (from to : N) : option (list A) :=
  if (from <=? to) && (to <=? N.of_nat (length l))
  then Some (take (N.to_nat (to - from)) (drop (N.to_nat from) l)) else None.

(** [u8::is_ascii_whitespace]. *)
Definition is_ascii_whitespace (b : byte) : bool :=
  bool_decide (byte_val b ∈ [32; 9; 10; 12; 13]).

(** [String::from_utf8]. *)
Definition continuation (b : byte) : bool := in_range 128 191 (byte_val b).

Fixpoint valid_utf8 (l : list byte) : bool :=
  match l with
  | [] => true
  | a :: t =>
      let x := byte_val a in
      if x <? 128 then valid_utf8 t
      else if in_range 194 223 x then
        match t with b :: t => continuation b && valid_utf8 t | _ => false end
      else if in_range 224 239 x then
        match t with
        | b :: c :: t =>
            in_range (if x =? 224 then 160 else 128) (if x =? 237 then 159 else 191) (byte_val b)
            && continuation c && valid_utf8 t
        | _ => false
        end
      else if in_range 240 244 x then
        match t with
        | b :: c :: d :: t =>
            in_range (if x =? 240 then 144 else 128) (if x =? 244 then 143 else 191) (byte_val b)
            && continuation c && continuation d && valid_utf8 t
        | _ => false
        end
      else false
  end.

Definition from_utf8 (l : list byte) : option string :=
  if valid_utf8 l then Some (of_bytes l) else None.

(** ** Laws *)

Lemma concat_utf8_chunks_ascii l :
  forallb (fun b => byte_val b <? 128) l = true -> utf8_chunks l = (fun b => [b]) <$> l.
Proof.
  induction l as [|b l IH]; [done |]. simpl. intros [Hb Hl]%andb_true_iff. rewrite Hb. by rewrite IH.
Qed.

Lemma numbered_fst {A} n (l : list A) i p : numbered n l !! i = Some p -> p.1 = n + N.of_nat i.
Proof.
  revert n i. induction l as [|x l IH]; intros n [|i] Hi; simpl in Hi; [done | done | |].
  - injection Hi as <-. simpl. lia.
  - apply IH in Hi. lia.
Qed.

Lemma numbered_snd {A} n (l : list A) : (numbered n l).*2 = l.
Proof. revert n. induction l as [|x l IH]; intros n; [done |]. csimpl. by rewrite IH. Qed.

Lemma split_chunks_nonempty l : forall word w, w ∈ split_chunks word l -> w <> [].
Proof.
  assert (Hc : forall c, chunk_is_whitespace c = false -> c <> []).
  { intros c Hc ->. done. }
  induction l as [|c l IH]; intros word w; simpl.
  - destruct word; [by intros ?%elem_of_nil |]. by intros ->%list_elem_of_singleton.
  - destruct (chunk_is_whitespace c); [destruct word as [|b word] |].
    + apply IH.
    + intros [->|Hw]%elem_of_cons; [done | by apply (IH [])].
    + apply IH.
Qed.

(** A loop over numbered lines keeps an invariant about the lines read so far. *)
Lemma fold_numbered_ind {E S A} (f : S -> N * A -> result E S) (P : list A -> S -> Prop) l : forall n s s',
  P [] s ->
  (forall pre x s1 s2, P pre s1 -> f s1 (n + N.of_nat (length pre), x) = Ok s2 -> P (pre ++ [x]) s2) ->
  fold_result f s (numbered n l) = Ok s' -> P l s'.
Proof.
  intros n s s' H0 Hstep. change l with ([] ++ l) at 2.
  assert (Hn : n = n + N.of_nat (@length A [])) by (simpl; lia). rewrite Hn at 1. clear Hn.
  revert s H0. generalize (@nil A) as pre. induction l as [|x l IH]; intros pre s Hp Hf; simpl in Hf.
  - injection Hf as <-. by rewrite app_nil_r.
  - apply bind_ok in Hf as (s1 & H1 & Hf). replace (pre ++ x :: l) with ((pre ++ [x]) ++ l)
      by (by rewrite <- app_assoc).
    apply (IH (pre ++ [x]) s1); [by eapply Hstep |].
    rewrite length_app. simpl. by replace (n + N.of_nat (length pre + 1)) with
      (n + N.of_nat (length pre) + 1) by lia.
Qed.

(** ** Big-endian integers *)

Lemma length_be_bytes width n : length (be_bytes width n) = width.
Proof. revert n. induction width as [|k IH]; intros n; simpl; [done |]. rewrite length_app, IH. simpl. lia. Qed.

Lemma be_bytes_inj width : forall a b,
  a < 256 ^ N.of_nat width -> b < 256 ^ N.of_nat width -> be_bytes width a = be_bytes width b -> a = b.
Proof.
  induction width as [|k IH]; intros a b Ha Hb Heq; simpl in Heq; [simpl in *; lia |].
  apply app_inj_tail in Heq as [Hhi Hlo].
  rewrite Nat2N.inj_succ, N.pow_succ_r' in Ha, Hb.
  assert (Hq : a / 256 = b / 256).
  { apply IH; [apply N.Div0.div_lt_upper_bound; lia .. | done]. }
  assert (Hr : a mod 256 = b mod 256).
  { apply (f_equal Ascii.N_of_ascii) in Hlo.
    rewrite !Ascii.N_ascii_embedding in Hlo by (apply N.mod_lt; lia). done. }
  rewrite (N.div_mod' a 256), (N.div_mod' b 256). congruence.
Qed.

Lemma be_value_app a b : be_value (a ++ b) = be_value a * 256 ^ N.of_nat (length b) + be_value b.
Proof.
  unfold be_value. rewrite foldl_app. generalize (foldl (fun v b => 256 * v + byte_val b) 0 a) as v.
  induction b as [|x b IH]; intros v; cbn [foldl length]; [simpl; lia |].
  rewrite IH, (IH (256 * 0 + _)), Nat2N.inj_succ, N.pow_succ_r'. lia.
Qed.

Lemma be_value_be_bytes width : forall n, n < 256 ^ N.of_nat width -> be_value (be_bytes width n) = n.
Proof.
  induction width as [|k IH]; intros n Hn; simpl; [simpl in Hn; unfold be_value; simpl; lia |].
  rewrite Nat2N.inj_succ, N.pow_succ_r' in Hn.
  rewrite be_value_app, IH by (apply N.Div0.div_lt_upper_bound; lia).
  unfold be_value. cbn [foldl length]. rewrite byte_val_of_N by (apply N.mod_lt; lia).
  change (N.of_nat 1) with 1. rewrite N.pow_1_r. pose proof (N.div_mod' n 256). lia.
Qed.

(** ** Hexadecimal

    A concrete codec, with which the parameters of other files can be instantiated. *)

Definition hex_encode (l : list byte) : string :=
  of_bytes (concat ((fun b => [hex_digit (byte_val b / 16); hex_digit (byte_val b mod 16)]) <$> l)).

Definition hex_value (b : byte) : option N :=
  let v := byte_val b in
  if in_range 48 57 v then Some (v - 48)
  else if in_range 97 102 v then Some (v - 87)
  else if in_range 65 70 v then Some (v - 55) else None.

Fixpoint hex_pairs (l : list byte) : option (list byte) :=
  match l with
  | [] => Some []
  | a :: b :: l => a ← hex_value a; b ← hex_value b; l ← hex_pairs l; Some (Ascii.ascii_of_N (16 * a + b) :: l)
  | [_] => None
  end.

Definition hex_decode (s : string) : option (list byte) := hex_pairs (bytes s).
