(* ===== verification/Variables.v ===== *)
(** * Repository variables ([dnfast-repo]: variables.rs, error.rs)

    The expansion of [$name] and [${name}]; the delimiters are ASCII, so the loop over
    characters is a loop over bytes. *)
From Stdlib Require Import Ascii.
From S2P Require Import Prelude.
From S2P Require Import RustStr.
From S2P Require Import RustText.

#[local] Open Scope N_scope.

Module RepoError.
Inductive t : Type :=
  | Parse (path : string) (line : N) (message : string)
  | UnresolvedVariable (variable : string)
  | MalformedVariable (value : string)
  | Io (path source : string)
  | InvalidUtf8 (path : string).

#[global] Instance repo_error_eq_dec : EqDecision t.
Proof. solve_decision. Defined.

Definition to_string (e : t) : string :=
  match e with
  | Parse path line message => path +:+ ":" +:+ display line +:+ ": " +:+ message
  | UnresolvedVariable variable => "unresolved repository variable: " +:+ variable
  | MalformedVariable value => "malformed repository variable in: " +:+ value
  | Io path source => path +:+ ": " +:+ source
  | InvalidUtf8 path => path +:+ ": repository file is not valid UTF-8"
  end.
End RepoError.

Definition parse_error {A} (path : string) (line : N) (message : string) : result RepoError.t A :=
  Err (RepoError.Parse path line message).

Module Variables.
Record t : Type := mk { values : gmap string string }.

Definition default : t := mk ∅.

(** [from_pairs]: a later pair replaces an earlier one. *)
Definition from_pairs (pairs : list (string * string)) : t :=
  mk (foldl (fun m p => <[p.1 := p.2]> m) ∅ pairs).

Definition with_system_release_and_arch (v : t) (releasever basearch : string) : t :=
  mk (<["arch" := basearch]> (<["basearch" := basearch]> (<["releasever" := releasever]> (values v)))).

Definition name_start (b : byte) : bool := bool_decide (b = "_"%char) || is_ascii_alphabetic b.
Definition name_byte (b : byte) : bool := bool_decide (b = "_"%char) || is_ascii_alphanumeric b.

(** The value of a name, or the error. *)
Definition resolve (v : t) (input name : list byte) : result RepoError.t (list byte) :=
  _ ← reject_if (bool_decide (name = [])) (RepoError.MalformedVariable (of_bytes input));
  bytes <$> ok_or (RepoError.UnresolvedVariable (of_bytes name)) (values v !! of_bytes name).

(** The loop; each turn reads at least one byte, so the length of the input is enough fuel. *)
Fixpoint expand_loop (fuel : nat) (v : t) (input rest : list byte) : result RepoError.t (list byte) :=
  match fuel, rest with
  | _, [] => Ok []
  | O, _ => Ok []
  | S fuel, character :: rest =>
      if bool_decide (character <> "$"%char) then
        output ← expand_loop fuel v input rest; Ok (character :: output)
      else
        match rest with
        | [] => Ok ["$"%char]
        | next :: after =>
            if bool_decide (next = "$"%char) then
              output ← expand_loop fuel v input after; Ok ("$"%char :: output)
            else if bool_decide (next = "{"%char) then
              match split_once ["}"%char] after with
              | None => Err (RepoError.MalformedVariable (of_bytes input))
              | Some (name, rest) =>
                  value ← resolve v input name;
                  output ← expand_loop fuel v input rest; Ok (value ++ output)
              end
            else if name_start next then
              value ← resolve v input (take_while name_byte rest);
              output ← expand_loop fuel v input (drop_while name_byte rest); Ok (value ++ output)
            else
              output ← expand_loop fuel v input rest; Ok ("$"%char :: output)
        end
  end.

Definition expand (v : t) (input : string) : result RepoError.t string :=
  of_bytes <$> expand_loop (length (bytes input)) v (bytes input) (bytes input).
End Variables.

Module VariableFacts.
Import Variables.

(** ** Fuel *)

Lemma expand_fuel v input rest fuel fuel' :
  (length rest <= fuel)%nat -> (length rest <= fuel')%nat ->
  expand_loop fuel v input rest = expand_loop fuel' v input rest.
Proof.
  revert fuel' rest. induction fuel as [|fuel IH]; intros [|fuel'] [|c rest] Hf Hf'; simpl in *;
    try done; try lia.
  assert (E : forall l, (length l <= length rest)%nat ->
    expand_loop fuel v input l = expand_loop fuel' v input l) by (intros; apply IH; lia).
  case_bool_decide; [by rewrite E |]. destruct rest as [|next after]; [done |].
  case_bool_decide; [rewrite E; [done | simpl; lia] |].
  case_bool_decide.
  - destruct (split_once _ _) as [[name l]|] eqn:Es; [| done]. rewrite E; [done |].
    apply split_once_some in Es. subst. simpl. rewrite !length_app. simpl. lia.
  - destruct (name_start next); [| by rewrite E].
    rewrite E; [done |]. apply length_drop_while.
Qed.

Definition unfolded (v : t) (input rest : list byte) : result RepoError.t (list byte) :=
  expand_loop (length rest) v input rest.

(** ** Templates *)

(** What a template is made of. *)
Inductive piece : Type :=
  | Text (text : list byte)
  | Dollar
  | Name (name : list byte)
  | Braced (name : list byte).

Definition render_piece (p : piece) : list byte :=
  match p with
  | Text text => text
  | Dollar => ["$"%char; "$"%char]
  | Name name => "$"%char :: name
  | Braced name => "$"%char :: "{"%char :: name ++ ["}"%char]
  end.

Definition render (ps : list piece) : list byte := concat (render_piece <$> ps).

(** What the template stands for: the first unresolved name is the error. *)
Definition piece_value (v : t) (p : piece) : result RepoError.t (list byte) :=
  match p with
  | Text text => Ok text
  | Dollar => Ok ["$"%char]
  | Name name | Braced name =>
      bytes <$> ok_or (RepoError.UnresolvedVariable (of_bytes name)) (values v !! of_bytes name)
  end.

Fixpoint value (v : t) (ps : list piece) : result RepoError.t (list byte) :=
  match ps with
  | [] => Ok []
  | p :: ps => x ← piece_value v p; y ← value v ps; Ok (x ++ y)
  end.

(** A name ends where the next piece starts. *)
Definition starts_apart (ps : list piece) : Prop :=
  forall b, head (render ps) = Some b -> name_byte b = false.

Fixpoint well_formed (ps : list piece) : Prop :=
  match ps with
  | [] => True
  | p :: ps =>
      match p with
      | Text text => "$"%char ∉ text
      | Dollar => True
      | Name name => (exists b t, name = b :: t /\ name_start b = true) /\
          forallb name_byte name = true /\ starts_apart ps
      | Braced name => name <> [] /\ "}"%char ∉ name
      end /\ well_formed ps
  end.

Lemma take_while_app {A} (f : A -> bool) l k :
  forallb f l = true -> (forall b, head k = Some b -> f b = false) ->
  take_while f (l ++ k) = l /\ drop_while f (l ++ k) = k.
Proof.
  induction l as [|x l IH]; simpl; intros Hl Hk.
  - destruct k as [|b k]; [done |]. simpl. by rewrite (Hk b eq_refl).
  - apply andb_true_iff in Hl as [Hx Hl]. rewrite Hx. destruct (IH Hl Hk) as [-> ->]. done.
Qed.

Lemma name_start_dollar b : name_start b = true -> b <> "$"%char /\ b <> "{"%char.
Proof. intros Hb. split; intros ->; vm_compute in Hb; done. Qed.

Lemma bind_ok_app (c : result RepoError.t (list byte)) (a : list byte) :
  (x ← c; Ok (a ++ x)) = (y ← (x ← c; Ok x); Ok (a ++ y)).
Proof. by destruct c. Qed.

Lemma loop_step v input rest fuel :
  (length rest <= fuel)%nat -> expand_loop fuel v input rest = unfolded v input rest.
Proof. intros Hf. by apply expand_fuel. Qed.

Lemma unfolded_text v input text rest :
  "$"%char ∉ text ->
  unfolded v input (text ++ rest) = (output ← unfolded v input rest; Ok (text ++ output)).
Proof.
  induction text as [|c text IH]; intros Hn; simpl.
  { by destruct (unfolded v input rest). }
  apply not_elem_of_cons in Hn as [Hc Hn]. specialize (IH Hn). unfold unfolded in *. simpl.
  rewrite bool_decide_eq_true_2 by congruence. rewrite IH. by destruct (expand_loop _ _ _ rest).
Qed.

Lemma unfolded_dollar v input rest :
  unfolded v input ("$"%char :: "$"%char :: rest) =
    (output ← unfolded v input rest; Ok ("$"%char :: output)).
Proof.
  rewrite <- (loop_step _ _ _ (S (S (length rest)))) by done. remember (S (length rest)) as n eqn:En.
  cbn [expand_loop].
  rewrite bool_decide_eq_false_2 by (intros Hn; by apply Hn). rewrite bool_decide_eq_true_2 by done.
  by rewrite loop_step by lia.
Qed.

Lemma unfolded_braced v input name rest :
  "}"%char ∉ name ->
  unfolded v input ("$"%char :: "{"%char :: name ++ "}"%char :: rest) =
    (x ← resolve v input name; output ← unfolded v input rest; Ok (x ++ output)).
Proof.
  intros Hn. remember (length ("{"%char :: name ++ "}"%char :: rest)) as n eqn:En.
  rewrite <- (loop_step _ _ _ (S n)) by (subst; done). cbn [expand_loop].
  rewrite bool_decide_eq_false_2 by (intros Hf; by apply Hf).
  rewrite bool_decide_eq_false_2 by done. rewrite bool_decide_eq_true_2 by done.
  rewrite split_once_single by done.
  rewrite loop_step by (rewrite En; simpl; rewrite length_app; simpl; lia). done.
Qed.

Lemma unfolded_name v input name rest :
  (exists b t, name = b :: t /\ name_start b = true) -> forallb name_byte name = true ->
  (forall b, head rest = Some b -> name_byte b = false) ->
  unfolded v input ("$"%char :: name ++ rest) =
    (x ← resolve v input name; output ← unfolded v input rest; Ok (x ++ output)).
Proof.
  intros (b & t & -> & Hb) Hn Hr.
  remember (length ((b :: t) ++ rest)) as n eqn:En.
  rewrite <- (loop_step _ _ _ (S n)) by (subst; done). simpl app. cbn [expand_loop].
  destruct (name_start_dollar b Hb) as [H1 H2].
  rewrite bool_decide_eq_false_2 by (intros Hf; by apply Hf).
  rewrite bool_decide_eq_false_2 by done. rewrite bool_decide_eq_false_2 by done. rewrite Hb.
  change (b :: t ++ rest) with ((b :: t) ++ rest).
  destruct (take_while_app name_byte (b :: t) rest Hn Hr) as [-> ->].
  rewrite loop_step by (rewrite En; simpl; rewrite length_app; simpl; lia). done.
Qed.

Lemma resolve_name v input name :
  name <> [] -> resolve v input name =
    bytes <$> ok_or (RepoError.UnresolvedVariable (of_bytes name)) (values v !! of_bytes name).
Proof. intros Hn. unfold resolve. by rewrite bool_decide_eq_false_2. Qed.

Lemma unfolded_render v input ps : well_formed ps -> unfolded v input (render ps) = value v ps.
Proof.
  induction ps as [|p ps IH]; [done |]. intros [Hp Hps]. specialize (IH Hps).
  unfold render in *. cbn [fmap list_fmap concat value]. rewrite <- IH.
  destruct p as [text| |name|name]; cbn [render_piece piece_value].
  - by rewrite unfolded_text.
  - cbn [app]. by rewrite unfolded_dollar.
  - destruct Hp as (Hs & Hn & Ha). cbn [app]. rewrite unfolded_name; [| done..].
    rewrite resolve_name by (destruct Hs as (? & ? & -> & _); done). done.
  - destruct Hp as [Hne Hn]. cbn [app]. rewrite <- app_assoc. cbn [app].
    rewrite unfolded_braced by done. by rewrite resolve_name.
Qed.

(** Expanding a template gives the text it stands for, its variables replaced by their
    values and a doubled dollar by one, or the error of its first unresolved variable. *)
Theorem expand_template (v : t) (ps : list piece) (Hwf : well_formed ps) :
  expand v (of_bytes (render ps)) = of_bytes <$> value v ps.
Proof. unfold expand. rewrite bytes_of_bytes. by rewrite <- (unfolded_render v (render ps) ps Hwf). Qed.

(** Every text can be written as a template: double its dollars. *)
Definition quote (text : string) : list piece :=
  (fun b => if decide (b = "$"%char) then Dollar else Text [b]) <$> bytes text.

Lemma well_formed_quote text : well_formed (quote text).
Proof.
  unfold quote. induction (bytes text) as [|b l IH]; [done |]. csimpl. split; [| done].
  case_decide as Hb; [done |]. intros Hin%list_elem_of_singleton. congruence.
Qed.

Lemma value_quote v text : value v (quote text) = Ok (bytes text).
Proof.
  unfold quote. induction (bytes text) as [|b l IH]; [done |]. csimpl. rewrite IH.
  case_decide as Hb; [subst |]; done.
Qed.

Lemma expand_quote v text : expand v (of_bytes (render (quote text))) = Ok text.
Proof.
  unfold expand. rewrite bytes_of_bytes.
  change (of_bytes <$> unfolded v (render (quote text)) (render (quote text)) = Ok text).
  rewrite unfolded_render by apply well_formed_quote. rewrite value_quote. simpl. by rewrite of_bytes_bytes.
Qed.

(** The release and the architecture of the system win over configured variables of the
    same names, and no other variable changes; a value is inserted as it is, even when it holds
    dollars itself. *)
Theorem system_values_win (v : t) (releasever basearch : string) :
  let v' := with_system_release_and_arch v releasever basearch in
  expand v' "$releasever" = Ok releasever /\ expand v' "$basearch" = Ok basearch /\
  expand v' "$arch" = Ok basearch /\
  forall name, name ∉ ["releasever"; "basearch"; "arch"] -> values v' !! name = values v !! name.
Proof.
  intros v'.
  assert (Hone : forall name x, values v' !! of_bytes name = Some x ->
    (exists b t, name = b :: t /\ name_start b = true) -> forallb name_byte name = true ->
    expand v' (of_bytes ("$"%char :: name)) = Ok x).
  { intros name x Hl Hs Hn.
    replace ("$"%char :: name) with (render [Name name]) by (unfold render; simpl; by rewrite app_nil_r).
    unfold expand. rewrite bytes_of_bytes.
    change (of_bytes <$> unfolded v' (render [Name name]) (render [Name name]) = Ok x).
    rewrite unfolded_render by done. cbn [value piece_value]. rewrite Hl. simpl.
    by rewrite app_nil_r, of_bytes_bytes. }
  split_and!.
  - apply (Hone (bytes "releasever")); [| by eexists _, _ | done].
    simpl. by rewrite !lookup_insert_ne, lookup_insert_eq by done.
  - apply (Hone (bytes "basearch")); [| by eexists _, _ | done].
    simpl. by rewrite lookup_insert_ne, lookup_insert_eq by done.
  - apply (Hone (bytes "arch")); [| by eexists _, _ | done]. simpl. by rewrite lookup_insert_eq.
  - intros name Hn. simpl. rewrite !not_elem_of_cons in Hn. destruct Hn as (? & ? & ? & _).
    by rewrite !lookup_insert_ne by congruence.
Qed.

Definition fedora : t := with_system_release_and_arch default "44" "x86_64".

Lemma expand_template_witness :
  expand fedora "https://a/$releasever/${basearch}?$$" = Ok "https://a/44/x86_64?$".
Proof.
  rewrite <- (of_bytes_bytes "https://a/$releasever/${basearch}?$$").
  refine (expand_template fedora
    [Text (bytes "https://a/"); Name (bytes "releasever"); Text (bytes "/"); Braced (bytes "basearch");
     Text (bytes "?"); Dollar] _).
  cbn [well_formed]. split_and!; try done.
  - by apply (bool_decide_unpack _); vm_compute.
  - by eexists _, _.
  - intros b [= <-]. done.
  - by apply (bool_decide_unpack _); vm_compute.
  - by apply (bool_decide_unpack _); vm_compute.
  - by apply (bool_decide_unpack _); vm_compute.
Defined.
End VariableFacts.
