(* ===== verification/MainConfig.v ===== *)
(** * The main configuration ([dnfast-repo]: main_config.rs)

    The limits of configuration files, their [key=value] lines, and the [[main]] section. *)
From Stdlib Require Import Ascii.
From S2P Require Import Prelude.
From S2P Require Import RustStr.
From S2P Require Import RustText.

#[local] Open Scope N_scope.

Module MutationError.
Record t : Type := mk { path : string; line : N; message : string }.

#[global] Instance mutation_error_eq_dec : EqDecision t.
Proof. solve_decision. Defined.

Definition to_string (e : t) : string := path e +:+ ":" +:+ display (line e) +:+ ": " +:+ message e.
End MutationError.

Notation mresult := (result MutationError.t).

Definition MAX_FILE_BYTES : N := 1048576.
Definition MAX_LINES : N := 4096.
Definition MAX_LINE_BYTES : N := 65536.

(** ** Lines *)

Definition check_limits (path input : string) : mresult unit :=
  _ ← reject_if (MAX_FILE_BYTES <? str_len input)
        (MutationError.mk path 0 "configuration file exceeds 1 MiB");
  _ ← reject_if (MAX_LINES <? N.of_nat (length (lines input)))
        (MutationError.mk path (MAX_LINES + 1) "configuration file exceeds 4096 lines");
  match list_find (fun l => MAX_LINE_BYTES < str_len l.2) (numbered 1 (lines input)) with
  | Some (_, l) => Err (MutationError.mk path l.1 "configuration line exceeds 64 KiB")
  | None => Ok tt
  end.

Definition key_byte (b : byte) : bool := is_ascii_alphanumeric b || bool_decide (b ∈ bytes "_.-").

Definition control_byte (b : byte) : bool :=
  (byte_val b =? 0) || ((byte_val b <? 32) && negb (bool_decide (b = "009"%char))).

Definition pair_of (path : string) (line : N) (input : string) : mresult (string * string) :=
  '(key, value) ← ok_or (MutationError.mk path line "expected key=value") (str_split_once "=" input);
  let key := trim key in
  _ ← reject_if (str_is_empty key || negb (forallb key_byte (bytes key)))
        (MutationError.mk path line "invalid mutation key");
  _ ← reject_if (existsb control_byte (bytes value))
        (MutationError.mk path line "invalid control byte in value");
  Ok (key, trim value).

Definition boolean (path : string) (line : N) (value : string) : mresult bool :=
  ok_or (MutationError.mk path line "invalid boolean") (boolean_text value).

Definition words (value : string) : list string := split_whitespace value.

Definition reset_or_append (target : list string) (value : string) : list string :=
  if str_is_empty value then [] else target ++ split_whitespace value.

(** ** The [[main]] section *)

Module MainConfig.
Record t : Type := mk {
  reposdir : list string;
  varsdir : list string;
  install_weak_deps : bool;
  best : bool;
  excludepkgs : list string;
  includepkgs : list string;
  protected_packages : list string;
  installonlypkgs : list string;
  installonly_limit : N
}.

#[global] Instance main_config_eq_dec : EqDecision t.
Proof. solve_decision. Defined.

Definition default : t := {|
  reposdir := ["/etc/yum.repos.d"; "/etc/dnf/repos.d"];
  varsdir := ["/etc/dnf/vars"; "/etc/yum/vars"];
  install_weak_deps := true;
  best := false;
  excludepkgs := [];
  includepkgs := [];
  protected_packages := words "dnfast dnf dnf5 rpm glibc systemd";
  installonlypkgs := words "kernel kernel-core kernel-modules kernel-modules-core kernel-modules-extra";
  installonly_limit := 3
|}.

Definition with_reposdir c v := let 'mk _ b d e f g h i j := c in mk v b d e f g h i j.
Definition with_varsdir c v := let 'mk a _ d e f g h i j := c in mk a v d e f g h i j.
Definition with_install_weak_deps c v := let 'mk a b _ e f g h i j := c in mk a b v e f g h i j.
Definition with_best c v := let 'mk a b d _ f g h i j := c in mk a b d v f g h i j.
Definition with_excludepkgs c v := let 'mk a b d e _ g h i j := c in mk a b d e v g h i j.
Definition with_includepkgs c v := let 'mk a b d e f _ h i j := c in mk a b d e f v h i j.
Definition with_protected_packages c v := let 'mk a b d e f g _ i j := c in mk a b d e f g v i j.
Definition with_installonlypkgs c v := let 'mk a b d e f g h _ j := c in mk a b d e f g h v j.
Definition with_installonly_limit c v := let 'mk a b d e f g h i _ := c in mk a b d e f g h i v.
End MainConfig.

Definition list_keys : list string :=
  ["reposdir"; "varsdir"; "excludepkgs"; "includepkgs"; "protected_packages"; "installonlypkgs"].
Definition list_key (key : string) : bool := bool_decide (key ∈ list_keys).

Section main_value.
Import MainConfig.
Context (path : string) (line : N).

Definition installonly_limit_value (value : string) : mresult N :=
  parsed ← ok_or (MutationError.mk path line "invalid installonly_limit") (parse_unsigned u32_max value);
  _ ← reject_if (parsed =? 1) (MutationError.mk path line "installonly_limit must be 0 or at least 2");
  Ok parsed.

Definition apply_main_value (c : t) (key value : string) : mresult t :=
  if bool_decide (key = "reposdir") then Ok (with_reposdir c (reset_or_append (reposdir c) value))
  else if bool_decide (key = "varsdir") then Ok (with_varsdir c (reset_or_append (varsdir c) value))
  else if bool_decide (key = "install_weak_deps") then with_install_weak_deps c <$> boolean path line value
  else if bool_decide (key = "best") then with_best c <$> boolean path line value
  else if bool_decide (key = "excludepkgs") then
    Ok (with_excludepkgs c (reset_or_append (excludepkgs c) value))
  else if bool_decide (key = "includepkgs") then
    Ok (with_includepkgs c (reset_or_append (includepkgs c) value))
  else if bool_decide (key = "protected_packages") then
    Ok (with_protected_packages c (reset_or_append (protected_packages c) value))
  else if bool_decide (key = "installonlypkgs") then
    Ok (with_installonlypkgs c (reset_or_append (installonlypkgs c) value))
  else if bool_decide (key = "installonly_limit") then
    with_installonly_limit c <$> installonly_limit_value value
  else Err (MutationError.mk path line ("unsupported mutation key: " +:+ key)).
End main_value.

Module MainParser.
(** The configuration, [in_main] and the keys [seen]. *)
Record state : Type := mk { result : MainConfig.t; in_main : bool; seen : list string }.

Definition step (path : string) (s : state) (l : N * string) : mresult state :=
  let '(number, raw) := l in
  let line := trim raw in
  if skipped_line line then Ok s
  else if str_starts_with "[" line then
    _ ← reject_if (negb (bool_decide (line = "[main]")))
          (MutationError.mk path number "unsupported main configuration section");
    _ ← reject_if (in_main s) (MutationError.mk path number "duplicate main section");
    Ok (mk (result s) true (seen s))
  else
    _ ← reject_if (negb (in_main s)) (MutationError.mk path number "key outside main section");
    '(key, value) ← pair_of path number line;
    _ ← reject_if (bset_contains key (seen s) && negb (list_key key))
          (MutationError.mk path number ("duplicate mutation key: " +:+ key));
    result ← apply_main_value path number (result s) key value;
    Ok (mk result (in_main s) (bset_insert key (seen s))).

Definition parse_main_config (path input : string) : mresult MainConfig.t :=
  _ ← check_limits path input;
  result <$> fold_result (step path) (mk MainConfig.default false []) (numbered 1 (lines input)).
End MainParser.

Module MainFacts.
Import MainParser.

Lemma step_ok path s l s' :
  step path s l = Ok s' ->
  result s' = result s \/
  exists key value, pair_of path l.1 (trim l.2) = Ok (key, value) /\
    apply_main_value path l.1 (result s) key value = Ok (result s') /\
    (list_key key = true \/ key ∉ seen s) /\ key ∈ seen s'.
Proof.
  destruct l as [number raw]. unfold step. cbn [fst snd].
  destruct (skipped_line _); [intros [= <-]; by left |].
  destruct (str_starts_with _ _).
  { intros (_ & _ & (_ & _ & [= <-])%bind_ok)%bind_ok. by left. }
  intros (_ & _ & ([key value] & Hp & (_ & Hd%reject_if_ok & (r & Ha & [= <-])%bind_ok)%bind_ok)%bind_ok)%bind_ok.
  right. exists key, value. simpl. split_and!; [done | done | | by apply elem_of_bset_insert; left].
  apply andb_false_iff in Hd as [Hd|Hd]; [right | left].
  - by apply bset_contains_false.
  - by apply negb_false_iff.
Qed.

Lemma apply_main_value_limit path line c key value c' :
  apply_main_value path line c key value = Ok c' ->
  MainConfig.installonly_limit c' = MainConfig.installonly_limit c \/
  MainConfig.installonly_limit c' <> 1 /\ MainConfig.installonly_limit c' <= u32_max.
Proof.
  unfold apply_main_value. destruct c.
  repeat case_bool_decide; try (intros [= <-]; by left); try (by intros (? & _ & <-)%fmap_ok; left); try done.
  intros (n & Hn & <-)%fmap_ok. right. simpl.
  apply bind_ok in Hn as (m & Hm%ok_or_ok & (_ & Hone%reject_if_ok & [= <-])%bind_ok).
  unfold parse_unsigned in Hm. destruct (_ || _) eqn:E; [done |]. injection Hm as <-.
  apply orb_false_iff in E as [_ E]. apply N.ltb_ge in E. apply N.eqb_neq in Hone. done.
Qed.

Lemma apply_main_value_protected path line c key value c' p :
  apply_main_value path line c key value = Ok c' ->
  p ∈ MainConfig.protected_packages c -> p ∉ MainConfig.protected_packages c' ->
  key = "protected_packages" /\ value = "".
Proof.
  unfold apply_main_value. destruct c. simpl.
  repeat case_bool_decide; try (intros [= <-]; done); try (by intros (? & _ & <-)%fmap_ok).
  intros [= <-]. simpl. unfold reset_or_append. intros Hp.
  destruct (str_is_empty value) eqn:Hv; [by apply str_is_empty_spec in Hv |].
  intros Hn. destruct Hn. apply elem_of_app. by left.
Qed.

(** A main configuration that is accepted keeps a valid number of install-only packages, and
    protects every package that is protected by default unless one of its lines clears the
    list. *)
Theorem main_config_sound (path input : string) (c : MainConfig.t)
    (Hok : parse_main_config path input = Ok c) :
  (MainConfig.installonly_limit c = 0 \/ 2 <= MainConfig.installonly_limit c <= u32_max) /\
  forall p, p ∈ MainConfig.protected_packages MainConfig.default ->
    p ∉ MainConfig.protected_packages c ->
    exists number raw, (number, raw) ∈ numbered 1 (lines input) /\
      pair_of path number (trim raw) = Ok ("protected_packages", "").
Proof.
  unfold parse_main_config in Hok. apply bind_ok in Hok as (_ & _ & Hok).
  apply fmap_ok in Hok as (s & Hs & <-).
  split.
  - enough (MainConfig.installonly_limit (result s) <> 1 /\
      MainConfig.installonly_limit (result s) <= u32_max) by lia.
    refine (fold_result_ind _ (fun s => MainConfig.installonly_limit (result s) <> 1 /\
      MainConfig.installonly_limit (result s) <= u32_max) _ _ _ _ _ Hs); [done |].
    intros s1 l s2 _ IH [E|(key & value & _ & Ha & _)]%step_ok; [by rewrite E |].
    by apply apply_main_value_limit in Ha as [->|?].
  - intros p Hp Hn.
    assert (Hor : p ∈ MainConfig.protected_packages (result s) \/
      exists l, l ∈ numbered 1 (lines input) /\
        pair_of path l.1 (trim l.2) = Ok ("protected_packages", "")).
    { refine (fold_result_ind _ (fun s => p ∈ MainConfig.protected_packages (result s) \/ _)
        _ _ _ _ _ Hs); [by left |].
      intros s1 l s2 Hl [IH|IH] Hst; [| by right].
      destruct (decide (p ∈ MainConfig.protected_packages (result s2))) as [?|Hn2]; [by left |].
      apply step_ok in Hst as [E|(key & value & Hpair & Ha & _)]; [by rewrite E in Hn2 |].
      destruct (apply_main_value_protected _ _ _ _ _ _ p Ha IH Hn2) as [-> ->].
      right. by exists l. }
    destruct Hor as [?|([number raw] & Hl & Hpair)]; [done |]. by exists number, raw.
Qed.

Definition example_input : string :=
  unlines ["[main]"; "installonly_limit = 2"; "protected_packages="; "protected_packages=dnf sudo"].

Definition example_config : MainConfig.t :=
  MainConfig.with_protected_packages (MainConfig.with_installonly_limit MainConfig.default 2)
    ["dnf"; "sudo"].

Lemma main_config_sound_witness :
  exists number raw, (number, raw) ∈ numbered 1 (lines example_input) /\
      pair_of "dnfast.conf" number (trim raw) = Ok ("protected_packages", "").
Proof.
  apply (proj2 (main_config_sound "dnfast.conf" example_input example_config eq_refl) "rpm");
    apply (bool_decide_unpack _); vm_compute; done.
Defined.
End MainFacts.
