(* ===== verification/RepoFile.v ===== *)
(** * Repository files for queries and refresh ([dnfast-repo]: model.rs, parser.rs,
    refresh_policy.rs) *)
From S2P Require Import Prelude.
From S2P Require Import RustStr.
From S2P Require Import RustText.
From S2P Require Import Variables.

#[local] Open Scope N_scope.

Inductive SourceKind : Type := BaseUrl | Metalink | Mirrorlist.

#[export] Instance source_kind_eq_dec : EqDecision SourceKind.
Proof. solve_decision. Defined.

Definition source_kind_str (k : SourceKind) : string :=
  match k with BaseUrl => "baseurl" | Metalink => "metalink" | Mirrorlist => "mirrorlist" end.

Module Repository.
Record t : Type := mk {
  id : string;
  enabled : bool;
  baseurls : list string;
  metalink : option string;
  mirrorlist : option string;
  origin : string
}.

#[global] Instance repository_eq_dec : EqDecision t.
Proof. solve_decision. Defined.

Definition option_list {A} (o : option A) : list A := match o with Some x => [x] | None => [] end.

Definition sources (r : t) : list (SourceKind * string) :=
  (pair BaseUrl <$> baseurls r) ++ (pair Metalink <$> option_list (metalink r)) ++
  (pair Mirrorlist <$> option_list (mirrorlist r)).

Definition selected_source (r : t) : option (SourceKind * string) := head (sources r).

Definition with_enabled r v := let 'mk a _ c d e f := r in mk a v c d e f.
Definition with_baseurls r v := let 'mk a b _ d e f := r in mk a b v d e f.
Definition with_metalink r v := let 'mk a b c _ e f := r in mk a b c v e f.
Definition with_mirrorlist r v := let 'mk a b c d _ f := r in mk a b c d v f.
End Repository.

Definition nonempty (value : string) : option string :=
  if str_is_empty value then None else Some value.

Module RepositoryParser.
Import Repository.

Record RepositoryBuilder : Type := builder { repository : Repository.t; section_line : N }.

Definition finish_repository (path : string) (current : option RepositoryBuilder)
    (repositories : list Repository.t) : result RepoError.t (list Repository.t) :=
  match current with
  | None => Ok repositories
  | Some current =>
      _ ← (if enabled (repository current) && bool_decide (selected_source (repository current) = None)
           then parse_error path (section_line current) "enabled repository has no source"
           else Ok tt);
      _ ← (if existsb (fun r => bool_decide (id r = id (repository current))) repositories
           then parse_error path (section_line current)
                  ("duplicate repository id: " +:+ id (repository current))
           else Ok tt);
      Ok (repositories ++ [repository current])
  end.

Definition assign (path : string) (line_number : N) (r : Repository.t) (key value : string) :
    result RepoError.t Repository.t :=
  if bool_decide (key = "enabled") then
    match boolean_text value with
    | Some b => Ok (with_enabled r b)
    | None => parse_error path line_number ("invalid boolean for enabled: " +:+ value)
    end
  else if bool_decide (key = "baseurl") then Ok (with_baseurls r (baseurls r ++ split_whitespace value))
  else if bool_decide (key = "metalink") then Ok (with_metalink r (nonempty value))
  else if bool_decide (key = "mirrorlist") then Ok (with_mirrorlist r (nonempty value))
  else Ok r.

Definition state : Type := list Repository.t * option RepositoryBuilder.

Definition step (path : string) (s : state) (l : N * string) : result RepoError.t state :=
  let '(repositories, current) := s in
  let '(line_number, raw_line) := l in
  let line := trim raw_line in
  if skipped_line line then Ok s
  else if str_starts_with "[" line then
    if negb (str_ends_with "]" line) then parse_error path line_number "malformed repository section"
    else
      let id := trim (between_brackets line) in
      if str_is_empty id then parse_error path line_number "repository id cannot be empty"
      else
        repositories ← finish_repository path current repositories;
        Ok (repositories, Some (builder (Repository.mk id true [] None None path) line_number))
  else
    match current with
    | None => parse_error path line_number "key outside repository section"
    | Some current =>
        match str_split_once "=" line with
        | None => parse_error path line_number "expected key=value"
        | Some (key, value) =>
            r ← assign path line_number (repository current) (to_ascii_lowercase (trim key)) (trim value);
            Ok (repositories, Some (builder r (section_line current)))
        end
    end.

Definition parse_repository_file (path input : string) : result RepoError.t (list Repository.t) :=
  '(repositories, current) ← fold_result (step path) ([], None) (numbered 1 (lines input));
  finish_repository path current repositories.
End RepositoryParser.

(** ** The refresh policy of one repository *)

Module RefreshPolicy.
Record t : Type := mk { skip_if_unavailable : bool }.

(** [selected] and [skip]. *)
Definition state : Type := bool * bool.

Definition boolean (path : string) (line : N) (value : string) : result RepoError.t bool :=
  match boolean_text value with
  | Some b => Ok b
  | None => parse_error path line "invalid refresh policy boolean"
  end.

Definition step (path id : string) (s : state) (l : N * string) : result RepoError.t state :=
  let '(selected, skip) := s in
  let '(line_number, raw) := l in
  let line := trim raw in
  if str_starts_with "[" line && str_ends_with "]" line then
    Ok (bool_decide (trim (between_brackets line) = id), skip)
  else if negb selected || skipped_line line then Ok s
  else
    match str_split_once "=" line with
    | None => Ok s
    | Some (key, value) =>
        let key := to_ascii_lowercase (trim key) in
        if bool_decide (key = "skip_if_unavailable") then
          skip ← boolean path line_number (trim value); Ok (selected, skip)
        else if bool_decide (key = "sslverify") then
          b ← boolean path line_number (trim value);
          if negb b then parse_error path line_number "sslverify=false is forbidden" else Ok s
        else if bool_decide (key = "proxy") then
          if negb (bool_decide (trim value ∈ [""; "_none_"]))
          then parse_error path line_number "proxy is unsupported for secure refresh" else Ok s
        else Ok s
    end.

Definition parse (path input id : string) : result RepoError.t t :=
  '(_, skip) ← fold_result (step path id) (false, false) (numbered 1 (lines input)); Ok (mk skip).
End RefreshPolicy.

Module RepositoryFacts.
Import Repository RepositoryParser.

Definition valid (path : string) (r : Repository.t) : Prop :=
  id r <> "" /\ origin r = path /\ (enabled r = true -> is_Some (selected_source r)).

(** The id of the section that a line opens. *)
Definition section_id (raw_line : string) : option string :=
  if str_starts_with "[" (trim raw_line) then Some (trim (between_brackets (trim raw_line))) else None.

Lemma finish_repository_ok path current rs rs' :
  finish_repository path current rs = Ok rs' ->
  match current with
  | None => rs' = rs
  | Some c => rs' = rs ++ [repository c] /\ id (repository c) ∉ id <$> rs /\
      (enabled (repository c) = true -> is_Some (selected_source (repository c)))
  end.
Proof.
  destruct current as [c|]; simpl; [| by intros [= ->]].
  intros (u & H1 & (u' & H2 & [= <-])%bind_ok)%bind_ok. split_and!; [done | |].
  - destruct (existsb _ _) eqn:E; [done |]. intros (r & Hr & Hin)%list_elem_of_fmap.
    apply existsb_false in E. rewrite Forall_forall in E. specialize (E r Hin).
    by apply bool_decide_eq_false_1 in E.
  - intros He. rewrite He in H1. simpl in H1. case_bool_decide as Hs; [done |].
    destruct (selected_source _); [by eexists | done].
Qed.

Lemma assign_ok path n r key value r' :
  assign path n r key value = Ok r' -> id r' = id r /\ origin r' = origin r.
Proof.
  unfold assign. destruct r. repeat case_bool_decide; try (by intros [= <-]).
  destruct (boolean_text value); [by intros [= <-] | done].
Qed.

Definition invariant (path : string) (pre : list string) (s : state) : Prop :=
  Forall (valid path) s.1 /\ NoDup (id <$> s.1) /\
  (forall c, s.2 = Some c -> id (repository c) <> "" /\ origin (repository c) = path) /\
  (id <$> s.1) ++ (id ∘ repository <$> option_list s.2) = omap section_id pre.

Lemma finish_invariant path pre s rs :
  invariant path pre s -> finish_repository path s.2 s.1 = Ok rs ->
  Forall (valid path) rs /\ NoDup (id <$> rs) /\ id <$> rs = omap section_id pre.
Proof.
  destruct s as [rs0 [c|]]; intros (Hv & Hnd & Hc & Hids) Hf%finish_repository_ok; simpl in *.
  - destruct Hf as (-> & Hn & Hs). destruct (Hc c eq_refl) as [Hid Ho]. rewrite fmap_app. split_and!.
    + apply Forall_app. split; [done |]. by repeat constructor.
    + apply NoDup_app. split_and!; [done | | by apply NoDup_singleton].
      by intros x Hx ->%list_elem_of_singleton.
    + done.
  - subst. by rewrite app_nil_r in Hids.
Qed.

Lemma step_invariant path pre s l s2 :
  invariant path pre s -> step path s l = Ok s2 -> invariant path (pre ++ [l.2]) s2.
Proof.
  intros Hinv. pose proof (finish_invariant path pre s) as Hfin.
  destruct s as [rs cur], l as [n raw]. unfold step. cbn [fst snd] in *.
  destruct (skipped_line (trim raw)) eqn:Hskip.
  { intros [= <-]. destruct Hinv as (? & ? & ? & Hids). split_and!; [done.. |].
    rewrite omap_app, Hids. simpl. unfold section_id.
    replace (str_starts_with "[" (trim raw)) with false; [simpl; by rewrite app_nil_r |]. symmetry.
    revert Hskip. unfold skipped_line, str_is_empty, str_starts_with.
    case_bool_decide as He; [by rewrite He |]. destruct (bytes (trim raw)) as [|b k] eqn:Hb; [done |].
    simpl. unfold starts_with. simpl. repeat case_decide; by subst. }
  assert (Hom : forall o, section_id raw = o ->
    omap section_id (pre ++ [raw]) = omap section_id pre ++ option_list o).
  { intros o <-. rewrite omap_app. simpl. by destruct (section_id raw). }
  destruct (str_starts_with "[" (trim raw)) eqn:Hh.
  - destruct (negb _); [done |]. destruct (str_is_empty _) eqn:Hne; [done |].
    intros (rs' & Hf & [= <-])%bind_ok. destruct (Hfin rs' Hinv Hf) as (Hv & Hnd & Hids).
    split_and!; simpl; [done | done | |].
    2: { rewrite (Hom (Some (trim (between_brackets (trim raw))))); [by rewrite Hids |].
      unfold section_id. by rewrite Hh. }
    intros c [= <-]. simpl. by apply str_is_empty_false in Hne.
  - destruct cur as [c|]; [| done]. destruct (str_split_once _ _) as [[key value]|]; [| done].
    intros (r & Ha%assign_ok & [= <-])%bind_ok. destruct Hinv as (Hv & Hnd & Hc & Hids).
    split_and!; simpl; [done | done | |].
    + intros c' [= <-]. simpl. destruct Ha as [-> ->]. by apply Hc.
    + rewrite (Hom None) by (unfold section_id; by rewrite Hh). rewrite <- Hids. simpl.
      destruct Ha as [-> _]. by rewrite app_nil_r.
Qed.

(** A repository file that is accepted gives one repository for each of its sections, in
    their order, with distinct and nonempty ids; every enabled one has a source to fetch from. *)
Theorem repository_file_sound (path input : string) (rs : list Repository.t)
    (Hok : parse_repository_file path input = Ok rs) :
  id <$> rs = omap section_id (lines input) /\ NoDup (id <$> rs) /\ Forall (valid path) rs.
Proof.
  unfold parse_repository_file in Hok. apply bind_ok in Hok as ([rs0 cur] & Hs & Hf).
  assert (Hinv : invariant path (lines input) (rs0, cur)).
  { refine (fold_numbered_ind _ (invariant path) _ _ _ _ _ _ Hs).
    - split_and!; [constructor | constructor | done | done].
    - intros pre x s1 s2 H1 H2. by apply (step_invariant path pre s1 (1 + N.of_nat (length pre), x) s2). }
  by destruct (finish_invariant path _ _ rs Hinv Hf) as (? & ? & ?).
Qed.

Definition example_input : string :=
  unlines ["[fedora]"; "name=Fedora"; "BaseURL = https://a/ https://b/"; "# comment"; "[ updates ]"; "enabled=0"].

Definition example_repositories : list Repository.t :=
  [Repository.mk "fedora" true ["https://a/"; "https://b/"] None None "/etc/yum.repos.d/fedora.repo";
   Repository.mk "updates" false [] None None "/etc/yum.repos.d/fedora.repo"].

Lemma repository_file_sound_witness :
  id <$> example_repositories = omap section_id (lines example_input) /\
  NoDup (id <$> example_repositories) /\ Forall (valid "/etc/yum.repos.d/fedora.repo") example_repositories.
Proof.
  apply (repository_file_sound "/etc/yum.repos.d/fedora.repo" example_input example_repositories).
  vm_compute. reflexivity.
Defined.
End RepositoryFacts.

Module RefreshFacts.
Import RefreshPolicy.

(** The id in a section header, and the key and value of a setting. *)
Definition header (raw : string) : option string :=
  if str_starts_with "[" (trim raw) && str_ends_with "]" (trim raw)
  then Some (trim (between_brackets (trim raw))) else None.

Definition setting (raw : string) : option (string * string) :=
  if skipped_line (trim raw) then None
  else (fun p => (to_ascii_lowercase (trim p.1), trim p.2)) <$> str_split_once "=" (trim raw).

(** The last header of [ls] is that of [id]. *)
Definition open_section (ls : list string) (id : string) : Prop := last (omap header ls) = Some id.

(** Line [i] is the setting [key=value] of a section [id]. *)
Definition section_setting (ls : list string) (id : string) (i : nat) (key value : string) : Prop :=
  exists raw, ls !! i = Some raw /\ open_section (take i ls) id /\ header raw = None /\
    setting raw = Some (key, value).

Definition invariant (id : string) (ls : list string) (s : state) : Prop :=
  (s.1 = true <-> open_section ls id) /\
  (forall i v, section_setting ls id i "sslverify" v -> boolean_text v = Some true) /\
  (forall i v, section_setting ls id i "proxy" v -> v = "" \/ v = "_none_") /\
  (s.2 = true -> exists i v, section_setting ls id i "skip_if_unavailable" v /\
    boolean_text v = Some true).

Lemma section_setting_snoc ls id i key value raw :
  section_setting (ls ++ [raw]) id i key value <->
  section_setting ls id i key value \/
  i = length ls /\ open_section ls id /\ header raw = None /\ setting raw = Some (key, value).
Proof.
  unfold section_setting. split.
  - intros (r & Hr & Ho & Hh & Hs). apply lookup_app_Some in Hr as [Hr|[Hi Hr]].
    + left. exists r. rewrite take_app_le in Ho by (apply lookup_lt_Some in Hr; lia). done.
    + right. apply list_lookup_singleton_Some in Hr as [Hr ->]. assert (i = length ls) as -> by lia.
      by rewrite take_app_length in Ho.
  - intros [(r & Hr & Ho & Hh & Hs)|(-> & Ho & Hh & Hs)].
    + exists r. pose proof (lookup_lt_Some _ _ _ Hr). rewrite lookup_app_l, take_app_le by lia. done.
    + exists raw. rewrite lookup_app_r, Nat.sub_diag, take_app_length by lia. done.
Qed.

Lemma open_section_snoc ls id raw :
  open_section (ls ++ [raw]) id <->
  match header raw with Some h => h = id | None => open_section ls id end.
Proof.
  unfold open_section. rewrite omap_app. simpl. destruct (header raw) as [h|]; simpl.
  - rewrite last_snoc. split; congruence.
  - by rewrite app_nil_r.
Qed.

(** A line that is no header adds at most one setting. *)
Lemma invariant_line id ls s raw skip :
  header raw = None -> invariant id ls s ->
  (forall key value, s.1 = true -> setting raw = Some (key, value) ->
    (key = "sslverify" -> boolean_text value = Some true) /\
    (key = "proxy" -> value = "" \/ value = "_none_")) ->
  (skip = true -> s.2 = true \/ s.1 = true /\
    exists value, setting raw = Some ("skip_if_unavailable", value) /\ boolean_text value = Some true) ->
  invariant id (ls ++ [raw]) (s.1, skip).
Proof.
  intros Hh (Hsel & Hssl & Hproxy & Hskip) Hnew Hs. unfold invariant. simpl.
  rewrite open_section_snoc, Hh. split_and!; [done | | |].
  - intros i v [?|(_ & Ho & _ & Hset)]%section_setting_snoc; [by eapply Hssl |].
    by apply (Hnew "sslverify" v (proj2 Hsel Ho) Hset).
  - intros i v [?|(_ & Ho & _ & Hset)]%section_setting_snoc; [by eapply Hproxy |].
    by apply (Hnew "proxy" v (proj2 Hsel Ho) Hset).
  - intros Hk. destruct (Hs Hk) as [Hk'|(Ho & v & Hset & Hv)].
    + destruct (Hskip Hk') as (i & v & ? & ?). exists i, v. split; [| done].
      apply section_setting_snoc. by left.
    + exists (length ls), v. split; [| done]. apply section_setting_snoc. right.
      split_and!; [done | by apply Hsel | done | done].
Qed.

Lemma refresh_step_invariant path id ls s n raw s2 :
  invariant id ls s -> step path id s (n, raw) = Ok s2 -> invariant id (ls ++ [raw]) s2.
Proof.
  intros Hinv. destruct s as [selected skip]. unfold step.
  destruct (str_starts_with _ _ && str_ends_with _ _) eqn:Hh.
  { intros Heq%Ok_inj. subst s2. destruct Hinv as (_ & Hssl & Hproxy & Hskip).
    assert (Hhead : header raw = Some (trim (between_brackets (trim raw))))
      by (unfold header; by rewrite Hh).
    unfold invariant. cbn [fst snd]. rewrite open_section_snoc, Hhead, bool_decide_eq_true. split_and!; [done | | |].
    - intros i v [?|(_ & _ & ? & _)]%section_setting_snoc; [by eapply Hssl | congruence].
    - intros i v [?|(_ & _ & ? & _)]%section_setting_snoc; [by eapply Hproxy | congruence].
    - intros Hk. destruct (Hskip Hk) as (i & v & ? & ?). exists i, v. split; [| done].
      apply section_setting_snoc. by left. }
  assert (Hhead : header raw = None) by (unfold header; by rewrite Hh).
  pose proof (invariant_line id ls (selected, skip) raw) as Hline. cbn [fst snd] in Hline.
  destruct (negb selected || skipped_line (trim raw)) eqn:Hsk.
  { intros [= <-]. apply Hline; [done | done | | by left]. intros key value -> Hset. exfalso.
    unfold setting in Hset. simpl in Hsk. by rewrite Hsk in Hset. }
  apply orb_false_iff in Hsk as [Hsel%negb_false_iff Hsk].
  assert (Hset : setting raw =
    (fun p => (to_ascii_lowercase (trim p.1), trim p.2)) <$> str_split_once "=" (trim raw))
    by (unfold setting; by rewrite Hsk).
  destruct (str_split_once _ _) as [[key value]|]; simpl in Hset.
  2: { intros [= <-]. apply Hline; [done | done | | by left]. intros k v _. by rewrite Hset. }
  specialize (Hline) with (1 := Hhead) (2 := Hinv). unfold boolean.
  case_bool_decide as Hk; [| case_bool_decide as Hk2; [| case_bool_decide as Hk3]].
  - destruct (boolean_text (trim value)) as [b|] eqn:Hb; [| done]. intros [= <-].
    apply Hline; intros k.
    + intros v _. rewrite Hset. intros [= <- <-]. by rewrite Hk.
    + subst. right. split; [done |]. exists (trim value). by rewrite Hset, Hk.
  - destruct (boolean_text (trim value)) as [[|]|] eqn:Hb; [| done..]. intros [= <-].
    apply Hline; [| by left]. intros k v _. rewrite Hset. intros [= <- <-]. by rewrite Hk2.
  - destruct (negb _) eqn:Hp; [done |]. apply negb_false_iff, bool_decide_eq_true in Hp.
    intros [= <-]. apply Hline; [| by left]. intros k v _. rewrite Hset. intros [= <- <-].
    rewrite Hk3. split; [done |]. intros _.
    rewrite !elem_of_cons in Hp. destruct Hp as [?|[?|Hp]]; [by left | by right | inversion Hp].
  - intros [= <-]. apply Hline; [| by left]. intros k v _. rewrite Hset. by intros [= <- <-].
Qed.

(** A refresh policy is only accepted when no setting of the repository, in any of its
    sections, turns off the verification of TLS certificates or names a proxy; unavailability is
    tolerated only when a setting of the repository says so. *)
Theorem refresh_policy_safe (path input id : string) (p : RefreshPolicy.t)
    (Hok : parse path input id = Ok p) :
  (forall i v, section_setting (lines input) id i "sslverify" v -> boolean_text v = Some true) /\
  (forall i v, section_setting (lines input) id i "proxy" v -> v = "" \/ v = "_none_") /\
  (skip_if_unavailable p = true -> exists i v,
    section_setting (lines input) id i "skip_if_unavailable" v /\ boolean_text v = Some true).
Proof.
  unfold parse in Hok. apply bind_ok in Hok as ([sel skip] & Hs & [= <-]).
  enough (Hinv : invariant id (lines input) (sel, skip)) by apply Hinv.
  refine (fold_numbered_ind _ (invariant id) _ _ _ _ _ _ Hs).
  - split_and!; [done | intros i v (r & Hr & _); done.. | done].
  - intros pre x s1 s2 H1 H2. by apply (refresh_step_invariant path id pre s1 _ x s2 H1 H2).
Qed.

Definition example_policy : string :=
  unlines ["[fedora]"; "sslverify=0"; "[updates]"; "SSLVerify = yes"; "skip_if_unavailable=1"].

Lemma refresh_policy_safe_witness :
  parse "fedora.repo" example_policy "fedora"
    = parse_error "fedora.repo" 2 "sslverify=false is forbidden" /\
  exists i v, section_setting (lines example_policy) "updates" i "skip_if_unavailable" v /\
    boolean_text v = Some true.
Proof.
  split; [vm_compute; reflexivity |].
  apply (refresh_policy_safe "fedora.repo" example_policy "updates" (RefreshPolicy.mk true));
    vm_compute; reflexivity.
Defined.
End RefreshFacts.
