(* ===== verification/UnixPath.v ===== *)
(** * Unix paths: the part of [std::path] that the configuration readers use

    A path is kept as the text it was written as; [Path] compares paths by their components, in
    which repeated slashes and inner dots disappear. *)
From Stdlib Require Import Ascii.
From S2P Require Import Prelude.
From S2P Require Import RustStr.

Inductive Component : Type := RootDir | CurDir | ParentDir | Normal (name : string).

#[export] Instance component_eq_dec : EqDecision Component.
Proof. solve_decision. Defined.

Definition slash : byte := "/"%char.

Fixpoint split_on (c : byte) (word l : list byte) : list (list byte) :=
  match l with
  | [] => [word]
  | b :: t => if decide (b = c) then word :: split_on c [] t else split_on c (word ++ [b]) t
  end.

Definition segments (path : string) : list string := of_bytes <$> split_on slash [] (bytes path).

Definition segment_component (s : string) : option Component :=
  if bool_decide (s = "" \/ s = ".") then None
  else if bool_decide (s = "..") then Some ParentDir
  else Some (Normal s).

Definition is_absolute (path : string) : bool := starts_with [slash] (bytes path).

Definition components (path : string) : list Component :=
  (if is_absolute path then [RootDir]
   else if bool_decide (head (segments path) = Some ".") then [CurDir] else [])
  ++ omap segment_component (segments path).

(** [any(|part| matches!(part, ParentDir | CurDir))]. *)
Definition is_dots (c : Component) : bool :=
  match c with ParentDir | CurDir => true | RootDir | Normal _ => false end.

Definition path_starts_with (path root : string) : bool :=
  starts_with (components root) (components path).

(** [Path::parent], as components. *)
Definition parent (path : string) : option (list Component) :=
  match last (components path) with
  | None | Some RootDir => None
  | Some _ => Some (removelast (components path))
  end.

Definition file_name (path : string) : option string :=
  match last (components path) with Some (Normal name) => Some name | _ => None end.

(** [Path::extension]: what follows the last dot, unless the name starts with it. *)
Definition extension (path : string) : option string :=
  name ← file_name path;
  '(before, after) ← rsplit_once "."%char (bytes name);
  if bool_decide (before = []) then None else Some (of_bytes after).

Definition join (path suffix : string) : string :=
  if is_absolute suffix then suffix
  else if bool_decide (path = "") then suffix
  else if starts_with [slash] (rev (bytes path)) then path +:+ suffix
  else path +:+ "/" +:+ suffix.

(** ** Laws *)

Lemma split_on_app c word l :
  c ∉ word -> split_on c word l =
    match split_on c [] l with [] => [] | w :: ws => (word ++ w) :: ws end.
Proof.
  revert word. induction l as [|b l IH]; intros word Hw; simpl; [by rewrite app_nil_r |].
  case_decide as Hb; [by rewrite app_nil_r |].
  assert (c ∉ word ++ [b]) by (rewrite elem_of_app, list_elem_of_singleton; naive_solver).
  rewrite (IH (word ++ [b])) by done. rewrite (IH [b]) by (rewrite list_elem_of_singleton; congruence).
  destruct (split_on c [] l); [done |]. by rewrite <- app_assoc.
Qed.

Lemma split_on_no_sep c l : forall word w, c ∉ word -> w ∈ split_on c word l -> c ∉ w.
Proof.
  induction l as [|b l IH]; intros word w Hw; simpl.
  - by intros ->%list_elem_of_singleton.
  - case_decide.
    + intros [->|Hin]%elem_of_cons; [done |]. eapply IH, Hin. apply not_elem_of_nil.
    + apply IH. rewrite elem_of_app, list_elem_of_singleton. naive_solver.
Qed.

Lemma split_on_join c a b : c ∉ a -> split_on c [] (a ++ c :: b) = a :: split_on c [] b.
Proof.
  intros Ha. assert (Hgen : forall word, split_on c word (a ++ c :: b) = (word ++ a) :: split_on c [] b).
  { induction a as [|x a IH]; intros word; simpl.
    - rewrite decide_True by done. by rewrite app_nil_r.
    - apply not_elem_of_cons in Ha as [Hx Ha]. rewrite decide_False by done.
      rewrite IH by done. by rewrite <- app_assoc. }
  apply Hgen.
Qed.

Lemma split_on_append c a b : forall word,
  split_on c word (a ++ c :: b) = split_on c word a ++ split_on c [] b.
Proof.
  induction a as [|x a IH]; intros word; simpl; [by rewrite decide_True |].
  case_decide; simpl; by rewrite IH.
Qed.

Lemma split_on_none c l : forall word, c ∉ l -> split_on c word l = [word ++ l].
Proof.
  induction l as [|b l IH]; intros word Hl; simpl; [by rewrite app_nil_r |].
  apply not_elem_of_cons in Hl as [Hb Hl]. rewrite decide_False by done. rewrite IH by done.
  by rewrite <- app_assoc.
Qed.

(** A name that a path can end with. *)
Definition plain_name (name : string) : Prop :=
  slash ∉ bytes name /\ name <> "" /\ name <> "." /\ name <> "..".

Lemma component_normal path name : Normal name ∈ components path -> plain_name name.
Proof.
  unfold components. rewrite elem_of_app. intros [Hin|Hin].
  { destruct (is_absolute path); [by apply list_elem_of_singleton in Hin |].
    case_bool_decide; [by apply list_elem_of_singleton in Hin | by apply not_elem_of_nil in Hin]. }
  apply list_elem_of_omap in Hin as (s & Hs & Hc). unfold segment_component in Hc.
  case_bool_decide as H1; [done |]. case_bool_decide as H2; [done |]. injection Hc as <-.
  apply list_elem_of_fmap in Hs as (l & -> & Hl). unfold plain_name.
  split_and!; [rewrite bytes_of_bytes | naive_solver..].
  eapply split_on_no_sep, Hl. apply not_elem_of_nil.
Qed.

Lemma plain_name_relative name : plain_name name -> is_absolute name = false.
Proof.
  intros (Hs & _). unfold is_absolute. destruct (starts_with _ _) eqn:E; [| done].
  apply starts_with_spec in E as [r Hr]. destruct Hs. rewrite Hr. left.
Qed.

Lemma components_join dir name :
  is_absolute dir = true -> starts_with [slash] (rev (bytes dir)) = false -> plain_name name ->
  components (join dir name) = components dir ++ [Normal name].
Proof.
  intros Habs Hend Hname. unfold join. rewrite (plain_name_relative name Hname), Hend.
  rewrite bool_decide_eq_false_2 by (intros ->; done).
  destruct Hname as (Hs & Hne & H1 & H2).
  assert (Habs' : is_absolute (dir +:+ "/" +:+ name) = true).
  { unfold is_absolute in *. apply starts_with_spec in Habs as [r Hr]. apply starts_with_spec.
    exists (r ++ bytes ("/" +:+ name)). by rewrite bytes_app, Hr. }
  unfold components. rewrite Habs, Habs'. simpl. f_equal. unfold segments.
  rewrite !bytes_app. change (bytes "/" ++ bytes name) with (slash :: bytes name).
  assert (Hc : segment_component name = Some (Normal name)).
  { unfold segment_component. rewrite bool_decide_eq_false_2 by (by intros [?|?]).
    by rewrite bool_decide_eq_false_2. }
  rewrite split_on_append, (split_on_none slash (bytes name)) by done. rewrite fmap_app, omap_app. simpl.
  by rewrite of_bytes_bytes, Hc.
Qed.
