(* ===== verification/Xml.v ===== *)
(** * XML events ([dnfast-metadata]: xml.rs, limits.rs)

    What the readers of repository metadata see of a document: the events the quick-xml reader
    delivers, up to the end of the input, and the attributes of elements.  Tokenizing, decoding
    and the resolution of namespaces are done by quick-xml; [unescape] is its function of that
    name. *)
From Stdlib Require Import Ascii.
From S2P Require Import Prelude.
From S2P Require Import RustStr.
From S2P Require Import RustText.
From S2P Require Import Metadata.

#[local] Open Scope N_scope.

Notation xresult := (result MetadataError.t).

(** An error of the metadata readers: [MetadataError::Xml(message.into())]. *)
Definition xml {A} (message : string) : xresult A := Err (MetadataError.Xml message).

(** [map_err(|error| MetadataError::Xml(error.to_string()))]. *)
Definition xml_error {A} (r : result string A) : xresult A := map_err MetadataError.Xml r.

Definition MAX_FILELISTS_COMPRESSED_BYTES : N := 1024 * 1024 * 1024.
Definition MAX_FILELISTS_OPEN_BYTES : N := 8 * 1024 * 1024 * 1024.
Definition MAX_FILE_PATHS : N := 50000000.
Definition MAX_FILES_PER_PACKAGE : N := 1000000.
Definition MAX_XML_TEXT_BYTES : N := 1024 * 1024.

(** ** Events *)

Inductive ResolveResult : Type :=
  | Unbound
  | Bound (uri : string)
  | Unknown (prefix : string).

(** An attribute: [value] is its decoded and normalized value, or why there is none. *)
Record attribute : Type := Attribute { key : string; value : result string string }.

(** A start tag; iterating over the attributes may yield an error for a malformed one. *)
Record element : Type := Element { name : string; attributes : list (result string attribute) }.

(** The texts of events are the decoded ones, or why they do not decode. *)
Inductive event : Type :=
  | Start (namespace : ResolveResult) (e : element)
  | Empty (namespace : ResolveResult) (e : element)
  | End (name : string)
  | Text (decoded : result string string)
  | GeneralRef (decoded : result string string)
  | CData (decoded : result string string)
  | Decl
  | DocType (decoded : result string string)
  | Comment
  | PI
  | Malformed (message : string).

(** ** Attributes *)

(** The value of the first attribute with a key, looking no further. *)
Fixpoint find_attribute (attrs : list (result string attribute)) (wanted : string) : xresult (option string) :=
  match attrs with
  | [] => Ok None
  | a :: attrs =>
      a ← xml_error a;
      if bool_decide (key a = wanted) then Some <$> xml_error (value a) else find_attribute attrs wanted
  end.

Definition attribute_streaming (e : element) (wanted : string) : xresult (option string) :=
  find_attribute (attributes e) wanted.

Definition default_namespace (e : element) : xresult (option string) := attribute_streaming e "xmlns".

Definition required (e : element) (wanted : string) : xresult string :=
  v ← attribute_streaming e wanted; ok_or (MetadataError.Xml "missing required attribute") v.

Definition parse_number (value : string) : xresult N :=
  ok_or (MetadataError.InvalidNumber value) (parse_unsigned u64_max value).

(** A name with a prefix. *)
Definition prefixed (name : string) : bool := bset_contains ":"%char (bytes name).

(** ** Text *)

Section text.
Context (unescape : string -> result string string).

Definition decode_text (decoded : result string string) : xresult string :=
  text ← xml_error decoded; xml_error (unescape text).

Definition decode_reference (decoded : result string string) : xresult string :=
  reference ← xml_error decoded; xml_error (unescape ("&" +:+ reference +:+ ";")).
End text.

(** ** Facts *)

Definition plain (attrs : list (string * string)) : list (result string attribute) :=
  (fun p => Ok (Attribute p.1 (Ok p.2))) <$> attrs.

Lemma find_attribute_plain attrs wanted : find_attribute (plain attrs) wanted = Ok (bmap_lookup wanted attrs).
Proof.
  induction attrs as [|[k v] attrs IH]; [done |]. simpl. case_bool_decide as Hk; simpl.
  - subst k. by rewrite cmp_refl.
  - destruct (cmp wanted k) eqn:E; simpl; [by apply cmp_eq in E as -> | apply IH..].
Qed.

Lemma prefixed_false s : prefixed s = false <-> ":"%char ∉ bytes s.
Proof. apply bset_contains_false. Qed.

Lemma parse_number_bound s n : parse_number s = Ok n -> n <= u64_max.
Proof.
  unfold parse_number, parse_unsigned. case_match; [done |]. intros [= <-].
  by apply orb_false_iff in H as [_ ?%N.ltb_ge].
Qed.
