(* ===== verification/Repomd.v ===== *)
(** * repomd.xml ([dnfast-metadata]: repomd.rs)

    The reader of the index of a repository, as a fold over the events of the document, and what
    an accepted index guarantees of its records. *)
From Stdlib Require Import Ascii.
From S2P Require Import Prelude.
From S2P Require Import RustStr.
From S2P Require Import RustText.
From S2P Require Import UnixPath.
From S2P Require Import Metadata.
From S2P Require Import Xml.

#[local] Open Scope N_scope.

Definition MAX_PRIMARY_COMPRESSED_BYTES : N := 512 * 1024 * 1024.
Definition MAX_PRIMARY_OPEN_BYTES : N := 1024 * 1024 * 1024.
Definition MAX_AUXILIARY_BYTES : N := 512 * 1024 * 1024.
Definition REPO_NAMESPACE : string := "http://linux.duke.edu/metadata/repo".

Module MetadataRecord.
Record t : Type := mk { href : string; checksum : string; size : N; open_checksum : string; open_size : N }.
#[global] Instance metadata_record_eq_dec : EqDecision t.
Proof. solve_decision. Defined.
End MetadataRecord.

Module AuxiliaryRecord.
Record t : Type := mk { href : string; checksum : string; size : N }.
#[global] Instance auxiliary_record_eq_dec : EqDecision t.
Proof. solve_decision. Defined.
End AuxiliaryRecord.

Module RepomdRecords.
Record t : Type := mk {
  primary : MetadataRecord.t;
  filelists : MetadataRecord.t;
  group : option AuxiliaryRecord.t;
  modules : option AuxiliaryRecord.t;
  updateinfo : option AuxiliaryRecord.t
}.
End RepomdRecords.

Module Document.
Record t : Type := mk {
  primary : option MetadataRecord.t;
  filelists : option MetadataRecord.t;
  group : option AuxiliaryRecord.t;
  modules : option AuxiliaryRecord.t;
  updateinfo : option AuxiliaryRecord.t;
  root_seen : bool;
  root_closed : bool;
  declaration_seen : bool
}.
Definition default : t := mk None None None None None false false false.
Definition see_root (d : t) : t :=
  mk (primary d) (filelists d) (group d) (modules d) (updateinfo d) true (root_closed d) (declaration_seen d).
Definition close_root (d : t) : t :=
  mk (primary d) (filelists d) (group d) (modules d) (updateinfo d) (root_seen d) true (declaration_seen d).
Definition see_declaration (d : t) : t :=
  mk (primary d) (filelists d) (group d) (modules d) (updateinfo d) (root_seen d) (root_closed d) true.
Definition set_primary (r : MetadataRecord.t) (d : t) : t :=
  mk (Some r) (filelists d) (group d) (modules d) (updateinfo d) (root_seen d) (root_closed d) (declaration_seen d).
Definition set_filelists (r : MetadataRecord.t) (d : t) : t :=
  mk (primary d) (Some r) (group d) (modules d) (updateinfo d) (root_seen d) (root_closed d) (declaration_seen d).
Definition set_group (r : AuxiliaryRecord.t) (d : t) : t :=
  mk (primary d) (filelists d) (Some r) (modules d) (updateinfo d) (root_seen d) (root_closed d) (declaration_seen d).
Definition set_modules (r : AuxiliaryRecord.t) (d : t) : t :=
  mk (primary d) (filelists d) (group d) (Some r) (updateinfo d) (root_seen d) (root_closed d) (declaration_seen d).
Definition set_updateinfo (r : AuxiliaryRecord.t) (d : t) : t :=
  mk (primary d) (filelists d) (group d) (modules d) (Some r) (root_seen d) (root_closed d) (declaration_seen d).
(** Before the root or after it. *)
Definition outside (d : t) : bool := negb (root_seen d) || root_closed d.
End Document.

Module Builder.
Record t : Type := mk {
  kind : option string;
  field : option string;
  href : option string;
  checksum : option string;
  size : option N;
  open_checksum : option string;
  open_size : option N
}.
Definition default : t := mk None None None None None None None.
Definition set_kind (v : option string) (b : t) : t :=
  mk v (field b) (href b) (checksum b) (size b) (open_checksum b) (open_size b).
Definition set_field (v : option string) (b : t) : t :=
  mk (kind b) v (href b) (checksum b) (size b) (open_checksum b) (open_size b).
Definition set_href (v : option string) (b : t) : t :=
  mk (kind b) (field b) v (checksum b) (size b) (open_checksum b) (open_size b).
Definition set_checksum (v : string) (b : t) : t :=
  mk (kind b) (field b) (href b) (Some v) (size b) (open_checksum b) (open_size b).
Definition set_size (v : N) (b : t) : t :=
  mk (kind b) (field b) (href b) (checksum b) (Some v) (open_checksum b) (open_size b).
Definition set_open_checksum (v : string) (b : t) : t :=
  mk (kind b) (field b) (href b) (checksum b) (size b) (Some v) (open_size b).
Definition set_open_size (v : N) (b : t) : t :=
  mk (kind b) (field b) (href b) (checksum b) (size b) (open_checksum b) (Some v).
End Builder.

(** ** Records *)

Definition valid_checksum (value : string) : xresult string :=
  if negb (str_len value =? 64) || negb (forallb is_ascii_hexdigit (bytes value))
  then Err (MetadataError.UnsupportedChecksum value) else Ok (to_ascii_lowercase value).

Definition bounded (value maximum : N) : xresult N :=
  if maximum <? value then Err (MetadataError.SizeMismatch maximum value) else Ok value.

Definition validate_location (href : string) : xresult unit :=
  let lowered := to_ascii_lowercase href in
  if str_is_empty href
     || negb (str_starts_with "repodata/" href)
     || str_starts_with "/" href
     || str_contains "//" href
     || str_contains "\" href
     || str_contains "?" href
     || str_contains "#" href
     || str_contains "%" href
     || existsb char_is_control (chars href)
     || existsb (fun part => str_is_empty part || bool_decide (part = ".") || bool_decide (part = ".."))
          (segments href)
     || str_contains "://" lowered
  then Err (MetadataError.UnsafeLocation href) else Ok tt.

Definition present {A} (o : option A) : xresult A := ok_or MetadataError.MissingPrimary o.

Definition build_auxiliary (b : Builder.t) (compressed_limit : N) : xresult AuxiliaryRecord.t :=
  href ← present (Builder.href b);
  _ ← validate_location href;
  checksum ← present (Builder.checksum b);
  checksum ← valid_checksum checksum;
  size ← present (Builder.size b);
  size ← bounded size compressed_limit;
  if size =? 0 then Err (MetadataError.SizeMismatch 1 0) else Ok (AuxiliaryRecord.mk href checksum size).

Definition build (b : Builder.t) (compressed_limit open_limit : N) : xresult MetadataRecord.t :=
  href ← present (Builder.href b);
  _ ← validate_location href;
  checksum ← present (Builder.checksum b);
  checksum ← valid_checksum checksum;
  open_checksum ← present (Builder.open_checksum b);
  open_checksum ← valid_checksum open_checksum;
  size ← present (Builder.size b);
  size ← bounded size compressed_limit;
  open_size ← present (Builder.open_size b);
  open_size ← bounded open_size open_limit;
  Ok (MetadataRecord.mk href checksum size open_checksum open_size).

(** [slot.replace(record).is_some()]. *)
Definition replace_slot {A} (kind : string) (slot : option A) (d : Document.t) : xresult Document.t :=
  if bool_decide (is_Some slot) then Err (MetadataError.DuplicateRecord kind) else Ok d.

Definition finish_record (d : Document.t) (b : Builder.t) (collect_filelists : bool) : xresult Document.t :=
  match Builder.kind b with
  | None => Ok d
  | Some kind =>
      if bool_decide (kind = "filelists") && negb collect_filelists then Ok d
      else if bool_decide (kind ∈ ["group"; "modules"; "updateinfo"]) then
        if negb collect_filelists then Ok d
        else
          record ← build_auxiliary b MAX_AUXILIARY_BYTES;
          if bool_decide (kind = "group") then replace_slot kind (Document.group d) (Document.set_group record d)
          else if bool_decide (kind = "modules")
          then replace_slot kind (Document.modules d) (Document.set_modules record d)
          else replace_slot kind (Document.updateinfo d) (Document.set_updateinfo record d)
      else if bool_decide (kind = "primary") then
        record ← build b MAX_PRIMARY_COMPRESSED_BYTES MAX_PRIMARY_OPEN_BYTES;
        replace_slot kind (Document.primary d) (Document.set_primary record d)
      else if bool_decide (kind = "filelists") then
        record ← build b MAX_FILELISTS_COMPRESSED_BYTES MAX_FILELISTS_OPEN_BYTES;
        replace_slot kind (Document.filelists d) (Document.set_filelists record d)
      else Ok d
  end.

(** ** Events *)

Definition resolved_is_valid (ns : ResolveResult) : bool :=
  match ns with Bound uri => bool_decide (uri = REPO_NAMESPACE) | _ => false end.

Definition resolved_ok (ns : ResolveResult) : xresult unit :=
  if resolved_is_valid ns then Ok tt else xml "unexpected repomd resolved namespace".

Definition namespace (e : element) (d : Document.t) : xresult unit :=
  if Document.outside d then xml "element outside repomd root"
  else if prefixed (name e) then xml "unexpected repomd namespace prefix"
  else
    ns ← default_namespace e;
    match ns with
    | Some value => if bool_decide (value = REPO_NAMESPACE) then Ok tt else xml "unexpected repomd namespace"
    | None => Ok tt
    end.

Definition start (e : element) (d : Document.t) (b : Builder.t) : xresult Builder.t :=
  _ ← namespace e d;
  if bool_decide (name e = "data") then
    kind ← attribute_streaming e "type"; Ok (Builder.set_kind kind b)
  else if bool_decide (is_Some (Builder.kind b)) then
    if bool_decide (name e ∈ ["checksum"; "open-checksum"]) then
      kind ← attribute_streaming e "type";
      let kind := default "" kind in
      if negb (bool_decide (kind = "sha256")) then Err (MetadataError.UnsupportedChecksum kind)
      else Ok (Builder.set_field (Some (name e)) b)
    else if bool_decide (name e ∈ ["size"; "open-size"]) then Ok (Builder.set_field (Some (name e)) b)
    else Ok b
  else Ok b.

Definition empty_element (e : element) (d : Document.t) (b : Builder.t) : xresult Builder.t :=
  _ ← namespace e d;
  if bool_decide (is_Some (Builder.kind b)) && bool_decide (name e = "location")
  then href ← attribute_streaming e "href"; Ok (Builder.set_href href b)
  else Ok b.

(** The text of the field that is open. *)
Definition field_text (value : string) (b : Builder.t) : xresult Builder.t :=
  match Builder.field b with
  | None => Ok b
  | Some field =>
      if bool_decide (field = "checksum") then Ok (Builder.set_checksum value b)
      else if bool_decide (field = "open-checksum") then Ok (Builder.set_open_checksum value b)
      else if bool_decide (field = "size") then n ← parse_number value; Ok (Builder.set_size n b)
      else if bool_decide (field = "open-size") then n ← parse_number value; Ok (Builder.set_open_size n b)
      else Ok b
  end.

Section reader.
Context (unescape : string -> result string string).

(** The reader trims the texts it delivers. *)
Definition step (require_filelists : bool) (s : Document.t * Builder.t) (ev : event) :
    xresult (Document.t * Builder.t) :=
  let '(d, b) := s in
  match ev with
  | Start ns e =>
      if negb (Document.root_seen d) then
        if negb (bool_decide (name e = "repomd")) then xml "unexpected repomd root or namespace"
        else
          namespace ← default_namespace e;
          if negb (bool_decide (namespace = Some REPO_NAMESPACE)) then xml "unexpected repomd root or namespace"
          else _ ← resolved_ok ns; Ok (Document.see_root d, b)
      else if Document.root_closed d then xml "element outside repomd root"
      else b ← start e d b; _ ← resolved_ok ns; Ok (d, b)
  | Empty ns e =>
      if Document.outside d then xml "element outside repomd root"
      else b ← empty_element e d b; _ ← resolved_ok ns; Ok (d, b)
  | Text t =>
      value ← decode_text unescape t;
      if bool_decide (is_Some (Builder.kind b)) then b ← field_text value b; Ok (d, b)
      else if negb (str_is_empty (trim value)) && Document.outside d then xml "text outside repomd root"
      else if Document.outside d then xml "content outside repomd root"
      else Ok s
  | End n =>
      if bool_decide (n = "data") then d ← finish_record d b require_filelists; Ok (d, Builder.default)
      else if bool_decide (n = "repomd") then Ok (Document.close_root d, b)
      else if Document.outside d then xml "end element outside repomd root"
      else Ok (d, Builder.set_field None b)
  | Decl =>
      if negb (Document.root_seen d) && negb (Document.declaration_seen d)
      then Ok (Document.see_declaration d, b) else xml "misplaced XML declaration or doctype"
  | DocType _ => xml "misplaced XML declaration or doctype"
  | Comment | PI => Ok s
  | Malformed m => xml m
  | GeneralRef _ | CData _ => if Document.outside d then xml "content outside repomd root" else Ok s
  end.

Definition parse_document (input : list event) (require_filelists : bool) : xresult Document.t :=
  '(d, _) ← fold_result (step require_filelists) (Document.default, Builder.default) input;
  if negb (Document.root_seen d) || negb (Document.root_closed d)
  then xml "incomplete repomd root"
  else if negb (bool_decide (is_Some (Document.primary d))) then Err MetadataError.MissingPrimary
  else if require_filelists && negb (bool_decide (is_Some (Document.filelists d)))
  then Err MetadataError.MissingFilelists
  else Ok d.

Definition parse_repomd (input : list event) : xresult MetadataRecord.t :=
  parsed ← parse_document input false; present (Document.primary parsed).

Definition parse_repomd_records (input : list event) : xresult RepomdRecords.t :=
  parsed ← parse_document input true;
  primary ← present (Document.primary parsed);
  filelists ← ok_or MetadataError.MissingFilelists (Document.filelists parsed);
  _ ← checked_total_open [MetadataRecord.open_size primary; MetadataRecord.open_size filelists];
  Ok (RepomdRecords.mk primary filelists (Document.group parsed) (Document.modules parsed)
        (Document.updateinfo parsed)).
End reader.

(** ** Reference: a document as a list of records with fields in any order *)

Module RepomdSpec.

(** [<name attrs>text</name>] or [<location attrs/>], as text and attributes come. *)
Inductive field : Type :=
  | Field (name : string) (attrs : list (string * string)) (text : option string)
  | Leaf (name : string) (attrs : list (string * string)).

(** [<data attrs>fields</data>]. *)
Record entry : Type := Entry { attrs : list (string * string); fields : list field }.

Definition ns : ResolveResult := Bound REPO_NAMESPACE.
Definition start_tag (n : string) (attrs : list (string * string)) : event := Start ns (Element n (plain attrs)).

Definition field_events (f : field) : list event :=
  match f with
  | Field n attrs text =>
      start_tag n attrs :: match text with Some t => [Text (Ok t)] | None => [] end ++ [End n]
  | Leaf n attrs => [Empty ns (Element n (plain attrs))]
  end.

Definition entry_events (e : entry) : list event :=
  start_tag "data" (attrs e) :: concat (field_events <$> fields e) ++ [End "data"].

Definition document_events (entries : list entry) : list event :=
  start_tag "repomd" [("xmlns", REPO_NAMESPACE)] :: concat (entry_events <$> entries) ++ [End "repomd"].

(** Names and attributes that mean nothing to the reader beyond the field they are. *)
Definition plain_name (n : string) : bool :=
  negb (prefixed n) && negb (bool_decide (n ∈ ["data"; "repomd"])).
Definition no_namespace (attrs : list (string * string)) : bool :=
  negb (bool_decide (is_Some (bmap_lookup "xmlns" attrs))).
Definition plain_field (f : field) : bool :=
  match f with
  | Field n attrs _ => plain_name n && no_namespace attrs
  | Leaf n attrs => negb (prefixed n) && no_namespace attrs
  end.
Definition plain_entry (e : entry) : bool :=
  no_namespace (attrs e) && bool_decide (is_Some (bmap_lookup "type" (attrs e)))
  && forallb plain_field (fields e).

(** What a field says of its record. *)
Section reference.
Context (unescape : string -> result string string).

Definition checksum_kind (attrs : list (string * string)) : xresult unit :=
  let kind := default "" (bmap_lookup "type" attrs) in
  if bool_decide (kind = "sha256") then Ok tt else Err (MetadataError.UnsupportedChecksum kind).

Definition read_field (b : Builder.t) (f : field) : xresult Builder.t :=
  match f with
  | Leaf n attrs => Ok (if bool_decide (n = "location") then Builder.set_href (bmap_lookup "href" attrs) b else b)
  | Field n attrs text =>
      _ ← (if bool_decide (n ∈ ["checksum"; "open-checksum"]) then checksum_kind attrs else Ok tt);
      match text with
      | None => Ok b
      | Some raw =>
          value ← decode_text unescape (Ok raw);
          if bool_decide (n = "checksum") then Ok (Builder.set_checksum value b)
          else if bool_decide (n = "open-checksum") then Ok (Builder.set_open_checksum value b)
          else if bool_decide (n = "size") then size ← parse_number value; Ok (Builder.set_size size b)
          else if bool_decide (n = "open-size") then size ← parse_number value; Ok (Builder.set_open_size size b)
          else Ok b
      end
  end.

Definition read_entry (collect_filelists : bool) (d : Document.t) (e : entry) : xresult Document.t :=
  b ← fold_result read_field (Builder.set_kind (bmap_lookup "type" (attrs e)) Builder.default) (fields e);
  finish_record d b collect_filelists.

(** The records one after the other. *)
Definition read_records (collect_filelists : bool) (entries : list entry) : xresult Document.t :=
  fold_result (read_entry collect_filelists) (Document.see_root Document.default) entries.
End reference.
End RepomdSpec.

Module RepomdFacts.
Import RepomdSpec.

Section facts.
Context (unescape : string -> result string string) (rf : bool).

Definition opened (d : Document.t) : Prop := Document.root_seen d = true /\ Document.root_closed d = false.

Lemma opened_inside d : opened d -> Document.outside d = false.
Proof. intros [H1 H2]. unfold Document.outside. by rewrite H1, H2. Qed.

Lemma namespace_plain d n attrs : opened d -> prefixed n = false -> no_namespace attrs = true ->
  namespace (Element n (plain attrs)) d = Ok tt.
Proof.
  intros Hd Hn Ha. unfold namespace. rewrite (opened_inside d Hd). cbn [name]. rewrite Hn.
  unfold default_namespace, attribute_streaming. cbn [attributes]. rewrite find_attribute_plain. simpl.
  unfold no_namespace in Ha. bool_inv. destruct (bmap_lookup "xmlns" attrs); [| done]. destruct Ha. by eexists.
Qed.

(** A builder in the middle of a record of kind [k], between two fields. *)
Definition between (b : Builder.t) : Prop := is_Some (Builder.kind b) /\ Builder.field b = None.

Lemma step_start d b n attrs : opened d ->
  step unescape rf (d, b) (start_tag n attrs) = b' ← start (Element n (plain attrs)) d b; Ok (d, b').
Proof.
  intros [H1 H2]. unfold start_tag. cbn [step]. rewrite H1, H2. cbn [negb].
  by destruct (start _ _ _).
Qed.

Lemma set_field_none b : Builder.field b = None -> Builder.set_field None b = b.
Proof. destruct b. simpl. by intros ->. Qed.

(** One field, between its tags. *)
Lemma field_step d b f : opened d -> between b -> plain_field f = true ->
  fold_result (step unescape rf) (d, b) (field_events f) = b' ← read_field unescape b f; Ok (d, b').
Proof.
  intros Hd [Hk Hf] Hp. destruct f as [n attrs text|n attrs]; cbn [field_events fold_result plain_field] in *.
  - bool_inv. unfold plain_name in H. bool_inv. rewrite step_start by done. unfold start.
    rewrite namespace_plain by done. cbn [name mbind result_mbind].
    apply not_elem_of_cons in H1 as [Hdata Hrepomd%not_elem_of_cons]. destruct Hrepomd as [Hrepomd _].
    rewrite (bool_decide_false (n = "data")) by done. rewrite (bool_decide_true (is_Some _)) by done.
    unfold attribute_streaming. cbn [attributes]. rewrite find_attribute_plain. cbn [mbind result_mbind].
    assert (Hend : forall b1, Builder.kind b1 = Builder.kind b ->
      fold_result (step unescape rf) (d, b1) (match text with Some t => [Text (Ok t)] | None => [] end ++ [End n]) =
      b' ← (match text with
            | Some raw => value ← decode_text unescape (Ok raw); field_text value b1
            | None => Ok b1 end); Ok (d, Builder.set_field None b')).
    { intros b1 Hk1. assert (HE : forall b2, step unescape rf (d, b2) (End n) = Ok (d, Builder.set_field None b2)).
      { intros b2. cbn [step]. by rewrite !bool_decide_false, opened_inside. }
      destruct text as [raw|]; cbn [app fold_result]; [| by rewrite HE].
      cbn [step]. destruct (decode_text unescape (Ok raw)) as [v|e]; [| done]. cbn [mbind result_mbind].
      rewrite Hk1, (bool_decide_true (is_Some _)) by done.
      destruct (field_text v b1) as [b2|e]; [| done]. cbn [mbind result_mbind]. by rewrite HE. }
    unfold read_field. unfold checksum_kind.
    destruct (decide (n ∈ ["checksum"; "open-checksum"])) as [Hc|Hc].
    + rewrite !(bool_decide_true (n ∈ ["checksum"; "open-checksum"])) by done.
      destruct (bool_decide (default "" (bmap_lookup "type" attrs) = "sha256")); [| done].
      cbn [negb mbind result_mbind]. rewrite Hend by done. destruct text as [raw|].
      * destruct (decode_text unescape (Ok raw)) as [v|e]; [| done]. cbn [mbind result_mbind].
        unfold field_text. cbn [Builder.set_field Builder.field].
        destruct b; simpl in Hf; subst. apply elem_of_cons in Hc as [->| ->%list_elem_of_singleton]; done.
      * cbn [mbind result_mbind]. by destruct b; simpl in *; subst.
    + rewrite !(bool_decide_false (n ∈ ["checksum"; "open-checksum"])) by done. cbn [mbind result_mbind].
      apply not_elem_of_cons in Hc as [Hc1 Hc2%not_elem_of_cons]. destruct Hc2 as [Hc2 _].
      destruct (decide (n ∈ ["size"; "open-size"])) as [Hs|Hs].
      * rewrite (bool_decide_true (n ∈ ["size"; "open-size"])) by done. cbn [mbind result_mbind].
        rewrite Hend by done. destruct text as [raw|]; [| by destruct b; simpl in *; subst].
        destruct (decode_text unescape (Ok raw)) as [v|e]; [| done]. cbn [mbind result_mbind].
        unfold field_text. cbn [Builder.set_field Builder.field].
        destruct b; simpl in Hf; subst. apply elem_of_cons in Hs as [->| ->%list_elem_of_singleton]; simpl;
          by destruct (parse_number v).
      * rewrite (bool_decide_false (n ∈ ["size"; "open-size"])) by done. cbn [mbind result_mbind].
        rewrite Hend by done. apply not_elem_of_cons in Hs as [Hs1 Hs2%not_elem_of_cons]. destruct Hs2 as [Hs2 _].
        destruct text as [raw|]; [| by cbn [mbind result_mbind]; rewrite set_field_none].
        destruct (decode_text unescape (Ok raw)) as [v|e]; [| done]. cbn [mbind result_mbind].
        unfold field_text. rewrite Hf, !bool_decide_false by done. cbn [mbind result_mbind]. by rewrite set_field_none.
  - bool_inv. cbn [step]. rewrite (opened_inside d Hd). unfold empty_element.
    rewrite namespace_plain by done. cbn [name mbind result_mbind].
    rewrite (bool_decide_true (is_Some _)) by done. cbn [andb]. unfold attribute_streaming. cbn [attributes].
    rewrite find_attribute_plain. unfold read_field, resolved_ok, resolved_is_valid, ns.
    rewrite (bool_decide_true (REPO_NAMESPACE = _)) by done. by case_bool_decide.
Qed.

Lemma read_field_between b f b' : between b -> read_field unescape b f = Ok b' -> between b'.
Proof.
  intros [Hk Hf]. unfold read_field. destruct f as [n attrs text|n attrs].
  - intros (u & _ & Hb)%bind_ok. destruct text as [raw|]; [| by injection Hb as <-].
    apply bind_ok in Hb as (v & _ & Hb). repeat case_bool_decide; result_inv; by split.
  - intros [= <-]. by case_bool_decide.
Qed.

Lemma fields_step d fs : forall b, opened d -> between b -> forallb plain_field fs = true ->
  fold_result (step unescape rf) (d, b) (concat (field_events <$> fs)) =
  b' ← fold_result (read_field unescape) b fs; Ok (d, b').
Proof.
  induction fs as [|f fs IH]; intros b Hd Hb; [done |]. cbn [forallb]. intros [Hf Hfs]%andb_true_iff.
  rewrite fmap_cons. cbn [concat]. rewrite fold_result_app, (field_step d b f Hd Hb Hf), !bind_assoc.
  cbn [fold_result]. destruct (read_field unescape b f) as [b1|e] eqn:Hr; [| done]. cbn [mbind result_mbind].
  apply IH; [done | by apply (read_field_between b f) | done].
Qed.

Lemma replace_slot_ok {A} k (slot : option A) d d' : replace_slot k slot d = Ok d' -> d' = d /\ slot = None.
Proof.
  unfold replace_slot. case_bool_decide as Hs; [done |]. intros [= <-].
  destruct slot; [destruct Hs; by eexists | done].
Qed.

Lemma finish_record_opened d b d' : opened d -> finish_record d b rf = Ok d' -> opened d'.
Proof.
  intros Hd. unfold finish_record. destruct (Builder.kind b); [| by intros [= <-]].
  repeat case_match; intros Hf; result_inv; try done; by apply replace_slot_ok in Hf as [-> _].
Qed.

Lemma entry_step d e : opened d -> plain_entry e = true ->
  fold_result (step unescape rf) (d, Builder.default) (entry_events e) =
  d' ← read_entry unescape rf d e; Ok (d', Builder.default).
Proof.
  intros Hd Hp. unfold plain_entry in Hp. bool_inv. unfold entry_events. cbn [fold_result].
  rewrite step_start by done. unfold start. rewrite namespace_plain by done. cbn [name mbind result_mbind].
  rewrite (bool_decide_true ("data" = "data")) by done. unfold attribute_streaming. cbn [attributes].
  rewrite find_attribute_plain. cbn [mbind result_mbind]. rewrite fold_result_app, fields_step; [| done | by split | done].
  unfold read_entry. rewrite !bind_assoc.
  destruct (fold_result (read_field unescape) _ _) as [b|err]; [| done]. cbn [mbind result_mbind fold_result step].
  rewrite bool_decide_true by done. by destruct (finish_record d b rf).
Qed.

Lemma entries_step es : forall d, opened d -> forallb plain_entry es = true ->
  fold_result (step unescape rf) (d, Builder.default) (concat (entry_events <$> es)) =
  d' ← fold_result (read_entry unescape rf) d es; Ok (d', Builder.default).
Proof.
  induction es as [|e es IH]; intros d Hd; [done |]. cbn [forallb]. intros [He Hes]%andb_true_iff.
  rewrite fmap_cons. cbn [concat fold_result]. rewrite fold_result_app, (entry_step d e Hd He), !bind_assoc.
  destruct (read_entry unescape rf d e) as [d1|err] eqn:Hr; [| done]. cbn [mbind result_mbind].
  apply IH; [| done]. unfold read_entry in Hr. result_inv. by eapply finish_record_opened.
Qed.

Lemma document_step es : forallb plain_entry es = true ->
  fold_result (step unescape rf) (Document.default, Builder.default) (document_events es) =
  d ← read_records unescape rf es; Ok (Document.close_root d, Builder.default).
Proof.
  intros Hp. unfold document_events. cbn [fold_result].
  assert (H1 : step unescape rf (Document.default, Builder.default) (start_tag "repomd" [("xmlns", REPO_NAMESPACE)]) =
    Ok (Document.see_root Document.default, Builder.default)) by (cbn; done).
  rewrite H1. cbn [mbind result_mbind]. rewrite fold_result_app, entries_step by done. rewrite !bind_assoc.
  unfold read_records. destruct (fold_result (read_entry unescape rf) _ es) as [d|err]; [| done].
  cbn [mbind result_mbind fold_result step]. done.
Qed.

(** ** What the records of an accepted index satisfy *)

Definition safe_location (href : string) : Prop :=
  str_starts_with "repodata/" href = true /\ str_contains "%" href = false /\ str_contains "\" href = false /\
  Forall (fun part => part <> "" /\ part <> "." /\ part <> "..") (segments href) /\
  existsb char_is_control (chars href) = false.

(** 64 digits, those of letters in lower case. *)
Definition sha256_text (checksum : string) : Prop :=
  str_len checksum = 64 /\
  Forall (fun b => is_ascii_digit b || in_range 97 102 (byte_val b) = true) (bytes checksum).

Lemma byte_to_lower_hex b : is_ascii_hexdigit b = true ->
  is_ascii_digit (byte_to_lower b) || in_range 97 102 (byte_val (byte_to_lower b)) = true.
Proof. byte_cases; try done; lia. Qed.

Lemma valid_checksum_ok v c : valid_checksum v = Ok c -> sha256_text c.
Proof.
  unfold valid_checksum. case_match; [done |]. intros [= <-]. bool_inv.
  split; [by rewrite str_len_lower; apply N.eqb_eq |].
  unfold to_ascii_lowercase. rewrite bytes_of_bytes. apply Forall_fmap. apply forallb_true in H0.
  eapply Forall_impl; [exact H0 |]. intros b. apply byte_to_lower_hex.
Qed.

Lemma bounded_ok v m n : bounded v m = Ok n -> n = v /\ v <= m.
Proof. unfold bounded. case_match eqn:E; [done |]. intros [= <-]. apply N.ltb_ge in E. done. Qed.

Lemma validate_location_ok href u : validate_location href = Ok u -> safe_location href.
Proof.
  unfold validate_location. case_match; [done |]. intros _. bool_inv. split_and!; try done.
  apply existsb_false in H1. apply Forall_forall. intros part Hp. rewrite Forall_forall in H1. apply H1 in Hp.
  bool_inv. by rewrite str_is_empty_false in *.
Qed.

Definition record_sound (limit open_limit : N) (r : MetadataRecord.t) : Prop :=
  safe_location (MetadataRecord.href r) /\ sha256_text (MetadataRecord.checksum r) /\
  sha256_text (MetadataRecord.open_checksum r) /\ MetadataRecord.size r <= limit /\
  MetadataRecord.open_size r <= open_limit.

Definition auxiliary_sound (r : AuxiliaryRecord.t) : Prop :=
  safe_location (AuxiliaryRecord.href r) /\ sha256_text (AuxiliaryRecord.checksum r) /\
  1 <= AuxiliaryRecord.size r <= MAX_AUXILIARY_BYTES.

Lemma build_ok b l ol r : build b l ol = Ok r -> record_sound l ol r.
Proof.
  unfold build. intros H. result_inv. repeat match goal with
  | H : validate_location _ = Ok _ |- _ => apply validate_location_ok in H
  | H : valid_checksum _ = Ok _ |- _ => apply valid_checksum_ok in H
  | H : bounded _ _ = Ok _ |- _ => apply bounded_ok in H as [-> ?] end.
  by split_and!.
Qed.

Lemma build_auxiliary_ok b r : build_auxiliary b MAX_AUXILIARY_BYTES = Ok r -> auxiliary_sound r.
Proof.
  unfold build_auxiliary. intros H. result_inv. repeat match goal with
  | H : validate_location _ = Ok _ |- _ => apply validate_location_ok in H
  | H : valid_checksum _ = Ok _ |- _ => apply valid_checksum_ok in H
  | H : bounded _ _ = Ok _ |- _ => apply bounded_ok in H as [-> ?] end.
  case_match eqn:E; [done |]. apply N.eqb_neq in E. result_inv. split_and!; try done. simpl. lia.
Qed.

Lemma total_open_ok a b n : checked_total_open [a; b] = Ok n -> a + b <= MAX_TOTAL_OPEN_BYTES.
Proof.
  unfold checked_total_open. intros H. result_inv. cbn [checked_sum] in *. unfold u64_checked_add in *.
  repeat match goal with H : context [if ?c then _ else _] |- _ => destruct c eqn:?; simplify_option_eq end.
  match goal with H : (MAX_TOTAL_OPEN_BYTES <? _) = false |- _ => apply N.ltb_ge in H; lia end.
Qed.

Definition option_sound {A} (P : A -> Prop) (o : option A) : Prop := forall x, o = Some x -> P x.

Definition document_sound (d : Document.t) : Prop :=
  option_sound (record_sound MAX_PRIMARY_COMPRESSED_BYTES MAX_PRIMARY_OPEN_BYTES) (Document.primary d) /\
  option_sound (record_sound MAX_FILELISTS_COMPRESSED_BYTES MAX_FILELISTS_OPEN_BYTES) (Document.filelists d) /\
  option_sound auxiliary_sound (Document.group d) /\ option_sound auxiliary_sound (Document.modules d) /\
  option_sound auxiliary_sound (Document.updateinfo d).

Lemma option_sound_some {A} (P : A -> Prop) x : P x -> option_sound P (Some x).
Proof. by intros Hx y [= <-]. Qed.

Lemma finish_record_sound d b d' : document_sound d -> finish_record d b rf = Ok d' -> document_sound d'.
Proof.
  intros (H1 & H2 & H3 & H4 & H5). unfold finish_record. destruct (Builder.kind b); [| by intros [= <-]].
  repeat case_match; intros Hf; result_inv; try done; apply replace_slot_ok in Hf as [-> _];
    split_and!; try done; apply option_sound_some; by (eapply build_ok + eapply build_auxiliary_ok).
Qed.

Lemma repomd_step_sound d b ev d' b' : document_sound d -> step unescape rf (d, b) ev = Ok (d', b') -> document_sound d'.
Proof.
  intros Hd. destruct ev; cbn [step]; intros Hs; repeat first [done | progress result_inv | case_match].
  by eapply finish_record_sound.
Qed.

Lemma parse_document_sound input d : parse_document unescape input rf = Ok d -> document_sound d.
Proof.
  unfold parse_document. intros ([d1 b1] & Hf & Hd)%bind_ok.
  assert (document_sound d1).
  { refine (fold_result_ind _ (fun s => document_sound s.1) _ _ _ _ _ Hf); [by split_and! |].
    intros [d2 b2] ev [d3 b3] _ H2. by apply repomd_step_sound. }
  repeat case_match; result_inv; done.
Qed.
End facts.
End RepomdFacts.

(** Reading an index whose records hold their fields in any order, with unknown fields and
    unknown records among them, gives what the records say one after the other: the same records
    and, when one of them is wrong, the same error. *)
Theorem parse_repomd_records_reference (unescape : string -> result string string) (entries : list RepomdSpec.entry)
    (Hplain : forallb RepomdSpec.plain_entry entries = true) :
  parse_repomd_records unescape (RepomdSpec.document_events entries) =
  d ← RepomdSpec.read_records unescape true entries;
  primary ← ok_or MetadataError.MissingPrimary (Document.primary d);
  filelists ← ok_or MetadataError.MissingFilelists (Document.filelists d);
  _ ← checked_total_open [MetadataRecord.open_size primary; MetadataRecord.open_size filelists];
  Ok (RepomdRecords.mk primary filelists (Document.group d) (Document.modules d) (Document.updateinfo d)).
Proof.
  unfold parse_repomd_records, parse_document. rewrite RepomdFacts.document_step, !bind_assoc by done.
  unfold RepomdSpec.read_records.
  destruct (fold_result (RepomdSpec.read_entry unescape true) _ entries) as [d|e] eqn:Hf; [| done].
  assert (Hd : RepomdFacts.opened d).
  { refine (fold_result_ind _ RepomdFacts.opened _ _ _ _ _ Hf); [done |].
    intros d1 en d2 _ H1 H2. unfold RepomdSpec.read_entry in H2. result_inv.
    by eapply RepomdFacts.finish_record_opened. }
  destruct Hd as [Hd1 Hd2]. cbn [mbind result_mbind Document.close_root Document.root_seen Document.root_closed
    Document.primary Document.filelists Document.group Document.modules Document.updateinfo]. rewrite Hd1.
  cbn [negb orb andb]. destruct (Document.primary d) as [p|] eqn:Hp; [| done].
  rewrite (bool_decide_true (is_Some (Some p))) by done. cbn [negb].
  destruct (Document.filelists d) as [f|] eqn:Hfl; [| done].
  rewrite (bool_decide_true (is_Some (Some f))) by done. cbn. by rewrite Hp; cbn; rewrite Hfl.
Qed.

(** Whatever the document, an index that is accepted names only files below repodata, without
    a way out of it, with SHA-256 checksums and sizes within the limits, one by one and together. *)
Theorem parse_repomd_records_sound (unescape : string -> result string string) (input : list event)
    (r : RepomdRecords.t) (Hok : parse_repomd_records unescape input = Ok r) :
  RepomdFacts.record_sound MAX_PRIMARY_COMPRESSED_BYTES MAX_PRIMARY_OPEN_BYTES (RepomdRecords.primary r) /\
  RepomdFacts.record_sound MAX_FILELISTS_COMPRESSED_BYTES MAX_FILELISTS_OPEN_BYTES (RepomdRecords.filelists r) /\
  RepomdFacts.option_sound RepomdFacts.auxiliary_sound (RepomdRecords.group r) /\
  RepomdFacts.option_sound RepomdFacts.auxiliary_sound (RepomdRecords.modules r) /\
  RepomdFacts.option_sound RepomdFacts.auxiliary_sound (RepomdRecords.updateinfo r) /\
  MetadataRecord.open_size (RepomdRecords.primary r) + MetadataRecord.open_size (RepomdRecords.filelists r)
    <= MAX_TOTAL_OPEN_BYTES.
Proof.
  unfold parse_repomd_records in Hok. apply bind_ok in Hok as (d & Hd%RepomdFacts.parse_document_sound & Hok).
  destruct Hd as (H1 & H2 & H3 & H4 & H5). unfold present in Hok. result_inv.
  split_and!; try done; [by apply H1 | by apply H2 |]. by eapply RepomdFacts.total_open_ok.
Qed.

(** ** An index *)

Module RepomdExamples.
Import RepomdSpec.

Definition sum (c : Ascii.ascii) : string := of_bytes (replicate 64 c).

Definition entry_of (kind : string) (c : Ascii.ascii) (href size : string) : entry :=
  Entry [("type", kind)]
    [ Leaf "location" [("href", href)];
      Field "checksum" [("type", "sha256")] (Some (sum c));
      Field "timestamp" [] (Some "1700000000");
      Field "open-checksum" [("type", "sha256")] (Some (sum c));
      Field "open-size" [] (Some size);
      Field "size" [] (Some size) ].

Definition entries : list entry :=
  [ entry_of "filelists" "B"%char "repodata/filelists.xml.zst" "20";
    entry_of "primary" "a"%char "repodata/primary.xml.zst" "10";
    entry_of "prestodelta" "d"%char "repodata/x" "1";
    entry_of "group" "c"%char "repodata/comps.xml" "30" ].

Definition records : RepomdRecords.t :=
  RepomdRecords.mk
    (MetadataRecord.mk "repodata/primary.xml.zst" (sum "a"%char) 10 (sum "a"%char) 10)
    (MetadataRecord.mk "repodata/filelists.xml.zst" (sum "b"%char) 20 (sum "b"%char) 20)
    (Some (AuxiliaryRecord.mk "repodata/comps.xml" (sum "c"%char) 30)) None None.
End RepomdExamples.

Lemma parse_repomd_records_reference_witness :
  forallb RepomdSpec.plain_entry RepomdExamples.entries = true /\
  parse_repomd_records Ok (RepomdSpec.document_events RepomdExamples.entries) = Ok RepomdExamples.records.
Proof.
  assert (Hp : forallb RepomdSpec.plain_entry RepomdExamples.entries = true) by (vm_compute; reflexivity).
  split; [exact Hp |]. rewrite (parse_repomd_records_reference Ok RepomdExamples.entries Hp). vm_compute. reflexivity.
Defined.

Lemma parse_repomd_records_sound_witness :
  parse_repomd_records Ok (RepomdSpec.document_events RepomdExamples.entries) = Ok RepomdExamples.records /\
  RepomdFacts.record_sound MAX_PRIMARY_COMPRESSED_BYTES MAX_PRIMARY_OPEN_BYTES
    (RepomdRecords.primary RepomdExamples.records).
Proof.
  assert (H : parse_repomd_records Ok (RepomdSpec.document_events RepomdExamples.entries) = Ok RepomdExamples.records)
    by (vm_compute; reflexivity).
  split; [exact H |]. exact (proj1 (parse_repomd_records_sound Ok _ _ H)).
Defined.
