(* ===== verification/Filelists.v ===== *)
(** * filelists.xml ([dnfast-metadata]: filelists.rs, the reader)

    The reader of the lists of files, as a fold over the events of the document, and the checks
    that they belong to the packages of primary.xml. *)
From Stdlib Require Import Ascii.
From S2P Require Import Prelude.
From S2P Require Import RustStr.
From S2P Require Import RustText.
From S2P Require Import UnixPath.
From S2P Require Import Metadata.
From S2P Require Import Xml.

#[local] Open Scope N_scope.

Definition MAX_PACKAGES : N := 2000000.
Definition FILELISTS_NAMESPACE : string := "http://linux.duke.edu/metadata/filelists".

Module FileListPackage.
Record t : Type := mk {
  package_id : string;
  name : string;
  arch : string;
  epoch : string;
  version : string;
  release : string;
  files : list string
}.
#[global] Instance file_list_package_eq_dec : EqDecision t.
Proof. solve_decision. Defined.
End FileListPackage.

Module PrimaryPackageIdentity.
Record t : Type := mk {
  checksum : string;
  name : string;
  arch : string;
  epoch : string;
  version : string;
  release : string
}.
#[global] Instance primary_package_identity_eq_dec : EqDecision t.
Proof. solve_decision. Defined.
End PrimaryPackageIdentity.

(** ** The generations of primary.xml and filelists.xml *)

Section generation.
Context {P : Type} (checksum : P -> string) (identity : P -> string * string * string * string * string).

Definition files_identity (f : FileListPackage.t) : string * string * string * string * string :=
  (FileListPackage.name f, FileListPackage.arch f, FileListPackage.epoch f, FileListPackage.version f,
   FileListPackage.release f).

(** One entry of filelists.xml: the package ids seen before it. *)
Definition generation_step (primary_by_id : list (string * P)) (seen : list string) (f : FileListPackage.t) :
    xresult (list string) :=
  if bset_contains (FileListPackage.package_id f) seen then xml "duplicate filelists package id"
  else
    package ← ok_or (MetadataError.Xml "mixed primary/filelists generation")
                (bmap_lookup (FileListPackage.package_id f) primary_by_id);
    if negb (bool_decide (identity package = files_identity f)) then xml "primary/filelists identity mismatch"
    else Ok (bset_insert (FileListPackage.package_id f) seen).

Definition validate_generation (primary : list P) (filelists : list FileListPackage.t) : xresult unit :=
  if negb (bool_decide (length primary = length filelists)) then xml "primary/filelists package count mismatch"
  else
    let primary_by_id := bmap_of_list ((fun p => (checksum p, p)) <$> primary) in
    if negb (bool_decide (length primary_by_id = length primary)) then xml "duplicate primary package checksum"
    else _ ← fold_result (generation_step primary_by_id) [] filelists; Ok tt.
End generation.

Definition complete_identity (p : CompletePackage.t) : string * string * string * string * string :=
  (CompletePackage.name p, CompletePackage.arch p, CompletePackage.epoch p, CompletePackage.version p,
   CompletePackage.release p).

Definition primary_identity (p : PrimaryPackageIdentity.t) : string * string * string * string * string :=
  (PrimaryPackageIdentity.name p, PrimaryPackageIdentity.arch p, PrimaryPackageIdentity.epoch p,
   PrimaryPackageIdentity.version p, PrimaryPackageIdentity.release p).

Definition validate_filelists_generation (primary : list CompletePackage.t)
    (filelists : list FileListPackage.t) : xresult unit :=
  validate_generation CompletePackage.checksum complete_identity primary filelists.

Definition validate_filelists_identities (primary : list PrimaryPackageIdentity.t)
    (filelists : list FileListPackage.t) : xresult unit :=
  validate_generation PrimaryPackageIdentity.checksum primary_identity primary filelists.

Definition publish_validated {A} (primary : list CompletePackage.t) (filelists : list FileListPackage.t)
    (publish : unit -> A) : xresult A :=
  _ ← validate_filelists_generation primary filelists; Ok (publish tt).

(** ** Paths *)

(** [matches!(segment_length, 1 | 2)] of a segment of dots. *)
Definition dots (segment_length : N) (segment_is_dots : bool) : bool :=
  segment_is_dots && ((segment_length =? 1) || (segment_length =? 2)).

Fixpoint path_loop (l : list byte) (segment_length : N) (segment_is_dots : bool) : option (N * bool) :=
  match l with
  | [] => Some (segment_length, segment_is_dots)
  | b :: l =>
      if (byte_val b <? 32) || (byte_val b =? 127) then None
      else if bool_decide (b = slash) then
        if (segment_length =? 0) || dots segment_length segment_is_dots then None else path_loop l 0 true
      else path_loop l (segment_length + 1) (segment_is_dots && bool_decide (b = "."%char))
  end.

Definition is_ascii (s : string) : bool := forallb (fun b => byte_val b <? 128) (bytes s).

Definition safe_file_path (value : string) : bool :=
  match bytes value with
  | b :: l =>
      if bool_decide (b = slash) then
        match path_loop l 0 true with
        | None => false
        | Some (segment_length, segment_is_dots) =>
            negb (dots segment_length segment_is_dots)
            && (is_ascii value || negb (existsb char_is_control (chars value)))
        end
      else false
  | [] => false
  end.

(** ** The reader *)

Module FilelistsBuilder.
Record t : Type := mk {
  package_id : string;
  name : string;
  arch : string;
  epoch : string;
  version : string;
  release : string;
  files : list string;
  file_count : N
}.
Definition new (id name arch : string) : t := mk id name arch "" "" "" [] 0.
Definition set_version (epoch version release : string) (b : t) : t :=
  mk (package_id b) (name b) (arch b) epoch version release (files b) (file_count b).
Definition set_files (files : list string) (file_count : N) (b : t) : t :=
  mk (package_id b) (name b) (arch b) (epoch b) (version b) (release b) files file_count.
End FilelistsBuilder.

Definition package_of (b : FilelistsBuilder.t) : FileListPackage.t :=
  FileListPackage.mk (FilelistsBuilder.package_id b) (FilelistsBuilder.name b) (FilelistsBuilder.arch b)
    (FilelistsBuilder.epoch b) (FilelistsBuilder.version b) (FilelistsBuilder.release b) (FilelistsBuilder.files b).

(** [visited] is what the visitor made of the files so far; [spare_file_text], the buffer kept for
    the next file, is always empty and left out. *)
Module FilelistsState.
Record t {V : Type} : Type := mk {
  current : option FilelistsBuilder.t;
  file_text : option string;
  packages : list FileListPackage.t;
  declared : option N;
  root_seen : bool;
  root_closed : bool;
  declaration_seen : bool;
  paths : N;
  visited : V
}.
Arguments t : clear implicits.
Section state.
Context {V : Type}.
Definition default (v : V) : t V := mk V None None [] None false false false 0 v.
Definition set_current (c : option FilelistsBuilder.t) (s : t V) : t V :=
  mk V c (file_text s) (packages s) (declared s) (root_seen s) (root_closed s) (declaration_seen s) (paths s) (visited s).
Definition set_file_text (x : option string) (s : t V) : t V :=
  mk V (current s) x (packages s) (declared s) (root_seen s) (root_closed s) (declaration_seen s) (paths s) (visited s).
Definition push (p : FileListPackage.t) (s : t V) : t V :=
  mk V None (file_text s) (packages s ++ [p]) (declared s) (root_seen s) (root_closed s) (declaration_seen s) (paths s) (visited s).
Definition see_root (n : N) (s : t V) : t V :=
  mk V (current s) (file_text s) (packages s) (Some n) true (root_closed s) (declaration_seen s) (paths s) (visited s).
Definition close_root (s : t V) : t V :=
  mk V (current s) (file_text s) (packages s) (declared s) (root_seen s) true (declaration_seen s) (paths s) (visited s).
Definition see_declaration (s : t V) : t V :=
  mk V (current s) (file_text s) (packages s) (declared s) (root_seen s) (root_closed s) true (paths s) (visited s).
(** A file of the current package was read. *)
Definition file_read (b : FilelistsBuilder.t) (n : N) (v : V) (s : t V) : t V :=
  mk V (Some b) None (packages s) (declared s) (root_seen s) (root_closed s) (declaration_seen s) n v.
Definition outside (s : t V) : bool := negb (root_seen s) || root_closed s.
End state.
End FilelistsState.

Definition reject_prefix (n : string) : xresult unit :=
  if prefixed n then xml "unexpected filelists namespace prefix" else Ok tt.

Definition namespace_declaration (n : string) : bool :=
  bool_decide (n = "xmlns") || str_starts_with "xmlns:" n.

Definition reject_attribute (a : result string attribute) : xresult unit :=
  a ← xml_error a;
  if namespace_declaration (key a) then xml "nested filelists namespace declaration" else Ok tt.

Definition reject_nested_namespace_declarations (e : element) : xresult unit :=
  for_each reject_attribute (attributes e).

Section reader.
Context (unescape : string -> result string string) {V : Type}.
Context (retain_files : bool) (visitor : option (V -> string -> string -> xresult V)).

Abbreviation state := (FilelistsState.t V).

Definition start (s : state) (e : element) : xresult state :=
  if FilelistsState.root_closed s then xml "content after filelists root"
  else if negb (FilelistsState.root_seen s) then
    if negb (bool_decide (name e = "filelists")) then xml "unexpected filelists root or namespace"
    else
      namespace ← attribute_streaming e "xmlns";
      if negb (bool_decide (namespace = Some FILELISTS_NAMESPACE)) then xml "unexpected filelists root or namespace"
      else
        count ← required e "packages";
        declared ← parse_number count;
        _ ← checked_limit declared MAX_PACKAGES "packages";
        Ok (FilelistsState.see_root declared s)
  else
    _ ← reject_nested_namespace_declarations e;
    _ ← reject_prefix (name e);
    if bool_decide (name e = "package") then
      if bool_decide (is_Some (FilelistsState.current s)) then xml "nested filelists package"
      else
        package_id ← required e "pkgid";
        package_name ← required e "name";
        arch ← required e "arch";
        Ok (FilelistsState.set_current (Some (FilelistsBuilder.new package_id package_name arch)) s)
    else if bool_decide (name e = "file") && bool_decide (is_Some (FilelistsState.current s)) then
      if bool_decide (is_Some (FilelistsState.file_text s)) then xml "nested filelists file"
      else Ok (FilelistsState.set_file_text (Some "") s)
    else Ok s.

Definition empty_element (s : state) (e : element) : xresult state :=
  if FilelistsState.outside s then xml "element outside filelists root"
  else
    _ ← reject_nested_namespace_declarations e;
    _ ← reject_prefix (name e);
    if bool_decide (name e = "version") then
      package ← ok_or (MetadataError.Xml "version outside filelists package") (FilelistsState.current s);
      epoch ← attribute_streaming e "epoch";
      version ← required e "ver";
      release ← required e "rel";
      Ok (FilelistsState.set_current
            (Some (FilelistsBuilder.set_version (default "0" epoch) version release package)) s)
    else Ok s.

Definition append_file_text (s : state) (value : string) : xresult state :=
  file ← ok_or (MetadataError.Xml "file text outside file") (FilelistsState.file_text s);
  let file := file +:+ value in
  _ ← checked_limit (str_len file) MAX_XML_TEXT_BYTES "XML text";
  Ok (FilelistsState.set_file_text (Some file) s).

Definition finish_file (s : state) : xresult state :=
  value ← ok_or (MetadataError.Xml "file end without start") (FilelistsState.file_text s);
  if negb (safe_file_path value) then Err (MetadataError.UnsafeLocation value)
  else
    package ← ok_or (MetadataError.Xml "file outside filelists package") (FilelistsState.current s);
    file_count ← checked_increment (FilelistsBuilder.file_count package) MAX_FILES_PER_PACKAGE "files per package";
    paths ← checked_increment (FilelistsState.paths s) MAX_FILE_PATHS "file paths";
    visited ← match visitor with
              | Some visit => visit (FilelistsState.visited s) (FilelistsBuilder.package_id package) value
              | None => Ok (FilelistsState.visited s)
              end;
    let files := if retain_files then FilelistsBuilder.files package ++ [value]
                 else FilelistsBuilder.files package in
    Ok (FilelistsState.file_read (FilelistsBuilder.set_files files file_count package) paths visited s).

Definition end_element (s : state) (n : string) : xresult state :=
  if FilelistsState.outside s then xml "end element outside filelists root"
  else if bool_decide (n = "file") then finish_file s
  else if bool_decide (n = "package") then
    if bool_decide (is_Some (FilelistsState.file_text s)) then xml "unclosed filelists file"
    else
      package ← ok_or (MetadataError.Xml "package end without start") (FilelistsState.current s);
      if str_is_empty (FilelistsBuilder.version package) || str_is_empty (FilelistsBuilder.release package)
      then xml "filelists package missing version"
      else Ok (FilelistsState.push (package_of package) s)
  else if bool_decide (n = "filelists") then
    if bool_decide (is_Some (FilelistsState.current s)) then xml "unclosed filelists package"
    else Ok (FilelistsState.close_root s)
  else Ok s.

Definition step (s : state) (ev : event) : xresult state :=
  match ev with
  | Start _ e => start s e
  | Empty _ e => empty_element s e
  | Text t =>
      if bool_decide (is_Some (FilelistsState.file_text s)) then
        value ← decode_text unescape t; append_file_text s value
      else if FilelistsState.outside s then
        value ← decode_text unescape t;
        if negb (str_is_empty (trim value)) then xml "text outside filelists root" else Ok s
      else Ok s
  | GeneralRef t =>
      if bool_decide (is_Some (FilelistsState.file_text s)) then
        value ← decode_reference unescape t; append_file_text s value
      else if FilelistsState.outside s then xml "content outside filelists root" else Ok s
  | End n => end_element s n
  | Decl =>
      if negb (FilelistsState.root_seen s) && negb (FilelistsState.declaration_seen s)
      then Ok (FilelistsState.see_declaration s) else xml "misplaced XML declaration or doctype"
  | DocType _ => xml "misplaced XML declaration or doctype"
  | Comment | PI => Ok s
  | CData _ => if FilelistsState.outside s then xml "content outside filelists root" else Ok s
  | Malformed m => xml m
  end.

Definition finish (s : state) : xresult (list FileListPackage.t * V) :=
  if negb (FilelistsState.root_seen s) || negb (FilelistsState.root_closed s)
  then xml "incomplete filelists root"
  else
    declared ← ok_or (MetadataError.Xml "missing filelists package count") (FilelistsState.declared s);
    if negb (N.of_nat (length (FilelistsState.packages s)) =? declared)
    then xml ("filelists package count mismatch: declared " +:+ display declared +:+ ", parsed "
              +:+ display (N.of_nat (length (FilelistsState.packages s))))
    else Ok (FilelistsState.packages s, FilelistsState.visited s).

Definition parse_filelists_with_mode (v : V) (input : list event) : xresult (list FileListPackage.t * V) :=
  s ← fold_result step (FilelistsState.default v) input; finish s.
End reader.

Section entry_points.
Context (unescape : string -> result string string).

Definition parse_filelists (input : list event) : xresult (list FileListPackage.t) :=
  fst <$> parse_filelists_with_mode unescape true None tt input.

Definition validate_filelists_xml (input : list event) (primary : list CompletePackage.t) : xresult unit :=
  '(filelists, _) ← parse_filelists_with_mode unescape false None tt input;
  validate_filelists_generation primary filelists.

Definition validate_filelists_xml_identities (input : list event) (primary : list PrimaryPackageIdentity.t) :
    xresult unit :=
  '(filelists, _) ← parse_filelists_with_mode unescape false None tt input;
  validate_filelists_identities primary filelists.

Definition visit_filelists_xml_identities {V} (input : list event) (primary : list PrimaryPackageIdentity.t)
    (visitor : V -> string -> string -> xresult V) (v : V) : xresult V :=
  '(filelists, v) ← parse_filelists_with_mode unescape false (Some visitor) v input;
  _ ← validate_filelists_identities primary filelists; Ok v.
End entry_points.
