(* ===== verification/FilelistsFacts.v ===== *)
(** * Facts about filelists.xml

    The path check of the reader is the plain one of primary.xml; the two documents of a
    generation describe the same packages; visiting the files is parsing without keeping them. *)
From Stdlib Require Import Ascii.
From S2P Require Import Prelude.
From S2P Require Import RustStr.
From S2P Require Import RustText.
From S2P Require Import UnixPath.
From S2P Require Import Metadata.
From S2P Require Import Xml.
From S2P Require Import Filelists.

#[local] Open Scope N_scope.

Module PathFacts.

(** A path as the documentation has it: absolute, without control characters, its segments not
    dots and, but for the last one, not empty. *)
Definition canonical_segments (l : list byte) : Prop :=
  exists init last, split_on slash [] l = init ++ [last] /\ [] ∉ init /\
    forall s, s ∈ init ++ [last] -> s <> bytes "." /\ s <> bytes "..".

Definition canonical_path (value : string) : Prop :=
  exists l, bytes value = slash :: l /\ canonical_segments l /\
    forall c, c ∈ chars value -> char_is_control c = false.

(** The state of the loop describes the segment read so far. *)
Definition describes (word : list byte) (n : N) (d : bool) : Prop :=
  n = N.of_nat (length word) /\ d = forallb (fun b => bool_decide (b = "."%char)) word.

Lemma dots_spec word n d : describes word n d -> dots n d = true <-> word = bytes "." \/ word = bytes "..".
Proof.
  intros [-> ->]. unfold dots. rewrite andb_true_iff, orb_true_iff, !N.eqb_eq. split.
  - intros [Hd Hn]. destruct word as [|a [|b [|]]]; simpl in *; try lia; bool_inv; subst; auto.
  - intros [->| ->]; split; try done; cbn; lia.
Qed.

Lemma describes_snoc word n d b :
  describes word n d -> describes (word ++ [b]) (n + 1) (d && bool_decide (b = "."%char)).
Proof.
  intros [-> ->]. split; [rewrite length_app; simpl; lia |]. rewrite forallb_app. simpl. by rewrite andb_true_r.
Qed.

Lemma describes_nil : describes [] 0 true.
Proof. done. Qed.

Definition control_byte (b : byte) : bool := (byte_val b <? 32) || (byte_val b =? 127).

Lemma split_on_nonempty c word l : split_on c word l <> [].
Proof. revert word. induction l as [|b l IH]; intros word; simpl; [done |]. by case_decide. Qed.

Lemma path_loop_spec l : forall word n d, describes word n d -> slash ∉ word ->
  (exists n' d' , path_loop l n d = Some (n', d') /\ dots n' d' = false) <->
  (forall b, b ∈ l -> control_byte b = false) /\
  exists init last, split_on slash word l = init ++ [last] /\ [] ∉ init /\
    forall s, s ∈ init ++ [last] -> s <> bytes "." /\ s <> bytes "..".
Proof.
  induction l as [|b l IH]; intros word n d Hd Hw; cbn [path_loop split_on].
  - split.
    + intros (n' & d' & [= <- <-] & Hdots). split; [by intros ? ?%not_elem_of_nil |].
      exists [], word. split; [done |]. split; [apply not_elem_of_nil |].
      intros s ->%list_elem_of_singleton. rewrite <- not_true_iff_false, (dots_spec word n d Hd) in Hdots. tauto.
    + intros (_ & init & last & Heq & _ & Hs). exists n, d. split; [done |].
      rewrite <- not_true_iff_false, (dots_spec word n d Hd).
      assert (init = []) as ->. { destruct init as [|x init]; [done |]. simplify_eq/=. by destruct init. }
      simplify_eq/=. destruct (Hs last) as [? ?]; [left | tauto].
  - fold (control_byte b). destruct (control_byte b) eqn:Hc.
    { split; [by intros (? & ? & ? & _) |]. intros [Hall _]. rewrite (Hall b) in Hc; [done | left]. }
    case_bool_decide as Hb.
    + subst b. rewrite decide_True by done. destruct ((n =? 0) || dots n d) eqn:Hbad.
      * split; [by intros (? & ? & ? & _) |]. intros (_ & init & last & Heq & He & Hs).
        assert (Hin : word ∈ init).
        { destruct init as [|x init]; simplify_eq/=; [| left].
          by destruct (split_on_nonempty slash [] l). }
        apply orb_true_iff in Hbad as [Hn%N.eqb_eq|Hdot].
        -- destruct Hd as [-> _]. destruct word; [done | simpl in Hn; lia].
        -- apply (dots_spec word n d Hd) in Hdot. destruct (Hs word); [| tauto].
           apply elem_of_app. by left.
      * apply orb_false_iff in Hbad as [Hn%N.eqb_neq Hdot]. rewrite <- not_true_iff_false, (dots_spec word n d Hd) in Hdot.
        rewrite (IH [] 0 true describes_nil) by apply not_elem_of_nil.
        setoid_rewrite elem_of_cons. split.
        -- intros (Hall & init & last & -> & He & Hs). split; [intros c [->|Hin]; auto |].
           exists (word :: init), last. split; [done |]. split.
           ++ rewrite not_elem_of_cons. split; [| done]. intros <-. destruct Hd as [-> _]. done.
           ++ intros s [->|Hin]%elem_of_cons; [tauto | auto].
        -- intros (Hall & init & last & Heq & He & Hs). split; [auto |].
           destruct init as [|x init]; simplify_eq/=; [by destruct (split_on_nonempty slash [] l) |].
           exists init, last. apply not_elem_of_cons in He as [_ He]. split_and!; [done | done |].
           intros s Hin. apply Hs. by right.
    + rewrite decide_False by done.
      rewrite (IH (word ++ [b]) (n + 1) (d && bool_decide (b = "."%char))) by
        (by apply describes_snoc || (rewrite elem_of_app, list_elem_of_singleton; naive_solver)).
      setoid_rewrite elem_of_cons. split; intros [Hall Hex]; (split; [| done]); [intros c [->|Hin]; auto | auto].
Qed.

(** In valid UTF-8 a byte below 128 is a character of its own. *)
Lemma ascii_byte_char l : forall b, valid_utf8 l = true -> b ∈ l -> byte_val b < 128 -> byte_val b ∈ utf8_decode l.
Proof.
  assert (Hcont : forall lo hi c b, 128 <= lo -> in_range lo hi (byte_val c) = true -> byte_val b < 128 -> b <> c).
  { intros lo hi c b Hlo Hr Hb ->. apply in_range_spec in Hr. lia. }
  induction l as [l IH] using (induction_ltof1 _ (@length byte)); unfold ltof in IH.
  destruct l as [|a t]; [by intros b _ ?%not_elem_of_nil |]. intros b. cbn [valid_utf8 utf8_decode].
  destruct (byte_val a <? 128) eqn:Ha.
  { intros Hv [->|Hin]%elem_of_cons Hb; [left | right]. apply IH; [simpl; lia | done..]. }
  apply N.ltb_ge in Ha.
  assert (Hba : byte_val b < 128 -> b <> a) by (intros ? ->; lia).
  destruct (in_range 194 223 (byte_val a)) eqn:H2.
  { apply in_range_spec in H2. replace (byte_val a <? 224) with true by (symmetry; apply N.ltb_lt; lia).
    destruct t as [|c t]; [done |]. intros [Hc Hv]%andb_true_iff Hin Hb.
    apply elem_of_cons in Hin as [->|Hin]; [by destruct Hba |].
    apply elem_of_cons in Hin as [->|Hin]; [by destruct (Hcont 128 191 c c) |].
    right. apply IH; [simpl; lia | done..]. }
  apply in_range_false in H2.
  destruct (in_range 224 239 (byte_val a)) eqn:H3.
  { apply in_range_spec in H3. replace (byte_val a <? 224) with false by (symmetry; apply N.ltb_ge; lia).
    replace (byte_val a <? 240) with true by (symmetry; apply N.ltb_lt; lia).
    destruct t as [|c [|d t]]; [done..|]. intros Hv Hin Hb. bool_inv.
    assert (Hlo : 128 <= (if byte_val a =? 224 then 160 else 128)) by (case_match; lia).
    apply elem_of_cons in Hin as [->|Hin]; [by destruct Hba |].
    apply elem_of_cons in Hin as [->|Hin]; [by destruct (Hcont _ _ c c Hlo H) |].
    apply elem_of_cons in Hin as [->|Hin]; [by destruct (Hcont 128 191 d d) |].
    right. apply IH; [simpl; lia | done..]. }
  apply in_range_false in H3.
  destruct (in_range 240 244 (byte_val a)) eqn:H4; [| done].
  apply in_range_spec in H4. replace (byte_val a <? 224) with false by (symmetry; apply N.ltb_ge; lia).
  replace (byte_val a <? 240) with false by (symmetry; apply N.ltb_ge; lia).
  destruct t as [|c [|d [|e t]]]; [done..|]. intros Hv Hin Hb. bool_inv.
  assert (Hlo : 128 <= (if byte_val a =? 240 then 144 else 128)) by (case_match; lia).
  apply elem_of_cons in Hin as [->|Hin]; [by destruct Hba |].
  apply elem_of_cons in Hin as [->|Hin]; [by destruct (Hcont _ _ c c Hlo H) |].
  apply elem_of_cons in Hin as [->|Hin]; [by destruct (Hcont 128 191 d d) |].
  apply elem_of_cons in Hin as [->|Hin]; [by destruct (Hcont 128 191 e e) |].
  right. apply IH; [simpl; lia | done..].
Qed.

Lemma ascii_chars l : forallb (fun b => byte_val b <? 128) l = true -> utf8_decode l = byte_val <$> l.
Proof.
  induction l as [|b l IH]; [done |]. cbn [forallb]. intros [Hb Hl]%andb_true_iff.
  rewrite fmap_cons. cbn [utf8_decode]. rewrite Hb. by rewrite IH.
Qed.

Lemma control_byte_char b : byte_val b < 128 -> char_is_control (byte_val b) = control_byte b.
Proof.
  intros Hb. unfold char_is_control, control_byte. apply eq_true_iff_eq.
  rewrite !orb_true_iff, N.leb_le, in_range_spec, N.ltb_lt, N.eqb_eq. lia.
Qed.

Lemma control_byte_ascii b : control_byte b = true -> byte_val b < 128.
Proof. unfold control_byte. rewrite orb_true_iff, N.ltb_lt, N.eqb_eq. lia. Qed.

(** Bytes that are control characters are found among the characters. *)
Lemma control_chars s : valid_utf8 (bytes s) = true -> existsb char_is_control (chars s) = false ->
  forall b, b ∈ bytes s -> control_byte b = false.
Proof.
  intros Hv Hc b Hb. destruct (control_byte b) eqn:E; [| done]. pose proof (control_byte_ascii b E) as Hlt.
  apply existsb_false in Hc. rewrite Forall_forall in Hc.
  rewrite <- (Hc (byte_val b)) by (by apply ascii_byte_char). by rewrite control_byte_char.
Qed.

Lemma safe_file_path_canonical value : valid_utf8 (bytes value) = true ->
  safe_file_path value = true <-> canonical_path value.
Proof.
  intros Hv. unfold safe_file_path, canonical_path.
  destruct (bytes value) as [|b l] eqn:Hbytes; [split; [done | by intros (? & ? & _)] |].
  case_bool_decide as Hb; [subst b | split; [done | intros (l' & [= ? _] & _); congruence]].
  assert (Hsplit : (exists n d, path_loop l 0 true = Some (n, d) /\ dots n d = false) <->
    (forall b, b ∈ l -> control_byte b = false) /\ canonical_segments l)
    by (apply path_loop_spec; [done | apply not_elem_of_nil]).
  assert (Hchars : is_ascii value || negb (existsb char_is_control (chars value)) = true /\ (forall b, b ∈ l -> control_byte b = false) <-> existsb char_is_control (chars value) = false).
  { split.
    - rewrite orb_true_iff, negb_true_iff. intros [[Ha|Hc] Hl]; [| done].
      unfold is_ascii in Ha. unfold chars. rewrite ascii_chars by done. apply existsb_false, Forall_fmap, Forall_forall.
      intros b Hin. cbn. rewrite Hbytes in Hin. apply forallb_true in Ha. rewrite Hbytes, Forall_forall in Ha.
      rewrite control_byte_char by (by apply N.ltb_lt, Ha). apply elem_of_cons in Hin as [->|Hin]; [done | auto].
    - intros Hc. rewrite Hc, orb_true_r. split; [done |]. intros b Hin.
      apply (control_chars value); [by rewrite Hbytes | done | rewrite Hbytes; by right]. }
  rewrite existsb_false, Forall_forall in Hchars.
  destruct (path_loop l 0 true) as [[n d]|].
  - rewrite andb_true_iff, negb_true_iff. split.
    + intros [Hd Ha]. destruct (proj1 Hsplit) as [Hl Hcan]; [by exists n, d |].
      exists l. split_and!; [done | done |]. by apply Hchars.
    + intros (l' & [= <-] & Hcan & Hc). destruct (proj2 Hchars Hc) as [Ha Hl].
      destruct (proj2 Hsplit) as (n' & d' & [= <- <-] & ?); [done | done].
  - split; [done |]. intros (l' & [= <-] & Hcan & Hc). destruct (proj2 Hchars Hc) as [_ Hl].
    by destruct (proj2 Hsplit) as (n' & d' & ? & _).
Qed.
End PathFacts.

Module GenerationFacts.

Section facts.
Context {P : Type} (checksum : P -> string) (identity : P -> string * string * string * string * string).

Abbreviation ids l := (FileListPackage.package_id <$> l).

(** What the loop demands of every entry. *)
Definition known (m : list (string * P)) (f : FileListPackage.t) : Prop :=
  exists p, bmap_lookup (FileListPackage.package_id f) m = Some p /\ identity p = files_identity f.

Lemma generation_fold m l : forall seen,
  is_ok (fold_result (generation_step identity m) seen l) = true <->
  Forall (known m) l /\ NoDup (ids l) /\ forall f, f ∈ l -> FileListPackage.package_id f ∉ seen.
Proof.
  induction l as [|f l IH]; intros seen; cbn [fold_result].
  { split; [intros _; split_and!; [done | constructor | by intros ? ?%not_elem_of_nil] | done]. }
  unfold generation_step at 2. rewrite Forall_cons, fmap_cons, NoDup_cons.
  assert (Hcons : (forall g, g ∈ f :: l -> FileListPackage.package_id g ∉ seen) <->
    FileListPackage.package_id f ∉ seen /\ forall g, g ∈ l -> FileListPackage.package_id g ∉ seen).
  { split; [intros H; split; [apply H; left | intros g Hg; apply H; by right] |].
    intros [H1 H2] g [->|Hg]%elem_of_cons; auto. }
  rewrite Hcons. destruct (bset_contains (FileListPackage.package_id f) seen) eqn:Hs.
  { apply bset_contains_spec in Hs. split; [intros H; discriminate H |]. by intros (_ & _ & ? & _). }
  apply bset_contains_false in Hs. unfold known at 1.
  destruct (bmap_lookup (FileListPackage.package_id f) m) as [p|]; simpl; [| split; [done | by intros (((? & ? & _) & _) & _)]].
  destruct (decide (identity p = files_identity f)) as [Hi|Hi].
  - rewrite bool_decide_true by done. simpl. rewrite IH. split.
    + intros (Hk & Hnd & Hn). split_and!; [by exists p | done | | done | done |].
      * intros (g & Hg & Hin)%list_elem_of_fmap. destruct (Hn g Hin). apply elem_of_bset_insert. left. congruence.
      * intros g Hin Hin'. destruct (Hn g Hin). apply elem_of_bset_insert. by right.
    + intros ((_ & Hk) & (Hf & Hnd) & _ & Hn). split_and!; [done | done |].
      intros g Hin [Hg|Hin']%elem_of_bset_insert; [| by destruct (Hn g)]. apply Hf. rewrite <- Hg.
      by apply list_elem_of_fmap_2.
  - rewrite bool_decide_false by done. simpl. split; [done |]. by intros ((( p' & [= <-] & ?) & _) & _).
Qed.

Lemma validate_generation_exact primary filelists :
  validate_generation checksum identity primary filelists = Ok tt <->
  NoDup (checksum <$> primary) /\
  (fun f => (FileListPackage.package_id f, files_identity f)) <$> filelists ≡ₚ
    (fun p => (checksum p, identity p)) <$> primary.
Proof.
  set (keyed := (fun p => (checksum p, p)) <$> primary).
  assert (Hkeys : keyed.*1 = checksum <$> primary) by (unfold keyed; by rewrite <- list_fmap_compose).
  assert (Hlen : length (bmap_of_list keyed) = length primary <-> NoDup (checksum <$> primary)).
  { rewrite <- (length_fmap fst), bmap_of_list_keys, Hkeys. split.
    - intros H. apply length_bset_of_list_NoDup. by rewrite H, length_fmap.
    - intros H. by rewrite length_bset_of_list, length_fmap. }
  assert (Hfold : validate_generation checksum identity primary filelists = Ok tt <->
    length primary = length filelists /\ NoDup (checksum <$> primary) /\
    is_ok (fold_result (generation_step identity (bmap_of_list keyed)) [] filelists) = true).
  { unfold validate_generation. fold keyed. case_bool_decide as Hl; simpl; [| split; [done | by intros (? & _)]].
    case_bool_decide as Hd; simpl.
    - apply Hlen in Hd. destruct (fold_result _ _ _); simpl; split; intuition done.
    - rewrite Hlen in Hd. split; [done | by intros (_ & ? & _)]. }
  rewrite Hfold, generation_fold.
  split.
  - intros (Hl & Hnd & Hk & Hndf & _). split; [done |].
    apply submseteq_length_Permutation; [| by rewrite !length_fmap, Hl].
    apply NoDup_submseteq.
    { apply (NoDup_fmap_1 fst). rewrite <- list_fmap_compose. done. }
    intros x (f & -> & Hin)%list_elem_of_fmap. rewrite Forall_forall in Hk. destruct (Hk f Hin) as (p & Hp & Hi).
    apply bmap_lookup_of_list_Some in Hp. unfold keyed in Hp. apply list_elem_of_fmap in Hp as (p' & [= Hp ->] & Hin').
    apply list_elem_of_fmap. exists p'. split; [| done]. congruence.
  - intros (Hnd & Hperm). split_and!.
    + apply Permutation_length in Hperm. by rewrite !length_fmap in Hperm.
    + done.
    + apply Forall_forall. intros f Hin.
      assert (Hf : (FileListPackage.package_id f, files_identity f) ∈ (fun p => (checksum p, identity p)) <$> primary).
      { rewrite <- Hperm. apply list_elem_of_fmap. by exists f. }
      apply list_elem_of_fmap in Hf as (p & [= Hp Hi] & Hin'). exists p. split; [| done].
      apply bmap_lookup_of_list; [by rewrite Hkeys |]. rewrite Hp. unfold keyed. apply list_elem_of_fmap. by exists p.
    + assert (Hp : ids filelists ≡ₚ checksum <$> primary).
      { apply (fmap_Permutation fst) in Hperm. by rewrite <- !list_fmap_compose in Hperm. }
      by rewrite Hp.
    + intros f _. apply not_elem_of_nil.
Qed.
End facts.
End GenerationFacts.

(** The filelists of a repository are accepted for its primary metadata exactly when both
    describe the same packages, each once: the same checksums with the same name, architecture,
    epoch, version and release. *)
Theorem validate_filelists_identities_exact (primary : list PrimaryPackageIdentity.t)
    (filelists : list FileListPackage.t) :
  validate_filelists_identities primary filelists = Ok tt <->
  NoDup (PrimaryPackageIdentity.checksum <$> primary) /\
  (fun f => (FileListPackage.package_id f, files_identity f)) <$> filelists ≡ₚ
    (fun p => (PrimaryPackageIdentity.checksum p, primary_identity p)) <$> primary.
Proof. apply GenerationFacts.validate_generation_exact. Qed.

(** The path check of filelists, one pass over the bytes, accepts a path exactly when it is
    absolute, has no control characters, and no segment that is a dot, two dots or, but for the
    last one, empty. *)
Theorem safe_file_path_exact (value : string) (Hutf8 : valid_utf8 (bytes value) = true) :
  safe_file_path value = true <-> PathFacts.canonical_path value.
Proof. by apply PathFacts.safe_file_path_canonical. Qed.

Lemma safe_file_path_exact_witness :
  valid_utf8 (bytes "/usr/share/a.b/") = true /\ PathFacts.canonical_path "/usr/share/a.b/".
Proof.
  split; [reflexivity |]. apply (proj1 (safe_file_path_exact "/usr/share/a.b/" eq_refl)). reflexivity.
Defined.

(** ** Visiting the files of a document *)
Module VisitFacts.

(** The files of the packages, in the order of the document. *)
Definition package_visits (p : FileListPackage.t) : list (string * string) :=
  (fun f => (FileListPackage.package_id p, f)) <$> FileListPackage.files p.
Definition visits (l : list FileListPackage.t) : list (string * string) := concat (package_visits <$> l).

Definition without_files (p : FileListPackage.t) : FileListPackage.t :=
  FileListPackage.mk (FileListPackage.package_id p) (FileListPackage.name p) (FileListPackage.arch p)
    (FileListPackage.epoch p) (FileListPackage.version p) (FileListPackage.release p) [].

Section facts.
Context (unescape : string -> result string string) {V : Type} (visit : V -> string -> string -> xresult V).

Abbreviation keep := (step unescape true None (V := unit)).
Abbreviation drop_files := (step unescape false (Some visit)).

Definition visit_pair (v : V) (p : string * string) : xresult V := visit v p.1 p.2.

Definition strip_builder (b : FilelistsBuilder.t) : FilelistsBuilder.t :=
  FilelistsBuilder.set_files [] (FilelistsBuilder.file_count b) b.

Definition project (s : FilelistsState.t unit) (v : V) : FilelistsState.t V :=
  FilelistsState.mk V (strip_builder <$> FilelistsState.current s) (FilelistsState.file_text s)
    (without_files <$> FilelistsState.packages s) (FilelistsState.declared s) (FilelistsState.root_seen s)
    (FilelistsState.root_closed s) (FilelistsState.declaration_seen s) (FilelistsState.paths s) v.

Definition seen_files (s : FilelistsState.t unit) : list (string * string) :=
  visits (FilelistsState.packages s) ++
  from_option (fun b => package_visits (package_of b)) [] (FilelistsState.current s).

(** [new] is what one or more events added. *)
Definition simulates (s s' : FilelistsState.t unit) (r : V -> xresult (FilelistsState.t V)) : Prop :=
  exists new, seen_files s' = seen_files s ++ new /\
    forall v, r v = v' ← fold_result visit_pair v new; Ok (project s' v').

Lemma simulates_still s s' r :
  seen_files s' = seen_files s -> (forall v, r v = Ok (project s' v)) -> simulates s s' r.
Proof. intros Hs Hr. exists []. rewrite app_nil_r. split; [done |]. intros v. by rewrite Hr. Qed.

Lemma visits_app a b : visits (a ++ b) = visits a ++ visits b.
Proof. unfold visits. by rewrite fmap_app, concat_app. Qed.

Lemma outside_project s v : FilelistsState.outside (project s v) = FilelistsState.outside s.
Proof. done. Qed.

Lemma finish_file_simulates s s' :
  finish_file true None s = Ok s' -> simulates s s' (fun v => finish_file false (Some visit) (project s v)).
Proof.
  unfold finish_file. intros (value & Hv%ok_or_ok & Hs)%bind_ok.
  destruct (negb (safe_file_path value)) eqn:Hsafe; [done |].
  apply bind_ok in Hs as (package & Hp%ok_or_ok & (count & Hc & (paths & Hpaths & (u & _ & [= <-])%bind_ok)%bind_ok)%bind_ok).
  exists [(FilelistsBuilder.package_id package, value)]. split.
  - unfold seen_files. cbn [FilelistsState.packages FilelistsState.current FilelistsState.file_read from_option].
    rewrite Hp, <- app_assoc. cbn [from_option]. f_equal. unfold package_visits, package_of.
    cbn [FileListPackage.files FileListPackage.package_id FilelistsBuilder.set_files FilelistsBuilder.files
      FilelistsBuilder.package_id]. by rewrite fmap_app.
  - intros v. assert (Hcur : FilelistsState.current (project s v) = Some (strip_builder package))
      by (cbn; by rewrite Hp).
    change (FilelistsState.file_text (project s v)) with (FilelistsState.file_text s). rewrite Hv.
    cbn [ok_or mbind result_mbind]. rewrite Hsafe, Hcur. cbn [ok_or mbind result_mbind].
    change (FilelistsBuilder.file_count (strip_builder package)) with (FilelistsBuilder.file_count package).
    rewrite Hc. cbn [mbind result_mbind]. change (FilelistsState.paths (project s v)) with (FilelistsState.paths s).
    rewrite Hpaths. cbn [mbind result_mbind fold_result]. unfold visit_pair. cbn [fst snd].
    change (FilelistsBuilder.package_id (strip_builder package)) with (FilelistsBuilder.package_id package).
    change (FilelistsState.visited (project s v)) with v.
    by destruct (visit v (FilelistsBuilder.package_id package) value).
Qed.

Lemma end_simulates s s' n :
  end_element true None s n = Ok s' -> simulates s s' (fun v => end_element false (Some visit) (project s v) n).
Proof.
  unfold end_element, FilelistsState.outside. cbn [project FilelistsState.root_seen FilelistsState.root_closed].
  destruct (negb (FilelistsState.root_seen s) || FilelistsState.root_closed s); [done |]. intros Hs.
  destruct (bool_decide (n = "file")); [by apply finish_file_simulates |].
  destruct (bool_decide (n = "package")).
  - cbn [project FilelistsState.file_text]. case_bool_decide; [done |].
    apply bind_ok in Hs as (package & Hp%ok_or_ok & Hs).
    destruct (_ || _) eqn:Hver; [done |]. injection Hs as <-. apply simulates_still.
    + unfold seen_files. cbn [FilelistsState.packages FilelistsState.current FilelistsState.push].
      rewrite visits_app, Hp. cbn [from_option]. rewrite app_nil_r. f_equal. unfold visits. cbn. by rewrite app_nil_r.
    + intros v. cbn [project FilelistsState.current]. rewrite Hp. cbn [fmap option_fmap option_map ok_or mbind result_mbind].
      cbn [strip_builder FilelistsBuilder.set_files FilelistsBuilder.version FilelistsBuilder.release]. rewrite Hver.
      unfold project, FilelistsState.push. cbn. by rewrite fmap_app.
  - destruct (bool_decide (n = "filelists")); [| injection Hs as <-; by apply simulates_still].
    cbn [project FilelistsState.current]. destruct (FilelistsState.current s) as [b|] eqn:Hc; [done |].
    injection Hs as <-. apply simulates_still; [done |]. intros v. cbn. unfold project, FilelistsState.close_root. cbn.
    by rewrite Hc.
Qed.

Lemma start_simulates s s' e :
  start s e = Ok s' -> simulates s s' (fun v => start (project s v) e).
Proof.
  unfold start. cbn [project FilelistsState.root_seen FilelistsState.root_closed].
  destruct (FilelistsState.root_closed s); [done |].
  destruct (negb (FilelistsState.root_seen s)).
  - destruct (negb (bool_decide (name e = "filelists"))); [done |].
    intros (ns & Hns & Hs)%bind_ok. rewrite Hns. cbn [mbind result_mbind].
    destruct (negb _); [done |]. apply bind_ok in Hs as (c & Hc & (d & Hd & (x & Hx & [= <-])%bind_ok)%bind_ok).
    apply simulates_still; [done |]. intros v. by rewrite Hc; cbn [mbind result_mbind]; rewrite Hd; cbn [mbind result_mbind]; rewrite Hx.
  - intros (u1 & H1 & (u2 & H2 & Hs)%bind_ok)%bind_ok. rewrite H1, H2. cbn [mbind result_mbind].
    destruct (bool_decide (name e = "package")).
    + cbn [project FilelistsState.current]. destruct (FilelistsState.current s) as [b|] eqn:Hc; [done |].
      cbn in Hs. apply bind_ok in Hs as (id & Hid & (nm & Hnm & (ar & Har & [= <-])%bind_ok)%bind_ok).
      apply simulates_still; [by unfold seen_files; rewrite Hc |]. intros v. cbn.
      rewrite Hid. cbn. rewrite Hnm. cbn. rewrite Har. done.
    + cbn [project FilelistsState.current FilelistsState.file_text].
      assert (Hcur : bool_decide (is_Some (strip_builder <$> FilelistsState.current s)) =
        bool_decide (is_Some (FilelistsState.current s))) by (by destruct (FilelistsState.current s)).
      rewrite Hcur. destruct (_ && _); [| injection Hs as <-; by apply simulates_still].
      destruct (bool_decide (is_Some (FilelistsState.file_text s))); [done |]. injection Hs as <-.
      by apply simulates_still.
Qed.

Lemma empty_simulates s s' e :
  empty_element s e = Ok s' -> simulates s s' (fun v => empty_element (project s v) e).
Proof.
  unfold empty_element, FilelistsState.outside. cbn [project FilelistsState.root_seen FilelistsState.root_closed].
  destruct (_ || _); [done |]. intros (u1 & H1 & (u2 & H2 & Hs)%bind_ok)%bind_ok. rewrite H1, H2. cbn [mbind result_mbind].
  destruct (bool_decide (name e = "version")); [| injection Hs as <-; by apply simulates_still].
  cbn [project FilelistsState.current].
  apply bind_ok in Hs as (b & Hb%ok_or_ok & (ep & Hep & (ve & Hve & (re & Hre & [= <-])%bind_ok)%bind_ok)%bind_ok).
  apply simulates_still.
  - unfold seen_files. cbn. by rewrite Hb.
  - intros v. rewrite Hb. cbn. rewrite Hep. cbn. rewrite Hve. cbn. by rewrite Hre.
Qed.

Lemma append_simulates s s' t :
  append_file_text s t = Ok s' -> simulates s s' (fun v => append_file_text (project s v) t).
Proof.
  unfold append_file_text. intros (file & Hf & (u & Hu & [= <-])%bind_ok)%bind_ok.
  apply simulates_still; [done |]. intros v. cbn [project FilelistsState.file_text]. rewrite Hf. cbn [mbind result_mbind].
  by rewrite Hu.
Qed.

Lemma step_simulates s s' ev : keep s ev = Ok s' -> simulates s s' (fun v => drop_files (project s v) ev).
Proof.
  destruct ev as [ns e|ns e|n|t|t|t| |t| | |m]; cbn [step]; intros Hs.
  - by apply start_simulates.
  - by apply empty_simulates.
  - by apply end_simulates.
  - unfold FilelistsState.outside in *. cbn [project FilelistsState.file_text FilelistsState.root_seen FilelistsState.root_closed].
    destruct (bool_decide _).
    + apply bind_ok in Hs as (x & Hx & Hs). rewrite Hx. cbn [mbind result_mbind]. by apply append_simulates.
    + destruct (_ || _); [| injection Hs as <-; by apply simulates_still].
      apply bind_ok in Hs as (x & Hx & Hs). rewrite Hx. cbn [mbind result_mbind].
      destruct (negb _); [done |]. injection Hs as <-. by apply simulates_still.
  - unfold FilelistsState.outside in *. cbn [project FilelistsState.file_text FilelistsState.root_seen FilelistsState.root_closed].
    destruct (bool_decide _).
    + apply bind_ok in Hs as (x & Hx & Hs). rewrite Hx. cbn [mbind result_mbind]. by apply append_simulates.
    + destruct (_ || _); [done |]. injection Hs as <-. by apply simulates_still.
  - unfold FilelistsState.outside in *. cbn [project FilelistsState.root_seen FilelistsState.root_closed].
    destruct (_ || _); [done |]. injection Hs as <-. by apply simulates_still.
  - cbn [project FilelistsState.root_seen FilelistsState.declaration_seen]. destruct (_ && _); [| done].
    injection Hs as <-. by apply simulates_still.
  - done.
  - injection Hs as <-. by apply simulates_still.
  - injection Hs as <-. by apply simulates_still.
  - done.
Qed.

Lemma fold_simulates evs : forall s s', fold_result keep s evs = Ok s' ->
  simulates s s' (fun v => fold_result drop_files (project s v) evs).
Proof.
  induction evs as [|ev evs IH]; intros s s'; cbn [fold_result]; [intros [= <-]; by apply simulates_still |].
  intros (s1 & H1 & H2)%bind_ok.
  destruct (step_simulates _ _ _ H1) as (n1 & Hs1 & Hr1). destruct (IH _ _ H2) as (n2 & Hs2 & Hr2).
  exists (n1 ++ n2). split; [by rewrite Hs2, Hs1, app_assoc |]. intros v. rewrite Hr1, fold_result_app, !bind_assoc.
  destruct (fold_result visit_pair v n1) as [v1|e1]; [| done]. cbn [mbind result_mbind]. by rewrite Hr2.
Qed.

(** A package is not left open when the document ends. *)
Lemma closed_without_package evs s : fold_result keep (FilelistsState.default tt) evs = Ok s ->
  FilelistsState.root_closed s = true -> FilelistsState.current s = None.
Proof.
  intros Hf. refine (fold_result_ind _ (fun s => FilelistsState.root_closed s = true -> FilelistsState.current s = None)
    _ _ _ _ _ Hf); [done |].
  intros s1 ev s2 _ IH Hs Hc. destruct ev; cbn [step] in Hs;
    unfold start, empty_element, end_element, finish_file, append_file_text, FilelistsState.outside in Hs;
    repeat first [done | progress result_inv | progress bool_inv | case_match]; cbn in *; try congruence; auto;
    try (by destruct (FilelistsState.current s1)); try (rewrite IH in *; done).
  by apply eq_None_not_Some.
Qed.

Lemma visiting_parses (input : list event) (l : list FileListPackage.t) (v : V) :
  parse_filelists unescape input = Ok l ->
  parse_filelists_with_mode unescape false (Some visit) v input =
    v' ← fold_result visit_pair v (visits l); Ok (without_files <$> l, v').
Proof.
  unfold parse_filelists, parse_filelists_with_mode. intros ([l' u] & (s & Hf & Hfin)%bind_ok & <-)%fmap_ok. cbn [fst].
  pose proof (closed_without_package _ _ Hf) as Hclosed.
  destruct (fold_simulates _ _ _ Hf) as (new & Hseen & Hr).
  change (FilelistsState.default v) with (project (FilelistsState.default tt) v). rewrite Hr. cbn in Hseen.
  unfold finish in *. destruct (_ || _) eqn:Hroot; [done |]. bool_inv.
  apply bind_ok in Hfin as (declared & Hd & Hfin). destruct (negb _) eqn:Hn; [done |]. injection Hfin as <- <-.
  assert (Hv : visits (FilelistsState.packages s) = new).
  { rewrite <- Hseen. unfold seen_files. rewrite Hclosed by done. by rewrite app_nil_r. }
  rewrite Hv. destruct (fold_result visit_pair v new) as [v'|e]; [| done]. cbn [mbind result_mbind].
  cbn [project FilelistsState.root_seen FilelistsState.root_closed FilelistsState.declared FilelistsState.packages
    FilelistsState.visited]. rewrite H, H0. cbn [negb orb]. rewrite Hd. cbn [mbind result_mbind].
  by rewrite length_fmap, Hn.
Qed.
End facts.
End VisitFacts.

(** Validating a document while visiting its files, without keeping them, is parsing it and
    then visiting the files of the packages in the order of the document: the visitor is given
    every file with the package it belongs to, once, and the packages that are checked against
    primary.xml are the parsed ones. *)
Theorem visiting_is_parsing (unescape : string -> result string string) (V : Type)
    (visit : V -> string -> string -> xresult V) (input : list event) (l : list FileListPackage.t) (v : V)
    (Hparse : parse_filelists unescape input = Ok l) :
  parse_filelists_with_mode unescape false (Some visit) v input =
    v' ← fold_result (fun v p => visit v p.1 p.2) v (VisitFacts.visits l); Ok (VisitFacts.without_files <$> l, v').
Proof. by apply VisitFacts.visiting_parses. Qed.

Module FilelistsExamples.
Definition tag (n : string) (attrs : list (string * string)) : event := Start Unbound (Element n (plain attrs)).

(** One package with two files, the second written with a reference. *)
Definition document : list event :=
  [ Decl; tag "filelists" [("xmlns", FILELISTS_NAMESPACE); ("packages", "1")];
    tag "package" [("pkgid", "aa"); ("name", "bash"); ("arch", "x86_64")];
    Empty Unbound (Element "version" (plain [("epoch", "0"); ("ver", "5.2"); ("rel", "1")]));
    tag "file" []; Text (Ok "/usr/bin/sh"); End "file";
    tag "file" []; Text (Ok "/usr/a"); GeneralRef (Ok "amp"); Text (Ok "b"); End "file";
    End "package"; End "filelists" ].

Definition unescape (s : string) : result string string := Ok (if bool_decide (s = "&amp;") then "&" else s).

Definition packages : list FileListPackage.t :=
  [FileListPackage.mk "aa" "bash" "x86_64" "0" "5.2" "1" ["/usr/bin/sh"; "/usr/a&b"]].

(** A visitor that collects what it is shown. *)
Definition collect (v : list (string * string)) (id path : string) : xresult (list (string * string)) :=
  Ok (v ++ [(id, path)]).
End FilelistsExamples.

Lemma visiting_is_parsing_witness :
  parse_filelists FilelistsExamples.unescape FilelistsExamples.document = Ok FilelistsExamples.packages /\
  snd <$> parse_filelists_with_mode FilelistsExamples.unescape false (Some FilelistsExamples.collect) []
            FilelistsExamples.document = Ok [("aa", "/usr/bin/sh"); ("aa", "/usr/a&b")].
Proof.
  assert (H : parse_filelists FilelistsExamples.unescape FilelistsExamples.document = Ok FilelistsExamples.packages)
    by (vm_compute; reflexivity).
  split; [exact H |].
  rewrite (visiting_is_parsing _ _ FilelistsExamples.collect _ _ [] H). vm_compute. reflexivity.
Defined.
