(* ===== verification/PathScanner.v ===== *)
(** * Scanning filelists for one path ([dnfast-metadata]: filelists.rs, [ValidatedPathScanner])

    The lexical scanner that finds the packages of one path in a document that was validated
    before, without building its events. *)
From Stdlib Require Import Ascii.
From S2P Require Import Prelude.
From S2P Require Import RustStr.
From S2P Require Import RustText.
From S2P Require Import Metadata.
From S2P Require Import Xml.

#[local] Open Scope N_scope.

Inductive LexicalState : Type := InText | InTag | InComment | InProcessingInstruction.

#[export] Instance lexical_state_eq_dec : EqDecision LexicalState.
Proof. solve_decision. Defined.

Definition less_than : byte := "<"%char.
Definition greater_than : byte := ">"%char.
Definition ampersand : byte := "&"%char.
Definition equals : byte := "="%char.
Definition is_quote (b : byte) : bool := bool_decide (byte_val b ∈ [34; 39]).

Definition is_byte (c b : byte) : bool := bool_decide (b = c).
Definition ends_with (suffix l : list byte) : bool := starts_with (rev suffix) (rev l).

(** ** The state of the scanner *)

Module Scanner.
Record t : Type := mk {
  tag : list byte;
  file : list byte;
  file_length : N;
  file_matches : bool;
  file_complex : bool;
  package_id : option string;
  providers : list string;
  file_active : bool;
  state : LexicalState;
  quote : option byte
}.
Definition new : t := mk [] [] 0 true false None [] false InText None.
Definition set_lexical (tag : list byte) (state : LexicalState) (quote : option byte) (s : t) : t :=
  mk tag (file s) (file_length s) (file_matches s) (file_complex s) (package_id s) (providers s) (file_active s) state quote.
Definition set_state (state : LexicalState) (s : t) : t := set_lexical (tag s) state (quote s) s.
Definition set_package (id : option string) (s : t) : t :=
  mk (tag s) (file s) (file_length s) (file_matches s) (file_complex s) id (providers s) (file_active s) (state s) (quote s).
Definition set_file (file : list byte) (length : N) (matches complex active : bool) (s : t) : t :=
  mk (tag s) file length matches complex (package_id s) (providers s) active (state s) (quote s).
Definition set_providers (providers : list string) (s : t) : t :=
  mk (tag s) (file s) (file_length s) (file_matches s) (file_complex s) (package_id s) providers (file_active s) (state s) (quote s).
End Scanner.

(** ** Tags *)

Definition tag_name (tag expected : list byte) : bool :=
  starts_with expected tag &&
  match tag !! length expected with
  | None => true
  | Some b => is_ascii_whitespace b || is_byte "/"%char b || is_byte greater_than b
  end.

Section scanner.
Context (unescape : string -> result string string) (utf8_error : list byte -> string).

(** [std::str::from_utf8], then [unescape]. *)
Definition decode_raw (raw : list byte) : xresult string :=
  text ← ok_or (MetadataError.Xml (utf8_error raw)) (from_utf8 raw); xml_error (unescape text).

(** The loop over the attributes of a tag: what is left of it, each turn consuming an equals sign. *)
Fixpoint attribute_loop (fuel : nat) (expected tag : list byte) : xresult string :=
  match tag, fuel with
  | _ :: _, S fuel =>
      let tag := drop_while is_ascii_whitespace tag in
      let in_name := fun b => negb (is_ascii_whitespace b) && negb (is_byte equals b) in
      let name := take_while in_name tag in
      match drop_while is_ascii_whitespace (drop_while in_name tag) with
      | eq :: tag =>
          if negb (is_byte equals eq) then xml "invalid package attribute"
          else
            match drop_while is_ascii_whitespace tag with
            | quote :: tag =>
                if negb (is_quote quote) then xml "unquoted package attribute"
                else
                  let in_value := fun b => negb (is_byte quote b) in
                  let raw := take_while in_value tag in
                  if bool_decide (name = expected) then decode_raw raw
                  else attribute_loop fuel expected (tail (drop_while in_value tag))
            | [] => xml "unquoted package attribute"
            end
      | [] => xml "invalid package attribute"
      end
  | _, _ => xml "missing required attribute"
  end.

Definition required_raw_attribute (tag expected : list byte) : xresult string :=
  match drop_while (fun b => negb (is_ascii_whitespace b)) tag with
  | [] => xml "package attributes are absent"
  | tag => attribute_loop (length tag) expected tag
  end.

(** ** The scanner *)

Context (target : string).

Definition begin_file (s : Scanner.t) : Scanner.t := Scanner.set_file [] 0 true false true s.

Definition deactivate (s : Scanner.t) : Scanner.t :=
  Scanner.set_file (Scanner.file s) (Scanner.file_length s) (Scanner.file_matches s) (Scanner.file_complex s) false s.

(** The packages that have the path, one more of them being the current one. *)
Definition add_provider (matched : bool) (package_id : option string) (providers : list string) :
    xresult (list string) :=
  if matched then
    id ← ok_or (MetadataError.Xml "file outside filelists package") package_id; Ok (providers ++ [id])
  else Ok providers.

Definition end_file (s : Scanner.t) : xresult Scanner.t :=
  if negb (Scanner.file_active s) then Ok s
  else
    matched ← (if Scanner.file_complex s
               then value ← decode_raw (Scanner.file s); Ok (bool_decide (value = target))
               else Ok (Scanner.file_matches s && (Scanner.file_length s =? str_len target)));
    providers ← add_provider matched (Scanner.package_id s) (Scanner.providers s);
    Ok (deactivate (Scanner.set_providers providers s)).

Definition push_file_bytes (s : Scanner.t) (l : list byte) : xresult Scanner.t :=
  let previous_length := Scanner.file_length s in
  file_length ← ok_or (MetadataError.Xml "file path length overflow")
                  (u64_checked_add previous_length (N.of_nat (length l)));
  _ ← checked_limit file_length MAX_XML_TEXT_BYTES "XML text";
  let active := Scanner.file_active s in
  if Scanner.file_complex s then
    Ok (Scanner.set_file (Scanner.file s ++ l) file_length (Scanner.file_matches s) true active s)
  else if negb (Scanner.file_matches s) then
    Ok (Scanner.set_file (Scanner.file s) file_length false false active s)
  else
    let before := take_while (fun b => negb (is_byte ampersand b)) l in
    match drop_while (fun b => negb (is_byte ampersand b)) l with
    | [] =>
        let matches := bool_decide (get_range (bytes target) previous_length file_length = Some l) in
        Ok (Scanner.set_file (Scanner.file s) file_length matches false active s)
    | rest =>
        let prefix_end := previous_length + N.of_nat (length before) in
        let matches := bool_decide (get_range (bytes target) previous_length prefix_end = Some before) in
        if negb matches || (str_len target <? prefix_end)
        then Ok (Scanner.set_file (Scanner.file s) file_length matches false active s)
        else Ok (Scanner.set_file (Scanner.file s ++ take (N.to_nat prefix_end) (bytes target) ++ rest)
                   file_length matches true active s)
    end.

(** [strip_suffix(b">").unwrap_or]. *)
Definition strip_greater (tag : list byte) : list byte :=
  if ends_with [greater_than] tag then removelast tag else tag.

Definition end_tag_name (tag expected : list byte) : bool :=
  match strip_prefix (bytes "/") tag with Some tag => tag_name tag expected | None => false end.

Definition finish_tag (s : Scanner.t) : xresult Scanner.t :=
  let tag := strip_greater (Scanner.tag s) in
  if tag_name tag (bytes "package") then
    id ← required_raw_attribute tag (bytes "pkgid"); Ok (Scanner.set_package (Some id) s)
  else if end_tag_name tag (bytes "package") then Ok (Scanner.set_package None s)
  else if tag_name tag (bytes "file") then Ok (begin_file s)
  else if end_tag_name tag (bytes "file") then end_file s
  else Ok s.

(** One byte within a tag, a comment or a processing instruction. *)
Definition tag_byte (s : Scanner.t) (b : byte) : xresult Scanner.t :=
  let s := Scanner.set_lexical (Scanner.tag s ++ [b]) (Scanner.state s) (Scanner.quote s) s in
  if bool_decide (Scanner.tag s = bytes "!--") then Ok (Scanner.set_state InComment s)
  else if bool_decide (Scanner.tag s = bytes "?") then Ok (Scanner.set_state InProcessingInstruction s)
  else
    match Scanner.quote s with
    | Some quote =>
        Ok (if is_byte quote b then Scanner.set_lexical (Scanner.tag s) (Scanner.state s) None s else s)
    | None =>
        if is_quote b then Ok (Scanner.set_lexical (Scanner.tag s) (Scanner.state s) (Some b) s)
        else if is_byte greater_than b then Scanner.set_state InText <$> finish_tag s
        else Ok s
    end.

Definition comment_byte (closing : list byte) (s : Scanner.t) (b : byte) : Scanner.t :=
  let s := Scanner.set_lexical (Scanner.tag s ++ [b]) (Scanner.state s) (Scanner.quote s) s in
  if ends_with closing (Scanner.tag s) then Scanner.set_state InText s else s.

(** The loop over the bytes of one read; [None] when the fuel runs out, which the number of the
    bytes never lets happen. *)
Fixpoint push_loop (fuel : nat) (s : Scanner.t) (l : list byte) : option (xresult Scanner.t) :=
  match l with
  | [] => Some (Ok s)
  | b :: t =>
      match fuel with
      | O => None
      | S fuel =>
          match Scanner.state s with
          | InText =>
              let text := take_while (fun b => negb (is_byte less_than b)) l in
              match (if Scanner.file_active s && negb (bool_decide (text = []))
                     then push_file_bytes s text else Ok s) with
              | Err e => Some (Err e)
              | Ok s =>
                  match drop_while (fun b => negb (is_byte less_than b)) l with
                  | [] => Some (Ok s)
                  | _ :: tag =>
                      let s := Scanner.set_lexical [] InTag None s in
                      match strip_prefix (bytes "file>") tag with
                      | Some rest => push_loop fuel (Scanner.set_state InText (begin_file s)) rest
                      | None =>
                          match strip_prefix (bytes "/file>") tag with
                          | Some rest =>
                              match end_file s with
                              | Err e => Some (Err e)
                              | Ok s => push_loop fuel (Scanner.set_state InText s) rest
                              end
                          | None => push_loop fuel s tag
                          end
                      end
                  end
              end
          | InTag =>
              match tag_byte s b with
              | Err e => Some (Err e)
              | Ok s => push_loop fuel s t
              end
          | InComment => push_loop fuel (comment_byte (bytes "-->") s b) t
          | InProcessingInstruction => push_loop fuel (comment_byte (bytes "?>") s b) t
          end
      end
  end.

Definition push (s : Scanner.t) (l : list byte) : xresult Scanner.t :=
  default (xml "unreachable") (push_loop (length l) s l).

Definition finish_scan (s : Scanner.t) : xresult (list string) :=
  if negb (bool_decide (Scanner.state s = InText)) || Scanner.file_active s
     || bool_decide (is_Some (Scanner.package_id s))
  then xml "validated filelists scan ended inside an element"
  else Ok (dedup (sort (Scanner.providers s))).

(** The results of the reads, up to the one that is empty. *)
Fixpoint scan_loop (s : Scanner.t) (reads : list (result string (list byte))) : xresult (list string) :=
  match reads with
  | [] => finish_scan s
  | Err m :: _ => Err (MetadataError.Io m)
  | Ok [] :: _ => finish_scan s
  | Ok l :: reads => s ← push s l; scan_loop s reads
  end.

Definition scan_validated_filelists_xml_path (reads : list (result string (list byte))) : xresult (list string) :=
  scan_loop Scanner.new reads.
End scanner.
