(* ===== verification/PathScannerFacts.v ===== *)
(** * Facts about the path scanner

    The scanner against a reference that takes one byte at a time, keeps the text of the file it
    is in and compares it when the file ends; and what it finds in a document. *)
From Stdlib Require Import Ascii.
From S2P Require Import Prelude.
From S2P Require Import RustStr.
From S2P Require Import RustText.
From S2P Require Import Metadata.
From S2P Require Import Xml.
From S2P Require Import Filelists.
From S2P Require Import PathScanner.

#[local] Open Scope N_scope.

(** ** The reference *)
Module Reference.
Record t : Type := mk {
  lex : LexicalState;
  tag : list byte;
  quote : option byte;
  text : option (list byte);
  package_id : option string;
  providers : list string
}.
Definition new : t := mk InText [] None None None [].
Definition set_lex (lex : LexicalState) (tag : list byte) (quote : option byte) (r : t) : t :=
  mk lex tag quote (text r) (package_id r) (providers r).
Definition set_text (x : option (list byte)) (r : t) : t :=
  mk (lex r) (tag r) (quote r) x (package_id r) (providers r).
Definition set_package (id : option string) (r : t) : t :=
  mk (lex r) (tag r) (quote r) (text r) id (providers r).
Definition close (providers : list string) (r : t) : t :=
  mk (lex r) (tag r) (quote r) None (package_id r) providers.

Section reference.
Context (unescape : string -> result string string) (utf8_error : list byte -> string) (target : string).

(** The text before the first reference. *)
Definition literal (l : list byte) : list byte := take_while (fun b => negb (is_byte ampersand b)) l.

(** Whether the text of a file is the path: references are decoded only if the text before them
    agrees with it. *)
Definition is_target (l : list byte) : xresult bool :=
  if negb (starts_with (literal l) (bytes target)) then Ok false
  else if bool_decide (literal l = l) then Ok (bool_decide (l = bytes target))
  else value ← decode_raw unescape utf8_error l; Ok (bool_decide (value = target)).

Definition close_file (r : t) : xresult t :=
  match text r with
  | None => Ok r
  | Some l =>
      matched ← is_target l;
      providers ← add_provider matched (package_id r) (providers r);
      Ok (close providers r)
  end.

Definition finish_tag (r : t) : xresult t :=
  let tag := strip_greater (tag r) in
  if tag_name tag (bytes "package") then
    id ← required_raw_attribute unescape utf8_error tag (bytes "pkgid"); Ok (set_package (Some id) r)
  else if end_tag_name tag (bytes "package") then Ok (set_package None r)
  else if tag_name tag (bytes "file") then Ok (set_text (Some []) r)
  else if end_tag_name tag (bytes "file") then close_file r
  else Ok r.

Definition text_byte (l : list byte) (b : byte) : xresult (list byte) :=
  _ ← checked_limit (N.of_nat (length (l ++ [b]))) MAX_XML_TEXT_BYTES "XML text"; Ok (l ++ [b]).

Definition step (r : t) (b : byte) : xresult t :=
  let tag := tag r ++ [b] in
  match lex r with
  | InText =>
      if is_byte less_than b then Ok (set_lex InTag [] None r)
      else
        match text r with
        | None => Ok r
        | Some l => l ← text_byte l b; Ok (set_text (Some l) r)
        end
  | InTag =>
      if bool_decide (tag = bytes "!--") then Ok (set_lex InComment tag (quote r) r)
      else if bool_decide (tag = bytes "?") then Ok (set_lex InProcessingInstruction tag (quote r) r)
      else
        match quote r with
        | Some q => Ok (set_lex InTag tag (if is_byte q b then None else Some q) r)
        | None =>
            if is_quote b then Ok (set_lex InTag tag (Some b) r)
            else if is_byte greater_than b then finish_tag (set_lex InText tag None r)
            else Ok (set_lex InTag tag None r)
        end
  | InComment => Ok (set_lex (if ends_with (bytes "-->") tag then InText else InComment) tag (quote r) r)
  | InProcessingInstruction =>
      Ok (set_lex (if ends_with (bytes "?>") tag then InText else InProcessingInstruction) tag (quote r) r)
  end.

Definition finish (r : t) : xresult (list string) :=
  if negb (bool_decide (lex r = InText)) || bool_decide (is_Some (text r)) || bool_decide (is_Some (package_id r))
  then xml "validated filelists scan ended inside an element"
  else Ok (dedup (sort (providers r))).

Definition scan (document : list byte) : xresult (list string) :=
  r ← fold_result step new document; finish r.
End reference.
End Reference.

(** Two results agree: the same value, or an error in both. *)
Definition agree {A B} (R : A -> B -> Prop) (x : xresult A) (y : xresult B) : Prop :=
  match x, y with Ok a, Ok b => R a b | Err _, Err _ => True | _, _ => False end.

Lemma agree_bind {A B C D} (R : A -> B -> Prop) (S : C -> D -> Prop) x y (f : A -> xresult C) (g : B -> xresult D) :
  agree R x y -> (forall a b, R a b -> agree S (f a) (g b)) -> agree S (x ≫= f) (y ≫= g).
Proof. destruct x, y; simpl; try done. auto. Qed.

Module ScannerFacts.
Import Reference.

Section facts.
Context (unescape : string -> result string string) (utf8_error : list byte -> string) (target : string).

Abbreviation path := (bytes target).

(** What the counters of the scanner say of the text [l] of the file it is in. *)
Definition tracks (s : Scanner.t) (l : list byte) : Prop :=
  Scanner.file_length s = N.of_nat (length l) /\ N.of_nat (length l) <= MAX_XML_TEXT_BYTES /\
  if Scanner.file_complex s
  then Scanner.file s = l /\ Scanner.file_matches s = true /\ literal l <> l /\ starts_with (literal l) path = true
  else Scanner.file s = [] /\
       if Scanner.file_matches s then literal l = l /\ starts_with l path = true
       else starts_with (literal l) path = false.

Definition models (s : Scanner.t) (r : t) : Prop :=
  Scanner.state s = lex r /\ (lex r <> InText -> Scanner.tag s = tag r /\ Scanner.quote s = quote r) /\
  Scanner.package_id s = package_id r /\ Scanner.providers s = providers r /\
  match text r with Some l => Scanner.file_active s = true /\ tracks s l | None => Scanner.file_active s = false end.

Lemma literal_prefix l : exists rest, l = literal l ++ rest.
Proof. exists (drop_while (fun b => negb (is_byte ampersand b)) l). symmetry. apply take_drop_while. Qed.

Lemma literal_app_plain a b : literal a = a -> literal (a ++ b) = a ++ literal b.
Proof.
  unfold literal. induction a as [|x a IH]; [done |]. cbn [take_while app].
  destruct (negb (is_byte ampersand x)); [| done]. intros [= Ha]. by rewrite IH.
Qed.

Lemma literal_app_complex a b : literal a <> a -> literal (a ++ b) = literal a.
Proof.
  unfold literal. induction a as [|x a IH]; [done |]. cbn [take_while app].
  destruct (negb (is_byte ampersand x)); [| done]. intros Ha. rewrite IH; [done |]. congruence.
Qed.

Lemma literal_idemp_take l : literal l = l <-> drop_while (fun b => negb (is_byte ampersand b)) l = [].
Proof.
  pose proof (take_drop_while (fun b => negb (is_byte ampersand b)) l) as H. unfold literal. split.
  - intros E. rewrite E in H. apply (app_inv_head l). by rewrite H, app_nil_r.
  - intros E. by rewrite E, app_nil_r in H.
Qed.

Lemma starts_with_app_inv (a b l : list byte) : starts_with (a ++ b) l = true -> starts_with a l = true.
Proof. rewrite !starts_with_spec. intros [r ->]. exists (b ++ r). by rewrite app_assoc. Qed.

Lemma starts_with_take (a l : list byte) : starts_with a l = true <-> take (length a) l = a.
Proof.
  rewrite starts_with_spec. split; [intros [r ->]; by rewrite take_app_length |].
  intros H. exists (drop (length a) l). by rewrite <- H at 1; rewrite take_drop.
Qed.

(** Comparing the next bytes with the range of the path they fall in. *)
Lemma range_matches a b : starts_with a path = true ->
  bool_decide (get_range path (N.of_nat (length a)) (N.of_nat (length a) + N.of_nat (length b)) = Some b) =
  starts_with (a ++ b) path.
Proof.
  rewrite starts_with_spec. intros [r Hr]. rewrite Hr. unfold get_range.
  replace (N.of_nat (length a) <=? N.of_nat (length a) + N.of_nat (length b)) with true by (symmetry; apply N.leb_le; lia).
  cbn [andb]. rewrite Nat2N.id, drop_app_length, length_app.
  replace (N.to_nat (N.of_nat (length a) + N.of_nat (length b) - N.of_nat (length a))) with (length b) by lia.
  assert (Hs : starts_with (a ++ b) (a ++ r) = starts_with b r).
  { apply eq_true_iff_eq. rewrite !starts_with_spec. split; intros [x Hx]; exists x.
    - rewrite <- app_assoc in Hx. by apply app_inv_head in Hx.
    - by rewrite Hx, app_assoc. }
  rewrite Hs. destruct (_ <=? N.of_nat (length a + length r)) eqn:E.
  - apply N.leb_le in E. apply eq_true_iff_eq. rewrite bool_decide_eq_true, starts_with_take.
    split; [by intros [= ->] | by intros ->].
  - apply N.leb_gt in E. rewrite bool_decide_false by done. symmetry. apply not_true_is_false.
    rewrite starts_with_spec. intros [x ->]. rewrite length_app in E. lia.
Qed.

Lemma push_length_ok (n k : N) (f : N -> xresult Scanner.t) :
  n <= MAX_XML_TEXT_BYTES ->
  (n' ← ok_or (MetadataError.Xml "file path length overflow") (u64_checked_add n k);
   _ ← checked_limit n' MAX_XML_TEXT_BYTES "XML text"; f n') =
  f (n + k) /\ n + k <= MAX_XML_TEXT_BYTES \/
  (exists e, (n' ← ok_or (MetadataError.Xml "file path length overflow") (u64_checked_add n k);
   _ ← checked_limit n' MAX_XML_TEXT_BYTES "XML text"; f n') = Err e) /\ MAX_XML_TEXT_BYTES < n + k.
Proof.
  intros Hn. unfold u64_checked_add, checked_limit. assert (MAX_XML_TEXT_BYTES < u64_max) by done.
  destruct (n + k <=? u64_max) eqn:E1; cbn.
  - destruct (MAX_XML_TEXT_BYTES <? n + k) eqn:E2; cbn.
    + right. apply N.ltb_lt in E2. split; [by eexists | done].
    + left. apply N.ltb_ge in E2. done.
  - right. apply N.leb_gt in E1. split; [by eexists | lia].
Qed.

(** Pushing bytes of the text: the counters follow, until the text is too long. *)
Lemma push_tracks s l b : Scanner.file_active s = true -> tracks s l ->
  (exists f n m c, push_file_bytes target s b = Ok (Scanner.set_file f n m c true s) /\
     tracks (Scanner.set_file f n m c true s) (l ++ b)) /\ N.of_nat (length (l ++ b)) <= MAX_XML_TEXT_BYTES \/
  (exists e, push_file_bytes target s b = Err e) /\ MAX_XML_TEXT_BYTES < N.of_nat (length (l ++ b)).
Proof.
  intros Hact (Hlen & Hmax & Htr). rewrite length_app, Nat2N.inj_add. unfold push_file_bytes. cbn zeta.
  rewrite Hlen, Hact.
  edestruct (push_length_ok (N.of_nat (length l)) (N.of_nat (length b))) as [[-> Hle]|[Herr Hgt]];
    [done | left | right; split; [exact Herr | done]].
  split; [| done].
  assert (Hlen' : N.of_nat (length l) + N.of_nat (length b) = N.of_nat (length (l ++ b))) by (rewrite length_app; lia).
  destruct (Scanner.file_complex s) eqn:Hc.
  { destruct Htr as (Hf & Hm & Hlit & Hp). do 4 eexists. split; [done |]. unfold tracks. cbn.
    rewrite literal_app_complex by done. rewrite Hf, Hm. split_and!; try done; [lia |].
    intros Heq. apply Hlit. destruct (literal_prefix l) as [r Hr].
    assert (Hl : length (literal l) = length (l ++ b)) by (by rewrite Heq). rewrite length_app in Hl.
    rewrite Hr in Hl at 2. rewrite length_app in Hl. assert (length r = 0)%nat by lia.
    destruct r; [| done]. by rewrite app_nil_r in Hr. }
  destruct Htr as [Hf Htr]. destruct (Scanner.file_matches s) eqn:Hm; cbn [negb].
  - destruct Htr as [Hlit Hp]. pose proof (take_drop_while (fun b => negb (is_byte ampersand b)) b) as Htd.
    fold (literal b) in *. destruct (drop_while _ b) as [|x rest] eqn:Hd.
    + do 4 eexists. split; [done |]. unfold tracks. cbn. rewrite range_matches by done.
      assert (Hb : literal b = b) by (by apply literal_idemp_take).
      assert (Hlb : literal (l ++ b) = l ++ b) by (by rewrite literal_app_plain, Hb).
      split_and!; try done; [lia |]. destruct (starts_with (l ++ b) path) eqn:Hs; [done |]. by rewrite Hlb.
    + rewrite range_matches by done.
      assert (Hlb : literal (l ++ b) = l ++ literal b) by (by apply literal_app_plain).
      assert (Hpath : str_len target <? N.of_nat (length l) + N.of_nat (length (literal b)) = true ->
        starts_with (l ++ literal b) path = false).
      { intros E%N.ltb_lt. apply not_true_is_false. rewrite starts_with_spec. intros [r Hr].
        unfold str_len in E. rewrite Hr, !length_app in E. lia. }
      destruct (starts_with (l ++ literal b) path) eqn:Hs; cbn [negb orb].
      * destruct (str_len target <? _) eqn:E; [by specialize (Hpath eq_refl) |].
        do 4 eexists. split; [done |]. unfold tracks. cbn. rewrite Hlb, Hf.
        assert (Htake : take (N.to_nat (N.of_nat (length l) + N.of_nat (length (literal b)))) path = l ++ literal b).
        { rewrite <- Nat2N.inj_add, Nat2N.id. rewrite starts_with_take, length_app in Hs. done. }
        split_and!; try done; [lia | |].
        -- cbn [app]. rewrite Htake, <- app_assoc. f_equal. done.
        -- intros Heq. apply app_inv_head in Heq. rewrite <- Htd in Heq at 2.
           rewrite <- (app_nil_r (literal b)) in Heq at 1. by apply app_inv_head in Heq.
      * do 4 eexists. split; [done |]. unfold tracks. cbn. rewrite Hlb, Hf. split_and!; try done; lia.
  - do 4 eexists. split; [done |]. unfold tracks. cbn. rewrite Hf. split_and!; try done; [lia |].
    destruct (literal_prefix (l ++ b)) as [r Hr]. apply not_true_is_false. intros Hs.
    destruct (decide (literal l = l)) as [E|E].
    + rewrite literal_app_plain in Hs by done. apply starts_with_app_inv in Hs. rewrite E in Htr. congruence.
    + rewrite literal_app_complex in Hs by done. congruence.
Qed.

(** The comparison of the counters is the comparison of the text. *)
Lemma tracks_matched s l : tracks s l ->
  (if Scanner.file_complex s
   then value ← decode_raw unescape utf8_error (Scanner.file s); Ok (bool_decide (value = target))
   else Ok (Scanner.file_matches s && (Scanner.file_length s =? str_len target))) =
  is_target unescape utf8_error target l.
Proof.
  intros (Hlen & _ & Htr). unfold is_target. destruct (Scanner.file_complex s).
  - destruct Htr as (-> & _ & Hlit & ->). cbn [negb]. by rewrite bool_decide_false.
  - destruct Htr as [_ Htr]. destruct (Scanner.file_matches s).
    + destruct Htr as [Hlit Hp]. rewrite Hlit, Hp, bool_decide_true by done. cbn [negb andb]. f_equal.
      rewrite Hlen. apply eq_true_iff_eq. rewrite N.eqb_eq, bool_decide_eq_true. unfold str_len. split.
      * intros E. apply Nat2N.inj in E. rewrite starts_with_take in Hp. rewrite E, take_ge in Hp by lia. done.
      * by intros ->.
    + by rewrite Htr.
Qed.

Lemma end_file_models s r : models s r ->
  agree models (end_file unescape utf8_error target s) (close_file unescape utf8_error target r).
Proof.
  intros (H1 & H2 & H3 & H4 & H5). unfold end_file, close_file. destruct (text r) as [l|] eqn:Ht.
  - destruct H5 as [Hact Htr]. rewrite Hact. cbn [negb]. rewrite (tracks_matched s l Htr), H3, H4.
    destruct (is_target unescape utf8_error target l) as [m|e]; [| done]. cbn [mbind result_mbind].
    destruct (add_provider m (package_id r) (providers r)) as [ps|e]; [| done]. by split_and!.
  - rewrite H5. cbn. unfold models. by rewrite Ht.
Qed.

Abbreviation ref_step := (step unescape utf8_error target).
Abbreviation push_bytes := (push_loop unescape utf8_error target).

Lemma models_same s r s' r' : models s r -> Scanner.state s' = lex r' ->
  (lex r' <> InText -> Scanner.tag s' = tag r' /\ Scanner.quote s' = quote r') ->
  Scanner.package_id s' = Scanner.package_id s -> Scanner.providers s' = Scanner.providers s ->
  Scanner.file_active s' = Scanner.file_active s -> Scanner.file_length s' = Scanner.file_length s ->
  Scanner.file_complex s' = Scanner.file_complex s -> Scanner.file_matches s' = Scanner.file_matches s ->
  Scanner.file s' = Scanner.file s ->
  package_id r' = package_id r -> providers r' = providers r -> text r' = text r -> models s' r'.
Proof.
  intros (H1 & H2 & H3 & H4 & H5) ? ? E1 E2 E3 E4 E5 E6 E7 E8 E9 E10. unfold models, tracks.
  rewrite E1, E2, E3, E4, E5, E6, E7, E8, E9, E10. done.
Qed.

Lemma finish_tag_models s r : Scanner.tag s = tag r -> models s r ->
  agree models (PathScanner.finish_tag unescape utf8_error target s) (finish_tag unescape utf8_error target r).
Proof.
  intros Htag Hm. unfold PathScanner.finish_tag, finish_tag. rewrite Htag.
  destruct (tag_name _ (bytes "package")).
  { destruct (required_raw_attribute _ _ _ _) as [id|e]; [| done]. cbn.
    destruct Hm as (H1 & H2 & H3 & H4 & H5). by split_and!. }
  destruct (end_tag_name _ (bytes "package")).
  { destruct Hm as (H1 & H2 & H3 & H4 & H5). by split_and!. }
  destruct (tag_name _ (bytes "file")).
  { destruct Hm as (H1 & H2 & H3 & H4 & H5). by split_and!. }
  destruct (end_tag_name _ (bytes "file")); [| done]. by apply end_file_models.
Qed.

(** [finish_tag] keeps the lexical state. *)
Lemma finish_tag_lex r r' : finish_tag unescape utf8_error target r = Ok r' ->
  lex r' = lex r /\ tag r' = tag r /\ quote r' = quote r.
Proof.
  unfold finish_tag, close_file. intros H. repeat first [done | progress result_inv | case_match].
Qed.

(** The lexical state does not matter to the end of a file. *)
Lemma end_file_state st s : end_file unescape utf8_error target (Scanner.set_state st s) =
  Scanner.set_state st <$> end_file unescape utf8_error target s.
Proof.
  unfold end_file. cbn [Scanner.set_state Scanner.set_lexical Scanner.file_active].
  destruct (negb _); [done |]. cbn.
  destruct (Scanner.file_complex s); [destruct (decode_raw _ _ _) as [v|e]; [| done] |]; cbn;
    by destruct (add_provider _ _ _).
Qed.

Lemma tag_byte_models s r b : lex r = InTag -> models s r ->
  agree models (tag_byte unescape utf8_error target s b) (ref_step r b).
Proof.
  intros Hlex Hm. pose proof Hm as (H1 & H2 & _). destruct H2 as [Ht Hq]; [by rewrite Hlex |].
  rewrite Hlex in H1. unfold tag_byte, step. rewrite Hlex. cbn [Scanner.tag Scanner.set_lexical Scanner.quote]. rewrite Ht, Hq.
  case_bool_decide; [apply (models_same s r); done |].
  case_bool_decide; [apply (models_same s r); done |].
  destruct (quote r) as [q|].
  { destruct (is_byte q b); apply (models_same s r); done. }
  destruct (is_quote b); [apply (models_same s r); try done; by rewrite H1 |].
  destruct (is_byte greater_than b); [| apply (models_same s r); try done; by rewrite H1].
  set (s1 := Scanner.set_lexical _ _ _ s). set (r1 := set_lex InText _ None r).
  assert (Hm1 : models (Scanner.set_state InText s1) r1) by (by apply (models_same s r)).
  pose proof (finish_tag_models (Scanner.set_state InText s1) r1 eq_refl Hm1) as Hagree.
  assert (Hstate : Scanner.set_state InText <$> PathScanner.finish_tag unescape utf8_error target s1 =
    PathScanner.finish_tag unescape utf8_error target (Scanner.set_state InText s1)).
  { unfold PathScanner.finish_tag. cbn [Scanner.set_state Scanner.set_lexical Scanner.tag].
    destruct (tag_name _ (bytes "package")); [by destruct (required_raw_attribute _ _ _ _) |].
    destruct (end_tag_name _ (bytes "package")); [done |].
    destruct (tag_name _ (bytes "file")); [done |]. destruct (end_tag_name _ (bytes "file")); [| done].
    by rewrite end_file_state. }
  by rewrite Hstate.
Qed.

Lemma comment_byte_models s r b closing : lex r <> InText -> models s r ->
  models (comment_byte closing s b)
    (set_lex (if ends_with closing (tag r ++ [b]) then InText else lex r) (tag r ++ [b]) (quote r) r).
Proof.
  intros Hlex Hm. pose proof Hm as (H1 & H2 & _). destruct (H2 Hlex) as [Ht Hq]. unfold comment_byte.
  cbn [Scanner.tag Scanner.set_lexical]. rewrite Ht. destruct (ends_with closing _); apply (models_same s r); done.
Qed.

(** A run of text in the reference. *)
Lemma text_fold l : forall r, lex r = InText -> forallb (fun b => negb (is_byte less_than b)) l = true ->
  match text r with
  | None => fold_result ref_step r l = Ok r
  | Some t =>
      if N.of_nat (length (t ++ l)) <=? MAX_XML_TEXT_BYTES
      then fold_result ref_step r l = Ok (set_text (Some (t ++ l)) r)
      else N.of_nat (length t) <= MAX_XML_TEXT_BYTES -> is_ok (fold_result ref_step r l) = false
  end.
Proof.
  induction l as [|b l IH]; intros r Hlex.
  - intros _. cbn. destruct (text r) as [t|] eqn:Ht; [| done]. rewrite app_nil_r.
    destruct (_ <=? _) eqn:E; [| apply N.leb_gt in E; lia]. destruct r; simpl in *. by subst.
  - cbn [forallb]. intros [Hb Hl]%andb_true_iff. apply negb_true_iff in Hb. cbn [fold_result].
    assert (Hstep : ref_step r b = match text r with None => Ok r | Some l => l ← text_byte l b; Ok (set_text (Some l) r) end)
      by (unfold step; by rewrite Hlex, Hb).
    rewrite Hstep. specialize (IH r Hlex Hl) as IHr. destruct (text r) as [t|] eqn:Ht; [| done].
    unfold text_byte, checked_limit. rewrite (cons_middle b t l), app_assoc.
    destruct (MAX_XML_TEXT_BYTES <? N.of_nat (length (t ++ [b]))) eqn:E1; cbn [reject_if mbind result_mbind].
    + apply N.ltb_lt in E1. destruct (N.of_nat (length ((t ++ [b]) ++ l)) <=? MAX_XML_TEXT_BYTES) eqn:E2; [| intros _; reflexivity]. apply N.leb_le in E2. rewrite length_app in E2. lia.
    + apply N.ltb_ge in E1. specialize (IH (set_text (Some (t ++ [b])) r) Hlex Hl). cbn [text set_text] in IH.
      destruct (N.of_nat (length ((t ++ [b]) ++ l)) <=? MAX_XML_TEXT_BYTES); [by rewrite IH |]. intros _. by apply IH.
Qed.

Lemma text_fold_lex l : forall r r1, lex r = InText -> forallb (fun b => negb (is_byte less_than b)) l = true ->
  fold_result ref_step r l = Ok r1 -> lex r1 = InText.
Proof.
  induction l as [|b l IH]; intros r r1 Hlex; [by intros _ [= <-] |].
  cbn [forallb fold_result]. intros [Hb Hl]%andb_true_iff (r2 & H2 & Hf)%bind_ok. refine (IH r2 r1 _ Hl Hf).
  apply negb_true_iff in Hb. unfold step in H2. rewrite Hlex, Hb in H2.
  destruct (text r); result_inv; done.
Qed.

(** The common tags, read a byte at a time. *)
Lemma file_tag r rest : fold_result ref_step (set_lex InTag [] None r) (bytes "file>" ++ rest) =
  fold_result ref_step (set_text (Some []) (set_lex InText (bytes "file>") None r)) rest.
Proof. rewrite fold_result_app. destruct r. reflexivity. Qed.

Lemma end_file_tag r rest : fold_result ref_step (set_lex InTag [] None r) (bytes "/file>" ++ rest) =
  r' ← close_file unescape utf8_error target (set_lex InText (bytes "/file>") None r); fold_result ref_step r' rest.
Proof.
  rewrite fold_result_app. destruct r as [x y z [t|] p ps]; [| reflexivity].
  replace (fold_result ref_step (set_lex InTag [] None (mk x y z (Some t) p ps)) (bytes "/file>"))
    with (close_file unescape utf8_error target (set_lex InText (bytes "/file>") None (mk x y z (Some t) p ps)));
    [done |].
  cbv -[close_file]. by destruct (close_file _ _ _ _).
Qed.

Lemma push_loop_models fuel : forall l s r, (length l <= fuel)%nat -> models s r ->
  exists x, push_bytes fuel s l = Some x /\ agree models x (fold_result ref_step r l).
Proof.
  induction fuel as [|fuel IH]; intros [|b l] s r Hfuel Hm; simpl in Hfuel; [by eexists | lia | by eexists |].
  cbn [push_loop]. pose proof Hm as (Hlex & _). destruct (Scanner.state s) eqn:Hs.
  - symmetry in Hlex.
    pose proof (take_drop_while (fun b => negb (is_byte less_than b)) (b :: l)) as Htd.
    pose proof (take_while_all (fun b => negb (is_byte less_than b)) (b :: l)) as Hall.
    set (run := take_while _ (b :: l)) in *. set (rest := drop_while _ (b :: l)) in *.
    rewrite <- Htd. rewrite fold_result_app.
    pose proof (text_fold run r Hlex Hall) as Hrun.
    assert (Hpush : agree models
      (if Scanner.file_active s && negb (bool_decide (run = [])) then push_file_bytes target s run else Ok s)
      (fold_result ref_step r run)).
    { pose proof Hm as (_ & _ & _ & _ & Htext). destruct (text r) as [t|] eqn:Ht.
      - destruct Htext as [Hact Htr]. rewrite Hact. cbn [andb]. case_bool_decide as Hnil; cbn [negb].
        + rewrite Hnil. done.
        + destruct (push_tracks s t run Hact Htr) as [[(f & n & m & c & -> & Htr') Hle]|[[e ->] Hgt]].
          * apply N.leb_le in Hle. rewrite Hle in Hrun. rewrite Hrun. cbn.
            destruct Hm as (M1 & M2 & M3 & M4 & M5). unfold models. cbn [Reference.set_text Reference.text]. by split_and!.
          * apply N.leb_gt in Hgt. rewrite Hgt in Hrun. destruct Htr as (_ & Hmax & _). specialize (Hrun Hmax).
            by destruct (fold_result ref_step r run).
      - rewrite Htext, Hrun. done. }
    destruct (if _ && _ then _ else _) as [s1|e]; [| eexists; split; [done |];
      by destruct (fold_result ref_step r run)].
    destruct (fold_result ref_step r run) as [r1|e] eqn:Hfold; [| done]. cbn [agree mbind result_mbind] in *.
    assert (Hlen : (length rest <= S (length l))%nat) by (apply (length_drop_while _ (b :: l))).
    destruct rest as [|c tagl] eqn:Hr; [by eexists |]. cbn [fold_result].
    assert (Hc : is_byte less_than c = true) by (by eapply negb_false_iff, (drop_while_head (fun b => negb (is_byte less_than b)))).
    assert (Hlex1 : lex r1 = InText) by (by apply (text_fold_lex run r)).
    assert (Hstep : ref_step r1 c = Ok (set_lex InTag [] None r1)) by (unfold step; by rewrite Hlex1, Hc).
    rewrite Hstep. cbn [mbind result_mbind]. simpl in Hlen.
    set (s2 := Scanner.set_lexical [] InTag None s1).
    assert (Hm2 : models s2 (set_lex InTag [] None r1)) by (by apply (models_same s1 r1)).
    destruct (strip_prefix (bytes "file>") tagl) as [tl|] eqn:Hf.
    { apply strip_prefix_some in Hf as ->. rewrite file_tag. rewrite length_app in Hlen. apply IH; [simpl in Hlen; lia |].
      destruct Hpush as (P1 & P2 & P3 & P4 & P5). by split_and!. }
    destruct (strip_prefix (bytes "/file>") tagl) as [tl|] eqn:Hf2; [| apply IH; [lia | done]].
    apply strip_prefix_some in Hf2 as ->. rewrite end_file_tag. rewrite length_app in Hlen.
    assert (Hm3 : models (Scanner.set_state InText s2) (set_lex InText (bytes "/file>") None r1))
      by (by apply (models_same s1 r1)).
    apply end_file_models in Hm3. rewrite end_file_state in Hm3.
    destruct (end_file _ _ _ s2) as [s3|e], (close_file _ _ _ _) as [r3|e']; try done; cbn in Hm3.
    + cbn [mbind result_mbind]. apply IH; [simpl in Hlen; lia | done].
    + by eexists.
  - assert (Hlex' : lex r = InTag) by done. pose proof (tag_byte_models s r b Hlex' Hm) as Hag. cbn [fold_result].
    destruct (tag_byte _ _ _ s b) as [s1|e], (ref_step r b) as [r1|e']; try done; [| by eexists].
    apply IH; [lia | done].
  - cbn [fold_result]. unfold step at 2. rewrite <- Hlex. apply IH; [lia |].
    pose proof (comment_byte_models s r b (bytes "-->")) as Hcb. rewrite <- Hlex in Hcb. by apply Hcb.
  - cbn [fold_result]. unfold step at 2. rewrite <- Hlex. apply IH; [lia |].
    pose proof (comment_byte_models s r b (bytes "?>")) as Hcb. rewrite <- Hlex in Hcb. by apply Hcb.
Qed.

Lemma push_models s r l : models s r ->
  agree models (push unescape utf8_error target s l) (fold_result ref_step r l).
Proof.
  intros Hm. destruct (push_loop_models (length l) l s r ltac:(lia) Hm) as (x & Hx & Hag). unfold push. by rewrite Hx.
Qed.

Lemma finish_models s r : models s r -> finish_scan s = finish r.
Proof.
  intros (H1 & _ & H3 & H4 & H5). unfold finish_scan, finish. rewrite H1, H3, H4.
  destruct (text r) as [l|]; [destruct H5 as [-> _] | rewrite H5]; done.
Qed.

Lemma scan_loop_agrees chunks : forall s r, models s r -> Forall (fun c => c <> []) chunks ->
  agree eq (scan_loop unescape utf8_error target s (Ok <$> chunks))
    (r' ← fold_result ref_step r (concat chunks); finish r').
Proof.
  induction chunks as [|c chunks IH]; intros s r Hm.
  - intros _. cbn. rewrite (finish_models s r Hm). by destruct (finish r).
  - intros [Hc Hcs]%Forall_cons. rewrite fmap_cons. cbn [concat]. rewrite fold_result_app, bind_assoc.
    destruct c as [|b c]; [done |]. cbn [scan_loop].
    apply (agree_bind models); [by apply push_models |]. intros s' r' Hm'. by apply IH.
Qed.
End facts.
End ScannerFacts.

(** C30: however the reads cut the document into pieces, the scanner, which skips over text and
    common tags in bulk, compares paths piece by piece and decodes references only where they can
    matter, finds what the reference finds byte by byte in the whole document, and fails when the
    reference fails. *)
Theorem scan_refines_reference (unescape : string -> result string string) (utf8_error : list byte -> string)
    (target : string) (chunks : list (list byte)) (Hchunks : Forall (fun c => c <> []) chunks) :
  agree eq (scan_validated_filelists_xml_path unescape utf8_error target (Ok <$> chunks))
    (Reference.scan unescape utf8_error target (concat chunks)).
Proof. by apply ScannerFacts.scan_loop_agrees. Qed.
