(* ===== verification/ScanDocument.v ===== *)
(** * What the path scanner finds in a document

    A document as repository tools write it, as bytes, and the packages the scanner finds in it. *)
From Stdlib Require Import Ascii.
From S2P Require Import Prelude.
From S2P Require Import RustStr.
From S2P Require Import RustText.
From S2P Require Import Metadata.
From S2P Require Import Xml.
From S2P Require Import Filelists.
From S2P Require Import PathScanner.
From S2P Require Import PathScannerFacts.

#[local] Open Scope N_scope.

Module Writer.
Definition dquote : byte := "034"%char.
Definition newline : list byte := ["010"%char].

Definition attribute_bytes (a : string * string) : list byte :=
  bytes " " ++ bytes a.1 ++ [equals; dquote] ++ bytes a.2 ++ [dquote].
Definition attributes_bytes (attrs : list (string * string)) : list byte := concat (attribute_bytes <$> attrs).

(** [<name attributes>], and [<name attributes/>]. *)
Definition tag_bytes (n : string) (attrs : list (string * string)) (closing : list byte) : list byte :=
  [less_than] ++ (bytes n ++ attributes_bytes attrs ++ closing) ++ [greater_than].

Definition file_bytes (f : string) : list byte :=
  [less_than] ++ bytes "file>" ++ bytes f ++ [less_than] ++ bytes "/file>" ++ newline.

Definition package_bytes (p : FileListPackage.t) : list byte :=
  tag_bytes "package" [("pkgid", FileListPackage.package_id p); ("name", FileListPackage.name p);
    ("arch", FileListPackage.arch p)] [] ++ newline ++
  tag_bytes "version" [("epoch", FileListPackage.epoch p); ("ver", FileListPackage.version p);
    ("rel", FileListPackage.release p)] (bytes "/") ++ newline ++
  concat (file_bytes <$> FileListPackage.files p) ++ tag_bytes "/package" [] [] ++ newline.

Definition document_bytes (count : string) (pkgs : list FileListPackage.t) : list byte :=
  tag_bytes "filelists" [("xmlns", FILELISTS_NAMESPACE); ("packages", count)] [] ++ newline ++
  concat (package_bytes <$> pkgs) ++ tag_bytes "/filelists" [] [] ++ newline.

(** Texts that need no references. *)
Definition plain_value (v : string) : bool :=
  negb (bset_contains dquote (bytes v)) && negb (bset_contains ampersand (bytes v)).
Definition plain_path (f : string) : bool :=
  negb (bset_contains less_than (bytes f)) && negb (bset_contains ampersand (bytes f))
  && (str_len f <=? MAX_XML_TEXT_BYTES).
Definition plain_package (p : FileListPackage.t) : bool :=
  plain_value (FileListPackage.package_id p) && valid_utf8 (bytes (FileListPackage.package_id p))
  && plain_value (FileListPackage.name p) && plain_value (FileListPackage.arch p)
  && plain_value (FileListPackage.epoch p) && plain_value (FileListPackage.version p)
  && plain_value (FileListPackage.release p) && forallb plain_path (FileListPackage.files p).
End Writer.

Module DocumentFacts.
Import Writer Reference.

(** The quote that is open after bytes of a tag, if none of them ends it. *)
Fixpoint tag_run (q : option byte) (l : list byte) : option (option byte) :=
  match l with
  | [] => Some q
  | b :: l =>
      match q with
      | Some c => tag_run (if is_byte c b then None else Some c) l
      | None => if is_quote b then tag_run (Some b) l else if is_byte greater_than b then None else tag_run None l
      end
  end.

Lemma tag_run_app a b : forall q, tag_run q (a ++ b) = q' ← tag_run q a; tag_run q' b.
Proof.
  induction a as [|x a IH]; intros q; [done |]. cbn [app tag_run]. destruct q; [apply IH |].
  destruct (is_quote x); [apply IH |]. destruct (is_byte greater_than x); [done | apply IH].
Qed.

Lemma tag_run_value c l : c ∉ l -> tag_run (Some c) l = Some (Some c).
Proof.
  induction l as [|b l IH]; [done |]. intros [Hb Hl]%not_elem_of_cons. cbn [tag_run].
  unfold is_byte. rewrite bool_decide_false by done. auto.
Qed.

Lemma tag_run_quoted k v : tag_run None (bytes k) = Some None -> dquote ∉ bytes v ->
  tag_run None (attribute_bytes (k, v)) = Some None.
Proof.
  intros Hk Hv. unfold attribute_bytes. cbn [fst snd]. change (tag_run None (bytes " " ++ ?x)) with (tag_run None x).
  rewrite tag_run_app, Hk. cbn [mbind option_bind]. change (tag_run None ([equals; dquote] ++ ?x)) with (tag_run (Some dquote) x).
  rewrite tag_run_app, tag_run_value by done. done.
Qed.

Lemma plain_value_quote v : plain_value v = true -> dquote ∉ bytes v.
Proof. unfold plain_value. intros [H _]%andb_true_iff. apply negb_true_iff in H. by apply bset_contains_false. Qed.

Section facts.
Context (unescape : string -> result string string) (utf8_error : list byte -> string) (target : string).
Hypothesis unescape_plain : forall s, ampersand ∉ bytes s -> unescape s = Ok s.

Abbreviation ref_step := (step unescape utf8_error target).

(** The first byte of a tag that is neither a comment nor a processing instruction. *)
Definition plain_head (l : list byte) : Prop := exists h t, l = h :: t /\ h <> "!"%char /\ h <> "?"%char.

Lemma tag_fold body : forall tag q q' r, tag_run q body = Some q' -> (body <> [] -> plain_head (tag ++ body)) ->
  fold_result ref_step (set_lex InTag tag q r) body = Ok (set_lex InTag (tag ++ body) q' r).
Proof.
  induction body as [|b body IH]; intros tg q q' r.
  { intros [= <-] _. by rewrite app_nil_r. }
  intros Hrun Hhead. destruct (Hhead ltac:(done)) as (h & t & Heq & Hh1 & Hh2). cbn [fold_result].
  assert (Hth : exists t', tg ++ [b] = h :: t').
  { destruct tg as [|x tg]; simplify_eq/=; by eexists. }
  destruct Hth as [t' Ht']. unfold step at 2. cbn [set_lex Reference.lex Reference.tag Reference.quote].
  rewrite (bool_decide_false (_ = bytes "!--")) by (rewrite Ht'; cbn; congruence).
  rewrite (bool_decide_false (_ = bytes "?")) by (rewrite Ht'; cbn; congruence).
  assert (Hnext : forall q1, tag_run q1 body = Some q' ->
    fold_result ref_step (set_lex InTag (tg ++ [b]) q1 r) body = Ok (set_lex InTag (tg ++ b :: body) q' r)).
  { intros q1 Hq1. rewrite (IH (tg ++ [b]) q1 q' r Hq1).
    - by rewrite <- app_assoc.
    - intros _. rewrite <- app_assoc. by exists h, t. }
  cbn [tag_run] in Hrun. destruct q as [c|]; [by apply Hnext |].
  destruct (is_quote b); [by apply Hnext |]. destruct (is_byte greater_than b); [done |]. by apply Hnext.
Qed.

Lemma strip_greater_snoc body : strip_greater (body ++ [greater_than]) = body.
Proof.
  unfold strip_greater. assert (ends_with [greater_than] (body ++ [greater_than]) = true) as ->.
  { unfold ends_with. rewrite rev_app_distr. apply starts_with_spec. by eexists. }
  apply removelast_last.
Qed.

(** A whole tag outside of a file. *)
Lemma whole_tag body r rest : lex r = InText -> tag_run None body = Some None -> plain_head body ->
  fold_result ref_step r ([less_than] ++ body ++ [greater_than] ++ rest) =
  r' ← finish_tag unescape utf8_error target (set_lex InText (body ++ [greater_than]) None r);
  fold_result ref_step r' rest.
Proof.
  intros Hlex Hrun (h & t & Hbody & Hh1 & Hh2). cbn [app fold_result].
  assert (Hstep : ref_step r less_than = Ok (set_lex InTag [] None r)) by (unfold step; by rewrite Hlex).
  rewrite Hstep. cbn [mbind result_mbind]. rewrite fold_result_app, (tag_fold body [] None None r Hrun) by (intros _; by exists h, t).
  cbn [mbind result_mbind fold_result app]. f_equal. unfold step. cbn [set_lex Reference.lex Reference.tag Reference.quote].
  rewrite (bool_decide_false (_ = bytes "!--")) by (rewrite Hbody; cbn; congruence).
  by rewrite (bool_decide_false (_ = bytes "?")) by (rewrite Hbody; cbn; congruence).
Qed.

Lemma take_while_until c v rest : c ∉ v -> take_while (fun b => negb (is_byte c b)) (v ++ c :: rest) = v.
Proof.
  induction v as [|b v IH]; intros Hv; cbn [app take_while].
  - unfold is_byte. by rewrite bool_decide_true.
  - apply not_elem_of_cons in Hv as [Hb Hv]. unfold is_byte at 1. rewrite bool_decide_false by done. cbn [negb].
    by rewrite IH.
Qed.

Lemma pkgid_attribute id rest : plain_value id = true -> valid_utf8 (bytes id) = true ->
  required_raw_attribute unescape utf8_error
    (bytes "package" ++ attribute_bytes ("pkgid", id) ++ rest) (bytes "pkgid") = Ok id.
Proof.
  intros Hid Hutf8. pose proof (plain_value_quote id Hid) as Hq. unfold plain_value in Hid. bool_inv.
  apply bset_contains_false in H0.
  assert (Hloop : forall x, required_raw_attribute unescape utf8_error
    (bytes "package" ++ bytes " " ++ bytes "pkgid" ++ [equals; dquote] ++ x) (bytes "pkgid") =
    decode_raw unescape utf8_error (take_while (fun b => negb (is_byte dquote b)) x)) by reflexivity.
  unfold attribute_bytes. cbn [fst snd]. rewrite <- !app_assoc. rewrite Hloop. cbn [app].
  rewrite take_while_until by done. unfold decode_raw, from_utf8. rewrite Hutf8. cbn.
  by rewrite of_bytes_bytes, unescape_plain.
Qed.

(** Between the packages, and in a package between its files. *)
Definition between (id : option string) (ps : list string) (r : t) : Prop :=
  lex r = InText /\ text r = None /\ package_id r = id /\ providers r = ps.

Lemma newline_ignored id ps r rest : between id ps r ->
  fold_result ref_step r (newline ++ rest) = fold_result ref_step r rest.
Proof.
  intros (H1 & H2 & _). cbn [newline app fold_result]. unfold step at 2. by rewrite H1, H2.
Qed.

(** A tag that means nothing to the scanner. *)
Definition ignored_name (n : string) : Prop :=
  plain_head (bytes n) /\ tag_run None (bytes n) = Some None /\
  forall rest, tag_name (bytes n ++ rest) (bytes "package") = false /\ end_tag_name (bytes n ++ rest) (bytes "package") = false /\
    tag_name (bytes n ++ rest) (bytes "file") = false /\ end_tag_name (bytes n ++ rest) (bytes "file") = false.

Lemma tag_run_attributes attrs : Forall (fun a => tag_run None (bytes a.1) = Some None /\ dquote ∉ bytes a.2) attrs ->
  tag_run None (attributes_bytes attrs) = Some None.
Proof.
  induction attrs as [|[k v] attrs IH]; [done |]. intros [[Hk Hv] Ha]%Forall_cons.
  unfold attributes_bytes. rewrite fmap_cons. cbn [concat]. rewrite tag_run_app, (tag_run_quoted k v Hk Hv). by apply IH.
Qed.

Lemma plain_head_app a b : plain_head a -> plain_head (a ++ b).
Proof. intros (h & t & -> & ?). by exists h, (t ++ b). Qed.

Lemma tag_read n attrs closing r rest : lex r = InText -> plain_head (bytes n) -> tag_run None (bytes n) = Some None ->
  Forall (fun a => tag_run None (bytes a.1) = Some None /\ dquote ∉ bytes a.2) attrs ->
  tag_run None closing = Some None ->
  fold_result ref_step r (tag_bytes n attrs closing ++ rest) =
  r' ← finish_tag unescape utf8_error target
         (set_lex InText ((bytes n ++ attributes_bytes attrs ++ closing) ++ [greater_than]) None r);
  fold_result ref_step r' rest.
Proof.
  intros Hlex Hhead Hn Hattrs Hclosing. unfold tag_bytes. rewrite <- (app_assoc [less_than]), <- (app_assoc (bytes n ++ _)).
  apply whole_tag; [done | | by apply plain_head_app].
  rewrite tag_run_app, Hn. cbn [mbind option_bind]. rewrite tag_run_app, tag_run_attributes by done. done.
Qed.

Lemma ignored_tag n attrs closing id ps r rest : ignored_name n -> between id ps r ->
  Forall (fun a => tag_run None (bytes a.1) = Some None /\ dquote ∉ bytes a.2) attrs ->
  tag_run None closing = Some None ->
  exists r', between id ps r' /\
    fold_result ref_step r (tag_bytes n attrs closing ++ rest) = fold_result ref_step r' rest.
Proof.
  intros (Hhead & Hrun & Hnames) (H1 & H2 & H3 & H4) Hattrs Hclosing.
  rewrite tag_read by done. unfold finish_tag. cbn [set_lex Reference.tag]. rewrite strip_greater_snoc.
  destruct (Hnames (attributes_bytes attrs ++ closing)) as (-> & -> & -> & ->). eexists. split; [| reflexivity].
  by split_and!.
Qed.

Lemma plain_attribute k v : tag_run None (bytes k) = Some None -> plain_value v = true ->
  tag_run None (bytes (k, v).1) = Some None /\ dquote ∉ bytes (k, v).2.
Proof. intros Hk Hv. split; [done | by apply plain_value_quote]. Qed.

Lemma package_tag id nm ar ps r rest : between None ps r ->
  plain_value id = true -> valid_utf8 (bytes id) = true -> plain_value nm = true -> plain_value ar = true ->
  exists r', between (Some id) ps r' /\
    fold_result ref_step r (tag_bytes "package" [("pkgid", id); ("name", nm); ("arch", ar)] [] ++ rest) =
    fold_result ref_step r' rest.
Proof.
  intros (H1 & H2 & H3 & H4) Hid Hutf8 Hnm Har.
  rewrite tag_read; [| done | by exists "p"%char, (bytes "ackage") | done |
    repeat constructor; by apply plain_value_quote | done].
  unfold finish_tag. cbn [set_lex Reference.tag]. rewrite strip_greater_snoc, app_nil_r.
  unfold attributes_bytes. cbn [fmap list_fmap concat]. rewrite <- ?app_assoc.
  assert (Hname : forall x, tag_name (bytes "package" ++ attribute_bytes ("pkgid", id) ++ x) (bytes "package") = true)
    by reflexivity.
  rewrite Hname, pkgid_attribute by done. cbn [mbind result_mbind]. eexists. split; [| reflexivity]. by split_and!.
Qed.

Lemma end_package_tag id ps r rest : between id ps r ->
  exists r', between None ps r' /\
    fold_result ref_step r (tag_bytes "/package" [] [] ++ rest) = fold_result ref_step r' rest.
Proof.
  intros (H1 & H2 & H3 & H4). rewrite tag_read; [| done | by exists "/"%char, (bytes "package") | done | constructor | done].
  unfold finish_tag. cbn [set_lex Reference.tag]. rewrite strip_greater_snoc. eexists. split; [| reflexivity]. by split_and!.
Qed.

Lemma literal_plain l : ampersand ∉ l -> literal l = l.
Proof.
  unfold literal. induction l as [|b l IH]; [done |]. intros [Hb Hl]%not_elem_of_cons. cbn [take_while].
  unfold is_byte at 1. rewrite bool_decide_false by done. cbn [negb]. by rewrite IH.
Qed.

Lemma plain_path_target f : plain_path f = true -> is_target unescape utf8_error target (bytes f) = Ok (bool_decide (f = target)).
Proof.
  unfold plain_path. intros Hf. bool_inv. apply bset_contains_false in H1. unfold is_target. rewrite literal_plain by done.
  assert (Heq : bool_decide (bytes f = bytes target) = bool_decide (f = target)).
  { apply bool_decide_ext. split; [apply bytes_inj | by intros ->]. }
  destruct (starts_with (bytes f) (bytes target)) eqn:Hs; cbn [negb].
  - by rewrite bool_decide_true, Heq.
  - rewrite <- Heq, bool_decide_false; [done |]. intros E. rewrite E in Hs.
    apply not_true_iff_false in Hs. destruct Hs. apply starts_with_spec. exists []. by rewrite app_nil_r.
Qed.

Lemma file_read f id ps r rest : plain_path f = true -> between (Some id) ps r ->
  exists r', between (Some id) (ps ++ if bool_decide (f = target) then [id] else []) r' /\
    fold_result ref_step r (file_bytes f ++ rest) = fold_result ref_step r' rest.
Proof.
  intros Hf (H1 & H2 & H3 & H4). pose proof (plain_path_target f Hf) as Htarget. unfold plain_path in Hf. bool_inv.
  apply bset_contains_false in H. apply N.leb_le in H0.
  unfold file_bytes. rewrite <- !app_assoc. cbn [app fold_result].
  assert (Hopen : forall r, lex r = InText -> ref_step r less_than = Ok (set_lex InTag [] None r))
    by (intros r0 Hl; unfold step; by rewrite Hl).
  rewrite Hopen by done. cbn [mbind result_mbind]. rewrite ScannerFacts.file_tag, fold_result_app.
  set (r1 := set_text (Some []) (set_lex InText (bytes "file>") None r)).
  assert (Htext : forallb (fun b => negb (is_byte less_than b)) (bytes f) = true).
  { apply forallb_true, Forall_forall. intros b Hb. unfold is_byte. rewrite bool_decide_false; [done |]. by intros ->. }
  pose proof (ScannerFacts.text_fold unescape utf8_error target (bytes f) r1 eq_refl Htext) as Hfold.
  cbn [r1 Reference.text set_text app] in Hfold. fold r1 in Hfold. unfold str_len in H0. apply N.leb_le in H0. rewrite H0 in Hfold. rewrite Hfold.
  cbn [mbind result_mbind fold_result]. rewrite Hopen by done. cbn [mbind result_mbind].
  rewrite ScannerFacts.end_file_tag. unfold close_file. cbn [set_lex Reference.text set_text].
  rewrite Htarget. cbn [mbind result_mbind Reference.package_id Reference.providers set_lex set_text r1].
  rewrite H3, H4. unfold add_provider. case_bool_decide; cbn [ok_or mbind result_mbind].
  - eexists. split; [| apply (newline_ignored (Some id) (ps ++ [id])); by split_and!]. by split_and!.
  - rewrite app_nil_r. eexists. split; [| apply (newline_ignored (Some id) ps); by split_and!]. by split_and!.
Qed.

Definition file_providers (id : string) (f : string) : list string := if bool_decide (f = target) then [id] else [].
Definition package_providers (p : FileListPackage.t) : list string :=
  concat (file_providers (FileListPackage.package_id p) <$> FileListPackage.files p).

Lemma files_read id fs rest : forall ps r, forallb plain_path fs = true -> between (Some id) ps r ->
  exists r', between (Some id) (ps ++ concat (file_providers id <$> fs)) r' /\
    fold_result ref_step r (concat (file_bytes <$> fs) ++ rest) = fold_result ref_step r' rest.
Proof.
  induction fs as [|f fs IH]; intros ps r; [intros _ Hb; exists r; by rewrite app_nil_r |].
  cbn [forallb]. intros [Hf Hfs]%andb_true_iff Hb. rewrite !fmap_cons. cbn [concat]. rewrite <- app_assoc.
  destruct (file_read f id ps r (concat (file_bytes <$> fs) ++ rest) Hf Hb) as (r1 & Hb1 & ->).
  destruct (IH _ r1 Hfs Hb1) as (r2 & Hb2 & ->). exists r2. rewrite <- app_assoc in Hb2. done.
Qed.

Lemma package_read p ps r rest : plain_package p = true -> between None ps r ->
  exists r', between None (ps ++ package_providers p) r' /\
    fold_result ref_step r (package_bytes p ++ rest) = fold_result ref_step r' rest.
Proof.
  intros Hp Hb. unfold plain_package in Hp. bool_inv. unfold package_bytes. rewrite <- !app_assoc.
  edestruct (package_tag (FileListPackage.package_id p) (FileListPackage.name p) (FileListPackage.arch p) ps r)
    as (r1 & Hb1 & ->); [done..|]. rewrite (newline_ignored _ _ _ _ Hb1).
  edestruct (ignored_tag "version" [("epoch", FileListPackage.epoch p); ("ver", FileListPackage.version p);
    ("rel", FileListPackage.release p)] (bytes "/") (Some (FileListPackage.package_id p)) ps r1) as (r2 & Hb2 & ->).
  { split_and!; [by exists "v"%char, (bytes "ersion") | done | done]. }
  { done. }
  { repeat constructor; by apply plain_value_quote. }
  { done. }
  rewrite (newline_ignored _ _ _ _ Hb2).
  edestruct (files_read (FileListPackage.package_id p) (FileListPackage.files p)) as (r3 & Hb3 & ->); [done | done |].
  edestruct (end_package_tag (Some (FileListPackage.package_id p))) as (r4 & Hb4 & ->); [done |].
  rewrite (newline_ignored _ _ _ _ Hb4). by exists r4.
Qed.

Lemma packages_read pkgs rest : forall ps r, forallb plain_package pkgs = true -> between None ps r ->
  exists r', between None (ps ++ concat (package_providers <$> pkgs)) r' /\
    fold_result ref_step r (concat (package_bytes <$> pkgs) ++ rest) = fold_result ref_step r' rest.
Proof.
  induction pkgs as [|p pkgs IH]; intros ps r; [intros _ Hb; exists r; by rewrite app_nil_r |].
  cbn [forallb]. intros [Hp Hps]%andb_true_iff Hb. rewrite !fmap_cons. cbn [concat]. rewrite <- app_assoc.
  destruct (package_read p ps r (concat (package_bytes <$> pkgs) ++ rest) Hp Hb) as (r1 & Hb1 & ->).
  destruct (IH _ r1 Hps Hb1) as (r2 & Hb2 & ->). exists r2. rewrite <- app_assoc in Hb2. done.
Qed.

Lemma elem_of_providers id pkgs : id ∈ concat (package_providers <$> pkgs) <->
  exists p, p ∈ pkgs /\ FileListPackage.package_id p = id /\ target ∈ FileListPackage.files p.
Proof.
  rewrite list_elem_of_In, in_concat. setoid_rewrite <- list_elem_of_In. split.
  - intros (x & (p & -> & Hp)%list_elem_of_fmap & Hin). exists p. split; [done |]. unfold package_providers in Hin.
    rewrite list_elem_of_In, in_concat in Hin. setoid_rewrite <- list_elem_of_In in Hin.
    destruct Hin as (y & (f & -> & Hf)%list_elem_of_fmap & Hin). unfold file_providers in Hin. case_bool_decide; [| by apply not_elem_of_nil in Hin].
    apply list_elem_of_singleton in Hin as ->. by subst.
  - intros (p & Hp & <- & Hf). exists (package_providers p). split; [by apply list_elem_of_fmap_2 |].
    unfold package_providers. rewrite list_elem_of_In, in_concat. setoid_rewrite <- list_elem_of_In.
    exists (file_providers (FileListPackage.package_id p) target). split; [by apply list_elem_of_fmap_2 |].
    unfold file_providers. rewrite bool_decide_true by done. left.
Qed.
End facts.
End DocumentFacts.

(** In a document as repository tools write it, whatever the reads, the scanner returns the
    identifiers of exactly the packages that list the path, each once and in order. *)
Theorem scan_document_exact (unescape : string -> result string string) (utf8_error : list byte -> string)
    (target count : string) (pkgs : list FileListPackage.t) (chunks : list (list byte))
    (Hunescape : forall s, ampersand ∉ bytes s -> unescape s = Ok s)
    (Hcount : Writer.plain_value count = true) (Hpkgs : forallb Writer.plain_package pkgs = true)
    (Hchunks : Forall (fun c => c <> []) chunks) (Hdoc : concat chunks = Writer.document_bytes count pkgs) :
  exists l, scan_validated_filelists_xml_path unescape utf8_error target (Ok <$> chunks) = Ok l /\
    StronglySorted clt l /\
    forall id, id ∈ l <-> exists p, p ∈ pkgs /\ FileListPackage.package_id p = id /\ target ∈ FileListPackage.files p.
Proof.
  assert (Hscan : Reference.scan unescape utf8_error target (concat chunks) =
    Ok (dedup (sort (concat (DocumentFacts.package_providers target <$> pkgs))))).
  { rewrite Hdoc. unfold Reference.scan, Writer.document_bytes.
    edestruct (DocumentFacts.ignored_tag unescape utf8_error target "filelists") as (r1 & Hb1 & ->).
    { split_and!; [by exists "f"%char, (bytes "ilelists") | done | done]. }
    { by split_and!. }
    { repeat constructor; [| by apply DocumentFacts.plain_value_quote].
      apply DocumentFacts.plain_value_quote. vm_compute. reflexivity. }
    { done. }
    rewrite (DocumentFacts.newline_ignored _ _ _ _ _ _ _ Hb1).
    edestruct (DocumentFacts.packages_read unescape utf8_error target Hunescape pkgs) as (r2 & Hb2 & ->); [done | done |].
    edestruct (DocumentFacts.ignored_tag unescape utf8_error target "/filelists" [] []) as (r3 & Hb3 & ->).
    { split_and!; [by exists "/"%char, (bytes "filelists") | done | done]. }
    { done. } { done. } { done. }
    rewrite <- (app_nil_r Writer.newline), (DocumentFacts.newline_ignored _ _ _ _ _ _ _ Hb3).
    destruct Hb3 as (H1 & H2 & H3 & H4). cbn [fold_result mbind result_mbind]. unfold Reference.finish.
    by rewrite H1, H2, H3, H4. }
  pose proof (ScannerFacts.scan_loop_agrees unescape utf8_error target chunks Scanner.new Reference.new) as Hag.
  specialize (Hag ltac:(by split_and!) Hchunks). unfold Reference.scan in Hscan. rewrite Hscan in Hag.
  unfold scan_validated_filelists_xml_path. destruct (scan_loop _ _ _ _ _) as [l|e]; [| done]. cbn in Hag. subst l.
  eexists. split; [reflexivity |]. split; [apply dedup_sort_sorted |]. intros id.
  rewrite elem_of_dedup_sort. apply DocumentFacts.elem_of_providers.
Qed.

Module ScanExamples.
Definition packages : list FileListPackage.t :=
  [ FileListPackage.mk "cc" "bash" "x86_64" "0" "5.2" "1" ["/usr/bin/sh"; "/usr/bin/bash"];
    FileListPackage.mk "aa" "busybox" "x86_64" "0" "1.36" "2" ["/usr/bin/busybox"; "/usr/bin/sh"];
    FileListPackage.mk "bb" "shadow" "x86_64" "2" "4" "1" ["/usr/bin/sh.old"] ].
Definition document : list byte := Writer.document_bytes "3" packages.
(** Reads of seven bytes. *)
Fixpoint pieces (fuel : nat) (l : list byte) : list (list byte) :=
  match fuel, l with
  | S fuel, _ :: _ => take 7 l :: pieces fuel (drop 7 l)
  | _, _ => []
  end.
Definition reads : list (list byte) := pieces (length document) document.
End ScanExamples.

Lemma scan_refines_reference_witness :
  Forall (fun c => c <> []) ScanExamples.reads /\
  Reference.scan Ok (fun _ => "") "/usr/bin/sh" (concat ScanExamples.reads) = Ok ["aa"; "cc"] /\
  scan_validated_filelists_xml_path Ok (fun _ => "") "/usr/bin/sh" (Ok <$> ScanExamples.reads) = Ok ["aa"; "cc"].
Proof.
  assert (H : Forall (fun c : list byte => c <> []) ScanExamples.reads)
    by (apply (bool_decide_unpack _); vm_compute; reflexivity).
  assert (Hr : Reference.scan Ok (fun _ => "") "/usr/bin/sh" (concat ScanExamples.reads) = Ok ["aa"; "cc"])
    by (vm_compute; reflexivity).
  pose proof (scan_refines_reference Ok (fun _ => "") "/usr/bin/sh" ScanExamples.reads H) as Hag.
  rewrite Hr in Hag. split; [exact H |]. split; [exact Hr |].
  destruct (scan_validated_filelists_xml_path _ _ _ _) as [l|e]; [by rewrite Hag | destruct Hag].
Defined.

Lemma scan_document_exact_witness :
  forallb Writer.plain_package ScanExamples.packages = true /\
  exists l, scan_validated_filelists_xml_path Ok (fun _ => "") "/usr/bin/sh" (Ok <$> ScanExamples.reads) = Ok l /\
    "aa" ∈ l.
Proof.
  assert (Hp : forallb Writer.plain_package ScanExamples.packages = true) by (vm_compute; reflexivity).
  split; [exact Hp |].
  destruct (scan_document_exact Ok (fun _ => "") "/usr/bin/sh" "3" ScanExamples.packages ScanExamples.reads
    (fun s _ => eq_refl) eq_refl Hp) as (l & Hl & _ & Hin).
  - apply (bool_decide_unpack _); vm_compute; reflexivity.
  - vm_compute. reflexivity.
  - exists l. split; [exact Hl |]. apply Hin. eexists. split; [right; left |]. split; [reflexivity | right; left].
Defined.

(** The scanner reads the tags of a CDATA section, which the reader of the events skips. *)
Example scanner_reads_cdata :
  scan_validated_filelists_xml_path Ok (fun _ => "") "/f"
    [Ok (bytes "<filelists><![CDATA[x> <package pkgid='p'><file>/f</file></package>]]></filelists>")] = Ok ["p"].
Proof. vm_compute. reflexivity. Qed.
