(* ===== verification/Primary.v ===== *)
(** * primary.xml ([dnfast-metadata]: primary.rs, relations.rs)

    The reader of the packages of a repository, as a fold over the events of the document, in its
    two modes: keeping the complete records, or only what searching and identifying needs. *)
From Stdlib Require Import Ascii.
From S2P Require Import Prelude.
From S2P Require Import RustStr.
From S2P Require Import RustText.
From S2P Require Import UnixPath.
From S2P Require Import Metadata.
From S2P Require Import Xml.
From S2P Require Import Filelists.

#[local] Open Scope N_scope.

Definition MAX_RELATIONS : N := 20000000.
Definition MAX_RELATIONS_PER_PACKAGE : N := 16384.
Definition COMMON_NAMESPACE : string := "http://linux.duke.edu/metadata/common".
Definition RPM_NAMESPACE : string := "http://linux.duke.edu/metadata/rpm".

(** ** Relations *)

Definition relation_flags (value : option string) : xresult (option RelationFlags.t) :=
  match value with
  | None => Ok None
  | Some value =>
      if bool_decide (value = "EQ") then Ok (Some RelationFlags.Equal)
      else if bool_decide (value = "LT") then Ok (Some RelationFlags.Less)
      else if bool_decide (value = "LE") then Ok (Some RelationFlags.LessEqual)
      else if bool_decide (value = "GT") then Ok (Some RelationFlags.Greater)
      else if bool_decide (value = "GE") then Ok (Some RelationFlags.GreaterEqual)
      else xml ("unsupported relation flags: " +:+ value)
  end.

Definition parse_relation (e : element) : xresult Relation.t :=
  relation_name ← attribute_streaming e "name";
  relation_name ← ok_or (MetadataError.Xml "relation missing name") relation_name;
  flags ← attribute_streaming e "flags";
  flags ← relation_flags flags;
  epoch ← attribute_streaming e "epoch";
  version ← attribute_streaming e "ver";
  release ← attribute_streaming e "rel";
  pre ← attribute_streaming e "pre";
  Ok (Relation.mk relation_name flags epoch version release (bool_decide (pre = Some "1"))).

(** ** Data *)

Module PrimaryFileRecord.
Record t : Type := mk { path_sha256 : list byte; package_ordinal : N }.
End PrimaryFileRecord.

Module ValidatedPrimary.
Record t : Type := mk {
  packages : list Package.t;
  identities : list PrimaryPackageIdentity.t;
  primary_files : list PrimaryFileRecord.t
}.
End ValidatedPrimary.

Module PrimaryBuilder.
Record t : Type := mk {
  name : string;
  arch : string;
  epoch : string;
  version : string;
  release : string;
  summary : string;
  checksum : string;
  location : string;
  description : string;
  vendor : string;
  build_host : string;
  source_rpm : string;
  package_size : N;
  installed_size : N;
  archive_size : N;
  build_time : N;
  relation_count : N;
  provides : list Relation.t;
  requires : list Relation.t;
  recommends : list Relation.t;
  suggests : list Relation.t;
  supplements : list Relation.t;
  enhances : list Relation.t;
  conflicts : list Relation.t;
  obsoletes : list Relation.t;
  files : list string
}.
Definition set_name (v : string) (x : t) : t :=
  mk v (arch x) (epoch x) (version x) (release x) (summary x) (checksum x) (location x) (description x)
    (vendor x) (build_host x) (source_rpm x) (package_size x) (installed_size x) (archive_size x)
    (build_time x) (relation_count x) (provides x) (requires x) (recommends x) (suggests x) (supplements x)
    (enhances x) (conflicts x) (obsoletes x) (files x).
Definition set_arch (v : string) (x : t) : t :=
  mk (name x) v (epoch x) (version x) (release x) (summary x) (checksum x) (location x) (description x)
    (vendor x) (build_host x) (source_rpm x) (package_size x) (installed_size x) (archive_size x)
    (build_time x) (relation_count x) (provides x) (requires x) (recommends x) (suggests x) (supplements x)
    (enhances x) (conflicts x) (obsoletes x) (files x).
Definition set_summary (v : string) (x : t) : t :=
  mk (name x) (arch x) (epoch x) (version x) (release x) v (checksum x) (location x) (description x)
    (vendor x) (build_host x) (source_rpm x) (package_size x) (installed_size x) (archive_size x)
    (build_time x) (relation_count x) (provides x) (requires x) (recommends x) (suggests x) (supplements x)
    (enhances x) (conflicts x) (obsoletes x) (files x).
Definition set_checksum (v : string) (x : t) : t :=
  mk (name x) (arch x) (epoch x) (version x) (release x) (summary x) v (location x) (description x) (vendor x)
    (build_host x) (source_rpm x) (package_size x) (installed_size x) (archive_size x) (build_time x)
    (relation_count x) (provides x) (requires x) (recommends x) (suggests x) (supplements x) (enhances x)
    (conflicts x) (obsoletes x) (files x).
Definition set_location (v : string) (x : t) : t :=
  mk (name x) (arch x) (epoch x) (version x) (release x) (summary x) (checksum x) v (description x) (vendor x)
    (build_host x) (source_rpm x) (package_size x) (installed_size x) (archive_size x) (build_time x)
    (relation_count x) (provides x) (requires x) (recommends x) (suggests x) (supplements x) (enhances x)
    (conflicts x) (obsoletes x) (files x).
Definition set_description (v : string) (x : t) : t :=
  mk (name x) (arch x) (epoch x) (version x) (release x) (summary x) (checksum x) (location x) v (vendor x)
    (build_host x) (source_rpm x) (package_size x) (installed_size x) (archive_size x) (build_time x)
    (relation_count x) (provides x) (requires x) (recommends x) (suggests x) (supplements x) (enhances x)
    (conflicts x) (obsoletes x) (files x).
Definition set_vendor (v : string) (x : t) : t :=
  mk (name x) (arch x) (epoch x) (version x) (release x) (summary x) (checksum x) (location x) (description x)
    v (build_host x) (source_rpm x) (package_size x) (installed_size x) (archive_size x) (build_time x)
    (relation_count x) (provides x) (requires x) (recommends x) (suggests x) (supplements x) (enhances x)
    (conflicts x) (obsoletes x) (files x).
Definition set_build_host (v : string) (x : t) : t :=
  mk (name x) (arch x) (epoch x) (version x) (release x) (summary x) (checksum x) (location x) (description x)
    (vendor x) v (source_rpm x) (package_size x) (installed_size x) (archive_size x) (build_time x)
    (relation_count x) (provides x) (requires x) (recommends x) (suggests x) (supplements x) (enhances x)
    (conflicts x) (obsoletes x) (files x).
Definition set_source_rpm (v : string) (x : t) : t :=
  mk (name x) (arch x) (epoch x) (version x) (release x) (summary x) (checksum x) (location x) (description x)
    (vendor x) (build_host x) v (package_size x) (installed_size x) (archive_size x) (build_time x)
    (relation_count x) (provides x) (requires x) (recommends x) (suggests x) (supplements x) (enhances x)
    (conflicts x) (obsoletes x) (files x).
Definition set_build_time (v : N) (x : t) : t :=
  mk (name x) (arch x) (epoch x) (version x) (release x) (summary x) (checksum x) (location x) (description x)
    (vendor x) (build_host x) (source_rpm x) (package_size x) (installed_size x) (archive_size x) v
    (relation_count x) (provides x) (requires x) (recommends x) (suggests x) (supplements x) (enhances x)
    (conflicts x) (obsoletes x) (files x).
Definition set_relation_count (v : N) (x : t) : t :=
  mk (name x) (arch x) (epoch x) (version x) (release x) (summary x) (checksum x) (location x) (description x)
    (vendor x) (build_host x) (source_rpm x) (package_size x) (installed_size x) (archive_size x)
    (build_time x) v (provides x) (requires x) (recommends x) (suggests x) (supplements x) (enhances x)
    (conflicts x) (obsoletes x) (files x).
Definition set_version (v0 : string) (v1 : string) (v2 : string) (x : t) : t :=
  mk (name x) (arch x) v0 v1 v2 (summary x) (checksum x) (location x) (description x) (vendor x)
    (build_host x) (source_rpm x) (package_size x) (installed_size x) (archive_size x) (build_time x)
    (relation_count x) (provides x) (requires x) (recommends x) (suggests x) (supplements x) (enhances x)
    (conflicts x) (obsoletes x) (files x).
Definition set_sizes (v0 : N) (v1 : N) (v2 : N) (x : t) : t :=
  mk (name x) (arch x) (epoch x) (version x) (release x) (summary x) (checksum x) (location x) (description x)
    (vendor x) (build_host x) (source_rpm x) v0 v1 v2 (build_time x) (relation_count x) (provides x)
    (requires x) (recommends x) (suggests x) (supplements x) (enhances x) (conflicts x) (obsoletes x)
    (files x).
Definition set_provides (v : list Relation.t) (x : t) : t :=
  mk (name x) (arch x) (epoch x) (version x) (release x) (summary x) (checksum x) (location x) (description x)
    (vendor x) (build_host x) (source_rpm x) (package_size x) (installed_size x) (archive_size x)
    (build_time x) (relation_count x) v (requires x) (recommends x) (suggests x) (supplements x) (enhances x)
    (conflicts x) (obsoletes x) (files x).
Definition set_requires (v : list Relation.t) (x : t) : t :=
  mk (name x) (arch x) (epoch x) (version x) (release x) (summary x) (checksum x) (location x) (description x)
    (vendor x) (build_host x) (source_rpm x) (package_size x) (installed_size x) (archive_size x)
    (build_time x) (relation_count x) (provides x) v (recommends x) (suggests x) (supplements x) (enhances x)
    (conflicts x) (obsoletes x) (files x).
Definition set_recommends (v : list Relation.t) (x : t) : t :=
  mk (name x) (arch x) (epoch x) (version x) (release x) (summary x) (checksum x) (location x) (description x)
    (vendor x) (build_host x) (source_rpm x) (package_size x) (installed_size x) (archive_size x)
    (build_time x) (relation_count x) (provides x) (requires x) v (suggests x) (supplements x) (enhances x)
    (conflicts x) (obsoletes x) (files x).
Definition set_suggests (v : list Relation.t) (x : t) : t :=
  mk (name x) (arch x) (epoch x) (version x) (release x) (summary x) (checksum x) (location x) (description x)
    (vendor x) (build_host x) (source_rpm x) (package_size x) (installed_size x) (archive_size x)
    (build_time x) (relation_count x) (provides x) (requires x) (recommends x) v (supplements x) (enhances x)
    (conflicts x) (obsoletes x) (files x).
Definition set_supplements (v : list Relation.t) (x : t) : t :=
  mk (name x) (arch x) (epoch x) (version x) (release x) (summary x) (checksum x) (location x) (description x)
    (vendor x) (build_host x) (source_rpm x) (package_size x) (installed_size x) (archive_size x)
    (build_time x) (relation_count x) (provides x) (requires x) (recommends x) (suggests x) v (enhances x)
    (conflicts x) (obsoletes x) (files x).
Definition set_enhances (v : list Relation.t) (x : t) : t :=
  mk (name x) (arch x) (epoch x) (version x) (release x) (summary x) (checksum x) (location x) (description x)
    (vendor x) (build_host x) (source_rpm x) (package_size x) (installed_size x) (archive_size x)
    (build_time x) (relation_count x) (provides x) (requires x) (recommends x) (suggests x) (supplements x) v
    (conflicts x) (obsoletes x) (files x).
Definition set_conflicts (v : list Relation.t) (x : t) : t :=
  mk (name x) (arch x) (epoch x) (version x) (release x) (summary x) (checksum x) (location x) (description x)
    (vendor x) (build_host x) (source_rpm x) (package_size x) (installed_size x) (archive_size x)
    (build_time x) (relation_count x) (provides x) (requires x) (recommends x) (suggests x) (supplements x)
    (enhances x) v (obsoletes x) (files x).
Definition set_obsoletes (v : list Relation.t) (x : t) : t :=
  mk (name x) (arch x) (epoch x) (version x) (release x) (summary x) (checksum x) (location x) (description x)
    (vendor x) (build_host x) (source_rpm x) (package_size x) (installed_size x) (archive_size x)
    (build_time x) (relation_count x) (provides x) (requires x) (recommends x) (suggests x) (supplements x)
    (enhances x) (conflicts x) v (files x).
Definition set_files (v : list string) (x : t) : t :=
  mk (name x) (arch x) (epoch x) (version x) (release x) (summary x) (checksum x) (location x) (description x)
    (vendor x) (build_host x) (source_rpm x) (package_size x) (installed_size x) (archive_size x)
    (build_time x) (relation_count x) (provides x) (requires x) (recommends x) (suggests x) (supplements x)
    (enhances x) (conflicts x) (obsoletes x) v.
Definition default : t :=
  mk "" "" "" "" "" "" "" "" "" "" "" "" 0 0 0 0 0 [] [] [] [] [] [] [] [] [].

(** The record a finished builder makes, its epoch settled. *)
Definition complete (epoch : string) (b : t) : CompletePackage.t :=
  CompletePackage.mk (name b) (arch b) epoch (version b) (release b) (summary b) (checksum b) (location b)
    (description b) (vendor b) (build_host b) (source_rpm b) (package_size b) (installed_size b)
    (archive_size b) (build_time b) (provides b) (requires b) (recommends b) (suggests b) (supplements b)
    (enhances b) (conflicts b) (obsoletes b) (files b).
Definition identity (epoch : string) (b : t) : PrimaryPackageIdentity.t :=
  PrimaryPackageIdentity.mk (checksum b) (name b) (arch b) epoch (version b) (release b).
Definition search_package (epoch : string) (b : t) : Package.t :=
  Package.mk (name b) (arch b) epoch (version b) (release b) (summary b).
End PrimaryBuilder.

Module PrimaryState.
Record t : Type := mk {
  current : option PrimaryBuilder.t;
  field : option string;
  relation_group : option string;
  packages : list CompletePackage.t;
  search_packages : list Package.t;
  identities : list PrimaryPackageIdentity.t;
  primary_files : list PrimaryFileRecord.t;
  retain_complete : bool;
  parsed_packages : N;
  root_seen : bool;
  root_closed : bool;
  rpm_namespace : bool;
  declared : option N;
  declaration_seen : bool;
  relations : N;
  paths : N
}.
Definition set_current (v : option PrimaryBuilder.t) (x : t) : t :=
  mk v (field x) (relation_group x) (packages x) (search_packages x) (identities x) (primary_files x)
    (retain_complete x) (parsed_packages x) (root_seen x) (root_closed x) (rpm_namespace x) (declared x)
    (declaration_seen x) (relations x) (paths x).
Definition set_field (v : option string) (x : t) : t :=
  mk (current x) v (relation_group x) (packages x) (search_packages x) (identities x) (primary_files x)
    (retain_complete x) (parsed_packages x) (root_seen x) (root_closed x) (rpm_namespace x) (declared x)
    (declaration_seen x) (relations x) (paths x).
Definition set_relation_group (v : option string) (x : t) : t :=
  mk (current x) (field x) v (packages x) (search_packages x) (identities x) (primary_files x)
    (retain_complete x) (parsed_packages x) (root_seen x) (root_closed x) (rpm_namespace x) (declared x)
    (declaration_seen x) (relations x) (paths x).
Definition add_complete (v : list CompletePackage.t) (x : t) : t :=
  mk (current x) (field x) (relation_group x) v (search_packages x) (identities x) (primary_files x)
    (retain_complete x) (parsed_packages x) (root_seen x) (root_closed x) (rpm_namespace x) (declared x)
    (declaration_seen x) (relations x) (paths x).
Definition add_projection (v0 : list Package.t) (v1 : list PrimaryPackageIdentity.t) (v2 : list PrimaryFileRecord.t) (x : t) : t :=
  mk (current x) (field x) (relation_group x) (packages x) v0 v1 v2 (retain_complete x) (parsed_packages x)
    (root_seen x) (root_closed x) (rpm_namespace x) (declared x) (declaration_seen x) (relations x) (paths x).
Definition set_parsed (v : N) (x : t) : t :=
  mk (current x) (field x) (relation_group x) (packages x) (search_packages x) (identities x)
    (primary_files x) (retain_complete x) v (root_seen x) (root_closed x) (rpm_namespace x) (declared x)
    (declaration_seen x) (relations x) (paths x).
Definition see_root (v0 : bool) (v1 : option N) (v2 : bool) (x : t) : t :=
  mk (current x) (field x) (relation_group x) (packages x) (search_packages x) (identities x)
    (primary_files x) (retain_complete x) (parsed_packages x) v2 (root_closed x) v0 v1 (declaration_seen x)
    (relations x) (paths x).
Definition close_root (v : bool) (x : t) : t :=
  mk (current x) (field x) (relation_group x) (packages x) (search_packages x) (identities x)
    (primary_files x) (retain_complete x) (parsed_packages x) (root_seen x) v (rpm_namespace x) (declared x)
    (declaration_seen x) (relations x) (paths x).
Definition see_declaration (v : bool) (x : t) : t :=
  mk (current x) (field x) (relation_group x) (packages x) (search_packages x) (identities x)
    (primary_files x) (retain_complete x) (parsed_packages x) (root_seen x) (root_closed x) (rpm_namespace x)
    (declared x) v (relations x) (paths x).
Definition set_relations (v : N) (x : t) : t :=
  mk (current x) (field x) (relation_group x) (packages x) (search_packages x) (identities x)
    (primary_files x) (retain_complete x) (parsed_packages x) (root_seen x) (root_closed x) (rpm_namespace x)
    (declared x) (declaration_seen x) v (paths x).
Definition set_paths (v : N) (x : t) : t :=
  mk (current x) (field x) (relation_group x) (packages x) (search_packages x) (identities x)
    (primary_files x) (retain_complete x) (parsed_packages x) (root_seen x) (root_closed x) (rpm_namespace x)
    (declared x) (declaration_seen x) (relations x) v.
Definition new (retain_complete : bool) : t :=
  mk None None None [] [] [] [] retain_complete 0 false false false None false 0 0.
Definition outside (s : t) : bool := negb (root_seen s) || root_closed s.
End PrimaryState.

Abbreviation builder := PrimaryBuilder.t.
Abbreviation state := PrimaryState.t.

(** ** Checks of names and paths *)

(** What follows the last colon. *)
Definition local_name (n : string) : string :=
  match str_rsplit_once ":"%char n with Some (_, local) => local | None => n end.

Definition validate_prefix (n : string) (rpm_namespace : bool) : xresult unit :=
  match str_split_once ":" n with
  | Some (prefix, _) =>
      if negb (bool_decide (prefix = "rpm")) || negb rpm_namespace
      then xml "unexpected primary namespace prefix" else Ok tt
  | None => Ok tt
  end.

Definition validate_package_location (href : string) : xresult unit :=
  if str_is_empty href
     || str_starts_with "/" href
     || str_contains "//" href
     || str_contains "\" href
     || str_contains "?" href
     || str_contains "#" href
     || str_contains "%" href
     || existsb char_is_control (chars href)
     || existsb (fun part => str_is_empty part || bool_decide (part = ".") || bool_decide (part = "..")) (segments href)
     || str_contains "://" href
  then Err (MetadataError.UnsafeLocation href) else Ok tt.

Definition validate_file_path (path : string) : xresult unit :=
  if negb (str_starts_with "/" path)
     || str_contains "//" path
     || existsb char_is_control (chars path)
     || existsb (fun part => bool_decide (part = ".") || bool_decide (part = "..")) (segments path)
  then Err (MetadataError.UnsafeLocation path) else Ok tt.

Definition resolved_is_valid (ns : ResolveResult) (n : string) : bool :=
  match ns with
  | Bound uri => bool_decide (uri = if prefixed n then RPM_NAMESPACE else COMMON_NAMESPACE)
  | _ => false
  end.

Definition resolved_ok (ns : ResolveResult) (n : string) : xresult unit :=
  if resolved_is_valid ns n then Ok tt else xml "unexpected primary resolved namespace".

Definition check_namespace (e : element) : xresult unit :=
  ns ← attribute_streaming e "xmlns";
  match ns with
  | Some value =>
      if negb (bool_decide (value = COMMON_NAMESPACE)) && negb (bool_decide (value = RPM_NAMESPACE))
      then xml "unexpected primary namespace" else Ok tt
  | None => Ok tt
  end.

Definition optional_number (e : element) (n : string) : xresult N :=
  v ← attribute_streaming e n; match v with Some v => parse_number v | None => Ok 0 end.

Definition fill_version (e : element) (b : builder) : xresult builder :=
  epoch ← attribute_streaming e "epoch";
  version ← required e "ver";
  release ← required e "rel";
  Ok (PrimaryBuilder.set_version (default "0" epoch) version release b).

Definition push_relation (b : builder) (group : option string) (r : Relation.t) : xresult builder :=
  match group with
  | None => xml "relation outside group"
  | Some group =>
      if bool_decide (group = "provides") then Ok (PrimaryBuilder.set_provides (PrimaryBuilder.provides b ++ [r]) b)
      else if bool_decide (group = "requires") then Ok (PrimaryBuilder.set_requires (PrimaryBuilder.requires b ++ [r]) b)
      else if bool_decide (group = "recommends") then Ok (PrimaryBuilder.set_recommends (PrimaryBuilder.recommends b ++ [r]) b)
      else if bool_decide (group = "suggests") then Ok (PrimaryBuilder.set_suggests (PrimaryBuilder.suggests b ++ [r]) b)
      else if bool_decide (group = "supplements") then Ok (PrimaryBuilder.set_supplements (PrimaryBuilder.supplements b ++ [r]) b)
      else if bool_decide (group = "enhances") then Ok (PrimaryBuilder.set_enhances (PrimaryBuilder.enhances b ++ [r]) b)
      else if bool_decide (group = "conflicts") then Ok (PrimaryBuilder.set_conflicts (PrimaryBuilder.conflicts b ++ [r]) b)
      else if bool_decide (group = "obsoletes") then Ok (PrimaryBuilder.set_obsoletes (PrimaryBuilder.obsoletes b ++ [r]) b)
      else xml "relation outside group"
  end.

(** ** The reader *)

Section reader.
Context (unescape : string -> result string string) (sha256 : list byte -> list byte).

Definition start_root (s : state) (e : element) : xresult state :=
  if negb (bool_decide (name e = "metadata")) then xml "unexpected primary root or namespace"
  else
    ns ← attribute_streaming e "xmlns";
    if negb (bool_decide (ns = Some COMMON_NAMESPACE)) then xml "unexpected primary root or namespace"
    else
      count ← attribute_streaming e "packages";
      count ← ok_or (MetadataError.Xml "missing primary package count") count;
      count ← parse_number count;
      _ ← checked_limit count MAX_PACKAGES "packages";
      rpm ← attribute_streaming e "xmlns:rpm";
      if bool_decide (is_Some rpm) && negb (bool_decide (rpm = Some RPM_NAMESPACE)) then xml "unexpected rpm namespace"
      else Ok (PrimaryState.see_root (bool_decide (is_Some rpm)) (Some count) true s).

(** [<file>] opens a path of the package. *)
Definition start_file (s : state) (b : builder) : xresult state :=
  _ ← checked_increment (N.of_nat (length (PrimaryBuilder.files b))) MAX_FILES_PER_PACKAGE "files per package";
  paths ← checked_increment (PrimaryState.paths s) MAX_FILE_PATHS "file paths";
  Ok (PrimaryState.set_paths paths
        (PrimaryState.set_current (Some (PrimaryBuilder.set_files (PrimaryBuilder.files b ++ [""]) b)) s)).

Definition start (s : state) (e : element) : xresult state :=
  if PrimaryState.root_closed s then xml "content after primary root"
  else if negb (PrimaryState.root_seen s) then start_root s e
  else
    _ ← check_namespace e;
    _ ← validate_prefix (name e) (PrimaryState.rpm_namespace s);
    let local := local_name (name e) in
    if bool_decide (local = "package") then
      if bool_decide (is_Some (PrimaryState.current s)) then xml "nested primary package"
      else
        kind ← attribute_streaming e "type";
        if negb (bool_decide (kind = Some "rpm")) then xml "primary package type is not rpm"
        else Ok (PrimaryState.set_current (Some PrimaryBuilder.default) s)
    else
      match PrimaryState.current s with
      | None => Ok s
      | Some b =>
          if bool_decide (local = "checksum") then
            kind ← attribute_streaming e "type";
            unsupported ← (if negb (bool_decide (kind = Some "sha256")) then Ok true
                           else pkgid ← attribute_streaming e "pkgid"; Ok (negb (bool_decide (pkgid = Some "YES"))));
            if unsupported : bool
            then Err (MetadataError.UnsupportedChecksum "primary package checksum declaration")
            else Ok (PrimaryState.set_field (Some "checksum") s)
          else if bool_decide (local ∈ ["name"; "arch"; "summary"; "description"; "vendor"; "buildhost"; "sourcerpm"; "file"]) then
            s ← (if bool_decide (local = "file") then start_file s b else Ok s);
            Ok (PrimaryState.set_field (Some local) s)
          else if bool_decide (local ∈ ["provides"; "requires"; "recommends"; "suggests"; "supplements"; "enhances";
                                        "conflicts"; "obsoletes"]) then
            Ok (PrimaryState.set_relation_group (Some local) s)
          else Ok s
      end.

(** [<entry/>] of the group of relations that is open. *)
Definition relation_entry (s : state) (e : element) (b : builder) : xresult state :=
  relation ← parse_relation e;
  relations ← checked_increment (PrimaryState.relations s) MAX_RELATIONS "relations";
  relation_count ← checked_increment (PrimaryBuilder.relation_count b) MAX_RELATIONS_PER_PACKAGE "relations per package";
  b ← push_relation (PrimaryBuilder.set_relation_count relation_count b) (PrimaryState.relation_group s) relation;
  Ok (PrimaryState.set_relations relations (PrimaryState.set_current (Some b) s)).

Definition empty_element (s : state) (e : element) : xresult state :=
  if PrimaryState.outside s then xml "element outside primary root"
  else
    _ ← check_namespace e;
    _ ← validate_prefix (name e) (PrimaryState.rpm_namespace s);
    match PrimaryState.current s with
    | None => Ok s
    | Some b =>
        let local := local_name (name e) in
        let keep := fun b => PrimaryState.set_current (Some b) s in
        if bool_decide (local = "version") then keep <$> fill_version e b
        else if bool_decide (local = "location") then
          href ← required e "href"; Ok (keep (PrimaryBuilder.set_location href b))
        else if bool_decide (local = "time") then
          build ← optional_number e "build"; Ok (keep (PrimaryBuilder.set_build_time build b))
        else if bool_decide (local = "size") then
          package_size ← optional_number e "package";
          installed_size ← optional_number e "installed";
          archive_size ← optional_number e "archive";
          Ok (keep (PrimaryBuilder.set_sizes package_size installed_size archive_size b))
        else if bool_decide (local = "entry") && bool_decide (is_Some (PrimaryState.relation_group s))
        then relation_entry s e b
        else Ok s
    end.

(** The text of the field [f] of a package, if it has one, and how to replace it. *)
Definition field_of (b : builder) (f : string) : option (string * (string -> builder)) :=
  if bool_decide (f = "name") then Some (PrimaryBuilder.name b, fun v => PrimaryBuilder.set_name v b)
  else if bool_decide (f = "arch") then Some (PrimaryBuilder.arch b, fun v => PrimaryBuilder.set_arch v b)
  else if bool_decide (f = "summary") then Some (PrimaryBuilder.summary b, fun v => PrimaryBuilder.set_summary v b)
  else if bool_decide (f = "description") then Some (PrimaryBuilder.description b, fun v => PrimaryBuilder.set_description v b)
  else if bool_decide (f = "checksum") then Some (PrimaryBuilder.checksum b, fun v => PrimaryBuilder.set_checksum v b)
  else if bool_decide (f = "vendor") then Some (PrimaryBuilder.vendor b, fun v => PrimaryBuilder.set_vendor v b)
  else if bool_decide (f = "buildhost") then Some (PrimaryBuilder.build_host b, fun v => PrimaryBuilder.set_build_host v b)
  else if bool_decide (f = "sourcerpm") then Some (PrimaryBuilder.source_rpm b, fun v => PrimaryBuilder.set_source_rpm v b)
  else if bool_decide (f = "file") then
    (fun path => (path, fun v => PrimaryBuilder.set_files (removelast (PrimaryBuilder.files b) ++ [v]) b))
      <$> last (PrimaryBuilder.files b)
  else None.

Definition append_field (s : state) (value : string) : xresult state :=
  match (b ← PrimaryState.current s; f ← PrimaryState.field s; field_of b f) with
  | Some (text, replace) =>
      let text := text +:+ value in
      _ ← checked_limit (str_len text) MAX_XML_TEXT_BYTES "XML text";
      Ok (PrimaryState.set_current (Some (replace text)) s)
  | None => Ok s
  end.

(** A package is complete. *)
Definition push (s : state) (b : builder) : xresult state :=
  if str_is_empty (PrimaryBuilder.name b) || str_is_empty (PrimaryBuilder.arch b)
     || str_is_empty (PrimaryBuilder.version b) || str_is_empty (PrimaryBuilder.release b)
  then xml "package missing required fields"
  else
    _ ← (if str_is_empty (PrimaryBuilder.location b) then Ok tt
         else validate_package_location (PrimaryBuilder.location b));
    if negb (str_is_empty (PrimaryBuilder.checksum b))
       && (negb (str_len (PrimaryBuilder.checksum b) =? 64)
           || negb (forallb is_ascii_hexdigit (bytes (PrimaryBuilder.checksum b))))
    then Err (MetadataError.UnsupportedChecksum (PrimaryBuilder.checksum b))
    else
      let epoch := if str_is_empty (PrimaryBuilder.epoch b) then "0" else PrimaryBuilder.epoch b in
      s ← (if PrimaryState.retain_complete s
           then Ok (PrimaryState.add_complete (PrimaryState.packages s ++ [PrimaryBuilder.complete epoch b]) s)
           else
             package_ordinal ←
               (if PrimaryState.parsed_packages s <=? u32_max then Ok (PrimaryState.parsed_packages s)
                else Err (MetadataError.InvalidNumber "out of range integral type conversion attempted"));
             let records := (fun path => PrimaryFileRecord.mk (sha256 (bytes path)) package_ordinal)
                              <$> PrimaryBuilder.files b in
             Ok (PrimaryState.add_projection
                   (PrimaryState.search_packages s ++ [PrimaryBuilder.search_package epoch b])
                   (PrimaryState.identities s ++ [PrimaryBuilder.identity epoch b])
                   (PrimaryState.primary_files s ++ records) s));
      parsed ← checked_increment (PrimaryState.parsed_packages s) MAX_PACKAGES "packages";
      if MAX_PACKAGES <? parsed then Err (MetadataError.SizeMismatch MAX_PACKAGES parsed)
      else Ok (PrimaryState.set_parsed parsed s).

(** The end of a package or of the root. *)
Definition end_container (s : state) (n : string) : xresult state :=
  if bool_decide (n = "package") then
    package ← ok_or (MetadataError.Xml "package end without start") (PrimaryState.current s);
    push (PrimaryState.set_current None s) package
  else if bool_decide (n = "metadata") then
    if bool_decide (is_Some (PrimaryState.current s)) then xml "unclosed primary package"
    else Ok (PrimaryState.close_root true s)
  else Ok s.

Definition end_element (s : state) (n : string) : xresult state :=
  if PrimaryState.outside s then xml "end element outside primary root"
  else
    s ← end_container s n;
    let local := local_name n in
    _ ← (if bool_decide (local = "file") then
           path ← ok_or (MetadataError.Xml "file end without start")
                    (b ← PrimaryState.current s; last (PrimaryBuilder.files b));
           validate_file_path path
         else Ok tt);
    let s := if bool_decide (PrimaryState.relation_group s = Some local)
             then PrimaryState.set_relation_group None s else s in
    Ok (if bool_decide (PrimaryState.field s = Some local) then PrimaryState.set_field None s else s).

Definition step (s : state) (ev : event) : xresult state :=
  match ev with
  | Start ns e => s ← start s e; _ ← resolved_ok ns (name e); Ok s
  | Empty ns e => s ← empty_element s e; _ ← resolved_ok ns (name e); Ok s
  | Text t =>
      value ← decode_text unescape t;
      if PrimaryState.outside s then
        if negb (str_is_empty (trim value)) then xml "text outside primary root" else Ok s
      else append_field s value
  | GeneralRef t =>
      if bool_decide (is_Some (PrimaryState.field s)) then
        value ← decode_reference unescape t; append_field s value
      else if PrimaryState.outside s then xml "content outside primary root" else Ok s
  | End n => end_element s n
  | Decl =>
      if negb (PrimaryState.root_seen s) && negb (PrimaryState.declaration_seen s)
      then Ok (PrimaryState.see_declaration true s) else xml "misplaced XML declaration or doctype"
  | DocType _ => xml "misplaced XML declaration or doctype"
  | Comment | PI => Ok s
  | CData _ => if PrimaryState.outside s then xml "content outside primary root" else Ok s
  | Malformed m => xml m
  end.

Definition finish (s : state) : xresult unit :=
  if negb (PrimaryState.root_seen s) || negb (PrimaryState.root_closed s) then xml "incomplete primary root"
  else
    declared ← ok_or (MetadataError.Xml "missing primary package count") (PrimaryState.declared s);
    if negb (PrimaryState.parsed_packages s =? declared)
    then xml ("primary package count mismatch: declared " +:+ display declared +:+ ", parsed "
              +:+ display (PrimaryState.parsed_packages s))
    else Ok tt.

Definition parse_with_mode (input : list event) (retain_complete : bool) : xresult state :=
  s ← fold_result step (PrimaryState.new retain_complete) input; _ ← finish s; Ok s.

Definition parse_complete (input : list event) : xresult (list CompletePackage.t) :=
  PrimaryState.packages <$> parse_with_mode input true.

Definition parse_primary_records (input : list event) : xresult (list CompletePackage.t) :=
  records ← parse_complete input;
  if existsb (fun r => str_is_empty (CompletePackage.location r) || str_is_empty (CompletePackage.checksum r)) records
  then xml "package missing complete record fields" else Ok records.

Definition parse_primary_validated (input : list event) : xresult ValidatedPrimary.t :=
  (fun s => ValidatedPrimary.mk (PrimaryState.search_packages s) (PrimaryState.identities s)
              (PrimaryState.primary_files s)) <$> parse_with_mode input false.

Definition parse_primary (input : list event) : xresult (list Package.t) :=
  ValidatedPrimary.packages <$> parse_primary_validated input.
End reader.
