(* ===== verification/PrimaryFacts.v ===== *)
(** * Facts about primary.xml

    The two modes of the reader agree; what an accepted document guarantees of its packages; the
    path a nested file element hides from the check. *)
From Stdlib Require Import Ascii.
From S2P Require Import Prelude.
From S2P Require Import RustStr.
From S2P Require Import RustText.
From S2P Require Import UnixPath.
From S2P Require Import Metadata.
From S2P Require Import Xml.
From S2P Require Import Filelists.
From S2P Require Import FilelistsFacts.
From S2P Require Import Primary.

#[local] Open Scope N_scope.

(** ** The two modes *)
Module ProjectionFacts.

(** What the second mode keeps of a complete record. *)
Definition identity_of (p : CompletePackage.t) : PrimaryPackageIdentity.t :=
  PrimaryPackageIdentity.mk (CompletePackage.checksum p) (CompletePackage.name p) (CompletePackage.arch p)
    (CompletePackage.epoch p) (CompletePackage.version p) (CompletePackage.release p).
Definition search_of (p : CompletePackage.t) : Package.t :=
  Package.mk (CompletePackage.name p) (CompletePackage.arch p) (CompletePackage.epoch p)
    (CompletePackage.version p) (CompletePackage.release p) (CompletePackage.summary p).

Section facts.
Context (unescape : string -> result string string) (sha256 : list byte -> list byte).

Definition file_records (ordinal : nat) (p : CompletePackage.t) : list PrimaryFileRecord.t :=
  (fun path => PrimaryFileRecord.mk (sha256 (bytes path)) (N.of_nat ordinal)) <$> CompletePackage.files p.

(** The digests of the files of all packages, each with the position of its package. *)
Definition records_of (l : list CompletePackage.t) : list PrimaryFileRecord.t := concat (imap file_records l).

Definition project (s : state) : state :=
  PrimaryState.mk (PrimaryState.current s) (PrimaryState.field s) (PrimaryState.relation_group s) []
    (search_of <$> PrimaryState.packages s) (identity_of <$> PrimaryState.packages s)
    (records_of (PrimaryState.packages s)) false (PrimaryState.parsed_packages s) (PrimaryState.root_seen s)
    (PrimaryState.root_closed s) (PrimaryState.rpm_namespace s) (PrimaryState.declared s)
    (PrimaryState.declaration_seen s) (PrimaryState.relations s) (PrimaryState.paths s).

Definition counted (s : state) : Prop :=
  PrimaryState.retain_complete s = true /\
  PrimaryState.parsed_packages s = N.of_nat (length (PrimaryState.packages s)) /\
  PrimaryState.parsed_packages s <= MAX_PACKAGES.

Lemma start_project s e : start (project s) e = project <$> start s e.
Proof.
  unfold start. cbn [project PrimaryState.root_closed PrimaryState.root_seen PrimaryState.rpm_namespace PrimaryState.current].
  destruct (PrimaryState.root_closed s); [done |]. destruct (negb (PrimaryState.root_seen s)).
  { unfold start_root. destruct (negb _); [done |]. destruct (attribute_streaming e "xmlns"); [| done]. cbn.
    destruct (negb _); [done |]. destruct (attribute_streaming e "packages"); [| done]. cbn.
    destruct (ok_or _ _); [| done]. cbn. destruct (parse_number _); [| done]. cbn. destruct (checked_limit _ _ _); [| done].
    cbn. destruct (attribute_streaming e "xmlns:rpm"); [| done]. cbn. by destruct (_ && _). }
  destruct (check_namespace e); [| done]. cbn. destruct (validate_prefix _ _); [| done]. cbn.
  destruct (bool_decide (local_name (name e) = "package")).
  { destruct (bool_decide _); [done |]. destruct (attribute_streaming e "type"); [| done]. cbn. by destruct (negb _). }
  destruct (PrimaryState.current s) as [b|]; [| done].
  destruct (bool_decide (local_name (name e) = "checksum")).
  { destruct (attribute_streaming e "type"); [| done]. cbn. destruct (negb _); [done |]. cbn.
    destruct (attribute_streaming e "pkgid"); [| done]. cbn. by destruct (negb _). }
  destruct (bool_decide _); [| by destruct (bool_decide _)].
  destruct (bool_decide (local_name (name e) = "file")); [| done]. unfold start_file. cbn.
  destruct (checked_increment _ MAX_FILES_PER_PACKAGE _); [| done]. cbn.
  by destruct (checked_increment _ MAX_FILE_PATHS _).
Qed.

Lemma empty_project s e : empty_element (project s) e = project <$> empty_element s e.
Proof.
  unfold empty_element. change (PrimaryState.outside (project s)) with (PrimaryState.outside s).
  destruct (PrimaryState.outside s); [done |]. cbn [project PrimaryState.rpm_namespace PrimaryState.current PrimaryState.relation_group].
  destruct (check_namespace e); [| done]. cbn. destruct (validate_prefix _ _); [| done]. cbn.
  destruct (PrimaryState.current s) as [b|]; [| done].
  destruct (bool_decide (_ = "version")); [by destruct (fill_version e b) |].
  destruct (bool_decide (_ = "location")); [by destruct (required e "href") |].
  destruct (bool_decide (_ = "time")); [by destruct (optional_number e "build") |].
  destruct (bool_decide (_ = "size")).
  { destruct (optional_number e "package"); [| done]. cbn. destruct (optional_number e "installed"); [| done]. cbn.
    by destruct (optional_number e "archive"). }
  destruct (_ && _); [| done]. unfold relation_entry. cbn.
  destruct (parse_relation e); [| done]. cbn. destruct (checked_increment _ MAX_RELATIONS _); [| done]. cbn.
  destruct (checked_increment _ MAX_RELATIONS_PER_PACKAGE _); [| done]. cbn. by destruct (push_relation _ _ _).
Qed.

Lemma append_project s v : append_field (project s) v = project <$> append_field s v.
Proof.
  unfold append_field. cbn [project PrimaryState.current PrimaryState.field].
  destruct (PrimaryState.current s) as [b|]; [| done]. cbn. destruct (PrimaryState.field s) as [f|]; [| done]. cbn.
  destruct (field_of b f) as [[t r]|]; [| done]. by destruct (checked_limit _ _ _).
Qed.

Lemma records_of_snoc l p : records_of (l ++ [p]) = records_of l ++ file_records (length l) p.
Proof. unfold records_of. rewrite imap_app, concat_app. cbn. by rewrite Nat.add_0_r, app_nil_r. Qed.

Lemma push_project s b : counted s -> push sha256 (project s) b = project <$> push sha256 s b.
Proof.
  intros (Hr & Hn & Hmax). unfold push. destruct (_ || _ || _ || _); [done |].
  destruct (if str_is_empty (PrimaryBuilder.location b) then _ else _); [| done]. cbn [mbind result_mbind].
  destruct (_ && _); [done |]. cbn zeta. rewrite Hr.
  change (PrimaryState.retain_complete (project s)) with false.
  change (PrimaryState.parsed_packages (project s)) with (PrimaryState.parsed_packages s).
  assert (Hle : (PrimaryState.parsed_packages s <=? u32_max) = true).
  { apply N.leb_le. assert (MAX_PACKAGES <= u32_max) by done. lia. }
  rewrite Hle. cbn [mbind result_mbind].
  set (epoch := if str_is_empty _ then _ else _).
  change (PrimaryState.parsed_packages (PrimaryState.add_projection ?a ?b ?c ?d)) with (PrimaryState.parsed_packages d).
  change (PrimaryState.parsed_packages (PrimaryState.add_complete ?a ?d)) with (PrimaryState.parsed_packages d).
  change (PrimaryState.parsed_packages (project s)) with (PrimaryState.parsed_packages s).
  destruct (checked_increment _ MAX_PACKAGES _) as [n|e]; [| done]. cbn [mbind result_mbind].
  destruct (MAX_PACKAGES <? n); [done |]. cbn [fmap result_fmap]. f_equal.
  unfold project, PrimaryState.set_parsed, PrimaryState.add_complete, PrimaryState.add_projection.
  cbn [PrimaryState.current PrimaryState.field PrimaryState.relation_group PrimaryState.packages
    PrimaryState.search_packages PrimaryState.identities PrimaryState.primary_files PrimaryState.root_seen
    PrimaryState.root_closed PrimaryState.rpm_namespace PrimaryState.declared PrimaryState.declaration_seen
    PrimaryState.relations PrimaryState.paths PrimaryState.retain_complete].
  rewrite !fmap_app, records_of_snoc. unfold file_records. cbn. by rewrite Hn.
Qed.

Lemma end_project s n : counted s -> end_element sha256 (project s) n = project <$> end_element sha256 s n.
Proof.
  intros Hs. unfold end_element. change (PrimaryState.outside (project s)) with (PrimaryState.outside s).
  destruct (PrimaryState.outside s); [done |].
  assert (Hinner : end_container sha256 (project s) n = project <$> end_container sha256 s n).
  { unfold end_container. destruct (bool_decide (n = "package")).
    - change (PrimaryState.current (project s)) with (PrimaryState.current s).
      destruct (PrimaryState.current s) as [b|]; [| done]. cbn [ok_or mbind result_mbind].
      change (PrimaryState.set_current None (project s)) with (project (PrimaryState.set_current None s)).
      by apply push_project.
    - destruct (bool_decide (n = "metadata")); [| done].
      change (PrimaryState.current (project s)) with (PrimaryState.current s). by destruct (bool_decide _). }
  rewrite Hinner. destruct (end_container sha256 s n) as [s1|e]; [| done]. cbn [fmap result_fmap mbind result_mbind].
  change (PrimaryState.current (project s1)) with (PrimaryState.current s1).
  change (PrimaryState.relation_group (project s1)) with (PrimaryState.relation_group s1).
  destruct (if bool_decide (local_name n = "file") then _ else _); [| done]. cbn [fmap result_fmap mbind result_mbind].
  destruct (bool_decide (PrimaryState.relation_group s1 = _)); cbn [project PrimaryState.set_relation_group PrimaryState.field];
    by destruct (bool_decide _).
Qed.

Lemma step_project s ev : counted s -> step unescape sha256 (project s) ev = project <$> step unescape sha256 s ev.
Proof.
  intros Hs. destruct ev as [ns e|ns e|n|t|t|t| |t| | |m]; cbn [step];
    change (PrimaryState.outside (project s)) with (PrimaryState.outside s);
    change (PrimaryState.field (project s)) with (PrimaryState.field s);
    change (PrimaryState.root_seen (project s)) with (PrimaryState.root_seen s);
    change (PrimaryState.declaration_seen (project s)) with (PrimaryState.declaration_seen s); try done.
  - rewrite start_project. destruct (start s e); [| done]. cbn. by destruct (resolved_ok _ _).
  - rewrite empty_project. destruct (empty_element s e); [| done]. cbn. by destruct (resolved_ok _ _).
  - by apply end_project.
  - destruct (decode_text _ _) as [v|e]; [| done]. cbn [mbind result_mbind]. rewrite append_project.
    destruct (PrimaryState.outside s); [by destruct (negb _) | done].
  - destruct (decode_reference _ _) as [v|e]; cbn [mbind result_mbind]; rewrite ?append_project;
      destruct (bool_decide _); try done; by destruct (PrimaryState.outside s).
  - by destruct (PrimaryState.outside s).
  - by destruct (_ && _).
Qed.

Lemma checked_increment_ok n m k r : checked_increment n m k = Ok r -> r = n + 1 /\ r <= m.
Proof.
  unfold checked_increment, u64_checked_add. destruct (n + 1 <=? u64_max); [| done]. cbn.
  destruct (m <? n + 1) eqn:E; [done |]. intros [= <-]. apply N.ltb_ge in E. done.
Qed.

Lemma push_counted s b s' : counted s -> push sha256 s b = Ok s' -> counted s'.
Proof.
  intros (Hr & Hn & Hmax). unfold push. destruct (_ || _ || _ || _); [done |]. rewrite Hr.
  intros (u & _ & Hs)%bind_ok. destruct (_ && _); [done |]. cbn [mbind result_mbind] in Hs.
  apply bind_ok in Hs as (n & Hi%checked_increment_ok & Hs). destruct (MAX_PACKAGES <? n); [done |].
  injection Hs as <-. destruct Hi as [-> Hle]. unfold counted. cbn. rewrite length_app. cbn.
  split_and!; [done | cbn in Hn; lia | done].
Qed.

Lemma step_counted s ev s' : counted s -> step unescape sha256 s ev = Ok s' -> counted s'.
Proof.
  intros Hs. destruct ev as [ns e|ns e|n|t|t|t| |t| | |m]; cbn [step]; intros Hstep.
  - unfold start, start_root, start_file in Hstep. repeat first [done | progress result_inv | progress subst | case_match].
  - unfold empty_element, relation_entry in Hstep. repeat first [done | progress result_inv | progress subst | case_match].
  - unfold end_element, end_container in Hstep. destruct (PrimaryState.outside s); [done |].
    apply bind_ok in Hstep as (s1 & Hs1 & (u & _ & Hs')%bind_ok).
    assert (Hc : counted s1).
    { destruct (bool_decide (n = "package")); [| repeat first [done | progress result_inv | progress subst | case_match]].
      result_inv. by eapply (push_counted (PrimaryState.set_current None s)). }
    injection Hs' as <-. destruct (bool_decide (PrimaryState.relation_group s1 = _));
      destruct (bool_decide (PrimaryState.field _ = _)); exact Hc.
  - unfold append_field in Hstep. repeat first [done | progress result_inv | progress subst | case_match].
  - unfold append_field in Hstep. repeat first [done | progress result_inv | progress subst | case_match].
  - repeat first [done | progress result_inv | progress subst | case_match].
  - repeat first [done | progress result_inv | progress subst | case_match].
  - done.
  - by injection Hstep as <-.
  - by injection Hstep as <-.
  - done.
Qed.

Lemma fold_project evs : forall s, counted s ->
  fold_result (step unescape sha256) (project s) evs = project <$> fold_result (step unescape sha256) s evs.
Proof.
  induction evs as [|ev evs IH]; intros s Hs; [done |]. cbn [fold_result]. rewrite step_project by done.
  destruct (step unescape sha256 s ev) as [s1|e] eqn:Hstep; [| done]. cbn [fmap result_fmap mbind result_mbind].
  apply IH. by eapply step_counted.
Qed.
End facts.
End ProjectionFacts.

(** Reading a document without keeping its records gives, for every document, what reading it
    completely gives and then dropping the rest: the same packages and identities in the same
    order, the digest of every file with the position of its package, and the same errors. *)
Theorem validated_is_projection (unescape : string -> result string string) (sha256 : list byte -> list byte)
    (input : list event) :
  parse_primary_validated unescape sha256 input =
  (fun l => ValidatedPrimary.mk (ProjectionFacts.search_of <$> l) (ProjectionFacts.identity_of <$> l)
              (ProjectionFacts.records_of sha256 l)) <$> parse_complete unescape sha256 input.
Proof.
  unfold parse_primary_validated, parse_complete, parse_with_mode.
  change (PrimaryState.new false) with (ProjectionFacts.project sha256 (PrimaryState.new true)).
  rewrite ProjectionFacts.fold_project by done.
  destruct (fold_result _ (PrimaryState.new true) input) as [s|e]; [| done]. cbn [fmap result_fmap mbind result_mbind].
  change (finish (ProjectionFacts.project sha256 s)) with (finish s). by destruct (finish s).
Qed.

(** ** What an accepted document guarantees *)
Module RecordFacts.

Definition relation_total (p : CompletePackage.t) : N :=
  N.of_nat (length (CompletePackage.provides p ++ CompletePackage.requires p ++ CompletePackage.recommends p ++
    CompletePackage.suggests p ++ CompletePackage.supplements p ++ CompletePackage.enhances p ++
    CompletePackage.conflicts p ++ CompletePackage.obsoletes p)).
Definition file_total (p : CompletePackage.t) : N := N.of_nat (length (CompletePackage.files p)).
Definition total (f : CompletePackage.t -> N) (l : list CompletePackage.t) : N := foldr (fun p n => f p + n) 0 l.

Definition safe_package_location (href : string) : Prop :=
  href <> "" /\ str_starts_with "/" href = false /\ str_contains "%" href = false /\ str_contains "\" href = false /\
  Forall (fun part => part <> "" /\ part <> "." /\ part <> "..") (segments href) /\
  existsb char_is_control (chars href) = false.

Definition hex_checksum (c : string) : Prop := str_len c = 64 /\ forallb is_ascii_hexdigit (bytes c) = true.

(** A package of a document, one of whose location and checksum may be missing. *)
Definition package_sound (p : CompletePackage.t) : Prop :=
  CompletePackage.name p <> "" /\ CompletePackage.arch p <> "" /\ CompletePackage.epoch p <> "" /\
  CompletePackage.version p <> "" /\ CompletePackage.release p <> "" /\
  (CompletePackage.location p = "" \/ safe_package_location (CompletePackage.location p)) /\
  (CompletePackage.checksum p = "" \/ hex_checksum (CompletePackage.checksum p)) /\
  relation_total p <= MAX_RELATIONS_PER_PACKAGE /\ file_total p <= MAX_FILES_PER_PACKAGE.

(** The package being read, as it is so far. *)
Abbreviation partial b := (PrimaryBuilder.complete "" b).
Definition current_total (f : CompletePackage.t -> N) (c : option builder) : N :=
  from_option (fun b => f (partial b)) 0 c.

Definition builder_sound (b : builder) : Prop :=
  relation_total (partial b) = PrimaryBuilder.relation_count b /\
  PrimaryBuilder.relation_count b <= MAX_RELATIONS_PER_PACKAGE /\ file_total (partial b) <= MAX_FILES_PER_PACKAGE.

Definition sound (s : state) : Prop :=
  PrimaryState.retain_complete s = true /\
  Forall package_sound (PrimaryState.packages s) /\
  (forall b, PrimaryState.current s = Some b -> builder_sound b) /\
  total relation_total (PrimaryState.packages s) + current_total relation_total (PrimaryState.current s)
    = PrimaryState.relations s /\ PrimaryState.relations s <= MAX_RELATIONS /\
  total file_total (PrimaryState.packages s) + current_total file_total (PrimaryState.current s)
    = PrimaryState.paths s /\ PrimaryState.paths s <= MAX_FILE_PATHS.

Lemma total_snoc f l p : total f (l ++ [p]) = total f l + f p.
Proof. induction l as [|q l IH]; cbn; [lia |]. fold (total f (l ++ [p])). fold (total f l). lia. Qed.

Lemma validate_package_location_ok href u : validate_package_location href = Ok u -> safe_package_location href.
Proof.
  unfold validate_package_location. destruct (_ || _) eqn:E; [done |]. intros _. bool_inv.
  rewrite str_is_empty_false in *. split_and!; try done.
  match goal with H : existsb _ (segments href) = false |- _ => apply existsb_false in H; rename H into Hseg end.
  eapply Forall_impl; [exact Hseg |]. intros part Hp. cbn in Hp. bool_inv. by rewrite str_is_empty_false in *.
Qed.

(** Steps that leave the counted parts of the package alone. *)
Lemma sound_keep s s' b b' : sound s -> PrimaryState.current s = Some b ->
  relation_total (partial b') = relation_total (partial b) -> file_total (partial b') = file_total (partial b) ->
  PrimaryBuilder.relation_count b' = PrimaryBuilder.relation_count b ->
  s' = PrimaryState.set_current (Some b') s -> sound s'.
Proof.
  intros (H0 & H1 & H2 & H3 & H4 & H5 & H6) Hc Hr Hf Hn ->. destruct (H2 b Hc) as (B1 & B2 & B3).
  unfold sound. cbn. rewrite Hc in H3, H5. cbn in H3, H5. rewrite Hr, Hf. split_and!; try done.
  intros b1 [= <-]. unfold builder_sound. by rewrite Hr, Hf, Hn.
Qed.

Lemma push_relation_total b g r b' : push_relation b g r = Ok b' ->
  relation_total (partial b') = relation_total (partial b) + 1 /\ file_total (partial b') = file_total (partial b) /\
  PrimaryBuilder.relation_count b' = PrimaryBuilder.relation_count b.
Proof.
  unfold push_relation. destruct g as [g|]; [| done].
  repeat (case_bool_decide; [intros [= <-]; unfold relation_total, file_total; cbn; rewrite !length_app; cbn; split_and!; [lia | done | done] |]).
  done.
Qed.

Lemma field_of_total b f t r v : field_of b f = Some (t, r) ->
  relation_total (partial (r v)) = relation_total (partial b) /\ file_total (partial (r v)) = file_total (partial b) /\
  PrimaryBuilder.relation_count (r v) = PrimaryBuilder.relation_count b.
Proof.
  unfold field_of. repeat (case_bool_decide; [intros [= <- <-]; done |]). case_bool_decide; [| done].
  destruct (last (PrimaryBuilder.files b)) as [path|] eqn:Hl; [| done]. cbn. intros [= <- <-].
  unfold relation_total, file_total. cbn. split_and!; [done | | done].
  apply last_Some in Hl as [l ->]. rewrite removelast_last, !length_app. done.
Qed.

(** A state that differs in nothing that is counted. *)
Lemma sound_same s s' : sound s -> PrimaryState.retain_complete s' = PrimaryState.retain_complete s ->
  PrimaryState.packages s' = PrimaryState.packages s -> PrimaryState.current s' = PrimaryState.current s ->
  PrimaryState.relations s' = PrimaryState.relations s -> PrimaryState.paths s' = PrimaryState.paths s -> sound s'.
Proof. intros Hs E1 E2 E3 E4 E5. unfold sound. by rewrite E1, E2, E3, E4, E5. Qed.

Section steps.
Context (unescape : string -> result string string) (sha256 : list byte -> list byte).

Lemma start_file_sound s b s' : sound s -> PrimaryState.current s = Some b -> start_file s b = Ok s' -> sound s'.
Proof.
  intros (H0 & H1 & H2 & H3 & H4 & H5 & H6) Hc. unfold start_file.
  intros (n & Hn%ProjectionFacts.checked_increment_ok & (m & Hm%ProjectionFacts.checked_increment_ok & [= <-])%bind_ok)%bind_ok.
  destruct (H2 b Hc) as (B1 & B2 & B3). rewrite Hc in H3, H5. cbn [current_total from_option] in H3, H5.
  set (b1 := PrimaryBuilder.set_files _ b).
  assert (T1 : relation_total (partial b1) = relation_total (partial b)) by done.
  assert (T2 : file_total (partial b1) = file_total (partial b) + 1).
  { unfold file_total, b1. cbn. rewrite length_app. cbn. lia. }
  assert (T3 : file_total (partial b) = N.of_nat (length (PrimaryBuilder.files b))) by done.
  unfold sound, builder_sound. cbn [PrimaryState.set_paths PrimaryState.set_current PrimaryState.retain_complete
    PrimaryState.packages PrimaryState.current PrimaryState.relations PrimaryState.paths current_total from_option].
  rewrite T1, T2. split_and!; try done; [| lia | lia].
  intros b' [= <-]. rewrite T1, T2. split_and!; [done | done | lia].
Qed.

Lemma start_sound s e s' : sound s -> start s e = Ok s' -> sound s'.
Proof.
  intros Hs. unfold start. destruct (PrimaryState.root_closed s); [done |]. destruct (negb (PrimaryState.root_seen s)).
  { unfold start_root. intros H. repeat first [done | progress result_inv | progress subst | case_match]. }
  intros (u & _ & (u' & _ & H)%bind_ok)%bind_ok.
  destruct (bool_decide (local_name (name e) = "package")).
  { case_bool_decide as Hc; [done |]. apply bind_ok in H as (k & _ & H). destruct (negb _); [done |]. injection H as <-.
    destruct Hs as (H0 & H1 & H2 & H3 & H4 & H5 & H6). apply eq_None_not_Some in Hc. rewrite Hc in H3, H5. cbn in H3, H5.
    unfold sound. cbn. split_and!; try done. intros b [= <-]. done. }
  destruct (PrimaryState.current s) as [b|] eqn:Hc; [| by injection H as <-].
  destruct (bool_decide (local_name (name e) = "checksum")).
  { repeat first [done | progress result_inv | progress subst | case_match]. }
  destruct (bool_decide (local_name (name e) ∈ _)).
  { apply bind_ok in H as (s1 & H1 & [= <-]).
    assert (Hs1 : sound s1) by (destruct (bool_decide _); [by eapply start_file_sound | by injection H1 as <-]).
    by eapply sound_same. }
  destruct (bool_decide (local_name (name e) ∈ _)); injection H as <-; [by eapply sound_same | done].
Qed.

Lemma relation_entry_sound s e b s' : sound s -> PrimaryState.current s = Some b ->
  relation_entry s e b = Ok s' -> sound s'.
Proof.
  intros (H0 & H1 & H2 & H3 & H4 & H5 & H6) Hc. unfold relation_entry.
  intros (r & _ & (n & Hn%ProjectionFacts.checked_increment_ok & (m & Hm%ProjectionFacts.checked_increment_ok &
    (b' & Hb & [= <-])%bind_ok)%bind_ok)%bind_ok)%bind_ok.
  apply push_relation_total in Hb as (T1 & T2 & T3). destruct (H2 b Hc) as (B1 & B2 & B3).
  change (relation_total (partial (PrimaryBuilder.set_relation_count m b))) with (relation_total (partial b)) in T1.
  change (file_total (partial (PrimaryBuilder.set_relation_count m b))) with (file_total (partial b)) in T2.
  change (PrimaryBuilder.relation_count (PrimaryBuilder.set_relation_count m b)) with m in T3.
  rewrite Hc in H3, H5. cbn [current_total from_option] in H3, H5. unfold sound, builder_sound. cbn [PrimaryState.set_relations
    PrimaryState.set_current PrimaryState.retain_complete PrimaryState.packages PrimaryState.current PrimaryState.relations
    PrimaryState.paths current_total from_option]. rewrite T1, T2. split_and!; try done; [| lia | lia].
  intros b1 [= <-]. rewrite T1, T2, T3. split_and!; [lia | lia | done].
Qed.

(** The package keeps its relations and its files. *)
Ltac keep_counts Hs Hc := eapply (sound_keep _ _ _ _ Hs Hc); [| | | reflexivity]; done.

Lemma empty_sound s e s' : sound s -> empty_element s e = Ok s' -> sound s'.
Proof.
  intros Hs. unfold empty_element. destruct (PrimaryState.outside s); [done |].
  intros (u & _ & (u' & _ & H)%bind_ok)%bind_ok. destruct (PrimaryState.current s) as [b|] eqn:Hc; [| by injection H as <-].
  destruct (bool_decide _).
  { apply fmap_ok in H as (b' & Hv & <-). unfold fill_version in Hv. result_inv. subst. keep_counts Hs Hc. }
  destruct (bool_decide _); [result_inv; subst; keep_counts Hs Hc |].
  destruct (bool_decide _); [result_inv; subst; keep_counts Hs Hc |].
  destruct (bool_decide _); [result_inv; subst; keep_counts Hs Hc |].
  destruct (_ && _); [by eapply relation_entry_sound | by injection H as <-].
Qed.

Lemma append_sound s v s' : sound s -> append_field s v = Ok s' -> sound s'.
Proof.
  intros Hs. unfold append_field. destruct (PrimaryState.current s) as [b|] eqn:Hc; [| by intros [= <-]]. cbn.
  destruct (PrimaryState.field s) as [f|]; [| by intros [= <-]]. cbn.
  destruct (field_of b f) as [[t r]|] eqn:Hf; [| by intros [= <-]]. intros (n & _ & [= <-])%bind_ok.
  destruct (field_of_total b f t r (t +:+ v) Hf) as (? & ? & ?). keep_counts Hs Hc.
Qed.

Lemma push_sound s b s' : sound s -> PrimaryState.current s = Some b ->
  push sha256 (PrimaryState.set_current None s) b = Ok s' -> sound s'.
Proof.
  intros (H0 & H1 & H2 & H3 & H4 & H5 & H6) Hc. unfold push.
  destruct (_ || _ || _ || _) eqn:Hreq; [done |]. bool_inv. rewrite str_is_empty_false in *.
  intros (u & Hloc & Hk)%bind_ok. destruct (negb (str_is_empty (PrimaryBuilder.checksum b)) && _) eqn:Hsum; [done |].
  cbn [PrimaryState.set_current PrimaryState.retain_complete PrimaryState.packages] in Hk. rewrite H0 in Hk.
  set (epoch := if str_is_empty (PrimaryBuilder.epoch b) then _ else _) in Hk. cbn [mbind result_mbind] in Hk.
  apply bind_ok in Hk as (n & _ & Hk). destruct (MAX_PACKAGES <? n); [done |]. injection Hk as <-.
  destruct (H2 b Hc) as (B1 & B2 & B3). rewrite Hc in H3, H5. cbn [current_total from_option] in H3, H5.
  assert (Hr : relation_total (PrimaryBuilder.complete epoch b) = relation_total (partial b)) by done.
  assert (Hf : file_total (PrimaryBuilder.complete epoch b) = file_total (partial b)) by done.
  unfold sound. cbn [PrimaryState.set_parsed PrimaryState.add_complete PrimaryState.set_current PrimaryState.retain_complete
    PrimaryState.packages PrimaryState.current PrimaryState.relations PrimaryState.paths current_total from_option].
  rewrite !total_snoc, Hr, Hf. split_and!; try done; [| lia | lia].
  apply Forall_app. split; [done |]. apply Forall_singleton. split_and!; try done.
  - cbn. unfold epoch. destruct (str_is_empty (PrimaryBuilder.epoch b)) eqn:E; [done | by apply str_is_empty_false].
  - cbn. destruct (str_is_empty (PrimaryBuilder.location b)) eqn:E; [left; by apply str_is_empty_spec | right].
    by eapply validate_package_location_ok.
  - cbn. destruct (str_is_empty (PrimaryBuilder.checksum b)) eqn:E; [left; by apply str_is_empty_spec | right].
    cbn in Hsum. apply orb_false_iff in Hsum as [Hs1%negb_false_iff Hs2%negb_false_iff]. split; [by apply N.eqb_eq | done].
  - rewrite Hr. lia.
Qed.

Lemma end_sound s n s' : sound s -> end_element sha256 s n = Ok s' -> sound s'.
Proof.
  intros Hs. unfold end_element, end_container. destruct (PrimaryState.outside s); [done |].
  intros (s1 & H1 & (u & _ & H)%bind_ok)%bind_ok.
  assert (Hs1 : sound s1).
  { destruct (bool_decide (n = "package")).
    - apply bind_ok in H1 as (b & Hb%ok_or_ok & H1). by eapply push_sound.
    - destruct (bool_decide (n = "metadata")); [| by injection H1 as <-].
      destruct (bool_decide _); [done |]. injection H1 as <-. by eapply sound_same. }
  injection H as <-. destruct (bool_decide (PrimaryState.relation_group s1 = _));
    destruct (bool_decide (PrimaryState.field _ = _)); by eapply sound_same.
Qed.

Lemma primary_step_sound s ev s' : sound s -> step unescape sha256 s ev = Ok s' -> sound s'.
Proof.
  intros Hs. destruct ev as [ns e|ns e|n|t|t|t| |t| | |m]; cbn [step]; intros H.
  - result_inv. by eapply start_sound.
  - result_inv. by eapply empty_sound.
  - by eapply end_sound.
  - apply bind_ok in H as (v & _ & H). destruct (PrimaryState.outside s); [| by eapply append_sound].
    destruct (negb _); [done | by injection H as <-].
  - destruct (bool_decide _); [apply bind_ok in H as (v & _ & H); by eapply append_sound |].
    destruct (PrimaryState.outside s); [done | by injection H as <-].
  - destruct (PrimaryState.outside s); [done | by injection H as <-].
  - destruct (_ && _); [| done]. injection H as <-. by eapply sound_same.
  - done.
  - by injection H as <-.
  - by injection H as <-.
  - done.
Qed.

Lemma parse_sound input s : parse_with_mode unescape sha256 input true = Ok s ->
  sound s /\ PrimaryState.declared s = Some (N.of_nat (length (PrimaryState.packages s))) /\
  N.of_nat (length (PrimaryState.packages s)) <= MAX_PACKAGES.
Proof.
  unfold parse_with_mode. intros (s1 & Hf & (u & Hfin & [= <-])%bind_ok)%bind_ok.
  assert (Hs : sound s1).
  { refine (fold_result_ind _ sound _ _ _ _ _ Hf); [done |]. intros s2 ev s3 _. apply primary_step_sound. }
  assert (Hc : ProjectionFacts.counted s1).
  { refine (fold_result_ind _ ProjectionFacts.counted _ _ _ _ _ Hf); [done |]. intros s2 ev s3 _.
    apply ProjectionFacts.step_counted. }
  destruct Hc as (_ & Hn & Hmax). split; [done |]. unfold finish in Hfin. destruct (_ || _); [done |].
  apply bind_ok in Hfin as (d & Hd%ok_or_ok & Hfin). destruct (negb _) eqn:Heq; [done |].
  apply negb_false_iff, N.eqb_eq in Heq. rewrite <- Hn. split; [by rewrite Hd, Heq | done].
Qed.
End steps.
End RecordFacts.

(** C29: every package of an accepted document has a name, an architecture and a version, a
    location within the repository, a SHA-256 checksum and bounded numbers of relations and
    files, and the document as a whole stays within its limits. *)
Theorem parse_primary_records_sound (unescape : string -> result string string) (sha256 : list byte -> list byte)
    (input : list event) (l : list CompletePackage.t) (Hok : parse_primary_records unescape sha256 input = Ok l) :
  Forall (fun p => RecordFacts.package_sound p /\
    RecordFacts.safe_package_location (CompletePackage.location p) /\
    RecordFacts.hex_checksum (CompletePackage.checksum p)) l /\
  N.of_nat (length l) <= MAX_PACKAGES /\
  RecordFacts.total RecordFacts.relation_total l <= MAX_RELATIONS /\
  RecordFacts.total RecordFacts.file_total l <= MAX_FILE_PATHS.
Proof.
  unfold parse_primary_records, parse_complete in Hok. apply bind_ok in Hok as (l' & (s & Hs & <-)%fmap_ok & Hok).
  destruct (existsb _ _) eqn:Hmiss; [done |]. injection Hok as <-. apply RecordFacts.parse_sound in Hs as (Hs & _ & Hmax).
  destruct Hs as (_ & H1 & _ & H3 & H4 & H5 & H6). split_and!; [| done | lia | lia].
  apply existsb_false in Hmiss. rewrite Forall_forall in *. intros p Hp. specialize (H1 p Hp). specialize (Hmiss p Hp).
  cbn in Hmiss. bool_inv. rewrite str_is_empty_false in *. split; [done |].
  destruct H1 as (_ & _ & _ & _ & _ & [Hl|Hl] & [Hc|Hc] & _); done.
Qed.

Module PrimaryExamples.
Definition attr (k v : string) : result string attribute := Ok (Attribute k (Ok v)).
Definition tag (n : string) (attrs : list (string * string)) : element := Element n ((fun '(k, v) => attr k v) <$> attrs).
Definition common : ResolveResult := Bound COMMON_NAMESPACE.
Definition rpm : ResolveResult := Bound RPM_NAMESPACE.
Definition open_root (count : string) : event :=
  Start common (tag "metadata" [("xmlns", COMMON_NAMESPACE); ("xmlns:rpm", RPM_NAMESPACE); ("packages", count)]).
Definition field (n v : string) : list event := [Start common (tag n []); Text (Ok v); End n].
Definition sum : string := of_bytes (replicate 64 "a"%char).
Definition package (files : list event) : list event :=
  [Start common (tag "package" [("type", "rpm")])] ++ field "name" "bash" ++ field "arch" "x86_64" ++
  [Empty common (tag "version" [("epoch", "0"); ("ver", "5.2"); ("rel", "1")]);
   Start common (tag "checksum" [("type", "sha256"); ("pkgid", "YES")]); Text (Ok sum); End "checksum";
   Empty common (tag "location" [("href", "Packages/b/bash.rpm")]);
   Start rpm (tag "rpm:provides" []);
   Empty rpm (tag "rpm:entry" [("name", "sh"); ("flags", "EQ"); ("ver", "5.2")]);
   End "rpm:provides"] ++ files ++ [End "package"].
Definition document (files : list event) : list event := [open_root "1"] ++ package files ++ [End "metadata"].
Definition no_digest (_ : list byte) : list byte := [].
End PrimaryExamples.

Lemma parse_primary_records_sound_witness :
  exists p, parse_primary_records Ok PrimaryExamples.no_digest
      (PrimaryExamples.document (PrimaryExamples.field "file" "/usr/bin/bash")) = Ok [p] /\
    CompletePackage.files p = ["/usr/bin/bash"] /\ RecordFacts.hex_checksum (CompletePackage.checksum p).
Proof.
  eexists. assert (H : parse_primary_records Ok PrimaryExamples.no_digest
    (PrimaryExamples.document (PrimaryExamples.field "file" "/usr/bin/bash")) = Ok _) by (vm_compute; reflexivity).
  split; [exact H |]. split; [reflexivity |].
  destruct (parse_primary_records_sound Ok PrimaryExamples.no_digest _ _ H) as (Hl & _).
  apply Forall_cons in Hl as ((_ & _ & Hc) & _). exact Hc.
Defined.

(** Elements [<file>] may be nested: only the path opened last is checked, at both ends. *)
Example nested_file_unchecked :
  CompletePackage.files <$>
    (default [] (match parse_complete Ok PrimaryExamples.no_digest
       (PrimaryExamples.document
         ([Start PrimaryExamples.common (PrimaryExamples.tag "file" []); Text (Ok "../etc/shadow")] ++
          PrimaryExamples.field "file" "/usr/bin/bash" ++ [End "file"])) with Ok l => Some l | Err _ => None end))
  = [["../etc/shadow"; "/usr/bin/bash"]].
Proof. vm_compute. reflexivity. Qed.
