(* ===== verification/Compression.v ===== *)
(** * Verified decompression ([dnfast-metadata]: compression.rs)

    Reading a compressed document under its record: sizes and checksums are those of the stream
    as it is read, before and after decompression.  The decompressors, SHA-256 in hexadecimal and
    the tokenizer of quick-xml are parameters.

    A reader is the list of the results of its reads; it ends at an empty read, at an error, or
    with the list.  What a decompressor does at a read is a [pull]: how often it reads its own
    input, and what it returns. *)
From Stdlib Require Import Ascii.
From S2P Require Import Prelude.
From S2P Require Import RustStr.
From S2P Require Import RustText.
From S2P Require Import Metadata.
From S2P Require Import Xml.
From S2P Require Import Repomd.
From S2P Require Import Filelists.
From S2P Require Import PathScanner.
From S2P Require Import Primary.

#[local] Open Scope N_scope.

Abbreviation reads := (list (result string (list byte))).

Module Pull.
Record t : Type := mk { advances : nat; produced : result string (list byte) }.
End Pull.

Inductive MetadataEncoding : Type := Zstd | Gzip | XmlText.

#[export] Instance metadata_encoding_eq_dec : EqDecision MetadataEncoding.
Proof. solve_decision. Defined.

Definition ZSTD_MAGIC : list byte := ascii_of_N <$> [40; 181; 47; 253].
Definition GZIP_MAGIC : list byte := ascii_of_N <$> [31; 139].

Definition encoding (l : list byte) : MetadataEncoding :=
  if starts_with ZSTD_MAGIC l then Zstd else if starts_with GZIP_MAGIC l then Gzip else XmlText.

(** ** Readers of the standard library *)

(** [take(limit)]. *)
Fixpoint take_reads (limit : N) (r : reads) : reads :=
  if limit =? 0 then []
  else
    match r with
    | [] => []
    | Err m :: r => Err m :: take_reads limit r
    | Ok l :: r =>
        let l := take (N.to_nat limit) l in Ok l :: take_reads (limit - N.of_nat (length l)) r
    end.

(** [read_to_end]. *)
Fixpoint read_to_end (r : reads) : result string (list byte) :=
  match r with
  | [] => Ok []
  | Err m :: _ => Err m
  | Ok [] :: _ => Ok []
  | Ok l :: r => app l <$> read_to_end r
  end.

(** [fill_buf] of a fresh [BufReader]: its buffer, and what it has not read yet. *)
Definition fill_buf (r : reads) : result string (list byte * reads) :=
  match r with [] => Ok ([], []) | Err m :: _ => Err m | Ok l :: rest => Ok (l, rest) end.

(** ** The streaming verifier *)

Module StreamDigest.
Record t : Type := mk { hashed : list byte; bytes : N }.
Definition default : t := mk [] 0.
End StreamDigest.

Module OpenVerifier.
Record t : Type := mk { opened : StreamDigest.t; compressed : StreamDigest.t; rest : reads; checked : bool }.
End OpenVerifier.

(** [checked_add] of the size of a read, then [update]. *)
Definition digest_read (overflow : string) (s : StreamDigest.t) (l : list byte) : result string StreamDigest.t :=
  n ← ok_or overflow (u64_checked_add (StreamDigest.bytes s) (N.of_nat (length l)));
  Ok (StreamDigest.mk (StreamDigest.hashed s ++ l) n).

(** ** The structure of a document *)

Module XmlState.
Record t : Type := mk { declaration_seen : bool; root : bool; depth : N }.
Definition default : t := mk false false 0.
Definition outside (s : t) : bool := negb (root s) || (depth s =? 0).
End XmlState.

Section xml.
Context (unescape : string -> result string string).

Definition validate_step (s : XmlState.t) (ev : event) : xresult XmlState.t :=
  let '(XmlState.mk declaration_seen root depth) := s in
  match ev with
  | Start _ _ =>
      if root && (depth =? 0) then xml "multiple XML roots"
      else
        depth ← ok_or (MetadataError.Xml "XML nesting overflow") (u64_checked_add depth 1);
        Ok (XmlState.mk declaration_seen true depth)
  | Empty _ _ =>
      if depth =? 0
      then if root then xml "multiple XML roots" else Ok (XmlState.mk declaration_seen true depth)
      else Ok s
  | End _ => if depth =? 0 then xml "XML end without start" else Ok (XmlState.mk declaration_seen root (depth - 1))
  | Decl => if declaration_seen || root then xml "misplaced XML declaration" else Ok (XmlState.mk true root depth)
  | DocType _ => xml "doctype is not allowed in metadata XML"
  | Text t =>
      if XmlState.outside s then
        text ← decode_text unescape t;
        if negb (str_is_empty (trim text)) then xml "text outside XML root" else Ok s
      else Ok s
  | CData _ => if XmlState.outside s then xml "CDATA outside XML root" else Ok s
  | GeneralRef _ | Comment | PI => Ok s
  | Malformed m => xml m
  end.

Definition validate_xml (input : list event) : xresult unit :=
  s ← fold_result validate_step XmlState.default input;
  if XmlState.root s && (XmlState.depth s =? 0) then Ok tt else xml "incomplete XML document".
End xml.

Section compression.
Context (sha256_hex : list byte -> string).
Context (zstd_new : list byte -> result string reads) (gzip_new : list byte -> reads).

(** [DigestReader::read], [n] times: the state of the digest and the reads left; a read at the
    end or after an error adds nothing. *)
Fixpoint advance (n : nat) (s : StreamDigest.t) (r : reads) : result string (StreamDigest.t * reads) :=
  match n, r with
  | O, _ | _, [] => Ok (s, r)
  | S n, Err _ :: r => advance n s r
  | S n, Ok l :: r => s ← digest_read "compressed size overflow" s l; advance n s r
  end.

(** The checks at the first empty read. *)
Definition integrity_differs (record : MetadataRecord.t) (opened compressed : StreamDigest.t) : bool :=
  negb (StreamDigest.bytes compressed =? MetadataRecord.size record)
  || negb (bool_decide (sha256_hex (StreamDigest.hashed compressed) = MetadataRecord.checksum record))
  || negb (StreamDigest.bytes opened =? MetadataRecord.open_size record)
  || negb (bool_decide (sha256_hex (StreamDigest.hashed opened) = MetadataRecord.open_checksum record)).

(** [OpenVerifier::read], the decompressor returning [p]. *)
Definition open_read (record : MetadataRecord.t) (v : OpenVerifier.t) (p : Pull.t) :
    result string (list byte * OpenVerifier.t) :=
  '(compressed, rest) ← advance (Pull.advances p) (OpenVerifier.compressed v) (OpenVerifier.rest v);
  l ← Pull.produced p;
  n ← ok_or "open size overflow"
        (u64_checked_add (StreamDigest.bytes (OpenVerifier.opened v)) (N.of_nat (length l)));
  if MetadataRecord.open_size record <? n then Err "opened metadata exceeds declared size"
  else
    let opened := StreamDigest.mk (StreamDigest.hashed (OpenVerifier.opened v) ++ l) n in
    if bool_decide (l = []) && negb (OpenVerifier.checked v)
    then
      if integrity_differs record opened compressed then Err "metadata stream integrity mismatch"
      else Ok (l, OpenVerifier.mk opened compressed rest true)
    else Ok (l, OpenVerifier.mk opened compressed rest (OpenVerifier.checked v)).

(** What a client that reads to the end sees. *)
Fixpoint open_reads (record : MetadataRecord.t) (v : OpenVerifier.t) (pulls : list Pull.t) : reads :=
  match pulls with
  | [] =>
      match open_read record v (Pull.mk 0 (Ok [])) with
      | Ok _ => []
      | Err m => [Err m]
      end
  | p :: pulls =>
      match open_read record v p with
      | Ok ([], _) => []
      | Ok (l, v) => Ok l :: open_reads record v pulls
      | Err m => [Err m]
      end
  end.

(** [CapabilityVerifier::read]: like [open_read], but the opened stream is counted, not hashed. *)
Definition capability_read (record : MetadataRecord.t) (v : OpenVerifier.t) (p : Pull.t) :
    result string (list byte * OpenVerifier.t) :=
  '(compressed, rest) ← advance (Pull.advances p) (OpenVerifier.compressed v) (OpenVerifier.rest v);
  l ← Pull.produced p;
  n ← ok_or "open size overflow"
        (u64_checked_add (StreamDigest.bytes (OpenVerifier.opened v)) (N.of_nat (length l)));
  if MetadataRecord.open_size record <? n then Err "opened metadata exceeds declared size"
  else
    let opened := StreamDigest.mk [] n in
    if bool_decide (l = []) && negb (OpenVerifier.checked v)
    then
      if negb (StreamDigest.bytes compressed =? MetadataRecord.size record)
         || negb (bool_decide (sha256_hex (StreamDigest.hashed compressed) = MetadataRecord.checksum record))
         || negb (n =? MetadataRecord.open_size record)
      then Err "metadata capability integrity mismatch"
      else Ok (l, OpenVerifier.mk opened compressed rest true)
    else Ok (l, OpenVerifier.mk opened compressed rest (OpenVerifier.checked v)).

Fixpoint capability_reads (record : MetadataRecord.t) (v : OpenVerifier.t) (pulls : list Pull.t) : reads :=
  match pulls with
  | [] =>
      match capability_read record v (Pull.mk 0 (Ok [])) with
      | Ok _ => []
      | Err m => [Err m]
      end
  | p :: pulls =>
      match capability_read record v p with
      | Ok ([], _) => []
      | Ok (l, v) => Ok l :: capability_reads record v pulls
      | Err m => [Err m]
      end
  end.

(** The decompressors as readers over a buffered reader whose first buffer is [first]; the plain
    reader returns that buffer, then what it reads. *)
Context (zstd_stream : list byte -> reads -> result string (list Pull.t)).
Context (gzip_stream : list byte -> reads -> list Pull.t).

Definition plain_stream (first : list byte) (rest : reads) : list Pull.t :=
  Pull.mk 0 (Ok first) :: (Pull.mk 1 <$> rest).

Definition decoded_stream (format : MetadataEncoding) (first : list byte) (rest : reads) :
    result string (list Pull.t) :=
  match format with
  | Zstd => zstd_stream first rest
  | Gzip => Ok (gzip_stream first rest)
  | XmlText => Ok (plain_stream first rest)
  end.

(** The checks of the declared sizes, the first buffer and the decompressor it selects. *)
Definition open_stream (input : reads) (record : MetadataRecord.t) (max_compressed max_open : N) :
    xresult (OpenVerifier.t * list Pull.t) :=
  if max_compressed <? MetadataRecord.size record
  then Err (MetadataError.SizeMismatch max_compressed (MetadataRecord.size record))
  else if max_open <? MetadataRecord.open_size record
  then Err (MetadataError.SizeMismatch max_open (MetadataRecord.open_size record))
  else
    limit ← ok_or (MetadataError.LimitExceeded "compressed metadata" (MetadataRecord.size record) u64_max)
              (u64_checked_add (MetadataRecord.size record) 1);
    let hashed := take_reads limit input in
    '(first, rest) ← map_err MetadataError.Io (fill_buf hashed);
    compressed ← map_err MetadataError.Io (digest_read "compressed size overflow" StreamDigest.default first);
    pulls ← map_err MetadataError.Io (decoded_stream (encoding first) first rest);
    Ok (OpenVerifier.mk StreamDigest.default compressed rest false, pulls).

Definition verified_metadata_reader (input : reads) (record : MetadataRecord.t) (max_compressed max_open : N) :
    xresult reads :=
  '(v, pulls) ← open_stream input record max_compressed max_open; Ok (open_reads record v pulls).

Definition verified_filelists_reader (input : reads) (record : MetadataRecord.t) : xresult reads :=
  verified_metadata_reader input record MAX_FILELISTS_COMPRESSED_BYTES MAX_FILELISTS_OPEN_BYTES.

(** [io::copy] into a writer: what it has written, and the result.  The outcome of each
    [write_all] is given; no outcome is success. *)
Fixpoint copy_reads (r : reads) (writes : list (option string)) : list byte * result string N :=
  match r with
  | [] => ([], Ok 0)
  | Err m :: _ => ([], Err m)
  | Ok [] :: _ => ([], Ok 0)
  | Ok l :: r =>
      match writes with
      | Some m :: _ => ([], Err m)
      | _ =>
          let '(written, n) := copy_reads r (tail writes) in (l ++ written, N.add (N.of_nat (length l)) <$> n)
      end
  end.

Definition copy_record_verified (input : reads) (record : MetadataRecord.t) (max_compressed max_open : N)
    (writes : list (option string)) : list byte * xresult N :=
  match verified_metadata_reader input record max_compressed max_open with
  | Err e => ([], Err e)
  | Ok r => let '(written, n) := copy_reads r writes in (written, map_err MetadataError.Io n)
  end.

Definition copy_primary_record_verified (input : reads) (record : MetadataRecord.t) (writes : list (option string)) :
    list byte * xresult N :=
  copy_record_verified input record MAX_PRIMARY_COMPRESSED_BYTES MAX_PRIMARY_OPEN_BYTES writes.

Definition copy_filelists_record_verified (input : reads) (record : MetadataRecord.t) (writes : list (option string)) :
    list byte * xresult N :=
  copy_record_verified input record MAX_FILELISTS_COMPRESSED_BYTES MAX_FILELISTS_OPEN_BYTES writes.

(** ** Whole documents in memory *)

Definition open_bytes (l : list byte) (limit : N) : xresult (list byte) :=
  match encoding l with
  | Zstd =>
      r ← map_err MetadataError.Io (zstd_new l);
      map_err MetadataError.Io (read_to_end (take_reads limit r))
  | Gzip => map_err MetadataError.Io (read_to_end (take_reads limit (gzip_new l)))
  | XmlText => Ok l
  end.

Definition check_compressed (l : list byte) (size : N) (checksum : string) : xresult unit :=
  if negb (N.of_nat (length l) =? size) then Err (MetadataError.SizeMismatch size (N.of_nat (length l)))
  else if negb (bool_decide (sha256_hex l = checksum)) then Err MetadataError.ChecksumMismatch else Ok tt.

Definition decode_auxiliary (l : list byte) (record : AuxiliaryRecord.t) (maximum_open_bytes : N) :
    xresult (list byte) :=
  _ ← check_compressed l (AuxiliaryRecord.size record) (AuxiliaryRecord.checksum record);
  read_limit ← ok_or (MetadataError.InvalidNumber (display maximum_open_bytes))
                 (u64_checked_add maximum_open_bytes 1);
  output ← open_bytes l read_limit;
  if maximum_open_bytes <? N.of_nat (length output)
  then Err (MetadataError.LimitExceeded "opened auxiliary metadata" maximum_open_bytes (N.of_nat (length output)))
  else Ok output.

Definition verify_compressed (l : list byte) (record : MetadataRecord.t) : xresult unit :=
  check_compressed l (MetadataRecord.size record) (MetadataRecord.checksum record).

(** The tokenizer reads to the end of its input. *)
Context (unescape : string -> result string string) (tokenize : reads -> list event).

Definition decode_bounded (l : list byte) (record : MetadataRecord.t) (maximum : N) : xresult (list byte) :=
  _ ← verify_compressed l record;
  let expected_limit := MetadataRecord.open_size record in
  if maximum <? expected_limit then Err (MetadataError.SizeMismatch maximum expected_limit)
  else
    read_limit ← ok_or (MetadataError.InvalidNumber (display expected_limit)) (u64_checked_add expected_limit 1);
    output ← open_bytes l read_limit;
    if negb (N.of_nat (length output) =? expected_limit)
    then Err (MetadataError.SizeMismatch expected_limit (N.of_nat (length output)))
    else if negb (bool_decide (sha256_hex output = MetadataRecord.open_checksum record))
    then Err MetadataError.ChecksumMismatch
    else _ ← validate_xml unescape (tokenize [Ok output]); Ok output.

Definition decode_primary (l : list byte) (record : MetadataRecord.t) : xresult (list byte) :=
  decode_bounded l record MAX_PRIMARY_OPEN_BYTES.

Definition decode_record (l : list byte) (record : MetadataRecord.t) : xresult (list byte) :=
  decode_bounded l record MAX_FILELISTS_OPEN_BYTES.

(** ** Documents read under their records *)

Definition parse_filelists_record (input : reads) (record : MetadataRecord.t) : xresult (list FileListPackage.t) :=
  r ← verified_filelists_reader input record; parse_filelists unescape (tokenize r).

Definition validate_filelists_record (input : reads) (record : MetadataRecord.t) (primary : list CompletePackage.t) :
    xresult unit :=
  r ← verified_filelists_reader input record; validate_filelists_xml unescape (tokenize r) primary.

Definition validate_primary_record (sha256 : list byte -> list byte) (input : reads) (record : MetadataRecord.t) :
    xresult ValidatedPrimary.t :=
  r ← verified_metadata_reader input record MAX_PRIMARY_COMPRESSED_BYTES MAX_PRIMARY_OPEN_BYTES;
  parse_primary_validated unescape sha256 (tokenize r).

Definition validate_filelists_record_identities (input : reads) (record : MetadataRecord.t)
    (primary : list PrimaryPackageIdentity.t) : xresult unit :=
  r ← verified_filelists_reader input record; validate_filelists_xml_identities unescape (tokenize r) primary.

Definition visit_filelists_record_identities {V} (input : reads) (record : MetadataRecord.t)
    (primary : list PrimaryPackageIdentity.t) (visitor : V -> string -> string -> xresult V) (v : V) : xresult V :=
  r ← verified_filelists_reader input record; visit_filelists_xml_identities unescape (tokenize r) primary visitor v.

Context (utf8_error : list byte -> string).

Definition scan_validated_filelists_record_path (input : reads) (record : MetadataRecord.t) (target : string) :
    xresult (list string) :=
  r ← verified_filelists_reader input record; scan_validated_filelists_xml_path unescape utf8_error target r.

Definition scan_prevalidated_filelists_record_path (input : reads) (record : MetadataRecord.t) (target : string) :
    xresult (list string) :=
  '(v, pulls) ← open_stream input record MAX_FILELISTS_COMPRESSED_BYTES MAX_FILELISTS_OPEN_BYTES;
  scan_validated_filelists_xml_path unescape utf8_error target (capability_reads record v pulls).
End compression.
