(* ===== verification/CompressionFacts.v ===== *)
(** * Facts about verified decompression

    What the streaming verifier lets through is exactly the decompressed stream whose sizes and
    checksums are those of the record, and what is parsed from it was verified. *)
From Stdlib Require Import Ascii.
From S2P Require Import Prelude.
From S2P Require Import RustStr.
From S2P Require Import RustText.
From S2P Require Import Metadata.
From S2P Require Import Xml.
From S2P Require Import Repomd.
From S2P Require Import Filelists.
From S2P Require Import PathScanner.
From S2P Require Import Primary.
From S2P Require Import PrimaryFacts.
From S2P Require Import Compression.

#[local] Open Scope N_scope.

Definition len (l : list byte) : N := N.of_nat (length l).

Lemma len_app a b : len (a ++ b) = len a + len b.
Proof. unfold len. rewrite length_app. lia. Qed.

(** What [n] reads add. *)
Fixpoint advanced (n : nat) (r : reads) : list byte :=
  match n, r with
  | O, _ | _, [] => []
  | S n, Err _ :: r => advanced n r
  | S n, Ok l :: r => l ++ advanced n r
  end.

Fixpoint after (n : nat) (r : reads) : reads :=
  match n, r with O, _ | _, [] => r | S n, _ :: r => after n r end.

Definition available (r : reads) : list byte := concat ((fun x => match x with Ok l => l | Err _ => [] end) <$> r).

Lemma advanced_after n : forall r, advanced n r ++ available (after n r) = available r.
Proof.
  induction n as [|n IH]; intros r; [done |]. destruct r as [|[l|m] r]; [done | |]; cbn.
  - unfold available. cbn. rewrite <- app_assoc. f_equal. apply IH.
  - apply IH.
Qed.

Lemma take_reads_available r : forall limit, len (available (take_reads limit r)) <= limit.
Proof.
  induction r as [|[l|m] r IH]; intros limit; cbn; destruct (N.eqb_spec limit 0) as [->|Hl]; try (unfold len, available; cbn; lia).
  - unfold available. cbn. fold (available (take_reads (limit - N.of_nat (length (take (N.to_nat limit) l))) r)).
    rewrite len_app. specialize (IH (limit - N.of_nat (length (take (N.to_nat limit) l)))).
    assert (H : N.of_nat (length (take (N.to_nat limit) l)) <= limit) by (rewrite length_take; lia).
    unfold len in *. lia.
  - apply IH.
Qed.

Section facts.
Context (sha256_hex : list byte -> string).

(** A digest whose counter is right. *)
Definition counts (s : StreamDigest.t) : Prop := StreamDigest.bytes s = len (StreamDigest.hashed s).

Lemma digest_read_ok o s l : counts s -> len (StreamDigest.hashed s) + len l <= u64_max ->
  digest_read o s l = Ok (StreamDigest.mk (StreamDigest.hashed s ++ l) (len (StreamDigest.hashed s ++ l))).
Proof.
  unfold counts, digest_read, u64_checked_add. intros -> H. fold (len l). rewrite len_app.
  by rewrite (proj2 (N.leb_le _ _) H).
Qed.

Lemma advance_ok n : forall s r, counts s -> len (StreamDigest.hashed s) + len (available r) <= u64_max ->
  advance n s r = Ok (StreamDigest.mk (StreamDigest.hashed s ++ advanced n r)
                        (len (StreamDigest.hashed s ++ advanced n r)), after n r).
Proof.
  assert (Hnil : forall s, counts s -> s = StreamDigest.mk (StreamDigest.hashed s ++ []) (len (StreamDigest.hashed s ++ []))).
  { intros [h b]. unfold counts. cbn. rewrite app_nil_r. by intros ->. }
  induction n as [|n IH]; intros s r Hs Hb; [by cbn; rewrite <- Hnil |].
  destruct r as [|[l|m] r]; cbn [advance advanced after]; [by rewrite <- Hnil | |].
  - unfold available in Hb. cbn in Hb. fold (available r) in Hb. rewrite len_app in Hb.
    rewrite digest_read_ok by (done || lia). cbn [mbind result_mbind]. rewrite IH; cbn [StreamDigest.hashed].
    + by rewrite <- app_assoc.
    + done.
    + rewrite len_app. lia.
  - apply IH; [done |]. unfold available in *. by cbn in Hb.
Qed.

(** ** The verifier against the record *)

(** The bytes of a stream that ends without an error, and what was read of its input. *)
Fixpoint stream_ends (pulls : list Pull.t) (r : reads) : option (list byte * list byte) :=
  match pulls with
  | [] => Some ([], [])
  | Pull.mk n (Err _) :: _ => None
  | Pull.mk n (Ok []) :: _ => Some ([], advanced n r)
  | Pull.mk n (Ok l) :: pulls =>
      '(out, used) ← stream_ends pulls (after n r); Some (l ++ out, advanced n r ++ used)
  end.

Variable record : MetadataRecord.t.

(** The opened and the compressed stream are those of the record. *)
Definition matches (out used : list byte) : Prop :=
  len out = MetadataRecord.open_size record /\ sha256_hex out = MetadataRecord.open_checksum record /\
  len used = MetadataRecord.size record /\ sha256_hex used = MetadataRecord.checksum record.

Definition ready (v : OpenVerifier.t) : Prop :=
  counts (OpenVerifier.opened v) /\ counts (OpenVerifier.compressed v) /\ OpenVerifier.checked v = false /\
  len (StreamDigest.hashed (OpenVerifier.compressed v)) + len (available (OpenVerifier.rest v)) <= u64_max.

Lemma integrity_spec o c : counts o -> counts c ->
  integrity_differs sha256_hex record o c = false <-> matches (StreamDigest.hashed o) (StreamDigest.hashed c).
Proof.
  unfold counts, integrity_differs, matches. intros -> ->.
  rewrite !orb_false_iff, !negb_false_iff, !N.eqb_eq, !bool_decide_eq_true. tauto.
Qed.

(** The verifier after a read of [l] that advanced its input [n] times. *)
Definition moved (v : OpenVerifier.t) (n : nat) (l : list byte) : OpenVerifier.t :=
  let out := StreamDigest.hashed (OpenVerifier.opened v) ++ l in
  let used := StreamDigest.hashed (OpenVerifier.compressed v) ++ advanced n (OpenVerifier.rest v) in
  OpenVerifier.mk (StreamDigest.mk out (len out)) (StreamDigest.mk used (len used)) (after n (OpenVerifier.rest v))
    (OpenVerifier.checked v).

Lemma moved_ready v n l : ready v -> ready (moved v n l).
Proof.
  intros (_ & _ & Hch & Hb). unfold ready, moved, counts. cbn. split_and!; try done.
  rewrite len_app, <- N.add_assoc, <- len_app, advanced_after. done.
Qed.

Lemma open_read_spec v n l : ready v -> open_read sha256_hex record v (Pull.mk n (Ok l)) =
  if (u64_max <? len (StreamDigest.hashed (OpenVerifier.opened v) ++ l)) then Err "open size overflow"
  else if (MetadataRecord.open_size record <? len (StreamDigest.hashed (OpenVerifier.opened v) ++ l))
  then Err "opened metadata exceeds declared size"
  else if bool_decide (l = []) then
    if integrity_differs sha256_hex record (OpenVerifier.opened (moved v n l)) (OpenVerifier.compressed (moved v n l))
    then Err "metadata stream integrity mismatch"
    else Ok (l, OpenVerifier.mk (OpenVerifier.opened (moved v n l)) (OpenVerifier.compressed (moved v n l))
                  (OpenVerifier.rest (moved v n l)) true)
  else Ok (l, moved v n l).
Proof.
  intros (Ho & Hc & Hch & Hb). unfold open_read. cbn [Pull.advances Pull.produced]. rewrite advance_ok by done.
  cbn [mbind result_mbind]. unfold u64_checked_add. rewrite Ho. fold (len l). rewrite <- len_app.
  destruct (N.leb_spec (len (StreamDigest.hashed (OpenVerifier.opened v) ++ l)) u64_max) as [Hle|Hgt].
  - rewrite (proj2 (N.ltb_ge _ _) Hle). cbn [ok_or mbind result_mbind]. destruct (_ <? _); [done |]. rewrite Hch.
    cbn [negb]. rewrite andb_true_r. unfold moved. rewrite Hch. by case_bool_decide.
  - by rewrite (proj2 (N.ltb_lt _ _) Hgt).
Qed.

Lemma open_read_end v n : ready v -> len (StreamDigest.hashed (OpenVerifier.opened v)) <= u64_max ->
  is_ok (open_read sha256_hex record v (Pull.mk n (Ok []))) = true <->
  matches (StreamDigest.hashed (OpenVerifier.opened v))
    (StreamDigest.hashed (OpenVerifier.compressed v) ++ advanced n (OpenVerifier.rest v)).
Proof.
  intros Hv Hmax. rewrite open_read_spec, app_nil_r by done. rewrite (proj2 (N.ltb_ge _ _) Hmax).
  set (c := _ ++ advanced _ _).
  assert (Hi : integrity_differs sha256_hex record (OpenVerifier.opened (moved v n [])) (OpenVerifier.compressed (moved v n []))
    = false <-> matches (StreamDigest.hashed (OpenVerifier.opened v)) c).
  { rewrite integrity_spec by done. cbn. by rewrite app_nil_r. }
  destruct (N.ltb_spec (MetadataRecord.open_size record) (len (StreamDigest.hashed (OpenVerifier.opened v)))) as [Hgt|Hle].
  { split; [done |]. intros (H & _). lia. }
  cbn [bool_decide_eq_true]. rewrite bool_decide_true by done.
  destruct (integrity_differs _ _ _ _); [| by split; [intros _; apply Hi |]].
  split; [done |]. intros H. by apply Hi in H.
Qed.

(** A read that returns an error or nothing leaves nothing for the client. *)
Definition stop_reads (x : result string (list byte * OpenVerifier.t)) : reads :=
  match x with Ok _ => [] | Err m => [Err m] end.

Lemma open_reads_stop v n o : ready v -> len (StreamDigest.hashed (OpenVerifier.opened v)) <= u64_max ->
  read_to_end (stop_reads (open_read sha256_hex record v (Pull.mk n (Ok [])))) = Ok o <-> o = [] /\ matches (StreamDigest.hashed (OpenVerifier.opened v))
    (StreamDigest.hashed (OpenVerifier.compressed v) ++ advanced n (OpenVerifier.rest v)).
Proof.
  intros Hv Hmax. rewrite <- open_read_end by done. destruct (open_read _ _ _ _) as [x|m]; cbn.
  - split; [by intros [= <-] | by intros [-> _]].
  - split; [done | by intros [_ ?]].
Qed.

Lemma open_reads_exact pulls (Hopen : MetadataRecord.open_size record <= u64_max) : forall v o, ready v ->
  len (StreamDigest.hashed (OpenVerifier.opened v)) <= u64_max ->
  read_to_end (open_reads sha256_hex record v pulls) = Ok o <->
  exists used, stream_ends pulls (OpenVerifier.rest v) = Some (o, used) /\
    matches (StreamDigest.hashed (OpenVerifier.opened v) ++ o) (StreamDigest.hashed (OpenVerifier.compressed v) ++ used).
Proof.
  induction pulls as [|[n [[|b l]|m]] pulls IH]; intros v o Hv Hmax.
  - change (open_reads sha256_hex record v []) with (stop_reads (open_read sha256_hex record v (Pull.mk 0 (Ok [])))).
    rewrite (open_reads_stop v 0 o) by done. cbn [advanced stream_ends]. split.
    + intros [-> H]. exists []. by rewrite app_nil_r.
    + intros (used & [= <- <-] & H). by rewrite app_nil_r in H.
  - replace (open_reads sha256_hex record v (Pull.mk n (Ok []) :: pulls)) with
      (stop_reads (open_read sha256_hex record v (Pull.mk n (Ok []))))
      by (cbn [open_reads]; rewrite open_read_spec by done; by repeat case_match; simplify_eq).
    rewrite (open_reads_stop v n o) by done. cbn [stream_ends]. split.
    + intros [-> H]. eexists. rewrite app_nil_r. eauto.
    + intros (used & [= <- <-] & H). by rewrite app_nil_r in H.
  - cbn [open_reads stream_ends]. rewrite open_read_spec by done. rewrite bool_decide_false by done.
    set (all := StreamDigest.hashed (OpenVerifier.opened v) ++ b :: l).
    assert (Hlong : MetadataRecord.open_size record < len all -> forall o' u, ~ matches (all ++ o') u).
    { intros H o' u (H1 & _). rewrite len_app in H1. lia. }
    assert (Hright : MetadataRecord.open_size record < len all -> ~ exists used,
      ('(out, used) ← stream_ends pulls (after n (OpenVerifier.rest v)); Some ((b :: l) ++ out, advanced n (OpenVerifier.rest v) ++ used))
        = Some (o, used) /\ matches (StreamDigest.hashed (OpenVerifier.opened v) ++ o)
                              (StreamDigest.hashed (OpenVerifier.compressed v) ++ used)).
    { intros H (used & Hs & Hm). destruct (stream_ends _ _) as [[o1 u1]|]; [| done]. cbn in Hs. injection Hs as <- <-.
      change (b :: l ++ o1) with ((b :: l) ++ o1) in Hm. rewrite app_assoc in Hm. by apply (Hlong H) in Hm. }
    destruct (N.ltb_spec u64_max (len all)) as [H1|H1]; [split; [done |]; intros H; exfalso; apply Hright; [lia | exact H] |].
    destruct (N.ltb_spec (MetadataRecord.open_size record) (len all)) as [H2|H2];
      [split; [done |]; intros H; exfalso; by apply Hright |].
    cbn [read_to_end]. rewrite fmap_ok. specialize (IH (moved v n (b :: l))).
    assert (Hm := moved_ready v n (b :: l) Hv). split.
    + intros (o1 & Ho1 & <-). apply IH in Ho1 as (used & Hs & Hmt); [| done..]. cbn in Hs. rewrite Hs.
      eexists. split; [done |]. rewrite !app_assoc. exact Hmt.
    + intros (used & Hs & Hmt). destruct (stream_ends _ _) as [[o1 u1]|] eqn:Es; [| done]. cbn in Hs. injection Hs as <- <-.
      exists o1. split; [| done]. apply IH; [done..|]. exists u1. split; [done |]. cbn.
      rewrite <- !app_assoc. exact Hmt.
  - cbn [open_reads stream_ends]. unfold open_read. cbn [Pull.advances Pull.produced].
    destruct Hv as (Ho & Hc & Hch & Hb). rewrite advance_ok by done. cbn. split; [done | by intros (? & ? & _)].
Qed.

(** ** Readers of records *)

Context (zstd_stream : list byte -> reads -> result string (list Pull.t)).
Context (gzip_stream : list byte -> reads -> list Pull.t).

(** The decompressed stream of an input cut after [limit] bytes, and what was read of it. *)
Definition decompressed (limit : N) (input : reads) (out used : list byte) : Prop :=
  exists first rest pulls read,
    fill_buf (take_reads limit input) = Ok (first, rest) /\
    decoded_stream zstd_stream gzip_stream (encoding first) first rest = Ok pulls /\
    stream_ends pulls rest = Some (out, read) /\ used = first ++ read.

Lemma fill_buf_available r first rest : fill_buf r = Ok (first, rest) -> available r = first ++ available rest.
Proof. destruct r as [|[l|m] r]; cbn; [by intros [= <- <-] | by intros [= <- <-] | done]. Qed.

Lemma verified_reader_spec input mc mo out (Hopen : MetadataRecord.open_size record <= u64_max) :
  (exists r, verified_metadata_reader sha256_hex zstd_stream gzip_stream input record mc mo = Ok r /\ read_to_end r = Ok out) <->
  MetadataRecord.size record <= mc /\ MetadataRecord.open_size record <= mo /\ MetadataRecord.size record < u64_max /\
  exists used, decompressed (MetadataRecord.size record + 1) input out used /\ matches out used.
Proof.
  unfold verified_metadata_reader, open_stream, u64_checked_add.
  destruct (N.ltb_spec mc (MetadataRecord.size record)); [split; [by intros (? & ? & _) | lia] |].
  destruct (N.ltb_spec mo (MetadataRecord.open_size record)); [split; [by intros (? & ? & _) | lia] |].
  destruct (N.leb_spec (MetadataRecord.size record + 1) u64_max) as [Hlim|]; [| split; [by intros (? & ? & _) | lia]].
  cbn [ok_or mbind result_mbind]. unfold decompressed. set (hashed := take_reads _ input).
  assert (Hav : len (available hashed) <= u64_max).
  { etrans; [apply take_reads_available | done]. }
  destruct (fill_buf hashed) as [[first rest]|m] eqn:Hf; cbn [map_err mbind result_mbind];
    [| split; [by intros (? & ? & _) | by intros (_ & _ & _ & ? & (? & ? & ? & ? & ? & _) & _)]].
  apply fill_buf_available in Hf. rewrite Hf, len_app in Hav.
  rewrite digest_read_ok; [| done | change (0 + len first <= u64_max); lia]. cbn [map_err mbind result_mbind StreamDigest.hashed StreamDigest.default app].
  destruct (decoded_stream _ _ _ _ _) as [pulls|m] eqn:Hd; cbn [map_err mbind result_mbind];
    [| split; [by intros (? & ? & _) | intros (_ & _ & _ & ? & (? & ? & ? & ? & [= <- <-] & Hd' & _) & _); congruence]].
  set (v := OpenVerifier.mk _ _ _ _).
  assert (Hv : ready v) by (split_and!; [done | done | done | exact Hav]).
  assert (Hv0 : len (StreamDigest.hashed (OpenVerifier.opened v)) <= u64_max) by (change (0 <= u64_max); unfold u64_max; lia).
  pose proof (open_reads_exact pulls Hopen v out Hv Hv0) as Hex. cbn [v OpenVerifier.opened OpenVerifier.compressed
    OpenVerifier.rest StreamDigest.hashed StreamDigest.default app] in Hex. split.
  - intros (r & [= <-] & Hr). apply Hex in Hr as (used & Hs & Hm). split_and!; [done | done | lia |].
    exists (first ++ used). split; [by eexists _, _, _, _ | done].
  - intros (_ & _ & _ & used & (f' & r' & p' & read & [= <- <-] & Hd' & Hs & ->) & Hm). eexists. split; [done |].
    apply Hex. rewrite Hd in Hd'. injection Hd' as <-. eauto.
Qed.

Lemma available_take r : forall limit, available (take_reads limit r) = take (N.to_nat limit) (available r).
Proof.
  induction r as [|[l|m] r IH]; intros limit; cbn; destruct (N.eqb_spec limit 0) as [->|Hl]; try done.
  - by rewrite take_nil.
  - unfold available. cbn. fold (available r). unfold available in IH. rewrite IH, take_app. f_equal. f_equal.
    rewrite length_take. lia.
  - apply IH.
Qed.

Lemma stream_ends_prefix pulls : forall r o u, stream_ends pulls r = Some (o, u) -> exists t, available r = u ++ t.
Proof.
  induction pulls as [|[n [[|b l]|m]] pulls IH]; intros r o u; cbn; [| | |done].
  - intros [= <- <-]. by eexists.
  - intros [= <- <-]. by rewrite <- (advanced_after n r); eexists.
  - destruct (stream_ends pulls (after n r)) as [[o1 u1]|] eqn:Hs; [| done]. cbn. intros [= <- <-].
    apply IH in Hs as (t & Ht). exists t. by rewrite <- (advanced_after n r), Ht, app_assoc.
Qed.

(** What was read of the input is its first bytes, as many as the record says. *)
Lemma decompressed_used limit input out used : decompressed limit input out used ->
  len used = MetadataRecord.size record -> used = take (N.to_nat (MetadataRecord.size record)) (available input).
Proof.
  intros (first & rest & pulls & read & Hf & _ & Hs & ->) Hlen. apply fill_buf_available in Hf.
  apply stream_ends_prefix in Hs as (t & Ht). rewrite available_take, Ht, app_assoc in Hf.
  assert (Hu : take (length (first ++ read)) (take (N.to_nat limit) (available input)) = first ++ read)
    by (rewrite Hf; by rewrite take_app_length).
  unfold len in Hlen. rewrite <- Hlen, Nat2N.id. rewrite take_take in Hu.
  assert (Hle : (length (first ++ read) <= N.to_nat limit)%nat).
  { apply (f_equal length) in Hu. rewrite length_take in Hu. lia. }
  by rewrite Nat.min_l in Hu by done.
Qed.

(** The record and its limits, for the document [out] opened from [input]. *)
Definition verified (mc mo : N) (input : reads) (out : list byte) : Prop :=
  MetadataRecord.size record <= mc /\ MetadataRecord.open_size record <= mo /\
  matches out (take (N.to_nat (MetadataRecord.size record)) (available input)).

(** ** Documents read under their records *)

Section documents.
Context (unescape : string -> result string string) (tokenize : reads -> list event).

(** An error of a read reaches the reader of the document. *)
Definition reports_errors : Prop := forall r m, read_to_end r = Err m -> exists m', Malformed m' ∈ tokenize r.

Lemma document_verified {A} (parse : list event -> xresult A) input mc mo a :
  MetadataRecord.open_size record <= u64_max -> reports_errors ->
  (forall evs m, Malformed m ∈ evs -> is_ok (parse evs) = false) ->
  (r ← verified_metadata_reader sha256_hex zstd_stream gzip_stream input record mc mo; parse (tokenize r)) = Ok a ->
  exists r out, read_to_end r = Ok out /\ verified mc mo input out /\ parse (tokenize r) = Ok a.
Proof.
  intros Hopen Htok Hparse (r & Hr & Hp)%bind_ok. exists r. destruct (read_to_end r) as [out|m] eqn:Hend.
  - exists out. split; [done |]. split; [| done].
    destruct (proj1 (verified_reader_spec input mc mo out Hopen)) as (H1 & H2 & _ & used & Hd & Hm); [eauto |].
    split; [done |]. split; [done |]. erewrite <- decompressed_used; [exact Hm | exact Hd |]. by destruct Hm as (_ & _ & ? & _).
  - apply Htok in Hend as (m' & Hin). apply Hparse in Hin. by rewrite Hp in Hin.
Qed.

Lemma fold_malformed {S} (f : S -> event -> xresult S) s evs m :
  (forall s, is_ok (f s (Malformed m)) = false) -> Malformed m ∈ evs -> is_ok (fold_result f s evs) = false.
Proof.
  intros Hf Hin. destruct (fold_result f s evs) as [s'|e] eqn:Hfold; [| done].
  destruct (fold_result_accepts f evs s s' _ Hfold Hin) as (s1 & s2 & H). specialize (Hf s1). by rewrite H in Hf.
Qed.

Lemma bind_failed {A B} (x : xresult A) (k : A -> xresult B) : is_ok x = false -> is_ok (x ≫= k) = false.
Proof. by destruct x. Qed.
Lemma fmap_failed {A B} (x : xresult A) (f : A -> B) : is_ok x = false -> is_ok (f <$> x) = false.
Proof. by destruct x. Qed.

Lemma filelists_malformed V keep visit (v : V) evs m : Malformed m ∈ evs ->
  is_ok (parse_filelists_with_mode unescape keep visit v evs) = false.
Proof. intros H. apply bind_failed. by eapply fold_malformed. Qed.

Lemma primary_malformed sha256 keep evs m : Malformed m ∈ evs ->
  is_ok (parse_with_mode unescape sha256 evs keep) = false.
Proof. intros H. apply bind_failed. by eapply fold_malformed. Qed.
End documents.
End facts.

(** C31: reading to the end through the verifier succeeds exactly when the record is within its
    limits, the decompressor ends without an error, and both the bytes it was given and the bytes
    it gave have the sizes and checksums of the record; what is read is what it gave. *)
Theorem verified_metadata_reader_exact (sha256_hex : list byte -> string)
    (zstd_stream : list byte -> reads -> result string (list Pull.t)) (gzip_stream : list byte -> reads -> list Pull.t)
    (record : MetadataRecord.t) (input : reads) (max_compressed max_open : N) (out : list byte)
    (Hopen : MetadataRecord.open_size record <= u64_max) :
  (exists r, verified_metadata_reader sha256_hex zstd_stream gzip_stream input record max_compressed max_open = Ok r /\
     read_to_end r = Ok out) <->
  MetadataRecord.size record <= max_compressed /\ MetadataRecord.open_size record <= max_open /\
  MetadataRecord.size record < u64_max /\
  exists used, decompressed zstd_stream gzip_stream (MetadataRecord.size record + 1) input out used /\
    matches sha256_hex record out used.
Proof. by apply verified_reader_spec. Qed.

(** Primary metadata and filelists that are accepted under their records were parsed from a
    document with the size and checksum of the record, opened from the first bytes of the input,
    as many as the record says and with the checksum it says. *)
Theorem records_verified (sha256_hex : list byte -> string) (sha256 : list byte -> list byte)
    (zstd_stream : list byte -> reads -> result string (list Pull.t)) (gzip_stream : list byte -> reads -> list Pull.t)
    (unescape : string -> result string string) (tokenize : reads -> list event)
    (record : MetadataRecord.t) (input : reads)
    (Hopen : MetadataRecord.open_size record <= u64_max) (Htokenize : reports_errors tokenize) :
  (forall v, validate_primary_record sha256_hex zstd_stream gzip_stream unescape tokenize sha256 input record = Ok v ->
     exists r out, read_to_end r = Ok out /\
       verified sha256_hex record MAX_PRIMARY_COMPRESSED_BYTES MAX_PRIMARY_OPEN_BYTES input out /\
       parse_primary_validated unescape sha256 (tokenize r) = Ok v) /\
  (forall l, parse_filelists_record sha256_hex zstd_stream gzip_stream unescape tokenize input record = Ok l ->
     exists r out, read_to_end r = Ok out /\
       verified sha256_hex record MAX_FILELISTS_COMPRESSED_BYTES MAX_FILELISTS_OPEN_BYTES input out /\
       parse_filelists unescape (tokenize r) = Ok l) /\
  (forall primary, validate_filelists_record_identities sha256_hex zstd_stream gzip_stream unescape tokenize input record primary = Ok tt ->
     exists r out, read_to_end r = Ok out /\
       verified sha256_hex record MAX_FILELISTS_COMPRESSED_BYTES MAX_FILELISTS_OPEN_BYTES input out /\
       validate_filelists_xml_identities unescape (tokenize r) primary = Ok tt).
Proof.
  split_and!; intros a Ha.
  - eapply (document_verified _ _ _ _ _ (parse_primary_validated unescape sha256)); [done | done | | exact Ha].
    intros evs m Hm. apply fmap_failed. by eapply primary_malformed.
  - eapply (document_verified _ _ _ _ _ (parse_filelists unescape)); [done | done | | exact Ha].
    intros evs m Hm. apply fmap_failed. by eapply filelists_malformed.
  - eapply (document_verified _ _ _ _ _ (fun evs => validate_filelists_xml_identities unescape evs a));
      [done | done | | exact Ha].
    intros evs m Hm. apply bind_failed. by eapply filelists_malformed.
Qed.

Module CompressionExamples.
Definition no_zstd (_ : list byte) (_ : reads) : result string (list Pull.t) := Err "not linked".
Definition no_gzip (_ : list byte) (_ : reads) : list Pull.t := [].
Definition text : list byte := bytes "<metadata/>".
Definition input : reads := [Ok (bytes "<meta"); Ok (bytes "data/>trailing")].
(** The identity stands for the digest. *)
Definition record : MetadataRecord.t := MetadataRecord.mk "repodata/primary.xml" "<metadata/>" 11 "<metadata/>" 11.
Definition document : list event :=
  PrimaryExamples.document (PrimaryFacts.PrimaryExamples.field "file" "/usr/bin/bash").
Definition tokenize (r : reads) : list event :=
  match read_to_end r with Ok _ => document | Err m => [Malformed m] end.
Definition exact_input : reads := [Ok (bytes "<meta"); Ok (bytes "data/>")].
End CompressionExamples.

Lemma verified_metadata_reader_exact_witness :
  exists r, verified_metadata_reader of_bytes CompressionExamples.no_zstd CompressionExamples.no_gzip
    CompressionExamples.exact_input CompressionExamples.record 100 100 = Ok r /\
    read_to_end r = Ok CompressionExamples.text.
Proof.
  apply (verified_metadata_reader_exact of_bytes CompressionExamples.no_zstd CompressionExamples.no_gzip
    CompressionExamples.record CompressionExamples.exact_input 100 100 CompressionExamples.text).
  - vm_compute. discriminate.
  - split_and!; [vm_compute; discriminate | vm_compute; discriminate | vm_compute; reflexivity |].
    exists CompressionExamples.text. split.
    + exists (bytes "<meta"), [Ok (bytes "data/>")], (plain_stream (bytes "<meta") [Ok (bytes "data/>")]), (bytes "data/>").
      split_and!; vm_compute; reflexivity.
    + split_and!; vm_compute; reflexivity.
Defined.

Lemma records_verified_witness :
  exists v, validate_primary_record of_bytes CompressionExamples.no_zstd CompressionExamples.no_gzip Ok
      CompressionExamples.tokenize id CompressionExamples.exact_input CompressionExamples.record = Ok v /\
    exists r out, read_to_end r = Ok out /\
      verified of_bytes CompressionExamples.record MAX_PRIMARY_COMPRESSED_BYTES MAX_PRIMARY_OPEN_BYTES
        CompressionExamples.exact_input out /\
      parse_primary_validated Ok id (CompressionExamples.tokenize r) = Ok v.
Proof.
  eexists. assert (H : validate_primary_record of_bytes CompressionExamples.no_zstd CompressionExamples.no_gzip Ok
      CompressionExamples.tokenize id CompressionExamples.exact_input CompressionExamples.record = Ok _)
    by (vm_compute; reflexivity).
  split; [exact H |].
  assert (Ht : reports_errors CompressionExamples.tokenize).
  { intros r m Hr. exists m. unfold CompressionExamples.tokenize. rewrite Hr. left. }
  assert (Ho : MetadataRecord.open_size CompressionExamples.record <= u64_max) by (vm_compute; discriminate).
  exact (proj1 (records_verified of_bytes id CompressionExamples.no_zstd CompressionExamples.no_gzip Ok
    CompressionExamples.tokenize CompressionExamples.record CompressionExamples.exact_input Ho Ht) _ H).
Defined.

(** A compressed file with bytes after those of the record is refused. *)
Example trailing_bytes_refused :
  read_to_end <$> verified_metadata_reader of_bytes CompressionExamples.no_zstd CompressionExamples.no_gzip
    CompressionExamples.input CompressionExamples.record 100 100 = Ok (Err "opened metadata exceeds declared size").
Proof. vm_compute. reflexivity. Qed.
