(* ===== verification/UpdateInfo.v ===== *)
(** * Advisories ([dnfast-metadata]: updateinfo.rs)

    The reader of updateinfo.xml, as a fold over the events of the document with a stack of the
    open elements, and what an accepted document guarantees. *)
From Stdlib Require Import Ascii.
From S2P Require Import Prelude.
From S2P Require Import RustStr.
From S2P Require Import RustText.
From S2P Require Import Metadata.
From S2P Require Import Xml.

#[local] Open Scope N_scope.

Definition MAX_ADVISORIES : N := 250000.
Definition MAX_UPDATE_PACKAGES : N := 4000000.
Definition MAX_PACKAGES_PER_ADVISORY : N := 100000.
Definition MAX_REFERENCES_PER_ADVISORY : N := 100000.
Definition MAX_TEXT_BYTES : N := 4 * 1024 * 1024.
Definition MAX_DEPTH : N := 64.

(** ** Data *)

Module AdvisoryReference.
Record t : Type := mk { id : string; kind : string; href : string; title : string }.
#[global] Instance advisory_reference_eq_dec : EqDecision t.
Proof. solve_decision. Defined.
Definition tuple (r : t) := (id r, (kind r, (href r, title r))).
#[global] Instance advisory_reference_ord : RustOrd t := ord_on tuple.
#[global] Instance advisory_reference_ord_laws : RustOrdLaws t.
Proof. apply (ord_on_laws tuple). by intros [] [] [= -> -> -> ->]. Qed.
End AdvisoryReference.

Module AdvisoryPackage.
Record t : Type := mk {
  name : string;
  epoch : N;
  version : string;
  release : string;
  arch : string;
  filename : string
}.
#[global] Instance advisory_package_eq_dec : EqDecision t.
Proof. solve_decision. Defined.
Definition tuple (p : t) := (name p, (epoch p, (version p, (release p, (arch p, filename p))))).
#[global] Instance advisory_package_ord : RustOrd t := ord_on tuple.
#[global] Instance advisory_package_ord_laws : RustOrdLaws t.
Proof. apply (ord_on_laws tuple). by intros [] [] [= -> -> -> -> -> ->]. Qed.
Definition set_filename (v : string) (p : t) : t := mk (name p) (epoch p) (version p) (release p) (arch p) v.
End AdvisoryPackage.

(** [Advisory], and [AdvisoryBuilder], which has the same fields. *)
Module Advisory.
Record t : Type := mk {
  id : string;
  title : string;
  kind : string;
  status : string;
  severity : string;
  issued : string;
  updated : string;
  summary : string;
  description : string;
  references : list AdvisoryReference.t;
  packages : list AdvisoryPackage.t
}.
Definition started (kind status : string) : t := mk "" "" kind status "" "" "" "" "" [] [].
Definition set_id v a := let 'mk _ b c d e f g h i j k := a in mk v b c d e f g h i j k.
Definition set_title v x := let 'mk a _ c d e f g h i j k := x in mk a v c d e f g h i j k.
Definition set_severity v x := let 'mk a b c d _ f g h i j k := x in mk a b c d v f g h i j k.
Definition set_issued v x := let 'mk a b c d e _ g h i j k := x in mk a b c d e v g h i j k.
Definition set_updated v x := let 'mk a b c d e f _ h i j k := x in mk a b c d e f v h i j k.
Definition set_summary v x := let 'mk a b c d e f g _ i j k := x in mk a b c d e f g v i j k.
Definition set_description v x := let 'mk a b c d e f g h _ j k := x in mk a b c d e f g h v j k.
Definition set_references v x := let 'mk a b c d e f g h i _ k := x in mk a b c d e f g h i v k.
Definition set_packages v x := let 'mk a b c d e f g h i j _ := x in mk a b c d e f g h i j v.
End Advisory.

Module TextTarget.
Inductive t : Type := Id | Title | Severity | Summary | Description | Filename.
#[global] Instance text_target_eq_dec : EqDecision t.
Proof. solve_decision. Defined.
End TextTarget.

Module UpdateState.
Record t : Type := mk {
  stack : list string;
  advisories : list Advisory.t;
  advisory : option Advisory.t;
  package : option AdvisoryPackage.t;
  text : option (TextTarget.t * string);
  declaration_seen : bool;
  root_closed : bool
}.
Definition default : t := mk [] [] None None None false false.
Definition set_stack v (s : t) := let 'mk _ b c d e f g := s in mk v b c d e f g.
Definition set_advisories v (s : t) := let 'mk a _ c d e f g := s in mk a v c d e f g.
Definition set_advisory v (s : t) := let 'mk a b _ d e f g := s in mk a b v d e f g.
Definition set_package v (s : t) := let 'mk a b c _ e f g := s in mk a b c v e f g.
Definition set_text v (s : t) := let 'mk a b c d _ f g := s in mk a b c d v f g.
Definition see_declaration (s : t) := let 'mk a b c d e _ g := s in mk a b c d e true g.
Definition close_root (s : t) := let 'mk a b c d e f _ := s in mk a b c d e f true.
Definition outside (s : t) : bool := bool_decide (stack s = []) || root_closed s.
End UpdateState.

Abbreviation state := UpdateState.t.

(** ** Checks *)

Definition char_is_allowed (c : N) : bool := negb (char_is_control c) || (c =? 10) || (c =? 9).

Definition validate_text (value label : string) : xresult unit :=
  if str_is_empty value || negb (forallb char_is_allowed (chars value)) then xml ("invalid " +:+ label) else Ok tt.

Definition validate_token (value label : string) : xresult unit :=
  _ ← validate_text value label;
  if existsb char_is_whitespace (chars value) then xml ("invalid " +:+ label) else Ok tt.

Definition set_once (target value label : string) (token : bool) : xresult string :=
  if negb (str_is_empty target) then xml ("duplicate " +:+ label)
  else _ ← (if token then validate_token value label else validate_text value label); Ok value.

Definition append (target value : string) : xresult string :=
  let target := target +:+ value in
  _ ← checked_limit (str_len target) MAX_TEXT_BYTES "updateinfo XML text"; Ok target.

Definition reject_prefixed (name : string) : xresult unit :=
  if prefixed name then xml "unexpected updateinfo namespace prefix" else Ok tt.

Definition required_attribute (e : element) (name label : string) : xresult string :=
  v ← attribute_streaming e name; ok_or (MetadataError.Xml ("missing required " +:+ label)) v.

Definition required_advisory (a : option Advisory.t) : xresult Advisory.t :=
  ok_or (MetadataError.Xml "advisory field outside advisory") a.

(** ** Elements *)

Definition start_advisory (e : element) : xresult Advisory.t :=
  kind ← required_attribute e "type" "advisory type";
  status ← required_attribute e "status" "advisory status";
  _ ← validate_token kind "advisory type";
  _ ← validate_token status "advisory status";
  Ok (Advisory.started kind status).

Definition start_package (e : element) : xresult AdvisoryPackage.t :=
  name ← required_attribute e "name" "package name";
  epoch ← required_attribute e "epoch" "package epoch";
  epoch ← ok_or (MetadataError.Xml "invalid package epoch") (parse_unsigned u64_max epoch);
  version ← required_attribute e "version" "package version";
  release ← required_attribute e "release" "package release";
  arch ← required_attribute e "arch" "package architecture";
  _ ← for_each (fun '(value, label) => validate_token value label)
        [(name, "package name"); (version, "package version"); (release, "package release");
         (arch, "package architecture")];
  Ok (AdvisoryPackage.mk name epoch version release arch "").

Definition target (parent : option string) (name : string) (in_advisory in_package : bool) : option TextTarget.t :=
  if in_package && bool_decide (parent = Some "package") && bool_decide (name = "filename")
  then Some TextTarget.Filename
  else if negb in_advisory then None
  else if bool_decide (parent = Some "update") then
    if bool_decide (name = "id") then Some TextTarget.Id
    else if bool_decide (name = "title") then Some TextTarget.Title
    else if bool_decide (name = "severity") then Some TextTarget.Severity
    else if bool_decide (name = "summary") then Some TextTarget.Summary
    else if bool_decide (name = "description") then Some TextTarget.Description
    else None
  else None.

(** The text of [target] is complete. *)
Definition finish_field (target : TextTarget.t) (value : string) (a : Advisory.t) : xresult Advisory.t :=
  match target with
  | TextTarget.Id => v ← set_once (Advisory.id a) value "advisory id" true; Ok (Advisory.set_id v a)
  | TextTarget.Title => v ← set_once (Advisory.title a) value "advisory title" false; Ok (Advisory.set_title v a)
  | TextTarget.Severity =>
      v ← set_once (Advisory.severity a) value "advisory severity" true; Ok (Advisory.set_severity v a)
  | TextTarget.Summary =>
      v ← set_once (Advisory.summary a) value "advisory summary" false; Ok (Advisory.set_summary v a)
  | TextTarget.Description =>
      v ← set_once (Advisory.description a) value "advisory description" false; Ok (Advisory.set_description v a)
  | TextTarget.Filename => xml "unreachable"
  end.

Definition finish_text (target : TextTarget.t) (value : string) (s : state) : xresult state :=
  let value := trim value in
  match target with
  | TextTarget.Filename =>
      p ← ok_or (MetadataError.Xml "filename outside package") (UpdateState.package s);
      v ← set_once (AdvisoryPackage.filename p) value "package filename" true;
      Ok (UpdateState.set_package (Some (AdvisoryPackage.set_filename v p)) s)
  | _ =>
      a ← required_advisory (UpdateState.advisory s);
      a ← finish_field target value a;
      Ok (UpdateState.set_advisory (Some a) s)
  end.

Definition set_date (e : element) (slot label : string) : xresult string :=
  value ← required_attribute e "date" label; set_once slot value label false.

Definition push_reference (e : element) (a : Advisory.t) : xresult Advisory.t :=
  id ← required_attribute e "id" "reference id";
  kind ← required_attribute e "type" "reference type";
  href ← required_attribute e "href" "reference href";
  title ← attribute_streaming e "title";
  let title := default "" title in
  _ ← validate_token id "reference id";
  _ ← validate_token kind "reference type";
  _ ← validate_text href "reference href";
  _ ← (if str_is_empty title then Ok tt else validate_text title "reference title");
  let references := Advisory.references a ++ [AdvisoryReference.mk id kind href title] in
  _ ← checked_limit (N.of_nat (length references)) MAX_REFERENCES_PER_ADVISORY "references per advisory";
  Ok (Advisory.set_references references a).

Definition finish_package (p : AdvisoryPackage.t) : xresult AdvisoryPackage.t :=
  _ ← validate_token (AdvisoryPackage.filename p) "package filename";
  if str_contains "/" (AdvisoryPackage.filename p) || str_contains ".." (AdvisoryPackage.filename p)
  then xml "unsafe package filename" else Ok p.

Definition finish_advisory (a : Advisory.t) : xresult Advisory.t :=
  _ ← validate_token (Advisory.id a) "advisory id";
  _ ← validate_text (Advisory.title a) "advisory title";
  let a := if str_is_empty (Advisory.severity a) then Advisory.set_severity "None" a else a in
  _ ← validate_token (Advisory.severity a) "advisory severity";
  let a := Advisory.set_references (dedup (sort (Advisory.references a))) a in
  let a := Advisory.set_packages (dedup (sort (Advisory.packages a))) a in
  if bool_decide (Advisory.packages a = []) then xml "advisory contains no packages" else Ok a.

(** ** The reader *)

Section reader.
Context (unescape : string -> result string string).

Definition start (s : state) (e : element) : xresult state :=
  if UpdateState.root_closed s || (MAX_DEPTH <=? N.of_nat (length (UpdateState.stack s)))
  then xml "content after updateinfo root or excessive XML depth"
  else
    let n := name e in
    _ ← reject_prefixed n;
    let parent := head (UpdateState.stack s) in
    s ← match parent with
        | None =>
            if negb (bool_decide (n = "updates")) then xml "unexpected updateinfo root"
            else match attributes e with _ :: _ => xml "unexpected updateinfo root attribute" | [] => Ok s end
        | Some p =>
            if bool_decide (p = "updates") && bool_decide (n = "update") then
              if bool_decide (is_Some (UpdateState.advisory s)) then xml "nested updateinfo advisory"
              else a ← start_advisory e; Ok (UpdateState.set_advisory (Some a) s)
            else if bool_decide (n = "package") && bool_decide (is_Some (UpdateState.advisory s)) then
              if bool_decide (is_Some (UpdateState.package s)) then xml "nested updateinfo package"
              else p ← start_package e; Ok (UpdateState.set_package (Some p) s)
            else Ok s
        end;
    let text := (fun t => (t, "")) <$> target parent n (bool_decide (is_Some (UpdateState.advisory s)))
                  (bool_decide (is_Some (UpdateState.package s))) in
    Ok (UpdateState.set_stack (n :: UpdateState.stack s) (UpdateState.set_text text s)).

Definition empty_element (s : state) (e : element) : xresult state :=
  if UpdateState.outside s then xml "empty element outside updateinfo root"
  else
    _ ← reject_prefixed (name e);
    let keep := fun a => UpdateState.set_advisory (Some a) s in
    if bool_decide (name e = "issued") then
      a ← required_advisory (UpdateState.advisory s);
      v ← set_date e (Advisory.issued a) "issued"; Ok (keep (Advisory.set_issued v a))
    else if bool_decide (name e = "updated") then
      a ← required_advisory (UpdateState.advisory s);
      v ← set_date e (Advisory.updated a) "updated"; Ok (keep (Advisory.set_updated v a))
    else if bool_decide (name e = "reference") then
      a ← required_advisory (UpdateState.advisory s); a ← push_reference e a; Ok (keep a)
    else Ok s.

Definition append_text (s : state) (target : TextTarget.t) (text value : string) : xresult state :=
  text ← append text value; Ok (UpdateState.set_text (Some (target, text)) s).

Definition end_package (s : state) : xresult state :=
  p ← ok_or (MetadataError.Xml "package end without package") (UpdateState.package s);
  p ← finish_package p;
  a ← required_advisory (UpdateState.advisory s);
  let packages := Advisory.packages a ++ [p] in
  _ ← checked_limit (N.of_nat (length packages)) MAX_PACKAGES_PER_ADVISORY "packages per advisory";
  Ok (UpdateState.set_package None (UpdateState.set_advisory (Some (Advisory.set_packages packages a)) s)).

Definition end_advisory (s : state) : xresult state :=
  if bool_decide (is_Some (UpdateState.package s)) then xml "advisory ended inside package"
  else
    a ← ok_or (MetadataError.Xml "advisory end without advisory") (UpdateState.advisory s);
    a ← finish_advisory a;
    let advisories := UpdateState.advisories s ++ [a] in
    _ ← checked_limit (N.of_nat (length advisories)) MAX_ADVISORIES "advisories";
    Ok (UpdateState.set_advisory None (UpdateState.set_advisories advisories s)).

Definition end_element (s : state) (n : string) : xresult state :=
  match UpdateState.stack s with
  | [] => xml "updateinfo end without start"
  | expected :: stack =>
      if negb (bool_decide (expected = n)) then xml "mismatched updateinfo element"
      else
        let s := UpdateState.set_stack stack s in
        s ← match UpdateState.text s with
            | Some (target, value) => finish_text target value (UpdateState.set_text None s)
            | None => Ok s
            end;
        if bool_decide (expected = "package") then end_package s
        else if bool_decide (expected = "update") then end_advisory s
        else if bool_decide (expected = "updates") then Ok (UpdateState.close_root s)
        else Ok s
  end.

Definition step (s : state) (ev : event) : xresult state :=
  match ev with
  | Start _ e => start s e
  | Empty _ e => empty_element s e
  | Text t =>
      match UpdateState.text s with
      | Some (target, text) => value ← xml_error t; append_text s target text value
      | None =>
          if UpdateState.outside s then
            value ← xml_error t;
            if negb (str_is_empty (trim value)) then xml "text outside updateinfo root" else Ok s
          else Ok s
      end
  | GeneralRef t =>
      '(target, text) ← ok_or (MetadataError.Xml "entity reference outside updateinfo text") (UpdateState.text s);
      value ← decode_reference unescape t; append_text s target text value
  | CData t =>
      '(target, text) ← ok_or (MetadataError.Xml "CDATA outside updateinfo text") (UpdateState.text s);
      value ← xml_error t; append_text s target text value
  | End n => end_element s n
  | Decl =>
      if bool_decide (UpdateState.stack s = []) && negb (UpdateState.declaration_seen s)
         && negb (UpdateState.root_closed s)
      then Ok (UpdateState.see_declaration s) else xml "misplaced XML declaration or updateinfo doctype"
  | DocType _ => xml "misplaced XML declaration or updateinfo doctype"
  | Comment | PI => Ok s
  | Malformed m => xml m
  end.

(** [checked_add] over the advisories: a [usize] overflows past the largest [u64]. *)
Definition package_count (advisories : list Advisory.t) : xresult N :=
  ok_or (MetadataError.LimitExceeded "updateinfo packages" MAX_UPDATE_PACKAGES u64_max)
    (checked_sum 0 ((fun a => N.of_nat (length (Advisory.packages a))) <$> advisories)).

Definition finish (s : state) : xresult (list Advisory.t) :=
  if negb (UpdateState.root_closed s) || negb (bool_decide (UpdateState.stack s = []))
     || bool_decide (is_Some (UpdateState.advisory s)) || bool_decide (is_Some (UpdateState.package s))
  then xml "incomplete updateinfo document"
  else
    count ← package_count (UpdateState.advisories s);
    _ ← checked_limit count MAX_UPDATE_PACKAGES "updateinfo packages";
    let advisories := sort_by (fun a b => cmp (Advisory.id a) (Advisory.id b)) (UpdateState.advisories s) in
    if windows2_any (fun a b => bool_decide (Advisory.id a = Advisory.id b)) advisories
    then xml "duplicate advisory id" else Ok advisories.

Definition parse_updateinfo (input : list event) : xresult (list Advisory.t) :=
  s ← fold_result step UpdateState.default input; finish s.
End reader.
