(* ===== verification/Comps.v ===== *)
(** * Package groups ([dnfast-metadata]: comps.rs)

    The reader of comps.xml, as a fold over the events of the document with a stack of the open
    elements. *)
From Stdlib Require Import Ascii.
From S2P Require Import Prelude.
From S2P Require Import RustStr.
From S2P Require Import RustText.
From S2P Require Import Metadata.
From S2P Require Import Xml.

#[local] Open Scope N_scope.

Definition MAX_COMPS_GROUPS : N := 100000.
Definition MAX_COMPS_ENVIRONMENTS : N := 10000.
Definition MAX_COMPS_PACKAGES : N := 2000000.
Definition MAX_COMPS_PACKAGES_PER_GROUP : N := 100000.
Definition MAX_COMPS_GROUPS_PER_ENVIRONMENT : N := 100000.
Definition MAX_COMPS_TEXT_BYTES : N := 1024 * 1024.
Definition MAX_COMPS_DEPTH : N := 64.

(** ** Data *)

Module CompsPackageType.
Inductive t : Type := Mandatory | Default | Optional | Conditional.
#[global] Instance comps_package_type_eq_dec : EqDecision t.
Proof. solve_decision. Defined.
Definition discriminant (k : t) : N := match k with Mandatory => 0 | Default => 1 | Optional => 2 | Conditional => 3 end.
#[global] Instance comps_package_type_ord : RustOrd t := ord_on discriminant.
#[global] Instance comps_package_type_ord_laws : RustOrdLaws t.
Proof. apply (ord_on_laws discriminant). by intros [] []. Qed.
End CompsPackageType.

Module CompsPackage.
Record t : Type := mk { name : string; kind : CompsPackageType.t; condition : option string }.
#[global] Instance comps_package_eq_dec : EqDecision t.
Proof. solve_decision. Defined.
(** The order of the packages of a group. *)
Definition key (p : t) := (kind p, (name p, condition p)).
#[global] Instance comps_package_ord : RustOrd t := ord_on key.
#[global] Instance comps_package_ord_laws : RustOrdLaws t.
Proof. apply (ord_on_laws key). by intros [] [] [= -> -> ->]. Qed.
End CompsPackage.

Module CompsGroup.
Record t : Type := mk {
  id : string;
  name : string;
  description : string;
  default : bool;
  user_visible : bool;
  packages : list CompsPackage.t
}.
End CompsGroup.

Module CompsEnvironment.
Record t : Type := mk {
  id : string;
  name : string;
  description : string;
  groups : list string;
  optional_groups : list string
}.
Definition empty : t := mk "" "" "" [] [].
Definition set_id v e := let 'mk _ b c d f := e in mk v b c d f.
Definition set_name v e := let 'mk a _ c d f := e in mk a v c d f.
Definition set_description v e := let 'mk a b _ d f := e in mk a b v d f.
Definition set_groups v e := let 'mk a b c _ f := e in mk a b c v f.
Definition set_optional_groups v e := let 'mk a b c d _ := e in mk a b c d v.
End CompsEnvironment.

Module Comps.
Record t : Type := mk { groups : list CompsGroup.t; environments : list CompsEnvironment.t }.
End Comps.

Module GroupBuilder.
Record t : Type := mk {
  id : string;
  name : string;
  description : string;
  default : option bool;
  user_visible : option bool;
  packages : list CompsPackage.t
}.
Definition empty : t := mk "" "" "" None None [].
Definition set_id v g := let 'mk _ b c d e f := g in mk v b c d e f.
Definition set_name v g := let 'mk a _ c d e f := g in mk a v c d e f.
Definition set_description v g := let 'mk a b _ d e f := g in mk a b v d e f.
Definition set_default v g := let 'mk a b c _ e f := g in mk a b c v e f.
Definition set_user_visible v g := let 'mk a b c d _ f := g in mk a b c d v f.
Definition set_packages v g := let 'mk a b c d e _ := g in mk a b c d e v.
End GroupBuilder.

Module CompsTarget.
Inductive t : Type :=
  | GroupId
  | GroupName
  | GroupDescription
  | GroupDefault
  | GroupVisible
  | Package (kind : CompsPackageType.t) (condition : option string)
  | EnvironmentId
  | EnvironmentName
  | EnvironmentDescription
  | EnvironmentGroup (optional : bool).
End CompsTarget.

Module CompsState.
Record t : Type := mk {
  stack : list string;
  groups : list CompsGroup.t;
  environments : list CompsEnvironment.t;
  group : option GroupBuilder.t;
  environment : option CompsEnvironment.t;
  text : option (CompsTarget.t * string);
  declaration_seen : bool;
  doctype_seen : bool;
  root_closed : bool
}.
Definition default : t := mk [] [] [] None None None false false false.
Definition set_stack v (s : t) := let 'mk _ b c d e f g h i := s in mk v b c d e f g h i.
Definition set_groups v (s : t) := let 'mk a _ c d e f g h i := s in mk a v c d e f g h i.
Definition set_environments v (s : t) := let 'mk a b _ d e f g h i := s in mk a b v d e f g h i.
Definition set_group v (s : t) := let 'mk a b c _ e f g h i := s in mk a b c v e f g h i.
Definition set_environment v (s : t) := let 'mk a b c d _ f g h i := s in mk a b c d v f g h i.
Definition set_text v (s : t) := let 'mk a b c d e _ g h i := s in mk a b c d e v g h i.
Definition see_declaration (s : t) := let 'mk a b c d e f _ h i := s in mk a b c d e f true h i.
Definition see_doctype (s : t) := let 'mk a b c d e f g _ i := s in mk a b c d e f g true i.
Definition close_root (s : t) := let 'mk a b c d e f g h _ := s in mk a b c d e f g h true.
Definition outside (s : t) : bool := bool_decide (stack s = []) || root_closed s.
End CompsState.

Abbreviation state := CompsState.t.

(** ** Checks *)

Definition validate_text (value kind : string) : xresult unit :=
  if str_is_empty value || existsb char_is_control (chars value) then xml ("invalid " +:+ kind) else Ok tt.

Definition validate_identifier (value kind : string) : xresult unit :=
  _ ← validate_text value kind;
  if existsb char_is_whitespace (chars value) then xml ("invalid " +:+ kind) else Ok tt.

Definition set_once (target value kind : string) : xresult string :=
  if negb (str_is_empty target) then xml ("duplicate " +:+ kind) else _ ← validate_text value kind; Ok value.

Definition set_bool (target : option bool) (value kind : string) : xresult (option bool) :=
  match target with
  | Some _ => xml ("duplicate " +:+ kind)
  | None =>
      if bool_decide (value = "true") then Ok (Some true)
      else if bool_decide (value = "false") then Ok (Some false) else xml ("invalid " +:+ kind)
  end.

Definition append (target value : string) : xresult string :=
  let target := target +:+ value in
  _ ← checked_limit (str_len target) MAX_COMPS_TEXT_BYTES "comps XML text"; Ok target.

Definition reject_prefixed (name : string) : xresult unit :=
  if prefixed name then xml "unexpected comps namespace prefix" else Ok tt.

Definition required_attribute (e : element) (name : string) : xresult string :=
  v ← attribute_streaming e name; ok_or (MetadataError.Xml "missing required comps attribute") v.

Definition required_group (g : option GroupBuilder.t) : xresult GroupBuilder.t :=
  ok_or (MetadataError.Xml "group field outside group") g.

Definition required_environment (e : option CompsEnvironment.t) : xresult CompsEnvironment.t :=
  ok_or (MetadataError.Xml "environment field outside environment") e.

(** ** Elements *)

Definition package_target (e : element) : xresult (option CompsTarget.t) :=
  kind ← required_attribute e "type";
  kind ← (if bool_decide (kind = "mandatory") then Ok CompsPackageType.Mandatory
          else if bool_decide (kind = "default") then Ok CompsPackageType.Default
          else if bool_decide (kind = "optional") then Ok CompsPackageType.Optional
          else if bool_decide (kind = "conditional") then Ok CompsPackageType.Conditional
          else xml "unsupported comps package type");
  condition ← attribute_streaming e "requires";
  if bool_decide (kind = CompsPackageType.Conditional) && bool_decide (condition = None)
  then xml "conditional comps package has no requires attribute"
  else if negb (bool_decide (kind = CompsPackageType.Conditional)) && negb (bool_decide (condition = None))
  then xml "non-conditional comps package has a requires attribute"
  else Ok (Some (CompsTarget.Package kind condition)).

Definition text_target (e : element) (parent : option string) (in_group in_environment : bool) :
    xresult (option CompsTarget.t) :=
  attributes ← mapM xml_error (attributes e);
  let translated := existsb (fun a => bool_decide (key a = "xml:lang")) attributes in
  let within p n := bool_decide (parent = Some p) && bool_decide (name e = n) in
  if in_group then
    if within "group" "id" then Ok (Some CompsTarget.GroupId)
    else if within "group" "name" && negb translated then Ok (Some CompsTarget.GroupName)
    else if within "group" "description" && negb translated then Ok (Some CompsTarget.GroupDescription)
    else if within "group" "default" then Ok (Some CompsTarget.GroupDefault)
    else if within "group" "uservisible" then Ok (Some CompsTarget.GroupVisible)
    else if within "packagelist" "packagereq" then package_target e
    else Ok None
  else if in_environment then
    if within "environment" "id" then Ok (Some CompsTarget.EnvironmentId)
    else if within "environment" "name" && negb translated then Ok (Some CompsTarget.EnvironmentName)
    else if within "environment" "description" && negb translated then Ok (Some CompsTarget.EnvironmentDescription)
    else if within "grouplist" "groupid" then Ok (Some (CompsTarget.EnvironmentGroup false))
    else if within "optionlist" "groupid" then Ok (Some (CompsTarget.EnvironmentGroup true))
    else Ok None
  else Ok None.

Definition push_package (g : GroupBuilder.t) (kind : CompsPackageType.t) (condition : option string) (value : string) :
    xresult GroupBuilder.t :=
  let packages := GroupBuilder.packages g ++ [CompsPackage.mk value kind condition] in
  _ ← checked_limit (N.of_nat (length packages)) MAX_COMPS_PACKAGES_PER_GROUP "packages per comps group";
  Ok (GroupBuilder.set_packages packages g).

Definition push_group (e : CompsEnvironment.t) (optional : bool) (value : string) : xresult CompsEnvironment.t :=
  let list := (if optional then CompsEnvironment.optional_groups e else CompsEnvironment.groups e) ++ [value] in
  _ ← checked_limit (N.of_nat (length list)) MAX_COMPS_GROUPS_PER_ENVIRONMENT "groups per comps environment";
  Ok (if optional then CompsEnvironment.set_optional_groups list e else CompsEnvironment.set_groups list e).

Definition finish_group_text (target : CompsTarget.t) (value : string) (g : GroupBuilder.t) :
    xresult GroupBuilder.t :=
  match target with
  | CompsTarget.GroupId => v ← set_once (GroupBuilder.id g) value "group id"; Ok (GroupBuilder.set_id v g)
  | CompsTarget.GroupName => v ← set_once (GroupBuilder.name g) value "group name"; Ok (GroupBuilder.set_name v g)
  | CompsTarget.GroupDescription =>
      v ← set_once (GroupBuilder.description g) value "group description"; Ok (GroupBuilder.set_description v g)
  | CompsTarget.GroupDefault =>
      v ← set_bool (GroupBuilder.default g) value "group default"; Ok (GroupBuilder.set_default v g)
  | CompsTarget.GroupVisible =>
      v ← set_bool (GroupBuilder.user_visible g) value "group uservisible"; Ok (GroupBuilder.set_user_visible v g)
  | CompsTarget.Package kind condition => push_package g kind condition value
  | _ => xml "unreachable"
  end.

Definition finish_environment_text (target : CompsTarget.t) (value : string) (e : CompsEnvironment.t) :
    xresult CompsEnvironment.t :=
  match target with
  | CompsTarget.EnvironmentId =>
      v ← set_once (CompsEnvironment.id e) value "environment id"; Ok (CompsEnvironment.set_id v e)
  | CompsTarget.EnvironmentName =>
      v ← set_once (CompsEnvironment.name e) value "environment name"; Ok (CompsEnvironment.set_name v e)
  | CompsTarget.EnvironmentDescription =>
      v ← set_once (CompsEnvironment.description e) value "environment description";
      Ok (CompsEnvironment.set_description v e)
  | CompsTarget.EnvironmentGroup optional => push_group e optional value
  | _ => xml "unreachable"
  end.

Definition for_environment (target : CompsTarget.t) : bool :=
  match target with
  | CompsTarget.EnvironmentId | CompsTarget.EnvironmentName | CompsTarget.EnvironmentDescription
  | CompsTarget.EnvironmentGroup _ => true
  | _ => false
  end.

Definition finish_text (target : CompsTarget.t) (value : string) (s : state) : xresult state :=
  let value := trim value in
  _ ← match target with
      | CompsTarget.Package _ condition =>
          _ ← validate_identifier value "package name";
          match condition with
          | Some c => validate_identifier c "conditional package requirement"
          | None => Ok tt
          end
      | CompsTarget.EnvironmentGroup _ => validate_identifier value "environment group id"
      | _ => Ok tt
      end;
  if for_environment target then
    e ← required_environment (CompsState.environment s);
    e ← finish_environment_text target value e;
    Ok (CompsState.set_environment (Some e) s)
  else
    g ← required_group (CompsState.group s);
    g ← finish_group_text target value g;
    Ok (CompsState.set_group (Some g) s).

Definition finish_group (b : GroupBuilder.t) : xresult CompsGroup.t :=
  _ ← validate_identifier (GroupBuilder.id b) "group id";
  _ ← validate_text (GroupBuilder.name b) "group name";
  let packages := sort (GroupBuilder.packages b) in
  if bool_decide (is_Some (first_repeated [] (CompsPackage.name <$> packages)))
  then xml "duplicate package in comps group"
  else
    Ok (CompsGroup.mk (GroupBuilder.id b) (GroupBuilder.name b) (GroupBuilder.description b)
          (default false (GroupBuilder.default b)) (default true (GroupBuilder.user_visible b)) packages).

Definition finish_environment (b : CompsEnvironment.t) : xresult CompsEnvironment.t :=
  _ ← validate_identifier (CompsEnvironment.id b) "environment id";
  _ ← validate_text (CompsEnvironment.name b) "environment name";
  let groups := sort (CompsEnvironment.groups b) in
  let optional_groups := sort (CompsEnvironment.optional_groups b) in
  if windows2_any (fun a b => bool_decide (a = b)) groups
     || windows2_any (fun a b => bool_decide (a = b)) optional_groups
     || existsb (fun id => bset_contains id optional_groups) groups
  then xml "duplicate group in comps environment"
  else Ok (CompsEnvironment.set_optional_groups optional_groups (CompsEnvironment.set_groups groups b)).

(** Consecutive equal identifiers. *)
Definition reject_duplicate_ids (values : list string) (kind : string) : xresult unit :=
  if windows2_any (fun a b => bool_decide (a = b)) values then xml ("duplicate " +:+ kind +:+ " id") else Ok tt.

(** ** The reader *)

Definition COMPS_DOCTYPE : string := "comps PUBLIC '-//Red Hat, Inc.//DTD Comps info//EN' 'comps.dtd'".

Definition single_quote (b : byte) : byte := if byte_val b =? 34 then ascii_of_N 39 else b.

(** Quotes unified, then the words joined by single spaces. *)
Definition normalized_doctype (value : string) : string :=
  String.concat " " (split_whitespace (of_bytes (single_quote <$> bytes value))).

Section reader.
Context (unescape : string -> result string string).

Definition start (s : state) (e : element) : xresult state :=
  if CompsState.root_closed s || (MAX_COMPS_DEPTH <=? N.of_nat (length (CompsState.stack s)))
  then xml "content after comps root or excessive XML depth"
  else
    let n := name e in
    _ ← reject_prefixed n;
    let top := bool_decide (length (CompsState.stack s) = 1%nat) in
    s ← (if bool_decide (CompsState.stack s = []) then
           if negb (bool_decide (n = "comps")) then xml "unexpected comps root" else Ok s
         else if top && bool_decide (n = "group") then
           if bool_decide (is_Some (CompsState.group s)) then xml "nested comps group"
           else Ok (CompsState.set_group (Some GroupBuilder.empty) s)
         else if top && bool_decide (n = "environment") then
           if bool_decide (is_Some (CompsState.environment s)) then xml "nested comps environment"
           else Ok (CompsState.set_environment (Some CompsEnvironment.empty) s)
         else Ok s);
    target ← text_target e (head (CompsState.stack s)) (bool_decide (is_Some (CompsState.group s)))
               (bool_decide (is_Some (CompsState.environment s)));
    Ok (CompsState.set_stack (n :: CompsState.stack s) (CompsState.set_text ((fun t => (t, "")) <$> target) s)).

Definition append_text (s : state) (target : CompsTarget.t) (text value : string) : xresult state :=
  text ← append text value; Ok (CompsState.set_text (Some (target, text)) s).

Definition end_group (s : state) : xresult state :=
  b ← ok_or (MetadataError.Xml "group end without group") (CompsState.group s);
  g ← finish_group b;
  let groups := CompsState.groups s ++ [g] in
  _ ← checked_limit (N.of_nat (length groups)) MAX_COMPS_GROUPS "comps groups";
  Ok (CompsState.set_group None (CompsState.set_groups groups s)).

Definition end_environment (s : state) : xresult state :=
  b ← ok_or (MetadataError.Xml "environment end without environment") (CompsState.environment s);
  e ← finish_environment b;
  let environments := CompsState.environments s ++ [e] in
  _ ← checked_limit (N.of_nat (length environments)) MAX_COMPS_ENVIRONMENTS "comps environments";
  Ok (CompsState.set_environment None (CompsState.set_environments environments s)).

Definition end_element (s : state) (n : string) : xresult state :=
  match CompsState.stack s with
  | [] => xml "comps end without start"
  | expected :: stack =>
      if negb (bool_decide (expected = n)) then xml "mismatched comps element"
      else
        let s := CompsState.set_stack stack s in
        s ← match CompsState.text s with
            | Some (target, value) => finish_text target value (CompsState.set_text None s)
            | None => Ok s
            end;
        if bool_decide (expected = "group") then end_group s
        else if bool_decide (expected = "environment") then end_environment s
        else if bool_decide (expected = "comps") then Ok (CompsState.close_root s)
        else Ok s
  end.

Definition doctype (s : state) (decoded : result string string) : xresult state :=
  value ← xml_error decoded;
  if negb (bool_decide (normalized_doctype value = COMPS_DOCTYPE)) then xml "unrecognized comps doctype"
  else Ok (CompsState.see_doctype s).

Definition step (s : state) (ev : event) : xresult state :=
  let before_root := bool_decide (CompsState.stack s = []) && negb (CompsState.root_closed s) in
  match ev with
  | Start _ e => start s e
  | Empty _ e =>
      if CompsState.outside s then xml "empty element outside comps root"
      else _ ← reject_prefixed (name e); Ok s
  | Text t =>
      match CompsState.text s with
      | Some (target, text) => value ← xml_error t; append_text s target text value
      | None =>
          if CompsState.outside s then
            value ← xml_error t;
            if negb (str_is_empty (trim value)) then xml "text outside comps root" else Ok s
          else Ok s
      end
  | GeneralRef t =>
      '(target, text) ← ok_or (MetadataError.Xml "entity reference outside comps text") (CompsState.text s);
      value ← decode_reference unescape t; append_text s target text value
  | CData t =>
      '(target, text) ← ok_or (MetadataError.Xml "CDATA outside comps text") (CompsState.text s);
      value ← xml_error t; append_text s target text value
  | End n => end_element s n
  | Decl =>
      if before_root && negb (CompsState.declaration_seen s) then Ok (CompsState.see_declaration s)
      else xml "misplaced XML declaration or comps doctype"
  | DocType t =>
      if before_root && negb (CompsState.doctype_seen s) then doctype s t
      else xml "misplaced XML declaration or comps doctype"
  | Comment | PI => Ok s
  | Malformed m => xml m
  end.

Definition package_count (groups : list CompsGroup.t) : xresult N :=
  ok_or (MetadataError.LimitExceeded "comps packages" MAX_COMPS_PACKAGES u64_max)
    (checked_sum 0 ((fun g => N.of_nat (length (CompsGroup.packages g))) <$> groups)).

Definition finish (s : state) : xresult Comps.t :=
  if negb (CompsState.root_closed s) || negb (bool_decide (CompsState.stack s = []))
     || bool_decide (is_Some (CompsState.group s)) || bool_decide (is_Some (CompsState.environment s))
  then xml "incomplete comps document"
  else
    count ← package_count (CompsState.groups s);
    _ ← checked_limit count MAX_COMPS_PACKAGES "comps packages";
    let groups := sort_by (fun a b => cmp (CompsGroup.id a) (CompsGroup.id b)) (CompsState.groups s) in
    let environments :=
      sort_by (fun a b => cmp (CompsEnvironment.id a) (CompsEnvironment.id b)) (CompsState.environments s) in
    _ ← reject_duplicate_ids (CompsGroup.id <$> groups) "comps group";
    _ ← reject_duplicate_ids (CompsEnvironment.id <$> environments) "comps environment";
    Ok (Comps.mk groups environments).

Definition parse_comps (input : list event) : xresult Comps.t :=
  s ← fold_result step CompsState.default input; finish s.
End reader.
