(* ===== verification/AdvisoryFacts.v ===== *)
(** * Facts about advisories and package groups

    What accepted documents guarantee of their advisories, groups and environments. *)
From Stdlib Require Import Ascii.
From S2P Require Import Prelude.
From S2P Require Import RustStr.
From S2P Require Import RustText.
From S2P Require Import Metadata.
From S2P Require Import Xml.
From S2P Require UpdateInfo.
From S2P Require Comps.

#[local] Open Scope N_scope.

Lemma checked_limit_ok a m k n : checked_limit a m k = Ok n <-> n = a /\ a <= m.
Proof.
  unfold checked_limit. rewrite bind_ok. setoid_rewrite reject_if_ok. split.
  - intros (_ & ?%N.ltb_ge & [= <-]). done.
  - intros [-> ?]. exists tt. by rewrite N.ltb_ge.
Qed.

Lemma checked_sum_spec l : forall t n, checked_sum t l = Some n -> n = t + foldr N.add 0 l.
Proof.
  induction l as [|x l IH]; intros t n; cbn; [intros [= <-]; lia |]. unfold u64_checked_add.
  destruct (N.leb_spec (t + x) u64_max); cbn; [| done]. intros ->%IH. lia.
Qed.

Lemma sum_perm (l k : list N) : l ≡ₚ k -> foldr N.add 0 l = foldr N.add 0 k.
Proof. induction 1; cbn; lia. Qed.

(** Neighbours differ after sorting exactly when all differ. *)
Lemma sorted_keys_distinct {A} (key : A -> string) (l : list A) :
  let s := sort_by (fun a b => cmp (key a) (key b)) l in
  windows2_any (fun a b => bool_decide (key a = key b)) s = false -> StronglySorted clt (key <$> s).
Proof.
  intros s Hw. assert (Hs : StronglySorted (fun a b => cmp (key a) (key b) <> Gt) s).
  { apply sort_by_sorted, cp_on, cmp_is_preorder. }
  clearbody s. induction s as [|a s IH]; [constructor |]. apply StronglySorted_inv in Hs as [Hs Ha].
  cbn in Hw. assert (Hw' : windows2_any (fun a b => bool_decide (key a = key b)) s = false).
  { destruct s as [|b s]; [done |]. by apply orb_false_iff in Hw as [_ ?]. }
  specialize (IH Hw' Hs). cbn. constructor; [done |].
  destruct s as [|b s]; [constructor |]. apply orb_false_iff in Hw as [Hab%bool_decide_eq_false _].
  assert (Hlt : clt (key a) (key b)).
  { apply Forall_cons in Ha as [Hle _]. destruct (clt_total (key a) (key b)) as [?|[?|?]]; [done | done |].
    exfalso. apply Hle. apply (cp_gt_lt cmp_is_preorder). done. }
  cbn in *. apply StronglySorted_inv in IH as [_ Hb]. constructor; [done |].
  eapply Forall_impl; [exact Hb |]. intros k Hk. cbn in Hk. by eapply (cp_lt_trans cmp_is_preorder).
Qed.

(** ** Advisories *)

Module UpdateFacts.
Import UpdateInfo.

Definition text_sound (v : string) : Prop := v <> "" /\ forallb char_is_allowed (chars v) = true.
Definition token_sound (v : string) : Prop := text_sound v /\ existsb char_is_whitespace (chars v) = false.

Lemma update_validate_text_ok v l u : validate_text v l = Ok u -> text_sound v.
Proof.
  unfold validate_text. destruct (_ || _) eqn:E; [done |]. intros _. apply orb_false_iff in E as [H1 H2].
  by apply str_is_empty_false in H1; apply negb_false_iff in H2.
Qed.

Lemma validate_token_ok v l u : validate_token v l = Ok u -> token_sound v.
Proof.
  unfold validate_token. intros (u' & H%update_validate_text_ok & Hw)%bind_ok. split; [done |]. by destruct (existsb _ _).
Qed.

Lemma set_once_ok t v l b v' : set_once t v l b = Ok v' -> v' = v /\ t = "" /\ (if b then token_sound v else text_sound v).
Proof.
  unfold set_once. destruct (negb _) eqn:E; [done |]. apply negb_false_iff, str_is_empty_spec in E.
  intros (u & H & [= <-])%bind_ok. split_and!; try done. destruct b; [by eapply validate_token_ok | by eapply update_validate_text_ok].
Qed.

Definition fields_sound (p : AdvisoryPackage.t) : Prop :=
  token_sound (AdvisoryPackage.name p) /\ token_sound (AdvisoryPackage.version p) /\
  token_sound (AdvisoryPackage.release p) /\ token_sound (AdvisoryPackage.arch p) /\ AdvisoryPackage.epoch p <= u64_max.

Definition package_sound (p : AdvisoryPackage.t) : Prop :=
  fields_sound p /\ token_sound (AdvisoryPackage.filename p) /\
  str_contains "/" (AdvisoryPackage.filename p) = false /\ str_contains ".." (AdvisoryPackage.filename p) = false.

Definition reference_sound (r : AdvisoryReference.t) : Prop :=
  token_sound (AdvisoryReference.id r) /\ token_sound (AdvisoryReference.kind r) /\ text_sound (AdvisoryReference.href r).

Definition builder_sound (a : Advisory.t) : Prop :=
  token_sound (Advisory.kind a) /\ token_sound (Advisory.status a) /\
  Forall package_sound (Advisory.packages a) /\ N.of_nat (length (Advisory.packages a)) <= MAX_PACKAGES_PER_ADVISORY /\
  Forall reference_sound (Advisory.references a) /\
  N.of_nat (length (Advisory.references a)) <= MAX_REFERENCES_PER_ADVISORY.

Definition advisory_sound (a : Advisory.t) : Prop :=
  builder_sound a /\ token_sound (Advisory.id a) /\ text_sound (Advisory.title a) /\ token_sound (Advisory.severity a) /\
  Advisory.packages a <> [] /\ StronglySorted clt (Advisory.packages a) /\ StronglySorted clt (Advisory.references a).

Definition sound (s : state) : Prop :=
  Forall advisory_sound (UpdateState.advisories s) /\ N.of_nat (length (UpdateState.advisories s)) <= MAX_ADVISORIES /\
  (forall a, UpdateState.advisory s = Some a -> builder_sound a) /\
  (forall p, UpdateState.package s = Some p -> fields_sound p).

(** Steps that touch neither the advisories nor what is open. *)
Lemma update_sound_same s s' : sound s -> UpdateState.advisories s' = UpdateState.advisories s ->
  UpdateState.advisory s' = UpdateState.advisory s -> UpdateState.package s' = UpdateState.package s -> sound s'.
Proof. intros Hs E1 E2 E3. unfold sound. by rewrite E1, E2, E3. Qed.

Lemma sound_advisory s a : sound s -> builder_sound a -> sound (UpdateState.set_advisory (Some a) s).
Proof. destruct s. intros (H1 & H2 & H3 & H4) Ha. split_and!; try done. by intros a' [= <-]. Qed.

Lemma sound_package s p : sound s -> fields_sound p -> sound (UpdateState.set_package (Some p) s).
Proof. destruct s. intros (H1 & H2 & H3 & H4) Ha. split_and!; try done. by intros p' [= <-]. Qed.

Lemma required_attribute_ok e n l v : required_attribute e n l = Ok v -> attribute_streaming e n = Ok (Some v).
Proof. unfold required_attribute. by intros (o & H & ->%ok_or_ok)%bind_ok. Qed.

Lemma start_advisory_sound e a : start_advisory e = Ok a -> builder_sound a.
Proof.
  unfold start_advisory. intros (k & _ & (t & _ & (u & Hk%validate_token_ok & (u' & Ht%validate_token_ok & [= <-])%bind_ok)%bind_ok)%bind_ok)%bind_ok.
  split_and!; done || constructor || (cbn; lia).
Qed.

Lemma start_package_sound e p : start_package e = Ok p -> fields_sound p.
Proof.
  unfold start_package. intros (n & _ & (ep & _ & (x & Hx%ok_or_ok & (v & _ & (r & _ & (a & _ & (u & Hall & [= <-])%bind_ok)%bind_ok)%bind_ok)%bind_ok)%bind_ok)%bind_ok)%bind_ok.
  apply for_each_ok in Hall. rewrite !Forall_cons in Hall. destruct Hall as (H1 & H2 & H3 & H4 & _).
  apply validate_token_ok in H1, H2, H3, H4. split_and!; try done. cbn. apply (parse_number_bound ep).
  unfold parse_number. by rewrite Hx.
Qed.

Lemma finish_field_sound t v a a' : finish_field t v a = Ok a' -> builder_sound a -> builder_sound a'.
Proof. destruct t, a; cbn; intros H Ha; [..| done]; apply bind_ok in H as (w & _ & [= <-]); exact Ha. Qed.

Lemma update_finish_text_sound t v s s' : finish_text t v s = Ok s' -> sound s -> sound s'.
Proof.
  intros H Hs. assert (Hf : t = TextTarget.Filename \/ exists a a', UpdateState.advisory s = Some a /\
    finish_field t (trim v) a = Ok a' /\ s' = UpdateState.set_advisory (Some a') s).
  { destruct t; [right..| by left]; unfold finish_text, required_advisory in H;
      apply bind_ok in H as (a & Ha%ok_or_ok & (a' & Ha' & [= <-])%bind_ok); eauto. }
  destruct Hf as [->|(a & a' & Ha & Ha' & ->)].
  - cbn in H. apply bind_ok in H as (p & Hp%ok_or_ok & (w & _ & [= <-])%bind_ok). apply sound_package; [done |].
    destruct Hs as (_ & _ & _ & H4). specialize (H4 p Hp). by destruct p.
  - apply sound_advisory; [done |]. eapply finish_field_sound; [done |]. by apply Hs.
Qed.

Lemma push_reference_sound e a a' : push_reference e a = Ok a' -> builder_sound a -> builder_sound a'.
Proof.
  unfold push_reference. intros (i & _ & (k & _ & (h & _ & (t & _ & H)%bind_ok)%bind_ok)%bind_ok)%bind_ok (B1 & B2 & B3 & B4 & B5 & B6).
  apply bind_ok in H as (? & Hi%validate_token_ok & (? & Hk%validate_token_ok & (? & Hh%update_validate_text_ok & (? & _ & (n & [-> Hn]%checked_limit_ok & [= <-])%bind_ok)%bind_ok)%bind_ok)%bind_ok).
  destruct a. cbn in *. split_and!; try done. apply Forall_app. split; [done |]. by apply Forall_singleton.
Qed.

Lemma finish_package_sound p p' : finish_package p = Ok p' -> fields_sound p -> package_sound p'.
Proof.
  unfold finish_package. intros (u & H%validate_token_ok & Hp)%bind_ok Hf. destruct (_ || _) eqn:E; [done |].
  injection Hp as <-. by apply orb_false_iff in E as [? ?].
Qed.

Lemma finish_advisory_sound a a' : finish_advisory a = Ok a' -> builder_sound a -> advisory_sound a'.
Proof.
  unfold finish_advisory.
  intros (u & Hid%validate_token_ok & (u1 & Ht%update_validate_text_ok & (u2 & Hs%validate_token_ok & H)%bind_ok)%bind_ok)%bind_ok.
  intros (B1 & B2 & B3 & B4 & B5 & B6). set (b := if str_is_empty _ then _ else a) in *.
  assert (Hb : Advisory.kind b = Advisory.kind a /\ Advisory.status b = Advisory.status a /\
    Advisory.packages b = Advisory.packages a /\ Advisory.references b = Advisory.references a /\
    Advisory.id b = Advisory.id a /\ Advisory.title b = Advisory.title a) by (unfold b; destruct a, (str_is_empty _); done).
  destruct Hb as (E1 & E2 & E3 & E4 & E5 & E6). clearbody b.
  case_bool_decide as Hne; [done |]. injection H as <-. destruct a, b. cbn -[sort dedup] in *. subst.
  assert (Hlen : forall {A} `{EqDecision A, RustOrdLaws A} (l : list A), (length (dedup (sort l)) <= length l)%nat).
  { intros A ? ? ? l. apply submseteq_length, NoDup_submseteq.
    - apply clt_sorted_NoDup, dedup_sort_sorted.
    - intros x. by rewrite elem_of_dedup_sort. }
  unfold advisory_sound, builder_sound. cbn -[sort dedup]. split_and!; try done; try apply dedup_sort_sorted.
  - apply Forall_forall. intros x. rewrite elem_of_dedup_sort. revert x. by apply Forall_forall.
  - etrans; [| exact B4]. pose proof (Hlen _ _ _ _ packages). lia.
  - apply Forall_forall. intros x. rewrite elem_of_dedup_sort. revert x. by apply Forall_forall.
  - etrans; [| exact B6]. pose proof (Hlen _ _ _ _ references). lia.
Qed.

Section steps.
Context (unescape : string -> result string string).

Lemma update_start_sound s e s' : start s e = Ok s' -> sound s -> sound s'.
Proof.
  unfold start. destruct (_ || _); [done |]. intros (u & _ & (s1 & H1 & [= <-])%bind_ok)%bind_ok Hs.
  assert (Hs1 : sound s1).
  { destruct (head _) as [p|]; [| destruct (negb _), (attributes e); try done; by injection H1 as <-].
    destruct (_ && _).
    { case_bool_decide; [done |]. apply bind_ok in H1 as (a & Ha%start_advisory_sound & [= <-]). by apply sound_advisory. }
    destruct (_ && _); [| by injection H1 as <-]. case_bool_decide; [done |].
    apply bind_ok in H1 as (q & Hq%start_package_sound & [= <-]). by apply sound_package. }
  eapply update_sound_same; [exact Hs1 | by destruct s1..].
Qed.

Lemma update_empty_sound s e s' : empty_element s e = Ok s' -> sound s -> sound s'.
Proof.
  unfold empty_element. destruct (UpdateState.outside s); [done |]. intros (u & _ & H)%bind_ok Hs.
  assert (Hcur : forall a, UpdateState.advisory s = Some a -> builder_sound a) by apply Hs.
  destruct (bool_decide _); [| destruct (bool_decide _); [| destruct (bool_decide _); [| by injection H as <-]]];
    apply bind_ok in H as (a & Ha%ok_or_ok & H); apply Hcur in Ha; apply bind_ok in H as (v & Hv & [= <-]);
    (apply sound_advisory; [done |]).
  - destruct a; exact Ha.
  - destruct a; exact Ha.
  - by eapply push_reference_sound.
Qed.

Lemma update_append_sound s t x v s' : append_text s t x v = Ok s' -> sound s -> sound s'.
Proof. unfold append_text. intros (y & _ & [= <-])%bind_ok Hs. eapply update_sound_same; [exact Hs | by destruct s..]. Qed.

Lemma update_end_sound s n s' : end_element s n = Ok s' -> sound s -> sound s'.
Proof.
  unfold end_element. destruct (UpdateState.stack s) as [|x stack]; [done |]. destruct (negb _); [done |].
  intros (s1 & H1 & H)%bind_ok Hs. assert (Hs1 : sound s1).
  { destruct (UpdateState.text _) as [[t v]|].
    - eapply update_finish_text_sound; [exact H1 |]. eapply update_sound_same; [exact Hs | by destruct s..].
    - injection H1 as <-. eapply update_sound_same; [exact Hs | by destruct s..]. }
  clear H1 Hs s. destruct (bool_decide _).
  { unfold end_package in H. apply bind_ok in H as (p & Hp%ok_or_ok & (q & Hq & (a & Ha%ok_or_ok & (m & [-> Hm]%checked_limit_ok & [= <-])%bind_ok)%bind_ok)%bind_ok).
    destruct s1 as [st ads ad pk tx ds rc]. destruct Hs1 as (H1 & H2 & H3 & H4). cbn in *.
    apply finish_package_sound in Hq; [| by apply H4]. destruct (H3 a Ha) as (B1 & B2 & B3 & B4 & B5 & B6).
    split_and!; try done. intros a' [= <-]. destruct a. cbn in *. split_and!; try done.
    apply Forall_app. split; [done |]. by apply Forall_singleton. }
  destruct (bool_decide _).
  { unfold end_advisory in H. destruct (bool_decide _); [done |].
    apply bind_ok in H as (a & Ha%ok_or_ok & (b & Hb & (m & [-> Hm]%checked_limit_ok & [= <-])%bind_ok)%bind_ok).
    destruct s1 as [st ads ad pk tx ds rc]. destruct Hs1 as (H1 & H2 & H3 & H4). cbn in *.
    apply finish_advisory_sound in Hb; [| by apply H3]. split_and!; try done. cbn.
    apply Forall_app. split; [done |]. by apply Forall_singleton. }
  destruct (bool_decide _); injection H as <-; [| done]. eapply update_sound_same; [exact Hs1 | by destruct s1..].
Qed.

Lemma update_step_sound s ev s' : step unescape s ev = Ok s' -> sound s -> sound s'.
Proof.
  destruct ev; cbn [step]; intros H Hs.
  - by eapply update_start_sound.
  - by eapply update_empty_sound.
  - by eapply update_end_sound.
  - destruct (UpdateState.text s) as [[t x]|].
    + apply bind_ok in H as (v & _ & H). by eapply update_append_sound.
    + destruct (UpdateState.outside s); [| by injection H as <-]. apply bind_ok in H as (v & _ & H).
      destruct (negb _); [done |]. by injection H as <-.
  - apply bind_ok in H as ([t x] & _ & (v & _ & H)%bind_ok). by eapply update_append_sound.
  - apply bind_ok in H as ([t x] & _ & (v & _ & H)%bind_ok). by eapply update_append_sound.
  - destruct (_ && _); [| done]. injection H as <-. eapply update_sound_same; [exact Hs | by destruct s..].
  - done.
  - by injection H as <-.
  - by injection H as <-.
  - done.
Qed.

Lemma parse_updateinfo_ok input l : parse_updateinfo unescape input = Ok l ->
  Forall advisory_sound l /\ StronglySorted clt (Advisory.id <$> l) /\ N.of_nat (length l) <= MAX_ADVISORIES /\
  foldr N.add 0 ((fun a => N.of_nat (length (Advisory.packages a))) <$> l) <= MAX_UPDATE_PACKAGES.
Proof.
  unfold parse_updateinfo, finish. intros (s & Hf & H)%bind_ok.
  assert (Hs : sound s).
  { refine (fold_result_ind _ sound _ _ _ _ _ Hf); [by split_and!; [constructor | cbn; lia | |] |].
    intros s1 ev s2 _ ? ?. by eapply update_step_sound. }
  destruct (_ || _); [done |]. unfold package_count in H.
  apply bind_ok in H as (c & Hc%ok_or_ok & (c' & [-> Hmax]%checked_limit_ok & H)%bind_ok).
  destruct (windows2_any _ _) eqn:Hw; [done |]. injection H as <-. destruct Hs as (H1 & H2 & _).
  apply sorted_keys_distinct in Hw. pose proof (sort_by_perm (c := fun a b => cmp (Advisory.id a) (Advisory.id b))
    (UpdateState.advisories s)) as Hp. split_and!; [by rewrite Hp | done | by rewrite Hp |].
  apply checked_sum_spec in Hc as ->. etrans; [| exact Hmax]. apply N.eq_le_incl.
  apply sum_perm. by rewrite Hp.
Qed.
End steps.
End UpdateFacts.

(** An accepted document lists its advisories under distinct identifiers in order, each with a
    title and with packages, sorted and without repetition, whose file names cannot leave their
    directory, all of it within the limits. *)
Theorem parse_updateinfo_sound (unescape : string -> result string string) (input : list event)
    (l : list UpdateInfo.Advisory.t) (Hok : UpdateInfo.parse_updateinfo unescape input = Ok l) :
  Forall UpdateFacts.advisory_sound l /\ StronglySorted clt (UpdateInfo.Advisory.id <$> l) /\
  N.of_nat (length l) <= UpdateInfo.MAX_ADVISORIES /\
  foldr N.add 0 ((fun a => N.of_nat (length (UpdateInfo.Advisory.packages a))) <$> l) <= UpdateInfo.MAX_UPDATE_PACKAGES.
Proof. by apply (UpdateFacts.parse_updateinfo_ok unescape input). Qed.

(** ** Groups and environments *)

Module CompsFacts.
Import Comps.

Definition text_sound (v : string) : Prop := v <> "" /\ existsb char_is_control (chars v) = false.
Definition identifier_sound (v : string) : Prop := text_sound v /\ existsb char_is_whitespace (chars v) = false.

Lemma comps_validate_text_ok v k u : validate_text v k = Ok u -> text_sound v.
Proof.
  unfold validate_text. destruct (_ || _) eqn:E; [done |]. intros _. apply orb_false_iff in E as [H1 H2].
  by apply str_is_empty_false in H1.
Qed.

Lemma validate_identifier_ok v k u : validate_identifier v k = Ok u -> identifier_sound v.
Proof.
  unfold validate_identifier. intros (u' & H%comps_validate_text_ok & Hw)%bind_ok. split; [done |]. by destruct (existsb _ _).
Qed.

(** Only conditional packages have a requirement. *)
Definition condition_sound (k : CompsPackageType.t) (c : option string) : Prop :=
  k = CompsPackageType.Conditional <-> is_Some c.

Definition package_sound (p : CompsPackage.t) : Prop :=
  identifier_sound (CompsPackage.name p) /\ condition_sound (CompsPackage.kind p) (CompsPackage.condition p) /\
  forall c, CompsPackage.condition p = Some c -> identifier_sound c.

Definition packages_sound (l : list CompsPackage.t) : Prop :=
  Forall package_sound l /\ N.of_nat (length l) <= MAX_COMPS_PACKAGES_PER_GROUP.

Definition group_sound (g : CompsGroup.t) : Prop :=
  identifier_sound (CompsGroup.id g) /\ text_sound (CompsGroup.name g) /\ packages_sound (CompsGroup.packages g) /\
  NoDup (CompsPackage.name <$> CompsGroup.packages g) /\
  StronglySorted (fun a b => cmp a b <> Gt) (CompsGroup.packages g).

Definition lists_sound (e : CompsEnvironment.t) : Prop :=
  Forall identifier_sound (CompsEnvironment.groups e) /\ Forall identifier_sound (CompsEnvironment.optional_groups e) /\
  N.of_nat (length (CompsEnvironment.groups e)) <= MAX_COMPS_GROUPS_PER_ENVIRONMENT /\
  N.of_nat (length (CompsEnvironment.optional_groups e)) <= MAX_COMPS_GROUPS_PER_ENVIRONMENT.

Definition environment_sound (e : CompsEnvironment.t) : Prop :=
  lists_sound e /\ identifier_sound (CompsEnvironment.id e) /\ text_sound (CompsEnvironment.name e) /\
  StronglySorted clt (CompsEnvironment.groups e) /\ StronglySorted clt (CompsEnvironment.optional_groups e) /\
  forall g, g ∈ CompsEnvironment.groups e -> g ∉ CompsEnvironment.optional_groups e.

Definition target_sound (t : CompsTarget.t) : Prop :=
  match t with CompsTarget.Package k c => condition_sound k c | _ => True end.

Record sound (s : state) : Prop := {
  sound_groups : Forall group_sound (CompsState.groups s);
  sound_groups_limit : N.of_nat (length (CompsState.groups s)) <= MAX_COMPS_GROUPS;
  sound_environments : Forall environment_sound (CompsState.environments s);
  sound_environments_limit : N.of_nat (length (CompsState.environments s)) <= MAX_COMPS_ENVIRONMENTS;
  sound_group : forall g, CompsState.group s = Some g -> packages_sound (GroupBuilder.packages g);
  sound_environment : forall e, CompsState.environment s = Some e -> lists_sound e;
  sound_target : forall t v, CompsState.text s = Some (t, v) -> target_sound t;
}.

Lemma package_target_sound e t : package_target e = Ok (Some t) -> target_sound t.
Proof.
  unfold package_target. intros (k & _ & (k' & _ & (c & _ & H)%bind_ok)%bind_ok)%bind_ok.
  destruct (_ && _) eqn:E1; [done |]. destruct (_ && negb _) eqn:E2; [done |]. injection H as <-.
  apply andb_false_iff in E1, E2. unfold target_sound, condition_sound. destruct c as [c|], k'; split; intros ?; try done;
    try (destruct E1; done); try (destruct E2; done).
Qed.

Lemma text_target_sound e p g v t : text_target e p g v = Ok (Some t) -> target_sound t.
Proof.
  unfold text_target. intros (l & _ & H)%bind_ok.
  repeat (destruct (_ : bool) in H; try (by apply package_target_sound in H); try (by injection H as <-); try done).
Qed.

Lemma comps_start_sound s e s' : start s e = Ok s' -> sound s -> sound s'.
Proof.
  unfold start. destruct (_ || _); [done |]. intros (u & _ & (s1 & H1 & (t & Ht & [= <-])%bind_ok)%bind_ok)%bind_ok Hs.
  assert (Hs1 : sound s1).
  { destruct Hs as [H2 H3 H4 H5 H6 H7 H8].
    repeat (destruct (_ : bool) in H1; try done); injection H1 as <-; destruct s; split; try done; cbn;
      intros ? [= <-]; split_and!; try constructor; cbn; lia. }
  destruct Hs1 as [H2 H3 H4 H5 H6 H7 H8], s1. split; try done. cbn. intros t' v E.
  destruct t as [t|]; [| done]. injection E as <- <-. by eapply text_target_sound.
Qed.

Lemma comps_append_sound s t x v s' : append_text s t x v = Ok s' -> target_sound t -> sound s -> sound s'.
Proof.
  unfold append_text. intros (y & _ & [= <-])%bind_ok Ht [H1 H2 H3 H4 H5 H6 H7]. destruct s. split; try done.
  by intros t' v' [= <- <-].
Qed.

Lemma finish_group_text_sound t v g g' : finish_group_text t v g = Ok g' ->
  (forall k c, t = CompsTarget.Package k c -> package_sound (CompsPackage.mk v k c)) ->
  packages_sound (GroupBuilder.packages g) -> packages_sound (GroupBuilder.packages g').
Proof.
  intros H Hp [H1 H2]. destruct t as [| | | | |k c| | | |]; cbn in H; try done;
    apply bind_ok in H as (w & Hw & [= <-]); destruct g; try done.
  apply checked_limit_ok in Hw as [-> Hw]. split; [| done]. apply Forall_app. split; [done |].
  apply Forall_singleton. by apply Hp.
Qed.

Lemma finish_environment_text_sound t v e e' : finish_environment_text t v e = Ok e' ->
  (forall o, t = CompsTarget.EnvironmentGroup o -> identifier_sound v) -> lists_sound e -> lists_sound e'.
Proof.
  intros H Hp (H1 & H2 & H3 & H4). destruct t as [| | | | | | | | |o]; cbn in H; try done;
    apply bind_ok in H as (w & Hw & [= <-]); destruct e; try done.
  specialize (Hp o eq_refl). apply checked_limit_ok in Hw as [-> Hw].
  destruct o; split_and!; try done; apply Forall_app; (split; [done |]); by apply Forall_singleton.
Qed.

Lemma comps_finish_text_sound t v s s' : finish_text t v s = Ok s' -> target_sound t -> sound s -> sound s'.
Proof.
  unfold finish_text. intros (u & Hu & H)%bind_ok Ht [H1 H2 H3 H4 H5 H6 H7]. destruct (for_environment t) eqn:Et.
  - apply bind_ok in H as (e & He%ok_or_ok & (e' & He' & [= <-])%bind_ok). destruct s. split; try done.
    intros x [= <-]. eapply finish_environment_text_sound; [exact He' | | by apply H6].
    intros o ->. by apply validate_identifier_ok in Hu.
  - apply bind_ok in H as (g & Hg%ok_or_ok & (g' & Hg' & [= <-])%bind_ok). destruct s. split; try done.
    intros x [= <-]. eapply finish_group_text_sound; [exact Hg' | | by apply H5].
    intros k c ->. apply bind_ok in Hu as (? & Hn%validate_identifier_ok & Hc). split_and!; [done | done |].
    intros c' E. cbn in E. subst. by apply validate_identifier_ok in Hc.
Qed.

Lemma finish_group_sound b g : finish_group b = Ok g -> packages_sound (GroupBuilder.packages b) -> group_sound g.
Proof.
  unfold finish_group. intros (u & Hi%validate_identifier_ok & (u' & Hn%comps_validate_text_ok & H)%bind_ok)%bind_ok [H1 H2].
  case_bool_decide as Hd; [done |]. injection H as <-. unfold group_sound, packages_sound. cbn -[sort].
  rewrite length_sort. split_and!; try done.
  - apply Forall_forall. intros x. rewrite elem_of_sort. revert x. by apply Forall_forall.
  - destruct (first_repeated _ _) eqn:E; [by destruct Hd |]. by apply first_repeated_None in E as [? _].
  - apply sort_by_sorted, cmp_is_preorder.
Qed.

Lemma sort_distinct (l : list string) :
  windows2_any (fun a b => bool_decide (a = b)) (sort l) = false -> StronglySorted clt (sort l).
Proof. intros H. apply (sorted_keys_distinct id) in H. by rewrite list_fmap_id in H. Qed.

Lemma finish_environment_sound b e : finish_environment b = Ok e -> lists_sound b -> environment_sound e.
Proof.
  unfold finish_environment. intros (u & Hi%validate_identifier_ok & (u' & Hn%comps_validate_text_ok & H)%bind_ok)%bind_ok (H1 & H2 & H3 & H4).
  destruct (_ || _) eqn:E in H; [done |]. injection H as <-. apply orb_false_iff in E as [[E1 E2]%orb_false_iff E3].
  destruct b. unfold environment_sound, lists_sound. cbn -[sort] in *. rewrite !length_sort.
  split_and!; try done; try (by apply sort_distinct);
    try (apply Forall_forall; intros x; rewrite elem_of_sort; revert x; by apply Forall_forall).
  intros x Hx Ho. apply not_true_iff_false in E3. apply E3, existsb_exists. exists x.
  split; [by apply list_elem_of_In | by apply bset_contains_spec].
Qed.

Lemma comps_end_sound s n s' : end_element s n = Ok s' -> sound s -> sound s'.
Proof.
  unfold end_element. destruct (CompsState.stack s) as [|x stack]; [done |]. destruct (negb _); [done |].
  intros (s1 & Hs1 & H)%bind_ok [H1 H2 H3 H4 H5 H6 H7]. assert (Hsound : sound s1).
  { destruct (CompsState.text _) as [[t v]|] eqn:Et; [| injection Hs1 as <-; by destruct s].
    eapply comps_finish_text_sound; [exact Hs1 | |]; destruct s; [by eapply H7 | by split]. }
  clear - Hsound H. destruct Hsound as [H1 H2 H3 H4 H5 H6 H7]. destruct (bool_decide _).
  { unfold end_group in H. apply bind_ok in H as (b & Hb%ok_or_ok & (g & Hg & (m & [-> Hm]%checked_limit_ok & [= <-])%bind_ok)%bind_ok).
    apply finish_group_sound in Hg; [| by apply H5]. destruct s1. split; try done.
    apply Forall_app. split; [done |]. by apply Forall_singleton. }
  destruct (bool_decide _).
  { unfold end_environment in H. apply bind_ok in H as (b & Hb%ok_or_ok & (g & Hg & (m & [-> Hm]%checked_limit_ok & [= <-])%bind_ok)%bind_ok).
    apply finish_environment_sound in Hg; [| by apply H6]. destruct s1. split; try done.
    apply Forall_app. split; [done |]. by apply Forall_singleton. }
  destruct (bool_decide _); injection H as <-; by destruct s1.
Qed.

Section reader.
Context (unescape : string -> result string string).

Lemma comps_step_sound s ev s' : step unescape s ev = Ok s' -> sound s -> sound s'.
Proof.
  assert (Hsee : sound s -> sound (CompsState.see_declaration s) /\ sound (CompsState.see_doctype s)).
  { intros [H1 H2 H3 H4 H5 H6 H7]. destruct s. split; by split. }
  destruct ev; cbn [step]; intros H Hs.
  - by eapply comps_start_sound.
  - destruct (CompsState.outside s); [done |]. apply bind_ok in H as (u & _ & [= <-]). done.
  - by eapply comps_end_sound.
  - destruct (CompsState.text s) as [[t x]|] eqn:Et.
    + apply bind_ok in H as (v & _ & H). eapply comps_append_sound; [exact H | by eapply sound_target | done].
    + destruct (CompsState.outside s); [| by injection H as <-]. apply bind_ok in H as (v & _ & H).
      destruct (negb _); [done |]. by injection H as <-.
  - apply bind_ok in H as ([t x] & Et%ok_or_ok & (v & _ & H)%bind_ok).
    eapply comps_append_sound; [exact H | by eapply sound_target | done].
  - apply bind_ok in H as ([t x] & Et%ok_or_ok & (v & _ & H)%bind_ok).
    eapply comps_append_sound; [exact H | by eapply sound_target | done].
  - destruct (_ && _); [| done]. injection H as <-. by apply Hsee.
  - destruct (_ && _); [| done]. unfold doctype in H. apply bind_ok in H as (v & _ & H).
    destruct (negb _); [done |]. injection H as <-. by apply Hsee.
  - by injection H as <-.
  - by injection H as <-.
  - done.
Qed.

Lemma reject_duplicate_ids_ok {A} (key : A -> string) (l : list A) k u :
  reject_duplicate_ids (key <$> sort_by (fun a b => cmp (key a) (key b)) l) k = Ok u ->
  StronglySorted clt (key <$> sort_by (fun a b => cmp (key a) (key b)) l).
Proof.
  unfold reject_duplicate_ids. destruct (windows2_any _ _) eqn:E; [done |]. intros _. apply sorted_keys_distinct.
  revert E. generalize (sort_by (fun a b => cmp (key a) (key b)) l). intros s.
  induction s as [|a s IH]; [done |]. destruct s as [|b s]; [done |]. cbn. intros [-> ?]%orb_false_iff. by apply IH.
Qed.

Lemma parse_comps_ok input c : parse_comps unescape input = Ok c ->
  Forall group_sound (Comps.groups c) /\ Forall environment_sound (Comps.environments c) /\
  StronglySorted clt (CompsGroup.id <$> Comps.groups c) /\
  StronglySorted clt (CompsEnvironment.id <$> Comps.environments c) /\
  N.of_nat (length (Comps.groups c)) <= MAX_COMPS_GROUPS /\
  N.of_nat (length (Comps.environments c)) <= MAX_COMPS_ENVIRONMENTS /\
  foldr N.add 0 ((fun g => N.of_nat (length (CompsGroup.packages g))) <$> Comps.groups c) <= MAX_COMPS_PACKAGES.
Proof.
  unfold parse_comps, finish. intros (s & Hf & H)%bind_ok.
  assert (Hs : sound s).
  { refine (fold_result_ind _ sound _ _ _ _ _ Hf); [by split; [constructor | cbn; lia | constructor | cbn; lia | ..] |].
    intros s1 ev s2 _ ? ?. by eapply comps_step_sound. }
  destruct (_ || _); [discriminate |]. unfold package_count in H.
  apply bind_ok in H as (n & Hn%ok_or_ok & (n' & [-> Hmax]%checked_limit_ok & H)%bind_ok).
  apply bind_ok in H as (u1 & Hg & (u2 & He & [= <-])%bind_ok). destruct Hs as [H1 H2 H3 H4 _ _ _].
  apply reject_duplicate_ids_ok in Hg, He. cbn [Comps.groups Comps.environments].
  pose proof (sort_by_perm (c := fun a b => cmp (CompsGroup.id a) (CompsGroup.id b)) (CompsState.groups s)) as Pg.
  pose proof (sort_by_perm (c := fun a b => cmp (CompsEnvironment.id a) (CompsEnvironment.id b))
    (CompsState.environments s)) as Pe.
  split_and!; [by rewrite Pg | by rewrite Pe | done | done | by rewrite Pg | by rewrite Pe |].
  apply checked_sum_spec in Hn as ->. etrans; [| exact Hmax]. apply N.eq_le_incl, sum_perm. by rewrite Pg.
Qed.
End reader.
End CompsFacts.

(** An accepted document lists its groups and its environments under distinct identifiers in
    order; a group names each package once, with a requirement exactly when it is conditional, and
    an environment names each group once, either required or optional. *)
Theorem parse_comps_sound (unescape : string -> result string string) (input : list event) (c : Comps.Comps.t)
    (Hok : Comps.parse_comps unescape input = Ok c) :
  Forall CompsFacts.group_sound (Comps.Comps.groups c) /\
  Forall CompsFacts.environment_sound (Comps.Comps.environments c) /\
  StronglySorted clt (Comps.CompsGroup.id <$> Comps.Comps.groups c) /\
  StronglySorted clt (Comps.CompsEnvironment.id <$> Comps.Comps.environments c) /\
  N.of_nat (length (Comps.Comps.groups c)) <= Comps.MAX_COMPS_GROUPS /\
  N.of_nat (length (Comps.Comps.environments c)) <= Comps.MAX_COMPS_ENVIRONMENTS /\
  foldr N.add 0 ((fun g => N.of_nat (length (Comps.CompsGroup.packages g))) <$> Comps.Comps.groups c)
    <= Comps.MAX_COMPS_PACKAGES.
Proof. by apply (CompsFacts.parse_comps_ok unescape input). Qed.

(** ** Examples *)

Module AdvisoryExamples.

Definition unescape (s : string) : result string string :=
  if bool_decide (s = "&amp;") then Ok "&" else Err "unknown entity".

Definition tag (n : string) (attrs : list (string * string)) : event := Start Unbound (Element n (plain attrs)).
Definition field (n v : string) : list event := [tag n []; Text (Ok v); End n].

Definition updates : list event :=
  [Decl; tag "updates" []; tag "update" [("type", "security"); ("status", "final")]] ++
  field "id" "FEDORA-1" ++ field "title" "An update" ++
  [tag "references" []; Empty Unbound (Element "reference" (plain [("id", "1"); ("type", "cve"); ("href", "h")]));
   End "references";
   tag "pkglist" [];
   tag "package" [("name", "bash"); ("epoch", "0"); ("version", "5.2"); ("release", "1"); ("arch", "x86_64")]] ++
  field "filename" "bash-5.2-1.x86_64.rpm" ++ [End "package"; End "pkglist"; End "update"; End "updates"].

Definition advisory : UpdateInfo.Advisory.t :=
  UpdateInfo.Advisory.mk "FEDORA-1" "An update" "security" "final" "None" "" "" "" ""
    [UpdateInfo.AdvisoryReference.mk "1" "cve" "h" ""]
    [UpdateInfo.AdvisoryPackage.mk "bash" 0 "5.2" "1" "x86_64" "bash-5.2-1.x86_64.rpm"].

(** The document of the tests, with [translated] as the text of the translated name. *)
Definition comps (translated : list event) : list event :=
  [Decl; DocType (Ok Comps.COMPS_DOCTYPE); tag "comps" []; tag "group" []] ++ field "id" "tools" ++ field "name" "Tools" ++
  [tag "name" [("xml:lang", "ko")]] ++ translated ++ [End "name"] ++
  [tag "packagelist" []; tag "packagereq" [("type", "optional")]; Text (Ok "extra"); End "packagereq";
   tag "packagereq" [("type", "conditional"); ("requires", "base")]; Text (Ok "addon"); End "packagereq";
   tag "packagereq" [("type", "mandatory")]; Text (Ok "base"); End "packagereq"; End "packagelist"; End "group";
   tag "environment" []] ++ field "id" "workstation" ++ field "name" "Workstation" ++
  [tag "grouplist" []] ++ field "groupid" "tools" ++ [End "grouplist"; tag "optionlist" []] ++
  field "groupid" "extras" ++ [End "optionlist"; End "environment"; End "comps"].

Definition parsed : Comps.Comps.t :=
  Comps.Comps.mk
    [Comps.CompsGroup.mk "tools" "Tools" "" false true
       [Comps.CompsPackage.mk "base" Comps.CompsPackageType.Mandatory None;
        Comps.CompsPackage.mk "extra" Comps.CompsPackageType.Optional None;
        Comps.CompsPackage.mk "addon" Comps.CompsPackageType.Conditional (Some "base")]]
    [Comps.CompsEnvironment.mk "workstation" "Workstation" "" ["tools"] ["extras"]].
End AdvisoryExamples.

Lemma parse_updateinfo_sound_witness :
  UpdateInfo.parse_updateinfo AdvisoryExamples.unescape AdvisoryExamples.updates = Ok [AdvisoryExamples.advisory] /\
  UpdateFacts.advisory_sound AdvisoryExamples.advisory.
Proof.
  assert (H : UpdateInfo.parse_updateinfo AdvisoryExamples.unescape AdvisoryExamples.updates = Ok [AdvisoryExamples.advisory])
    by (vm_compute; reflexivity).
  split; [exact H |]. exact (proj1 (Forall_singleton _ _) (proj1 (parse_updateinfo_sound _ _ _ H))).
Defined.

Lemma parse_comps_sound_witness :
  Comps.parse_comps AdvisoryExamples.unescape (AdvisoryExamples.comps [Text (Ok "R and D")]) = Ok AdvisoryExamples.parsed /\
  Forall CompsFacts.group_sound (Comps.Comps.groups AdvisoryExamples.parsed).
Proof.
  assert (H : Comps.parse_comps AdvisoryExamples.unescape (AdvisoryExamples.comps [Text (Ok "R and D")])
    = Ok AdvisoryExamples.parsed) by (vm_compute; reflexivity).
  split; [exact H |]. exact (proj1 (parse_comps_sound _ _ _ H)).
Defined.

(** The text of a translated name is skipped, but a reference within it refuses the document. *)
Example translated_reference_refused :
  Comps.parse_comps AdvisoryExamples.unescape
    (AdvisoryExamples.comps [Text (Ok "R "); GeneralRef (Ok "amp"); Text (Ok " D")])
  = Err (MetadataError.Xml "entity reference outside comps text").
Proof. vm_compute. reflexivity. Qed.
