(* ===== verification/AnchoredFs.v ===== *)
(** * Anchored file access ([dnfast-repo]: anchored_fs.rs)

    The file system is a map from inode numbers to inodes; a number is never reused.  The
    functions below make one system call after the other while other processes change the file
    system, so they take the whole history: [W t] is the file system at the time of call [t].
    Which files the process may open is part of the inode ([accessible]); opening a special
    file returns. *)
From Stdlib Require Import Ascii.
From S2P Require Import Prelude.
From S2P Require Import RustStr.
From S2P Require Import MainConfig.
From S2P Require Import UnixPath.

#[local] Open Scope N_scope.

Module Inode.
Inductive data : Type :=
  | RegularFile (content : list byte)
  | Directory (entries : list (string * N))
  | Symlink (target : string)
  | Special.

Record t : Type := mk { contents : data; uid : N; mode : N; nlink : N; accessible : bool }.

#[global] Instance data_eq_dec : EqDecision data.
Proof. solve_decision. Defined.
#[global] Instance inode_eq_dec : EqDecision t.
Proof. solve_decision. Defined.

Definition is_regular (n : t) : bool := match contents n with RegularFile _ => true | _ => false end.
Definition is_directory (n : t) : bool := match contents n with Directory _ => true | _ => false end.
Definition is_symlink (n : t) : bool := match contents n with Symlink _ => true | _ => false end.
End Inode.

Notation world := (gmap N Inode.t).

Definition root_inode : N := 2.

Fixpoint entry (name : string) (entries : list (string * N)) : option N :=
  match entries with
  | [] => None
  | (n, i) :: t => if decide (n = name) then Some i else entry name t
  end.

(** The entry of an open directory. *)
Definition member (w : world) (directory : N) (name : string) : option N :=
  d ← w !! directory;
  match Inode.contents d with
  | Inode.Directory entries => if Inode.accessible d then entry name entries else None
  | _ => None
  end.

Definition statat (w : world) (directory : N) (name : string) : option Inode.t :=
  i ← member w directory name; w !! i.

(** [openat] with [O_NOFOLLOW], and with [O_DIRECTORY] when [directory_only]. *)
Definition openat (w : world) (directory : N) (name : string) (directory_only : bool) : option N :=
  i ← member w directory name;
  n ← w !! i;
  if Inode.is_symlink n || (directory_only && negb (Inode.is_directory n)) || negb (Inode.accessible n)
  then None else Some i.

Definition readlinkat (w : world) (directory : N) (name : string) : option string :=
  n ← statat w directory name;
  match Inode.contents n with Inode.Symlink target => Some target | _ => None end.

Definition open_slash (w : world) : option N :=
  n ← w !! root_inode;
  if Inode.is_directory n && Inode.accessible n then Some root_inode else None.

(** Reading an open file to its end; a directory cannot be read. *)
Definition read_fd (w : world) (i : N) : option (list byte) :=
  n ← w !! i;
  match Inode.contents n with
  | Inode.RegularFile content => Some content
  | Inode.Special => Some []
  | _ => None
  end.

Section anchored_fs.
Context (W : nat -> world) (path : string) (owner : N).

Definition error {A} (message : string) : mresult A := Err (MutationError.mk path 0 message).

Definition owner_valid (uid : N) : bool := (uid =? owner) || (negb (owner =? 0) && (uid =? 0)).

(** 0o022: writable by the group or by others. *)
Definition writable_bits : N := 18.

Definition validate (t : nat) (fd : N) (file : bool) : mresult unit :=
  match W t !! fd with
  | None => error "cannot inspect trusted path component"
  | Some stat =>
      if negb (owner_valid (Inode.uid stat))
         || negb (N.land (Inode.mode stat) writable_bits =? 0)
         || (file && negb (Inode.nlink stat =? 1))
         || negb (if file then Inode.is_regular stat else Inode.is_directory stat)
      then error "untrusted root ownership, mode, or file type"
      else Ok tt
  end.

(** The walk from an open directory; it returns the file and the time.  [file]: the last
    component is to be a file. *)
Fixpoint walk (invalid cannot_open : string) (file : bool) (t : nat) (cs : list Component) (directory : N) :
    mresult (N * nat) :=
  match cs with
  | [] => Ok (directory, t)
  | c :: cs =>
      match c with
      | Normal name =>
          let final_component := bool_decide (cs = []) in
          match openat (W t) directory name (negb (file && final_component)) with
          | None => error cannot_open
          | Some opened =>
              _ ← validate (S t) opened (file && final_component);
              walk invalid cannot_open file (S (S t)) cs opened
          end
      | RootDir | CurDir | ParentDir => error invalid
      end
  end.

Definition open_root_regular_file : mresult (N * nat) :=
  if negb (is_absolute path) then error "trusted path is not absolute"
  else
    match open_slash (W 0%nat) with
    | None => error "cannot anchor root directory"
    | Some directory =>
        match components path with
        | RootDir :: cs =>
            walk "trusted path contains invalid component" "cannot open trusted path component"
              true 1 cs directory
        | _ => error "trusted path is not rooted"
        end
    end.

Definition open_root_directory : mresult (N * nat) :=
  if negb (is_absolute path) then error "trusted directory is not absolute"
  else
    match open_slash (W 0%nat) with
    | None => error "cannot anchor root directory"
    | Some directory =>
        match components path with
        | RootDir :: cs =>
            walk "trusted directory contains invalid component" "cannot open trusted directory component"
              false 1 cs directory
        | _ => error "trusted directory is not rooted"
        end
    end.

Definition read_limited (t : nat) (fd limit : N) (cannot exceeds : string) : mresult (list byte) :=
  match read_fd (W t) fd with
  | None => error cannot
  | Some content =>
      let bytes := take (N.to_nat (limit + 1)) content in
      if limit <? N.of_nat (length bytes) then error exceeds else Ok bytes
  end.

Definition read_root_file (limit : N) : mresult (list byte) :=
  '(fd, t) ← open_root_regular_file;
  read_limited t fd limit "cannot read trusted file" "trusted file exceeds size limit".

(** 0o111: executable by someone. *)
Definition validate_root_executable : mresult unit :=
  '(fd, t) ← open_root_regular_file;
  match W t !! fd with
  | None => error "cannot inspect trusted executable"
  | Some stat =>
      if N.land (Inode.mode stat) 73 =? 0 then error "trusted executable is not executable" else Ok tt
  end.

(** ** Keys of the system, which may be links within their directory *)

Definition valid_member_name (value : string) : bool :=
  negb (str_is_empty value) && negb (existsb (fun b => bool_decide (b = slash)) (bytes value))
  && negb (bool_decide (value = ".")) && negb (bool_decide (value = "..")).

Definition system_key_name (directory : string) : mresult string :=
  if negb (bool_decide (parent path = Some (components directory)))
  then error "system gpgkey is outside trusted directory"
  else
    match file_name path with
    | None => error "system gpgkey has no filename"
    | Some name =>
        if negb (valid_member_name name) then error "system gpgkey has unsafe filename" else Ok name
    end.

Definition validate_link_metadata (stat : Inode.t) : mresult unit :=
  if (Inode.uid stat =? owner) && (Inode.nlink stat =? 1) then Ok tt
  else error "untrusted system key alias ownership or mode".

Fixpoint open_system_key_member (turns : nat) (t : nat) (directory : N) (name : string) :
    mresult (N * nat) :=
  match turns with
  | O => error "trusted system key alias chain exceeds limit"
  | S turns =>
      match statat (W t) directory name with
      | None => error "cannot inspect trusted system key"
      | Some metadata =>
          match Inode.contents metadata with
          | Inode.RegularFile _ =>
              match openat (W (S t)) directory name false with
              | None => error "cannot open trusted system key"
              | Some file => _ ← validate (S (S t)) file true; Ok (file, S (S (S t)))
              end
          | Inode.Symlink _ =>
              _ ← validate_link_metadata metadata;
              match readlinkat (W (S t)) directory name with
              | None => error "cannot read trusted system key alias"
              | Some target =>
                  if negb (valid_member_name target)
                  then error "trusted system key alias escapes directory"
                  else open_system_key_member turns (S (S t)) directory target
              end
          | _ => error "trusted system key has invalid file type"
          end
      end
  end.
End anchored_fs.

Definition read_system_gpg_key (W : nat -> world) (path directory : string) (limit owner : N) :
    mresult (list byte) :=
  name ← system_key_name path directory;
  '(directory_fd, t) ← open_root_directory W directory owner;
  '(file, t) ← open_system_key_member W path owner 8 t directory_fd name;
  read_limited W path t file limit "cannot read trusted system key" "trusted system key exceeds size limit".

(** ** What an anchored read promises *)

Module AnchoredFacts.
Section facts.
Context (owner : N).

(** Only the owner, or root, can change such an inode. *)
Definition secure (n : Inode.t) : bool :=
  owner_valid owner (Inode.uid n)
  && (Inode.is_symlink n || (N.land (Inode.mode n) writable_bits =? 0)).

(** What of an inode only trusted users can change. *)
Definition view (w : world) (i : N) : option (Inode.data * N * N) :=
  n ← w !! i; if secure n then Some (Inode.contents n, Inode.uid n, Inode.mode n) else None.

(** A step of everyone else: the secure inodes stay as they are, and no other inode becomes
    secure.  Everything else may change: links, untrusted files and directories, the number of
    links of any file. *)
Definition foreign_step (w w' : world) : Prop := forall i, view w i = view w' i.

(** The inode that [names] lead to, through secure directories and no symbolic link. *)
Inductive anchored (w : world) : N -> list string -> N -> Prop :=
  | anchored_here d : anchored w d [] d
  | anchored_step d entries uid mode name i names j :
      view w d = Some (Inode.Directory entries, uid, mode) -> entry name entries = Some i ->
      anchored w i names j -> anchored w d (name :: names) j.

(** The file that [name] leads to in one directory, through at most [k] links. *)
Inductive alias (w : world) (entries : list (string * N)) : nat -> string -> N -> Prop :=
  | alias_file k name i content uid mode :
      entry name entries = Some i -> view w i = Some (Inode.RegularFile content, uid, mode) ->
      alias w entries k name i
  | alias_link k name i target uid mode j :
      entry name entries = Some i -> view w i = Some (Inode.Symlink target, uid, mode) ->
      plain_name target -> alias w entries k target j -> alias w entries (S k) name j.

Lemma view_some w i c u m :
  view w i = Some (c, u, m) <->
  exists n, w !! i = Some n /\ secure n = true /\ Inode.contents n = c /\ Inode.uid n = u /\ Inode.mode n = m.
Proof.
  unfold view. destruct (w !! i) as [n|]; simpl.
  2: { split; [done | by intros (n & [=] & _)]. }
  destruct (secure n) eqn:E.
  - split; [intros [= <- <- <-]; by exists n | by intros (? & [= <-] & _ & -> & -> & ->)].
  - split; [done | intros (? & [= <-] & Hs & _); congruence].
Qed.

Context (W : nat -> world) (Hsteps : forall t, foreign_step (W t) (W (S t))).

Lemma view_history t i : view (W t) i = view (W 0%nat) i.
Proof. induction t as [|t IH]; [done |]. by rewrite <- (Hsteps t i). Qed.

Lemma validate_ok path t fd file u :
  validate W path owner t fd file = Ok u ->
  exists c uid mode, view (W 0%nat) fd = Some (c, uid, mode) /\
    if file then exists content, c = Inode.RegularFile content else exists entries, c = Inode.Directory entries.
Proof.
  unfold validate. destruct (W t !! fd) as [n|] eqn:Hn; [| done].
  destruct (_ || _) eqn:E; [done |]. intros _. rewrite !orb_false_iff, !negb_false_iff in E.
  destruct E as [[[Hu Hm] _] Hf]. exists (Inode.contents n), (Inode.uid n), (Inode.mode n). split.
  - rewrite <- (view_history t). apply view_some. exists n. split_and!; try done.
    unfold secure. rewrite Hu, Hm. by rewrite orb_true_r.
  - unfold Inode.is_regular, Inode.is_directory in Hf.
    destruct file, (Inode.contents n); try done; by eexists.
Qed.

(** A secure directory has the entries it had at the start. *)
Lemma member_view t d name i c uid mode :
  view (W 0%nat) d = Some (c, uid, mode) -> member (W t) d name = Some i ->
  exists entries, c = Inode.Directory entries /\ entry name entries = Some i.
Proof.
  intros Hv Hm. rewrite <- (view_history t) in Hv. apply view_some in Hv as (n & Hn & _ & Hc & _).
  unfold member in Hm. rewrite Hn in Hm. simpl in Hm. rewrite Hc in Hm.
  destruct c; try done. destruct (Inode.accessible n); [| done]. by eexists.
Qed.

Lemma openat_member w d name b i : openat w d name b = Some i -> member w d name = Some i.
Proof.
  unfold openat. destruct (member w d name) as [j|]; [| done]. simpl.
  destruct (w !! j); [| done]. simpl. by destruct (_ || _).
Qed.

Lemma walk_ok path invalid cannot file cs : forall t d i t',
  walk W path owner invalid cannot file t cs d = Ok (i, t') ->
  is_Some (view (W 0%nat) d) ->
  exists names, cs = Normal <$> names /\ anchored (W 0%nat) d names i /\
    is_Some (view (W 0%nat) i) /\
    (file = true -> cs <> [] -> exists content uid mode,
      view (W 0%nat) i = Some (Inode.RegularFile content, uid, mode)) /\
    (file = false -> cs <> [] -> exists entries uid mode,
      view (W 0%nat) i = Some (Inode.Directory entries, uid, mode)).
Proof.
  induction cs as [|c cs IH]; intros t d i t'; simpl.
  { intros [= -> <-] Hv. exists []. split_and!; [done | constructor | done | done | done]. }
  destruct c as [| | |name]; try done.
  destruct (openat _ _ _ _) as [o|] eqn:Ho; [| done]. apply openat_member in Ho.
  intros (u & Hval%validate_ok & Hw)%bind_ok [[[c uid] mode] Hv].
  destruct (member_view _ _ _ _ _ _ _ Hv Ho) as (entries & -> & Hentry).
  destruct Hval as (c' & uid' & mode' & Hv' & Hkind).
  destruct (IH _ _ _ _ Hw) as (names & -> & Ha & Hsome & Hfile & Hdir); [by eexists |].
  exists (name :: names). split_and!; [done | by econstructor | done | |].
  - intros -> _. destruct names as [|x names]; [| by apply Hfile]. inversion Ha; subst.
    rewrite bool_decide_eq_true_2 in Hkind by done. destruct Hkind as [content ->].
    by exists content, uid', mode'.
  - intros -> _. destruct names as [|x names]; [| by apply Hdir]. inversion Ha; subst.
    destruct Hkind as [es ->]. by exists es, uid', mode'.
Qed.

Lemma valid_member_name_spec name : valid_member_name name = true -> plain_name name.
Proof.
  unfold valid_member_name. rewrite !andb_true_iff, !negb_true_iff, !bool_decide_eq_false.
  intros [[[Hne Hs] H1] H2]. split_and!; [| by apply str_is_empty_false | done | done].
  intros Hin. apply existsb_false in Hs. rewrite Forall_forall in Hs. specialize (Hs slash Hin).
  by apply bool_decide_eq_false in Hs.
Qed.

Lemma member_ok path turns : forall t d name i t' c uid mode,
  open_system_key_member W path owner turns t d name = Ok (i, t') ->
  view (W 0%nat) d = Some (c, uid, mode) ->
  exists entries k, turns = S k /\ c = Inode.Directory entries /\ alias (W 0%nat) entries k name i.
Proof.
  induction turns as [|turns IH]; [done |]. intros t d name i t' c uid mode Hop Hv. simpl in Hop.
  destruct (statat _ _ _) as [metadata|] eqn:Hst; [| done].
  destruct (Inode.contents metadata) as [content| |target0|] eqn:Hc; try done.
  - destruct (openat _ _ _ _) as [o|] eqn:Ho; [| done]. apply openat_member in Ho.
    apply bind_ok in Hop as (u & (c' & uid' & mode' & Hv' & content' & ->)%validate_ok & [= -> _]).
    destruct (member_view _ _ _ _ _ _ _ Hv Ho) as (entries & -> & He).
    exists entries, turns. split_and!; [done | done |]. by eapply alias_file.
  - apply bind_ok in Hop as (u & Hlink & Hop).
    unfold statat in Hst. destruct (member (W t) d name) as [l|] eqn:Hm; [| done]. simpl in Hst.
    destruct (member_view _ _ _ _ _ _ _ Hv Hm) as (entries & -> & He).
    assert (Hl : view (W 0%nat) l = Some (Inode.Symlink target0, Inode.uid metadata, Inode.mode metadata)).
    { rewrite <- (view_history t). apply view_some. exists metadata. split_and!; try done.
      unfold validate_link_metadata in Hlink. destruct (_ && _) eqn:E; [| done].
      apply andb_true_iff in E as [Hu _]. unfold secure, owner_valid, Inode.is_symlink.
      by rewrite Hu, Hc. }
    destruct (readlinkat _ _ _) as [target|] eqn:Hr; [| done].
    destruct (negb _) eqn:Hvalid; [done |]. apply negb_false_iff, valid_member_name_spec in Hvalid.
    destruct (IH _ _ _ _ _ _ _ _ Hop Hv) as (entries' & k & -> & [= <-] & Ha).
    exists entries, (S k). split_and!; [done | done |].
    assert (target = target0) as ->; [| by eapply alias_link].
    unfold readlinkat, statat in Hr. destruct (member (W (S t)) d name) as [l'|] eqn:Hm'; [| done].
    destruct (member_view _ _ _ _ _ _ _ Hv Hm') as (? & [= <-] & He'). simpl in Hr.
    assert (l' = l) as -> by congruence.
    rewrite <- (view_history (S t)) in Hl. apply view_some in Hl as (n & Hn & _ & Hcn & _).
    rewrite Hn in Hr. simpl in Hr. rewrite Hcn in Hr. congruence.
Qed.

Lemma read_limited_ok path t fd limit cannot exceeds bytes :
  read_limited W path t fd limit cannot exceeds = Ok bytes ->
  read_fd (W t) fd = Some bytes /\ N.of_nat (length bytes) <= limit.
Proof.
  unfold read_limited. destruct (read_fd _ _) as [content|]; [| done].
  destruct (_ <? _) eqn:E; [done |]. intros [= <-]. apply N.ltb_ge in E. split; [| done].
  f_equal. symmetry. rewrite length_take in E. apply take_ge. lia.
Qed.

Lemma read_fd_view t i c uid mode bytes :
  view (W 0%nat) i = Some (c, uid, mode) -> read_fd (W t) i = Some bytes ->
  c = Inode.RegularFile bytes \/ c = Inode.Special.
Proof.
  intros Hv Hr. rewrite <- (view_history t) in Hv. apply view_some in Hv as (n & Hn & _ & Hc & _).
  unfold read_fd in Hr. rewrite Hn in Hr. simpl in Hr. rewrite Hc in Hr.
  destruct c; try done; [left; congruence | by right].
Qed.

Lemma open_slash_some w d : open_slash w = Some d ->
  d = root_inode /\ exists n entries, w !! root_inode = Some n /\ Inode.contents n = Inode.Directory entries.
Proof.
  unfold open_slash. destruct (w !! root_inode) as [n|]; [| done]. simpl.
  destruct (_ && _) eqn:E; [| done]. intros [= <-]. split; [done |].
  apply andb_true_iff in E as [E _]. unfold Inode.is_directory in E.
  destruct (Inode.contents n) as [|entries| |] eqn:Hc; try done. by exists n, entries.
Qed.

Lemma open_root_regular_file_ok path i t :
  is_Some (view (W 0%nat) root_inode) ->
  open_root_regular_file W path owner = Ok (i, t) ->
  exists names, components path = RootDir :: (Normal <$> names) /\ anchored (W 0%nat) root_inode names i /\
    exists c uid mode, view (W 0%nat) i = Some (c, uid, mode) /\
      ((exists content, c = Inode.RegularFile content) /\ names <> [] \/
       (exists entries, c = Inode.Directory entries) /\ names = []).
Proof.
  intros Hroot. unfold open_root_regular_file. destruct (negb _); [done |].
  destruct (open_slash _) as [d|] eqn:Hs; [| done].
  destruct (open_slash_some _ _ Hs) as (-> & n & entries & Hn & Hc).
  destruct (components path) as [|[] cs]; try done. intros Hw.
  destruct (walk_ok _ _ _ _ _ _ _ _ _ Hw Hroot) as (names & -> & Ha & [[[c uid] mode] Hv] & Hf & _).
  exists names. split_and!; [done | done |]. exists c, uid, mode. split; [done |].
  destruct names as [|x names].
  - right. split; [| done]. inversion Ha; subst. apply view_some in Hv as (n' & Hn' & _ & <- & _).
    exists entries. congruence.
  - left. split; [| done]. destruct (Hf eq_refl ltac:(done)) as (content & u & m & Hv').
    exists content. congruence.
Qed.
Lemma read_root_file_view path limit content :
  is_Some (view (W 0%nat) root_inode) -> read_root_file W path owner limit = Ok content ->
  exists names i uid mode, components path = RootDir :: (Normal <$> names) /\
    anchored (W 0%nat) root_inode names i /\
    view (W 0%nat) i = Some (Inode.RegularFile content, uid, mode) /\
    N.of_nat (length content) <= limit.
Proof.
  intros Hroot Hok.
  unfold read_root_file in Hok. apply bind_ok in Hok as ([fd t] & Ho & [Hr Hl]%read_limited_ok).
  apply open_root_regular_file_ok in Ho as (names & Hp & Ha & c & uid & mode & Hv & Hk); [| done].
  exists names, fd, uid, mode. split_and!; [done | done | | done]. rewrite Hv.
  destruct (read_fd_view _ _ _ _ _ _ Hv Hr) as [->| ->]; [done |].
  by destruct Hk as [[[? [=]] _]|[[? [=]] _]].
Qed.

Lemma read_system_key_view path directory limit content :
  is_Some (view (W 0%nat) root_inode) -> read_system_gpg_key W path directory limit owner = Ok content ->
  exists names name d entries uid mode i uid' mode',
    components directory = RootDir :: (Normal <$> names) /\
    components path = components directory ++ [Normal name] /\
    anchored (W 0%nat) root_inode names d /\
    view (W 0%nat) d = Some (Inode.Directory entries, uid, mode) /\
    alias (W 0%nat) entries 7 name i /\
    view (W 0%nat) i = Some (Inode.RegularFile content, uid', mode') /\
    N.of_nat (length content) <= limit.
Proof.
  intros Hroot Hok.
  unfold read_system_gpg_key in Hok.
  apply bind_ok in Hok as (name & Hname & ([d t1] & Hd & ([i t2] & Hm & [Hr Hl]%read_limited_ok)%bind_ok)%bind_ok).
  unfold open_root_directory in Hd. destruct (negb _); [done |].
  destruct (open_slash _) as [r|] eqn:Hs; [| done]. apply open_slash_some in Hs as [-> _].
  destruct (components directory) as [|[] cs] eqn:Hcs; try done.
  destruct (walk_ok _ _ _ _ _ _ _ _ _ Hd Hroot) as (names & -> & Ha & [[[c uid] mode] Hv] & _ & _).
  destruct (member_ok _ _ _ _ _ _ _ _ _ _ Hm Hv) as (entries & k & [= <-] & -> & Hal).
  assert (Hvi : exists content' uid' mode', view (W 0%nat) i = Some (Inode.RegularFile content', uid', mode')).
  { clear -Hal. induction Hal as [|]; [by eexists _, _, _ | done]. }
  destruct Hvi as (content' & uid' & mode' & Hvi).
  destruct (read_fd_view _ _ _ _ _ _ Hvi Hr) as [[= ->]|]; [| done].
  exists names, name, d, entries, uid, mode, i, uid', mode'. split_and!; try done.
  unfold system_key_name in Hname. destruct (negb _) eqn:Hp; [done |].
  apply negb_false_iff, bool_decide_eq_true in Hp. rewrite <- Hcs.
  unfold parent in Hp. unfold file_name in Hname.
  destruct (last (components path)) as [lc|] eqn:Hlast; [| done].
  apply last_Some in Hlast as [pre Hpre]. destruct lc as [| | |base]; try done.
  destruct (negb _) in Hname; [done |]. injection Hname as <-. injection Hp as Hp.
  rewrite Hpre in Hp |- *. rewrite removelast_last in Hp. by rewrite Hp.
Qed.
End facts.

(** C27: what a trusted read returns is the content of the file at its path when the read
    started, reached through directories and a file that only the owner or root can write, and
    no symbolic link: nothing that other users do to the file system during the read, such as
    swapping a directory for a link, can redirect it. *)
Theorem read_root_file_anchored (owner : N) (W : nat -> world) (path : string) (limit : N) (content : list byte)
    (Hsteps : forall t, foreign_step owner (W t) (W (S t)))
    (Hroot : is_Some (view owner (W 0%nat) root_inode))
    (Hok : read_root_file W path owner limit = Ok content) :
  exists names i uid mode, components path = RootDir :: (Normal <$> names) /\
    anchored owner (W 0%nat) root_inode names i /\
    view owner (W 0%nat) i = Some (Inode.RegularFile content, uid, mode) /\
    N.of_nat (length content) <= limit.
Proof.
  by apply (read_root_file_view owner W Hsteps path limit content).
Qed.

(** A key of the system is a file of the key directory, reached through at most seven links
    of the owner whose targets are names in that directory, whatever other users do meanwhile. *)
Theorem read_system_key_anchored (owner : N) (W : nat -> world) (path directory : string) (limit : N)
    (content : list byte)
    (Hsteps : forall t, foreign_step owner (W t) (W (S t)))
    (Hroot : is_Some (view owner (W 0%nat) root_inode))
    (Hok : read_system_gpg_key W path directory limit owner = Ok content) :
  exists names name d entries uid mode i uid' mode',
    components directory = RootDir :: (Normal <$> names) /\
    components path = components directory ++ [Normal name] /\
    anchored owner (W 0%nat) root_inode names d /\
    view owner (W 0%nat) d = Some (Inode.Directory entries, uid, mode) /\
    alias owner (W 0%nat) entries 7 name i /\
    view owner (W 0%nat) i = Some (Inode.RegularFile content, uid', mode') /\
    N.of_nat (length content) <= limit.
Proof.
  by apply (read_system_key_view owner W Hsteps path directory limit content).
Qed.
End AnchoredFacts.

Module AnchoredExamples.
Import AnchoredFacts.

Definition directory (uid mode : N) (entries : list (string * N)) : Inode.t :=
  Inode.mk (Inode.Directory entries) uid mode 2 true.
Definition regular (uid mode : N) (content : string) : Inode.t :=
  Inode.mk (Inode.RegularFile (bytes content)) uid mode 1 true.

(** A system with one key and an alias for it, and the home of a user. *)
Definition system : world := list_to_map [
  (root_inode, directory 0 493 [("etc", 10); ("home", 20)]);
  (10, directory 0 493 [("keys", 11)]);
  (11, directory 0 493 [("alias", 12); ("primary", 13)]);
  (12, Inode.mk (Inode.Symlink "primary") 0 511 1 true);
  (13, regular 0 420 "certificate");
  (20, directory 1000 448 [("key", 21)]);
  (21, regular 1000 420 "forged")].

(** The user replaces a file by a link while keys are read. *)
Definition attack : world := <[21 := Inode.mk (Inode.Symlink "/etc/keys/primary") 1000 511 1 true]> system.

Definition history (t : nat) : world := match t with S (S _) => attack | _ => system end.

Lemma history_steps t : foreign_step 0 (history t) (history (S t)).
Proof.
  destruct t as [|[|t]]; [by intros i | | by intros i]. intros i. unfold history, attack, view.
  destruct (decide (i = 21)) as [->|Hi]; [by vm_compute |]. by rewrite lookup_insert_ne.
Qed.

Lemma history_root : is_Some (view 0 (history 0) root_inode).
Proof. vm_compute. by eexists. Qed.

Lemma read_root_file_anchored_witness :
  is_ok (read_root_file history "/home/key" 0 100) = false /\
  exists names i uid mode, components "/etc/keys/primary" = RootDir :: (Normal <$> names) /\
    anchored 0 (history 0) root_inode names i /\
    view 0 (history 0) i = Some (Inode.RegularFile (bytes "certificate"), uid, mode) /\
    N.of_nat (length (bytes "certificate")) <= 100.
Proof.
  split; [vm_compute; reflexivity |].
  apply (read_root_file_anchored 0 history "/etc/keys/primary" 100);
    [apply history_steps | apply history_root | vm_compute; reflexivity].
Defined.

Lemma read_system_key_anchored_witness :
  exists names name d entries uid mode i uid' mode',
    components "/etc/keys" = RootDir :: (Normal <$> names) /\
    components "/etc/keys/alias" = components "/etc/keys" ++ [Normal name] /\
    anchored 0 (history 0) root_inode names d /\
    view 0 (history 0) d = Some (Inode.Directory entries, uid, mode) /\
    alias 0 (history 0) entries 7 name i /\
    view 0 (history 0) i = Some (Inode.RegularFile (bytes "certificate"), uid', mode') /\
    N.of_nat (length (bytes "certificate")) <= 100.
Proof.
  apply (read_system_key_anchored 0 history "/etc/keys/alias" "/etc/keys" 100);
    [apply history_steps | apply history_root | vm_compute; reflexivity].
Defined.
End AnchoredExamples.
