(* ===== verification/Trust.v ===== *)
(** * Trusted keys of repositories ([dnfast-repo]: trust.rs)

    SHA-256 and the OpenPGP certificate parser are parameters; the file system stays as it is
    while a bundle is read (the file AnchoredFs has the reads under concurrent changes). *)
From Stdlib Require Import Ascii.
From S2P Require Import Prelude.
From S2P Require Import RustStr.
From S2P Require Import RustText.
From S2P Require Import MainConfig.
From S2P Require Import UnixPath.
From S2P Require Import AnchoredFs.

#[local] Open Scope N_scope.

Definition DOMAIN : list byte := bytes "dnfast-key-bundle-v1".
Definition MAX_KEY_FILES : N := 256.
Definition MAX_KEY_BYTES : N := 1048576.
Definition SYSTEM_KEY_DIRECTORY : string := "/etc/pki/rpm-gpg".
Definition KEY_DIRECTORY : string := "/etc/dnfast/keys".
Definition gpgkey_label : string := "<gpgkey>".

Definition gpgkey_error {A} (message : string) : mresult A := error gpgkey_label message.

Definition id_byte (b : byte) : bool := is_ascii_alphanumeric b || bool_decide (b ∈ bytes "_.:-").
Definition valid_id (id : string) : bool :=
  negb (str_is_empty id) && (str_len id <=? 255) && forallb id_byte (bytes id).

Definition normalize_gpgkey_location (value : string) : mresult string :=
  path ← match str_strip_prefix "file:///" value with
         | Some suffix =>
             if str_is_empty suffix || str_starts_with "/" suffix
             then gpgkey_error "gpgkey file URI is invalid" else Ok (join "/" suffix)
         | None =>
             if str_starts_with "file:" value || str_contains "://" value
             then gpgkey_error "gpgkey is not a local file URI" else Ok value
         end;
  if negb (is_absolute path) || existsb is_dots (components path)
  then gpgkey_error "gpgkey is not an absolute local path" else Ok path.

Inductive KeyLocation : Type :=
  | AtRepository
  | AtSystem (directory : string).

Definition validate_lexical_path (label path root : string) (system_directory : option string) :
    mresult KeyLocation :=
  if negb (is_absolute path) || existsb is_dots (components path)
  then error label "gpgkey path is not absolute and canonical"
  else if path_starts_with path root && negb (bool_decide (components path = components root))
  then Ok AtRepository
  else
    match system_directory with
    | Some directory =>
        if bool_decide (parent path = Some (components directory)) && negb (bool_decide (file_name path = None))
        then Ok (AtSystem directory)
        else error label "gpgkey path is outside trusted key directories"
    | None => error label "gpgkey path is outside trusted key directories"
    end.

Definition validate_gpgkey_bundle_path (repository path : string) : mresult unit :=
  if negb (valid_id repository) then gpgkey_error "invalid repository id"
  else
    _ ← validate_lexical_path gpgkey_label path (join KEY_DIRECTORY repository) (Some SYSTEM_KEY_DIRECTORY);
    Ok tt.

Module KeyBundle.
Record t : Type := mk { paths : list string; digest : list byte; certificates : list (list byte) }.
End KeyBundle.

(** What the digest is fed for one file. *)
Definition key_frame (path : string) (content : list byte) : list byte :=
  u64_be (str_len path) ++ bytes path ++ u64_be (N.of_nat (length content)) ++ content.

Section trust.
Context (sha256 : list byte -> list byte) (w : world).

(** The paths seen, the input of the digest, and the certificates. *)
Definition bundle_state : Type := list (list Component) * list byte * list (list byte).

Definition read_key (path root : string) (owner : N) (system_directory : option string) : mresult (list byte) :=
  location ← validate_lexical_path gpgkey_label path root system_directory;
  map_err (fun _ => MutationError.mk path 0 "untrusted or oversized gpgkey")
    (match location with
     | AtRepository => read_root_file (fun _ => w) path owner MAX_KEY_BYTES
     | AtSystem directory => read_system_gpg_key (fun _ => w) path directory MAX_KEY_BYTES owner
     end).

Definition bundle_step (root : string) (owner : N) (system_directory : option string)
    (s : bundle_state) (path : string) : mresult bundle_state :=
  let '(seen, digest, certificates) := s in
  if bool_decide (components path ∈ seen) then gpgkey_error "duplicate gpgkey path"
  else
    content ← read_key path root owner system_directory;
    Ok (components path :: seen, digest ++ key_frame path content, certificates ++ [content]).

Definition key_bundle_digest_owned (repo_id : string) (paths : list string) (parent : string) (owner : N)
    (system_directory : option string) : mresult KeyBundle.t :=
  if negb (valid_id repo_id) then gpgkey_error "invalid repository id"
  else if MAX_KEY_FILES <? N.of_nat (length paths) then gpgkey_error "gpgkey file limit exceeds 256"
  else
    '(_, digest, certificates) ←
      fold_result (bundle_step (join parent repo_id) owner system_directory) ([], DOMAIN, []) paths;
    Ok (KeyBundle.mk paths (sha256 digest) certificates).

Definition key_bundle_digest (repo_id : string) (paths : list string) : mresult KeyBundle.t :=
  key_bundle_digest_owned repo_id paths KEY_DIRECTORY 0 (Some SYSTEM_KEY_DIRECTORY).
End trust.

(** [parse_certs]: [None] for bytes that are no certificate at all; otherwise the fingerprints in
    hexadecimal, [None] for an invalid certificate. *)
Section fingerprints.
Context (parse_certs : list byte -> option (list (option string))).

Definition fingerprint_step (fingerprints : list string) (certificate : option string) : mresult (list string) :=
  match certificate with
  | None => gpgkey_error "gpgkey contains an invalid OpenPGP certificate"
  | Some fingerprint =>
      if negb (str_len fingerprint =? 40) then gpgkey_error "OpenPGP primary fingerprint is unsupported"
      else
        let fingerprints := bset_insert fingerprint fingerprints in
        if MAX_KEY_FILES <? N.of_nat (length fingerprints)
        then gpgkey_error "OpenPGP certificate limit exceeds 256" else Ok fingerprints
  end.

Definition certificate_step (fingerprints : list string) (content : list byte) : mresult (list string) :=
  match parse_certs content with
  | None => gpgkey_error "gpgkey is not an OpenPGP certificate"
  | Some certificates => fold_result fingerprint_step fingerprints certificates
  end.

Definition primary_certificate_fingerprints (certificates : list (list byte)) : mresult (list string) :=
  fingerprints ← fold_result certificate_step [] certificates;
  if bool_decide (fingerprints = []) then gpgkey_error "OpenPGP certificate bundle is empty"
  else Ok fingerprints.
End fingerprints.

(** ** Facts *)

Module TrustFacts.
Import AnchoredFacts.

Definition fits (p : string * list byte) : Prop :=
  str_len p.1 < 2 ^ 64 /\ N.of_nat (length p.2) < 2 ^ 64.

(** Nothing of the paths and the contents is ambiguous in the input of the digest. *)
Lemma key_frames_inj l1 : forall l2,
  Forall fits l1 -> Forall fits l2 ->
  concat ((fun p => key_frame p.1 p.2) <$> l1) = concat ((fun p => key_frame p.1 p.2) <$> l2) -> l1 = l2.
Proof.
  assert (Hne : forall p l, [] <> key_frame p l).
  { intros p l Heq. apply (f_equal length) in Heq. unfold key_frame, u64_be in Heq.
    rewrite !length_app, length_be_bytes in Heq. simpl in Heq. lia. }
  induction l1 as [|[p c] l1 IH]; intros [|[p' c'] l2] H1 H2;
    rewrite ?fmap_cons; cbn [concat fst snd]; intros Heq; [done | | |].
  - exfalso. symmetry in Heq. apply app_nil in Heq as [Heq _]. by eapply Hne.
  - exfalso. apply app_nil in Heq as [Heq _]. by eapply Hne.
  - apply Forall_cons in H1 as [[Hp Hc] H1], H2 as [[Hp' Hc'] H2]. cbn [fst snd] in *.
    unfold key_frame in Heq. rewrite <- !app_assoc in Heq.
    apply app_inj_1 in Heq as [Hlen Heq]; [| unfold u64_be; by rewrite !length_be_bytes].
    apply be_bytes_inj in Hlen; [| done..].
    apply app_inj_1 in Heq as [Hpath Heq]; [| unfold str_len in Hlen; lia].
    apply app_inj_1 in Heq as [Hlen' Heq]; [| unfold u64_be; by rewrite !length_be_bytes].
    apply be_bytes_inj in Hlen'; [| done..].
    apply app_inj_1 in Heq as [-> Heq]; [| lia].
    rewrite (IH l2) by done. by rewrite (bytes_inj p p' Hpath).
Qed.

(** The directory of a repository's own keys; [.] and [..] are valid ids of no directory of
    their own. *)
Lemma key_root_components id :
  valid_id id = true -> id <> "." -> id <> ".." ->
  components (join KEY_DIRECTORY id) = components KEY_DIRECTORY ++ [Normal id].
Proof.
  intros Hv H1 H2. apply components_join; [done | done |].
  unfold valid_id in Hv. rewrite !andb_true_iff, negb_true_iff in Hv.
  destruct Hv as [[Hne _] Hall]. apply str_is_empty_false in Hne. split_and!; [| done..].
  intros Hin. apply forallb_true in Hall. rewrite Forall_forall in Hall. by specialize (Hall _ Hin).
Qed.

(** A key that a repository may use: a file below the directory of the repository or of the
    system's key directory, which only root can write, with no link outside of them. *)
Definition trusted_key (w : world) (root path : string) (content : list byte) : Prop :=
  N.of_nat (length content) <= MAX_KEY_BYTES /\
  exists i uid mode, view 0 w i = Some (Inode.RegularFile content, uid, mode) /\
    ((exists names, components path = components root ++ (Normal <$> names) /\ names <> [] /\
      exists all, components path = RootDir :: (Normal <$> all) /\ anchored 0 w root_inode all i) \/
     (exists name entries, components path = components SYSTEM_KEY_DIRECTORY ++ [Normal name] /\
      (exists d uid' mode', view 0 w d = Some (Inode.Directory entries, uid', mode') /\
        anchored 0 w root_inode ["etc"; "pki"; "rpm-gpg"] d) /\ alias 0 w entries 7 name i)).

Section facts.
Context (sha256 : list byte -> list byte) (w : world) (Hroot : is_Some (view 0 w root_inode)).

Lemma normal_inj (l l' : list string) : Normal <$> l = Normal <$> l' -> l = l'.
Proof. apply list_fmap_eq_inj. by intros ? ? [= ->]. Qed.

Lemma read_key_ok path root cs content :
  components root = RootDir :: cs ->
  read_key w path root 0 (Some SYSTEM_KEY_DIRECTORY) = Ok content -> trusted_key w root path content.
Proof.
  unfold read_key. intros Hcr (location & Hl & Hr%map_err_ok)%bind_ok.
  unfold validate_lexical_path in Hl. destruct (negb (is_absolute path) || _); [done |].
  destruct (path_starts_with path root && _) eqn:E.
  - injection Hl as <-. apply andb_true_iff in E as [Hs Hne].
    apply negb_true_iff, bool_decide_eq_false in Hne. unfold path_starts_with in Hs.
    apply starts_with_spec in Hs as [rest Hrest].
    destruct (read_root_file_view 0 (fun _ => w) (fun t i => eq_refl) path MAX_KEY_BYTES content) as
      (all & i & uid & mode & Hp & Ha & Hv & Hlen); [done | done |].
    split; [done |]. exists i, uid, mode. split; [done |]. left.
    assert (Hn : exists names, rest = Normal <$> names).
    { rewrite Hp, Hcr in Hrest. simpl in Hrest. injection Hrest as Hrest.
      apply fmap_app_inv in Hrest as (? & names & _ & -> & _). by exists names. }
    destruct Hn as [names ->]. exists names. split_and!; [done | | by exists all].
    intros ->. apply Hne. by rewrite Hrest, app_nil_r.
  - match type of Hl with (if ?b then _ else _) = _ => destruct b; [| done] end. injection Hl as <-.
    destruct (read_system_key_view 0 (fun _ => w) (fun t i => eq_refl) path SYSTEM_KEY_DIRECTORY
      MAX_KEY_BYTES content) as (names & name & d & entries & uid & mode & i & uid' & mode' &
      Hd & Hp & Ha & Hv & Hal & Hvi & Hlen); [done | done |].
    split; [done |]. exists i, uid', mode'. split; [done |]. right. exists name, entries.
    split_and!; [done | | done]. exists d, uid, mode. split; [done |].
    assert (names = ["etc"; "pki"; "rpm-gpg"]) as ->; [| done].
    apply normal_inj. injection Hd as <-. by vm_compute.
Qed.

Lemma bundle_fold root cs paths : components root = RootDir :: cs -> forall seen digest certs s,
  fold_result (bundle_step w root 0 (Some SYSTEM_KEY_DIRECTORY)) (seen, digest, certs) paths = Ok s ->
  NoDup seen ->
  exists contents, s = (rev (components <$> paths) ++ seen,
      digest ++ concat ((fun p => key_frame p.1 p.2) <$> zip paths contents), certs ++ contents) /\
    NoDup (rev (components <$> paths) ++ seen) /\ Forall2 (trusted_key w root) paths contents.
Proof.
  intros Hcr. induction paths as [|p paths IH]; intros seen digest certs s; simpl.
  { intros [= <-] Hnd. exists []. simpl. by rewrite !app_nil_r. }
  intros ([[seen1 digest1] certs1] & Hs & Hf)%bind_ok Hnd. unfold bundle_step in Hs.
  case_bool_decide as Hin; [done |]. apply bind_ok in Hs as (content & Hr & [= <- <- <-]).
  apply (read_key_ok _ _ cs) in Hr; [| done].
  destruct (IH _ _ _ _ Hf) as (contents & -> & Hnd' & Hall); [by constructor |].
  exists (content :: contents). split_and!.
  - rewrite fmap_cons. cbn [concat fst snd zip zip_with]. by rewrite <- !app_assoc.
  - by rewrite <- app_assoc.
  - by constructor.
Qed.

Lemma key_bundle_ok id paths b :
  id <> "." -> id <> ".." -> key_bundle_digest sha256 w id paths = Ok b ->
  KeyBundle.paths b = paths /\ NoDup (components <$> paths) /\
  N.of_nat (length paths) <= MAX_KEY_FILES /\
  Forall2 (trusted_key w (join KEY_DIRECTORY id)) paths (KeyBundle.certificates b) /\
  KeyBundle.digest b =
    sha256 (DOMAIN ++ concat ((fun p => key_frame p.1 p.2) <$> zip paths (KeyBundle.certificates b))).
Proof.
  intros H1 H2. unfold key_bundle_digest, key_bundle_digest_owned.
  destruct (negb (valid_id id)) eqn:Hv; [done |]. apply negb_false_iff in Hv.
  destruct (_ <? _) eqn:Hlen; [done |]. apply N.ltb_ge in Hlen.
  intros ([[seen digest] certs] & Hf & [= <-])%bind_ok.
  destruct (bundle_fold (join KEY_DIRECTORY id) _ paths (key_root_components id Hv H1 H2) _ _ _ _ Hf)
    as (contents & [= -> -> ->] & Hnd & Hall); [constructor |]. rewrite app_nil_r in Hnd. simpl.
  split_and!; try done. by rewrite (Permutation_rev (components <$> paths)).
Qed.
End facts.

(** C28: for a repository whose id is neither "." nor "..", which the code accepts as ids, every
    certificate of its key bundle is the content of one of the configured paths, all of them
    distinct and each below the repository's own key directory or in the system's, and reached
    so that only root could have written it; at most 256 of at most one mebibyte. *)
Theorem key_bundle_trusted (sha256 : list byte -> list byte) (w : world) (id : string) (paths : list string)
    (b : KeyBundle.t) (Hroot : is_Some (view 0 w root_inode)) (H1 : id <> ".") (H2 : id <> "..")
    (Hok : key_bundle_digest sha256 w id paths = Ok b) :
  KeyBundle.paths b = paths /\ NoDup (components <$> paths) /\
  N.of_nat (length paths) <= MAX_KEY_FILES /\
  Forall2 (trusted_key w (join KEY_DIRECTORY id)) paths (KeyBundle.certificates b).
Proof. by destruct (key_bundle_ok sha256 w Hroot id paths b H1 H2 Hok) as (? & ? & ? & ? & _). Qed.

Lemma trusted_keys_fit w root paths contents :
  Forall (fun p => str_len p < 2 ^ 64) paths -> Forall2 (trusted_key w root) paths contents ->
  Forall fits (zip paths contents).
Proof.
  intros Hp Hall. revert Hp. induction Hall as [|p c paths contents [Hlen _] Hall IH]; intros Hp; simpl;
    [constructor |].
  apply Forall_cons in Hp as [Hp Hps]. constructor; [| by apply IH]. split; [done |].
  cbn [snd]. unfold MAX_KEY_BYTES in Hlen. lia.
Qed.

(** The text that the digest of a bundle is taken of. *)
Definition bundle_text (b : KeyBundle.t) : list byte :=
  DOMAIN ++ concat ((fun p => key_frame p.1 p.2) <$> zip (KeyBundle.paths b) (KeyBundle.certificates b)).

(** Two key bundles with the same digest have the same paths and the same certificates in
    the same order: the framing of the digest's input leaves no ambiguity; or else the two
    texts that were hashed differ and have one digest. *)
Theorem key_bundle_digest_binds (sha256 : list byte -> list byte) (w w' : world) (id id' : string)
    (paths paths' : list string) (b b' : KeyBundle.t)
    (Hroot : is_Some (view 0 w root_inode)) (Hroot' : is_Some (view 0 w' root_inode))
    (Hid : id <> "." /\ id <> ".." /\ id' <> "." /\ id' <> "..")
    (Hlen : Forall (fun p => str_len p < 2 ^ 64) (paths ++ paths'))
    (Hb : key_bundle_digest sha256 w id paths = Ok b)
    (Hb' : key_bundle_digest sha256 w' id' paths' = Ok b')
    (Heq : KeyBundle.digest b = KeyBundle.digest b') :
  KeyBundle.paths b = KeyBundle.paths b' /\ KeyBundle.certificates b = KeyBundle.certificates b' \/
  bundle_text b <> bundle_text b' /\ sha256 (bundle_text b) = sha256 (bundle_text b').
Proof.
  unfold bundle_text. destruct Hid as (H1 & H2 & H3 & H4). apply Forall_app in Hlen as [Hl Hl'].
  destruct (key_bundle_ok sha256 w Hroot id paths b H1 H2 Hb) as (-> & _ & _ & Hall & Hd).
  destruct (key_bundle_ok sha256 w' Hroot' id' paths' b' H3 H4 Hb') as (-> & _ & _ & Hall' & Hd').
  rewrite Hd, Hd' in Heq.
  set (f := concat ((fun p => key_frame p.1 p.2) <$> zip paths (KeyBundle.certificates b))) in Heq.
  set (f' := concat ((fun p => key_frame p.1 p.2) <$> zip paths' (KeyBundle.certificates b'))) in Heq.
  destruct (decide (f = f')) as [E|E].
  - left. apply key_frames_inj in E; [| by eapply trusted_keys_fit..].
    apply Forall2_length in Hall, Hall'.
    rewrite <- (fst_zip paths (KeyBundle.certificates b)), <- (fst_zip paths' (KeyBundle.certificates b')) by lia.
    rewrite <- (snd_zip paths (KeyBundle.certificates b)), <- (snd_zip paths' (KeyBundle.certificates b')) at 2 by lia.
    by rewrite E.
  - right. split; [| done]. intros Hc. by apply app_inv_head in Hc.
Qed.
End TrustFacts.

Module TrustExamples.
Import AnchoredFacts TrustFacts AnchoredExamples.

(** A system with a key of one repository and a system key behind an alias. *)
Definition system : world := list_to_map [
  (root_inode, directory 0 493 [("etc", 10)]);
  (10, directory 0 493 [("dnfast", 11); ("pki", 14)]);
  (11, directory 0 493 [("keys", 12)]);
  (12, directory 0 493 [("updates", 13)]);
  (13, directory 0 493 [("a.gpg", 20)]);
  (14, directory 0 493 [("rpm-gpg", 15)]);
  (15, directory 0 493 [("fedora", 21); ("fedora-44", 22)]);
  (20, regular 0 420 "own");
  (21, regular 0 420 "system");
  (22, Inode.mk (Inode.Symlink "fedora") 0 511 1 true)].

Lemma system_root : is_Some (view 0 system root_inode).
Proof. vm_compute. by eexists. Qed.

Definition key_paths : list string := ["/etc/dnfast/keys/updates/a.gpg"; "/etc/pki/rpm-gpg/fedora-44"].

(** A stand-in for SHA-256 that keeps its input. *)
Definition identity_digest (l : list byte) : list byte := l.

Definition example_bundle : KeyBundle.t :=
  KeyBundle.mk key_paths
    (DOMAIN ++ key_frame "/etc/dnfast/keys/updates/a.gpg" (bytes "own") ++
      key_frame "/etc/pki/rpm-gpg/fedora-44" (bytes "system"))
    [bytes "own"; bytes "system"].

Lemma example_bundle_ok : key_bundle_digest identity_digest system "updates" key_paths = Ok example_bundle.
Proof. vm_compute. reflexivity. Qed.

Lemma key_bundle_trusted_witness :
  is_ok (key_bundle_digest identity_digest system "fedora" key_paths) = false /\
  Forall2 (trusted_key system (join KEY_DIRECTORY "updates")) key_paths [bytes "own"; bytes "system"].
Proof.
  split; [vm_compute; reflexivity |].
  apply (key_bundle_trusted identity_digest system "updates" key_paths example_bundle);
    [apply system_root | done | done | apply example_bundle_ok].
Defined.

Lemma key_bundle_digest_binds_witness :
  KeyBundle.paths example_bundle = KeyBundle.paths example_bundle /\
    KeyBundle.certificates example_bundle = KeyBundle.certificates example_bundle \/
  bundle_text example_bundle <> bundle_text example_bundle /\
    identity_digest (bundle_text example_bundle) = identity_digest (bundle_text example_bundle).
Proof.
  apply (key_bundle_digest_binds identity_digest system system "updates" "updates" key_paths key_paths
    example_bundle example_bundle);
    [apply system_root | apply system_root | done | | apply example_bundle_ok | apply example_bundle_ok | done].
  repeat constructor.
Defined.
End TrustExamples.
