(* ===== verification/RepoProfile.v ===== *)
(** * Repositories for transactions ([dnfast-repo]: profile.rs)

    The parser of repository files that accepts nothing it does not know, expiry times, the
    expansion of variables and the options of the command line.  The trust functions are those
    of the file Trust; SHA-256 is a parameter. *)
From Stdlib Require Import Ascii.
From S2P Require Import Prelude.
From S2P Require Import RustStr.
From S2P Require Import RustText.
From S2P Require Import Variables.
From S2P Require Import MainConfig.
From S2P Require Import RepoFile.
From S2P Require Import UnixPath.
From S2P Require Import AnchoredFs.
From S2P Require Import Trust.

#[local] Open Scope N_scope.

Inductive MetadataExpire : Type :=
  | AfterSeconds (seconds : N)
  | Never.

#[export] Instance metadata_expire_eq_dec : EqDecision MetadataExpire.
Proof. solve_decision. Defined.

Module RepoConfig.
Record t : Type := mk {
  id : string;
  name : option string;
  enabled : bool;
  baseurl : list string;
  metalink : option string;
  mirrorlist : option string;
  priority : N;
  cost : N;
  skip_if_unavailable : bool;
  metadata_expire : MetadataExpire;
  proxy : option string;
  sslverify : bool;
  gpgcheck : bool;
  pkg_gpgcheck : bool;
  repo_gpgcheck : bool;
  excludepkgs : list string;
  includepkgs : list string;
  gpgkey : list string;
  allowed_fingerprints : list string;
  key_bundle_digest : option (list byte)
}.

#[global] Instance repo_config_eq_dec : EqDecision t.
Proof. solve_decision. Defined.

Definition with_name c v :=
  let 'mk x0 _ x2 x3 x4 x5 x6 x7 x8 x9 x10 x11 x12 x13 x14 x15 x16 x17 x18 x19 := c in
  mk x0 v x2 x3 x4 x5 x6 x7 x8 x9 x10 x11 x12 x13 x14 x15 x16 x17 x18 x19.
Definition with_enabled c v :=
  let 'mk x0 x1 _ x3 x4 x5 x6 x7 x8 x9 x10 x11 x12 x13 x14 x15 x16 x17 x18 x19 := c in
  mk x0 x1 v x3 x4 x5 x6 x7 x8 x9 x10 x11 x12 x13 x14 x15 x16 x17 x18 x19.
Definition with_baseurl c v :=
  let 'mk x0 x1 x2 _ x4 x5 x6 x7 x8 x9 x10 x11 x12 x13 x14 x15 x16 x17 x18 x19 := c in
  mk x0 x1 x2 v x4 x5 x6 x7 x8 x9 x10 x11 x12 x13 x14 x15 x16 x17 x18 x19.
Definition with_metalink c v :=
  let 'mk x0 x1 x2 x3 _ x5 x6 x7 x8 x9 x10 x11 x12 x13 x14 x15 x16 x17 x18 x19 := c in
  mk x0 x1 x2 x3 v x5 x6 x7 x8 x9 x10 x11 x12 x13 x14 x15 x16 x17 x18 x19.
Definition with_mirrorlist c v :=
  let 'mk x0 x1 x2 x3 x4 _ x6 x7 x8 x9 x10 x11 x12 x13 x14 x15 x16 x17 x18 x19 := c in
  mk x0 x1 x2 x3 x4 v x6 x7 x8 x9 x10 x11 x12 x13 x14 x15 x16 x17 x18 x19.
Definition with_priority c v :=
  let 'mk x0 x1 x2 x3 x4 x5 _ x7 x8 x9 x10 x11 x12 x13 x14 x15 x16 x17 x18 x19 := c in
  mk x0 x1 x2 x3 x4 x5 v x7 x8 x9 x10 x11 x12 x13 x14 x15 x16 x17 x18 x19.
Definition with_cost c v :=
  let 'mk x0 x1 x2 x3 x4 x5 x6 _ x8 x9 x10 x11 x12 x13 x14 x15 x16 x17 x18 x19 := c in
  mk x0 x1 x2 x3 x4 x5 x6 v x8 x9 x10 x11 x12 x13 x14 x15 x16 x17 x18 x19.
Definition with_skip_if_unavailable c v :=
  let 'mk x0 x1 x2 x3 x4 x5 x6 x7 _ x9 x10 x11 x12 x13 x14 x15 x16 x17 x18 x19 := c in
  mk x0 x1 x2 x3 x4 x5 x6 x7 v x9 x10 x11 x12 x13 x14 x15 x16 x17 x18 x19.
Definition with_metadata_expire c v :=
  let 'mk x0 x1 x2 x3 x4 x5 x6 x7 x8 _ x10 x11 x12 x13 x14 x15 x16 x17 x18 x19 := c in
  mk x0 x1 x2 x3 x4 x5 x6 x7 x8 v x10 x11 x12 x13 x14 x15 x16 x17 x18 x19.
Definition with_proxy c v :=
  let 'mk x0 x1 x2 x3 x4 x5 x6 x7 x8 x9 _ x11 x12 x13 x14 x15 x16 x17 x18 x19 := c in
  mk x0 x1 x2 x3 x4 x5 x6 x7 x8 x9 v x11 x12 x13 x14 x15 x16 x17 x18 x19.
Definition with_sslverify c v :=
  let 'mk x0 x1 x2 x3 x4 x5 x6 x7 x8 x9 x10 _ x12 x13 x14 x15 x16 x17 x18 x19 := c in
  mk x0 x1 x2 x3 x4 x5 x6 x7 x8 x9 x10 v x12 x13 x14 x15 x16 x17 x18 x19.
Definition with_gpgcheck c v :=
  let 'mk x0 x1 x2 x3 x4 x5 x6 x7 x8 x9 x10 x11 _ x13 x14 x15 x16 x17 x18 x19 := c in
  mk x0 x1 x2 x3 x4 x5 x6 x7 x8 x9 x10 x11 v x13 x14 x15 x16 x17 x18 x19.
Definition with_pkg_gpgcheck c v :=
  let 'mk x0 x1 x2 x3 x4 x5 x6 x7 x8 x9 x10 x11 x12 _ x14 x15 x16 x17 x18 x19 := c in
  mk x0 x1 x2 x3 x4 x5 x6 x7 x8 x9 x10 x11 x12 v x14 x15 x16 x17 x18 x19.
Definition with_repo_gpgcheck c v :=
  let 'mk x0 x1 x2 x3 x4 x5 x6 x7 x8 x9 x10 x11 x12 x13 _ x15 x16 x17 x18 x19 := c in
  mk x0 x1 x2 x3 x4 x5 x6 x7 x8 x9 x10 x11 x12 x13 v x15 x16 x17 x18 x19.
Definition with_excludepkgs c v :=
  let 'mk x0 x1 x2 x3 x4 x5 x6 x7 x8 x9 x10 x11 x12 x13 x14 _ x16 x17 x18 x19 := c in
  mk x0 x1 x2 x3 x4 x5 x6 x7 x8 x9 x10 x11 x12 x13 x14 v x16 x17 x18 x19.
Definition with_includepkgs c v :=
  let 'mk x0 x1 x2 x3 x4 x5 x6 x7 x8 x9 x10 x11 x12 x13 x14 x15 _ x17 x18 x19 := c in
  mk x0 x1 x2 x3 x4 x5 x6 x7 x8 x9 x10 x11 x12 x13 x14 x15 v x17 x18 x19.
Definition with_gpgkey c v :=
  let 'mk x0 x1 x2 x3 x4 x5 x6 x7 x8 x9 x10 x11 x12 x13 x14 x15 x16 _ x18 x19 := c in
  mk x0 x1 x2 x3 x4 x5 x6 x7 x8 x9 x10 x11 x12 x13 x14 x15 x16 v x18 x19.
Definition with_allowed_fingerprints c v :=
  let 'mk x0 x1 x2 x3 x4 x5 x6 x7 x8 x9 x10 x11 x12 x13 x14 x15 x16 x17 _ x19 := c in
  mk x0 x1 x2 x3 x4 x5 x6 x7 x8 x9 x10 x11 x12 x13 x14 x15 x16 x17 v x19.
Definition with_key_bundle_digest c v :=
  let 'mk x0 x1 x2 x3 x4 x5 x6 x7 x8 x9 x10 x11 x12 x13 x14 x15 x16 x17 x18 _ := c in
  mk x0 x1 x2 x3 x4 x5 x6 x7 x8 x9 x10 x11 x12 x13 x14 x15 x16 x17 x18 v.

Definition new (id : string) (main : MainConfig.t) : t := {|
  id := id;
  name := None;
  enabled := true;
  baseurl := [];
  metalink := None;
  mirrorlist := None;
  priority := 99;
  cost := 1000;
  skip_if_unavailable := false;
  metadata_expire := AfterSeconds 172800;
  proxy := None;
  sslverify := true;
  gpgcheck := true;
  pkg_gpgcheck := true;
  repo_gpgcheck := false;
  excludepkgs := MainConfig.excludepkgs main;
  includepkgs := MainConfig.includepkgs main;
  gpgkey := [];
  allowed_fingerprints := [];
  key_bundle_digest := None
|}.
End RepoConfig.

Module MutationProfile.
Record t : Type := mk { main : MainConfig.t; repositories : list RepoConfig.t; variables : Variables.t }.
End MutationProfile.

(** ** Expiry times *)

Definition u64_checked_mul (a b : N) : option N := if a * b <=? u64_max then Some (a * b) else None.

Definition duration_parts (value : list byte) : option (list byte * N) :=
  let '(number, multiplier) :=
    match last value with
    | Some c =>
        if bool_decide (c = "s"%char \/ c = "S"%char) then (removelast value, 1)
        else if bool_decide (c = "m"%char \/ c = "M"%char) then (removelast value, 60)
        else if bool_decide (c = "h"%char \/ c = "H"%char) then (removelast value, 3600)
        else if bool_decide (c = "d"%char \/ c = "D"%char) then (removelast value, 86400)
        else (value, 1)
    | None => (value, 1)
    end in
  if bool_decide (number = []) then None else Some (number, multiplier).

Definition decimal_digit (b : byte) : N := byte_val b - 48.

Fixpoint decimal_total (total : N) (l : list byte) : option N :=
  match l with
  | [] => Some total
  | b :: t => x ← u64_checked_mul total 10; y ← u64_checked_add x (decimal_digit b); decimal_total y t
  end.

Definition decimal_seconds (value : list byte) (multiplier : N) : option N :=
  total ← decimal_total 0 value; u64_checked_mul total multiplier.

Inductive HexadecimalSecondsError : Type := Invalid | Overflow.

Definition hexadecimal_digit (b : byte) : option N :=
  if is_ascii_digit b then Some (byte_val b - 48)
  else if in_range 97 102 (byte_val b) then Some (byte_val b - 97 + 10)
  else if in_range 65 70 (byte_val b) then Some (byte_val b - 65 + 10)
  else None.

Definition hexadecimal_step (total : N) (b : byte) : result HexadecimalSecondsError N :=
  digit ← ok_or Invalid (hexadecimal_digit b);
  ok_or Overflow (x ← u64_checked_mul total 16; u64_checked_add x digit).

Definition hexadecimal_seconds (value : list byte) (multiplier : N) : result HexadecimalSecondsError N :=
  if bool_decide (value = []) then Err Invalid
  else
    seconds ← fold_result hexadecimal_step 0 value;
    ok_or Overflow (u64_checked_mul seconds multiplier).

(** In whole seconds after each digit, from the last one: no intermediate value passes
    ten multipliers. *)
Definition fractional_seconds (value : list byte) (multiplier : N) : N :=
  foldl (fun carry b => (decimal_digit b * multiplier + carry) / 10) 0 (rev value).

Section assign.
Context (path : string) (line : N).

Definition invalid_expire {A} : mresult A := Err (MutationError.mk path line "invalid metadata_expire").
Definition expire_overflow {A} : mresult A :=
  Err (MutationError.mk path line "metadata_expire exceeds u64 seconds").

Definition decimal_expire (number : list byte) (multiplier : N) : mresult MetadataExpire :=
  let '(whole, fraction) := default (number, []) (split_once ["."%char] number) in
  if bool_decide (1 < length (base.filter (fun b => b = "."%char) number))%nat
     || bool_decide (whole = [] /\ fraction = [])
     || negb (forallb is_ascii_digit whole) || negb (forallb is_ascii_digit fraction)
  then invalid_expire
  else
    match decimal_seconds whole multiplier with
    | None => expire_overflow
    | Some whole_seconds =>
        match u64_checked_add whole_seconds (fractional_seconds fraction multiplier) with
        | None => expire_overflow
        | Some seconds => Ok (AfterSeconds seconds)
        end
    end.

Definition parse_metadata_expire (value : string) : mresult MetadataExpire :=
  if bool_decide (value ∈ ["-1"; "never"]) then Ok Never
  else
    let value := default (bytes value) (strip_prefix (bytes "+") (bytes value)) in
    match duration_parts value with
    | None => invalid_expire
    | Some (number, multiplier) =>
        match match strip_prefix (bytes "0x") number with
              | Some h => Some h
              | None => strip_prefix (bytes "0X") number
              end with
        | Some hexadecimal =>
            match hexadecimal_seconds hexadecimal multiplier with
            | Ok seconds => Ok (AfterSeconds seconds)
            | Err Invalid => invalid_expire
            | Err Overflow => expire_overflow
            end
        | None => decimal_expire number multiplier
        end
    end.

(** ** Keys of a repository *)

Definition rpm_md_repository_type (value : string) : bool :=
  bool_decide (value ∈ ["rpm"; "rpm-md"; "repomd"; "rpmmd"; "yum"; "YUM"]).

Definition validate_countme (value : string) : mresult unit :=
  if bool_decide (value ∈ ["0"; "1"]) then Ok tt else Err (MutationError.mk path line "invalid countme").

Definition rejected {A} (key : string) : mresult A :=
  Err (MutationError.mk path line ("rejected mutation setting: " +:+ key)).

Definition authenticated_proxy (value : string) : bool :=
  let authority := match str_split_once "://" value with Some (_, authority) => authority | None => value end in
  match segments authority with
  | part :: _ => str_contains "@" part
  | [] => false
  end.

Definition reset_or_append_checked (target values : list string) : list string :=
  if bool_decide (values = []) then [] else target ++ values.

Definition unique_words (value : string) : mresult (list string) :=
  let values := words value in
  if negb (bool_decide (length (bset_of_list values) = length values))
  then Err (MutationError.mk path line "duplicate gpgkey path") else Ok values.

Definition is_fingerprint (item : string) : bool :=
  (str_len item =? 40) && forallb is_ascii_hexdigit (bytes item).

Definition fingerprints (value : string) : mresult (list string) :=
  let values := words value in
  if existsb (fun item => negb (is_fingerprint item)) values
  then Err (MutationError.mk path line "invalid primary certificate fingerprint") else Ok values.

(** A setting that may only be confirmed. *)
Definition must_hold (key value : string) : mresult unit :=
  b ← boolean path line value; if negb b then rejected key else Ok tt.

Definition assign_repo (repo : RepoConfig.t) (key value : string) : mresult RepoConfig.t :=
  if bool_decide (key = "name") then Ok (RepoConfig.with_name repo (Some value))
  else if bool_decide (key = "type") then
    if rpm_md_repository_type value then Ok repo
    else Err (MutationError.mk path line "unsupported repository type")
  else if bool_decide (key = "enabled") then RepoConfig.with_enabled repo <$> boolean path line value
  else if bool_decide (key = "baseurl") then
    Ok (RepoConfig.with_baseurl repo (reset_or_append (RepoConfig.baseurl repo) value))
  else if bool_decide (key = "metalink") then Ok (RepoConfig.with_metalink repo (nonempty value))
  else if bool_decide (key = "mirrorlist") then Ok (RepoConfig.with_mirrorlist repo (nonempty value))
  else if bool_decide (key = "priority") then
    RepoConfig.with_priority repo <$>
      ok_or (MutationError.mk path line "invalid priority") (parse_unsigned u16_max value)
  else if bool_decide (key = "cost") then
    RepoConfig.with_cost repo <$> ok_or (MutationError.mk path line "invalid cost") (parse_unsigned u32_max value)
  else if bool_decide (key = "skip_if_unavailable") then
    RepoConfig.with_skip_if_unavailable repo <$> boolean path line value
  else if bool_decide (key = "metadata_expire") then
    RepoConfig.with_metadata_expire repo <$> parse_metadata_expire value
  else if bool_decide (key = "countme") then (fun _ => repo) <$> validate_countme value
  else if bool_decide (key = "enabled_metadata") then (fun _ => repo) <$> boolean path line value
  else if bool_decide (key = "sslverify") then
    (fun _ => RepoConfig.with_sslverify repo true) <$> must_hold key value
  else if bool_decide (key = "gpgcheck") then
    (fun _ => RepoConfig.with_gpgcheck repo true) <$> must_hold key value
  else if bool_decide (key = "pkg_gpgcheck") then
    (fun _ => RepoConfig.with_pkg_gpgcheck repo true) <$> must_hold key value
  else if bool_decide (key = "repo_gpgcheck") then
    RepoConfig.with_repo_gpgcheck repo <$> boolean path line value
  else if bool_decide (key = "proxy") then
    if authenticated_proxy value then rejected key
    else Ok (RepoConfig.with_proxy repo (if bool_decide (value ∈ [""; "_none_"]) then None else Some value))
  else if bool_decide (key = "excludepkgs") then
    Ok (RepoConfig.with_excludepkgs repo (reset_or_append (RepoConfig.excludepkgs repo) value))
  else if bool_decide (key = "includepkgs") then
    Ok (RepoConfig.with_includepkgs repo (reset_or_append (RepoConfig.includepkgs repo) value))
  else if bool_decide (key = "gpgkey") then
    (fun v => RepoConfig.with_gpgkey repo (reset_or_append_checked (RepoConfig.gpgkey repo) v))
      <$> unique_words value
  else if bool_decide (key = "dnfast_allowed_fingerprints") then
    (fun v => RepoConfig.with_allowed_fingerprints repo
                (reset_or_append_checked (RepoConfig.allowed_fingerprints repo) v)) <$> fingerprints value
  else Err (MutationError.mk path line ("unsupported mutation key: " +:+ key)).

Definition finish (repo : RepoConfig.t) (output : list RepoConfig.t) : mresult (list RepoConfig.t) :=
  if RepoConfig.enabled repo && bool_decide (RepoConfig.baseurl repo = [])
     && bool_decide (RepoConfig.metalink repo = None) && bool_decide (RepoConfig.mirrorlist repo = None)
  then Err (MutationError.mk path line "enabled repository has no source")
  else Ok (output ++ [repo]).
End assign.

(** ** A repository file *)

Module ProfileParser.
Record state : Type := mk {
  repositories : list RepoConfig.t;
  current : option RepoConfig.t;
  seen_ids : list string;
  seen_keys : list string
}.

Definition flush (path : string) (number : N) (s : state) : mresult (list RepoConfig.t) :=
  match current s with
  | Some repo => finish path number repo (repositories s)
  | None => Ok (repositories s)
  end.

Definition step (path : string) (main : MainConfig.t) (s : state) (l : N * string) : mresult state :=
  let '(number, raw) := l in
  let line := trim raw in
  if skipped_line line then Ok s
  else if str_starts_with "[" line then
    if negb (str_ends_with "]" line)
    then Err (MutationError.mk path number "malformed repository section")
    else
      repositories ← flush path number s;
      let id := trim (between_brackets line) in
      if negb (valid_id id) then Err (MutationError.mk path number "invalid repository id")
      else if bset_contains id (seen_ids s) then Err (MutationError.mk path number "duplicate repository id")
      else
        let seen_ids := bset_insert id (seen_ids s) in
        if 1024 <? N.of_nat (length seen_ids)
        then Err (MutationError.mk path number "repository limit exceeds 1024")
        else Ok (mk repositories (Some (RepoConfig.new id main)) seen_ids [])
  else
    match current s with
    | None => Err (MutationError.mk path number "key outside repository section")
    | Some repo =>
        '(key, value) ← pair_of path number line;
        if bset_contains key (seen_keys s)
        then Err (MutationError.mk path number ("duplicate mutation key: " +:+ key))
        else
          repo ← assign_repo path number repo key value;
          Ok (mk (repositories s) (Some repo) (seen_ids s) (bset_insert key (seen_keys s)))
    end.

Definition parse_repo_profile (path input : string) (main : MainConfig.t) : mresult MutationProfile.t :=
  _ ← check_limits path input;
  s ← fold_result (step path main) (mk [] None [] []) (numbered 1 (lines input));
  repositories ← flush path (N.of_nat (length (lines input))) s;
  Ok (MutationProfile.mk main repositories Variables.default).
End ProfileParser.

(** [network] is only called with a profile that was accepted. *)
Definition parse_before_network {T} (path input : string) (main : MainConfig.t)
    (network : MutationProfile.t -> T) : mresult T :=
  network <$> ProfileParser.parse_repo_profile path input main.

(** ** Variables and options of the command line *)

Section expansion.
Context (variables : Variables.t).

Definition variable_error (e : RepoError.t) : MutationError.t :=
  MutationError.mk "<variables>" 0 (RepoError.to_string e).

Definition expand_text (value : string) : mresult string :=
  map_err variable_error (Variables.expand variables value).

Definition expand_option (value : option string) : mresult (option string) :=
  match value with
  | Some value => Some <$> expand_text value
  | None => Ok None
  end.

Definition expand_list (values : list string) : mresult (list string) := mapM expand_text values.

Definition normalize_gpgkey_locations (values : list string) : mresult (list string) :=
  mapM normalize_gpgkey_location values.

Definition expand_repo (repo : RepoConfig.t) : mresult RepoConfig.t :=
  name ← expand_option (RepoConfig.name repo);
  baseurl ← expand_list (RepoConfig.baseurl repo);
  metalink ← expand_option (RepoConfig.metalink repo);
  mirrorlist ← expand_option (RepoConfig.mirrorlist repo);
  proxy ← expand_option (RepoConfig.proxy repo);
  excludepkgs ← expand_list (RepoConfig.excludepkgs repo);
  includepkgs ← expand_list (RepoConfig.includepkgs repo);
  gpgkey ← expand_list (RepoConfig.gpgkey repo);
  gpgkey ← (if RepoConfig.enabled repo then normalize_gpgkey_locations gpgkey else Ok gpgkey);
  let repo := RepoConfig.with_name repo name in
  let repo := RepoConfig.with_baseurl repo baseurl in
  let repo := RepoConfig.with_metalink repo metalink in
  let repo := RepoConfig.with_mirrorlist repo mirrorlist in
  let repo := RepoConfig.with_proxy repo proxy in
  let repo := RepoConfig.with_excludepkgs repo excludepkgs in
  let repo := RepoConfig.with_includepkgs repo includepkgs in
  Ok (RepoConfig.with_gpgkey repo gpgkey).

Definition expand_variables (profile : MutationProfile.t) : mresult MutationProfile.t :=
  repositories ← mapM expand_repo (MutationProfile.repositories profile);
  Ok (MutationProfile.mk (MutationProfile.main profile) repositories variables).
End expansion.

Definition command_line : string := "<command-line>".

(** [iter_mut().find]: changes the first repository with the id. *)
Fixpoint update_repo (id : string) (f : RepoConfig.t -> mresult RepoConfig.t) (l : list RepoConfig.t) :
    option (mresult (list RepoConfig.t)) :=
  match l with
  | [] => None
  | r :: t =>
      if bool_decide (RepoConfig.id r = id) then Some (r ← f r; Ok (r :: t))
      else (fun c => t ← c; Ok (r :: t)) <$> update_repo id f t
  end.

Definition setopt_assign (number : N) (key value : string) (repo : RepoConfig.t) : mresult RepoConfig.t :=
  if bool_decide (key = "excludepkgs") then
    Ok (RepoConfig.with_excludepkgs repo (reset_or_append (RepoConfig.excludepkgs repo) value))
  else if bool_decide (key = "includepkgs") then
    Ok (RepoConfig.with_includepkgs repo (reset_or_append (RepoConfig.includepkgs repo) value))
  else assign_repo command_line number repo key value.

(** The profile, and the repositories whose trust has changed. *)
Definition setopt_step (s : MutationProfile.t * list string) (o : N * string) :
    mresult (MutationProfile.t * list string) :=
  let '(profile, trust_changed) := s in
  let '(number, option) := o in
  '(target, value) ← pair_of command_line number option;
  match str_strip_prefix "main." target with
  | Some key =>
      main ← apply_main_value command_line number (MutationProfile.main profile) key value;
      Ok (MutationProfile.mk main (MutationProfile.repositories profile) (MutationProfile.variables profile),
          trust_changed)
  | None =>
      rest ← ok_or (MutationError.mk command_line number "malformed setopt target")
               (str_strip_prefix "repo." target);
      '(id, key) ← ok_or (MutationError.mk command_line number "malformed repo setopt target")
                     (str_rsplit_once "."%char rest);
      changed ← ok_or (MutationError.mk command_line number "unknown repository setopt target")
                  (update_repo id (setopt_assign number key value) (MutationProfile.repositories profile));
      repositories ← changed;
      Ok (MutationProfile.mk (MutationProfile.main profile) repositories (MutationProfile.variables profile),
          if bool_decide (key ∈ ["gpgkey"; "enabled"]) then bset_insert id trust_changed else trust_changed)
  end.

Section setopts.
Context (sha256 : list byte -> list byte) (w : world).

(** What is done again for a repository whose keys or enablement changed. *)
Definition rebind_trust (trust_changed : list string) (repo : RepoConfig.t) : mresult RepoConfig.t :=
  if negb (bset_contains (RepoConfig.id repo) trust_changed) then Ok repo
  else if RepoConfig.enabled repo then
    gpgkey ← normalize_gpgkey_locations (RepoConfig.gpgkey repo);
    bundle ← key_bundle_digest sha256 w (RepoConfig.id repo) gpgkey;
    Ok (RepoConfig.with_key_bundle_digest (RepoConfig.with_gpgkey repo gpgkey) (Some (KeyBundle.digest bundle)))
  else Ok (RepoConfig.with_key_bundle_digest repo None).

Definition apply_setopts (profile : MutationProfile.t) (options : list string) : mresult MutationProfile.t :=
  '(profile, trust_changed) ← fold_result setopt_step (profile, []) (numbered 1 options);
  repositories ← mapM (rebind_trust trust_changed) (MutationProfile.repositories profile);
  Ok (MutationProfile.mk (MutationProfile.main profile) repositories (MutationProfile.variables profile)).
End setopts.
