(* ===== verification/ProfileFacts.v ===== *)
(** * What accepted repository files and options promise *)
From Stdlib Require Import Ascii.
From S2P Require Import Prelude.
From S2P Require Import RustStr.
From S2P Require Import RustText.
From S2P Require Import Variables.
From S2P Require Import MainConfig.
From S2P Require Import RepoFile.
From S2P Require Import UnixPath.
From S2P Require Import AnchoredFs.
From S2P Require Import Trust.
From S2P Require Import RepoProfile.

#[local] Open Scope N_scope.

(** ** Expiry times *)

Module ExpireFacts.

Lemma digits_value_from l : forall v,
  foldl (fun v b => 10 * v + decimal_digit b) v l = v * 10 ^ N.of_nat (length l) + digits_value l.
Proof.
  unfold digits_value, decimal_digit. induction l as [|b l IH]; intros v; cbn [foldl length].
  { simpl. lia. }
  rewrite IH. rewrite (IH (10 * 0 + _)). rewrite Nat2N.inj_succ, N.pow_succ_r'. lia.
Qed.

Lemma digits_value_cons b l :
  digits_value (b :: l) = decimal_digit b * 10 ^ N.of_nat (length l) + digits_value l.
Proof. unfold digits_value at 1. cbn [foldl]. by rewrite digits_value_from. Qed.

Lemma digits_value_app a b :
  digits_value (a ++ b) = digits_value a * 10 ^ N.of_nat (length b) + digits_value b.
Proof. unfold digits_value at 1. rewrite foldl_app. by rewrite digits_value_from. Qed.

Lemma fractional_seconds_cons b l m :
  fractional_seconds (b :: l) m = (decimal_digit b * m + fractional_seconds l m) / 10.
Proof. unfold fractional_seconds. simpl. by rewrite foldl_app. Qed.

(** The digits after the point give the floor of their exact value: rounding after every digit
    loses nothing. *)
Lemma fractional_seconds_value l m :
  fractional_seconds l m = digits_value l * m / 10 ^ N.of_nat (length l).
Proof.
  induction l as [|b l IH]; [by rewrite N.div_1_r |].
  rewrite fractional_seconds_cons, IH, digits_value_cons. cbn [length].
  rewrite Nat2N.inj_succ, N.pow_succ_r', (N.mul_comm 10).
  set (p := 10 ^ N.of_nat (length l)).
  assert (Hp : p <> 0) by (apply N.pow_nonzero; lia).
  rewrite <- N.Div0.div_div. f_equal.
  rewrite N.mul_add_distr_r. rewrite <- (N.mul_assoc _ p m), (N.mul_comm p m), N.mul_assoc.
  by rewrite N.div_add_l.
Qed.

Lemma decimal_total_value l : forall t, t <= u64_max ->
  decimal_total t l =
    let v := t * 10 ^ N.of_nat (length l) + digits_value l in if v <=? u64_max then Some v else None.
Proof.
  induction l as [|b l IH]; intros t Ht; cbn [decimal_total length].
  - cbn. rewrite N.mul_1_r, N.add_0_r. destruct (N.leb_spec t u64_max); [done | lia].
  - rewrite digits_value_cons, Nat2N.inj_succ, N.pow_succ_r'.
    assert (Hp : 1 <= 10 ^ N.of_nat (length l)) by (pose proof (N.pow_nonzero 10 (N.of_nat (length l))); lia).
    cbv zeta. unfold u64_checked_mul, u64_checked_add.
    destruct (N.leb_spec (t * 10) u64_max) as [H1|H1]; simpl.
    + destruct (N.leb_spec (t * 10 + decimal_digit b) u64_max) as [H2|H2]; simpl.
      * rewrite IH by done. cbv zeta.
        replace (t * (10 * 10 ^ N.of_nat (length l)) + _) with
          ((t * 10 + decimal_digit b) * 10 ^ N.of_nat (length l) + digits_value l) by lia. done.
      * destruct (N.leb_spec (t * (10 * 10 ^ N.of_nat (length l)) +
          (decimal_digit b * 10 ^ N.of_nat (length l) + digits_value l)) u64_max); [nia | done].
    + destruct (N.leb_spec (t * (10 * 10 ^ N.of_nat (length l)) +
          (decimal_digit b * 10 ^ N.of_nat (length l) + digits_value l)) u64_max); [nia | done].
Qed.

Lemma decimal_seconds_value l m : 1 <= m ->
  decimal_seconds l m = if digits_value l * m <=? u64_max then Some (digits_value l * m) else None.
Proof.
  intros Hm. unfold decimal_seconds. rewrite decimal_total_value by (vm_compute; done). cbv zeta.
  rewrite N.mul_0_l, N.add_0_l.
  destruct (N.leb_spec (digits_value l) u64_max); simpl; [done |].
  destruct (N.leb_spec (digits_value l * m) u64_max); [nia | done].
Qed.

(** The suffix of a number and how many seconds it stands for. *)
Definition unit_seconds (unit : list byte) : option N :=
  match unit with
  | [] => Some 1
  | [c] =>
      if bool_decide (c = "s"%char \/ c = "S"%char) then Some 1
      else if bool_decide (c = "m"%char \/ c = "M"%char) then Some 60
      else if bool_decide (c = "h"%char \/ c = "H"%char) then Some 3600
      else if bool_decide (c = "d"%char \/ c = "D"%char) then Some 86400
      else None
  | _ => None
  end.

Lemma unit_seconds_pos unit m : unit_seconds unit = Some m -> 1 <= m.
Proof.
  destruct unit as [|c [|? ?]]; simpl; [intros [= <-]; lia | | done].
  repeat case_bool_decide; intros [= <-]; lia.
Qed.

Definition number_byte (b : byte) : bool := is_ascii_digit b || bool_decide (b = "."%char).

Lemma duration_parts_number number unit m :
  number <> [] -> forallb number_byte number = true -> unit_seconds unit = Some m ->
  duration_parts (number ++ unit) = Some (number, m).
Proof.
  intros Hne Hn Hu. unfold duration_parts. destruct unit as [|c [|? ?]]; [| | done].
  - injection Hu as <-. rewrite app_nil_r. destruct (last number) as [c|] eqn:Hl.
    + assert (Hc : number_byte c = true).
      { apply last_Some in Hl as [pre ->]. apply forallb_true in Hn.
        apply Forall_app in Hn as [_ Hn]. by apply Forall_cons in Hn as [? _]. }
      repeat rewrite bool_decide_eq_false_2 by (intros [-> | ->]; vm_compute in Hc; done).
      by rewrite bool_decide_eq_false_2.
    + by rewrite bool_decide_eq_false_2.
  - rewrite last_snoc, removelast_last. simpl in Hu.
    repeat (case_bool_decide; [injection Hu as <-; by rewrite bool_decide_eq_false_2 |]). done.
Qed.

(** The text of a decimal number of seconds, minutes, hours or days: an optional plus sign, the
    digits before the point, those after it, and the unit. *)
Record decimal : Type := {
  plus : bool;
  whole : list byte;
  point : bool;
  fraction : list byte;
  suffix : list byte;
  multiplier : N
}.

Definition number_of (d : decimal) : list byte :=
  whole d ++ (if point d then ["."%char] else []) ++ fraction d.

Definition decimal_text (d : decimal) : string :=
  of_bytes ((if plus d then ["+"%char] else []) ++ number_of d ++ suffix d).

Definition well_formed (d : decimal) : Prop :=
  forallb is_ascii_digit (whole d) = true /\ forallb is_ascii_digit (fraction d) = true /\
  (whole d <> [] \/ fraction d <> []) /\ (point d = false -> fraction d = []) /\
  unit_seconds (suffix d) = Some (multiplier d).

(** The number times the unit, rounded down to whole seconds. *)
Definition exact_seconds (d : decimal) : N :=
  digits_value (whole d ++ fraction d) * multiplier d / 10 ^ N.of_nat (length (fraction d)).

Lemma digit_no_point l : forallb is_ascii_digit l = true -> "."%char ∉ l.
Proof.
  intros Hl Hin. apply forallb_true in Hl. rewrite Forall_forall in Hl. by specialize (Hl _ Hin).
Qed.

Lemma count_points l : forallb is_ascii_digit l = true -> base.filter (fun b => b = "."%char) l = [].
Proof. intros Hl%digit_no_point. apply filter_nil_iff. by intros x Hx ->. Qed.

Lemma decimal_expire_value path line d : well_formed d ->
  decimal_expire path line (number_of d) (multiplier d) =
    if exact_seconds d <=? u64_max then Ok (AfterSeconds (exact_seconds d)) else expire_overflow path line.
Proof.
  intros (Hw & Hf & Hne & Hp & Hu). unfold decimal_expire, number_of.
  assert (Hsplit : default (whole d ++ (if point d then ["."%char] else []) ++ fraction d, [])
    (split_once ["."%char] (whole d ++ (if point d then ["."%char] else []) ++ fraction d)) =
    (whole d, fraction d)).
  { destruct (point d).
    - simpl. by rewrite split_once_single by by apply digit_no_point.
    - rewrite (Hp eq_refl). simpl. rewrite app_nil_r.
      by rewrite split_once_single_none by by apply digit_no_point. }
  rewrite Hsplit, Hw, Hf, !filter_app, (count_points (whole d)), (count_points (fraction d)) by done.
  rewrite app_nil_l, app_nil_r, bool_decide_eq_false_2 by (destruct (point d); vm_compute; lia).
  rewrite bool_decide_eq_false_2 by naive_solver. simpl negb. cbn [orb].
  pose proof (unit_seconds_pos _ _ Hu) as Hm. rewrite decimal_seconds_value by done.
  unfold exact_seconds. rewrite digits_value_app, N.mul_add_distr_r.
  rewrite <- (N.mul_assoc _ (10 ^ _) _), (N.mul_comm (10 ^ _) (multiplier d)), N.mul_assoc.
  rewrite N.div_add_l by (apply N.pow_nonzero; lia). rewrite <- fractional_seconds_value.
  unfold u64_checked_add. destruct (N.leb_spec (digits_value (whole d) * multiplier d) u64_max).
  - by destruct (_ <=? _).
  - destruct (N.leb_spec (digits_value (whole d) * multiplier d +
      fractional_seconds (fraction d) (multiplier d)) u64_max); [lia | done].
Qed.

Lemma number_of_bytes d : well_formed d ->
  forallb number_byte (number_of d) = true /\ number_of d <> [] /\
  (forall c t, number_of d = c :: t -> c <> "-"%char /\ c <> "n"%char /\ c <> "+"%char) /\
  (forall a c t, number_of d = a :: c :: t -> c <> "x"%char /\ c <> "X"%char).
Proof.
  intros (Hw & Hf & Hne & Hp & _).
  assert (Hall : forallb number_byte (number_of d) = true).
  { unfold number_of. rewrite !forallb_app.
    assert (Hdig : forall l, forallb is_ascii_digit l = true -> forallb number_byte l = true).
    { intros l Hl. apply forallb_true. apply forallb_true in Hl. eapply Forall_impl; [exact Hl |].
      intros b Hb. unfold number_byte. by rewrite Hb. }
    rewrite (Hdig _ Hw), (Hdig _ Hf). by destruct (point d). }
  split_and!; [done | | |].
  - unfold number_of. intros Hnil. apply app_nil in Hnil as [Hw0 Hnil]. apply app_nil in Hnil as [_ Hf0].
    naive_solver.
  - intros c t Heq. rewrite Heq in Hall. simpl in Hall. apply andb_true_iff in Hall as [Hc _].
    split_and!; intros ->; vm_compute in Hc; done.
  - intros a c t Heq. rewrite Heq in Hall. simpl in Hall. rewrite !andb_true_iff in Hall.
    destruct Hall as (_ & Hc & _). split; intros ->; vm_compute in Hc; done.
Qed.

Lemma strip_hex number x :
  (forall a c t, number = a :: c :: t -> c <> x) -> strip_prefix ["0"%char; x] number = None.
Proof.
  intros Hn. destruct number as [|a [|c t]]; [done | simpl; by case_decide |]. simpl.
  case_decide; [| done]. rewrite decide_False; [done |]. intros ->. by eapply Hn.
Qed.

(** The expiry time of a decimal number with a unit is exactly its value in seconds rounded
    down, for any number of digits, or the overflow error exactly when that value exceeds the
    largest [u64]. *)
Theorem metadata_expire_exact (path : string) (line : N) (d : decimal) (Hwf : well_formed d) :
  parse_metadata_expire path line (decimal_text d) =
    if exact_seconds d <=? u64_max then Ok (AfterSeconds (exact_seconds d))
    else Err (MutationError.mk path line "metadata_expire exceeds u64 seconds").
Proof.
  destruct (number_of_bytes d Hwf) as (Hbytes & Hne & Hfirst & Hsecond).
  unfold parse_metadata_expire, decimal_text. rewrite bytes_of_bytes.
  rewrite bool_decide_eq_false_2.
  2: { intros Hin. destruct (number_of d) as [|c t] eqn:Hn; [done |].
    destruct (Hfirst c t eq_refl) as (H1 & H2 & H3).
    assert (Hor : of_bytes ((if plus d then ["+"%char] else []) ++ (c :: t) ++ suffix d) = "-1" \/
      of_bytes ((if plus d then ["+"%char] else []) ++ (c :: t) ++ suffix d) = "never") by set_solver.
    destruct Hor as [Heq|Heq]; apply (f_equal bytes) in Heq; rewrite bytes_of_bytes in Heq;
      destruct (plus d); by injection Heq. }
  assert (Hstrip : default ((if plus d then ["+"%char] else []) ++ number_of d ++ suffix d)
    (strip_prefix (bytes "+") ((if plus d then ["+"%char] else []) ++ number_of d ++ suffix d)) =
    number_of d ++ suffix d).
  { destruct (plus d); simpl; [by destruct (number_of d ++ suffix d) |].
    destruct (number_of d) as [|c t]; [done |]. destruct (Hfirst c t eq_refl) as (_ & _ & H3). simpl.
    by rewrite decide_False by congruence. }
  rewrite Hstrip, (duration_parts_number _ _ (multiplier d)); [| done | done | by apply Hwf].
  change (bytes "0x") with ["0"%char; "x"%char]. change (bytes "0X") with ["0"%char; "X"%char].
  rewrite !strip_hex by (intros a c t Heq; by destruct (Hsecond a c t Heq)).
  by apply decimal_expire_value.
Qed.

Definition example_decimal : decimal :=
  {| plus := true; whole := bytes "1"; point := true; fraction := bytes "00001"; suffix := bytes "d";
     multiplier := 86400 |}.

Lemma metadata_expire_exact_witness :
  parse_metadata_expire "f" 3 "+1.00001d" = Ok (AfterSeconds 86400) /\
  parse_metadata_expire "f" 3 "18446744073709551616" = expire_overflow "f" 3.
Proof.
  split.
  - assert (Hwf : well_formed example_decimal) by (split_and!; [done | done | by left | done | done]).
    generalize (metadata_expire_exact "f" 3 example_decimal Hwf). vm_compute. trivial.
  - vm_compute. reflexivity.
Defined.

(** A trailing [d] or [D] is always the unit: a hexadecimal number cannot end in that digit. *)
Lemma hexadecimal_day :
  parse_metadata_expire "f" 3 "0x1d" = Ok (AfterSeconds 86400) /\
  parse_metadata_expire "f" 3 "0xd" = invalid_expire "f" 3.
Proof. by vm_compute. Qed.
End ExpireFacts.
