(* ===== verification/SourceLoader.v ===== *)
(** * Loading the configuration ([dnfast-repo]: source_loader.rs, loader.rs)

    The path look-ups that follow links, the sources of variables and repositories, and the
    profile they make.  The file system stays as it is during a load, except where
    [read_stable_regular_file] looks twice; the clients of [anchored_fs] are proved against
    changes in the file AnchoredFs.  The rpm program, SHA-256 and the OpenPGP parser are
    parameters. *)
From Stdlib Require Import Ascii.
From S2P Require Import Prelude.
From S2P Require Import RustStr.
From S2P Require Import RustText.
From S2P Require Import Variables.
From S2P Require Import MainConfig.
From S2P Require Import RepoFile.
From S2P Require Import UnixPath.
From S2P Require Import AnchoredFs.
From S2P Require Import Trust.
From S2P Require Import RepoProfile.

#[local] Open Scope N_scope.

(** ** Path look-up *)

Inductive IoError : Type := NotFound | NotADirectory | IsADirectory | FilesystemLoop | PermissionDenied.

#[export] Instance io_error_eq_dec : EqDecision IoError.
Proof. solve_decision. Defined.

(** The directories above the current one, the current one first. *)
Fixpoint resolve (links : nat) (w : world) (follow : bool) : list N -> list Component -> result IoError N :=
  fix go (stack : list N) (cs : list Component) : result IoError N :=
    match cs with
    | [] => ok_or NotFound (head stack)
    | RootDir :: cs => go [root_inode] cs
    | CurDir :: cs => go stack cs
    | ParentDir :: cs =>
        match stack with
        | _ :: d :: above => go (d :: above) cs
        | _ => go stack cs
        end
    | Normal name :: cs =>
        current ← ok_or NotFound (head stack);
        d ← ok_or NotFound (w !! current);
        match Inode.contents d with
        | Inode.Directory entries =>
            if negb (Inode.accessible d) then Err PermissionDenied
            else
              i ← ok_or NotFound (entry name entries);
              n ← ok_or NotFound (w !! i);
              match Inode.contents n with
              | Inode.Symlink target =>
                  if bool_decide (cs = []) && negb follow then Ok i
                  else
                    match links with
                    | O => Err FilesystemLoop
                    | S links => resolve links w follow stack (components target ++ cs)
                    end
              | _ => go (i :: stack) cs
              end
        | _ => Err NotADirectory
        end
    end.

Definition MAXSYMLINKS : nat := 40.

(** A path that ends in a slash or a dot names a directory. *)
Definition names_directory (path : string) : bool :=
  match last (segments path) with
  | Some s => bool_decide (s = "" \/ s = ".")
  | None => false
  end.

Section lookups.
Context (cwd : list N) (w : world).

Definition path_inode (follow : bool) (path : string) : result IoError N :=
  if str_is_empty path then Err NotFound
  else
    i ← resolve MAXSYMLINKS w (follow || names_directory path) cwd (components path);
    n ← ok_or NotFound (w !! i);
    if names_directory path && negb (Inode.is_directory n) then Err NotADirectory else Ok i.

Definition metadata_at (follow : bool) (path : string) : result IoError Inode.t :=
  i ← path_inode follow path; ok_or NotFound (w !! i).

(** [Path::exists] and [fs::symlink_metadata]. *)
Definition path_exists (path : string) : bool := is_ok (metadata_at true path).
Definition symlink_metadata (path : string) : result IoError Inode.t := metadata_at false path.

(** [fs::read_dir]: the entries in the order of the directory. *)
Definition read_dir (path : string) : result IoError (list (string * N)) :=
  n ← metadata_at true path;
  match Inode.contents n with
  | Inode.Directory entries => if Inode.accessible n then Ok entries else Err PermissionDenied
  | _ => Err NotADirectory
  end.
End lookups.

(** ** The sources of the root configuration *)

Definition MAIN_PATH : string := "/etc/dnf/dnf.conf".
Definition MAX_CONFIG_FILES : N := 256.
Definition TRUSTED_RPM_PATH : string := "/usr/bin/rpm".

Record SystemVariables : Type := system_variables { releasever : string; basearch : string }.

Definition system_variables_from_values (releasever basearch : string) : mresult SystemVariables :=
  if str_is_empty releasever || (32 <? str_len releasever) || negb (forallb is_ascii_digit (bytes releasever))
  then error "<system-rpm>" "invalid Fedora releasever"
  else if negb (bool_decide (basearch ∈ ["aarch64"; "x86_64"]))
  then error "<system-rpm>" "unsupported RPM base architecture"
  else Ok (system_variables releasever basearch).

Definition line_end (b : byte) : bool := bool_decide (b = "010"%char \/ b = "013"%char).
Definition trim_line_ends (l : list byte) : list byte := rev (drop_while line_end (rev l)).

Section loader.
Context (cwd : list N) (w : world) (owner : N).

Definition source_text (path : string) : mresult string :=
  content ← read_root_file (fun _ => w) path owner 1048576;
  ok_or (MutationError.mk path 0 "configuration source is not valid UTF-8") (from_utf8 content).

Definition validate_root_metadata (path : string) (directory : bool) : mresult Inode.t :=
  match symlink_metadata cwd w path with
  | Err _ => error path "cannot inspect root configuration source"
  | Ok metadata =>
      if Inode.is_symlink metadata || negb (Inode.uid metadata =? owner)
         || negb (N.land (Inode.mode metadata) writable_bits =? 0)
         || negb (eqb directory (Inode.is_directory metadata))
      then error path "untrusted root configuration source" else Ok metadata
  end.

(** What both loops do with a directory: skip it, refuse it, or go through [body]. *)
Definition with_directory {A} (directory : string) (skip : A) (body : mresult A) : mresult A :=
  if negb (path_exists cwd w directory) then Ok skip
  else
    match validate_root_metadata directory true with
    | Err e => if negb (owner =? 0) then Ok skip else Err e
    | Ok _ => body
    end.

Definition repository_entry (directory : string) (paths : list string) (e : string * N) :
    mresult (list string) :=
  let path := join directory e.1 in
  match symlink_metadata cwd w path with
  | Err _ => error path "cannot inspect repository entry"
  | Ok metadata =>
      if bool_decide (extension path = Some "repo") && Inode.is_regular metadata
      then Ok (paths ++ [path]) else Ok paths
  end.

Definition repository_directory (paths : list string) (directory : string) : mresult (list string) :=
  with_directory directory paths
    match read_dir cwd w directory with
    | Err _ => error directory "cannot read repository directory"
    | Ok entries => fold_result (repository_entry directory) paths entries
    end.

Definition repository_paths (directories : list string) (prior_count : N) : mresult (list string) :=
  paths ← fold_result repository_directory [] directories;
  if MAX_CONFIG_FILES <? N.of_nat (length paths) + prior_count
  then error "<reposdir>" "configuration file limit exceeds 256" else Ok (sort paths).

Definition variable_name_byte (b : byte) : bool := bool_decide (b = "_"%char) || is_ascii_alphanumeric b.

(** The pairs read and their number. *)
Definition variable_file (s : list (string * string) * N) (path : string) :
    mresult (list (string * string) * N) :=
  let '(pairs, count) := s in
  _ ← validate_root_metadata path false;
  name ← ok_or (MutationError.mk path 0 "variable filename is not UTF-8") (file_name path);
  if negb (forallb variable_name_byte (bytes name)) then error path "invalid variable filename"
  else
    value ← source_text path;
    let count := count + 1 in
    if MAX_CONFIG_FILES <? count + 1 then error path "configuration file limit exceeds 256"
    else Ok (pairs ++ [(name, trim value)], count).

Definition variable_directory (s : list (string * string) * N) (directory : string) :
    mresult (list (string * string) * N) :=
  with_directory directory s
    match read_dir cwd w directory with
    | Err _ => error directory "cannot read variables directory"
    | Ok entries => fold_result variable_file s (sort ((fun e => join directory e.1) <$> entries))
    end.

Definition load_variable_sources (directories : list string) : mresult (Variables.t * N) :=
  '(pairs, count) ← fold_result variable_directory ([], 0) directories;
  Ok (Variables.from_pairs pairs, count).

(** ** The profile *)

Context (sha256 : list byte -> list byte) (parse_certs : list byte -> option (list (option string))).

(** The repositories read and their ids. *)
Definition add_repository (path : string) (s : list RepoConfig.t * list string) (repo : RepoConfig.t) :
    mresult (list RepoConfig.t * list string) :=
  let '(repositories, ids) := s in
  if bset_contains (RepoConfig.id repo) ids then error path "duplicate repository id across files"
  else
    let ids := bset_insert (RepoConfig.id repo) ids in
    if 1024 <? N.of_nat (length ids) then error path "repository limit exceeds 1024"
    else Ok (repositories ++ [repo], ids).

Definition load_repository_file (main : MainConfig.t) (s : list RepoConfig.t * list string) (path : string) :
    mresult (list RepoConfig.t * list string) :=
  text ← source_text path;
  parsed ← ProfileParser.parse_repo_profile path text main;
  fold_result (add_repository path) s (MutationProfile.repositories parsed).

Definition absent_fingerprint (available : list string) (fingerprint : string) : bool :=
  negb (bset_contains (to_ascii_uppercase fingerprint) available).

Definition bind_fingerprints (repo : RepoConfig.t) (bundle : KeyBundle.t) : mresult RepoConfig.t :=
  bundled ← primary_certificate_fingerprints parse_certs (KeyBundle.certificates bundle);
  if bool_decide (RepoConfig.allowed_fingerprints repo = [])
  then Ok (RepoConfig.with_allowed_fingerprints repo bundled)
  else if existsb (absent_fingerprint (bset_of_list bundled)) (RepoConfig.allowed_fingerprints repo)
  then gpgkey_error "allowed fingerprint is absent from the repository key bundle"
  else Ok repo.

Definition bind_keys (bind_system_certificate_fingerprints : bool) (repo : RepoConfig.t) : mresult RepoConfig.t :=
  if negb (RepoConfig.enabled repo) then Ok (RepoConfig.with_key_bundle_digest repo None)
  else
    bundle ← key_bundle_digest sha256 w (RepoConfig.id repo) (RepoConfig.gpgkey repo);
    repo ← (if bind_system_certificate_fingerprints && negb (bool_decide (KeyBundle.certificates bundle = []))
            then bind_fingerprints repo bundle else Ok repo);
    Ok (RepoConfig.with_key_bundle_digest repo (Some (KeyBundle.digest bundle))).

Definition load_mutation_profile_owned (main_path : string) (system_vars : option SystemVariables) :
    mresult MutationProfile.t :=
  main_text ← source_text main_path;
  main ← MainParser.parse_main_config main_path main_text;
  '(variables, variable_count) ← load_variable_sources (MainConfig.varsdir main);
  let variables :=
    match system_vars with
    | Some system =>
        Variables.with_system_release_and_arch variables (releasever system) (basearch system)
    | None => variables
    end in
  paths ← repository_paths (MainConfig.reposdir main) (variable_count + 1);
  '(repositories, _) ← fold_result (load_repository_file main) ([], []) paths;
  output ← expand_variables variables (MutationProfile.mk main repositories Variables.default);
  repositories ← mapM (bind_keys (bool_decide (is_Some system_vars))) (MutationProfile.repositories output);
  Ok (MutationProfile.mk (MutationProfile.main output) repositories (MutationProfile.variables output)).
End loader.

Section entry_points.
Context (cwd : list N) (w : world) (sha256 : list byte -> list byte)
  (parse_certs : list byte -> option (list (option string)))
  (rpm_eval : string -> option (bool * list byte)).

(** [rpm --eval]: [None] when it cannot be run, otherwise success and standard output. *)
Definition trusted_rpm_evaluate (expression : string) : mresult string :=
  _ ← validate_root_executable (fun _ => w) TRUSTED_RPM_PATH 0;
  match rpm_eval expression with
  | None => error TRUSTED_RPM_PATH "cannot evaluate trusted RPM system variable"
  | Some (false, _) => error TRUSTED_RPM_PATH "trusted RPM system variable evaluation failed"
  | Some (true, stdout) =>
      match from_utf8 stdout with
      | None => error TRUSTED_RPM_PATH "trusted RPM system variable is not valid UTF-8"
      | Some value => Ok (of_bytes (trim_line_ends (bytes value)))
      end
  end.

Definition system_variables_from_rpm : mresult SystemVariables :=
  releasever ← trusted_rpm_evaluate "%{?fedora}";
  basearch ← trusted_rpm_evaluate "%{_arch}";
  system_variables_from_values releasever basearch.

Definition load_mutation_profile : mresult MutationProfile.t :=
  load_mutation_profile_owned cwd w 0 sha256 parse_certs MAIN_PATH None.

Definition load_system_mutation_profile : mresult MutationProfile.t :=
  variables ← system_variables_from_rpm;
  load_mutation_profile_owned cwd w 0 sha256 parse_certs MAIN_PATH (Some variables).

Definition load_mutation_profile_from (main_path : string) : mresult MutationProfile.t :=
  match symlink_metadata cwd w main_path with
  | Err _ => error main_path "cannot inspect main configuration"
  | Ok n => load_mutation_profile_owned cwd w (Inode.uid n) sha256 parse_certs main_path None
  end.
End entry_points.

(** ** Repositories for queries *)

Section repository_dirs.
Context (cwd : list N) (io_text : IoError -> string).

Definition io_error {A} (path : string) (e : IoError) : result RepoError.t A := Err (RepoError.Io path (io_text e)).

(** [Path::ancestors]: the path as it is written and its parents, cut after their last
    component. *)
Fixpoint drop_trivial (reversed : list string) : list string :=
  match reversed with
  | s :: ((_ :: _) as rest) => if bool_decide (s = "" \/ s = ".") then drop_trivial rest else reversed
  | _ => reversed
  end.

Definition segments_text (reversed : list string) : string :=
  match reversed with
  | [""] => "/"
  | _ => foldl (fun t s => s +:+ (if bool_decide (t = "") then "" else "/" +:+ t)) "" reversed
  end.

Fixpoint parents (fuel : nat) (reversed : list string) : list string :=
  match fuel with
  | O => []
  | S fuel =>
      match drop_trivial reversed with
      | _ :: ((_ :: _) as above) => segments_text (drop_trivial above) :: parents fuel (drop_trivial above)
      | _ => []
      end
  end.

Definition ancestors (path : string) : list string :=
  path :: parents (length (segments path)) (rev (segments path)).

Fixpoint has_symlink_ancestor (w : world) (l : list string) : result RepoError.t bool :=
  match l with
  | [] => Ok false
  | ancestor :: l =>
      match symlink_metadata cwd w ancestor with
      | Ok n => if Inode.is_symlink n then Ok true else has_symlink_ancestor w l
      | Err NotFound => has_symlink_ancestor w l
      | Err e => io_error ancestor e
      end
  end.

(** The file system when the path is inspected, when the file is opened and when it is read. *)
Definition read_stable_regular_file (w0 w1 w2 : world) (path : string) : result RepoError.t (list byte) :=
  match path_inode cwd w0 false path with
  | Err e => io_error path e
  | Ok before =>
      match w0 !! before with
      | None => io_error path NotFound
      | Some n =>
          if negb (Inode.is_regular n) then parse_error path 1 "repository path is not a regular file"
          else
            match path_inode cwd w1 true path with
            | Err e => io_error path e
            | Ok opened =>
                if negb (from_option Inode.accessible false (w1 !! opened))
                then io_error path PermissionDenied
                else if negb (opened =? before)
                then parse_error path 1 "repository file changed while opening"
                else
                  match read_fd w2 opened with
                  | None => io_error path IsADirectory
                  | Some content => Ok content
                  end
            end
      end
  end.

Definition repository_file_paths (w : world) (directory : string) (entries : list (string * N)) : list string :=
  omap (fun e : string * N =>
    let path := join directory e.1 in
    if from_option Inode.is_regular false (w !! e.2) && bool_decide (extension path = Some "repo")
    then Some path else None) entries.

Definition scan_directory (w : world) (paths : list string) (directory : string) :
    result RepoError.t (list string) :=
  linked ← has_symlink_ancestor w (ancestors directory);
  if (linked : bool) then Ok paths
  else
    match symlink_metadata cwd w directory with
    | Err NotFound => Ok paths
    | Err e => io_error directory e
    | Ok metadata =>
        if negb (Inode.is_directory metadata) then Ok paths
        else
          match read_dir cwd w directory with
          | Err NotFound => Ok paths
          | Err e => io_error directory e
          | Ok entries => Ok (paths ++ repository_file_paths w directory entries)
          end
    end.

Definition component_key (c : Component) : N * string :=
  match c with RootDir => (1, "") | CurDir => (2, "") | ParentDir => (3, "") | Normal name => (4, name) end.

#[global] Instance component_ord : RustOrd Component := ord_on component_key.

Definition path_cmp (a b : string) : comparison := cmp (components a) (components b).

(** The repositories and, for each id, the file it comes from. *)
Definition keep_repository (path : string) (s : list Repository.t * list (string * string)) (r : Repository.t) :
    result RepoError.t (list Repository.t * list (string * string)) :=
  let '(repositories, seen) := s in
  match bmap_lookup (Repository.id r) seen with
  | Some previous =>
      parse_error path 1 ("duplicate repository id " +:+ Repository.id r +:+ " (already defined in " +:+
        previous +:+ ")")
  | None => Ok (repositories ++ [r], bmap_insert (Repository.id r) path seen)
  end.

Definition load_one (w : world) (s : list Repository.t * list (string * string)) (path : string) :
    result RepoError.t (list Repository.t * list (string * string)) :=
  content ← read_stable_regular_file w w w path;
  input ← ok_or (RepoError.InvalidUtf8 path) (from_utf8 content);
  rs ← RepositoryParser.parse_repository_file path input;
  fold_result (keep_repository path) s rs.

Definition repository_cmp (a b : Repository.t) : comparison :=
  then_cmp (path_cmp (Repository.origin a) (Repository.origin b)) (cmp (Repository.id a) (Repository.id b)).

Definition load_repository_dirs (w : world) (directories : list string) : result RepoError.t (list Repository.t) :=
  paths ← fold_result (scan_directory w) [] directories;
  '(repositories, _) ← fold_result (load_one w) ([], []) (sort_by path_cmp paths);
  Ok (sort_by repository_cmp repositories).

(** [load_refresh_policy]: any error of the read is reported at line 0. *)
Definition load_refresh_policy (w : world) (repository : Repository.t) : result RepoError.t RefreshPolicy.t :=
  let path := Repository.origin repository in
  match path_inode cwd w true path with
  | Err e => parse_error path 0 (io_text e)
  | Ok i =>
      if negb (from_option Inode.accessible false (w !! i)) then parse_error path 0 (io_text PermissionDenied)
      else
        match read_fd w i with
        | None => parse_error path 0 (io_text IsADirectory)
        | Some content =>
            match from_utf8 content with
            | None => parse_error path 0 "stream did not contain valid UTF-8"
            | Some input => RefreshPolicy.parse path input (Repository.id repository)
            end
        end
  end.
End repository_dirs.
