(* ===== verification/ProfileSafety.v ===== *)
(** * The security of a loaded profile

    From the files of the configuration through the expansion of variables to the options of the
    command line. *)
From S2P Require Import Prelude.
From S2P Require Import RustStr.
From S2P Require Import RustText.
From S2P Require Import Variables.
From S2P Require Import MainConfig.
From S2P Require Import RepoFile.
From S2P Require Import UnixPath.
From S2P Require Import AnchoredFs.
From S2P Require Import Trust.
From S2P Require Import RepoProfile.
From S2P Require Import SourceLoader.

#[local] Open Scope N_scope.

Import RepoConfig.

(** Signatures and certificates are verified, and pinned fingerprints are those of certificates. *)
Definition verified (r : RepoConfig.t) : Prop :=
  sslverify r = true /\ gpgcheck r = true /\ pkg_gpgcheck r = true /\
  Forall (fun f => str_len f = 40) (allowed_fingerprints r).

(** The digest of an enabled repository is that of its keys as they are on disk. *)
Definition bound (sha256 : list byte -> list byte) (w : world) (r : RepoConfig.t) : Prop :=
  if enabled r then
    exists b, Trust.key_bundle_digest sha256 w (id r) (gpgkey r) = Ok b /\
      key_bundle_digest r = Some (KeyBundle.digest b)
  else key_bundle_digest r = None.

Definition sound_repo (r : RepoConfig.t) : Prop := valid_id (id r) = true /\ verified r.

(** ** Settings *)

Lemma fingerprints_ok path line value v :
  fingerprints path line value = Ok v -> Forall (fun f => str_len f = 40) v.
Proof.
  unfold fingerprints. destruct (existsb _ _) eqn:E; [done |]. intros [= <-].
  apply existsb_false in E. eapply Forall_impl; [exact E |]. intros f Hf%negb_false_iff.
  apply andb_true_iff in Hf as [Hf _]. by apply N.eqb_eq.
Qed.

Lemma reset_or_append_checked_fingerprints l v :
  Forall (fun f => str_len f = 40) l -> Forall (fun f => str_len f = 40) v ->
  Forall (fun f => str_len f = 40) (reset_or_append_checked l v).
Proof.
  intros Hl Hv. unfold reset_or_append_checked. case_bool_decide; [constructor |].
  apply Forall_app. by split.
Qed.

(** What a setting leaves alone. *)
Definition framed (key : string) (r r' : RepoConfig.t) : Prop :=
  id r' = id r /\ key_bundle_digest r' = key_bundle_digest r /\ (verified r -> verified r') /\
  (key <> "gpgkey" -> gpgkey r' = gpgkey r) /\ (key <> "enabled" -> enabled r' = enabled r).

Lemma framed_refl key r : framed key r r.
Proof. by split_and!. Qed.

Ltac frame_setting r := unfold framed, verified; destruct r; cbn; split_and!;
  [reflexivity | reflexivity | intros (? & ? & ? & ?); split_and!; by trivial
  | first [by intros _ | by intros []] | first [by intros _ | by intros []]].

Lemma assign_repo_frame path line r key value r' :
  assign_repo path line r key value = Ok r' -> framed key r r'.
Proof.
  unfold assign_repo.
  repeat (case_bool_decide as Hkey; [subst key | clear Hkey]); try done;
    try (intros Hr%Ok_inj; subst r'; frame_setting r);
    try (intros (v & _ & <-)%fmap_ok; first [apply framed_refl | frame_setting r]).
  - destruct (rpm_md_repository_type value); [intros [= <-]; apply framed_refl | done].
  - destruct (authenticated_proxy value); [done |]. intros Hr%Ok_inj. subst r'. frame_setting r.
  - intros (v & Hv%fingerprints_ok & <-)%fmap_ok. unfold framed, verified. destruct r. cbn.
    split_and!; [done | done | | done | done]. intros (? & ? & ? & ?).
    split_and!; [done.. |]. by apply reset_or_append_checked_fingerprints.
Qed.

Lemma framed_sound key r r' : framed key r r' -> sound_repo r -> sound_repo r'.
Proof. intros (Hid & _ & Hv & _) [Hi Hr]. split; [by rewrite Hid | by apply Hv]. Qed.

(** ** Files *)

Section parsing.
Import ProfileParser.

Definition sound_state (s : state) : Prop :=
  Forall sound_repo (repositories s) /\ forall r, current s = Some r -> sound_repo r.

Lemma flush_sound path number s rs : sound_state s -> flush path number s = Ok rs -> Forall sound_repo rs.
Proof.
  intros [Hr Hc]. unfold flush. destruct (current s) as [r|]; [| by intros [= <-]].
  unfold finish. destruct (_ && _); [done |]. intros [= <-]. apply Forall_app. split; [done |].
  repeat constructor; by apply Hc.
Qed.

Lemma profile_step_sound path main s l s' : sound_state s -> step path main s l = Ok s' -> sound_state s'.
Proof.
  intros Hs. destruct l as [number raw]. unfold step.
  destruct (skipped_line _); [by intros [= <-] |].
  destruct (str_starts_with _ _).
  - destruct (negb _); [done |]. intros (rs & Hf & Hr)%bind_ok.
    destruct (negb (valid_id _)) eqn:Hid; [done |]. apply negb_false_iff in Hid.
    destruct (bset_contains _ _); [done |]. destruct (_ <? _); [done |]. apply Ok_inj in Hr as <-.
    split; cbn [repositories current]; [by eapply flush_sound |]. intros r [= <-]. split; [done |].
    by split_and!.
  - destruct (current s) as [r|] eqn:Hc; [| done]. intros ([key value] & _ & Hr)%bind_ok.
    destruct (bset_contains _ _); [done |].
    apply bind_ok in Hr as (r' & Ha%assign_repo_frame & [= <-]). destruct Hs as [Hrs Hcur].
    split; cbn [repositories current]; [done |]. intros r1 [= <-]. eapply framed_sound; [done |]. by apply Hcur.
Qed.

Lemma parse_repo_profile_sound path input main p :
  parse_repo_profile path input main = Ok p -> Forall sound_repo (MutationProfile.repositories p).
Proof.
  unfold parse_repo_profile. intros (_ & _ & (s & Hs & (rs & Hf & [= <-])%bind_ok)%bind_ok)%bind_ok.
  eapply flush_sound; [| exact Hf].
  refine (fold_result_ind _ sound_state _ _ _ _ _ Hs); [by split; [constructor |] |].
  intros s1 l s2 _. apply profile_step_sound.
Qed.
End parsing.

Lemma expand_repo_frame variables r r' :
  expand_repo variables r = Ok r' -> id r' = id r /\ enabled r' = enabled r /\ (verified r -> verified r').
Proof.
  unfold expand_repo. repeat (intros (? & _ & H)%bind_ok; revert H). intros [= <-].
  unfold verified. by destruct r.
Qed.

Lemma mapM_frame {A B E} (f : A -> result E B) (P : A -> B -> Prop) l l' :
  (forall a b, f a = Ok b -> P a b) -> mapM f l = Ok l' -> Forall2 P l l'.
Proof. intros Hf Hl%mapM_ok. by eapply Forall2_impl. Qed.

(** ** Keys *)

Lemma primary_certificate_fingerprints_ok parse_certs certs fs :
  primary_certificate_fingerprints parse_certs certs = Ok fs -> Forall (fun f => str_len f = 40) fs.
Proof.
  unfold primary_certificate_fingerprints. intros (l & Hl & Hr)%bind_ok. case_bool_decide; [done |].
  injection Hr as <-. set (P := Forall (fun f => str_len f = 40)).
  refine (fold_result_ind _ P _ _ _ _ _ Hl); [constructor |]. intros s1 content s2 _ H1 Hs.
  unfold certificate_step in Hs. destruct (parse_certs content) as [cs|]; [| done].
  refine (fold_result_ind _ P _ _ _ H1 _ Hs). intros t1 c t2 _ Ht Hc. unfold fingerprint_step in Hc.
  destruct c as [f|]; [| done]. destruct (negb _) eqn:Hf; [done |]. destruct (_ <? _); [done |].
  injection Hc as <-. apply negb_false_iff, N.eqb_eq in Hf. unfold P in *. rewrite Forall_forall in Ht |- *.
  intros x [->|Hx]%elem_of_bset_insert; [done | by apply Ht].
Qed.

Section keys.
Context (w : world) (sha256 : list byte -> list byte)
  (parse_certs : list byte -> option (list (option string))).

Lemma bound_digest r b :
  enabled r = true -> Trust.key_bundle_digest sha256 w (id r) (gpgkey r) = Ok b ->
  bound sha256 w (with_key_bundle_digest r (Some (KeyBundle.digest b))).
Proof. intros He Hb. unfold bound. destruct r. simpl in *. rewrite He. by exists b. Qed.

Lemma bind_fingerprints_ok r bundle r' :
  bind_fingerprints parse_certs r bundle = Ok r' ->
  id r' = id r /\ enabled r' = enabled r /\ gpgkey r' = gpgkey r /\ (verified r -> verified r').
Proof.
  unfold bind_fingerprints. intros (fs & Hfs%primary_certificate_fingerprints_ok & Hr)%bind_ok.
  case_bool_decide.
  - injection Hr as <-. unfold verified. destruct r. simpl. split_and!; try done. by intros (? & ? & ? & _).
  - destruct (existsb _ _); [done |]. by injection Hr as <-.
Qed.

Lemma bind_keys_ok system r r' :
  bind_keys w sha256 parse_certs system r = Ok r' ->
  id r' = id r /\ (verified r -> verified r') /\ bound sha256 w r'.
Proof.
  unfold bind_keys. destruct (enabled r) eqn:He; simpl.
  - intros (bundle & Hb & (r1 & Hr1 & [= <-])%bind_ok)%bind_ok.
    assert (Hf : id r1 = id r /\ enabled r1 = enabled r /\ gpgkey r1 = gpgkey r /\ (verified r -> verified r1)).
    { destruct (_ && _); [by apply bind_fingerprints_ok in Hr1 | by injection Hr1 as <-]. }
    destruct Hf as (Hid & He1 & Hg & Hv). split_and!.
    + rewrite <- Hid. by destruct r1.
    + intros Hr. apply Hv in Hr. unfold verified in *. by destruct r1.
    + apply bound_digest; [congruence |]. by rewrite Hid, Hg.
  - intros [= <-]. unfold verified, bound. destruct r. simpl in *. by rewrite He.
Qed.

Lemma rebind_trust_ok changed r r' :
  rebind_trust sha256 w changed r = Ok r' -> (id r ∈ changed \/ bound sha256 w r) ->
  id r' = id r /\ (verified r -> verified r') /\ bound sha256 w r'.
Proof.
  unfold rebind_trust. destruct (negb _) eqn:Hin.
  - intros [= <-] [Hc|Hb]; [| done]. apply negb_true_iff, bset_contains_false in Hin. done.
  - intros Hr _. destruct (enabled r) eqn:He.
    + apply bind_ok in Hr as (keys & _ & (bundle & Hb & [= <-])%bind_ok). split_and!; [by destruct r | |].
      * unfold verified. by destruct r.
      * apply bound_digest; destruct r; done.
    + injection Hr as <-. unfold verified, bound. destruct r. simpl in *. by rewrite He.
Qed.

(** ** Options of the command line *)

Lemma update_repo_ok n f l c l' :
  update_repo n f l = Some c -> c = Ok l' ->
  exists pre r r' post, l = pre ++ r :: post /\ l' = pre ++ r' :: post /\ id r = n /\ f r = Ok r'.
Proof.
  revert c l'. induction l as [|r l IH]; intros c l'; [done |]. cbn [update_repo]. case_bool_decide as Hid.
  - intros [= <-] (r' & Hr & [= <-])%bind_ok. by exists [], r, r', l.
  - destruct (update_repo n f l) as [c'|]; [| done]. intros [= <-] (t & Ht & [= <-])%bind_ok.
    destruct (IH c' t eq_refl Ht) as (pre & r0 & r0' & post & -> & -> & ? & ?).
    by exists (r :: pre), r0, r0', post.
Qed.

Lemma setopt_assign_frame n key value r r' : setopt_assign n key value r = Ok r' -> framed key r r'.
Proof.
  unfold setopt_assign. repeat (case_bool_decide as Hk; [subst key; intros Hr%Ok_inj; subst r' | clear Hk]);
    [frame_setting r | frame_setting r | apply assign_repo_frame].
Qed.

(** The repositories of a profile whose trust may have to be bound again. *)
Definition options_invariant (ids : list string) (s : MutationProfile.t * list string) : Prop :=
  id <$> MutationProfile.repositories s.1 = ids /\
  Forall (fun r => sound_repo r /\ (id r ∈ s.2 \/ bound sha256 w r)) (MutationProfile.repositories s.1).

Lemma setopt_step_invariant ids s o s' :
  options_invariant ids s -> setopt_step s o = Ok s' -> options_invariant ids s'.
Proof.
  intros [Hids Hall]. destruct s as [profile changed], o as [number option]. unfold setopt_step.
  intros ([target value] & _ & Hs)%bind_ok. destruct (str_strip_prefix "main." target).
  { by apply bind_ok in Hs as (main & _ & [= <-]). }
  apply bind_ok in Hs as (rest & _ & ([n key] & _ & (c & Hc%ok_or_ok & (rs & Hrs & [= <-])%bind_ok)%bind_ok)%bind_ok).
  cbn [fst snd] in *.
  destruct (update_repo_ok _ _ _ _ _ Hc Hrs) as (pre & r & r' & post & Hl & -> & <- & Hf%setopt_assign_frame).
  rewrite Hl in Hids, Hall. split; cbn [fst snd MutationProfile.repositories].
  { rewrite <- Hids, !fmap_app, !fmap_cons. f_equal. f_equal. apply Hf. }
  set (changed' := if bool_decide _ then _ else _).
  assert (Hsub : forall x, x ∈ changed -> x ∈ changed').
  { intros x Hx. unfold changed'. case_bool_decide; [| done]. apply elem_of_bset_insert. by right. }
  apply Forall_app in Hall as [Hpre [[Hs Hb] Hpost]%Forall_cons]. apply Forall_app. split; [| constructor].
  - eapply Forall_impl; [exact Hpre |]. cbn. intros x [? [?|?]]; auto.
  - split; [by eapply framed_sound |]. destruct Hf as (Hid & Hd & _ & Hg & He). rewrite Hid.
    unfold changed'. case_bool_decide as Hk; [left; apply elem_of_bset_insert; by left |].
    destruct Hb as [Hin|Hb]; [by left | right]. unfold bound in *.
    rewrite He, Hg, Hid, Hd by (intros ->; apply Hk; set_solver). done.
  - eapply Forall_impl; [exact Hpost |]. cbn. intros x [? [?|?]]; auto.
Qed.
End keys.

Lemma fold_files_sound w owner main paths : forall rs ids rs' ids',
  Forall sound_repo rs -> NoDup (id <$> rs) -> StronglySorted clt ids -> (forall x, x ∈ ids <-> x ∈ id <$> rs) ->
  (length rs <= 1024)%nat ->
  fold_result (load_repository_file w owner main) (rs, ids) paths = Ok (rs', ids') ->
  Forall sound_repo rs' /\ NoDup (id <$> rs') /\ (length rs' <= 1024)%nat.
Proof.
  intros rs ids rs' ids' H1 H2 H3 H4 H5 Hf.
  set (P := fun s : list RepoConfig.t * list string => Forall sound_repo s.1 /\ NoDup (id <$> s.1) /\
    StronglySorted clt s.2 /\ (forall x, x ∈ s.2 <-> x ∈ id <$> s.1) /\ (length s.1 <= 1024)%nat).
  enough (HP : P (rs', ids')) by (destruct HP as (? & ? & _ & _ & ?); done).
  refine (fold_result_ind _ P _ _ _ _ _ Hf); [by split_and! |]. clear -P.
  intros s path s' _ HP Hl. unfold load_repository_file in Hl.
  apply bind_ok in Hl as (text & _ & (parsed & Hp%parse_repo_profile_sound & Hl)%bind_ok).
  refine (fold_result_ind _ P _ _ _ HP _ Hl). intros [rs1 ids1] r [rs2 ids2] Hr (H1 & H2 & H3 & H4 & H5) Ha.
  rewrite Forall_forall in Hp. specialize (Hp r Hr). unfold add_repository in Ha. cbn [fst snd] in *.
  destruct (bset_contains _ _) eqn:Hin; [done |]. apply bset_contains_false in Hin.
  destruct (_ <? _) eqn:Hlen; [done |]. injection Ha as <- <-. apply N.ltb_ge in Hlen.
  assert (Hnd : NoDup (id <$> rs1 ++ [r])).
  { rewrite fmap_app. apply NoDup_app. split_and!; [done | | by apply NoDup_singleton].
    intros x Hx ->%list_elem_of_singleton. by apply Hin, H4. }
  assert (Hsort : StronglySorted clt (bset_insert (id r) ids1)) by by apply bset_insert_sorted.
  assert (Hsame : forall x, x ∈ bset_insert (id r) ids1 <-> x ∈ id <$> rs1 ++ [r]).
  { intros x. rewrite elem_of_bset_insert, fmap_app. csimpl.
    rewrite elem_of_app, list_elem_of_singleton, H4. tauto. }
  split_and!; [| done | done | done |].
  - apply Forall_app. split; [done | by constructor].
  - cbn [fst]. rewrite <- (length_fmap id (rs1 ++ [r])).
    rewrite (Permutation_length (l' := bset_insert (id r) ids1)); [lia |].
    apply NoDup_Permutation; [done | by apply clt_sorted_NoDup | intros x; by rewrite Hsame].
Qed.

(** C26: whatever the configuration files, the variables and the options of the command line say,
    an accepted profile has at most 1024 repositories with distinct and valid ids, none of which
    turns off the verification of signatures or TLS certificates or pins something that is no
    fingerprint; the digest of every enabled one is that of its keys as they are on disk, and a
    disabled one has none. *)
Theorem profile_safe (cwd : list N) (w : world) (owner : N) (sha256 : list byte -> list byte)
    (parse_certs : list byte -> option (list (option string))) (main_path : string)
    (system : option SystemVariables) (options : list string) (p p' : MutationProfile.t)
    (Hload : load_mutation_profile_owned cwd w owner sha256 parse_certs main_path system = Ok p)
    (Hopts : apply_setopts sha256 w p options = Ok p') :
  id <$> MutationProfile.repositories p' = id <$> MutationProfile.repositories p /\
  NoDup (id <$> MutationProfile.repositories p') /\
  (length (MutationProfile.repositories p') <= 1024)%nat /\
  Forall (fun r => sound_repo r /\ bound sha256 w r) (MutationProfile.repositories p').
Proof.
  unfold load_mutation_profile_owned in Hload.
  apply bind_ok in Hload as (text & _ & (main & _ & ([vars n] & _ & (paths & _ & Hload)%bind_ok)%bind_ok)%bind_ok).
  apply bind_ok in Hload as ([rs ids] & Hfold & (out & Hexp & (bound_rs & Hbind & [= <-])%bind_ok)%bind_ok).
  apply fold_files_sound in Hfold as (Hsound & Hnd & Hlen);
    [| constructor | constructor | constructor | done | simpl; lia].
  unfold expand_variables in Hexp. apply bind_ok in Hexp as (expanded & Hexp & [= <-]).
  cbn [MutationProfile.repositories] in *.
  pose proof (mapM_frame _ _ _ _ (expand_repo_frame _) Hexp) as He.
  pose proof (mapM_frame _ _ _ _ (bind_keys_ok w sha256 parse_certs _) Hbind) as Hb.
  assert (Hids : id <$> bound_rs = id <$> rs).
  { clear -He Hb. revert bound_rs Hb. induction He as [|r r1 rs l (E & _) He IH]; intros l2 Hb.
    - by apply Forall2_nil_inv_l in Hb as ->.
    - apply Forall2_cons_inv_l in Hb as (r2 & l3 & (E2 & _) & Hb & ->). rewrite !fmap_cons. f_equal; [congruence |].
      by apply IH. }
  assert (Hall : Forall (fun r => sound_repo r /\ bound sha256 w r) bound_rs).
  { clear -He Hb Hsound. revert bound_rs Hb. induction He as [|r r1 rs l (E & _ & Hv) He IH]; intros l2 Hb.
    - by apply Forall2_nil_inv_l in Hb as ->.
    - apply Forall2_cons_inv_l in Hb as (r2 & l3 & (E2 & Hv2 & Hbound) & Hb & ->).
      apply Forall_cons in Hsound as [[Hi Hr] Hsound]. constructor; [| by apply IH].
      split; [| done]. split; [by rewrite E2, E | auto]. }
  unfold apply_setopts in Hopts.
  apply bind_ok in Hopts as ([p1 changed] & Hfold & (rs' & Hre & [= <-])%bind_ok).
  cbn [MutationProfile.repositories] in *.
  assert (Hinv : options_invariant w sha256 (id <$> rs) (p1, changed)).
  { refine (fold_result_ind _ (options_invariant w sha256 (id <$> rs)) _ _ _ _ _ Hfold).
    - split; [done |]. eapply Forall_impl; [exact Hall |]. cbn. intros r [? ?]. auto.
    - intros s1 o s2 _. apply setopt_step_invariant. }
  destruct Hinv as [Hids1 Hall1]. cbn [fst snd] in *. apply mapM_ok in Hre.
  assert (Hfinal : id <$> rs' = id <$> rs /\ Forall (fun r => sound_repo r /\ bound sha256 w r) rs').
  { rewrite <- Hids1. clear -Hre Hall1. induction Hre as [|r r' l l' Hr Hre IH]; [by split; [| constructor] |].
    apply Forall_cons in Hall1 as [[[Hi Hv] Hb] Hall1]. destruct (IH Hall1) as [E IH'].
    destruct (rebind_trust_ok w sha256 changed r r' Hr Hb) as (Ei & Hv' & Hb').
    rewrite !fmap_cons, Ei, E. split; [done |]. constructor; [| done].
    split; [| done]. split; [by rewrite Ei | auto]. }
  destruct Hfinal as [E Hf]. rewrite Hids, E. split_and!; [done | done | | done].
  by rewrite <- (length_fmap id rs'), E, length_fmap.
Qed.

Module ProfileExamples.
Import AnchoredExamples.

Definition main_file : string := unlines ["[main]"; "best=1"].
Definition fedora_file : string := unlines ["[fedora]"; "baseurl=https://a/$releasever/";
  "gpgkey=file:///etc/pki/rpm-gpg/fedora-$releasever"; "[extra]"; "enabled=0"].

Definition configured : world := list_to_map [
  (root_inode, directory 0 493 [("etc", 10)]);
  (10, directory 0 493 [("dnf", 11); ("yum.repos.d", 12); ("pki", 14)]);
  (11, directory 0 493 [("dnf.conf", 20)]);
  (12, directory 0 493 [("fedora.repo", 21)]);
  (14, directory 0 493 [("rpm-gpg", 15)]);
  (15, directory 0 493 [("fedora-44", 22)]);
  (20, regular 0 420 main_file);
  (21, regular 0 420 fedora_file);
  (22, regular 0 420 "certificate")].

(** A parser that knows one certificate. *)
Definition one_cert (content : list byte) : option (list (option string)) :=
  if decide (content = bytes "certificate")
  then Some [Some "0123456789ABCDEF0123456789ABCDEF01234567"] else None.

Definition loaded : mresult MutationProfile.t :=
  load_mutation_profile_owned [root_inode] configured 0 TrustExamples.identity_digest one_cert MAIN_PATH
    (Some (system_variables "44" "x86_64")).

Definition optioned : mresult MutationProfile.t :=
  p ← loaded; apply_setopts TrustExamples.identity_digest configured p
    ["repo.extra.gpgkey=/etc/pki/rpm-gpg/fedora-44"; "repo.extra.enabled=1"; "main.best=0"].

Lemma profile_safe_witness :
  match loaded, optioned with
  | Ok p, Ok p' => id <$> MutationProfile.repositories p' = ["fedora"; "extra"] /\
      Forall (fun r => sound_repo r /\ bound TrustExamples.identity_digest configured r)
        (MutationProfile.repositories p')
  | _, _ => False
  end.
Proof.
  pose proof (profile_safe [root_inode] configured 0 TrustExamples.identity_digest one_cert MAIN_PATH
    (Some (system_variables "44" "x86_64"))
    ["repo.extra.gpgkey=/etc/pki/rpm-gpg/fedora-44"; "repo.extra.enabled=1"; "main.best=0"]) as Hsafe.
  unfold optioned. change (load_mutation_profile_owned _ _ _ _ _ _ _) with loaded in Hsafe.
  destruct loaded as [p|] eqn:Hl; [| by vm_compute in Hl]. cbn [mbind result_mbind] in *.
  destruct (apply_setopts _ _ p _) as [p'|] eqn:Hp.
  - destruct (Hsafe p p' eq_refl Hp) as (Hids & _ & _ & Hall). split; [| exact Hall].
    rewrite Hids. assert (Hp0 : id <$> MutationProfile.repositories p = ["fedora"; "extra"]); [| done].
    assert (He : match loaded with Ok p => id <$> MutationProfile.repositories p | Err _ => [] end
      = ["fedora"; "extra"]) by (vm_compute; reflexivity).
    by rewrite Hl in He.
  - assert (He : is_ok optioned = true) by (vm_compute; reflexivity).
    unfold optioned in He. rewrite Hl in He. cbn [mbind result_mbind] in He. by rewrite Hp in He.
Defined.
End ProfileExamples.
