(* ===== verification/Modulemd.v ===== *)
(** * Module streams ([dnfast-planning]: error.rs, modulemd.rs)

    The catalog of modules made of the documents of the repositories, the recorded state of
    modules and its mutations.  The native parser of module documents and serde_json come before
    [catalog_from_raw]; ordered maps and sets are the sorted lists of the prelude. *)
From Stdlib Require Import Ascii.
From S2P Require Import Prelude.
From S2P Require Import RustStr.
From S2P Require Import Value.
From S2P Require Import UnixPath.

#[local] Open Scope N_scope.

Module PlanningError.
Inductive t : Type :=
  | NotRoot
  | UnsafeRoot (message : string)
  | UnsafeSnapshot (message : string)
  | Input (message : string)
  | Cache (message : string)
  | Io (message : string).

#[global] Instance planning_error_eq_dec : EqDecision t.
Proof. solve_decision. Defined.

Definition to_string (e : t) : string :=
  match e with
  | NotRoot => "dnfast planning publication requires EUID 0"
  | UnsafeRoot m => "planning root is unsafe: " +:+ m
  | UnsafeSnapshot m => "planning snapshot is unsafe: " +:+ m
  | Input m => "planning input is invalid: " +:+ m
  | Cache m => "planning cache is invalid: " +:+ m
  | Io m => "planning publication failed: " +:+ m
  end.
End PlanningError.

Notation presult := (result PlanningError.t).

Definition input {A} (message : string) : presult A := Err (PlanningError.Input message).

Definition MAX_MODULES : N := 16384.
Definition MAX_STREAMS : N := 131072.
Definition MAX_ARTIFACTS : N := 2000000.

(** ** Data *)

Module ModuleStateEntry.
Record t : Type := mk { name : string; stream : option string; disabled : bool }.
#[global] Instance module_state_entry_eq_dec : EqDecision t.
Proof. solve_decision. Defined.
End ModuleStateEntry.

Module ModuleState.
Record t : Type := mk { entries : list ModuleStateEntry.t }.
#[global] Instance module_state_eq_dec : EqDecision t.
Proof. solve_decision. Defined.
End ModuleState.

Inductive ModuleMutation : Type := Enable | Reset | Disable.

#[export] Instance module_mutation_eq_dec : EqDecision ModuleMutation.
Proof. solve_decision. Defined.

Module ModuleRequirement.
Record t : Type := mk { module : string; streams : list string }.
#[global] Instance module_requirement_eq_dec : EqDecision t.
Proof. solve_decision. Defined.
Definition key (r : t) : string * list string := (module r, streams r).
#[global] Instance module_requirement_ord : RustOrd t := ord_on key.
#[global] Instance module_requirement_ord_laws : RustOrdLaws t.
Proof. apply (ord_on_laws key). by intros [] [] [= -> ->]. Qed.
End ModuleRequirement.

Module ModuleDependencies.
Record t : Type := mk { requires : list ModuleRequirement.t }.
#[global] Instance module_dependencies_eq_dec : EqDecision t.
Proof. solve_decision. Defined.
#[global] Instance module_dependencies_ord : RustOrd t := ord_on requires.
#[global] Instance module_dependencies_ord_laws : RustOrdLaws t.
Proof. apply (ord_on_laws requires). by intros [] [] [= ->]. Qed.
End ModuleDependencies.

Module ModuleProfile.
Record t : Type := mk { name : string; description : string; rpms : list string }.
#[global] Instance module_profile_eq_dec : EqDecision t.
Proof. solve_decision. Defined.
End ModuleProfile.

Module ModuleStream.
Record t : Type := mk {
  name : string;
  summary : string;
  description : string;
  profiles : list ModuleProfile.t;
  artifacts : list string;
  dependencies : list ModuleDependencies.t
}.
End ModuleStream.

Module Module_.
Record t : Type := mk {
  name : string;
  default_stream : option string;
  streams : list (string * ModuleStream.t)
}.
End Module_.

Module ModuleCatalog.
Record t : Type := mk {
  modules : list (string * Module_.t);
  artifact_owners : list (string * (string * string))
}.
End ModuleCatalog.

Module RawProfile.
Record t : Type := mk { name : string; description : option string; rpms : list string }.
End RawProfile.

Module RawStream.
Record t : Type := mk {
  name : string;
  stream : string;
  version : N;
  context : string;
  arch : string;
  summary : option string;
  description : option string;
  profiles : list RawProfile.t;
  dependencies : list ModuleDependencies.t;
  artifacts : list string
}.
End RawStream.

Module RawModule.
Record t : Type := mk { name : string; default_stream : option string; streams : list RawStream.t }.
End RawModule.

Module LogicalStream.
Record t : Type := mk {
  latest_version : N;
  summary : string;
  description : string;
  profiles : list ModuleProfile.t;
  artifacts : list string;
  dependencies : list ModuleDependencies.t
}.
End LogicalStream.

(** ** Identifiers *)

Definition dash : byte := "-"%char.
Definition starts_with_dash (s : string) : bool := starts_with [dash] (bytes s).

Definition identifier (value kind : string) : presult unit :=
  if str_is_empty value || (4096 <? str_len value) || starts_with_dash value
     || existsb char_is_control (chars value) || existsb char_is_whitespace (chars value)
  then input (kind +:+ " is invalid") else Ok tt.

Definition trim_dashes (value : string) : string :=
  of_bytes (drop_while (fun b => bool_decide (b = dash)) (bytes value)).

Definition normalize_strings (values : list string) (kind : string) : presult (list string) :=
  _ ← for_each (fun value => identifier (trim_dashes value) kind) values;
  let values := sort values in
  if windows2_any (fun a b => bool_decide (a = b)) values
  then input (kind +:+ " values are duplicate") else Ok values.

(** [NAME] or [NAME:STREAM]. *)
Definition parse_spec (spec : string) : presult (string * option string) :=
  let parts := of_bytes <$> split_on ":"%char [] (bytes spec) in
  let name := default "" (head parts) in
  let stream := parts !! 1%nat in
  if bool_decide (is_Some (parts !! 2%nat)) then input "module spec must be NAME or NAME:STREAM"
  else
    _ ← identifier name "module spec name";
    _ ← match stream with Some stream => identifier stream "module spec stream" | None => Ok tt end;
    Ok (name, stream).

Definition matches_arch (value : string) (architecture : Architecture.t) : bool :=
  bool_decide (value = Architecture.as_rpm_arch architecture \/ value = "noarch").

Definition artifact_matches_architecture (value : string) (architecture : Architecture.t) : presult bool :=
  match str_rsplit_once "."%char value with
  | None => input ("module artifact lacks architecture: " +:+ value)
  | Some (_, arch) => Ok (matches_arch arch architecture)
  end.

(** ** The state of modules *)

Section state.
Import ModuleStateEntry.

Definition validate_entry (entry : ModuleStateEntry.t) : presult unit :=
  _ ← identifier (name entry) "module state name";
  _ ← match stream entry with Some stream => identifier stream "module state stream" | None => Ok tt end;
  if eqb (disabled entry) (bool_decide (is_Some (stream entry)))
  then input "module state entry has an invalid mode" else Ok tt.

Definition state_is_empty (state : ModuleState.t) : bool := bool_decide (ModuleState.entries state = []).

Definition validate_module_state (state : ModuleState.t) : presult unit :=
  if windows2_any (fun a b => geb (name a) (name b)) (ModuleState.entries state)
  then input "module state is not canonical"
  else for_each validate_entry (ModuleState.entries state).

Definition state_map (state : ModuleState.t) : list (string * ModuleStateEntry.t) :=
  bmap_of_list ((fun e => (name e, e)) <$> ModuleState.entries state).
End state.

(** ** The catalog *)

Section catalog.
Context (c : ModuleCatalog.t).

Definition module (name : string) : option Module_.t := bmap_lookup name (ModuleCatalog.modules c).

Definition find_entry (state : ModuleState.t) (name : string) : option ModuleStateEntry.t :=
  snd <$> list_find (fun e => ModuleStateEntry.name e = name) (ModuleState.entries state).

Definition active_stream (state : ModuleState.t) (name : string) : option string :=
  match find_entry state name with
  | Some entry => if ModuleStateEntry.disabled entry then None else ModuleStateEntry.stream entry
  | None => m ← module name; Module_.default_stream m
  end.

Definition requirement_satisfied (state : ModuleState.t) (r : ModuleRequirement.t) : bool :=
  match active_stream state (ModuleRequirement.module r) with
  | None => false
  | Some active =>
      negb (existsb starts_with_dash (ModuleRequirement.streams r))
      && existsb (fun allowed => bool_decide (allowed = active)) (ModuleRequirement.streams r)
  end.

Definition dependencies_satisfied (state : ModuleState.t) (alternatives : list ModuleDependencies.t) : bool :=
  bool_decide (alternatives = [])
  || existsb (fun a => forallb (requirement_satisfied state) (ModuleDependencies.requires a)) alternatives.

Definition entry_present (entry : ModuleStateEntry.t) : presult unit :=
  m ← ok_or (PlanningError.Input ("enabled module disappeared: " +:+ ModuleStateEntry.name entry))
        (module (ModuleStateEntry.name entry));
  match ModuleStateEntry.stream entry with
  | Some stream =>
      if bool_decide (is_Some (bmap_lookup stream (Module_.streams m))) then Ok tt
      else input ("enabled module stream disappeared: " +:+ ModuleStateEntry.name entry +:+ ":" +:+ stream)
  | None => Ok tt
  end.

Definition active_satisfied (state : ModuleState.t) (m : Module_.t) : presult unit :=
  match active_stream state (Module_.name m) with
  | None => Ok tt
  | Some stream_name =>
      stream ← ok_or (PlanningError.Input "active module stream is absent")
                 (bmap_lookup stream_name (Module_.streams m));
      if negb (dependencies_satisfied state (ModuleStream.dependencies stream))
      then input ("module dependencies are not satisfied: " +:+ Module_.name m +:+ ":" +:+ stream_name)
      else Ok tt
  end.

Definition validate_state (state : ModuleState.t) : presult unit :=
  _ ← validate_module_state state;
  _ ← for_each entry_present (ModuleState.entries state);
  for_each (active_satisfied state) (ModuleCatalog.modules c).*2.

(** ** Artifacts *)

Definition artifact_step (architecture : Architecture.t) (excluded : bool) (policies : list (string * bool))
    (artifact : string) : presult (list (string * bool)) :=
  matches ← artifact_matches_architecture artifact architecture;
  Ok (if matches : bool then bmap_insert artifact excluded policies else policies).

Definition stream_step (architecture : Architecture.t) (active : option string) (policies : list (string * bool))
    (s : string * ModuleStream.t) : presult (list (string * bool)) :=
  fold_result (artifact_step architecture (negb (bool_decide (active = Some s.1)))) policies
    (ModuleStream.artifacts s.2).

Definition module_step (state : ModuleState.t) (architecture : Architecture.t) (policies : list (string * bool))
    (m : Module_.t) : presult (list (string * bool)) :=
  fold_result (stream_step architecture (active_stream state (Module_.name m))) policies (Module_.streams m).

Definition artifact_policies (state : ModuleState.t) (architecture : Architecture.t) :
    presult (list (string * bool)) :=
  _ ← validate_state state;
  fold_result (module_step state architecture) [] (ModuleCatalog.modules c).*2.

Definition excluded_artifacts (state : ModuleState.t) (architecture : Architecture.t) : presult (list string) :=
  (fun policies : list (string * bool) => (base.filter (fun p => p.2 = true) policies).*1)
    <$> artifact_policies state architecture.

Definition artifact_owner (nevra : string) : option (string * string) :=
  bmap_lookup nevra (ModuleCatalog.artifact_owners c).
End catalog.

(** ** Mutations *)

Section mutations.
Context (c : ModuleCatalog.t).

Abbreviation entry_map := (list (string * ModuleStateEntry.t)).

Definition negative_stream (r : ModuleRequirement.t) : bool :=
  existsb starts_with_dash (ModuleRequirement.streams r).

Definition allowed_streams (m : Module_.t) (r : ModuleRequirement.t) : list string :=
  bset_of_list (base.filter (fun stream => starts_with_dash stream = false /\
    is_Some (bmap_lookup stream (Module_.streams m))) (ModuleRequirement.streams r)).

Definition select_requirement (entries : entry_map) (r : ModuleRequirement.t) : presult string :=
  m ← ok_or (PlanningError.Input ("required module not found: " +:+ ModuleRequirement.module r))
        (module c (ModuleRequirement.module r));
  let allowed := allowed_streams m r in
  if bool_decide (allowed = []) || negative_stream r
  then input "negative or empty module dependency streams are unsupported"
  else
    match bmap_lookup (ModuleRequirement.module r) entries with
    | Some entry =>
        match ModuleStateEntry.stream entry with
        | Some stream =>
            if negb (ModuleStateEntry.disabled entry) && bset_contains stream allowed then Ok stream
            else input "explicit module state conflicts with a dependency"
        | None => input "explicit module state conflicts with a dependency"
        end
    | None =>
        match Module_.default_stream m with
        | Some stream =>
            if bset_contains stream allowed then Ok stream
            else match allowed with [only] => Ok only | _ => input "module dependency stream is ambiguous" end
        | None => match allowed with [only] => Ok only | _ => input "module dependency stream is ambiguous" end
        end
    end.

Definition alternative_can_resolve (entries : entry_map) (a : ModuleDependencies.t) : bool :=
  forallb (fun r => is_ok (select_requirement entries r)) (ModuleDependencies.requires a).

Definition enabled_entry (name stream : string) : ModuleStateEntry.t :=
  ModuleStateEntry.mk name (Some stream) false.

(** One requirement of the chosen alternative: the entries and the queue. *)
Definition requirement_step (s : entry_map * list string) (r : ModuleRequirement.t) :
    presult (entry_map * list string) :=
  let '(entries, queue) := s in
  selected ← select_requirement entries r;
  let name := ModuleRequirement.module r in
  match bmap_lookup name entries with
  | Some existing =>
      if ModuleStateEntry.disabled existing || negb (bool_decide (ModuleStateEntry.stream existing = Some selected))
      then input ("module dependency conflicts with explicit state: " +:+ name)
      else Ok (entries, queue ++ [name])
  | None => Ok (bmap_insert name (enabled_entry name selected) entries, queue ++ [name])
  end.

(** The stream of a module that the entries or the defaults activate. *)
Definition entry_stream (entries : entry_map) (m : Module_.t) (name : string) : presult string :=
  stream ← match bmap_lookup name entries with
           | Some entry =>
               if ModuleStateEntry.disabled entry then input ("enabled module is disabled: " +:+ name)
               else Ok (ModuleStateEntry.stream entry)
           | None => Ok (Module_.default_stream m)
           end;
  ok_or (PlanningError.Input ("module has no active stream: " +:+ name)) stream.

(** The body of the loop for a module that was not visited. *)
Definition visit (entries : entry_map) (queue : list string) (name : string) :
    presult (entry_map * list string) :=
  m ← ok_or (PlanningError.Input "module disappeared") (module c name);
  stream_name ← entry_stream entries m name;
  stream ← ok_or (PlanningError.Input "module stream disappeared") (bmap_lookup stream_name (Module_.streams m));
  if bool_decide (ModuleStream.dependencies stream = []) then Ok (entries, queue)
  else
    match base.filter (fun a => alternative_can_resolve entries a = true) (ModuleStream.dependencies stream) with
    | [] => input ("module dependency conflict: " +:+ name +:+ ":" +:+ stream_name)
    | alternative :: _ =>
        fold_result requirement_step (entries, queue) (ModuleDependencies.requires alternative)
    end.

(** The work list; [None] when the fuel runs out, which [complete_dependencies] never lets happen. *)
Fixpoint complete_loop (fuel : nat) (entries : entry_map) (queue visited : list string) :
    option (presult entry_map) :=
  match queue with
  | [] => Some (Ok entries)
  | name :: queue =>
      match fuel with
      | O => None
      | S fuel =>
          if bset_contains name visited then complete_loop fuel entries queue visited
          else
            match visit entries queue name with
            | Err e => Some (Err e)
            | Ok (entries, queue) => complete_loop fuel entries queue (bset_insert name visited)
            end
      end
  end.

(** Every requirement of every stream can be queued once. *)
Definition stream_weight (s : ModuleStream.t) : nat :=
  sum_list ((fun a => length (ModuleDependencies.requires a)) <$> ModuleStream.dependencies s).
Definition module_weight (m : Module_.t) : nat := sum_list (stream_weight <$> (Module_.streams m).*2).
Definition catalog_weight : nat := sum_list (module_weight <$> (ModuleCatalog.modules c).*2).

Definition complete_dependencies (entries : entry_map) (roots : list string) : presult entry_map :=
  default (input "unreachable") (complete_loop (length roots + catalog_weight) entries roots []).

(** One specification: the entries and the names requested. *)
Definition mutate_step (operation : ModuleMutation) (s : entry_map * list string) (spec : string) :
    presult (entry_map * list string) :=
  let '(entries, requested) := s in
  '(name, requested_stream) ← parse_spec spec;
  if bset_contains name requested then input "module mutation specifications are duplicate"
  else
    let requested := bset_insert name requested in
    m ← ok_or (PlanningError.Input ("module not found: " +:+ name)) (module c name);
    _ ← match requested_stream with
        | Some stream =>
            if bool_decide (is_Some (bmap_lookup stream (Module_.streams m))) then Ok tt
            else input ("module stream not found: " +:+ name +:+ ":" +:+ stream)
        | None => Ok tt
        end;
    match operation with
    | Enable =>
        stream ← ok_or (PlanningError.Input ("module stream must be specified: " +:+ name +:+ ":STREAM"))
                   (match requested_stream with Some s => Some s | None => Module_.default_stream m end);
        Ok (bmap_insert name (enabled_entry name stream) entries, requested)
    | Reset => Ok (bmap_remove name entries, requested)
    | Disable => Ok (bmap_insert name (ModuleStateEntry.mk name None true) entries, requested)
    end.

Definition mutate (current : ModuleState.t) (operation : ModuleMutation) (specs : list string) :
    presult ModuleState.t :=
  _ ← validate_module_state current;
  if bool_decide (specs = []) then input "module mutation requires at least one specification"
  else
    '(entries, requested) ← fold_result (mutate_step operation) (state_map current, []) specs;
    entries ← (if bool_decide (operation = Enable) then complete_dependencies entries requested else Ok entries);
    let state := ModuleState.mk entries.*2 in
    _ ← validate_state c state;
    Ok state.
End mutations.

(** ** The catalog of the documents *)

Abbreviation stream_map := (list (string * LogicalStream.t)).

Section from_raw.
Context (architecture : Architecture.t).

Definition normalize_profile (p : RawProfile.t) : presult ModuleProfile.t :=
  _ ← identifier (RawProfile.name p) "module profile";
  rpms ← normalize_strings (RawProfile.rpms p) "module profile RPM";
  Ok (ModuleProfile.mk (RawProfile.name p) (default "" (RawProfile.description p)) rpms).

Definition profile_cmp (a b : ModuleProfile.t) : comparison := cmp (ModuleProfile.name a) (ModuleProfile.name b).

Definition normalize_profiles (raw : list RawProfile.t) : presult (list ModuleProfile.t) :=
  profiles ← mapM normalize_profile raw;
  let profiles := sort_by profile_cmp profiles in
  if windows2_any (fun a b => bool_decide (ModuleProfile.name a = ModuleProfile.name b)) profiles
  then input "module profiles are duplicate" else Ok profiles.

Definition normalize_requirement (r : ModuleRequirement.t) : presult ModuleRequirement.t :=
  _ ← identifier (ModuleRequirement.module r) "required module";
  streams ← normalize_strings (ModuleRequirement.streams r) "required module stream";
  Ok (ModuleRequirement.mk (ModuleRequirement.module r) streams).

Definition requirement_cmp (a b : ModuleRequirement.t) : comparison :=
  cmp (ModuleRequirement.module a) (ModuleRequirement.module b).

Definition normalize_alternative (a : ModuleDependencies.t) : presult ModuleDependencies.t :=
  requires ← mapM normalize_requirement (ModuleDependencies.requires a);
  let requires := sort_by requirement_cmp requires in
  if windows2_any (fun a b => bool_decide (ModuleRequirement.module a = ModuleRequirement.module b)) requires
  then input "module dependency requirements are duplicate" else Ok (ModuleDependencies.mk requires).

Definition normalize_dependencies (values : list ModuleDependencies.t) : presult (list ModuleDependencies.t) :=
  values ← mapM normalize_alternative values;
  Ok (dedup (sort values)).

(** The modules read, with their default streams, and the numbers of streams and artifacts. *)
Record raw_state : Type := raw_mk {
  raw_modules : list (string * (option string * stream_map));
  stream_count : N;
  artifact_count : N
}.

Definition merge_stream (module_name stream_name : string) (streams : stream_map) (incoming : LogicalStream.t) :
    presult stream_map :=
  match bmap_lookup stream_name streams with
  | None => Ok (bmap_insert stream_name incoming streams)
  | Some existing =>
      if negb (bool_decide (LogicalStream.dependencies existing = LogicalStream.dependencies incoming))
         || negb (bool_decide (LogicalStream.profiles existing = LogicalStream.profiles incoming))
      then input ("module stream contexts have incompatible policy: " +:+ module_name +:+ ":" +:+ stream_name)
      else
        let artifacts := foldl (fun s a => bset_insert a s) (LogicalStream.artifacts existing)
                           (LogicalStream.artifacts incoming) in
        let newest := if LogicalStream.latest_version existing <? LogicalStream.latest_version incoming
                      then incoming else existing in
        Ok (bmap_insert stream_name
              (LogicalStream.mk (LogicalStream.latest_version newest) (LogicalStream.summary newest)
                (LogicalStream.description newest) (LogicalStream.profiles existing) artifacts
                (LogicalStream.dependencies existing)) streams)
  end.

(** One stream of a module: the streams of the module and the two counts. *)
Definition raw_stream_step (module_name : string) (s : stream_map * N * N) (raw : RawStream.t) :
    presult (stream_map * N * N) :=
  let '(streams, stream_count, artifact_count) := s in
  if negb (bool_decide (RawStream.name raw = module_name))
  then input "module stream name differs from its module"
  else
    _ ← identifier (RawStream.stream raw) "module stream";
    _ ← identifier (RawStream.context raw) "module context";
    _ ← identifier (RawStream.arch raw) "module architecture";
    if negb (matches_arch (RawStream.arch raw) architecture) then Ok s
    else
      let stream_count := stream_count + 1 in
      if MAX_STREAMS <? stream_count then input "module catalog exceeds stream limit"
      else
        artifacts ← normalize_strings (RawStream.artifacts raw) "module artifact";
        artifact_count ← ok_or (PlanningError.Input "module artifact count overflow")
                           (u64_checked_add artifact_count (N.of_nat (length artifacts)));
        if MAX_ARTIFACTS <? artifact_count then input "module catalog exceeds artifact limit"
        else
          dependencies ← normalize_dependencies (RawStream.dependencies raw);
          profiles ← normalize_profiles (RawStream.profiles raw);
          streams ← merge_stream module_name (RawStream.stream raw) streams
                      (LogicalStream.mk (RawStream.version raw) (default "" (RawStream.summary raw))
                        (default "" (RawStream.description raw)) profiles (bset_of_list artifacts) dependencies);
          Ok (streams, stream_count, artifact_count).

Definition merge_default (name : string) (left right : option string) : presult (option string) :=
  match left, right with
  | Some l, Some r =>
      if negb (bool_decide (l = r)) then input ("repository module defaults conflict: " +:+ name) else Ok left
  | None, Some _ => Ok right
  | _, None => Ok left
  end.

Definition raw_module_step (s : raw_state) (raw : RawModule.t) : presult raw_state :=
  let name := RawModule.name raw in
  _ ← identifier name "module name";
  _ ← match RawModule.default_stream raw with
      | Some d => identifier d "module default stream"
      | None => Ok tt
      end;
  let '(module_default, streams) :=
    default (RawModule.default_stream raw, []) (bmap_lookup name (raw_modules s)) in
  module_default ← merge_default name module_default (RawModule.default_stream raw);
  '(streams, streams_read, artifacts_read) ←
    fold_result (raw_stream_step name) (streams, stream_count s, artifact_count s) (RawModule.streams raw);
  Ok (raw_mk (bmap_insert name (module_default, streams) (raw_modules s)) streams_read artifacts_read).

(** The owners of the artifacts of one stream. *)
Definition owner_step (name stream_name : string) (owners : list (string * (string * string)))
    (artifact : string) : presult (list (string * (string * string))) :=
  match bmap_lookup artifact owners with
  | Some previous =>
      if negb (bool_decide (previous = (name, stream_name)))
      then input ("module artifact belongs to multiple streams: " +:+ artifact)
      else Ok (bmap_insert artifact (name, stream_name) owners)
  | None => Ok (bmap_insert artifact (name, stream_name) owners)
  end.

Definition final_stream (stream_name : string) (s : LogicalStream.t) : ModuleStream.t :=
  ModuleStream.mk stream_name (LogicalStream.summary s) (LogicalStream.description s)
    (LogicalStream.profiles s) (LogicalStream.artifacts s) (LogicalStream.dependencies s).

Definition final_stream_step (name : string)
    (s : list (string * ModuleStream.t) * list (string * (string * string))) (p : string * LogicalStream.t) :
    presult (list (string * ModuleStream.t) * list (string * (string * string))) :=
  let '(streams, owners) := s in
  owners ← fold_result (owner_step name p.1) owners (LogicalStream.artifacts p.2);
  Ok (bmap_insert p.1 (final_stream p.1 p.2) streams, owners).

Definition final_module_step (s : ModuleCatalog.t) (p : string * (option string * stream_map)) :
    presult ModuleCatalog.t :=
  let '(name, (default_stream, streams)) := p in
  _ ← match default_stream with
      | Some d =>
          if bool_decide (is_Some (bmap_lookup d streams)) then Ok tt
          else input ("module default stream is absent: " +:+ name +:+ ":" +:+ d)
      | None => Ok tt
      end;
  '(final_streams, owners) ← fold_result (final_stream_step name) ([], ModuleCatalog.artifact_owners s) streams;
  Ok (ModuleCatalog.mk
        (bmap_insert name (Module_.mk name default_stream final_streams) (ModuleCatalog.modules s)) owners).

Definition catalog_from_raw (modules : list RawModule.t) : presult ModuleCatalog.t :=
  if MAX_MODULES <? N.of_nat (length modules) then input "module catalog exceeds module limit"
  else
    s ← fold_result raw_module_step (raw_mk [] 0 0) modules;
    fold_result final_module_step (ModuleCatalog.mk [] []) (raw_modules s).
End from_raw.
