(* ===== verification/ModulemdFacts.v ===== *)
(** * Facts about module streams: the work list ends, mutations are minimal, artifacts follow
    the active streams *)
From S2P Require Import Prelude.
From S2P Require Import RustStr.
From S2P Require Import Value.
From S2P Require Import UnixPath.
From S2P Require Import Modulemd.

(** ** The work list *)

Module CompletionFacts.
Section facts.
Context (c : ModuleCatalog.t).

Abbreviation entry_map := (list (string * ModuleStateEntry.t)).

Lemma sum_list_elem (l : list nat) x : x ∈ l -> x <= sum_list l.
Proof. induction l as [|y l IH]; [by intros ?%not_elem_of_nil |]. intros [->|Hx]%elem_of_cons; simpl; [lia |]. apply IH in Hx. lia. Qed.

(** The weight of the modules that were not visited. *)
Definition unvisited_weight (visited : list string) : nat :=
  sum_list ((fun p => module_weight p.2) <$>
    base.filter (fun p : string * Module_.t => p.1 ∉ visited) (ModuleCatalog.modules c)).

Lemma unvisited_weight_visit visited name m :
  module c name = Some m -> name ∉ visited ->
  unvisited_weight (bset_insert name visited) + module_weight m <= unvisited_weight visited.
Proof.
  unfold module, unvisited_weight. intros Hm%bmap_lookup_elem Hn. revert Hm.
  assert (Hmono : forall l : list (string * Module_.t),
    sum_list ((fun p => module_weight p.2) <$> base.filter (fun p => p.1 ∉ bset_insert name visited) l) <=
    sum_list ((fun p => module_weight p.2) <$> base.filter (fun p => p.1 ∉ visited) l)).
  { induction l as [|p l IH]; [done |]. rewrite !filter_cons.
    destruct (decide (p.1 ∉ bset_insert name visited)) as [H1|H1].
    - rewrite decide_True by (intros Hin; apply H1, elem_of_bset_insert; by right). csimpl. lia.
    - case_decide; csimpl; lia. }
  induction (ModuleCatalog.modules c) as [|p l IH]; [by intros ?%not_elem_of_nil |].
  intros [<-|Hin]%elem_of_cons; rewrite !filter_cons; cbn [fst].
  - rewrite decide_False by (intros H1; apply H1, elem_of_bset_insert; by left).
    rewrite decide_True by done. csimpl. specialize (Hmono l). lia.
  - specialize (IH Hin). destruct (decide (p.1 ∉ bset_insert name visited)) as [H1|H1].
    + rewrite decide_True by (intros Hv; apply H1, elem_of_bset_insert; by right). csimpl. lia.
    + case_decide; csimpl; lia.
Qed.

Lemma requirement_fold_queue rs : forall entries queue entries' queue',
  fold_result (requirement_step c) (entries, queue) rs = Ok (entries', queue') ->
  length queue' = length queue + length rs.
Proof.
  induction rs as [|r rs IH]; intros entries queue entries' queue'; simpl.
  { intros [= _ <-]. lia. }
  intros ([entries1 queue1] & Hs & Hf)%bind_ok. apply IH in Hf as ->.
  unfold requirement_step in Hs. apply bind_ok in Hs as (sel & _ & Hs).
  assert (Hq : queue1 = queue ++ [ModuleRequirement.module r]).
  { destruct (bmap_lookup _ _); [destruct (_ || _); [done |] |]; by injection Hs as _ <-. }
  rewrite Hq, length_app. simpl. lia.
Qed.

Lemma visit_queue entries queue name entries' queue' m :
  module c name = Some m -> visit c entries queue name = Ok (entries', queue') ->
  length queue' <= length queue + module_weight m.
Proof.
  intros Hm. unfold visit. rewrite Hm. simpl. intros (sn & _ & (st & Hst%ok_or_ok & Hv)%bind_ok)%bind_ok.
  case_bool_decide; [injection Hv as _ <-; lia |].
  destruct (base.filter _ _) as [|alt rest] eqn:Hf; [done |].
  apply requirement_fold_queue in Hv as ->.
  assert (Halt : alt ∈ ModuleStream.dependencies st).
  { assert (Hin : alt ∈ alt :: rest) by left. rewrite <- Hf in Hin. by apply list_elem_of_filter in Hin as [_ ?]. }
  assert (H1 : length (ModuleDependencies.requires alt) <= stream_weight st).
  { apply sum_list_elem, list_elem_of_fmap. by exists alt. }
  assert (H2 : stream_weight st <= module_weight m).
  { apply sum_list_elem, list_elem_of_fmap. exists st. split; [done |].
    apply list_elem_of_fmap. exists (sn, st). split; [done |]. by apply bmap_lookup_elem. }
  lia.
Qed.

Lemma complete_loop_ends fuel : forall entries queue visited,
  length queue + unvisited_weight visited <= fuel -> is_Some (complete_loop c fuel entries queue visited).
Proof.
  induction fuel as [|fuel IH]; intros entries [|name queue] visited Hf; simpl in *;
    [by eexists | lia | by eexists |].
  destruct (bset_contains name visited) eqn:Hv; [apply IH; lia |]. apply bset_contains_false in Hv.
  destruct (visit c entries queue name) as [[entries' queue']|e] eqn:Hvisit; [| by eexists].
  destruct (module c name) as [m|] eqn:Hm.
  - pose proof (visit_queue _ _ _ _ _ _ Hm Hvisit). pose proof (unvisited_weight_visit visited name m Hm Hv).
    apply IH. lia.
  - unfold visit in Hvisit. by rewrite Hm in Hvisit.
Qed.

Lemma unvisited_weight_nil : unvisited_weight [] = catalog_weight c.
Proof.
  unfold unvisited_weight, catalog_weight. rewrite filter_all by (intros x _; apply not_elem_of_nil).
  by rewrite <- list_fmap_compose.
Qed.

Lemma complete_dependencies_loop entries roots :
  complete_loop c (length roots + catalog_weight c) entries roots [] = Some (complete_dependencies c entries roots).
Proof.
  unfold complete_dependencies.
  destruct (complete_loop_ends (length roots + catalog_weight c) entries roots []) as [r Hr].
  { by rewrite unvisited_weight_nil. }
  by rewrite Hr.
Qed.

(** C22: completing the dependencies of enabled modules always ends, within as many turns as
    there are roots and requirements in the catalog, even when modules require one another in a
    circle. *)
Theorem complete_dependencies_ends (entries : entry_map) (roots : list string) :
  exists r, complete_loop c (length roots + catalog_weight c) entries roots [] = Some r /\
    complete_dependencies c entries roots = r.
Proof.
  exists (complete_dependencies c entries roots). split; [apply complete_dependencies_loop | done].
Qed.
End facts.
End CompletionFacts.

(** ** Mutations *)

Module MutationFacts.
Section facts.
Context (c : ModuleCatalog.t).

Abbreviation entry_map := (list (string * ModuleStateEntry.t)).

(** Sorted, and every entry is under its name. *)
Definition named (entries : entry_map) : Prop :=
  StronglySorted clt entries.*1 /\ Forall (fun p => ModuleStateEntry.name p.2 = p.1) entries.

Lemma named_insert entries name e :
  named entries -> ModuleStateEntry.name e = name -> named (bmap_insert name e entries).
Proof.
  intros [Hs Hn] He. split; [by apply bmap_insert_sorted |]. apply Forall_forall. intros p Hp.
  apply elem_of_bmap_insert in Hp as [->|[_ Hp]]; [done | | done]. rewrite Forall_forall in Hn. by apply Hn.
Qed.

Lemma named_remove entries name : named entries -> named (bmap_remove name entries).
Proof.
  intros [Hs Hn]. split; [by apply bmap_remove_sorted |]. apply Forall_forall. intros p Hp.
  apply elem_of_bmap_remove in Hp as [_ Hp]. rewrite Forall_forall in Hn. by apply Hn.
Qed.

(** The entry of a name in the list of entries is that of the map. *)
Lemma find_entry_named entries name :
  named entries -> find_entry (ModuleState.mk entries.*2) name = bmap_lookup name entries.
Proof.
  intros [Hs Hn]. unfold find_entry. simpl. clear Hs. induction entries as [|[k e] entries IH]; [done |].
  apply Forall_cons in Hn as [Hk Hn]. simpl in Hk. specialize (IH Hn). csimpl.
  destruct (decide (ModuleStateEntry.name e = name)) as [He|He].
  - subst. by rewrite cmp_refl.
  - assert (Hf : is_eq (cmp name k) = false).
    { destruct (cmp name k) eqn:E; try done. apply cmp_eq in E. congruence. }
    rewrite Hf, <- IH. by destruct (list_find _ entries.*2) as [[? ?]|].
Qed.

(** The map of a canonical state. *)
Lemma windows2_geb_names l :
  windows2_any (fun a b : ModuleStateEntry.t => geb (ModuleStateEntry.name a) (ModuleStateEntry.name b)) l = false ->
  StronglySorted clt (ModuleStateEntry.name <$> l).
Proof.
  intros Hw. apply windows2_geb_sorted. rewrite <- Hw. clear Hw.
  induction l as [|a [|b l] IH]; [done | done |]. csimpl in *. cbn [windows2_any] in *. by rewrite IH.
Qed.

Lemma state_map_named st :
  validate_module_state st = Ok tt -> state_map st = (fun e => (ModuleStateEntry.name e, e)) <$> ModuleState.entries st /\
    named (state_map st) /\ forall name, bmap_lookup name (state_map st) = find_entry st name.
Proof.
  unfold validate_module_state. destruct (windows2_any _ _) eqn:Hw; [done |]. intros _.
  apply windows2_geb_names in Hw. unfold state_map. destruct st as [l]. simpl in *.
  assert (Hk : ((fun e => (ModuleStateEntry.name e, e)) <$> l).*1 = ModuleStateEntry.name <$> l)
    by (by rewrite <- list_fmap_compose).
  assert (Hv : ((fun e => (ModuleStateEntry.name e, e)) <$> l).*2 = l)
    by (rewrite <- list_fmap_compose; apply list_fmap_id).
  rewrite bmap_of_list_id by (by rewrite Hk).
  assert (Hn : named ((fun e => (ModuleStateEntry.name e, e)) <$> l)).
  { split; [by rewrite Hk |]. apply Forall_fmap, Forall_true. by intros e. }
  split_and!; [done | done |]. intros name. by rewrite <- find_entry_named, Hv.
Qed.

(** ** Dependencies *)

(** A module that is not disabled is active through a stream one of whose alternatives wants
    [stream] of [name]. *)
Definition needed (entries : entry_map) (name stream : string) : Prop :=
  exists n e s m ms a r, bmap_lookup n entries = Some e /\ ModuleStateEntry.disabled e = false /\
    ModuleStateEntry.stream e = Some s /\ module c n = Some m /\ bmap_lookup s (Module_.streams m) = Some ms /\
    a ∈ ModuleStream.dependencies ms /\ r ∈ ModuleDependencies.requires a /\
    ModuleRequirement.module r = name /\ stream ∈ ModuleRequirement.streams r.

Definition extends (base entries : entry_map) : Prop :=
  forall name e, bmap_lookup name base = Some e -> bmap_lookup name entries = Some e.

Lemma needed_extends base entries name stream : extends base entries -> needed base name stream -> needed entries name stream.
Proof. intros He (n & e & s & m & ms & a & r & Hl & H). exists n, e, s, m, ms, a, r. split; [by apply He | done]. Qed.

(** What the completion keeps: every entry of [base], and only entries that are needed. *)
Definition completed (base entries : entry_map) : Prop :=
  named entries /\ extends base entries /\
  forall name e, bmap_lookup name base = None -> bmap_lookup name entries = Some e ->
    exists stream, e = enabled_entry name stream /\ needed entries name stream.

Lemma select_requirement_stream entries r s : select_requirement c entries r = Ok s -> s ∈ ModuleRequirement.streams r.
Proof.
  unfold select_requirement. intros (m & _ & Hs)%bind_ok.
  assert (Hall : forall x, x ∈ allowed_streams m r -> x ∈ ModuleRequirement.streams r).
  { intros x Hx. unfold allowed_streams in Hx. apply (proj1 (elem_of_bset_of_list _ _)) in Hx.
    by apply list_elem_of_filter in Hx as [_ ?]. }
  destruct (_ || _); [done |]. destruct (bmap_lookup _ _) as [e|].
  - destruct (ModuleStateEntry.stream e) as [s'|]; [| done]. destruct (_ && _) eqn:E; [| done].
    injection Hs as <-. apply andb_true_iff in E as [_ E]. by apply Hall, bset_contains_spec.
  - assert (Hone : match allowed_streams m r with [only] => Ok only | _ => input "module dependency stream is ambiguous" end
      = Ok s -> s ∈ ModuleRequirement.streams r).
    { destruct (allowed_streams m r) as [|o [|? ?]] eqn:Ha; try done. intros [= <-]. apply Hall. left. }
    destruct (Module_.default_stream m) as [d|]; [| by apply Hone].
    destruct (bset_contains _ _) eqn:E; [| by apply Hone]. injection Hs as <-. by apply Hall, bset_contains_spec.
Qed.

Lemma requirement_step_completed base entries queue r entries' queue' :
  completed base entries -> (forall n, n ∈ queue -> is_Some (bmap_lookup n entries)) ->
  (forall s, s ∈ ModuleRequirement.streams r -> needed entries (ModuleRequirement.module r) s) ->
  requirement_step c (entries, queue) r = Ok (entries', queue') ->
  completed base entries' /\ extends entries entries' /\ (forall n, n ∈ queue' -> is_Some (bmap_lookup n entries')).
Proof.
  intros Hc Hq Hneed. pose proof Hc as (Hn & He & Hnew). unfold requirement_step. intros (s & Hsel%select_requirement_stream & Hs)%bind_ok.
  destruct (bmap_lookup _ _) as [existing|] eqn:Hl.
  - destruct (_ || _); [done |]. injection Hs as <- <-. split_and!; [done | by intros ? ? |].
    intros n [Hin | ->%list_elem_of_singleton]%elem_of_app; [by apply Hq | by eexists].
  - injection Hs as <- <-. set (name := ModuleRequirement.module r) in *.
    assert (Hext : extends entries (bmap_insert name (enabled_entry name s) entries)).
    { intros n e Hne. rewrite bmap_lookup_insert_ne; [done |]. intros ->. congruence. }
    split_and!; [| done |].
    + split_and!; [by apply named_insert | |].
      * intros n e Hb%He. by apply Hext.
      * intros n e Hb Hne. destruct (decide (name = n)) as [<-|Hnn].
        -- rewrite bmap_lookup_insert_eq in Hne. injection Hne as <-. exists s. split; [done |].
           by apply (needed_extends entries), Hneed.
        -- rewrite bmap_lookup_insert_ne in Hne by done. destruct (Hnew n e Hb Hne) as (st & -> & Hnd).
           exists st. split; [done |]. by apply (needed_extends entries).
    + intros n [Hin | ->%list_elem_of_singleton]%elem_of_app.
      * destruct (Hq n Hin) as [e Hne]. exists e. by apply Hext.
      * rewrite bmap_lookup_insert_eq. by eexists.
Qed.

Lemma visit_completed base entries queue name entries' queue' :
  completed base entries -> (forall n, n ∈ name :: queue -> is_Some (bmap_lookup n entries)) ->
  visit c entries queue name = Ok (entries', queue') ->
  completed base entries' /\ (forall n, n ∈ queue' -> is_Some (bmap_lookup n entries')).
Proof.
  intros Hc Hq. unfold visit. intros (m & Hm%ok_or_ok & (sn & Hsn & (ms & Hms%ok_or_ok & Hv)%bind_ok)%bind_ok)%bind_ok.
  case_bool_decide as Hd.
  { injection Hv as <- <-. split; [done |]. intros n Hn. apply Hq. by right. }
  destruct (base.filter _ _) as [|alt rest] eqn:Hf; [done |].
  assert (Halt : alt ∈ ModuleStream.dependencies ms).
  { assert (Hin : alt ∈ alt :: rest) by left. rewrite <- Hf in Hin. by apply list_elem_of_filter in Hin as [_ ?]. }
  assert (Hneed : forall r s, r ∈ ModuleDependencies.requires alt -> s ∈ ModuleRequirement.streams r ->
    needed entries (ModuleRequirement.module r) s).
  { intros r s Hr Hs. destruct (Hq name) as [e He]; [by left |]. unfold entry_stream in Hsn.
    rewrite He in Hsn. destruct (ModuleStateEntry.disabled e) eqn:Hdis; [done |]. simpl in Hsn.
    apply ok_or_ok in Hsn. by exists name, e, sn, m, ms, alt, r. }
  set (P := fun s : entry_map * list string => completed base s.1 /\ extends entries s.1 /\
    forall n, n ∈ s.2 -> is_Some (bmap_lookup n s.1)).
  enough (HP : P (entries', queue')) by (destruct HP as (? & _ & ?); done).
  refine (fold_result_ind _ P _ _ _ _ _ Hv).
  - split_and!; [done | by intros ? ? | intros n Hn; apply Hq; by right].
  - intros [e1 q1] r [e2 q2] Hr (H1 & H2 & H3) Hs.
    destruct (requirement_step_completed base e1 q1 r e2 q2 H1 H3) as (H4 & H5 & H6); [| done |].
    + intros s Hin. eapply needed_extends; [exact H2 |]. by apply Hneed.
    + split_and!; [done | | done]. intros n e Hne. by apply H5, H2.
Qed.

Lemma complete_loop_completed base fuel : forall entries queue visited entries',
  completed base entries -> (forall n, n ∈ queue -> is_Some (bmap_lookup n entries)) ->
  complete_loop c fuel entries queue visited = Some (Ok entries') -> completed base entries'.
Proof.
  induction fuel as [|fuel IH]; intros entries [|name queue] visited entries' Hc Hq; simpl;
    [by intros [= <-] | done | by intros [= <-] |].
  destruct (bset_contains name visited).
  - apply IH; [done |]. intros n Hn. apply Hq. by right.
  - destruct (visit c entries queue name) as [[e1 q1]|] eqn:Hv; [| done].
    destruct (visit_completed _ _ _ _ _ _ Hc Hq Hv) as [Hc1 Hq1]. by apply IH.
Qed.

Lemma complete_dependencies_completed base roots entries :
  named base -> (forall n, n ∈ roots -> is_Some (bmap_lookup n base)) ->
  complete_dependencies c base roots = Ok entries -> completed base entries.
Proof.
  intros Hn Hroots Hc. pose proof (CompletionFacts.complete_dependencies_loop c base roots) as Hloop.
  rewrite Hc in Hloop. eapply complete_loop_completed; [| exact Hroots | exact Hloop].
  split_and!; [done | by intros ? ? |]. intros name e. by intros ->.
Qed.

(** ** A whole mutation *)

(** What the operation makes of a name it was given. *)
Definition outcome (operation : ModuleMutation) (name : string) (stream : option string)
    (o : option ModuleStateEntry.t) : Prop :=
  match operation with
  | Reset => o = None
  | Disable => o = Some (ModuleStateEntry.mk name None true)
  | Enable => exists m s, module c name = Some m /\
      (match stream with Some s => Some s | None => Module_.default_stream m end) = Some s /\
      o = Some (enabled_entry name s)
  end.

Definition mutated (operation : ModuleMutation) (base : entry_map) (specs : list string)
    (s : entry_map * list string) : Prop :=
  exists asked : list (string * option string), Forall2 (fun spec a => parse_spec spec = Ok a) specs asked /\
    NoDup asked.*1 /\ (forall n, n ∈ s.2 <-> n ∈ asked.*1) /\ named s.1 /\
    (forall n, n ∉ asked.*1 -> bmap_lookup n s.1 = bmap_lookup n base) /\
    forall n stream, (n, stream) ∈ asked -> outcome operation n stream (bmap_lookup n s.1).

(** The entries after one specification. *)
Lemma mutate_step_entries operation entries requested spec s' :
  mutate_step c operation (entries, requested) spec = Ok s' ->
  exists name stream, parse_spec spec = Ok (name, stream) /\ name ∉ requested /\
    s'.2 = bset_insert name requested /\ (named entries -> named s'.1) /\
    (forall n, n <> name -> bmap_lookup n s'.1 = bmap_lookup n entries) /\
    outcome operation name stream (bmap_lookup name s'.1).
Proof.
  unfold mutate_step. intros ([name stream] & Hp & Hs)%bind_ok. destruct (bset_contains _ _) eqn:Hin; [done |].
  apply bset_contains_false in Hin. exists name, stream.
  apply bind_ok in Hs as (m & Hm%ok_or_ok & (u & _ & Hs)%bind_ok).
  destruct operation.
  - apply bind_ok in Hs as (s & Hst%ok_or_ok & [= <-]). cbn [fst snd]. split_and!; try done.
    + intros Hn. by apply named_insert.
    + intros n Hne. by rewrite bmap_lookup_insert_ne.
    + exists m, s. by rewrite bmap_lookup_insert_eq.
  - injection Hs as <-. cbn [fst snd]. split_and!; try done; [by apply named_remove | |].
    + intros n Hne. by rewrite bmap_lookup_remove_ne.
    + simpl. apply bmap_lookup_remove_eq.
  - injection Hs as <-. cbn [fst snd]. split_and!; try done.
    + intros Hn. by apply named_insert.
    + intros n Hne. by rewrite bmap_lookup_insert_ne.
    + simpl. by rewrite bmap_lookup_insert_eq.
Qed.

Lemma mutate_fold operation base specs s :
  named base -> fold_result (mutate_step c operation) (base, []) specs = Ok s -> mutated operation base specs s.
Proof.
  intros Hb. apply (fold_result_prefix_ind _ (mutated operation base)).
  { exists []. split_and!; [constructor | constructor | done | done | done | by intros ? ? ?%not_elem_of_nil]. }
  intros pre spec [entries requested] s2 (asked & Hparse & Hnd & Hreq & Hn & Hkeep & Hout) Hs.
  destruct (mutate_step_entries _ _ _ _ _ Hs) as (name & stream & Hp & Hnew & Hr2 & Hn2 & Hne & Ho).
  cbn [fst snd] in *. rewrite Hreq in Hnew.
  exists (asked ++ [(name, stream)]). rewrite fmap_app. csimpl. split_and!.
  - apply Forall2_app; [done | by repeat constructor].
  - apply NoDup_app. split_and!; [done | | apply NoDup_singleton]. intros x Hx ->%list_elem_of_singleton. done.
  - intros n. rewrite Hr2, elem_of_bset_insert, elem_of_app, list_elem_of_singleton, Hreq. tauto.
  - by apply Hn2.
  - intros n Hnn. rewrite elem_of_app, list_elem_of_singleton in Hnn. rewrite Hne by tauto. apply Hkeep. tauto.
  - intros n st [Hin | [= -> ->]%list_elem_of_singleton]%elem_of_app; [| done].
    rewrite Hne; [by apply Hout |]. intros ->. apply Hnew, list_elem_of_fmap. by exists (name, st).
Qed.

(** A stream of a module is wanted: an active stream has an alternative that requires it. *)
Definition wanted (st : ModuleState.t) (name stream : string) : Prop :=
  exists n s m ms a r, active_stream c st n = Some s /\ module c n = Some m /\
    bmap_lookup s (Module_.streams m) = Some ms /\ a ∈ ModuleStream.dependencies ms /\
    r ∈ ModuleDependencies.requires a /\ ModuleRequirement.module r = name /\
    stream ∈ ModuleRequirement.streams r.

Lemma needed_wanted entries name stream :
  named entries -> needed entries name stream -> wanted (ModuleState.mk entries.*2) name stream.
Proof.
  intros Hn (n & e & s & m & ms & a & r & Hl & Hd & Hs & Hm & Hms & Ha & Hr & Hname & Hst).
  exists n, s, m, ms, a, r. split_and!; try done. unfold active_stream.
  by rewrite find_entry_named, Hl, Hd.
Qed.
End facts.

(** C20: a mutation of modules that is accepted does what each specification asks, leaves every
    other recorded module exactly as it was, and, when modules are enabled, records besides them
    only streams that an active stream requires; the new state satisfies the dependencies of all
    active streams. *)
Theorem mutate_sound (c : ModuleCatalog.t) (current : ModuleState.t) (operation : ModuleMutation)
    (specs : list string) (st : ModuleState.t) (Hok : mutate c current operation specs = Ok st) :
  validate_state c st = Ok tt /\
  exists asked : list (string * option string), Forall2 (fun spec a => parse_spec spec = Ok a) specs asked /\
    NoDup asked.*1 /\
    (forall name stream, (name, stream) ∈ asked -> outcome c operation name stream (find_entry st name)) /\
    forall name, name ∉ asked.*1 ->
      find_entry st name = find_entry current name \/
      operation = Enable /\ find_entry current name = None /\
      exists stream, find_entry st name = Some (enabled_entry name stream) /\ wanted c st name stream.
Proof.
  unfold mutate in Hok. apply bind_ok in Hok as (u & Hval & Hok). destruct u.
  case_bool_decide; [done |].
  apply bind_ok in Hok as ([base requested] & Hfold & (entries & Hc & (u & Hvs & [= <-])%bind_ok)%bind_ok).
  destruct u. split; [done |].
  destruct (state_map_named current Hval) as (_ & Hnamed & Hfind).
  apply (mutate_fold c operation _ specs _ Hnamed) in Hfold as (asked & Hparse & Hnd & Hreq & Hn & Hkeep & Hout).
  cbn [fst snd] in *.
  assert (Hfinal : named entries /\ extends base entries /\ forall name, bmap_lookup name base = None ->
    bmap_lookup name entries = None \/ operation = Enable /\
      exists stream, bmap_lookup name entries = Some (enabled_entry name stream) /\ needed c entries name stream).
  { case_bool_decide as Hop; [subst operation | injection Hc as <-; by split_and!; [done | intros ? ? | left]].
    apply complete_dependencies_completed in Hc as (H1 & H2 & H3); [| done |].
    - split_and!; [done | done |]. intros name Hb.
      destruct (bmap_lookup name entries) as [e|] eqn:He; [| by left]. right. split; [done |].
      destruct (H3 name e Hb He) as (stream & -> & ?). by exists stream.
    - intros n Hin%Hreq. apply list_elem_of_fmap in Hin as ([n' stream] & -> & Hin).
      destruct (Hout _ _ Hin) as (m & s & _ & _ & He). cbn [fst]. rewrite He. by eexists. }
  destruct Hfinal as (Hne & Hext & Hnone). exists asked. split_and!; [done | done | |].
  - intros name stream Hin. rewrite find_entry_named by done.
    specialize (Hout name stream Hin). destruct (bmap_lookup name base) as [e|] eqn:Hb.
    + by rewrite (Hext _ _ Hb).
    + destruct operation; simpl in Hout; [by destruct Hout as (? & ? & _ & _ & ?) | | done].
      simpl. by destruct (Hnone name Hb) as [?|[? _]].
  - intros name Hname. rewrite find_entry_named by done.
    specialize (Hkeep name Hname). rewrite Hfind in Hkeep. rewrite <- Hkeep.
    destruct (bmap_lookup name base) as [e|] eqn:Hb; [left; by rewrite (Hext _ _ Hb) |].
    destruct (Hnone name Hb) as [?|(Hop & stream & He & Hneed)]; [by left | right].
    split_and!; [done | done |]. exists stream. split; [done |]. by apply needed_wanted.
Qed.
End MutationFacts.

(** ** The catalog *)

Module CatalogFacts.

Lemma normalize_strings_ok values kind values' :
  normalize_strings values kind = Ok values' -> forall x, x ∈ values' <-> x ∈ values.
Proof.
  unfold normalize_strings. intros (u & _ & H)%bind_ok. destruct (windows2_any _ _); [done |].
  injection H as <-. intros x. apply elem_of_sort.
Qed.

Lemma elem_of_foldl_insert x l : forall s : list string,
  x ∈ foldl (fun s a => bset_insert a s) s l <-> x ∈ s \/ x ∈ l.
Proof.
  induction l as [|a l IH]; intros s; simpl; [list_mem |].
  rewrite IH, elem_of_bset_insert, elem_of_cons. tauto.
Qed.

Section documents.
Context (architecture : Architecture.t).

(** A document of the repositories lists the artifact for a stream of a module. *)
Definition stream_lists (rs : RawStream.t) (stream artifact : string) : Prop :=
  RawStream.stream rs = stream /\ matches_arch (RawStream.arch rs) architecture = true /\
  artifact ∈ RawStream.artifacts rs.

Definition documented (docs : list RawModule.t) (name stream artifact : string) : Prop :=
  exists raw rs, raw ∈ docs /\ RawModule.name raw = name /\ rs ∈ RawModule.streams raw /\
    stream_lists rs stream artifact.

Definition holds (streams : stream_map) (stream artifact : string) : Prop :=
  exists ls, bmap_lookup stream streams = Some ls /\ artifact ∈ LogicalStream.artifacts ls.

Lemma holds_insert streams sn ls s a :
  holds (bmap_insert sn ls streams) s a <->
  (s = sn /\ a ∈ LogicalStream.artifacts ls) \/ (s <> sn /\ holds streams s a).
Proof.
  unfold holds. destruct (decide (s = sn)) as [->|Hne].
  - rewrite bmap_lookup_insert_eq. naive_solver.
  - rewrite bmap_lookup_insert_ne by done. naive_solver.
Qed.

Lemma merge_stream_ok name sn streams incoming streams' :
  merge_stream name sn streams incoming = Ok streams' ->
  (forall s a, holds streams' s a <-> holds streams s a \/ s = sn /\ a ∈ LogicalStream.artifacts incoming) /\
  (StronglySorted clt streams.*1 -> StronglySorted clt streams'.*1).
Proof.
  unfold merge_stream. destruct (bmap_lookup sn streams) as [existing|] eqn:Hl.
  - destruct (_ || _); [done |]. intros [= <-]. split; [| by apply bmap_insert_sorted].
    intros s a. rewrite holds_insert. cbn [LogicalStream.artifacts]. rewrite elem_of_foldl_insert.
    destruct (decide (s = sn)) as [->|Hne]; [| tauto].
    assert (Hh : holds streams sn a <-> a ∈ LogicalStream.artifacts existing) by (unfold holds; naive_solver).
    tauto.
  - intros [= <-]. split; [| by apply bmap_insert_sorted]. intros s a. rewrite holds_insert.
    destruct (decide (s = sn)) as [->|Hne]; [| tauto].
    assert (Hh : ~ holds streams sn a) by (unfold holds; naive_solver). tauto.
Qed.

Lemma raw_stream_step_ok name streams n k rs s' :
  raw_stream_step architecture name (streams, n, k) rs = Ok s' ->
  (forall s a, holds s'.1.1 s a <-> holds streams s a \/ stream_lists rs s a) /\
  (StronglySorted clt streams.*1 -> StronglySorted clt s'.1.1.*1).
Proof.
  unfold raw_stream_step. destruct (negb _); [done |].
  intros (u1 & _ & (u2 & _ & (u3 & _ & H)%bind_ok)%bind_ok)%bind_ok.
  destruct (negb (matches_arch _ _)) eqn:Harch.
  { injection H as <-. split; [| done]. intros s a. unfold stream_lists.
    apply negb_true_iff in Harch. rewrite Harch. naive_solver. }
  apply negb_false_iff in Harch. destruct (_ <? _)%N; [done |].
  apply bind_ok in H as (artifacts & Ha & (count & _ & H)%bind_ok). destruct (_ <? _)%N; [done |].
  apply bind_ok in H as (deps & _ & (profiles & _ & (merged & Hm%merge_stream_ok & [= <-])%bind_ok)%bind_ok).
  destruct Hm as [Hm Hsort]. split; [| done]. intros s a. cbn [fst]. rewrite Hm. cbn [LogicalStream.artifacts].
  pose proof (elem_of_bset_of_list a artifacts) as Hset.
  pose proof (normalize_strings_ok _ _ _ Ha a) as Hnorm. unfold stream_lists. rewrite Harch. naive_solver.
Qed.

Lemma raw_streams_ok name streams n k rss s' :
  fold_result (raw_stream_step architecture name) (streams, n, k) rss = Ok s' ->
  (forall s a, holds s'.1.1 s a <-> holds streams s a \/ exists rs, rs ∈ rss /\ stream_lists rs s a) /\
  (StronglySorted clt streams.*1 -> StronglySorted clt s'.1.1.*1).
Proof.
  apply (fold_result_prefix_ind _ (fun rss (s' : stream_map * N * N) =>
    (forall s a, holds s'.1.1 s a <-> holds streams s a \/ exists rs, rs ∈ rss /\ stream_lists rs s a) /\
    (StronglySorted clt streams.*1 -> StronglySorted clt s'.1.1.*1))).
  - split; [| done]. intros s a. cbn [fst]. split; [by left |]. intros [?|(rs & []%not_elem_of_nil & _)]. done.
  - intros pre rs [[sm n1] k1] s2 [H1 H2] Hs. apply raw_stream_step_ok in Hs as [H3 H4].
    split; [| auto]. intros s a. rewrite H3. cbn [fst] in H1. rewrite H1. setoid_rewrite elem_of_app.
    setoid_rewrite list_elem_of_singleton. naive_solver.
Qed.

(** The modules read so far hold exactly the artifacts of the documents read so far. *)
Definition read_exactly (docs : list RawModule.t) (s : raw_state) : Prop :=
  StronglySorted clt (raw_modules s).*1 /\
  (forall name d sm, bmap_lookup name (raw_modules s) = Some (d, sm) -> StronglySorted clt sm.*1) /\
  forall name stream artifact,
    (exists d sm, bmap_lookup name (raw_modules s) = Some (d, sm) /\ holds sm stream artifact) <->
    documented docs name stream artifact.

Lemma documented_snoc docs raw name stream artifact :
  documented (docs ++ [raw]) name stream artifact <->
  documented docs name stream artifact \/
  RawModule.name raw = name /\ exists rs, rs ∈ RawModule.streams raw /\ stream_lists rs stream artifact.
Proof.
  unfold documented. setoid_rewrite elem_of_app. setoid_rewrite list_elem_of_singleton. split.
  - intros (r & rs & [Hr | ->] & Hn & Hrs & Hl); [left; by exists r, rs | right; split; [done | by exists rs]].
  - intros [(r & rs & Hr & Hn & Hrs & Hl)|(Hn & rs & Hrs & Hl)];
      [exists r, rs; auto | exists raw, rs; auto].
Qed.

Lemma raw_modules_ok docs s :
  fold_result (raw_module_step architecture) (raw_mk [] 0 0) docs = Ok s -> read_exactly docs s.
Proof.
  apply fold_result_prefix_ind.
  { split_and!; [constructor | done |]. intros name stream artifact. simpl. split; [by intros (? & ? & ? & _) |].
    by intros (? & ? & []%not_elem_of_nil & _). }
  clear s docs. intros docs raw s s' (H1 & H2 & H3). unfold raw_module_step. set (n := RawModule.name raw).
  intros (u1 & _ & (u2 & _ & H)%bind_ok)%bind_ok.
  destruct (default _ (bmap_lookup n (raw_modules s))) as [d sm] eqn:Hd.
  apply bind_ok in H as (d' & _ & ([[sm' n'] k'] & Hf & [= <-])%bind_ok).
  apply raw_streams_ok in Hf as [Hholds Hsort]. cbn [fst] in Hholds, Hsort.
  assert (Hsm : StronglySorted clt sm.*1 /\ forall st a,
    (exists d sm, bmap_lookup n (raw_modules s) = Some (d, sm) /\ holds sm st a) <-> holds sm st a).
  { destruct (bmap_lookup n (raw_modules s)) as [[d0 sm0]|] eqn:Hl; simpl in Hd; injection Hd as <- <-.
    - split; [by eapply H2 | naive_solver].
    - split; [constructor |]. intros st a. unfold holds. simpl. naive_solver. }
  destruct Hsm as [Hsm Hsame]. split_and!; cbn [raw_modules].
  - by apply bmap_insert_sorted.
  - intros name d1 sm1. destruct (decide (n = name)) as [<-|Hne].
    + rewrite bmap_lookup_insert_eq. intros [= <- <-]. by apply Hsort.
    + rewrite bmap_lookup_insert_ne by done. apply H2.
  - intros name stream artifact. rewrite documented_snoc. fold n. destruct (decide (n = name)) as [<-|Hne].
    + rewrite bmap_lookup_insert_eq, <- H3, Hsame.
      pose proof (Hholds stream artifact). naive_solver.
    + rewrite bmap_lookup_insert_ne by done. rewrite H3. naive_solver.
Qed.
End documents.

(** ** Owners *)

Abbreviation owner_map := (list (string * (string * string))).

Lemma owner_fold name sn artifacts owners owners' :
  fold_result (owner_step name sn) owners artifacts = Ok owners' ->
  forall a o, bmap_lookup a owners' = Some o <-> bmap_lookup a owners = Some o \/ a ∈ artifacts /\ o = (name, sn).
Proof.
  apply (fold_result_prefix_ind _ (fun artifacts owners' => forall a o,
    bmap_lookup a owners' = Some o <-> bmap_lookup a owners = Some o \/ a ∈ artifacts /\ o = (name, sn))).
  { intros a o. split; [by left | intros [?|[[]%not_elem_of_nil _]]; done]. }
  intros pre x s1 s2 Hp Hs a o. rewrite elem_of_app, list_elem_of_singleton. unfold owner_step in Hs.
  assert (Hx : s2 = bmap_insert x (name, sn) s1 /\
    forall o, bmap_lookup x s1 = Some o -> o = (name, sn)).
  { destruct (bmap_lookup x s1) as [previous|]; [| by injection Hs as <-].
    destruct (negb _) eqn:E; [done |]. apply negb_false_iff, bool_decide_eq_true in E.
    injection Hs as <-. split; [done |]. by intros ? [= <-]. }
  destruct Hx as [-> Hx]. destruct (decide (x = a)) as [<-|Hne].
  - rewrite bmap_lookup_insert_eq. split; [intros [= <-]; right; by split; [right |] |].
    intros [H|[_ ->]]; [| done]. f_equal. symmetry. apply Hx, Hp. by left.
  - rewrite bmap_lookup_insert_ne, Hp by done. naive_solver.
Qed.

(** The owners after the streams of one module. *)
Lemma final_streams_ok name streams owners s' :
  StronglySorted clt streams.*1 ->
  fold_result (final_stream_step name) ([], owners) streams = Ok s' ->
  (forall sn ms, bmap_lookup sn s'.1 = Some ms <->
    exists ls, bmap_lookup sn streams = Some ls /\ ms = final_stream sn ls) /\
  (StronglySorted clt s'.1.*1) /\
  forall a o, bmap_lookup a s'.2 = Some o <-> bmap_lookup a owners = Some o \/
    exists sn, o = (name, sn) /\ holds streams sn a.
Proof.
  intros Hsort Hf.
  assert (Hgen : (forall sn ms, bmap_lookup sn s'.1 = Some ms <->
      exists ls, (sn, ls) ∈ streams /\ ms = final_stream sn ls) /\
    StronglySorted clt s'.1.*1 /\
    forall a o, bmap_lookup a s'.2 = Some o <-> bmap_lookup a owners = Some o \/
      exists sn ls, o = (name, sn) /\ (sn, ls) ∈ streams /\ a ∈ LogicalStream.artifacts ls).
  { revert Hsort. refine (fold_result_prefix_ind _ (fun streams (s' : list (string * ModuleStream.t) * owner_map) =>
      StronglySorted clt streams.*1 -> (forall sn ms, bmap_lookup sn s'.1 = Some ms <->
      exists ls, (sn, ls) ∈ streams /\ ms = final_stream sn ls) /\
      StronglySorted clt s'.1.*1 /\
      forall a o, bmap_lookup a s'.2 = Some o <-> bmap_lookup a owners = Some o \/
      exists sn ls, o = (name, sn) /\ (sn, ls) ∈ streams /\ a ∈ LogicalStream.artifacts ls) _ _ _ _ _ Hf).
    - intros _. split_and!; [| constructor |].
      + intros sn ms. simpl. split; [done |]. by intros (? & []%not_elem_of_nil & _).
      + intros a o. split; [by left |]. intros [?|(? & ? & _ & []%not_elem_of_nil & _)]. done.
    - intros pre [sn ls] [sm ow] s2 IH Hs Hsort. cbn [fst snd] in *.
      rewrite fmap_app in Hsort. apply StronglySorted_app in Hsort as (Hlt & Hpre & _).
      destruct (IH Hpre) as (I1 & I2 & I3). unfold final_stream_step in Hs.
      apply bind_ok in Hs as (ow' & How & [= <-]). cbn [fst snd] in *.
      pose proof (owner_fold _ _ _ _ _ How) as Hof. split_and!.
      + intros sn' ms. setoid_rewrite elem_of_app. setoid_rewrite list_elem_of_singleton.
        destruct (decide (sn = sn')) as [<-|Hne].
        * rewrite bmap_lookup_insert_eq. split.
          -- intros [= <-]. exists ls. split; [by right | done].
          -- intros (ls' & [Hin | [= ->]] & ->); [| done]. exfalso.
             assert (Hbad : clt sn sn) by (apply Hlt; [apply list_elem_of_fmap; by exists (sn, ls') | left]).
             by apply clt_irrefl in Hbad.
        * rewrite bmap_lookup_insert_ne, I1 by done. split.
          -- intros (ls' & Hin & ->). exists ls'. split; [by left | done].
          -- intros (ls' & [Hin | [= -> ->]] & ->); [by exists ls' | done].
      + by apply bmap_insert_sorted.
      + intros a o. rewrite Hof, I3. setoid_rewrite elem_of_app. setoid_rewrite list_elem_of_singleton. split.
        * intros [[?|(sn' & ls' & ? & ? & ?)]|[Ha ->]]; [by left | right; exists sn', ls'; auto |].
          right. exists sn, ls. auto.
        * intros [?|(sn' & ls' & Ho & [Hin | [= -> ->]] & Ha)]; [by left; left | left; right; by exists sn', ls' |].
          right. by split. }
  assert (Hlook : forall sn ls, (sn, ls) ∈ streams <-> bmap_lookup sn streams = Some ls).
  { intros sn ls. split; [apply elem_bmap_lookup; by apply clt_sorted_NoDup | apply bmap_lookup_elem]. }
  destruct Hgen as (G1 & G2 & G3). split_and!; [| done |].
  - intros sn ms. rewrite G1. by setoid_rewrite Hlook.
  - intros a o. rewrite G3. setoid_rewrite Hlook. unfold holds. split.
    + intros [?|(sn & ls & ? & ? & ?)]; [by left | right; exists sn; split; [done | by exists ls]].
    + intros [?|(sn & ? & ls & ? & ?)]; [by left | right; by exists sn, ls].
Qed.

(** A module of the catalog is made of the streams that were read for it. *)
Definition made_of (m : Module_.t) (name : string) (d : option string) (sm : stream_map) : Prop :=
  Module_.name m = name /\ Module_.default_stream m = d /\ StronglySorted clt (Module_.streams m).*1 /\
  (forall sn ms, bmap_lookup sn (Module_.streams m) = Some ms <->
    exists ls, bmap_lookup sn sm = Some ls /\ ms = final_stream sn ls) /\
  forall d', d = Some d' -> is_Some (bmap_lookup d' sm).

Definition final_exactly (read : list (string * (option string * stream_map))) (c : ModuleCatalog.t) : Prop :=
  StronglySorted clt (ModuleCatalog.modules c).*1 /\
  (forall name m, module c name = Some m -> exists d sm, (name, (d, sm)) ∈ read /\ made_of m name d sm) /\
  (forall name d sm, (name, (d, sm)) ∈ read -> is_Some (module c name)) /\
  forall a name sn, artifact_owner c a = Some (name, sn) <->
    exists d sm, (name, (d, sm)) ∈ read /\ holds sm sn a.

Lemma final_module_step_ok read c name d sm c' :
  final_exactly read c -> name ∉ read.*1 -> StronglySorted clt sm.*1 ->
  final_module_step c (name, (d, sm)) = Ok c' -> final_exactly (read ++ [(name, (d, sm))]) c'.
Proof.
  intros (F1 & F2 & F3 & F4) Hnew Hsm. unfold final_module_step.
  intros (u & Hd & ([fs owners] & Hf & [= <-])%bind_ok)%bind_ok.
  apply final_streams_ok in Hf as (S1 & S2 & S3); [| done]. cbn [fst snd] in *.
  assert (Hmade : made_of (Module_.mk name d fs) name d sm).
  { split_and!; try done. intros d' ->. by case_bool_decide. }
  unfold final_exactly, module, artifact_owner. cbn [ModuleCatalog.modules ModuleCatalog.artifact_owners].
  setoid_rewrite elem_of_app. setoid_rewrite list_elem_of_singleton. split_and!.
  - by apply bmap_insert_sorted.
  - intros n m. destruct (decide (name = n)) as [<-|Hne].
    + rewrite bmap_lookup_insert_eq. intros [= <-]. exists d, sm. split; [by right | done].
    + rewrite bmap_lookup_insert_ne by done. intros (d0 & sm0 & Hin & Hm)%F2. exists d0, sm0.
      split; [by left | done].
  - intros n d0 sm0 [Hin | [= -> -> ->]]; [| rewrite bmap_lookup_insert_eq; by eexists].
    destruct (decide (name = n)) as [<-|Hne]; [rewrite bmap_lookup_insert_eq; by eexists |].
    rewrite bmap_lookup_insert_ne by done. by eapply F3.
  - intros a n sn. rewrite S3. unfold artifact_owner in F4. rewrite F4. split.
    + intros [(d0 & sm0 & ? & ?)|(sn0 & [= -> ->] & ?)]; [exists d0, sm0; auto | exists d, sm; auto].
    + intros (d0 & sm0 & [Hin | [= -> -> ->]] & ?); [left; by exists d0, sm0 | right; by exists sn].
Qed.

Lemma final_modules_ok read c :
  StronglySorted clt read.*1 -> (forall name d sm, (name, (d, sm)) ∈ read -> StronglySorted clt sm.*1) ->
  fold_result final_module_step (ModuleCatalog.mk [] []) read = Ok c -> final_exactly read c.
Proof.
  intros Hsort Hall Hf. revert Hsort Hall.
  refine (fold_result_prefix_ind _ (fun read c => StronglySorted clt read.*1 ->
    (forall name d sm, (name, (d, sm)) ∈ read -> StronglySorted clt sm.*1) -> final_exactly read c) _ _ _ _ _ Hf).
  - intros _ _. split_and!; [constructor | done | by intros ? ? ? ?%not_elem_of_nil |].
    intros a name sn. split; [done |]. by intros (? & ? & []%not_elem_of_nil & _).
  - intros pre [name [d sm]] c1 c2 IH Hs Hsort Hall. rewrite fmap_app in Hsort.
    apply StronglySorted_app in Hsort as (Hlt & Hpre & _). apply (final_module_step_ok pre c1); [| | | done].
    + apply IH; [done |]. intros n d0 sm0 Hin. apply (Hall n d0 sm0), elem_of_app. by left.
    + intros Hin. assert (Hbad : clt name name) by (apply Hlt; [done | left]). by apply clt_irrefl in Hbad.
    + apply (Hall name d sm), elem_of_app. right. left.
Qed.

Section catalog.
Context (architecture : Architecture.t) (docs : list RawModule.t) (c : ModuleCatalog.t)
  (Hok : catalog_from_raw architecture docs = Ok c).

Lemma catalog_read : exists read, final_exactly read c /\
  (forall name d sm, (name, (d, sm)) ∈ read -> StronglySorted clt sm.*1) /\ NoDup read.*1 /\
  forall name stream artifact, (exists d sm, (name, (d, sm)) ∈ read /\ holds sm stream artifact) <->
    documented architecture docs name stream artifact.
Proof.
  unfold catalog_from_raw in Hok. destruct (_ <? _)%N; [done |].
  apply bind_ok in Hok as (s & (R1 & R2 & R3)%raw_modules_ok & Hf).
  assert (Hlook : forall name d sm, (name, (d, sm)) ∈ raw_modules s <-> bmap_lookup name (raw_modules s) = Some (d, sm)).
  { intros name d sm. split; [apply elem_bmap_lookup; by apply clt_sorted_NoDup | apply bmap_lookup_elem]. }
  assert (Hall : forall name d sm, (name, (d, sm)) ∈ raw_modules s -> StronglySorted clt sm.*1).
  { intros name d sm Hin%Hlook. by eapply R2. }
  exists (raw_modules s). split_and!; [by apply final_modules_ok | done | by apply clt_sorted_NoDup |].
  intros name stream artifact. rewrite <- R3. by setoid_rewrite Hlook.
Qed.

(** The owners of the artifacts are the streams that the documents list them for. *)
Lemma owner_documented a name sn :
  artifact_owner c a = Some (name, sn) <-> documented architecture docs name sn a.
Proof. destruct catalog_read as (read & (_ & _ & _ & F4) & _ & _ & R). by rewrite F4, R. Qed.

Lemma catalog_modules_sorted : StronglySorted clt (ModuleCatalog.modules c).*1.
Proof. by destruct catalog_read as (read & (F1 & _) & _). Qed.

Lemma module_well_formed name m :
  module c name = Some m -> Module_.name m = name /\ StronglySorted clt (Module_.streams m).*1 /\
  (forall d, Module_.default_stream m = Some d -> is_Some (bmap_lookup d (Module_.streams m))) /\
  forall sn ms, bmap_lookup sn (Module_.streams m) = Some ms -> ModuleStream.name ms = sn /\
    forall a, a ∈ ModuleStream.artifacts ms <-> artifact_owner c a = Some (name, sn).
Proof.
  destruct catalog_read as (read & (F1 & F2 & F3 & F4) & Hall & Hnd & R). intros Hm.
  destruct (F2 name m Hm) as (d & sm & Hin & Hname & Hd & Hs & Hst & Hdef). split_and!; [done | done | |].
  - intros d' Hd'. rewrite Hd in Hd'. destruct (Hdef d' Hd') as [ls Hls]. exists (final_stream d' ls).
    apply Hst. by exists ls.
  - intros sn ms Hms. apply Hst in Hms as (ls & Hls & ->). split; [done |]. intros a. rewrite F4.
    cbn [ModuleStream.artifacts final_stream]. split.
    + intros Ha. exists d, sm. split; [done |]. by exists ls.
    + intros (d0 & sm0 & Hin0 & ls0 & Hls0 & Ha).
      assert (E : (d0, sm0) = (d, sm)).
      { apply (elem_bmap_lookup _ _ _ Hnd) in Hin, Hin0. congruence. }
      injection E as -> ->. rewrite Hls in Hls0. by injection Hls0 as <-.
Qed.

Lemma owner_stream a name sn :
  artifact_owner c a = Some (name, sn) -> exists m ms, module c name = Some m /\
    bmap_lookup sn (Module_.streams m) = Some ms /\ a ∈ ModuleStream.artifacts ms.
Proof.
  destruct catalog_read as (read & (F1 & F2 & F3 & F4) & Hall & Hnd & R). intros Ho.
  apply F4 in Ho as (d & sm & Hin & ls & Hls & Ha). destruct (F3 _ _ _ Hin) as [m Hm].
  destruct (F2 name m Hm) as (d0 & sm0 & Hin0 & Hname & _ & _ & Hst & _).
  assert (E : (d0, sm0) = (d, sm)).
  { apply (elem_bmap_lookup _ _ _ Hnd) in Hin, Hin0. congruence. }
  injection E as -> ->. exists m, (final_stream sn ls). split_and!; [done | | done]. apply Hst. by exists ls.
Qed.
End catalog.
End CatalogFacts.

(** ** Policies of artifacts *)

Module ArtifactFacts.
Import CatalogFacts.

Section facts.
Context (architecture : Architecture.t) (good : string -> bool -> Prop).

Abbreviation policy_map := (list (string * bool)).

(** Only good policies, and one for every artifact of the list that fits the architecture. *)
Definition covers (before after : policy_map) (artifacts : list string) : Prop :=
  ((forall a b, bmap_lookup a before = Some b -> good a b) -> forall a b, bmap_lookup a after = Some b -> good a b) /\
  (forall a, is_Some (bmap_lookup a before) -> is_Some (bmap_lookup a after)) /\
  forall a, a ∈ artifacts -> artifact_matches_architecture a architecture = Ok true -> is_Some (bmap_lookup a after).

Lemma covers_nil p : covers p p [].
Proof. split_and!; [done | done | by intros ? ?%not_elem_of_nil]. Qed.

Lemma covers_app p q r l1 l2 : covers p q l1 -> covers q r l2 -> covers p r (l1 ++ l2).
Proof.
  intros (A1 & A2 & A3) (B1 & B2 & B3). split_and!; [auto | auto |].
  intros a [Ha|Ha]%elem_of_app Hm; [by apply B2, A3 | by apply B3].
Qed.

Lemma artifact_step_covers excluded p a p' :
  (artifact_matches_architecture a architecture = Ok true -> good a excluded) ->
  artifact_step architecture excluded p a = Ok p' -> covers p p' [a].
Proof.
  intros Hg. unfold artifact_step. intros ([|] & Hm & [= <-])%bind_ok.
  - split_and!.
    + intros Hp x b. destruct (decide (a = x)) as [<-|Hne].
      * rewrite bmap_lookup_insert_eq. intros [= <-]. by apply Hg.
      * rewrite bmap_lookup_insert_ne by done. apply Hp.
    + intros x Hx. destruct (decide (a = x)) as [<-|Hne].
      * rewrite bmap_lookup_insert_eq. by eexists.
      * by rewrite bmap_lookup_insert_ne.
    + intros x ->%list_elem_of_singleton _. rewrite bmap_lookup_insert_eq. by eexists.
  - split_and!; [done | done |]. intros x ->%list_elem_of_singleton Hx. congruence.
Qed.

Lemma fold_covers {A} (f : policy_map -> A -> presult policy_map) (artifacts : A -> list string) l p p' :
  (forall x p p', x ∈ l -> f p x = Ok p' -> covers p p' (artifacts x)) ->
  fold_result f p l = Ok p' -> covers p p' (concat (artifacts <$> l)).
Proof.
  revert p. induction l as [|x l IH]; intros p Hstep; cbn [fold_result]; [intros [= <-]; apply covers_nil |].
  intros (p1 & H1 & H2)%bind_ok. rewrite fmap_cons. cbn [concat]. apply (covers_app p p1).
  - eapply Hstep; [left | done].
  - apply IH; [| done]. intros y q q' Hy. apply Hstep. by right.
Qed.
End facts.

(** C21: the policy of a modular package follows from the documents alone: a package has one
    exactly when some document lists it for a stream and its architecture fits, and it is
    excluded exactly when that stream is not the active one of its module. *)
Theorem artifact_policies_documented (documents architecture : Architecture.t) (docs : list RawModule.t)
    (c : ModuleCatalog.t) (state : ModuleState.t) (policies : list (string * bool))
    (Hcatalog : catalog_from_raw documents docs = Ok c)
    (Hpolicies : artifact_policies c state architecture = Ok policies) (artifact : string) (excluded : bool) :
  bmap_lookup artifact policies = Some excluded <->
  exists name stream, documented documents docs name stream artifact /\
    artifact_matches_architecture artifact architecture = Ok true /\
    excluded = negb (bool_decide (active_stream c state name = Some stream)).
Proof.
  set (good := fun a b => exists name stream, artifact_owner c a = Some (name, stream) /\
    artifact_matches_architecture a architecture = Ok true /\
    b = negb (bool_decide (active_stream c state name = Some stream))).
  setoid_rewrite <- (owner_documented documents docs c Hcatalog).
  change (bmap_lookup artifact policies = Some excluded <-> good artifact excluded).
  unfold artifact_policies in Hpolicies. apply bind_ok in Hpolicies as (u & _ & Hf).
  assert (Hmod : forall m, m ∈ (ModuleCatalog.modules c).*2 -> module c (Module_.name m) = Some m).
  { intros m Hin. apply list_elem_of_fmap in Hin as ([name m'] & -> & Hin). cbn [snd].
    assert (Hl : module c name = Some m').
    { apply elem_bmap_lookup; [apply clt_sorted_NoDup, (catalog_modules_sorted documents docs c Hcatalog) | done]. }
    by destruct (module_well_formed documents docs c Hcatalog name m' Hl) as (-> & _). }
  assert (Hc : covers architecture good [] policies (concat ((fun m => concat ((fun s => ModuleStream.artifacts s.2)
    <$> Module_.streams m)) <$> (ModuleCatalog.modules c).*2))).
  { refine (fold_covers architecture good _ _ _ _ _ _ Hf). intros m p p' Hm Hms.
    destruct (module_well_formed documents docs c Hcatalog _ m (Hmod m Hm)) as (_ & Hsort & _ & Hst).
    refine (fold_covers architecture good _ _ _ _ _ _ Hms). intros [sn ms] q q' Hsn Hss.
    assert (Hl : bmap_lookup sn (Module_.streams m) = Some ms)
      by (apply elem_bmap_lookup; [by apply clt_sorted_NoDup | done]).
    destruct (Hst sn ms Hl) as [_ Hown].
    assert (Hcov : covers architecture good q q' (concat ((fun a => [a]) <$> ModuleStream.artifacts ms))).
    { refine (fold_covers architecture good _ _ _ _ _ _ Hss). intros a r r' Ha. apply artifact_step_covers.
      intros Harch. exists (Module_.name m), sn. split_and!; [by apply Hown | done | done]. }
    assert (Hid : concat ((fun a => [a]) <$> ModuleStream.artifacts ms) = ModuleStream.artifacts ms).
    { clear. induction (ModuleStream.artifacts ms) as [|a l IH]; [done |]. rewrite fmap_cons. simpl. by rewrite IH. }
    by rewrite Hid in Hcov. }
  destruct Hc as (C1 & _ & C3). split; [by apply C1 |].
  intros (name & sn & Ho & Harch & ->).
  destruct (owner_stream documents docs c Hcatalog artifact name sn Ho) as (m & ms & Hm & Hms & Ha).
  destruct (C3 artifact) as [b Hb]; [| done |].
  - apply list_elem_of_In, in_concat. exists (concat ((fun s => ModuleStream.artifacts s.2) <$> Module_.streams m)).
    split; apply list_elem_of_In.
    + apply list_elem_of_fmap. exists m. split; [done |]. apply list_elem_of_fmap. exists (name, m).
      split; [done |]. by apply bmap_lookup_elem.
    + apply list_elem_of_In, in_concat. exists (ModuleStream.artifacts ms). split; apply list_elem_of_In; [| done].
      apply list_elem_of_fmap. exists (sn, ms). split; [done |]. by apply bmap_lookup_elem.
  - destruct (C1 ltac:(done) artifact b Hb) as (name' & sn' & Ho' & _ & ->).
    rewrite Ho in Ho'. injection Ho' as <- <-. done.
Qed.
End ArtifactFacts.

(** ** A small catalog: [app] requires one of the streams of [lib] and ships one modular package
    per stream. *)
Module ModuleExamples.

Definition raw_stream (name stream : string) (version : N) (artifacts : list string)
    (requires : list ModuleDependencies.t) : RawStream.t :=
  RawStream.mk name stream version "ctx" "x86_64" (Some "s") None [] requires artifacts.

Definition docs : list RawModule.t :=
  [ RawModule.mk "app" (Some "1")
      [raw_stream "app" "1" 1%N ["app-1.x86_64"] [];
       raw_stream "app" "2" 1%N ["app-2.x86_64"] [ModuleDependencies.mk [ModuleRequirement.mk "lib" ["b"]]]];
    RawModule.mk "lib" None [raw_stream "lib" "a" 1%N ["lib-a.x86_64"] []; raw_stream "lib" "b" 1%N ["lib-b.x86_64"] []] ].

Definition catalog : ModuleCatalog.t :=
  match catalog_from_raw Architecture.X86_64 docs with Ok c => c | Err _ => ModuleCatalog.mk [] [] end.

Definition enabled : ModuleState.t :=
  ModuleState.mk [ModuleStateEntry.mk "app" (Some "2") false; ModuleStateEntry.mk "lib" (Some "b") false].
End ModuleExamples.

Lemma mutate_sound_witness :
  mutate ModuleExamples.catalog (ModuleState.mk []) Enable ["app:2"] = Ok ModuleExamples.enabled /\
  validate_state ModuleExamples.catalog ModuleExamples.enabled = Ok tt.
Proof.
  assert (H : mutate ModuleExamples.catalog (ModuleState.mk []) Enable ["app:2"] = Ok ModuleExamples.enabled)
    by (vm_compute; reflexivity).
  split; [exact H |]. exact (proj1 (MutationFacts.mutate_sound _ _ _ _ _ H)).
Defined.

Lemma artifact_policies_documented_witness :
  catalog_from_raw Architecture.X86_64 ModuleExamples.docs = Ok ModuleExamples.catalog /\
  exists policies, artifact_policies ModuleExamples.catalog ModuleExamples.enabled Architecture.X86_64 = Ok policies /\
    exists name stream, CatalogFacts.documented Architecture.X86_64 ModuleExamples.docs name stream "lib-a.x86_64" /\
      artifact_matches_architecture "lib-a.x86_64" Architecture.X86_64 = Ok true /\
      true = negb (bool_decide (active_stream ModuleExamples.catalog ModuleExamples.enabled name = Some stream)).
Proof.
  assert (Hc : catalog_from_raw Architecture.X86_64 ModuleExamples.docs = Ok ModuleExamples.catalog) by (vm_compute; reflexivity).
  split; [exact Hc |].
  eexists. assert (Hp : artifact_policies ModuleExamples.catalog ModuleExamples.enabled Architecture.X86_64 =
    Ok [("app-1.x86_64", true); ("app-2.x86_64", false); ("lib-a.x86_64", true); ("lib-b.x86_64", false)])
    by (vm_compute; reflexivity).
  split; [exact Hp |].
  exact (proj1 (ArtifactFacts.artifact_policies_documented _ _ _ _ _ _ Hc Hp "lib-a.x86_64" true) ltac:(vm_compute; reflexivity)).
Defined.
