(* ===== verification/CacheModel.v ===== *)
(** * The data of the metadata cache ([dnfast-cache]: model.rs)

    Errors, the evidence of authenticated metadata, the selected origin, and reading a verified
    file through its descriptor while other processes may change it.  The parser of URLs is a
    parameter; so is which characters beyond ASCII are printed escaped. *)
From Stdlib Require Import Ascii.
From S2P Require Import Prelude.
From S2P Require Import RustStr.
From S2P Require Import RustText.
From S2P Require Import UnixPath.
From S2P Require Import Metadata.

#[local] Open Scope N_scope.

(** ** Errors *)

Module CacheError.
Inductive t : Type :=
  | MissingSnapshot (message : string)
  | CacheUpgradeRequired
  | Corrupt (message : string)
  | Io (message : string).

#[global] Instance cache_error_eq_dec : EqDecision t.
Proof. solve_decision. Defined.
End CacheError.

Abbreviation cresult := (result CacheError.t).

Definition corrupt {A} (message : string) : cresult A := Err (CacheError.Corrupt message).

Section debug.
Context (escaped : N -> bool).

Definition backslash : byte := ascii_of_N 92.
Definition unicode_escape (c : N) : list byte := [backslash; "u"%char; "{"%char] ++ hex_digits 6 c [] ++ ["}"%char].

(** [char::escape_debug] of one character, given with the bytes that encode it. *)
Definition escape_debug (chunk : list byte) : list byte :=
  let c := default 0 (head (utf8_decode chunk)) in
  if c =? 0 then [backslash; "0"%char]
  else if c =? 9 then [backslash; "t"%char]
  else if c =? 13 then [backslash; "r"%char]
  else if c =? 10 then [backslash; "n"%char]
  else if (c =? 34) || (c =? 92) then backslash :: chunk
  else if (c <? 32) || (c =? 127) || ((127 <? c) && escaped c) then unicode_escape c
  else chunk.

Definition quote : byte := ascii_of_N 34.

(** [{:?}] of a text. *)
Definition debug_text (s : string) : string :=
  of_bytes (quote :: concat (escape_debug <$> utf8_chunks (bytes s)) ++ [quote]).

Definition cache_error_to_string (e : CacheError.t) : string :=
  "cache error: " +:+
  match e with
  | CacheError.MissingSnapshot m => "MissingSnapshot(" +:+ debug_text m +:+ ")"
  | CacheError.CacheUpgradeRequired => "CacheUpgradeRequired"
  | CacheError.Corrupt m => "Corrupt(" +:+ debug_text m +:+ ")"
  | CacheError.Io m => "Io(" +:+ debug_text m +:+ ")"
  end.

(** [{:?}] of a struct variant. *)
Definition debug_fields (variant : string) (fields : list (string * string)) : string :=
  variant +:+ " { " +:+ String.concat ", " ((fun '(k, v) => k +:+ ": " +:+ v) <$> fields) +:+ " }".

Definition metadata_error_to_string (e : MetadataError.t) : string :=
  "metadata error: " +:+
  match e with
  | MetadataError.Xml m => "Xml(" +:+ debug_text m +:+ ")"
  | MetadataError.MissingPrimary => "MissingPrimary"
  | MetadataError.MissingFilelists => "MissingFilelists"
  | MetadataError.DuplicateRecord m => "DuplicateRecord(" +:+ debug_text m +:+ ")"
  | MetadataError.InvalidNumber m => "InvalidNumber(" +:+ debug_text m +:+ ")"
  | MetadataError.UnsafeLocation m => "UnsafeLocation(" +:+ debug_text m +:+ ")"
  | MetadataError.UnsupportedChecksum m => "UnsupportedChecksum(" +:+ debug_text m +:+ ")"
  | MetadataError.ChecksumMismatch => "ChecksumMismatch"
  | MetadataError.SizeMismatch e a => debug_fields "SizeMismatch" [("expected", display e); ("actual", display a)]
  | MetadataError.UnsupportedCompression m => "UnsupportedCompression(" +:+ debug_text m +:+ ")"
  | MetadataError.Io m => "Io(" +:+ debug_text m +:+ ")"
  | MetadataError.LimitExceeded k m a =>
      debug_fields "LimitExceeded" [("kind", debug_text k); ("maximum", display m); ("actual", display a)]
  end.

(** [metadata_error] of the cache. *)
Definition metadata_error {A} (r : result MetadataError.t A) : cresult A :=
  map_err (fun e => CacheError.Corrupt (metadata_error_to_string e)) r.
End debug.

(** ** Digests and evidence *)

Definition lowercase_hex (b : byte) : bool := is_ascii_digit b || in_range 97 102 (byte_val b).
Definition valid_digest (value : string) : bool := (str_len value =? 64) && forallb lowercase_hex (bytes value).
Definition valid_fingerprint (value : string) : bool :=
  (str_len value =? 40) && forallb (fun b => is_ascii_hexdigit b && negb (is_ascii_lowercase b)) (bytes value).

Module RepomdAuthentication.
Inductive t : Type :=
  | TransportOnly
  | OpenPgp (primary_fingerprint signing_fingerprint key_bundle_sha256 signature_sha256 : string).

#[global] Instance repomd_authentication_eq_dec : EqDecision t.
Proof. solve_decision. Defined.

Definition validate (a : t) : cresult unit :=
  match a with
  | TransportOnly => Ok tt
  | OpenPgp primary signing bundle signature =>
      if negb (valid_fingerprint primary) || negb (valid_fingerprint signing)
         || negb (valid_digest bundle) || negb (valid_digest signature)
      then corrupt "invalid repomd authentication evidence" else Ok tt
  end.

Definition openpgp (primary signing bundle signature : string) : cresult t :=
  let value := OpenPgp (to_ascii_uppercase primary) (to_ascii_uppercase signing)
                 (to_ascii_lowercase bundle) (to_ascii_lowercase signature) in
  _ ← validate value; Ok value.
End RepomdAuthentication.

(** ** The selected origin *)

(** What the code asks of a parsed URL. *)
Module Url.
Record t : Type := mk {
  scheme : string;
  host_str : option string;
  username : string;
  password : option string;
  query : option string;
  fragment : option string;
  as_str : string
}.
End Url.

Inductive OriginError : Type := Invalid | InvalidArtifactPath.

Definition origin_error_to_string (e : OriginError) : string :=
  match e with
  | Invalid => "invalid selected repository origin"
  | InvalidArtifactPath => "invalid repository artifact path"
  end.

Definition str_strip_suffix (suffix s : string) : option string :=
  (fun l => of_bytes (rev l)) <$> strip_prefix (rev (bytes suffix)) (rev (bytes s)).

Definition REPOMD_SUFFIX : string := "/repodata/repomd.xml".

Definition has_backslash (s : string) : bool := bset_contains backslash (bytes s).

Section origin.
Context (url_parse : string -> option Url.t).

(** [SelectedOrigin::parse]; the origin is its text. *)
Definition parse_origin (value : string) : result OriginError string :=
  parsed ← ok_or Invalid (url_parse value);
  if negb (bool_decide (Url.scheme parsed = "https"))
     || bool_decide (Url.host_str parsed = None)
     || negb (str_is_empty (Url.username parsed))
     || negb (bool_decide (Url.password parsed = None))
     || negb (bool_decide (Url.query parsed = None))
     || negb (bool_decide (Url.fragment parsed = None))
     || has_backslash value
     || negb (bool_decide (Url.as_str parsed = value))
     || bool_decide (str_strip_suffix REPOMD_SUFFIX value = None)
  then Err Invalid
  else
    base ← ok_or Invalid (str_strip_suffix REPOMD_SUFFIX value);
    if str_is_empty base || str_ends_with "/" base then Err Invalid else Ok value.
End origin.

Definition artifact_base (origin : string) : string := default "" (str_strip_suffix REPOMD_SUFFIX origin).

Definition bad_segment (part : string) : bool :=
  str_is_empty part || bool_decide (part = ".") || bool_decide (part = "..").

Definition artifact_url (origin href : string) : result OriginError string :=
  if str_is_empty href || str_starts_with "/" href || has_backslash href || str_contains "?" href
     || str_contains "#" href || existsb bad_segment (segments href)
  then Err InvalidArtifactPath
  else Ok (artifact_base origin +:+ "/" +:+ href).

(** ** Verified files

    [F t] is the file behind the descriptor at the time of the [t]-th system call. *)

Module Stat.
Record t : Type := mk {
  st_mode : N;
  st_uid : N;
  st_nlink : N;
  st_size : Z;
  st_dev : N;
  st_ino : N;
  st_mtime : Z;
  st_mtime_nsec : N;
  st_ctime : Z;
  st_ctime_nsec : N
}.
End Stat.

Module SourceIdentity.
Record t : Type := mk {
  device : N;
  inode : N;
  size : Z;
  modified_seconds : Z;
  modified_nanoseconds : N;
  changed_seconds : Z;
  changed_nanoseconds : N
}.
#[global] Instance source_identity_eq_dec : EqDecision t.
Proof. solve_decision. Defined.
End SourceIdentity.

(** How a positional read ends: with at most so many bytes, interrupted, or with an error. *)
Inductive Outcome : Type :=
  | Gives (most : nat)
  | Interrupted
  | Fails (message : string).

Module FileAt.
Record t : Type := mk { stat : result string Stat.t; content : list byte; outcome : Outcome }.
End FileAt.

(** 0o170000, 0o100000 and 0o022. *)
Definition S_IFMT : N := 61440.
Definition S_IFREG : N := 32768.
Definition shared_write : N := 18.

Module VerifiedFile.
(** The descriptor is the history of the file. *)
Record t : Type := mk { sha256 : string; size : N; identity : SourceIdentity.t }.
End VerifiedFile.

Section descriptor.
Context (euid : N) (F : nat -> FileAt.t).

Definition source_identity (t : nat) : cresult SourceIdentity.t :=
  v ← map_err CacheError.Io (FileAt.stat (F t));
  if negb (N.land (Stat.st_mode v) S_IFMT =? S_IFREG) || negb (Stat.st_uid v =? euid)
     || negb (Stat.st_nlink v =? 1) || negb (N.land (Stat.st_mode v) shared_write =? 0)
     || (Stat.st_size v <? 0)%Z
  then corrupt "unsafe verified cache source"
  else Ok (SourceIdentity.mk (Stat.st_dev v) (Stat.st_ino v) (Stat.st_size v) (Stat.st_mtime v)
             (Stat.st_mtime_nsec v) (Stat.st_ctime v) (Stat.st_ctime_nsec v)).

(** [VerifiedFile::new], at time [t]. *)
Definition new_verified (sha256 : string) (size : N) (t : nat) : cresult VerifiedFile.t :=
  identity ← source_identity t; Ok (VerifiedFile.mk sha256 size identity).

(** [pread] of at most [length] bytes; a successful read of a position within the file returns a
    byte at least. *)
Definition read_at (t : nat) (offset length : nat) : Outcome * list byte :=
  match FileAt.outcome (F t) with
  | Gives most => (Gives most, take (Nat.min length (Nat.max 1 most)) (drop offset (FileAt.content (F t))))
  | o => (o, [])
  end.

(** The loop of [read_all] from [offset], with [fuel] calls; [None] when they do not suffice. *)
Fixpoint read_loop (fuel : nat) (t : nat) (size : nat) (bytes : list byte) : option (cresult (list byte * nat)) :=
  if (size <=? length bytes)%nat then Some (Ok (bytes, t))
  else
    match fuel with
    | O => None
    | S fuel =>
        match read_at t (length bytes) (size - length bytes) with
        | (Gives _, []) => Some (corrupt "verified cache source ended during read")
        | (Gives _, l) => read_loop fuel (S t) size (bytes ++ l)
        | (Interrupted, _) => read_loop fuel (S t) size bytes
        | (Fails m, _) => Some (Err (CacheError.Io m))
        end
    end.

Definition check_identity (f : VerifiedFile.t) (t : nat) (message : string) : cresult unit :=
  i ← source_identity t;
  if negb (bool_decide (i = VerifiedFile.identity f)) then corrupt message else Ok tt.

(** [VerifiedFile::read_all], its first call at time [t]; a [u64] fits a [usize]. *)
Definition read_all (fuel : nat) (f : VerifiedFile.t) (t : nat) : option (cresult (list byte)) :=
  match check_identity f t "verified cache source changed before read" with
  | Err e => Some (Err e)
  | Ok _ =>
      '(r) ← read_loop fuel (S t) (N.to_nat (VerifiedFile.size f)) [];
      Some ('(l, t) ← r; _ ← check_identity f t "verified cache source changed during read"; Ok l)
  end.

(** [VerifiedFileReader]. *)
Record VerifiedFileReader : Type := mk_reader { offset : N; finished : bool }.

Definition reader (f : VerifiedFile.t) (t : nat) : cresult VerifiedFileReader :=
  _ ← check_identity f t "verified cache source changed before streaming read"; Ok (mk_reader 0 false).

Context (escaped : N -> bool).

Definition recheck (f : VerifiedFile.t) (t : nat) : result string unit :=
  match source_identity t with
  | Ok i =>
      if bool_decide (i = VerifiedFile.identity f) then Ok tt
      else Err "verified cache source changed during streaming read"
  | Err e => Err (cache_error_to_string escaped e)
  end.

(** [VerifiedFileReader::read] into a buffer of [room] bytes, at time [t]: the bytes read, the
    reader and the time, or the error and the time. *)
Definition reader_read (f : VerifiedFile.t) (r : VerifiedFileReader) (room : nat) (t : nat) :
    result string (list byte * VerifiedFileReader * nat) :=
  if (room =? 0)%nat then Ok ([], r, t)
  else if offset r =? VerifiedFile.size f then
    if finished r then Ok ([], r, t)
    else _ ← recheck f t; Ok ([], mk_reader (offset r) true, S t)
  else
    match read_at t (N.to_nat (offset r)) (Nat.min (N.to_nat (VerifiedFile.size f - offset r)) room) with
    | (Fails m, _) => Err m
    | (Interrupted, _) => Err "Interrupted system call (os error 4)"
    | (Gives _, []) => Err "verified cache source ended during streaming read"
    | (Gives _, l) =>
        o ← ok_or "verified cache reader offset overflow" (u64_checked_add (offset r) (N.of_nat (length l)));
        if o =? VerifiedFile.size f then _ ← recheck f (S t); Ok (l, mk_reader o true, S (S t))
        else Ok (l, mk_reader o (finished r), S t)
    end.

(** Reading on until nothing more comes: the bytes and the time. *)
Fixpoint read_on (fuel : nat) (f : VerifiedFile.t) (r : VerifiedFileReader) (room t : nat) (bytes : list byte) :
    option (result string (list byte * nat)) :=
  match fuel with
  | O => None
  | S fuel =>
      match reader_read f r room t with
      | Err m => Some (Err m)
      | Ok ([], _, t) => Some (Ok (bytes, t))
      | Ok (l, r, t) => read_on fuel f r room t (bytes ++ l)
      end
  end.
End descriptor.

(** ** Facts about verified files *)

Module VerifiedFacts.

Lemma take_own_length {A} (n : nat) (x c : list A) : x = take n c -> x = take (length x) c.
Proof.
  intros ->. rewrite length_take. destruct (Nat.min_spec n (length c)) as [[H ->]|[H ->]]; [done |].
  by rewrite (take_ge c n), take_ge by lia.
Qed.

Section facts.
Context (euid : N) (F : nat -> FileAt.t).

(** [l] is what the file held at [t0], or the file held something else at one of the times from
    [i] to [j]. *)
Definition exact_unless_changed (t0 i j : nat) (l : list byte) : Prop :=
  l = FileAt.content (F t0) \/
  exists k, (i <= k < j)%nat /\ FileAt.content (F k) <> FileAt.content (F t0).

Lemma exact_if_same t0 i j l :
  ((forall k, (i <= k < j)%nat -> FileAt.content (F k) = FileAt.content (F t0)) -> l = FileAt.content (F t0)) ->
  exact_unless_changed t0 i j l.
Proof.
  intros Hl. assert (Hdec : forall n, (forall k, (i <= k < i + n)%nat -> FileAt.content (F k) = FileAt.content (F t0)) \/
    exists k, (i <= k < i + n)%nat /\ FileAt.content (F k) <> FileAt.content (F t0)).
  { intros n. induction n as [|n [IH|(k & Hk & Hne)]]; [left; lia | | right; exists k; split; [lia | done]].
    destruct (decide (FileAt.content (F (i + n)%nat) = FileAt.content (F t0))) as [E|E].
    - left. intros k Hk. destruct (decide (k = (i + n)%nat)) as [->|]; [done | apply IH; lia].
    - right. exists (i + n)%nat. split; [lia | done]. }
  destruct (Hdec (j - i)%nat) as [Hsame|(k & Hk & Hne)]; [left | right; exists k; split; [lia | done]].
  apply Hl. intros k Hk. apply Hsame. lia.
Qed.

(** What is read of content [c] after [bytes]. *)
Lemma read_at_extends t (c bytes l : list byte) most length' :
  read_at F t (length bytes) length' = (Gives most, l) -> FileAt.content (F t) = c -> bytes = take (length bytes) c ->
  bytes ++ l = take (length (bytes ++ l)) c /\ (length l <= length')%nat.
Proof.
  unfold read_at. destruct (FileAt.outcome _) as [m| |]; [| done..]. intros [= <- <-] -> Hb. split.
  - apply (take_own_length (length bytes + Nat.min length' (Nat.max 1 m))). rewrite <- take_take_drop. by f_equal.
  - rewrite length_take. lia.
Qed.

Lemma read_loop_ok size fuel : forall t bytes l t',
  read_loop F fuel t size bytes = Some (Ok (l, t')) ->
  (t <= t')%nat /\ forall c, (forall k, (t <= k < t')%nat -> FileAt.content (F k) = c) ->
    bytes = take (length bytes) c -> (length bytes <= size)%nat -> l = take size c.
Proof.
  induction fuel as [|fuel IH]; intros t bytes l t'; cbn [read_loop]; destruct (Nat.leb_spec size (length bytes)) as [Hs|Hs].
  1, 3: intros [= <- <-]; split; [lia |]; intros c _ Hb Hle; by rewrite Hb, (Nat.le_antisymm _ _ Hle Hs) at 1.
  { done. }
  destruct (read_at F t (length bytes) (size - length bytes)) as [[most| |m] x] eqn:Er; [| | done].
  - destruct x as [|b x]; [done |]. intros [Hle H]%IH. split; [lia |]. intros c Hc Hb Hlen.
    eapply read_at_extends in Er as [Hx Hl]; [| apply Hc; lia | exact Hb].
    apply H; [intros k Hk; apply Hc; lia | exact Hx |]. rewrite length_app. lia.
  - intros [Hle H]%IH. split; [lia |]. intros c Hc Hb Hlen. apply H; [intros k Hk; apply Hc; lia | done..].
Qed.

Lemma check_identity_ok f t m u : check_identity euid F f t m = Ok u -> source_identity euid F t = Ok (VerifiedFile.identity f).
Proof.
  unfold check_identity. intros (i & Hi & H)%bind_ok. destruct (negb _) eqn:E; [done |].
  apply negb_false_iff, bool_decide_eq_true in E. by subst.
Qed.

(** The loop ends once enough reads are not interrupted. *)
Lemma read_loop_ends size (Hlive : forall t, exists t', (t <= t')%nat /\ FileAt.outcome (F t') <> Interrupted) :
  forall n t bytes, (size - length bytes <= n)%nat -> exists fuel, is_Some (read_loop F fuel t size bytes).
Proof.
  intros n. induction n as [|n IH]; intros t bytes Hn.
  { exists O. cbn. destruct (Nat.leb_spec size (length bytes)); [by eexists | lia]. }
  destruct (Hlive t) as (t' & Ht & Hout).
  remember (t' - t)%nat as d eqn:Hd. revert t Ht Hd. induction d as [|d IHd]; intros t Ht Hd.
  - assert (t' = t) as -> by lia. destruct (Nat.leb_spec size (length bytes)) as [Hs|Hs].
    { exists O. cbn. rewrite (proj2 (Nat.leb_le _ _) Hs). by eexists. }
    destruct (read_at F t (length bytes) (size - length bytes)) as [[most| |m] x] eqn:Er.
    + destruct x as [|b x].
      * exists 1%nat. cbn. rewrite (proj2 (Nat.leb_gt _ _) Hs), Er. by eexists.
      * destruct (IH (S t) (bytes ++ b :: x)) as [fuel Hf]; [rewrite length_app; cbn; lia |].
        exists (S fuel). cbn. by rewrite (proj2 (Nat.leb_gt _ _) Hs), Er.
    + unfold read_at in Er. by destruct (FileAt.outcome (F t)).
    + exists 1%nat. cbn. rewrite (proj2 (Nat.leb_gt _ _) Hs), Er. by eexists.
  - destruct (Nat.leb_spec size (length bytes)) as [Hs|Hs].
    { exists O. cbn. rewrite (proj2 (Nat.leb_le _ _) Hs). by eexists. }
    destruct (read_at F t (length bytes) (size - length bytes)) as [[most| |m] x] eqn:Er.
    + destruct x as [|b x].
      * exists 1%nat. cbn. rewrite (proj2 (Nat.leb_gt _ _) Hs), Er. by eexists.
      * destruct (IH (S t) (bytes ++ b :: x)) as [fuel Hf]; [rewrite length_app; cbn; lia |].
        exists (S fuel). cbn. by rewrite (proj2 (Nat.leb_gt _ _) Hs), Er.
    + destruct (IHd (S t)) as [fuel Hf]; [lia.. |]. exists (S fuel). cbn. by rewrite (proj2 (Nat.leb_gt _ _) Hs), Er.
    + exists 1%nat. cbn. rewrite (proj2 (Nat.leb_gt _ _) Hs), Er. by eexists.
Qed.

Lemma recheck_ok escaped f t u : recheck euid F escaped f t = Ok u -> source_identity euid F t = Ok (VerifiedFile.identity f).
Proof. unfold recheck. destruct (source_identity _ _ _) as [i|e]; [| done]. case_bool_decide; [by subst | done]. Qed.

Lemma read_on_finished escaped f room fuel r t bytes l :
  read_on euid F escaped fuel f r room t bytes = Some (Ok l) -> offset r = VerifiedFile.size f -> finished r = true ->
  l = (bytes, t).
Proof.
  destruct fuel as [|fuel]; [done |]. cbn [read_on]. unfold reader_read. intros H Ho Hf.
  rewrite Ho, N.eqb_refl, Hf in H. destruct (room =? 0)%nat; by injection H as <-.
Qed.

Lemma read_on_ok escaped f room fuel : forall r t bytes l T,
  read_on euid F escaped fuel f r room t bytes = Some (Ok (l, T)) -> (0 < room)%nat ->
  offset r = N.of_nat (length bytes) -> offset r <= VerifiedFile.size f -> finished r = false ->
  exists j, T = S j /\ (t <= j)%nat /\ source_identity euid F j = Ok (VerifiedFile.identity f) /\
    forall c, (forall k, (t <= k < j)%nat -> FileAt.content (F k) = c) -> bytes = take (length bytes) c ->
      l = take (N.to_nat (VerifiedFile.size f)) c.
Proof.
  induction fuel as [|fuel IH]; intros r t bytes l T; [done |]. cbn [read_on]. unfold reader_read.
  intros H Hroom Hoff Hle Hfin. destruct (Nat.eqb_spec room 0); [lia |]. rewrite Hfin in H.
  destruct (N.eqb_spec (offset r) (VerifiedFile.size f)) as [Hend|Hmore].
  { destruct (recheck _ _ _ _ _) as [u|] eqn:Er; [| done]. apply recheck_ok in Er. injection H as <- <-.
    exists t. split_and!; [done | lia | done |]. intros c _ Hb. by rewrite <- Hend, Hoff, Nat2N.id. }
  destruct (read_at F t (N.to_nat (offset r)) _) as [[most| |m] x] eqn:Er; [| done..].
  destruct x as [|b x]; [done |]. rewrite Hoff, Nat2N.id in Er.
  destruct (u64_checked_add _ _) as [o|] eqn:Eo; [| done]. cbn -[recheck read_on] in H.
  assert (Ho : o = N.of_nat (length (bytes ++ b :: x))).
  { unfold u64_checked_add in Eo. destruct (_ <=? _); [| done]. injection Eo as <-. rewrite Hoff, length_app. cbn [length]. lia. }
  assert (Hx : forall c, FileAt.content (F t) = c -> bytes = take (length bytes) c ->
    bytes ++ b :: x = take (length (bytes ++ b :: x)) c /\ o <= VerifiedFile.size f).
  { intros c Hc Hb. destruct (read_at_extends _ _ _ _ _ _ Er Hc Hb) as [H1 H2]. split; [done |].
    rewrite Ho, length_app. lia. }
  destruct (N.eqb_spec o (VerifiedFile.size f)) as [Hend|Hmore'].
  - destruct (recheck _ _ _ _ _) as [u|] eqn:Ec; [| done]. apply recheck_ok in Ec. cbn in H.
    apply read_on_finished in H as [= -> ->]; [| done..]. exists (S t). split_and!; [done | lia | done |]. intros c Hc Hb.
    destruct (Hx c (Hc t ltac:(lia)) Hb) as [-> _]. by rewrite <- Hend, Ho, Nat2N.id.
  - assert (Hle' : o <= VerifiedFile.size f).
    { rewrite Ho, length_app. apply (f_equal (fun p => length (snd p))) in Er. unfold read_at in Er.
      destruct (FileAt.outcome _); cbn [snd] in Er; rewrite ?length_take in Er; cbn [length] in *; lia. }
    cbn in H. apply IH in H as (j & -> & Hj & Hi & Hall); [| done..].
    exists j. split_and!; [done | lia | done |]. intros c Hc Hb. destruct (Hx c (Hc t ltac:(lia)) Hb) as [Hb' _].
    apply Hall; [intros k Hk; apply Hc; lia | done].
Qed.
End facts.
End VerifiedFacts.

(** C35: a read of a verified file that ends well, at once or as a stream, has checked after its
    last call that the device, the inode, the size and the times of the file are those of when
    the file was taken in, and gives exactly the bytes it held then, unless one of the calls in
    between saw the file with other bytes and none of these changed with them; and a read at
    once ends as soon as the system calls are not interrupted for ever. *)
Theorem verified_reads_exact (euid : N) (F : nat -> FileAt.t) (escaped : N -> bool) (sha256 : string) (size : N)
    (t0 t : nat) (f : VerifiedFile.t)
    (Hnew : new_verified euid F sha256 size t0 = Ok f)
    (Hsize : N.of_nat (length (FileAt.content (F t0))) = size) :
  (forall fuel l, read_all euid F fuel f t = Some (Ok l) ->
     exists j, read_loop F fuel (S t) (N.to_nat size) [] = Some (Ok (l, j)) /\
       source_identity euid F t = source_identity euid F t0 /\
       source_identity euid F j = source_identity euid F t0 /\
       VerifiedFacts.exact_unless_changed F t0 (S t) j l) /\
  (forall r t' fuel room l T, reader euid F f t = Ok r -> (0 < room)%nat ->
     read_on euid F escaped fuel f r room t' [] = Some (Ok (l, T)) ->
     exists j, T = S j /\ source_identity euid F t = source_identity euid F t0 /\
       source_identity euid F j = source_identity euid F t0 /\
       VerifiedFacts.exact_unless_changed F t0 t' j l) /\
  ((forall i, exists j, (i <= j)%nat /\ FileAt.outcome (F j) <> Interrupted) ->
     exists fuel, is_Some (read_all euid F fuel f t)).
Proof.
  assert (Hf : VerifiedFile.size f = size /\ source_identity euid F t0 = Ok (VerifiedFile.identity f)).
  { unfold new_verified in Hnew. by apply bind_ok in Hnew as (i & Hi & [= <-]). }
  destruct Hf as [Hf Hid]. rewrite Hid.
  assert (Hwhole : forall l, l = take (N.to_nat size) (FileAt.content (F t0)) -> l = FileAt.content (F t0)).
  { intros l ->. apply take_ge. lia. }
  split_and!.
  - unfold read_all. intros fuel l. rewrite Hf.
    destruct (check_identity _ _ _ _ _) as [u0|] eqn:E0; [| done]. apply VerifiedFacts.check_identity_ok in E0.
    intros H. apply bind_Some in H as (r & Hr & H). destruct r as [[l' j]|]; [| done]. injection H as H.
    apply bind_ok in H as (u & Hi%VerifiedFacts.check_identity_ok & [= ->]). exists j.
    split; [done |]. split; [done |]. split; [done |].
    apply VerifiedFacts.read_loop_ok in Hr as [Hle H]. apply VerifiedFacts.exact_if_same. intros Hsame.
    by apply Hwhole, H; [| destruct (FileAt.content (F t0)) | cbn; lia].
  - unfold reader. intros r t' fuel room l T (u & Hu%VerifiedFacts.check_identity_ok & [= <-])%bind_ok Hroom H.
    apply VerifiedFacts.read_on_ok in H as (j & -> & Hj & Hi & H); [| done | done | cbn; lia | done].
    exists j. split; [done |]. split; [done |]. split; [done |]. apply VerifiedFacts.exact_if_same. intros Hsame.
    rewrite Hf in H. by apply Hwhole, H.
  - intros Hlive. unfold read_all. destruct (check_identity _ _ _ _ _); [| exists O; by eexists].
    destruct (VerifiedFacts.read_loop_ends F (N.to_nat (VerifiedFile.size f)) Hlive (N.to_nat (VerifiedFile.size f)) (S t) [])
      as [fuel [r Hr]]; [cbn; lia |]. exists fuel. rewrite Hr. by eexists.
Qed.

Module VerifiedExamples.
Definition stat : Stat.t := Stat.mk 33188 0 1 5 1 2 3 4 5 6.

(** Short reads and an interruption. *)
Definition file (t : nat) : FileAt.t :=
  FileAt.mk (Ok stat) (bytes "hello") (if Nat.even t then Gives 2 else Interrupted).
End VerifiedExamples.

Lemma verified_reads_exact_witness :
  new_verified 0 VerifiedExamples.file "d" 5 0 =
    Ok (VerifiedFile.mk "d" 5 (SourceIdentity.mk 1 2 5 3 4 5 6)) /\
  read_all 0 VerifiedExamples.file 9 (VerifiedFile.mk "d" 5 (SourceIdentity.mk 1 2 5 3 4 5 6)) 1 = Some (Ok (bytes "hello")) /\
  bytes "hello" = FileAt.content (VerifiedExamples.file 0).
Proof.
  assert (Hn : new_verified 0 VerifiedExamples.file "d" 5 0 = Ok (VerifiedFile.mk "d" 5 (SourceIdentity.mk 1 2 5 3 4 5 6)))
    by reflexivity.
  assert (Hr : read_all 0 VerifiedExamples.file 9 (VerifiedFile.mk "d" 5 (SourceIdentity.mk 1 2 5 3 4 5 6)) 1
    = Some (Ok (bytes "hello"))) by reflexivity.
  split; [exact Hn |]. split; [exact Hr |].
  destruct (proj1 (verified_reads_exact 0 VerifiedExamples.file (fun _ => false) "d" 5 0 1 _ Hn eq_refl) 9%nat _ Hr)
    as (j & _ & _ & _ & [Hl|(k & _ & Hk)]); [exact Hl | destruct (Hk eq_refl)].
Defined.

(** The text of an error quotes its message. *)
Example debug_escapes :
  cache_error_to_string (fun _ => false) (CacheError.Corrupt (of_bytes [ascii_of_N 34; ascii_of_N 97; ascii_of_N 10]))
  = of_bytes (bytes "cache error: Corrupt(" ++ [quote; backslash; quote; "a"%char; backslash; "n"%char; quote] ++ bytes ")").
Proof. reflexivity. Qed.
