(* ===== verification/Snapshot.v ===== *)
(** * Planning snapshots ([dnfast-planning]: model.rs)

    The document from which plans are made: policy, inventory, repositories with their payloads,
    and the digests a plan is bound to.  SHA-256, base64, the parser of URLs, serde_json and the
    store of external payloads are the operations of the class [SnapshotEnv]. *)
From Stdlib Require Import Ascii.
From S2P Require Import Prelude.
From S2P Require Import RustStr.
From S2P Require Import Value.
From S2P Require Import Canonical.
From S2P Require Import Policy.
From S2P Require Import Documents.
From S2P Require Import RustText.
From S2P Require Import MainConfig.
From S2P Require Import Trust.
From S2P Require Import Modulemd.
From S2P Require Import CacheModel.

#[local] Open Scope N_scope.

Definition LEGACY_SNAPSHOT_SCHEMA_VERSION : N := 3.
Definition EXTERNAL_SNAPSHOT_SCHEMA_VERSION : N := 4.
Definition EXTENDED_SNAPSHOT_SCHEMA_VERSION : N := 5.
Definition MODULE_STATE_SNAPSHOT_SCHEMA_VERSION : N := 6.
Definition SNAPSHOT_SCHEMA_VERSION : N := 7.
Definition MAX_SNAPSHOT_BYTES : N := 128 * 1024 * 1024.

(** ** Data *)

Module PlanningBytes.
Record t : Type := mk { sha256 : string; size : N; base64 : string }.
#[global] Instance planning_bytes_eq_dec : EqDecision t.
Proof. solve_decision. Defined.
End PlanningBytes.

Module PlanningKey.
Record t : Type := mk { bundle_path : string; certificate_base64 : string }.
#[global] Instance planning_key_eq_dec : EqDecision t.
Proof. solve_decision. Defined.
End PlanningKey.

Module PlanningOrigin.
Record t : Type := mk { repomd_url : string; sha256 : string }.
#[global] Instance planning_origin_eq_dec : EqDecision t.
Proof. solve_decision. Defined.
End PlanningOrigin.

Module PlanningRepository.
Record t : Type := mk {
  id : string;
  priority : N;
  cost : N;
  generation_sha256 : string;
  origin : PlanningOrigin.t;
  repomd : PlanningBytes.t;
  primary : PlanningBytes.t;
  filelists : PlanningBytes.t;
  file_provides : option PlanningBytes.t;
  group : option PlanningBytes.t;
  modules : option PlanningBytes.t;
  updateinfo : option PlanningBytes.t;
  trust : RepoTrustPolicy.t;
  keys : list PlanningKey.t;
  repomd_authentication : RepomdAuthentication.t
}.
#[global] Instance planning_repository_eq_dec : EqDecision t.
Proof. solve_decision. Defined.
End PlanningRepository.

Module PlanningConfiguration.
Record t : Type := mk {
  id : string;
  enabled : bool;
  baseurl : list string;
  metalink : option string;
  mirrorlist : option string;
  priority : N;
  cost : N;
  excludes : list string;
  includes : list string;
  gpgkey : list string;
  allowed_fingerprints : list string;
  repo_gpgcheck : bool
}.
#[global] Instance planning_configuration_eq_dec : EqDecision t.
Proof. solve_decision. Defined.
End PlanningConfiguration.

Module PlanningPolicy.
Record t : Type := mk { solver : SolverPolicy.t; included_packages : list string; installonly_limit : N }.
#[global] Instance planning_policy_eq_dec : EqDecision t.
Proof. solve_decision. Defined.
End PlanningPolicy.

Module PlanningPayload.
Record t : Type := mk {
  policy : PlanningPolicy.t;
  inventory : InstalledInventory.t;
  allowed_repositories : list PlanningRepository.t;
  configuration : list PlanningConfiguration.t;
  module_state : ModuleState.t
}.
#[global] Instance planning_payload_eq_dec : EqDecision t.
Proof. solve_decision. Defined.
End PlanningPayload.

Module PlanningSnapshot.
Record t : Type := mk {
  schema_version : N;
  published_at_unix : N;
  refreshed_repository_ids : list string;
  payload : PlanningPayload.t;
  planning_root : option string;
  storage_owner : N
}.
#[global] Instance planning_snapshot_eq_dec : EqDecision t.
Proof. solve_decision. Defined.
End PlanningSnapshot.

(** ** What is outside the crate *)

Class SnapshotEnv : Type := {
  sha256_hex : list byte -> string;
  base64_decode : string -> option (list byte);
  url_parse : string -> option Url.t;
  debug_escaped : N -> bool;
  policy_json :: SerdeJson SolverPolicy.t;
  trust_json :: SerdeJson RepoTrustPolicy.t;
  inventory_json :: SerdeJson InstalledInventory.t;
  snapshot_json : SerdeJson PlanningSnapshot.t
}.

Definition domain_error {A} (r : domain A) : presult A :=
  map_err (fun e => PlanningError.Input (DomainError.to_string e)) r.
Definition json_error {A} (r : result string A) : presult A := map_err PlanningError.Input r.
Definition cache_input {A} `{SnapshotEnv} (r : cresult A) : presult A :=
  map_err (fun e => PlanningError.Input (cache_error_to_string debug_escaped e)) r.
Definition unsafe_snapshot {A} (message : string) : presult A := Err (PlanningError.UnsafeSnapshot message).

Section snapshot.
Context `{SnapshotEnv}.

Definition policy_sha256 (p : SolverPolicy.t) : domain Sha256Digest.t :=
  canonical_sha256 sha256_hex (@to_canonical_json _ (SolverPolicy.policy_document policy_json)) p.
Definition trust_sha256 (p : RepoTrustPolicy.t) : domain Sha256Digest.t :=
  canonical_sha256 sha256_hex (@to_canonical_json _ (RepoTrustPolicy.trust_document trust_json)) p.
(** The memo of the inventory holds this digest. *)
Definition inventory_sha256 (i : InstalledInventory.t) : domain Sha256Digest.t :=
  canonical_sha256 sha256_hex (@to_canonical_json _ (InstalledInventory.inventory_document inventory_json)) i.

(** ** Payloads *)

Definition validate_shape (b : PlanningBytes.t) (schema_version : N) : presult unit :=
  if (PlanningBytes.size b =? 0) || negb (str_len (PlanningBytes.sha256 b) =? 64)
     || negb (forallb lowercase_hex (bytes (PlanningBytes.sha256 b)))
     || ((schema_version =? LEGACY_SNAPSHOT_SCHEMA_VERSION) && str_is_empty (PlanningBytes.base64 b))
  then input "snapshot payload descriptor is invalid" else Ok tt.

Definition decode (b : PlanningBytes.t) : presult (list byte) :=
  ok_or (PlanningError.Input "invalid base64 snapshot payload") (base64_decode (PlanningBytes.base64 b)).

(** [read_blob]: an external payload, by its digest and size. *)
Definition decode_verified (read_blob : string -> N -> string -> N -> presult (list byte))
    (b : PlanningBytes.t) (storage : option (string * N)) : presult (list byte) :=
  decoded ← (if str_is_empty (PlanningBytes.base64 b) then
               '(planning_root, owner) ←
                 ok_or (PlanningError.UnsafeSnapshot "external snapshot payload has no trusted storage binding") storage;
               read_blob planning_root owner (PlanningBytes.sha256 b) (PlanningBytes.size b)
             else decode b);
  if negb (N.of_nat (length decoded) =? PlanningBytes.size b)
     || negb (bool_decide (sha256_hex decoded = PlanningBytes.sha256 b))
  then input "snapshot payload digest differs" else Ok decoded.

(** ** Repositories *)

Definition is_some {A} (o : option A) : bool := if o then true else false.

Definition bundle_step (id : string) (digest : list byte) (key : PlanningKey.t) : presult (list byte) :=
  _ ← map_err (fun _ => PlanningError.Input "key bundle path differs from repository")
        (validate_gpgkey_bundle_path id (PlanningKey.bundle_path key));
  certificate ← ok_or (PlanningError.Input "key certificate is not base64")
                  (base64_decode (PlanningKey.certificate_base64 key));
  Ok (digest ++ key_frame (PlanningKey.bundle_path key) certificate).

Definition required_payloads (r : PlanningRepository.t) : list PlanningBytes.t :=
  [PlanningRepository.repomd r; PlanningRepository.primary r; PlanningRepository.filelists r].

Definition optional_payloads (r : PlanningRepository.t) : list PlanningBytes.t :=
  option_list (PlanningRepository.group r) ++ option_list (PlanningRepository.modules r) ++
  option_list (PlanningRepository.updateinfo r) ++ option_list (PlanningRepository.file_provides r).

Definition validate_repository (r : PlanningRepository.t) (schema_version : N) : presult unit :=
  if str_is_empty (PlanningRepository.id r)
     || negb (bool_decide (PlanningRepository.generation_sha256 r = PlanningBytes.sha256 (PlanningRepository.repomd r)))
     || negb (bool_decide (RepoTrustPolicy.repo_id (PlanningRepository.trust r) = PlanningRepository.id r))
     || bool_decide (PlanningRepository.keys r = [])
     || windows2_any (fun a b => geb (PlanningKey.bundle_path a) (PlanningKey.bundle_path b)) (PlanningRepository.keys r)
  then input "repository payload is not canonical"
  else if (schema_version <? EXTENDED_SNAPSHOT_SCHEMA_VERSION)
     && (is_some (PlanningRepository.file_provides r) || is_some (PlanningRepository.group r)
         || is_some (PlanningRepository.modules r))
  then input "legacy snapshot contains unbound extended metadata"
  else if (schema_version <? SNAPSHOT_SCHEMA_VERSION) && is_some (PlanningRepository.updateinfo r)
  then input "legacy snapshot contains unbound updateinfo metadata"
  else
    _ ← for_each (fun b => validate_shape b schema_version) (required_payloads r);
    _ ← for_each (fun b => validate_shape b schema_version) (optional_payloads r);
    let origin := PlanningRepository.origin r in
    if negb (bool_decide (sha256_hex (bytes (PlanningOrigin.repomd_url origin)) = PlanningOrigin.sha256 origin))
    then input "selected origin digest differs"
    else
      _ ← map_err (fun e => PlanningError.Input (origin_error_to_string e))
            (parse_origin url_parse (PlanningOrigin.repomd_url origin));
      _ ← domain_error (trust_sha256 (PlanningRepository.trust r));
      _ ← cache_input (RepomdAuthentication.validate (PlanningRepository.repomd_authentication r));
      bundle ← fold_result (bundle_step (PlanningRepository.id r)) DOMAIN (PlanningRepository.keys r);
      if negb (bool_decide (sha256_hex bundle
           = Sha256Digest.as_str (RepoTrustPolicy.key_bundle_sha256 (PlanningRepository.trust r))))
      then input "key bundle differs from trust policy" else Ok tt.

(** ** Snapshots *)

Definition repository_of (c : list PlanningConfiguration.t) (id : string) : option PlanningConfiguration.t :=
  head (base.filter (fun x => PlanningConfiguration.id x = id) c).

Definition find_repository (l : list PlanningRepository.t) (id : string) : option PlanningRepository.t :=
  head (base.filter (fun x => PlanningRepository.id x = id) l).

Definition authenticated (fingerprints : list string) (r : PlanningRepository.t) : bool :=
  match PlanningRepository.repomd_authentication r with
  | RepomdAuthentication.OpenPgp primary _ bundle _ =>
      bool_decide (primary ∈ fingerprints)
      && bool_decide (bundle = Sha256Digest.as_str (RepoTrustPolicy.key_bundle_sha256 (PlanningRepository.trust r)))
  | RepomdAuthentication.TransportOnly => false
  end.

Definition validate_configured (configurations : list PlanningConfiguration.t) (schema_version : N)
    (r : PlanningRepository.t) : presult unit :=
  _ ← validate_repository r schema_version;
  configuration ← ok_or (PlanningError.Input "allowed repository is absent from configuration")
                    (repository_of configurations (PlanningRepository.id r));
  if negb (PlanningConfiguration.enabled configuration)
     || negb (PlanningConfiguration.priority configuration =? PlanningRepository.priority r)
     || negb (PlanningConfiguration.cost configuration =? PlanningRepository.cost r)
     || negb (bool_decide (PlanningConfiguration.gpgkey configuration
                           = PlanningKey.bundle_path <$> PlanningRepository.keys r))
  then input "allowed repository differs from configuration"
  else
    let fingerprints := sort (to_ascii_uppercase <$> PlanningConfiguration.allowed_fingerprints configuration) in
    if negb (bool_decide (fingerprints = RepoTrustPolicy.allowed_primary_fingerprints (PlanningRepository.trust r)))
    then input "repository trust differs from configuration"
    else if PlanningConfiguration.repo_gpgcheck configuration && negb (authenticated fingerprints r)
    then input "repository requires authenticated repomd metadata" else Ok tt.

Definition supported_schema (version : N) : bool :=
  bool_decide (version ∈ [LEGACY_SNAPSHOT_SCHEMA_VERSION; EXTERNAL_SNAPSHOT_SCHEMA_VERSION;
    EXTENDED_SNAPSHOT_SCHEMA_VERSION; MODULE_STATE_SNAPSHOT_SCHEMA_VERSION; SNAPSHOT_SCHEMA_VERSION]).

Definition validate (s : PlanningSnapshot.t) : presult unit :=
  let p := PlanningSnapshot.payload s in
  let repositories := PlanningPayload.allowed_repositories p in
  if negb (supported_schema (PlanningSnapshot.schema_version s)) then input "unsupported snapshot schema"
  else if bool_decide (repositories = [])
     || windows2_any geb (PlanningSnapshot.refreshed_repository_ids s)
     || existsb (fun id => negb (existsb (fun r => bool_decide (PlanningRepository.id r = id)) repositories))
          (PlanningSnapshot.refreshed_repository_ids s)
     || windows2_any (fun a b => geb (PlanningRepository.id a) (PlanningRepository.id b)) repositories
     || windows2_any (fun a b => geb (PlanningConfiguration.id a) (PlanningConfiguration.id b))
          (PlanningPayload.configuration p)
  then input "repositories are not canonical"
  else
    _ ← domain_error (SolverPolicy.ensure_supported (PlanningPolicy.solver (PlanningPayload.policy p)));
    _ ← domain_error (inventory_sha256 (PlanningPayload.inventory p));
    _ ← validate_module_state (PlanningPayload.module_state p);
    if (PlanningSnapshot.schema_version s <? MODULE_STATE_SNAPSHOT_SCHEMA_VERSION)
       && negb (state_is_empty (PlanningPayload.module_state p))
    then input "legacy snapshot contains module state"
    else for_each (validate_configured (PlanningPayload.configuration p) (PlanningSnapshot.schema_version s)) repositories.

Definition new_with_refreshed_repositories (published_at_unix : N) (refreshed : list string)
    (payload : PlanningPayload.t) : presult PlanningSnapshot.t :=
  let value := PlanningSnapshot.mk SNAPSHOT_SCHEMA_VERSION published_at_unix refreshed payload None 0 in
  _ ← validate value; Ok value.

Definition new (published_at_unix : N) (payload : PlanningPayload.t) : presult PlanningSnapshot.t :=
  new_with_refreshed_repositories published_at_unix
    (PlanningRepository.id <$> PlanningPayload.allowed_repositories payload) payload.

Definition has_current_schema (s : PlanningSnapshot.t) : bool :=
  PlanningSnapshot.schema_version s =? SNAPSHOT_SCHEMA_VERSION.

Definition attach_storage (s : PlanningSnapshot.t) (planning_root : string) (owner : N) : PlanningSnapshot.t :=
  PlanningSnapshot.mk (PlanningSnapshot.schema_version s) (PlanningSnapshot.published_at_unix s)
    (PlanningSnapshot.refreshed_repository_ids s) (PlanningSnapshot.payload s) (Some planning_root) owner.

Definition storage (s : PlanningSnapshot.t) : option (string * N) :=
  (fun root => (root, PlanningSnapshot.storage_owner s)) <$> PlanningSnapshot.planning_root s.

Definition materialize_payload (read_blob : string -> N -> string -> N -> presult (list byte))
    (s : PlanningSnapshot.t) (b : PlanningBytes.t) : presult (list byte) :=
  decode_verified read_blob b (storage s).
End snapshot.

(** ** Documents *)

Section documents.
Context `{SnapshotEnv}.

(** The checks of the derived and hand-written [Deserialize]s of the parts. *)
Definition repository_deserialize (r : PlanningRepository.t) : result string PlanningRepository.t :=
  _ ← RepoTrustPolicy.deserialize (PlanningRepository.trust r); Ok r.

Definition payload_deserialize (p : PlanningPayload.t) : result string PlanningPayload.t :=
  solver ← SolverPolicy.deserialize (PlanningPolicy.solver (PlanningPayload.policy p));
  inventory ← InstalledInventory.deserialize (PlanningPayload.inventory p);
  repositories ← mapM repository_deserialize (PlanningPayload.allowed_repositories p);
  Ok (PlanningPayload.mk
        (PlanningPolicy.mk solver (PlanningPolicy.included_packages (PlanningPayload.policy p))
           (PlanningPolicy.installonly_limit (PlanningPayload.policy p)))
        inventory repositories (PlanningPayload.configuration p) (PlanningPayload.module_state p)).

Definition snapshot_deserialize (s : PlanningSnapshot.t) : result string PlanningSnapshot.t :=
  payload ← payload_deserialize (PlanningSnapshot.payload s);
  Ok (PlanningSnapshot.mk (PlanningSnapshot.schema_version s) (PlanningSnapshot.published_at_unix s)
        (PlanningSnapshot.refreshed_repository_ids s) payload (PlanningSnapshot.planning_root s)
        (PlanningSnapshot.storage_owner s)).

Definition snapshot_serde : SerdeJson PlanningSnapshot.t := checked_serde snapshot_json snapshot_deserialize.

Definition canonical_bytes (s : PlanningSnapshot.t) : presult (list byte) :=
  _ ← validate s; json_error (@to_vec _ snapshot_serde s).

Definition digest (s : PlanningSnapshot.t) : presult string := l ← canonical_bytes s; Ok (sha256_hex l).

Definition from_canonical_bytes (l : list byte) : presult PlanningSnapshot.t :=
  if MAX_SNAPSHOT_BYTES <? N.of_nat (length l) then unsafe_snapshot "snapshot exceeds maximum size"
  else
    value ← json_error (@from_slice _ snapshot_serde l);
    canonical ← canonical_bytes value;
    if negb (bool_decide (canonical = l)) then unsafe_snapshot "snapshot is not canonical JSON"
    else _ ← validate value; Ok value.

(** ** What a plan is bound to *)

Definition selected_repositories (s : PlanningSnapshot.t) (ids : list string) : presult (list PlanningRepository.t) :=
  let repositories := PlanningPayload.allowed_repositories (PlanningSnapshot.payload s) in
  let requested := sort (if bool_decide (ids = []) then PlanningRepository.id <$> repositories else ids) in
  if windows2_any (fun a b => bool_decide (a = b)) requested
  then input "selected repository identifiers are duplicate"
  else
    mapM (fun id => ok_or (PlanningError.Input "selected repository is not root-published and enabled")
                      (find_repository repositories id)) requested.

(** A name and its text, framed by their lengths. *)
Definition frame (name text : string) : list byte := key_frame name (bytes text).
Definition framed (text : string) : list byte := frame text text.

Definition payload_frame (b : PlanningBytes.t) : list byte :=
  framed (PlanningBytes.sha256 b) ++ u64_be (PlanningBytes.size b).

Definition role_frame (role : string) (b : option PlanningBytes.t) : list byte :=
  framed role ++ match b with Some b => payload_frame b | None => [] end.

Definition METADATA_V5 : list byte := bytes "dnfast-root-metadata-v5".
Definition METADATA_V4 : list byte := bytes "dnfast-root-metadata-v4".
Definition METADATA_V3 : list byte := bytes "dnfast-root-metadata-v3".

Definition metadata_domain (schema_version : N) : list byte :=
  if SNAPSHOT_SCHEMA_VERSION <=? schema_version then METADATA_V5
  else if EXTENDED_SNAPSHOT_SCHEMA_VERSION <=? schema_version then METADATA_V4 else METADATA_V3.

Definition repository_frame (schema_version : N) (r : PlanningRepository.t) (trust : Sha256Digest.t) : list byte :=
  framed (PlanningRepository.id r) ++ u32_be (PlanningRepository.priority r) ++ u32_be (PlanningRepository.cost r) ++
  framed (PlanningRepository.generation_sha256 r) ++ framed (PlanningOrigin.sha256 (PlanningRepository.origin r)) ++
  framed (Sha256Digest.as_str trust) ++
  concat (payload_frame <$> required_payloads r) ++
  (if EXTENDED_SNAPSHOT_SCHEMA_VERSION <=? schema_version then
     role_frame "file-provides" (PlanningRepository.file_provides r) ++ role_frame "group" (PlanningRepository.group r) ++
     role_frame "modules" (PlanningRepository.modules r)
   else []) ++
  (if SNAPSHOT_SCHEMA_VERSION <=? schema_version then role_frame "updateinfo" (PlanningRepository.updateinfo r) else []).

Definition metadata_step (schema_version : N) (l : list byte) (r : PlanningRepository.t) : presult (list byte) :=
  trust ← domain_error (trust_sha256 (PlanningRepository.trust r));
  Ok (l ++ repository_frame schema_version r trust).

Definition metadata_digest (repositories : list PlanningRepository.t) (schema_version : N) : presult string :=
  l ← fold_result (metadata_step schema_version) (metadata_domain schema_version) repositories; Ok (sha256_hex l).

Definition TRUST_V3 : list byte := bytes "dnfast-root-trust-v3".

Definition trust_step (l : list byte) (r : PlanningRepository.t) : presult (list byte) :=
  trust ← domain_error (trust_sha256 (PlanningRepository.trust r));
  Ok (l ++ framed (PlanningRepository.id r) ++ framed (Sha256Digest.as_str trust)).

Definition trust_digest (repositories : list PlanningRepository.t) : presult string :=
  l ← fold_result trust_step TRUST_V3 repositories; Ok (sha256_hex l).

Definition binding (r : PlanningRepository.t) : domain RepositoryBinding.t :=
  trust ← trust_sha256 (PlanningRepository.trust r);
  generation ← Sha256Digest.parse (PlanningRepository.generation_sha256 r) "generation_sha256";
  origin ← Sha256Digest.parse (PlanningOrigin.sha256 (PlanningRepository.origin r)) "origin_sha256";
  RepositoryBinding.new (PlanningRepository.id r) generation origin trust.

Definition integrity_for_repositories (s : PlanningSnapshot.t) (ids : list string) : presult PlanIntegrity.t :=
  _ ← validate s;
  selected ← selected_repositories s ids;
  policy ← domain_error (policy_sha256 (PlanningPolicy.solver (PlanningPayload.policy (PlanningSnapshot.payload s))));
  inventory ← domain_error (inventory_sha256 (PlanningPayload.inventory (PlanningSnapshot.payload s)));
  snapshot ← digest s;
  metadata ← metadata_digest selected (PlanningSnapshot.schema_version s);
  trust ← trust_digest selected;
  bindings ← domain_error (mapM binding selected);
  domain_error (PlanIntegrity.new (Sha256Digest.as_str policy) trust (Sha256Digest.as_str inventory) metadata snapshot bindings).
End documents.
