(* ===== verification/SnapshotFacts.v ===== *)
(** * Facts about planning snapshots

    The framing of the metadata digest is unambiguous, what a validated snapshot promises, and
    what the integrity of a plan binds it to. *)
From Stdlib Require Import Ascii.
From S2P Require Import Prelude.
From S2P Require Import RustStr.
From S2P Require Import Value.
From S2P Require Import Canonical.
From S2P Require Import Policy.
From S2P Require Import Documents.
From S2P Require Import RustText.
From S2P Require Import MainConfig.
From S2P Require Import Trust.
From S2P Require Import Modulemd.
From S2P Require Import CacheModel.
From S2P Require Import Snapshot.

#[local] Open Scope N_scope.

(** ** Framing *)

Module Framing.

Definition short (s : string) : Prop := str_len s < 2 ^ 64.

Lemma be_app_inj width a b (x y : list byte) :
  a < 256 ^ N.of_nat width -> b < 256 ^ N.of_nat width ->
  be_bytes width a ++ x = be_bytes width b ++ y -> a = b /\ x = y.
Proof.
  intros Ha Hb Heq. apply app_inj_1 in Heq as [Hv ->]; [| by rewrite !length_be_bytes].
  split; [by apply (be_bytes_inj width) | done].
Qed.

Lemma u64_app_inj a b (x y : list byte) : a < 2 ^ 64 -> b < 2 ^ 64 -> u64_be a ++ x = u64_be b ++ y -> a = b /\ x = y.
Proof. intros Ha Hb. by apply (be_app_inj 8). Qed.

Lemma u32_app_inj a b (x y : list byte) : a < 2 ^ 32 -> b < 2 ^ 32 -> u32_be a ++ x = u32_be b ++ y -> a = b /\ x = y.
Proof. intros Ha Hb. by apply (be_app_inj 4). Qed.

Lemma framed_app_inj a b (x y : list byte) : short a -> short b -> framed a ++ x = framed b ++ y -> a = b /\ x = y.
Proof.
  intros Ha Hb. unfold framed, frame, key_frame. rewrite <- !app_assoc. intros Heq.
  apply u64_app_inj in Heq as [Hlen Heq]; [| done..].
  apply app_inj_1 in Heq as [Hs Heq]; [| unfold str_len in Hlen; lia]. apply bytes_inj in Hs as ->. split; [done |].
  apply u64_app_inj in Heq as [_ Heq]; [| done..]. by apply app_inv_head in Heq.
Qed.

Lemma digest_len s : valid_digest s = true -> str_len s = 64.
Proof. unfold valid_digest. intros [H _]%andb_prop. by apply N.eqb_eq in H. Qed.

Lemma digest_short s : valid_digest s = true -> short s.
Proof. intros H%digest_len. unfold short. by rewrite H. Qed.

Lemma digest_head s : valid_digest s = true -> exists b l, bytes s = b :: l /\ byte_val b <> 0.
Proof.
  intros Hs. pose proof (digest_len s Hs) as Hlen. unfold str_len in Hlen.
  unfold valid_digest in Hs. apply andb_prop in Hs as [_ Hall].
  destruct (bytes s) as [|b l]; [done |]. exists b, l. split; [done |]. cbn in Hall. apply andb_prop in Hall as [Hb _].
  intros Hz. unfold lowercase_hex, is_ascii_digit, in_range in Hb. rewrite Hz in Hb. done.
Qed.

(** ** What the metadata digest is made of *)

Definition payload_ok (b : PlanningBytes.t) : Prop :=
  valid_digest (PlanningBytes.sha256 b) = true /\ PlanningBytes.size b < 2 ^ 64.

Definition payload_view (b : PlanningBytes.t) : string * N := (PlanningBytes.sha256 b, PlanningBytes.size b).

Lemma payload_app_inj b c (x y : list byte) : payload_ok b -> payload_ok c ->
  payload_frame b ++ x = payload_frame c ++ y -> payload_view b = payload_view c /\ x = y.
Proof.
  intros [Hb Hb'] [Hc Hc'] Heq. unfold payload_frame in Heq. rewrite <- !app_assoc in Heq.
  apply framed_app_inj in Heq as [Hs Heq]; [| by apply digest_short..].
  apply u64_app_inj in Heq as [Hsz ->]; [| done..]. unfold payload_view. by rewrite Hs, Hsz.
Qed.

(** What may follow the frames of a repository: nothing, or the next repository. *)
Definition follows (x : list byte) : Prop :=
  x = [] \/ exists id w generation origin y, short id /\ length w = 8%nat /\
    valid_digest generation = true /\ valid_digest origin = true /\
    x = framed id ++ w ++ framed generation ++ framed origin ++ y.

Lemma framed_nonempty s x : framed s ++ x <> [].
Proof.
  intros H. apply (f_equal length) in H. unfold framed, frame, key_frame, u64_be in H.
  rewrite !length_app, length_be_bytes in H. cbn in H. lia.
Qed.

(** The next repository is not read as a payload, even when its id looks like a digest. *)
Lemma follows_not_payload b x z : payload_ok b -> follows x -> follows z -> x <> payload_frame b ++ z.
Proof.
  intros [Hb Hb'] Hx Hz Heq. unfold payload_frame in Heq. rewrite <- app_assoc in Heq.
  destruct Hx as [-> | (id & w & gen & origin & y & Hid & Hw & Hgen & Horigin & ->)].
  { symmetry in Heq. by apply framed_nonempty in Heq. }
  apply framed_app_inj in Heq as [_ Heq]; [| done | by apply digest_short].
  apply app_inj_1 in Heq as [_ Heq]; [| unfold u64_be; by rewrite length_be_bytes].
  destruct Hz as [-> | (id' & w' & gen' & origin' & y' & Hid' & Hw' & Hgen' & Horigin' & ->)].
  { by apply framed_nonempty in Heq. }
  apply framed_app_inj in Heq as [_ Heq]; [| by apply digest_short | done].
  unfold framed, frame, key_frame in Heq. rewrite <- !app_assoc in Heq.
  apply app_inj_1 in Heq as [_ Heq]; [| unfold u64_be; by rewrite length_be_bytes].
  destruct (digest_head origin Horigin) as (c & l & Hc & Hne). rewrite Hc, (digest_len gen' Hgen') in Heq.
  injection Heq as Hz _. subst c. by apply Hne.
Qed.

(** Another role is not read as a payload either: its name is shorter than a digest. *)
Lemma role_not_payload b role x z : payload_ok b -> str_len role < 64 -> framed role ++ x <> payload_frame b ++ z.
Proof.
  intros [Hb Hb'] Hr Heq. unfold payload_frame in Heq. rewrite <- app_assoc in Heq.
  apply framed_app_inj in Heq as [-> _]; [| unfold short; lia | by apply digest_short].
  rewrite (digest_len _ Hb) in Hr. lia.
Qed.

Definition option_ok (o : option PlanningBytes.t) : Prop := forall b, o = Some b -> payload_ok b.

Lemma optional_app_inj o o' (x y : list byte) : option_ok o -> option_ok o' ->
  (forall b z, payload_ok b -> z = x \/ z = y -> x <> payload_frame b ++ z /\ y <> payload_frame b ++ z) ->
  match o with Some b => payload_frame b | None => [] end ++ x =
    match o' with Some b => payload_frame b | None => [] end ++ y ->
  payload_view <$> o = payload_view <$> o' /\ x = y.
Proof.
  intros Ho Ho' Hno Heq. destruct o as [b|], o' as [c|]; cbn [app] in Heq.
  - apply payload_app_inj in Heq as [Hv ->]; [| by apply Ho | by apply Ho']. cbn. by rewrite Hv.
  - exfalso. symmetry in Heq. revert Heq. apply Hno; [by apply Ho | by left].
  - exfalso. revert Heq. apply Hno; [by apply Ho' | by right].
  - done.
Qed.

Definition role_ok (p : string * option PlanningBytes.t) : Prop := str_len p.1 < 64 /\ option_ok p.2.

Definition roles_frame (l : list (string * option PlanningBytes.t)) : list byte :=
  concat ((fun p => role_frame p.1 p.2) <$> l).

Definition roles_view (l : list (string * option PlanningBytes.t)) : list (option (string * N)) :=
  map (fun p => payload_view <$> snd p) l.

Lemma roles_app_inj l : forall l' (x y : list byte), l.*1 = l'.*1 -> Forall role_ok l -> Forall role_ok l' ->
  follows x -> follows y -> roles_frame l ++ x = roles_frame l' ++ y -> roles_view l = roles_view l' /\ x = y.
Proof.
  induction l as [|[role o] l IH]; intros [|[role' o'] l'] x y Hnames Hl Hl' Hx Hy Heq; try done.
  injection Hnames as <- Hnames. apply Forall_cons in Hl as [[Hr Ho] Hl], Hl' as [[_ Ho'] Hl'].
  unfold roles_frame, role_frame in Heq. rewrite !fmap_cons in Heq. cbn [concat fst snd] in *.
  rewrite <- !app_assoc in Heq. apply framed_app_inj in Heq as [_ Heq]; [| unfold short; lia..].
  apply optional_app_inj in Heq as [Hv Heq]; [| done | done |].
  - destruct (IH l' x y) as [Hvs ->]; try done. split; [| done]. unfold roles_view in *. cbn [map snd]. by rewrite Hv, Hvs.
  - intros b z Hb Hz. destruct l as [|[r1 o1] l], l' as [|[r2 o2] l']; try done.
    + cbn in Hz |- *. split; destruct Hz as [-> | ->]; by apply follows_not_payload.
    + apply Forall_cons in Hl as [[Hr1 _] _], Hl' as [[Hr2 _] _]. rewrite !fmap_cons.
      cbn [concat fst snd]. unfold role_frame. rewrite <- !app_assoc. split; by apply role_not_payload.
Qed.

(** ** Repositories *)

Definition roles (version : N) (r : PlanningRepository.t) : list (string * option PlanningBytes.t) :=
  (if EXTENDED_SNAPSHOT_SCHEMA_VERSION <=? version then
     [("file-provides", PlanningRepository.file_provides r); ("group", PlanningRepository.group r);
      ("modules", PlanningRepository.modules r)]
   else []) ++
  (if SNAPSHOT_SCHEMA_VERSION <=? version then [("updateinfo", PlanningRepository.updateinfo r)] else []).

(** Widths of the machine, and what validation establishes. *)
Record repository_ok (r : PlanningRepository.t) (trust : Sha256Digest.t) : Prop := {
  ok_id : short (PlanningRepository.id r);
  ok_priority : PlanningRepository.priority r < 2 ^ 32;
  ok_cost : PlanningRepository.cost r < 2 ^ 32;
  ok_generation : valid_digest (PlanningRepository.generation_sha256 r) = true;
  ok_origin : valid_digest (PlanningOrigin.sha256 (PlanningRepository.origin r)) = true;
  ok_trust : valid_digest (Sha256Digest.as_str trust) = true;
  ok_required : Forall payload_ok (required_payloads r);
  ok_optional : forall version, Forall role_ok (roles version r);
}.

(** Everything of a repository that the digest tells apart. *)
Definition repository_view (version : N) (p : PlanningRepository.t * Sha256Digest.t) :=
  (PlanningRepository.id p.1, PlanningRepository.priority p.1, PlanningRepository.cost p.1,
   PlanningRepository.generation_sha256 p.1, PlanningOrigin.sha256 (PlanningRepository.origin p.1), p.2,
   payload_view <$> required_payloads p.1, roles_view (roles version p.1)).

Lemma repository_frame_split version r trust x :
  repository_frame version r trust ++ x =
  framed (PlanningRepository.id r) ++ (u32_be (PlanningRepository.priority r) ++ u32_be (PlanningRepository.cost r)) ++
  framed (PlanningRepository.generation_sha256 r) ++ framed (PlanningOrigin.sha256 (PlanningRepository.origin r)) ++
  framed (Sha256Digest.as_str trust) ++ payload_frame (PlanningRepository.repomd r) ++
  payload_frame (PlanningRepository.primary r) ++ payload_frame (PlanningRepository.filelists r) ++
  roles_frame (roles version r) ++ x.
Proof.
  unfold repository_frame, roles, roles_frame, required_payloads. rewrite fmap_app, concat_app.
  assert (E : forall a b : bool, concat ((fun p : string * option PlanningBytes.t => role_frame p.1 p.2) <$>
      (if a then [("file-provides", PlanningRepository.file_provides r); ("group", PlanningRepository.group r);
        ("modules", PlanningRepository.modules r)] else [])) =
      if a then role_frame "file-provides" (PlanningRepository.file_provides r) ++ role_frame "group" (PlanningRepository.group r) ++
        role_frame "modules" (PlanningRepository.modules r) else []).
  { intros [] _; [| done]. cbn [fmap list_fmap map concat fst snd]. by rewrite app_nil_r. }
  rewrite (E _ true). assert (E' : forall b : bool, concat ((fun p : string * option PlanningBytes.t => role_frame p.1 p.2) <$>
      (if b then [("updateinfo", PlanningRepository.updateinfo r)] else [])) =
      if b then role_frame "updateinfo" (PlanningRepository.updateinfo r) else []).
  { intros []; [| done]. cbn [fmap list_fmap map concat fst snd]. by rewrite app_nil_r. }
  rewrite E'. cbn [fmap list_fmap map concat]. rewrite app_nil_r, <- !app_assoc. done.
Qed.

Lemma frame_follows version r trust x : repository_ok r trust -> follows (repository_frame version r trust ++ x).
Proof.
  intros []. right. rewrite repository_frame_split. do 5 eexists. split_and!; [| | | | reflexivity]; try done.
Qed.

Definition frames (version : N) (l : list (PlanningRepository.t * Sha256Digest.t)) : list byte :=
  concat ((fun p => repository_frame version p.1 p.2) <$> l).

Lemma frames_follow version l : Forall (fun p => repository_ok p.1 p.2) l -> follows (frames version l).
Proof.
  destruct l as [|p l]; [by left |]. intros [Hp _]%Forall_cons. unfold frames. rewrite fmap_cons. by apply frame_follows.
Qed.

Lemma digest_eq (a b : Sha256Digest.t) : Sha256Digest.as_str a = Sha256Digest.as_str b -> a = b.
Proof. destruct a, b. cbn. by intros ->. Qed.

(** The frames of repositories tell everything in the view apart. *)
Lemma frames_inj version l : forall l', Forall (fun p => repository_ok p.1 p.2) l ->
  Forall (fun p => repository_ok p.1 p.2) l' -> frames version l = frames version l' ->
  repository_view version <$> l = repository_view version <$> l'.
Proof.
  induction l as [|[r t] l IH]; intros [|[r' t'] l'] Hl Hl' Heq; [done | | |].
  - unfold frames in Heq. rewrite fmap_cons in Heq. cbn [fmap list_fmap map concat fst snd] in Heq.
    rewrite repository_frame_split in Heq. symmetry in Heq. by apply framed_nonempty in Heq.
  - unfold frames in Heq. rewrite fmap_cons in Heq. cbn [fmap list_fmap map concat fst snd] in Heq.
    rewrite repository_frame_split in Heq. by apply framed_nonempty in Heq.
  - apply Forall_cons in Hl as [H Hl], Hl' as [H' Hl']. unfold frames in Heq. rewrite !fmap_cons in Heq.
    cbn [concat fst snd] in *. fold (frames version l) in Heq. fold (frames version l') in Heq.
    rewrite !repository_frame_split in Heq. rewrite <- !app_assoc in Heq. destruct H, H'.
    apply framed_app_inj in Heq as [E1 Heq]; [| done..].
    apply u32_app_inj in Heq as [E2 Heq]; [| done..]. apply u32_app_inj in Heq as [E3 Heq]; [| done..].
    apply framed_app_inj in Heq as [E4 Heq]; [| by apply digest_short..].
    apply framed_app_inj in Heq as [E5 Heq]; [| by apply digest_short..].
    apply framed_app_inj in Heq as [E6%digest_eq Heq]; [| by apply digest_short..].
    unfold required_payloads in *. rewrite !Forall_cons in *.
    apply payload_app_inj in Heq as [E7 Heq]; [| tauto..]. apply payload_app_inj in Heq as [E8 Heq]; [| tauto..].
    apply payload_app_inj in Heq as [E9 Heq]; [| tauto..].
    apply roles_app_inj in Heq as [E10 Heq]; [| | done | done | by apply frames_follow..].
    + rewrite !fmap_cons, (IH l') by done. f_equal. unfold repository_view, required_payloads. cbn [fst snd fmap list_fmap map].
      by rewrite E1, E2, E3, E4, E5, E6, E7, E8, E9, E10.
    + unfold roles. by destruct (_ <=? _), (_ <=? _).
Qed.
End Framing.

(** ** Validation *)

(** The condition of an error is false where the result is not one. *)
Ltac refuse_if E :=
  match goal with |- (if ?b then _ else _) = _ -> _ => destruct b eqn:E; [discriminate |] end.

Module SnapshotSafety.
Section facts.
Context `{SnapshotEnv}.

Definition payload_shape (version : N) (b : PlanningBytes.t) : Prop :=
  PlanningBytes.size b <> 0 /\ valid_digest (PlanningBytes.sha256 b) = true /\
  (version = LEGACY_SNAPSHOT_SCHEMA_VERSION -> PlanningBytes.base64 b <> "").

Lemma validate_shape_ok b version u : validate_shape b version = Ok u -> payload_shape version b.
Proof.
  unfold validate_shape. destruct (_ || _) eqn:E; [done |]. intros _.
  rewrite !orb_false_iff, !negb_false_iff, andb_false_iff in E. destruct E as [[[E1 E2] E3] E4].
  split_and!; [by apply N.eqb_neq in E1 | unfold valid_digest; by rewrite E2 |].
  intros ->. destruct E4 as [E4|E4]; [done | by apply str_is_empty_false].
Qed.

Definition certificate_of (k : PlanningKey.t) (c : string * list byte) : Prop :=
  c.1 = PlanningKey.bundle_path k /\ base64_decode (PlanningKey.certificate_base64 k) = Some c.2.

Lemma bundle_fold_ok id keys : forall d b, fold_result (bundle_step id) d keys = Ok b ->
  Forall (fun k => validate_gpgkey_bundle_path id (PlanningKey.bundle_path k) = Ok tt) keys /\
  exists cs, Forall2 certificate_of keys cs /\ b = d ++ concat ((fun p => key_frame p.1 p.2) <$> cs).
Proof.
  induction keys as [|k keys IH]; intros d b Hf; cbn [fold_result] in Hf.
  { injection Hf as <-. split; [constructor |]. exists []. split; [constructor |]. cbn. by rewrite app_nil_r. }
  apply bind_ok in Hf as (d' & Hstep & Hf). apply IH in Hf as [Hall (cs & Hcs & ->)].
  unfold bundle_step in Hstep. apply bind_ok in Hstep as (u & Hpath%map_err_ok & (c & Hc%ok_or_ok & [= <-])%bind_ok).
  split; [constructor; [by destruct u | done] |]. exists ((PlanningKey.bundle_path k, c) :: cs).
  split; [by constructor |]. rewrite fmap_cons. cbn [concat fst snd]. by rewrite app_assoc.
Qed.

Definition payloads (r : PlanningRepository.t) : list PlanningBytes.t := required_payloads r ++ optional_payloads r.

(** What an accepted snapshot guarantees of a repository of its. *)
Record repository_sound (version : N) (r : PlanningRepository.t) : Prop := {
  sound_generation : PlanningRepository.generation_sha256 r = PlanningBytes.sha256 (PlanningRepository.repomd r);
  sound_payloads : Forall (payload_shape version) (payloads r);
  sound_extended : version < EXTENDED_SNAPSHOT_SCHEMA_VERSION ->
    PlanningRepository.file_provides r = None /\ PlanningRepository.group r = None /\ PlanningRepository.modules r = None;
  sound_updateinfo : version < SNAPSHOT_SCHEMA_VERSION -> PlanningRepository.updateinfo r = None;
  sound_origin : sha256_hex (bytes (PlanningOrigin.repomd_url (PlanningRepository.origin r)))
    = PlanningOrigin.sha256 (PlanningRepository.origin r) /\
    parse_origin url_parse (PlanningOrigin.repomd_url (PlanningRepository.origin r))
    = Ok (PlanningOrigin.repomd_url (PlanningRepository.origin r));
  sound_trust : RepoTrustPolicy.repo_id (PlanningRepository.trust r) = PlanningRepository.id r /\
    exists d, trust_sha256 (PlanningRepository.trust r) = Ok d;
  sound_authentication : RepomdAuthentication.validate (PlanningRepository.repomd_authentication r) = Ok tt;
  sound_keys : PlanningRepository.keys r <> [] /\
    StronglySorted clt (PlanningKey.bundle_path <$> PlanningRepository.keys r) /\
    Forall (fun k => validate_gpgkey_bundle_path (PlanningRepository.id r) (PlanningKey.bundle_path k) = Ok tt)
      (PlanningRepository.keys r) /\
    exists cs, Forall2 certificate_of (PlanningRepository.keys r) cs /\
      sha256_hex (DOMAIN ++ concat ((fun p => key_frame p.1 p.2) <$> cs))
      = Sha256Digest.as_str (RepoTrustPolicy.key_bundle_sha256 (PlanningRepository.trust r));
}.

Lemma is_some_false {A} (o : option A) : is_some o = false -> o = None.
Proof. by destruct o. Qed.

Lemma parse_origin_same v w : parse_origin url_parse v = Ok w -> w = v.
Proof.
  unfold parse_origin. intros (u & _ & Hp)%bind_ok. destruct (_ || _); [done |].
  apply bind_ok in Hp as (b & _ & Hp). destruct (_ || _); [done |]. by injection Hp as <-.
Qed.

Lemma sorted_keys {A} (key : A -> string) l :
  windows2_any (fun a b => geb (key a) (key b)) l = false -> StronglySorted clt (key <$> l).
Proof.
  intros Hw. apply windows2_geb_sorted. revert Hw. induction l as [|a [|b l] IH]; [done.. |].
  rewrite !fmap_cons. cbn [windows2_any]. intros [-> ?]%orb_false_iff. by apply IH.
Qed.

Lemma validate_repository_ok r version u : validate_repository r version = Ok u -> repository_sound version r.
Proof.
  unfold validate_repository. refuse_if E1. refuse_if E2. refuse_if E3. rewrite !orb_false_iff, !negb_false_iff, !bool_decide_eq_true, bool_decide_eq_false in E1.
  destruct E1 as [[[[_ Hgen] Hrepo] Hkeys] Hsorted].
  intros (u1 & Hreq%for_each_ok & (u2 & Hopt%for_each_ok & Hrest)%bind_ok)%bind_ok.
  destruct (negb _) eqn:E4 in Hrest; [done |]. apply negb_false_iff, bool_decide_eq_true in E4.
  apply bind_ok in Hrest as (o & Ho%map_err_ok & (d & Hd%map_err_ok & (a & Ha%map_err_ok & (b & Hb & Hend)%bind_ok)%bind_ok)%bind_ok).
  destruct (negb _) eqn:E5 in Hend; [done |]. apply negb_false_iff, bool_decide_eq_true in E5.
  apply bundle_fold_ok in Hb as [Hpaths (cs & Hcs & ->)].
  assert (Hshape : forall l, Forall (fun b => validate_shape b version = Ok tt) l -> Forall (payload_shape version) l).
  { intros l Hl. eapply Forall_impl; [exact Hl |]. intros x. apply validate_shape_ok. }
  split; try done.
  - unfold payloads. apply Forall_app. split; by apply Hshape.
  - intros Hv%N.ltb_lt. rewrite Hv in E2. cbn in E2. rewrite !orb_false_iff in E2.
    destruct E2 as [[?%is_some_false ?%is_some_false] ?%is_some_false]. done.
  - intros Hv%N.ltb_lt. rewrite Hv in E3. by apply is_some_false.
  - split; [done |]. by rewrite (parse_origin_same _ _ Ho) in Ho.
  - split; [done | by eexists].
  - by destruct a.
  - split_and!; [done | by apply sorted_keys | done | by exists cs].
Qed.

Definition configured (configurations : list PlanningConfiguration.t) (r : PlanningRepository.t) : Prop :=
  exists c, c ∈ configurations /\ PlanningConfiguration.id c = PlanningRepository.id r /\
    PlanningConfiguration.enabled c = true /\ PlanningConfiguration.priority c = PlanningRepository.priority r /\
    PlanningConfiguration.cost c = PlanningRepository.cost r /\
    PlanningConfiguration.gpgkey c = PlanningKey.bundle_path <$> PlanningRepository.keys r /\
    sort (to_ascii_uppercase <$> PlanningConfiguration.allowed_fingerprints c)
      = RepoTrustPolicy.allowed_primary_fingerprints (PlanningRepository.trust r) /\
    (PlanningConfiguration.repo_gpgcheck c = true ->
     exists primary signing signature,
       PlanningRepository.repomd_authentication r
         = RepomdAuthentication.OpenPgp primary signing
             (Sha256Digest.as_str (RepoTrustPolicy.key_bundle_sha256 (PlanningRepository.trust r))) signature /\
       primary ∈ RepoTrustPolicy.allowed_primary_fingerprints (PlanningRepository.trust r)).

Lemma validate_configured_ok cs version r u :
  validate_configured cs version r = Ok u -> repository_sound version r /\ configured cs r.
Proof.
  unfold validate_configured. intros (u1 & Hr%validate_repository_ok & (c & Hc%ok_or_ok & Hrest)%bind_ok)%bind_ok.
  split; [done |]. revert Hrest. refuse_if E1. refuse_if E2. refuse_if E3. intros _.
  rewrite !orb_false_iff, !negb_false_iff, bool_decide_eq_true, !N.eqb_eq in E1.
  apply negb_false_iff, bool_decide_eq_true in E2. destruct E1 as [[[He Hp] Hcost] Hk].
  unfold repository_of in Hc. assert (Hin : c ∈ base.filter (fun x => PlanningConfiguration.id x = PlanningRepository.id r) cs).
  { destruct (base.filter _ cs); [done |]. injection Hc as ->. by left. }
  apply list_elem_of_filter in Hin as [Hid Hin]. exists c. split_and!; try done. intros Hg. rewrite Hg in E3.
  cbn in E3. apply negb_false_iff in E3. unfold authenticated in E3.
  destruct (PlanningRepository.repomd_authentication r) as [|primary signing bundle signature] eqn:Ea; [done |].
  apply andb_prop in E3 as [Hprimary%bool_decide_eq_true ->%bool_decide_eq_true].
  exists primary, signing, signature. split; [done |]. by rewrite <- E2.
Qed.

Definition repository_ids (s : PlanningSnapshot.t) : list string :=
  PlanningRepository.id <$> PlanningPayload.allowed_repositories (PlanningSnapshot.payload s).

Record snapshot_sound (s : PlanningSnapshot.t) : Prop := {
  sound_schema : LEGACY_SNAPSHOT_SCHEMA_VERSION <= PlanningSnapshot.schema_version s <= SNAPSHOT_SCHEMA_VERSION;
  sound_nonempty : repository_ids s <> [];
  sound_ids : StronglySorted clt (repository_ids s);
  sound_refreshed : StronglySorted clt (PlanningSnapshot.refreshed_repository_ids s) /\
    PlanningSnapshot.refreshed_repository_ids s ⊆ repository_ids s;
  sound_policy : SolverPolicy.ensure_supported (PlanningPolicy.solver (PlanningPayload.policy (PlanningSnapshot.payload s))) = Ok tt;
  sound_modules : PlanningSnapshot.schema_version s < MODULE_STATE_SNAPSHOT_SCHEMA_VERSION ->
    ModuleState.entries (PlanningPayload.module_state (PlanningSnapshot.payload s)) = [];
  sound_repositories : Forall (fun r => repository_sound (PlanningSnapshot.schema_version s) r /\
      configured (PlanningPayload.configuration (PlanningSnapshot.payload s)) r)
    (PlanningPayload.allowed_repositories (PlanningSnapshot.payload s));
}.

Lemma snapshot_validated s u : validate s = Ok u -> snapshot_sound s.
Proof.
  unfold validate. refuse_if E1. refuse_if E2. intros (u1 & Hp%map_err_ok & (i & _ & (u2 & _ & Hrest)%bind_ok)%bind_ok)%bind_ok.
  revert Hrest. refuse_if E3. intros Hall%for_each_ok. apply negb_false_iff in E1. unfold supported_schema in E1.
  apply bool_decide_eq_true in E1. rewrite !orb_false_iff, bool_decide_eq_false in E2. destruct E2 as [[[[Hne Hrs] Hrin] Hids] _].
  split.
  - revert E1. unfold LEGACY_SNAPSHOT_SCHEMA_VERSION, SNAPSHOT_SCHEMA_VERSION. rewrite !elem_of_cons, elem_of_nil.
    intros [->|[->|[->|[->|[->|[]]]]]]; done.
  - unfold repository_ids. by intros ?%fmap_nil_inv.
  - by apply sorted_keys.
  - split; [by apply windows2_geb_sorted |]. intros id Hid. apply existsb_false in Hrin. rewrite Forall_forall in Hrin.
    specialize (Hrin id Hid). apply negb_false_iff, existsb_true in Hrin as (r & Hr & <-%bool_decide_eq_true).
    unfold repository_ids. by apply list_elem_of_fmap_2.
  - by destruct u1.
  - intros Hv%N.ltb_lt. rewrite Hv in E3. cbn in E3. apply negb_false_iff in E3. unfold state_is_empty in E3.
    by apply bool_decide_eq_true in E3.
  - eapply Forall_impl; [exact Hall |]. intros r. apply validate_configured_ok.
Qed.

(** ** What is selected *)

Lemma find_repository_ok l id r : find_repository l id = Some r -> r ∈ l /\ PlanningRepository.id r = id.
Proof.
  unfold find_repository. intros Hf. assert (Hin : r ∈ base.filter (fun x => PlanningRepository.id x = id) l).
  { destruct (base.filter _ l); [done |]. injection Hf as ->. by left. }
  by apply list_elem_of_filter in Hin as [? ?].
Qed.

Definition requested (s : PlanningSnapshot.t) (ids : list string) : list string :=
  if bool_decide (ids = []) then repository_ids s else ids.

Lemma windows2_cons {A} (f : A -> A -> bool) a b l : windows2_any f (a :: b :: l) = f a b || windows2_any f (b :: l).
Proof. done. Qed.

Lemma no_equal_neighbours (l : list string) :
  windows2_any (fun a b => bool_decide (a = b)) (sort l) = false <-> NoDup l.
Proof.
  assert (Hp : sort l ≡ₚ l) by apply sort_by_perm. split.
  - intros Hw. rewrite <- Hp. apply clt_sorted_NoDup, windows2_geb_sorted.
    assert (Hs : StronglySorted (fun a b => cmp a b <> Gt) (sort l)) by apply sort_by_sorted, cmp_is_preorder.
    revert Hw Hs. generalize (sort l). intros k. induction k as [|a [|b k] IH]; [done.. |].
    rewrite !windows2_cons. intros [Hab%bool_decide_eq_false Hw]%orb_false_iff [Hs [Hle _]%Forall_cons]%StronglySorted_inv.
    rewrite (IH Hw Hs), orb_false_r. apply geb_false. destruct (clt_total a b) as [?|[?|Hlt]]; [done.. |].
    exfalso. by apply Hle, (cp_gt_lt cmp_is_preorder).
  - intros Hnd%sort_NoDup_clt%windows2_geb_sorted. revert Hnd. generalize (sort l). intros k.
    induction k as [|a [|b k] IH]; [done.. |]. rewrite !windows2_cons. intros [Hab%geb_false ?]%orb_false_iff.
    rewrite IH by done. rewrite orb_false_r. apply bool_decide_eq_false. intros ->. unfold clt in Hab. by rewrite cmp_refl in Hab.
Qed.

(** The selected repositories are those requested, each once, in the order of their ids. *)
Lemma selected_repositories_ok s ids l : StronglySorted clt (repository_ids s) ->
  selected_repositories s ids = Ok l <->
  NoDup (requested s ids) /\ PlanningRepository.id <$> l = sort (requested s ids) /\
  Forall (fun r => r ∈ PlanningPayload.allowed_repositories (PlanningSnapshot.payload s)) l.
Proof.
  intros Hsorted. unfold selected_repositories. change (if bool_decide (ids = []) then _ else ids) with (requested s ids).
  rewrite <- (no_equal_neighbours (requested s ids)).
  destruct (windows2_any _ _); [split; [done | by intros [? _]] |].
  rewrite mapM_ok. generalize (sort (requested s ids)). intros k. split.
  - intros Hall. split; [done |]. induction Hall as [|id r k l Hr _ [IH1 IH2]]; [done |].
    apply ok_or_ok, find_repository_ok in Hr as [Hin <-]. split; [cbn; by f_equal | by constructor].
  - intros (_ & <- & Hall). apply Forall2_fmap_l, Forall_Forall2_diag. eapply Forall_impl; [exact Hall |].
    intros r Hr. apply ok_or_ok. apply clt_sorted_NoDup in Hsorted. unfold repository_ids in Hsorted.
    unfold find_repository. by rewrite (filter_unique_key PlanningRepository.id _ _ r).
Qed.

(** ** What a plan is bound to *)

(** The digests of the trust policies. *)
Definition trusts (l : list PlanningRepository.t) : domain (list Sha256Digest.t) :=
  mapM (fun r => trust_sha256 (PlanningRepository.trust r)) l.

Lemma metadata_fold_ok version l : forall acc out,
  fold_result (metadata_step version) acc l = Ok out ->
  exists ts, trusts l = Ok ts /\ length ts = length l /\ out = acc ++ Framing.frames version (zip l ts).
Proof.
  induction l as [|r l IH]; intros acc out Hf; cbn [fold_result] in Hf.
  { injection Hf as <-. exists []. split_and!; [done | done | cbn; by rewrite app_nil_r]. }
  apply bind_ok in Hf as (acc' & Hstep & Hf). apply IH in Hf as (ts & Hts & Hlen & ->).
  unfold metadata_step in Hstep. apply bind_ok in Hstep as (t & Ht%map_err_ok & [= <-]).
  exists (t :: ts). split_and!; [| cbn; by f_equal |].
  - unfold trusts in *. rewrite mapM_ok in Hts |- *. by constructor.
  - cbn [zip zip_with]. unfold Framing.frames. rewrite fmap_cons. cbn [concat fst snd]. by rewrite app_assoc.
Qed.

Lemma metadata_digest_ok l version d : metadata_digest l version = Ok d ->
  exists ts, trusts l = Ok ts /\ length ts = length l /\
    d = sha256_hex (metadata_domain version ++ Framing.frames version (zip l ts)).
Proof.
  unfold metadata_digest. intros (out & (ts & Hts & Hlen & ->)%metadata_fold_ok & [= <-])%bind_ok. by exists ts.
Qed.

(** Equal domains mean equal layouts. *)
Lemma metadata_domain_inj v w (x y : list byte) : metadata_domain v ++ x = metadata_domain w ++ y ->
  x = y /\ (SNAPSHOT_SCHEMA_VERSION <=? v) = (SNAPSHOT_SCHEMA_VERSION <=? w) /\
  (EXTENDED_SNAPSHOT_SCHEMA_VERSION <=? v) = (EXTENDED_SNAPSHOT_SCHEMA_VERSION <=? w).
Proof.
  unfold metadata_domain, SNAPSHOT_SCHEMA_VERSION, EXTENDED_SNAPSHOT_SCHEMA_VERSION.
  destruct (N.leb_spec 7 v), (N.leb_spec 7 w), (N.leb_spec 5 v), (N.leb_spec 5 w); try lia; intros Heq;
    try (apply app_inv_head in Heq; done); apply app_inj_1 in Heq as [Heq _]; done.
Qed.

Lemma same_layout v w l :
  (SNAPSHOT_SCHEMA_VERSION <=? v) = (SNAPSHOT_SCHEMA_VERSION <=? w) ->
  (EXTENDED_SNAPSHOT_SCHEMA_VERSION <=? v) = (EXTENDED_SNAPSHOT_SCHEMA_VERSION <=? w) ->
  Framing.repository_view v <$> l = Framing.repository_view w <$> l /\ Framing.frames v l = Framing.frames w l.
Proof.
  intros E1 E2. split.
  - apply list_fmap_ext. intros _ p _. unfold Framing.repository_view, Framing.roles. by rewrite E1, E2.
  - unfold Framing.frames. f_equal. apply list_fmap_ext. intros _ p _. unfold repository_frame. by rewrite E1, E2.
Qed.

(** The widths of the integers and lengths of the machine. *)
Definition machine_widths (r : PlanningRepository.t) : Prop :=
  Framing.short (PlanningRepository.id r) /\ PlanningRepository.priority r < 2 ^ 32 /\
  PlanningRepository.cost r < 2 ^ 32 /\ Forall (fun b => PlanningBytes.size b < 2 ^ 64) (payloads r).

Context (Hhex : forall l, valid_digest (sha256_hex l) = true).

Lemma digest_byte_hex b : lowercase_hex b = true -> is_ascii_hexdigit b = true /\ byte_to_lower b = b.
Proof.
  unfold lowercase_hex, is_ascii_hexdigit, is_ascii_digit, byte_to_lower, is_ascii_uppercase, in_range.
  intros Hb. split.
  - apply orb_true_iff in Hb as [Hb|Hb]; rewrite Hb; [done |]. by rewrite !orb_true_r.
  - rewrite orb_true_iff, !andb_true_iff, !N.leb_le in Hb. destruct (N.leb_spec 65 (byte_val b)), (N.leb_spec (byte_val b) 90); cbn; lia || done.
Qed.

(** A digest in lower case is kept as it is. *)
Lemma parse_valid_digest s field d : valid_digest s = true -> Sha256Digest.parse s field = Ok d -> Sha256Digest.as_str d = s.
Proof.
  intros Hs. unfold Sha256Digest.parse. destruct (_ || _); [done |]. intros [= <-]. cbn.
  unfold valid_digest in Hs. apply andb_prop in Hs as [_ Hall%forallb_true].
  unfold to_ascii_lowercase. rewrite <- (of_bytes_bytes s) at 2. f_equal.
  rewrite <- (list_fmap_id (bytes s)) at 2. apply list_fmap_ext. intros i x Hx%list_elem_of_lookup_2.
  rewrite Forall_forall in Hall. by apply digest_byte_hex, Hall.
Qed.

Lemma trust_sha256_valid p d : trust_sha256 p = Ok d -> valid_digest (Sha256Digest.as_str d) = true.
Proof.
  unfold trust_sha256, canonical_sha256. intros (l & _ & Hd)%bind_ok.
  by rewrite (parse_valid_digest _ _ _ (Hhex l) Hd).
Qed.

Lemma sound_repository_ok version r t :
  repository_sound version r -> machine_widths r -> trust_sha256 (PlanningRepository.trust r) = Ok t ->
  Framing.repository_ok r t.
Proof.
  intros [Hgen Hpay _ _ [Horigin _] _ _ _] (Hid & Hp & Hc & Hw) Ht%trust_sha256_valid.
  assert (Hall : Forall Framing.payload_ok (payloads r)).
  { rewrite Forall_forall in *. intros b Hb. split; [by apply Hpay | by apply Hw]. }
  unfold payloads in Hall. apply Forall_app in Hall as [Hreq Hopt].
  split; try done.
  - rewrite Hgen. unfold required_payloads in Hreq. apply Forall_cons in Hreq as [Hr _]. by apply Hr.
  - rewrite <- Horigin. apply Hhex.
  - intros v. unfold optional_payloads in Hopt. rewrite !Forall_app in Hopt. destruct Hopt as (H1 & H2 & H3 & H4).
    assert (Hrole : forall name o, str_len name < 64 -> Forall Framing.payload_ok (option_list o) -> Framing.role_ok (name, o)).
    { intros name o Hn Ho. split; [done |]. intros b E. cbn in E. subst o. cbn in Ho. by apply Forall_cons in Ho as [? _]. }
    unfold Framing.roles. apply Forall_app. split; destruct (_ <=? _); rewrite ?Forall_cons, ?Forall_nil; split_and?; try done; by apply Hrole.
Qed.

Lemma zip_forall_ok version l ts : trusts l = Ok ts -> Forall (repository_sound version) l -> Forall machine_widths l ->
  Forall (fun p => Framing.repository_ok p.1 p.2) (zip l ts).
Proof.
  unfold trusts. rewrite mapM_ok. intros Hall. induction Hall as [|r t l ts Ht _ IH]; [constructor |].
  intros [Hr Hl]%Forall_cons [Hw Hws]%Forall_cons. constructor; [by eapply sound_repository_ok | by apply IH].
Qed.

Lemma parts_of_integrity s ids i : integrity_for_repositories s ids = Ok i ->
  snapshot_sound s /\ exists l metadata snapshot,
    selected_repositories s ids = Ok l /\ metadata_digest l (PlanningSnapshot.schema_version s) = Ok metadata /\
    digest s = Ok snapshot /\ Sha256Digest.as_str (PlanIntegrity.metadata_sha256 i) = metadata /\
    Sha256Digest.as_str (PlanIntegrity.planning_snapshot_sha256 i) = snapshot.
Proof.
  unfold integrity_for_repositories. intros (u & Hv%snapshot_validated & (l & Hl & (p & _ & (v & _ & (snapshot & Hs & H1)%bind_ok)%bind_ok)%bind_ok)%bind_ok)%bind_ok.
  apply bind_ok in H1 as (metadata & Hm & (trust & _ & (bindings & _ & Hi%map_err_ok)%bind_ok)%bind_ok).
  split; [done |]. exists l, metadata, snapshot. split_and!; try done.
  - unfold PlanIntegrity.new in Hi. apply bind_ok in Hi as (d0 & _ & (d1 & _ & (d2 & _ & (d3 & Hd3 & (d4 & _ & (u' & _ & [= <-])%bind_ok)%bind_ok)%bind_ok)%bind_ok)%bind_ok).
    cbn. apply metadata_digest_ok in Hm as (ts & _ & _ & ->). by apply parse_valid_digest in Hd3.
  - unfold PlanIntegrity.new in Hi. apply bind_ok in Hi as (d0 & _ & (d1 & _ & (d2 & _ & (d3 & _ & (d4 & Hd4 & (u' & _ & [= <-])%bind_ok)%bind_ok)%bind_ok)%bind_ok)%bind_ok).
    cbn. unfold digest in Hs. apply bind_ok in Hs as (b & _ & [= <-]). by apply parse_valid_digest in Hd4.
Qed.

(** Two given texts that differ and have one digest. *)
Definition collide (x y : list byte) : Prop := x <> y /\ sha256_hex x = sha256_hex y.

Lemma sha256_inj x y : sha256_hex x = sha256_hex y -> x = y \/ collide x y.
Proof. intros E. destruct (decide (x = y)) as [?|Hne]; [by left | by right]. Qed.

(** The text that a metadata digest is taken of. *)
Definition metadata_text (version : N) (l : list (PlanningRepository.t * Sha256Digest.t)) : list byte :=
  metadata_domain version ++ Framing.frames version l.

Lemma selected_sound s ids l : snapshot_sound s -> selected_repositories s ids = Ok l ->
  Forall (repository_sound (PlanningSnapshot.schema_version s)) l /\
  l ⊆ PlanningPayload.allowed_repositories (PlanningSnapshot.payload s).
Proof.
  intros Hs Hl. apply selected_repositories_ok in Hl as (_ & _ & Hin); [| apply Hs].
  pose proof (sound_repositories s Hs) as Hall. rewrite Forall_forall in *. split.
  - intros r Hr. by apply Hall, Hin.
  - intros r Hr. by apply Hin.
Qed.

Lemma metadata_binds s s' ids ids' i i' :
  let widths (s : PlanningSnapshot.t) :=
    Forall machine_widths (PlanningPayload.allowed_repositories (PlanningSnapshot.payload s)) in
  widths s -> widths s' ->
  integrity_for_repositories s ids = Ok i -> integrity_for_repositories s' ids' = Ok i' ->
  PlanIntegrity.metadata_sha256 i = PlanIntegrity.metadata_sha256 i' ->
  exists l l' ts ts',
    selected_repositories s ids = Ok l /\ selected_repositories s' ids' = Ok l' /\
    trusts l = Ok ts /\ trusts l' = Ok ts' /\
    (Framing.repository_view (PlanningSnapshot.schema_version s) <$> zip l ts =
       Framing.repository_view (PlanningSnapshot.schema_version s') <$> zip l' ts' \/
     collide (metadata_text (PlanningSnapshot.schema_version s) (zip l ts))
       (metadata_text (PlanningSnapshot.schema_version s') (zip l' ts'))).
Proof.
  intros widths Hw Hw' Hi Hi' Heq.
  apply parts_of_integrity in Hi as (Hs & l & m & d & Hl & (ts & Hts & Hlen & ->)%metadata_digest_ok & _ & Hm & _).
  apply parts_of_integrity in Hi' as (Hs' & l' & m' & d' & Hl' & (ts' & Hts' & Hlen' & ->)%metadata_digest_ok & _ & Hm' & _).
  exists l, l', ts, ts'. split_and!; [done.. |].
  rewrite Heq, Hm' in Hm. symmetry in Hm. apply sha256_inj in Hm as [Hm|?]; [left | by right].
  apply metadata_domain_inj in Hm as (Hm & E1 & E2).
  destruct (selected_sound _ _ _ Hs Hl) as [Hok Hsub], (selected_sound _ _ _ Hs' Hl') as [Hok' Hsub'].
  assert (Hws : Forall machine_widths l /\ Forall machine_widths l').
  { split; apply Forall_forall; intros r Hr; [apply (proj1 (Forall_forall _ _) Hw), Hsub | apply (proj1 (Forall_forall _ _) Hw'), Hsub']; done. }
  destruct Hws as [Hws Hws'].
  destruct (same_layout _ _ (zip l' ts') E1 E2) as [Ev Ef]. rewrite <- Ev. rewrite <- Ef in Hm.
  apply (Framing.frames_inj (PlanningSnapshot.schema_version s)); [by eapply zip_forall_ok.. | exact Hm].
Qed.

(** ** Documents *)

Definition detached (s : PlanningSnapshot.t) : PlanningSnapshot.t :=
  PlanningSnapshot.mk (PlanningSnapshot.schema_version s) (PlanningSnapshot.published_at_unix s)
    (PlanningSnapshot.refreshed_repository_ids s) (PlanningSnapshot.payload s) None 0.

(** What the types of a snapshot's parts keep: the sets of the policy are sorted, and the
    packages of the inventory are what their constructor makes. *)
Definition typed (s : PlanningSnapshot.t) : Prop :=
  PolicyFacts.sets_sorted (PlanningPolicy.solver (PlanningPayload.policy (PlanningSnapshot.payload s))) /\
  InventoryFacts.packages_valid (PlanningPayload.inventory (PlanningSnapshot.payload s)).

Lemma trust_deserialize_ok p d : trust_sha256 p = Ok d -> RepoTrustPolicy.deserialize p = Ok p.
Proof.
  unfold trust_sha256, canonical_sha256. intros (l & (u & Hv & _)%bind_ok & _)%bind_ok.
  unfold RepoTrustPolicy.deserialize. by rewrite Hv.
Qed.

Lemma inventory_deserialize_ok i d :
  InventoryFacts.packages_valid i -> inventory_sha256 i = Ok d -> InstalledInventory.deserialize i = Ok i.
Proof.
  unfold inventory_sha256, canonical_sha256. intros Hp (l & ([] & Hv & _)%bind_ok & _)%bind_ok.
  by apply InventoryFacts.inventory_deserialize_wf.
Qed.

Lemma validate_parts s : validate s = Ok tt ->
  SolverPolicy.validate (PlanningPolicy.solver (PlanningPayload.policy (PlanningSnapshot.payload s))) = Ok tt /\
  exists d, inventory_sha256 (PlanningPayload.inventory (PlanningSnapshot.payload s)) = Ok d.
Proof.
  unfold validate. refuse_if E1. refuse_if E2. intros ([] & Hp%map_err_ok & (d & Hd%map_err_ok & _)%bind_ok)%bind_ok.
  split; [done | by exists d].
Qed.

(** A valid snapshot passes the checks of its own readers. *)
Lemma validated_deserialize s : typed s -> validate s = Ok tt -> snapshot_deserialize (detached s) = Ok (detached s).
Proof.
  intros [Hsets Hpackages] Hv. destruct (validate_parts s Hv) as [Hp [d Hd]].
  pose proof (sound_repositories s (snapshot_validated s tt Hv)) as Hr.
  unfold snapshot_deserialize, payload_deserialize. cbn.
  rewrite (PolicyFacts.policy_deserialize_wf _ Hsets) by (by apply (proj1 (PolicyFacts.policy_validate_ok _ tt))).
  rewrite (inventory_deserialize_ok _ d Hpackages Hd). cbn.
  assert (E : mapM repository_deserialize (PlanningPayload.allowed_repositories (PlanningSnapshot.payload s))
              = Ok (PlanningPayload.allowed_repositories (PlanningSnapshot.payload s))).
  { apply mapM_ok, Forall_Forall2_diag. eapply Forall_impl; [exact Hr |]. intros r [Hsound _].
    destruct (sound_trust _ _ Hsound) as (_ & t & Ht). unfold repository_deserialize.
    by rewrite (trust_deserialize_ok _ t Ht). }
  rewrite E. cbn. unfold detached. by destruct (PlanningSnapshot.payload s) as [[] ? ? ? ?].
Qed.

Lemma validate_detached s : validate (detached s) = validate s.
Proof. done. Qed.

Section codec.
(** The raw JSON of a snapshot leaves out the storage ([#[serde(skip)]]) and is read back. *)
Context (Hlaws : @SerdeJsonLaws _ snapshot_json (fun s => s = detached s)).
Context (Hskip : forall s, @to_vec _ snapshot_json s = @to_vec _ snapshot_json (detached s)).

Lemma canonical_written s d : canonical_bytes s = Ok d ->
  validate s = Ok tt /\ @to_vec _ snapshot_json (detached s) = Ok d.
Proof using Hskip.
  unfold canonical_bytes. intros ([] & Hv & Hjson%map_err_ok)%bind_ok. split; [done |].
  rewrite <- Hskip. exact Hjson.
Qed.

Lemma canonical_roundtrip s d :
  typed s -> canonical_bytes s = Ok d ->
  from_canonical_bytes d = Ok (detached s) <-> N.of_nat (length d) <= MAX_SNAPSHOT_BYTES.
Proof using Hlaws Hskip.
  intros Ht Hc. destruct (canonical_written s d Hc) as [Hv Hjson]. unfold from_canonical_bytes.
  destruct (N.ltb_spec MAX_SNAPSHOT_BYTES (N.of_nat (length d))) as [Hl|Hl]; [split; [done | lia] |].
  split; [done |]. intros _.
  assert (Hfrom : @from_slice _ snapshot_serde d = Ok (detached s)).
  { unfold snapshot_serde, checked_serde. cbn. rewrite (from_slice_to_vec (detached s) d) by done. cbn.
    by apply validated_deserialize. }
  rewrite Hfrom. cbn [json_error map_err]. assert (Hcd : canonical_bytes (detached s) = Ok d).
  { unfold canonical_bytes. rewrite validate_detached, Hv. unfold snapshot_serde, checked_serde. cbn. by rewrite Hjson. }
  cbn. rewrite Hcd. cbn. rewrite bool_decide_eq_true_2 by done. cbn. by rewrite validate_detached, Hv.
Qed.

(** The bytes determine the snapshot, whatever their length. *)
Lemma canonical_injective s s' d :
  canonical_bytes s = Ok d -> canonical_bytes s' = Ok d -> detached s' = detached s.
Proof using Hlaws Hskip.
  intros [_ E]%canonical_written [_ E']%canonical_written.
  apply from_slice_to_vec in E, E'; [| done..]. congruence.
Qed.
End codec.

Lemma from_canonical_ok d s : from_canonical_bytes d = Ok s ->
  canonical_bytes s = Ok d /\ N.of_nat (length d) <= MAX_SNAPSHOT_BYTES.
Proof.
  unfold from_canonical_bytes. refuse_if E1. apply N.ltb_ge in E1.
  intros (v & _ & (c & Hc & Hrest)%bind_ok)%bind_ok. revert Hrest. refuse_if E2.
  intros (u & _ & [= <-])%bind_ok. apply negb_false_iff, bool_decide_eq_true in E2. by subst.
Qed.
End facts.
End SnapshotSafety.

(** C32: a snapshot the code accepts is coherent: every repository has its own id, payloads of the
    right shape, keys that are those its trust policy names, the digest of its origin, and one
    enabled configuration with its priority, cost, keys and fingerprints; where the configuration
    demands signed metadata, an allowed key of that bundle has signed it. *)
Theorem validate_sound `{SnapshotEnv} (s : PlanningSnapshot.t) (Hok : validate s = Ok tt) :
  SnapshotSafety.snapshot_sound s.
Proof. by apply (SnapshotSafety.snapshot_validated s tt). Qed.

(** The repositories selected from a snapshot are the requested ones, or all, each once and in
    the order of their ids; anything else is refused. *)
Theorem selected_repositories_exact `{SnapshotEnv} (s : PlanningSnapshot.t) (ids : list string)
    (l : list PlanningRepository.t) (Hok : validate s = Ok tt) :
  selected_repositories s ids = Ok l <->
  NoDup (SnapshotSafety.requested s ids) /\ PlanningRepository.id <$> l = sort (SnapshotSafety.requested s ids) /\
  Forall (fun r => r ∈ PlanningPayload.allowed_repositories (PlanningSnapshot.payload s)) l.
Proof. by apply SnapshotSafety.selected_repositories_ok, (SnapshotSafety.snapshot_validated s tt). Qed.

(** C33: two plans with the same metadata digest were made from the same repositories: the same
    ids, priorities, costs, generations, digests of origins and trust policies, and payloads,
    each in the same role, whatever the ids look like; or else the two texts that were hashed,
    the frames of these very repositories, differ and have one SHA-256 digest. *)
Theorem metadata_digest_binds `{SnapshotEnv} (Hhex : forall l, valid_digest (sha256_hex l) = true)
    (s s' : PlanningSnapshot.t) (ids ids' : list string) (i i' : PlanIntegrity.t)
    (Hw : Forall SnapshotSafety.machine_widths (PlanningPayload.allowed_repositories (PlanningSnapshot.payload s)))
    (Hw' : Forall SnapshotSafety.machine_widths (PlanningPayload.allowed_repositories (PlanningSnapshot.payload s')))
    (Hi : integrity_for_repositories s ids = Ok i) (Hi' : integrity_for_repositories s' ids' = Ok i')
    (Heq : PlanIntegrity.metadata_sha256 i = PlanIntegrity.metadata_sha256 i') :
  exists l l' ts ts',
    selected_repositories s ids = Ok l /\ selected_repositories s' ids' = Ok l' /\
    SnapshotSafety.trusts l = Ok ts /\ SnapshotSafety.trusts l' = Ok ts' /\
    (Framing.repository_view (PlanningSnapshot.schema_version s) <$> zip l ts =
       Framing.repository_view (PlanningSnapshot.schema_version s') <$> zip l' ts' \/
     SnapshotSafety.collide (SnapshotSafety.metadata_text (PlanningSnapshot.schema_version s) (zip l ts))
       (SnapshotSafety.metadata_text (PlanningSnapshot.schema_version s') (zip l' ts'))).
Proof. exact (SnapshotSafety.metadata_binds Hhex s s' ids ids' i i' Hw Hw' Hi Hi' Heq). Qed.

(** C34: the bytes of a snapshot are read back as the snapshot without its storage exactly when
    they are no more than the 128 MiB a reader takes, a limit that nothing checks before they
    are hashed and published; whatever is read back has those bytes and no others; and a
    snapshot of the same digest, which names its file, is the same but for its storage, or the
    bytes of the two differ and have one SHA-256 digest. *)
Theorem snapshot_roundtrip `{SnapshotEnv} (Hlaws : @SerdeJsonLaws _ snapshot_json (fun s => s = SnapshotSafety.detached s))
    (Hskip : forall s, @to_vec _ snapshot_json s = @to_vec _ snapshot_json (SnapshotSafety.detached s))
    (s s' : PlanningSnapshot.t) (d d' : list byte) (Htyped : SnapshotSafety.typed s)
    (Hd : canonical_bytes s = Ok d) (Hd' : canonical_bytes s' = Ok d') :
  (from_canonical_bytes d = Ok (SnapshotSafety.detached s) <-> N.of_nat (length d) <= 134217728) /\
  (forall l, from_canonical_bytes l = Ok (SnapshotSafety.detached s) -> l = d) /\
  (digest s' = digest s ->
   SnapshotSafety.detached s' = SnapshotSafety.detached s \/ SnapshotSafety.collide d' d).
Proof.
  split_and!; [by apply SnapshotSafety.canonical_roundtrip | |].
  - intros l [Hl _]%SnapshotSafety.from_canonical_ok.
    apply (SnapshotSafety.canonical_written Hskip) in Hl as [_ Hl].
    destruct (SnapshotSafety.canonical_written Hskip s d Hd) as [_ E].
    change (SnapshotSafety.detached (SnapshotSafety.detached s)) with (SnapshotSafety.detached s) in Hl. congruence.
  - unfold digest. rewrite Hd, Hd'. intros [= Heq]. apply SnapshotSafety.sha256_inj in Heq as [->|?]; [left | by right].
    by apply (SnapshotSafety.canonical_injective Hlaws Hskip s s' d).
Qed.

(** ** An example *)

Module SnapshotExamples.

Definition toy_hex (l : list byte) : string := hex_encode (be_bytes 32 (be_value l)).

Lemma hex_digit_lowercase n : n < 16 -> lowercase_hex (hex_digit n) = true.
Proof.
  intros Hn. assert (Hin : n ∈ [0; 1; 2; 3; 4; 5; 6; 7; 8; 9; 10; 11; 12; 13; 14; 15]).
  { rewrite !elem_of_cons. lia. }
  revert n Hin Hn. by apply (proj1 (Forall_forall (fun n => n < 16 -> lowercase_hex (hex_digit n) = true) _)); repeat constructor.
Qed.

Lemma hex_encode_spec l : length (bytes (hex_encode l)) = (2 * length l)%nat /\
  forallb lowercase_hex (bytes (hex_encode l)) = true.
Proof.
  unfold hex_encode. rewrite bytes_of_bytes. induction l as [|b l [IH1 IH2]]; [done |]. rewrite fmap_cons.
  cbn [concat app length forallb]. rewrite IH1, IH2.
  pose proof (N_ascii_bounded b) as Hb. fold (byte_val b) in Hb.
  rewrite !hex_digit_lowercase by (apply N.Div0.div_lt_upper_bound || apply N.mod_lt; lia). split; [lia | done].
Qed.

Lemma toy_hex_valid l : valid_digest (toy_hex l) = true.
Proof.
  unfold valid_digest, toy_hex, str_len. destruct (hex_encode_spec (be_bytes 32 (be_value l))) as [-> ->].
  by rewrite length_be_bytes.
Qed.

Definition url : string := "https://mirror.example/fedora/repodata/repomd.xml".
Definition certificate : list byte := bytes "cert".
Definition key : PlanningKey.t := PlanningKey.mk "/etc/dnfast/keys/fedora/a.gpg" "Y2VydA==".
Definition fingerprint : string := "AAAAAAAAAAAAAAAAAAAAAAAAAAAAAAAAAAAAAAAA".
Definition bundle : string := toy_hex (DOMAIN ++ key_frame (PlanningKey.bundle_path key) certificate).
Definition payload (text : string) : PlanningBytes.t := PlanningBytes.mk (toy_hex (bytes text)) 9 "".

Definition trust : RepoTrustPolicy.t :=
  RepoTrustPolicy.mk 1 "fedora" (Sha256Digest.mk bundle) [fingerprint] SigningSubkeyRule.AuthorizedSubkeys 5 true.

Definition repository : PlanningRepository.t :=
  PlanningRepository.mk "fedora" 99 1000 (toy_hex (bytes "repomd")) (PlanningOrigin.mk url (toy_hex (bytes url)))
    (payload "repomd") (payload "primary") (payload "filelists") None (Some (payload "group")) None None trust [key]
    (RepomdAuthentication.OpenPgp fingerprint fingerprint bundle (toy_hex (bytes "signature"))).

Definition configuration : PlanningConfiguration.t :=
  PlanningConfiguration.mk "fedora" true [] None None 99 1000 [] [] [PlanningKey.bundle_path key]
    ["aaaaaaaaaaaaaaaaaaaaaaaaaaaaaaaaaaaaaaaa"] true.

Definition policy : SolverPolicy.t := SolverPolicy.fedora44_x86_64 ["glibc"] ["kernel"].

Definition snapshot : PlanningSnapshot.t :=
  PlanningSnapshot.mk 7 1000 ["fedora"]
    (PlanningPayload.mk (PlanningPolicy.mk policy [] 3) InventoryFacts.witness_inventory [repository] [configuration]
       (ModuleState.mk []))
    None 0.

Definition parse_url (value : string) : option Url.t :=
  if bool_decide (value = url) then Some (Url.mk "https" (Some "mirror.example") "" None None None url) else None.

(** The codec of one snapshot, which leaves out the storage. *)
Definition snapshot_codec : SerdeJson PlanningSnapshot.t := {|
  to_vec s := @to_vec _ (OneCodec.one_codec snapshot (bytes "snapshot")) (SnapshotSafety.detached s);
  from_slice := @from_slice _ (OneCodec.one_codec snapshot (bytes "snapshot"))
|}.

Lemma snapshot_codec_laws : @SerdeJsonLaws _ snapshot_codec (fun s => s = SnapshotSafety.detached s).
Proof.
  constructor. intros v b Hv Hb. unfold snapshot_codec in *. cbn in Hb. rewrite <- Hv in Hb.
  exact (@from_slice_to_vec _ _ _ (OneCodec.one_codec_laws _ _ (fun _ => True)) v b I Hb).
Qed.

#[local] Instance env : SnapshotEnv := {|
  sha256_hex := toy_hex;
  base64_decode s := if bool_decide (s = "Y2VydA==") then Some certificate else None;
  url_parse := parse_url;
  debug_escaped _ := false;
  policy_json := OneCodec.one_codec policy (bytes "policy");
  trust_json := OneCodec.one_codec trust (bytes "trust");
  inventory_json := OneCodec.one_codec InventoryFacts.witness_inventory (bytes "inventory");
  snapshot_json := snapshot_codec
|}.

Lemma snapshot_valid : validate snapshot = Ok tt.
Proof. vm_compute. reflexivity. Qed.

Lemma snapshot_widths : Forall SnapshotSafety.machine_widths (PlanningPayload.allowed_repositories (PlanningSnapshot.payload snapshot)).
Proof. repeat constructor. Qed.

Lemma snapshot_typed : SnapshotSafety.typed snapshot.
Proof. split; [repeat split; repeat constructor | repeat constructor]. Qed.
End SnapshotExamples.

Lemma validate_sound_witness : exists e : SnapshotEnv,
  @SnapshotSafety.snapshot_sound e SnapshotExamples.snapshot.
Proof. exists SnapshotExamples.env. exact (@validate_sound SnapshotExamples.env _ SnapshotExamples.snapshot_valid). Defined.

Lemma selected_repositories_exact_witness :
  selected_repositories SnapshotExamples.snapshot [] = Ok [SnapshotExamples.repository].
Proof.
  apply (@selected_repositories_exact SnapshotExamples.env SnapshotExamples.snapshot [] [SnapshotExamples.repository] SnapshotExamples.snapshot_valid).
  split; [by apply NoDup_singleton |]. split; [reflexivity | by constructor; [left |]].
Defined.

Lemma snapshot_roundtrip_witness : exists e : SnapshotEnv,
  @from_canonical_bytes e (bytes "snapshot") = Ok SnapshotExamples.snapshot /\
  forall l, @from_canonical_bytes e l = Ok SnapshotExamples.snapshot -> l = bytes "snapshot".
Proof.
  exists SnapshotExamples.env.
  assert (Hd : @canonical_bytes SnapshotExamples.env SnapshotExamples.snapshot = Ok (bytes "snapshot")) by (vm_compute; reflexivity).
  destruct (@snapshot_roundtrip SnapshotExamples.env SnapshotExamples.snapshot_codec_laws (fun _ => eq_refl)
    SnapshotExamples.snapshot SnapshotExamples.snapshot (bytes "snapshot") (bytes "snapshot") SnapshotExamples.snapshot_typed Hd Hd)
    as (Hback & Honly & _).
  split; [apply Hback; vm_compute; discriminate | exact Honly].
Defined.

Lemma metadata_digest_binds_witness : exists (e : SnapshotEnv) (i : PlanIntegrity.t),
  @integrity_for_repositories e SnapshotExamples.snapshot ["fedora"] = Ok i /\
  exists l ts, selected_repositories SnapshotExamples.snapshot ["fedora"] = Ok l /\
    @SnapshotSafety.trusts e l = Ok ts /\ map fst (zip l ts) = [SnapshotExamples.repository].
Proof.
  exists SnapshotExamples.env.
  destruct (@integrity_for_repositories SnapshotExamples.env SnapshotExamples.snapshot ["fedora"]) as [i|e] eqn:Hi;
    [| exfalso; revert Hi; vm_compute; discriminate].
  exists i. split; [reflexivity |].
  destruct (@metadata_digest_binds SnapshotExamples.env SnapshotExamples.toy_hex_valid SnapshotExamples.snapshot SnapshotExamples.snapshot
    ["fedora"] ["fedora"] i i SnapshotExamples.snapshot_widths SnapshotExamples.snapshot_widths Hi Hi eq_refl)
    as (l & l' & ts & ts' & Hl & _ & Hts & _).
  exists l, ts. split; [exact Hl |]. split; [exact Hts |].
  assert (E : selected_repositories SnapshotExamples.snapshot ["fedora"] = Ok [SnapshotExamples.repository])
    by (vm_compute; reflexivity).
  rewrite E in Hl. injection Hl as <-. unfold SnapshotSafety.trusts in Hts. apply mapM_ok in Hts.
  inversion Hts as [| ? t ? ? _ Hnil]; subst. inversion Hnil; subst. reflexivity.
Defined.
