(* ===== verification/FileIndex.v ===== *)
(** * The index of files ([dnfast-planning]: file_provides.rs)

    Which packages of a repository own a path: the compact index that is built when metadata is
    published, its validation, and the look-ups, with the indexes of earlier versions, which are
    still read.  serde_json, hex and zstd, the XML tokenizer and the store of payloads are
    parameters. *)
From Stdlib Require Import Ascii.
From S2P Require Import Prelude.
From S2P Require Import RustStr.
From S2P Require Import Canonical.
From S2P Require Import RustText.
From S2P Require Import UnixPath.
From S2P Require Import Metadata.
From S2P Require Import Xml.
From S2P Require Import Repomd.
From S2P Require Import Filelists.
From S2P Require Import Primary.
From S2P Require Import Compression.
From S2P Require Import Modulemd.
From S2P Require Import CacheModel.
From S2P Require Import Snapshot.

#[local] Open Scope N_scope.

Definition INDEX_SCHEMA_VERSION : N := 4.
Definition LAZY_INDEX_SCHEMA_VERSION : N := 5.
Definition newline : byte := ascii_of_N 10.
Definition LAZY_BINARY_V2_MAGIC : list byte := bytes "DNFAST-FP-LAZY-V2" ++ [newline].
Definition LAZY_BINARY_V3_MAGIC : list byte := bytes "DNFAST-FP-LAZY-V3" ++ [newline].
Definition LAZY_BINARY_ENTRY_SIZE : nat := 36.
Definition CACHE_PRIMARY_FILE_ENTRY_SIZE : nat := 36.
Definition PRIMARY_FILE_ENTRY_SIZE : nat := 20.
Definition BUCKET_COUNT : nat := 256.
Definition SHARD_COUNT : nat := 256.
Definition HEADER_SIZE : nat := 24.
Definition FULL_DIGEST_SIZE : nat := 32.
Definition INDEX_DIGEST_SIZE : nat := 16.
Definition SPOOL_RECORD_SIZE : nat := FULL_DIGEST_SIZE + 4.
Definition RECORD_SIZE : nat := INDEX_DIGEST_SIZE + 4.
Definition MAX_SHARD_BYTES : N := 64 * 1024 * 1024.
Definition MAGIC : list byte := bytes "DNFASTFP".

(** ** Data *)

Module Shard.
Record t : Type := mk { sha256 : string; size : N; uncompressed_size : option N; compression : option string }.
End Shard.

Module Bucket.
Record t : Type := mk { shard : N; offset : N; sha256 : string; size : N }.
End Bucket.

Module Manifest.
Record t : Type := mk {
  schema_version : N;
  primary_sha256 : string;
  filelists_sha256 : string;
  package_count : N;
  record_count : N;
  shards : list Shard.t;
  buckets : list Bucket.t
}.
End Manifest.

Module LazyManifest.
Record t : Type := mk {
  schema_version : N;
  mode : string;
  primary_sha256 : string;
  filelists_sha256 : string;
  package_count : N;
  identities : list PrimaryPackageIdentity.t
}.
End LazyManifest.

Module LazyBinaryManifest.
Record t : Type := mk { package_count : N; package_entries : list byte; primary_file_entries : list byte }.
End LazyBinaryManifest.

(** What [build] takes from a verified generation; [primary] is what reading the file gives. *)
Module Generation.
Record t : Type := mk {
  repository : string;
  repomd : list byte;
  primary_sha256 : string;
  primary : cresult (list byte);
  filelists_sha256 : string;
  primary_identities : option (list PrimaryPackageIdentity.t);
  primary_files : option (list byte)
}.
End Generation.

(** ** Bytes *)

Definition slice (l : list byte) (from length : nat) : list byte := take length (drop from l).

Fixpoint chunks_from (fuel size : nat) (l : list byte) : list (list byte) :=
  match fuel with
  | O => []
  | S fuel => if (length l <? size)%nat then [] else take size l :: chunks_from fuel size (drop size l)
  end.

(** [chunks_exact]; a chunk takes one byte at least. *)
Definition chunks_exact (size : nat) (l : list byte) : list (list byte) := chunks_from (length l) size l.

Definition usize_mul (a b : N) : option N := if a * b <=? u64_max then Some (a * b) else None.

(** Any of the elements together with the one before it; [f] is given the one before, if any. *)
Fixpoint any_with_previous (f : option (list byte) -> list byte -> bool) (previous : option (list byte))
    (l : list (list byte)) : bool :=
  match l with
  | [] => false
  | x :: l => f previous x || any_with_previous f (Some x) l
  end.

Definition not_after (previous : option (list byte)) (x : list byte) : bool :=
  match previous with Some p => geb p x | None => false end.

(** [while left < right] of a binary search for the first position that is not [less]. *)
Fixpoint search (fuel : nat) (less : nat -> bool) (left right : nat) : nat :=
  match fuel with
  | O => left
  | S fuel =>
      if (left <? right)%nat then
        let middle := (left + (right - left) / 2)%nat in
        if less middle then search fuel less (S middle) right else search fuel less left middle
      else left
  end.

(** [while left < count], collecting until the first entry that does not match. *)
Fixpoint collect (fuel : nat) (count : nat) (matching : nat -> option N) (left : nat) : list N :=
  match fuel with
  | O => []
  | S fuel =>
      if (left <? count)%nat then
        match matching left with Some ordinal => ordinal :: collect fuel count matching (S left) | None => [] end
      else []
  end.

(** ** What is outside the crate *)

Class IndexEnv : Type := {
  index_snapshot :: SnapshotEnv;
  sha256 : list byte -> list byte;
  hex_decode : string -> result string (list byte);
  zstd_reads : list byte -> result string reads;
  manifest_json : SerdeJson Manifest.t;
  lazy_json : SerdeJson LazyManifest.t;
  probe_json : list byte -> result string N;
  unescape : string -> result string string;
  utf8_error : list byte -> string;
  tokenize : reads -> list event;
  zstd_stream : list byte -> reads -> result string (list Pull.t);
  gzip_stream : list byte -> reads -> list Pull.t
}.

Section index.
Context `{IndexEnv}.

Definition metadata {A} (r : result MetadataError.t A) : presult A :=
  map_err (fun e => PlanningError.Input ("file-provides index source validation failed: " +:+
    metadata_error_to_string debug_escaped e)) r.
Definition cache {A} (r : cresult A) : presult A :=
  map_err (fun e => PlanningError.Cache (cache_error_to_string debug_escaped e)) r.
Definition io {A} (r : result string A) : presult A := map_err PlanningError.Io r.

Definition valid_sha256 (value : string) : bool := valid_digest value.

Definition decode_sha256 (value : string) : presult (list byte) :=
  if negb (valid_sha256 value) then input "file-provides SHA-256 is invalid"
  else
    decoded ← map_err (fun m => PlanningError.Input ("file-provides SHA-256: " +:+ m)) (hex_decode value);
    if negb (length decoded =? 32)%nat then input "file-provides SHA-256 size differs" else Ok decoded.

(** ** The compact index *)

Definition lazy_header_size (has_primary_files : bool) : nat :=
  (length LAZY_BINARY_V3_MAGIC + 32 + 32 + 4 + (if has_primary_files then 8 else 0))%nat.

(** The loop over the entries of packages, which are checksums and ordinals. *)
Fixpoint check_packages (seen : list bool) (previous : option (list byte)) (entries : list (list byte)) : presult unit :=
  match entries with
  | [] => Ok tt
  | entry :: entries =>
      let checksum := take 32 entry in
      if not_after previous checksum then input "lazy file-provides checksums are not strictly sorted"
      else
        let ordinal := N.to_nat (be_value (drop 32 entry)) in
        match seen !! ordinal with
        | None => input "lazy file-provides ordinal is out of range"
        | Some true => input "lazy file-provides ordinal is duplicate"
        | Some false => check_packages (<[ordinal := true]> seen) (Some checksum) entries
        end
  end.

Definition bad_primary_file (package_count : N) (previous : option (list byte)) (entry : list byte) : bool :=
  (package_count <=? be_value (drop 16 entry)) || not_after previous entry.

Definition validate_lazy_binary_manifest (b : list byte) (primary_sha256 filelists_sha256 : string) :
    presult LazyBinaryManifest.t :=
  '(magic, has_primary_files) ←
    (if starts_with LAZY_BINARY_V3_MAGIC b then Ok (LAZY_BINARY_V3_MAGIC, true)
     else if starts_with LAZY_BINARY_V2_MAGIC b then Ok (LAZY_BINARY_V2_MAGIC, false)
     else input "lazy file-provides magic is invalid");
  let header_size := lazy_header_size has_primary_files in
  if (length b <? header_size)%nat then input "lazy file-provides header is truncated"
  else
    let m := length (magic : list byte) in
    primary ← decode_sha256 primary_sha256;
    same ← (if bool_decide (slice b m 32 = primary) then
              filelists ← decode_sha256 filelists_sha256; Ok (bool_decide (slice b (m + 32) 32 = filelists))
            else Ok false);
    if negb same then input "lazy file-provides generation binding differs"
    else
      let package_count := be_value (slice b (m + 64) 4) in
      package_size ← ok_or (PlanningError.Input "lazy file-provides size overflow")
                       (usize_mul package_count (N.of_nat LAZY_BINARY_ENTRY_SIZE));
      package_end ← ok_or (PlanningError.Input "lazy file-provides size overflow")
                      (u64_checked_add (N.of_nat header_size) package_size);
      package_entries ← ok_or (PlanningError.Input "lazy file-provides package entries are truncated")
                          (get_range b (N.of_nat header_size) package_end);
      let primary_file_count := if has_primary_files : bool then be_value (slice b (m + 68) 8) else 0 in
      primary_file_size ← ok_or (PlanningError.Input "primary file index size overflow")
                            (usize_mul primary_file_count (N.of_nat PRIMARY_FILE_ENTRY_SIZE));
      expected_size ← ok_or (PlanningError.Input "lazy file-provides size overflow")
                        (u64_checked_add package_end primary_file_size);
      if (package_count =? 0) || negb (N.of_nat (length b) =? expected_size)
      then input "lazy file-provides entry size differs"
      else
        let primary_file_entries := drop (N.to_nat package_end) b in
        _ ← check_packages (replicate (N.to_nat package_count) false) None
              (chunks_exact LAZY_BINARY_ENTRY_SIZE package_entries);
        if any_with_previous (bad_primary_file package_count) None (chunks_exact PRIMARY_FILE_ENTRY_SIZE primary_file_entries)
        then input "primary file index records are invalid"
        else Ok (LazyBinaryManifest.mk package_count package_entries primary_file_entries).

Definition package_entry (m : LazyBinaryManifest.t) (i : nat) : list byte :=
  slice (LazyBinaryManifest.package_entries m) (i * LAZY_BINARY_ENTRY_SIZE) LAZY_BINARY_ENTRY_SIZE.

Definition primary_file_entry (m : LazyBinaryManifest.t) (i : nat) : list byte :=
  slice (LazyBinaryManifest.primary_file_entries m) (i * PRIMARY_FILE_ENTRY_SIZE) PRIMARY_FILE_ENTRY_SIZE.

(** [while low < high] of [lazy_binary_ordinal]. *)
Fixpoint ordinal_loop (fuel : nat) (m : LazyBinaryManifest.t) (checksum : list byte) (low high : nat) : option N :=
  match fuel with
  | O => None
  | S fuel =>
      if (low <? high)%nat then
        let middle := (low + (high - low) / 2)%nat in
        let entry := package_entry m middle in
        match cmp (take 32 entry) checksum with
        | Lt => ordinal_loop fuel m checksum (S middle) high
        | Gt => ordinal_loop fuel m checksum low middle
        | Eq => Some (be_value (drop 32 entry))
        end
      else None
  end.

(** The interval shrinks in every turn: its length bounds their number. *)
Definition lazy_binary_ordinal (m : LazyBinaryManifest.t) (package_id : string) : presult N :=
  checksum ← decode_sha256 package_id;
  let count := N.to_nat (LazyBinaryManifest.package_count m) in
  ok_or (PlanningError.Input "filelists package is absent from primary") (ordinal_loop (S count) m checksum 0 count).

Definition lazy_binary_primary_providers (m : LazyBinaryManifest.t) (absolute_path : string) : list N :=
  let target := take 16 (sha256 (bytes absolute_path)) in
  let count := (length (LazyBinaryManifest.primary_file_entries m) / PRIMARY_FILE_ENTRY_SIZE)%nat in
  let low := search (S count) (fun i => is_lt (cmp (take 16 (primary_file_entry m i)) target)) 0 count in
  collect (S count) count (fun i =>
    let entry := primary_file_entry m i in
    if bool_decide (take 16 entry = target) then Some (be_value (drop 16 entry)) else None) low.

(** ** The index in shards and buckets *)

Definition digest_size_for_schema (schema_version : N) : presult nat :=
  if (schema_version =? 2) || (schema_version =? 3) then Ok FULL_DIGEST_SIZE
  else if schema_version =? INDEX_SCHEMA_VERSION then Ok INDEX_DIGEST_SIZE
  else input "file-provides bucket schema is unsupported".

Definition first_byte (l : list byte) : nat := N.to_nat (default 0 (byte_val <$> head l)).

Definition bad_record (digest_size bucket_index : nat) (package_count : N) (previous : option (list byte))
    (record : list byte) : bool :=
  negb (first_byte record =? bucket_index)%nat || (package_count <=? be_value (drop digest_size record))
  || not_after previous record.

Definition validate_bucket (b : list byte) (schema_version : N) (bucket_index : nat) (package_count : N) : presult nat :=
  digest_size ← digest_size_for_schema schema_version;
  let record_size := (digest_size + 4)%nat in
  if (length b <? HEADER_SIZE)%nat || negb (bool_decide (take 8 b = MAGIC))
     || negb (be_value (slice b 8 4) =? schema_version) || negb (first_byte (drop 12 b) =? bucket_index)%nat
     || negb (bool_decide (slice b 13 3 = [ascii_of_N 0; ascii_of_N 0; ascii_of_N 0]))
  then input "file-provides bucket header is invalid"
  else
    let count := be_value (slice b 16 8) in
    expected ← ok_or (PlanningError.Input "file-provides bucket size overflow")
                 (size ← usize_mul count (N.of_nat record_size); u64_checked_add size (N.of_nat HEADER_SIZE));
    if negb (N.of_nat (length b) =? expected) then input "file-provides bucket size differs from header"
    else if any_with_previous (bad_record digest_size bucket_index package_count) None
              (chunks_exact record_size (drop HEADER_SIZE b))
    then input "file-provides bucket records are invalid"
    else Ok (N.to_nat count).

Definition lookup_bucket (b : list byte) (schema_version : N) (bucket_index : nat) (package_count : N)
    (target : list byte) : presult (list N) :=
  digest_size ← digest_size_for_schema schema_version;
  let record_size := (digest_size + 4)%nat in
  records ← validate_bucket b schema_version bucket_index package_count;
  let record i := slice b (HEADER_SIZE + i * record_size) record_size in
  let left := search (S records) (fun i => is_lt (cmp (take digest_size (record i)) (take digest_size target))) 0 records in
  let providers := collect (S records) records (fun i =>
    if bool_decide (take digest_size (record i) = take digest_size target)
    then Some (be_value (drop digest_size (record i))) else None) left in
  Ok (dedup (sort providers)).

Definition bucket_slice (b : list byte) (bucket : Bucket.t) : presult (list byte) :=
  last ← ok_or (PlanningError.Input "file-provides bucket range overflow")
           (u64_checked_add (Bucket.offset bucket) (Bucket.size bucket));
  result ← ok_or (PlanningError.Input "file-provides bucket is outside its shard")
             (get_range b (Bucket.offset bucket) last);
  if negb (bool_decide (sha256_hex result = Bucket.sha256 bucket)) then input "file-provides bucket digest differs"
  else Ok result.

Definition decode_shard (schema_version : N) (shard : Shard.t) (b : list byte) : presult (list byte) :=
  if schema_version <? INDEX_SCHEMA_VERSION then Ok b
  else
    expected ← ok_or (PlanningError.Input "file-provides compressed shard size is absent") (Shard.uncompressed_size shard);
    if MAX_SHARD_BYTES <? expected then input "file-provides shard descriptor is invalid"
    else
      match Shard.compression shard with
      | None =>
          if negb (N.of_nat (length b) =? expected) then input "file-provides raw shard size differs" else Ok b
      | Some compression =>
          if negb (bool_decide (compression = "zstd")) then input "file-provides shard compression is unsupported"
          else
            limit ← ok_or (PlanningError.Input "file-provides shard size overflow") (u64_checked_add expected 1);
            decoder ← io (zstd_reads b);
            decoded ← io (read_to_end (take_reads limit decoder));
            if negb (N.of_nat (length decoded) =? expected) then input "file-provides decoded shard size differs"
            else Ok decoded
      end.

(** The size of a shard before compression, by its descriptor. *)
Definition layout_size (schema_version : N) (shard : Shard.t) : N :=
  if schema_version <? INDEX_SCHEMA_VERSION then Shard.size shard else default 0 (Shard.uncompressed_size shard).

Definition bad_shard (schema_version : N) (buckets_per_shard : nat) (shard : Shard.t) : bool :=
  let layout := layout_size schema_version shard in
  (layout <? N.of_nat (HEADER_SIZE * buckets_per_shard)) || (MAX_SHARD_BYTES <? layout)
  || negb (valid_sha256 (Shard.sha256 shard))
  || ((schema_version <? INDEX_SCHEMA_VERSION) && (is_some (Shard.uncompressed_size shard) || is_some (Shard.compression shard)))
  || ((schema_version =? INDEX_SCHEMA_VERSION)
      && ((Shard.size shard =? 0)
          || negb (bool_decide (Shard.compression shard = None) || bool_decide (Shard.compression shard = Some "zstd"))
          || (bool_decide (Shard.compression shard = None) && negb (Shard.size shard =? layout)))).

Definition bad_bucket (shard_count record_size : nat) (bucket : Bucket.t) : bool :=
  (N.of_nat shard_count <=? Bucket.shard bucket) || (Bucket.size bucket <? N.of_nat HEADER_SIZE)
  || negb ((Bucket.size bucket - N.of_nat HEADER_SIZE) mod N.of_nat record_size =? 0)
  || negb (valid_sha256 (Bucket.sha256 bucket)).

(** One bucket of the shard [index]: the next offset, and the records counted. *)
Definition layout_step (index record_size : nat) (s : N * N) (bucket : Bucket.t) : presult (N * N) :=
  let '(offset, counted) := s in
  if negb (Bucket.shard bucket =? N.of_nat index) || negb (Bucket.offset bucket =? offset)
  then input "file-provides manifest bucket layout is invalid"
  else
    offset ← ok_or (PlanningError.Input "file-provides shard size overflow") (u64_checked_add offset (Bucket.size bucket));
    counted ← ok_or (PlanningError.Input "file-provides record count overflow")
                (u64_checked_add counted ((Bucket.size bucket - N.of_nat HEADER_SIZE) / N.of_nat record_size));
    Ok (offset, counted).

(** The shards in turn, each with its buckets, the first of those left. *)
Fixpoint layout_loop (schema_version : N) (buckets_per_shard record_size index : nat) (shards : list Shard.t)
    (buckets : list Bucket.t) (counted : N) : presult N :=
  match shards with
  | [] => Ok counted
  | shard :: shards =>
      '(offset, counted) ← fold_result (layout_step index record_size) (0, counted) (take buckets_per_shard buckets);
      if negb (offset =? layout_size schema_version shard) then input "file-provides manifest shard size is invalid"
      else layout_loop schema_version buckets_per_shard record_size (S index) shards (drop buckets_per_shard buckets) counted
  end.

Definition validate_manifest_layout (m : Manifest.t) (primary_sha256 filelists_sha256 : string) (schema_version : N)
    (shard_count : nat) : presult unit :=
  if (shard_count =? 0)%nat || negb (BUCKET_COUNT mod shard_count =? 0)%nat
  then input "file-provides manifest shard layout is invalid"
  else
    let buckets_per_shard := (BUCKET_COUNT / shard_count)%nat in
    let record_size := if schema_version <? INDEX_SCHEMA_VERSION then SPOOL_RECORD_SIZE else RECORD_SIZE in
    if negb (Manifest.schema_version m =? schema_version)
       || negb (bool_decide (Manifest.primary_sha256 m = primary_sha256))
       || negb (bool_decide (Manifest.filelists_sha256 m = filelists_sha256))
       || negb (length (Manifest.shards m) =? shard_count)%nat
       || negb (length (Manifest.buckets m) =? BUCKET_COUNT)%nat
       || (Manifest.package_count m =? 0)
       || existsb (bad_shard schema_version buckets_per_shard) (Manifest.shards m)
       || existsb (bad_bucket shard_count record_size) (Manifest.buckets m)
    then input "file-provides manifest is invalid"
    else
      counted ← layout_loop schema_version buckets_per_shard record_size 0 (Manifest.shards m) (Manifest.buckets m) 0;
      if negb (counted =? Manifest.record_count m) then input "file-provides manifest record count is invalid" else Ok tt.

Definition validate_manifest (m : Manifest.t) (primary_sha256 filelists_sha256 : string) : presult unit :=
  validate_manifest_layout m primary_sha256 filelists_sha256 INDEX_SCHEMA_VERSION SHARD_COUNT.

(** The number of shards of a schema that is still read. *)
Definition shard_count_of (schema_version : N) : option nat :=
  if schema_version =? 2 then Some 16%nat
  else if (schema_version =? 3) || (schema_version =? INDEX_SCHEMA_VERSION) then Some SHARD_COUNT else None.

Definition validate_readable_manifest (m : Manifest.t) (primary_sha256 filelists_sha256 : string) : presult unit :=
  shard_count ← ok_or (PlanningError.Input "file-provides manifest schema is unsupported")
                  (shard_count_of (Manifest.schema_version m));
  validate_manifest_layout m primary_sha256 filelists_sha256 (Manifest.schema_version m) shard_count.

Definition LAZY_MODE : string := "validated-filelists-scan-v1".

Definition incomplete_identity (i : PrimaryPackageIdentity.t) : bool :=
  str_is_empty (PrimaryPackageIdentity.checksum i) || str_is_empty (PrimaryPackageIdentity.name i)
  || str_is_empty (PrimaryPackageIdentity.arch i) || str_is_empty (PrimaryPackageIdentity.version i)
  || str_is_empty (PrimaryPackageIdentity.release i).

Definition as_u32 (n : nat) : presult N :=
  if N.of_nat n <=? u32_max then Ok (N.of_nat n)
  else input "out of range integral type conversion attempted".

Definition all_distinct (l : list string) : bool := bool_decide (length (bset_of_list l) = length l).

Definition validate_lazy_manifest (m : LazyManifest.t) (primary_sha256 filelists_sha256 : string) : presult unit :=
  package_count ← as_u32 (length (LazyManifest.identities m));
  if negb (LazyManifest.schema_version m =? LAZY_INDEX_SCHEMA_VERSION)
     || negb (bool_decide (LazyManifest.mode m = LAZY_MODE))
     || negb (bool_decide (LazyManifest.primary_sha256 m = primary_sha256))
     || negb (bool_decide (LazyManifest.filelists_sha256 m = filelists_sha256))
     || (package_count =? 0) || negb (LazyManifest.package_count m =? package_count)
     || negb (all_distinct (PrimaryPackageIdentity.checksum <$> LazyManifest.identities m))
     || existsb incomplete_identity (LazyManifest.identities m)
  then input "lazy file-provides manifest is invalid" else Ok tt.

(** ** Look-ups *)

Section lookup.
Context (read_blob : string -> N -> string -> N -> presult (list byte)).
Context (open_blob_file : string -> N -> string -> N -> presult reads).

(** [l[i]]: a panic, which validated indexes exclude, is this error. *)
Definition index {A} (l : list A) (i : nat) : presult A := ok_or (PlanningError.Input "index out of bounds") (l !! i).

Definition read_canonical {T} (json : SerdeJson T) (b : list byte) : presult T :=
  manifest ← json_error (@from_slice T json b);
  text ← json_error (@to_vec T json manifest);
  if negb (bool_decide (text = b)) then input "file-provides manifest is not canonical JSON" else Ok manifest.

Definition parse_repomd_bytes (b : list byte) : presult RepomdRecords.t :=
  metadata (parse_repomd_records unescape (tokenize [Ok b])).

Definition scan_file_provider_ids (s : PlanningSnapshot.t) (r : PlanningRepository.t) (absolute_path : string) :
    presult (list string) :=
  repomd ← materialize_payload read_blob s (PlanningRepository.repomd r);
  filelists ← (let p := PlanningRepository.filelists r in
               if str_is_empty (PlanningBytes.base64 p) then
                 '(planning_root, owner) ←
                   ok_or (PlanningError.UnsafeSnapshot "external snapshot payload has no trusted storage binding") (storage s);
                 open_blob_file planning_root owner (PlanningBytes.sha256 p) (PlanningBytes.size p)
               else l ← materialize_payload read_blob s p; Ok [Ok l]);
  records ← parse_repomd_bytes repomd;
  metadata (scan_prevalidated_filelists_record_path sha256_hex zstd_stream gzip_stream unescape utf8_error filelists
              (RepomdRecords.filelists records) absolute_path).

Fixpoint position (key : string) (i : nat) (l : list string) : option nat :=
  match l with [] => None | x :: l => if bool_decide (x = key) then Some i else position key (S i) l end.

Definition scan_file_providers (s : PlanningSnapshot.t) (r : PlanningRepository.t) (m : LazyManifest.t)
    (absolute_path : string) : presult (list N) :=
  let checksums := PrimaryPackageIdentity.checksum <$> LazyManifest.identities m in
  _ ← mapM as_u32 (seq 0 (length checksums));
  if negb (all_distinct checksums) then input "primary package checksums are duplicate"
  else
    package_ids ← scan_file_provider_ids s r absolute_path;
    providers ← mapM (fun id => N.of_nat <$> ok_or (PlanningError.Input "filelists package is absent from primary")
                                               (position id 0 checksums)) package_ids;
    Ok (dedup (sort providers)).

Definition scan_binary_file_providers (s : PlanningSnapshot.t) (r : PlanningRepository.t) (m : LazyBinaryManifest.t)
    (absolute_path : string) : presult (list N) :=
  package_ids ← scan_file_provider_ids s r absolute_path;
  providers ← mapM (lazy_binary_ordinal m) package_ids;
  Ok (dedup (sort providers)).

Definition is_lazy_binary (b : list byte) : bool :=
  starts_with LAZY_BINARY_V2_MAGIC b || starts_with LAZY_BINARY_V3_MAGIC b.

Definition canonical_path (path : string) : bool :=
  str_starts_with "/" path && negb (str_contains "//" path) && negb (existsb char_is_control (chars path))
  && negb (existsb (fun part => bool_decide (part = ".") || bool_decide (part = "..")) (segments path)).

Definition read_shard (s : PlanningSnapshot.t) (m : Manifest.t) (shard : Shard.t) : presult (list byte) :=
  b ← decode_verified read_blob (PlanningBytes.mk (Shard.sha256 shard) (Shard.size shard) "") (storage s);
  decode_shard (Manifest.schema_version m) shard b.

Definition bucket_providers (s : PlanningSnapshot.t) (m : Manifest.t) (absolute_path : string) : presult (list N) :=
  let digest := sha256 (bytes absolute_path) in
  let bucket_index := first_byte digest in
  bucket ← index (Manifest.buckets m) bucket_index;
  shard ← index (Manifest.shards m) (N.to_nat (Bucket.shard bucket));
  b ← read_shard s m shard;
  bucket_bytes ← bucket_slice b bucket;
  lookup_bucket bucket_bytes (Manifest.schema_version m) bucket_index (Manifest.package_count m) digest.

Definition file_providers (s : PlanningSnapshot.t) (r : PlanningRepository.t) (absolute_path : string) : presult (list N) :=
  if negb (canonical_path absolute_path) then input "file-provides selector is not a canonical absolute path"
  else
    descriptor ← ok_or (PlanningError.Input "planning repository has no file-provides index") (PlanningRepository.file_provides r);
    manifest_bytes ← decode_verified read_blob descriptor (storage s);
    let primary := PlanningBytes.sha256 (PlanningRepository.primary r) in
    let filelists := PlanningBytes.sha256 (PlanningRepository.filelists r) in
    if is_lazy_binary manifest_bytes then
      manifest ← validate_lazy_binary_manifest manifest_bytes primary filelists;
      let providers := lazy_binary_primary_providers manifest absolute_path in
      if negb (bool_decide (providers = [])) then Ok providers
      else scan_binary_file_providers s r manifest absolute_path
    else
      probe ← json_error (probe_json manifest_bytes);
      if probe =? LAZY_INDEX_SCHEMA_VERSION then
        manifest ← read_canonical lazy_json manifest_bytes;
        _ ← validate_lazy_manifest manifest primary filelists;
        scan_file_providers s r manifest absolute_path
      else
        manifest ← read_canonical manifest_json manifest_bytes;
        _ ← validate_readable_manifest manifest primary filelists;
        bucket_providers s manifest absolute_path.

(** Whether the next refresh may keep the index. *)
Definition current_descriptor_valid (s : PlanningSnapshot.t) (r : PlanningRepository.t) : presult bool :=
  descriptor ← ok_or (PlanningError.Input "planning repository has no file-provides index") (PlanningRepository.file_provides r);
  manifest_bytes ← decode_verified read_blob descriptor (storage s);
  let primary := PlanningBytes.sha256 (PlanningRepository.primary r) in
  let filelists := PlanningBytes.sha256 (PlanningRepository.filelists r) in
  if is_lazy_binary manifest_bytes then
    _ ← validate_lazy_binary_manifest manifest_bytes primary filelists;
    Ok (starts_with LAZY_BINARY_V3_MAGIC manifest_bytes)
  else
    probe ← json_error (probe_json manifest_bytes);
    if probe =? LAZY_INDEX_SCHEMA_VERSION then
      manifest ← read_canonical lazy_json manifest_bytes;
      _ ← validate_lazy_manifest manifest primary filelists; Ok false
    else
      manifest ← read_canonical manifest_json manifest_bytes;
      if negb (Manifest.schema_version manifest =? INDEX_SCHEMA_VERSION) then Ok false
      else _ ← validate_manifest manifest primary filelists; Ok true.
End lookup.

(** The blobs an index refers to, which must be kept with it. *)
Definition referenced_shards_for_gc (manifest_bytes : list byte) (r : PlanningRepository.t) : presult (list string) :=
  let primary := PlanningBytes.sha256 (PlanningRepository.primary r) in
  let filelists := PlanningBytes.sha256 (PlanningRepository.filelists r) in
  if is_lazy_binary manifest_bytes then
    _ ← validate_lazy_binary_manifest manifest_bytes primary filelists; Ok []
  else
    probe ← json_error (probe_json manifest_bytes);
    if probe =? LAZY_INDEX_SCHEMA_VERSION then
      manifest ← read_canonical lazy_json manifest_bytes;
      _ ← validate_lazy_manifest manifest primary filelists; Ok []
    else
      manifest ← read_canonical manifest_json manifest_bytes;
      shard_count ← ok_or (PlanningError.Input "retained file-provides manifest schema is unsupported")
                      (shard_count_of (Manifest.schema_version manifest));
      _ ← validate_manifest_layout manifest primary filelists (Manifest.schema_version manifest) shard_count;
      Ok (Shard.sha256 <$> Manifest.shards manifest).

(** ** Building the compact index *)

Definition identities_of (g : Generation.t) : presult (list PrimaryPackageIdentity.t) :=
  match Generation.primary_identities g with
  | Some identities => Ok identities
  | None =>
      records ← metadata (parse_repomd_records unescape (tokenize [Ok (Generation.repomd g)]));
      primary_bytes ← cache (Generation.primary g);
      validated ← metadata (validate_primary_record sha256_hex zstd_stream gzip_stream unescape tokenize sha256
                              [Ok primary_bytes] (RepomdRecords.primary records));
      Ok (ValidatedPrimary.identities validated)
  end.

Definition package_record (p : nat * PrimaryPackageIdentity.t) : presult (list byte * N) :=
  checksum ← decode_sha256 (PrimaryPackageIdentity.checksum p.2);
  ordinal ← as_u32 p.1;
  Ok (checksum, ordinal).

Definition enumerate {A} (l : list A) : list (nat * A) := zip (seq 0 (length l)) l.

Definition entry_bytes (e : list byte * N) : list byte := e.1 ++ u32_be e.2.

(** One record of the projection: the digest before it, and the bytes so far. *)
Definition primary_file_step (s : option (list byte) * list byte) (record : list byte) :
    presult (option (list byte) * list byte) :=
  let '(previous, b) := s in
  let digest := take 32 record in
  if match previous with
     | Some p => bool_decide (take 16 p = take 16 digest) && negb (bool_decide (p = digest))
     | None => false
     end
  then input "primary file truncated digest collision"
  else Ok (Some digest, b ++ take 16 digest ++ drop 32 record).

Definition build_bytes (g : Generation.t) : presult (list byte) :=
  identities ← identities_of g;
  package_count ← as_u32 (length identities);
  entries ← mapM package_record (enumerate identities);
  let entries := sort_by (fun a b => cmp a.1 b.1) entries in
  if windows2_any (fun a b => bool_decide (a.1 = b.1)) entries then input "primary package checksums are duplicate"
  else
    primary ← decode_sha256 (Generation.primary_sha256 g);
    filelists ← decode_sha256 (Generation.filelists_sha256 g);
    let head magic := magic ++ primary ++ filelists ++ u32_be package_count in
    let packages := concat (entry_bytes <$> entries) in
    b ← match Generation.primary_files g with
        | None => Ok (head LAZY_BINARY_V2_MAGIC ++ packages)
        | Some files =>
            let count := (length files / CACHE_PRIMARY_FILE_ENTRY_SIZE)%nat in
            let start := head LAZY_BINARY_V3_MAGIC ++ u64_be (N.of_nat count) ++ packages in
            if negb (length files mod CACHE_PRIMARY_FILE_ENTRY_SIZE =? 0)%nat
            then input "primary file projection has a partial record"
            else
              '(_, b) ← fold_result primary_file_step (None, start) (chunks_exact CACHE_PRIMARY_FILE_ENTRY_SIZE files);
              Ok b
        end;
    _ ← validate_lazy_binary_manifest b (Generation.primary_sha256 g) (Generation.filelists_sha256 g);
    Ok b.

(** With the store of blobs as a state [F]. *)
Definition build {F} (publish_blob_deferred : string -> list byte -> F -> presult unit * F) (g : Generation.t)
    (blob_store : bool) (f : F) : presult PlanningBytes.t * F :=
  match build_bytes g with
  | Err e => (Err e, f)
  | Ok b =>
      let descriptor := PlanningBytes.mk (sha256_hex b) (N.of_nat (length b)) "" in
      if blob_store then
        let '(r, f) := publish_blob_deferred (sha256_hex b) b f in ((fun _ => descriptor) <$> r, f)
      else (Ok descriptor, f)
  end.
End index.
