(* ===== verification/FileIndexFacts.v ===== *)
(** * Facts about the index of files

    The binary searches find what a scan of the entries finds, a built index is valid and knows
    every package and path it was made of, and the look-ups of a valid index stay within it. *)
From Stdlib Require Import Ascii.
From S2P Require Import Prelude.
From S2P Require Import RustStr.
From S2P Require Import Canonical.
From S2P Require Import RustText.
From S2P Require Import Metadata.
From S2P Require Import Filelists.
From S2P Require Import Modulemd.
From S2P Require Import CacheModel.
From S2P Require Import Snapshot.
From S2P Require Import SnapshotFacts.
From S2P Require Import FileIndex.

#[local] Open Scope N_scope.

(** ** Binary search *)

Module SearchFacts.

(** The first position that is not less. *)
Lemma bisect_spec less fuel : forall left right, (right - left < fuel)%nat -> (left <= right)%nat ->
  (forall i j, (left <= i <= j)%nat -> (j < right)%nat -> less j = true -> less i = true) ->
  (left <= search fuel less left right <= right)%nat /\
  (forall i, (left <= i < search fuel less left right)%nat -> less i = true) /\
  (forall i, (search fuel less left right <= i < right)%nat -> less i = false).
Proof.
  induction fuel as [|fuel IH]; intros left right Hf Hle Hmono; [lia |]. cbn [search].
  destruct (Nat.ltb_spec left right) as [Hlt|Hge]; [| split_and!; intros; lia].
  set (middle := (left + (right - left) / 2)%nat).
  assert (Hm : (left <= middle < right)%nat).
  { unfold middle. pose proof (Nat.div_lt_upper_bound (right - left) 2 (right - left)). lia. }
  destruct (less middle) eqn:El.
  - destruct (IH (S middle) right) as (H1 & H2 & H3); [lia | lia | intros i j ? ?; apply Hmono; lia |].
    split_and!; [lia | lia | | done]. intros i Hi. destruct (decide (i <= middle)%nat).
    + by apply (Hmono i middle); [lia.. |].
    + apply H2. lia.
  - destruct (IH left middle) as (H1 & H2 & H3); [lia | lia | intros i j ? ?; apply Hmono; lia |].
    split_and!; [lia | lia | done |]. intros i Hi. destruct (decide (i < middle)%nat); [apply H3; lia |].
    destruct (less i) eqn:Ei; [| done]. rewrite (Hmono middle i) in El; [done | lia | lia | done].
Qed.

Fixpoint matching_prefix {A} (g : A -> option N) (l : list A) : list N :=
  match l with
  | [] => []
  | x :: l => match g x with Some o => o :: matching_prefix g l | None => [] end
  end.

Lemma collect_list {A} (g : A -> option N) (m : nat -> option N) (l : list A) fuel : forall left,
  (forall i x, l !! i = Some x -> m i = g x) -> (length l - left < fuel)%nat ->
  collect fuel (length l) m left = matching_prefix g (drop left l).
Proof.
  induction fuel as [|fuel IH]; intros left Hm Hf; [lia |]. cbn [collect].
  destruct (Nat.ltb_spec left (length l)) as [Hlt|Hge]; [| by rewrite drop_ge by lia].
  destruct (lookup_lt_is_Some_2 l left Hlt) as [x Hx]. rewrite (drop_S l x left) by done. cbn [matching_prefix].
  rewrite (Hm left x Hx). destruct (g x); [| done]. by rewrite IH by (done || lia).
Qed.

(** [take n] keeps the order of lists. *)
Lemma take_mono n : forall (a b : list byte), cmp a b <> Gt -> cmp (take n a) (take n b) <> Gt.
Proof.
  induction n as [|n IH]; intros a b Hab; [done |].
  destruct a as [|x a], b as [|y b]; try done. cbn in *. destruct (cmp x y); try done. by apply IH.
Qed.

Lemma sorted_lookup_lt {A} (R : A -> A -> Prop) l : forall i j x y,
  StronglySorted R l -> l !! i = Some x -> l !! j = Some y -> (i < j)%nat -> R x y.
Proof.
  induction l as [|z l IH]; intros i j x y Hs Hx Hy Hij; [done |]. apply StronglySorted_inv in Hs as [Hs Hz].
  destruct j as [|j]; [lia |]. cbn in Hy. destruct i as [|i]; cbn in Hx.
  - injection Hx as ->. rewrite Forall_forall in Hz. by apply Hz, (list_elem_of_lookup_2 _ j).
  - apply (IH i j); [done.. | lia].
Qed.

Lemma sorted_drop {A} (R : A -> A -> Prop) n l : StronglySorted R l -> StronglySorted R (drop n l).
Proof. revert n. induction l as [|x l IH]; intros [|n] Hs; try done. apply StronglySorted_inv in Hs as [Hs _]. by apply IH. Qed.

Lemma omap_none {A B} (f : A -> option B) l : (forall x, x ∈ l -> f x = None) -> omap f l = [].
Proof.
  induction l as [|x l IH]; intros Hf; [done |]. cbn. rewrite (Hf x) by left. apply IH. intros y Hy. apply Hf. by right.
Qed.

(** In a sorted list, looking for the first key that is not less and then taking equal ones gives
    every equal one. *)
Lemma sorted_lookup (d : nat) (target : list byte) (entries : list (list byte)) (key : nat -> list byte)
    (value : list byte -> N) :
  StronglySorted clt entries -> (forall i x, entries !! i = Some x -> key i = x) ->
  let less i := is_lt (cmp (take d (key i)) target) in
  let g x := if bool_decide (take d x = target) then Some (value x) else None in
  let n := length entries in
  collect (S n) n (fun i => g (key i)) (search (S n) less 0 n) = omap g entries.
Proof.
  intros Hs Hkey less g n.
  assert (Hle : forall i j x y, (i <= j)%nat -> entries !! i = Some x -> entries !! j = Some y ->
    cmp (take d x) (take d y) <> Gt).
  { intros i j x y Hij Hx Hy. apply take_mono. destruct (decide (i = j)) as [->|].
    - rewrite Hx in Hy. injection Hy as ->. by rewrite cmp_refl.
    - apply clt_le. eapply (sorted_lookup_lt clt); [exact Hs | exact Hx | exact Hy | lia]. }
  destruct (bisect_spec less (S n) 0 n) as (Hp & Hbefore & Hafter); [lia | lia | |].
  { intros i j Hij Hj. unfold less. destruct (lookup_lt_is_Some_2 entries i) as [x Hx]; [lia |].
    destruct (lookup_lt_is_Some_2 entries j) as [y Hy]; [lia |]. rewrite (Hkey i x Hx), (Hkey j y Hy).
    pose proof (Hle i j x y ltac:(lia) Hx Hy) as Hxy. destruct (cmp (take d y) target) eqn:Ey; try done. intros _.
    by rewrite (cp_le_lt cmp_is_preorder _ _ _ Hxy Ey). }
  set (p := search (S n) less 0 n) in *. rewrite (collect_list g _ entries); [| | lia].
  2: { intros i x Hx. by rewrite (Hkey i x Hx). }
  rewrite <- (take_drop p entries) at 2. rewrite omap_app.
  assert (omap g (take p entries) = []) as ->.
  { apply omap_none. intros x Hx. apply list_elem_of_lookup in Hx as [i Hi].
    apply lookup_take_Some in Hi as [Hx Hi]. specialize (Hbefore i ltac:(lia)). unfold less in Hbefore.
    rewrite (Hkey i x Hx) in Hbefore. unfold g. rewrite bool_decide_eq_false_2; [done |]. intros E.
    by rewrite E, cmp_refl in Hbefore. }
  cbn [app]. assert (Hge : Forall (fun x => cmp (take d x) target <> Lt) (drop p entries)).
  { apply Forall_lookup. intros i x Hx. rewrite lookup_drop in Hx. pose proof (lookup_lt_Some _ _ _ Hx) as Hlen.
    specialize (Hafter (p + i)%nat ltac:(lia)). unfold less in Hafter. rewrite (Hkey _ x Hx) in Hafter.
    by destruct (cmp (take d x) target). }
  assert (Hsd : StronglySorted (fun x y => cmp (take d x) (take d y) <> Gt) (drop p entries)).
  { apply sorted_drop. clear - Hs. induction Hs as [|x l _ IH Hx]; constructor; [done |].
    eapply Forall_impl; [exact Hx |]. intros y Hy. by apply take_mono, clt_le. }
  revert Hge Hsd. generalize (drop p entries). intros l Hge Hsd. induction Hsd as [|x l _ IH Hx]; [done |].
  apply Forall_cons in Hge as [Hgx Hge]. cbn. unfold g at 1 3. case_bool_decide as Heq.
  - f_equal. by apply IH.
  - symmetry. apply omap_none. intros y Hy. rewrite Forall_forall in Hx. specialize (Hx y Hy). unfold g.
    rewrite bool_decide_eq_false_2; [done |]. intros <-. destruct (clt_total (take d x) (take d y)) as [Hlt|[He|Hgt]]; [done.. |].
    by apply Hx, (cp_gt_lt cmp_is_preorder).
Qed.
End SearchFacts.

(** ** Chunks *)

Module ChunkFacts.

Lemma chunks_from_concat size (Hsize : (0 < size)%nat) (ls : list (list byte)) : forall fuel,
  Forall (fun x => length x = size) ls -> (length (concat ls) <= fuel)%nat -> chunks_from fuel size (concat ls) = ls.
Proof.
  induction ls as [|x ls IH]; intros fuel Hall Hf.
  { destruct fuel; [done |]. cbn [chunks_from concat length]. by rewrite (proj2 (Nat.ltb_lt 0 size) Hsize). }
  apply Forall_cons in Hall as [Hx Hall]. cbn [concat] in *. rewrite length_app in Hf.
  destruct fuel as [|fuel]; [lia |]. cbn [chunks_from]. rewrite length_app.
  destruct (Nat.ltb_spec (length x + length (concat ls)) size); [lia |].
  rewrite (take_app_length' x _ size), (drop_app_length' x _ size) by lia. rewrite IH by (done || lia). done.
Qed.

Lemma chunks_exact_concat size ls : (0 < size)%nat -> Forall (fun x => length x = size) ls -> chunks_exact size (concat ls) = ls.
Proof. intros Hs Hall. by apply chunks_from_concat. Qed.

(** A list of whole chunks is the concatenation of its chunks. *)
Lemma chunks_concat size (Hsize : (0 < size)%nat) n : forall l, length l = (n * size)%nat ->
  concat (chunks_exact size l) = l /\ Forall (fun x => length x = size) (chunks_exact size l) /\
  length (chunks_exact size l) = n.
Proof.
  unfold chunks_exact. intros l Hl. assert (Hfuel : (length l <= length l)%nat) by done.
  revert Hfuel. generalize (length l) at 2 3 4 5 as fuel. revert l Hl.
  induction n as [|n IH]; intros l Hl fuel Hf.
  { destruct l; [| done]. destruct fuel; [done |]. cbn [chunks_from concat length]. by rewrite (proj2 (Nat.ltb_lt 0 size) Hsize). }
  destruct fuel as [|fuel]; [lia |]. cbn [chunks_from]. destruct (Nat.ltb_spec (length l) size); [lia |].
  destruct (IH (drop size l)) with (fuel := fuel) as (H1 & H2 & H3); [rewrite length_drop; lia.. |].
  cbn [concat length]. rewrite H1, take_drop. split_and!; [done | constructor; [rewrite length_take; lia | done] | by rewrite H3].
Qed.

Lemma chunk_slice size n l i x : (0 < size)%nat -> length l = (n * size)%nat ->
  chunks_exact size l !! i = Some x -> slice l (i * size) size = x.
Proof.
  intros Hsize Hl Hi. destruct (chunks_concat size Hsize n l Hl) as (Hc & Hall & _). unfold slice.
  rewrite <- Hc at 1. revert i Hi. clear Hc. induction (chunks_exact size l) as [|y ls IH]; intros i Hi; [done |].
  apply Forall_cons in Hall as [Hy Hall]. destruct i as [|i]; cbn [concat].
  - injection Hi as ->. cbn. rewrite drop_0. apply take_app_length'. lia.
  - cbn in Hi. replace (S i * size)%nat with (length y + i * size)%nat by lia.
    by rewrite drop_app_add', IH.
Qed.

Lemma chunk_some size n l i : (0 < size)%nat -> length l = (n * size)%nat -> (i < n)%nat ->
  chunks_exact size l !! i = Some (slice l (i * size) size).
Proof.
  intros Hsize Hl Hi. destruct (chunks_concat size Hsize n l Hl) as (_ & _ & Hlen).
  destruct (lookup_lt_is_Some_2 (chunks_exact size l) i) as [x Hx]; [lia |].
  by rewrite Hx, (chunk_slice size n l i x).
Qed.
End ChunkFacts.

(** ** The compact index *)

Module LazyFacts.
Import ChunkFacts SearchFacts.

(** Entries of packages: checksums and ordinals; of paths: digest prefixes and ordinals. *)
Definition package_chunks (m : LazyBinaryManifest.t) : list (list byte) :=
  chunks_exact LAZY_BINARY_ENTRY_SIZE (LazyBinaryManifest.package_entries m).
Definition file_chunks (m : LazyBinaryManifest.t) : list (list byte) :=
  chunks_exact PRIMARY_FILE_ENTRY_SIZE (LazyBinaryManifest.primary_file_entries m).

Definition checksum_of (e : list byte) : list byte := take 32 e.
Definition ordinal_of (e : list byte) : N := be_value (drop 32 e).
Definition file_ordinal (e : list byte) : N := be_value (drop 16 e).

Record lazy_ok (m : LazyBinaryManifest.t) : Prop := {
  ok_package_size : length (LazyBinaryManifest.package_entries m)
    = (N.to_nat (LazyBinaryManifest.package_count m) * LAZY_BINARY_ENTRY_SIZE)%nat;
  ok_checksums : StronglySorted clt (checksum_of <$> package_chunks m);
  ok_distinct : NoDup (ordinal_of <$> package_chunks m);
  ok_ordinals : Forall (fun e => ordinal_of e < LazyBinaryManifest.package_count m) (package_chunks m);
  ok_file_size : exists n, length (LazyBinaryManifest.primary_file_entries m) = (n * PRIMARY_FILE_ENTRY_SIZE)%nat;
  ok_files : StronglySorted clt (file_chunks m);
  ok_file_ordinals : Forall (fun e => file_ordinal e < LazyBinaryManifest.package_count m) (file_chunks m);
}.

Lemma check_packages_ok entries : forall seen previous u, check_packages seen previous entries = Ok u ->
  (forall p, previous = Some p -> Forall (fun e => clt p (checksum_of e)) entries) /\
  StronglySorted clt (checksum_of <$> entries) /\
  Forall (fun e => seen !! N.to_nat (ordinal_of e) = Some false) entries /\ NoDup (ordinal_of <$> entries).
Proof.
  induction entries as [|e entries IH]; intros seen previous u; cbn [check_packages].
  { intros _. by repeat constructor. }
  destruct (not_after previous (take 32 e)) eqn:Ep; [done |].
  destruct (seen !! _) as [[]|] eqn:Es; [done | | done]. intros (Hp & Hs & Hseen & Hnd)%IH.
  specialize (Hp _ eq_refl). rewrite !fmap_cons. split_and!.
  - intros p ->. cbn in Ep. apply geb_false in Ep. constructor; [done |]. eapply Forall_impl; [exact Hp |].
    intros x Hx. by eapply (cp_lt_trans cmp_is_preorder).
  - constructor; [done |]. by apply Forall_fmap.
  - constructor; [done |]. eapply Forall_impl; [exact Hseen |]. intros x Hx. cbn in Hx.
    destruct (decide (N.to_nat (ordinal_of x) = N.to_nat (be_value (drop 32 e)))) as [Heq|Hne].
    + rewrite Heq, list_lookup_insert_eq in Hx; [done |]. by eapply lookup_lt_Some.
    + by rewrite list_lookup_insert_ne in Hx.
  - constructor; [| done]. intros Hin%list_elem_of_fmap. destruct Hin as (x & Hx & Hin).
    rewrite Forall_forall in Hseen. specialize (Hseen x Hin). rewrite <- Hx in Hseen. unfold ordinal_of in Hseen.
    rewrite list_lookup_insert_eq in Hseen; [done |]. by eapply lookup_lt_Some.
Qed.

(** Nothing is bad and nothing is out of order. *)
Lemma any_with_previous_false (bad : list byte -> bool) (l : list (list byte)) :
  any_with_previous (fun p x => bad x || not_after p x) None l = false ->
  Forall (fun x => bad x = false) l /\ StronglySorted clt l.
Proof.
  assert (H : forall l previous, any_with_previous (fun p x => bad x || not_after p x) previous l = false ->
    (forall p, previous = Some p -> Forall (clt p) l) /\ Forall (fun x => bad x = false) l /\ StronglySorted clt l).
  { clear l. induction l as [|x l IH]; intros previous; [by repeat constructor |]. cbn [any_with_previous].
    intros [[Hbad Hprev]%orb_false_iff (Hp & Hb & Hs)%IH]%orb_false_iff. specialize (Hp x eq_refl). split_and!.
    - intros p ->. apply geb_false in Hprev. constructor; [done |]. eapply Forall_impl; [exact Hp |].
      intros y Hy. by eapply (cp_lt_trans cmp_is_preorder).
    - by constructor.
    - by constructor. }
  intros Hl. by apply H in Hl as (_ & ? & ?).
Qed.

Lemma get_range_ok (l : list byte) from to r : get_range l from to = Some r ->
  from <= to <= N.of_nat (length l) /\ r = take (N.to_nat (to - from)) (drop (N.to_nat from) l).
Proof.
  unfold get_range. destruct (_ && _) eqn:E; [| done]. intros [= <-]. apply andb_prop in E as [?%N.leb_le ?%N.leb_le]. done.
Qed.

Lemma usize_mul_ok a b c : usize_mul a b = Some c -> c = a * b.
Proof. unfold usize_mul. destruct (_ <=? _); [by intros [= <-] | done]. Qed.

Lemma checked_add_ok a b c : u64_checked_add a b = Some c -> c = a + b.
Proof. unfold u64_checked_add. destruct (_ <=? _); [by intros [= <-] | done]. Qed.

Section facts.
Context `{IndexEnv}.

Lemma validate_lazy_ok b primary filelists m : validate_lazy_binary_manifest b primary filelists = Ok m ->
  lazy_ok m /\ LazyBinaryManifest.package_count m <> 0 /\
  decode_sha256 primary = Ok (slice b 18 32) /\ decode_sha256 filelists = Ok (slice b 50 32) /\
  let header := lazy_header_size (starts_with LAZY_BINARY_V3_MAGIC b) in
  let size := (N.to_nat (LazyBinaryManifest.package_count m) * LAZY_BINARY_ENTRY_SIZE)%nat in
  LazyBinaryManifest.package_count m = be_value (slice b 82 4) /\
  LazyBinaryManifest.package_entries m = slice b header size /\
  LazyBinaryManifest.primary_file_entries m = drop (header + size) b.
Proof.
  unfold validate_lazy_binary_manifest. intros ([magic v3] & Hmagic & H1)%bind_ok.
  assert (length magic = 18%nat /\ starts_with LAZY_BINARY_V3_MAGIC b = v3) as [Hlen Hv3].
  { destruct (starts_with LAZY_BINARY_V3_MAGIC b); [by injection Hmagic as <- <- |].
    destruct (starts_with LAZY_BINARY_V2_MAGIC b); [by injection Hmagic as <- <- | done]. }
  rewrite Hv3. clear Hv3.
  rewrite Hlen in H1. destruct (Nat.ltb_spec (length b) (lazy_header_size v3)) as [|Hhead] in H1; [done |].
  apply bind_ok in H1 as (p & Hp & (same & Hsame & H1)%bind_ok). destruct (negb same) eqn:Es; [done |].
  apply negb_false_iff in Es. subst same. case_bool_decide as Hpb; [| done].
  apply bind_ok in Hsame as (f & Hf & [= Hfb]). apply bool_decide_eq_true in Hfb.
  revert H1. change (18 + 64)%nat with 82%nat. generalize (be_value (slice b 82 4)) as count. generalize (be_value (slice b (18 + 68) 8)) as files.
  intros files count H1.
  apply bind_ok in H1 as (size & Hsize%ok_or_ok%usize_mul_ok & (pend & Hend%ok_or_ok%checked_add_ok & (entries & He%ok_or_ok%get_range_ok & H1)%bind_ok)%bind_ok).
  apply bind_ok in H1 as (fsize & Hfsize%ok_or_ok%usize_mul_ok & (expected & Hexp%ok_or_ok%checked_add_ok & H1)%bind_ok).
  destruct (_ || _) eqn:E2 in H1; [done |]. apply orb_false_iff in E2 as [Hne%N.eqb_neq Hb%negb_false_iff%N.eqb_eq].
  apply bind_ok in H1 as (u & Hc%check_packages_ok & H1). destruct (any_with_previous _ _ _) eqn:Ea; [done |].
  injection H1 as <-. apply any_with_previous_false in Ea as [Hfo Hfs].
  destruct Hc as (_ & Hsorted & Hseen & Hnd), He as [Hrange Hentries].
  split_and!; [| done | by rewrite Hp, <- Hpb | by rewrite Hf, <- Hfb | done | |].
  2: { cbn [LazyBinaryManifest.package_count LazyBinaryManifest.package_entries LazyBinaryManifest.primary_file_entries]. unfold slice, LAZY_BINARY_ENTRY_SIZE in *. rewrite Hentries, Nat2N.id. f_equal. lia. }
  2: { cbn [LazyBinaryManifest.package_count LazyBinaryManifest.package_entries LazyBinaryManifest.primary_file_entries]. f_equal. unfold LAZY_BINARY_ENTRY_SIZE in *. lia. }
  split; unfold package_chunks, file_chunks;
    cbn [LazyBinaryManifest.package_count LazyBinaryManifest.package_entries LazyBinaryManifest.primary_file_entries]; try done.
  - rewrite Hentries, length_take, length_drop. unfold LAZY_BINARY_ENTRY_SIZE in *. lia.
  - eapply Forall_impl; [exact Hseen |]. intros e Hlook%lookup_lt_Some. rewrite length_replicate in Hlook. unfold ordinal_of in *. lia.
  - exists (N.to_nat (if v3 then files else 0)). rewrite length_drop. unfold PRIMARY_FILE_ENTRY_SIZE in *. rewrite Hfsize in Hexp.
    rewrite Hexp in Hb. lia.
  - eapply Forall_impl; [exact Hfo |]. intros e He%N.leb_gt. done.
Qed.

(** The entry at a position, as the look-ups cut it out. *)
Lemma package_entry_chunk m i e : lazy_ok m -> package_chunks m !! i = Some e -> package_entry m i = e.
Proof. intros Hm Hi. unfold package_entry. eapply chunk_slice; [unfold LAZY_BINARY_ENTRY_SIZE; lia | by apply ok_package_size | exact Hi]. Qed.

Lemma package_chunks_length m : lazy_ok m -> length (package_chunks m) = N.to_nat (LazyBinaryManifest.package_count m).
Proof.
  intros Hm. destruct (chunks_concat LAZY_BINARY_ENTRY_SIZE ltac:(unfold LAZY_BINARY_ENTRY_SIZE; lia) _ _ (ok_package_size m Hm))
    as (_ & _ & ?). done.
Qed.

Lemma checksum_lookup_lt m i j x y : lazy_ok m -> package_chunks m !! i = Some x -> package_chunks m !! j = Some y ->
  (i < j)%nat -> clt (checksum_of x) (checksum_of y).
Proof.
  intros Hm Hx Hy Hij. apply (sorted_lookup_lt clt _ i j _ _ (ok_checksums m Hm)); [.. | done]; rewrite list_lookup_fmap.
  - by rewrite Hx.
  - by rewrite Hy.
Qed.

Lemma ordinal_loop_spec m c (Hm : lazy_ok m) fuel : forall low high o, (high - low < fuel)%nat ->
  (high <= length (package_chunks m))%nat ->
  ordinal_loop fuel m c low high = Some o <->
  exists i e, (low <= i < high)%nat /\ package_chunks m !! i = Some e /\ checksum_of e = c /\ ordinal_of e = o.
Proof.
  induction fuel as [|fuel IH]; intros low high o Hf Hlen; [lia |]. cbn [ordinal_loop].
  destruct (Nat.ltb_spec low high) as [Hlt|Hge]; [| split; [done | intros (i & e & ? & _); lia]].
  set (middle := (low + (high - low) / 2)%nat).
  assert (Hmid : (low <= middle < high)%nat).
  { unfold middle. pose proof (Nat.div_lt_upper_bound (high - low) 2 (high - low)). lia. }
  destruct (lookup_lt_is_Some_2 (package_chunks m) middle) as [x Hx]; [lia |].
  rewrite (package_entry_chunk m middle x Hm Hx). fold (checksum_of x). destruct (cmp (checksum_of x) c) eqn:Ec.
  - apply cmp_eq in Ec. split.
    + intros [= <-]. exists middle, x. done.
    + intros (i & e & _ & He & Hc & <-). destruct (decide (i = middle)) as [->|Hne]; [by rewrite Hx in He; injection He as <- |].
      exfalso. assert (clt c c) as Hcc.
      { destruct (decide (i < middle)%nat).
        - rewrite <- Ec at 2. rewrite <- Hc. eapply checksum_lookup_lt; [done | exact He | exact Hx | done].
        - rewrite <- Ec at 1. rewrite <- Hc. eapply checksum_lookup_lt; [done | exact Hx | exact He | lia]. }
      unfold clt in Hcc. by rewrite cmp_refl in Hcc.
  - rewrite IH by lia. split; intros (i & e & Hi & He & Hc & Ho); exists i, e; (split; [| done]); [lia |].
    destruct (decide (i <= middle)%nat); [exfalso | lia]. rewrite <- Hc in Ec. destruct (decide (i = middle)) as [->|].
    { rewrite Hx in He. injection He as <-. by rewrite cmp_refl in Ec. }
    assert (Hlt' : clt (checksum_of e) (checksum_of x)) by (eapply checksum_lookup_lt; [done | exact He | exact Hx | lia]).
    apply (cp_gt_lt cmp_is_preorder) in Hlt'. by rewrite Ec in Hlt'.
  - rewrite IH by lia. split; intros (i & e & Hi & He & Hc & Ho); exists i, e; (split; [| done]); [lia |].
    destruct (decide (middle <= i)%nat); [exfalso | lia]. rewrite <- Hc in Ec. destruct (decide (i = middle)) as [->|].
    { rewrite Hx in He. injection He as <-. by rewrite cmp_refl in Ec. }
    assert (Hlt' : clt (checksum_of x) (checksum_of e)) by (eapply checksum_lookup_lt; [done | exact Hx | exact He | lia]).
    unfold clt in Hlt'. by rewrite Ec in Hlt'.
Qed.

Lemma lazy_ordinal_exact m id c o : lazy_ok m -> decode_sha256 id = Ok c ->
  lazy_binary_ordinal m id = Ok o <->
  exists e, e ∈ package_chunks m /\ checksum_of e = c /\ ordinal_of e = o.
Proof.
  intros Hm Hc. unfold lazy_binary_ordinal. rewrite Hc. cbn -[ordinal_loop]. rewrite ok_or_ok.
  pose proof (package_chunks_length m Hm) as Hlen. rewrite ordinal_loop_spec by (done || lia). split.
  - intros (i & e & _ & Hi & ? & ?). exists e. split_and!; [by eapply list_elem_of_lookup_2 | done..].
  - intros (e & [i Hi]%list_elem_of_lookup & ? & ?). exists i, e. split_and!; [lia | | done..].
    apply lookup_lt_Some in Hi. lia.
Qed.

(** The owners of a path, one entry after the other. *)
Definition file_owners (target : list byte) (chunks : list (list byte)) : list N :=
  omap (fun e => if bool_decide (take 16 e = target) then Some (file_ordinal e) else None) chunks.

Lemma primary_providers_exact m path : lazy_ok m ->
  lazy_binary_primary_providers m path = file_owners (take 16 (sha256 (bytes path))) (file_chunks m).
Proof.
  intros Hm. destruct (ok_file_size m Hm) as [n Hn].
  assert (Hpos : (0 < PRIMARY_FILE_ENTRY_SIZE)%nat) by (unfold PRIMARY_FILE_ENTRY_SIZE; lia).
  destruct (chunks_concat _ Hpos n _ Hn) as (_ & _ & Hlen). unfold lazy_binary_primary_providers.
  rewrite Hn, Nat.div_mul by (unfold PRIMARY_FILE_ENTRY_SIZE; lia).
  change (chunks_exact PRIMARY_FILE_ENTRY_SIZE (LazyBinaryManifest.primary_file_entries m)) with (file_chunks m) in Hlen.
  rewrite <- Hlen.
  apply (sorted_lookup 16 _ (file_chunks m) (primary_file_entry m) file_ordinal); [by apply ok_files |].
  intros i x Hx. unfold primary_file_entry. by eapply chunk_slice.
Qed.
End facts.
End LazyFacts.

(** ** A built index *)

Module BuildFacts.
Import ChunkFacts SearchFacts LazyFacts.

(** The records of the projection of paths: full digests and ordinals. *)
Definition records_of (g : Generation.t) : list (list byte) :=
  chunks_exact CACHE_PRIMARY_FILE_ENTRY_SIZE (default [] (Generation.primary_files g)).

Definition short_record (r : list byte) : list byte := take 16 (take 32 r) ++ drop 32 r.

Section facts.
Context `{IndexEnv}.

Lemma decode_sha256_length s c : decode_sha256 s = Ok c -> length c = 32%nat /\ valid_sha256 s = true.
Proof.
  unfold decode_sha256. destruct (negb (valid_sha256 s)) eqn:E; [done |]. apply negb_false_iff in E.
  intros (d & _ & Hd)%bind_ok. destruct (negb _) eqn:El; [done |]. injection Hd as <-.
  apply negb_false_iff, Nat.eqb_eq in El. done.
Qed.

Lemma primary_file_fold chunks : forall previous b p' b',
  fold_result primary_file_step (previous, b) chunks = Ok (p', b') ->
  b' = b ++ concat (short_record <$> chunks) /\
  (forall p x, previous = Some p -> head chunks = Some x -> take 16 p = take 16 (take 32 x) -> p = take 32 x) /\
  forall i x y, chunks !! i = Some x -> chunks !! S i = Some y -> take 16 (take 32 x) = take 16 (take 32 y) ->
    take 32 x = take 32 y.
Proof.
  induction chunks as [|c chunks IH]; intros previous b p' b' Hf; cbn [fold_result] in Hf.
  { injection Hf as <- <-. cbn. rewrite app_nil_r. split_and!; done. }
  apply bind_ok in Hf as ([p1 b1] & Hstep & Hf). unfold primary_file_step in Hstep.
  destruct (match previous with Some _ => _ | None => _ end) eqn:Ep; [done |]. injection Hstep as <- <-.
  apply IH in Hf as (-> & Hhead & Hnext). rewrite fmap_cons. cbn [concat]. split_and!.
  - unfold short_record at 2. by rewrite <- !app_assoc.
  - intros p x -> [= <-] Heq. apply andb_false_iff in Ep as [Ep%bool_decide_eq_false|Ep%negb_false_iff%bool_decide_eq_true]; done.
  - intros [|i] x y Hx Hy Heq; cbn in Hx, Hy; [| by eapply Hnext].
    injection Hx as <-. apply (Hhead _ y); [done | by destruct chunks | done].
Qed.

Lemma record_entry p e : package_record p = Ok e ->
  decode_sha256 (PrimaryPackageIdentity.checksum p.2) = Ok e.1 /\ e.2 = N.of_nat p.1 /\ e.2 <= u32_max.
Proof.
  unfold package_record, as_u32. intros (c & Hc & (o & Ho & [= <-])%bind_ok)%bind_ok.
  destruct (N.leb_spec (N.of_nat p.1) u32_max); [| done]. by injection Ho as <-.
Qed.

Lemma u32_value o : o <= u32_max -> be_value (u32_be o) = o.
Proof. intros Ho. apply (be_value_be_bytes 4). unfold u32_max in Ho. change (256 ^ N.of_nat 4) with 4294967296. lia. Qed.

Lemma length_u32 o : length (u32_be o) = 4%nat.
Proof. apply length_be_bytes. Qed.

Lemma length_u64 o : length (u64_be o) = 8%nat.
Proof. apply length_be_bytes. Qed.

Lemma starts_with_app (p x : list byte) : starts_with p (p ++ x) = true.
Proof. unfold starts_with. assert (H0 : strip_prefix p (p ++ x) = Some x); [| by rewrite H0].
  induction p as [|a p IH]; [done |]. cbn. by rewrite decide_True. Qed.

(** The bytes at the positions the validation reads. *)
Lemma slice_app (x y z : list byte) i n : length x = i -> length y = n -> slice (x ++ y ++ z) i n = y.
Proof. intros <- <-. unfold slice. by rewrite drop_app_length, take_app_length. Qed.

Lemma concat_length size ls : Forall (fun x : list byte => length x = size) ls -> length (concat ls) = (length ls * size)%nat.
Proof. induction 1 as [|x ls Hx _ IH]; [done |]. cbn. by rewrite length_app, Hx, IH. Qed.

Lemma written_layout magic (v3 : bool) p f count ex entries shorts primary filelists m :
  magic = (if v3 then LAZY_BINARY_V3_MAGIC else LAZY_BINARY_V2_MAGIC) -> length p = 32%nat -> length f = 32%nat ->
  length ex = (if v3 then 8%nat else 0%nat) -> count <= u32_max -> N.to_nat count = length entries ->
  Forall (fun x => length x = 36%nat) entries -> Forall (fun x => length x = 20%nat) shorts ->
  validate_lazy_binary_manifest (magic ++ p ++ f ++ u32_be count ++ ex ++ concat entries ++ concat shorts) primary filelists = Ok m ->
  package_chunks m = entries /\ file_chunks m = shorts.
Proof.
  intros Hmagic Hp Hf Hex Hmax Hlen Hentries Hshorts (_ & _ & _ & _ & Hcount & Hpk & Hfl)%validate_lazy_ok.
  assert (Hm : length magic = 18%nat) by (rewrite Hmagic; by destruct v3).
  assert (Hv : forall x, starts_with LAZY_BINARY_V3_MAGIC (magic ++ x) = v3)
    by (intros x; rewrite Hmagic; destruct v3; [apply starts_with_app | reflexivity]).
  rewrite Hv in Hpk, Hfl. rewrite (app_assoc magic), (app_assoc (magic ++ p)) in Hcount.
  rewrite slice_app, u32_value in Hcount by (rewrite ?length_app, ?Hm, ?Hp, ?Hf; done || apply length_u32).
  rewrite Hcount in Hpk, Hfl. rewrite Hlen in Hpk, Hfl.
  rewrite (app_assoc magic), (app_assoc (magic ++ p)), (app_assoc ((magic ++ p) ++ f)),
    (app_assoc (((magic ++ p) ++ f) ++ u32_be count)) in Hpk, Hfl.
  assert (Hh : length ((((magic ++ p) ++ f) ++ u32_be count) ++ ex) = lazy_header_size v3).
  { rewrite !length_app, Hm, Hp, Hf, length_u32, Hex. by destruct v3. }
  pose proof (concat_length 36 entries Hentries) as Hcl.
  rewrite slice_app in Hpk by done. rewrite app_assoc, drop_app_length' in Hfl by (rewrite length_app, Hh, Hcl; done).
  unfold package_chunks, file_chunks. rewrite Hpk, Hfl.
  split; apply chunks_exact_concat; try done; unfold LAZY_BINARY_ENTRY_SIZE, PRIMARY_FILE_ENTRY_SIZE; lia.
Qed.

Lemma package_entries_length l es : mapM package_record (enumerate l) = Ok es ->
  length es = length l /\ Forall (fun x => length x = 36%nat) (entry_bytes <$> sort_by (fun a b => cmp a.1 b.1) es).
Proof.
  intros Hes%mapM_ok. split.
  - apply Forall2_length in Hes. rewrite <- Hes. unfold enumerate. rewrite length_zip, length_seq. lia.
  - apply Forall_fmap. rewrite sort_by_perm. apply Forall_forall. intros e [i He]%list_elem_of_lookup.
    destruct (Forall2_lookup_r _ _ _ _ _ Hes He) as (p & _ & (Hc%decode_sha256_length & _)%record_entry).
    cbn. unfold entry_bytes. rewrite length_app, length_u32. lia.
Qed.

Lemma short_records_length (l : list byte) n : length l = (n * CACHE_PRIMARY_FILE_ENTRY_SIZE)%nat ->
  Forall (fun x => length x = 20%nat) (short_record <$> chunks_exact CACHE_PRIMARY_FILE_ENTRY_SIZE l).
Proof.
  intros Hl. destruct (chunks_concat CACHE_PRIMARY_FILE_ENTRY_SIZE ltac:(unfold CACHE_PRIMARY_FILE_ENTRY_SIZE; lia) n l Hl)
    as (_ & Hall & _). apply Forall_fmap. eapply Forall_impl; [exact Hall |]. intros x Hx. cbn. unfold short_record.
  unfold CACHE_PRIMARY_FILE_ENTRY_SIZE in Hx. rewrite length_app, !length_take, length_drop. lia.
Qed.

(** The layout of a built index. *)
Lemma build_layout g b : build_bytes g = Ok b ->
  exists l es m, identities_of g = Ok l /\ mapM package_record (enumerate l) = Ok es /\
    validate_lazy_binary_manifest b (Generation.primary_sha256 g) (Generation.filelists_sha256 g) = Ok m /\
    package_chunks m = entry_bytes <$> sort_by (fun a b => cmp a.1 b.1) es /\
    file_chunks m = short_record <$> records_of g /\
    forall i x y, records_of g !! i = Some x -> records_of g !! S i = Some y ->
      take 16 (take 32 x) = take 16 (take 32 y) -> take 32 x = take 32 y.
Proof.
  unfold build_bytes. intros (l & Hl & (count & Hcount & (es & Hes & H1)%bind_ok)%bind_ok)%bind_ok.
  destruct (windows2_any _ _); [done |].
  apply bind_ok in H1 as (p & Hp%decode_sha256_length & (f & Hf%decode_sha256_length & (b' & Hb & (m & Hm & [= ->])%bind_ok)%bind_ok)%bind_ok).
  destruct Hp as [Hp _], Hf as [Hf _]. destruct (package_entries_length l es Hes) as [Hlen Hentries].
  unfold as_u32 in Hcount. destruct (N.leb_spec (N.of_nat (length l)) u32_max) as [Hmax|]; [| done]. injection Hcount as <-.
  assert (Hn : N.to_nat (N.of_nat (length l)) = length (entry_bytes <$> sort_by (fun a b => cmp a.1 b.1) es)).
  { rewrite length_fmap, sort_by_perm, Hlen. lia. }
  exists l, es, m. do 3 (split; [done |]). unfold records_of. destruct (Generation.primary_files g) as [files|]; cbn [default from_option id].
  - destruct (negb _) eqn:Emod in Hb; [done |]. apply negb_false_iff, Nat.eqb_eq in Emod.
    apply bind_ok in Hb as ([q b1] & Hfold & [= ->]). apply primary_file_fold in Hfold as (-> & _ & Hnext).
    apply and_assoc. split; [| exact Hnext]. rewrite <- !app_assoc in Hm.
    refine (written_layout LAZY_BINARY_V3_MAGIC true p f _ _ _ _ _ _ _ eq_refl Hp Hf (length_u64 _) Hmax Hn Hentries _ Hm).
    eapply short_records_length. rewrite (Nat.div_mod_eq (length files) CACHE_PRIMARY_FILE_ENTRY_SIZE), Emod.
    rewrite Nat.add_0_r. apply Nat.mul_comm.
  - injection Hb as <-. apply and_assoc. split; [| intros i x y Hx; by destruct i].
    apply (written_layout LAZY_BINARY_V2_MAGIC false p f (N.of_nat (length l)) [] _ []
      (Generation.primary_sha256 g) (Generation.filelists_sha256 g)); try assumption; [reflexivity | reflexivity | constructor |].
    cbn [concat app]. rewrite app_nil_r. rewrite <- !app_assoc in Hm. exact Hm.
Qed.
End facts.
End BuildFacts.

(** ** Shards and buckets *)

Module ShardFacts.
Import ChunkFacts SearchFacts LazyFacts.

(** The owners of a digest among the records of a bucket. *)
Definition bucket_owners (digest_size : nat) (target : list byte) (records : list (list byte)) : list N :=
  omap (fun r => if bool_decide (take digest_size r = take digest_size target)
                 then Some (be_value (drop digest_size r)) else None) records.

Section facts.
Context `{IndexEnv}.

Lemma validate_bucket_ok b v i n count ds : digest_size_for_schema v = Ok ds -> validate_bucket b v i n = Ok count ->
  length (drop HEADER_SIZE b) = (count * (ds + 4))%nat /\
  StronglySorted clt (chunks_exact (ds + 4) (drop HEADER_SIZE b)) /\
  Forall (fun r => first_byte r = i /\ be_value (drop ds r) < n) (chunks_exact (ds + 4) (drop HEADER_SIZE b)).
Proof.
  intros Hds. unfold validate_bucket. rewrite Hds. cbn [mbind result_mbind].
  destruct (_ || _) eqn:Eh; [done |]. clear Eh.
  intros (expected & Hexp%ok_or_ok & H1)%bind_ok. apply bind_Some in Hexp as (size & ->%usize_mul_ok & ->%checked_add_ok).
  destruct (negb _) eqn:El in H1; [done |]. apply negb_false_iff, N.eqb_eq in El.
  destruct (any_with_previous _ _ _) eqn:Ea; [done |]. injection H1 as <-.
  apply (any_with_previous_false (fun r => negb (first_byte r =? i)%nat || (n <=? be_value (drop ds r)))) in Ea as [Hbad Hs].
  split_and!; [| done |].
  - rewrite length_drop. unfold HEADER_SIZE in *. lia.
  - eapply Forall_impl; [exact Hbad |]. intros r [Hi%negb_false_iff%Nat.eqb_eq Hn%N.leb_gt]%orb_false_iff. done.
Qed.

Lemma digest_size_positive v ds : digest_size_for_schema v = Ok ds -> (0 < ds + 4)%nat.
Proof. lia. Qed.

Lemma lookup_bucket_owners b v i n target r : lookup_bucket b v i n target = Ok r ->
  exists ds, digest_size_for_schema v = Ok ds /\
    r = dedup (sort (bucket_owners ds target (chunks_exact (ds + 4) (drop HEADER_SIZE b)))).
Proof.
  unfold lookup_bucket. intros (ds & Hds & (count & Hc & [= <-])%bind_ok)%bind_ok. exists ds. split; [done |].
  destruct (validate_bucket_ok _ _ _ _ _ _ Hds Hc) as (Hlen & Hs & _).
  destruct (chunks_concat (ds + 4) ltac:(lia) _ _ Hlen) as (_ & _ & Hcount). cbv zeta. rewrite <- Hcount.
  f_equal. f_equal.
  apply (sorted_lookup ds (take ds target) _ (fun i => slice b (HEADER_SIZE + i * (ds + 4)) (ds + 4)) (fun x => be_value (drop ds x)) Hs).
  intros j x Hx. rewrite <- (chunk_slice (ds + 4) _ _ j x ltac:(lia) Hlen Hx). unfold slice. by rewrite drop_drop.
Qed.

(** One shard: its buckets name it, and lie one after the other within its size. *)
Lemma layout_step_ok index rs buckets : forall off c off' c',
  fold_result (layout_step index rs) (off, c) buckets = Ok (off', c') ->
  off <= off' /\ Forall (fun b => Bucket.shard b = N.of_nat index /\ Bucket.offset b + Bucket.size b <= off') buckets.
Proof.
  induction buckets as [|b buckets IH]; intros off c off' c'; cbn [fold_result].
  { intros [= <- <-]. split; [lia | constructor]. }
  intros ([o1 c1] & Hstep & (Hle & Hall)%IH)%bind_ok. unfold layout_step in Hstep.
  destruct (_ || _) eqn:E; [done |]. apply orb_false_iff in E as [Es%negb_false_iff%N.eqb_eq Eo%negb_false_iff%N.eqb_eq].
  apply bind_ok in Hstep as (o & Ho%ok_or_ok%checked_add_ok & (cc & _ & [= -> ->])%bind_ok).
  split; [lia |]. constructor; [| done]. split; [done | lia].
Qed.

Lemma layout_loop_ok v bps rs (Hb : (0 < bps)%nat) shards : forall index buckets c c',
  layout_loop v bps rs index shards buckets c = Ok c' ->
  forall i b, (i < bps * length shards)%nat -> buckets !! i = Some b ->
    exists s, shards !! (i / bps)%nat = Some s /\ Bucket.shard b = N.of_nat (index + i / bps) /\
      Bucket.offset b + Bucket.size b <= layout_size v s.
Proof.
  induction shards as [|s shards IH]; intros index buckets c c'; cbn [layout_loop length]; [intros; lia |].
  intros ([off cc] & (_ & Hall)%layout_step_ok & H1)%bind_ok i b Hi Hlook.
  destruct (negb _) eqn:E in H1; [done |]. apply negb_false_iff, N.eqb_eq in E. subst off.
  destruct (decide (i < bps)%nat) as [Hlt|Hge].
  - rewrite Nat.div_small by done. exists s. rewrite Nat.add_0_r. rewrite Forall_forall in Hall.
    destruct (Hall b) as [? ?]; [| done]. apply (list_elem_of_lookup_2 _ i). by rewrite lookup_take_lt.
  - destruct (IH _ _ _ _ H1 (i - bps)%nat b) as (s' & Hs & Hshard & Hle); [lia | rewrite lookup_drop; rewrite <- Hlook; f_equal; lia |].
    assert (Hdiv : (i / bps = S ((i - bps) / bps))%nat).
    { pose proof (Nat.div_add (i - bps) 1 bps ltac:(lia)) as Hd.
      replace (i - bps + 1 * bps)%nat with i in Hd by lia. lia. }
    exists s'. rewrite Hdiv. split_and!; [done | rewrite Hshard; lia | done].
Qed.

Lemma first_byte_bound (l : list byte) : (first_byte l < 256)%nat.
Proof.
  destruct l as [|x l]; [by apply Nat.ltb_lt |]. unfold first_byte. cbn [head fmap option_fmap option_map default from_option id].
  pose proof (byte_val_lt x). apply Nat.ltb_lt. rewrite Nat.ltb_lt. lia.
Qed.

(** A readable index has a bucket for every first byte, in a shard that it has, within that shard. *)
Lemma readable_bucket m primary filelists i : validate_readable_manifest m primary filelists = Ok tt -> (i < 256)%nat ->
  exists bucket shard, Manifest.buckets m !! i = Some bucket /\
    Manifest.shards m !! N.to_nat (Bucket.shard bucket) = Some shard /\
    Bucket.offset bucket + Bucket.size bucket <= layout_size (Manifest.schema_version m) shard <= MAX_SHARD_BYTES.
Proof.
  intros H1 Hi. apply bind_ok in H1 as (count & Hcount%ok_or_ok & H1). unfold validate_manifest_layout in H1.
  assert (Hsplit : exists bps, (BUCKET_COUNT / count)%nat = bps /\ (0 < bps)%nat /\ (bps * count = 256)%nat).
  { unfold shard_count_of in Hcount. destruct (_ =? 2); [injection Hcount as <-; exists 16%nat; split_and!; [done | lia | done] |].
    destruct (_ || _); [injection Hcount as <-; exists 1%nat; split_and!; [done | lia | done] | done]. }
  destruct Hsplit as (bps & Hdiv & Hpos & Hprod). destruct (_ || _) in H1; [done |]. cbv zeta in H1. rewrite Hdiv in H1.
  destruct (_ || _) eqn:E in H1; [done |].
  rewrite !orb_false_iff, !negb_false_iff, !Nat.eqb_eq in E.
  destruct E as (((((_ & Hs) & Hb) & _) & Hshards) & _).
  apply bind_ok in H1 as (counted & Hloop & _). unfold BUCKET_COUNT in Hb.
  destruct (lookup_lt_is_Some_2 (Manifest.buckets m) i) as [bucket Hbucket]; [by rewrite Hb |]. exists bucket.
  destruct (layout_loop_ok _ bps _ Hpos _ _ _ _ _ Hloop i bucket) as (shard & Hshard & Hindex & Hle);
    [rewrite Hs, Hprod; exact Hi | done |].
  exists shard. rewrite Hindex, Nat2N.id. split_and!; [done | done | done |].
  rewrite existsb_false in Hshards. rewrite Forall_forall in Hshards. specialize (Hshards shard (list_elem_of_lookup_2 _ _ _ Hshard)).
  unfold bad_shard in Hshards. rewrite !orb_false_iff, !N.ltb_ge in Hshards. tauto.
Qed.

(** What is read for a shard has the size of its layout. *)
Lemma read_shard_size read_blob s m shard b : read_shard read_blob s m shard = Ok b ->
  N.of_nat (length b) = layout_size (Manifest.schema_version m) shard.
Proof.
  unfold read_shard. intros (text & Htext & Hb)%bind_ok. unfold decode_shard in Hb. unfold layout_size.
  destruct (Manifest.schema_version m <? INDEX_SCHEMA_VERSION).
  - injection Hb as ->. unfold decode_verified in Htext. apply bind_ok in Htext as (d & _ & Htext).
    destruct (_ || _) eqn:E; [done |]. injection Htext as <-. apply orb_false_iff in E as [E%negb_false_iff%N.eqb_eq _]. done.
  - apply bind_ok in Hb as (expected & Hexp%ok_or_ok & Hb). rewrite Hexp. cbn [default from_option id].
    destruct (_ <? expected); [done |]. destruct (Shard.compression shard).
    + destruct (negb _); [done |]. apply bind_ok in Hb as (limit & _ & (dec & _ & (out & _ & Hb)%bind_ok)%bind_ok).
      destruct (negb _) eqn:E; [done |]. injection Hb as <-. by apply negb_false_iff, N.eqb_eq in E.
    + destruct (negb _) eqn:E; [done |]. injection Hb as <-. by apply negb_false_iff, N.eqb_eq in E.
Qed.
End facts.
End ShardFacts.

(** ** A built index and its records *)

Module RecordFacts.
Import ChunkFacts SearchFacts LazyFacts BuildFacts.

(** The owners by the digest of a path, or by what the index keeps of it. *)
Definition full_owners (digest : list byte) (records : list (list byte)) : list N :=
  omap (fun r => if bool_decide (take 32 r = digest) then Some (be_value (drop 32 r)) else None) records.
Definition prefix_owners (digest : list byte) (records : list (list byte)) : list N :=
  omap (fun r => if bool_decide (take 16 r = take 16 digest) then Some (be_value (drop 32 r)) else None) records.

Lemma chunks_length size l : Forall (fun x => length x = size) (chunks_exact size l).
Proof.
  unfold chunks_exact. generalize (length l) at 1 as fuel. intros fuel. revert l. induction fuel as [|fuel IH]; intros l; [done |].
  cbn [chunks_from]. destruct (Nat.ltb_spec (length l) size); [done |]. constructor; [rewrite length_take; lia | apply IH].
Qed.

Lemma omap_fmap {A B C} (h : A -> B) (f : B -> option C) (g : A -> option C) l :
  Forall (fun x => f (h x) = g x) l -> omap f (h <$> l) = omap g l.
Proof. induction 1 as [|x l Hx _ IH]; [done |]. cbn. by rewrite Hx, <- IH. Qed.

Lemma short_prefix r : length r = 36%nat -> take 16 (short_record r) = take 16 r.
Proof.
  intros Hr. unfold short_record. rewrite take_app_length' by (rewrite !length_take; lia). rewrite take_take. f_equal; lia.
Qed.

Lemma short_ordinal r : length r = 36%nat -> file_ordinal (short_record r) = be_value (drop 32 r).
Proof.
  intros Hr. unfold file_ordinal, short_record. by rewrite drop_app_length' by (rewrite !length_take; lia).
Qed.

Section facts.
Context `{IndexEnv}.

Lemma records_length g : Forall (fun r => length r = 36%nat) (records_of g).
Proof. apply chunks_length. Qed.

Lemma record_length g i r : records_of g !! i = Some r -> length r = 36%nat.
Proof. intros Hr. exact (Forall_lookup_1 _ _ _ _ (records_length g) Hr). Qed.

Lemma prefix_owners_short g path : file_owners (take 16 (sha256 (bytes path))) (short_record <$> records_of g)
  = prefix_owners (sha256 (bytes path)) (records_of g).
Proof.
  apply omap_fmap. eapply Forall_impl; [apply records_length |]. intros r Hr. cbn.
  by rewrite short_prefix, short_ordinal.
Qed.

(** Records that begin alike lie together, so neighbours that agree make all of them agree. *)
Lemma prefix_full g m k : forall i x y, file_chunks m = short_record <$> records_of g -> lazy_ok m ->
  (forall i x y, records_of g !! i = Some x -> records_of g !! S i = Some y ->
     take 16 (take 32 x) = take 16 (take 32 y) -> take 32 x = take 32 y) ->
  records_of g !! i = Some x -> records_of g !! (i + k)%nat = Some y -> take 16 x = take 16 y -> take 32 x = take 32 y.
Proof.
  induction k as [|k IH]; intros i x y Hm Hok Hnext Hx Hy Heq.
  { rewrite Nat.add_0_r, Hx in Hy. by injection Hy as ->. }
  destruct (lookup_lt_is_Some_2 (records_of g) (S i)) as [z Hz]; [apply lookup_lt_Some in Hy; lia |].
  assert (Hsorted : forall a b u v, (a < b)%nat -> records_of g !! a = Some u -> records_of g !! b = Some v ->
    cmp (take 16 u) (take 16 v) <> Gt).
  { intros a b u v Hab Hu Hv. rewrite <- (short_prefix u), <- (short_prefix v) by (by eapply record_length). apply take_mono, clt_le.
    pose proof (ok_files m Hok) as Hs. rewrite Hm in Hs.
    eapply (sorted_lookup_lt clt _ a b _ _ Hs); [by rewrite list_lookup_fmap, Hu | by rewrite list_lookup_fmap, Hv | done]. }
  assert (Hxz : take 16 x = take 16 z).
  { pose proof (Hsorted i (S i) x z ltac:(lia) Hx Hz) as H1. destruct k as [|k].
    { rewrite Nat.add_1_r, Hz in Hy. by injection Hy as ->. }
    pose proof (Hsorted (S i) (i + S (S k))%nat z y ltac:(lia) Hz Hy) as H2. rewrite <- Heq in H2.
    destruct (clt_total (take 16 x) (take 16 z)) as [Hlt|[He|Hgt]]; [| done |].
    - exfalso. apply H2. by apply (cp_gt_lt cmp_is_preorder).
    - exfalso. apply H1. by apply (cp_gt_lt cmp_is_preorder). }
  transitivity (take 32 z).
  - apply (Hnext i); [done.. |]. by rewrite !take_take.
  - apply (IH (S i)); try done; [by rewrite Nat.add_succ_comm | by rewrite <- Hxz].
Qed.

Lemma owners_full g m path r : file_chunks m = short_record <$> records_of g -> lazy_ok m ->
  (forall i x y, records_of g !! i = Some x -> records_of g !! S i = Some y ->
     take 16 (take 32 x) = take 16 (take 32 y) -> take 32 x = take 32 y) ->
  r ∈ records_of g -> take 32 r = sha256 (bytes path) ->
  prefix_owners (sha256 (bytes path)) (records_of g) = full_owners (sha256 (bytes path)) (records_of g).
Proof.
  intros Hm Hok Hnext [i Hi]%list_elem_of_lookup Hr. rewrite <- Hr. unfold prefix_owners, full_owners.
  rewrite <- (list_fmap_id (records_of g)) at 1. apply omap_fmap. apply Forall_lookup. intros j x Hx. cbn.
  rewrite take_take. change (16 `min` 32)%nat with 16%nat.
  assert (Hiff : take 16 x = take 16 r <-> take 32 x = take 32 r).
  { split; intros E.
    - destruct (decide (i <= j)%nat).
      + symmetry. apply (prefix_full g m (j - i) i r x Hm Hok Hnext Hi); [rewrite <- Hx; f_equal; lia | done].
      + apply (prefix_full g m (i - j) j x r Hm Hok Hnext Hx); [rewrite <- Hi; f_equal; lia | done].
    - replace (take 16 x) with (take 16 (take 32 x)) by by rewrite take_take. by rewrite E, take_take. }
  by rewrite (bool_decide_ext _ _ Hiff).
Qed.

Lemma enumerate_lookup {A} (l : list A) i : enumerate l !! i = (fun x => (i, x)) <$> l !! i.
Proof.
  unfold enumerate. destruct (l !! i) as [x|] eqn:E; cbn.
  - apply lookup_zip_Some. split; [| done]. apply lookup_seq. apply lookup_lt_Some in E. lia.
  - apply lookup_ge_None. rewrite length_zip. apply lookup_ge_None in E. lia.
Qed.

(** The entries of a built index are the packages at their positions. *)
Lemma built_entry l es i x : mapM package_record (enumerate l) = Ok es -> l !! i = Some x ->
  exists c, decode_sha256 (PrimaryPackageIdentity.checksum x) = Ok c /\ (c, N.of_nat i) ∈ es /\ N.of_nat i <= u32_max.
Proof.
  intros Hes%mapM_ok Hx. assert (He : enumerate l !! i = Some (i, x)) by (by rewrite enumerate_lookup, Hx).
  destruct (Forall2_lookup_l _ _ _ _ _ Hes He) as ([c o] & Hin & (Hc & Ho & Hmax)%record_entry). cbn in *. subst o.
  exists c. split_and!; [done | | done]. by eapply list_elem_of_lookup_2.
Qed.

Lemma entry_built l es e : mapM package_record (enumerate l) = Ok es -> e ∈ es ->
  exists i x, l !! i = Some x /\ decode_sha256 (PrimaryPackageIdentity.checksum x) = Ok e.1 /\ e.2 = N.of_nat i /\
    e.2 <= u32_max.
Proof.
  intros Hes%mapM_ok [i He]%list_elem_of_lookup. destruct (Forall2_lookup_r _ _ _ _ _ Hes He) as ([j x] & Hin & (Hc & Ho & Hmax)%record_entry).
  rewrite enumerate_lookup in Hin. destruct (l !! i) as [x'|] eqn:E; [| done]. injection Hin as <- <-. exists i, x'. by split_and!.
Qed.

Lemma entry_parts e : length e.1 = 32%nat -> e.2 <= u32_max ->
  checksum_of (entry_bytes e) = e.1 /\ ordinal_of (entry_bytes e) = e.2.
Proof.
  intros Hl Ho. unfold checksum_of, ordinal_of, entry_bytes.
  by rewrite take_app_length', drop_app_length', u32_value by done.
Qed.
End facts.
End RecordFacts.

(** ** The properties of the index *)

Section properties.
Context `{IndexEnv}.
Import LazyFacts BuildFacts RecordFacts ShardFacts.

(** What the compact index answers, on any bytes that pass its validation: the binary search for
    a package finds the ordinal that a scan of the entries finds, and fails exactly when no entry has
    its checksum; the ordinals are those of the packages, each once; and the binary search for a path
    gives the ordinals of every entry with the prefix of its digest, in order. *)
Theorem lazy_lookups_exact b primary filelists m : validate_lazy_binary_manifest b primary filelists = Ok m ->
  (forall id c o, decode_sha256 id = Ok c ->
     lazy_binary_ordinal m id = Ok o <-> exists e, e ∈ package_chunks m /\ checksum_of e = c /\ ordinal_of e = o) /\
  (ordinal_of <$> package_chunks m) ≡ₚ (N.of_nat <$> seq 0 (N.to_nat (LazyBinaryManifest.package_count m))) /\
  (forall path, lazy_binary_primary_providers m path = file_owners (take 16 (sha256 (bytes path))) (file_chunks m)) /\
  Forall (fun e => file_ordinal e < LazyBinaryManifest.package_count m) (file_chunks m).
Proof.
  intros (Hm & _)%validate_lazy_ok. split_and!.
  - intros id c o Hc. by apply lazy_ordinal_exact.
  - apply submseteq_length_Permutation.
    + apply NoDup_submseteq; [by apply ok_distinct |]. intros o (e & -> & He)%list_elem_of_fmap.
      pose proof (ok_ordinals m Hm) as Ho. rewrite Forall_forall in Ho. specialize (Ho e He).
      apply list_elem_of_fmap. exists (N.to_nat (ordinal_of e)). split; [lia |]. apply elem_of_seq. lia.
    + rewrite !length_fmap, length_seq, package_chunks_length by done. done.
  - intros path. by apply primary_providers_exact.
  - by apply ok_file_ordinals.
Qed.

(** C36: an index that [build] writes is one that the look-ups accept, and it knows what it was made
    of: every package is found at its position and nothing else is found, and the owners of a path
    are the records of the projection that begin like its digest, which are the records with the
    whole digest as soon as there is one. *)
Theorem build_finds g b l : build_bytes g = Ok b -> identities_of g = Ok l ->
  exists m, validate_lazy_binary_manifest b (Generation.primary_sha256 g) (Generation.filelists_sha256 g) = Ok m /\
    (forall i x, l !! i = Some x -> lazy_binary_ordinal m (PrimaryPackageIdentity.checksum x) = Ok (N.of_nat i)) /\
    (forall id o, lazy_binary_ordinal m id = Ok o -> exists x, l !! N.to_nat o = Some x /\
       decode_sha256 (PrimaryPackageIdentity.checksum x) = decode_sha256 id) /\
    (forall path, lazy_binary_primary_providers m path = prefix_owners (sha256 (bytes path)) (records_of g)) /\
    (forall path r, r ∈ records_of g -> take 32 r = sha256 (bytes path) ->
       lazy_binary_primary_providers m path = full_owners (sha256 (bytes path)) (records_of g)).
Proof.
  intros (l' & es & m & Hl & Hes & Hm & Hpk & Hfl & Hnext)%build_layout Hl2. rewrite Hl in Hl2. injection Hl2 as ->.
  destruct (validate_lazy_ok _ _ _ _ Hm) as (Hok & _). exists m. split; [done |]. split_and!.
  - intros i x Hx. destruct (built_entry l es i x Hes Hx) as (c & Hc & He & Hmax).
    apply (lazy_ordinal_exact m _ c _ Hok Hc). exists (entry_bytes (c, N.of_nat i)). rewrite Hpk. split.
    + apply list_elem_of_fmap_2. by rewrite sort_by_perm.
    + apply (entry_parts (c, N.of_nat i)); [by apply decode_sha256_length in Hc as [? _] | done].
  - intros id o Ho. destruct (decode_sha256 id) as [c|e] eqn:Hc; [| unfold lazy_binary_ordinal in Ho; by rewrite Hc in Ho].
    destruct (proj1 (lazy_ordinal_exact m id c o Hok Hc) Ho) as (e & He & Hce & Hoe). rewrite Hpk in He.
    apply list_elem_of_fmap in He as (y & -> & He). rewrite sort_by_perm in He.
    destruct (entry_built l es y Hes He) as (i & x & Hx & Hd & Hi & Hmax).
    destruct (entry_parts y) as [H1 H2]; [by apply decode_sha256_length in Hd as [? _] | done |].
    exists x. rewrite <- Hoe, H2, Hi, Nat2N.id, Hd, <- Hce, H1. done.
  - intros path. by rewrite (primary_providers_exact m path Hok), Hfl, prefix_owners_short.
  - intros path r Hr Hd. rewrite (primary_providers_exact m path Hok), Hfl, prefix_owners_short. by apply (owners_full g m path r).
Qed.

(** C37: the index in shards and buckets: once the manifest is validated, the bucket of a path and its
    shard are there and the bucket lies within what is read for the shard, so no look-up indexes out
    of bounds; and what it answers is the sorted set of the owners of every record of the bucket with
    the digest of the path. *)
Theorem bucket_lookup_exact read_blob s m primary filelists path : validate_readable_manifest m primary filelists = Ok tt ->
  exists bucket shard,
    Manifest.buckets m !! first_byte (sha256 (bytes path)) = Some bucket /\
    Manifest.shards m !! N.to_nat (Bucket.shard bucket) = Some shard /\
    (forall b, read_shard read_blob s m shard = Ok b ->
       bucket_slice b bucket =
         let r := slice b (N.to_nat (Bucket.offset bucket)) (N.to_nat (Bucket.size bucket)) in
         if bool_decide (sha256_hex r = Bucket.sha256 bucket) then Ok r else input "file-provides bucket digest differs") /\
    forall owners, bucket_providers read_blob s m path = Ok owners ->
      exists b r ds, read_shard read_blob s m shard = Ok b /\ bucket_slice b bucket = Ok r /\
        digest_size_for_schema (Manifest.schema_version m) = Ok ds /\
        owners = dedup (sort (bucket_owners ds (sha256 (bytes path)) (chunks_exact (ds + 4) (drop HEADER_SIZE r)))).
Proof.
  intros Hm. destruct (readable_bucket m primary filelists _ Hm (first_byte_bound (sha256 (bytes path)))) as
    (bucket & shard & Hb & Hs & Hin & Hmax). exists bucket, shard. split_and!; [done | done | |].
  - intros b Hread%read_shard_size. unfold bucket_slice, u64_checked_add. rewrite (proj2 (N.leb_le _ u64_max))
      by (unfold MAX_SHARD_BYTES, u64_max in *; lia). cbn [ok_or mbind result_mbind]. unfold get_range.
    rewrite !(proj2 (N.leb_le _ _)) by lia. cbn [andb ok_or mbind result_mbind]. unfold slice.
    replace (Bucket.offset bucket + Bucket.size bucket - Bucket.offset bucket) with (Bucket.size bucket) by lia.
    by case_bool_decide.
  - intros owners. unfold bucket_providers, index. rewrite Hb. cbn [ok_or mbind result_mbind]. rewrite Hs. cbn [ok_or mbind result_mbind].
    intros (b & Hread & (r & Hr & (ds & Hds & ->)%lookup_bucket_owners)%bind_ok)%bind_ok. by exists b, r, ds.
Qed.
End properties.

(** ** Examples *)

Module IndexExamples.
Import LazyFacts.

Definition toy_sha256 (l : list byte) : list byte := take 32 (l ++ replicate 32 (ascii_of_N 0)).

#[local] Instance no_json {T} : SerdeJson T := {| to_vec _ := Err "unsupported value"; from_slice _ := Err "unsupported text" |}.

#[local] Instance env : IndexEnv := {|
  index_snapshot := SnapshotExamples.env;
  sha256 := toy_sha256;
  FileIndex.hex_decode s := ok_or "Invalid character" (RustText.hex_decode s);
  zstd_reads _ := Err "unsupported";
  manifest_json := no_json;
  lazy_json := no_json;
  probe_json _ := Err "unsupported text";
  unescape := Ok;
  utf8_error _ := "invalid utf-8 sequence";
  tokenize _ := [];
  zstd_stream _ _ := Err "unsupported";
  gzip_stream _ _ := []
|}.

Definition checksum (text : string) : string := hex_encode (toy_sha256 (bytes text)).
Definition package (name : string) : PrimaryPackageIdentity.t :=
  PrimaryPackageIdentity.mk (checksum name) name "x86_64" "0" "1" "1".
Definition packages : list PrimaryPackageIdentity.t := [package "zlib"; package "bash"].
Definition record (path : string) (owner : N) : list byte := toy_sha256 (bytes path) ++ u32_be owner.

(** [/usr/lib/libz.so] is of the first package, [/bin/sh] of the second. *)
Definition generation : Generation.t :=
  Generation.mk "fedora" [] (checksum "primary") (Err (CacheError.Io "unused"))
    (checksum "filelists") (Some packages) (Some (record "/bin/sh" 1 ++ record "/usr/lib/libz.so" 0)).

Definition built : list byte := match build_bytes generation with Ok b => b | Err _ => [] end.

Lemma built_ok : build_bytes generation = Ok built.
Proof. vm_compute. reflexivity. Qed.

Definition read_index : LazyBinaryManifest.t :=
  match validate_lazy_binary_manifest built (checksum "primary") (checksum "filelists") with
  | Ok m => m
  | Err _ => LazyBinaryManifest.mk 0 [] []
  end.

Lemma read_index_ok : validate_lazy_binary_manifest built (checksum "primary") (checksum "filelists") = Ok read_index.
Proof. vm_compute. reflexivity. Qed.

Example built_lookups :
  lazy_binary_ordinal read_index (checksum "bash") = Ok 1 /\
  lazy_binary_ordinal read_index (checksum "sed") = input "filelists package is absent from primary" /\
  lazy_binary_primary_providers read_index "/usr/lib/libz.so" = [0] /\
  lazy_binary_primary_providers read_index "/usr/bin/sed" = [].
Proof. vm_compute. done. Qed.

(** Two digests that begin alike are refused. *)
Example collision_refused :
  build_bytes (Generation.mk "fedora" [] (checksum "primary") (Err (CacheError.Io "unused")) (checksum "filelists")
    (Some packages) (Some (record "/usr/share/file1" 0 ++ record "/usr/share/file10" 1)))
  = input "primary file truncated digest collision".
Proof. vm_compute. reflexivity. Qed.

(** An index in shards without records. *)
Definition empty_manifest : Manifest.t :=
  Manifest.mk 4 (checksum "primary") (checksum "filelists") 1 0
    (replicate 256 (Shard.mk (checksum "shard") 24 (Some 24) None))
    ((fun i => Bucket.mk (N.of_nat i) 0 (checksum "shard") 24) <$> seq 0 256).

Lemma empty_manifest_ok : validate_readable_manifest empty_manifest (checksum "primary") (checksum "filelists") = Ok tt.
Proof. vm_compute. reflexivity. Qed.
End IndexExamples.

Lemma lazy_lookups_exact_witness : exists e : IndexEnv,
  @lazy_binary_primary_providers e IndexExamples.read_index "/bin/sh" =
    LazyFacts.file_owners (take 16 (IndexExamples.toy_sha256 (bytes "/bin/sh"))) (LazyFacts.file_chunks IndexExamples.read_index).
Proof.
  exists IndexExamples.env.
  destruct (@lazy_lookups_exact IndexExamples.env _ _ _ _ IndexExamples.read_index_ok) as (_ & _ & Hp & _). exact (Hp "/bin/sh").
Defined.

Lemma build_finds_witness : exists (e : IndexEnv) (m : LazyBinaryManifest.t),
  @lazy_binary_ordinal e m (IndexExamples.checksum "bash") = Ok 1.
Proof.
  exists IndexExamples.env.
  destruct (@build_finds IndexExamples.env IndexExamples.generation IndexExamples.built IndexExamples.packages IndexExamples.built_ok eq_refl)
    as (m & _ & Hfind & _).
  exists m. exact (Hfind 1%nat (IndexExamples.package "bash") eq_refl).
Defined.

Lemma bucket_lookup_exact_witness : exists (e : IndexEnv) (shard : Shard.t),
  Manifest.shards IndexExamples.empty_manifest !! 47%nat = Some shard.
Proof.
  exists IndexExamples.env.
  destruct (@bucket_lookup_exact IndexExamples.env (fun _ _ _ _ => Ok []) SnapshotExamples.snapshot IndexExamples.empty_manifest _ _
    "/bin/sh" IndexExamples.empty_manifest_ok) as (bucket & shard & Hb & Hs & _).
  assert (Hbucket : Some (Bucket.shard bucket) = Some 47).
  { transitivity (Bucket.shard <$> Manifest.buckets IndexExamples.empty_manifest !! 47%nat); [| vm_compute; reflexivity].
    change (first_byte _) with 47%nat in Hb. by rewrite Hb. }
  injection Hbucket as Hbucket. exists shard. by rewrite Hbucket in Hs.
Defined.
