(* ===== verification/Effects.v ===== *)
(** * Operations on a state that fail or die

    An operation is a function from a world to a world and an exit: a value, an error, or the
    death of the process.  The world carries the armed fault, if the program injects faults, and
    the outcomes of the system calls to come: a call may succeed, fail with any text (a write
    after any number of bytes), or never return because the process is killed.  An exhausted
    list of outcomes means that calls succeed. *)
From S2P Require Import Prelude.

(** ** Worlds and operations *)

Inductive outcome : Type :=
  | Succeeds
  | Fails (written : nat) (message : string)
  | Stops (written : nat).

Inductive exit (E A : Type) : Type :=
  | Value (a : A)
  | Raised (e : E)
  | Crashed.
Arguments Value {E A} a.
Arguments Raised {E A} e.
Arguments Crashed {E A}.

Record world (F D : Type) : Type := mk_world {
  fsys : D;
  faults : F;
  pending : list outcome
}.
Arguments mk_world {F D} fsys faults pending.
Arguments fsys {F D} w.
Arguments faults {F D} w.
Arguments pending {F D} w.

Definition io (F E D A : Type) : Type := world F D -> world F D * exit E A.

(** What the errors of the system become, and the plan of faults with which none is injected. *)
Class Domain (F E : Type) : Type := { unarmed : F; io_error : string -> E }.

#[export] Instance io_mret {F E D} : MRet (io F E D) := fun A a w => (w, Value a).

#[export] Instance io_mbind {F E D} : MBind (io F E D) := fun A B k m w =>
  match m w with
  | (w', Value a) => k a w'
  | (w', Raised e) => (w', Raised e)
  | (w', Crashed) => (w', Crashed)
  end.

Definition raise {F E D A} (e : E) : io F E D A := fun w => (w, Raised e).

(** [?] on a computed result. *)
Definition lift {F E D A} (r : result E A) : io F E D A := fun w =>
  match r with Ok a => (w, Value a) | Err e => (w, Raised e) end.

Definition raise_if {F E D} (b : bool) (e : E) : io F E D unit := lift (reject_if b e).

(** [match op { .. }]: the error becomes a value. *)
Definition attempt {F E D A} (m : io F E D A) : io F E D (result E A) := fun w =>
  match m w with
  | (w', Value a) => (w', Value (Ok a))
  | (w', Raised e) => (w', Value (Err e))
  | (w', Crashed) => (w', Crashed)
  end.

(** A system call: [f] is its effect when it succeeds as far as the kernel is concerned. *)
Definition sys `{Domain F E} {D A} (f : D -> result E (D * A)) : io F E D A := fun w =>
  let rest := mk_world (fsys w) (faults w) (tail (pending w)) in
  match head (pending w) with
  | Some (Fails _ m) => (rest, Raised (io_error m))
  | Some (Stops _) => (rest, Crashed)
  | Some Succeeds | None =>
      match f (fsys w) with
      | Ok (d, a) => (mk_world d (faults w) (tail (pending w)), Value a)
      | Err e => (rest, Raised e)
      end
  end.

(** A call that changes nothing in the model: [fsync], [fstat], [fchmod], [flock]. *)
Definition sync `{Domain F E} {D} : io F E D unit := sys (fun d => Ok (d, tt)).

(** [write_all]: [put n] is the state after the first [n] bytes. *)
Definition write_call `{Domain F E} {D} (len : nat) (put : nat -> D -> D) : io F E D unit := fun w =>
  let rest n := mk_world (put n (fsys w)) (faults w) (tail (pending w)) in
  match head (pending w) with
  | Some (Fails n m) => (rest (Nat.min n len), Raised (io_error m))
  | Some (Stops n) => (rest (Nat.min n len), Crashed)
  | Some Succeeds | None => (rest len, Value tt)
  end.

Fixpoint for_io {F E D A} (f : A -> io F E D unit) (l : list A) : io F E D unit :=
  match l with
  | [] => mret tt
  | x :: t => _ ← f x; for_io f t
  end.

Fixpoint fold_io {F E D A S} (f : S -> A -> io F E D S) (s : S) (l : list A) : io F E D S :=
  match l with
  | [] => mret s
  | x :: t => s' ← f s x; fold_io f s' t
  end.

(** An operation on a part of the state. *)
Definition zoom {F E D D' A} (get : D -> D') (put : D' -> D -> D) (m : io F E D' A) : io F E D A := fun w =>
  let (w', r) := m (mk_world (get (fsys w)) (faults w) (pending w)) in
  (mk_world (put (fsys w') (fsys w)) (faults w') (pending w'), r).

(** [map_err]: another type of errors. *)
Definition map_raise {F E E' D A} (f : E -> E') (m : io F E D A) : io F E' D A := fun w =>
  match m w with
  | (w', Value a) => (w', Value a)
  | (w', Raised e) => (w', Raised (f e))
  | (w', Crashed) => (w', Crashed)
  end.

(** [match op { .. }] where the caller has errors of another type. *)
Definition catch {F E E' D A} (m : io F E D A) : io F E' D (result E A) := fun w =>
  match m w with
  | (w', Value a) => (w', Value (Ok a))
  | (w', Raised e) => (w', Value (Err e))
  | (w', Crashed) => (w', Crashed)
  end.

(** What [Drop] does to the memory of the process when a value or an error leaves its scope. *)
Definition finally {F E D A} (m : io F E D A) (cleanup : D -> D) : io F E D A := fun w =>
  match m w with
  | (w', Crashed) => (w', Crashed)
  | (w', r) => (mk_world (cleanup (fsys w')) (faults w') (pending w'), r)
  end.

(** The state as it is, and a change of it that cannot fail. *)
Definition gets {F E D A} (f : D -> A) : io F E D A := fun w => (w, Value (f (fsys w))).
Definition modify {F E D} (f : D -> D) : io F E D unit := fun w =>
  (mk_world (f (fsys w)) (faults w) (pending w), Value tt).

(** ** Reasoning

    [triple P m Q R]: from a state in [P], whatever fails, [m] ends in [Q] with its value, or
    in [R] with an error or dead.  [runs P m Q]: when no call fails and no fault is armed, [m]
    gives a value, and ends in [Q]. *)
Section logic.
Context {F E : Type} {domain : Domain F E} {D : Type}.

Definition triple {A} (P : D -> Prop) (m : io F E D A) (Q : A -> D -> Prop) (R : D -> Prop) : Prop :=
  forall w, P (fsys w) ->
  match m w with
  | (w', Value a) => Q a (fsys w')
  | (w', _) => R (fsys w')
  end.

Definition quiet (d : D) : world F D := mk_world d unarmed [].

Definition runs {A} (P : D -> Prop) (m : io F E D A) (Q : A -> D -> Prop) : Prop :=
  forall d, P d -> exists a d', m (quiet d) = (quiet d', Value a) /\ Q a d'.

Lemma triple_conseq {A} (P P' : D -> Prop) (m : io F E D A) (Q Q' : A -> D -> Prop) (R R' : D -> Prop) :
  triple P m Q R -> (forall d, P' d -> P d) -> (forall a d, Q a d -> Q' a d) ->
  (forall d, R d -> R' d) -> triple P' m Q' R'.
Proof.
  intros H HP HQ HR w Hw. specialize (H w (HP _ Hw)).
  destruct (m w) as [w' [a|e|]]; auto.
Qed.

Lemma triple_ret {A} (a : A) (P R : D -> Prop) : triple P (mret a) (fun x d => x = a /\ P d) R.
Proof. intros w Hw. simpl. auto. Qed.

Lemma triple_raise {A} e (P : D -> Prop) (Q : A -> D -> Prop) : triple P (raise e) Q P.
Proof. intros w Hw. done. Qed.

Lemma triple_bind {A B} (P : D -> Prop) (m : io F E D A) (k : A -> io F E D B) Q' Q (R : D -> Prop) :
  triple P m Q' R -> (forall a, triple (Q' a) (k a) Q R) -> triple P (m ≫= k) Q R.
Proof.
  intros Hm Hk w Hw. specialize (Hm w Hw). unfold mbind, io_mbind.
  destruct (m w) as [w' [a|e|]]; [by apply Hk | done | done].
Qed.

(** A step that leaves the assertion as it is and learns [G]. *)
Lemma triple_seq {A B} (P : D -> Prop) (m : io F E D A) (k : A -> io F E D B) (G : A -> Prop) Q (R : D -> Prop) :
  triple P m (fun a d => G a /\ P d) R -> (forall a, G a -> triple P (k a) Q R) ->
  triple P (m ≫= k) Q R.
Proof.
  intros Hm Hk. eapply triple_bind; [exact Hm |]. intros a w [Ha Hw]. by apply Hk.
Qed.

Lemma triple_done {A} (a : A) (P : D -> Prop) (Q : A -> D -> Prop) (R : D -> Prop) :
  (forall d, P d -> Q a d) -> triple P (mret a) Q R.
Proof. intros H w Hw. by apply H. Qed.

Lemma triple_lift {A} (r : result E A) (P R : D -> Prop) :
  (forall d, P d -> R d) -> triple P (lift r) (fun a d => r = Ok a /\ P d) R.
Proof. intros HR w Hw. unfold lift. destruct r; simpl; auto. Qed.

(** What is computed is known to what follows. *)
Lemma triple_lift_bind {A B} (r : result E A) (k : A -> io F E D B) (P : D -> Prop) Q (R : D -> Prop) :
  (forall d, P d -> R d) -> (forall a, r = Ok a -> triple P (k a) Q R) -> triple P (lift r ≫= k) Q R.
Proof.
  intros HR Hk w Hw. unfold mbind, io_mbind, lift. destruct r as [a|e]; [by apply (Hk a eq_refl) | by apply HR].
Qed.

Lemma triple_raise_if b e (P R : D -> Prop) :
  (forall d, P d -> R d) -> triple P (raise_if b e) (fun _ d => b = false /\ P d) R.
Proof. intros HR w Hw. unfold raise_if, lift, reject_if. destruct b; simpl; auto. Qed.

Lemma triple_sys {A} (f : D -> result E (D * A)) (P : D -> Prop) Q (R : D -> Prop) :
  (forall d, P d -> R d) -> (forall d d' a, P d -> f d = Ok (d', a) -> Q a d') ->
  triple P (sys f) Q R.
Proof.
  intros HR HQ [d pt [|[| |] ps]] Hw; unfold sys; simpl in *; auto;
    destruct (f d) as [[d' a]|] eqn:Hr; simpl; eauto.
Qed.

Lemma triple_sync (P R : D -> Prop) : (forall d, P d -> R d) -> triple P sync (fun _ => P) R.
Proof. intros HR. apply triple_sys; [done |]. by intros d d' [] Hd [= ->]. Qed.

Lemma triple_write len put (P Q R : D -> Prop) :
  (forall d n, P d -> (n <= len)%nat -> R (put n d)) -> (forall d, P d -> Q (put len d)) ->
  triple P (write_call len put) (fun _ => Q) R.
Proof.
  intros HR HQ [d pt [|[|n m|n] ps]] Hw; unfold write_call; simpl in *; auto;
    apply HR; auto; lia.
Qed.

Lemma triple_attempt {A} (P : D -> Prop) (m : io F E D A) Q (R : D -> Prop) :
  triple P m Q R ->
  triple P (attempt m) (fun r d => match r with Ok a => Q a d | Err _ => R d end) R.
Proof.
  intros Hm w Hw. specialize (Hm w Hw). unfold attempt. destruct (m w) as [w' [a|e|]]; auto.
Qed.

Lemma triple_for {A} (f : A -> io F E D unit) (l : list A) (P R : D -> Prop) :
  (forall d, P d -> R d) -> (forall x, x ∈ l -> triple P (f x) (fun _ => P) R) ->
  triple P (for_io f l) (fun _ => P) R.
Proof.
  intros HR. induction l as [|x l IH]; intros Hf.
  - intros w Hw. done.
  - simpl. eapply triple_bind; [apply Hf; set_solver | intros ?; apply IH; set_solver].
Qed.

Lemma triple_fold {A S} (f : S -> A -> io F E D S) (I : list A -> S -> D -> Prop) (R : D -> Prop) :
  (forall seen s d, I seen s d -> R d) ->
  forall rest seen s,
  (forall seen' x rest' s, seen ++ rest = seen' ++ x :: rest' ->
     triple (I seen' s) (f s x) (fun s' => I (seen' ++ [x]) s') R) ->
  triple (I seen s) (fold_io f s rest) (fun s' => I (seen ++ rest) s') R.
Proof.
  intros HR. induction rest as [|x rest IH]; intros seen s Hf.
  - intros w Hw. simpl. by rewrite app_nil_r.
  - simpl. eapply triple_bind; [by apply (Hf seen x rest) |].
    intros s'. assert (Hr : seen ++ x :: rest = (seen ++ [x]) ++ rest) by (by rewrite <- app_assoc).
    rewrite Hr. apply IH. intros seen' y rest' s'' Hr2. apply (Hf seen' y rest'). by rewrite Hr.
Qed.

Lemma triple_for_each {A} (f : A -> io F E D unit) (I : list A -> D -> Prop) (R : D -> Prop) :
  (forall seen d, I seen d -> R d) ->
  forall rest seen,
  (forall seen' x rest', seen ++ rest = seen' ++ x :: rest' -> triple (I seen') (f x) (fun _ => I (seen' ++ [x])) R) ->
  triple (I seen) (for_io f rest) (fun _ => I (seen ++ rest)) R.
Proof.
  intros HR. induction rest as [|x rest IH]; intros seen Hf.
  - intros w Hw. by rewrite app_nil_r.
  - apply (triple_bind _ _ _ (fun _ => I (seen ++ [x]))); [by apply (Hf seen x rest) |]. intros _.
    assert (Hr : seen ++ x :: rest = (seen ++ [x]) ++ rest) by (by rewrite <- app_assoc).
    rewrite Hr. apply IH. intros seen' y rest' Hr2. apply (Hf seen' y rest'). by rewrite Hr.
Qed.

Lemma triple_assoc {A B C} (m : io F E D A) (k : A -> io F E D B) (f : B -> io F E D C) (P : D -> Prop) Q R :
  triple P ((m ≫= k) ≫= f) Q R -> triple P (m ≫= fun a => k a ≫= f) Q R.
Proof.
  intros Hm w Hw. specialize (Hm w Hw). unfold mbind, io_mbind in *. by destruct (m w) as [w' [a|e|]].
Qed.

Lemma triple_gets {A} (f : D -> A) (P R : D -> Prop) : triple P (gets f) (fun a d => a = f d /\ P d) R.
Proof. intros w Hw. by split. Qed.

Lemma triple_modify (f : D -> D) (P Q R : D -> Prop) :
  (forall d, P d -> Q (f d)) -> triple P (modify f) (fun _ => Q) R.
Proof. intros H w Hw. by apply H. Qed.

Lemma triple_finally {A} (m : io F E D A) cleanup (P : D -> Prop) Q (R : D -> Prop) :
  triple P m (fun a d => Q a (cleanup d)) (fun d => R d /\ R (cleanup d)) -> triple P (finally m cleanup) Q R.
Proof. intros Hm w Hw. specialize (Hm w Hw). unfold finally. destruct (m w) as [w' [a|e|]]; naive_solver. Qed.

Lemma run_bind {A B} (m : io F E D A) (k : A -> io F E D B) w w' a r :
  m w = (w', Value a) -> k a w' = r -> (m ≫= k) w = r.
Proof. intros Hr <-. unfold mbind, io_mbind. by rewrite Hr. Qed.

Lemma run_sys {A} (f : D -> result E (D * A)) d d' a :
  f d = Ok (d', a) -> sys f (quiet d) = (quiet d', Value a).
Proof. intros Hr. unfold sys, quiet. simpl. by rewrite Hr. Qed.

Lemma run_sys_err {A} (f : D -> result E (D * A)) d e :
  f d = Err e -> sys f (quiet d) = (quiet d, Raised e).
Proof. intros Hr. unfold sys, quiet. simpl. by rewrite Hr. Qed.

Lemma run_attempt {A} (m : io F E D A) w w' a :
  m w = (w', Value a) -> attempt m w = (w', Value (Ok a)).
Proof. intros Hr. unfold attempt. by rewrite Hr. Qed.

Lemma run_attempt_err {A} (m : io F E D A) w w' e :
  m w = (w', Raised e) -> attempt m w = (w', Value (Err e)).
Proof. intros Hr. unfold attempt. by rewrite Hr. Qed.

Lemma runs_conseq {A} (P P' : D -> Prop) (m : io F E D A) (Q Q' : A -> D -> Prop) :
  runs P m Q -> (forall d, P' d -> P d) -> (forall a d, Q a d -> Q' a d) -> runs P' m Q'.
Proof. intros H HP HQ d Hd. destruct (H d (HP _ Hd)) as (a & d' & Hr & Hq). eauto. Qed.

Lemma runs_ret {A} (a : A) (P : D -> Prop) : runs P (mret a) (fun x d => x = a /\ P d).
Proof. intros d Hd. by exists a, d. Qed.

Lemma runs_bind {A B} (P : D -> Prop) (m : io F E D A) (k : A -> io F E D B) Q' Q :
  runs P m Q' -> (forall a, runs (Q' a) (k a) Q) -> runs P (m ≫= k) Q.
Proof.
  intros Hm Hk d Hd. destruct (Hm d Hd) as (a & d' & Hr & Ha).
  destruct (Hk a d' Ha) as (b & d'' & Hr2 & Hb). exists b, d''. split; [| done].
  unfold mbind, io_mbind. by rewrite Hr.
Qed.

Lemma runs_lift {A} (r : result E A) a (P : D -> Prop) :
  r = Ok a -> runs P (lift r) (fun x d => x = a /\ P d).
Proof. intros -> d Hd. by exists a, d. Qed.

Lemma runs_raise_if b e (P : D -> Prop) : b = false -> runs P (raise_if b e) (fun _ => P).
Proof. intros -> d Hd. by exists tt, d. Qed.

Lemma runs_sys {A} (f : D -> result E (D * A)) (P : D -> Prop) (Q : A -> D -> Prop) :
  (forall d, P d -> exists d' a, f d = Ok (d', a) /\ Q a d') -> runs P (sys f) Q.
Proof.
  intros Hf d Hd. destruct (Hf d Hd) as (d' & a & Hr & Hq). exists a, d'. split; [| done].
  unfold sys, quiet. simpl. by rewrite Hr.
Qed.

Lemma runs_sync (P : D -> Prop) : runs P sync (fun _ => P).
Proof. apply runs_sys. eauto. Qed.

Lemma runs_write len put (P : D -> Prop) :
  runs P (write_call len put) (fun _ d' => exists d, P d /\ d' = put len d).
Proof. intros d Hd. exists tt, (put len d). split; [done | eauto]. Qed.

Lemma runs_attempt {A} (P : D -> Prop) (m : io F E D A) Q :
  runs P m Q -> runs P (attempt m) (fun r d => exists a, r = Ok a /\ Q a d).
Proof.
  intros Hm d Hd. destruct (Hm d Hd) as (a & d' & Hr & Hq). exists (Ok a), d'.
  unfold attempt. rewrite Hr. eauto.
Qed.

Lemma runs_fold {A S} (f : S -> A -> io F E D S) (I : list A -> S -> D -> Prop) :
  forall rest seen s,
  (forall seen' x rest' s, seen ++ rest = seen' ++ x :: rest' ->
     runs (I seen' s) (f s x) (fun s' => I (seen' ++ [x]) s')) ->
  runs (I seen s) (fold_io f s rest) (fun s' => I (seen ++ rest) s').
Proof.
  induction rest as [|x rest IH]; intros seen s Hf.
  - intros d Hd. exists s, d. by rewrite app_nil_r.
  - simpl. eapply runs_bind; [by apply (Hf seen x rest) |].
    intros s'. assert (Hr : seen ++ x :: rest = (seen ++ [x]) ++ rest) by (by rewrite <- app_assoc).
    rewrite Hr. apply IH. intros seen' y rest' s'' Hr2. apply (Hf seen' y rest'). by rewrite Hr.
Qed.
End logic.

(** Another error and a part of the state: the assertions carry over. *)
Section lifting.
Context {F E E' : Type} {D D' : Type}.

Lemma triple_map_raise {A} (f : E -> E') (m : io F E D A) (P : D -> Prop) Q (R : D -> Prop) :
  triple P m Q R -> triple P (map_raise f m) Q R.
Proof. intros Hm w Hw. specialize (Hm w Hw). unfold map_raise. by destruct (m w) as [w' [a|e|]]. Qed.

Lemma triple_catch {A} (m : io F E D A) (P : D -> Prop) Q (R : D -> Prop) :
  triple P m Q R ->
  triple P (catch (E' := E') m) (fun r d => match r with Ok a => Q a d | Err _ => R d end) R.
Proof. intros Hm w Hw. specialize (Hm w Hw). unfold catch. destruct (m w) as [w' [a|e|]]; auto. Qed.

Lemma triple_zoom {A} (get : D -> D') (put : D' -> D -> D) (m : io F E D' A) (d0 : D) (Q : A -> D' -> Prop)
    (R : D' -> Prop) :
  triple (eq (get d0)) m Q R ->
  triple (eq d0) (zoom get put m) (fun a d => exists p, d = put p d0 /\ Q a p) (fun d => exists p, d = put p d0 /\ R p).
Proof.
  intros Hm w ->. specialize (Hm (mk_world (get (fsys w)) (faults w) (pending w)) eq_refl). unfold zoom.
  destruct (m _) as [w' [a|e|]]; simpl; eauto.
Qed.

Lemma triple_all {A} (m : io F E D A) (P : D -> Prop) Q (R : D -> Prop) :
  (forall d, P d -> triple (eq d) m Q R) -> triple P m Q R.
Proof. intros H w Hw. by apply (H (fsys w) Hw w). Qed.
End lifting.

(** ** Steps within a relation

    [within R m]: however [m] ends, the state it leaves is in [R] with the one it found. *)
Section within.
Context {F : Type} {D : Type} (R : relation D) `{!PreOrder R}.

Definition within {E A} (m : io F E D A) : Prop := forall w, R (fsys w) (fsys (m w).1).

Lemma within_ret {E A} (a : A) : within (E:=E) (mret a).
Proof. by intros w. Qed.

Lemma within_bind {E A B} (m : io F E D A) (k : A -> io F E D B) :
  within m -> (forall a, within (k a)) -> within (m ≫= k).
Proof.
  intros Hm Hk w. specialize (Hm w). unfold mbind, io_mbind. destruct (m w) as [w' [a|e|]]; [| done..].
  etrans; [exact Hm | apply Hk].
Qed.

Lemma within_lift {E A} (r : result E A) : within (lift r).
Proof. intros w. unfold lift. by destruct r. Qed.

Lemma within_raise {E A} (e : E) : within (A:=A) (raise e).
Proof. by intros w. Qed.

Lemma within_raise_if {E} b (e : E) : within (raise_if b e).
Proof. apply within_lift. Qed.

Lemma within_gets {E A} (f : D -> A) : within (E:=E) (gets f).
Proof. by intros w. Qed.

Lemma within_modify {E} (f : D -> D) : (forall d, R d (f d)) -> within (E:=E) (modify f).
Proof. intros Hf w. apply Hf. Qed.

Lemma within_sys `{Domain F E} {A} (f : D -> result E (D * A)) :
  (forall d d' a, f d = Ok (d', a) -> R d d') -> within (sys f).
Proof.
  intros Hf w. unfold sys. destruct (head (pending w)) as [[| |]|]; [| done..|];
    destruct (f (fsys w)) as [[d a]|] eqn:E2; simpl; try done; by eapply Hf.
Qed.

Lemma within_sync `{Domain F E} : within (E:=E) sync.
Proof. apply within_sys. by intros d d' [] [= ->]. Qed.

Lemma within_map_raise {E E' A} (f : E -> E') (m : io F E D A) : within m -> within (map_raise f m).
Proof. intros Hm w. specialize (Hm w). unfold map_raise. by destruct (m w) as [w' [a|e|]]. Qed.

Lemma within_catch {E E' A} (m : io F E D A) : within m -> within (E:=E') (catch m).
Proof. intros Hm w. specialize (Hm w). unfold catch. by destruct (m w) as [w' [a|e|]]. Qed.

Lemma within_attempt {E A} (m : io F E D A) : within m -> within (attempt m).
Proof. intros Hm w. specialize (Hm w). unfold attempt. by destruct (m w) as [w' [a|e|]]. Qed.

Lemma within_finally {E A} (m : io F E D A) cleanup : within m -> (forall d, R d (cleanup d)) -> within (finally m cleanup).
Proof.
  intros Hm Hc w. specialize (Hm w). unfold finally. destruct (m w) as [w' [a|e|]]; simpl in *; [| | done];
    (etrans; [exact Hm | apply Hc]).
Qed.

Lemma within_for {E A} (f : A -> io F E D unit) l : (forall x, within (f x)) -> within (for_io f l).
Proof. intros Hf. induction l as [|x l IH]; [apply within_ret | by apply within_bind]. Qed.

Lemma within_fold {E A S} (f : S -> A -> io F E D S) l : (forall s x, within (f s x)) -> forall s, within (fold_io f s l).
Proof. intros Hf. induction l as [|x l IH]; intros s; [apply within_ret | apply within_bind; auto]. Qed.

Lemma within_triple {E A} (m : io F E D A) :
  (forall d, triple (eq d) m (fun _ => R d) (R d)) -> within m.
Proof. intros Hm w. specialize (Hm (fsys w) w eq_refl). by destruct (m w) as [w' [a|e|]]. Qed.

(** A relation that an assertion goes along. *)
Lemma triple_within {E A} (m : io F E D A) (P : D -> Prop) :
  within m -> (forall d d', P d -> R d d' -> P d') -> triple P m (fun _ => P) P.
Proof. intros Hm HP w Hw. specialize (Hm w). destruct (m w) as [w' [a|e|]]; by eapply HP. Qed.
End within.

Lemma within_mono {F E D A} (R R' : relation D) (m : io F E D A) :
  (forall d d', R d d' -> R' d d') -> within R m -> within R' m.
Proof. intros HR Hm w. by apply HR. Qed.

Lemma within_zoom {F E D D' A} (R : relation D) (R' : relation D') (get : D -> D') (put : D' -> D -> D) (m : io F E D' A) :
  (forall d d', R' (get d) d' -> R d (put d' d)) -> within R' m -> within R (zoom get put m).
Proof.
  intros HR Hm w. specialize (Hm (mk_world (get (fsys w)) (faults w) (pending w))). unfold zoom.
  destruct (m _) as [w' r]. by apply HR.
Qed.

(** ** Values

    [yields m G]: whatever fails, a value that [m] gives is in [G]. *)
Section yields.
Context {F E D : Type}.

Definition yields {A} (m : io F E D A) (G : A -> Prop) : Prop := forall w w' a, m w = (w', Value a) -> G a.

Lemma yields_any {A} (m : io F E D A) : yields m (fun _ => True).
Proof. by intros w w' a _. Qed.

Lemma yields_mono {A} (m : io F E D A) (G G' : A -> Prop) : yields m G -> (forall a, G a -> G' a) -> yields m G'.
Proof. intros Hm HG w w' a Ha. by eapply HG, Hm. Qed.

Lemma yields_ret {A} (a : A) (G : A -> Prop) : G a -> yields (mret a) G.
Proof. by intros HG w w' b [= _ <-]. Qed.

Lemma yields_bind {A B} (m : io F E D A) (k : A -> io F E D B) (G : A -> Prop) (Q : B -> Prop) :
  yields m G -> (forall a, G a -> yields (k a) Q) -> yields (m ≫= k) Q.
Proof.
  intros Hm Hk w w' b. unfold mbind, io_mbind. destruct (m w) as [w1 [a|e|]] eqn:Hw; [| done..].
  intros Hb. by eapply Hk; [eapply Hm |].
Qed.

Lemma yields_then {A B} (m : io F E D A) (k : A -> io F E D B) (Q : B -> Prop) :
  (forall a, yields (k a) Q) -> yields (m ≫= k) Q.
Proof. intros Hk. by eapply yields_bind; [apply yields_any | intros a _]. Qed.

Lemma yields_lift {A} (r : result E A) (G : A -> Prop) : (forall a, r = Ok a -> G a) -> yields (lift r) G.
Proof. intros HG w w' a. unfold lift. destruct r as [x|e]; [| done]. intros [= _ <-]. by apply HG. Qed.

Lemma yields_lift_bind {A B} (r : result E A) (k : A -> io F E D B) (Q : B -> Prop) :
  (forall a, r = Ok a -> yields (k a) Q) -> yields (lift r ≫= k) Q.
Proof. intros Hk. eapply yields_bind; [by apply (yields_lift r (fun a => r = Ok a)) |]. intros a Ha. by apply Hk. Qed.

Lemma yields_unless {B} b (e : E) (k : unit -> io F E D B) (Q : B -> Prop) :
  (b = false -> yields (k tt) Q) -> yields (raise_if b e ≫= k) Q.
Proof. intros Hk. apply yields_lift_bind. intros [] Hb%reject_if_ok. by apply Hk. Qed.

Lemma yields_raise_if b (e : E) : yields (raise_if b e) (fun _ => b = false).
Proof. apply yields_lift. intros [] Hb%reject_if_ok. done. Qed.

Lemma yields_for {A} (f : A -> io F E D unit) (G : A -> Prop) (l : list A) :
  (forall x, x ∈ l -> yields (f x) (fun _ => G x)) -> yields (for_io f l) (fun _ => Forall G l).
Proof.
  induction l as [|x l IH]; intros Hf; cbn [for_io]; [by apply yields_ret, Forall_nil |].
  eapply yields_bind; [apply Hf; left |]. intros [] Hx. eapply yields_mono; [apply IH |].
  - intros y Hy. apply Hf. by right.
  - intros [] Hl. by constructor.
Qed.

Lemma yields_fold {A S} (f : S -> A -> io F E D S) (I : list A -> S -> Prop) (l : list A) :
  (forall seen s x, I seen s -> x ∈ l -> yields (f s x) (I (seen ++ [x]))) ->
  forall seen s, I seen s -> yields (fold_io f s l) (I (seen ++ l)).
Proof.
  induction l as [|x l IH]; intros Hf seen s Hs; cbn [fold_io]; [rewrite app_nil_r; by apply yields_ret |].
  eapply yields_bind; [by apply Hf; [| left] |]. intros s' Hs'. change (x :: l) with ([x] ++ l). rewrite app_assoc.
  apply IH; [| done]. intros ? ? y ? Hy. apply Hf; [done | by right].
Qed.

(** A step that changes nothing, and what its value is known to be. *)
Lemma triple_yields {A} (m : io F E D A) (G : A -> Prop) (P : D -> Prop) :
  within eq m -> yields m G -> triple P m (fun a d => G a /\ P d) P.
Proof.
  intros Hm HG w Hw. specialize (Hm w). specialize (HG w). destruct (m w) as [w' [a|e|]]; simpl in *; rewrite <- Hm; [| done..].
  split; [by eapply HG | done].
Qed.
End yields.
