(* ===== verification/StateFs.v ===== *)
(** * The file system under the transaction journal

    dnfast-state/src/error.rs, fault.rs and the descriptor-relative operations of fs.rs.  A
    directory is a map from names to nodes; the world carries the armed fault of the
    [FaultPlan]. *)
From S2P Require Import Prelude.
From S2P Require Import RustStr.
From S2P Require Import Effects.

#[local] Open Scope N_scope.

Module StateError.
Inductive t : Type :=
  | Io (message : string)
  | UnsafePath (message : string)
  | Corrupt (message : string)
  | Transition (message : string)
  | Limit (what : string)
  | Busy.

#[global] Instance state_error_eq_dec : EqDecision t.
Proof. solve_decision. Defined.

Definition to_string (e : t) : string :=
  match e with
  | Io m => "journal I/O failure: " +:+ m
  | UnsafePath m => "unsafe journal path: " +:+ m
  | Corrupt m => "journal record is corrupt: " +:+ m
  | Transition m => "illegal journal transition: " +:+ m
  | Limit m => "journal limit exceeded: " +:+ m
  | Busy => "transaction journal is busy"
  end.
End StateError.

Module FaultPoint.
Inductive t : Type := None | Create | Write | FileSync | Publish | DirectorySync.

#[global] Instance fault_point_eq_dec : EqDecision t.
Proof. solve_decision. Defined.

(** The derived [Debug]. *)
Definition debug (p : t) : string :=
  match p with
  | None => "None" | Create => "Create" | Write => "Write" | FileSync => "FileSync"
  | Publish => "Publish" | DirectorySync => "DirectorySync"
  end.
End FaultPoint.

(** ** Worlds of the store *)

#[export] Instance state_domain : Domain FaultPoint.t StateError.t :=
  {| unarmed := FaultPoint.None; io_error := StateError.Io |}.

Abbreviation exit := (Effects.exit StateError.t).
Abbreviation world := (Effects.world FaultPoint.t).
Abbreviation io := (Effects.io FaultPoint.t StateError.t).
Abbreviation triple := (Effects.triple (F := FaultPoint.t) (E := StateError.t)).
Abbreviation runs := (Effects.runs (F := FaultPoint.t) (E := StateError.t)).

(** [FaultPlan::check]. *)
Definition check {D} (point : FaultPoint.t) : io D unit := fun w =>
  if bool_decide (faults w = point)
  then (mk_world (fsys w) FaultPoint.None (pending w),
        Raised (StateError.Io ("injected " +:+ FaultPoint.debug point +:+ " failure")))
  else (w, Value tt).

(** ** Directories *)

Inductive node : Type :=
  | File (content : list byte) (private : bool)
  | Link
  | Subdir.

Record directory : Type := mk_dir {
  nodes : gmap string node;
  non_utf8 : bool;
  private_dir : bool;
  locked : bool
}.

Definition with_nodes (f : gmap string node -> gmap string node) (d : directory) : directory :=
  mk_dir (f (nodes d)) (non_utf8 d) (private_dir d) (locked d).

Definition set_locked (b : bool) (d : directory) : directory :=
  mk_dir (nodes d) (non_utf8 d) (private_dir d) b.

Record root : Type := mk_root {
  children : gmap string (option directory);
  root_non_utf8 : bool
}.

Definition with_children (f : gmap string (option directory) -> gmap string (option directory))
    (r : root) : root := mk_root (f (children r)) (root_non_utf8 r).

(** The texts of the operating system's errors. *)
Class ErrnoText : Type := {
  enoent : string; eexist : string; eloop : string; eisdir : string;
  enotdir : string; enotempty : string
}.

Section operations.
Context `{ErrnoText}.

Definition unsafe_node : StateError.t :=
  StateError.UnsafePath "ownership, mode, type, or link count".

(** [openat] with [O_RDONLY | O_NOFOLLOW]. *)
Definition openat (name : string) : io directory node := sys (fun d =>
  match nodes d !! name with
  | None => Err (StateError.Io enoent)
  | Some Link => Err (StateError.Io eloop)
  | Some n => Ok (d, n)
  end).

(** [verify(&fd, false, true)]: a regular private file with one link. *)
Definition verify_file (n : node) : io directory unit := sys (fun d =>
  match n with File _ true => Ok (d, tt) | _ => Err unsafe_node end).

Definition file_content (n : node) : list byte :=
  match n with File content _ => content | _ => [] end.

(** [unlinkat(directory, name, AtFlags::empty())]. *)
Definition unlinkat (name : string) : io directory unit := sys (fun d =>
  match nodes d !! name with
  | None => Err (StateError.Io enoent)
  | Some Subdir => Err (StateError.Io eisdir)
  | Some _ => Ok (with_nodes (delete name) d, tt)
  end).

(** [openat] with [O_CREAT | O_EXCL]; the mode is only certain after [fchmod]. *)
Definition create_excl (name : string) : io directory unit := sys (fun d =>
  match nodes d !! name with
  | None => Ok (with_nodes (<[name := File [] false]>) d, tt)
  | Some _ => Err (StateError.Io eexist)
  end).

Definition fchmod (name : string) : io directory unit := sys (fun d =>
  match nodes d !! name with
  | Some (File content _) => Ok (with_nodes (<[name := File content true]>) d, tt)
  | _ => Err (StateError.Io enoent)
  end).

(** Bytes written to the end of an open file. *)
Definition put_bytes (name : string) (bs : list byte) (n : nat) (d : directory) : directory :=
  match nodes d !! name with
  | Some (File content private) =>
      with_nodes (<[name := File (content ++ take n bs) private]>) d
  | _ => d
  end.

Definition write_all (name : string) (bs : list byte) : io directory unit :=
  write_call (length bs) (put_bytes name bs).

Definition renameat (from to : string) : io directory unit := sys (fun d =>
  match nodes d !! from, nodes d !! to with
  | None, _ => Err (StateError.Io enoent)
  | Some _, Some Subdir => Err (StateError.Io eisdir)
  | Some n, _ => Ok (with_nodes (fun m => <[to := n]> (delete from m)) d, tt)
  end).

(** [Drop for TempCleanup] while armed: the error of the removal is ignored. *)
Definition with_cleanup {A} (name : string) (m : io directory A) : io directory A :=
  r ← attempt m;
  match r with
  | Ok a => mret a
  | Err e => _ ← attempt (unlinkat name); raise e
  end.

(** [format!("{sequence:020}")]. *)
Definition pad20 (n : N) : string :=
  of_bytes (replicate (20 - length (bytes (display n))) (Ascii.ascii_of_N 48) ++ bytes (display n)).

Definition record_name (sequence : N) : string := pad20 sequence +:+ ".json".
Definition temporary_name (sequence pid : N) : string :=
  "." +:+ pad20 sequence +:+ ".tmp-" +:+ display pid.

Definition write_record (pid sequence : N) (bs : list byte) : io directory unit :=
  let final_name := record_name sequence in
  existing ← attempt (openat final_name);
  _ ← raise_if (is_ok existing) (StateError.Corrupt "duplicate sequence");
  let temporary := temporary_name sequence pid in
  _ ← create_excl temporary;
  _ ← with_cleanup temporary (
    _ ← fchmod temporary;
    _ ← check FaultPoint.Write;
    _ ← write_all temporary bs;
    _ ← check FaultPoint.FileSync;
    _ ← sync;
    _ ← check FaultPoint.Publish;
    _ ← renameat temporary final_name;
    sync);
  check FaultPoint.DirectorySync.

(** The file is opened once: what is measured and read is the content at that time. *)
Definition read_bounded (name : string) (maximum : N) : io directory (list byte) :=
  n ← openat name;
  _ ← verify_file n;
  _ ← sync;
  _ ← raise_if (maximum <? N.of_nat (length (file_content n))) (StateError.Limit "record");
  _ ← sync;
  _ ← raise_if (maximum <? N.of_nat (length (file_content n))) (StateError.Limit "record");
  mret (file_content n).

Definition child_names : io directory (list string) := sys (fun d =>
  if non_utf8 d then Err (StateError.Corrupt "non-UTF8 journal name")
  else Ok (d, sort (map_to_list (nodes d)).*1)).

Definition root_names : io root (list string) := sys (fun r =>
  if root_non_utf8 r then Err (StateError.Corrupt "non-UTF8 journal name")
  else Ok (r, sort (map_to_list (children r)).*1)).

(** An operation through the descriptor of a child directory. *)
Definition in_dir {A} (name : string) (m : io directory A) : io root A := fun w =>
  match children (fsys w) !! name with
  | Some (Some d) =>
      zoom (fun _ => d) (fun d' => with_children (<[name := Some d']>)) m w
  | _ => (w, Raised (StateError.Io enoent))
  end.

Definition open_transaction (name : string) : io root unit :=
  _ ← sys (fun r =>
    match children r !! name with
    | None => Err (StateError.Io enoent)
    | Some None => Err (StateError.Io enotdir)
    | Some (Some _) => Ok (r, tt)
    end);
  in_dir name (sys (fun d => if private_dir d then Ok (d, tt) else Err unsafe_node)).

Definition create_transaction (name : string) : io root unit :=
  _ ← check FaultPoint.Create;
  _ ← sys (fun r =>
    match children r !! name with
    | Some _ => Err (StateError.Io eexist)
    | None => Ok (with_children (<[name := Some (mk_dir ∅ false true false)]>) r, tt)
    end);
  _ ← sync;
  open_transaction name.

(** [unlinkat(root, child, AtFlags::REMOVEDIR)]. *)
Definition remove_dir (name : string) : io root unit := sys (fun r =>
  match children r !! name with
  | None => Err (StateError.Io enoent)
  | Some None => Err (StateError.Io enotdir)
  | Some (Some d) =>
      if bool_decide (nodes d = ∅) && negb (non_utf8 d)
      then Ok (with_children (delete name) r, tt) else Err (StateError.Io enotempty)
  end).

Definition remove_failed_transaction (child : string) : io root unit :=
  _ ← open_transaction child;
  names ← in_dir child child_names;
  _ ← in_dir child (for_io unlinkat names);
  _ ← sync;
  _ ← remove_dir child;
  sync.

(** [cleanup_private_child] below an already opened staging root. *)
Definition cleanup_private_child (child : string) : io root unit :=
  _ ← sync;
  _ ← open_transaction child;
  names ← in_dir child child_names;
  _ ← in_dir child (for_io (fun name => n ← openat name; _ ← verify_file n; unlinkat name) names);
  _ ← sync;
  _ ← remove_dir child;
  sync.
End operations.

Section check.
Context {D : Type}.

Lemma triple_check pt (P R : D -> Prop) :
  (forall d, P d -> R d) -> triple P (check pt) (fun _ => P) R.
Proof. intros HR w Hw. unfold check. case_bool_decide; simpl; auto. Qed.

Lemma run_check pt (d : D) : pt <> FaultPoint.None -> check pt (quiet d) = (quiet d, Value tt).
Proof. intros Hpt. unfold check, quiet. simpl. by rewrite bool_decide_eq_false_2. Qed.

Lemma runs_check pt (P : D -> Prop) : pt <> FaultPoint.None -> runs P (check pt) (fun _ => P).
Proof.
  intros Hpt d Hd. exists tt, d. split; [| done]. unfold check, quiet. simpl.
  by rewrite bool_decide_eq_false_2.
Qed.
End check.

(** ** Names *)

(** [str::ends_with]. *)
Definition ends_with (suffix s : string) : bool :=
  starts_with (rev (bytes suffix)) (rev (bytes s)).

Lemma ends_with_spec suffix s : ends_with suffix s = true <-> exists p, s = p +:+ suffix.
Proof.
  unfold ends_with. rewrite starts_with_spec. split.
  - intros [r E]. exists (of_bytes (rev r)). apply bytes_inj.
    rewrite bytes_app, bytes_of_bytes, <- (rev_involutive (bytes s)), E, rev_app_distr.
    by rewrite rev_involutive.
  - intros [p ->]. exists (rev (bytes p)). by rewrite bytes_app, rev_app_distr.
Qed.

Lemma pad20_decimal n : decimal (bytes (pad20 n)) = n.
Proof. unfold pad20. rewrite bytes_of_bytes, decimal_zeros. apply display_decimal. Qed.

#[export] Instance record_name_inj : Inj (=) (=) record_name.
Proof.
  intros n m E. unfold record_name in E. apply (f_equal bytes) in E. rewrite !bytes_app in E.
  apply app_inv_tail in E. by rewrite <- (pad20_decimal n), E, pad20_decimal.
Qed.

Lemma record_name_json n : ends_with ".json" (record_name n) = true.
Proof. apply ends_with_spec. by exists (pad20 n). Qed.

Lemma temporary_name_json n pid : ends_with ".json" (temporary_name n pid) = false.
Proof.
  apply not_true_iff_false. intros [p E]%ends_with_spec. unfold temporary_name in E.
  apply (f_equal (fun s => last (bytes s))) in E. rewrite !bytes_app in E.
  destruct (display_decimal pid) as (_ & Hd & Hne).
  destruct (exists_last Hne) as (l & b & Hb). rewrite Hb in *.
  rewrite !app_assoc, last_snoc in E. change (bytes ".json") with (bytes ".jso" ++ [Ascii.ascii_of_N 110]) in E.
  rewrite app_assoc, last_snoc in E. injection E as ->.
  apply Forall_app in Hd as [_ Hd]. by inversion Hd.
Qed.

(** ** What an operation does to the records of a directory *)

Definition is_record (p : string * node) : Prop := ends_with ".json" p.1 = true.

#[export] Instance is_record_dec p : Decision (is_record p).
Proof. unfold is_record. apply _. Defined.

Definition records (d : directory) : gmap string node := base.filter is_record (nodes d).

Definition flags (d : directory) : bool * bool * bool := (non_utf8 d, private_dir d, locked d).

(** The same records, whatever else the directory holds. *)
Definition unchanged (d0 d : directory) : Prop := records d = records d0 /\ flags d = flags d0.

Definition published (sequence : N) (bs : list byte) (d0 d : directory) : Prop :=
  records d = <[record_name sequence := File bs true]> (records d0) /\ flags d = flags d0.

#[export] Instance unchanged_refl : Reflexive unchanged.
Proof. by intros d. Qed.

Lemma records_lookup d name :
  ends_with ".json" name = true -> records d !! name = nodes d !! name.
Proof.
  intros Hn. unfold records. rewrite map_lookup_filter. destruct (nodes d !! name); simpl; [| done].
  by rewrite option_guard_True.
Qed.

Lemma records_lookup_other d name : ends_with ".json" name = false -> records d !! name = None.
Proof.
  intros Hn. unfold records. rewrite map_lookup_filter. destruct (nodes d !! name); simpl; [| done].
  rewrite option_guard_False; [done |]. unfold is_record. simpl. by rewrite Hn.
Qed.

Lemma with_nodes_unchanged d0 d f :
  unchanged d0 d ->
  (forall name, ends_with ".json" name = true -> f (nodes d) !! name = nodes d !! name) ->
  unchanged d0 (with_nodes f d).
Proof.
  intros [Hr Hf] Hn. split; [| done]. rewrite <- Hr. apply map_eq. intros name.
  destruct (ends_with ".json" name) eqn:E.
  - rewrite !records_lookup by done. by apply Hn.
  - by rewrite !records_lookup_other.
Qed.

Section directory_logic.
Context `{ErrnoText}.

Lemma openat_triple name d0 :
  triple (eq d0) (openat name) (fun n d => nodes d0 !! name = Some n /\ d0 = d) (eq d0).
Proof.
  apply triple_sys; [done |]. intros ? d n <- E. destruct (nodes d0 !! name) as [[| |]|]; simplify_eq; auto.
Qed.

Lemma verify_file_triple n d0 :
  triple (eq d0) (verify_file n) (fun _ d => (exists c, n = File c true) /\ d0 = d) (eq d0).
Proof.
  apply triple_sys; [done |]. intros ? d [] <- E. destruct n as [c [|]| |]; simplify_eq; eauto.
Qed.

Lemma read_bounded_triple name maximum d0 :
  triple (eq d0) (read_bounded name maximum)
    (fun c d => (nodes d0 !! name = Some (File c true) /\ N.of_nat (length c) <= maximum) /\ d0 = d)
    (eq d0).
Proof.
  eapply triple_seq; [apply openat_triple |]. intros n Hn.
  eapply triple_seq; [apply verify_file_triple |]. intros [] [c ->].
  eapply triple_bind; [by apply triple_sync |]. intros [].
  eapply triple_seq; [by apply triple_raise_if |]. intros [] Hc%N.ltb_ge.
  eapply triple_bind; [by apply triple_sync |]. intros [].
  eapply triple_seq; [by apply triple_raise_if |]. intros [] _.
  by apply triple_done.
Qed.

Lemma child_names_triple d0 :
  triple (eq d0) child_names
    (fun names d => (non_utf8 d0 = false /\ names = sort (map_to_list (nodes d0)).*1) /\ d0 = d)
    (eq d0).
Proof.
  apply triple_sys; [done |]. intros ? d n <- E. destruct (non_utf8 d0); simplify_eq; auto.
Qed.

Lemma read_bounded_run name maximum c d :
  nodes d !! name = Some (File c true) -> N.of_nat (length c) <= maximum ->
  read_bounded name maximum (quiet d) = (quiet d, Value c).
Proof.
  intros Hn Hc. assert (Hb : (maximum <? N.of_nat (length c)) = false) by (by apply N.ltb_ge).
  eapply run_bind; [apply run_sys; by rewrite Hn |].
  eapply run_bind; [by apply run_sys |].
  eapply run_bind; [by apply run_sys |]. simpl.
  eapply run_bind; [by rewrite Hb |].
  eapply run_bind; [by apply run_sys |]. simpl.
  eapply run_bind; [by rewrite Hb | done].
Qed.

(** What holds while the temporary file is being written. *)
Definition writing (temporary : string) (d0 d : directory) : Prop :=
  exists c p, d = with_nodes (<[temporary := File c p]>) d0.

Definition settled (sequence : N) (bs : list byte) (d0 d : directory) : Prop :=
  unchanged d0 d \/ published sequence bs d0 d.

Lemma writing_unchanged temporary d0 d :
  ends_with ".json" temporary = false -> writing temporary d0 d -> unchanged d0 d.
Proof.
  intros Ht (c & p & ->). apply with_nodes_unchanged; [done |]. intros name Hn.
  apply lookup_insert_ne. intros ->. congruence.
Qed.

Lemma create_excl_triple name d0 :
  triple (eq d0) (create_excl name) (fun _ d => d = with_nodes (<[name := File [] false]>) d0)
    (eq d0).
Proof.
  apply triple_sys; [done |]. intros ? d [] <- E. destruct (nodes d0 !! name); by simplify_eq.
Qed.

Lemma unlinkat_triple name (R : directory -> Prop) :
  ends_with ".json" name = false -> (forall d d', R d -> unchanged d d' -> R d') ->
  triple R (unlinkat name) (fun _ => R) R.
Proof.
  intros Hn HR. apply triple_sys; [done |]. intros d1 d [] Hd E.
  destruct (nodes d1 !! name) as [[| |]|]; simplify_eq;
    (eapply HR; [exact Hd |]; apply with_nodes_unchanged; [done |]; intros name' Hn';
     apply lookup_delete_ne; intros ->; congruence).
Qed.

Lemma settled_closed sequence bs d0 d d' :
  settled sequence bs d0 d -> unchanged d d' -> settled sequence bs d0 d'.
Proof.
  intros [[Hr Hf]|[Hr Hf]] [Hr' Hf']; [left | right]; split; congruence.
Qed.

Lemma with_cleanup_triple {A} name (P : directory -> Prop) (m : io directory A) Q (R : directory -> Prop) :
  ends_with ".json" name = false -> (forall d d', R d -> unchanged d d' -> R d') ->
  triple P m Q R -> triple P (with_cleanup name m) Q R.
Proof.
  intros Hn HR Hm. unfold with_cleanup. eapply triple_bind; [by apply triple_attempt |].
  intros [a|e]; simpl; [by apply triple_done |].
  eapply triple_bind; [by apply triple_attempt, unlinkat_triple |].
  intros r. eapply triple_conseq; [apply (triple_raise e R) | by destruct r | done | done].
Qed.

Lemma fchmod_triple name d0 (R : directory -> Prop) :
  (forall d, writing name d0 d -> R d) ->
  triple (fun d => d = with_nodes (<[name := File [] false]>) d0) (fchmod name)
    (fun _ d => d = with_nodes (<[name := File [] true]>) d0) R.
Proof.
  intros HR. apply triple_sys.
  - intros d ->. apply HR. by eexists _, _.
  - intros d1 d [] -> E. cbn [with_nodes nodes] in E. rewrite lookup_insert_eq in E.
    injection E as <-. unfold with_nodes. simpl. by rewrite insert_insert_eq.
Qed.

Lemma write_all_triple name bs d0 (R : directory -> Prop) :
  (forall d, writing name d0 d -> R d) ->
  triple (fun d => d = with_nodes (<[name := File [] true]>) d0) (write_all name bs)
    (fun _ d => d = with_nodes (<[name := File bs true]>) d0) R.
Proof.
  intros HR.
  assert (Hput : forall n, put_bytes name bs n (with_nodes (<[name := File [] true]>) d0) =
    with_nodes (<[name := File (take n bs) true]>) d0).
  { intros n. unfold put_bytes. cbn [with_nodes nodes]. rewrite lookup_insert_eq. simpl.
    unfold with_nodes. simpl. by rewrite insert_insert_eq. }
  apply triple_write.
  - intros d n -> _. rewrite Hput. apply HR. by eexists _, _.
  - intros d ->. by rewrite Hput, firstn_all.
Qed.

Lemma renamed_published sequence pid bs d0 :
  let temporary := temporary_name sequence pid in
  nodes d0 !! record_name sequence = None -> 
  published sequence bs d0
    (with_nodes (fun m => <[record_name sequence := File bs true]> (delete temporary m))
       (with_nodes (<[temporary := File bs true]>) d0)).
Proof.
  intros temporary Hfree. split; [| done]. apply map_eq. intros name.
  destruct (ends_with ".json" name) eqn:E.
  - rewrite records_lookup by done. simpl.
    destruct (decide (name = record_name sequence)) as [->|Hne]; [by rewrite !lookup_insert_eq |].
    assert (name <> temporary).
    { intros ->. unfold temporary in E. by rewrite temporary_name_json in E. }
    rewrite !(lookup_insert_ne _ (record_name sequence)) by done.
    by rewrite lookup_delete_ne, lookup_insert_ne, records_lookup by done.
  - rewrite records_lookup_other, lookup_insert_ne, records_lookup_other by
      (try done; intros <-; by rewrite record_name_json in E). done.
Qed.

Lemma record_temporary_ne sequence pid : record_name sequence <> temporary_name sequence pid.
Proof.
  intros E. pose proof (record_name_json sequence) as H1. rewrite E in H1.
  by rewrite temporary_name_json in H1.
Qed.

Lemma renameat_triple sequence pid bs d0 (R : directory -> Prop) :
  nodes d0 !! record_name sequence = None ->
  (forall d, writing (temporary_name sequence pid) d0 d -> R d) ->
  triple (fun d => d = with_nodes (<[temporary_name sequence pid := File bs true]>) d0)
    (renameat (temporary_name sequence pid) (record_name sequence))
    (fun _ d => published sequence bs d0 d) R.
Proof.
  intros Hfree HR. apply triple_sys.
  - intros d ->. apply HR. by eexists _, _.
  - intros d1 d [] -> E. cbn [with_nodes nodes] in E. rewrite lookup_insert_eq in E.
    rewrite lookup_insert_ne, Hfree in E by (intros ?; by apply (record_temporary_ne sequence pid)).
    injection E as <-. by apply (renamed_published sequence pid).
Qed.

(** Whatever fails while a record is written, the directory keeps its records or has exactly
    the new one more; with a value it has it. *)
Lemma write_record_triple pid sequence bs d0 :
  nodes d0 !! record_name sequence = None ->
  triple (eq d0) (write_record pid sequence bs) (fun _ => published sequence bs d0)
    (settled sequence bs d0).
Proof.
  intros Hfree. set (R := settled sequence bs d0). set (temporary := temporary_name sequence pid).
  assert (HR0 : R d0) by (left; reflexivity).
  assert (HRw : forall d, writing temporary d0 d -> R d).
  { intros d Hd. left. by apply (writing_unchanged temporary), Hd; apply temporary_name_json. }
  assert (HRp : forall d, published sequence bs d0 d -> R d) by (intros; by right).
  assert (HRc : forall d d', R d -> unchanged d d' -> R d') by (apply settled_closed).
  unfold write_record. eapply triple_bind.
  { eapply triple_conseq; [apply triple_attempt, openat_triple | done | | by intros d <-].
    intros r d Hd. exact Hd. }
  intros [n|e]; simpl.
  { intros w [Hn _]. congruence. }
  eapply triple_bind; [by apply triple_raise_if; intros d <- |]. intros [].
  eapply triple_bind.
  { eapply triple_conseq; [apply (create_excl_triple temporary d0) | by intros d [_ <-] |
      intros ? d Hd; exact Hd | by intros d <-]. }
  intros []. apply (triple_bind _ _ _ (fun _ => published sequence bs d0)); [| intros []; by apply triple_check].
  apply with_cleanup_triple; [apply temporary_name_json | done |].
  assert (HRn : forall p c d, d = with_nodes (<[temporary := File c p]>) d0 -> R d)
    by (intros p c d ->; apply HRw; by eexists _, _).
  eapply triple_bind; [by apply fchmod_triple |]. intros [].
  eapply triple_bind; [apply triple_check, HRn |]. intros [].
  eapply triple_bind; [by apply write_all_triple |]. intros [].
  eapply triple_bind; [apply triple_check, HRn |]. intros [].
  eapply triple_bind; [apply triple_sync, HRn |]. intros [].
  eapply triple_bind; [apply triple_check, HRn |]. intros [].
  eapply triple_bind; [by apply renameat_triple |]. intros [].
  by apply triple_sync.
Qed.

(** Without a failure the record is written, provided no temporary file of this process was
    left behind. *)
Lemma write_record_runs pid sequence bs d0 :
  nodes d0 !! record_name sequence = None -> nodes d0 !! temporary_name sequence pid = None ->
  runs (eq d0) (write_record pid sequence bs)
    (fun _ d => nodes d = <[record_name sequence := File bs true]> (nodes d0) /\ flags d = flags d0).
Proof.
  intros Hfree Htmp d <-. exists tt, (with_nodes (<[record_name sequence := File bs true]>) d0).
  split; [| done]. unfold write_record. cbv zeta.
  pose proof (record_temporary_ne sequence pid) as Hne. revert Hfree Htmp Hne.
  generalize (record_name sequence) (temporary_name sequence pid). intros final temporary Hf Ht Hne.
  set (tmp c p := with_nodes (<[temporary := File c p]>) d0).
  assert (Htmp : forall c p, nodes (tmp c p) !! temporary = Some (File c p))
    by (intros; apply lookup_insert_eq).
  assert (Hset : forall c p c' p', with_nodes (<[temporary := File c' p']>) (tmp c p) = tmp c' p')
    by (intros; unfold tmp, with_nodes; simpl; by rewrite insert_insert_eq).
  assert (Hnew : with_nodes (<[temporary := File [] false]>) d0 = tmp [] false) by done.
  assert (Hfinal : nodes (tmp bs true) !! final = None)
    by (unfold tmp; simpl; by rewrite lookup_insert_ne).
  assert (Hmove : with_nodes (fun m => <[final := File bs true]> (delete temporary m)) (tmp bs true)
    = with_nodes (<[final := File bs true]>) d0)
    by (unfold tmp, with_nodes; simpl; by rewrite delete_insert_id).
  clearbody tmp. eapply run_bind; [apply run_attempt_err, run_sys_err; by rewrite Hf |]. simpl.
  eapply run_bind; [done |].
  eapply run_bind; [apply (run_sys _ _ (tmp [] false)); by rewrite Ht, Hnew |].
  eapply run_bind; [| by apply run_check].
  eapply run_bind; [apply run_attempt | done].
  eapply run_bind; [apply (run_sys _ _ (tmp [] true)); by rewrite Htmp, Hset |].
  eapply run_bind; [by apply run_check |].
  eapply (run_bind _ _ _ (quiet (tmp bs true))).
  { unfold write_all, write_call, put_bytes. simpl. by rewrite Htmp, Hset, firstn_all. }
  eapply run_bind; [by apply run_check |].
  eapply run_bind; [by apply run_sys |].
  eapply run_bind; [by apply run_check |].
  eapply run_bind; [| by apply run_sys]. apply run_sys. by rewrite Htmp, Hfinal, Hmove.
Qed.
End directory_logic.
