(* ===== verification/Journal.v ===== *)
(** * The transaction journal ([dnfast-state]: model.rs, store.rs, recovery.rs)

    A transaction is a directory of records, one file per state it has reached.  The file
    system is that of [StateFs]; records are canonical JSON ([Canonical]). *)
From S2P Require Import Prelude.
From S2P Require Import RustStr.
From S2P Require Import Value.
From S2P Require Import Canonical.
From S2P Require Import Documents.
From S2P Require Import Effects.
From S2P Require Import StateFs.

#[local] Open Scope N_scope.

Definition MAX_RECORD_BYTES : N := 8 * 1024 * 1024.
Definition MAX_LOG_BYTES : N := 64 * 1024 * 1024.

Module TransactionId.
Record t : Type := mk { as_str : string }.

#[global] Instance transaction_id_eq_dec : EqDecision t.
Proof. solve_decision. Defined.

Definition lower_hex (b : byte) : bool := is_ascii_hexdigit b && negb (is_ascii_uppercase b).

Definition byte_ok (p : nat * byte) : bool :=
  if bool_decide (p.1 ∈ [8; 13; 18; 23]%nat) then byte_val p.2 =? 45 else lower_hex p.2.

Definition parse (value : string) : result StateError.t t :=
  let bs := bytes value in
  let shape := Nat.eqb (length bs) 36 && forallb byte_ok (imap pair bs) in
  if negb shape
     || negb (bool_decide (byte_val <$> bs !! 14%nat = Some 55))
     || negb (existsb (fun v => bool_decide (byte_val <$> bs !! 19%nat = Some v)) [56; 57; 97; 98])
  then Err (StateError.Corrupt "transaction id is not canonical UUIDv7")
  else Ok (mk value).
End TransactionId.

(** [TransactionState] is [JournalState] of the core. *)
Module TransactionState.
Definition debug (s : JournalState.t) : string :=
  match s with
  | JournalState.Prepared => "Prepared" | JournalState.Started => "Started"
  | JournalState.RpmResult => "RpmResult" | JournalState.Reconciled => "Reconciled"
  end.

(** [#[serde(rename_all = "snake_case")]]. *)
Definition tree (s : JournalState.t) : Json.t :=
  Json.Text match s with
  | JournalState.Prepared => "prepared" | JournalState.Started => "started"
  | JournalState.RpmResult => "rpm_result" | JournalState.Reconciled => "reconciled"
  end.
End TransactionState.

(** In the modules below [tree] is the derived [Serialize]. *)

Module CallbackSummary.
Record t : Type := mk {
  pretrans : N; pre : N; post : N; triggers : N; payload : N; database : N;
  script_log_truncated : bool
}.

#[global] Instance callback_summary_eq_dec : EqDecision t.
Proof. solve_decision. Defined.

Definition tree (s : t) : Json.t :=
  Json.struct [("pretrans", Json.Number (Z.of_N (pretrans s))); ("pre", Json.Number (Z.of_N (pre s)));
    ("post", Json.Number (Z.of_N (post s))); ("triggers", Json.Number (Z.of_N (triggers s)));
    ("payload", Json.Number (Z.of_N (payload s))); ("database", Json.Number (Z.of_N (database s)));
    ("script_log_truncated", Json.Bool (script_log_truncated s))].
End CallbackSummary.

Module NativeResult.
Record t : Type := mk {
  return_code : Z;
  callbacks : CallbackSummary.t;
  problems : list string
}.

#[global] Instance native_result_eq_dec : EqDecision t.
Proof. solve_decision. Defined.

Definition tree (r : t) : Json.t :=
  Json.struct [("return_code", Json.Number (return_code r));
    ("callbacks", CallbackSummary.tree (callbacks r));
    ("problems", Json.Array (Json.Text <$> problems r))].
End NativeResult.

Module ReconcileResult.
Record t : Type := mk {
  inventory_sha256 : string;
  success : bool;
  changed_packages : N
}.

#[global] Instance reconcile_result_eq_dec : EqDecision t.
Proof. solve_decision. Defined.

Definition tree (r : t) : Json.t :=
  Json.struct [("inventory_sha256", Json.Text (inventory_sha256 r)); ("success", Json.Bool (success r));
    ("changed_packages", Json.Number (Z.of_N (changed_packages r)))].
End ReconcileResult.

Module JournalEntry.
Record t : Type := mk {
  schema_version : N;
  transaction_id : string;
  plan_sha256 : string;
  sequence : N;
  state : JournalState.t;
  native_result : option NativeResult.t;
  reconciliation : option ReconcileResult.t
}.

#[global] Instance journal_entry_eq_dec : EqDecision t.
Proof. solve_decision. Defined.

(** [#[serde(skip_serializing_if = "Option::is_none")]] on the last two fields. *)
Definition tree (e : t) : Json.t :=
  Json.struct ([("schema_version", Json.Number (Z.of_N (schema_version e)));
    ("transaction_id", Json.Text (transaction_id e)); ("plan_sha256", Json.Text (plan_sha256 e));
    ("sequence", Json.Number (Z.of_N (sequence e))); ("state", TransactionState.tree (state e))]
    ++ Json.member "native_result" (native_result e) NativeResult.tree
    ++ Json.member "reconciliation" (reconciliation e) ReconcileResult.tree).
End JournalEntry.

Module RecoveryAction.
Inductive t : Type :=
  | CleanupRevalidateAndReapprove
  | ReconcileOnly
  | Terminal (result : ReconcileResult.t).

#[global] Instance recovery_action_eq_dec : EqDecision t.
Proof. solve_decision. Defined.
End RecoveryAction.

(** ** Validation *)

Definition corrupt {A} (message : string) : result StateError.t A := Err (StateError.Corrupt message).

Definition validate_digest (value : string) : result StateError.t unit :=
  reject_if (negb ((str_len value =? 64) && forallb TransactionId.lower_hex (bytes value)))
    (StateError.Corrupt "invalid SHA-256").

Definition payload_matches (entry : JournalEntry.t) : bool :=
  let native := JournalEntry.native_result entry in
  let reconciliation := JournalEntry.reconciliation entry in
  match JournalEntry.state entry with
  | JournalState.Prepared | JournalState.Started =>
      bool_decide (native = None) && bool_decide (reconciliation = None)
  | JournalState.RpmResult => bool_decide (is_Some native) && bool_decide (reconciliation = None)
  | JournalState.Reconciled => bool_decide (native = None) && bool_decide (is_Some reconciliation)
  end.

Definition problems_exceed (r : NativeResult.t) : bool :=
  (16 <? N.of_nat (length (NativeResult.problems r)))
  || existsb (fun problem => MAX_STRING_BYTES <? str_len problem) (NativeResult.problems r).

Definition validate_entry (entry : JournalEntry.t) : result StateError.t unit :=
  _ ← reject_if (negb (JournalEntry.schema_version entry =? 1))
        (StateError.Corrupt "unsupported schema");
  _ ← TransactionId.parse (JournalEntry.transaction_id entry);
  _ ← validate_digest (JournalEntry.plan_sha256 entry);
  _ ← reject_if (negb (payload_matches entry)) (StateError.Corrupt "state payload mismatch");
  reject_if (from_option problems_exceed false (JournalEntry.native_result entry))
    (StateError.Limit "native problems").

Definition legal (previous next : JournalState.t) : bool :=
  match previous, next with
  | JournalState.Prepared, JournalState.Started
  | JournalState.Started, JournalState.RpmResult
  | JournalState.RpmResult, JournalState.Reconciled => true
  | _, _ => false
  end.

Definition validate_pair (previous next : JournalEntry.t) : result StateError.t unit :=
  let same :=
    bool_decide (JournalEntry.transaction_id previous = JournalEntry.transaction_id next)
    && bool_decide (JournalEntry.plan_sha256 previous = JournalEntry.plan_sha256 next) in
  reject_if (negb same || negb (legal (JournalEntry.state previous) (JournalEntry.state next)))
    (StateError.Corrupt "invalid persisted transition").

(** [for pair in records.windows(2)]. *)
Fixpoint validate_pairs (records : list JournalEntry.t) : result StateError.t unit :=
  match records with
  | previous :: ((next :: _) as rest) => _ ← validate_pair previous next; validate_pairs rest
  | _ => Ok tt
  end.

(** [records.iter().enumerate().any(..)], negated. *)
Fixpoint indexed (index : N) (records : list JournalEntry.t) : bool :=
  match records with
  | [] => true
  | entry :: rest => (JournalEntry.sequence entry =? index) && indexed (index + 1) rest
  end.

Section store.
Context `{SerdeJson JournalEntry.t} `{ErrnoText} (pid : N).

Definition canonical_bytes (entry : JournalEntry.t) : result StateError.t (list byte) :=
  map_err (fun e => StateError.Corrupt (DomainError.to_string e)) (serialize entry).

Definition decode (bs : list byte) : result StateError.t JournalEntry.t :=
  map_err (fun e => StateError.Corrupt (DomainError.to_string e)) (parse bs).

(** ** Reading *)

Definition load_record (st : list JournalEntry.t * list N) (name : string) :
    io directory (list JournalEntry.t * list N) :=
  bs ← read_bounded name MAX_RECORD_BYTES;
  entry ← lift (decode bs);
  canonical ← lift (canonical_bytes entry);
  _ ← raise_if (negb (bool_decide (canonical = bs)))
        (StateError.Corrupt "record is not canonical JSON");
  _ ← lift (validate_entry entry);
  let sequence := JournalEntry.sequence entry in
  _ ← raise_if (negb (bool_decide (name = record_name sequence)) || bset_contains sequence st.2)
        (StateError.Corrupt "duplicate or mismatched sequence");
  mret (st.1 ++ [entry], bset_insert sequence st.2).

Definition by_sequence (a b : JournalEntry.t) : comparison :=
  N.compare (JournalEntry.sequence a) (JournalEntry.sequence b).

Definition load_entries : io directory (list JournalEntry.t) :=
  names ← child_names;
  st ← fold_io load_record ([], []) (base.filter (fun name => ends_with ".json" name = true) names);
  let records := sort_by by_sequence st.1 in
  _ ← raise_if (bool_decide (records = []) || negb (indexed 0 records))
        (StateError.Corrupt "torn or missing journal sequence");
  _ ← lift (validate_pairs records);
  mret records.

(** ** Writing *)

Definition publish (entry : JournalEntry.t) : io directory unit :=
  _ ← lift (validate_entry entry);
  bs ← lift (canonical_bytes entry);
  _ ← raise_if (MAX_RECORD_BYTES <? N.of_nat (length bs)) (StateError.Limit "record");
  write_record pid (JournalEntry.sequence entry) bs.

Definition transition (next : JournalState.t) (native_result : option NativeResult.t)
    (reconciliation : option ReconcileResult.t) : io directory unit :=
  entries ← load_entries;
  previous ← lift (ok_or (StateError.Corrupt "journal is empty") (last entries));
  _ ← raise_if (negb (legal (JournalEntry.state previous) next))
        (StateError.Transition (TransactionState.debug (JournalEntry.state previous) +:+ " -> "
           +:+ TransactionState.debug next));
  sequence ← lift (ok_or (StateError.Corrupt "sequence overflow")
    (u64_checked_add (JournalEntry.sequence previous) 1));
  publish (JournalEntry.mk 1 (JournalEntry.transaction_id previous)
    (JournalEntry.plan_sha256 previous) sequence next native_result reconciliation).

Definition mark_started : io directory unit := transition JournalState.Started None None.

Definition record_rpm_result_with_problems (return_code : Z) (callbacks : CallbackSummary.t)
    (problems : list string) : io directory unit :=
  transition JournalState.RpmResult (Some (NativeResult.mk return_code callbacks problems)) None.

Definition record_rpm_result (return_code : Z) (callbacks : CallbackSummary.t) :
    io directory unit :=
  record_rpm_result_with_problems return_code callbacks [].

Definition rpm_result_encoded_len (return_code : Z) (callbacks : CallbackSummary.t)
    (problems : list string) : io directory N :=
  entries ← load_entries;
  previous ← lift (ok_or (StateError.Corrupt "journal is empty") (last entries));
  bs ← lift (canonical_bytes (JournalEntry.mk 1 (JournalEntry.transaction_id previous)
    (JournalEntry.plan_sha256 previous) (JournalEntry.sequence previous + 1)
    JournalState.RpmResult (Some (NativeResult.mk return_code callbacks problems)) None));
  mret (N.of_nat (length bs)).

Definition reconcile (result : ReconcileResult.t) : io directory unit :=
  _ ← lift (validate_digest (ReconcileResult.inventory_sha256 result));
  transition JournalState.Reconciled None (Some result).

(** ** The store *)

(** [flock] without blocking; the lock goes with the journal. *)
Definition lock : io directory unit := sys (fun d =>
  if locked d then Err StateError.Busy else Ok (set_locked true d, tt)).

Definition unlock : io directory unit := fun w =>
  (mk_world (set_locked false (fsys w)) (faults w) (pending w), Value tt).

Definition create (id : TransactionId.t) (plan_sha256 : string) : io root unit :=
  let name := TransactionId.as_str id in
  _ ← lift (validate_digest plan_sha256);
  _ ← create_transaction name;
  _ ← in_dir name lock;
  r ← attempt (in_dir name
    (publish (JournalEntry.mk 1 name plan_sha256 0 JournalState.Prepared None None)));
  match r with
  | Ok _ => mret tt
  | Err e => _ ← in_dir name unlock; _ ← remove_failed_transaction name; raise e
  end.

Definition open_journal (id : TransactionId.t) : io root unit :=
  _ ← open_transaction (TransactionId.as_str id);
  in_dir (TransactionId.as_str id) lock.

Definition transaction_ids : io root (list TransactionId.t) :=
  names ← root_names;
  lift (mapM TransactionId.parse names).

(** ** Recovery *)

Definition recover : io directory RecoveryAction.t :=
  entries ← load_entries;
  final_entry ← lift (ok_or (StateError.Corrupt "journal is empty") (last entries));
  match JournalEntry.state final_entry with
  | JournalState.Prepared => mret RecoveryAction.CleanupRevalidateAndReapprove
  | JournalState.Started =>
      _ ← record_rpm_result (-1)%Z (CallbackSummary.mk 0 0 0 0 0 0 false);
      mret RecoveryAction.ReconcileOnly
  | JournalState.RpmResult => mret RecoveryAction.ReconcileOnly
  | JournalState.Reconciled =>
      lift (ok_or (StateError.Corrupt "terminal result missing")
        (RecoveryAction.Terminal <$> JournalEntry.reconciliation final_entry))
  end.

(** The journal's directory beside the staging root. *)
Definition recover_with_staging (id : TransactionId.t) : io (directory * root) RecoveryAction.t :=
  action ← zoom fst (fun d p => (d, p.2)) recover;
  _ ← (if bool_decide (action = RecoveryAction.CleanupRevalidateAndReapprove) then
         r ← attempt (zoom snd (fun s p => (p.1, s))
               (cleanup_private_child (TransactionId.as_str id)));
         match r with
         | Ok _ => mret tt
         | Err (StateError.Io message) =>
             if contains (bytes "No such file") (bytes message) then mret tt
             else raise (StateError.Io message)
         | Err e => raise e
         end
       else mret tt);
  mret action.
End store.
