(* ===== verification/JournalFacts.v ===== *)
(** * Correctness of the transaction journal

    A directory [holds] a list of entries when its records are exactly those entries, each in
    its own file.  Reading returns the list a directory holds; every operation, whatever
    system call fails and wherever the process dies, leaves a directory that holds the old
    list or the old list and one legal entry. *)
From S2P Require Import Prelude.
From S2P Require Import RustStr.
From S2P Require Import Value.
From S2P Require Import Canonical.
From S2P Require Import Documents.
From S2P Require Import Effects.
From S2P Require Import StateFs.
From S2P Require Import Journal.

#[local] Open Scope N_scope.

(** ** Lists of entries *)

Record journal_wf (es : list JournalEntry.t) : Prop := {
  wf_nonempty : es <> [];
  wf_indexed : indexed 0 es = true;
  wf_valid : forall e, e ∈ es -> validate_entry e = Ok tt;
  wf_pairs : validate_pairs es = Ok tt
}.

Lemma indexed_spec i es :
  indexed i es = true <->
  forall k e, es !! k = Some e -> JournalEntry.sequence e = i + N.of_nat k.
Proof.
  revert i. induction es as [|e es IH]; intros i; simpl; [split; [by intros _ [|k] ? [=] | done] |].
  rewrite andb_true_iff, N.eqb_eq, IH. split.
  - intros [He Hes] [|k] e' Hk; simplify_eq/=; [lia |]. rewrite (Hes k e' Hk). lia.
  - intros Hall. split; [rewrite (Hall 0%nat e eq_refl); lia |].
    intros k e' Hk. rewrite (Hall (S k) e' Hk). lia.
Qed.

Lemma indexed_elem es e :
  indexed 0 es = true -> e ∈ es -> es !! N.to_nat (JournalEntry.sequence e) = Some e.
Proof.
  rewrite indexed_spec. intros Hi [k Hk]%list_elem_of_lookup. rewrite (Hi k e Hk).
  by rewrite N.add_0_l, Nat2N.id.
Qed.

Lemma indexed_snoc es e :
  indexed 0 es = true -> JournalEntry.sequence e = N.of_nat (length es) ->
  indexed 0 (es ++ [e]) = true.
Proof.
  rewrite !indexed_spec. intros Hi He k e' [Hk|[Hk Hx]]%lookup_app_Some; [by apply Hi |].
  apply list_lookup_singleton_Some in Hx as [? <-]. rewrite He. lia.
Qed.

Lemma validate_pairs_snoc es e e' :
  validate_pairs (es ++ [e]) = Ok tt -> validate_pair e e' = Ok tt ->
  validate_pairs ((es ++ [e]) ++ [e']) = Ok tt.
Proof.
  intros Hes He. induction es as [|a es IH]; simpl in *; [by rewrite He |].
  destruct es as [|b es]; simpl in *.
  - destruct (validate_pair a e) as [[]|]; simpl in *; [| done]. by rewrite He.
  - destruct (validate_pair a b) as [[]|]; simpl in *; [| done]. by apply IH.
Qed.

Lemma journal_wf_snoc es e e' :
  journal_wf es -> last es = Some e -> validate_entry e' = Ok tt -> validate_pair e e' = Ok tt ->
  JournalEntry.sequence e' = N.of_nat (length es) -> journal_wf (es ++ [e']).
Proof.
  intros [Hn Hi Hv Hp] Hl He' Hpair Hs. apply last_Some in Hl as [l ->]. split.
  - by destruct l.
  - by apply indexed_snoc.
  - intros x [?| ->%list_elem_of_singleton]%elem_of_app; [by apply Hv | done].
  - by apply validate_pairs_snoc.
Qed.

Lemma last_sequence es e :
  indexed 0 es = true -> last es = Some e -> JournalEntry.sequence e + 1 = N.of_nat (length es).
Proof.
  intros Hi [l ->]%last_Some. rewrite indexed_spec in Hi.
  rewrite (Hi (length l) e) by (rewrite lookup_app_r, Nat.sub_diag by lia; done).
  rewrite length_app. simpl. lia.
Qed.

(** The place of a state in the life of a transaction. *)
Definition rank (s : JournalState.t) : nat :=
  match s with
  | JournalState.Prepared => 0 | JournalState.Started => 1
  | JournalState.RpmResult => 2 | JournalState.Reconciled => 3
  end.

Lemma legal_rank s s' : legal s s' = true <-> rank s' = S (rank s).
Proof. by destruct s, s'. Qed.

Lemma rank_le s : (rank s <= 3)%nat.
Proof. destruct s; simpl; lia. Qed.

Definition same_transaction (e e' : JournalEntry.t) : Prop :=
  JournalEntry.transaction_id e = JournalEntry.transaction_id e' /\
  JournalEntry.plan_sha256 e = JournalEntry.plan_sha256 e'.

Lemma validate_pair_ok e e' u :
  validate_pair e e' = Ok u <->
  same_transaction e e' /\ rank (JournalEntry.state e') = S (rank (JournalEntry.state e)).
Proof.
  unfold validate_pair, same_transaction. rewrite reject_if_ok, orb_false_iff, !negb_false_iff.
  by rewrite andb_true_iff, !bool_decide_eq_true, legal_rank.
Qed.

Lemma validate_pairs_ok e es :
  validate_pairs (e :: es) = Ok tt -> forall k e', (e :: es) !! k = Some e' ->
  same_transaction e e' /\ rank (JournalEntry.state e') = (rank (JournalEntry.state e) + k)%nat.
Proof.
  revert e. induction es as [|e1 es IH]; intros e Hp [|k] e' Hk; simpl in Hk;
    [injection Hk as <- | done | injection Hk as <- |].
  - split; [by split | lia].
  - split; [by split | lia].
  - apply bind_ok in Hp as ([] & [[Hi Hd] Hr]%validate_pair_ok & Hp).
    destruct (IH e1 Hp k e' Hk) as [[Hi' Hd'] Hr']. unfold same_transaction.
    rewrite Hr', Hr. split; [split; congruence | lia].
Qed.

Lemma journal_wf_length e es :
  journal_wf (e :: es) -> (length (e :: es) + rank (JournalEntry.state e) <= 4)%nat.
Proof.
  intros [_ _ _ Hp]. destruct (lookup_lt_is_Some_2 (e :: es) (length es)) as [e' He']; [simpl; lia |].
  destruct (validate_pairs_ok e es Hp _ _ He') as [_ Hr]. pose proof (rank_le (JournalEntry.state e')).
  simpl. lia.
Qed.

(** ** Directories that hold a list *)

Section holds.
Context `{SerdeJson JournalEntry.t} `{ErrnoText}.

(** The text of an entry that can be read back. *)
Definition text_of (e : JournalEntry.t) (t : list byte) : Prop :=
  canonical_bytes e = Ok t /\ decode t = Ok e /\ N.of_nat (length t) <= MAX_RECORD_BYTES.

Record holds (es : list JournalEntry.t) (d : directory) : Prop := {
  holds_utf8 : non_utf8 d = false;
  holds_wf : journal_wf es;
  holds_record : forall e, e ∈ es -> exists t, text_of e t /\
    records d !! record_name (JournalEntry.sequence e) = Some (File t true);
  holds_only : forall name n, records d !! name = Some n ->
    exists e, e ∈ es /\ name = record_name (JournalEntry.sequence e)
}.

Lemma holds_unchanged es d d' : unchanged d d' -> holds es d -> holds es d'.
Proof.
  intros [Hr Hf] [Hu Hw Hrec Honly]. unfold flags in Hf. split; [congruence | done | |]; by rewrite Hr.
Qed.

Lemma holds_fresh es d n :
  holds es d -> N.of_nat (length es) <= n -> nodes d !! record_name n = None.
Proof.
  intros Hh Hn. rewrite <- records_lookup by apply record_name_json.
  destruct (records d !! record_name n) eqn:E; [| done].
  destruct (holds_only _ _ Hh _ _ E) as (e & He & ->%record_name_inj).
  apply indexed_elem in He; [| apply Hh]. apply lookup_lt_Some in He. lia.
Qed.

Lemma holds_published es d d' e e' t :
  holds es d -> last es = Some e -> validate_entry e' = Ok tt -> validate_pair e e' = Ok tt ->
  JournalEntry.sequence e' = N.of_nat (length es) -> text_of e' t ->
  published (JournalEntry.sequence e') t d d' -> holds (es ++ [e']) d'.
Proof.
  intros Hh Hl He' Hp Hs Ht [Hr Hf].
  assert (Hfresh : records d !! record_name (JournalEntry.sequence e') = None).
  { rewrite records_lookup by apply record_name_json. apply (holds_fresh es); [done | lia]. }
  destruct Hh as [Hu Hw Hrec Honly]. unfold flags in Hf. split; [congruence | | |].
  - by apply (journal_wf_snoc _ e).
  - intros x [Hx| ->%list_elem_of_singleton]%elem_of_app; rewrite Hr.
    + destruct (Hrec x Hx) as (t' & Ht' & Hl'). exists t'. split; [done |].
      rewrite lookup_insert_ne; [done |]. congruence.
    + exists t. by rewrite lookup_insert_eq.
  - intros name n. rewrite Hr, lookup_insert_Some. intros [[<- _]|[_ Hn]].
    + exists e'. split; [set_solver | done].
    + destruct (Honly _ _ Hn) as (x & Hx & ->). exists x. split; [set_solver | done].
Qed.

(** ** Reading *)

Lemma elem_of_Forall2_l {A B} (R : A -> B -> Prop) l k x :
  Forall2 R l k -> x ∈ l -> exists y, y ∈ k /\ R x y.
Proof.
  intros Hf [i Hi]%list_elem_of_lookup. destruct (Forall2_lookup_l _ _ _ _ _ Hf Hi) as (y & Hy & ?).
  exists y. split; [by eapply list_elem_of_lookup_2 | done].
Qed.

Lemma elem_of_Forall2_r {A B} (R : A -> B -> Prop) l k y :
  Forall2 R l k -> y ∈ k -> exists x, x ∈ l /\ R x y.
Proof.
  intros Hf [i Hi]%list_elem_of_lookup. destruct (Forall2_lookup_r _ _ _ _ _ Hf Hi) as (x & Hx & ?).
  exists x. split; [by eapply list_elem_of_lookup_2 | done].
Qed.

Definition record_of (d : directory) (name : string) (e : JournalEntry.t) : Prop :=
  name = record_name (JournalEntry.sequence e) /\ validate_entry e = Ok tt /\
  exists t, text_of e t /\ nodes d !! name = Some (File t true).

(** The loop after the files [names]. *)
Definition loaded (d : directory) (names : list string) (st : list JournalEntry.t * list N) : Prop :=
  Forall2 (record_of d) names st.1 /\
  forall n, n ∈ st.2 <-> n ∈ JournalEntry.sequence <$> st.1.

Definition json_names (d : directory) : list string :=
  base.filter (fun name => ends_with ".json" name = true) (sort (map_to_list (nodes d)).*1).

Lemma elem_of_json_names d name : name ∈ json_names d <-> is_Some (records d !! name).
Proof.
  unfold json_names. rewrite list_elem_of_filter. split.
  - intros [Hj Hn]. apply (proj1 (elem_of_sort _ _)) in Hn.
    apply list_elem_of_fmap in Hn as ([k n] & -> & Hn%elem_of_map_to_list).
    rewrite records_lookup by done. by exists n.
  - intros [n Hn]. destruct (ends_with ".json" name) eqn:E.
    + rewrite records_lookup in Hn by done. split; [done |]. apply (proj2 (elem_of_sort _ _)).
      apply list_elem_of_fmap. exists (name, n). split; [done |]. by apply elem_of_map_to_list.
    + by rewrite records_lookup_other in Hn.
Qed.

Lemma NoDup_json_names d : NoDup (json_names d).
Proof.
  apply NoDup_filter. rewrite sort_by_perm. apply NoDup_fst_map_to_list.
Qed.

Lemma loaded_snoc d names st name e :
  loaded d names st -> record_of d name e ->
  loaded d (names ++ [name]) (st.1 ++ [e], bset_insert (JournalEntry.sequence e) st.2).
Proof.
  intros [Hf Hs] He. split; simpl.
  - apply Forall2_app; [done | by constructor].
  - intros n. rewrite elem_of_bset_insert, Hs, fmap_app, elem_of_app. simpl. rewrite list_elem_of_singleton. tauto.
Qed.

Lemma load_record_triple d0 names name st :
  loaded d0 names st ->
  triple (eq d0) (load_record st name) (fun st' d => loaded d0 (names ++ [name]) st' /\ d0 = d)
    (eq d0).
Proof.
  intros Hl. unfold load_record.
  eapply triple_seq; [apply read_bounded_triple |]. intros bs [Hn Hlen].
  eapply triple_seq; [by apply triple_lift |]. intros e Hdec.
  eapply triple_seq; [by apply triple_lift |]. intros canonical Hc.
  eapply triple_seq; [by apply triple_raise_if |]. intros [] ->%negb_false_iff%bool_decide_eq_true.
  eapply triple_seq; [by apply triple_lift |]. intros [] Hv.
  eapply triple_seq; [by apply triple_raise_if |].
  intros [] [Hname%negb_false_iff%bool_decide_eq_true _]%orb_false_iff.
  apply triple_done. intros d <-. split; [| done]. apply loaded_snoc; [done |].
  split; [done |]. split; [done |]. by exists bs.
Qed.

Lemma sort_by_sequence_perm l : sort_by by_sequence l ≡ₚ l.
Proof. apply sort_by_perm. Qed.

Lemma loaded_holds d st es :
  non_utf8 d = false -> loaded d (json_names d) st -> es = sort_by by_sequence st.1 ->
  es <> [] -> indexed 0 es = true -> validate_pairs es = Ok tt -> holds es d.
Proof.
  intros Hu [Hf _] Hes Hne Hi Hp.
  assert (Hin : forall e, e ∈ es <-> e ∈ st.1) by (intros e; by rewrite Hes, sort_by_sequence_perm).
  assert (Hrec : forall e, e ∈ es -> exists name, name ∈ json_names d /\ record_of d name e).
  { intros e He%Hin. destruct (elem_of_Forall2_r _ _ _ _ Hf He) as (name & ? & ?). eauto. }
  split; [done | split; try done | |].
  - intros e He. by destruct (Hrec e He) as (? & _ & _ & ? & _).
  - intros e He. destruct (Hrec e He) as (? & _ & -> & _ & t & Ht & Hn). exists t.
    split; [done |]. by rewrite records_lookup by apply record_name_json.
  - intros name n Hn. assert (Hj : name ∈ json_names d) by (apply elem_of_json_names; by exists n).
    destruct (elem_of_Forall2_l _ _ _ _ Hf Hj) as (e & He & ? & _). exists e. by rewrite Hin.
Qed.

Lemma load_entries_triple d0 :
  triple (eq d0) load_entries (fun es d => holds es d0 /\ d0 = d) (eq d0).
Proof.
  unfold load_entries. eapply triple_seq; [apply child_names_triple |].
  intros names [Hu ->]. fold (json_names d0).
  apply (triple_bind _ _ _ (fun st d => loaded d0 (json_names d0) st /\ d0 = d)).
  - eapply triple_conseq;
      [apply (triple_fold load_record (fun names st d => loaded d0 names st /\ d0 = d) (eq d0))
        with (seen := []) (rest := json_names d0) | | done | done].
    + by intros ?? d [_ <-].
    + intros seen' x rest' st _ w [Hl Hw]. revert w Hw. by apply load_record_triple.
    + intros d <-. split; [| done]. by split; [constructor |].
  - intros st. intros w [Hl Hw]. revert w Hw.
    change (triple (eq d0) (_ ← raise_if (bool_decide (sort_by by_sequence st.1 = [])
        || negb (indexed 0 (sort_by by_sequence st.1)))
        (StateError.Corrupt "torn or missing journal sequence");
      _ ← lift (validate_pairs (sort_by by_sequence st.1));
      mret (sort_by by_sequence st.1)) (fun es d => holds es d0 /\ d0 = d) (eq d0)).
    eapply triple_seq; [by apply triple_raise_if |].
    intros [] [Hne%bool_decide_eq_false Hi%negb_false_iff]%orb_false_iff.
    eapply triple_seq; [by apply triple_lift |]. intros [] Hp.
    apply triple_done. intros d <-. split; [| done]. by eapply loaded_holds.
Qed.

Lemma load_record_run es d names st name :
  holds es d -> loaded d names st -> name ∈ json_names d -> name ∉ names ->
  exists e, e ∈ es /\ record_of d name e /\
    load_record st name (quiet d) =
      (quiet d, Value (st.1 ++ [e], bset_insert (JournalEntry.sequence e) st.2)).
Proof.
  intros Hh [Hf Hs] [n Hn]%elem_of_json_names Hfresh.
  destruct (holds_only _ _ Hh _ _ Hn) as (e & He & ->).
  destruct (holds_record _ _ Hh e He) as (t & (Hc & Hd & Hlen) & Ht).
  rewrite records_lookup in Ht by apply record_name_json.
  assert (Hv : validate_entry e = Ok tt) by (by apply (holds_wf _ _ Hh)).
  exists e. split; [done |]. split; [split; [done |]; split; [done |]; by exists t |].
  assert (Hseq : bset_contains (JournalEntry.sequence e) st.2 = false).
  { apply bset_contains_false. intros [e' [E He']]%Hs%list_elem_of_fmap.
    destruct (elem_of_Forall2_r _ _ _ _ Hf He') as (name & Hname & -> & _). by rewrite E in Hfresh. }
  eapply run_bind; [by apply read_bounded_run |].
  eapply run_bind; [by rewrite Hd |].
  eapply run_bind; [by rewrite Hc |].
  eapply run_bind; [by rewrite bool_decide_eq_true_2 |].
  eapply run_bind; [by rewrite Hv |].
  eapply run_bind; [by rewrite bool_decide_eq_true_2, Hseq | done].
Qed.

Lemma load_records_run es d : holds es d -> forall rest names st,
  json_names d = names ++ rest -> loaded d names st -> (forall e, e ∈ st.1 -> e ∈ es) ->
  exists st', fold_io load_record st rest (quiet d) = (quiet d, Value st') /\
    loaded d (json_names d) st' /\ (forall e, e ∈ st'.1 -> e ∈ es).
Proof.
  intros Hh. induction rest as [|name rest IH]; intros names st E Hl Hin.
  { rewrite app_nil_r in E. rewrite E. by exists st. }
  pose proof (NoDup_json_names d) as Hnd. rewrite E in Hnd.
  apply NoDup_app in Hnd as (_ & Hnd & _).
  destruct (load_record_run es d names st name) as (e & He & Hrec & Hrun); [done.. | | |].
  { rewrite E. set_solver. }
  { intros Hname. by apply (Hnd name Hname), list_elem_of_here. }
  destruct (IH (names ++ [name]) (st.1 ++ [e], bset_insert (JournalEntry.sequence e) st.2))
    as (st' & Hrun' & ?).
  { by rewrite E, <- app_assoc. }
  { by apply loaded_snoc. }
  { simpl. intros x [?| ->%list_elem_of_singleton]%elem_of_app; auto. }
  exists st'. split; [| done]. eapply run_bind; [exact Hrun | exact Hrun'].
Qed.

Lemma indexed_NoDup es : indexed 0 es = true -> NoDup es.
Proof.
  intros Hi. rewrite indexed_spec in Hi. apply NoDup_alt. intros i j x Hx Hy.
  pose proof (Hi i x Hx). pose proof (Hi j x Hy). lia.
Qed.

Lemma indexed_sorted es i :
  indexed i es = true -> StronglySorted (fun a b => by_sequence a b <> Gt) es.
Proof.
  revert i. induction es as [|e es IH]; intros i; [constructor |]. simpl.
  intros [He%N.eqb_eq Hes]%andb_true_iff. constructor; [by apply (IH (i + 1)) |].
  apply Forall_forall. intros x [k Hk]%list_elem_of_lookup.
  rewrite indexed_spec in Hes. pose proof (Hes k x Hk). unfold by_sequence.
  rewrite N.compare_gt_iff. lia.
Qed.

Lemma loaded_sorted es d st :
  holds es d -> loaded d (json_names d) st -> (forall e, e ∈ st.1 -> e ∈ es) ->
  sort_by by_sequence st.1 = es.
Proof.
  intros Hh [Hf _] Hin. pose proof (wf_indexed _ (holds_wf _ _ Hh)) as Hi.
  assert (Hnames : json_names d = (fun e => record_name (JournalEntry.sequence e)) <$> st.1).
  { clear -Hf. induction Hf as [|name e names es (-> & _) _ IH]; [done |]. simpl. by rewrite IH. }
  assert (Hperm : st.1 ≡ₚ es).
  { apply NoDup_Permutation; [| by apply indexed_NoDup |].
    - apply (NoDup_fmap_1 (fun e => record_name (JournalEntry.sequence e))). rewrite <- Hnames.
      apply NoDup_json_names.
    - intros e. split; [apply Hin |]. intros He.
      destruct (holds_record _ _ Hh e He) as (t & _ & Ht).
      assert (Hj : record_name (JournalEntry.sequence e) ∈ json_names d)
        by (apply elem_of_json_names; by eexists).
      rewrite Hnames in Hj. apply list_elem_of_fmap in Hj as (e' & E%record_name_inj & He').
      pose proof (indexed_elem es e Hi He) as H1.
      pose proof (indexed_elem es e' Hi (Hin e' He')) as H2. congruence. }
  apply (StronglySorted_unique_strong (fun a b => by_sequence a b <> Gt)).
  - intros x y Hx Hy H1 H2. unfold by_sequence in *. rewrite N.compare_gt_iff in *.
    assert (E : JournalEntry.sequence x = JournalEntry.sequence y) by lia.
    rewrite sort_by_sequence_perm in Hx.
    pose proof (indexed_elem es x Hi (Hin x Hx)) as H3.
    pose proof (indexed_elem es y Hi Hy) as H4. congruence.
  - apply sort_by_sorted, (cp_on JournalEntry.sequence), cp_N.
  - by apply (indexed_sorted es 0).
  - by rewrite sort_by_sequence_perm.
Qed.

(** Reading a directory without a failure gives the list it holds. *)
Lemma load_entries_run es d :
  holds es d -> load_entries (quiet d) = (quiet d, Value es).
Proof.
  intros Hh. destruct (load_records_run es d Hh (json_names d) [] ([], [])) as (st & Hrun & Hl & Hin);
    [done | by split; [constructor |] | by intros ? ?%elem_of_nil |].
  pose proof (loaded_sorted es d st Hh Hl Hin) as Hs. destruct (holds_wf _ _ Hh) as [Hne Hi _ Hp].
  eapply run_bind; [apply run_sys; by rewrite (holds_utf8 _ _ Hh) |].
  eapply run_bind; [exact Hrun |]. rewrite Hs.
  eapply run_bind; [by rewrite bool_decide_eq_false_2, Hi |].
  eapply run_bind; [by rewrite Hp | done].
Qed.

Lemma load_entries_iff es d :
  load_entries (quiet d) = (quiet d, Value es) <-> holds es d.
Proof.
  split; [| apply load_entries_run]. intros E.
  pose proof (load_entries_triple d (quiet d) eq_refl) as Ht. rewrite E in Ht. by destruct Ht.
Qed.
End holds.

(** ** Texts *)

(** The texts of an entry that nothing validates: the problems RPM reports and the digest of
    a reconciliation. *)
Definition problems_fit (problems : list string) : bool := forallb Json.text_fits problems.

Definition payload_fits (native : option NativeResult.t) (reconciliation : option ReconcileResult.t) : Prop :=
  (forall r, native = Some r -> problems_fit (NativeResult.problems r) = true) /\
  (forall r, reconciliation = Some r -> Json.text_fits (ReconcileResult.inventory_sha256 r) = true).

Definition entry_fits (e : JournalEntry.t) : Prop :=
  payload_fits (JournalEntry.native_result e) (JournalEntry.reconciliation e).

Lemma digest_fits d : validate_digest d = Ok tt -> Json.text_fits d = true.
Proof.
  unfold validate_digest. rewrite reject_if_ok, negb_false_iff, andb_true_iff, N.eqb_eq.
  intros [Hl _]. apply short_text_fits. rewrite Hl. vm_compute. discriminate.
Qed.

Lemma transaction_id_fits s id : TransactionId.parse s = Ok id -> Json.text_fits s = true.
Proof.
  unfold TransactionId.parse. intros E. apply short_text_fits. unfold str_len.
  destruct (Nat.eqb (length (bytes s)) 36) eqn:El; [| done].
  apply Nat.eqb_eq in El. rewrite El. vm_compute. discriminate.
Qed.

Lemma summary_bounded s : tree_within 1 (CallbackSummary.tree s).
Proof. apply (bounded_struct 0). bounded_fields. Qed.

Lemma native_bounded r : problems_fit (NativeResult.problems r) = true -> tree_within 2 (NativeResult.tree r).
Proof.
  intros Hp. apply (bounded_struct 1). bounded_fields; [apply summary_bounded |].
  apply (bounded_array 0), Forall_fmap, Forall_forall. intros p Hin. apply bounded_leaf; [| done].
  unfold problems_fit in Hp. rewrite forallb_forall in Hp. by apply Hp, list_elem_of_In.
Qed.

Lemma reconcile_bounded r :
  Json.text_fits (ReconcileResult.inventory_sha256 r) = true -> tree_within 1 (ReconcileResult.tree r).
Proof. intros Hr. apply (bounded_struct 0). bounded_fields. Qed.

(** The tree of a valid entry is within the limits of the scanner. *)
Lemma entry_bounded e :
  validate_entry e = Ok tt -> entry_fits e -> tree_within 3 (JournalEntry.tree e).
Proof.
  intros Hv [Hn Hr]. unfold validate_entry in Hv. result_inv.
  apply (bounded_struct 2). bounded_fields.
  - apply bounded_leaf; [by eapply transaction_id_fits | done].
  - apply bounded_leaf; [by eapply digest_fits | done].
  - apply bounded_leaf; [by destruct (JournalEntry.state e) | by destruct (JournalEntry.state e)].
  - apply bounded_optional; [done |]. intros r Er. by apply native_bounded, Hn.
  - apply bounded_optional; [done |]. intros r Er. apply (bounded_le 1); [lia |].
    by apply reconcile_bounded, Hr.
Qed.

(** ** Writing *)

Section growth.
Context `{SerdeJson JournalEntry.t} `{!SerdeJsonLaws JournalEntry.t (fun _ => True)}.
Context `{ErrnoText} (pid : N).

(** The text of an entry, if it is short enough to be published, passes the inspection every
    reader performs. *)
Definition readable (e : JournalEntry.t) : Prop :=
  forall t, canonical_bytes e = Ok t -> N.of_nat (length t) <= MAX_RECORD_BYTES -> inspect t = Ok tt.

(** A valid entry whose unvalidated texts are short enough is readable: what is written of it
    passes the scanner of every reader. *)
Lemma fits_readable `{!JsonText JournalEntry.t JournalEntry.tree} e :
  validate_entry e = Ok tt -> entry_fits e -> readable e.
Proof.
  intros Hv Hf t Ht%map_err_ok%map_err_ok Hl. rewrite (to_vec_print e t Ht) in *.
  apply inspect_bounded.
  - apply (bounded_le 3); [vm_compute; discriminate | by apply entry_bounded].
  - etrans; [exact Hl | vm_compute; discriminate].
Qed.

Lemma readable_text e t :
  readable e -> canonical_bytes e = Ok t -> N.of_nat (length t) <= MAX_RECORD_BYTES -> text_of e t.
Proof.
  intros Hr Hc Hl. split; [done |]. split; [| done]. apply map_err_ok.
  apply (serialize_parse (fun _ => True)); [done | | by apply Hr]. by apply map_err_ok in Hc.
Qed.

(** The entry a transition writes after [es]. *)
Definition next_entry (es : list JournalEntry.t) (next : JournalState.t)
    (native : option NativeResult.t) (reconciliation : option ReconcileResult.t) :
    option JournalEntry.t :=
  (fun e => JournalEntry.mk 1 (JournalEntry.transaction_id e) (JournalEntry.plan_sha256 e)
    (JournalEntry.sequence e + 1) next native reconciliation) <$> last es.

Definition may_follow (es : list JournalEntry.t) (next : JournalState.t) : Prop :=
  exists e, last es = Some e /\ legal (JournalEntry.state e) next = true.

Definition grown (es : list JournalEntry.t) next native reconciliation (d : directory) : Prop :=
  exists e, next_entry es next native reconciliation = Some e /\ may_follow es next /\
    holds (es ++ [e]) d.

Lemma holds_functional es es' d : holds es d -> holds es' d -> es' = es.
Proof.
  intros H1%load_entries_run H2%load_entries_run. rewrite H1 in H2. congruence.
Qed.

Lemma load_held_triple es d0 (R : directory -> Prop) :
  holds es d0 -> R d0 ->
  triple (eq d0) load_entries (fun es' d => es' = es /\ d0 = d) R.
Proof.
  intros Hh HR. eapply triple_conseq; [apply load_entries_triple | done | | by intros d <-].
  intros es' d [Hh' <-]. split; [| done]. by apply (holds_functional _ _ d0).
Qed.

Lemma holds_last es d : holds es d -> exists e, last es = Some e.
Proof.
  intros Hh. pose proof (wf_nonempty _ (holds_wf _ _ Hh)) as Hne.
  destruct (last es) as [e|] eqn:E; [eauto |]. by apply last_None in E.
Qed.

Lemma next_entry_pair es d e next native reconciliation :
  holds es d -> last es = Some e -> legal (JournalEntry.state e) next = true ->
  let e' := JournalEntry.mk 1 (JournalEntry.transaction_id e) (JournalEntry.plan_sha256 e)
    (JournalEntry.sequence e + 1) next native reconciliation in
  next_entry es next native reconciliation = Some e' /\ may_follow es next /\
  validate_pair e e' = Ok tt /\ JournalEntry.sequence e' = N.of_nat (length es).
Proof.
  intros Hh Hl Hlegal e'. split; [unfold next_entry; by rewrite Hl |]. split; [by exists e |].
  split; [apply validate_pair_ok; split; [done | by apply legal_rank] |].
  apply last_sequence; [apply Hh | done].
Qed.

Lemma transition_triple es d0 next native reconciliation :
  holds es d0 -> (forall e, next_entry es next native reconciliation = Some e -> validate_entry e = Ok tt ->
     readable e) ->
  triple (eq d0) (transition pid next native reconciliation)
    (fun _ => grown es next native reconciliation)
    (fun d => holds es d \/ grown es next native reconciliation d).
Proof.
  intros Hh Hread. set (R := fun d => holds es d \/ grown es next native reconciliation d).
  assert (HR0 : forall d, d0 = d -> R d) by (intros d <-; by left).
  destruct (holds_last es d0 Hh) as [e Hl].
  unfold transition. eapply triple_seq; [by apply load_held_triple, HR0 |]. intros es' ->.
  eapply triple_seq; [by apply triple_lift |]. rewrite Hl. intros ? [= <-].
  eapply triple_seq; [by apply triple_raise_if |]. intros [] Hlegal%negb_false_iff.
  eapply triple_seq; [by apply triple_lift |]. intros sequence Hseq.
  assert (sequence = JournalEntry.sequence e + 1) as ->.
  { unfold u64_checked_add in Hseq. destruct (_ <=? _); by simplify_eq/=. }
  destruct (next_entry_pair es d0 e next native reconciliation Hh Hl Hlegal) as (Hn & Hm & Hp & Hs).
  set (e' := JournalEntry.mk _ _ _ _ _ _ _) in *.
  unfold publish. eapply triple_seq; [by apply triple_lift |]. intros [] Hv.
  eapply triple_seq; [by apply triple_lift |]. intros t Ht.
  eapply triple_seq; [by apply triple_raise_if |]. intros [] Hlen%N.ltb_ge.
  assert (Hgrown : forall d, published (JournalEntry.sequence e') t d0 d ->
    grown es next native reconciliation d).
  { intros d Hd. exists e'. split; [done |]. split; [done |].
    eapply holds_published; [done.. | | done]. by apply readable_text; [apply Hread | |]. }
  eapply triple_conseq; [apply write_record_triple | done | by intros [] | ].
  - apply (holds_fresh es); [done | lia].
  - intros d [Hd|Hd]; [left; by apply (holds_unchanged _ d0) | right; by apply Hgrown].
Qed.

(** Without a failure a legal transition succeeds. *)
Lemma transition_run es d e t next native reconciliation :
  holds es d -> last es = Some e -> legal (JournalEntry.state e) next = true ->
  let e' := JournalEntry.mk 1 (JournalEntry.transaction_id e) (JournalEntry.plan_sha256 e)
    (JournalEntry.sequence e + 1) next native reconciliation in
  validate_entry e' = Ok tt -> canonical_bytes e' = Ok t ->
  N.of_nat (length t) <= MAX_RECORD_BYTES ->
  nodes d !! temporary_name (JournalEntry.sequence e') pid = None ->
  exists d', transition pid next native reconciliation (quiet d) = (quiet d', Value tt) /\
    nodes d' = <[record_name (JournalEntry.sequence e') := File t true]> (nodes d) /\
    flags d' = flags d.
Proof.
  intros Hh Hl Hlegal e' Hv Ht Hlen Htmp.
  destruct (next_entry_pair es d e next native reconciliation Hh Hl Hlegal) as (_ & _ & _ & Hs).
  destruct (write_record_runs pid (JournalEntry.sequence e') t d) with (d := d)
    as ([] & d' & Hrun & Hn & Hf); [apply (holds_fresh es); [done | fold e' in Hs; rewrite Hs; lia] | done | done |].
  exists d'. split; [| done]. unfold transition.
  eapply run_bind; [by apply load_entries_run |]. rewrite Hl.
  eapply run_bind; [done |].
  eapply run_bind; [by rewrite Hlegal |].
  eapply (run_bind _ _ _ (quiet d) (JournalEntry.sequence e + 1)).
  { unfold u64_checked_add. destruct (_ <=? _) eqn:E; [done |]. exfalso.
    apply N.leb_gt in E. pose proof (holds_wf _ _ Hh) as Hw. destruct es as [|e0 es]; [done |].
    pose proof (journal_wf_length _ _ Hw). simpl in *.
    assert (JournalEntry.sequence e + 1 <= 4) by lia. unfold u64_max in E. lia. }
  fold e'. unfold publish. eapply run_bind; [by rewrite Hv |].
  eapply run_bind; [by rewrite Ht |].
  eapply run_bind; [| exact Hrun]. unfold raise_if. by rewrite (proj2 (N.ltb_ge _ _) Hlen).
Qed.
End growth.
