(* ===== verification/EventLog.v ===== *)
(** * The bounded event log ([dnfast-state]: log.rs)

    One file beside the records of a transaction.  It never passes 64 MiB; what does not fit
    is cut and a marker takes the last bytes. *)
From S2P Require Import Prelude.
From S2P Require Import RustStr.
From S2P Require Import Effects.
From S2P Require Import StateFs.
From S2P Require Import Journal.

#[local] Open Scope N_scope.

Definition MARKER : list byte :=
  Ascii.ascii_of_N 10 :: bytes "[dnfast: log truncated at 67108864 bytes]" ++ [Ascii.ascii_of_N 10].

Module LogAppend.
Inductive t : Type := Written | Truncated.
End LogAppend.

Definition LOG_FILE : string := "events.log".

Section log.
Context `{ErrnoText}.

(** [openat] with [O_CREAT | O_RDWR | O_NOFOLLOW]. *)
Definition open_log : io directory node := sys (fun d =>
  match nodes d !! LOG_FILE with
  | None => Ok (with_nodes (<[LOG_FILE := File [] true]>) d, File [] true)
  | Some Link => Err (StateError.Io eloop)
  | Some Subdir => Err (StateError.Io eisdir)
  | Some n => Ok (d, n)
  end).

(** The bytes of a file after [bs] is written at [offset]; a hole reads as zeros. *)
Definition write_at (offset : N) (bs content : list byte) : list byte :=
  let o := N.to_nat offset in
  take o content ++ replicate (o - length content) (Ascii.ascii_of_N 0) ++ bs
    ++ drop (o + length bs) content.

Definition on_log (f : list byte -> list byte) (d : directory) : directory :=
  match nodes d !! LOG_FILE with
  | Some (File content private) => with_nodes (<[LOG_FILE := File (f content) private]>) d
  | _ => d
  end.

Definition write_log (offset : N) (bs : list byte) : io directory unit :=
  write_call (length bs) (fun n => on_log (write_at offset (take n bs))).

(** [set_len] to a smaller length. *)
Definition shrink_log (len : N) : io directory unit :=
  sys (fun d => Ok (on_log (take (N.to_nat len)) d, tt)).

Definition marked (content : list byte) : bool :=
  bool_decide (drop (length content - length MARKER) content = MARKER).

Definition write_truncated (current : N) (bs : list byte) : io directory LogAppend.t :=
  let payload_end := MAX_LOG_BYTES - N.of_nat (length MARKER) in
  _ ← (if payload_end <? current then shrink_log payload_end else mret tt);
  _ ← sync;
  let at_ := N.min current payload_end in
  _ ← write_log at_ (take (Nat.min (N.to_nat (payload_end - at_)) (length bs)) bs);
  _ ← sync;
  _ ← write_log payload_end MARKER;
  _ ← sync;
  _ ← sync;
  mret LogAppend.Truncated.

Definition append (bs : list byte) : io directory LogAppend.t :=
  n ← open_log;
  _ ← verify_file n;
  _ ← sync;
  let content := file_content n in
  let current := N.of_nat (length content) in
  _ ← raise_if (MAX_LOG_BYTES <? current) (StateError.Corrupt "event log exceeds limit");
  full ← (if current =? MAX_LOG_BYTES then _ ← sync; _ ← sync; mret (marked content)
          else mret false);
  if (full : bool) then mret LogAppend.Truncated
  else
    _ ← sync;
    if N.of_nat (length bs) <=? MAX_LOG_BYTES - current then
      _ ← write_log current bs;
      _ ← sync;
      _ ← sync;
      mret LogAppend.Written
    else write_truncated current bs.

(** ** Bounds *)

(** The directory [d0] with the log [c]. *)
Definition with_log (d0 : directory) (c : list byte) : directory :=
  with_nodes (<[LOG_FILE := File c true]>) d0.

Definition bounded (d0 d : directory) : Prop :=
  d = d0 \/ exists c, d = with_log d0 c /\ N.of_nat (length c) <= MAX_LOG_BYTES.

Lemma on_log_with_log f d0 c : on_log f (with_log d0 c) = with_log d0 (f c).
Proof.
  unfold on_log, with_log. simpl. rewrite lookup_insert_eq. unfold with_nodes. simpl.
  by rewrite insert_insert_eq.
Qed.

Lemma write_at_end c bs : write_at (N.of_nat (length c)) bs c = c ++ bs.
Proof.
  unfold write_at. rewrite Nat2N.id, Nat.sub_diag, firstn_all, drop_ge by lia. simpl.
  by rewrite app_nil_r.
Qed.

(** The bytes before the marker, as a [nat] that is never computed. *)
Lemma payload_exists : { p : nat | N.of_nat p + N.of_nat (length MARKER) = MAX_LOG_BYTES }.
Proof.
  exists (N.to_nat (MAX_LOG_BYTES - N.of_nat (length MARKER))). rewrite N2Nat.id.
  apply N.sub_add. vm_compute. discriminate.
Qed.

Definition payload : nat := proj1_sig payload_exists.

Lemma payload_bound :
  N.of_nat payload + N.of_nat (length MARKER) = MAX_LOG_BYTES /\
  MAX_LOG_BYTES - N.of_nat (length MARKER) = N.of_nat payload.
Proof. pose proof (proj2_sig payload_exists) as E. fold payload in E. cbv beta in E.
  split; [exact E | lia]. Qed.

(** The log once it is cut. *)
Definition cut (c bs : list byte) : list byte := take payload (c ++ bs) ++ MARKER.

Lemma length_cut c bs :
  (payload <= length (c ++ bs))%nat -> N.of_nat (length (cut c bs)) = MAX_LOG_BYTES.
Proof.
  intros Hl. unfold cut. rewrite length_app, length_take, Nat.min_l by done.
  rewrite Nat2N.inj_add. exact (proj1 payload_bound).
Qed.

Lemma write_log_triple d0 c bs Q (R : directory -> Prop) :
  (forall k, (k <= length bs)%nat -> R (with_log d0 (c ++ take k bs))) ->
  Q (with_log d0 (c ++ bs)) ->
  triple (eq (with_log d0 c)) (write_log (N.of_nat (length c)) bs) (fun _ => Q) R.
Proof.
  intros HR HQ. apply triple_write.
  - intros d n <- Hn. rewrite on_log_with_log, write_at_end. by apply HR.
  - intros d <-. by rewrite on_log_with_log, write_at_end, firstn_all.
Qed.

(** The end of a log whose new content does not fit. *)
Lemma cut_triple d0 c bs :
  N.of_nat (length c) <= MAX_LOG_BYTES ->
  MAX_LOG_BYTES < N.of_nat (length c) + N.of_nat (length bs) ->
  triple (eq (with_log d0 c)) (write_truncated (N.of_nat (length c)) bs)
    (fun a d => a = LogAppend.Truncated /\ d = with_log d0 (cut c bs)) (bounded d0).
Proof.
  intros Hc Hbs. destruct payload_bound as [Hp Hp'].
  assert (HR : forall c', N.of_nat (length c') <= MAX_LOG_BYTES -> bounded d0 (with_log d0 c'))
    by (intros c' Hc'; right; by exists c').
  set (c1 := take payload c).
  assert (Hc1 : N.of_nat (length c1) = N.min (N.of_nat (length c)) (N.of_nat payload)).
  { unfold c1. rewrite length_take. lia. }
  set (k := Nat.min (N.to_nat (N.of_nat payload - N.of_nat (length c1))) (length bs)).
  assert (Hcut : c1 ++ take k bs = take payload (c ++ bs)).
  { rewrite take_app. fold c1. f_equal.
    assert (k = Nat.min (payload - length c) (length bs)) as -> by (unfold k; lia).
    by rewrite <- take_take, firstn_all. }
  assert (Hlen : length (take payload (c ++ bs)) = payload)
    by (rewrite length_take, length_app; lia).
  unfold write_truncated. rewrite Hp'.
  apply (triple_bind _ _ _ (fun _ => eq (with_log d0 c1))).
  { destruct (N.ltb_spec (N.of_nat payload) (N.of_nat (length c))) as [Hlt|Hge].
    - apply triple_sys; [intros d <-; by apply HR |]. intros d d' [] <- E.
      rewrite on_log_with_log in E. injection E as <-. by rewrite Nat2N.id.
    - apply triple_done. intros d <-. unfold c1. by rewrite take_ge by lia. }
  intros []. eapply triple_bind; [apply triple_sync; intros d <-; apply HR; lia |]. intros [].
  rewrite <- Hc1. fold k.
  apply (triple_bind _ _ _ (fun _ => eq (with_log d0 (take payload (c ++ bs))))).
  { apply write_log_triple; [| by rewrite Hcut].
    intros j _. apply HR. rewrite length_app, length_take, length_take. lia. }
  intros []. eapply triple_bind; [apply triple_sync; intros d <-; apply HR; lia |]. intros [].
  apply (triple_bind _ _ _ (fun _ => eq (with_log d0 (cut c bs)))).
  { pose proof (write_log_triple d0 (take payload (c ++ bs)) MARKER
      (eq (with_log d0 (cut c bs))) (bounded d0)) as Hw.
    rewrite Hlen in Hw. apply Hw; [| done].
    intros j Hj. apply HR. rewrite length_app, Hlen, length_take. lia. }
  assert (HRcut : bounded d0 (with_log d0 (cut c bs)))
    by (apply HR; rewrite length_cut; [done | rewrite length_app; lia]).
  intros []. eapply triple_bind; [apply triple_sync; by intros d <- |]. intros [].
  eapply triple_bind; [apply triple_sync; by intros d <- |]. intros [].
  apply triple_done. by intros d <-.
Qed.

(** The content of the log of a directory. *)
Definition log_content (d : directory) : list byte :=
  match nodes d !! LOG_FILE with Some (File c _) => c | _ => [] end.

Lemma with_log_with_log d0 c c' : with_log (with_log d0 c) c' = with_log d0 c'.
Proof. unfold with_log, with_nodes. simpl. by rewrite insert_insert_eq. Qed.

Lemma with_log_id d0 c : nodes d0 !! LOG_FILE = Some (File c true) -> with_log d0 c = d0.
Proof.
  intros E. unfold with_log, with_nodes. rewrite insert_id by done. by destruct d0.
Qed.

Lemma length_write_truncated_fits (c bs : list byte) :
  (N.of_nat (length bs) <=? MAX_LOG_BYTES - N.of_nat (length c)) = false ->
  N.of_nat (length c) <= MAX_LOG_BYTES ->
  MAX_LOG_BYTES < N.of_nat (length c) + N.of_nat (length bs).
Proof. intros ?%N.leb_gt ?. lia. Qed.

(** A log that ends in the marker is already cut. *)
Lemma marked_cut c bs :
  N.of_nat (length c) = MAX_LOG_BYTES -> marked c = true -> c = cut c bs.
Proof.
  intros Hl Hm%bool_decide_eq_true. destruct payload_bound as [Hp _].
  assert (E : (length c - length MARKER)%nat = payload) by lia. rewrite E in Hm.
  unfold cut. rewrite take_app, (proj2 (Nat.sub_0_le payload (length c))) by lia.
  rewrite take_0, app_nil_r, <- Hm. symmetry. apply firstn_skipn.
Qed.

(** What an append that gives a value has made of the log [c]. *)
Definition appended (d0 : directory) (c bs : list byte) (a : LogAppend.t) (d : directory) : Prop :=
  match a with
  | LogAppend.Written => d = with_log d0 (c ++ bs) /\ N.of_nat (length (c ++ bs)) <= MAX_LOG_BYTES
  | LogAppend.Truncated =>
      d = with_log d0 (cut c bs) /\ N.of_nat (length (cut c bs)) = MAX_LOG_BYTES
  end.

Lemma append_to_triple d0 c bs :
  (d0 = with_log d0 c \/ c = []) ->
  triple (eq (with_log d0 c)) (_ ← sync;
    let current := N.of_nat (length c) in
    _ ← raise_if (MAX_LOG_BYTES <? current) (StateError.Corrupt "event log exceeds limit");
    full ← (if current =? MAX_LOG_BYTES then _ ← sync; _ ← sync; mret (marked c) else mret false);
    if (full : bool) then mret LogAppend.Truncated
    else
      _ ← sync;
      if N.of_nat (length bs) <=? MAX_LOG_BYTES - current then
        _ ← write_log current bs; _ ← sync; _ ← sync; mret LogAppend.Written
      else write_truncated current bs)
    (appended d0 c bs) (bounded d0).
Proof.
  intros Hd0. destruct payload_bound as [Hp _].
  assert (HR : forall c', N.of_nat (length c') <= MAX_LOG_BYTES -> bounded d0 (with_log d0 c'))
    by (intros c' Hc'; right; by exists c').
  assert (HR0 : forall d, with_log d0 c = d -> bounded d0 d).
  { intros d <-. destruct Hd0 as [Hd0| ->]; [by left | apply HR; simpl; lia]. }
  eapply triple_bind; [by apply triple_sync |]. intros [].
  eapply triple_seq; [by apply triple_raise_if |]. intros [] Hc%N.ltb_ge.
  apply (triple_seq _ _ _ (fun full => full = true ->
    N.of_nat (length c) = MAX_LOG_BYTES /\ marked c = true)).
  { destruct (N.eqb_spec (N.of_nat (length c)) MAX_LOG_BYTES).
    - eapply triple_bind; [by apply triple_sync |]. intros [].
      eapply triple_bind; [by apply triple_sync |]. intros []. by apply triple_done.
    - by apply triple_done. }
  intros [|] Hfull.
  { destruct (Hfull eq_refl) as [Hl Hm]. apply triple_done. intros d <-. split.
    - f_equal. by apply marked_cut.
    - by rewrite <- marked_cut. }
  eapply triple_bind; [by apply triple_sync |]. intros [].
  destruct (_ <=? _) eqn:Hfits.
  - apply N.leb_le in Hfits. assert (Hl : N.of_nat (length (c ++ bs)) <= MAX_LOG_BYTES)
      by (rewrite length_app; lia).
    apply (triple_bind _ _ _ (fun _ => eq (with_log d0 (c ++ bs)))).
    { apply write_log_triple; [| done]. intros k Hk. apply HR. rewrite length_app, length_take. lia. }
    intros []. eapply triple_bind; [apply triple_sync; intros d <-; by apply HR |]. intros [].
    eapply triple_bind; [apply triple_sync; intros d <-; by apply HR |]. intros [].
    apply triple_done. by intros d <-.
  - pose proof (length_write_truncated_fits _ _ Hfits Hc) as Hbig.
    eapply triple_conseq; [by apply cut_triple | done | | done].
    intros a d [-> ->]. split; [done |]. apply length_cut. rewrite length_app. lia.
Qed.

Lemma append_triple d0 bs :
  triple (eq d0) (append bs) (appended d0 (log_content d0) bs) (bounded d0).
Proof.
  assert (HR : forall d, d0 = d -> bounded d0 d) by (intros d <-; by left).
  unfold append. destruct (nodes d0 !! LOG_FILE) as [n|] eqn:El.
  - destruct n as [c [|]| |].
    + assert (Hid : with_log d0 c = d0) by (by apply with_log_id).
      assert (log_content d0 = c) as -> by (unfold log_content; by rewrite El).
      eapply (triple_seq _ _ _ (fun n => n = File c true)).
      { apply triple_sys; [done |]. intros d d' n <- E. rewrite El in E. by simplify_eq. }
      intros n ->. eapply triple_seq; [eapply triple_conseq; [apply verify_file_triple | done | | done];
        intros ?? Hd; exact Hd |]. intros [] _.
      rewrite <- Hid at 1. apply append_to_triple. by left.
    + eapply (triple_seq _ _ _ (fun n => n = File c false)).
      { apply triple_sys; [done |]. intros d d' n <- E. rewrite El in E. by simplify_eq. }
      intros n ->. eapply triple_bind; [by apply (triple_sys _ _ (fun _ _ => False)) |].
      by intros ? w [].
    + eapply triple_bind; [apply (triple_sys _ _ (fun _ _ => False)); [done |] | by intros ? w []].
      intros d d' n <- E. by rewrite El in E.
    + eapply triple_bind; [apply (triple_sys _ _ (fun _ _ => False)); [done |] | by intros ? w []].
      intros d d' n <- E. by rewrite El in E.
  - assert (log_content d0 = []) as -> by (unfold log_content; by rewrite El).
    assert (Hnew : forall d, with_log d0 [] = d -> bounded d0 d).
    { intros d <-. right. exists []. split; [done |]. simpl. destruct payload_bound. lia. }
    eapply (triple_bind _ _ _ (fun n d => n = File [] true /\ with_log d0 [] = d)).
    { apply triple_sys; [done |]. intros d d' n <- E. rewrite El in E. by simplify_eq. }
    intros n. eapply (triple_bind _ _ _ (fun _ d => n = File [] true /\ with_log d0 [] = d)).
    { apply triple_sys; [by intros d [_ ?]; apply Hnew |]. intros d d' [] [-> <-] E. by simplify_eq. }
    intros [] w [-> Hw]. revert w Hw. apply append_to_triple. by right.
Qed.

Lemma with_log_records d0 c : unchanged d0 (with_log d0 c).
Proof.
  apply with_nodes_unchanged; [reflexivity |]. intros name Hn. apply lookup_insert_ne. by intros <-.
Qed.

Lemma bounded_unchanged d0 d : bounded d0 d -> unchanged d0 d.
Proof. intros [->|(c & -> & _)]; [by split | apply with_log_records]. Qed.

Lemma appended_unchanged d0 c bs a d : appended d0 c bs a d -> unchanged d0 d.
Proof. destruct a; intros [-> _]; apply with_log_records. Qed.

(** The event log never passes 64 MiB through an append, whatever fails or wherever the
    process dies, and the records of the journal are untouched.  An append that reports
    [Written] has added exactly the bytes; one that reports [Truncated] leaves a log of
    exactly 64 MiB: the first bytes of the old log and the new ones, then the marker, with no
    gap; a log that was already cut stays as it is. *)
Theorem append_bounded (bs : list byte) (w w' : world directory) (r : exit LogAppend.t)
    (Hrun : append bs w = (w', r))
    (Hold : N.of_nat (length (log_content (fsys w))) <= MAX_LOG_BYTES) :
  let old := log_content (fsys w) in
  let new := log_content (fsys w') in
  N.of_nat (length new) <= MAX_LOG_BYTES /\ records (fsys w') = records (fsys w) /\
  match r with
  | Value LogAppend.Written => new = old ++ bs
  | Value LogAppend.Truncated =>
      N.of_nat (length new) = MAX_LOG_BYTES /\
      exists kept, kept `prefix_of` old ++ bs /\ new = kept ++ MARKER /\
        (N.of_nat (length old) = MAX_LOG_BYTES -> marked old = true -> new = old)
  | _ => True
  end.
Proof.
  intros old new. pose proof (append_triple (fsys w) bs w eq_refl) as Ht. rewrite Hrun in Ht.
  fold old in Ht. assert (Hlog : forall c, log_content (with_log (fsys w) c) = c).
  { intros c. unfold log_content, with_log. simpl. by rewrite lookup_insert_eq. }
  assert (Hrec : forall c, records (with_log (fsys w) c) = records (fsys w))
    by (intros c; apply with_log_records).
  assert (Hb : bounded (fsys w) (fsys w') -> N.of_nat (length new) <= MAX_LOG_BYTES /\
    records (fsys w') = records (fsys w)).
  { unfold new. intros [->|(c & -> & Hc)]; [done |]. by rewrite Hlog, Hrec. }
  destruct r as [[|]|e|]; [| | by destruct (Hb Ht)..].
  - destruct Ht as [Hd Hl]. unfold new. rewrite Hd, Hlog, Hrec. done.
  - destruct Ht as [Hd Hl]. unfold new. rewrite Hd, Hlog, Hrec.
    split; [by rewrite Hl |]. split; [done |]. split; [done |]. exists (take payload (old ++ bs)).
    split; [apply prefix_take |]. split; [done |]. intros ? ?. symmetry. by apply marked_cut.
Qed.
End log.

Section log_example.
Definition log_errno : ErrnoText := {|
  enoent := "ENOENT"; eexist := "EEXIST"; eloop := "ELOOP"; eisdir := "EISDIR";
  enotdir := "ENOTDIR"; enotempty := "ENOTEMPTY" |}.

Lemma append_bounded_witness :
  log_content (fsys (append (H := log_errno) (bytes "post scriptlet")
    (quiet (mk_dir (<[LOG_FILE := File (bytes "pre scriptlet ") true]> ∅) false true true))).1)
  = bytes "pre scriptlet post scriptlet".
Proof.
  set (w := quiet _).
  destruct (append (H := log_errno) (bytes "post scriptlet") w) as [w' r] eqn:E.
  assert (Hr : r = Value LogAppend.Written).
  { change r with (w', r).2. rewrite <- E. vm_compute. reflexivity. }
  assert (Hold : N.of_nat (length (log_content (fsys w))) <= MAX_LOG_BYTES)
    by (vm_compute; discriminate).
  pose proof (append_bounded (H := log_errno) _ w w' r E Hold) as (_ & _ & Ht).
  rewrite Hr in Ht. simpl. rewrite Ht. vm_compute. reflexivity.
Defined.
End log_example.
