(* ===== verification/JournalSafety.v ===== *)
(** * Crash safety and recovery of the transaction journal

    The histories of a journal: operations in any order, each with any faults and failures of
    system calls and possibly cut short by the death of the process. *)
From S2P Require Import Prelude.
From S2P Require Import RustStr.
From S2P Require Import Value.
From S2P Require Import Canonical.
From S2P Require Import Documents.
From S2P Require Import Effects.
From S2P Require Import StateFs.
From S2P Require Import Journal.
From S2P Require Import JournalFacts.
From S2P Require Import EventLog.

#[local] Open Scope N_scope.

(** ** Histories *)

Inductive journal_op : Type :=
  | MarkStarted
  | RecordResult (return_code : Z) (callbacks : CallbackSummary.t) (problems : list string)
  | Reconcile (result : ReconcileResult.t)
  | AppendEvent (bs : list byte)
  | Recover.

(** The problems a history records are short enough to be read back, escapes included. *)
Definition op_fits (op : journal_op) : Prop :=
  match op with RecordResult _ _ problems => problems_fit problems = true | _ => True end.

Section operations.
Context `{SerdeJson JournalEntry.t} `{!SerdeJsonLaws JournalEntry.t (fun _ => True)}.
Context `{!JsonText JournalEntry.t JournalEntry.tree} `{ErrnoText} (pid : N).

Definition run_op (op : journal_op) : io directory unit :=
  match op with
  | MarkStarted => mark_started pid
  | RecordResult return_code callbacks problems =>
      record_rpm_result_with_problems pid return_code callbacks problems
  | Reconcile result => reconcile pid result
  | AppendEvent bs => _ ← append bs; mret tt
  | Recover => _ ← recover pid; mret tt
  end.

Definition unknown_result : NativeResult.t :=
  NativeResult.mk (-1)%Z (CallbackSummary.mk 0 0 0 0 0 0 false) [].

(** At most one legal entry more. *)
Definition extends (es es' : list JournalEntry.t) : Prop :=
  es' = es \/ exists e e', last es = Some e /\ es' = es ++ [e'] /\
    legal (JournalEntry.state e) (JournalEntry.state e') = true /\ same_transaction e e'.

Lemma grown_extends es next native reconciliation d :
  grown es next native reconciliation d -> exists es', extends es es' /\ holds es' d.
Proof.
  intros (e' & Hn & (e & Hl & Hlegal) & Hh). exists (es ++ [e']). split; [| done].
  right. exists e, e'. unfold next_entry in Hn. rewrite Hl in Hn. injection Hn as <-. by split_and!.
Qed.

Definition safe (es : list JournalEntry.t) (d : directory) : Prop :=
  exists es', extends es es' /\ holds es' d.

Lemma next_fits es next native reconciliation e :
  payload_fits native reconciliation -> next_entry es next native reconciliation = Some e -> entry_fits e.
Proof. unfold next_entry. destruct (last es); [| done]. by intros Hf [= <-]. Qed.

Lemma no_payload_fits : payload_fits None None.
Proof. by split. Qed.

Lemma unknown_result_fits : payload_fits (Some unknown_result) None.
Proof. split; [by intros r [= <-] | done]. Qed.

Lemma reconcile_fits result u :
  validate_digest (ReconcileResult.inventory_sha256 result) = Ok u -> payload_fits None (Some result).
Proof. intros Hd. destruct u. split; [done |]. intros r [= <-]. by apply digest_fits. Qed.

Lemma transition_safe es d0 next native reconciliation :
  holds es d0 -> payload_fits native reconciliation ->
  triple (eq d0) (transition pid next native reconciliation) (fun _ => safe es) (safe es).
Proof using JsonText0 SerdeJsonLaws0.
  intros Hh Hfits. eapply triple_conseq; [apply (transition_triple pid es d0) | done | |]; [done | ..].
  - intros e He Hv. by apply fits_readable, (next_fits es next native reconciliation).
  - intros [] d Hd. by apply grown_extends in Hd.
  - intros d [Hd|Hd]; [exists es; split; [by left | done] | by apply grown_extends in Hd].
Qed.

(** The event log is none of the records. *)
Lemma unchanged_safe es d d' : unchanged d d' -> holds es d -> safe es d'.
Proof. intros Hd Hh. exists es. split; [by left | by apply (holds_unchanged _ d)]. Qed.

(** What [recover] answers for a last entry, and what it leaves. *)
Definition recovered (es : list JournalEntry.t) (action : RecoveryAction.t) (d : directory) : Prop :=
  match JournalEntry.state <$> last es with
  | Some JournalState.Prepared =>
      action = RecoveryAction.CleanupRevalidateAndReapprove /\ holds es d
  | Some JournalState.Started =>
      action = RecoveryAction.ReconcileOnly /\
      grown es JournalState.RpmResult (Some unknown_result) None d
  | Some JournalState.RpmResult => action = RecoveryAction.ReconcileOnly /\ holds es d
  | Some JournalState.Reconciled =>
      (exists e r, last es = Some e /\ JournalEntry.reconciliation e = Some r /\
         action = RecoveryAction.Terminal r) /\ holds es d
  | None => False
  end.

Lemma recover_triple es d0 :
  holds es d0 ->
  triple (eq d0) (recover pid) (recovered es)
    (fun d => holds es d \/ grown es JournalState.RpmResult (Some unknown_result) None d).
Proof using JsonText0 SerdeJsonLaws0.
  intros Hh. set (R := fun d => holds es d \/ _).
  assert (HR0 : forall d, d0 = d -> R d) by (intros d <-; by left).
  destruct (holds_last es d0 Hh) as [e Hl].
  unfold recover. eapply triple_seq; [by apply load_held_triple, HR0 |]. intros es' ->.
  eapply triple_seq; [by apply triple_lift |]. rewrite Hl. intros ? [= <-].
  unfold recovered. rewrite Hl. simpl. destruct (JournalEntry.state e) eqn:Es.
  - apply triple_done. by intros d <-.
  - apply (triple_bind _ _ _ (fun _ => grown es JournalState.RpmResult (Some unknown_result) None));
      [| intros []; by apply triple_done].
    apply transition_triple; [done |]. intros e' He Hv.
    eapply fits_readable, next_fits; [done | apply unknown_result_fits | exact He].
  - apply triple_done. by intros d <-.
  - eapply triple_conseq; [by apply (triple_lift _ (eq d0) R) | done | | done].
    intros a d [Ha%ok_or_ok <-]. split; [| done]. apply fmap_Some in Ha as (r & Hr & ->). eauto.
Qed.

Lemma run_op_safe op es d0 :
  op_fits op -> holds es d0 -> triple (eq d0) (run_op op) (fun _ => safe es) (safe es).
Proof using JsonText0 SerdeJsonLaws0.
  intros Hp Hh. assert (Hsafe : forall d, d0 = d -> safe es d)
    by (intros d <-; exists es; split; [by left | done]).
  destruct op as [|return_code callbacks problems|result|bs|]; simpl in *.
  - apply transition_safe; [done | apply no_payload_fits].
  - apply transition_safe; [done |]. split; [by intros r [= <-] | done].
  - unfold reconcile. eapply triple_seq; [by apply triple_lift |]. intros [] Hd.
    apply transition_safe; [done | by eapply reconcile_fits].
  - apply (triple_bind _ _ _ (fun _ => safe es)); [| intros ?; by apply triple_done].
    eapply triple_conseq; [apply append_triple | done | |].
    + intros a d Hd. eapply unchanged_safe; [by eapply appended_unchanged | done].
    + intros d Hd. eapply unchanged_safe; [by apply bounded_unchanged | done].
  - assert (Hg : forall d, grown es JournalState.RpmResult (Some unknown_result) None d -> safe es d)
      by (intros d Hd; by apply grown_extends in Hd).
    assert (Hd : forall d, holds es d -> safe es d) by (intros d Hd; exists es; split; [by left | done]).
    apply (triple_bind _ _ _ (fun _ => safe es)); [| intros ?; by apply triple_done].
    eapply triple_conseq; [by apply (recover_triple es) | done | |].
    + intros a d. unfold recovered. destruct (last es) as [e|]; simpl; [| done].
      destruct (JournalEntry.state e); naive_solver.
    + intros d [?|?]; auto.
Qed.

End operations.

Section histories.
Context `{SerdeJson JournalEntry.t} `{!SerdeJsonLaws JournalEntry.t (fun _ => True)}.
Context `{!JsonText JournalEntry.t JournalEntry.tree} `{ErrnoText}.

(** One operation of a history, by any process. *)
Inductive journal_step (d d' : directory) : Prop :=
  | journal_step_op pid op point outcomes w r :
      op_fits op -> run_op pid op (mk_world d point outcomes) = (w, r) -> fsys w = d' ->
      journal_step d d'.

(** C13: whatever fails, and wherever the process dies, the journal survives: through any
    history of [mark_started], [record_rpm_result_with_problems], [reconcile], [append_event]
    and [recover], by any processes, in which every recorded problem text is at most 1 MiB
    long with its JSON escapes, the directory always loads, its entries only ever grow by one
    legal entry of the same transaction at a time, so that the first ones never change and
    there are at most four. *)
Theorem journal_crash_safe (d d' : directory) (es : list JournalEntry.t)
    (Hload : load_entries (quiet d) = (quiet d, Value es)) (Hsteps : rtc journal_step d d') :
  exists es', load_entries (quiet d') = (quiet d', Value es') /\ rtc extends es es' /\
    es `prefix_of` es' /\ (length es' <= 4)%nat.
Proof using JsonText0 SerdeJsonLaws0.
  apply load_entries_iff in Hload as Hh. clear Hload.
  assert (Hex : exists es', holds es' d' /\ rtc extends es es' /\ es `prefix_of` es').
  { revert es Hh. induction Hsteps as [d|d d1 d' [pid op point outcomes w r Hp Hrun <-] _ IH]; intros es Hh.
    { exists es. by split_and!. }
    assert (Hs : safe es (fsys w)).
    { pose proof (run_op_safe pid op es d Hp Hh (mk_world d point outcomes) eq_refl) as Ht.
      rewrite Hrun in Ht. by destruct r. }
    destruct Hs as (es1 & Hx & Hh1). destruct (IH es1 Hh1) as (es' & Hh' & Hr & Hpre).
    exists es'. split; [done |]. split; [by eapply rtc_l |]. etrans; [| exact Hpre].
    destruct Hx as [->|(e & e' & _ & -> & _)]; [done | by eexists]. }
  destruct Hex as (es' & Hh' & Hr & Hpre). exists es'.
  split; [by apply load_entries_iff |]. split; [done |]. split; [done |].
  pose proof (holds_wf _ _ Hh') as Hw. destruct es' as [|e es']; [simpl; lia |].
  pose proof (journal_wf_length _ _ Hw). lia.
Qed.
(** ** Recovery *)

Lemma recover_settled pid d es e action :
  holds es d -> last es = Some e ->
  match JournalEntry.state e with
  | JournalState.Prepared => action = RecoveryAction.CleanupRevalidateAndReapprove
  | JournalState.Started => False
  | JournalState.RpmResult => action = RecoveryAction.ReconcileOnly
  | JournalState.Reconciled =>
      exists r, JournalEntry.reconciliation e = Some r /\ action = RecoveryAction.Terminal r
  end ->
  recover pid (quiet d) = (quiet d, Value action).
Proof.
  intros Hh Hl Ha. unfold recover. eapply run_bind; [by apply load_entries_run |]. rewrite Hl.
  eapply run_bind; [done |]. destruct (JournalEntry.state e); subst; try done.
  destruct Ha as (r & -> & ->). done.
Qed.

(** C14: recovery never asks for the transaction to be run again.  [recover] answers from the
    last entry alone: for a prepared transaction that it is to be cleaned up and approved
    afresh, itself removing nothing; one that may have started is closed with the unknown
    result -1 first, and the answer, like that for one whose result is known, is that it is
    only to be reconciled; for a reconciled one it is its recorded result.  Whatever fails,
    the journal still loads with the same entries or with that one entry more, and after an
    answer, recovering again gives the same answer and changes nothing. *)
Theorem recover_spec (pid : N) (d : directory) (es : list JournalEntry.t) (e : JournalEntry.t)
    (point : FaultPoint.t) (outcomes : list outcome) (w : world directory)
    (r : exit RecoveryAction.t)
    (Hload : load_entries (quiet d) = (quiet d, Value es)) (Hlast : last es = Some e)
    (Hrun : recover pid (mk_world d point outcomes) = (w, r)) :
  exists es', load_entries (quiet (fsys w)) = (quiet (fsys w), Value es') /\
  (es' = es \/ JournalEntry.state e = JournalState.Started /\ exists e', es' = es ++ [e'] /\
     JournalEntry.state e' = JournalState.RpmResult /\
     JournalEntry.native_result e' = Some unknown_result) /\
  forall action, r = Value action ->
    recover pid (quiet (fsys w)) = (quiet (fsys w), Value action) /\
    match JournalEntry.state e with
    | JournalState.Prepared => action = RecoveryAction.CleanupRevalidateAndReapprove
    | JournalState.Started => action = RecoveryAction.ReconcileOnly /\ es' <> es
    | JournalState.RpmResult => action = RecoveryAction.ReconcileOnly
    | JournalState.Reconciled =>
        exists result, JournalEntry.reconciliation e = Some result /\
          action = RecoveryAction.Terminal result
    end.
Proof using JsonText0 SerdeJsonLaws0.
  apply load_entries_iff in Hload as Hh. clear Hload.
  pose proof (recover_triple pid es d Hh (mk_world d point outcomes) eq_refl) as Ht.
  assert (Hgrown : grown es JournalState.RpmResult (Some unknown_result) None (fsys w) ->
    exists e', holds (es ++ [e']) (fsys w) /\ JournalEntry.state e = JournalState.Started /\
      JournalEntry.state e' = JournalState.RpmResult /\
      JournalEntry.native_result e' = Some unknown_result).
  { intros (e' & Hn & (e1 & Hl & Hlegal) & Hh'). exists e'. unfold next_entry in Hn.
    rewrite Hlast in Hn, Hl. injection Hn as <-. injection Hl as <-. split; [done |].
    by destruct (JournalEntry.state e). }
  assert (Hlen : forall e', es ++ [e'] <> es).
  { intros e' E. apply (f_equal length) in E. rewrite length_app in E. simpl in E. lia. }
  assert (Hfail : holds es (fsys w) \/ grown es JournalState.RpmResult (Some unknown_result) None (fsys w) ->
    exists es', holds es' (fsys w) /\ (es' = es \/ JournalEntry.state e = JournalState.Started /\
      exists e', es' = es ++ [e'] /\ JournalEntry.state e' = JournalState.RpmResult /\
        JournalEntry.native_result e' = Some unknown_result)).
  { intros [?|(e' & ? & ? & ? & ?)%Hgrown]; [eauto |]. exists (es ++ [e']). split; [done |]. eauto 6. }
  rewrite Hrun in Ht. simpl in *.
  destruct r as [action|err|]; [| destruct (Hfail Ht) as (es' & Hh' & Hes); exists es';
    split; [by apply load_entries_iff | split; [done | by intros ? [=]]] ..].
  unfold recovered in Ht. rewrite Hlast in Ht. simpl in Ht.
  destruct (JournalEntry.state e) eqn:Es.
  - destruct Ht as [-> Hh']. exists es. split; [by apply load_entries_iff |]. split; [by left |].
    intros ? [= <-]. split; [| done]. by apply (recover_settled _ _ es e); [| | rewrite Es].
  - destruct Ht as [-> Hg]. destruct (Hgrown Hg) as (e' & Hh' & _ & Hs' & Hn').
    exists (es ++ [e']). split; [by apply load_entries_iff |]. split; [right; eauto |].
    intros ? [= <-]. split; [| done].
    apply (recover_settled _ _ (es ++ [e']) e'); [done | apply last_snoc | by rewrite Hs'].
  - destruct Ht as [-> Hh']. exists es. split; [by apply load_entries_iff |]. split; [by left |].
    intros ? [= <-]. split; [| done]. by apply (recover_settled _ _ es e); [| | rewrite Es].
  - destruct Ht as [(e1 & result & [= <-] & Hr & ->) Hh']. exists es.
    split; [by apply load_entries_iff |]. split; [by left |]. intros ? [= <-].
    split; [| by exists result]. apply (recover_settled _ _ es e); [done.. |]. rewrite Es. by exists result.
Qed.

(** ** Progress *)

(** C15: when nothing fails, no temporary file of the same name is left over, and no text of
    the payload (a problem, the inventory digest) is longer than 1 MiB with its JSON escapes,
    a transition succeeds exactly when it is the one that may follow the last state, its
    payload fits the state and the limits, and its text fits a record; the journal then loads
    with that entry more. *)
Theorem transition_exact (pid : N) (d : directory) (es : list JournalEntry.t)
    (next : JournalState.t) (native : option NativeResult.t)
    (reconciliation : option ReconcileResult.t)
    (Hload : load_entries (quiet d) = (quiet d, Value es))
    (Hfits : payload_fits native reconciliation)
    (Htmp : nodes d !! temporary_name (N.of_nat (length es)) pid = None) :
  let '(w, r) := transition pid next native reconciliation (quiet d) in
  (r = Value tt <->
   exists e t, next_entry es next native reconciliation = Some e /\ may_follow es next /\
     validate_entry e = Ok tt /\ canonical_bytes e = Ok t /\
     N.of_nat (length t) <= MAX_RECORD_BYTES) /\
  (r = Value tt -> exists e, next_entry es next native reconciliation = Some e /\
     load_entries (quiet (fsys w)) = (quiet (fsys w), Value (es ++ [e]))).
Proof using JsonText0 SerdeJsonLaws0.
  apply load_entries_iff in Hload as Hh. clear Hload. destruct (holds_last es d Hh) as [e Hl].
  assert (Hread : forall e', next_entry es next native reconciliation = Some e' ->
    validate_entry e' = Ok tt -> readable e').
  { intros e' He' Hv. by apply fits_readable, (next_fits es next native reconciliation). }
  pose proof (transition_triple pid es d next native reconciliation Hh Hread (quiet d) eq_refl) as Ht.
  destruct (transition pid next native reconciliation (quiet d)) as [w r] eqn:Erun.
  split; [split |].
  - intros ->. destruct Ht as (e' & Hn & Hm & Hh').
    assert (Hin : e' ∈ es ++ [e']) by (apply elem_of_app; right; by apply list_elem_of_here).
    destruct (holds_record _ _ Hh' e' Hin) as (t & (Hc & _ & Hlen) & _).
    exists e', t. split_and!; try done. by apply (wf_valid _ (holds_wf _ _ Hh')).
  - intros (e' & t & Hn & (e1 & Hl1 & Hlegal) & Hv & Hc & Hlen). rewrite Hl in Hl1. injection Hl1 as <-.
    unfold next_entry in Hn. rewrite Hl in Hn. simpl in Hn. injection Hn as <-.
    destruct (transition_run pid es d e t next native reconciliation) as (d' & Hrun & _); try done.
    { rewrite <- Htmp. simpl. f_equal. f_equal. by apply last_sequence; [apply Hh |]. }
    rewrite Erun in Hrun. by injection Hrun.
  - intros ->. destruct Ht as (e' & Hn & _ & Hh'). exists e'. split; [done |].
    by apply load_entries_iff.
Qed.
End histories.

(** ** A concrete journal *)

Module JournalExamples.
#[export] Instance example_errno : ErrnoText := {|
  enoent := "No such file or directory (os error 2)"; eexist := "File exists (os error 17)";
  eloop := "Too many levels of symbolic links (os error 40)";
  eisdir := "Is a directory (os error 21)"; enotdir := "Not a directory (os error 20)";
  enotempty := "Directory not empty (os error 39)"
|}.

Definition id : string := "01890f3e-7c1a-7b2c-8d3e-0123456789ab".
Definition digest : string := "aaaaaaaaaaaaaaaaaaaaaaaaaaaaaaaaaaaaaaaaaaaaaaaaaaaaaaaaaaaaaaaa".
Definition prepared : JournalEntry.t :=
  JournalEntry.mk 1 id digest 0 JournalState.Prepared None None.
Definition started : JournalEntry.t :=
  JournalEntry.mk 1 id digest 1 JournalState.Started None None.
Definition unknown : JournalEntry.t :=
  JournalEntry.mk 1 id digest 2 JournalState.RpmResult (Some unknown_result) None.

#[export] Instance example_serde : SerdeJson JournalEntry.t :=
  json_codec JournalEntry.tree [prepared; started; unknown].

#[export] Instance example_laws : SerdeJsonLaws JournalEntry.t (fun _ => True).
Proof. apply json_codec_laws. apply (bool_decide_unpack _). vm_compute. exact I. Qed.

#[export] Instance example_text : JsonText JournalEntry.t JournalEntry.tree.
Proof. apply json_codec_text. Qed.

Definition empty_directory : directory := mk_dir ∅ false true true.

(** The directory after the first record. *)
Definition journal : directory := fsys (publish 7 prepared (quiet empty_directory)).1.

Lemma journal_loads : load_entries (quiet journal) = (quiet journal, Value [prepared]).
Proof. vm_compute. reflexivity. Defined.

(** The directory after an event is logged. *)
Definition logged : world directory * exit unit :=
  run_op 7 (AppendEvent (bytes "pre")) (quiet journal).

(** Killed in the middle of writing the record of the start. *)
Definition killed : world directory * exit unit :=
  run_op 7 MarkStarted (mk_world (fsys logged.1) FaultPoint.None (replicate 8 Succeeds ++ [Stops 3])).

Lemma journal_crash_safe_witness :
  exists es', logged.2 = Value tt /\ killed.2 = Crashed /\
    nodes (fsys killed.1) !! temporary_name 1 7 =
      Some (File (take 3 (Json.print (JournalEntry.tree started))) true) /\
    load_entries (quiet (fsys killed.1)) = (quiet (fsys killed.1), Value es') /\
    [prepared] `prefix_of` es'.
Proof.
  assert (Hlog : journal_step journal (fsys logged.1))
    by exact (journal_step_op _ _ 7 (AppendEvent (bytes "pre")) FaultPoint.None [] logged.1 logged.2 I
         (surjective_pairing logged) eq_refl).
  assert (Hstart : journal_step (fsys logged.1) (fsys killed.1))
    by exact (journal_step_op _ _ 7 MarkStarted FaultPoint.None _ killed.1 killed.2 I
         (surjective_pairing killed) eq_refl).
  destruct (journal_crash_safe journal (fsys killed.1) [prepared]
    journal_loads (rtc_l _ _ _ _ Hlog (rtc_once _ _ Hstart))) as (es' & Hl & _ & Hp & _).
  exists es'. split; [vm_compute; reflexivity |]. split; [vm_compute; reflexivity |].
  split; [vm_compute; reflexivity |]. split; [exact Hl | exact Hp].
Defined.

Definition started_journal : directory := fsys (mark_started 7 (quiet journal)).1.

Lemma recover_spec_witness :
  exists d', recover 9 (quiet started_journal) = (quiet d', Value RecoveryAction.ReconcileOnly) /\
    recover 9 (quiet d') = (quiet d', Value RecoveryAction.ReconcileOnly).
Proof.
  assert (Hl : load_entries (quiet started_journal) =
    (quiet started_journal, Value [prepared; started])) by (vm_compute; reflexivity).
  exists (fsys (recover 9 (mk_world started_journal FaultPoint.None [])).1). split; [vm_compute; reflexivity |].
  destruct (recover_spec 9 started_journal [prepared; started] started
    FaultPoint.None [] (recover 9 (mk_world started_journal FaultPoint.None [])).1 (recover 9 (mk_world started_journal FaultPoint.None [])).2
    Hl eq_refl (surjective_pairing _)) as (es' & _ & _ & Ha).
  refine (proj1 (Ha RecoveryAction.ReconcileOnly _)). vm_compute. reflexivity.
Defined.

Lemma transition_exact_witness :
  exists w e, transition 7 JournalState.Started None None (quiet journal) = (w, Value tt) /\
    next_entry [prepared] JournalState.Started None None = Some e /\
    load_entries (quiet (fsys w)) = (quiet (fsys w), Value ([prepared] ++ [e])).
Proof.
  assert (Hp : payload_fits None None) by (split; intros r Hr; discriminate Hr).
  assert (Htmp : nodes journal !! temporary_name 1 7 = None) by (vm_compute; reflexivity).
  pose proof (transition_exact 7 journal [prepared]
    JournalState.Started None None journal_loads Hp Htmp) as Ht.
  destruct (transition 7 JournalState.Started None None (quiet journal)) as [w r] eqn:E.
  assert (Hr : r = Value tt).
  { change r with (w, r).2. rewrite <- E. vm_compute. reflexivity. }
  destruct (proj2 Ht Hr) as (e & Hn & Hl). exists w, e.
  split; [rewrite Hr; reflexivity |]. split; [exact Hn | exact Hl].
Defined.
End JournalExamples.
