(* ===== verification/JournalCreate.v ===== *)
(** * Creating a transaction, and two ways to lose one

    [JournalStore::create] makes the directory, locks it and publishes the first record, and
    takes the directory away again when that fails. *)
From S2P Require Import Prelude.
From S2P Require Import RustStr.
From S2P Require Import Value.
From S2P Require Import Canonical.
From S2P Require Import Documents.
From S2P Require Import Effects.
From S2P Require Import StateFs.
From S2P Require Import Journal.
From S2P Require Import JournalFacts.
From S2P Require Import JournalSafety.

#[local] Open Scope N_scope.

(** The root [r0] with a directory under [name] about which [P] holds. *)
Definition at_child (r0 : root) (name : string) (P : directory -> Prop) (r : root) : Prop :=
  exists d, r = with_children (<[name := Some d]>) r0 /\ P d.

Lemma at_child_mono r0 name (P Q : directory -> Prop) r :
  (forall d, P d -> Q d) -> at_child r0 name P r -> at_child r0 name Q r.
Proof. intros HPQ (d & -> & Hd). exists d. auto. Qed.

Lemma in_dir_triple `{ErrnoText} {A} r0 name P (m : io directory A) Q R :
  triple P m Q R ->
  triple (at_child r0 name P) (in_dir name m) (fun a => at_child r0 name (Q a)) (at_child r0 name R).
Proof.
  intros Hm w (d & Hw & Hd). unfold in_dir, zoom. rewrite Hw. simpl. rewrite lookup_insert_eq.
  specialize (Hm (mk_world d (faults w) (pending w)) Hd).
  destruct (m _) as [w' [a|e|]]; simpl; exists (fsys w'); (split; [| done]);
    unfold with_children; simpl; by rewrite insert_insert_eq.
Qed.

Section create.
Context `{SerdeJson JournalEntry.t} `{!SerdeJsonLaws JournalEntry.t (fun _ => True)}.
Context `{ErrnoText} (pid : N).

Definition first_entry (id : TransactionId.t) (plan_sha256 : string) : JournalEntry.t :=
  JournalEntry.mk 1 (TransactionId.as_str id) plan_sha256 0 JournalState.Prepared None None.

(** It is readable when the JSON writer prints what is documented: it has no payload. *)
Lemma first_entry_readable `{!JsonText JournalEntry.t JournalEntry.tree} id plan_sha256 :
  validate_entry (first_entry id plan_sha256) = Ok tt -> readable (first_entry id plan_sha256).
Proof. intros Hv. by apply fits_readable. Qed.

(** Nothing but the first record. *)
Definition partial (e : JournalEntry.t) (d : directory) : Prop :=
  records d = ∅ \/ holds [e] d.

Lemma first_holds e t d0 d :
  records d0 = ∅ -> non_utf8 d0 = false -> JournalEntry.sequence e = 0 ->
  validate_entry e = Ok tt -> text_of e t -> published 0 t d0 d -> holds [e] d.
Proof.
  intros Hr0 Hu Hs Hv Ht [Hr Hf]. rewrite Hr0 in Hr. unfold flags in Hf. split.
  - congruence.
  - split; [done | | | done].
    + simpl. by rewrite Hs.
    + by intros e' ->%list_elem_of_singleton.
  - intros e' ->%list_elem_of_singleton. exists t. split; [done |].
    by rewrite Hr, Hs, lookup_insert_eq.
  - intros name n. rewrite Hr, lookup_insert_Some. intros [[<- _]|[_ Hn]].
    + exists e. split; [by apply list_elem_of_singleton | by rewrite Hs].
    + by rewrite lookup_empty in Hn.
Qed.

Lemma publish_first_triple e d0 :
  records d0 = ∅ -> non_utf8 d0 = false -> JournalEntry.sequence e = 0 ->
  (validate_entry e = Ok tt -> readable e) ->
  triple (eq d0) (publish pid e) (fun _ d => holds [e] d /\ flags d = flags d0)
    (partial e).
Proof using SerdeJsonLaws0.
  intros Hr0 Hu Hs Hread. assert (HR0 : forall d, d0 = d -> partial e d) by (intros d <-; by left).
  unfold publish. eapply triple_seq; [by apply triple_lift |]. intros [] Hv.
  eapply triple_seq; [by apply triple_lift |]. intros t Ht.
  eapply triple_seq; [by apply triple_raise_if |]. intros [] Hlen%N.ltb_ge. rewrite Hs.
  assert (Hp : forall d, published 0 t d0 d -> holds [e] d).
  { intros d Hd. eapply first_holds; [done.. | | done]. by apply readable_text; [apply Hread | |]. }
  eapply triple_conseq; [apply write_record_triple | done | |].
  - rewrite <- records_lookup by apply record_name_json. by rewrite Hr0, lookup_empty.
  - intros [] d Hd. split; [by apply Hp | by destruct Hd].
  - intros d [[Hr _]|Hd]; [left; by rewrite Hr | right; by apply Hp].
Qed.

Lemma partial_delete e name d :
  JournalEntry.sequence e = 0 -> partial e d -> partial e (with_nodes (delete name) d).
Proof.
  intros Hs Hp. destruct (ends_with ".json" name) eqn:E; cycle 1.
  { assert (Hu : unchanged d (with_nodes (delete name) d)).
    { apply with_nodes_unchanged; [done |]. intros name' Hn. apply lookup_delete_ne. congruence. }
    destruct Hp as [Hr|Hh]; [left; by rewrite (proj1 Hu) | right; by apply (holds_unchanged _ d)]. }
  assert (Hdel : records (with_nodes (delete name) d) = delete name (records d)).
  { unfold records, with_nodes. simpl. by rewrite map_filter_delete. }
  unfold partial. rewrite Hdel. destruct Hp as [->|Hh]; [left; apply delete_empty |].
  destruct (decide (name = record_name 0)) as [->|Hne].
  - left. apply map_eq. intros name. rewrite lookup_empty.
    destruct (delete (record_name 0) (records d) !! name) eqn:El; [| done].
    apply lookup_delete_Some in El as [Hne El].
    destruct (holds_only _ _ Hh _ _ El) as (x & ->%list_elem_of_singleton & ->). by rewrite Hs in Hne.
  - assert (Hnone : records d !! name = None).
    { destruct (records d !! name) eqn:El; [| done].
      destruct (holds_only _ _ Hh _ _ El) as (x & ->%list_elem_of_singleton & ->). by rewrite Hs in Hne. }
    right. destruct Hh as [Hu Hw Hrec Honly]. rewrite delete_id in Hdel by done.
    by split; [done | done | rewrite Hdel | rewrite Hdel].
Qed.

Lemma partial_unlock e b d : partial e d -> partial e (set_locked b d).
Proof. intros [Hr|[Hu Hw Hrec Honly]]; [by left | right; by split]. Qed.

Lemma unlinkat_partial e name :
  JournalEntry.sequence e = 0 ->
  triple (partial e) (unlinkat name) (fun _ => partial e) (partial e).
Proof.
  intros Hs. apply triple_sys; [done |]. intros d d' [] Hd E.
  destruct (nodes d !! name) as [[| |]|]; simplify_eq; by apply partial_delete.
Qed.

Lemma open_transaction_triple r0 name P :
  triple (at_child r0 name P) (open_transaction name) (fun _ => at_child r0 name P)
    (at_child r0 name P).
Proof.
  unfold open_transaction. apply (triple_bind _ _ _ (fun _ => at_child r0 name P)).
  - apply triple_sys; [done |]. intros r r' [] Hr E.
    destruct (children r !! name) as [[?|]|]; by simplify_eq.
  - intros []. apply in_dir_triple. apply triple_sys; [done |]. intros d d' [] Hd E.
    destruct (private_dir d); by simplify_eq.
Qed.

Lemma remove_failed_triple r0 name e :
  JournalEntry.sequence e = 0 -> children r0 !! name = None ->
  triple (at_child r0 name (partial e)) (remove_failed_transaction name) (fun _ r => r = r0)
    (fun r => r = r0 \/ at_child r0 name (partial e) r).
Proof.
  intros Hs Hfresh. set (P := at_child r0 name (partial e)). set (R := fun r => r = r0 \/ P r).
  assert (HR : forall r, P r -> R r) by (by right).
  unfold remove_failed_transaction. apply (triple_bind _ _ _ (fun _ => P)).
  { eapply triple_conseq; [apply open_transaction_triple | done..]. }
  intros []. apply (triple_bind _ _ _ (fun _ => P)).
  { eapply triple_conseq; [apply (in_dir_triple r0 name (partial e) _ (fun _ => partial e) (partial e)) | done..].
    apply triple_sys; [done |]. intros d d' a Hd E. destruct (non_utf8 d); by simplify_eq. }
  intros names. apply (triple_bind _ _ _ (fun _ => P)).
  { eapply triple_conseq; [apply (in_dir_triple r0 name (partial e) _ (fun _ => partial e) (partial e)) | done..].
    apply triple_for; [done |]. intros; by apply unlinkat_partial. }
  intros []. eapply triple_bind; [by apply triple_sync |]. intros [].
  apply (triple_bind _ _ _ (fun _ r => r = r0)); [| intros []; apply triple_sync; by left].
  apply triple_sys; [done |]. intros r r' [] (d & -> & Hd) E. simpl in E.
  rewrite lookup_insert_eq in E. case_match; [| done]. injection E as <-. 
  unfold with_children. simpl. rewrite delete_insert_id by done. by destruct r0.
Qed.

Definition fresh_directory : directory := mk_dir ∅ false true false.

Lemma create_transaction_triple r0 name :
  triple (eq r0) (create_transaction name)
    (fun _ r => children r0 !! name = None /\ at_child r0 name (eq fresh_directory) r)
    (fun r => r = r0 \/ children r0 !! name = None /\ at_child r0 name (eq fresh_directory) r).
Proof.
  set (R := fun r => r = r0 \/ _).
  unfold create_transaction. eapply triple_bind; [apply triple_check; by left |]. intros [].
  apply (triple_bind _ _ _ (fun _ r => children r0 !! name = None /\
    at_child r0 name (eq fresh_directory) r)).
  { apply triple_sys; [by left |]. intros r r' [] <- E.
    destruct (children r0 !! name) eqn:El; simplify_eq. split; [done |]. by eexists. }
  intros []. eapply triple_bind; [apply triple_sync; by right |]. intros [].
  intros w [Hf Hw]. pose proof (open_transaction_triple r0 name (eq fresh_directory) w Hw) as Ht.
  destruct (open_transaction name w) as [w' [[]|err|]]; [by split | by right..].
Qed.

(** C16: creating a transaction, whatever fails and wherever the process dies: a value means
    that the name was free and is now a locked directory that holds exactly the prepared
    entry; otherwise either the root is as it was, or the name was free and is now a
    directory without records or with just the prepared entry.  Other transactions are never
    touched. *)
Theorem create_spec (id : TransactionId.t) (plan : string) (w w' : world root) (r : exit unit)
    (Hread : validate_entry (first_entry id plan) = Ok tt -> readable (first_entry id plan))
    (Hrun : create pid id plan w = (w', r)) :
  let name := TransactionId.as_str id in
  match r with
  | Value _ => children (fsys w) !! name = None /\
      exists d, fsys w' = with_children (<[name := Some d]>) (fsys w) /\ locked d = true /\
        load_entries (quiet d) = (quiet d, Value [first_entry id plan])
  | _ => fsys w' = fsys w \/
      children (fsys w) !! name = None /\
      exists d, fsys w' = with_children (<[name := Some d]>) (fsys w) /\
        (records d = ∅ \/ load_entries (quiet d) = (quiet d, Value [first_entry id plan]))
  end.
Proof using SerdeJsonLaws0.
  intros name. set (e := first_entry id plan) in *. set (r0 := fsys w).
  set (Pa := fun r => r = r0 \/ children r0 !! name = None /\ at_child r0 name (partial e) r).
  assert (Hempty : partial e fresh_directory) by (left; by apply map_filter_empty).
  assert (Ht : triple (eq r0) (create pid id plan)
    (fun _ r => children r0 !! name = None /\
       at_child r0 name (fun d => holds [e] d /\ locked d = true) r) Pa).
  { unfold create. eapply triple_seq; [apply triple_lift; by left |]. intros [] _. fold name.
    apply (triple_bind _ _ _ (fun _ r => at_child r0 name (eq fresh_directory) r /\ children r0 !! name = None)).
    { eapply triple_conseq; [apply create_transaction_triple | done | by intros [] r1 [? ?] |].
      intros r1 [?|[? Hc]]; [by left |]. right. split; [done |].
      eapply at_child_mono, Hc. by intros d <-. }
    intros [] w1 [Hw1 Hfresh]. revert w1 Hw1.
    change (triple (at_child r0 name (eq fresh_directory)) (_ ← in_dir name lock;
      r ← attempt (in_dir name (publish pid e));
      match r with
      | Ok _ => mret tt
      | Err e => _ ← in_dir name unlock; _ ← remove_failed_transaction name; raise e
      end)
      (fun _ r => children r0 !! name = None /\
         at_child r0 name (fun d => holds [e] d /\ locked d = true) r) Pa).
    set (locked_directory := set_locked true fresh_directory).
    assert (HPa : forall r1, at_child r0 name (partial e) r1 -> Pa r1) by (by right).
    apply (triple_bind _ _ _ (fun _ => at_child r0 name (eq locked_directory))).
    { eapply triple_conseq; [apply (in_dir_triple r0 name (eq fresh_directory) _
        (fun _ => eq locked_directory) (eq fresh_directory)) | done | done |].
      - apply triple_sys; [done |]. intros d d' [] <- E. by injection E.
      - intros r1 Hr1. apply HPa. eapply at_child_mono, Hr1. by intros d <-. }
    intros []. eapply triple_bind.
    { eapply triple_conseq; [apply triple_attempt, (in_dir_triple r0 name (eq locked_directory) _
        (fun _ d => holds [e] d /\ locked d = true) (partial e)) | done | intros a r1 Hr1; exact Hr1 | exact HPa].
      eapply triple_conseq; [apply publish_first_triple | done | | done]; try done.
      intros [] d [Hh Hf]. split; [done |]. unfold flags in Hf. simpl in Hf. congruence. }
    intros [[]|err]; simpl; [apply triple_done; by split |].
    apply (triple_bind _ _ _ (fun _ => at_child r0 name (partial e))).
    { eapply triple_conseq; [apply (in_dir_triple r0 name (partial e) _ (fun _ => partial e) (partial e)) |
        done | done | exact HPa].
      intros w1 Hw1. by apply partial_unlock. }
    intros []. apply (triple_bind _ _ _ (fun _ r1 => r1 = r0)).
    { eapply triple_conseq; [by apply (remove_failed_triple r0 name e) | done | done |].
      intros r1 [?|?]; [by left | by apply HPa]. }
    intros [] w1 Hw1. by left. }
  specialize (Ht w eq_refl). rewrite Hrun in Ht.
  assert (Hfail : Pa (fsys w') -> fsys w' = r0 \/ children r0 !! name = None /\
    exists d, fsys w' = with_children (<[name := Some d]>) r0 /\
      (records d = ∅ \/ load_entries (quiet d) = (quiet d, Value [e]))).
  { intros [?|(? & d & ? & [?|?%load_entries_run])]; [by left | right; eauto..]. }
  destruct r as [[]|err|]; [| by apply Hfail..].
  destruct Ht as (Hfree & d & Hd & Hh & Hl). split; [done |]. exists d. split; [done |].
  split; [done |]. by apply load_entries_run.
Qed.

(** ** Two ways to lose a transaction *)

(** Nothing is recovered from a directory that holds no list. *)
Lemma recover_never d0 :
  (forall es, ~ holds es d0) -> triple (eq d0) (recover pid) (fun _ _ => False) (fun _ => True).
Proof.
  intros Hno. unfold recover. eapply triple_seq.
  - eapply triple_conseq; [apply load_entries_triple | done | | done]. intros es d Hd. exact Hd.
  - intros es Hh. by destruct (Hno es).
Qed.

Lemma fresh_holds_nothing es : ~ holds es fresh_directory.
Proof.
  intros Hh. destruct (holds_last es _ Hh) as [e [l ->]%last_Some].
  destruct (holds_record _ _ Hh e) as (t & _ & Ht); [set_solver |].
  unfold records in Ht. simpl in Ht. by rewrite map_filter_empty, lookup_empty in Ht.
Qed.

(** A process killed between making the directory of a transaction and writing its first
    record leaves a directory that every later start finds and locks, and that can never be
    recovered: whatever happens, [recover] gives no answer for it. *)
Theorem create_crash_unrecoverable (id : TransactionId.t) (plan : string) (r0 : root)
    (point : FaultPoint.t) (outcomes : list outcome)
    (Hplan : validate_digest plan = Ok tt)
    (Hfree : children r0 !! TransactionId.as_str id = None) :
  let name := TransactionId.as_str id in
  let '(w, r) := create pid id plan (mk_world r0 FaultPoint.None [Succeeds; Stops 0]) in
  r = Crashed /\
  (exists r1, open_journal id (quiet (fsys w)) = (quiet r1, Value tt) /\
     forall action, (in_dir name (recover pid) (mk_world r1 point outcomes)).2 <> Value action).
Proof.
  intros name. unfold create. fold name in Hfree |- *.
  unfold mbind at 1, io_mbind at 1. rewrite Hplan. simpl.
  unfold create_transaction, mbind, io_mbind, check, sys. simpl. rewrite Hfree. simpl.
  split; [done |].
  set (r1 := with_children (<[name := Some (set_locked true fresh_directory)]>) r0).
  exists r1. split.
  - unfold open_journal, open_transaction. fold name.
    eapply run_bind; [eapply run_bind; [apply run_sys; simpl; by rewrite lookup_insert_eq |] |].
    + unfold in_dir, zoom. simpl. rewrite lookup_insert_eq. unfold sys. simpl.
      unfold with_children. simpl. by rewrite insert_insert_eq.
    + unfold in_dir, zoom. simpl. rewrite lookup_insert_eq. unfold sys. simpl.
      unfold r1, with_children. simpl. by rewrite insert_insert_eq.
  - intros action Ha.
    assert (Hw : at_child r0 name (eq (set_locked true fresh_directory)) r1) by (by eexists).
    assert (Hno : forall es, ~ holds es (set_locked true fresh_directory)).
    { intros es [? ? Hrec Honly]. by apply (fresh_holds_nothing es). }
    pose proof (in_dir_triple r0 name _ _ _ _ (recover_never _ Hno) (mk_world r1 point outcomes) Hw) as Ht.
    destruct (in_dir name (recover pid) _) as [w' [a|err|]]; [by destruct Ht as (? & _ & []) | done..].
Qed.

(** [publish] does not look at its record the way readers do.  A result whose text fits
    the record limit but does not pass the inspection of canonical documents is written with
    success, and from then on no read of the journal and no recovery ever gives a value. *)
Theorem unreadable_record_loses_journal (d : directory) (es : list JournalEntry.t)
    (e : JournalEntry.t) (t : list byte) (next : JournalState.t)
    (native : option NativeResult.t) (reconciliation : option ReconcileResult.t)
    (Hload : load_entries (quiet d) = (quiet d, Value es))
    (Hnext : next_entry es next native reconciliation = Some e) (Hmay : may_follow es next)
    (Hvalid : validate_entry e = Ok tt) (Htext : canonical_bytes e = Ok t)
    (Hlen : N.of_nat (length t) <= MAX_RECORD_BYTES) (Hinspect : inspect t <> Ok tt)
    (Htmp : nodes d !! temporary_name (N.of_nat (length es)) pid = None) :
  exists d', transition pid next native reconciliation (quiet d) = (quiet d', Value tt) /\
    forall point outcomes,
      (forall es', (load_entries (mk_world d' point outcomes)).2 <> Value es') /\
      (forall action, (recover pid (mk_world d' point outcomes)).2 <> Value action).
Proof using SerdeJsonLaws0.
  apply load_entries_iff in Hload as Hh. destruct Hmay as (e0 & Hl & Hlegal).
  unfold next_entry in Hnext. rewrite Hl in Hnext. simpl in Hnext. injection Hnext as <-.
  pose proof (last_sequence es e0 (wf_indexed _ (holds_wf _ _ Hh)) Hl) as Hs.
  destruct (transition_run pid es d e0 t next native reconciliation) as (d' & Hrun & Hn & _);
    try done; [by simpl; rewrite Hs |].
  exists d'. split; [exact Hrun |].
  assert (Hno : forall es', ~ holds es' d').
  { intros es' Hh'. set (name := record_name _) in Hn.
    assert (Hr : records d' !! name = Some (File t true)).
    { rewrite records_lookup by apply record_name_json. by rewrite Hn, lookup_insert_eq. }
    destruct (holds_only _ _ Hh' _ _ Hr) as (e' & He' & E).
    destruct (holds_record _ _ Hh' e' He') as (t' & (_ & Hd & _) & Hr').
    rewrite <- E, Hr in Hr'. injection Hr' as <-. apply Hinspect.
    unfold decode in Hd. apply map_err_ok, canonical_parse_ok in Hd. by destruct Hd. }
  intros point outcomes. split.
  - intros es' Hv. pose proof (load_entries_triple d' (mk_world d' point outcomes) eq_refl) as Ht.
    destruct (load_entries (mk_world d' point outcomes)) as [w [a|err|]]; [| done..].
    destruct Ht as [Ht _].
    by apply Hno in Ht.
  - intros action Ha. pose proof (recover_never d' Hno (mk_world d' point outcomes) eq_refl) as Ht.
    by destruct (recover pid (mk_world d' point outcomes)) as [w [a|err|]].
Qed.
End create.

(** ** Concrete inputs *)

Module CreateExamples.
Import JournalExamples.

Definition example_id : TransactionId.t := TransactionId.mk id.
Definition example_root : root := mk_root ∅ false.

Definition created : world root * exit unit := create 7 example_id digest (quiet example_root).

Lemma create_spec_witness :
  exists d, fsys created.1 = with_children (<[id := Some d]>) example_root /\
    load_entries (quiet d) = (quiet d, Value [prepared]).
Proof.
  assert (Hr : created.2 = Value tt) by (vm_compute; reflexivity).
  assert (Hrun : create 7 example_id digest (quiet example_root) = (created.1, created.2))
    by exact (surjective_pairing created).
  pose proof (create_spec (H := example_serde) 7 example_id digest (quiet example_root)
    created.1 created.2 (first_entry_readable example_id digest) Hrun) as Ht.
  rewrite Hr in Ht. destruct Ht as (_ & d & Hd & _ & Hl). exists d. split; [exact Hd | exact Hl].
Defined.

Lemma create_crash_unrecoverable_witness :
  exists r1, open_journal example_id (quiet (fsys (create 7 example_id digest
      (mk_world example_root FaultPoint.None [Succeeds; Stops 0])).1)) = (quiet r1, Value tt).
Proof.
  pose proof (create_crash_unrecoverable 7 example_id digest example_root FaultPoint.None []
    eq_refl eq_refl) as Ht.
  destruct (create 7 example_id digest _) as [w r]. destruct Ht as (_ & r1 & Hr1 & _).
  exists r1. exact Hr1.
Defined.

(** A writer that nests the callbacks too deeply for the reader. *)
Definition deep : list byte := replicate 33 (Ascii.ascii_of_N 91).
#[local] Instance deep_serde : SerdeJson JournalEntry.t :=
  TableCodec.table_codec [(prepared, Json.print (JournalEntry.tree prepared)); (started, deep)].

#[local] Instance deep_laws : SerdeJsonLaws JournalEntry.t (fun _ => True).
Proof. apply TableCodec.table_codec_laws. by apply (bool_decide_unpack _); vm_compute. Qed.

Lemma unreadable_record_loses_journal_witness :
  exists d', (mark_started (H := deep_serde) 7 (quiet journal)) = (quiet d', Value tt) /\
    forall es', (load_entries (H := deep_serde) (quiet d')).2 <> Value es'.
Proof.
  destruct (unreadable_record_loses_journal (H := deep_serde) 7 journal [prepared] started deep
    JournalState.Started None None) as (d' & Hrun & Hno).
  - vm_compute. reflexivity.
  - reflexivity.
  - exists prepared. split; reflexivity.
  - vm_compute. reflexivity.
  - vm_compute. reflexivity.
  - vm_compute. discriminate.
  - vm_compute. discriminate.
  - vm_compute. reflexivity.
  - exists d'. split; [exact Hrun |]. exact (proj1 (Hno FaultPoint.None [])).
Defined.
End CreateExamples.
