(* ===== verification/StateFile.v ===== *)
(** * One state file, replaced as a whole

    The group and the reason stores of [dnfast-state] keep one document, state.json, that is
    read under limits and written through a temporary file: [read_optional_bounded] and
    [write_atomic_replacing] of fs.rs, and the [read] and [write] the two stores share. *)
From S2P Require Import Prelude.
From S2P Require Import RustStr.
From S2P Require Import Value.
From S2P Require Import Canonical.
From S2P Require Import Effects.
From S2P Require Import StateFs.

#[local] Open Scope N_scope.

Definition STATE_FILE : string := "state.json".

Section operations.
Context `{ErrnoText}.

Definition read_optional_bounded (name : string) (maximum : N) :
    io directory (option (list byte)) :=
  opened ← sys (fun d =>
    match nodes d !! name with
    | None => Ok (d, None)
    | Some Link => Err (StateError.Io eloop)
    | Some n => Ok (d, Some n)
    end);
  match opened with
  | None => mret None
  | Some n =>
      _ ← verify_file n;
      _ ← sync;
      _ ← raise_if (maximum <? N.of_nat (length (file_content n))) (StateError.Limit "record");
      _ ← sync;
      _ ← raise_if (maximum <? N.of_nat (length (file_content n))) (StateError.Limit "record");
      mret (Some (file_content n))
  end.

Definition replacement_name (name : string) (pid : N) : string :=
  "." +:+ name +:+ ".tmp-" +:+ display pid.

Definition write_atomic_replacing (pid : N) (name : string) (bs : list byte) :
    io directory unit :=
  let temporary := replacement_name name pid in
  _ ← attempt (unlinkat temporary);
  _ ← create_excl temporary;
  with_cleanup temporary (
    _ ← fchmod temporary;
    _ ← write_all temporary bs;
    _ ← sync;
    _ ← renameat temporary name;
    sync).
End operations.

(** The exclusive lock on the store's directory, [GroupStateLock] and [ReasonStateLock]: the
    failure to release it is ignored. *)
Definition locking {D A} (m : io D A) : io D A :=
  _ ← sync;
  r ← attempt m;
  _ ← attempt sync;
  lift r.

(** What a store fixes: its limit, its texts, its first state, and the checks of its states. *)
Record store_kind (T : Type) : Type := {
  maximum : N;
  not_canonical : string;
  limit : string;
  initial : T;
  migrate : T -> result StateError.t T;
  validate : T -> result StateError.t unit
}.
Arguments maximum {T} s.
Arguments not_canonical {T} s.
Arguments limit {T} s.
Arguments initial {T} s.
Arguments migrate {T} s.
Arguments validate {T} s.

Section state_file.
Context {T : Type} `{SerdeJson T} `{!EqDecision T} `{ErrnoText} (k : store_kind T).

Definition state_error {A} (r : domain A) : result StateError.t A :=
  map_err (fun e => StateError.Corrupt (DomainError.to_string e)) r.

Definition read_state : io directory T :=
  found ← read_optional_bounded STATE_FILE (maximum k);
  match found with
  | None => mret (initial k)
  | Some bs =>
      state ← lift (state_error (parse bs));
      canonical ← lift (state_error (serialize state));
      _ ← raise_if (negb (bool_decide (canonical = bs))) (StateError.Corrupt (not_canonical k));
      state ← lift (migrate k state);
      _ ← lift (validate k state);
      mret state
  end.

Definition write_state (pid : N) (state : T) : io directory unit :=
  _ ← lift (validate k state);
  bs ← lift (state_error (serialize state));
  _ ← raise_if (maximum k <? N.of_nat (length bs)) (StateError.Limit (limit k));
  write_atomic_replacing pid STATE_FILE bs.
End state_file.

(** ** Replacing is atomic *)

Definition file_at (name : string) (d : directory) : option node := nodes d !! name.

(** The file [name] as before, or with the new content. *)
Definition replaced (name : string) (bs : list byte) (d0 d : directory) : Prop :=
  file_at name d = file_at name d0 \/ file_at name d = Some (File bs true).

Section atomic.
Context `{ErrnoText}.

(** Changes to other files only. *)
Definition same_file (name : string) (d d' : directory) : Prop := file_at name d' = file_at name d.

Lemma replaced_same name bs d0 d d' :
  replaced name bs d0 d -> same_file name d d' -> replaced name bs d0 d'.
Proof. unfold replaced, same_file. intros [?|?] E; rewrite E; auto. Qed.

Lemma unlinkat_other name other (R : directory -> Prop) :
  other <> name -> (forall d d', R d -> same_file name d d' -> R d') ->
  triple R (unlinkat other) (fun _ => R) R.
Proof.
  intros Hn HR. apply triple_sys; [done |]. intros d d' [] Hd E.
  destruct (nodes d !! other) as [[| |]|]; simplify_eq;
    (eapply HR; [exact Hd |]; unfold same_file, file_at; simpl; by rewrite lookup_delete_ne).
Qed.

Lemma replacement_ne name pid : replacement_name name pid <> name.
Proof.
  intros E. apply (f_equal (fun s => length (bytes s))) in E. unfold replacement_name in E.
  rewrite !bytes_app, !length_app in E. simpl in E. lia.
Qed.

Lemma with_cleanup_replaced {A} name other bs d0 (P : directory -> Prop) (m : io directory A) Q :
  other <> name ->
  triple P m Q (replaced name bs d0) -> triple P (with_cleanup other m) Q (replaced name bs d0).
Proof.
  intros Hn Hm. unfold with_cleanup. eapply triple_bind; [by apply triple_attempt |].
  intros [a|e]; simpl; [by apply triple_done |].
  eapply triple_bind; [apply triple_attempt, (unlinkat_other name); [done | apply replaced_same] |].
  intros r w Hw. simpl. by destruct r.
Qed.

(** While the new file is being written beside the old one. *)
Definition beside (name temporary : string) (c : list byte) (p : bool) (d0 d : directory) : Prop :=
  same_file name d0 d /\ file_at temporary d = Some (File c p).

Lemma write_atomic_triple pid name bs d0 :
  triple (eq d0) (write_atomic_replacing pid name bs)
    (fun _ d => file_at name d = Some (File bs true)) (replaced name bs d0).
Proof.
  pose proof (replacement_ne name pid) as Hne. unfold write_atomic_replacing.
  set (temporary := replacement_name name pid) in *.
  assert (HR : forall d, same_file name d0 d -> replaced name bs d0 d) by (intros d Hd; by left).
  assert (HRb : forall c p d, beside name temporary c p d0 d -> replaced name bs d0 d)
    by (intros c p d [Hd _]; by apply HR).
  apply (triple_bind _ _ _ (fun _ => same_file name d0)).
  { eapply triple_conseq; [apply triple_attempt, (unlinkat_other name temporary (same_file name d0)); [done |] |
      by intros d <- | by intros [] | exact HR].
    unfold same_file. congruence. }
  intros _r. apply (triple_bind _ _ _ (fun _ => beside name temporary [] false d0)).
  { apply triple_sys; [exact HR |]. intros d d' [] Hd E.
    destruct (nodes d !! temporary) eqn:El; simplify_eq. split; unfold same_file, file_at in *; simpl.
    - by rewrite lookup_insert_ne.
    - by rewrite lookup_insert_eq. }
  intros []. apply with_cleanup_replaced; [done |].
  apply (triple_bind _ _ _ (fun _ => beside name temporary [] true d0)).
  { apply triple_sys; [apply HRb |]. intros d d' [] [Hd Ht] E. unfold file_at in Ht. rewrite Ht in E.
    injection E as <-. split; unfold same_file, file_at in *; simpl.
    - by rewrite lookup_insert_ne.
    - by rewrite lookup_insert_eq. }
  intros []. apply (triple_bind _ _ _ (fun _ => beside name temporary bs true d0)).
  { assert (Hput : forall d n, beside name temporary [] true d0 d ->
      beside name temporary (take n bs) true d0 (put_bytes temporary bs n d)).
    { intros d n [Hd Ht]. unfold put_bytes. unfold file_at in Ht. rewrite Ht.
      split; unfold same_file, file_at in *; simpl; [by rewrite lookup_insert_ne | by rewrite lookup_insert_eq]. }
    apply triple_write.
    - intros d n Hd _. by eapply HRb, Hput.
    - intros d Hd. rewrite <- (firstn_all bs) at 1. by apply Hput. }
  intros []. eapply triple_bind; [apply triple_sync, HRb |]. intros [].
  apply (triple_bind _ _ _ (fun _ d => file_at name d = Some (File bs true)));
    [| intros []; apply triple_sync; by right].
  apply triple_sys; [apply HRb |]. intros d d' [] [Hd Ht] E. unfold file_at in Ht. rewrite Ht in E.
  unfold file_at. destruct (nodes d !! name) as [[| |]|]; simplify_eq; simpl; by rewrite lookup_insert_eq.
Qed.
End atomic.

(** ** Reading and writing a state *)

Section states.
Context {T : Type} `{SerdeJson T} `{!EqDecision T} `{!SerdeJsonLaws T (fun _ => True)}.
Context `{ErrnoText} (k : store_kind T).

(** What the bytes of the file mean. *)
Definition decode_state (bs : list byte) : result StateError.t T :=
  state ← state_error (parse bs);
  state ← migrate k state;
  _ ← validate k state;
  Ok state.

Definition reads_as (s : T) (d : directory) : Prop :=
  file_at STATE_FILE d = None /\ s = initial k \/
  exists bs, file_at STATE_FILE d = Some (File bs true) /\
    N.of_nat (length bs) <= maximum k /\ decode_state bs = Ok s.

Lemma decode_state_ok bs s0 s u :
  state_error (parse bs) = Ok s0 -> migrate k s0 = Ok s -> validate k s = Ok u ->
  decode_state bs = Ok s.
Proof. intros H1 H2 H3. unfold decode_state. rewrite H1. simpl. rewrite H2. simpl. by rewrite H3. Qed.

(** A read that gives a value gives the state of the file. *)
Lemma read_state_triple d0 :
  triple (eq d0) (read_state k) (fun s d => reads_as s d0 /\ d0 = d) (eq d0).
Proof.
  unfold read_state, read_optional_bounded.
  apply (triple_seq _ _ _ (fun found => found = None /\ file_at STATE_FILE d0 = None \/
    exists bs, found = Some bs /\ file_at STATE_FILE d0 = Some (File bs true) /\
      N.of_nat (length bs) <= maximum k)).
  - apply (triple_seq _ _ _ (fun opened => opened = file_at STATE_FILE d0)).
    { apply triple_sys; [done |]. intros d d' o <- E. unfold file_at.
      destruct (nodes d0 !! STATE_FILE) as [[| |]|]; by simplify_eq. }
    intros opened ->. destruct (file_at STATE_FILE d0) as [n|] eqn:El;
      [| apply triple_done; intros d <-; split; [by left | done]].
    eapply triple_seq; [apply verify_file_triple |]. intros [] [c ->].
    eapply triple_bind; [by apply triple_sync |]. intros [].
    eapply triple_seq; [by apply triple_raise_if |]. intros [] Hc%N.ltb_ge.
    eapply triple_bind; [by apply triple_sync |]. intros [].
    eapply triple_seq; [by apply triple_raise_if |]. intros [] _.
    apply triple_done. intros d <-. split; [| done]. right. by exists c.
  - intros found [[-> Hf]|(bs & -> & Hf & Hl)].
    { apply triple_done. intros d <-. split; [| done]. by left. }
    eapply triple_seq; [by apply triple_lift |]. intros s0 Hp.
    eapply triple_seq; [by apply triple_lift |]. intros canonical _.
    eapply triple_seq; [by apply triple_raise_if |]. intros [] _.
    eapply triple_seq; [by apply triple_lift |]. intros s Hm.
    eapply triple_seq; [by apply triple_lift |]. intros u Hv.
    apply triple_done. intros d <-. split; [| done]. right. exists bs. split_and!; [done.. |].
    cbv beta in *. eapply decode_state_ok; eassumption.
Qed.

Lemma reads_as_file s d d' :
  file_at STATE_FILE d' = file_at STATE_FILE d -> reads_as s d -> reads_as s d'.
Proof. unfold reads_as. by intros ->. Qed.

Lemma reads_as_functional s s' d : reads_as s d -> reads_as s' d -> s' = s.
Proof.
  intros [[E ->]|(bs & E & _ & Hs)] [[E' ->]|(bs' & E' & _ & Hs')]; rewrite E in E'; try done.
  injection E' as <-. congruence.
Qed.

(** Without a failure the read gives it. *)
Lemma read_state_run s d : reads_as s d -> read_state k (quiet d) = (quiet d, Value s).
Proof.
  intros [[Hf ->]|(bs & Hf & Hl & Hd)]; unfold file_at in Hf.
  { eapply run_bind; [eapply run_bind; [apply run_sys; by rewrite Hf | done] | done]. }
  unfold decode_state in Hd. apply bind_ok in Hd as (s0 & Hp & Hd).
  apply bind_ok in Hd as (s1 & Hm & Hd). apply bind_ok in Hd as ([] & Hv & [= ->]).
  assert (Hb : (maximum k <? N.of_nat (length bs)) = false) by (by apply N.ltb_ge).
  assert (Hc : state_error (serialize s0) = Ok bs).
  { apply map_err_ok. apply map_err_ok in Hp. by apply parse_serialize. }
  eapply run_bind.
  - eapply run_bind; [apply run_sys; by rewrite Hf |]. simpl.
    eapply run_bind; [by apply run_sys |].
    eapply run_bind; [by apply run_sys |]. simpl.
    eapply run_bind; [by rewrite Hb |].
    eapply run_bind; [by apply run_sys |]. simpl.
    eapply run_bind; [by rewrite Hb | done].
  - simpl. eapply run_bind; [by rewrite Hp |].
    eapply run_bind; [by rewrite Hc |].
    eapply run_bind; [by rewrite bool_decide_eq_true_2 |].
    eapply run_bind; [by rewrite Hm |].
    eapply run_bind; [by rewrite Hv | done].
Qed.

Lemma read_state_iff s d : read_state k (quiet d) = (quiet d, Value s) <-> reads_as s d.
Proof.
  split; [| apply read_state_run]. intros E.
  pose proof (read_state_triple d (quiet d) eq_refl) as Ht. rewrite E in Ht. by destruct Ht.
Qed.

(** The text of a state that can be written is read back. *)
Definition state_readable (s : T) : Prop :=
  forall t, serialize s = Ok t -> N.of_nat (length t) <= maximum k -> inspect t = Ok tt.

(** The file is the text of [s]. *)
Definition holds_text (s : T) (t : list byte) (d : directory) : Prop :=
  file_at STATE_FILE d = Some (File t true) /\ serialize s = Ok t /\
  N.of_nat (length t) <= maximum k /\ validate k s = Ok tt.

(** What a write leaves, whatever can be read of it. *)
Lemma write_state_written pid s d0 :
  triple (eq d0) (write_state k pid s) (fun _ d => exists t, holds_text s t d)
    (fun d => file_at STATE_FILE d = file_at STATE_FILE d0 \/ exists t, holds_text s t d).
Proof.
  unfold write_state. eapply triple_seq; [apply triple_lift; intros ? <-; by left |]. intros [] Hv.
  eapply triple_seq; [apply triple_lift; intros ? <-; by left |]. intros t Ht%map_err_ok.
  eapply triple_seq; [apply triple_raise_if; intros ? <-; by left |]. intros [] Hl%N.ltb_ge.
  assert (Hnew : forall d, file_at STATE_FILE d = Some (File t true) -> exists t, holds_text s t d)
    by (intros d Hd; by exists t).
  eapply triple_conseq; [apply write_atomic_triple | done | intros []; exact Hnew |].
  intros d [Hd|Hd]; [by left | right; by apply Hnew].
Qed.

(** The text of a state is read back as that state exactly when it passes the inspection. *)
Lemma holds_text_reads s t d :
  migrate k s = Ok s -> holds_text s t d -> (reads_as s d <-> inspect t = Ok tt).
Proof using SerdeJsonLaws0.
  intros Hm (Hf & Hs & Hl & Hv). split.
  - intros [[Hn _]|(bs & Hb & _ & Hd)]; rewrite Hf in *; [done |]. injection Hb as <-.
    unfold decode_state in Hd. apply bind_ok in Hd as (s0 & Hp%map_err_ok & _).
    by apply canonical_parse_ok in Hp as [Hi _].
  - intros Hi. right. exists t. split_and!; [done.. |]. apply (decode_state_ok _ s _ tt); [| done..].
    by apply map_err_ok, (serialize_parse (fun _ => True)).
Qed.

Lemma write_state_triple pid s s0 d0 :
  reads_as s0 d0 -> migrate k s = Ok s -> (validate k s = Ok tt -> state_readable s) ->
  triple (eq d0) (write_state k pid s) (fun _ => reads_as s)
    (fun d => reads_as s0 d \/ reads_as s d).
Proof using SerdeJsonLaws0.
  intros Hs0 Hm Hread. assert (Hnew : forall d, (exists t, holds_text s t d) -> reads_as s d).
  { intros d (t & Ht). apply (holds_text_reads s t d Hm Ht). destruct Ht as (_ & Hs & Hl & Hv). by apply Hread. }
  eapply triple_conseq; [apply write_state_written | done | intros []; exact Hnew |].
  intros d [Hd|Hd]; [left; by apply (reads_as_file _ d0) | right; by apply Hnew].
Qed.
End states.
