(* ===== verification/GroupState.v ===== *)
(** * Installed groups ([dnfast-state]: group.rs)

    Which packages each installed group owns, which of them dnfast introduced, and the
    mutations that wait for the journal of their transaction. *)
From S2P Require Import Prelude.
From S2P Require Import RustStr.
From S2P Require Import Value.
From S2P Require Import Canonical.
From S2P Require Import Documents.
From S2P Require Import Effects.
From S2P Require Import StateFs.
From S2P Require Import Journal.
From S2P Require Import StateFile.

#[local] Open Scope N_scope.

Definition MAX_GROUPS : N := 4096.
Definition MAX_PACKAGES : N := 65536.
Definition MAX_PENDING : N := 128.

(** A [BTreeMap<String, V>] and its iteration order. *)
Definition btree_entries {V} (m : gmap string V) : list (string * V) :=
  sort_by (fun a b => cmp a.1 b.1) (map_to_list m).

(** In the modules below [tree] is the derived [Serialize]. *)

Definition texts (values : list string) : Json.t := Json.Array (Json.Text <$> values).

(** [#[serde(skip_serializing_if = "Vec::is_empty")]]. *)
Definition texts_member (name : string) (values : list string) : list (string * Json.t) :=
  match values with [] => [] | _ => [(name, texts values)] end.

Definition groups_tree (groups : gmap string (list string)) : Json.t :=
  Json.Object ((fun p => (p.1, texts p.2)) <$> btree_entries groups).

Module GroupRecord.
Record t : Type := mk { id : string; owned_packages : list string }.
End GroupRecord.

Module MutationKind.
Inductive t : Type := Install | Remove.

#[global] Instance mutation_kind_eq_dec : EqDecision t.
Proof. solve_decision. Defined.

(** [#[serde(rename_all = "snake_case")]]. *)
Definition tree (k : t) : Json.t := Json.Text match k with Install => "install" | Remove => "remove" end.
End MutationKind.

Module PendingMutation.
Record t : Type := mk {
  plan_sha256 : string;
  kind : MutationKind.t;
  groups : gmap string (list string);
  introduced_packages : list string;
  seen_transaction_ids : list string
}.

#[global] Instance pending_mutation_eq_dec : EqDecision t.
Proof. solve_decision. Defined.

Definition tree (m : t) : Json.t :=
  Json.struct ([("plan_sha256", Json.Text (plan_sha256 m)); ("kind", MutationKind.tree (kind m));
    ("groups", groups_tree (groups m)); ("seen_transaction_ids", texts (seen_transaction_ids m))]
    ++ texts_member "introduced_packages" (introduced_packages m)).
End PendingMutation.

Module GroupState.
Record t : Type := mk {
  schema_version : N;
  groups : gmap string (list string);
  introduced_packages : list string;
  pending : list PendingMutation.t
}.

#[global] Instance group_state_eq_dec : EqDecision t.
Proof. solve_decision. Defined.

Definition default : t := mk 2 ∅ [] [].

Definition tree (s : t) : Json.t :=
  Json.struct ([("schema_version", Json.Number (Z.of_N (schema_version s))); ("groups", groups_tree (groups s));
    ("pending", Json.Array (PendingMutation.tree <$> pending s))]
    ++ texts_member "introduced_packages" (introduced_packages s)).

Definition set_pending (p : list PendingMutation.t) (s : t) : t :=
  mk (schema_version s) (groups s) (introduced_packages s) p.
End GroupState.

(** ** Identifiers *)

Definition id_byte (b : byte) : bool :=
  is_ascii_alphanumeric b || existsb (fun v => byte_val b =? v) [43; 46; 95; 45].

Definition validate_id (value : string) : result StateError.t unit :=
  reject_if (str_is_empty value || (4096 <? str_len value) || negb (forallb id_byte (bytes value)))
    (StateError.Corrupt "invalid group or package identifier").

Definition validate_sorted_ids (values : list string) : result StateError.t unit :=
  _ ← reject_if (windows2_any geb values) (StateError.Corrupt "identifiers are not canonical");
  for_each validate_id values.

Definition validate_ids : list string -> result StateError.t unit := validate_sorted_ids.

(** ** Operations on a state *)

Definition canonical_record (collected : gmap string (list string)) (record : GroupRecord.t) :
    result StateError.t (gmap string (list string)) :=
  _ ← validate_id (GroupRecord.id record);
  let packages := dedup (sort (GroupRecord.owned_packages record)) in
  _ ← reject_if (existsb (fun package => negb (is_ok (validate_id package))) packages
        || bool_decide (is_Some (collected !! GroupRecord.id record)))
        (StateError.Corrupt "invalid group record");
  Ok (<[GroupRecord.id record := packages]> collected).

Definition canonical_records (records : list GroupRecord.t) :
    result StateError.t (gmap string (list string)) :=
  fold_result canonical_record ∅ records.

Definition add_group (groups : gmap string (list string)) (p : string * list string) :
    gmap string (list string) :=
  <[p.1 := dedup (sort (default [] (groups !! p.1) ++ p.2))]> groups.

Definition apply_install (s : GroupState.t) (groups : gmap string (list string))
    (introduced : list string) : GroupState.t :=
  GroupState.mk (GroupState.schema_version s)
    (foldl add_group (GroupState.groups s) (btree_entries groups))
    (dedup (sort (GroupState.introduced_packages s ++ introduced)))
    (GroupState.pending s).

(** The packages of the groups for which [keep] holds. *)
Definition packages_of (keep : string -> bool) (groups : gmap string (list string)) : list string :=
  concat (base.filter (fun p => keep p.1 = true) (btree_entries groups)).*2.

Definition listed (ids : list string) (id : string) : bool := bset_contains id (bset_of_list ids).

Definition retained_packages (groups : gmap string (list string)) (ids : list string) :
    list string := packages_of (fun id => negb (listed ids id)) groups.

Definition apply_remove (s : GroupState.t) (group_ids : list string) : GroupState.t :=
  let retained := bset_of_list (retained_packages (GroupState.groups s) group_ids) in
  let released := bset_of_list
    (base.filter (fun package => bset_contains package retained = false)
       (packages_of (listed group_ids) (GroupState.groups s))) in
  GroupState.mk (GroupState.schema_version s)
    (foldl (fun groups id => delete id groups) (GroupState.groups s) group_ids)
    (base.filter (fun package => bset_contains package released = false)
       (GroupState.introduced_packages s))
    (GroupState.pending s).

(** The computation of [packages_to_remove]; the slice searched is sorted. *)
Definition removable_packages (s : GroupState.t) (group_ids : list string) : list string :=
  let retained := bset_of_list (retained_packages (GroupState.groups s) group_ids) in
  dedup (sort (base.filter
    (fun package => bset_contains package retained = false /\
       bset_contains package (GroupState.introduced_packages s) = true)
    (packages_of (listed group_ids) (GroupState.groups s)))).

Definition all_packages (groups : gmap string (list string)) : list string :=
  packages_of (fun _ => true) groups.

Definition migrate_mutation (m : PendingMutation.t) : PendingMutation.t :=
  match PendingMutation.kind m with
  | MutationKind.Install =>
      PendingMutation.mk (PendingMutation.plan_sha256 m) (PendingMutation.kind m)
        (PendingMutation.groups m) (bset_of_list (all_packages (PendingMutation.groups m)))
        (PendingMutation.seen_transaction_ids m)
  | MutationKind.Remove => m
  end.

Definition migrate (s : GroupState.t) : result StateError.t GroupState.t :=
  if GroupState.schema_version s =? 1 then
    Ok (GroupState.mk 2 (GroupState.groups s)
      (bset_of_list (all_packages (GroupState.groups s)))
      (migrate_mutation <$> GroupState.pending s))
  else if GroupState.schema_version s =? 2 then Ok s
  else Err (StateError.Corrupt "unsupported group state schema").

(** ** Validation *)

Definition count_packages (groups : gmap string (list string)) : N :=
  N.of_nat (length (all_packages groups)).

Definition package_count (s : GroupState.t) : N :=
  count_packages (GroupState.groups s)
  + N.of_nat (length (GroupState.introduced_packages s))
  + foldr N.add 0 ((fun m => count_packages (PendingMutation.groups m)) <$> GroupState.pending s)
  + foldr N.add 0 ((fun m => N.of_nat (length (PendingMutation.introduced_packages m)))
      <$> GroupState.pending s).

Definition validate_groups (groups : gmap string (list string)) : result StateError.t unit :=
  for_each (fun p => _ ← validate_id p.1; validate_sorted_ids p.2) (btree_entries groups).

Definition not_all_in (packages owners : list string) : bool :=
  existsb (fun package => negb (bset_contains package (bset_of_list owners))) packages.

Definition validate_mutation (m : PendingMutation.t) : result StateError.t unit :=
  _ ← validate_digest (PendingMutation.plan_sha256 m);
  _ ← reject_if (bool_decide (PendingMutation.groups m = ∅))
        (StateError.Corrupt "empty pending group mutation");
  _ ← validate_groups (PendingMutation.groups m);
  _ ← validate_sorted_ids (PendingMutation.introduced_packages m);
  _ ← reject_if ((bool_decide (PendingMutation.kind m = MutationKind.Remove)
                  && negb (bool_decide (PendingMutation.introduced_packages m = [])))
                 || not_all_in (PendingMutation.introduced_packages m)
                      (all_packages (PendingMutation.groups m)))
        (StateError.Corrupt "invalid introduced packages in pending group mutation");
  reject_if (windows2_any geb (PendingMutation.seen_transaction_ids m))
    (StateError.Corrupt "noncanonical pending transaction ids").

Definition validate_state (s : GroupState.t) : result StateError.t unit :=
  _ ← reject_if (negb (GroupState.schema_version s =? 2)
                 || (MAX_GROUPS <? N.of_nat (size (GroupState.groups s)))
                 || (MAX_PENDING <? N.of_nat (length (GroupState.pending s))))
        (StateError.Corrupt "invalid group state bounds");
  _ ← reject_if (MAX_PACKAGES <? package_count s) (StateError.Limit "group packages");
  _ ← validate_groups (GroupState.groups s);
  _ ← validate_sorted_ids (GroupState.introduced_packages s);
  _ ← reject_if (not_all_in (GroupState.introduced_packages s) (all_packages (GroupState.groups s)))
        (StateError.Corrupt "introduced package has no installed group owner");
  for_each validate_mutation (GroupState.pending s).

(** ** The verdict of the journal *)

(** What the journal of one transaction says about a mutation. *)
Definition outcome_of (m : PendingMutation.t) (entries : list JournalEntry.t) : option bool :=
  if bool_decide (JournalEntry.plan_sha256 <$> head entries <> Some (PendingMutation.plan_sha256 m))
  then None
  else
    match last entries with
    | None => None
    | Some last =>
        if bool_decide (JournalEntry.state last <> JournalState.Reconciled) then None
        else Some (existsb (fun entry =>
                 bool_decide (JournalEntry.state entry = JournalState.RpmResult)
                 && from_option (fun r => Z.eqb (NativeResult.return_code r) 0) false
                      (JournalEntry.native_result entry)) entries
               && from_option ReconcileResult.success false (JournalEntry.reconciliation last))
    end.

Definition apply_mutation (s : GroupState.t) (m : PendingMutation.t) : GroupState.t :=
  match PendingMutation.kind m with
  | MutationKind.Install =>
      apply_install s (PendingMutation.groups m) (PendingMutation.introduced_packages m)
  | MutationKind.Remove => apply_remove s (btree_entries (PendingMutation.groups m)).*1
  end.

Section store.
Context `{SerdeJson JournalEntry.t} `{SerdeJson GroupState.t} `{ErrnoText} (pid : N).

Definition group_store : store_kind GroupState.t := {|
  maximum := 8 * 1024 * 1024;
  not_canonical := "group state is not canonical JSON";
  limit := "group state";
  initial := GroupState.default;
  StateFile.migrate := migrate;
  validate := validate_state
|}.

(** The directory of the store and the root of the journals. *)
Definition in_groups {A} (m : io directory A) : io (directory * root) A :=
  zoom fst (fun d p => (d, p.2)) m.
Definition in_journals {A} (m : io root A) : io (directory * root) A :=
  zoom snd (fun r p => (p.1, r)) m.

(** [journal.open_transaction(id)?.entries()?]: the journal is dropped at once. *)
Definition journal_entries (id : TransactionId.t) : io root (list JournalEntry.t) :=
  _ ← open_journal id;
  r ← attempt (in_dir (TransactionId.as_str id) load_entries);
  _ ← in_dir (TransactionId.as_str id) unlock;
  lift r.

Fixpoint find_terminal (m : PendingMutation.t) (ids : list TransactionId.t) :
    io root (option bool) :=
  match ids with
  | [] => mret None
  | id :: rest =>
      if listed (PendingMutation.seen_transaction_ids m) (TransactionId.as_str id)
      then find_terminal m rest
      else
        entries ← journal_entries id;
        match outcome_of m entries with
        | Some succeeded => mret (Some succeeded)
        | None => find_terminal m rest
        end
  end.

(** The loop state: the state, the mutations retained, whether anything changed. *)
Definition reconcile_step (ids : list TransactionId.t)
    (st : GroupState.t * list PendingMutation.t * bool) (m : PendingMutation.t) :
    io root (GroupState.t * list PendingMutation.t * bool) :=
  let '(state, retained, changed) := st in
  terminal ← find_terminal m ids;
  mret match terminal with
       | Some true => (apply_mutation state m, retained, true)
       | Some false => (state, retained, true)
       | None => (state, retained ++ [m], changed)
       end.

Definition reconcile_locked : io (directory * root) GroupState.t :=
  state ← in_groups (read_state group_store);
  if bool_decide (GroupState.pending state = []) then mret state
  else
    ids ← in_journals (_ ← sync; transaction_ids);
    st ← in_journals (fold_io (reconcile_step ids) (GroupState.set_pending [] state, [], false)
      (GroupState.pending state));
    let '(state, retained, changed) := st in
    let state := GroupState.set_pending retained state in
    _ ← lift (validate_state state);
    _ ← (if (changed : bool) then in_groups (write_state group_store pid state) else mret tt);
    mret state.

Definition installed_group_ids : io (directory * root) (list string) :=
  locking (state ← reconcile_locked; mret (btree_entries (GroupState.groups state)).*1).

Definition packages_to_remove (group_ids : list string) : io (directory * root) (list string) :=
  _ ← lift (validate_ids group_ids);
  locking (state ← reconcile_locked; mret (removable_packages state group_ids)).

Definition apply_install_now (records : list GroupRecord.t) (introduced : list string) :
    io (directory * root) unit :=
  _ ← lift (validate_sorted_ids introduced);
  locking (
    state ← reconcile_locked;
    groups ← lift (canonical_records records);
    in_groups (write_state group_store pid (apply_install state groups introduced))).

Definition apply_remove_now (group_ids : list string) : io (directory * root) unit :=
  _ ← lift (validate_ids group_ids);
  locking (
    state ← reconcile_locked;
    in_groups (write_state group_store pid (apply_remove state group_ids))).

Definition record_pending (plan_sha256 : string) (kind : MutationKind.t)
    (groups : gmap string (list string)) (introduced : list string) :
    io (directory * root) unit :=
  _ ← lift (validate_digest plan_sha256);
  locking (
    state ← reconcile_locked;
    _ ← raise_if (MAX_PENDING <=? N.of_nat (length (GroupState.pending state)))
          (StateError.Limit "pending group mutations");
    ids ← in_journals (_ ← sync; transaction_ids);
    let state := GroupState.set_pending (GroupState.pending state ++
      [PendingMutation.mk plan_sha256 kind groups introduced (TransactionId.as_str <$> ids)]) state in
    _ ← lift (validate_state state);
    in_groups (write_state group_store pid state)).

Definition record_pending_install (plan_sha256 : string) (records : list GroupRecord.t)
    (introduced : list string) : io (directory * root) unit :=
  _ ← lift (validate_sorted_ids introduced);
  groups ← lift (canonical_records records);
  record_pending plan_sha256 MutationKind.Install groups introduced.

Definition record_pending_remove (plan_sha256 : string) (group_ids : list string) :
    io (directory * root) unit :=
  _ ← lift (validate_ids group_ids);
  record_pending plan_sha256 MutationKind.Remove
    (foldl (fun m id => <[id := []]> m) ∅ group_ids) [].
End store.
