(* ===== verification/GroupFacts.v ===== *)
(** * Correctness of the group store *)
From S2P Require Import Prelude.
From S2P Require Import RustStr.
From S2P Require Import Value.
From S2P Require Import Canonical.
From S2P Require Import Documents.
From S2P Require Import Effects.
From S2P Require Import StateFs.
From S2P Require Import Journal.
From S2P Require Import JournalFacts.
From S2P Require Import StateFile.
From S2P Require Import GroupState.

#[local] Open Scope N_scope.

(** ** Ownership *)

Definition owns (groups : gmap string (list string)) (id package : string) : Prop :=
  exists packages, groups !! id = Some packages /\ package ∈ packages.

Lemma elem_of_btree_entries {V} (m : gmap string V) p : p ∈ btree_entries m <-> m !! p.1 = Some p.2.
Proof.
  unfold btree_entries. rewrite sort_by_perm. destruct p. apply elem_of_map_to_list.
Qed.

Lemma elem_of_packages_of keep groups package :
  package ∈ packages_of keep groups <-> exists id, keep id = true /\ owns groups id package.
Proof.
  unfold packages_of. rewrite list_elem_of_In, in_concat. split.
  - intros (l & Hl & Hp). apply list_elem_of_In, list_elem_of_fmap in Hl as ([id ps] & -> & Hin).
    apply list_elem_of_filter in Hin as [Hk Hin%elem_of_btree_entries]. simpl in *.
    exists id. split; [done |]. exists ps. split; [done |]. by apply list_elem_of_In.
  - intros (id & Hk & ps & Hg & Hp). exists ps. split; [| by apply list_elem_of_In].
    apply list_elem_of_In, list_elem_of_fmap. exists (id, ps). split; [done |].
    apply list_elem_of_filter. split; [done |]. by apply elem_of_btree_entries.
Qed.

Lemma elem_of_all_packages groups package :
  package ∈ all_packages groups <-> exists id, owns groups id package.
Proof. unfold all_packages. rewrite elem_of_packages_of. naive_solver. Qed.

Lemma listed_true ids id : listed ids id = true <-> id ∈ ids.
Proof.
  unfold listed. rewrite bset_contains_spec. split; [apply (proj1 (elem_of_bset_of_list _ _)) |].
  apply (proj2 (elem_of_bset_of_list _ _)).
Qed.

Lemma elem_of_retained groups ids package :
  package ∈ retained_packages groups ids <-> exists id, id ∉ ids /\ owns groups id package.
Proof.
  unfold retained_packages. rewrite elem_of_packages_of.
  split; intros (id & Hid & Ho); exists id; (split; [| done]).
  - intros Hin%listed_true. by rewrite Hin in Hid.
  - apply negb_true_iff, not_true_iff_false. by rewrite listed_true.
Qed.

Lemma bset_contains_list_false (l : list string) x : bset_contains x (bset_of_list l) = false <-> x ∉ l.
Proof.
  rewrite bset_contains_false. split; intros Hn Hx; apply Hn.
  - by apply (proj2 (elem_of_bset_of_list _ _)).
  - by apply (proj1 (elem_of_bset_of_list _ _)) in Hx.
Qed.

Lemma elem_of_removable s ids package :
  package ∈ removable_packages s ids <->
  package ∈ GroupState.introduced_packages s /\
  (exists id, id ∈ ids /\ owns (GroupState.groups s) id package) /\
  (forall id, owns (GroupState.groups s) id package -> id ∈ ids).
Proof.
  unfold removable_packages.
  rewrite elem_of_dedup_sort, list_elem_of_filter, elem_of_packages_of, bset_contains_list_false,
    bset_contains_spec, elem_of_retained.
  split.
  - intros [[Hr Hi] (id & Hl%listed_true & Ho)]. split; [done |]. split; [by exists id |].
    intros id' Ho'. destruct (decide (id' ∈ ids)); [done |]. exfalso. eauto.
  - intros (Hi & (id & Hid & Ho) & Hall). split; [split; [| done] |].
    + intros (id' & Hn & Ho'). by apply Hn, Hall.
    + exists id. split; [by apply listed_true | done].
Qed.

Lemma lookup_delete_all (ids : list string) (groups : gmap string (list string)) id :
  foldl (fun g i => delete i g) groups ids !! id = if decide (id ∈ ids) then None else groups !! id.
Proof.
  revert groups. induction ids as [|i ids IH]; intros groups.
  { by rewrite decide_False by (by intros ?%elem_of_nil). }
  cbn [foldl].  rewrite IH, lookup_delete. destruct (decide (id ∈ ids)) as [Hin|Hn].
  { by rewrite decide_True by (by right). }
  destruct (decide (i = id)) as [->|Hne].
  - by rewrite decide_True by left.
  - rewrite decide_False; [done |]. intros [?|?]%elem_of_cons; congruence.
Qed.

Lemma owns_apply_remove s ids id package :
  owns (GroupState.groups (apply_remove s ids)) id package <->
  owns (GroupState.groups s) id package /\ id ∉ ids.
Proof.
  unfold owns. simpl. rewrite lookup_delete_all. case_decide; naive_solver.
Qed.

Lemma elem_of_introduced_apply_remove s ids package :
  package ∈ GroupState.introduced_packages (apply_remove s ids) <->
  package ∈ GroupState.introduced_packages s /\ package ∉ removable_packages s ids.
Proof.
  simpl. rewrite list_elem_of_filter, bset_contains_list_false, list_elem_of_filter,
    bset_contains_list_false, elem_of_packages_of, elem_of_retained, elem_of_removable.
  split.
  - intros [Hn Hi]. split; [done |]. intros (_ & (id & Hid & Ho) & Hall). apply Hn. split.
    + intros (id' & Hid' & Ho'). by apply Hid', Hall.
    + exists id. split; [by apply listed_true | done].
  - intros [Hi Hn]. split; [| done]. intros [Hr (id & Hl%listed_true & Ho)]. apply Hn.
    split; [done |]. split; [by exists id |]. intros id' Ho'.
    destruct (decide (id' ∈ ids)); [done |]. exfalso. eauto.
Qed.

Lemma lookup_add_groups (l : list (string * list string)) groups id :
  NoDup l.*1 ->
  foldl add_group groups l !! id =
  match list_find (fun p => p.1 = id) l with
  | Some (_, p) => Some (dedup (sort (default [] (groups !! id) ++ p.2)))
  | None => groups !! id
  end.
Proof.
  revert groups. induction l as [|[i ps] l IH]; intros groups Hnd; [done |].
  cbn [fmap list_fmap fst] in Hnd. apply NoDup_cons in Hnd as [Hi Hnd]. cbn [foldl]. rewrite IH by done.
  cbn [list_find fst]. case_decide as E.
  - subst. assert (list_find (fun p : string * list string => p.1 = id) l = None) as ->.
    { apply list_find_None, Forall_forall. intros p Hp <-. by apply Hi, list_elem_of_fmap_2. }
    unfold add_group. cbn [fst snd]. by rewrite lookup_insert_eq.
  - unfold add_group. cbn [fst snd]. rewrite lookup_insert_ne by done.
    destruct (list_find _ l) as [[j p]|]; done.
Qed.

Lemma NoDup_btree_keys {V} (m : gmap string V) : NoDup (btree_entries m).*1.
Proof. unfold btree_entries. rewrite sort_by_perm. apply NoDup_fst_map_to_list. Qed.

Lemma elem_of_btree_keys {V} (m : gmap string V) id : id ∈ (btree_entries m).*1 <-> is_Some (m !! id).
Proof.
  rewrite list_elem_of_fmap. split.
  - intros ([k v] & -> & Hin%elem_of_btree_entries). by exists v.
  - intros [v Hv]. exists (id, v). split; [done |]. by apply elem_of_btree_entries.
Qed.

Lemma lookup_apply_install s groups introduced id :
  GroupState.groups (apply_install s groups introduced) !! id =
  match groups !! id with
  | Some ps => Some (dedup (sort (default [] (GroupState.groups s !! id) ++ ps)))
  | None => GroupState.groups s !! id
  end.
Proof.
  simpl. rewrite lookup_add_groups by apply NoDup_btree_keys.
  destruct (list_find _ _) as [[j p]|] eqn:E.
  - apply list_find_Some in E as (Hj & <- & _). apply list_elem_of_lookup_2, elem_of_btree_entries in Hj.
    by rewrite Hj.
  - apply list_find_None in E. rewrite Forall_forall in E. destruct (groups !! id) eqn:El; [| done].
    exfalso. by apply (E (id, l)); [apply elem_of_btree_entries |].
Qed.

Lemma owns_apply_install s groups introduced id package :
  owns (GroupState.groups (apply_install s groups introduced)) id package <->
  owns (GroupState.groups s) id package \/ owns groups id package.
Proof.
  unfold owns. rewrite lookup_apply_install. destruct (groups !! id) as [ps|] eqn:E.
  - split.
    + intros (l & [= <-] & Hp). rewrite elem_of_dedup_sort, elem_of_app in Hp.
      destruct Hp as [Hp|Hp]; [left | right; eauto].
      destruct (GroupState.groups s !! id) as [l|]; simpl in Hp; [eauto | by apply elem_of_nil in Hp].
    + intros [(l & -> & Hp)|(l & [= ->] & Hp)]; eexists; (split; [done |]);
        rewrite elem_of_dedup_sort, elem_of_app; auto.
  - naive_solver.
Qed.

Lemma elem_of_introduced_apply_install s groups introduced package :
  package ∈ GroupState.introduced_packages (apply_install s groups introduced) <->
  package ∈ GroupState.introduced_packages s \/ package ∈ introduced.
Proof. simpl. by rewrite elem_of_dedup_sort, elem_of_app. Qed.

(** ** The invariant of a state *)

Definition id_ok (id : string) : Prop := validate_id id = Ok tt.

Definition ids_ok (l : list string) : Prop := StronglySorted clt l /\ forall x, x ∈ l -> id_ok x.

(** What [validate_state] demands besides the bounds and the pending mutations. *)
Record group_wf (s : GroupState.t) : Prop := {
  wf_groups : forall id ps, GroupState.groups s !! id = Some ps -> id_ok id /\ ids_ok ps;
  wf_introduced : ids_ok (GroupState.introduced_packages s);
  wf_owned : forall p, p ∈ GroupState.introduced_packages s ->
    exists id, owns (GroupState.groups s) id p
}.

Definition in_bounds (s : GroupState.t) : Prop :=
  GroupState.schema_version s = 2 /\ N.of_nat (size (GroupState.groups s)) <= MAX_GROUPS /\
  N.of_nat (length (GroupState.pending s)) <= MAX_PENDING /\ package_count s <= MAX_PACKAGES.

Lemma validate_sorted_ids_ok l u : validate_sorted_ids l = Ok u <-> ids_ok l.
Proof.
  destruct u. unfold validate_sorted_ids, ids_ok. rewrite bind_ok. split.
  - intros ([] & Hs%reject_if_ok & Hf%for_each_ok). split; [by apply windows2_geb_sorted |].
    by rewrite Forall_forall in Hf.
  - intros [Hs Hf]. exists tt. split; [by apply reject_if_ok, windows2_geb_sorted |].
    apply for_each_ok. by rewrite Forall_forall.
Qed.

Lemma validate_groups_ok groups u :
  validate_groups groups = Ok u <->
  forall id ps, groups !! id = Some ps -> id_ok id /\ ids_ok ps.
Proof.
  destruct u. unfold validate_groups. rewrite for_each_ok, Forall_forall. split.
  - intros Hall id ps Hl. specialize (Hall (id, ps)). rewrite elem_of_btree_entries in Hall.
    specialize (Hall Hl). simpl in Hall. apply bind_ok in Hall as ([] & Hi & Hp).
    split; [exact Hi | exact (proj1 (validate_sorted_ids_ok _ _) Hp)].
  - intros Hall [id ps] Hin%elem_of_btree_entries. destruct (Hall id ps Hin) as [Hi Hp]. simpl.
    unfold id_ok in Hi. rewrite Hi. simpl. by apply validate_sorted_ids_ok.
Qed.

(** *** Its text *)

Lemma id_fits id : id_ok id -> Json.text_fits id = true.
Proof.
  unfold id_ok, validate_id. rewrite reject_if_ok, !orb_false_iff, N.ltb_ge. intros [[_ Hl] _].
  apply short_text_fits. etrans; [apply N.mul_le_mono_l, Hl |]. vm_compute. discriminate.
Qed.

Lemma texts_bounded l : (forall x, x ∈ l -> Json.text_fits x = true) -> tree_within 1 (texts l).
Proof.
  intros Hl. apply (bounded_array 0), Forall_fmap, Forall_forall. intros x Hx.
  apply bounded_leaf; [by apply Hl | done].
Qed.

Lemma ids_bounded l : ids_ok l -> tree_within 1 (texts l).
Proof. intros [_ Hl]. apply texts_bounded. intros x Hx. by apply id_fits, Hl. Qed.

Lemma texts_member_bounded n name l :
  Json.text_fits name = true -> ids_ok l -> 1 <= n -> Forall (bounded_member n) (texts_member name l).
Proof.
  intros Hname Hl Hn. destruct l as [|x l]; [constructor |].
  apply Forall_singleton. split; [done |]. by apply (bounded_le 1), ids_bounded.
Qed.

Lemma groups_bounded groups :
  (forall id ps, groups !! id = Some ps -> id_ok id /\ ids_ok ps) -> tree_within 2 (groups_tree groups).
Proof.
  intros Hg. apply (bounded_object 1), Forall_fmap, Forall_forall. intros [id ps] Hp%elem_of_btree_entries.
  destruct (Hg id ps Hp) as [Hi Hps]. split; [by apply id_fits | by apply ids_bounded].
Qed.

Lemma mutation_bounded m :
  validate_mutation m = Ok tt ->
  (forall id, id ∈ PendingMutation.seen_transaction_ids m -> Json.text_fits id = true) ->
  tree_within 3 (PendingMutation.tree m).
Proof.
  intros Hv Hseen. unfold validate_mutation in Hv.
  apply bind_ok in Hv as ([] & Hd & Hv). apply bind_ok in Hv as ([] & _ & Hv).
  apply bind_ok in Hv as ([] & Hg & Hv). apply bind_ok in Hv as ([] & Hi & _).
  pose proof (proj1 (validate_groups_ok _ _) Hg) as Hg'. pose proof (proj1 (validate_sorted_ids_ok _ _) Hi) as Hi'.
  apply (bounded_struct 2). bounded_fields.
  - apply bounded_leaf; [by eapply digest_fits | done].
  - apply bounded_leaf; by destruct (PendingMutation.kind m).
  - by apply groups_bounded.
  - apply (bounded_le 1); [lia | by apply texts_bounded].
  - by apply texts_member_bounded.
Qed.

Lemma not_all_in_false packages owners :
  not_all_in packages owners = false <-> forall p, p ∈ packages -> p ∈ owners.
Proof.
  unfold not_all_in. rewrite existsb_false, Forall_forall. split.
  - intros Hall p Hp. specialize (Hall p Hp). cbv beta in Hall. apply negb_false_iff in Hall.
    destruct (decide (p ∈ owners)) as [|Hn]; [done |].
    apply bset_contains_list_false in Hn. congruence.
  - intros Hall p Hp. apply negb_false_iff, bset_contains_spec.
    by apply (proj2 (elem_of_bset_of_list _ _)), Hall.
Qed.

Lemma validate_state_ok s u :
  validate_state s = Ok u <->
  in_bounds s /\ group_wf s /\ forall m, m ∈ GroupState.pending s -> validate_mutation m = Ok tt.
Proof.
  destruct u. unfold validate_state, in_bounds. rewrite !bind_ok. split.
  - intros ([] & Hb%reject_if_ok & H). rewrite !orb_false_iff, negb_false_iff, N.eqb_eq, !N.ltb_ge in Hb.
    apply bind_ok in H as ([] & Hc%reject_if_ok%N.ltb_ge & H).
    apply bind_ok in H as ([] & Hg & H). apply bind_ok in H as ([] & Hi & H).
    apply bind_ok in H as ([] & Ho%reject_if_ok & Hp%for_each_ok). destruct Hb as [[??]?].
    split; [done |]. split; [| by rewrite Forall_forall in Hp]. split.
    + exact (proj1 (validate_groups_ok _ _) Hg).
    + exact (proj1 (validate_sorted_ids_ok _ _) Hi).
    + intros p Hin. apply elem_of_all_packages. by apply (proj1 (not_all_in_false _ _) Ho).
  - intros ((Hv & Hn & Hp & Hc) & [Hg Hi Ho] & Hm). exists tt. split.
    { apply reject_if_ok. by rewrite !orb_false_iff, negb_false_iff, N.eqb_eq, !N.ltb_ge. }
    apply bind_ok. exists tt. split; [by apply reject_if_ok, N.ltb_ge |].
    apply bind_ok. exists tt. split; [by apply (proj2 (validate_groups_ok _ _)) |].
    apply bind_ok. exists tt. split; [by apply (proj2 (validate_sorted_ids_ok _ _)) |].
    apply bind_ok. exists tt. split; [| apply for_each_ok; by rewrite Forall_forall].
    apply reject_if_ok, not_all_in_false. intros p Hin. by apply elem_of_all_packages, Ho.
Qed.

Lemma group_wf_remove s ids : group_wf s -> group_wf (apply_remove s ids).
Proof.
  intros [Hg [Hs Hi] Ho]. split.
  - intros id ps. cbn [apply_remove GroupState.groups]. rewrite lookup_delete_all.
    destruct (decide (id ∈ ids)); [done | apply Hg].
  - split; [simpl; apply StronglySorted_filter; exact Hs |].
    intros x [Hx _]%elem_of_introduced_apply_remove. by apply Hi.
  - intros p [Hp Hn]%elem_of_introduced_apply_remove. destruct (Ho p Hp) as [id Hid].
    destruct (decide (id ∈ ids)) as [Hin|]; [| exists id; by apply owns_apply_remove].
    rewrite elem_of_removable in Hn.
    destruct (decide (Exists (fun q => q.1 ∉ ids /\ p ∈ q.2) (map_to_list (GroupState.groups s)))) as [He|He].
    + apply Exists_exists in He as ([id' ps] & Hl%elem_of_map_to_list & Hn' & Hp').
      exists id'. apply owns_apply_remove. split; [by exists ps | done].
    + exfalso. apply Hn. split; [done |]. split; [by exists id |]. intros id' (ps & Hl & Hps).
      destruct (decide (id' ∈ ids)); [done |]. exfalso. apply He, Exists_exists.
      exists (id', ps). split; [by apply elem_of_map_to_list | done].
Qed.

Lemma group_wf_install s groups introduced :
  group_wf s -> (forall id ps, groups !! id = Some ps -> id_ok id /\ ids_ok ps) ->
  ids_ok introduced -> (forall p, p ∈ introduced -> exists id, owns groups id p) ->
  group_wf (apply_install s groups introduced).
Proof.
  intros [Hg [Hs Hi] Ho] Hg' [Hs' Hi'] Ho'. split.
  - intros id ps. rewrite lookup_apply_install. destruct (groups !! id) as [l|] eqn:E; [| apply Hg].
    intros [= <-]. destruct (Hg' id l E) as [Hid [_ Hl]]. split; [done |].
    split; [apply dedup_sort_sorted |]. intros x. rewrite elem_of_dedup_sort, elem_of_app.
    intros [Hx|Hx]; [| by apply Hl]. destruct (GroupState.groups s !! id) as [l'|] eqn:E'; simpl in Hx.
    + by apply (Hg id l' E').
    + by apply elem_of_nil in Hx.
  - split; [apply dedup_sort_sorted |].
    intros x [Hx|Hx]%elem_of_introduced_apply_install; [exact (Hi x Hx) | exact (Hi' x Hx)].
  - intros p Hp. apply elem_of_introduced_apply_install in Hp. revert Hp.
    intros [Hp|Hp]; [destruct (Ho p Hp) as [id Hid] | destruct (Ho' p Hp) as [id Hid]]; 
      exists id; apply owns_apply_install; [by left | by right].
Qed.

(** ** Counting *)

Lemma count_packages_perm (l k : list (string * list string)) :
  l ≡ₚ k -> length (concat l.*2) = length (concat k.*2).
Proof.
  induction 1; cbn [fmap list_fmap concat]; rewrite ?length_app; [done | lia.. |]. congruence.
Qed.

Lemma count_packages_eq groups :
  count_packages groups = N.of_nat (length (concat (map_to_list groups).*2)).
Proof.
  unfold count_packages, all_packages, packages_of. f_equal. apply count_packages_perm.
  rewrite filter_all by done. apply sort_by_perm.
Qed.

Lemma count_packages_delete groups id : count_packages (delete id groups) <= count_packages groups.
Proof.
  rewrite !count_packages_eq. destruct (groups !! id) as [ps|] eqn:E; [| by rewrite delete_id].
  pose proof (count_packages_perm _ _ (map_to_list_delete groups id ps E)) as Hp.
  cbn [fmap list_fmap concat snd] in Hp. rewrite length_app in Hp. lia.
Qed.

Lemma count_packages_delete_all (ids : list string) groups :
  count_packages (foldl (fun g i => delete i g) groups ids) <= count_packages groups.
Proof.
  revert groups. induction ids as [|i ids IH]; intros groups; simpl; [lia |].
  pose proof (IH (delete i groups)). pose proof (count_packages_delete groups i). lia.
Qed.

Lemma size_delete_all (ids : list string) (groups : gmap string (list string)) :
  (size (foldl (fun g i => delete i g) groups ids) <= size groups)%nat.
Proof.
  revert groups. induction ids as [|i ids IH]; intros groups; simpl; [lia |].
  etransitivity; [apply IH |]. rewrite map_size_delete.
  destruct (groups !! i); unfold id; lia.
Qed.

Lemma in_bounds_remove s ids : in_bounds s -> in_bounds (apply_remove s ids).
Proof.
  intros (Hv & Hn & Hp & Hc). unfold in_bounds, package_count in *. cbn [apply_remove
    GroupState.schema_version GroupState.groups GroupState.pending GroupState.introduced_packages].
  pose proof (size_delete_all ids (GroupState.groups s)).
  pose proof (count_packages_delete_all ids (GroupState.groups s)).
  match goal with |- context [base.filter ?P (GroupState.introduced_packages s)] =>
    pose proof (length_filter P (GroupState.introduced_packages s)) end.
  split_and!; [done | lia | done | lia].
Qed.

