(* ===== verification/GroupSafety.v ===== *)
(** * What the group store promises

    Removal releases exactly the packages nothing else holds, keeps a state valid and undoes
    an installation; a pending mutation takes effect only on the word of a finished journal. *)
From S2P Require Import Prelude.
From S2P Require Import RustStr.
From S2P Require Import Value.
From S2P Require Import Canonical.
From S2P Require Import Documents.
From S2P Require Import Effects.
From S2P Require Import StateFs.
From S2P Require Import Journal.
From S2P Require Import JournalFacts.
From S2P Require Import JournalSafety.
From S2P Require Import JournalCreate.
From S2P Require Import StateFile.
From S2P Require Import GroupState.
From S2P Require Import GroupFacts.

#[local] Open Scope N_scope.

(** ** Operations on a state *)

(** C18: removing groups from a valid state gives a valid state without them; the packages to
    remove are exactly the introduced ones that some removed group and no remaining group
    owns, and exactly those leave the list of introduced packages; the pending mutations stay. *)
Theorem group_removal_exact (s : GroupState.t) (ids : list string)
    (Hvalid : validate_state s = Ok tt) :
  let s' := apply_remove s ids in
  validate_state s' = Ok tt /\
  (forall package, package ∈ removable_packages s ids <->
     package ∈ GroupState.introduced_packages s /\
     (exists id, id ∈ ids /\ owns (GroupState.groups s) id package) /\
     (forall id, owns (GroupState.groups s) id package -> id ∈ ids)) /\
  (forall package, package ∈ GroupState.introduced_packages s' <->
     package ∈ GroupState.introduced_packages s /\ package ∉ removable_packages s ids) /\
  (forall id, GroupState.groups s' !! id = if decide (id ∈ ids) then None else GroupState.groups s !! id) /\
  GroupState.pending s' = GroupState.pending s.
Proof.
  apply validate_state_ok in Hvalid as (Hb & Hwf & Hp). intros s'. split_and!.
  - apply validate_state_ok. split; [by apply in_bounds_remove |].
    split; [by apply group_wf_remove | done].
  - intros package. apply elem_of_removable.
  - intros package. apply elem_of_introduced_apply_remove.
  - intros id. apply lookup_delete_all.
  - done.
Qed.

Lemma group_state_ext (s s' : GroupState.t) :
  GroupState.schema_version s = GroupState.schema_version s' ->
  GroupState.groups s = GroupState.groups s' ->
  GroupState.introduced_packages s = GroupState.introduced_packages s' ->
  GroupState.pending s = GroupState.pending s' -> s = s'.
Proof. destruct s, s'. simpl. by intros -> -> -> ->. Qed.

(** A group that was not there can be installed and removed without a trace: the state
    before is the state after, and the packages to remove are those the installation
    introduced and no group of before owns. *)
Theorem group_install_remove (s : GroupState.t) (groups : gmap string (list string))
    (introduced : list string)
    (Hvalid : validate_state s = Ok tt)
    (Hfresh : forall id, is_Some (groups !! id) -> GroupState.groups s !! id = None)
    (Howned : forall package, package ∈ introduced -> exists id, owns groups id package)
    (Hnew : forall package, package ∈ introduced -> forall id, ~ owns (GroupState.groups s) id package) :
  let s1 := apply_install s groups introduced in
  let ids := (btree_entries groups).*1 in
  apply_remove s1 ids = s /\
  (forall package, package ∈ removable_packages s1 ids <-> package ∈ introduced).
Proof.
  intros s1 ids. apply validate_state_ok in Hvalid as (_ & Hwf & _).
  assert (Hids : forall id, id ∈ ids <-> is_Some (groups !! id)) by apply elem_of_btree_keys.
  assert (Hrem : forall package, package ∈ removable_packages s1 ids <-> package ∈ introduced).
  { intros package. rewrite elem_of_removable. unfold s1.
    rewrite elem_of_introduced_apply_install. setoid_rewrite owns_apply_install. split.
    - intros ([Hin|Hin] & _ & Hall); [| done]. exfalso. destruct (wf_owned _ Hwf _ Hin) as [id Hid].
      specialize (Hall id (or_introl Hid)). apply Hids, Hfresh in Hall. destruct Hid as (ps & Hl & _). congruence.
    - intros Hin. destruct (Howned _ Hin) as [id Hid]. split; [by right |]. split.
      + exists id. split; [| by right]. apply Hids. destruct Hid as (ps & Hl & _). by exists ps.
      + intros id' [Ho|(ps & Hl & _)]; [by destruct (Hnew _ Hin id') | by apply Hids; exists ps]. }
  split; [| done].
  assert (Hg : GroupState.groups (apply_remove s1 ids) = GroupState.groups s).
  { apply map_eq. intros id. cbn [apply_remove GroupState.groups]. rewrite lookup_delete_all.
    unfold s1. rewrite lookup_apply_install. case_decide as Hd.
    - apply Hids in Hd. by rewrite Hfresh.
    - destruct (groups !! id) eqn:El; [| done]. exfalso. by apply Hd, Hids. }
  assert (Hi : GroupState.introduced_packages (apply_remove s1 ids) = GroupState.introduced_packages s).
  { apply clt_sorted_ext.
    - apply StronglySorted_filter, dedup_sort_sorted.
    - apply (wf_introduced _ Hwf).
    - intros package. rewrite elem_of_introduced_apply_remove, Hrem. unfold s1.
      rewrite elem_of_introduced_apply_install. split; [tauto |]. intros Hin. split; [by left |].
      intros Hin'. destruct (wf_owned _ Hwf _ Hin) as [id Hid]. by destruct (Hnew _ Hin' id). }
  by apply group_state_ext.
Qed.

(** ** Pending mutations *)

Lemma triple_in_groups {A} P (m : io directory A) Q R (F : root -> Prop) :
  triple P m Q R ->
  triple (fun p => P p.1 /\ F p.2) (in_groups m) (fun a p => Q a p.1 /\ F p.2) (fun p => R p.1 /\ F p.2).
Proof.
  intros Hm [[d r] pt ps] [HP HF]. simpl in *. specialize (Hm (mk_world d pt ps) HP).
  unfold in_groups, zoom. simpl. by destruct (m _) as [w [a|e|]].
Qed.

Lemma triple_in_journals {A} P (m : io root A) Q R (F : directory -> Prop) :
  triple P m Q R ->
  triple (fun p => F p.1 /\ P p.2) (in_journals m) (fun a p => F p.1 /\ Q a p.2) (fun p => F p.1 /\ R p.2).
Proof.
  intros Hm [[d r] pt ps] [HF HP]. simpl in *. specialize (Hm (mk_world r pt ps) HP).
  unfold in_journals, zoom. simpl. by destruct (m _) as [w [a|e|]].
Qed.

Lemma journals_step {A} d0 r0 (m : io root A) (F : A -> Prop) (R : directory * root -> Prop) :
  (forall p, d0 = p.1 -> R p) ->
  triple (eq r0) m (fun a r => F a /\ r0 = r) (fun _ => True) ->
  triple (fun p => d0 = p.1 /\ r0 = p.2) (in_journals m) (fun a p => F a /\ d0 = p.1 /\ r0 = p.2) R.
Proof.
  intros HR Hm. eapply triple_conseq; [exact (triple_in_journals _ _ _ _ (eq d0) Hm) | done | |].
  - naive_solver.
  - intros p [? _]. by apply HR.
Qed.

Section reconciliation.
Context `{SerdeJson JournalEntry.t} `{SerdeJson GroupState.t} `{ErrnoText}.
Context `{!SerdeJsonLaws GroupState.t (fun _ => True)}.

(** The journal [id] of the root holds [es]. *)
Definition journal_of (r : root) (id : string) (es : list JournalEntry.t) : Prop :=
  exists d, children r !! id = Some (Some d) /\ load_entries (quiet d) = (quiet d, Value es).

(** The journal is finished, and says whether the transaction of [m] succeeded. *)
Definition verdict (m : PendingMutation.t) (es : list JournalEntry.t) (succeeded : bool) : Prop :=
  JournalEntry.plan_sha256 <$> head es = Some (PendingMutation.plan_sha256 m) /\
  exists e, last es = Some e /\ JournalEntry.state e = JournalState.Reconciled /\
    (succeeded = true <->
       (exists e' result, e' ∈ es /\ JournalEntry.state e' = JournalState.RpmResult /\
          JournalEntry.native_result e' = Some result /\ NativeResult.return_code result = 0%Z) /\
       exists reconciled, JournalEntry.reconciliation e = Some reconciled /\
         ReconcileResult.success reconciled = true).

(** A journal that came after the mutation was recorded. *)
Definition unseen (r : root) (m : PendingMutation.t) (id : string) (es : list JournalEntry.t) : Prop :=
  id ∉ PendingMutation.seen_transaction_ids m /\ journal_of r id es.

Inductive resolved (r : root) :
    GroupState.t -> list PendingMutation.t -> GroupState.t -> list PendingMutation.t -> Prop :=
  | resolved_nil s : resolved r s [] s []
  | resolved_done s m ms id es s' retained :
      unseen r m id es -> verdict m es true -> resolved r (apply_mutation s m) ms s' retained ->
      resolved r s (m :: ms) s' retained
  | resolved_failed s m ms id es s' retained :
      unseen r m id es -> verdict m es false -> resolved r s ms s' retained ->
      resolved r s (m :: ms) s' retained
  | resolved_waiting s m ms s' retained :
      (forall id es succeeded, unseen r m id es -> ~ verdict m es succeeded) ->
      resolved r s ms s' retained -> resolved r s (m :: ms) s' (m :: retained).

(** What [s] becomes when its pending mutations have been looked up in [r]. *)
Definition reconciled (r : root) (s s' : GroupState.t) : Prop :=
  exists s1 retained,
    resolved r (GroupState.set_pending [] s) (GroupState.pending s) s1 retained /\
    s' = GroupState.set_pending retained s1.

Lemma ran_and_reconciled es e :
  existsb (fun entry => bool_decide (JournalEntry.state entry = JournalState.RpmResult)
      && from_option (fun r => Z.eqb (NativeResult.return_code r) 0) false
           (JournalEntry.native_result entry)) es
    && from_option ReconcileResult.success false (JournalEntry.reconciliation e) = true <->
  (exists e' result, e' ∈ es /\ JournalEntry.state e' = JournalState.RpmResult /\
     JournalEntry.native_result e' = Some result /\ NativeResult.return_code result = 0%Z) /\
  exists reconciled, JournalEntry.reconciliation e = Some reconciled /\
    ReconcileResult.success reconciled = true.
Proof.
  rewrite andb_true_iff, existsb_exists. split.
  - intros [(e' & Hin & [Hst%bool_decide_eq_true Hr]%andb_true_iff) Hrec]. split.
    + destruct (JournalEntry.native_result e') as [res|] eqn:En; [| done]. simpl in Hr.
      exists e', res. split; [by apply list_elem_of_In |]. split_and!; [done | done | by apply Z.eqb_eq].
    + destruct (JournalEntry.reconciliation e) as [rec|]; [| done]. by exists rec.
  - intros [(e' & res & Hin & Hst & Hn & Hr) (rec & -> & Hrec)]. split; [| done].
    exists e'. split; [by apply list_elem_of_In |]. rewrite Hn. simpl.
    apply andb_true_iff. split; [by apply bool_decide_eq_true | by apply Z.eqb_eq].
Qed.

Lemma outcome_of_verdict m es b : outcome_of m es = Some b <-> verdict m es b.
Proof.
  unfold outcome_of, verdict. case_bool_decide as Hp; [naive_solver |].
  destruct (decide (JournalEntry.plan_sha256 <$> head es = Some (PendingMutation.plan_sha256 m)))
    as [Hp'|]; [clear Hp | done].
  destruct (last es) as [e|]; [| naive_solver].
  case_bool_decide as Hs; [split; [done | by intros (_ & e' & [= <-] & ? & _)] |].
  destruct (decide (JournalEntry.state e = JournalState.Reconciled)) as [Hs'|]; [clear Hs | done].
  split.
  - intros [= <-]. split; [done |]. exists e. split_and!; [done.. | apply ran_and_reconciled].
  - intros (_ & e' & [= <-] & _ & Hb). f_equal. apply eq_true_iff_eq. rewrite Hb.
    apply ran_and_reconciled.
Qed.

(** ** Looking a mutation up *)

Lemma opened_triple r0 name :
  triple (eq r0) (open_transaction name)
    (fun _ r => (exists d, children r0 !! name = Some (Some d)) /\ r0 = r) (fun _ => True).
Proof.
  unfold open_transaction. eapply (triple_seq _ _ _ (fun _ => exists d, children r0 !! name = Some (Some d))).
  - apply triple_sys; [done |]. intros r r' [] <- E. destruct (children r0 !! name) as [[d|]|]; simplify_eq.
    split; [by exists d | done].
  - intros [] [d Hd]. eapply triple_conseq; [apply (in_dir_triple r0 name (eq d) _ (fun _ => eq d) (fun _ => True)) | | |].
    + apply triple_sys; [done |]. intros d1 d2 [] <- E. by destruct (private_dir d); simplify_eq.
    + intros r <-. exists d. split; [| done]. unfold with_children. rewrite insert_id by done. by destruct r0.
    + intros [] r (d' & -> & <-). split; [by exists d |]. unfold with_children.
      rewrite insert_id by done. by destruct r0.
    + done.
Qed.

Lemma child_itself r0 name d P :
  children r0 !! name = Some (Some d) -> P d -> at_child r0 name P r0.
Proof.
  intros Hd HP. exists d. split; [| done]. unfold with_children. rewrite insert_id by done. by destruct r0.
Qed.

Lemma set_locked_id d : locked d = false -> set_locked false (set_locked true d) = d.
Proof. destruct d. by intros [= ->]. Qed.

Lemma holds_locked es b d : holds es (set_locked b d) <-> holds es d.
Proof. split; intros []; by split. Qed.

(** Opening, reading and releasing a journal leaves the root as it was. *)
Lemma journal_entries_triple r0 id :
  triple (eq r0) (journal_entries id)
    (fun es r => journal_of r0 (TransactionId.as_str id) es /\ r0 = r) (fun _ => True).
Proof.
  unfold journal_entries, open_journal. set (name := TransactionId.as_str id).
  eapply triple_bind.
  { eapply triple_seq; [apply opened_triple |]. intros [] [d Hd].
    instantiate (1 := fun _ r => exists d, children r0 !! name = Some (Some d) /\ locked d = false /\
      at_child r0 name (eq (set_locked true d)) r).
    eapply triple_conseq; [apply (in_dir_triple r0 name (eq d) _
      (fun _ d' => locked d = false /\ set_locked true d = d') (fun _ => True)) | | |].
    - apply triple_sys; [done |]. intros d1 d2 [] <- E. destruct (locked d); by simplify_eq.
    - intros r <-. by eapply child_itself.
    - intros [] r (d' & -> & Hl & <-). exists d. split; [done |]. split; [done |]. by eexists.
    - done. }
  intros []. intros w (d & Hd & Hl & Hw). revert w Hw.
  change (triple (at_child r0 name (eq (set_locked true d)))
    (r ← attempt (in_dir name load_entries); _ ← in_dir name unlock; lift r)
    (fun es r => journal_of r0 name es /\ r0 = r) (fun _ => True)).
  eapply triple_bind.
  { eapply triple_conseq; [apply triple_attempt, (in_dir_triple r0 name _ _ _ _ (load_entries_triple (set_locked true d))) |
      done | | done].
    intros r w Hr. instantiate (1 := fun r => at_child r0 name (fun d' => set_locked true d = d' /\
      forall es, r = Ok es -> holds es d)).
    destruct r as [es|e]; destruct Hr as (d' & Hd' & Hr); exists d'.
    - destruct Hr as [Hh <-]. split; [done |]. split; [done |]. intros ? [= <-]. exact (proj1 (holds_locked _ _ _) Hh).
    - split; [exact Hd' |]. split; [exact Hr | done]. }
  intros r. eapply triple_bind.
  { eapply triple_conseq; [apply (in_dir_triple r0 name (fun d' => set_locked true d = d' /\
      forall es, r = Ok es -> holds es d) unlock
      (fun _ d' => d = d' /\ forall es, r = Ok es -> holds es d) (fun _ => True)) | done | by intros ? | done].
    intros w [Hd' Hh]. simpl. split; [| done]. rewrite <- Hd'. by rewrite set_locked_id. }
  intros []. eapply triple_conseq; [by apply triple_lift | done | | done].
  intros es r' (-> & d' & -> & <- & Hh). split.
  - exists d. split; [done |]. by apply load_entries_iff, Hh.
  - unfold with_children. rewrite insert_id by done. by destruct r0.
Qed.
(** What the search through the journals [ids] found. *)
Definition found (r : root) (m : PendingMutation.t) (ids : list TransactionId.t)
    (terminal : option bool) : Prop :=
  match terminal with
  | Some succeeded => exists id es, unseen r m id es /\ verdict m es succeeded
  | None => forall id es succeeded, id ∈ TransactionId.as_str <$> ids -> unseen r m id es ->
      ~ verdict m es succeeded
  end.

Lemma journal_of_functional r id es es' : journal_of r id es -> journal_of r id es' -> es = es'.
Proof. intros (d & Hd & E) (d' & Hd' & E'). rewrite Hd in Hd'. injection Hd' as <-. rewrite E in E'. by injection E'. Qed.

Lemma find_terminal_triple r0 m ids :
  triple (eq r0) (find_terminal m ids) (fun terminal r => found r0 m ids terminal /\ r0 = r) (fun _ => True).
Proof.
  induction ids as [|id ids IH]; simpl.
  { apply triple_done. intros r <-. split; [| done]. by intros ??? ?%elem_of_nil. }
  destruct (listed _ _) eqn:El.
  - eapply triple_conseq; [exact IH | done | | done]. intros [b|] r [Hf <-]; (split; [| done]); [done |].
    intros id' es b [->|Hin]%elem_of_cons Hu; [| by apply (Hf id')].
    apply listed_true in El. by destruct Hu.
  - eapply triple_seq; [apply journal_entries_triple |]. intros es Hj.
    assert (Hu : unseen r0 m (TransactionId.as_str id) es).
    { split; [| done]. intros Hin%listed_true. congruence. }
    destruct (outcome_of m es) as [b|] eqn:Eo.
    + apply triple_done. intros r <-. split; [| done]. exists (TransactionId.as_str id), es.
      split; [done | by apply outcome_of_verdict].
    + eapply triple_conseq; [exact IH | done | | done]. intros [b|] r [Hf <-]; (split; [| done]); [done |].
      intros id' es' b [->|Hin]%elem_of_cons Hu'; [| by apply (Hf id')].
      intros Hv%outcome_of_verdict. destruct Hu as [_ Hu], Hu' as [_ Hu'].
      rewrite (journal_of_functional _ _ _ _ Hu' Hu) in Hv. congruence.
Qed.

Lemma parse_as_str name id : TransactionId.parse name = Ok id -> name = TransactionId.as_str id.
Proof. unfold TransactionId.parse. destruct (_ || _); [done |]. by intros [= <-]. Qed.

Lemma transaction_ids_triple r0 :
  triple (eq r0) transaction_ids
    (fun ids r => (forall id, is_Some (children r0 !! id) -> id ∈ TransactionId.as_str <$> ids) /\ r0 = r)
    (fun _ => True).
Proof.
  unfold transaction_ids. eapply (triple_seq _ _ _ (fun names => names = sort (map_to_list (children r0)).*1)).
  - apply triple_sys; [done |]. intros r r' names <- E. destruct (root_non_utf8 r0); by simplify_eq.
  - intros names ->. eapply triple_conseq; [by apply triple_lift | done | | done].
    intros ids r [Hm <-]. split; [| done]. intros id [o Ho].
    assert (Hin : id ∈ sort (map_to_list (children r0)).*1).
    { apply (proj2 (elem_of_sort _ _)), list_elem_of_fmap. exists (id, o).
      split; [done | by apply elem_of_map_to_list]. }
    apply mapM_ok in Hm. destruct (elem_of_Forall2_l _ _ _ _ Hm Hin) as (tid & Htid & Hp).
    apply list_elem_of_fmap. exists tid. split; [| done]. by apply parse_as_str.
Qed.
Lemma resolved_waits r m s ms s' retained ids :
  (forall id, is_Some (children r !! id) -> id ∈ TransactionId.as_str <$> ids) ->
  found r m ids None -> resolved r s ms s' retained -> resolved r s (m :: ms) s' (m :: retained).
Proof.
  intros Hids Hf. apply resolved_waiting. intros id es b Hu. apply (Hf id); [| done].
  destruct Hu as (_ & d & Hd & _). by apply Hids; exists (Some d).
Qed.

Lemma reconcile_fold_triple r0 ids ms :
  (forall id, is_Some (children r0 !! id) -> id ∈ TransactionId.as_str <$> ids) ->
  forall s retained changed,
  triple (eq r0) (fold_io (reconcile_step ids) (s, retained, changed) ms)
    (fun st r => (exists waiting, resolved r0 s ms st.1.1 waiting /\ st.1.2 = retained ++ waiting /\
       (st.2 = false -> changed = false /\ st.1.1 = s /\ waiting = ms)) /\ r0 = r)
    (fun _ => True).
Proof.
  intros Hids. induction ms as [|m ms IH]; intros s retained changed; cbn [fold_io].
  { apply triple_done. intros r <-. split; [| done]. exists []. rewrite app_nil_r.
    split; [constructor | done]. }
  apply (triple_seq _ _ _ (fun st => exists terminal, found r0 m ids terminal /\
    st = match terminal with
         | Some true => (apply_mutation s m, retained, true)
         | Some false => (s, retained, true)
         | None => (s, retained ++ [m], changed)
         end)).
  { eapply triple_seq; [apply find_terminal_triple |]. intros terminal Hf.
    apply triple_done. intros r <-. split; [| done]. by exists terminal. }
  intros st ([[|]|] & Hf & ->).
  - eapply triple_conseq; [apply IH | done | | done]. intros st r [(waiting & Hr & Hw & Hc) <-].
    split; [| done]. destruct Hf as (id & es & Hu & Hv). exists waiting.
    split; [by eapply resolved_done |]. split; [done |]. intros E. by destruct (Hc E).
  - eapply triple_conseq; [apply IH | done | | done]. intros st r [(waiting & Hr & Hw & Hc) <-].
    split; [| done]. destruct Hf as (id & es & Hu & Hv). exists waiting.
    split; [by eapply resolved_failed |]. split; [done |]. intros E. by destruct (Hc E).
  - eapply triple_conseq; [apply IH | done | | done]. intros st r [(waiting & Hr & Hw & Hc) <-].
    split; [| done]. exists (m :: waiting). split; [by eapply resolved_waits |].
    split; [by rewrite Hw, <- app_assoc |]. intros E. destruct (Hc E) as (-> & -> & ->). done.
Qed.

Lemma resolved_schema r s ms s' retained :
  resolved r s ms s' retained -> GroupState.schema_version s' = GroupState.schema_version s.
Proof.
  induction 1 as [|s m ms id es s' retained _ _ _ IH| |]; [done | | done..].
  rewrite IH. unfold apply_mutation. by destruct (PendingMutation.kind m).
Qed.

Lemma resolved_waiting_subset r s ms s' retained m :
  resolved r s ms s' retained -> m ∈ retained -> m ∈ ms.
Proof.
  induction 1 as [| | |s m' ms s' retained _ _ IH]; intros Hm; [done | right; auto.. |].
  apply elem_of_cons in Hm as [->|Hm]; [by left | right; auto].
Qed.

(** The identifiers of the transactions a mutation saw are those of journals. *)
Definition seen_parsed (s : GroupState.t) : Prop :=
  forall m id, m ∈ GroupState.pending s -> id ∈ PendingMutation.seen_transaction_ids m ->
  exists tid, TransactionId.parse id = Ok tid.

(** A valid state nests five levels of short strings. *)
Lemma group_state_bounded s : validate_state s = Ok tt -> seen_parsed s -> tree_within 5 (GroupState.tree s).
Proof.
  intros (_ & [Hg Hi _] & Hm)%validate_state_ok Hseen. apply (bounded_struct 4). bounded_fields.
  - apply (bounded_le 2); [lia | by apply groups_bounded].
  - apply (bounded_array 3), Forall_fmap, Forall_forall. intros m Hin.
    apply mutation_bounded; [by apply Hm |]. intros id Hid.
    destruct (Hseen m id Hin Hid) as [tid Ht]. by eapply transaction_id_fits.
  - by apply texts_member_bounded.
Qed.

(** Every valid state that is written, in its at most 8 MiB, passes the reader when the JSON
    writer prints what is documented. *)
Lemma written_group_readable `{!JsonText GroupState.t GroupState.tree} s :
  validate_state s = Ok tt -> seen_parsed s -> state_readable group_store s.
Proof.
  intros Hv Hs t Ht Hl. apply serialize_ok, to_vec_print in Ht as ->. apply inspect_bounded.
  - apply (bounded_le 5); [vm_compute; discriminate | by apply group_state_bounded].
  - etrans; [exact Hl | vm_compute; discriminate].
Qed.

(** What the JSON writer does with a valid state; [written_group_readable] shows it of the
    documented one. *)
Context (group_readable : forall s, validate_state s = Ok tt -> seen_parsed s ->
  state_readable group_store s).

Lemma reads_as_schema s d : reads_as group_store s d -> GroupState.schema_version s = 2.
Proof.
  intros [[_ ->]|(bs & _ & _ & Hd)]; [done |]. unfold decode_state in Hd.
  apply bind_ok in Hd as (s0 & _ & Hd). apply bind_ok in Hd as (s1 & Hm & Hd).
  apply bind_ok in Hd as ([] & Hv & [= <-]). simpl in Hv.
  apply validate_state_ok in Hv as ((? & _) & _). done.
Qed.

Lemma reads_as_valid s d : reads_as group_store s d -> validate_state s = Ok tt.
Proof.
  intros [[_ ->]|(bs & _ & _ & Hd)]; [done |]. unfold decode_state in Hd.
  apply bind_ok in Hd as (s0 & _ & Hd). apply bind_ok in Hd as (s1 & Hm & Hd).
  by apply bind_ok in Hd as ([] & Hv & [= <-]).
Qed.

Lemma reconciled_itself r s :
  GroupState.pending s = [] -> reconciled r s s.
Proof.
  intros Hp. exists (GroupState.set_pending [] s), []. rewrite Hp. split; [constructor |].
  destruct s; simpl in *; by subst.
Qed.

(** The store before, or reconciled. *)
Definition before_or_after (s0 : GroupState.t) (d0 : directory) (r0 : root) (p : directory * root) : Prop :=
  reads_as group_store s0 p.1 \/ exists s, reconciled r0 s0 s /\ reads_as group_store s p.1.

Lemma reconcile_locked_triple pid s0 d0 r0 :
  reads_as group_store s0 d0 -> seen_parsed s0 ->
  triple (fun p => d0 = p.1 /\ r0 = p.2) (reconcile_locked pid)
    (fun s p => (reconciled r0 s0 s /\ reads_as group_store s p.1) /\ r0 = p.2)
    (before_or_after s0 d0 r0).
Proof using SerdeJsonLaws0 group_readable.
  intros Hs0 Hseen. pose proof (reads_as_schema _ _ Hs0) as Hv0.
  assert (HR : forall p : directory * root, d0 = p.1 -> before_or_after s0 d0 r0 p)
    by (intros p E; left; by rewrite <- E).
  unfold reconcile_locked. apply (triple_seq _ _ _ (fun s => s = s0)).
  { eapply triple_conseq; [apply (triple_in_groups (eq d0) _ _ _ (eq r0) (read_state_triple group_store d0)) | done | |].
    - intros s [d r] [[Hs <-] <-]. split; [| done]. by eapply reads_as_functional.
    - intros p [E _]. by apply HR. }
  intros s ->. case_bool_decide as Hp.
  { apply triple_done. intros [d r] [<- <-]. split; [| done]. split; [by apply reconciled_itself | done]. }
  apply (triple_seq _ _ _ (fun ids => forall id, is_Some (children r0 !! id) -> id ∈ TransactionId.as_str <$> ids)).
  { apply journals_step; [exact HR |]. eapply triple_bind; [by apply triple_sync |].
    intros []. apply transaction_ids_triple. }
  intros ids Hids. apply (triple_seq _ _ _ (fun st => exists waiting,
    resolved r0 (GroupState.set_pending [] s0) (GroupState.pending s0) st.1.1 waiting /\
    st.1.2 = waiting /\ (st.2 = false -> st.1.1 = GroupState.set_pending [] s0 /\
      waiting = GroupState.pending s0))).
  { apply journals_step; [exact HR |].
    eapply triple_conseq; [apply (reconcile_fold_triple r0 ids _ Hids) | done | | done].
    intros st r [(waiting & Hr & Hw & Hc) <-]. split; [| done]. exists waiting. naive_solver. }
  intros [[s1 retained] changed] (waiting & Hres & Hw & Hc). simpl in *. subst waiting.
  set (s2 := GroupState.set_pending retained s1).
  assert (Hs2 : reconciled r0 s0 s2) by (by exists s1, retained).
  eapply triple_seq; [apply triple_lift; by intros p [E _]; apply HR |]. intros [] Hv.
  apply (triple_bind _ _ _ (fun _ p => reads_as group_store s2 p.1 /\ r0 = p.2));
    [| intros []; apply triple_done; intros p [? ?]; done].
  destruct changed.
  - assert (Hw : triple (eq d0) (write_state group_store pid s2) (fun _ => reads_as group_store s2)
      (fun d => reads_as group_store s0 d \/ reads_as group_store s2 d)).
    { apply (write_state_triple group_store pid s2 s0 d0 Hs0).
      - change (migrate s2 = Ok s2). unfold migrate.
        assert (GroupState.schema_version s2 = 2) as -> by (rewrite <- Hv0; exact (resolved_schema _ _ _ _ _ Hres)).
        done.
      - intros _. apply group_readable; [done |]. intros m id Hm. apply Hseen.
        by eapply resolved_waiting_subset. }
    eapply triple_conseq; [exact (triple_in_groups _ _ _ _ (eq r0) Hw) | done | done |].
    intros p [[Hd|Hd] _]; [by left | right; by exists s2].
  - apply triple_done. intros [d r] [<- <-]. split; [| done]. destruct (Hc eq_refl) as [-> ->].
    unfold s2. by destruct s0.
Qed.

(** C17: whatever fails, reconciling leaves the state of the store as it was or reconciled,
    and a state it returns is valid and the one in the store: each pending mutation is
    applied only if some journal recorded after it, of its plan, is reconciled with success
    after a transaction with return code zero, dropped only if such a journal is reconciled
    otherwise, and kept when no journal is. *)
Theorem group_reconcile_sound (pid : N) (d : directory) (r : root) (s0 : GroupState.t)
    (point : FaultPoint.t) (outcomes : list outcome) (w : world (directory * root))
    (x : exit GroupState.t)
    (Hread : read_state group_store (quiet d) = (quiet d, Value s0)) (Hseen : seen_parsed s0)
    (Hrun : reconcile_locked pid (mk_world (d, r) point outcomes) = (w, x)) :
  (exists s, (s = s0 \/ reconciled r s0 s) /\
     read_state group_store (quiet (fsys w).1) = (quiet (fsys w).1, Value s)) /\
  (forall s, x = Value s -> reconciled r s0 s /\ validate_state s = Ok tt /\ (fsys w).2 = r /\
     read_state group_store (quiet (fsys w).1) = (quiet (fsys w).1, Value s)).
Proof using SerdeJsonLaws0 group_readable.
  apply read_state_iff in Hread as Hs0.
  pose proof (reconcile_locked_triple pid s0 d r Hs0 Hseen (mk_world (d, r) point outcomes)
    (conj eq_refl eq_refl)) as Ht. rewrite Hrun in Ht. setoid_rewrite read_state_iff.
  destruct x as [s|e|].
  - destruct Ht as [[Hr Hd] E]. split; [exists s; auto |]. intros s' [= <-].
    split_and!; [done | by eapply reads_as_valid | done | done].
  - split; [| done]. destruct Ht as [Hd|(s & Hr & Hd)]; [exists s0; auto | exists s; auto].
  - split; [| done]. destruct Ht as [Hd|(s & Hr & Hd)]; [exists s0; auto | exists s; auto].
Qed.
End reconciliation.

(** ** A concrete store *)

Module GroupExamples.
Definition id : string := JournalExamples.id.
Definition digest : string := JournalExamples.digest.
#[local] Existing Instance JournalExamples.example_errno.

Definition entry (sequence : N) (state : JournalState.t) (native : option NativeResult.t)
    (reconciliation : option ReconcileResult.t) : JournalEntry.t :=
  JournalEntry.mk 1 id digest sequence state native reconciliation.

Definition e0 : JournalEntry.t := entry 0 JournalState.Prepared None None.
Definition e1 : JournalEntry.t := entry 1 JournalState.Started None None.
Definition e2 : JournalEntry.t := entry 2 JournalState.RpmResult
  (Some (NativeResult.mk 0 (CallbackSummary.mk 0 0 0 0 0 0 false) [])) None.
Definition e3 : JournalEntry.t := entry 3 JournalState.Reconciled None
  (Some (ReconcileResult.mk digest true 1)).

#[local] Instance example_entries : SerdeJson JournalEntry.t :=
  TableCodec.table_codec [(e0, bytes "e0"); (e1, bytes "e1"); (e2, bytes "e2"); (e3, bytes "e3")].

Definition core : gmap string (list string) := {["core" := ["bash"; "glibc"]]}.
Definition desktop : gmap string (list string) := {["desktop" := ["bash"; "gtk"]]}.

(** A state with one group, another state with a second one waiting, and what becomes of it. *)
Definition installed : GroupState.t := GroupState.mk 2 core ["glibc"] [].
Definition waiting : GroupState.t := GroupState.set_pending
  [PendingMutation.mk digest MutationKind.Install desktop ["gtk"] []] installed.
Definition applied : GroupState.t := apply_install installed desktop ["gtk"].

#[local] Instance example_states : SerdeJson GroupState.t :=
  json_codec GroupState.tree [waiting; applied].

#[local] Instance example_state_laws : SerdeJsonLaws GroupState.t (fun _ => True).
Proof. apply json_codec_laws. by apply (bool_decide_unpack _); vm_compute. Qed.

#[local] Instance example_state_text : JsonText GroupState.t GroupState.tree.
Proof. apply json_codec_text. Qed.

Lemma group_removal_exact_witness :
  validate_state (apply_remove applied ["desktop"]) = Ok tt /\
  removable_packages applied ["desktop"] = ["gtk"].
Proof.
  split; [| vm_compute; reflexivity].
  assert (Hv : validate_state applied = Ok tt) by (vm_compute; reflexivity).
  exact (proj1 (group_removal_exact applied ["desktop"] Hv)).
Defined.

Lemma group_install_remove_witness :
  apply_remove applied ["desktop"] = installed.
Proof.
  assert (Hids : (btree_entries desktop).*1 = ["desktop"]) by (vm_compute; reflexivity).
  rewrite <- Hids. refine (proj1 (group_install_remove installed desktop ["gtk"] _ _ _ _)).
  - vm_compute. reflexivity.
  - intros id [v Hv]. unfold desktop in Hv. apply lookup_singleton_Some in Hv as [<- _].
    vm_compute. reflexivity.
  - intros p ->%list_elem_of_singleton. exists "desktop", ["bash"; "gtk"].
    split; [vm_compute; reflexivity | right; left].
  - intros p ->%list_elem_of_singleton i (ps & Hl & Hp). simpl in Hl. unfold core in Hl.
    apply lookup_singleton_Some in Hl as [_ <-].
    apply (bool_decide_eq_true_2 _) in Hp. vm_compute in Hp. discriminate Hp.
Defined.

Definition record (e : JournalEntry.t) (d : directory) : directory := fsys (publish 7 e (quiet d)).1.

Definition journals : root := mk_root
  {[id := Some (record e3 (record e2 (record e1 (record e0 (mk_dir ∅ false true false)))))]} false.

Definition store : directory := mk_dir {[STATE_FILE := File (Json.print (GroupState.tree waiting)) true]} false true false.

Definition run : world (directory * root) * exit GroupState.t :=
  reconcile_locked 7 (mk_world (store, journals) FaultPoint.None []).

Lemma group_reconcile_sound_witness :
  run.2 = Value applied /\ reconciled journals waiting applied.
Proof.
  assert (Hrun : run.2 = Value applied) by (vm_compute; reflexivity).
  split; [exact Hrun |].
  assert (Hread : read_state group_store (quiet store) = (quiet store, Value waiting))
    by (vm_compute; reflexivity).
  assert (Hseen : seen_parsed waiting).
  { intros m i ->%list_elem_of_singleton Hi. inversion Hi. }
  assert (Hr : reconcile_locked 7 (mk_world (store, journals) FaultPoint.None []) = (run.1, run.2))
    by (change (run = (run.1, run.2)); apply surjective_pairing).
  destruct (group_reconcile_sound (H := example_entries) (H0 := example_states)
    (H1 := JournalExamples.example_errno) written_group_readable 7 store journals waiting
    FaultPoint.None [] run.1 run.2 Hread Hseen Hr) as [_ Ha].
  exact (proj1 (Ha applied Hrun)).
Defined.
End GroupExamples.
