(* ===== verification/ReasonState.v ===== *)
(** * Why packages are installed ([dnfast-state]: reason.rs)

    The reason recorded for every installed package after a transaction, and the packages no
    longer needed. *)
From S2P Require Import Prelude.
From S2P Require Import RustStr.
From S2P Require Import Value.
From S2P Require Import Canonical.
From S2P Require Import Policy.
From S2P Require Import Documents.
From S2P Require Import CorePlan.
From S2P Require Import Effects.
From S2P Require Import StateFs.
From S2P Require Import StateFile.

#[local] Open Scope N_scope.

Definition MAX_STATE_BYTES : N := 64 * 1024 * 1024.
Definition MAX_RECORDS : N := 200000.

Module ReasonDecision.
Inductive t : Type :=
  | Record (reason : PackageReason.t)
  | Keep (reason : PackageReason.t).

Definition reason (d : t) : PackageReason.t := match d with Record r | Keep r => r end.
End ReasonDecision.

(** [InstalledIdentity] and the pairs that stand for it: the rpmdb instance and the header. *)
Abbreviation InstalledIdentity := (N * string)%type.

Definition identity_of (package : InstalledPackage.t) : InstalledIdentity :=
  (InstalledPackage.db_instance package,
   Sha256Digest.as_str (InstalledPackage.immutable_header_sha256 package)).

(** [PlannedIdentity]: the name and the version. *)
Abbreviation PlannedIdentity := (string * Evra.t)%type.

Definition target_of (package : InstalledPackage.t) : PlannedIdentity :=
  (InstalledPackage.name package, InstalledPackage.evra package).
Definition planned_of (action : PackageAction.t) : PlannedIdentity :=
  (PackageAction.name action, PackageAction.target_evra action).

Module ReconciledReason.
Record t : Type := mk {
  identity : InstalledIdentity;
  package_name : string;
  decision : ReasonDecision.t
}.
End ReconciledReason.

Definition proposals_from_plan (plan : PlanEnvelope.t) : list (PlannedIdentity * PackageReason.t) :=
  bmap_of_list ((fun action => (planned_of action, PackageAction.reason action)) <$>
    base.filter (fun action => PackageAction.operation action <> PackageOperation.Remove)
      (PlanEnvelope.actions plan)).

Definition decide_reason (before_ids : list InstalledIdentity) (protected installonly : list string)
    (remaining : list (PlannedIdentity * PackageReason.t)) (package : InstalledPackage.t) :
    ReasonDecision.t * list (PlannedIdentity * PackageReason.t) :=
  let name := InstalledPackage.name package in
  let key := target_of package in
  let is_new := negb (bset_contains (identity_of package) before_ids) in
  if bset_contains name protected || bset_contains name installonly
  then (ReasonDecision.Keep PackageReason.User, remaining)
  else
    match (if is_new then bmap_lookup key remaining else None) with
    | Some reason =>
        (match reason with
         | PackageReason.External | PackageReason.Unknown => ReasonDecision.Keep reason
         | PackageReason.User | PackageReason.Dependency | PackageReason.WeakDependency =>
             ReasonDecision.Record reason
         end, bmap_remove key remaining)
    | None => (ReasonDecision.Keep PackageReason.External, remaining)
    end.

(** The closure of [map], which consumes the proposals. *)
Fixpoint reconcile_from (before_ids : list InstalledIdentity) (protected installonly : list string)
    (remaining : list (PlannedIdentity * PackageReason.t)) (packages : list InstalledPackage.t) :
    list ReconciledReason.t :=
  match packages with
  | [] => []
  | package :: rest =>
      let (decision, remaining) := decide_reason before_ids protected installonly remaining package in
      ReconciledReason.mk (identity_of package) (InstalledPackage.name package) decision
        :: reconcile_from before_ids protected installonly remaining rest
  end.

Definition reconcile_reasons (before after : InstalledInventory.t)
    (proposed : list (PlannedIdentity * PackageReason.t)) (protected installonly : list string) :
    list ReconciledReason.t :=
  reconcile_from (bset_of_list (identity_of <$> InstalledInventory.packages before))
    protected installonly proposed (InstalledInventory.packages after).

(** ** The store *)

Module ReasonRecord.
Record t : Type := mk {
  db_instance : N;
  header_sha256 : string;
  package_name : string;
  reason : PackageReason.t
}.

#[global] Instance reason_record_eq_dec : EqDecision t.
Proof. solve_decision. Defined.

Definition tuple (r : t) := (db_instance r, (header_sha256 r, (package_name r, reason r))).

#[global] Instance reason_record_ord : RustOrd t := ord_on tuple.
#[global] Instance reason_record_ord_laws : RustOrdLaws t.
Proof. apply (ord_on_laws tuple). intros [] []; unfold tuple; simpl. congruence. Qed.

Definition identity (r : t) : InstalledIdentity := (db_instance r, header_sha256 r).

(** The derived [Serialize]; [PackageReason] is renamed to snake case. *)
Definition reason_text (reason : PackageReason.t) : string :=
  match reason with
  | PackageReason.User => "user" | PackageReason.Dependency => "dependency"
  | PackageReason.WeakDependency => "weak_dependency" | PackageReason.External => "external"
  | PackageReason.Unknown => "unknown"
  end.

Definition tree (r : t) : Json.t :=
  Json.struct [("db_instance", Json.Number (Z.of_N (db_instance r)));
    ("header_sha256", Json.Text (header_sha256 r)); ("package_name", Json.Text (package_name r));
    ("reason", Json.Text (reason_text (reason r)))].
End ReasonRecord.

Module ReasonState.
Record t : Type := mk { schema_version : N; records : list ReasonRecord.t }.

#[global] Instance reason_state_eq_dec : EqDecision t.
Proof. solve_decision. Defined.

Definition default : t := mk 1 [].

(** The derived [Serialize]. *)
Definition tree (s : t) : Json.t :=
  Json.struct [("schema_version", Json.Number (Z.of_N (schema_version s)));
    ("records", Json.Array (ReasonRecord.tree <$> records s))].
End ReasonState.

Definition name_byte (b : byte) : bool :=
  is_ascii_alphanumeric b || existsb (fun v => byte_val b =? v) [43; 46; 95; 45].

Definition lower_hex (b : byte) : bool := is_ascii_hexdigit b && negb (is_ascii_uppercase b).

Definition validate_record (identities : list InstalledIdentity) (record : ReasonRecord.t) :
    result StateError.t (list InstalledIdentity) :=
  _ ← reject_if ((ReasonRecord.db_instance record =? 0)
        || negb (str_len (ReasonRecord.header_sha256 record) =? 64)
        || negb (forallb lower_hex (bytes (ReasonRecord.header_sha256 record)))
        || str_is_empty (ReasonRecord.package_name record)
        || (4096 <? str_len (ReasonRecord.package_name record))
        || existsb (fun b => negb (name_byte b)) (bytes (ReasonRecord.package_name record))
        || bset_contains (ReasonRecord.identity record) identities)
        (StateError.Corrupt "invalid package reason record");
  Ok (bset_insert (ReasonRecord.identity record) identities).

Definition validate_state (s : ReasonState.t) : result StateError.t unit :=
  _ ← reject_if (negb (ReasonState.schema_version s =? 1)
                 || (MAX_RECORDS <? N.of_nat (length (ReasonState.records s))))
        (StateError.Corrupt "invalid package reason state bounds");
  _ ← reject_if (windows2_any geb (ReasonState.records s))
        (StateError.Corrupt "package reason records are not canonical");
  _ ← fold_result validate_record [] (ReasonState.records s);
  Ok tt.

Definition reason_store : store_kind ReasonState.t := {|
  maximum := MAX_STATE_BYTES;
  not_canonical := "package reason state is not canonical JSON";
  limit := "package reason state";
  initial := ReasonState.default;
  migrate := Ok;
  validate := validate_state
|}.

(** [policy.is_protected(name) || policy.is_installonly(name) || policy.is_running_kernel(name)]. *)
Definition kept_by_policy (policy : SolverPolicy.t) (name : string) : bool :=
  SolverPolicy.is_protected policy name || SolverPolicy.is_installonly policy name
  || SolverPolicy.is_running_kernel policy name.

Definition existing_reasons (s : ReasonState.t) : list (InstalledIdentity * ReasonRecord.t) :=
  bmap_of_list ((fun record => (ReasonRecord.identity record, record)) <$> ReasonState.records s).

(** The closure of [filter_map]: what a replaced package was installed for. *)
Definition replacement_reason (existing : list (InstalledIdentity * ReasonRecord.t))
    (action : PackageAction.t) : option (PlannedIdentity * PackageReason.t) :=
  instance ← PackageAction.installed_instance action;
  header ← Sha256Digest.as_str <$> PackageAction.installed_header_sha256 action;
  previous ← bmap_lookup (instance, header) existing;
  Some (planned_of action, ReasonRecord.reason previous).

Definition replacement_reasons (existing : list (InstalledIdentity * ReasonRecord.t))
    (plan : PlanEnvelope.t) : list (PlannedIdentity * PackageReason.t) :=
  bmap_of_list (omap (replacement_reason existing)
    (base.filter (fun action => PackageAction.operation action <> PackageOperation.Install)
      (PlanEnvelope.actions plan))).

Definition by_identity (packages : list InstalledPackage.t) :
    list (InstalledIdentity * InstalledPackage.t) :=
  bmap_of_list ((fun package => (identity_of package, package)) <$> packages).

(** The loop body of [record_success]. *)
Definition reason_record (policy : SolverPolicy.t)
    (existing : list (InstalledIdentity * ReasonRecord.t))
    (replaced : list (PlannedIdentity * PackageReason.t))
    (after_by_identity : list (InstalledIdentity * InstalledPackage.t))
    (item : ReconciledReason.t) : result StateError.t ReasonRecord.t :=
  let exact := ReconciledReason.identity item in
  let name := ReconciledReason.package_name item in
  package ← ok_or (StateError.Corrupt "reconciled package disappeared")
    (bmap_lookup exact after_by_identity);
  let target := (name, InstalledPackage.evra package) in
  let reason :=
    if kept_by_policy policy name then PackageReason.User
    else
      match bmap_lookup target replaced with
      | Some reason => reason
      | None =>
          match bmap_lookup exact existing with
          | Some record => ReasonRecord.reason record
          | None => ReasonDecision.reason (ReconciledReason.decision item)
          end
      end in
  Ok (ReasonRecord.mk exact.1 exact.2 name reason).

Definition names_where (keep : string -> bool) (after : InstalledInventory.t) : list string :=
  bset_of_list (base.filter (fun name => keep name = true)
    (InstalledPackage.name <$> InstalledInventory.packages after)).

(** The computation of [record_success] between the read and the write. *)
Definition recorded_reasons (s : ReasonState.t) (before after : InstalledInventory.t)
    (plan : PlanEnvelope.t) (policy : SolverPolicy.t) : result StateError.t ReasonState.t :=
  let existing := existing_reasons s in
  let protected := names_where (SolverPolicy.is_protected policy) after in
  let installonly := names_where (fun name =>
    SolverPolicy.is_installonly policy name || SolverPolicy.is_running_kernel policy name) after in
  let reconciled := reconcile_reasons before after (proposals_from_plan plan) protected installonly in
  records ← mapM (reason_record policy existing (replacement_reasons existing plan)
    (by_identity (InstalledInventory.packages after))) reconciled;
  Ok (ReasonState.mk 1 (sort records)).

(** The computation of [autoremove_candidates] after the read. *)
Definition candidate (policy : SolverPolicy.t)
    (installed : list (InstalledIdentity * InstalledPackage.t)) (record : ReasonRecord.t) : bool :=
  match bmap_lookup (ReasonRecord.identity record) installed with
  | None => false
  | Some package =>
      bool_decide (InstalledPackage.name package = ReasonRecord.package_name record)
      && PackageReason.is_autoremove_candidate (ReasonRecord.reason record)
      && negb (kept_by_policy policy (InstalledPackage.name package))
  end.

Definition removal_candidates (s : ReasonState.t) (inventory : InstalledInventory.t)
    (policy : SolverPolicy.t) : result StateError.t (list string) :=
  let installed := by_identity (InstalledInventory.packages inventory) in
  let names := sort (ReasonRecord.package_name <$>
    base.filter (fun record => candidate policy installed record = true) (ReasonState.records s)) in
  _ ← reject_if (windows2_any (fun a b => bool_decide (a = b)) names)
        (StateError.Corrupt "autoremove package name has multiple installed identities");
  Ok names.

Section store.
Context `{SerdeJson ReasonState.t} `{ErrnoText} (pid : N).

Definition record_success (before after : InstalledInventory.t) (plan : PlanEnvelope.t)
    (policy : SolverPolicy.t) : io directory unit :=
  locking (
    state ← read_state reason_store;
    state ← lift (recorded_reasons state before after plan policy);
    write_state reason_store pid state).

Definition autoremove_candidates (inventory : InstalledInventory.t) (policy : SolverPolicy.t) :
    io directory (list string) :=
  locking (
    state ← read_state reason_store;
    lift (removal_candidates state inventory policy)).
End store.
