(* ===== verification/ReasonFacts.v ===== *)
(** * Correctness of the reason store

    What [record_success] records of every installed package, and what [autoremove_candidates]
    returns, whatever fails. *)
From S2P Require Import Prelude.
From S2P Require Import RustStr.
From S2P Require Import Value.
From S2P Require Import Canonical.
From S2P Require Import Policy.
From S2P Require Import Documents.
From S2P Require Import CorePlan.
From S2P Require Import Effects.
From S2P Require Import StateFs.
From S2P Require Import StateFile.
From S2P Require Import ReasonState.

#[local] Open Scope N_scope.

(** ** The invariant of a state *)

Record record_ok (r : ReasonRecord.t) : Prop := {
  ok_instance : ReasonRecord.db_instance r <> 0;
  ok_header : str_len (ReasonRecord.header_sha256 r) = 64 /\
    Forall (fun b => lower_hex b = true) (bytes (ReasonRecord.header_sha256 r));
  ok_name : str_is_empty (ReasonRecord.package_name r) = false /\
    str_len (ReasonRecord.package_name r) <= 4096 /\
    Forall (fun b => name_byte b = true) (bytes (ReasonRecord.package_name r))
}.

Record reasons_wf (s : ReasonState.t) : Prop := {
  wf_version : ReasonState.schema_version s = 1;
  wf_count : N.of_nat (length (ReasonState.records s)) <= MAX_RECORDS;
  wf_sorted : StronglySorted clt (ReasonState.records s);
  wf_records : Forall record_ok (ReasonState.records s);
  wf_identities : NoDup (ReasonRecord.identity <$> ReasonState.records s)
}.

Lemma validate_record_ok ids r ids' :
  validate_record ids r = Ok ids' <->
  record_ok r /\ ReasonRecord.identity r ∉ ids /\ ids' = bset_insert (ReasonRecord.identity r) ids.
Proof.
  unfold validate_record. rewrite bind_ok. split.
  - intros ([] & Hr%reject_if_ok & [= <-]).
    rewrite !orb_false_iff, !negb_false_iff, N.ltb_ge, !N.eqb_eq, N.eqb_neq, bset_contains_false,
      forallb_true, existsb_false in Hr.
    destruct Hr as [[[[[[? ?] ?] ?] ?] Hb] ?]. split; [| done]. split; [done.. |].
    split; [done |]. split; [done |]. eapply Forall_impl; [exact Hb |]. by intros b ?%negb_false_iff.
  - intros ([? [? ?] (? & ? & Hb)] & ? & ->). exists tt. split; [| done]. apply reject_if_ok.
    rewrite !orb_false_iff, !negb_false_iff, N.ltb_ge, !N.eqb_eq, N.eqb_neq, bset_contains_false,
      forallb_true, existsb_false. split_and!; try done.
    eapply Forall_impl; [exact Hb |]. by intros b ->.
Qed.

Lemma validate_records_ok records ids :
  (exists ids', fold_result validate_record ids records = Ok ids') <->
  Forall record_ok records /\ NoDup (ReasonRecord.identity <$> records) /\
  forall i, i ∈ ReasonRecord.identity <$> records -> i ∉ ids.
Proof.
  revert ids. induction records as [|r records IH]; intros ids; cbn [fold_result fmap list_fmap].
  { split; [| by eexists]. intros _. split; [done |]. split; [constructor |]. by intros ? ?%elem_of_nil. }
  rewrite Forall_cons, NoDup_cons. setoid_rewrite bind_ok. setoid_rewrite validate_record_ok.
  setoid_rewrite elem_of_cons. split.
  - intros (ids' & ids1 & (Hr & Hn & ->) & Hf).
    destruct (proj1 (IH _) (ex_intro _ _ Hf)) as (Hall & Hnd & Hni).
    setoid_rewrite elem_of_bset_insert in Hni. split_and!; [done.. | | done |].
    + intros Hin. by apply (Hni _ Hin); left.
    + intros i [->|Hi]; [done |]. intros Hii. by apply (Hni _ Hi); right.
  - intros ([Hr Hall] & [Hn Hnd] & Hni).
    destruct (proj2 (IH (bset_insert (ReasonRecord.identity r) ids))) as [ids' Hids].
    { split; [done |]. split; [done |]. intros i Hi. rewrite elem_of_bset_insert.
      intros [->|Hii]; [done |]. by apply (Hni i); [right |]. }
    exists ids'. eexists. split; [| exact Hids]. split; [done |]. split; [| done]. apply Hni. by left.
Qed.

Lemma reason_state_ok s u : validate_state s = Ok u <-> reasons_wf s.
Proof.
  destruct u. unfold validate_state. rewrite !bind_ok. split.
  - intros ([] & Hb%reject_if_ok & H). apply bind_ok in H as ([] & Hs%reject_if_ok & H).
    apply bind_ok in H as (ids & Hf & _). rewrite orb_false_iff, negb_false_iff, N.eqb_eq, N.ltb_ge in Hb.
    destruct (proj1 (validate_records_ok _ _) (ex_intro _ _ Hf)) as (? & ? & _).
    split; [apply Hb.. | by apply windows2_geb_sorted | done | done].
  - intros [Hv Hc Hs Hr Hi]. exists tt. split.
    { apply reject_if_ok. by rewrite orb_false_iff, negb_false_iff, N.eqb_eq, N.ltb_ge. }
    apply bind_ok. exists tt. split; [by apply reject_if_ok, windows2_geb_sorted |].
    apply bind_ok. destruct (proj2 (validate_records_ok (ReasonState.records s) [])) as [ids' Hids].
    { split; [done |]. split; [done |]. by intros i _ ?%elem_of_nil. }
    by exists ids'.
Qed.

(** ** Identities *)

Lemma identities_NoDup inventory :
  InstalledInventory.validate inventory = Ok tt ->
  NoDup (identity_of <$> InstalledInventory.packages inventory).
Proof.
  intros (_ & _ & _ & _ & _ & Hnd)%InventoryFacts.inventory_validate_ok.
  unfold InventoryFacts.instances in Hnd. apply (NoDup_fmap_1 fst). rewrite <- list_fmap_compose.
  exact Hnd.
Qed.

Lemma lookup_by_identity inventory i package :
  InstalledInventory.validate inventory = Ok tt ->
  bmap_lookup i (by_identity (InstalledInventory.packages inventory)) = Some package <->
  package ∈ InstalledInventory.packages inventory /\ identity_of package = i.
Proof.
  intros Hv. unfold by_identity. rewrite bmap_lookup_of_list.
  - rewrite list_elem_of_fmap. naive_solver.
  - rewrite <- list_fmap_compose. by apply identities_NoDup.
Qed.

Lemma lookup_existing s i record :
  reasons_wf s ->
  bmap_lookup i (existing_reasons s) = Some record <->
  record ∈ ReasonState.records s /\ ReasonRecord.identity record = i.
Proof.
  intros Hs. unfold existing_reasons. rewrite bmap_lookup_of_list.
  - rewrite list_elem_of_fmap. naive_solver.
  - rewrite <- list_fmap_compose. apply (wf_identities _ Hs).
Qed.

(** ** Packages no longer needed *)

(** The record [r] says that the installed [package] came in as a dependency, and nothing
    keeps it. *)
Definition due (s : ReasonState.t) (inventory : InstalledInventory.t) (policy : SolverPolicy.t)
    (package : InstalledPackage.t) : Prop :=
  package ∈ InstalledInventory.packages inventory /\
  kept_by_policy policy (InstalledPackage.name package) = false /\
  exists r, r ∈ ReasonState.records s /\ ReasonRecord.identity r = identity_of package /\
    ReasonRecord.package_name r = InstalledPackage.name package /\
    (ReasonRecord.reason r = PackageReason.Dependency \/
     ReasonRecord.reason r = PackageReason.WeakDependency).

Lemma autoremove_reason r :
  PackageReason.is_autoremove_candidate r = true <->
  r = PackageReason.Dependency \/ r = PackageReason.WeakDependency.
Proof. destruct r; naive_solver. Qed.

Lemma candidate_due s inventory policy r :
  InstalledInventory.validate inventory = Ok tt -> r ∈ ReasonState.records s ->
  candidate policy (by_identity (InstalledInventory.packages inventory)) r = true <->
  exists package, due s inventory policy package /\ ReasonRecord.identity r = identity_of package /\
    ReasonRecord.package_name r = InstalledPackage.name package /\
    PackageReason.is_autoremove_candidate (ReasonRecord.reason r) = true.
Proof.
  intros Hv Hr. unfold candidate. split.
  - destruct (bmap_lookup _ _) as [package|] eqn:El; [| done].
    apply (lookup_by_identity _ _ _ Hv) in El as [Hp Hi].
    intros [[Hn%bool_decide_eq_true Ha]%andb_true_iff Hk%negb_true_iff]%andb_true_iff.
    exists package. split; [| done]. split; [done |]. split; [done |]. exists r.
    split_and!; [done.. |]. by apply autoremove_reason.
  - intros (package & (Hp & Hk & _) & Hi & Hn & Ha).
    rewrite (proj2 (lookup_by_identity inventory (ReasonRecord.identity r) package Hv)) by done.
    by rewrite Hk, Ha, bool_decide_eq_true_2.
Qed.

Lemma elem_of_candidates s inventory policy name :
  InstalledInventory.validate inventory = Ok tt ->
  name ∈ ReasonRecord.package_name <$> base.filter (fun r =>
    candidate policy (by_identity (InstalledInventory.packages inventory)) r = true) (ReasonState.records s) <->
  exists package, due s inventory policy package /\ InstalledPackage.name package = name.
Proof.
  intros Hv. rewrite list_elem_of_fmap. split.
  - intros (r & -> & [Hc Hr]%list_elem_of_filter). apply (candidate_due _ _ _ _ Hv Hr) in Hc as (p & Hp & _ & Hn & _).
    by exists p.
  - intros (p & Hp & <-). destruct Hp as (Hin & Hk & r & Hr & Hi & Hn & Hd). exists r.
    split; [done |]. apply list_elem_of_filter. split; [| done]. apply (candidate_due _ _ _ _ Hv Hr).
    exists p. split; [by split_and!; try done; exists r |]. split_and!; [done.. |].
    by apply autoremove_reason.
Qed.

Lemma windows2_eq_sorted (l : list string) :
  windows2_any (fun a b => bool_decide (a = b)) (sort l) = false <-> StronglySorted clt (sort l).
Proof.
  rewrite <- windows2_geb_sorted.
  assert (Hs : StronglySorted (fun a b => cmp a b <> Gt) (sort l)) by (apply sort_by_sorted, cmp_is_preorder).
  induction Hs as [|a t Hs IH Ha]; [done |]. destruct t as [|b t]; [done |].
  change (bool_decide (a = b) || windows2_any (fun a b => bool_decide (a = b)) (b :: t) = false <->
    geb a b || windows2_any geb (b :: t) = false).
  rewrite !orb_false_iff, IH, geb_false. apply Forall_cons in Ha as [Ha _].
  unfold clt. split; intros [Hab ?]; (split; [| done]).
  - apply bool_decide_eq_false in Hab. destruct (cmp a b) eqn:E; [by apply cmp_eq in E | done | done].
  - apply bool_decide_eq_false. intros ->. by rewrite cmp_refl in Hab.
Qed.

Lemma fmap_NoDup_inj {A B} (f : A -> B) l x y :
  NoDup (f <$> l) -> x ∈ l -> y ∈ l -> f x = f y -> x = y.
Proof.
  intros Hnd [i Hi]%list_elem_of_lookup [j Hj]%list_elem_of_lookup E.
  assert (i = j) as ->; [| congruence].
  eapply (NoDup_lookup _ i j (f y) Hnd); rewrite list_lookup_fmap; [by rewrite Hi, <- E | by rewrite Hj].
Qed.

Lemma removal_candidates_ok s inventory policy names :
  reasons_wf s -> InstalledInventory.validate inventory = Ok tt ->
  removal_candidates s inventory policy = Ok names <->
  StronglySorted clt names /\
  (forall name, name ∈ names <->
     exists package, due s inventory policy package /\ InstalledPackage.name package = name) /\
  (forall p q, due s inventory policy p -> due s inventory policy q ->
     InstalledPackage.name p = InstalledPackage.name q -> p = q).
Proof.
  intros Hs Hv. unfold removal_candidates.
  set (chosen := base.filter _ (ReasonState.records s)). set (l := ReasonRecord.package_name <$> chosen).
  assert (Hchosen : forall r, r ∈ chosen <-> r ∈ ReasonState.records s /\
    candidate policy (by_identity (InstalledInventory.packages inventory)) r = true)
    by (intros r; unfold chosen; rewrite list_elem_of_filter; tauto).
  assert (Hl : forall name, name ∈ sort l <->
    exists package, due s inventory policy package /\ InstalledPackage.name package = name).
  { intros name. rewrite elem_of_sort. by apply elem_of_candidates. }
  assert (Hinj : NoDup l <-> forall p q, due s inventory policy p -> due s inventory policy q ->
    InstalledPackage.name p = InstalledPackage.name q -> p = q).
  { pose proof (identities_NoDup _ Hv) as Hids. pose proof (wf_identities _ Hs) as Hrids. split.
    - intros Hnd p q Hp Hq E.
      assert (Hrec : forall p, due s inventory policy p -> exists r, r ∈ chosen /\
        ReasonRecord.identity r = identity_of p /\ ReasonRecord.package_name r = InstalledPackage.name p).
      { intros p' Hp'. pose proof Hp' as (_ & _ & r & Hr & Hi & Hn & Hd). exists r. split_and!; try done.
        apply Hchosen. split; [done |]. apply (candidate_due _ _ _ _ Hv Hr). exists p'.
        split_and!; try done. by apply autoremove_reason. }
      destruct (Hrec p Hp) as (r & Hr & Hri & Hrn), (Hrec q Hq) as (r' & Hr' & Hri' & Hrn').
      assert (r = r') as -> by (apply (fmap_NoDup_inj ReasonRecord.package_name chosen); [exact Hnd | exact Hr | exact Hr' | congruence]).
      eapply (fmap_NoDup_inj identity_of); [exact Hids | apply Hp | apply Hq | congruence].
    - intros Hpq. apply NoDup_fmap_2_strong.
      + intros r r' [Hr Hc]%Hchosen [Hr' Hc']%Hchosen E.
        apply (candidate_due _ _ _ _ Hv Hr) in Hc as (p & Hp & Hi & Hn & _).
        apply (candidate_due _ _ _ _ Hv Hr') in Hc' as (q & Hq & Hi' & Hn' & _).
        assert (p = q) as -> by (apply Hpq; congruence).
        eapply (fmap_NoDup_inj ReasonRecord.identity); [exact Hrids | done | done | congruence].
      + apply NoDup_filter, (clt_sorted_NoDup _ (wf_sorted _ Hs)). }
  assert (Hsorted : StronglySorted clt (sort l) <-> NoDup l).
  { split; [| apply sort_NoDup_clt]. intros Hss. apply clt_sorted_NoDup in Hss.
    unfold sort in Hss. by rewrite sort_by_perm in Hss. }
  rewrite bind_ok. split.
  - intros ([] & Hw%reject_if_ok & [= <-]). apply windows2_eq_sorted in Hw. split; [done |].
    split; [done |]. apply Hinj, Hsorted, Hw.
  - intros (Hn & Hmem & Hpq). exists tt. split.
    + apply reject_if_ok, windows2_eq_sorted, Hsorted, Hinj, Hpq.
    + f_equal. apply clt_sorted_ext; [apply Hsorted, Hinj, Hpq | done |].
      intros name. by rewrite Hl, Hmem.
Qed.

(** ** What is recorded *)

Section recorded.
Context (s : ReasonState.t) (before after : InstalledInventory.t) (plan : PlanEnvelope.t)
  (policy : SolverPolicy.t).

(** The package was not there before the transaction, under this instance and header. *)
Definition is_new (package : InstalledPackage.t) : Prop :=
  identity_of package ∉ identity_of <$> InstalledInventory.packages before.

(** The action replaced a package of which the store knew the reason. *)
Definition replaced_by (action : PackageAction.t) (package : InstalledPackage.t)
    (reason : PackageReason.t) : Prop :=
  action ∈ PlanEnvelope.actions plan /\ PackageAction.operation action <> PackageOperation.Install /\
  planned_of action = target_of package /\
  exists record, record ∈ ReasonState.records s /\ reason = ReasonRecord.reason record /\
    PackageAction.installed_instance action = Some (ReasonRecord.db_instance record) /\
    Sha256Digest.as_str <$> PackageAction.installed_header_sha256 action =
      Some (ReasonRecord.header_sha256 record).

Definition known (package : InstalledPackage.t) (record : ReasonRecord.t) : Prop :=
  record ∈ ReasonState.records s /\ ReasonRecord.identity record = identity_of package.

Definition planned_for (package : InstalledPackage.t) (reason : PackageReason.t) : Prop :=
  exists action, action ∈ PlanEnvelope.actions plan /\
    PackageAction.operation action <> PackageOperation.Remove /\
    planned_of action = target_of package /\ PackageAction.reason action = reason.

(** An earlier package of the inventory has taken the proposal. *)
Definition taken (earlier : list InstalledPackage.t) (package : InstalledPackage.t) : Prop :=
  exists other, other ∈ earlier /\ is_new other /\ target_of other = target_of package.

(** The reason of a package after the transaction, [earlier] the packages before it. *)
Inductive reason_of (earlier : list InstalledPackage.t) (package : InstalledPackage.t) :
    PackageReason.t -> Prop :=
  | reason_of_kept :
      kept_by_policy policy (InstalledPackage.name package) = true ->
      reason_of earlier package PackageReason.User
  | reason_of_replaced action reason :
      kept_by_policy policy (InstalledPackage.name package) = false ->
      replaced_by action package reason -> reason_of earlier package reason
  | reason_of_known record :
      kept_by_policy policy (InstalledPackage.name package) = false ->
      (forall action reason, ~ replaced_by action package reason) -> known package record ->
      reason_of earlier package (ReasonRecord.reason record)
  | reason_of_planned reason :
      kept_by_policy policy (InstalledPackage.name package) = false ->
      (forall action reason, ~ replaced_by action package reason) ->
      (forall record, ~ known package record) ->
      is_new package -> ~ taken earlier package -> planned_for package reason ->
      reason_of earlier package reason
  | reason_of_external :
      kept_by_policy policy (InstalledPackage.name package) = false ->
      (forall action reason, ~ replaced_by action package reason) ->
      (forall record, ~ known package record) ->
      (~ is_new package \/ taken earlier package \/ forall reason, ~ planned_for package reason) ->
      reason_of earlier package PackageReason.External.

(** One record for each installed package, and no other. *)
Record recorded (s' : ReasonState.t) : Prop := {
  rec_version : ReasonState.schema_version s' = 1;
  rec_identities : ReasonRecord.identity <$> ReasonState.records s' ≡ₚ
    identity_of <$> InstalledInventory.packages after;
  rec_reasons : forall i package, InstalledInventory.packages after !! i = Some package ->
    exists r, r ∈ ReasonState.records s' /\ ReasonRecord.identity r = identity_of package /\
      ReasonRecord.package_name r = InstalledPackage.name package /\
      reason_of (take i (InstalledInventory.packages after)) package (ReasonRecord.reason r)
}.

(** *** The proposals *)

Lemma lookup_proposals package reason :
  bmap_lookup (target_of package) (proposals_from_plan plan) = Some reason ->
  planned_for package reason.
Proof.
  unfold proposals_from_plan. intros Hl%bmap_lookup_of_list_Some.
  apply list_elem_of_fmap in Hl as (action & [= E1 E2] & [Ho Ha]%list_elem_of_filter).
  exists action. split_and!; [done.. | | done]. unfold planned_of. rewrite <- E1. unfold target_of. by f_equal.
Qed.

Lemma lookup_proposals_None package :
  bmap_lookup (target_of package) (proposals_from_plan plan) = None ->
  forall reason, ~ planned_for package reason.
Proof.
  unfold proposals_from_plan. rewrite bmap_lookup_of_list_None. intros Hn reason (action & Ha & Ho & Ht & _).
  apply Hn. rewrite <- Ht, <- list_fmap_compose. apply list_elem_of_fmap. exists action.
  split; [done |]. by apply list_elem_of_filter.
Qed.

Context (protected installonly : list string).
Context (Hkept : forall package, package ∈ InstalledInventory.packages after ->
  bset_contains (InstalledPackage.name package) protected
  || bset_contains (InstalledPackage.name package) installonly =
  kept_by_policy policy (InstalledPackage.name package)).

#[local] Abbreviation before_ids := (bset_of_list (identity_of <$> InstalledInventory.packages before)).

Lemma contains_before package :
  bset_contains (identity_of package) before_ids = false <-> is_new package.
Proof. unfold is_new. by rewrite bset_contains_false, elem_of_bset_of_list. Qed.

(** The proposals left after [earlier]; only packages the policy does not keep take one. *)
Definition left_over (earlier : list InstalledPackage.t)
    (remaining : list (PlannedIdentity * PackageReason.t)) : Prop :=
  forall package, kept_by_policy policy (InstalledPackage.name package) = false ->
    (taken earlier package /\ bmap_lookup (target_of package) remaining = None) \/
    (~ taken earlier package /\ bmap_lookup (target_of package) remaining =
       bmap_lookup (target_of package) (proposals_from_plan plan)).

(** What the proposals say of an unkept package. *)
Definition proposed_reason (earlier : list InstalledPackage.t) (package : InstalledPackage.t)
    (reason : PackageReason.t) : Prop :=
  is_new package /\ ~ taken earlier package /\ planned_for package reason \/
  (~ is_new package \/ taken earlier package \/ forall reason, ~ planned_for package reason) /\
  reason = PackageReason.External.

Lemma taken_snoc earlier package other :
  taken (earlier ++ [package]) other <->
  taken earlier other \/ is_new package /\ target_of package = target_of other.
Proof.
  split.
  - intros (q & [Hq| ->%list_elem_of_singleton]%elem_of_app & Hn & E); [left; by exists q | by right].
  - intros [(q & Hq & Hn & E)|[Hn E]]; [exists q | exists package]; (split; [apply elem_of_app | done]);
      [by left | right; by apply list_elem_of_singleton].
Qed.

Lemma left_over_same earlier remaining package :
  left_over earlier remaining ->
  (forall other, kept_by_policy policy (InstalledPackage.name other) = false ->
     is_new package -> target_of package = target_of other ->
     bmap_lookup (target_of other) remaining = None) ->
  left_over (earlier ++ [package]) remaining.
Proof.
  intros Hl Hnone other Hk. rewrite taken_snoc. destruct (Hl other Hk) as [[Ht He]|[Ht He]].
  { left. auto. }
  destruct (decide (identity_of package ∈ identity_of <$> InstalledInventory.packages before)) as [Hin|Hnew].
  { right. split; [| done]. intros [?|[? _]]; [done |]. done. }
  destruct (decide (target_of package = target_of other)) as [Heq|Hne].
  - left. split; [auto |]. by apply Hnone.
  - right. split; [| done]. by intros [?|[_ ?]].
Qed.

Lemma left_over_removed earlier remaining package :
  left_over earlier remaining -> is_new package ->
  left_over (earlier ++ [package]) (bmap_remove (target_of package) remaining).
Proof.
  intros Hl Hnew other Hk. rewrite taken_snoc.
  destruct (decide (target_of package = target_of other)) as [Heq|Hne].
  - left. split; [auto |]. by rewrite Heq, bmap_lookup_remove_eq.
  - rewrite bmap_lookup_remove_ne by done. destruct (Hl other Hk) as [[Ht He]|[Ht He]]; [left; auto |].
    right. split; [| done]. by intros [?|[_ ?]].
Qed.

Lemma decide_reason_spec earlier remaining package decision remaining' :
  left_over earlier remaining -> package ∈ InstalledInventory.packages after ->
  decide_reason before_ids protected installonly remaining package = (decision, remaining') ->
  left_over (earlier ++ [package]) remaining' /\
  (kept_by_policy policy (InstalledPackage.name package) = false ->
   proposed_reason earlier package (ReasonDecision.reason decision)).
Proof.
  intros Hl Hin. unfold decide_reason. rewrite Hkept by done.
  destruct (kept_by_policy policy (InstalledPackage.name package)) eqn:Hk.
  { intros [= <- <-]. split; [| done]. apply left_over_same; [done |].
    intros other Hk' _ [= E _]. congruence. }
  destruct (bset_contains (identity_of package) before_ids) eqn:Hc; simpl.
  { intros [= <- <-]. assert (Hold : ~ is_new package) by (rewrite <- contains_before; congruence).
    split; [apply left_over_same; [done | by intros ???] |]. intros _. right. auto. }
  apply contains_before in Hc as Hnew. destruct (bmap_lookup _ remaining) as [reason|] eqn:El.
  - intros [= <- <-]. split; [by apply left_over_removed |]. intros _. left.
    destruct (Hl package Hk) as [[_ He]|[Ht He]]; [congruence |]. split_and!; [done.. |].
    apply lookup_proposals. rewrite <- He, El. by destruct reason.
  - intros [= <- <-]. split.
    + apply left_over_same; [done |]. intros other _ _ <-. done.
    + intros _. right. split; [| done]. right. destruct (Hl package Hk) as [[? _]|[_ He]]; [by left |].
      right. apply lookup_proposals_None. congruence.
Qed.

Definition explains (earlier : list InstalledPackage.t) (package : InstalledPackage.t)
    (item : ReconciledReason.t) : Prop :=
  ReconciledReason.identity item = identity_of package /\
  ReconciledReason.package_name item = InstalledPackage.name package /\
  (kept_by_policy policy (InstalledPackage.name package) = false ->
   proposed_reason earlier package (ReasonDecision.reason (ReconciledReason.decision item))).

Lemma reconcile_from_spec earlier rest remaining i package :
  (forall p, p ∈ rest -> p ∈ InstalledInventory.packages after) -> left_over earlier remaining ->
  rest !! i = Some package ->
  exists item, reconcile_from before_ids protected installonly remaining rest !! i = Some item /\
    explains (earlier ++ take i rest) package item.
Proof.
  revert earlier remaining i. induction rest as [|p rest IH]; intros earlier remaining i Hall Hl Hi; [done |].
  simpl. destruct (decide_reason _ _ _ _ _) as [decision remaining'] eqn:E.
  destruct (decide_reason_spec earlier remaining p decision remaining') as [Hl' Hd];
    [done | apply Hall; by left | done |].
  destruct i as [|i]; simpl in Hi.
  - injection Hi as ->. eexists. split; [done |]. rewrite app_nil_r. by split.
  - destruct (IH (earlier ++ [p]) remaining' i) as (item & Hitem & He); [| done | done |].
    + intros q Hq. apply Hall. by right.
    + exists item. split; [done |]. by rewrite <- app_assoc in He.
Qed.

Lemma length_reconcile_from remaining rest :
  length (reconcile_from before_ids protected installonly remaining rest) = length rest.
Proof.
  revert remaining. induction rest as [|p rest IH]; intros remaining; [done |]. simpl.
  destruct (decide_reason _ _ _ _ _) as [decision remaining']. simpl. by rewrite IH.
Qed.

Lemma left_over_start : left_over [] (proposals_from_plan plan).
Proof. intros package _. right. split; [| done]. by intros (? & ?%elem_of_nil & _). Qed.
End recorded.

Section recording.
Context (s : ReasonState.t) (before after : InstalledInventory.t) (plan : PlanEnvelope.t)
  (policy : SolverPolicy.t).
Context (Hs : reasons_wf s) (Hafter : InstalledInventory.validate after = Ok tt).

Lemma replacement_reason_some action target reason :
  replacement_reason (existing_reasons s) action = Some (target, reason) <->
  planned_of action = target /\ exists record, record ∈ ReasonState.records s /\
    reason = ReasonRecord.reason record /\
    PackageAction.installed_instance action = Some (ReasonRecord.db_instance record) /\
    Sha256Digest.as_str <$> PackageAction.installed_header_sha256 action =
      Some (ReasonRecord.header_sha256 record).
Proof.
  unfold replacement_reason. destruct (PackageAction.installed_instance action) as [instance|]; simpl;
    [| naive_solver].
  destruct (Sha256Digest.as_str <$> PackageAction.installed_header_sha256 action) as [header|]; simpl;
    [| naive_solver].
  destruct (bmap_lookup (instance, header) (existing_reasons s)) as [record|] eqn:El; simpl.
  - apply (lookup_existing _ _ _ Hs) in El as [Hr Hi]. injection Hi as <- <-. split.
    + intros [= <- <-]. split; [done |]. by exists record.
    + intros (<- & record' & Hr' & -> & [= Ei] & [= Eh]). do 3 f_equal.
      apply (fmap_NoDup_inj ReasonRecord.identity (ReasonState.records s)); [apply Hs | done.. |].
      unfold ReasonRecord.identity. by rewrite Ei, Eh.
  - split; [done |]. intros (_ & record & Hr & _ & [= ->] & [= ->]).
    assert (Hl : bmap_lookup (ReasonRecord.identity record) (existing_reasons s) = Some record)
      by by apply (lookup_existing _ _ _ Hs).
    unfold ReasonRecord.identity in Hl. congruence.
Qed.

Lemma lookup_replaced package reason :
  bmap_lookup (target_of package) (replacement_reasons (existing_reasons s) plan) = Some reason ->
  exists action, replaced_by s plan action package reason.
Proof.
  intros Hl%bmap_lookup_of_list_Some. apply list_elem_of_omap in Hl as (action & Ha & Hr).
  apply list_elem_of_filter in Ha as [Ho Ha]. apply replacement_reason_some in Hr as [Ht Hr].
  by exists action.
Qed.

Lemma lookup_replaced_None package :
  bmap_lookup (target_of package) (replacement_reasons (existing_reasons s) plan) = None ->
  forall action reason, ~ replaced_by s plan action package reason.
Proof.
  unfold replacement_reasons. rewrite bmap_lookup_of_list_None.
  intros Hn action reason (Ha & Ho & Ht & Hr). apply Hn. apply list_elem_of_fmap.
  exists (target_of package, reason). split; [done |]. apply list_elem_of_omap. exists action.
  split; [by apply list_elem_of_filter |]. by apply replacement_reason_some.
Qed.

Lemma reason_record_spec earlier package item :
  package ∈ InstalledInventory.packages after ->
  explains before plan policy earlier package item ->
  exists r, reason_record policy (existing_reasons s) (replacement_reasons (existing_reasons s) plan)
      (by_identity (InstalledInventory.packages after)) item = Ok r /\
    ReasonRecord.identity r = identity_of package /\
    ReasonRecord.package_name r = InstalledPackage.name package /\
    reason_of s before plan policy earlier package (ReasonRecord.reason r).
Proof.
  intros Hp (Hi & Hn & Hd). unfold reason_record. rewrite Hi, Hn.
  rewrite (proj2 (lookup_by_identity after (identity_of package) package Hafter)) by done. simpl.
  eexists. split; [done |]. split; [done |]. split; [done |]. simpl.
  destruct (kept_by_policy policy (InstalledPackage.name package)) eqn:Hk; [by apply reason_of_kept |].
  change (InstalledPackage.name package, InstalledPackage.evra package) with (target_of package).
  destruct (bmap_lookup (target_of package) _) as [reason|] eqn:Er.
  { apply lookup_replaced in Er as [action Ha]. by eapply reason_of_replaced. }
  pose proof (lookup_replaced_None _ Er) as Hnone.
  destruct (bmap_lookup (identity_of package) _) as [record|] eqn:Ee.
  { apply (lookup_existing _ _ _ Hs) in Ee as [Hin He]. by apply reason_of_known. }
  assert (Hunknown : forall record, ~ known s package record).
  { intros record Hkn. apply (lookup_existing _ _ _ Hs) in Hkn. congruence. }
  destruct (Hd eq_refl) as [(Hnew & Ht & Hpl)|[Hext ->]].
  - by apply reason_of_planned.
  - by apply reason_of_external.
Qed.

Lemma contains_names_where keep package :
  package ∈ InstalledInventory.packages after ->
  bset_contains (InstalledPackage.name package) (names_where keep after) =
  keep (InstalledPackage.name package).
Proof.
  intros Hp. apply eq_true_iff_eq. unfold names_where.
  rewrite bset_contains_spec, elem_of_bset_of_list, list_elem_of_filter. split; [by intros [? _] |].
  intros Hk. split; [done |]. apply list_elem_of_fmap. by exists package.
Qed.

Lemma Forall2_total {E A B} (f : A -> result E B) (l : list A) :
  (forall x, x ∈ l -> exists y, f x = Ok y) -> exists k, Forall2 (fun x y => f x = Ok y) l k.
Proof.
  induction l as [|x l IH]; intros Hall; [by exists [] |].
  destruct (Hall x) as [y Hy]; [by left |]. destruct IH as [k Hk]; [intros z Hz; apply Hall; by right |].
  exists (y :: k). by constructor.
Qed.

Lemma recorded_reasons_spec :
  exists s', recorded_reasons s before after plan policy = Ok s' /\
    recorded s before after plan policy s'.
Proof.
  unfold recorded_reasons, reconcile_reasons.
  set (protected := names_where (SolverPolicy.is_protected policy) after).
  set (installonly := names_where (fun name => SolverPolicy.is_installonly policy name
    || SolverPolicy.is_running_kernel policy name) after).
  assert (Hkept : forall package, package ∈ InstalledInventory.packages after ->
    bset_contains (InstalledPackage.name package) protected
    || bset_contains (InstalledPackage.name package) installonly =
    kept_by_policy policy (InstalledPackage.name package)).
  { intros package Hp. unfold protected, installonly. rewrite !contains_names_where by done.
    apply orb_assoc. }
  set (items := reconcile_from _ protected installonly _ _).
  assert (Hitems : forall i package, InstalledInventory.packages after !! i = Some package ->
    exists item, items !! i = Some item /\
      explains before plan policy (take i (InstalledInventory.packages after)) package item).
  { intros i package Hi. unfold items.
    apply (reconcile_from_spec before after plan policy protected installonly Hkept []); [done | | done].
    apply left_over_start. }
  set (f := reason_record _ _ _ _).
  assert (Htotal : forall item, item ∈ items -> exists r, f item = Ok r).
  { intros item [i Hi]%list_elem_of_lookup.
    assert (Hlt : (i < length (InstalledInventory.packages after))%nat).
    { apply lookup_lt_Some in Hi. unfold items in Hi. by rewrite length_reconcile_from in Hi. }
    apply lookup_lt_is_Some in Hlt as [package Hp]. destruct (Hitems i package Hp) as (item' & Hi' & He).
    rewrite Hi in Hi'. injection Hi' as <-.
    destruct (reason_record_spec _ package item (list_elem_of_lookup_2 _ _ _ Hp) He) as (r & Hr & _).
    by exists r. }
  destruct (Forall2_total f items Htotal) as [records Hrec].
  assert (Hrecords : forall i package, InstalledInventory.packages after !! i = Some package ->
    exists r, records !! i = Some r /\ ReasonRecord.identity r = identity_of package /\
      ReasonRecord.package_name r = InstalledPackage.name package /\
      reason_of s before plan policy (take i (InstalledInventory.packages after)) package
        (ReasonRecord.reason r)).
  { intros i package Hp. destruct (Hitems i package Hp) as (item & Hi & He).
    destruct (reason_record_spec _ package item (list_elem_of_lookup_2 _ _ _ Hp) He) as (r & Hr & Hspec).
    destruct (Forall2_lookup_l _ _ _ _ _ Hrec Hi) as (r' & Hr' & Hf). fold f in Hr. cbv beta in Hf.
    exists r. split; [congruence | exact Hspec]. }
  exists (ReasonState.mk 1 (sort records)). split.
  { apply (proj2 (mapM_ok f items records)) in Hrec. rewrite Hrec. done. }
  split; [done | |].
  - simpl. unfold sort. rewrite sort_by_perm.
    assert (E : ReasonRecord.identity <$> records = identity_of <$> InstalledInventory.packages after); [| by rewrite E].
    apply list_eq. intros i. rewrite !list_lookup_fmap.
    destruct (InstalledInventory.packages after !! i) as [package|] eqn:Hp; simpl.
    + destruct (Hrecords i package Hp) as (r & -> & Hi & _). cbn [fmap option_fmap option_map]. f_equal. exact Hi.
    + apply lookup_ge_None in Hp. rewrite lookup_ge_None_2; [done |].
      rewrite <- (Forall2_length _ _ _ Hrec). unfold items. by rewrite length_reconcile_from.
  - intros i package Hp. destruct (Hrecords i package Hp) as (r & Hr & Hspec). exists r.
    split; [| exact Hspec]. simpl. apply (proj2 (elem_of_sort _ _)). by eapply list_elem_of_lookup_2.
Qed.
End recording.

(** ** Texts *)

Lemma record_bounded r : record_ok r -> tree_within 1 (ReasonRecord.tree r).
Proof.
  intros [_ [Hh _] (_ & Hn & _)]. apply (bounded_struct 0). bounded_fields; (apply bounded_leaf; [| done]).
  - apply short_text_fits. rewrite Hh. vm_compute. discriminate.
  - apply short_text_fits. etrans; [apply N.mul_le_mono_l, Hn |]. vm_compute. discriminate.
  - by destruct (ReasonRecord.reason r).
Qed.

(** A valid state nests three levels of short strings: only the length of its text can be too
    much for the reader. *)
Lemma state_bounded s : reasons_wf s -> tree_within 3 (ReasonState.tree s).
Proof.
  intros Hs. apply (bounded_struct 2). bounded_fields. apply (bounded_array 1), Forall_fmap.
  eapply Forall_impl; [apply (wf_records s Hs) |]. apply record_bounded.
Qed.

(** ** The store *)

Section store.
Context `{SerdeJson ReasonState.t} `{ErrnoText} `{!SerdeJsonLaws ReasonState.t (fun _ => True)}.
Context `{!JsonText ReasonState.t ReasonState.tree}.

Lemma triple_locking {D A} (P : D -> Prop) (m : io D A) (Q : A -> D -> Prop) (R : D -> Prop) :
  (forall d, P d -> R d) -> (forall a d, Q a d -> R d) ->
  triple P m Q R -> triple P (locking m) Q R.
Proof.
  intros HP HQ Hm. unfold locking. eapply triple_bind; [by apply triple_sync |]. intros [].
  eapply triple_bind; [by apply triple_attempt |]. intros [a|e]; cbv beta.
  - apply (triple_bind _ _ _ (fun _ => Q a)).
    + eapply triple_conseq; [apply (triple_attempt (Q a) sync (fun _ => Q a) (Q a)), triple_sync; auto | done | by intros [] | by apply HQ].
    + intros _r w Hw. done.
  - apply (triple_bind _ _ _ (fun _ => R)).
    + eapply triple_conseq; [apply (triple_attempt R sync (fun _ => R) R), triple_sync; auto | done | by intros [] | done].
    + intros _r w Hw. done.
Qed.

Lemma read_reasons_triple s d0 (R : directory -> Prop) :
  reads_as reason_store s d0 -> R d0 ->
  triple (eq d0) (read_state reason_store) (fun s' d => s' = s /\ d0 = d) R.
Proof.
  intros Hs HR. eapply triple_conseq; [apply (read_state_triple reason_store d0) | done | | by intros d <-].
  intros s' d [Hs' <-]. split; [by eapply reads_as_functional | done].
Qed.

Lemma reads_as_wf s d : reads_as reason_store s d -> reasons_wf s.
Proof.
  intros [[_ ->]|(bs & _ & _ & Hd)]; [by apply (proj1 (reason_state_ok _ tt)) |]. unfold decode_state in Hd.
  apply bind_ok in Hd as (s0 & _ & Hd). apply bind_ok in Hd as (s1 & [= <-] & Hd).
  apply bind_ok in Hd as ([] & Hv & [= <-]). by apply reason_state_ok in Hv.
Qed.

(** The file is the text of [s], which is read back as [s] exactly when it is a document of
    at most 16 MiB: the store writes up to 64 MiB. *)
Definition stored (s : ReasonState.t) (d : directory) : Prop :=
  exists t, file_at STATE_FILE d = Some (File t true) /\ serialize s = Ok t /\
    N.of_nat (length t) <= MAX_STATE_BYTES /\
    (read_state reason_store (quiet d) = (quiet d, Value s) <-> N.of_nat (length t) <= MAX_DOCUMENT_BYTES).

Lemma holds_text_stored s t d : holds_text reason_store s t d -> stored s d.
Proof using JsonText0 SerdeJsonLaws0.
  intros Ht. exists t. pose proof Ht as (Hf & Hs & Hl & Hv). split; [done |]. split; [done |]. split; [done |].
  rewrite read_state_iff, (holds_text_reads reason_store s t d) by done. apply (proj1 (reason_state_ok s tt)) in Hv.
  apply serialize_ok, to_vec_print in Hs as ->. split.
  - intros Hi%inspect_limits. apply Hi.
  - apply inspect_bounded, (bounded_le 3); [vm_compute; discriminate | by apply state_bounded].
Qed.

Lemma record_success_triple pid d s before after plan policy :
  reads_as reason_store s d -> InstalledInventory.validate after = Ok tt ->
  exists s', recorded s before after plan policy s' /\
    triple (eq d) (record_success pid before after plan policy)
      (fun _ => stored s') (fun d => reads_as reason_store s d \/ stored s' d).
Proof using JsonText0 SerdeJsonLaws0.
  intros Hs Hafter. pose proof (reads_as_wf _ _ Hs) as Hwf.
  destruct (recorded_reasons_spec s before after plan policy Hwf Hafter) as (s' & Hs' & Hrec).
  exists s'. split; [done |]. apply triple_locking; [by intros ? <-; left | by intros [] ? ?; right |].
  eapply triple_seq; [apply (read_reasons_triple s); [done | by left] |].
  intros ? ->. eapply triple_seq; [apply triple_lift; by intros ? <-; left |].
  intros s1 Hs1. rewrite Hs' in Hs1. injection Hs1 as <-.
  eapply triple_conseq; [apply write_state_written | done | by intros [] d' [t Ht%holds_text_stored] |].
  intros d' [Hd|[t Ht%holds_text_stored]]; [left; by apply (reads_as_file _ _ d) | by right].
Qed.

(** C19: whatever fails, [record_success] leaves the reasons as they were or the file with
    the text of those of after the transaction, the latter when it succeeds: exactly one
    record for each installed package, whose reason is the user's for a package the policy
    keeps, else the one of the package it replaces, else the one known of it, else the one
    planned for it when it is new, and external otherwise.  That text is read back as these
    reasons exactly when it is no longer than the 16 MiB a reader takes, while up to 64 MiB
    are written with success. *)
Theorem record_success_sound (pid : N) (d : directory) (s : ReasonState.t)
    (before after : InstalledInventory.t) (plan : PlanEnvelope.t) (policy : SolverPolicy.t)
    (point : FaultPoint.t) (outcomes : list outcome) (w : world directory) (x : exit unit)
    (Hread : read_state reason_store (quiet d) = (quiet d, Value s))
    (Hafter : InstalledInventory.validate after = Ok tt)
    (Hrun : record_success pid before after plan policy (mk_world d point outcomes) = (w, x)) :
  exists s', recorded s before after plan policy s' /\
    (read_state reason_store (quiet (fsys w)) = (quiet (fsys w), Value s) \/ stored s' (fsys w)) /\
    (x = Value tt -> stored s' (fsys w)).
Proof using JsonText0 SerdeJsonLaws0.
  apply read_state_iff in Hread as Hs.
  destruct (record_success_triple pid d s before after plan policy Hs Hafter) as (s' & Hrec & Ht).
  specialize (Ht (mk_world d point outcomes) eq_refl). rewrite Hrun in Ht.
  exists s'. split; [done |]. rewrite read_state_iff.
  destruct x as [[]|e|]; [by auto | by split | by split].
Qed.

(** [autoremove_candidates] changes nothing, and when it returns, it returns in order the
    names of exactly the installed packages recorded, under their instance, header and name,
    as dependencies that the policy does not keep, no two of them of one name; without a
    failure it returns them exactly when no two have one name. *)
Theorem autoremove_candidates_exact (d : directory) (s : ReasonState.t)
    (inventory : InstalledInventory.t) (policy : SolverPolicy.t)
    (Hread : read_state reason_store (quiet d) = (quiet d, Value s))
    (Hinventory : InstalledInventory.validate inventory = Ok tt) :
  (forall point outcomes w x,
     autoremove_candidates inventory policy (mk_world d point outcomes) = (w, x) ->
     fsys w = d /\ forall names, x = Value names ->
       StronglySorted clt names /\
       (forall name, name ∈ names <->
          exists package, due s inventory policy package /\ InstalledPackage.name package = name) /\
       (forall p q, due s inventory policy p -> due s inventory policy q ->
          InstalledPackage.name p = InstalledPackage.name q -> p = q)) /\
  ((exists names, autoremove_candidates inventory policy (quiet d) = (quiet d, Value names)) <->
   forall p q, due s inventory policy p -> due s inventory policy q ->
     InstalledPackage.name p = InstalledPackage.name q -> p = q).
Proof using.
  apply read_state_iff in Hread as Hs. pose proof (reads_as_wf _ _ Hs) as Hwf.
  assert (Ht : triple (eq d) (autoremove_candidates inventory policy)
    (fun names d' => removal_candidates s inventory policy = Ok names /\ d = d') (eq d)).
  { apply triple_locking; [done | by intros ? ? [_ <-] |].
    eapply triple_seq; [by apply (read_reasons_triple s) |]. intros ? ->. by apply triple_lift. }
  assert (Hall : forall point outcomes w x,
     autoremove_candidates inventory policy (mk_world d point outcomes) = (w, x) ->
     fsys w = d /\ forall names, x = Value names -> removal_candidates s inventory policy = Ok names).
  { intros point outcomes w x E. specialize (Ht (mk_world d point outcomes) eq_refl). rewrite E in Ht.
    destruct x as [names|e|]; [| done..]. destruct Ht as [Hr <-]. split; [done |]. by intros ? [= <-]. }
  split.
  - intros point outcomes w x E. destruct (Hall _ _ _ _ E) as [Hd Hr]. split; [done |].
    intros names Hn. apply removal_candidates_ok; auto.
  - split.
    + intros [names E]. destruct (Hall _ _ _ _ E) as [_ Hr].
      by apply (removal_candidates_ok s inventory policy names Hwf Hinventory), Hr.
    + intros Hpq. destruct (removal_candidates s inventory policy) as [names|e] eqn:Er.
      * exists names. unfold autoremove_candidates, locking.
        eapply run_bind; [done |]. eapply run_bind.
        { apply run_attempt. eapply run_bind; [by apply read_state_run |]. simpl. rewrite Er. done. }
        done.
      * exfalso. destruct (removal_candidates_ok s inventory policy (bset_of_list
          (ReasonRecord.package_name <$> base.filter (fun r => candidate policy
            (by_identity (InstalledInventory.packages inventory)) r = true) (ReasonState.records s)))
          Hwf Hinventory) as [_ Hok].
        rewrite Er in Hok. discriminate Hok.
        split; [apply bset_of_list_sorted |]. split; [| done]. intros name.
        rewrite elem_of_bset_of_list. by apply elem_of_candidates.
Qed.
End store.

(** ** A concrete store *)

Module ReasonExamples.
#[local] Instance example_errno : ErrnoText := {|
  enoent := "No such file or directory (os error 2)"; eexist := "File exists (os error 17)";
  eloop := "Too many levels of symbolic links (os error 40)";
  eisdir := "Is a directory (os error 21)"; enotdir := "Not a directory (os error 20)";
  enotempty := "Directory not empty (os error 39)"
|}.

Definition digest : Sha256Digest.t := PlanFacts.example_digest.
Definition package (name : string) (evra : Evra.t) (instance : N) : InstalledPackage.t :=
  InstalledPackage.mk name evra "Fedora" instance 1 digest.
Definition inventory (packages : list InstalledPackage.t) : InstalledInventory.t :=
  InstalledInventory.mk 1 "/" "sqlite" "6.0" packages.

(** The plan of [PlanFacts]: zsh is installed for the user, bash upgraded, ksh removed. *)
Definition before : InstalledInventory.t :=
  inventory [package "bash" PlanFacts.old_evra 3; package "ksh" PlanFacts.old_evra 4].
Definition after : InstalledInventory.t :=
  inventory [package "bash" PlanFacts.new_evra 9; package "zsh" PlanFacts.new_evra 10].

Definition record (name : string) (instance : N) (reason : PackageReason.t) : ReasonRecord.t :=
  ReasonRecord.mk instance (Sha256Digest.as_str digest) name reason.

Definition known_reasons : ReasonState.t :=
  ReasonState.mk 1 [record "bash" 3 PackageReason.Dependency].
Definition new_reasons : ReasonState.t :=
  ReasonState.mk 1 [record "bash" 9 PackageReason.Dependency; record "zsh" 10 PackageReason.User].

#[local] Instance example_states : SerdeJson ReasonState.t :=
  json_codec ReasonState.tree [known_reasons; new_reasons].

#[local] Instance example_state_laws : SerdeJsonLaws ReasonState.t (fun _ => True).
Proof. apply json_codec_laws. by apply (bool_decide_unpack _); vm_compute. Qed.

#[local] Instance example_state_text : JsonText ReasonState.t ReasonState.tree.
Proof. apply json_codec_text. Qed.

(** The directory of the store with the text of a state. *)
Definition directory_of (s : ReasonState.t) : directory :=
  mk_dir {[STATE_FILE := File (Json.print (ReasonState.tree s)) true]} false true false.

Definition run : world directory * exit unit :=
  record_success 7 before after PlanFacts.example_plan PlanFacts.example_policy
    (mk_world (directory_of known_reasons) FaultPoint.None []).

Lemma record_success_sound_witness :
  run.2 = Value tt /\
  read_state reason_store (quiet (fsys run.1)) = (quiet (fsys run.1), Value new_reasons) /\
  recorded known_reasons before after PlanFacts.example_plan PlanFacts.example_policy new_reasons.
Proof.
  assert (Hx : run.2 = Value tt) by (vm_compute; reflexivity).
  assert (Hnew : read_state reason_store (quiet (fsys run.1)) = (quiet (fsys run.1), Value new_reasons))
    by (vm_compute; reflexivity).
  split; [exact Hx |]. split; [exact Hnew |].
  assert (Hread : read_state reason_store (quiet (directory_of known_reasons)) =
    (quiet (directory_of known_reasons), Value known_reasons)) by (vm_compute; reflexivity).
  assert (Hafter : InstalledInventory.validate after = Ok tt) by (vm_compute; reflexivity).
  assert (Hr : record_success 7 before after PlanFacts.example_plan PlanFacts.example_policy
    (mk_world (directory_of known_reasons) FaultPoint.None []) = (run.1, run.2))
    by (change (run = (run.1, run.2)); apply surjective_pairing).
  destruct (record_success_sound 7 (directory_of known_reasons)
    known_reasons before after PlanFacts.example_plan PlanFacts.example_policy
    FaultPoint.None [] run.1 run.2 Hread Hafter Hr) as (s' & Hrec & _ & Hs').
  destruct (Hs' Hx) as (t & Hf & Ht & _ & Hback).
  assert (Hlen : N.of_nat (length t) <= MAX_DOCUMENT_BYTES).
  { assert (E : file_at STATE_FILE (fsys run.1) = Some (File (Json.print (ReasonState.tree new_reasons)) true))
      by (vm_compute; reflexivity).
    rewrite E in Hf. injection Hf as <-. vm_compute. discriminate. }
  apply Hback in Hlen.
  assert (E : Value (E := StateError.t) new_reasons = Value s').
  { transitivity (read_state reason_store (quiet (fsys run.1))).2; [by rewrite Hnew | by rewrite Hlen]. }
  injection E as ->. exact Hrec.
Defined.

Lemma autoremove_candidates_exact_witness :
  autoremove_candidates after PlanFacts.example_policy (quiet (directory_of new_reasons)) =
    (quiet (directory_of new_reasons), Value ["bash"]) /\
  exists p, due new_reasons after PlanFacts.example_policy p /\ InstalledPackage.name p = "bash".
Proof.
  assert (Hr : autoremove_candidates after PlanFacts.example_policy (quiet (directory_of new_reasons)) =
    (quiet (directory_of new_reasons), Value ["bash"])) by (vm_compute; reflexivity).
  split; [exact Hr |].
  assert (Hread : read_state reason_store (quiet (directory_of new_reasons)) =
    (quiet (directory_of new_reasons), Value new_reasons)) by (vm_compute; reflexivity).
  assert (Hafter : InstalledInventory.validate after = Ok tt) by (vm_compute; reflexivity).
  destruct (autoremove_candidates_exact (directory_of new_reasons) new_reasons after PlanFacts.example_policy
    Hread Hafter) as [Hall _].
  destruct (Hall FaultPoint.None [] (quiet (directory_of new_reasons)) (Value ["bash"]) Hr) as [_ Hn].
  destruct (Hn ["bash"] eq_refl) as (_ & Hm & _). apply (proj1 (Hm "bash")). left.
Defined.
End ReasonExamples.
