(* ===== verification/PlanningFs.v ===== *)
(** * Trusted directories ([dnfast-planning]: fs.rs)

    A file system is a tree; a descriptor of a directory is its path, since nothing renames or
    removes a directory while a descriptor of it is used.  Every system call may fail or be the
    last one of the process ([Effects]).  What a call would answer is decided by the tree: the
    directories are not writable for other users, and the publisher holds a lock. *)
From S2P Require Import Prelude.
From S2P Require Import RustStr.
From S2P Require Import RustText.
From S2P Require Import UnixPath.
From S2P Require Import Modulemd.
From S2P Require Import Effects.

#[local] Open Scope N_scope.

(** ** The tree *)

Module Stat.
(** The twelve bits of the mode, without the type. *)
Record t : Type := mk { uid : N; mode : N; nlink : N }.

#[global] Instance stat_eq_dec : EqDecision t.
Proof. solve_decision. Defined.
End Stat.

(** [synced]: the content survives a loss of power. *)
Inductive node : Type :=
  | File (s : Stat.t) (content : list byte) (synced : bool)
  | Directory (s : Stat.t) (entries : gmap string node)
  | Link
  | Other (s : Stat.t).

Fixpoint get (p : list string) (n : node) : option node :=
  match p with
  | [] => Some n
  | x :: p => match n with Directory _ m => match m !! x with Some c => get p c | None => None end | _ => None end
  end.

(** [f] applied to the node at [p], if it is there. *)
Fixpoint update (p : list string) (f : node -> node) (n : node) : node :=
  match p with
  | [] => f n
  | x :: p =>
      match n with
      | Directory s m => match m !! x with Some c => Directory s (<[x := update p f c]> m) | None => n end
      | _ => n
      end
  end.

Definition set_entry (x : string) (v : option node) (n : node) : node :=
  match n with Directory s m => Directory s (partial_alter (fun _ => v) x m) | _ => n end.

Definition with_mode (mode : N) (n : node) : node :=
  let set (s : Stat.t) := Stat.mk (Stat.uid s) mode (Stat.nlink s) in
  match n with File s c y => File (set s) c y | Directory s m => Directory (set s) m | Link => Link | Other s => Other (set s) end.

Definition append (bs : list byte) (n : node) : node :=
  match n with File s c _ => File s (c ++ bs) false | _ => n end.

Definition truncate (n : node) : node := match n with File s _ _ => File s [] false | _ => n end.

Definition set_synced (n : node) : node := match n with File s c _ => File s c true | _ => n end.

(** After a loss of power: any content for what was not synced. *)
Definition lost (a b : node) : Prop :=
  match a, b with
  | File s c true, _ => b = a
  | File s c false, File s' _ _ => s' = s
  | Directory s _, Directory s' _ => s' = s
  | Link, Link => True
  | Other s, Other s' => s' = s
  | _, _ => False
  end.
Definition power_loss (d d' : node) : Prop :=
  forall p, match get p d, get p d' with Some a, Some b => lost a b | None, None => True | _, _ => False end.

(** ** The operating system *)

Inductive Errno : Type := NOENT | EXIST | NOTDIR | ISDIR | NOTEMPTY | LOOP.

(** The texts of rustix and of std, the user and mask of the process, and the order in which
    the entries of a directory are listed. *)
Class PlanningOs : Type := {
  errno_text : Errno -> string;
  os_error_text : Errno -> string;
  euid : N;
  umask : N;
  read_dir_order : gmap string node -> list string
}.

Class PlanningOsLaws `{PlanningOs} : Prop := {
  read_dir_entries : forall m, read_dir_order m ≡ₚ (map_to_list m).*1
}.

#[export] Instance planning_domain : Domain unit PlanningError.t := {| unarmed := tt; io_error := PlanningError.Io |}.

Abbreviation world := (Effects.world unit node).
Abbreviation exit := (Effects.exit PlanningError.t).
Abbreviation io := (Effects.io unit PlanningError.t node).
Abbreviation triple := (Effects.triple (F := unit) (E := PlanningError.t) (D := node)).
Abbreviation runs := (Effects.runs (F := unit) (E := PlanningError.t) (D := node)).

Definition unsafe_root {A} (message : string) : presult A := Err (PlanningError.UnsafeRoot message).
Definition unsafe {A} (message : string) : presult A := Err (PlanningError.UnsafeSnapshot message).

Record TrustedDirectory : Type := mk_directory { path : list string; owner : N }.

(** An octal constant of the source. *)
Definition mode_755 : N := 493.
Definition mode_644 : N := 420.
Definition mode_700 : N := 448.
Definition shared_write : N := 18.
Definition any_execute : N := 73.

Section fs.
Context `{PlanningOs}.

(** ** System calls *)

Definition io_errno {A} (e : Errno) : presult A := Err (PlanningError.Io (errno_text e)).
Definition os_error {A} (e : Errno) : presult A := Err (PlanningError.Io (os_error_text e)).

Definition owner_valid (actual expected : N) : bool := (actual =? expected) || (negb (expected =? 0) && (actual =? 0)).

Definition trusted_stat (owner : N) (s : Stat.t) : bool :=
  owner_valid (Stat.uid s) owner && (N.land (Stat.mode s) shared_write =? 0).

Definition trusted_directory (owner : N) (n : option node) : bool :=
  match n with Some (Directory s _) => trusted_stat owner s | _ => false end.

Definition trusted_regular (owner : N) (n : option node) : bool :=
  match n with Some (File s _ _) => trusted_stat owner s && (Stat.nlink s =? 1) | _ => false end.

Definition validate_directory (p : list string) (owner : N) : io unit := sys (fun d =>
  if trusted_directory owner (get p d) then Ok (d, tt) else unsafe_root "directory ownership, mode, or type").

Definition validate_regular (p : list string) (owner : N) : io unit := sys (fun d =>
  if trusted_regular owner (get p d) then Ok (d, tt) else unsafe "file ownership, link count, mode, or type").

(** [fstat] for the device and inode, which a descriptor keeps. *)
Definition identity : io unit := sync.

Definition validate_name (name : string) : presult unit :=
  if str_is_empty name || bool_decide (name = ".") || bool_decide (name = "..") || str_contains "/" name
     || bset_contains (Ascii.ascii_of_N 92) (bytes name)
  then unsafe "unsafe path component" else Ok tt.

(** [openat2] below a directory, without links: whether the name was there, or [NOENT]; the
    descriptor is then that of [p ++ [name]]. *)
Definition openat2 (directory : bool) (p : list string) (name : string) : io bool := sys (fun d =>
  match get (p ++ [name]) d with
  | None => Ok (d, false)
  | Some Link => io_errno LOOP
  | Some (Directory _ _) => Ok (d, true)
  | Some _ => if directory then io_errno NOTDIR else Ok (d, true)
  end).

(** Where [NOENT] is an error like the others. *)
Definition must_exist (opened : bool) : presult unit := if opened then Ok tt else io_errno NOENT.

Definition mkdirat (p : list string) (name : string) (mode : N) : io unit := sys (fun d =>
  match get (p ++ [name]) d with
  | Some _ => io_errno EXIST
  | None => Ok (update p (set_entry name (Some (Directory (Stat.mk euid (N.ldiff mode umask) 2) ∅))) d, tt)
  end).

Definition fchmod (p : list string) (mode : N) : io unit := sys (fun d => Ok (update p (with_mode mode) d, tt)).

(** [read_to_end] of at most [limit] bytes. *)
Definition read_limited (p : list string) (limit : N) : io (list byte) := sys (fun d =>
  match get p d with
  | Some (File _ c _) => Ok (d, take (N.to_nat (N.min limit (N.of_nat (length c)))) c)
  | _ => os_error ISDIR
  end).

Definition read_dir (p : list string) : io (list string) := sys (fun d =>
  match get p d with
  | Some (Directory _ m) => Ok (d, read_dir_order m)
  | _ => os_error NOTDIR
  end).

(** ** Trusted directories *)

Definition recheck (h : TrustedDirectory) : io unit := _ ← validate_directory (path h) (owner h); identity.

Definition from_fd (p : list string) (owner : N) : io TrustedDirectory :=
  _ ← validate_directory p owner; _ ← identity; mret (mk_directory p owner).

Definition open_child (parent : list string) (name : string) (owner : N) (create : bool) (mode : N) : io (list string) :=
  _ ← lift (validate_name name);
  opened ← openat2 true parent name;
  let fd := parent ++ [name] in
  created ←
    (if opened : bool then mret false
     else if create then
       _ ← mkdirat parent name mode;
       again ← openat2 true parent name;
       _ ← lift (must_exist again);
       mret true
     else lift (io_errno NOENT));
  _ ← validate_directory fd owner;
  _ ← (if created : bool then _ ← fchmod fd mode; validate_directory fd owner else mret tt);
  mret fd.

Definition open_component (owner : N) (create : bool) (mode : N) (current : list string) (c : Component) : io (list string) :=
  match c with
  | Normal name => open_child current name owner create mode
  | _ => lift (unsafe_root "root path has an unsafe component")
  end.

Definition open_directory (p : string) (owner : N) (create : bool) (mode : N) : io TrustedDirectory :=
  if negb (is_absolute p) then lift (unsafe_root "root path is not absolute")
  else
    _ ← sync;
    _ ← validate_directory [] owner;
    current ← fold_io (open_component owner create mode) [] (drop 1 (components p));
    from_fd current owner.

Definition child (h : TrustedDirectory) (name : string) (create : bool) (mode : N) : io TrustedDirectory :=
  _ ← recheck h;
  fd ← open_child (path h) name (owner h) create mode;
  _ ← recheck h;
  from_fd fd (owner h).

Definition child_if_present (h : TrustedDirectory) (name : string) : io (option TrustedDirectory) :=
  _ ← recheck h;
  _ ← lift (validate_name name);
  opened ← openat2 true (path h) name;
  if opened : bool then c ← from_fd (path h ++ [name]) (owner h); mret (Some c) else mret None.

(** What [read] and [read_if_present] do with the opened file; [maximum + 1] is a [u64]. *)
Definition read_opened (h : TrustedDirectory) (fd : list string) (maximum : N) : io (list byte) :=
  _ ← validate_regular fd (owner h);
  _ ← identity;
  l ← read_limited fd ((maximum + 1) mod (u64_max + 1));
  if maximum <? N.of_nat (length l) then lift (unsafe "snapshot file exceeds maximum size")
  else _ ← identity; _ ← recheck h; mret l.

Definition read_if_present (h : TrustedDirectory) (name : string) (maximum : N) : io (option (list byte)) :=
  _ ← recheck h;
  _ ← lift (validate_name name);
  opened ← openat2 false (path h) name;
  if opened : bool then l ← read_opened h (path h ++ [name]) maximum; mret (Some l) else mret None.

Definition read (h : TrustedDirectory) (name : string) (maximum : N) : io (list byte) :=
  _ ← recheck h;
  _ ← lift (validate_name name);
  opened ← openat2 false (path h) name;
  _ ← lift (must_exist opened);
  read_opened h (path h ++ [name]) maximum.

(** The file, as its path. *)
Definition open_file (h : TrustedDirectory) (name : string) : io (list string) :=
  _ ← recheck h;
  _ ← lift (validate_name name);
  opened ← openat2 false (path h) name;
  _ ← lift (must_exist opened);
  _ ← validate_regular (path h ++ [name]) (owner h);
  _ ← recheck h;
  mret (path h ++ [name]).

Definition set_mode (h : TrustedDirectory) (mode : N) : io unit :=
  _ ← recheck h; _ ← fchmod (path h) mode; recheck h.

(** The descriptor is duplicated first. *)
Definition sync_directory (h : TrustedDirectory) : io unit :=
  _ ← recheck h; _ ← sync; _ ← sync; recheck h.

(** ** Whole trees *)

Definition tree_entry (validate_below : list string -> io unit) (owner : N) (p : list string) (name : string) : io unit :=
  _ ← lift (if valid_utf8 (bytes name) then Ok tt else unsafe_root "non-UTF-8 cache entry");
  _ ← lift (validate_name name);
  opened ← openat2 false p name;
  _ ← lift (must_exist opened);
  let fd := p ++ [name] in
  n ← sys (fun d => match get fd d with Some n => Ok (d, n) | None => io_errno NOENT end);
  match n with
  | Directory _ _ => validate_below fd
  | File _ _ _ => validate_regular fd owner
  | _ => lift (unsafe_root "cache entry has an unsafe file type")
  end.

(** [fuel] bounds the depth. *)
Fixpoint validate_tree_fd (fuel : nat) (p : list string) (owner : N) : io unit :=
  match fuel with
  | O => lift (unsafe_root "directory tree is too deep")
  | S fuel =>
      let h := mk_directory p owner in
      _ ← recheck h;
      names ← read_dir p;
      _ ← for_io (tree_entry (fun fd => _ ← from_fd fd owner; validate_tree_fd fuel fd owner) owner p) names;
      recheck h
  end.

Definition validate_tree (fuel : nat) (p : string) (owner : N) : io unit :=
  directory ← open_directory p owner false 0;
  validate_tree_fd fuel (path directory) owner.

Definition executable (s : Stat.t) : bool :=
  (Stat.uid s =? 0) && (Stat.nlink s =? 1) && (N.land (Stat.mode s) shared_write =? 0)
  && negb (N.land (Stat.mode s) any_execute =? 0).

(** [parent] and [name] of the path, which is a constant with both. *)
Definition validate_root_executable (parent name : string) : io unit :=
  directory ← open_directory parent 0 false 0;
  _ ← lift (validate_name name);
  opened ← openat2 false (path directory) name;
  _ ← lift (must_exist opened);
  _ ← identity;
  _ ← sys (fun d =>
         match get (path directory ++ [name]) d with
         | Some (File s _ _) => if executable s then Ok (d, tt) else unsafe_root "executable ownership, link count, mode, or type"
         | _ => unsafe_root "executable ownership, link count, mode, or type"
         end);
  _ ← identity;
  recheck directory.
End fs.
