(* ===== verification/SnapshotStore.v ===== *)
(** * The store of planning snapshots ([dnfast-planning]: snapshot_store.rs)

    Snapshots under the digest of their text, the payloads they refer to as blobs under theirs,
    and the pointer to the current snapshot.  Publication moves the pointer last; what nothing
    refers to any more is collected. *)
From Stdlib Require Import Ascii.
From S2P Require Import Prelude.
From S2P Require Import RustStr.
From S2P Require Import Canonical.
From S2P Require Import RustText.
From S2P Require Import Modulemd.
From S2P Require Import CacheModel.
From S2P Require Import Snapshot.
From S2P Require Import FileIndex.
From S2P Require Import Effects.
From S2P Require Import PlanningFs.

#[local] Open Scope N_scope.

Definition CURRENT_POINTER : string := "current".
Definition SNAPSHOT_FILE : string := "snapshot.json".
Definition MAX_STORED_BYTES : N := 128 * 1024 * 1024.
Definition MAX_RETAINED_SNAPSHOTS : nat := 8.

Section store.
Context `{PlanningOs} `{IndexEnv}.

(** ** Calls of std, through the paths of descriptors *)

Definition create_dir (p : list string) (name : string) : io unit := sys (fun d =>
  match get (p ++ [name]) d with
  | Some _ => os_error EXIST
  | None => Ok (update p (set_entry name (Some (Directory (Stat.mk euid (N.ldiff 511 umask) 2) ∅))) d, tt)
  end).

Definition create_new (p : list string) (name : string) : io unit := sys (fun d =>
  match get (p ++ [name]) d with
  | Some _ => os_error EXIST
  | None => Ok (update p (set_entry name (Some (File (Stat.mk euid (N.ldiff 438 umask) 1) [] false))) d, tt)
  end).

Definition write_all (p : list string) (bs : list byte) : io unit :=
  write_call (length bs) (fun n => update p (append (take n bs))).

Definition sync_all (p : list string) : io unit := sys (fun d => Ok (update p set_synced d, tt)).

Definition set_permissions (p : list string) (mode : N) : io unit := fchmod p mode.

Definition remove_file (p : list string) (name : string) : io unit := sys (fun d =>
  match get (p ++ [name]) d with
  | None => os_error NOENT
  | Some (Directory _ _) => os_error ISDIR
  | Some _ => Ok (update p (set_entry name None) d, tt)
  end).

Definition remove_dir (p : list string) (name : string) : io unit := sys (fun d =>
  match get (p ++ [name]) d with
  | None => os_error NOENT
  | Some (Directory _ m) => if decide (m = ∅) then Ok (update p (set_entry name None) d, tt) else os_error NOTEMPTY
  | Some _ => os_error NOTDIR
  end).

(** Within one directory. *)
Definition rename (p : list string) (from to : string) : io unit := sys (fun d =>
  match get (p ++ [from]) d with
  | None => os_error NOENT
  | Some n =>
      match n, get (p ++ [to]) d with
      | Directory _ _, Some (Directory _ m) => if decide (m = ∅) then Ok tt else os_error NOTEMPTY
      | Directory _ _, Some _ => os_error NOTDIR
      | _, Some (Directory _ _) => os_error ISDIR
      | _, _ => Ok tt
      end ≫= fun _ => Ok (update p (fun x => set_entry to (Some n) (set_entry from None x)) d, tt)
  end).

(** A directory of files, as staging makes it. *)
Definition remove_dir_all (p : list string) (name : string) : io unit :=
  names ← read_dir (p ++ [name]);
  _ ← for_io (remove_file (p ++ [name])) names;
  remove_dir p name.

Definition write_file (p : list string) (name : string) (bs : list byte) : io unit :=
  _ ← create_new p name;
  _ ← write_all (p ++ [name]) bs;
  _ ← sync_all (p ++ [name]);
  _ ← set_permissions (p ++ [name]) mode_644;
  sync_all (p ++ [name]).

(** ** Blobs *)

Definition blobs_of (planning : TrustedDirectory) (create : bool) : io TrustedDirectory :=
  blobs ← child planning "blobs" create (if create then mode_755 else 0);
  child blobs "sha256" create (if create then mode_755 else 0).

(** The texts of the process id and of the time. *)
Definition blob_temporary (digest pid nanos : string) : string := ".blob-" +:+ digest +:+ "-" +:+ pid +:+ "-" +:+ nanos.

Definition collision : PlanningError.t := PlanningError.UnsafeSnapshot "immutable planning blob digest collision".

(** [try_reflink_to] gives an error, the content that was cloned, or nothing where the file
    system cannot clone. *)
Definition clone (p : list string) (reflink : presult (option (list byte))) : io bool :=
  reflink ← lift reflink;
  match reflink with
  | Some content => _ ← sys (fun d => Ok (update p (append content) d, tt)); mret true
  | None => mret false
  end.

Definition write_file_deferred_from_verified (p : list string) (name : string) (bs : list byte)
    (reflink : presult (option (list byte))) : io unit :=
  _ ← create_new p name;
  reflinked ← clone (p ++ [name]) reflink;
  _ ← (if reflinked : bool then mret tt
       else _ ← sys (fun d => Ok (update (p ++ [name]) truncate d, tt)); _ ← sync; write_all (p ++ [name]) bs);
  set_permissions (p ++ [name]) mode_644.

(** [content]: what [VerifiedFile::read_all] gives when it is called. *)
Definition write_file_deferred_from_verified_file (p : list string) (name : string) (content : presult (list byte))
    (reflink : presult (option (list byte))) : io unit :=
  _ ← create_new p name;
  reflinked ← clone (p ++ [name]) reflink;
  _ ← (if reflinked : bool then mret tt else bs ← lift content; write_all (p ++ [name]) bs);
  set_permissions (p ++ [name]) mode_644.

(** What both publications do with the directory of blobs: [same] compares a blob that is there
    with the payload, and [write] writes the temporary file. *)
Definition install_blob (sha256 : TrustedDirectory) (digest : string) (size : N) (same : list byte -> bool)
    (write : string -> io unit) (pid : string) (nanos : presult string) : io unit :=
  existing ← read_if_present sha256 digest size;
  match existing with
  | Some existing => raise_if (negb (same existing)) collision
  | None =>
      nanos ← lift nanos;
      let temporary := blob_temporary digest pid nanos in
      _ ← write temporary;
      renamed ← attempt (rename (path sha256) temporary digest);
      match renamed with
      | Ok _ => mret tt
      | Err error =>
          present ← read_if_present sha256 digest size;
          match present with
          | None => raise error
          | Some _ =>
              _ ← remove_file (path sha256) temporary;
              existing ← read sha256 digest size;
              raise_if (negb (same existing)) collision
          end
      end
  end.

Definition publish_blob_inner_with_source (planning : TrustedDirectory) (digest : string) (bs : list byte)
    (pid : string) (nanos : presult string) (reflink : presult (option (list byte))) : io unit :=
  if negb (valid_digest digest) || negb (bool_decide (sha256_hex bs = digest))
  then lift (unsafe "planning blob digest differs from payload")
  else
    sha256 ← blobs_of planning true;
    install_blob sha256 digest (N.of_nat (length bs)) (fun existing => bool_decide (existing = bs))
      (fun temporary => write_file_deferred_from_verified (path sha256) temporary bs reflink) pid nanos.

(** Without a source nothing is cloned. *)
Definition publish_blob_deferred (planning : TrustedDirectory) (digest : string) (bs : list byte)
    (pid : string) (nanos : presult string) : io unit :=
  publish_blob_inner_with_source planning digest bs pid nanos (Ok None).

Definition publish_verified_file_deferred (planning : TrustedDirectory) (digest : string) (size : N)
    (pid : string) (nanos : presult string) (reflink : presult (option (list byte))) (content : presult (list byte)) : io unit :=
  if negb (valid_digest digest) then lift (unsafe "planning blob digest is invalid")
  else
    sha256 ← blobs_of planning true;
    install_blob sha256 digest size
      (fun existing => (N.of_nat (length existing) =? size) && bool_decide (sha256_hex existing = digest))
      (fun temporary => write_file_deferred_from_verified_file (path sha256) temporary content reflink) pid nanos.

Definition sync_blobs (planning : TrustedDirectory) : io unit :=
  sha256 ← blobs_of planning false; sync_directory sha256.

Definition read_blob (planning_root : string) (owner : N) (digest : string) (size : N) : io (list byte) :=
  if negb (valid_digest digest) then lift (unsafe "invalid planning blob digest")
  else
    maximum ← lift (ok_or (PlanningError.UnsafeSnapshot "planning blob size overflow") (u64_checked_add size 1));
    planning ← open_directory planning_root owner false 0;
    sha256 ← blobs_of planning false;
    read sha256 digest maximum.

(** The file, as its path. *)
Definition open_blob_file (planning_root : string) (owner : N) (digest : string) (size : N) : io (list string) :=
  if negb (valid_digest digest) then lift (unsafe "invalid planning blob digest")
  else
    planning ← open_directory planning_root owner false 0;
    sha256 ← blobs_of planning false;
    file ← open_file sha256 digest;
    length ← sys (fun d => match get file d with Some (File _ c _) => Ok (d, N.of_nat (length c)) | _ => os_error NOENT end);
    if negb (length =? size) then lift (unsafe "planning blob size differs from descriptor") else mret file.

(** ** Snapshots *)

Definition hex_digit_byte (b : byte) : bool := lowercase_hex b.

Definition pointer_digest (pointer : list byte) : presult string :=
  if negb (length pointer =? 65)%nat || negb (bool_decide (pointer !! 64%nat = Some newline))
     || negb (forallb hex_digit_byte (take 64 pointer))
  then unsafe "pointer is not a canonical digest"
  else Ok (of_bytes (take 64 pointer)).

Definition open_snapshot (planning_root : string) (owner : N) : io PlanningSnapshot.t :=
  planning ← open_directory planning_root owner false 0;
  pointer ← read planning CURRENT_POINTER 65;
  named ← lift (pointer_digest pointer);
  snapshots ← child planning "snapshots" false 0;
  snapshot ← child snapshots named false 0;
  bs ← read snapshot SNAPSHOT_FILE MAX_STORED_BYTES;
  result ← lift (from_canonical_bytes bs);
  own ← lift (digest result);
  if negb (bool_decide (own = named)) then lift (unsafe "pointer digest differs from payload")
  else mret (attach_storage result planning_root owner).

Definition current_digest (planning_root : string) (owner : N) : io string :=
  planning ← open_directory planning_root owner false 0;
  pointer ← read planning CURRENT_POINTER 65;
  lift (pointer_digest pointer).

Definition snapshot_exists (snapshots : TrustedDirectory) (digest : string) : io bool :=
  if negb (valid_digest digest) then lift (unsafe "invalid snapshot digest")
  else c ← child_if_present snapshots digest; mret (is_some c).

Definition staging_name (digest pid nanos : string) : string := ".staging-" +:+ digest +:+ "-" +:+ pid +:+ "-" +:+ nanos.
Definition pointer_temporary (pid nanos : string) : string := ".current-" +:+ pid +:+ "-" +:+ nanos.

(** A snapshot that is not there yet. *)
Definition stage_snapshot (snapshots : TrustedDirectory) (digest : string) (bs : list byte)
    (pid : string) (nanos : presult string) : io unit :=
  nanos ← lift nanos;
  let staging := staging_name digest pid nanos in
  let p := path snapshots in
  _ ← create_dir p staging;
  _ ← set_permissions (p ++ [staging]) mode_755;
  _ ← write_file (p ++ [staging]) SNAPSHOT_FILE bs;
  _ ← sync; _ ← sync;
  renamed ← attempt (rename p staging digest);
  match renamed with
  | Ok _ => sync_directory snapshots
  | Err error =>
      exists_now ← snapshot_exists snapshots digest;
      if exists_now : bool then remove_dir_all p staging else raise error
  end.

Definition move_pointer (planning : TrustedDirectory) (digest pid : string) (nanos : presult string) : io unit :=
  nanos ← lift nanos;
  let temporary := pointer_temporary pid nanos in
  _ ← write_file (path planning) temporary (bytes digest ++ [newline]);
  _ ← rename (path planning) temporary CURRENT_POINTER;
  sync_directory planning.

Definition publish_snapshot (planning snapshots : TrustedDirectory) (digest : string) (bs : list byte)
    (pid : string) (staging_nanos pointer_nanos : presult string) : io unit :=
  present ← snapshot_exists snapshots digest;
  _ ← (if present : bool then
         c ← child snapshots digest false 0;
         existing ← read c SNAPSHOT_FILE MAX_STORED_BYTES;
         raise_if (negb (bool_decide (existing = bs))) (PlanningError.UnsafeSnapshot "immutable snapshot digest collision")
       else stage_snapshot snapshots digest bs pid staging_nanos);
  move_pointer planning digest pid pointer_nanos.

(** ** Collection *)

(** [file_name().into_string()]. *)
Definition utf8_name (message name : string) : presult string :=
  if valid_utf8 (bytes name) then Ok name else unsafe message.

(** [Reverse(modified)]: the newest first, and what has no time last. *)
Definition by_age (modified : string -> option N) (a b : string) : comparison :=
  match modified a, modified b with
  | Some a, Some b => (b ?= a)
  | Some _, None => Lt
  | None, Some _ => Gt
  | None, None => Eq
  end.

Definition collect_snapshot (snapshots : TrustedDirectory) (current name : string) : io unit :=
  name ← lift (utf8_name "non-UTF-8 snapshot name" name);
  if bool_decide (name = current) || negb (valid_digest name) then mret tt
  else
    snapshot ← child snapshots name false 0;
    _ ← read snapshot SNAPSHOT_FILE MAX_STORED_BYTES;
    _ ← remove_file (path snapshots ++ [name]) SNAPSHOT_FILE;
    remove_dir (path snapshots) name.

(** [modified]: the times that the system gives for the entries. *)
Definition garbage_collect (snapshots : TrustedDirectory) (current : string) (modified : string -> option N) : io unit :=
  _ ← recheck snapshots;
  entries ← read_dir (path snapshots);
  _ ← for_io (collect_snapshot snapshots current) (drop MAX_RETAINED_SNAPSHOTS (sort_by (by_age modified) entries));
  recheck snapshots.

Definition descriptors (r : PlanningRepository.t) : list PlanningBytes.t :=
  [PlanningRepository.repomd r; PlanningRepository.primary r; PlanningRepository.filelists r]
  ++ omap id [PlanningRepository.file_provides r; PlanningRepository.group r; PlanningRepository.modules r;
              PlanningRepository.updateinfo r].

Definition retain_descriptor (retained : list string) (b : PlanningBytes.t) : presult (list string) :=
  if negb (valid_digest (PlanningBytes.sha256 b)) then unsafe "retained snapshot has an invalid blob digest"
  else Ok (PlanningBytes.sha256 b :: retained).

Definition retain_repository (sha256 : TrustedDirectory) (retained : list string) (r : PlanningRepository.t) : io (list string) :=
  retained ← lift (fold_result retain_descriptor retained (descriptors r));
  match PlanningRepository.file_provides r with
  | None => mret retained
  | Some descriptor =>
      maximum ← lift (ok_or (PlanningError.UnsafeSnapshot "planning blob size overflow")
                        (u64_checked_add (PlanningBytes.size descriptor) 1));
      manifest ← read sha256 (PlanningBytes.sha256 descriptor) maximum;
      if negb (N.of_nat (length manifest) =? PlanningBytes.size descriptor)
         || negb (bool_decide (sha256_hex manifest = PlanningBytes.sha256 descriptor))
      then lift (unsafe "retained file-provides manifest digest differs")
      else shards ← lift (referenced_shards_for_gc manifest r); mret (retained ++ shards)
  end.

Definition retain_snapshot (snapshots sha256 : TrustedDirectory) (retained : list string) (name : string) : io (list string) :=
  name ← lift (utf8_name "non-UTF-8 snapshot name" name);
  if negb (valid_digest name) then mret retained
  else
    snapshot_directory ← child snapshots name false 0;
    bs ← read snapshot_directory SNAPSHOT_FILE MAX_STORED_BYTES;
    snapshot ← lift (from_canonical_bytes bs);
    own ← lift (digest snapshot);
    if negb (bool_decide (own = name)) then lift (unsafe "retained snapshot digest differs from directory")
    else fold_io (retain_repository sha256) retained (PlanningPayload.allowed_repositories (PlanningSnapshot.payload snapshot)).

Definition collectable (owner : N) (n : option node) : bool :=
  match n with
  | Some (File s _ _) => (Stat.uid s =? owner) && (Stat.mode s =? mode_644) && (Stat.nlink s =? 1)
  | _ => false
  end.

Definition collect_blob (sha256 : TrustedDirectory) (owner : N) (retained : list string) (name : string) : io unit :=
  name ← lift (utf8_name "non-UTF-8 blob name" name);
  if negb (valid_digest name) || bool_decide (name ∈ retained) then mret tt
  else
    _ ← sys (fun d => if collectable owner (get (path sha256 ++ [name]) d) then Ok (d, tt)
                      else unsafe "unreferenced planning blob is not a trusted regular file");
    remove_file (path sha256) name.

Definition garbage_collect_blobs (planning snapshots : TrustedDirectory) (owner : N) : io unit :=
  _ ← recheck planning;
  _ ← recheck snapshots;
  blobs ← child_if_present planning "blobs";
  match blobs with
  | None => mret tt
  | Some blobs =>
      sha256 ← child_if_present blobs "sha256";
      match sha256 with
      | None => mret tt
      | Some sha256 =>
          names ← read_dir (path snapshots);
          retained ← fold_io (retain_snapshot snapshots sha256) [] names;
          names ← read_dir (path sha256);
          _ ← for_io (collect_blob sha256 owner retained) names;
          _ ← sync_directory sha256;
          recheck planning
      end
  end.

(** [RootPlanningPublisher::store_snapshot], once the publisher is known to be root. *)
Definition store_snapshot (planning : TrustedDirectory) (owner : N) (snapshot : PlanningSnapshot.t)
    (pid : string) (staging_nanos pointer_nanos : presult string) (modified : string -> option N) : io string :=
  snapshots ← child planning "snapshots" true mode_755;
  bs ← lift (canonical_bytes snapshot);
  let digest := sha256_hex bs in
  _ ← publish_snapshot planning snapshots digest bs pid staging_nanos pointer_nanos;
  _ ← garbage_collect snapshots digest modified;
  _ ← garbage_collect_blobs planning snapshots owner;
  mret digest.
End store.
