(* ===== verification/StoreFacts.v ===== *)
(** * Facts about the store of planning snapshots

    What an operation may touch, what it leaves when it fails or dies, and what collection
    keeps. *)
From Stdlib Require Import Ascii.
From S2P Require Import Prelude.
From S2P Require Import RustStr.
From S2P Require Import Canonical.
From S2P Require Import RustText.
From S2P Require Import Modulemd.
From S2P Require Import CacheModel.
From S2P Require Import Snapshot.
From S2P Require Import FileIndex.
From S2P Require Import Effects.
From S2P Require Import PlanningFs.
From S2P Require Import SnapshotStore.

#[local] Open Scope N_scope.

(** ** Trees *)

Module TreeFacts.

Lemma get_app p q d : get (p ++ q) d = get p d ≫= get q.
Proof.
  revert d. induction p as [|x p IH]; intros d; [done |]. cbn. destruct d as [| s m | |]; try done.
  destruct (m !! x) as [c|]; [apply IH | done].
Qed.

(** The two paths are not below each other. *)
Fixpoint apart (p q : list string) : bool :=
  match p, q with
  | x :: p, y :: q => if decide (x = y) then apart p q else true
  | _, _ => false
  end.

Lemma apart_sym p : forall q, apart p q = apart q p.
Proof.
  induction p as [|x p IH]; intros [|y q]; try done. cbn. destruct (decide (x = y)) as [->|Hne].
  - by rewrite decide_True.
  - rewrite decide_False; [done |]. congruence.
Qed.

Lemma apart_app p : forall q r, apart (p ++ q) (p ++ r) = apart q r.
Proof. induction p as [|x p IH]; intros q r; [done |]. cbn. by rewrite decide_True. Qed.

Lemma apart_below p : forall q r, apart p q = true -> apart p (q ++ r) = true.
Proof.
  induction p as [|x p IH]; intros [|y q] r; try done. cbn. destruct (decide (x = y)); [apply IH | done].
Qed.

Lemma apart_names p x y q r : x <> y -> apart (p ++ x :: q) (p ++ y :: r) = true.
Proof. intros Hne. rewrite apart_app. cbn. by rewrite decide_False. Qed.

Lemma get_update_apart f p : forall q d, apart p q = true -> get q (update p f d) = get q d.
Proof.
  induction p as [|x p IH]; intros [|y q] d Hd; try done. cbn in Hd. destruct d as [| s m | |]; try done. cbn.
  destruct (m !! x) as [c|] eqn:Ex; [| done]. destruct (decide (x = y)) as [->|Hne].
  - rewrite lookup_insert_eq, Ex. by apply IH.
  - by rewrite lookup_insert_ne.
Qed.

Lemma get_update f p : forall q d, get (p ++ q) (update p f d) = get p d ≫= fun c => get q (f c).
Proof.
  induction p as [|x p IH]; intros q d; [done |]. cbn. destruct d as [| s m | |]; try done.
  destruct (m !! x) as [c|] eqn:Ex; cbn; [rewrite lookup_insert_eq; apply IH | by rewrite Ex].
Qed.

Lemma get_update_self f p d : get p (update p f d) = f <$> get p d.
Proof. rewrite <- (app_nil_r p) at 1. rewrite get_update. by destruct (get p d). Qed.

Lemma update_app f p q : forall d, update (p ++ q) f d = update p (update q f) d.
Proof.
  induction p as [|x p IH]; intros d; [done |]. cbn. destruct d as [| s m | |]; try done.
  destruct (m !! x); [by rewrite IH | done].
Qed.

Lemma get_update_above f p q d : get p (update (p ++ q) f d) = update q f <$> get p d.
Proof. by rewrite update_app, get_update_self. Qed.

Lemma update_update g h p : forall d, update p g (update p h d) = update p (fun n => g (h n)) d.
Proof.
  induction p as [|x p IH]; intros d; [done |]. cbn. destruct d as [| s m | |]; try done.
  destruct (m !! x) as [c|] eqn:Ex; cbn; [| by rewrite Ex]. by rewrite lookup_insert_eq, insert_insert_eq, IH.
Qed.

Lemma get_entry x v y q n : get (y :: q) (set_entry x v n) =
  if decide (x = y) then match n with Directory _ _ => v ≫= get q | _ => None end else get (y :: q) n.
Proof.
  destruct n as [| s m | |]; cbn; [by destruct (decide _) | | by destruct (decide _)..].
  destruct (decide (x = y)) as [->|Hne].
  - rewrite lookup_partial_alter_eq. by destruct v.
  - by rewrite lookup_partial_alter_ne.
Qed.

(** Changing an entry leaves everything else. *)
Lemma get_set_apart p x v q d : apart (p ++ [x]) q = true -> get q (update p (set_entry x v) d) = get q d.
Proof.
  revert q d. induction p as [|y p IH]; intros q d Hd.
  - destruct q as [|z q]; [done |]. cbn [app apart] in Hd. cbn [update]. rewrite get_entry.
    destruct (decide (x = z)); [by destruct q | done].
  - destruct q as [|z q]; [done |]. cbn in Hd. destruct d as [| s m | |]; try done. cbn.
    destruct (m !! y) as [c|] eqn:Ey; [| done]. destruct (decide (y = z)) as [->|Hne].
    + rewrite lookup_insert_eq, Ey. by apply IH.
    + by rewrite lookup_insert_ne.
Qed.

Definition is_directory (n : option node) : Prop := exists s m, n = Some (Directory s m).

Lemma get_set_self p x v q d : is_directory (get p d) -> get (p ++ x :: q) (update p (set_entry x v) d) = v ≫= get q.
Proof. intros (s & m & Hd). rewrite get_update, Hd. cbn [mbind option_bind]. rewrite get_entry. by rewrite decide_True. Qed.

Lemma directory_above p q d n : get (p ++ q) d = Some n -> q <> [] -> is_directory (get p d).
Proof.
  intros Hg Hq. rewrite get_app in Hg. destruct (get p d) as [c|]; [| done]. cbn in Hg. destruct q as [|x q]; [done |].
  cbn in Hg. destruct c as [| s m | |]; try done. by exists s, m.
Qed.

Lemma directory_set p x v d : is_directory (get p d) -> is_directory (get p (update p (set_entry x v) d)).
Proof. intros (s & m & Hd). rewrite get_update_self, Hd. cbn. by eexists _, _. Qed.
End TreeFacts.

(** ** What an operation touches *)

Module FrameFacts.
Import TreeFacts.

(** [m] leaves alone what is apart from every path in [T]. *)
Definition touches {A} (T : list string -> Prop) (m : io A) : Prop :=
  forall w q, (forall t, T t -> apart t q = true) -> get q (fsys (m w).1) = get q (fsys w).

(** [m] changes nothing. *)
Definition reads {A} (m : io A) : Prop := forall w, fsys (m w).1 = fsys w.

Lemma touches_reads {A} T (m : io A) : reads m -> touches T m.
Proof. intros Hm w q _. by rewrite Hm. Qed.

Lemma reads_mret {A} (a : A) : reads (mret a).
Proof. done. Qed.

Lemma reads_lift {A} (r : presult A) : reads (lift r).
Proof. intros w. by destruct r. Qed.

Lemma reads_raise {A} e : reads (raise e : io A).
Proof. done. Qed.

Lemma reads_raise_if b e : reads (raise_if b e).
Proof. apply reads_lift. Qed.

Lemma reads_bind {A B} (m : io A) (k : A -> io B) : reads m -> (forall a, reads (k a)) -> reads (m ≫= k).
Proof.
  intros Hm Hk w. unfold mbind, io_mbind. specialize (Hm w). destruct (m w) as [w' [a|e|]]; cbn in *; [| done..].
  by rewrite Hk.
Qed.

Lemma reads_sys {A} (f : node -> presult (node * A)) : (forall d d' a, f d = Ok (d', a) -> d' = d) -> reads (sys f).
Proof.
  intros Hf [d u [|[| |] l]]; unfold sys; cbn; try done; destruct (f d) as [[d' a]|e] eqn:E; cbn; try done; by eapply Hf.
Qed.

Lemma reads_sync : reads sync.
Proof. apply reads_sys. by intros d d' a [= <-]. Qed.

Lemma reads_for {A} (f : A -> io unit) l : (forall x, reads (f x)) -> reads (for_io f l).
Proof. intros Hf. induction l as [|x l IH]; [apply reads_mret |]. by apply reads_bind. Qed.

Lemma reads_fold {A S} (f : S -> A -> io S) l : (forall s x, reads (f s x)) -> forall s, reads (fold_io f s l).
Proof. intros Hf. induction l as [|x l IH]; intros s; [apply reads_mret |]. by apply reads_bind. Qed.

Lemma reads_triple {A} (P : node -> Prop) (m : io A) : reads m -> triple P m (fun _ => P) P.
Proof. intros Hm w Hw. specialize (Hm w). destruct (m w) as [w' [a|e|]]; cbn in Hm; by rewrite Hm. Qed.

Lemma touches_bind {A B} T (m : io A) (k : A -> io B) : touches T m -> (forall a, touches T (k a)) -> touches T (m ≫= k).
Proof.
  intros Hm Hk w q Hq. unfold mbind, io_mbind. specialize (Hm w q Hq). destruct (m w) as [w' [a|e|]]; cbn in *; [| done..].
  by rewrite Hk.
Qed.

(** What is computed is known to what follows. *)
Lemma touches_lift {A B} T (r : presult A) (k : A -> io B) : (forall a, r = Ok a -> touches T (k a)) -> touches T (lift r ≫= k).
Proof. intros Hk w q Hq. destruct r as [a|e]; [by apply (Hk a eq_refl) | done]. Qed.

Lemma touches_sys {A} T (f : node -> presult (node * A)) :
  (forall d d' a q, f d = Ok (d', a) -> (forall t, T t -> apart t q = true) -> get q d' = get q d) -> touches T (sys f).
Proof.
  intros Hf [d u [|[| |] l]] q Hq; unfold sys; cbn; try done; destruct (f d) as [[d' a]|e] eqn:E; cbn; try done; by eapply Hf.
Qed.

Lemma touches_write T len put : (forall n d q, (forall t, T t -> apart t q = true) -> get q (put n d) = get q d) ->
  touches T (write_call len put).
Proof. intros Hf [d u [|[| |] l]] q Hq; unfold write_call; cbn; by apply Hf. Qed.

Lemma touches_attempt {A} T (m : io A) : touches T m -> touches T (attempt m).
Proof. intros Hm w q Hq. specialize (Hm w q Hq). unfold attempt. by destruct (m w) as [w' [a|e|]]. Qed.

Lemma touches_for {A} T (f : A -> io unit) l : (forall x, x ∈ l -> touches T (f x)) -> touches T (for_io f l).
Proof.
  induction l as [|x l IH]; intros Hf; [by apply touches_reads, reads_mret |].
  cbn. apply touches_bind; [apply Hf; by left | intros _; apply IH; intros y Hy; apply Hf; by right].
Qed.

Lemma touches_weaken {A} (T T' : list string -> Prop) (m : io A) : (forall t, T t -> T' t) -> touches T m -> touches T' m.
Proof. intros HT Hm w q Hq. apply Hm. auto. Qed.

(** A frame as a triple: what is at [q] stays. *)
Lemma touches_triple {A} T (m : io A) q n : touches T m -> (forall t, T t -> apart t q = true) ->
  triple (fun d => get q d = n) m (fun _ d => get q d = n) (fun d => get q d = n).
Proof.
  intros Hm Hq w Hw. specialize (Hm w q Hq). destruct (m w) as [w' [a|e|]]; cbn in *; by rewrite Hm.
Qed.

Lemma triple_and {A} (P P' : node -> Prop) (m : io A) Q Q' R R' :
  triple P m Q R -> triple P' m Q' R' ->
  triple (fun d => P d /\ P' d) m (fun a d => Q a d /\ Q' a d) (fun d => R d /\ R' d).
Proof. intros H1 H2 w [Hw Hw']. specialize (H1 w Hw). specialize (H2 w Hw'). destruct (m w) as [w' [a|e|]]; done. Qed.
End FrameFacts.

Create HintDb frames.

(** Operations are followed step by step, and into every branch. *)
Ltac step_frame :=
  lazymatch goal with
  | |- forall _, _ => intros ?
  | |- FrameFacts.reads (let '(_, _) := ?x in _) => destruct x
  | |- FrameFacts.reads (match ?x with _ => _ end) => destruct x
  | |- FrameFacts.reads (mbind _ _) => apply FrameFacts.reads_bind
  | |- FrameFacts.reads (lift _) => apply FrameFacts.reads_lift
  | |- FrameFacts.reads (raise_if _ _) => apply FrameFacts.reads_raise_if
  | |- FrameFacts.reads (raise _) => apply FrameFacts.reads_raise
  | |- FrameFacts.reads (mret _) => apply FrameFacts.reads_mret
  | |- FrameFacts.reads sync => apply FrameFacts.reads_sync
  | |- FrameFacts.reads (for_io _ _) => apply FrameFacts.reads_for
  | |- FrameFacts.reads (fold_io _ _ _) => apply FrameFacts.reads_fold
  | |- FrameFacts.touches _ (let '(_, _) := ?x in _) => destruct x
  | |- FrameFacts.touches _ (match ?x with _ => _ end) => destruct x
  | |- FrameFacts.touches _ (mbind _ _) => apply FrameFacts.touches_bind
  | |- FrameFacts.touches _ (attempt _) => apply FrameFacts.touches_attempt
  | |- FrameFacts.touches _ (mret _) => apply FrameFacts.touches_reads
  | |- FrameFacts.touches _ (lift _) => apply FrameFacts.touches_reads
  | |- FrameFacts.touches _ (raise _) => apply FrameFacts.touches_reads
  | |- FrameFacts.touches _ (raise_if _ _) => apply FrameFacts.touches_reads
  | |- FrameFacts.touches _ sync => apply FrameFacts.touches_reads
  end.
Ltac frame := repeat (step_frame || solve [auto with frames]).

Module OperationFrames.
Import TreeFacts FrameFacts.

Section facts.
Context `{PlanningOs}.

Ltac unchanged := apply reads_sys; intros d d' a E; repeat case_match; by simplify_eq.

Lemma reads_validate_directory p o : reads (validate_directory p o).
Proof. unchanged. Qed.
Lemma reads_validate_regular p o : reads (validate_regular p o).
Proof. unchanged. Qed.
Lemma reads_openat2 b p x : reads (openat2 b p x).
Proof. unchanged. Qed.
Lemma reads_read_limited p n : reads (read_limited p n).
Proof. unchanged. Qed.
Lemma reads_read_dir p : reads (read_dir p).
Proof. unchanged. Qed.
#[local] Hint Resolve reads_validate_directory reads_validate_regular reads_openat2 reads_read_limited reads_read_dir : frames.

Lemma reads_identity : reads identity.
Proof. apply reads_sync. Qed.
#[local] Hint Resolve reads_identity : frames.
Lemma reads_recheck h : reads (recheck h).
Proof. unfold recheck. frame. Qed.
Lemma reads_from_fd p o : reads (from_fd p o).
Proof. unfold from_fd. frame. Qed.
#[local] Hint Resolve reads_recheck reads_from_fd : frames.
Lemma reads_open_child p x o m : reads (open_child p x o false m).
Proof.
  unfold open_child. apply reads_bind; [frame | intros _]. apply reads_bind; [frame |]. intros []; [| done].
  change (reads (_ ← validate_directory (p ++ [x]) o; _ ← (mret tt : io unit); mret (p ++ [x]))). frame.
Qed.
#[local] Hint Resolve reads_open_child : frames.
Lemma reads_open_directory p o m : reads (open_directory p o false m).
Proof. unfold open_directory, open_component. frame. Qed.
Lemma reads_child h x m : reads (child h x false m).
Proof. unfold child. frame. Qed.
Lemma reads_child_if_present h x : reads (child_if_present h x).
Proof. unfold child_if_present. frame. Qed.
Lemma reads_read_opened h fd n : reads (read_opened h fd n).
Proof. unfold read_opened. frame. Qed.
#[local] Hint Resolve reads_open_directory reads_child reads_child_if_present reads_read_opened : frames.
Lemma reads_read h x n : reads (read h x n).
Proof. unfold read. frame. Qed.
Lemma reads_read_if_present h x n : reads (read_if_present h x n).
Proof. unfold read_if_present. frame. Qed.
Lemma reads_sync_directory h : reads (sync_directory h).
Proof. unfold sync_directory. frame. Qed.
Lemma reads_open_file h x : reads (open_file h x).
Proof. unfold open_file. frame. Qed.

(** What the calls that change the tree touch. *)
Lemma touches_update T p f : T p -> touches T (sys (fun d => Ok (update p f d, tt))).
Proof. intros Hp. apply touches_sys. intros d d' a q [= <- <-] Hq. apply get_update_apart. auto. Qed.

Lemma touches_fchmod T p m : T p -> touches T (fchmod p m).
Proof. apply touches_update. Qed.

Lemma touches_sync_all T p : T p -> touches T (sync_all p).
Proof. apply touches_update. Qed.

Lemma touches_write_all T p bs : T p -> touches T (write_all p bs).
Proof. intros Hp. apply touches_write. intros n d q Hq. apply get_update_apart. auto. Qed.

Lemma touches_mkdirat T p x m : T (p ++ [x]) -> touches T (mkdirat p x m).
Proof. intros Hp. apply touches_sys. intros d d' a q E Hq. case_match; simplify_eq. apply get_set_apart. auto. Qed.

Lemma touches_create_dir T p x : T (p ++ [x]) -> touches T (create_dir p x).
Proof. intros Hp. apply touches_sys. intros d d' a q E Hq. case_match; simplify_eq. apply get_set_apart. auto. Qed.

Lemma touches_create_new T p x : T (p ++ [x]) -> touches T (create_new p x).
Proof. intros Hp. apply touches_sys. intros d d' a q E Hq. case_match; simplify_eq. apply get_set_apart. auto. Qed.

Lemma touches_remove_file T p x : T (p ++ [x]) -> touches T (remove_file p x).
Proof. intros Hp. apply touches_sys. intros d d' a q E Hq. repeat case_match; simplify_eq; apply get_set_apart; auto. Qed.

Lemma touches_remove_dir T p x : T (p ++ [x]) -> touches T (remove_dir p x).
Proof. intros Hp. apply touches_sys. intros d d' a q E Hq. repeat case_match; simplify_eq; apply get_set_apart; auto. Qed.

Lemma touches_rename T p x y : T (p ++ [x]) -> T (p ++ [y]) -> touches T (rename p x y).
Proof.
  intros Hx Hy. apply touches_sys. intros d d' a q E Hq. destruct (get (p ++ [x]) d) as [n|]; [| done].
  apply bind_ok in E as (u & _ & [= <- <-]).
  rewrite <- (update_update (set_entry y (Some n)) (set_entry x None)), !get_set_apart; auto.
Qed.
End facts.

#[export] Hint Resolve reads_validate_directory reads_validate_regular reads_openat2 reads_read_limited reads_read_dir
  reads_identity reads_recheck reads_from_fd reads_open_child reads_open_directory reads_child reads_child_if_present
  reads_read_opened reads_read reads_read_if_present reads_sync_directory reads_open_file : frames.
#[export] Hint Resolve touches_fchmod touches_sync_all touches_write_all touches_mkdirat touches_create_dir
  touches_create_new touches_remove_file touches_remove_dir touches_rename touches_update : frames.
End OperationFrames.

(** ** What the reading operations give *)

Module ReadFacts.
Import TreeFacts FrameFacts OperationFrames.

Section facts.
Context `{PlanningOs} (d0 : node).

(** Only the value matters: the state is [d0] throughout. *)
Definition gives {A} (m : io A) (G : A -> Prop) : Prop := triple (eq d0) m (fun a d => G a /\ d0 = d) (eq d0).

Lemma gives_reads {A} (m : io A) : reads m -> gives m (fun _ => True).
Proof.
  intros Hm w Hw. specialize (Hm w). destruct (m w) as [w' [a|e|]]; cbn in Hm; [split; [done |] |..]; congruence.
Qed.

Lemma gives_bind {A B} (m : io A) (k : A -> io B) G G' :
  gives m G -> (forall a, G a -> gives (k a) G') -> gives (m ≫= k) G'.
Proof. intros Hm Hk. eapply triple_seq; [exact Hm | exact Hk]. Qed.

Lemma gives_mret {A} (a : A) (G : A -> Prop) : G a -> gives (mret a) G.
Proof. by intros Ha w Hw. Qed.

Lemma gives_lift {A} (r : presult A) (G : A -> Prop) : (forall a, r = Ok a -> G a) -> gives (lift r) G.
Proof. intros Hr w Hw. destruct r as [a|e]; cbn; auto. Qed.

Lemma gives_sys {A} (f : node -> presult (node * A)) (G : A -> Prop) :
  (forall d a, f d0 = Ok (d, a) -> G a /\ d = d0) -> gives (sys f) G.
Proof.
  intros Hf. apply triple_sys; [done |]. intros d d' a <- E. apply Hf in E as [? ->]. done.
Qed.

Lemma gives_conseq {A} (m : io A) (G G' : A -> Prop) : gives m G -> (forall a, G a -> G' a) -> gives m G'.
Proof. intros Hm HG. eapply triple_conseq; [exact Hm | done | | done]. intros a d [Ha <-]. auto. Qed.

Lemma gives_fold {A S} (f : S -> A -> io S) (I : list A -> S -> Prop) l s :
  I [] s -> (forall seen x rest s, l = seen ++ x :: rest -> I seen s -> gives (f s x) (I (seen ++ [x]))) ->
  gives (fold_io f s l) (I l).
Proof.
  intros Hs Hf. eapply triple_conseq; [apply (triple_fold f (fun seen s d => I seen s /\ d0 = d) (eq d0)) with (seen := []) | | |].
  - by intros seen s' d [_ <-].
  - intros seen x rest s' Hl. intros w [Hi Hw]. by apply (Hf seen x rest s' Hl Hi w Hw).
  - by intros d <-.
  - done.
  - done.
Qed.

Lemma openat2_gives b p x : gives (openat2 b p x) (fun r =>
  if r : bool then is_Some (get (p ++ [x]) d0) else get (p ++ [x]) d0 = None).
Proof. apply gives_sys. intros d a E. repeat case_match; simplify_eq; eauto. Qed.

Lemma validate_directory_gives p o : gives (validate_directory p o) (fun _ => is_directory (get p d0)).
Proof.
  apply gives_sys. intros d a E. destruct (trusted_directory o (get p d0)) eqn:Ed; [| done]. injection E as <-.
  split; [| done]. destruct (get p d0) as [[]|]; try done. by eexists _, _.
Qed.

Lemma from_fd_gives p o : gives (from_fd p o) (fun c => c = mk_directory p o /\ is_directory (get p d0)).
Proof.
  unfold from_fd. eapply gives_bind; [apply validate_directory_gives |]. intros u Hd. cbn in Hd.
  eapply gives_bind; [apply gives_reads; frame |]. intros _ _. by apply gives_mret.
Qed.

Lemma open_child_gives p x o create m : is_Some (get (p ++ [x]) d0) \/ create = false ->
  gives (open_child p x o create m) (fun fd => fd = p ++ [x]).
Proof.
  intros Hor. unfold open_child. eapply gives_bind; [apply gives_reads; frame |]. intros _ _.
  eapply gives_bind; [apply openat2_gives |]. intros [] Hopened.
  - change (gives (_ ← validate_directory (p ++ [x]) o; _ ← (mret tt : io unit); mret (p ++ [x])) (fun fd => fd = p ++ [x])).
    eapply gives_bind; [apply gives_reads; frame |]. intros _ _. eapply gives_bind; [by apply (gives_mret tt (fun _ => True)) |].
    intros _ _. by apply gives_mret.
  - destruct Hor as [[n Hn]| ->]; [congruence | intros w Hw; exact Hw].
Qed.

Lemma child_gives h x m : gives (child h x false m) (fun c => c = mk_directory (path h ++ [x]) (owner h) /\
  is_directory (get (path h ++ [x]) d0)).
Proof.
  unfold child. eapply gives_bind; [apply gives_reads; frame |]. intros _ _.
  eapply gives_bind; [apply open_child_gives; by right |]. intros fd ->.
  eapply gives_bind; [apply gives_reads; frame |]. intros _ _. apply from_fd_gives.
Qed.

(** A directory that is there is not created. *)
Lemma child_present_gives h x create m : is_Some (get (path h ++ [x]) d0) ->
  gives (child h x create m) (fun c => c = mk_directory (path h ++ [x]) (owner h)).
Proof.
  intros Hsome. unfold child. eapply gives_bind; [apply gives_reads; frame |]. intros _ _.
  eapply gives_bind; [apply open_child_gives; by left |]. intros fd ->.
  eapply gives_bind; [apply gives_reads; frame |]. intros _ _.
  eapply gives_conseq; [apply from_fd_gives | by intros c [-> _]].
Qed.

Lemma child_if_present_gives h x : gives (child_if_present h x) (fun r => match r with
  | Some c => c = mk_directory (path h ++ [x]) (owner h) /\ is_directory (get (path h ++ [x]) d0)
  | None => get (path h ++ [x]) d0 = None
  end).
Proof.
  unfold child_if_present. eapply gives_bind; [apply gives_reads; frame |]. intros _ _.
  eapply gives_bind; [apply gives_reads; frame |]. intros _ _.
  eapply gives_bind; [apply openat2_gives |]. intros [] Hfd; [| by apply gives_mret].
  eapply gives_bind; [apply from_fd_gives |]. intros c Hc. by apply gives_mret.
Qed.

Lemma take_min (limit : N) (l : list byte) : take (N.to_nat (N.min limit (N.of_nat (length l)))) l = take (N.to_nat limit) l.
Proof.
  destruct (N.le_gt_cases limit (N.of_nat (length l))); [by rewrite N.min_l |].
  rewrite N.min_r, Nat2N.id, !take_ge by lia. done.
Qed.

(** What is read of a file: its beginning, when the file is longer an error. *)
Definition read_of (fd : list string) (maximum : N) (l : list byte) : Prop :=
  exists s c y, get fd d0 = Some (File s c y) /\ l = take (N.to_nat ((maximum + 1) mod (u64_max + 1))) c /\
    N.of_nat (length l) <= maximum.

Lemma read_of_whole fd maximum l : read_of fd maximum l -> maximum < u64_max ->
  exists s y, get fd d0 = Some (File s l y).
Proof.
  intros (s & c & y & Hfd & -> & Hle) Hmax. exists s, y. rewrite N.mod_small in * by (unfold u64_max in *; lia).
  rewrite take_ge; [done |]. rewrite length_take in Hle. lia.
Qed.

Lemma read_opened_gives h fd maximum : gives (read_opened h fd maximum) (read_of fd maximum).
Proof.
  unfold read_opened. do 2 (eapply gives_bind; [apply gives_reads; frame |]; intros _ _).
  eapply (gives_bind _ _ (fun l => exists s c y, get fd d0 = Some (File s c y) /\
    l = take (N.to_nat ((maximum + 1) mod (u64_max + 1))) c)).
  { apply gives_sys. intros d a E. repeat case_match; simplify_eq. split; [| done]. eexists _, _, _. split; [done |].
    apply take_min. }
  intros l (s & c & y & Hfd & Hl). destruct (N.ltb_spec maximum (N.of_nat (length l))) as [|Hle]; [intros w Hw; exact Hw |].
  do 2 (eapply gives_bind; [apply gives_reads; frame |]; intros _ _). apply gives_mret. by exists s, c, y.
Qed.

Lemma read_limited_gives h x maximum : gives (read h x maximum) (read_of (path h ++ [x]) maximum).
Proof.
  unfold read. do 2 (eapply gives_bind; [apply gives_reads; frame |]; intros _ _).
  eapply gives_bind; [apply openat2_gives |]. intros [] Hfd; [| intros w Hw; exact Hw].
  eapply gives_bind; [apply gives_reads; frame |]. intros _ _. apply read_opened_gives.
Qed.

Lemma read_gives h x maximum : maximum < u64_max ->
  gives (read h x maximum) (fun l => exists s y, get (path h ++ [x]) d0 = Some (File s l y)).
Proof. intros Hmax. eapply gives_conseq; [apply read_limited_gives |]. intros l Hl. by eapply read_of_whole. Qed.

Lemma read_if_present_gives h x maximum :
  gives (read_if_present h x maximum) (fun r => match r with
    | Some l => read_of (path h ++ [x]) maximum l
    | None => get (path h ++ [x]) d0 = None
    end).
Proof.
  unfold read_if_present. do 2 (eapply gives_bind; [apply gives_reads; frame |]; intros _ _).
  eapply gives_bind; [apply openat2_gives |]. intros [] Hfd; [| by apply gives_mret].
  eapply gives_bind; [apply read_opened_gives |]. intros l Hl. by apply gives_mret.
Qed.

Lemma gives_and {A} (m : io A) (G G' : A -> Prop) : gives m G -> gives m G' -> gives m (fun a => G a /\ G' a).
Proof.
  intros H1 H2 w Hw. specialize (H1 w Hw). specialize (H2 w Hw). destruct (m w) as [w' [a|e|]]; tauto.
Qed.

(** A directory that passed a check is one. *)
Lemma recheck_gives h : gives (recheck h) (fun _ => is_directory (get (path h) d0)).
Proof.
  unfold recheck. eapply gives_bind; [apply validate_directory_gives |]. intros u Hd.
  eapply gives_conseq; [apply gives_reads; frame | done].
Qed.

Lemma gives_after {A B} (m : io A) (k : A -> io B) (X : Prop) : gives m (fun _ => X) -> (forall a, reads (k a)) ->
  gives (m ≫= k) (fun _ => X).
Proof.
  intros Hm Hk. eapply gives_bind; [exact Hm |]. intros a HX. eapply gives_conseq; [by apply gives_reads | done].
Qed.

Lemma child_if_present_parent h x : gives (child_if_present h x) (fun _ => is_directory (get (path h) d0)).
Proof. unfold child_if_present. apply gives_after; [apply recheck_gives | frame]. Qed.

Lemma read_dir_gives p : gives (read_dir p) (fun names => exists s m, get p d0 = Some (Directory s m) /\ names = read_dir_order m).
Proof. apply gives_sys. intros d a E. repeat case_match; simplify_eq; eauto. Qed.

Lemma gives_fold_never {A S} (f : S -> A -> io S) x l : (forall s y, reads (f s y)) -> x ∈ l ->
  (forall s, gives (f s x) (fun _ => False)) -> forall s, gives (fold_io f s l) (fun _ => False).
Proof.
  intros Hr Hx Hf. induction l as [|y l IH]; intros s; [by apply not_elem_of_nil in Hx |]. cbn [fold_io].
  apply elem_of_cons in Hx as [<-|Hx].
  - eapply gives_bind; [apply Hf | done].
  - eapply gives_bind; [by apply gives_reads |]. intros s' _. by apply IH.
Qed.

(** What an operation gives, and then others change. *)
Lemma gives_then {A B} (m : io A) (k : A -> io B) G Q (R : node -> Prop) :
  gives m G -> R d0 -> (forall a, G a -> triple (eq d0) (k a) Q R) -> triple (eq d0) (m ≫= k) Q R.
Proof.
  intros Hm HR Hk. eapply triple_seq; [| exact Hk]. eapply triple_conseq; [exact Hm | done | done | by intros d <-].
Qed.

(** An operation on which nothing can follow. *)
Lemma gives_never {A} (m : io A) : gives m (fun _ => False) -> forall w, d0 = fsys w -> forall a, (m w).2 <> Value a.
Proof. intros Hm w Hw a Hv. specialize (Hm w Hw). destruct (m w) as [w' [b|e|]]; cbn in *; [by destruct Hm | done..]. Qed.
End facts.
End ReadFacts.
