(* ===== verification/StoreSafety.v ===== *)
(** * Safety of the store of planning snapshots

    Collection removes only what no snapshot refers to; publication moves the pointer from one
    complete snapshot to another, whatever fails and whenever the process dies; a collection
    that dies between its two calls, and a loss of power, leave a store that refuses later
    publications. *)
From Stdlib Require Import Ascii.
From S2P Require Import Prelude.
From S2P Require Import RustStr.
From S2P Require Import Canonical.
From S2P Require Import RustText.
From S2P Require Import Modulemd.
From S2P Require Import CacheModel.
From S2P Require Import Snapshot.
From S2P Require Import SnapshotFacts.
From S2P Require Import FileIndex.
From S2P Require Import FileIndexFacts.
From S2P Require Import Effects.
From S2P Require Import PlanningFs.
From S2P Require Import SnapshotStore.
From S2P Require Import StoreFacts.

#[local] Open Scope N_scope.

(** ** What a snapshot refers to *)

Module Collection.
Import TreeFacts FrameFacts OperationFrames ReadFacts.

Section facts.
Context `{PlanningOs} `{IndexEnv}.

(** The snapshot stored under [name] of the directory [S]. *)
Definition stored (d : node) (S : list string) (name : string) (s : PlanningSnapshot.t) : Prop :=
  exists st bs y, get ((S ++ [name]) ++ [SNAPSHOT_FILE]) d = Some (File st bs y) /\ from_canonical_bytes bs = Ok s.

(** A repository refers to the blob [x] of the directory [B]: as a payload, or in its index. *)
Definition refers (d : node) (B : list string) (r : PlanningRepository.t) (x : string) : Prop :=
  x ∈ (PlanningBytes.sha256 <$> descriptors r) \/
  exists fp st manifest y shards, PlanningRepository.file_provides r = Some fp /\
    get (B ++ [PlanningBytes.sha256 fp]) d = Some (File st manifest y) /\
    referenced_shards_for_gc manifest r = Ok shards /\ x ∈ shards.

Definition needed (d : node) (S B : list string) (x : string) : Prop :=
  exists name s r, valid_digest name = true /\ stored d S name s /\
    r ∈ PlanningPayload.allowed_repositories (PlanningSnapshot.payload s) /\ refers d B r x.

Lemma retain_descriptors_ok l : forall retained retained', fold_result retain_descriptor retained l = Ok retained' ->
  forall x, x ∈ retained' <-> x ∈ retained \/ x ∈ (PlanningBytes.sha256 <$> l).
Proof.
  induction l as [|b l IH]; intros retained retained'; cbn [fold_result].
  { intros [= <-] x. rewrite elem_of_nil. tauto. }
  intros (r1 & Hr & Hl)%bind_ok x. rewrite (IH _ _ Hl x). unfold retain_descriptor in Hr.
  destruct (negb _); [done |]. injection Hr as <-. rewrite fmap_cons, !elem_of_cons. tauto.
Qed.

Section retained.
Context (d0 : node) (snapshots sha256 : TrustedDirectory).
#[local] Abbreviation S := (path snapshots).
#[local] Abbreviation B := (path sha256).

Lemma retain_repository_gives retained r :
  gives d0 (retain_repository sha256 retained r) (fun l => forall x, x ∈ l <-> x ∈ retained \/ refers d0 B r x).
Proof.
  unfold retain_repository. eapply gives_bind; [apply gives_lift; intros l Hl; exact (retain_descriptors_ok _ _ _ Hl) |].
  intros l Hl. cbv beta in Hl. destruct (PlanningRepository.file_provides r) as [fp|] eqn:Efp.
  - eapply (gives_bind _ _ _ (fun maximum => maximum = PlanningBytes.size fp + 1 /\ maximum <= u64_max)).
    { apply gives_lift. intros m E%ok_or_ok. unfold u64_checked_add in E.
      destruct (N.leb_spec (PlanningBytes.size fp + 1) u64_max); by simplify_eq. }
    intros maximum [Hmax Hle]. eapply gives_bind; [apply read_limited_gives |]. intros manifest Hm. cbn in Hm.
    destruct (_ || _) eqn:E; [intros w Hw; exact Hw |]. apply orb_false_iff in E as [E%negb_false_iff%N.eqb_eq _].
    assert (exists st y, get (B ++ [PlanningBytes.sha256 fp]) d0 = Some (File st manifest y)) as (st & y & Hfile).
    { destruct (decide (maximum < u64_max)); [by eapply read_of_whole |]. exfalso.
      destruct Hm as (st & c & y & _ & Hman & _). replace maximum with u64_max in Hman by lia.
      rewrite N.Div0.mod_same in Hman. change (N.to_nat 0) with 0%nat in Hman. rewrite take_0 in Hman. subst manifest.
      cbn [length N.of_nat] in E. unfold u64_max in *. lia. }
    eapply (gives_bind _ _ _ (fun shards => referenced_shards_for_gc manifest r = Ok shards)); [by apply gives_lift |].
    intros shards Hs. apply gives_mret. intros x. rewrite elem_of_app, Hl. unfold refers. split.
    + intros [[?|?]|?]; [tauto.. |]. right. right. by exists fp, st, manifest, y, shards.
    + intros [?|[?|(fp' & st' & m' & y' & sh' & Hfp & Hf & Hsh & Hx)]]; [tauto.. |]. right. congruence.
  - apply gives_mret. intros x. rewrite Hl. unfold refers. split; [tauto |].
    intros [?|[?|(fp' & st' & m' & y' & sh' & Hfp & _)]]; [tauto.. |]. congruence.
Qed.

Lemma retain_repositories_gives retained l :
  gives d0 (fold_io (retain_repository sha256) retained l)
    (fun k => forall x, x ∈ k <-> x ∈ retained \/ exists r, r ∈ l /\ refers d0 B r x).
Proof.
  eapply gives_conseq; [apply (gives_fold d0 _ (fun seen k => forall x, x ∈ k <-> x ∈ retained \/ exists r, r ∈ seen /\ refers d0 B r x)) | done].
  - intros x. split; [tauto |]. intros [?|(r & Hr & _)]; [done |]. by apply not_elem_of_nil in Hr.
  - intros seen r rest k _ Hk. eapply gives_conseq; [apply retain_repository_gives |]. intros k' Hk' x. cbv beta in *. rewrite Hk', Hk.
    setoid_rewrite elem_of_app. setoid_rewrite list_elem_of_singleton. naive_solver.
Qed.

(** Of one entry of the directory of snapshots. *)
Definition needed_by (name x : string) : Prop :=
  valid_digest name = true /\ exists s r, stored d0 S name s /\
    r ∈ PlanningPayload.allowed_repositories (PlanningSnapshot.payload s) /\ refers d0 B r x.

Lemma retain_snapshot_gives retained name :
  gives d0 (retain_snapshot snapshots sha256 retained name) (fun k => forall x, x ∈ k <-> x ∈ retained \/ needed_by name x).
Proof.
  unfold retain_snapshot. eapply (gives_bind _ _ _ (fun n => n = name)).
  { apply gives_lift. intros n. unfold utf8_name. destruct (valid_utf8 _); [by intros [= <-] | done]. }
  intros n ->. destruct (valid_digest name) eqn:Ev; cbn [negb].
  2: { apply gives_mret. intros x. unfold needed_by. split; [tauto |]. intros [?|[? _]]; [done | congruence]. }
  eapply gives_bind; [apply child_gives |]. intros c [-> _].
  eapply gives_bind; [apply read_gives; unfold MAX_STORED_BYTES, u64_max; lia |]. intros bs (st & y & Hbs). cbn [path] in Hbs.
  eapply (gives_bind _ _ _ (fun s => from_canonical_bytes bs = Ok s)); [by apply gives_lift |]. intros s Hs.
  eapply gives_bind; [apply gives_reads; frame |]. intros own _. destruct (negb _); [intros w Hw; exact Hw |].
  eapply gives_conseq; [apply retain_repositories_gives |]. intros k Hk x. cbv beta in Hk. rewrite Hk. unfold needed_by. split.
  - intros [?|(r & Hr & Hx)]; [tauto |]. right. split; [done |]. exists s, r. split; [| done]. by exists st, bs, y.
  - intros [?|(_ & s' & r & (st' & bs' & y' & Hst & Hs') & Hr & Hx)]; [tauto |]. right. rewrite Hbs in Hst. injection Hst as <- <- <-.
    rewrite Hs in Hs'. injection Hs' as <-. by exists r.
Qed.

Lemma retain_snapshots_gives names :
  gives d0 (fold_io (retain_snapshot snapshots sha256) [] names) (fun k => forall x, x ∈ k <-> exists name, name ∈ names /\ needed_by name x).
Proof.
  apply (gives_fold d0 _ (fun seen k => forall x, x ∈ k <-> exists name, name ∈ seen /\ needed_by name x)).
  - intros x. rewrite elem_of_nil. split; [done |]. by intros (name & Hn%not_elem_of_nil & _).
  - intros seen name rest k _ Hk. eapply gives_conseq; [apply retain_snapshot_gives |]. intros k' Hk' x. cbv beta in *. rewrite Hk', Hk.
    setoid_rewrite elem_of_app. setoid_rewrite list_elem_of_singleton. naive_solver.
Qed.
End retained.

(** The loop over the blobs. *)
Lemma utf8_name_ok message name n : utf8_name message name = Ok n -> n = name.
Proof. unfold utf8_name. destruct (valid_utf8 _); [by intros [= <-] | done]. Qed.

Lemma collect_blob_touches sha256 o retained x :
  touches (fun t => t = path sha256 ++ [x] /\ valid_digest x = true /\ x ∉ retained) (collect_blob sha256 o retained x).
Proof.
  unfold collect_blob. apply touches_lift. intros n ->%utf8_name_ok.
  destruct (negb (valid_digest x) || bool_decide (x ∈ retained)) eqn:E; [by apply touches_reads, reads_mret |].
  apply orb_false_iff in E as [Ev%negb_false_iff Er%bool_decide_eq_false].
  apply touches_bind; [| intros _; by apply touches_remove_file].
  apply touches_reads, reads_sys. intros d d' a E. destruct (collectable _ _); by simplify_eq.
Qed.

Lemma remove_file_gone p x : triple (fun _ => True) (remove_file p x) (fun _ d => get (p ++ [x]) d = None) (fun _ => True).
Proof.
  apply triple_sys; [done |]. intros d d' a _ E. destruct (get (p ++ [x]) d) as [n|] eqn:Eg; [| done].
  assert (Hdir : is_directory (get p d)) by (by eapply directory_above).
  destruct n; simplify_eq; by rewrite get_set_self.
Qed.

Lemma triple_true {A} (m : io A) : triple (fun _ => True) m (fun _ _ => True) (fun _ => True).
Proof. intros w _. by destruct (m w) as [w' [a|e|]]. Qed.

Lemma collect_blob_gone sha256 o retained x : valid_digest x = true -> x ∉ retained ->
  triple (fun _ => True) (collect_blob sha256 o retained x) (fun _ d => get (path sha256 ++ [x]) d = None) (fun _ => True).
Proof.
  intros Hv Hr. unfold collect_blob. apply triple_lift_bind; [done |]. intros n ->%utf8_name_ok.
  rewrite Hv, bool_decide_eq_false_2 by done. cbn [negb orb].
  apply (triple_bind _ _ _ (fun _ _ => True)); [apply triple_true | intros _; apply remove_file_gone].
Qed.

Definition absent (B : list string) (x : string) (d : node) : Prop := get (B ++ [x]) d = None.

(** Removing one entry does not bring back another. *)
Lemma absent_kept B o sha256 retained x y : path sha256 = B ->
  triple (absent B y) (collect_blob sha256 o retained x) (fun _ => absent B y) (absent B y).
Proof.
  intros <-. destruct (decide (x = y)) as [->|Hne].
  - unfold collect_blob. apply triple_lift_bind; [done |]. intros n ->%utf8_name_ok.
    destruct (_ || _); [by apply triple_done |]. apply (triple_bind _ _ _ (fun _ => absent (path sha256) y)).
    { apply reads_triple, reads_sys. intros d d' a E. destruct (collectable _ _); by simplify_eq. }
    intros _. apply triple_sys; [done |]. intros d d' a Hd E. unfold absent in Hd. by rewrite Hd in E.
  - eapply touches_triple; [apply collect_blob_touches |]. intros t (-> & _). by apply apart_names.
Qed.

Lemma collect_blobs_gone sha256 o retained names :
  triple (fun _ => True) (for_io (collect_blob sha256 o retained) names)
    (fun _ d => forall x, x ∈ names -> valid_digest x = true -> x ∉ retained -> absent (path sha256) x d) (fun _ => True).
Proof.
  eapply triple_conseq; [apply (triple_for_each (collect_blob sha256 o retained)
    (fun seen d => forall x, x ∈ seen -> valid_digest x = true -> x ∉ retained -> absent (path sha256) x d)) with (seen := []) (R := fun _ => True) | | done | done].
  - done.
  - intros seen x rest _ w Hw.
    pose proof (fun y => absent_kept (path sha256) o sha256 retained x y eq_refl w) as Hkept.
    pose proof (fun Hv Hr => collect_blob_gone sha256 o retained x Hv Hr w I) as Hgone.
    destruct (collect_blob sha256 o retained x w) as [w' [[]|e|]]; [| done..].
    intros y [Hy|Hy%list_elem_of_singleton]%elem_of_app Hv Hr; [by apply Hkept, Hw |]. subst y. by apply Hgone.
  - intros d _ x Hx. by apply not_elem_of_nil in Hx.
Qed.

Definition blob_directory (planning : TrustedDirectory) : list string := (path planning ++ ["blobs"]) ++ ["sha256"].

(** What collection keeps of [d] in [d']. *)
Definition keeps (S B : list string) (d d' : node) : Prop :=
  (forall q, (forall x, apart (B ++ [x]) q = true) -> get q d' = get q d) /\
  (forall x, needed d S B x \/ valid_digest x = false -> get (B ++ [x]) d' = get (B ++ [x]) d).

Definition collected (S B : list string) (d d' : node) : Prop :=
  forall x, valid_digest x = true -> is_Some (get (B ++ [x]) d') -> needed d S B x.

Lemma keeps_refl S B d : keeps S B d d.
Proof. done. Qed.

Lemma needed_listed d S B x {Hlaws : PlanningOsLaws} s m : get S d = Some (Directory s m) ->
  needed d S B x <-> exists name, name ∈ read_dir_order m /\
    valid_digest name = true /\ exists s r, stored d S name s /\
      r ∈ PlanningPayload.allowed_repositories (PlanningSnapshot.payload s) /\ refers d B r x.
Proof.
  intros HS. unfold needed. split; [| naive_solver].
  intros (name & s' & r & Hv & Hst & Hr & Hx). exists name. split; [| naive_solver].
  destruct Hst as (st & bs & y & Hg & _). rewrite <- app_assoc, get_app, HS in Hg. cbn in Hg.
  destruct (m !! name) as [n|] eqn:Em; [| done].
  rewrite read_dir_entries. apply list_elem_of_fmap. exists (name, n). split; [done |]. by apply elem_of_map_to_list.
Qed.

(** The loop, once the names that are needed are known. *)
Lemma collect_blobs_keeps {Hlaws : PlanningOsLaws} d S sha256 o retained s m :
  (forall x, x ∈ retained <-> needed d S (path sha256) x) -> get (path sha256) d = Some (Directory s m) ->
  triple (eq d) (for_io (collect_blob sha256 o retained) (read_dir_order m))
    (fun _ d' => keeps S (path sha256) d d' /\ collected S (path sha256) d d') (keeps S (path sha256) d).
Proof.
  intros Hr Hm w Hw.
  assert (Ht : touches (fun t => exists x, t = path sha256 ++ [x] /\ valid_digest x = true /\ x ∉ retained)
                 (for_io (collect_blob sha256 o retained) (read_dir_order m))).
  { apply touches_for. intros x _. eapply touches_weaken; [| apply collect_blob_touches]. intros t Hx. by exists x. }
  specialize (Ht w). pose proof (collect_blobs_gone sha256 o retained (read_dir_order m) w I) as Hg.
  pose proof (fun x => triple_for (collect_blob sha256 o retained) (read_dir_order m) (absent (path sha256) x) (absent (path sha256) x)
    (fun d H => H) (fun y _ => absent_kept (path sha256) o sha256 retained y x eq_refl)) as Hab.
  destruct (for_io _ _ w) as [w' r] eqn:Erun. cbn in Ht.
  assert (Hk : keeps S (path sha256) d (fsys w')).
  { rewrite <- Hw in Ht. split.
    - intros q Hq. apply Ht. intros t (x & -> & _). apply Hq.
    - intros x Hx. apply Ht. intros t (y & -> & Hv & Hy). apply apart_names. intros ->.
      destruct Hx as [Hx%Hr | Hx]; [done | congruence]. }
  destruct r as [[]|e|]; [| done..]. split; [done |]. intros x Hv [n Hn]. apply Hr. destruct (decide (x ∈ retained)) as [|Hnot]; [done |].
  exfalso. destruct (decide (x ∈ read_dir_order m)) as [Hin|Hout].
  { specialize (Hg x Hin Hv Hnot). unfold absent in Hg. congruence. }
  assert (Ha : absent (path sha256) x (fsys w)).
  { rewrite <- Hw. unfold absent. rewrite get_app, Hm. cbn. destruct (m !! x) as [c|] eqn:Ex; [| done].
    exfalso. apply Hout. rewrite read_dir_entries. apply list_elem_of_fmap. exists (x, c). split; [done |].
    by apply elem_of_map_to_list. }
  specialize (Hab x w Ha). rewrite Erun in Hab. unfold absent in Hab. congruence.
Qed.

(** C40: collection of blobs, whatever fails and whenever the process dies: nothing but entries of
    the directory of blobs is removed, and no blob that a stored snapshot refers to, as a payload
    or as a shard of its index, is; and when it succeeds, only those are left. *)
Theorem garbage_collect_blobs_exact {Hlaws : PlanningOsLaws} planning snapshots o w w' r :
  garbage_collect_blobs planning snapshots o w = (w', r) ->
  keeps (path snapshots) (blob_directory planning) (fsys w) (fsys w') /\
  (r = Value tt -> collected (path snapshots) (blob_directory planning) (fsys w) (fsys w')).
Proof.
  intros Hrun. set (d := fsys w). set (S := path snapshots). set (B := blob_directory planning).
  assert (Ht : triple (eq d) (garbage_collect_blobs planning snapshots o)
    (fun _ d' => keeps S B d d' /\ collected S B d d') (keeps S B d)).
  { unfold garbage_collect_blobs.
    do 2 (eapply gives_then; [apply gives_reads; frame | apply keeps_refl | intros _ _]).
    eapply gives_then; [apply child_if_present_gives | apply keeps_refl |]. intros [blobs|] Hb.
    2: { apply triple_done. intros d' <-. split; [apply keeps_refl |]. intros x _ Hx. exfalso.
         unfold B, blob_directory in Hx. rewrite <- !app_assoc, app_assoc, get_app, Hb in Hx. by destruct Hx. }
    destruct Hb as [-> _]. cbn [path owner].
    eapply gives_then; [apply child_if_present_gives | apply keeps_refl |]. intros [sha256|] Hs; cbn [path owner] in *.
    2: { apply triple_done. intros d' <-. split; [apply keeps_refl |]. intros x _ Hx. exfalso.
         unfold B, blob_directory in Hx. rewrite get_app, Hs in Hx. by destruct Hx. }
    destruct Hs as [-> (s & m & HB)].
    eapply gives_then; [apply read_dir_gives | apply keeps_refl |]. intros names (s' & m' & HS & ->).
    eapply gives_then; [apply retain_snapshots_gives | apply keeps_refl |]. intros retained Hr. cbv beta in Hr.
    eapply gives_then; [apply read_dir_gives | apply keeps_refl |]. intros names (s'' & m'' & HB2 & ->).
    apply (triple_bind _ _ _ (fun _ d' => keeps S B d d' /\ collected S B d d')).
    - apply (collect_blobs_keeps d S (mk_directory B (owner planning)) o retained s'' m'').
      + intros x. rewrite Hr. symmetry. by eapply (needed_listed d S B x s' m').
      + exact HB2.
    - intros _. eapply triple_conseq; [apply (reads_triple (fun d' => keeps S B d d' /\ collected S B d d')) | done | done |].
      + frame.
      + by intros d' [? _]. }
  specialize (Ht w eq_refl). rewrite Hrun in Ht. destruct r as [[]|e|]; [by destruct Ht | done..].
Qed.
End facts.
End Collection.

(** ** Publication *)

Module Publication.
Import TreeFacts FrameFacts OperationFrames ReadFacts.

Section facts.
Context `{PlanningOs} `{IndexEnv}.

Lemma gives_all {A} (P : node -> Prop) (m : io A) (G : node -> A -> Prop) : (forall d, P d -> gives d m (G d)) ->
  triple P m (fun a d => G d a /\ P d) P.
Proof.
  intros Hm w Hw. pose proof (Hm (fsys w) Hw w eq_refl) as H1. destruct (m w) as [w' [a|e|]].
  - destruct H1 as [H1 Hd]. by rewrite <- Hd.
  - by rewrite <- H1.
  - by rewrite <- H1.
Qed.

(** The tree outside of what [T] names. *)
Definition outside (T : list string -> Prop) (d0 d : node) : Prop :=
  forall q, (forall t, T t -> apart t q = true) -> get q d = get q d0.

Lemma touches_outside {A} T (m : io A) d0 : touches T m -> triple (outside T d0) m (fun _ => outside T d0) (outside T d0).
Proof.
  intros Hm w Hw. assert (Hw' : outside T d0 (fsys (m w).1)).
  { intros q Hq. rewrite Hm by done. by apply Hw. }
  by destruct (m w) as [w' [a|e|]].
Qed.

Definition below (p : list string) (t : list string) : Prop := exists q, t = p ++ q.

Lemma below_apart p x y q : x <> y -> forall t, below (p ++ [x]) t -> apart t (p ++ y :: q) = true.
Proof. intros Hne t [r ->]. rewrite <- app_assoc. by apply apart_names. Qed.

(** The node at [p], whatever else. *)
Definition here (p : list string) (n : node) (d : node) : Prop := get p d = Some n.

Lemma create_dir_makes p x s m : triple (here p (Directory s m)) (create_dir p x)
  (fun _ => here (p ++ [x]) (Directory (Stat.mk euid (N.ldiff 511 umask) 2) ∅)) (fun _ => True).
Proof.
  apply triple_sys; [done |]. intros d d' a Hd E. destruct (get (p ++ [x]) d); [done |]. injection E as <- <-.
  unfold here. rewrite (get_set_self p x _ []); [done | by exists s, m].
Qed.

Lemma update_makes p f n : triple (here p n) (sys (fun d => Ok (update p f d, tt))) (fun _ => here p (f n)) (fun _ => True).
Proof. apply triple_sys; [done |]. intros d d' a Hd [= <- <-]. unfold here in *. by rewrite get_update_self, Hd. Qed.

Lemma create_new_makes p x s m : triple (here p (Directory s m)) (create_new p x)
  (fun _ => here p (Directory s (<[x := File (Stat.mk euid (N.ldiff 438 umask) 1) [] false]> m))) (fun _ => True).
Proof.
  apply triple_sys; [done |]. intros d d' a Hd E. destruct (get (p ++ [x]) d); [done |]. injection E as <- <-.
  unfold here in *. rewrite get_update_self, Hd. done.
Qed.

(** A change of a file seen from its directory. *)
Lemma update_child p x f s m n : triple (here p (Directory s (<[x := n]> m))) (sys (fun d => Ok (update (p ++ [x]) f d, tt)))
  (fun _ => here p (Directory s (<[x := f n]> m))) (fun _ => True).
Proof.
  apply triple_sys; [done |]. intros d d' a Hd [= <- <-]. unfold here in *. rewrite get_update_above, Hd. cbn.
  by rewrite lookup_insert_eq, insert_insert_eq.
Qed.

Lemma write_all_child p x bs s m st c : triple (here p (Directory s (<[x := File st c false]> m))) (write_all (p ++ [x]) bs)
  (fun _ => here p (Directory s (<[x := File st (c ++ bs) false]> m))) (fun _ => True).
Proof.
  apply triple_write; [done |]. intros d Hd. unfold here in *. rewrite get_update_above, Hd. cbn.
  by rewrite lookup_insert_eq, insert_insert_eq, firstn_all.
Qed.

Definition stored_file (bs : list byte) : node := File (Stat.mk euid mode_644 1) bs true.

Lemma write_file_makes p x bs s m : triple (here p (Directory s m)) (write_file p x bs)
  (fun _ => here p (Directory s (<[x := stored_file bs]> m))) (fun _ => True).
Proof.
  unfold write_file. eapply triple_bind; [apply create_new_makes | intros u0].
  eapply triple_bind; [apply write_all_child | intros u1].
  eapply triple_bind; [apply (update_child p x set_synced) | intros u2].
  eapply triple_bind; [apply (update_child p x (with_mode mode_644)) | intros u3].
  apply (update_child p x set_synced).
Qed.

Lemma write_file_touches T p x bs : T (p ++ [x]) -> touches T (write_file p x bs).
Proof. intros HT. unfold write_file, set_permissions. frame. Qed.

(** A renaming that fails changes nothing. *)
Lemma rename_moves p x y n (F : node -> Prop) : x <> y -> triple (fun d => here (p ++ [x]) n d /\ F d) (rename p x y)
  (fun _ => here (p ++ [y]) n) F.
Proof.
  intros Hne. apply triple_sys; [by intros d [_ ?] |]. intros d d' a [Hd _] E. unfold here in *. rewrite Hd in E.
  apply bind_ok in E as (u & _ & [= <- <-]). rewrite <- (update_update (set_entry y (Some n)) (set_entry x None)).
  rewrite (get_set_self p y _ []); [done |]. apply directory_set. by eapply directory_above.
Qed.

(** A step at [t] while nothing is at [q]. *)
Lemma beside {A} t q (P P' : node -> Prop) (m : io A) : touches (below t) m -> (forall u, below t u -> apart u q = true) ->
  triple P m (fun _ => P') (fun _ => True) ->
  triple (fun d => P d /\ get q d = None) m (fun _ d => P' d /\ get q d = None) (fun d => get q d = None).
Proof.
  intros Ht Hq Hm. eapply triple_conseq; [apply (triple_and _ _ _ _ _ _ _ Hm (touches_triple _ _ q None Ht Hq)) | done | done |].
  by intros d [_ ?].
Qed.

Lemma below_self p x : below (p ++ [x]) (p ++ [x]).
Proof. exists []. by rewrite app_nil_r. Qed.
Lemma below_child p x y : below (p ++ [x]) ((p ++ [x]) ++ [y]).
Proof. by exists [y]. Qed.

Lemma valid_digest_start x c : valid_digest (String c x) = true -> lowercase_hex c = true.
Proof. unfold valid_digest. rewrite andb_true_iff. intros [_ Hall]. cbn in Hall. by apply andb_prop in Hall as [? _]. Qed.

Lemma staging_not_digest digest digest' pid nanos : valid_digest digest = true -> staging_name digest' pid nanos <> digest.
Proof. intros Hv <-. unfold staging_name in Hv. by apply valid_digest_start in Hv. Qed.

(** The snapshot under its digest, complete and synced. *)
Definition complete (bs : list byte) : node := Directory (Stat.mk euid mode_755 2) {[SNAPSHOT_FILE := stored_file bs]}.
Definition whole (S : list string) (digest : string) (bs : list byte) : node -> Prop := here (S ++ [digest]) (complete bs).

Lemma snapshot_exists_absent h digest : triple (fun d => get (path h ++ [digest]) d = None) (snapshot_exists h digest)
  (fun b d => b = false /\ get (path h ++ [digest]) d = None) (fun d => get (path h ++ [digest]) d = None).
Proof.
  apply (gives_all _ _ (fun _ b => b = false)). intros d Hd. unfold snapshot_exists.
  destruct (negb _); [intros w Hw; exact Hw |]. eapply gives_bind; [apply child_if_present_gives |].
  intros [c|] Hc; [| by apply gives_mret]. destruct Hc as [_ (s & m & Hc)]. congruence.
Qed.

Lemma snapshot_exists_reads h digest : reads (snapshot_exists h digest).
Proof. unfold snapshot_exists. frame. Qed.

(** The last step: the renaming, and what its failure is taken for. *)
Lemma install_staged snapshots digest bs staging : staging <> digest ->
  let S := path snapshots in
  triple (fun d => here (S ++ [staging]) (complete bs) d /\ get (S ++ [digest]) d = None)
    (renamed ← attempt (rename S staging digest);
     match renamed with
     | Ok _ => sync_directory snapshots
     | Err error =>
         exists_now ← snapshot_exists snapshots digest;
         if exists_now : bool then remove_dir_all S staging else raise error
     end)
    (fun _ => whole S digest bs) (fun d => get (S ++ [digest]) d = None \/ whole S digest bs d).
Proof.
  intros Hne S.
  apply (triple_bind _ _ _ (fun r d => match r with Ok _ => whole S digest bs d | Err _ => get (S ++ [digest]) d = None end)).
  { eapply triple_conseq; [apply triple_attempt, (rename_moves S staging digest (complete bs) (fun d => get (S ++ [digest]) d = None) Hne)
      | done | done | by left]. }
  intros [[]|error].
  - eapply triple_conseq; [apply (reads_triple (whole S digest bs)) | done | done | by right]. frame.
  - apply (triple_bind _ _ _ (fun b d => b = false /\ get (S ++ [digest]) d = None)).
    { eapply triple_conseq; [apply snapshot_exists_absent | done | done | by left]. }
    intros b w [-> Hw]. by left.
Qed.

Lemma stage_snapshot_atomic snapshots digest bs pid nanos :
  let S := path snapshots in valid_digest digest = true ->
  triple (fun d => is_directory (get S d) /\ get (S ++ [digest]) d = None) (stage_snapshot snapshots digest bs pid nanos)
    (fun _ d => whole S digest bs d) (fun d => get (S ++ [digest]) d = None \/ whole S digest bs d).
Proof.
  intros S Hv. unfold stage_snapshot. apply triple_lift_bind; [tauto |]. intros t _. set (staging := staging_name digest pid t).
  assert (Hne : staging <> digest) by by apply staging_not_digest.
  assert (Hbeside : forall u, below (S ++ [staging]) u -> apart u (S ++ [digest]) = true) by by apply below_apart.
  pose proof (below_self S staging) as Hself. pose proof (below_child S staging SNAPSHOT_FILE) as Hfile.
  assert (Hstep : forall {A} (m : io A) (P P' : node -> Prop) (k : A -> io unit),
    touches (below (S ++ [staging])) m -> triple P m (fun _ => P') (fun _ => True) ->
    (forall a, triple (fun d => P' d /\ get (S ++ [digest]) d = None) (k a) (fun _ d => whole S digest bs d)
       (fun d => get (S ++ [digest]) d = None \/ whole S digest bs d)) ->
    triple (fun d => P d /\ get (S ++ [digest]) d = None) (m ≫= k) (fun _ d => whole S digest bs d)
       (fun d => get (S ++ [digest]) d = None \/ whole S digest bs d)).
  { intros A m P P' k Ht Hm Hk. eapply (triple_bind _ _ _ (fun _ d => P' d /\ get (S ++ [digest]) d = None)); [| exact Hk].
    eapply triple_conseq; [exact (beside _ _ _ _ _ Ht Hbeside Hm) | done | done | by left]. }
  apply (Hstep _ _ _ (here (S ++ [staging]) (Directory (Stat.mk euid (N.ldiff 511 umask) 2) ∅))).
  { frame. }
  { intros w (s & m & Hw). exact (create_dir_makes S staging s m w Hw). }
  intros u0. apply (Hstep _ _ _ (here (S ++ [staging]) (Directory (Stat.mk euid mode_755 2) ∅))).
  { unfold set_permissions. frame. }
  { apply (update_makes _ (with_mode mode_755)). }
  intros u1. apply (Hstep _ _ _ (here (S ++ [staging]) (complete bs))).
  { by apply write_file_touches. }
  { apply write_file_makes. }
  intros u2. do 2 (apply (Hstep _ _ _ (here (S ++ [staging]) (complete bs)));
    [frame | eapply triple_conseq; [apply reads_triple, reads_sync | done | done | done] | intros ?]).
  by apply install_staged.
Qed.

(** The pointer. *)
Definition pointer_file (digest : string) : node := stored_file (bytes digest ++ [newline]).

Lemma move_pointer_atomic planning digest pid nanos old :
  let P := path planning in
  triple (fun d => is_directory (get P d) /\ get (P ++ [CURRENT_POINTER]) d = old) (move_pointer planning digest pid nanos)
    (fun _ => here (P ++ [CURRENT_POINTER]) (pointer_file digest))
    (fun d => get (P ++ [CURRENT_POINTER]) d = old \/ here (P ++ [CURRENT_POINTER]) (pointer_file digest) d).
Proof.
  intros P. unfold move_pointer. apply triple_lift_bind; [tauto |]. intros t _. set (temporary := pointer_temporary pid t).
  assert (Hne : temporary <> CURRENT_POINTER) by done.
  apply (triple_bind _ _ _ (fun _ d => here (P ++ [temporary]) (pointer_file digest) d /\ get (P ++ [CURRENT_POINTER]) d = old)).
  - intros w [(s & m & Hd) Hold].
    pose proof (write_file_makes P temporary (bytes digest ++ [newline]) s m w Hd) as H1.
    pose proof (touches_triple (below (P ++ [temporary])) (write_file P temporary (bytes digest ++ [newline])) (P ++ [CURRENT_POINTER]) old
      (write_file_touches _ _ _ _ (below_self P temporary)) (below_apart P temporary CURRENT_POINTER [] Hne) w Hold) as H2.
    destruct (write_file _ _ _ w) as [w' [a|e|]]; [| by left..]. split; [| done]. unfold here in *. rewrite get_app, H1. cbn.
    by rewrite lookup_insert_eq.
  - intros u. apply (triple_bind _ _ _ (fun _ => here (P ++ [CURRENT_POINTER]) (pointer_file digest))).
    + eapply triple_conseq; [apply (rename_moves P temporary CURRENT_POINTER (pointer_file digest) (fun d => get (P ++ [CURRENT_POINTER]) d = old) Hne)
        | done | done | by left].
    + intros u'. eapply triple_conseq; [apply (reads_triple (here (P ++ [CURRENT_POINTER]) (pointer_file digest))) | done | done | by right].
      frame.
Qed.

(** The paths that a publication may touch. *)
Definition publication_paths (P : list string) (digest pid : string) (t : list string) : Prop :=
  let S := P ++ ["snapshots"] in
  (exists nanos, below (S ++ [staging_name digest pid nanos]) t) \/ below (S ++ [digest]) t \/
  (exists nanos, below (P ++ [pointer_temporary pid nanos]) t) \/ t = P ++ [CURRENT_POINTER].

Lemma remove_dir_all_touches T p x : (forall t, below (p ++ [x]) t -> T t) -> touches T (remove_dir_all p x).
Proof.
  intros HT. unfold remove_dir_all. apply touches_bind; [by apply touches_reads, reads_read_dir |]. intros names.
  apply touches_bind; [apply touches_for; intros y _; apply touches_remove_file, HT, below_child |].
  intros _. apply touches_remove_dir, HT, below_self.
Qed.

Lemma publish_snapshot_touches planning snapshots digest bs pid n1 n2 : path snapshots = path planning ++ ["snapshots"] ->
  touches (publication_paths (path planning) digest pid) (publish_snapshot planning snapshots digest bs pid n1 n2).
Proof.
  intros HS. set (T := publication_paths (path planning) digest pid).
  assert (Hstaging : forall n t, below (path snapshots ++ [staging_name digest pid n]) t -> T t).
  { intros n t Ht. left. exists n. by rewrite <- HS. }
  assert (Hdigest : T (path snapshots ++ [digest])) by (right; left; rewrite <- HS; apply below_self).
  assert (Htemp : forall n, T (path planning ++ [pointer_temporary pid n])) by (intros n; right; right; left; exists n; apply below_self).
  assert (Hcur : T (path planning ++ [CURRENT_POINTER])) by (by right; right; right).
  unfold publish_snapshot, stage_snapshot, move_pointer, set_permissions.
  pose proof (fun n => Hstaging n _ (below_self (path snapshots) _)) as Hs1.
  pose proof (fun n => Hstaging n _ (below_child (path snapshots) _ SNAPSHOT_FILE)) as Hs2.
  pose proof (fun n => remove_dir_all_touches T (path snapshots) _ (Hstaging n)) as Hs3.
  repeat (step_frame || solve [auto using touches_reads, snapshot_exists_reads, write_file_touches with frames]).
Qed.

Lemma snapshot_exists_gives d h digest : gives d (snapshot_exists h digest) (fun b => valid_digest digest = true /\
  if b : bool then is_directory (get (path h ++ [digest]) d)
  else is_directory (get (path h) d) /\ get (path h ++ [digest]) d = None).
Proof.
  unfold snapshot_exists. destruct (valid_digest digest); cbn [negb]; [| intros w Hw; exact Hw].
  eapply gives_bind; [apply gives_and; [apply child_if_present_gives | apply child_if_present_parent] |].
  intros [c|] [Hc Hp]; apply gives_mret; (split; [done |]); cbn [is_some]; [by destruct Hc | done].
Qed.

(** The text of the snapshot can be read under its digest. *)
Definition has_text (S : list string) (digest : string) (bs : list byte) (d : node) : Prop :=
  exists st y, get ((S ++ [digest]) ++ [SNAPSHOT_FILE]) d = Some (File st bs y).

Lemma whole_has_text S digest bs d : whole S digest bs d -> has_text S digest bs d.
Proof. unfold whole, here. intros Hd. eexists _, _. rewrite get_app, Hd. cbn. reflexivity. Qed.

(** What is under the digest after a publication: what was, or what was missing. *)
Definition slot (S : list string) (digest : string) (bs : list byte) (d d' : node) : Prop :=
  get (S ++ [digest]) d' = get (S ++ [digest]) d \/ (get (S ++ [digest]) d = None /\ whole S digest bs d').

Lemma install_snapshot_atomic snapshots digest bs pid nanos d0 :
  let S := path snapshots in
  triple (eq d0)
    (present ← snapshot_exists snapshots digest;
     if present : bool then
       c ← child snapshots digest false 0;
       existing ← read c SNAPSHOT_FILE MAX_STORED_BYTES;
       raise_if (negb (bool_decide (existing = bs))) (PlanningError.UnsafeSnapshot "immutable snapshot digest collision")
     else stage_snapshot snapshots digest bs pid nanos)
    (fun _ d => slot S digest bs d0 d /\ has_text S digest bs d) (slot S digest bs d0).
Proof.
  intros S. eapply gives_then; [apply snapshot_exists_gives | by left |]. intros [] [Hv Hd].
  - eapply gives_then; [apply child_gives | by left |]. intros c [-> _].
    eapply gives_then; [apply read_gives; unfold MAX_STORED_BYTES, u64_max; lia | by left |]. intros existing (st & y & He).
    eapply triple_conseq; [apply (triple_raise_if _ _ (eq d0) (slot S digest bs d0)) | done | | done].
    + intros d <-. by left.
    + intros _ d [E <-]. apply negb_false_iff, bool_decide_eq_true in E. subst existing. split; [by left | by exists st, y].
  - eapply triple_conseq; [by apply (stage_snapshot_atomic snapshots digest bs pid nanos) | | |].
    + by intros d <-.
    + intros u d Hw. split; [right; split; [by destruct Hd | done] | by apply whole_has_text].
    + intros d [Hn|Hw]; [left; etransitivity; [exact Hn | symmetry; by destruct Hd] | right; split; [by destruct Hd | done]].
Qed.

Lemma install_snapshot_touches snapshots digest bs pid nanos :
  touches (fun t => exists x, below (path snapshots ++ [x]) t)
    (present ← snapshot_exists snapshots digest;
     if present : bool then
       c ← child snapshots digest false 0;
       existing ← read c SNAPSHOT_FILE MAX_STORED_BYTES;
       raise_if (negb (bool_decide (existing = bs))) (PlanningError.UnsafeSnapshot "immutable snapshot digest collision")
     else stage_snapshot snapshots digest bs pid nanos).
Proof.
  set (T := fun t => exists x, below (path snapshots ++ [x]) t).
  assert (H1 : forall x, T (path snapshots ++ [x])) by (intros x; exists x; apply below_self).
  assert (H2 : forall x y, T ((path snapshots ++ [x]) ++ [y])) by (intros x y; exists x; apply below_child).
  assert (H3 : forall x, touches T (remove_dir_all (path snapshots) x)) by (intros x; apply remove_dir_all_touches; intros t Ht; by exists x).
  unfold stage_snapshot, set_permissions.
  repeat (step_frame || solve [auto using touches_reads, snapshot_exists_reads, write_file_touches with frames]).
Qed.

(** A successful publication. *)
Definition published (P S : list string) (digest : string) (bs : list byte) (d d' : node) : Prop :=
  slot S digest bs d d' /\ here (P ++ [CURRENT_POINTER]) (pointer_file digest) d' /\ has_text S digest bs d'.

Lemma move_pointer_touches planning digest pid nanos : touches (fun t => (exists n, below (path planning ++ [pointer_temporary pid n]) t) \/
  t = path planning ++ [CURRENT_POINTER]) (move_pointer planning digest pid nanos).
Proof.
  set (T := fun t => _). assert (H1 : forall n, T (path planning ++ [pointer_temporary pid n])) by (intros n; left; exists n; apply below_self).
  assert (H2 : T (path planning ++ [CURRENT_POINTER])) by by right.
  unfold move_pointer. repeat (step_frame || solve [auto using touches_reads, write_file_touches with frames]).
Qed.

(** Moving the pointer changes nothing under the name of the snapshots. *)
Lemma move_pointer_publishes planning S digest bs pid nanos d : S = path planning ++ ["snapshots"] ->
  let P := path planning in
  triple (fun d' => (slot S digest bs d d' /\ has_text S digest bs d') /\ get (P ++ [CURRENT_POINTER]) d' = get (P ++ [CURRENT_POINTER]) d)
    (move_pointer planning digest pid nanos)
    (fun _ => published P S digest bs d) (fun d' => slot S digest bs d d' /\ (get (P ++ [CURRENT_POINTER]) d' =
       get (P ++ [CURRENT_POINTER]) d \/ published P S digest bs d d')).
Proof.
  intros HS P w [[Hslot Htext] Hold].
  assert (Hdir : is_directory (get P (fsys w))).
  { destruct Htext as (st & y & Hg). rewrite HS, <- !app_assoc in Hg. by eapply directory_above. }
  pose proof (move_pointer_atomic planning digest pid nanos _ w (conj Hdir Hold)) as Hm.
  pose proof (move_pointer_touches planning digest pid nanos w) as Ht.
  assert (Hkeep : forall q, get (S ++ q) (fsys (move_pointer planning digest pid nanos w).1) = get (S ++ q) (fsys w)).
  { intros q. apply Ht. intros t [[n [r ->]] | ->]; rewrite HS, <- !app_assoc; by apply apart_names. }
  destruct (move_pointer _ _ _ _ w) as [w' r]. cbn [fst] in Hkeep.
  assert (Hs' : slot S digest bs d (fsys w')) by (unfold slot, whole, here in *; by rewrite Hkeep).
  assert (Ht' : has_text S digest bs (fsys w')) by (unfold has_text in *; rewrite <- app_assoc in *; by rewrite Hkeep).
  destruct r as [u|e|]; [done | |]; (split; [done |]); destruct Hm as [Hm|Hm]; auto; by right.
Qed.

(** C38: publishing a snapshot, whatever fails and whenever the process dies: nothing outside of the
    temporary names, the name of the snapshot and the pointer changes, so no other snapshot does;
    under the digest is what was there or, where nothing was, the complete and synced snapshot;
    the pointer is the old one or, complete and synced, names the snapshot, whose text is there;
    and it names it when the publication succeeds. *)
Theorem publish_snapshot_atomic planning snapshots digest bs pid n1 n2 w w' r :
  path snapshots = path planning ++ ["snapshots"] ->
  publish_snapshot planning snapshots digest bs pid n1 n2 w = (w', r) ->
  let P := path planning in let S := path snapshots in let d := fsys w in let d' := fsys w' in
  outside (publication_paths P digest pid) d d' /\
  slot S digest bs d d' /\
  (get (P ++ [CURRENT_POINTER]) d' = get (P ++ [CURRENT_POINTER]) d \/
   here (P ++ [CURRENT_POINTER]) (pointer_file digest) d' /\ has_text S digest bs d') /\
  (r = Value tt -> here (P ++ [CURRENT_POINTER]) (pointer_file digest) d').
Proof.
  intros HS Hrun P S d d'. split.
  { intros q Hq. pose proof (publish_snapshot_touches planning snapshots digest bs pid n1 n2 HS w q Hq) as Ht. by rewrite Hrun in Ht. }
  assert (Hapart : forall t, (exists x, below (path snapshots ++ [x]) t) -> apart t (P ++ [CURRENT_POINTER]) = true).
  { intros t [x [q ->]]. rewrite HS, <- !app_assoc. by apply apart_names. }
  assert (Ht : triple (eq d) (publish_snapshot planning snapshots digest bs pid n1 n2)
    (fun _ => published P S digest bs d) (fun d' => slot S digest bs d d' /\ (get (P ++ [CURRENT_POINTER]) d' =
       get (P ++ [CURRENT_POINTER]) d \/ published P S digest bs d d'))).
  { unfold publish_snapshot. apply triple_assoc.
    eapply (triple_bind _ _ _ (fun _ d' => (slot S digest bs d d' /\ has_text S digest bs d') /\
      get (P ++ [CURRENT_POINTER]) d' = get (P ++ [CURRENT_POINTER]) d)).
    - eapply triple_conseq; [apply (triple_and _ _ _ _ _ _ _ (install_snapshot_atomic snapshots digest bs pid n1 d)
        (touches_triple _ _ (P ++ [CURRENT_POINTER]) (get (P ++ [CURRENT_POINTER]) d) (install_snapshot_touches snapshots digest bs pid n1) Hapart))
        | by intros d0 <- | done | by intros d0 [? ?]; split; [| left]].
    - intros u. by apply move_pointer_publishes. }
  specialize (Ht w eq_refl). rewrite Hrun in Ht. destruct r as [[]|e|].
  - destruct Ht as (? & ? & ?). split_and!; [done | by right | done].
  - destruct Ht as [? [?|(? & ? & ?)]]; split_and!; try done; [by left | by right].
  - destruct Ht as [? [?|(? & ? & ?)]]; split_and!; try done; [by left | by right].
Qed.
End facts.
End Publication.

(** ** An interrupted collection *)

Module Interrupted.
Import TreeFacts FrameFacts OperationFrames ReadFacts Collection Publication.

Section facts.
Context `{PlanningOs} `{IndexEnv} {Hlaws : PlanningOsLaws}.

(** What is left when collection dies after [remove_file]: a snapshot without its text. *)
Definition emptied (P : list string) (name : string) (d : node) : Prop :=
  valid_digest name = true /\
  (exists s m, get ((P ++ ["snapshots"]) ++ [name]) d = Some (Directory s m) /\ m !! SNAPSHOT_FILE = None) /\
  is_directory (get ((P ++ ["blobs"]) ++ ["sha256"]) d).

Lemma emptied_text P name d : emptied P name d -> get (((P ++ ["snapshots"]) ++ [name]) ++ [SNAPSHOT_FILE]) d = None.
Proof. intros (_ & (s & m & Hd & Hm) & _). rewrite get_app, Hd. cbn. by rewrite Hm. Qed.

(** It depends on two places only. *)
Lemma emptied_same P name d d' : emptied P name d ->
  get ((P ++ ["snapshots"]) ++ [name]) d' = get ((P ++ ["snapshots"]) ++ [name]) d ->
  get ((P ++ ["blobs"]) ++ ["sha256"]) d' = get ((P ++ ["blobs"]) ++ ["sha256"]) d -> emptied P name d'.
Proof. unfold emptied. by intros ? -> ->. Qed.

Lemma emptied_touches {A} P name T (m : io A) : touches T m ->
  (forall t, T t -> apart t ((P ++ ["snapshots"]) ++ [name]) = true) ->
  (forall t, T t -> apart t ((P ++ ["blobs"]) ++ ["sha256"]) = true) ->
  triple (emptied P name) m (fun _ => emptied P name) (emptied P name).
Proof.
  intros Ht H1 H2 w Hw. pose proof (Ht w _ H1) as E1. pose proof (Ht w _ H2) as E2.
  destruct (m w) as [w' [a|e|]]; by eapply emptied_same.
Qed.

Lemma never {A} (P : node -> Prop) (m : io A) : (forall d, P d -> gives d m (fun _ => False)) -> triple P m (fun _ _ => False) P.
Proof. intros Hm. eapply triple_conseq; [by apply (gives_all _ m (fun _ _ => False)) | done | by intros a d [? _] | done]. Qed.

Lemma read_emptied_never h P name d : emptied P name d -> path h = P ++ ["snapshots"] ->
  forall A (k : list byte -> io A),
  gives d (c ← child h name false 0; l ← read c SNAPSHOT_FILE MAX_STORED_BYTES; k l) (fun _ => False).
Proof.
  intros Hd Hp A k. eapply gives_bind; [apply child_gives |]. intros c [-> _].
  eapply gives_bind; [apply read_gives; unfold MAX_STORED_BYTES, u64_max; lia |]. intros l (s & y & Hl).
  cbn [path] in Hl. rewrite Hp, (emptied_text P name d Hd) in Hl. done.
Qed.

Lemma publish_keeps_emptied planning snapshots digest bs pid n1 n2 name :
  path snapshots = path planning ++ ["snapshots"] ->
  triple (emptied (path planning) name) (publish_snapshot planning snapshots digest bs pid n1 n2)
    (fun _ => emptied (path planning) name) (emptied (path planning) name).
Proof.
  intros HS. destruct (decide (name = digest)) as [->|Hne].
  - assert (Hnever : forall d, emptied (path planning) digest d ->
      gives d (present ← snapshot_exists snapshots digest;
               if present : bool then
                 c ← child snapshots digest false 0;
                 existing ← read c SNAPSHOT_FILE MAX_STORED_BYTES;
                 raise_if (negb (bool_decide (existing = bs))) (PlanningError.UnsafeSnapshot "immutable snapshot digest collision")
               else stage_snapshot snapshots digest bs pid n1) (fun _ => False)).
    { intros d Hd. eapply gives_bind; [apply snapshot_exists_gives |]. intros [] [_ Hb].
      - by apply (read_emptied_never snapshots (path planning) digest d Hd HS).
      - exfalso. destruct Hb as [_ Hb], Hd as (_ & (s & m & Hd & _) & _). rewrite HS in Hb. congruence. }
    unfold publish_snapshot. apply triple_assoc. eapply (triple_bind _ _ _ (fun _ _ => False)).
    + by apply never.
    + by intros u w.
  - destruct (valid_digest name) eqn:Hv; [| intros w (Hw & _); congruence].
    eapply emptied_touches; [by apply publish_snapshot_touches | |];
      intros t [[n [q ->]] | [[q ->] | [[n [q ->]] | ->]]]; rewrite <- ?app_assoc; try by apply apart_names.
    + rewrite !(app_assoc _ ["snapshots"]). apply apart_names. by apply staging_not_digest.
    + rewrite !(app_assoc _ ["snapshots"]). apply apart_names. congruence.
Qed.

Lemma collect_snapshot_touches snapshots current x : touches (below (path snapshots ++ [x])) (collect_snapshot snapshots current x).
Proof.
  unfold collect_snapshot. apply touches_lift. intros n ->%utf8_name_ok.
  pose proof (below_self (path snapshots) x) as H1. pose proof (below_child (path snapshots) x SNAPSHOT_FILE) as H2.
  repeat (step_frame || solve [auto using touches_reads with frames]).
Qed.

Lemma collect_snapshot_keeps snapshots current x P name : path snapshots = P ++ ["snapshots"] ->
  triple (emptied P name) (collect_snapshot snapshots current x) (fun _ => emptied P name) (emptied P name).
Proof.
  intros HS. destruct (decide (x = name)) as [->|Hne].
  - unfold collect_snapshot. apply triple_lift_bind; [done |]. intros n ->%utf8_name_ok.
    destruct (_ || _); [by apply triple_done |].
    eapply triple_conseq; [apply never | done | by intros ? ? | done]. intros d Hd.
    by apply (read_emptied_never snapshots P name d Hd HS).
  - eapply emptied_touches; [apply collect_snapshot_touches | |]; intros t [q ->]; rewrite HS, <- !app_assoc.
    + rewrite !(app_assoc _ ["snapshots"]). by apply apart_names.
    + by apply apart_names.
Qed.

Lemma garbage_collect_keeps snapshots current modified P name : path snapshots = P ++ ["snapshots"] ->
  triple (emptied P name) (garbage_collect snapshots current modified) (fun _ => emptied P name) (emptied P name).
Proof.
  intros HS. unfold garbage_collect. apply (triple_bind _ _ _ (fun _ => emptied P name)); [apply reads_triple; frame | intros _].
  apply (triple_bind _ _ _ (fun _ => emptied P name)); [apply reads_triple; frame | intros names].
  apply (triple_bind _ _ _ (fun _ => emptied P name)); [| intros _; apply reads_triple; frame].
  apply triple_for; [done |]. intros x _. by apply collect_snapshot_keeps.
Qed.

Lemma retain_repository_reads sha256 l r : reads (retain_repository sha256 l r).
Proof. unfold retain_repository. frame. Qed.

Lemma retain_snapshot_reads snapshots sha256 l name : reads (retain_snapshot snapshots sha256 l name).
Proof. unfold retain_snapshot. repeat (step_frame || solve [auto using retain_repository_reads with frames]). Qed.

Lemma retain_emptied_never snapshots sha256 l P name d : emptied P name d -> path snapshots = P ++ ["snapshots"] ->
  gives d (retain_snapshot snapshots sha256 l name) (fun _ => False).
Proof.
  intros Hd HS. unfold retain_snapshot. eapply (gives_bind _ _ _ (fun n => n = name)); [apply gives_lift; intros n; apply utf8_name_ok |].
  intros n ->. destruct Hd as (Hv & Hd). rewrite Hv. cbn [negb]. by apply (read_emptied_never snapshots P name d (conj Hv Hd) HS).
Qed.

Lemma garbage_collect_blobs_never planning snapshots o name d : path snapshots = path planning ++ ["snapshots"] ->
  emptied (path planning) name d -> gives d (garbage_collect_blobs planning snapshots o) (fun _ => False).
Proof.
  intros HS Hd. pose proof Hd as (_ & (s & m & Hn & _) & (sb & mb & Hb)). unfold garbage_collect_blobs.
  do 2 (eapply gives_bind; [apply gives_reads; frame | intros _ _]).
  eapply gives_bind; [apply child_if_present_gives |]. intros [blobs|] Hblobs.
  2: { exfalso. rewrite get_app, Hblobs in Hb. done. }
  destruct Hblobs as [-> _]. cbn [path owner].
  eapply gives_bind; [apply child_if_present_gives |]. intros [sha256|] Hsha; cbn [path owner] in Hsha.
  2: { congruence. }
  eapply gives_bind; [apply read_dir_gives |]. intros names (s' & m' & HS' & ->).
  assert (Hin : name ∈ read_dir_order m').
  { rewrite HS in HS'. rewrite get_app, HS' in Hn. cbn in Hn. destruct (m' !! name) as [c|] eqn:Em; [| done].
    rewrite read_dir_entries. apply list_elem_of_fmap. exists (name, c). split; [done |]. by apply elem_of_map_to_list. }
  eapply gives_bind; [apply (gives_fold_never d _ name) | done].
  - intros l x. apply retain_snapshot_reads.
  - exact Hin.
  - intros l. by eapply retain_emptied_never.
Qed.

(** A collection that dies between its two calls leaves a snapshot without its text, and from
    then on no publication succeeds: whatever is published and whatever the system does, storing a
    snapshot ends in an error or in the death of the process, and what blocks it stays. *)
Theorem interrupted_collection_blocks planning o snapshot pid n1 n2 modified name w w' r :
  emptied (path planning) name (fsys w) ->
  store_snapshot planning o snapshot pid n1 n2 modified w = (w', r) ->
  (forall digest, r <> Value digest) /\ emptied (path planning) name (fsys w').
Proof.
  intros Hw Hrun. assert (Ht : triple (emptied (path planning) name) (store_snapshot planning o snapshot pid n1 n2 modified)
    (fun _ _ => False) (emptied (path planning) name)).
  { unfold store_snapshot. eapply (triple_seq _ _ _ (fun h => path h = path planning ++ ["snapshots"])).
    - apply (gives_all _ _ (fun _ h => path h = path planning ++ ["snapshots"])). intros d (_ & (s & m & Hd & _) & _).
      eapply gives_conseq; [apply child_present_gives | by intros h ->].
      assert (Hdir : is_directory (get (path planning ++ ["snapshots"]) d)) by (by eapply directory_above).
      by destruct Hdir as (s' & m' & ->).
    - intros snapshots HS. apply triple_lift_bind; [done |]. intros bs _.
      apply (triple_bind _ _ _ (fun _ => emptied (path planning) name)); [by apply publish_keeps_emptied | intros _].
      apply (triple_bind _ _ _ (fun _ => emptied (path planning) name)); [by apply garbage_collect_keeps | intros _].
      apply (triple_bind _ _ _ (fun _ _ => False)); [| by intros u w0].
      apply never. intros d Hd. by apply (garbage_collect_blobs_never planning snapshots o name d HS Hd). }
  specialize (Ht w Hw). rewrite Hrun in Ht. destruct r as [a|e|]; [done | by split..].
Qed.
End facts.
End Interrupted.

(** ** Blobs *)

Module Blobs.
Import TreeFacts FrameFacts OperationFrames ReadFacts Collection Publication.

Section facts.
Context `{PlanningOs} `{IndexEnv}.

(** What is at [q] stays. *)
Definition spares {A} (q : list string) (m : io A) : Prop := forall w, get q (fsys (m w).1) = get q (fsys w).

Lemma spares_reads {A} q (m : io A) : reads m -> spares q m.
Proof. intros Hm w. by rewrite Hm. Qed.

Lemma spares_bind {A B} q (m : io A) (k : A -> io B) : spares q m -> (forall a, spares q (k a)) -> spares q (m ≫= k).
Proof.
  intros Hm Hk w. unfold mbind, io_mbind. specialize (Hm w). destruct (m w) as [w' [a|e|]]; cbn in *; [by rewrite Hk | done..].
Qed.

Lemma spares_sys {A} q (f : node -> presult (node * A)) : (forall d d' a, f d = Ok (d', a) -> get q d' = get q d) -> spares q (sys f).
Proof.
  intros Hf [d u [|[| |] l]]; unfold sys; cbn; try done; destruct (f d) as [[d' a]|e] eqn:E; cbn; try done; by eapply Hf.
Qed.

Lemma spares_triple {A} q (m : io A) old : spares q m ->
  triple (fun d => get q d = old) m (fun _ d => get q d = old) (fun d => get q d = old).
Proof. intros Hm w Hw. specialize (Hm w). destruct (m w) as [w' [a|e|]]; cbn in Hm; by rewrite Hm. Qed.

Lemma mkdirat_spares p x m y q : spares ((p ++ [x]) ++ y :: q) (mkdirat p x m).
Proof.
  apply spares_sys. intros d d' a E. destruct (get (p ++ [x]) d) as [n|] eqn:Ex; [done |]. injection E as <- <-.
  rewrite (get_app (p ++ [x]) (y :: q) d), Ex, <- app_assoc. cbn [app].
  rewrite get_update. destruct (get p d) as [c|]; [| done]. change (get (x :: y :: q) (set_entry x (Some (Directory (Stat.mk euid (N.ldiff m umask) 2) ∅)) c) = None).
  rewrite get_entry, decide_True by done. by destruct c.
Qed.

Lemma fchmod_spares p m y q : spares (p ++ y :: q) (fchmod p m).
Proof.
  apply spares_sys. intros d d' a [= <- <-]. rewrite get_update, get_app. destruct (get p d) as [c|]; [| done]. by destruct c.
Qed.

(** Creating a directory changes nothing in it. *)
Lemma child_create_spares h x m y q : spares ((path h ++ [x]) ++ y :: q) (child h x true m).
Proof.
  pose proof (mkdirat_spares (path h) x m y q) as H1. pose proof (fchmod_spares (path h ++ [x]) m y q) as H2.
  unfold child, open_child. cbv beta iota zeta.
  repeat first [apply spares_bind; [| intros ?] | case_match | exact H1 | exact H2 | apply spares_reads; solve [frame]].
Qed.

Lemma child_create_gives h x m : triple (fun _ => True) (child h x true m)
  (fun c d => c = mk_directory (path h ++ [x]) (owner h) /\ is_directory (get (path h ++ [x]) d)) (fun _ => True).
Proof.
  unfold child. apply (triple_bind _ _ _ (fun _ _ => True)); [apply triple_true | intros _].
  apply (triple_bind _ _ _ (fun fd _ => fd = path h ++ [x])).
  - unfold open_child. repeat (apply (triple_bind _ _ _ (fun _ _ => True)); [apply triple_true | intros ?]).
    by apply triple_done.
  - intros fd. apply (triple_bind _ _ _ (fun _ _ => fd = path h ++ [x])); [| intros _].
    { eapply triple_conseq; [apply (reads_triple (fun _ => fd = path h ++ [x])); frame | done | done | done]. }
    eapply triple_conseq; [apply (gives_all (fun _ => fd = path h ++ [x]) (from_fd fd (owner h))
      (fun d c => c = mk_directory fd (owner h) /\ is_directory (get fd d))) | done | | done].
    + intros d _. apply from_fd_gives.
    + by intros c d [[-> Hd] ->].
Qed.

(** The directory of blobs, made if need be, has the blobs it had. *)
Lemma blobs_of_gives planning x old : let q := blob_directory planning ++ [x] in
  triple (fun d => get q d = old) (blobs_of planning true)
    (fun h d => (path h = blob_directory planning /\ is_directory (get (path h) d)) /\ get q d = old) (fun d => get q d = old).
Proof.
  intros q. unfold blobs_of.
  assert (Hblobs : spares q (child planning "blobs" true mode_755)).
  { unfold q, blob_directory. rewrite <- app_assoc. apply child_create_spares. }
  apply (triple_bind _ _ _ (fun h d => path h = path planning ++ ["blobs"] /\ get q d = old)).
  - eapply triple_conseq; [apply (triple_and _ _ _ _ _ _ _ (child_create_gives planning "blobs" mode_755)
      (spares_triple q _ old Hblobs)) | by intros | by intros h d [[-> _] ?] | by intros d [_ ?]].
  - intros h w [Hh Hq]. revert w Hq.
    assert (Hsha : spares q (child h "sha256" true mode_755)).
    { unfold q, blob_directory. rewrite <- Hh. apply child_create_spares. }
    change (triple (fun d => get q d = old) (child h "sha256" true mode_755)
      (fun h d => (path h = blob_directory planning /\ is_directory (get (path h) d)) /\ get q d = old) (fun d => get q d = old)).
    eapply triple_conseq; [apply (triple_and _ _ _ _ _ _ _ (child_create_gives h "sha256" mode_755)
      (spares_triple q _ old Hsha)) | by intros | | by intros d [_ ?]].
    + intros c d [[-> Hd] ?]. cbn [path]. unfold blob_directory. by rewrite <- Hh.
Qed.

(** A new blob: what was written is not synced. *)
Definition blob_file (bs : list byte) : node := File (Stat.mk euid mode_644 1) bs false.

(** What the source of a blob gives: what was cloned or, where nothing was, what is written. *)
Definition source_gives (reflink : presult (option (list byte))) (content : presult (list byte)) (c : list byte) : Prop :=
  reflink = Ok (Some c) \/ reflink = Ok None /\ content = Ok c.

(** The file [x] is made in the directory [p], with a content of [P]. *)
Definition makes_blob (P : list byte -> Prop) (p : list string) (x : string) (m : io unit) : Prop :=
  forall s entries, triple (here p (Directory s entries)) m
    (fun _ d => exists c, P c /\ here p (Directory s (<[x := blob_file c]> entries)) d) (fun _ => True).

Definition created : Stat.t := Stat.mk euid (N.ldiff 438 umask) 1.

Lemma clone_child p x reflink s m :
  triple (here p (Directory s (<[x := File created [] false]> m))) (clone (p ++ [x]) reflink)
    (fun r d => match reflink with
      | Ok (Some c) => r = true /\ here p (Directory s (<[x := File created c false]> m)) d
      | Ok None => r = false /\ here p (Directory s (<[x := File created [] false]> m)) d
      | Err _ => False end) (fun _ => True).
Proof.
  unfold clone. apply triple_lift_bind; [done |]. intros [c|] ->; [| by apply triple_done].
  eapply triple_bind; [apply (update_child p x (append c)) | intros u]. by apply triple_done.
Qed.

(** Both ways of writing a blob, up to what is written where nothing is cloned. *)
Lemma write_blob_makes p x reflink content rest :
  (forall s m, triple (here p (Directory s (<[x := File created [] false]> m))) rest
     (fun _ d => exists c, content = Ok c /\ here p (Directory s (<[x := File created c false]> m)) d) (fun _ => True)) ->
  makes_blob (source_gives reflink content) p x
    (_ ← create_new p x;
     reflinked ← clone (p ++ [x]) reflink;
     _ ← (if reflinked : bool then mret tt else rest);
     set_permissions (p ++ [x]) mode_644).
Proof.
  intros Hrest s m. eapply triple_bind; [apply create_new_makes | intros u0].
  eapply triple_bind; [apply (clone_child p x reflink s m) | intros r].
  apply (triple_bind _ _ _ (fun _ d => exists c, source_gives reflink content c /\ here p (Directory s (<[x := File created c false]> m)) d)).
  - destruct reflink as [[c|]|e]; [| | by intros w []].
    + intros w [-> Hw]. exists c. split; [by left | exact Hw].
    + intros w [-> Hw]. specialize (Hrest s m w Hw). cbv iota beta. destruct (rest w) as [w' [a|e|]]; [| done..].
      destruct Hrest as (c & Hc & Hd). exists c. split; [by right | done].
  - intros u1 w (c & Hc & Hd). pose proof (update_child p x (with_mode mode_644) s m _ w Hd) as Hw.
    change (set_permissions (p ++ [x]) mode_644) with (sys (fun d => Ok (update (p ++ [x]) (with_mode mode_644) d, tt))).
    cbv beta. destruct (sys _ w) as [w' [a|e|]]; [by exists c | done..].
Qed.

Lemma write_deferred_makes p x bs reflink :
  makes_blob (source_gives reflink (Ok bs)) p x (write_file_deferred_from_verified p x bs reflink).
Proof.
  apply write_blob_makes. intros s m. eapply triple_bind; [apply (update_child p x truncate) | intros u1].
  eapply triple_bind; [eapply triple_conseq; [apply reads_triple, reads_sync | done | done | done] | intros u2].
  eapply triple_conseq; [apply (write_all_child p x bs s m created []) | done | | done]. intros u d Hd. by exists bs.
Qed.

Lemma write_verified_makes p x content reflink :
  makes_blob (source_gives reflink content) p x (write_file_deferred_from_verified_file p x content reflink).
Proof.
  apply write_blob_makes. intros s m. apply triple_lift_bind; [done |]. intros bs ->.
  eapply triple_conseq; [apply (write_all_child p x bs s m created []) | done | | done]. intros u d Hd. by exists bs.
Qed.

Lemma write_deferred_touches p x bs reflink : touches (below (p ++ [x])) (write_file_deferred_from_verified p x bs reflink).
Proof.
  pose proof (below_self p x) as Hself. unfold write_file_deferred_from_verified, clone, set_permissions.
  frame.
Qed.

Lemma write_verified_touches p x content reflink :
  touches (below (p ++ [x])) (write_file_deferred_from_verified_file p x content reflink).
Proof.
  pose proof (below_self p x) as Hself. unfold write_file_deferred_from_verified_file, clone, set_permissions.
  frame.
Qed.

(** Under the digest is what was there or, where nothing was, the whole of a content of [P]. *)
Definition blob_slot (B : list string) (digest : string) (P : list byte -> Prop) (old : option node) (d : node) : Prop :=
  get (B ++ [digest]) d = old \/ (old = None /\ exists c, P c /\ here (B ++ [digest]) (blob_file c) d).

Definition blob_is (B : list string) (digest : string) (P : list byte -> Prop) (d : node) : Prop :=
  exists st c y, get (B ++ [digest]) d = Some (File st c y) /\ P c.

Lemma temporary_not_digest digest digest' pid nanos : valid_digest digest = true -> blob_temporary digest' pid nanos <> digest.
Proof. intros Hv <-. unfold blob_temporary in Hv. by apply valid_digest_start in Hv. Qed.

Lemma read_of_exact d fd bs : read_of d fd (N.of_nat (length bs)) bs -> N.of_nat (length bs) < u64_max ->
  exists s y, get fd d = Some (File s bs y).
Proof. intros Hr Hmax. by eapply read_of_whole. Qed.

Section install.
Context (sha256 : TrustedDirectory) (digest : string) (size : N) (same : list byte -> bool).
Context (write : string -> io unit) (P : list byte -> Prop).
Context (Hmakes : forall x, makes_blob P (path sha256) x (write x)).
Context (Htouches : forall x, touches (below (path sha256 ++ [x])) (write x)).
#[local] Abbreviation B := (path sha256).

(** A blob that is not there: written under a temporary name, then renamed. *)
Lemma install_new_blob temporary : temporary <> digest ->
  triple (fun d => is_directory (get B d) /\ get (B ++ [digest]) d = None)
    (_ ← write temporary;
     renamed ← attempt (rename B temporary digest);
     match renamed with
     | Ok _ => mret tt
     | Err error =>
         present ← read_if_present sha256 digest size;
         match present with
         | None => raise error
         | Some _ =>
             _ ← remove_file B temporary;
             existing ← read sha256 digest size;
             raise_if (negb (same existing)) collision
         end
     end) (fun _ d => exists c, P c /\ here (B ++ [digest]) (blob_file c) d) (blob_slot B digest P None).
Proof using Hmakes Htouches.
  intros Hne. apply (triple_bind _ _ _ (fun _ d => (exists c, P c /\ here (B ++ [temporary]) (blob_file c) d) /\ get (B ++ [digest]) d = None)).
  { eapply triple_conseq; [apply (beside (B ++ [temporary]) (B ++ [digest]) (fun d => is_directory (get B d))
        (fun d => exists c, P c /\ here (B ++ [temporary]) (blob_file c) d)) | done | done | by left].
    + apply Htouches.
    + by apply below_apart.
    + intros w (s & m & Hd). pose proof (Hmakes temporary s m w Hd) as Hw.
      destruct (write temporary w) as [w' [a|e|]]; [| done..]. destruct Hw as (c & Hc & Hw). exists c. split; [done |]. unfold here in *.
      rewrite get_app, Hw. cbn. by rewrite lookup_insert_eq. }
  intros u. apply (triple_bind _ _ _ (fun r d => match r with
    | Ok _ => exists c, P c /\ here (B ++ [digest]) (blob_file c) d | Err _ => get (B ++ [digest]) d = None end)).
  { intros w [(c & Hc & Hw) Hq].
    pose proof (triple_attempt _ _ _ _ (rename_moves B temporary digest (blob_file c) (fun d => get (B ++ [digest]) d = None) Hne) w (conj Hw Hq)) as Ht.
    destruct (attempt _ w) as [w' [[a|e]|e|]]; [by exists c | done | by left | by left]. }
  intros [u'|error]; [by apply triple_done |].
  apply (triple_bind _ _ _ (fun r d => r = None /\ get (B ++ [digest]) d = None)).
  { eapply triple_conseq; [apply (gives_all (fun d => get (B ++ [digest]) d = None) _ (fun d r => r = None)) | done | done | by left].
    intros d Hd. eapply gives_conseq; [apply read_if_present_gives |]. intros [l|] Hl; [| done].
    destruct Hl as (s & c & y & Hl & _). congruence. }
  intros r w [-> Hw]. by left.
Qed.

Lemma install_blob_atomic pid nanos old : valid_digest digest = true ->
  triple (fun d => is_directory (get B d) /\ get (B ++ [digest]) d = old)
    (install_blob sha256 digest size same write pid nanos)
    (fun _ d => blob_slot B digest P old d /\
       ((exists c, P c /\ here (B ++ [digest]) (blob_file c) d) \/
        exists existing, same existing = true /\ read_of d (B ++ [digest]) size existing))
    (blob_slot B digest P old).
Proof using Hmakes Htouches.
  intros Hv. unfold install_blob.
  eapply (triple_bind _ _ _ (fun r d => (match r with
      | Some l => read_of d (B ++ [digest]) size l
      | None => get (B ++ [digest]) d = None end) /\ is_directory (get B d) /\ get (B ++ [digest]) d = old)).
  { eapply triple_conseq; [apply (gives_all (fun d => is_directory (get B d) /\ get (B ++ [digest]) d = old) _
      (fun d r => match r with Some l => read_of d (B ++ [digest]) size l | None => get (B ++ [digest]) d = None end))
      | done | done | by intros d [_ ?]; left]. intros d _. apply read_if_present_gives. }
  intros [existing|].
  - eapply triple_conseq; [apply (triple_raise_if _ _ (fun d => read_of d (B ++ [digest]) size existing /\
      get (B ++ [digest]) d = old) (fun d => get (B ++ [digest]) d = old)) | | |].
    + by intros d [_ ?].
    + tauto.
    + intros u d [E [Hr Hold]]. apply negb_false_iff in E. split; [by left |]. right. by exists existing.
    + by left.
  - apply triple_lift_bind; [by intros d (_ & _ & ?); left |]. intros t _.
    assert (Hne : blob_temporary digest pid t <> digest) by by apply temporary_not_digest.
    intros w (Hnone & Hdir & Hold). pose proof (install_new_blob _ Hne w (conj Hdir Hnone)) as Hnew.
    subst old. rewrite Hnone.
    match type of Hnew with context [let (_, _) := ?x in _] =>
      match goal with |- context [let (_, _) := ?y in _] => change y with x end; destruct x as [w' [a|e|]] end; [| exact Hnew..].
    split; [by right | by left].
Qed.
End install.

(** A publication: its guard, the directory of blobs, and the blob. *)
Lemma publication_slot planning digest size same write P (refuse : bool) message pid nanos old (B := blob_directory planning) :
  (refuse = false -> valid_digest digest = true) ->
  (forall h x, path h = B -> makes_blob P (path h) x (write h x) /\ touches (below (path h ++ [x])) (write h x)) ->
  triple (fun d => get (B ++ [digest]) d = old)
    (if refuse then lift (unsafe message)
     else sha256 ← blobs_of planning true; install_blob sha256 digest size same (write sha256) pid nanos)
    (fun _ d => refuse = false /\ blob_slot B digest P old d /\
       ((exists c, P c /\ here (B ++ [digest]) (blob_file c) d) \/
        exists existing, same existing = true /\ read_of d (B ++ [digest]) size existing))
    (blob_slot B digest P old).
Proof.
  intros Hv Hwrite. destruct refuse; [intros w Hw; by left |].
  eapply triple_bind; [eapply triple_conseq; [apply (blobs_of_gives planning digest old) | done | done | by left] |].
  intros h w [[Hh Hd] Hq]. unfold B in *. rewrite <- Hh in *.
  pose proof (install_blob_atomic h digest size same (write h) P (fun x => proj1 (Hwrite h x eq_refl))
    (fun x => proj2 (Hwrite h x eq_refl)) pid nanos old (Hv eq_refl) w (conj Hd Hq)) as Ht.
  destruct (install_blob _ _ _ _ _ _ _ w) as [w' [a|e|]]; by auto.
Qed.

Lemma read_of_same d fd existing size : N.of_nat (length existing) = size -> size < u64_max ->
  read_of d fd size existing -> exists s y, get fd d = Some (File s existing y).
Proof. intros <-. intros ? ?. by apply read_of_exact. Qed.

Lemma publish_payload_slot planning digest bs pid nanos reflink w w' r (B := blob_directory planning) :
  N.of_nat (length bs) < u64_max -> publish_blob_inner_with_source planning digest bs pid nanos reflink w = (w', r) ->
  blob_slot B digest (source_gives reflink (Ok bs)) (get (B ++ [digest]) (fsys w)) (fsys w') /\
  (r = Value tt -> sha256_hex bs = digest /\ blob_is B digest (fun c => c = bs \/ source_gives reflink (Ok bs) c) (fsys w')).
Proof.
  intros Hmax Hrun. set (old := get (B ++ [digest]) (fsys w)).
  assert (Ht : triple (fun d => get (B ++ [digest]) d = old) (publish_blob_inner_with_source planning digest bs pid nanos reflink)
    (fun _ d => negb (valid_digest digest) || negb (bool_decide (sha256_hex bs = digest)) = false /\
       blob_slot B digest (source_gives reflink (Ok bs)) old d /\
       ((exists c, source_gives reflink (Ok bs) c /\ here (B ++ [digest]) (blob_file c) d) \/
        exists existing, bool_decide (existing = bs) = true /\ read_of d (B ++ [digest]) (N.of_nat (length bs)) existing))
    (blob_slot B digest (source_gives reflink (Ok bs)) old)).
  { apply (publication_slot planning digest (N.of_nat (length bs)) (fun existing => bool_decide (existing = bs))
      (fun h x => write_file_deferred_from_verified (path h) x bs reflink)).
    - intros Hr. by destruct (valid_digest digest).
    - intros h x Hh. split; [apply write_deferred_makes | apply write_deferred_touches]. }
  specialize (Ht w eq_refl). rewrite Hrun in Ht. destruct r as [[]|e|]; [| by split..].
  destruct Ht as (Hguard & Hslot & His). split; [done |]. intros _.
  apply orb_false_iff in Hguard as [_ Hd%negb_false_iff%bool_decide_eq_true]. split; [done |].
  destruct His as [(c & Hc & Hw) | (existing & ->%bool_decide_eq_true & Hr)].
  - exists (Stat.mk euid mode_644 1), c, false. split; [exact Hw | by right].
  - apply read_of_same in Hr as (st & y & Hr); [| done..]. exists st, bs, y. split; [done | by left].
Qed.

Lemma publish_file_slot planning digest size pid nanos reflink content w w' r (B := blob_directory planning) :
  size < u64_max -> publish_verified_file_deferred planning digest size pid nanos reflink content w = (w', r) ->
  blob_slot B digest (source_gives reflink content) (get (B ++ [digest]) (fsys w)) (fsys w') /\
  (r = Value tt -> blob_is B digest (fun c => N.of_nat (length c) = size /\ sha256_hex c = digest \/
     source_gives reflink content c) (fsys w')).
Proof.
  intros Hmax Hrun. set (old := get (B ++ [digest]) (fsys w)).
  assert (Ht : triple (fun d => get (B ++ [digest]) d = old) (publish_verified_file_deferred planning digest size pid nanos reflink content)
    (fun _ d => negb (valid_digest digest) = false /\ blob_slot B digest (source_gives reflink content) old d /\
       ((exists c, source_gives reflink content c /\ here (B ++ [digest]) (blob_file c) d) \/
        exists existing, (N.of_nat (length existing) =? size) && bool_decide (sha256_hex existing = digest) = true /\
          read_of d (B ++ [digest]) size existing))
    (blob_slot B digest (source_gives reflink content) old)).
  { apply (publication_slot planning digest size
      (fun existing => (N.of_nat (length existing) =? size) && bool_decide (sha256_hex existing = digest))
      (fun h x => write_file_deferred_from_verified_file (path h) x content reflink)).
    - intros Hr. by destruct (valid_digest digest).
    - intros h x Hh. split; [apply write_verified_makes | apply write_verified_touches]. }
  specialize (Ht w eq_refl). rewrite Hrun in Ht. destruct r as [[]|e|]; [| by split..].
  destruct Ht as (_ & Hslot & His). split; [done |]. intros _.
  destruct His as [(c & Hc & Hw) | (existing & [Hl%N.eqb_eq Hd%bool_decide_eq_true]%andb_true_iff & Hr)].
  - exists (Stat.mk euid mode_644 1), c, false. split; [exact Hw | by right].
  - apply read_of_same in Hr as (st & y & Hr); [| done..]. exists st, existing, y. split; [done | by left].
Qed.

(** Without a source the payload itself is written. *)
Lemma publish_blob_slot planning digest bs pid nanos w w' r (B := blob_directory planning) :
  N.of_nat (length bs) < u64_max -> publish_blob_deferred planning digest bs pid nanos w = (w', r) ->
  (get (B ++ [digest]) (fsys w') = get (B ++ [digest]) (fsys w) \/
   get (B ++ [digest]) (fsys w) = None /\ here (B ++ [digest]) (blob_file bs) (fsys w')) /\
  (r = Value tt -> blob_is B digest (eq bs) (fsys w')).
Proof.
  intros Hmax Hrun. destruct (publish_payload_slot planning digest bs pid nanos (Ok None) w w' r Hmax Hrun) as [Hslot His].
  assert (Hc : forall c, source_gives (Ok None) (Ok bs) c -> c = bs) by (intros c [?|[_ E]]; [done | by injection E]).
  split.
  - destruct Hslot as [?|(Hn & c & ->%Hc & Hd)]; [by left | by right].
  - intros Hr. destruct (His Hr) as (_ & st & c & y & Hd & E). exists st, c, y. split; [done |].
    destruct E as [->| ->%Hc]; done.
Qed.

(** ** A loss of power *)

Lemma apart_cases p : forall q, apart p q = false -> (exists r, q = p ++ r) \/ (exists r, p = q ++ r).
Proof.
  induction p as [|x p IH]; intros [|y q]; cbn.
  - left. by exists [].
  - left. by exists (y :: q).
  - right. by exists (x :: p).
  - destruct (decide (x = y)) as [->|]; [| done]. intros [[r ->]|[r ->]]%IH; eauto.
Qed.

Lemma lost_refl n : lost n n.
Proof. by destruct n as [s c [] | | |]. Qed.

Lemma power_loss_truncate p st c d : get p d = Some (File st c false) -> power_loss d (update p truncate d).
Proof.
  intros Hp q. destruct (apart p q) eqn:E.
  { rewrite get_update_apart by done. destruct (get q d); [apply lost_refl | done]. }
  apply apart_cases in E as [[r ->] | [r ->]].
  - rewrite get_update, get_app, Hp. cbn. by destruct r.
  - rewrite get_update_above. destruct r as [|x r].
    { rewrite app_nil_r in Hp. by rewrite Hp. }
    destruct (directory_above _ _ _ _ Hp) as (s & m & ->); [done |]. cbn. by destruct (m !! x).
Qed.

(** A blob that is not the payload blocks its publication. *)
Lemma other_blob_never planning digest bs pid nanos st c y d :
  N.of_nat (length bs) < u64_max -> get (blob_directory planning ++ [digest]) d = Some (File st c y) -> c <> bs ->
  gives d (publish_blob_deferred planning digest bs pid nanos) (fun _ => False).
Proof.
  intros Hmax Hd Hne. unfold publish_blob_deferred, publish_blob_inner_with_source.
  destruct (_ || _); [intros w Hw; exact Hw |].
  assert (Hb : is_directory (get (path planning ++ ["blobs"]) d)).
  { unfold blob_directory in Hd. rewrite <- app_assoc in Hd. by eapply directory_above. }
  assert (Hs : is_directory (get (blob_directory planning) d)) by (by eapply directory_above).
  unfold blobs_of. eapply (gives_bind _ _ _ (fun h => path h = blob_directory planning)).
  - eapply gives_bind; [apply child_present_gives; by destruct Hb as (? & ? & ->) |]. intros h ->.
    eapply gives_conseq; [apply child_present_gives; by destruct Hs as (? & ? & Hs') | by intros h' ->].
  - intros h Hh. unfold install_blob. eapply gives_bind; [apply read_if_present_gives |]. intros [l|] Hl; rewrite Hh in Hl; [| congruence].
    apply read_of_whole in Hl as (s & y' & Hl); [| done]. rewrite Hd in Hl. injection Hl as _ Hl _. subst l.
    unfold raise_if, reject_if. rewrite bool_decide_eq_false_2 by done. intros w Hw. exact Hw.
Qed.

(** C39: publishing a payload, or a verified file of the cache, whatever fails and whenever the
    process dies: under the digest is what was there or, where nothing was, the whole of what
    the source gave, which is the clone when the file system cloned one, and otherwise the
    payload or what was read of the file.  When it succeeds, what is there is the payload of
    that digest, or a file of the size and the digest that were asked for, or what the source
    gave: a clone, and what is read of a verified file, are not hashed again. *)
Theorem publish_blob_atomic planning digest pid nanos reflink w w' r (B := blob_directory planning) :
  (forall bs, N.of_nat (length bs) < u64_max ->
     publish_blob_inner_with_source planning digest bs pid nanos reflink w = (w', r) ->
     blob_slot B digest (source_gives reflink (Ok bs)) (get (B ++ [digest]) (fsys w)) (fsys w') /\
     (r = Value tt -> sha256_hex bs = digest /\
        blob_is B digest (fun c => c = bs \/ source_gives reflink (Ok bs) c) (fsys w'))) /\
  (forall size content, size < u64_max ->
     publish_verified_file_deferred planning digest size pid nanos reflink content w = (w', r) ->
     blob_slot B digest (source_gives reflink content) (get (B ++ [digest]) (fsys w)) (fsys w') /\
     (r = Value tt -> blob_is B digest (fun c => N.of_nat (length c) = size /\ sha256_hex c = digest \/
        source_gives reflink content c) (fsys w'))).
Proof.
  split; [intros bs; apply publish_payload_slot | intros size content; apply publish_file_slot].
Qed.

(** The content of a blob is not synced when its name is, and a loss of power after a
    successful publication may leave it empty; then publishing that payload again fails, whatever
    the system does, for as long as the blob is there. *)
Theorem unsynced_blob_blocks planning digest bs pid nanos w w' (B := blob_directory planning) :
  bs <> [] -> N.of_nat (length bs) < u64_max -> get (B ++ [digest]) (fsys w) = None ->
  publish_blob_deferred planning digest bs pid nanos w = (w', Value tt) ->
  exists d, power_loss (fsys w') d /\
    forall pid' nanos' w2, fsys w2 = d ->
      (publish_blob_deferred planning digest bs pid' nanos' w2).2 <> Value tt /\
      fsys (publish_blob_deferred planning digest bs pid' nanos' w2).1 = d.
Proof.
  intros Hbs Hmax Hnone Hrun. unfold B in *. clear B. destruct (publish_blob_slot planning digest bs pid nanos w w' _ Hmax Hrun) as [Hslot His].
  destruct (His eq_refl) as (st & c & y & Hd & _). destruct Hslot as [Hs|[_ Hs]]; [congruence |].
  unfold here in Hs. exists (update (blob_directory planning ++ [digest]) truncate (fsys w')). split; [by eapply power_loss_truncate |].
  intros pid' nanos' w2 Hw2.
  pose proof (other_blob_never planning digest bs pid' nanos' (Stat.mk euid mode_644 1) [] false (fsys w2) Hmax) as Hnever.
  rewrite Hw2, get_update_self, Hs in Hnever. specialize (Hnever eq_refl (not_eq_sym Hbs) w2). rewrite Hw2 in Hnever.
  specialize (Hnever eq_refl). destruct (publish_blob_deferred _ _ _ _ _ w2) as [w3 [a|e|]]; [by destruct Hnever | by split..].
Qed.
End facts.
End Blobs.

(** ** Examples *)

Module StoreExamples.
Import TreeFacts Collection Publication Interrupted Blobs.

#[local] Instance os : PlanningOs := {|
  errno_text _ := "errno";
  os_error_text _ := "os error";
  euid := 0;
  umask := 18;
  read_dir_order m := (map_to_list m).*1
|}.

#[local] Instance os_laws : PlanningOsLaws.
Proof. by constructor. Qed.

#[local] Instance env : IndexEnv := IndexExamples.env.

Definition directory (entries : list (string * node)) : node := Directory (Stat.mk 0 mode_755 2) (list_to_map entries).
Definition file (text : string) : node := File (Stat.mk 0 mode_644 1) (bytes text) true.
Definition name_of (text : string) : string := SnapshotExamples.toy_hex (bytes text).

(** A store at [/planning] with the given snapshots and blobs. *)
Definition store (snapshots blobs : list (string * node)) : node :=
  directory [("planning", directory [("snapshots", directory snapshots); ("blobs", directory [("sha256", directory blobs)])])].

Definition planning : TrustedDirectory := mk_directory ["planning"] 0.
Definition snapshots : TrustedDirectory := mk_directory ["planning"; "snapshots"] 0.

Definition blob (text : string) : string * node := (name_of text, file text).
Definition snapshot_entry (text : string) : string * node := (name_of text, directory [(SNAPSHOT_FILE, file text)]).

Definition used : node :=
  store [snapshot_entry "snapshot"] [blob "repomd"; blob "primary"; blob "filelists"; blob "group"; blob "orphan"].

Definition collection : world * exit unit := garbage_collect_blobs planning snapshots 0 (quiet used).

Example orphan_collected : collection.2 = Value tt /\
  get ["planning"; "blobs"; "sha256"; name_of "orphan"] (fsys collection.1) = None /\
  get ["planning"; "blobs"; "sha256"; name_of "group"] (fsys collection.1) = Some (file "group").
Proof. vm_compute. done. Qed.

Definition publication : world * exit unit :=
  publish_snapshot planning snapshots (name_of "new") (bytes "new") "7" (Ok "1") (Ok "2") (quiet used).

Example published_example : publication.2 = Value tt /\
  get ["planning"; CURRENT_POINTER] (fsys publication.1) = Some (pointer_file (name_of "new")).
Proof. vm_compute. done. Qed.

(** Nine snapshots, of which one is collected by a process that dies after [remove_file]. *)
Definition nine : node := store (snapshot_entry <$> ["1"; "2"; "3"; "4"; "5"; "6"; "7"; "8"; "9"]) [].

Definition killed : world * exit unit :=
  garbage_collect snapshots "" (fun _ => None) (mk_world nine tt (replicate 21 Succeeds ++ [Stops 0])).

Definition lost_text : string := default "" ((map_to_list (list_to_map (M := gmap string node)
  (snapshot_entry <$> ["1"; "2"; "3"; "4"; "5"; "6"; "7"; "8"; "9"]))).*1 !! 8%nat).

Lemma killed_emptied : killed.2 = Crashed /\ emptied ["planning"] lost_text (fsys killed.1).
Proof.
  split; [vm_compute; reflexivity |]. split; [vm_compute; reflexivity |]. split.
  - destruct (get (["planning"; "snapshots"] ++ [lost_text]) (fsys killed.1)) as [[| s m | |]|] eqn:E;
      try (exfalso; revert E; vm_compute; discriminate).
    exists s, m. split; [exact E |].
    assert (Hnone : get ((["planning"; "snapshots"] ++ [lost_text]) ++ [SNAPSHOT_FILE]) (fsys killed.1) = None) by (vm_compute; reflexivity).
    rewrite get_app, E in Hnone. cbn in Hnone. by destruct (m !! _).
  - destruct (get (["planning"; "blobs"] ++ ["sha256"]) (fsys killed.1)) as [[| s m | |]|] eqn:E;
      try (exfalso; revert E; vm_compute; discriminate). by exists s, m.
Qed.

Definition payload : list byte := bytes "payload".
Definition first_publication : world * exit unit :=
  publish_blob_deferred planning (name_of "payload") payload "7" (Ok "1") (quiet nine).

Lemma first_publication_ok : first_publication = (first_publication.1, Value tt).
Proof.
  assert (Hv : first_publication.2 = Value tt) by (vm_compute; reflexivity).
  rewrite <- Hv. apply surjective_pairing.
Qed.

Lemma first_publication_written :
  publish_blob_inner_with_source planning (name_of "payload") payload "7" (Ok "1") (Ok None) (quiet nine) =
    (first_publication.1, Value tt).
Proof. rewrite <- first_publication_ok. unfold first_publication, publish_blob_deferred. reflexivity. Qed.

(** A verified file of the cache that the file system clones. *)
Definition cloned_publication : world * exit unit :=
  publish_verified_file_deferred planning (name_of "payload") (N.of_nat (length payload)) "7" (Ok "1")
    (Ok (Some payload)) (unsafe "not read") (quiet nine).

Lemma cloned_publication_ok :
  publish_verified_file_deferred planning (name_of "payload") (N.of_nat (length payload)) "7" (Ok "1")
    (Ok (Some payload)) (unsafe "not read") (quiet nine) = (cloned_publication.1, Value tt).
Proof.
  assert (Hv : cloned_publication.2 = Value tt) by (vm_compute; reflexivity).
  rewrite <- Hv, <- surjective_pairing. unfold cloned_publication. reflexivity.
Qed.
End StoreExamples.

Lemma garbage_collect_blobs_exact_witness :
  exists (e : IndexEnv) (o : PlanningOs), @Collection.keeps e ["planning"; "snapshots"] (Collection.blob_directory StoreExamples.planning)
    StoreExamples.used (fsys StoreExamples.collection.1).
Proof.
  exists StoreExamples.env, StoreExamples.os.
  exact (proj1 (@Collection.garbage_collect_blobs_exact StoreExamples.os StoreExamples.env StoreExamples.os_laws StoreExamples.planning
    StoreExamples.snapshots 0 (quiet StoreExamples.used) StoreExamples.collection.1 StoreExamples.collection.2 (surjective_pairing _))).
Defined.

Lemma publish_snapshot_atomic_witness :
  exists o : PlanningOs, @Publication.slot o ["planning"; "snapshots"] (StoreExamples.name_of "new") (bytes "new")
    StoreExamples.used (fsys StoreExamples.publication.1).
Proof.
  exists StoreExamples.os.
  destruct (@Publication.publish_snapshot_atomic StoreExamples.os StoreExamples.planning StoreExamples.snapshots
    (StoreExamples.name_of "new") (bytes "new") "7" (Ok "1") (Ok "2") (quiet StoreExamples.used)
    StoreExamples.publication.1 StoreExamples.publication.2 eq_refl (surjective_pairing _)) as (_ & Hslot & _).
  exact Hslot.
Defined.

Lemma interrupted_collection_blocks_witness :
  exists (o : PlanningOs) (e : IndexEnv), forall digest, (@store_snapshot o e StoreExamples.planning 0 SnapshotExamples.snapshot "7"
    (Ok "1") (Ok "2") (fun _ => None) StoreExamples.killed.1).2 <> Value digest.
Proof.
  exists StoreExamples.os, StoreExamples.env. intros digest.
  exact (proj1 (@Interrupted.interrupted_collection_blocks StoreExamples.os StoreExamples.env StoreExamples.os_laws StoreExamples.planning 0
    SnapshotExamples.snapshot "7" (Ok "1") (Ok "2") (fun _ => None) StoreExamples.lost_text StoreExamples.killed.1 _ _
    (proj2 StoreExamples.killed_emptied) (surjective_pairing _)) digest).
Defined.

Lemma publish_blob_atomic_witness :
  exists (o : PlanningOs) (e : IndexEnv),
    Blobs.blob_is (Collection.blob_directory StoreExamples.planning) (StoreExamples.name_of "payload")
      (eq StoreExamples.payload) (fsys StoreExamples.first_publication.1) /\
    Blobs.blob_is (Collection.blob_directory StoreExamples.planning) (StoreExamples.name_of "payload")
      (fun c => length c = length StoreExamples.payload) (fsys StoreExamples.cloned_publication.1).
Proof.
  exists StoreExamples.os, StoreExamples.env.
  assert (Hmax : N.of_nat (length StoreExamples.payload) < u64_max) by (vm_compute; reflexivity).
  split.
  - destruct (proj2 (proj1 (@Blobs.publish_blob_atomic StoreExamples.os StoreExamples.env StoreExamples.planning (StoreExamples.name_of "payload")
      "7" (Ok "1") (Ok None) (quiet StoreExamples.nine) StoreExamples.first_publication.1 (Value tt))
      StoreExamples.payload Hmax StoreExamples.first_publication_written) eq_refl) as (_ & st & c & y & Hd & Hc).
    exists st, c, y. split; [exact Hd |]. destruct Hc as [Hc|[Hc|[_ Hc]]]; [by symmetry | discriminate Hc | by injection Hc].
  - destruct (proj2 (proj2 (@Blobs.publish_blob_atomic StoreExamples.os StoreExamples.env StoreExamples.planning (StoreExamples.name_of "payload")
      "7" (Ok "1") (Ok (Some StoreExamples.payload)) (quiet StoreExamples.nine) StoreExamples.cloned_publication.1 (Value tt))
      _ (unsafe "not read") Hmax StoreExamples.cloned_publication_ok) eq_refl) as (st & c & y & Hd & Hc).
    exists st, c, y. split; [exact Hd |]. destruct Hc as [[Hc _]|[Hc|[Hc _]]];
      [by apply Nat2N.inj | by injection Hc as <- | discriminate Hc].
Defined.

Lemma unsynced_blob_blocks_witness :
  exists d, power_loss (fsys StoreExamples.first_publication.1) d.
Proof.
  destruct (@Blobs.unsynced_blob_blocks StoreExamples.os StoreExamples.env StoreExamples.planning (StoreExamples.name_of "payload")
    StoreExamples.payload "7" (Ok "1") (quiet StoreExamples.nine) StoreExamples.first_publication.1
    ltac:(discriminate) ltac:(vm_compute; reflexivity) ltac:(vm_compute; reflexivity) StoreExamples.first_publication_ok) as (d & Hd & _).
  exists d. exact Hd.
Defined.
