(* ===== verification/NativeTrust.v ===== *)
(** * Packages and their signers ([dnfast-native]: trust.rs, and the identities of
    [dnfast-native-sys]: keyring.rs)

    The keyrings made of the staged bundles of keys, and the check that a package is the planned
    one and signed by an allowed key.  OpenPGP and librpm are the operations of the class
    [KeyLibrary]: opening a keyring, and what verifying the bytes of a package with it tells.
    Files are read by system calls that may fail. *)
From S2P Require Import Prelude.
From S2P Require Import RustStr.
From S2P Require Import RustText.
From S2P Require Import Value.
From S2P Require Import Documents.
From S2P Require Import Trust.
From S2P Require Import CacheModel.
From S2P Require Import Snapshot.
From S2P Require Import Effects.
From S2P Require Import StateFs.

#[local] Open Scope N_scope.

(** ** Errors of the native library *)

Module SysError.
Record t : Type := mk { status : Z; component : string; symbol : string; message : string }.
End SysError.

Definition architecture_debug (a : Architecture.t) : string :=
  match a with Architecture.Aarch64 => "Aarch64" | Architecture.X86_64 => "X86_64" | Architecture.Noarch => "Noarch" end.

Definition display_z (z : Z) : string :=
  if (z <? 0)%Z then "-" +:+ display (Z.to_N (- z)) else display (Z.to_N z).

Module NativeError.
Inductive t : Type :=
  | UnsupportedArchitecture (architecture : Architecture.t)
  | UnsupportedAbi (component symbol : string)
  | Interrupted
  | CallbackFailed
  | NativeFailure (status : Z) (message : string)
  | PermissionDenied
  | LockTimeout.

Definition from (error : SysError.t) : t :=
  match SysError.status error with
  | 2%Z => UnsupportedAbi (SysError.component error) (SysError.symbol error)
  | 4%Z => CallbackFailed
  | 5%Z => Interrupted
  | 8%Z => PermissionDenied
  | 9%Z => LockTimeout
  | status => NativeFailure status (SysError.message error)
  end.

Definition to_string (e : t) : string :=
  match e with
  | UnsupportedArchitecture a => "unsupported native pool architecture: " +:+ architecture_debug a
  | UnsupportedAbi component symbol => "unsupported native ABI: " +:+ component +:+ ":" +:+ symbol
  | Interrupted => "native operation interrupted"
  | CallbackFailed => "native callback failed"
  | NativeFailure status message => "native failure " +:+ display_z status +:+ ": " +:+ message
  | PermissionDenied => "root execution required for RPM write context"
  | LockTimeout => "RPM write lock deadline exceeded"
  end.
End NativeError.

Module TrustError.
Inductive t : Type :=
  | Bundle (message : string)
  | BundleDigestMismatch
  | VerificationTimeMismatch
  | UnauthorizedSigner
  | NevraMismatch
  | VendorMismatch
  | SigningSubkeyRejected
  | Native (e : NativeError.t).

Definition to_string (e : t) : string :=
  match e with
  | Bundle m => "repository key bundle is untrusted: " +:+ m
  | BundleDigestMismatch => "repository key bundle digest changed"
  | VerificationTimeMismatch => "trust policy verification time differs from the current verification window"
  | UnauthorizedSigner => "RPM signer is not authorized by repository policy"
  | NevraMismatch => "RPM header NEVRA differs from metadata and plan"
  | VendorMismatch => "RPM header Vendor differs from rpm-md and plan"
  | SigningSubkeyRejected => "primary-only policy rejected a signing subkey"
  | Native e => NativeError.to_string e
  end.
End TrustError.

(** ** Data *)

Module ExpectedPackage.
Record t : Type := mk { name : string; epoch : N; version : string; release : string; arch : string; vendor : string }.
#[global] Instance expected_package_eq_dec : EqDecision t.
Proof. solve_decision. Defined.
End ExpectedPackage.

(** [dnfast_native_sys::VerifiedPackage]: what the native library read from a verified package. *)
Module VerifiedPackage.
Record t : Type := mk {
  name : string; epoch : string; version : string; release : string; arch : string; vendor : string;
  primary_fingerprint : string; signing_fingerprint : string
}.
#[global] Instance verified_package_eq_dec : EqDecision t.
Proof. solve_decision. Defined.
End VerifiedPackage.

Module VerifiedArtifact.
Record t : Type := mk {
  package : ExpectedPackage.t;
  primary_fingerprint : string;
  signing_fingerprint : string;
  artifact_sha256 : string;
  artifact_size : N
}.
#[global] Instance verified_artifact_eq_dec : EqDecision t.
Proof. solve_decision. Defined.
End VerifiedArtifact.

Module VerifiedStagedKey.
Record t : Type := mk { bundle_path : string; certificate : list byte }.
#[global] Instance verified_staged_key_eq_dec : EqDecision t.
Proof. solve_decision. Defined.
End VerifiedStagedKey.

(** An open file of a package: what [fstat] tells, and its bytes. *)
Module ArtifactFile.
Record t : Type := mk { regular : bool; uid : N; mode : N; nlink : N; st_size : Z; content : list byte }.
#[global] Instance artifact_file_eq_dec : EqDecision t.
Proof. solve_decision. Defined.
End ArtifactFile.

Class KeyLibrary : Type := {
  keyring : Type;
  keyring_open : list (list byte) -> result SysError.t keyring;
  keyring_verify_fd : keyring -> ArtifactFile.t -> result SysError.t VerifiedPackage.t
}.

(** ** The identities that cross the border *)

(** [copy] into an array of [size] bytes; [signed]: whether [c_char] is signed on the platform. *)
Definition copy (signed : bool) (size : N) (value : string) : result SysError.t (list byte) :=
  if existsb (fun b => byte_val b =? 0) (bytes value) || (size <=? str_len value)
  then Err (SysError.mk 1 "rpm" "transaction" "invalid package identity")
  else if signed && existsb (fun b => 127 <? byte_val b) (bytes value)
  then Err (SysError.mk 1 "rpm" "transaction" "non-ASCII package identity")
  else Ok (bytes value).

(** [RawVerifiedPackage::from_verified]: the texts before the closing zeros. *)
Definition from_verified (signed : bool) (value : VerifiedPackage.t) : result SysError.t (list (list byte)) :=
  name ← copy signed 256 (VerifiedPackage.name value);
  epoch ← copy signed 32 (VerifiedPackage.epoch value);
  version ← copy signed 256 (VerifiedPackage.version value);
  release ← copy signed 256 (VerifiedPackage.release value);
  arch ← copy signed 64 (VerifiedPackage.arch value);
  primary ← copy signed 41 (VerifiedPackage.primary_fingerprint value);
  vendor ← copy signed 256 (VerifiedPackage.vendor value);
  signing ← copy signed 41 (VerifiedPackage.signing_fingerprint value);
  Ok [name; epoch; version; release; arch; vendor; primary; signing].

(** ** Keyrings *)

(** The keyring with the keys that may sign. *)
Record KeyringInstalled `{KeyLibrary} : Type := mk_keyring {
  native : keyring;
  allowed_primary_fingerprints : list string
}.

(** [abs_diff]. *)
Definition abs_diff (a b : N) : N := if a <? b then b - a else a - b.

Section keyrings.
Context `{SnapshotEnv} `{KeyLibrary}.

Definition staged_frame (key : VerifiedStagedKey.t) : list byte :=
  key_frame (VerifiedStagedKey.bundle_path key) (VerifiedStagedKey.certificate key).

Definition staged_step (st : list string * list byte) (key : VerifiedStagedKey.t) :
    result TrustError.t (list string * list byte) :=
  if bset_contains (VerifiedStagedKey.bundle_path key) st.1 then Err (TrustError.Bundle "duplicate staged key path")
  else Ok (bset_insert (VerifiedStagedKey.bundle_path key) st.1, st.2 ++ staged_frame key).

Definition validate_staged_bundle_at_bound_time (policy : RepoTrustPolicy.t) (repository : string)
    (keys : list VerifiedStagedKey.t) : result TrustError.t unit :=
  if negb (bool_decide (repository = RepoTrustPolicy.repo_id policy))
  then Err (TrustError.Bundle "repository id differs from trust policy")
  else
    st ← fold_result staged_step ([], DOMAIN) keys;
    if bool_decide (sha256_hex st.2 = Sha256Digest.as_str (RepoTrustPolicy.key_bundle_sha256 policy))
    then Ok tt else Err TrustError.BundleDigestMismatch.

Definition validate_staged_bundle (policy : RepoTrustPolicy.t) (repository : string)
    (keys : list VerifiedStagedKey.t) (now : N) : result TrustError.t unit :=
  if 300 <? abs_diff now (RepoTrustPolicy.valid_at_unix policy) then Err TrustError.VerificationTimeMismatch
  else validate_staged_bundle_at_bound_time policy repository keys.

(** [saturating_add]. *)
Definition validate_revalidated_staged_bundle (policy : RepoTrustPolicy.t) (repository : string)
    (keys : list VerifiedStagedKey.t) (now : N) : result TrustError.t unit :=
  if N.min (now + 300) u64_max <? RepoTrustPolicy.valid_at_unix policy then Err TrustError.VerificationTimeMismatch
  else validate_staged_bundle_at_bound_time policy repository keys.

(** The order of byte strings. *)
#[local] Instance bytes_ord : RustOrd (list byte) := fun a b => list_cmp N.compare (byte_val <$> a) (byte_val <$> b).

Definition open_staged_keyring (certificates : list (list byte)) (fingerprints : list string) :
    result TrustError.t KeyringInstalled :=
  let certificates := dedup (sort certificates) in
  let fingerprints := dedup (sort fingerprints) in
  if bool_decide (certificates = []) then Err (TrustError.Bundle "no staged repository keys")
  else
    native ← map_err (TrustError.Native ∘ NativeError.from) (keyring_open certificates);
    Ok (mk_keyring _ native fingerprints).

(** [now]: the seconds of the clock, or its error. *)
Definition clock (now : result string N) : result TrustError.t N := map_err TrustError.Bundle now.

Definition from_staged_bundle (validate : RepoTrustPolicy.t -> string -> list VerifiedStagedKey.t -> N -> result TrustError.t unit)
    (now : result string N) (policy : RepoTrustPolicy.t) (repository : string) (keys : list VerifiedStagedKey.t) :
    result TrustError.t KeyringInstalled :=
  now ← clock now;
  _ ← validate policy repository keys now;
  open_staged_keyring (VerifiedStagedKey.certificate <$> keys) (RepoTrustPolicy.allowed_primary_fingerprints policy).

Definition from_verified_staged_bundle := from_staged_bundle validate_staged_bundle.
Definition from_revalidated_staged_bundle := from_staged_bundle validate_revalidated_staged_bundle.

Definition bundles_step (validate : RepoTrustPolicy.t -> string -> list VerifiedStagedKey.t -> N -> result TrustError.t unit)
    (now : N) (st : list (list byte) * list string) (bundle : RepoTrustPolicy.t * string * list VerifiedStagedKey.t) :
    result TrustError.t (list (list byte) * list string) :=
  let '(policy, repository, keys) := bundle in
  _ ← validate policy repository keys now;
  Ok (st.1 ++ (VerifiedStagedKey.certificate <$> keys), st.2 ++ RepoTrustPolicy.allowed_primary_fingerprints policy).

Definition from_staged_bundles (validate : RepoTrustPolicy.t -> string -> list VerifiedStagedKey.t -> N -> result TrustError.t unit)
    (now : result string N) (bundles : list (RepoTrustPolicy.t * string * list VerifiedStagedKey.t)) :
    result TrustError.t KeyringInstalled :=
  now ← clock now;
  st ← fold_result (bundles_step validate now) ([], []) bundles;
  open_staged_keyring st.1 st.2.

Definition from_verified_staged_bundles := from_staged_bundles validate_staged_bundle.
Definition from_revalidated_staged_bundles := from_staged_bundles validate_revalidated_staged_bundle.

(** ** Verification of a package *)

Definition authorize (allowed : list string) (primary signing : string) (rule : SigningSubkeyRule.t)
    (actual expected : ExpectedPackage.t) : result TrustError.t unit :=
  _ ← reject_if (negb (existsb (fun item => bool_decide (item = primary)) allowed)) TrustError.UnauthorizedSigner;
  _ ← reject_if (bool_decide (rule = SigningSubkeyRule.PrimaryOnly) && negb (bool_decide (signing = primary)))
        TrustError.SigningSubkeyRejected;
  _ ← reject_if (negb (bool_decide (ExpectedPackage.name actual = ExpectedPackage.name expected))
                 || negb (ExpectedPackage.epoch actual =? ExpectedPackage.epoch expected)
                 || negb (bool_decide (ExpectedPackage.version actual = ExpectedPackage.version expected))
                 || negb (bool_decide (ExpectedPackage.release actual = ExpectedPackage.release expected))
                 || negb (bool_decide (ExpectedPackage.arch actual = ExpectedPackage.arch expected)))
        TrustError.NevraMismatch;
  reject_if (negb (bool_decide (ExpectedPackage.vendor actual = ExpectedPackage.vendor expected))
             && negb (bool_decide (ExpectedPackage.vendor expected = "unknown") && str_is_empty (ExpectedPackage.vendor actual)))
    TrustError.VendorMismatch.

(** The buffer of the readers. *)
Definition BUFFER : N := 64 * 1024.

(** What successive reads give. *)
Fixpoint blocks_from (fuel : nat) (l : list byte) : list (list byte) :=
  match fuel, l with
  | S fuel, _ :: _ =>
      let count := N.to_nat (N.min BUFFER (N.of_nat (length l))) in
      take count l :: blocks_from fuel (drop count l)
  | _, _ => []
  end.
Definition blocks (l : list byte) : list (list byte) := blocks_from (length l) l.

#[export] Instance trust_domain : Domain FaultPoint.t TrustError.t :=
  {| unarmed := FaultPoint.None; io_error := TrustError.Bundle |}.

(** The loop of [read_at] up to the size that was found first. *)
Fixpoint read_at_loop {D} (size offset : N) (seen : list byte) (rest : list (list byte)) :
    Effects.io FaultPoint.t TrustError.t D (list byte) :=
  if offset <? size then
    _ ← sync;
    match rest with
    | [] => raise (TrustError.Bundle "retained artifact truncated")
    | block :: rest =>
        offset ← lift (ok_or (TrustError.Bundle "retained artifact size overflow")
                         (u64_checked_add offset (N.of_nat (length block))));
        read_at_loop size offset (seen ++ block) rest
    end
  else mret seen.

Definition expected_of (verified : VerifiedPackage.t) : result TrustError.t ExpectedPackage.t :=
  epoch ← ok_or TrustError.NevraMismatch (parse_unsigned u64_max (VerifiedPackage.epoch verified));
  Ok (ExpectedPackage.mk (VerifiedPackage.name verified) epoch (VerifiedPackage.version verified)
        (VerifiedPackage.release verified) (VerifiedPackage.arch verified) (VerifiedPackage.vendor verified)).

Definition verify_artifact {D} (k : KeyringInstalled) (file : ArtifactFile.t) (expected : ExpectedPackage.t)
    (subkey_rule : SigningSubkeyRule.t) : Effects.io FaultPoint.t TrustError.t D VerifiedArtifact.t :=
  verified ← lift (map_err (TrustError.Native ∘ NativeError.from) (keyring_verify_fd (native k) file));
  actual ← lift (expected_of verified);
  _ ← lift (authorize (allowed_primary_fingerprints k) (VerifiedPackage.primary_fingerprint verified)
              (VerifiedPackage.signing_fingerprint verified) subkey_rule actual expected);
  _ ← sync;
  let artifact_size := Z.to_N (ArtifactFile.st_size file) in
  content ← read_at_loop artifact_size 0 [] (blocks (ArtifactFile.content file));
  mret (VerifiedArtifact.mk actual (VerifiedPackage.primary_fingerprint verified)
          (VerifiedPackage.signing_fingerprint verified) (sha256_hex content) artifact_size).
End keyrings.

(** ** Facts *)

Module NativeTrustFacts.

Section files.
Lemma concat_blocks_from fuel : forall l, (length l <= fuel)%nat -> concat (blocks_from fuel l) = l.
Proof.
  induction fuel as [|fuel IH]; intros [|b l] Hl; simpl in *; [done | lia | done |].
  set (count := N.to_nat _). assert (1 <= count)%nat by (unfold count, BUFFER; simpl; lia).
  destruct count as [|count]; [lia |]. rewrite IH; [by rewrite take_drop |]. rewrite length_drop. simpl. lia.
Qed.

Lemma concat_blocks l : concat (blocks l) = l.
Proof. by apply concat_blocks_from. Qed.

Lemma read_at_loop_value {D} size rest : forall offset seen (w w' : Effects.world FaultPoint.t D) content,
  read_at_loop size offset seen rest w = (w', Value content) ->
  fsys w' = fsys w /\ exists pre post, rest = pre ++ post /\ content = seen ++ concat pre /\
    size <= offset + N.of_nat (length (concat pre)) /\
    (pre = [] \/ exists front last, pre = front ++ [last] /\ offset + N.of_nat (length (concat front)) < size).
Proof.
  induction rest as [|block rest IH]; intros offset seen w w' content; cbn [read_at_loop];
    destruct (offset <? size) eqn:Ho; [| intros [= <- <-] | | intros [= <- <-]].
  2,4: split; [done |]; eexists [], _; split; [done |]; simpl; rewrite app_nil_r; apply N.ltb_ge in Ho;
       split; [done |]; split; [lia | by left].
  - unfold mbind, io_mbind. by destruct (sync w) as [? []].
  - apply N.ltb_lt in Ho. unfold mbind, io_mbind. destruct (sync w) as [w1 [[]| |]] eqn:Hs; [| done..].
    assert (Hw1 : fsys w1 = fsys w).
    { unfold sync, sys in Hs. destruct (head (pending w)) as [[]|]; by injection Hs as <-. }
    unfold lift. destruct (ok_or _ _) as [o|] eqn:Hadd; [| done]. cbn [fst snd].
    apply ok_or_ok in Hadd. unfold u64_checked_add in Hadd. destruct (_ <=? _); simplify_eq.
    intros Hr. destruct (IH _ _ _ _ _ Hr) as (Hf & pre & post & -> & -> & Hsize & Hlast).
    split; [congruence |]. exists (block :: pre), post. split; [done |]. cbn [concat]. rewrite length_app.
    split; [by rewrite app_assoc |]. split; [lia |]. right.
    destruct Hlast as [-> | (front & last & -> & Hl)]; [exists [], block; simpl; split; [done | lia] |].
    exists (block :: front), last. simpl. rewrite length_app. split; [done | lia].
Qed.
End files.

Section facts.
Context `{SnapshotEnv} `{KeyLibrary}.

(** The same package: version, architecture, and the vendor, which the metadata may not know. *)
Definition same_package (actual expected : ExpectedPackage.t) : Prop :=
  ExpectedPackage.name actual = ExpectedPackage.name expected /\
  ExpectedPackage.epoch actual = ExpectedPackage.epoch expected /\
  ExpectedPackage.version actual = ExpectedPackage.version expected /\
  ExpectedPackage.release actual = ExpectedPackage.release expected /\
  ExpectedPackage.arch actual = ExpectedPackage.arch expected /\
  (ExpectedPackage.vendor actual = ExpectedPackage.vendor expected \/
   ExpectedPackage.vendor expected = "unknown" /\ ExpectedPackage.vendor actual = "").

(** What a keyring vouches for. *)
Definition vouched (k : KeyringInstalled) (file : ArtifactFile.t) (rule : SigningSubkeyRule.t)
    (expected : ExpectedPackage.t) (v : VerifiedArtifact.t) : Prop :=
  (exists verified, keyring_verify_fd (native k) file = Ok verified /\ expected_of verified = Ok (VerifiedArtifact.package v) /\
     VerifiedPackage.primary_fingerprint verified = VerifiedArtifact.primary_fingerprint v /\
     VerifiedPackage.signing_fingerprint verified = VerifiedArtifact.signing_fingerprint v) /\
  VerifiedArtifact.primary_fingerprint v ∈ allowed_primary_fingerprints k /\
  (rule = SigningSubkeyRule.PrimaryOnly -> VerifiedArtifact.signing_fingerprint v = VerifiedArtifact.primary_fingerprint v) /\
  same_package (VerifiedArtifact.package v) expected /\
  VerifiedArtifact.artifact_size v = Z.to_N (ArtifactFile.st_size file) /\
  (ArtifactFile.st_size file = Z.of_nat (length (ArtifactFile.content file)) ->
   VerifiedArtifact.artifact_sha256 v = sha256_hex (ArtifactFile.content file)).

Lemma authorize_sound allowed primary signing rule actual expected :
  authorize allowed primary signing rule actual expected = Ok tt ->
  primary ∈ allowed /\ (rule = SigningSubkeyRule.PrimaryOnly -> signing = primary) /\ same_package actual expected.
Proof.
  unfold authorize, same_package. intros ([] & H1%reject_if_ok & ([] & H2%reject_if_ok &
    ([] & H3%reject_if_ok & H4%reject_if_ok)%bind_ok)%bind_ok)%bind_ok.
  apply negb_false_iff, existsb_true in H1 as (x & Hx & ->%bool_decide_eq_true).
  bool_inv. split_and!; try done; try by apply N.eqb_eq.
  - intros ->. by apply andb_false_iff in H2 as [H2|H2]; bool_inv.
  - apply andb_false_iff in H4 as [H4|H4]; bool_inv; [by left |]. right. split; [done |]. by apply str_is_empty_spec.
Qed.

(** Whatever the reads do, an artifact is only verified when the keyring vouches for it; and the
    digest and the size that go with it are those of the file, where the file is as long as the
    system says. *)
Lemma verify_artifact_vouched {D} (k : KeyringInstalled) file expected rule (w w' : Effects.world FaultPoint.t D) v :
  verify_artifact k file expected rule w = (w', Value v) -> fsys w' = fsys w /\ vouched k file rule expected v.
Proof.
  unfold verify_artifact, mbind, io_mbind, lift.
  destruct (map_err _ _) as [verified|] eqn:E1; [| done]. apply map_err_ok in E1.
  simpl. destruct (expected_of verified) as [actual|] eqn:E2; [| done].
  destruct (authorize _ _ _ _ _ _) as [[]|] eqn:E3; [| done]. apply authorize_sound in E3 as (Hin & Hrule & Hsame).
  destruct (sync w) as [w1 [[]| |]] eqn:Hs; [| done..].
  assert (Hw1 : fsys w1 = fsys w).
  { unfold sync, sys in Hs. destruct (head (pending w)) as [[]|]; by injection Hs as <-. }
  destruct (read_at_loop _ _ _ _ w1) as [w2 [content| |]] eqn:Hr; [| done..]. intros [= <- <-].
  destruct (read_at_loop_value _ _ _ _ _ _ _ Hr) as (Hw2 & pre & post & Hblocks & -> & Hsize & _).
  split; [congruence |]. unfold vouched. simpl. split_and!; try done; [by exists verified |].
  intros Hlen. f_equal. pose proof (concat_blocks (ArtifactFile.content file)) as Hc.
  rewrite Hblocks, concat_app in Hc. rewrite <- Hc in *. rewrite length_app in Hlen.
  destruct (concat post) as [|? ?]; [by rewrite app_nil_r |]. exfalso. simpl in Hlen. lia.
Qed.

(** ** Bundles *)

Lemma staged_fold keys : forall seen l s,
  fold_result staged_step (seen, l) keys = Ok s -> StronglySorted clt seen ->
  s.2 = l ++ concat (staged_frame <$> keys) /\ NoDup (VerifiedStagedKey.bundle_path <$> keys) /\
  (forall p, p ∈ VerifiedStagedKey.bundle_path <$> keys -> p ∉ seen).
Proof.
  induction keys as [|key keys IH]; intros seen l s; simpl.
  { intros [= <-] _. rewrite app_nil_r. split_and!; [done | constructor | set_solver]. }
  intros ([seen' l'] & Hs & Hf)%bind_ok Hsort. unfold staged_step in Hs. simpl in Hs.
  destruct (bset_contains _ seen) eqn:Hin; [done |]. injection Hs as <- <-.
  apply bset_contains_false in Hin.
  destruct (IH _ _ _ Hf (bset_insert_sorted _ _ Hsort)) as (-> & Hnd & Hout).
  split_and!; [by rewrite <- app_assoc | |].
  - constructor; [| done]. intros Hk. apply (Hout _ Hk). apply elem_of_bset_insert. by left.
  - intros p [->|Hp]%elem_of_cons; [done |]. intros Hps. apply (Hout _ Hp). apply elem_of_bset_insert. by right.
Qed.

(** What an accepted bundle is: the repository's own keys under distinct paths, as the policy's
    digest has them. *)
Definition bundle_bound (policy : RepoTrustPolicy.t) (repository : string) (keys : list VerifiedStagedKey.t) : Prop :=
  repository = RepoTrustPolicy.repo_id policy /\ NoDup (VerifiedStagedKey.bundle_path <$> keys) /\
  sha256_hex (DOMAIN ++ concat (staged_frame <$> keys)) = Sha256Digest.as_str (RepoTrustPolicy.key_bundle_sha256 policy).

Lemma bundle_bound_ok policy repository keys :
  validate_staged_bundle_at_bound_time policy repository keys = Ok tt -> bundle_bound policy repository keys.
Proof.
  unfold validate_staged_bundle_at_bound_time. case_bool_decide as Hid; [| done]. simpl.
  intros ([seen l] & Hf & Hd)%bind_ok. apply staged_fold in Hf as (Hl & Hnd & _); [| constructor].
  simpl in *. subst l. case_bool_decide; [| done]. done.
Qed.

Lemma revalidated_bound policy repository keys now :
  validate_revalidated_staged_bundle policy repository keys now = Ok tt ->
  bundle_bound policy repository keys /\ RepoTrustPolicy.valid_at_unix policy <= now + 300.
Proof.
  unfold validate_revalidated_staged_bundle. destruct (_ <? _) eqn:Ht; [done |]. apply N.ltb_ge in Ht.
  intros Hb%bundle_bound_ok. split; [done | lia].
Qed.

Lemma from_revalidated_bound now policy repository keys k :
  from_revalidated_staged_bundle now policy repository keys = Ok k ->
  bundle_bound policy repository keys /\
  allowed_primary_fingerprints k = dedup (sort (RepoTrustPolicy.allowed_primary_fingerprints policy)).
Proof.
  unfold from_revalidated_staged_bundle, from_staged_bundle.
  intros (t & _ & ([] & Hv%revalidated_bound & Ho)%bind_ok)%bind_ok. split; [apply Hv |].
  unfold open_staged_keyring in Ho. case_bool_decide; [done |]. by apply bind_ok in Ho as (? & _ & [= <-]).
Qed.

Definition staged_pair (key : VerifiedStagedKey.t) : string * list byte :=
  (VerifiedStagedKey.bundle_path key, VerifiedStagedKey.certificate key).

(** Two accepted bundles of one policy are the same keys in the same order. *)
Lemma bundle_bound_unique policy repository keys keys' :
  bundle_bound policy repository keys -> bundle_bound policy repository keys' ->
  Forall (TrustFacts.fits ∘ staged_pair) keys -> Forall (TrustFacts.fits ∘ staged_pair) keys' ->
  keys = keys' \/ exists x y, x <> y /\ sha256_hex x = sha256_hex y.
Proof.
  intros (_ & _ & H1) (_ & _ & H2) Hf1 Hf2. rewrite <- H2 in H1.
  destruct (decide (DOMAIN ++ concat (staged_frame <$> keys) = DOMAIN ++ concat (staged_frame <$> keys'))) as [E|E];
    [left | right; eauto].
  apply app_inv_head in E.
  assert (Hpairs : forall l : list VerifiedStagedKey.t, staged_frame <$> l = (fun p => key_frame p.1 p.2) <$> (staged_pair <$> l)).
  { intros l. by rewrite <- list_fmap_compose. }
  rewrite !Hpairs in E. apply TrustFacts.key_frames_inj in E; [| by apply Forall_fmap..].
  apply list_fmap_eq_inj in E; [done |]. intros [] []. unfold staged_pair. simpl. congruence.
Qed.
End facts.
End NativeTrustFacts.
