(* ===== verification/Artifact.v ===== *)
(** * Package artifacts ([dnfast-cache]: artifact.rs, and the check of an artifact of
    artifact_store.rs)

    Where an artifact may be fetched from, how much a transaction may fetch, and when a file is
    the artifact that was asked for.  The parser of URLs is the class [UrlLibrary]. *)
From Stdlib Require Import Ascii.
From S2P Require Import Prelude.
From S2P Require Import RustStr.
From S2P Require Import RustText.
From S2P Require Import UnixPath.
From S2P Require Import CacheModel.
From S2P Require Import Snapshot.
From S2P Require Import Effects.
From S2P Require Import StateFs.
From S2P Require Import NativeTrust.

#[local] Open Scope N_scope.

Definition MAX_ARTIFACT_BYTES : N := 8 * 1024 * 1024 * 1024.
Definition MAX_TRANSACTION_BYTES : N := 64 * 1024 * 1024 * 1024.
Definition MAX_TRANSACTION_ARTIFACTS : N := 100000.
Definition MAX_CACHE_BYTES : N := 128 * 1024 * 1024 * 1024.

Module ArtifactError.
Inductive t : Type :=
  | Policy (message : string)
  | Capacity (message : string)
  | Transport (message : string)
  | Integrity (message : string)
  | Io (message : string)
  | Busy (message : string).

Definition to_string (e : t) : string :=
  match e with
  | Policy m => "artifact policy rejected input: " +:+ m
  | Capacity m => "artifact capacity rejected transaction: " +:+ m
  | Transport m => "artifact transport failed: " +:+ m
  | Integrity m => "artifact integrity failed: " +:+ m
  | Io m => "artifact filesystem operation failed: " +:+ m
  | Busy m => "artifact cache is busy: " +:+ m
  end.
End ArtifactError.

Abbreviation aresult := (result ArtifactError.t).
Definition policy {A} (message : string) : aresult A := Err (ArtifactError.Policy message).
Definition capacity_error {A} (message : string) : aresult A := Err (ArtifactError.Capacity message).

(** The crate url: parsing, the default ports, paths and joining. *)
Class UrlLibrary : Type := {
  parse_url : string -> result string Url.t;
  port_or_known_default : Url.t -> option N;
  url_path : Url.t -> string;
  set_path : string -> Url.t -> Url.t;
  join_url : Url.t -> string -> result string Url.t
}.

(** [ArtifactSpec], its text digest in lower case. *)
Module ArtifactSpec.
Record t : Type := mk { url : string; digest : string; size : N }.
End ArtifactSpec.

Section spec.
Context `{UrlLibrary}.

Definition parse_base (value : string) : aresult Url.t :=
  url ← map_err ArtifactError.Policy (parse_url value);
  if negb (bool_decide (Url.scheme url = "https")) || negb (str_is_empty (Url.username url))
     || negb (bool_decide (Url.password url = None)) || bool_decide (Url.host_str url = None)
     || negb (bool_decide (Url.query url = None)) || negb (bool_decide (Url.fragment url = None))
  then policy "unsafe HTTPS base URL" else Ok url.

Definition origin (url : Url.t) : string * option N * string :=
  (Url.scheme url, port_or_known_default url, default "" (Url.host_str url)).

Definition unsafe_part (part : list byte) : bool :=
  bool_decide (part = []) || bool_decide (of_bytes part = ".") || bool_decide (of_bytes part = "..").

Definition unsafe_location (location : string) : bool :=
  str_is_empty location || str_starts_with "/" location || has_backslash location || str_contains "?" location
  || str_contains "#" location || str_contains "%" location || str_contains "://" location
  || existsb unsafe_part (split_on slash [] (bytes location)).

(** The base with a slash at its end, so that joining keeps its last segment. *)
Definition as_directory (selected : Url.t) : Url.t :=
  if str_ends_with "/" (url_path selected) then selected else set_path (url_path selected +:+ "/") selected.

Definition from_selected_base (selected : Url.t) (location digest : string) (size : N) : aresult ArtifactSpec.t :=
  if MAX_ARTIFACT_BYTES <? size then policy "artifact exceeds 8 GiB"
  else if unsafe_location location then policy "unsafe metadata package location"
  else if negb (str_len digest =? 64) || negb (forallb is_ascii_hexdigit (bytes digest)) then policy "unsupported SHA-256 digest"
  else
    url ← map_err ArtifactError.Policy (join_url (as_directory selected) location);
    if negb (bool_decide (origin url = origin selected)) then policy "package URL escaped selected origin"
    else Ok (ArtifactSpec.mk (Url.as_str url) (to_ascii_lowercase digest) size).

Definition new (repository_base selected_base location digest : string) (size : N) : aresult ArtifactSpec.t :=
  if MAX_ARTIFACT_BYTES <? size then policy "artifact exceeds 8 GiB"
  else
    repository ← parse_base repository_base;
    selected ← parse_base selected_base;
    if negb (bool_decide (origin repository = origin selected)) then policy "selected URL is not same-origin"
    else from_selected_base selected location digest size.

Definition from_selected_mirror (selected_mirror location digest : string) (size : N) : aresult ArtifactSpec.t :=
  selected ← parse_base selected_mirror; from_selected_base selected location digest size.
End spec.

(** ** Capacity *)

Module Capacity.
Record t : Type := mk { cached_bytes : N; available_bytes : N }.
End Capacity.

Module TransactionRequest.
Record t : Type := mk { predicted_bytes : N; artifacts : N; identities : list (string * N) }.

Definition validate (r : t) (capacity : Capacity.t) : aresult unit :=
  if (MAX_TRANSACTION_BYTES <? predicted_bytes r) || (MAX_TRANSACTION_ARTIFACTS <? artifacts r)
  then capacity_error "transaction artifact limit exceeded"
  else
    cache_after ← ok_or (ArtifactError.Capacity "cache size overflow")
                    (u64_checked_add (Capacity.cached_bytes capacity) (predicted_bytes r));
    if MAX_CACHE_BYTES <? cache_after then capacity_error "artifact cache cap exceeded"
    else
      rounded ← ok_or (ArtifactError.Capacity "reserve overflow") (u64_checked_add (predicted_bytes r) 19);
      reserve ← ok_or (ArtifactError.Capacity "reserve overflow") (u64_checked_add (predicted_bytes r) (rounded / 20));
      if Capacity.available_bytes capacity <? reserve then capacity_error "filesystem reserve is insufficient" else Ok tt.

Definition from_totals (predicted_bytes artifacts : N) : aresult t :=
  let request := mk predicted_bytes artifacts [] in
  _ ← validate request (Capacity.mk 0 u64_max);
  Ok request.

(** [try_fold] of [checked_add]. *)
Definition total_size (specs : list ArtifactSpec.t) : aresult N :=
  fold_result (fun total spec => ok_or (ArtifactError.Capacity "transaction byte count overflow")
                                   (u64_checked_add total (ArtifactSpec.size spec))) 0 specs.

Definition for_specs (specs : list ArtifactSpec.t) : aresult t :=
  predicted_bytes ← total_size specs;
  let identities := sort ((fun spec => (ArtifactSpec.digest spec, ArtifactSpec.size spec)) <$> specs) in
  if windows2_any (fun a b => bool_decide (a = b)) identities then capacity_error "duplicate artifact in transaction"
  else
    request ← from_totals predicted_bytes (N.of_nat (length specs));
    Ok (mk (TransactionRequest.predicted_bytes request) (TransactionRequest.artifacts request) identities).
End TransactionRequest.

(** ** The file of an artifact *)

#[export] Instance artifact_domain : Domain FaultPoint.t ArtifactError.t :=
  {| unarmed := FaultPoint.None; io_error := ArtifactError.Io |}.

(** [read] until it gives nothing. *)
Fixpoint read_to_end `{Domain F E} {D} (seen : list byte) (rest : list (list byte)) : Effects.io F E D (list byte) :=
  _ ← sync;
  match rest with [] => mret seen | block :: rest => read_to_end (seen ++ block) rest end.

(** All of a file. *)
Definition read_file `{Domain F E} {D} (file : ArtifactFile.t) : Effects.io F E D (list byte) :=
  read_to_end [] (blocks (ArtifactFile.content file)).

Section identity.
Context `{SnapshotEnv} (euid : N).

Definition trusted_artifact (file : ArtifactFile.t) (size : N) : bool :=
  (0 <=? ArtifactFile.st_size file)%Z && (Z.to_N (ArtifactFile.st_size file) =? size)
  && (N.land (ArtifactFile.mode file) 63 =? 0) && (ArtifactFile.nlink file =? 1) && (ArtifactFile.uid file =? euid)
  && ArtifactFile.regular file.

Definition verify_identity {D} (file : ArtifactFile.t) (digest : string) (size : N) :
    Effects.io FaultPoint.t ArtifactError.t D ArtifactFile.t :=
  _ ← sync;
  _ ← raise_if (negb (trusted_artifact file size)) (ArtifactError.Integrity "existing artifact metadata mismatch");
  content ← read_file file;
  _ ← raise_if (negb (bool_decide (sha256_hex content = digest))) (ArtifactError.Integrity "existing artifact digest mismatch");
  _ ← sync;
  mret file.

(** [CachedArtifact::from_verified_root_file]. *)
Definition from_verified_root_file {D} (file : ArtifactFile.t) (sha256 : string) (size : N) :
    Effects.io FaultPoint.t ArtifactError.t D ArtifactFile.t := verify_identity file sha256 size.
End identity.
