(* ===== verification/ExecutorInventory.v ===== *)
(** * The transaction set and the inventory of the executor ([dnfast-native]: inventory.rs,
    checked_transaction.rs, transaction.rs)

    One machine holds what survives the process, the RPM database and the directories of the
    journal and of the package reasons, and what does not: the native context with the items of
    the transaction, the executor's state and the cached inventory.  Operations are sequences of
    steps any of which may fail or be the last (the file Effects); a run of rpm that fails or
    dies leaves the database after any number of the run's own steps.  librpm is the class
    [RpmLibrary]; what the C border does around it (src/native/src/transaction.c,
    transaction_run.c, inventory_write.c) is modelled. *)
From S2P Require Import Prelude.
From S2P Require Import RustStr.
From S2P Require Import RustText.
From S2P Require Import Value.
From S2P Require Import Canonical.
From S2P Require Import Documents.
From S2P Require Import UnixPath.
From S2P Require Import CacheModel.
From S2P Require Import Snapshot.
From S2P Require Import Effects.
From S2P Require Import StateFs.
From S2P Require Import Journal.
From S2P Require Import NativeTrust.

#[local] Open Scope N_scope.

(** ** Items, counts, reads *)

Module TransactionInstallMode.
Inductive t : Type := Install | Upgrade | Reinstall | Downgrade.
#[global] Instance transaction_install_mode_eq_dec : EqDecision t.
Proof. solve_decision. Defined.
End TransactionInstallMode.

Module TransactionItem.
Inductive t : Type :=
  | Install (file : ArtifactFile.t) (expected : VerifiedPackage.t) (artifact_sha256 : list byte) (artifact_size : N)
      (mode : TransactionInstallMode.t)
  | Erase (db_instance : N) (header_sha256 : list byte).
#[global] Instance transaction_item_eq_dec : EqDecision t.
Proof. solve_decision. Defined.
End TransactionItem.

(** The counters that are read. *)
Module TransactionCounts.
Record t : Type := mk { script_stop : N; package_stop : N; test_run : N; real_run : N }.
End TransactionCounts.

Inductive Phase : Type := Preflight | Started.
#[export] Instance phase_eq_dec : EqDecision Phase.
Proof. solve_decision. Defined.

(** [dnfast_native_sys::InventoryPackage], [Inventory] and [InventoryRead]. *)
Module InventoryPackage.
Record t : Type := mk {
  name : string; version : string; release : string; arch : string; vendor : string;
  epoch : N; db_instance : N; install_time : N; immutable_header_sha256 : string
}.
End InventoryPackage.

Module Inventory.
Record t : Type := mk { backend : string; rpm_version : string; packages : list InventoryPackage.t }.
End Inventory.

Module InventoryRead.
Record t : Type := mk { cookie : string; inventory : option Inventory.t }.
End InventoryRead.

(** What [rpmtsRun] returns, with what the callbacks counted. *)
Module RunOutcome.
Record t : Type := mk {
  result : Z; problems : list string; callback_failed : bool; script_stops : N; package_stops : N
}.
End RunOutcome.

(** librpm: the database with its cookie and packages; the checks before a run, which say where
    they failed and which problems they found; and a run as a number of steps. *)
Class RpmLibrary `{KeyLibrary} : Type := {
  rpmdb : Type;
  rpmdb_cookie : rpmdb -> result SysError.t string;
  rpmdb_inventory : rpmdb -> option (list string) -> result SysError.t Inventory.t;
  rpm_check : bool -> keyring -> list TransactionItem.t -> rpmdb -> option (option (list string));
  rpm_progress : list TransactionItem.t -> nat -> rpmdb -> rpmdb;
  rpm_steps : list TransactionItem.t -> rpmdb -> nat;
  rpm_outcome : bool -> list TransactionItem.t -> rpmdb -> RunOutcome.t;
  rpm_verify_db : rpmdb -> bool;
  effective_uid : N;
  c_char_signed : bool;
  max_packages : N
}.

Module TransactionProblem.
Record t : Type := mk { as_str : string }.

Definition new (value : string) : option t :=
  if str_is_empty value || (4096 <? str_len value) || existsb (fun b => byte_val b =? 0) (bytes value)
  then None else Some (mk value).
End TransactionProblem.

Definition erase_error_to_string (e : EraseLookupError.t) : string :=
  match e with
  | EraseLookupError.NotFound => "installed instance was not found"
  | EraseLookupError.HeaderMismatch => "installed instance header digest changed"
  | EraseLookupError.Ambiguous => "installed instance identity is ambiguous"
  end.

Module InventoryError.
Inductive t : Type :=
  | Native (e : NativeError.t)
  | Domain (e : DomainError.t)
  | Architecture (value : string)
  | Lock (errno : Z)
  | LockTimeout
  | Interrupted
  | StaleInventory
  | UnchangedCookie
  | PostTransactionIdentity (expected actual : string)
  | InvalidState
  | TooLate
  | TestFailed (result : Z)
  | TransactionPreflight (problems : list TransactionProblem.t)
  | PotentiallyStateful (problems : list TransactionProblem.t) (journal_error : option string)
  | EraseIdentity (e : EraseLookupError.t)
  | HeaderDigest
  | ProblemList
  | Journal (message : string)
  | UnsafeRoot.

Definition to_string (e : t) : string :=
  match e with
  | Native e => NativeError.to_string e
  | Domain e => "invalid installed package: " +:+ DomainError.to_string e
  | Architecture value => "unsupported installed architecture: " +:+ value
  | Lock errno => "transaction authority failed: errno " +:+ display_z errno
  | LockTimeout => "transaction lock deadline exceeded"
  | Interrupted => "transaction wait interrupted before start"
  | StaleInventory => "installed RPM inventory changed after solve"
  | UnchangedCookie => "RPMDB cookie did not change after a successful mutating transaction"
  | PostTransactionIdentity expected actual =>
      "post-transaction RPM identities differ: expected=" +:+ expected +:+ "; actual=" +:+ actual
  | InvalidState => "invalid executor state transition"
  | TooLate => "cancellation is too late after transaction start"
  | TestFailed result => "RPM TEST transaction failed with result " +:+ display_z result
  | TransactionPreflight _ => "checked RPM transaction preflight failed"
  | PotentiallyStateful _ _ => "real RPM transaction failed after its write boundary"
  | EraseIdentity e => "installed erase identity changed: " +:+ erase_error_to_string e
  | HeaderDigest => "invalid installed immutable-header digest"
  | ProblemList => "invalid native RPM problem list"
  | Journal message => "transaction journal failed: " +:+ message
  | UnsafeRoot => "unsafe RPM database root"
  end.
End InventoryError.

Module ExecutionState.
Inductive t : Type := Prepared | Tested | TestFailed (result : Z) | Started | Reconciled | Cancelled.
#[global] Instance execution_state_eq_dec : EqDecision t.
Proof. solve_decision. Defined.
End ExecutionState.

(** ** The machine *)

Module CachedInventory.
Record t : Type := mk { cookie : string; inventory : InstalledInventory.t }.
End CachedInventory.

(** [dnfast_context], as far as transactions use it. *)
Module Context.
Record t `{KeyLibrary} : Type := mk {
  write_keyring : option keyring;
  items : list TransactionItem.t;
  phase : Phase;
  counts : TransactionCounts.t;
  problems : list string;
  start_callback : bool
}.
End Context.

(** [ExecutorInventory] without its context and keyring. *)
Module Executor.
Record t : Type := mk {
  inventory : InstalledInventory.t;
  state : ExecutionState.t;
  journal : bool;
  rpmdb_cookie : option string
}.
End Executor.

Record machine `{RpmLibrary} : Type := mk_machine {
  database : rpmdb;
  journal_dir : directory;
  reasons_dir : directory;
  context : Context.t;
  executor : Executor.t;
  cached : option CachedInventory.t
}.

Section setters.
Context `{RpmLibrary}.

Definition set_database (v : rpmdb) (m : machine) : machine :=
  mk_machine _ _ v (journal_dir m) (reasons_dir m) (context m) (executor m) (cached m).
Definition set_journal_dir (v : directory) (m : machine) : machine :=
  mk_machine _ _ (database m) v (reasons_dir m) (context m) (executor m) (cached m).
Definition set_reasons_dir (v : directory) (m : machine) : machine :=
  mk_machine _ _ (database m) (journal_dir m) v (context m) (executor m) (cached m).
Definition set_context (v : Context.t) (m : machine) : machine :=
  mk_machine _ _ (database m) (journal_dir m) (reasons_dir m) v (executor m) (cached m).
Definition set_executor (v : Executor.t) (m : machine) : machine :=
  mk_machine _ _ (database m) (journal_dir m) (reasons_dir m) (context m) v (cached m).
Definition set_cached (v : option CachedInventory.t) (m : machine) : machine :=
  mk_machine _ _ (database m) (journal_dir m) (reasons_dir m) (context m) (executor m) v.

Definition set_items (v : list TransactionItem.t) (c : Context.t) : Context.t :=
  Context.mk _ (Context.write_keyring c) v (Context.phase c) (Context.counts c) (Context.problems c) (Context.start_callback c).
Definition set_phase (v : Phase) (c : Context.t) : Context.t :=
  Context.mk _ (Context.write_keyring c) (Context.items c) v (Context.counts c) (Context.problems c) (Context.start_callback c).
Definition set_counts (v : TransactionCounts.t) (c : Context.t) : Context.t :=
  Context.mk _ (Context.write_keyring c) (Context.items c) (Context.phase c) v (Context.problems c) (Context.start_callback c).
Definition set_problems (v : list string) (c : Context.t) : Context.t :=
  Context.mk _ (Context.write_keyring c) (Context.items c) (Context.phase c) (Context.counts c) v (Context.start_callback c).
Definition set_start_callback (c : Context.t) : Context.t :=
  Context.mk _ (Context.write_keyring c) (Context.items c) (Context.phase c) (Context.counts c) (Context.problems c) true.

Definition set_state (v : ExecutionState.t) (m : machine) : machine :=
  set_executor (Executor.mk (Executor.inventory (executor m)) v (Executor.journal (executor m)) (Executor.rpmdb_cookie (executor m))) m.
End setters.

#[export] Instance sys_domain : Domain FaultPoint.t SysError.t :=
  {| unarmed := FaultPoint.None; io_error := SysError.mk 7 "rpm" "" |}.
#[export] Instance inventory_domain : Domain FaultPoint.t InventoryError.t :=
  {| unarmed := FaultPoint.None; io_error m := InventoryError.Native (NativeError.NativeFailure 7 m) |}.

(** ** The native side *)

Section native.
Context `{SnapshotEnv} `{RpmLibrary} `{SerdeJson JournalEntry.t} `{ErrnoText} (pid : N).

Abbreviation native_io := (Effects.io FaultPoint.t SysError.t machine).

Definition modify_context (f : Context.t -> Context.t) : native_io unit := modify (fun m => set_context (f (context m)) m).

Definition rpm_error (symbol message : string) : SysError.t := SysError.mk 7 "rpm" symbol message.
Definition invalid_argument (component symbol message : string) : SysError.t := SysError.mk 1 component symbol message.

(** [dnfast_inventory_write_begin]; waiting for the lock of the database is one step. *)
Definition begin_inventory_write (k : keyring) (root : string) : native_io unit :=
  if negb (bool_decide (root = "/")) then raise (invalid_argument "rpmdb" "" "write root must be /")
  else if negb (effective_uid =? 0) then raise (SysError.mk 8 "rpmdb" "geteuid" "root execution required")
  else
    c ← gets context;
    match Context.write_keyring c with
    | Some _ => raise (invalid_argument "rpmdb" "" "write context already active")
    | None =>
        _ ← sync;
        modify_context (fun c => Context.mk _ (Some k) (Context.items c) (Context.phase c) (Context.counts c)
                                   (Context.problems c) (Context.start_callback c))
    end.

(** [dnfast_inventory_write_end]. *)
Definition end_write (c : Context.t) : Context.t :=
  Context.mk _ None [] (Context.phase c) (Context.counts c) [] (Context.start_callback c).
Definition end_inventory_write : native_io unit := modify_context end_write.

Definition active (message : string) : native_io unit :=
  c ← gets context;
  match Context.write_keyring c with Some _ => mret tt | None => raise (invalid_argument "rpmdb" "" message) end.

Definition take_cookie : native_io string :=
  _ ← sync;
  d ← gets database;
  cookie ← lift (rpmdb_cookie d);
  if str_is_empty cookie then raise (rpm_error "rpmdbCookie" "rpmdb cookie unavailable") else mret cookie.

(** [Context::read_locked_inventory_cached]. *)
Definition read_locked_inventory_cached (expected_cookie : option string) : native_io InventoryRead.t :=
  _ ← active "write context is not active";
  cookie ← take_cookie;
  if bool_decide (expected_cookie = Some cookie) then mret (InventoryRead.mk cookie None)
  else
    d ← gets database;
    inventory ← lift (rpmdb_inventory d None);
    mret (InventoryRead.mk cookie (Some inventory)).

(** [Context::read_locked_inventory_selected]. *)
Definition read_locked_inventory_selected (names : list string) : native_io InventoryRead.t :=
  _ ← raise_if (bool_decide (names = []) || windows2_any geb names)
        (invalid_argument "rpmdb" "" "selected inventory names are not canonical");
  _ ← active "selected read context is invalid";
  cookie ← take_cookie;
  d ← gets database;
  inventory ← lift (rpmdb_inventory d (Some names));
  mret (InventoryRead.mk cookie (Some inventory)).

(** *** Items *)

Definition mutable (c : Context.t) : bool :=
  bool_decide (Context.phase c = Preflight) && match Context.write_keyring c with Some _ => true | None => false end.

Definition append_item (item : TransactionItem.t) : native_io unit :=
  c ← gets context;
  _ ← raise_if (max_packages <=? N.of_nat (length (Context.items c)))
        (SysError.mk 3 "rpm" "transaction" "action limit exceeded");
  modify_context (set_items (Context.items c ++ [item])).

(** [retain_fd]. *)
Definition retainable (file : ArtifactFile.t) : bool :=
  ArtifactFile.regular file && (ArtifactFile.uid file =? 0) && (ArtifactFile.nlink file =? 1)
  && (N.land (ArtifactFile.mode file) 18 =? 0).

(** [dnfast_transaction_reverify]. *)
Definition reverify (k : keyring) (file : ArtifactFile.t) (expected : VerifiedPackage.t) (digest : list byte) (size : N) : bool :=
  (N.of_nat (length (ArtifactFile.content file)) =? size)
  && bool_decide (hex_decode (sha256_hex (ArtifactFile.content file)) = Some digest)
  && match keyring_verify_fd k file with Ok actual => bool_decide (actual = expected) | Err _ => false end.

Definition identity_changed : SysError.t := rpm_error "rpmReadPackageFile" "retained RPM identity changed".

(** [Context::transaction_add_install_mode]; the keyring is the one the context writes with. *)
Definition transaction_add_install_mode (k : keyring) (file : ArtifactFile.t) (expected : VerifiedPackage.t)
    (digest : list byte) (size : N) (mode : TransactionInstallMode.t) : native_io unit :=
  _ ← lift (from_verified c_char_signed expected);
  c ← gets context;
  _ ← raise_if (negb (mutable c)) (invalid_argument "rpm" "transaction" "transaction is not mutable");
  _ ← raise_if (negb (retainable file)) identity_changed;
  actual ← lift (keyring_verify_fd k file);
  _ ← raise_if (negb (bool_decide (actual = expected)) || negb (reverify k file expected digest size)) identity_changed;
  append_item (TransactionItem.Install file expected digest size mode).

(** [Context::transaction_add_erase]. *)
Definition transaction_add_erase (instance : N) (digest : list byte) : native_io unit :=
  _ ← raise_if ((instance =? 0) || (u32_max <? instance)) (invalid_argument "rpm" "transaction" "invalid erase action");
  c ← gets context;
  _ ← raise_if (negb (mutable c)) (invalid_argument "rpm" "transaction" "transaction is not mutable");
  append_item (TransactionItem.Erase instance digest).

(** *** Runs *)

Definition count_run (test : bool) (c : TransactionCounts.t) : TransactionCounts.t :=
  if test
  then TransactionCounts.mk (TransactionCounts.script_stop c) (TransactionCounts.package_stop c)
         (TransactionCounts.test_run c + 1) (TransactionCounts.real_run c)
  else TransactionCounts.mk (TransactionCounts.script_stop c) (TransactionCounts.package_stop c)
         (TransactionCounts.test_run c) (TransactionCounts.real_run c + 1).

Definition count_callbacks (o : RunOutcome.t) (c : TransactionCounts.t) : TransactionCounts.t :=
  TransactionCounts.mk (TransactionCounts.script_stop c + RunOutcome.script_stops o)
    (TransactionCounts.package_stop c + RunOutcome.package_stops o)
    (TransactionCounts.test_run c) (TransactionCounts.real_run c).

(** The database after [n] steps of a run; a test changes nothing. *)
Definition progressed (test : bool) (items : list TransactionItem.t) (n : nat) (m : machine) : machine :=
  if test then m else set_database (rpm_progress items n (database m)) m.

(** [rpmtsRun]: as librpm runs, or failing or dying after any number of steps. *)
Definition rpmts_run (test : bool) (items : list TransactionItem.t) : native_io RunOutcome.t := fun w =>
  let m := fsys w in
  let after m := mk_world m (faults w) (tail (pending w)) in
  match head (pending w) with
  | Some (Fails n message) => (after (progressed test items n m), Value (RunOutcome.mk 1 [message] false 0 0))
  | Some (Stops n) => (after (progressed test items n m), Crashed)
  | Some Succeeds | None =>
      (after (progressed test items (rpm_steps items (database m)) m), Value (rpm_outcome test items (database m)))
  end.

Definition run_failed (o : RunOutcome.t) : bool :=
  negb (bool_decide (RunOutcome.result o = 0%Z)) || negb (bool_decide (RunOutcome.problems o = []))
  || RunOutcome.callback_failed o.

(** The callback that [bind_journal] sets: the journal is marked as started. *)
Definition in_journal {A} (m : io directory A) : Effects.io FaultPoint.t StateError.t machine A :=
  zoom journal_dir set_journal_dir m.

Definition start : native_io bool :=
  c ← gets context;
  if negb (Context.start_callback c) then mret false
  else
    r ← catch (in_journal (mark_started pid));
    match r with
    | Ok _ => _ ← modify_context (set_phase Started); mret true
    | Err _ => mret false
    end.

(** [attempt] with a run, and what [execute] makes of its failure. *)
Definition transaction_execute (test : bool) : native_io Z :=
  c ← gets context;
  match Context.write_keyring c, Context.items c with
  | Some k, (_ :: _) as items =>
      _ ← raise_if (negb (bool_decide (Context.phase c = Preflight)))
            (invalid_argument "rpm" "transaction" "transaction is not prepared");
      let failure := rpm_error "rpmtsRun" (if test then "preflight stage: rpmtsOrder"
                                           else "real transaction failed; reconciliation required") in
      _ ← sync;
      d ← gets database;
      match rpm_check test k items d with
      | Some found =>
          _ ← modify_context (fun c => match found with Some l => set_problems l c | None => c end);
          raise failure
      | None =>
          _ ← modify_context (set_problems []);
          started ← (if test then mret true else start);
          if started : bool then
            _ ← modify_context (fun c => set_counts (count_run test (Context.counts c)) c);
            o ← rpmts_run test items;
            _ ← modify_context (fun c => set_problems (RunOutcome.problems o)
                                           (set_counts (count_callbacks o (Context.counts c)) c));
            if run_failed o then raise failure else mret (RunOutcome.result o)
          else raise failure
      end
  | _, _ => raise (invalid_argument "rpm" "transaction" "transaction is not prepared")
  end.

Definition transaction_test : native_io Z := transaction_execute true.
Definition transaction_run : native_io Z := transaction_execute false.

(** [dnfast_transaction_verify_db]. *)
Definition transaction_verify_db : native_io unit :=
  c ← gets context;
  _ ← raise_if (negb (bool_decide (Context.phase c = Started)))
        (invalid_argument "rpm" "rpmtsVerifyDB" "real run has not started");
  _ ← sync;
  d ← gets database;
  raise_if (match Context.write_keyring c with Some _ => negb (rpm_verify_db d) | None => true end)
    (rpm_error "rpmtsVerifyDB" "rpmdb verification failed").

(** ** The executor *)

Abbreviation inventory_io := (Effects.io FaultPoint.t InventoryError.t machine).

(** [map_err(NativeError::from)?]. *)
Definition native_call {A} (m : native_io A) : inventory_io A :=
  map_raise (InventoryError.Native ∘ NativeError.from) m.

Definition domain_call {A} (r : domain A) : inventory_io A := lift (map_err InventoryError.Domain r).

(** [to_canonical_json] of an inventory. *)
Definition inventory_bytes (i : InstalledInventory.t) : domain (list byte) :=
  @to_canonical_json _ (InstalledInventory.inventory_document inventory_json) i.

Definition safe_root (root : string) : bool :=
  str_starts_with "/" root && forallb (fun part => negb (bool_decide (part = ".."))) (of_bytes <$> split_on slash [] (bytes root)).

(** *** Reading *)

Definition architecture_of (value : string) : option Architecture.t :=
  if bool_decide (value = "aarch64") then Some Architecture.Aarch64
  else if bool_decide (value = "x86_64") then Some Architecture.X86_64
  else if bool_decide (value = "noarch") then Some Architecture.Noarch
  else None.

Definition convert_package (p : InventoryPackage.t) : result InventoryError.t InstalledPackage.t :=
  arch ← ok_or (InventoryError.Architecture (InventoryPackage.arch p)) (architecture_of (InventoryPackage.arch p));
  map_err InventoryError.Domain
    (InstalledPackage.new (InventoryPackage.name p)
       (Evra.mk (InventoryPackage.epoch p) (InventoryPackage.version p) (InventoryPackage.release p) arch)
       (InventoryPackage.vendor p) (InventoryPackage.db_instance p) (InventoryPackage.install_time p)
       (InventoryPackage.immutable_header_sha256 p)).

Definition convert (raw : Inventory.t) : result InventoryError.t InstalledInventory.t :=
  packages ← mapM convert_package (Inventory.packages raw);
  map_err InventoryError.Domain (InstalledInventory.new (Inventory.backend raw) (Inventory.rpm_version raw) packages).

Definition store_cached (cookie : string) (inventory : InstalledInventory.t) : inventory_io unit :=
  modify (set_cached (Some (CachedInventory.mk cookie inventory))).

Definition finish_cached_read (read : InventoryRead.t) : inventory_io InstalledInventory.t :=
  match InventoryRead.inventory read with
  | Some raw =>
      inventory ← lift (convert raw);
      _ ← domain_call (inventory_sha256 inventory);
      _ ← store_cached (InventoryRead.cookie read) inventory;
      mret inventory
  | None =>
      cache ← gets cached;
      match cache with
      | Some cached =>
          if bool_decide (CachedInventory.cookie cached = InventoryRead.cookie read)
          then mret (CachedInventory.inventory cached) else raise InventoryError.InvalidState
      | None => raise InventoryError.InvalidState
      end
  end.

Definition read_locked : inventory_io InstalledInventory.t :=
  cache ← gets cached;
  read ← native_call (read_locked_inventory_cached (CachedInventory.cookie <$> cache));
  finish_cached_read read.

Definition read_locked_uncached : inventory_io InstalledInventory.t :=
  read ← native_call (read_locked_inventory_cached None);
  finish_cached_read read.

Definition read_locked_cookie_bound (expected_cookie : string) (expected : InstalledInventory.t) :
    inventory_io InstalledInventory.t :=
  read ← native_call (read_locked_inventory_cached (Some expected_cookie));
  if negb (bool_decide (InventoryRead.cookie read = expected_cookie))
     || match InventoryRead.inventory read with Some _ => true | None => false end
  then _ ← native_call end_inventory_write; raise InventoryError.StaleInventory
  else _ ← store_cached expected_cookie expected; mret expected.

Definition contains_name (names : list string) (p : InstalledPackage.t) : bool :=
  bset_contains (InstalledPackage.name p) (bset_of_list names).

Definition read_locked_selected (before : InstalledInventory.t) (changed_names : list string) :
    inventory_io (InstalledInventory.t * string) :=
  _ ← raise_if (bool_decide (changed_names = []) || windows2_any geb changed_names) InventoryError.InvalidState;
  read ← native_call (read_locked_inventory_selected changed_names);
  raw ← lift (ok_or InventoryError.InvalidState (InventoryRead.inventory read));
  selected ← lift (convert raw);
  _ ← raise_if (negb (bool_decide (InstalledInventory.rpmdb_backend selected = InstalledInventory.rpmdb_backend before))
               || negb (bool_decide (InstalledInventory.rpm_version selected = InstalledInventory.rpm_version before)))
        InventoryError.InvalidState;
  _ ← raise_if (existsb (fun p => negb (contains_name changed_names p)) (InstalledInventory.packages selected))
        InventoryError.InvalidState;
  let packages := base.filter (fun p => contains_name changed_names p = false) (InstalledInventory.packages before)
                  ++ InstalledInventory.packages selected in
  inventory ← domain_call (InstalledInventory.new (InstalledInventory.rpmdb_backend before)
                             (InstalledInventory.rpm_version before) packages);
  _ ← domain_call (inventory_sha256 inventory);
  _ ← store_cached (InventoryRead.cookie read) inventory;
  mret (inventory, InventoryRead.cookie read).

(** *** Beginning *)

(** The pools of the native library. *)
Definition pool_architecture (architecture : Architecture.t) : result NativeError.t Architecture.t :=
  match architecture with
  | Architecture.Noarch => Err (NativeError.UnsupportedArchitecture architecture)
  | _ => Ok architecture
  end.

(** [authority]: what waiting for the exclusive name of the executors ends in. *)
Definition begin_controlled (architecture : Architecture.t) (k : KeyringInstalled) (expected : InstalledInventory.t) (expected_cookie : option string)
    (root : string) (authority : result InventoryError.t unit) : inventory_io unit :=
  if negb (effective_uid =? 0) then raise (InventoryError.Native NativeError.PermissionDenied)
  else if negb (safe_root root) then raise InventoryError.UnsafeRoot
  else
    _ ← lift authority;
    _ ← lift (map_err InventoryError.Native (pool_architecture architecture));
    _ ← native_call sync;
    _ ← modify (set_context (Context.mk _ None [] Preflight (TransactionCounts.mk 0 0 0 0) [] false));
    began ← catch (map_raise NativeError.from (begin_inventory_write (native k) root));
    _ ← lift match began with
             | Ok _ => Ok tt
             | Err NativeError.LockTimeout => Err InventoryError.LockTimeout
             | Err NativeError.Interrupted => Err InventoryError.Interrupted
             | Err e => Err (InventoryError.Native e)
             end;
    inventory ← match expected_cookie with
                | Some cookie => read_locked_cookie_bound cookie expected
                | None => read_locked
                end;
    _ ← match expected_cookie with
        | Some _ => mret tt
        | None =>
            found ← domain_call (inventory_bytes inventory);
            wanted ← domain_call (inventory_bytes expected);
            if bool_decide (found = wanted) then mret tt
            else _ ← native_call end_inventory_write; raise InventoryError.StaleInventory
        end;
    modify (set_executor (Executor.mk inventory ExecutionState.Prepared false expected_cookie)).

Definition begin_at_root (architecture : Architecture.t) (k : KeyringInstalled) (expected : InstalledInventory.t) (root : string)
    (authority : result InventoryError.t unit) : inventory_io unit :=
  begin_controlled architecture k expected None root authority.

Definition begin_at_root_with_cookie (architecture : Architecture.t) (k : KeyringInstalled) (expected : InstalledInventory.t) (expected_cookie root : string)
    (authority : result InventoryError.t unit) : inventory_io unit :=
  if str_is_empty expected_cookie then raise InventoryError.StaleInventory
  else begin_controlled architecture k expected (Some expected_cookie) root authority.

(** *** The transaction *)

Definition in_state (ok : ExecutionState.t -> bool) : inventory_io unit :=
  ex ← gets executor;
  raise_if (negb (ok (Executor.state ex))) InventoryError.InvalidState.

Definition is_state (state : ExecutionState.t) (other : ExecutionState.t) : bool := bool_decide (other = state).

Definition bind_journal : inventory_io unit :=
  ex ← gets executor;
  _ ← raise_if (negb (bool_decide (Executor.state ex = ExecutionState.Prepared)) || Executor.journal ex)
        InventoryError.InvalidState;
  _ ← native_call (modify_context set_start_callback);
  modify (set_executor (Executor.mk (Executor.inventory ex) (Executor.state ex) true (Executor.rpmdb_cookie ex))).

(** [hex::decode] into an array of 32 bytes. *)
Definition decode_digest (value : string) : result InventoryError.t (list byte) :=
  l ← ok_or InventoryError.HeaderDigest (hex_decode value);
  if N.of_nat (length l) =? 32 then Ok l else Err InventoryError.HeaderDigest.

Definition raw_expected (v : VerifiedArtifact.t) : VerifiedPackage.t :=
  let p := VerifiedArtifact.package v in
  VerifiedPackage.mk (ExpectedPackage.name p) (display (ExpectedPackage.epoch p)) (ExpectedPackage.version p)
    (ExpectedPackage.release p) (ExpectedPackage.arch p) (ExpectedPackage.vendor p)
    (VerifiedArtifact.primary_fingerprint v) (VerifiedArtifact.signing_fingerprint v).

Definition add_install (k : KeyringInstalled) (artifact : ArtifactFile.t) (verified : VerifiedArtifact.t)
    (mode : TransactionInstallMode.t) : inventory_io unit :=
  _ ← in_state (is_state ExecutionState.Prepared);
  digest ← lift (decode_digest (VerifiedArtifact.artifact_sha256 verified));
  native_call (transaction_add_install_mode (native k) artifact (raw_expected verified) digest
                 (VerifiedArtifact.artifact_size verified) mode).

Definition add_erase (installed : InstalledPackage.t) : inventory_io unit :=
  _ ← in_state (is_state ExecutionState.Prepared);
  ex ← gets executor;
  let header := Sha256Digest.as_str (InstalledPackage.immutable_header_sha256 installed) in
  _ ← lift (map_err InventoryError.EraseIdentity
              (InstalledInventory.erase_target (Executor.inventory ex) (InstalledPackage.db_instance installed) header));
  digest ← lift (decode_digest header);
  native_call (transaction_add_erase (InstalledPackage.db_instance installed) digest).

(** [transaction_problems] gives texts that are UTF-8. *)
Definition transaction_problems : inventory_io (list string) :=
  c ← gets context;
  if forallb (fun p => valid_utf8 (bytes p)) (Context.problems c) then mret (Context.problems c)
  else raise (InventoryError.Native (NativeError.NativeFailure 7 "invalid native transaction result")).

Definition problems : inventory_io (list TransactionProblem.t) :=
  l ← transaction_problems;
  lift (mapM (fun p => ok_or InventoryError.ProblemList (TransactionProblem.new p)) l).

(** What the failure of a call before the real run is reported as. *)
Definition preflight_error {A} (e : NativeError.t) : inventory_io A :=
  l ← problems;
  if bool_decide (length l = 0%nat) then raise (InventoryError.Native e) else raise (InventoryError.TransactionPreflight l).

Definition test_checked_transaction : inventory_io Z :=
  _ ← in_state (is_state ExecutionState.Prepared);
  r ← catch (map_raise NativeError.from transaction_test);
  match r with
  | Ok result => _ ← modify (set_state ExecutionState.Tested); mret result
  | Err e => preflight_error e
  end.

Definition real_runs : inventory_io N := c ← gets context; mret (TransactionCounts.real_run (Context.counts c)).

Definition journal_error {A} (m : Effects.io FaultPoint.t StateError.t machine A) : inventory_io A :=
  map_raise (fun e => InventoryError.Journal (StateError.to_string e)) m.

Definition record_result (return_code : Z) : inventory_io unit :=
  ex ← gets executor;
  if negb (Executor.journal ex) then mret tt
  else
    c ← gets context;
    let counts := Context.counts c in
    l ← transaction_problems;
    journal_error (in_journal (record_rpm_result_with_problems pid return_code
      (CallbackSummary.mk 0 0 (TransactionCounts.script_stop counts) 0 (TransactionCounts.package_stop counts) 0 false) l)).

Definition run_checked_transaction : inventory_io Z :=
  _ ← in_state (is_state ExecutionState.Tested);
  r ← catch (map_raise NativeError.from transaction_run);
  runs ← real_runs;
  match r with
  | Ok result =>
      if negb (runs =? 1) then l ← problems; raise (InventoryError.TransactionPreflight l)
      else
        _ ← modify (set_state ExecutionState.Started);
        recorded ← attempt (record_result result);
        match recorded with
        | Ok _ => mret result
        | Err e => l ← problems; raise (InventoryError.PotentiallyStateful l (Some (InventoryError.to_string e)))
        end
  | Err e =>
      if runs =? 0 then preflight_error e
      else
        _ ← modify (set_state ExecutionState.Started);
        l ← problems;
        recorded ← attempt (record_result (-1)%Z);
        raise (InventoryError.PotentiallyStateful l
                 (match recorded with Ok _ => None | Err e => Some (InventoryError.to_string e) end))
  end.

Definition verify_transaction_db : inventory_io unit :=
  _ ← in_state (is_state ExecutionState.Started);
  native_call transaction_verify_db.

(** *** Reconciliation *)

Definition identity : Type := string * (Evra.t * string).

Definition format_identity (i : identity) : string :=
  let '(name, (evra, vendor)) := i in
  name +:+ "-" +:+ display (Evra.epoch evra) +:+ ":" +:+ Evra.version evra +:+ "-" +:+ Evra.release evra +:+ "."
  +:+ Architecture.as_rpm_arch (Evra.arch evra) +:+ " vendor=" +:+ debug_text debug_escaped vendor.

Definition format_identities (l : list identity) : string := String.concat "," (format_identity <$> l).

(** The vendor that the metadata does not know is the one that the header does not have. *)
Definition known_vendor (i : identity) : identity :=
  if bool_decide (i.2.2 = "unknown") then (i.1, (i.2.1, "")) else i.

Definition package_identity (p : InstalledPackage.t) : identity :=
  (InstalledPackage.name p, (InstalledPackage.evra p, InstalledPackage.vendor p)).

Definition actual_identities (names : list string) (i : InstalledInventory.t) : list identity :=
  sort (known_vendor <$> (package_identity <$>
    base.filter (fun p => contains_name names p = true) (InstalledInventory.packages i))).

(** What reading after a run gives: the selected packages, or everything. *)
Definition read_after (success : bool) (changed_names : option (list string)) :
    inventory_io (InstalledInventory.t * option string) :=
  match changed_names with
  | Some names =>
      ex ← gets executor;
      snapshot ← read_locked_selected (Executor.inventory ex) names;
      _ ← raise_if (bool_decide (Executor.rpmdb_cookie ex = Some snapshot.2)) InventoryError.UnchangedCookie;
      mret (snapshot.1, Some snapshot.2)
  | None =>
      inventory ← (if success then read_locked else read_locked_uncached);
      mret (inventory, None)
  end.

Definition check_identities (changed_names : option (list string)) (expected_identities : option (list identity))
    (inventory : InstalledInventory.t) : result InventoryError.t unit :=
  match changed_names, expected_identities with
  | Some names, Some expected =>
      let actual := actual_identities names inventory in
      let expected := sort expected in
      reject_if (negb (bool_decide (actual = expected)))
        (InventoryError.PostTransactionIdentity (format_identities expected) (format_identities actual))
  | _, _ => Ok tt
  end.

Definition reconcile_with_success (success : bool) (changed_names : option (list string))
    (expected_identities : option (list identity)) : inventory_io InstalledInventory.t :=
  _ ← in_state (is_state ExecutionState.Started);
  ex ← gets executor;
  before ← domain_call (inventory_bytes (Executor.inventory ex));
  read ← read_after success changed_names;
  _ ← lift (check_identities changed_names expected_identities read.1);
  after ← domain_call (inventory_bytes read.1);
  _ ← (if Executor.journal ex
       then journal_error (in_journal (reconcile pid
              (ReconcileResult.mk (sha256_hex after) success (if bool_decide (before = after) then 0 else 1))))
       else mret tt);
  _ ← modify (set_executor (Executor.mk read.1 ExecutionState.Reconciled (Executor.journal ex)
                (match read.2 with Some cookie => Some cookie | None => Executor.rpmdb_cookie ex end)));
  mret read.1.

Definition reconcile_selected (changed_names : list string) : inventory_io InstalledInventory.t :=
  reconcile_with_success true (Some changed_names) None.
Definition reconcile_selected_expected (changed_names : list string) (expected : list identity) :
    inventory_io InstalledInventory.t :=
  reconcile_with_success true (Some changed_names) (Some expected).
Definition reconcile_after_failure : inventory_io InstalledInventory.t := reconcile_with_success false None None.
End native.
