(* ===== verification/RootInputs.v ===== *)
(** * The inputs of the executor ([dnfast-executor]: root_inputs.rs, input_model.rs, error.rs)

    What the planner leaves under /var/lib/dnfast/inputs for a plan: a manifest with the files
    of the repositories and of the packages, each with its digest.  The directory is a value
    that does not change while the executor holds its lock; opening and reading are steps that
    may fail. *)
From S2P Require Import Prelude.
From S2P Require Import RustStr.
From S2P Require Import RustText.
From S2P Require Import Value.
From S2P Require Import Canonical.
From S2P Require Import Documents.
From S2P Require Import Policy.
From S2P Require Import Trust.
From S2P Require Import CacheModel.
From S2P Require Import CorePlan.
From S2P Require Import SolverModel.
From S2P Require Import SolverPlan.
From S2P Require Import Snapshot.
From S2P Require Import Effects.
From S2P Require Import StateFs.
From S2P Require Import NativeTrust.
From S2P Require Import Artifact.

#[local] Open Scope N_scope.

Module ExecutorError.
Inductive t : Type :=
  | NotRoot
  | Arguments
  | PlanPath
  | UnsafeComponent
  | UnsafePlan
  | PlanTooLarge
  | Read (message : string)
  | Staging (message : string)
  | Plan (message : string)
  | Unavailable
  | Mount (message : string)
  | MountStateful (message : string)
  | Inputs (message : string).

Definition to_string (e : t) : string :=
  match e with
  | NotRoot => "dnfast executor requires EUID 0"
  | Arguments => "executor argument contract is invalid"
  | PlanPath => "plan path is not an absolute UTF-8 path"
  | UnsafeComponent => "plan path contains an unsafe component"
  | UnsafePlan => "plan descriptor is not a secure regular file"
  | PlanTooLarge => "plan exceeds the 16 MiB limit"
  | Read m => "plan descriptor could not be read: " +:+ m
  | Staging m => "root-owned staging could not be prepared: " +:+ m
  | Plan m => "proposal is not a current canonical solver plan: " +:+ m
  | Unavailable => "transaction execution is not yet available"
  | Mount m => "private root mount could not be prepared: " +:+ m
  | MountStateful m => "root mount changed after reconciliation; transaction may be stateful: " +:+ m
  | Inputs m => "root-owned transaction inputs are invalid: " +:+ m
  end.
End ExecutorError.

Definition inputs {A} (message : string) : result ExecutorError.t A := Err (ExecutorError.Inputs message).

(** A system call of this file that fails is an invalid input. *)
#[export] Instance executor_domain : Domain FaultPoint.t ExecutorError.t :=
  {| unarmed := FaultPoint.None; io_error := ExecutorError.Inputs |}.

(** ** The manifest *)

Module InputFile.
Record t : Type := mk { name : string; sha256 : string; size : N }.
#[global] Instance input_file_eq_dec : EqDecision t.
Proof. solve_decision. Defined.
End InputFile.

Module InputOrigin.
Record t : Type := mk { repomd_url : string; sha256 : string }.
#[global] Instance input_origin_eq_dec : EqDecision t.
Proof. solve_decision. Defined.
End InputOrigin.

Module InputKey.
Record t : Type := mk { file : InputFile.t; bundle_path : string }.
#[global] Instance input_key_eq_dec : EqDecision t.
Proof. solve_decision. Defined.
End InputKey.

Module InputRepositoryTrust.
Record t : Type := mk { policy : InputFile.t; sha256 : string; keys : list InputKey.t }.
#[global] Instance input_repository_trust_eq_dec : EqDecision t.
Proof. solve_decision. Defined.
End InputRepositoryTrust.

Module InputRepository.
Record t : Type := mk {
  id : string;
  priority : Z;
  cost : Z;
  generation_sha256 : string;
  origin : InputOrigin.t;
  repomd : InputFile.t;
  primary : InputFile.t;
  filelists : InputFile.t;
  file_provides : option InputFile.t;
  group : option InputFile.t;
  modules : option InputFile.t;
  updateinfo : option InputFile.t;
  trust : InputRepositoryTrust.t
}.
#[global] Instance input_repository_eq_dec : EqDecision t.
Proof. solve_decision. Defined.
End InputRepository.

Module InputArtifact.
Record t : Type := mk {
  file : InputFile.t;
  repo_id : string;
  generation_sha256 : string;
  origin_sha256 : string;
  trust_sha256 : string;
  name : string;
  epoch : N;
  version : string;
  release : string;
  arch : string;
  vendor : string
}.
#[global] Instance input_artifact_eq_dec : EqDecision t.
Proof. solve_decision. Defined.
End InputArtifact.

Module InputManifest.
Record t : Type := mk {
  schema_version : N;
  policy : InputFile.t;
  metadata_sha256 : string;
  trust_sha256 : string;
  repositories : list InputRepository.t;
  artifacts : list InputArtifact.t
}.
#[global] Instance input_manifest_eq_dec : EqDecision t.
Proof. solve_decision. Defined.
End InputManifest.

(** The directory: its own state, and what its names lead to. *)
Inductive entry : Type := Opened (file : ArtifactFile.t) | Symlink.

Module InputsDirectory.
Record t : Type := mk { uid : N; mode : N; entries : gmap string entry }.
End InputsDirectory.

Definition MAX_INPUT_BYTES : N := 16 * 1024 * 1024.
Definition MAX_KEY_BYTES : N := 1024 * 1024.

Section inputs.
Context `{SnapshotEnv} `{CanonicalSolverPlan.PlanSerde} `{ErrnoText} `{SerdeJson InputManifest.t}.

(** ** Descriptors *)

Definition validate_digest (value : string) : result ExecutorError.t unit :=
  if (str_len value =? 64) && forallb (fun b => is_ascii_hexdigit b && negb (is_ascii_uppercase b)) (bytes value)
  then Ok tt else inputs "invalid SHA-256 digest".

Definition validate_file (file : InputFile.t) : result ExecutorError.t unit :=
  let name := InputFile.name file in
  if str_is_empty name || str_contains "/" name || has_backslash name || bool_decide (name = ".")
     || bool_decide (name = "..")
  then inputs "invalid input descriptor" else validate_digest (InputFile.sha256 file).

Definition validate_origin (repomd_url sha256 : string) : result ExecutorError.t unit :=
  _ ← validate_digest sha256;
  _ ← map_err (fun e => ExecutorError.Inputs (origin_error_to_string e)) (parse_origin url_parse repomd_url);
  if bool_decide (sha256_hex (bytes repomd_url) = sha256) then Ok tt else inputs "selected origin digest mismatch".

Definition validate_key_path (repository path : string) : result ExecutorError.t unit :=
  _ ← map_err (fun _ => ExecutorError.Inputs "key bundle path differs from trust repository")
        (validate_gpgkey_bundle_path repository path);
  Ok tt.

Definition repository_byte (b : byte) : bool := is_ascii_alphanumeric b || bool_decide (b ∈ bytes "_.-").

Definition validate_repository_id (value : string) : result ExecutorError.t unit :=
  if str_is_empty value || existsb (fun b => negb (repository_byte b)) (bytes value)
  then inputs "invalid repository descriptor" else Ok tt.

(** ** Files *)

Section files.
Context {D : Type} (directory : InputsDirectory.t) (owner : N).

Definition open_input (name : string) : Effects.io FaultPoint.t ExecutorError.t D ArtifactFile.t := sys (fun d =>
  match InputsDirectory.entries directory !! name with
  | None => Err (ExecutorError.Inputs enoent)
  | Some Symlink => Err (ExecutorError.Inputs eloop)
  | Some (Opened file) => Ok (d, file)
  end).

(** The conditions that a file and the manifest share. *)
Definition private_file (file : ArtifactFile.t) : bool :=
  ArtifactFile.regular file && (ArtifactFile.uid file =? owner) && (ArtifactFile.nlink file =? 1)
  && (N.land (ArtifactFile.mode file) 18 =? 0) && (0 <=? ArtifactFile.st_size file)%Z.

Definition validate_metadata (file : ArtifactFile.t) (expected : InputFile.t) (limit : N) :
    Effects.io FaultPoint.t ExecutorError.t D unit :=
  _ ← sync;
  raise_if (negb (private_file file) || negb (Z.to_N (ArtifactFile.st_size file) =? InputFile.size expected)
            || (limit <? InputFile.size expected)) (ExecutorError.Inputs "unsafe input file").

Definition read_input (expected : InputFile.t) (limit : N) : Effects.io FaultPoint.t ExecutorError.t D (list byte) :=
  _ ← lift (validate_file expected);
  file ← open_input (InputFile.name expected);
  _ ← validate_metadata file expected limit;
  content ← read_file file;
  _ ← raise_if (negb (N.of_nat (length content) =? InputFile.size expected)) (ExecutorError.Inputs "input size mismatch");
  _ ← raise_if (negb (bool_decide (sha256_hex content = InputFile.sha256 expected)))
        (ExecutorError.Inputs "input digest mismatch");
  mret content.

Definition check_digest (file : ArtifactFile.t) (expected : InputFile.t) : Effects.io FaultPoint.t ExecutorError.t D unit :=
  content ← read_file file;
  raise_if (negb (bool_decide (sha256_hex content = InputFile.sha256 expected)))
    (ExecutorError.Inputs "retained input digest mismatch").

Definition open_retained_as (expected : InputFile.t) : Effects.io FaultPoint.t ExecutorError.t D ArtifactFile.t :=
  file ← open_input (InputFile.name expected);
  _ ← validate_metadata file expected u64_max;
  _ ← check_digest file expected;
  _ ← sync;
  mret file.

Definition validate_retained_file (expected : InputFile.t) : Effects.io FaultPoint.t ExecutorError.t D unit :=
  file ← open_retained_as expected; check_digest file expected.

Definition read_manifest : Effects.io FaultPoint.t ExecutorError.t D (list byte) :=
  file ← open_input "manifest.json";
  _ ← sync;
  _ ← raise_if (negb (private_file file) || (MAX_INPUT_BYTES <? Z.to_N (ArtifactFile.st_size file)))
        (ExecutorError.Inputs "unsafe input manifest");
  read_file file.

Definition document {A} (r : domain A) : result ExecutorError.t A :=
  map_err (fun e => ExecutorError.Inputs (DomainError.to_string e)) r.

Definition read_policy (file : InputFile.t) : Effects.io FaultPoint.t ExecutorError.t D SolverPolicy.t :=
  content ← read_input file MAX_INPUT_BYTES;
  lift (document (@from_canonical_json _ (SolverPolicy.policy_document policy_json) content)).

Definition read_trust (file : InputFile.t) : Effects.io FaultPoint.t ExecutorError.t D RepoTrustPolicy.t :=
  content ← read_input file MAX_INPUT_BYTES;
  lift (document (@from_canonical_json _ (RepoTrustPolicy.trust_document trust_json) content)).

(** ** Repositories *)

Definition key_step (repository : string) (digest : list byte) (key : InputKey.t) :
    Effects.io FaultPoint.t ExecutorError.t D (list byte) :=
  _ ← lift (validate_key_path repository (InputKey.bundle_path key));
  _ ← lift (validate_file (InputKey.file key));
  _ ← validate_retained_file (InputKey.file key);
  content ← read_input (InputKey.file key) MAX_KEY_BYTES;
  mret (digest ++ key_frame (InputKey.bundle_path key) content).

Definition validate_key_bundle (keys : list InputKey.t) (trust : RepoTrustPolicy.t) :
    Effects.io FaultPoint.t ExecutorError.t D unit :=
  _ ← raise_if (bool_decide (keys = [])
                || windows2_any (fun a b => geb (InputKey.bundle_path a) (InputKey.bundle_path b)) keys)
        (ExecutorError.Inputs "key bundle is not strictly sorted");
  digest ← fold_io (key_step (RepoTrustPolicy.repo_id trust)) DOMAIN keys;
  raise_if (negb (bool_decide (sha256_hex digest = Sha256Digest.as_str (RepoTrustPolicy.key_bundle_sha256 trust))))
    (ExecutorError.Inputs "key bundle digest mismatch").

Definition validate_repository_order (repositories : list InputRepository.t) : result ExecutorError.t unit :=
  if windows2_any (fun a b => geb (InputRepository.id a) (InputRepository.id b)) repositories
  then inputs "repository entries are not strictly sorted" else Ok tt.

Definition extended_files (r : InputRepository.t) : list InputFile.t :=
  option_list (InputRepository.file_provides r) ++ option_list (InputRepository.group r)
  ++ option_list (InputRepository.modules r) ++ option_list (InputRepository.updateinfo r).

Definition required_files (r : InputRepository.t) : list InputFile.t :=
  [InputRepository.repomd r; InputRepository.primary r; InputRepository.filelists r].

Definition check_file (file : InputFile.t) : Effects.io FaultPoint.t ExecutorError.t D unit :=
  _ ← lift (validate_file file); validate_retained_file file.

Definition validate_repository (r : InputRepository.t) : Effects.io FaultPoint.t ExecutorError.t D unit :=
  let binding := InputRepository.trust r in
  _ ← lift (validate_repository_id (InputRepository.id r));
  _ ← lift (validate_digest (InputRepository.generation_sha256 r));
  _ ← raise_if (negb (bool_decide (InputRepository.generation_sha256 r = InputFile.sha256 (InputRepository.repomd r))))
        (ExecutorError.Inputs "repository generation differs from repomd");
  _ ← lift (validate_origin (InputOrigin.repomd_url (InputRepository.origin r)) (InputOrigin.sha256 (InputRepository.origin r)));
  _ ← for_io check_file (required_files r ++ [InputRepositoryTrust.policy binding]);
  _ ← for_io check_file (extended_files r);
  trust ← read_trust (InputRepositoryTrust.policy binding);
  digest ← lift (document (trust_sha256 trust));
  _ ← raise_if (negb (bool_decide (RepoTrustPolicy.repo_id trust = InputRepository.id r))
                || negb (bool_decide (Sha256Digest.as_str digest = InputRepositoryTrust.sha256 binding))
                || negb (bool_decide (InputFile.sha256 (InputRepositoryTrust.policy binding) = InputRepositoryTrust.sha256 binding)))
        (ExecutorError.Inputs "repository trust policy differs from repository binding");
  validate_key_bundle (InputRepositoryTrust.keys binding) trust.

Definition validate_repositories (repositories : list InputRepository.t) : Effects.io FaultPoint.t ExecutorError.t D unit :=
  _ ← lift (validate_repository_order repositories);
  for_io validate_repository repositories.
End files.

(** ** Digests *)

Definition i32_be (z : Z) : list byte := u32_be (Z.to_N (z mod 2 ^ 32)).

Definition file_frame (file : InputFile.t) : list byte := framed (InputFile.sha256 file) ++ u64_be (InputFile.size file).

Definition input_role (role : string) (file : option InputFile.t) : list byte :=
  framed role ++ match file with Some file => file_frame file | None => [] end.

Definition input_domain (schema_version : N) : list byte :=
  if schema_version =? 5 then METADATA_V5 else if schema_version =? 4 then METADATA_V4 else METADATA_V3.

Definition input_frame (schema_version : N) (r : InputRepository.t) : list byte :=
  framed (InputRepository.id r) ++ i32_be (InputRepository.priority r) ++ i32_be (InputRepository.cost r)
  ++ framed (InputRepository.generation_sha256 r) ++ framed (InputOrigin.sha256 (InputRepository.origin r))
  ++ framed (InputRepositoryTrust.sha256 (InputRepository.trust r))
  ++ concat (file_frame <$> required_files r)
  ++ (if 4 <=? schema_version then
        input_role "file-provides" (InputRepository.file_provides r) ++ input_role "group" (InputRepository.group r)
        ++ input_role "modules" (InputRepository.modules r)
      else [])
  ++ (if 5 <=? schema_version then input_role "updateinfo" (InputRepository.updateinfo r) else []).

Definition metadata_digest (repositories : list InputRepository.t) (schema_version : N) : string :=
  sha256_hex (input_domain schema_version ++ concat (input_frame schema_version <$> repositories)).

Definition trust_frame (r : InputRepository.t) : list byte :=
  framed (InputRepository.id r) ++ framed (InputRepositoryTrust.sha256 (InputRepository.trust r)).

Definition trust_digest (repositories : list InputRepository.t) : string :=
  sha256_hex (TRUST_V3 ++ concat (trust_frame <$> repositories)).

(** ** Artifacts *)

Definition artifact_key (a : InputArtifact.t) :=
  (InputArtifact.repo_id a, (InputArtifact.name a, (InputArtifact.epoch a, (InputArtifact.version a,
   (InputArtifact.release a, InputFile.sha256 (InputArtifact.file a)))))).

Definition artifact_matches (a : InputArtifact.t) (action_name : string) (action_evra : Evra.t)
    (action_repo action_vendor : string) (record : ArtifactRecord.t) : bool :=
  bool_decide (ArtifactRecord.checksum_sha256 record = InputFile.sha256 (InputArtifact.file a))
  && (ArtifactRecord.package_size record =? InputFile.size (InputArtifact.file a))
  && bool_decide (action_name = InputArtifact.name a)
  && (Evra.epoch action_evra =? InputArtifact.epoch a)
  && bool_decide (Evra.version action_evra = InputArtifact.version a)
  && bool_decide (Evra.release action_evra = InputArtifact.release a)
  && bool_decide (action_repo = InputArtifact.repo_id a)
  && bool_decide (action_vendor = InputArtifact.vendor a)
  && bool_decide (InputArtifact.arch a = Architecture.as_rpm_arch (Evra.arch action_evra)).

Definition validate_artifact_descriptor (a : InputArtifact.t) (action : ExplainedAction.t) : result ExecutorError.t unit :=
  record ← ok_or (ExecutorError.Inputs "action has no artifact") (ExplainedAction.artifact action);
  repo ← ok_or (ExecutorError.Inputs "action has no repository") (ExplainedAction.repo_id action);
  vendor ← ok_or (ExecutorError.Inputs "action has no candidate vendor") (ExplainedAction.vendor action);
  if artifact_matches a (ExplainedAction.name action) (ExplainedAction.target_evra action) repo vendor record
  then Ok tt else inputs "artifact repo or metadata provenance differs from proposal".

Definition describes (a : InputArtifact.t) (action : ExplainedAction.t) : bool := is_ok (validate_artifact_descriptor a action).

Definition validate_artifact (a : InputArtifact.t) (plan : CanonicalSolverPlan.t) : result ExecutorError.t unit :=
  if existsb (describes a) (CanonicalSolverPlan.actions plan) then Ok tt else inputs "artifact does not match proposal".

Definition validate_artifact_binding (a : InputArtifact.t) (r : InputRepository.t) : result ExecutorError.t unit :=
  if negb (bool_decide (InputArtifact.generation_sha256 a = InputRepository.generation_sha256 r))
     || negb (bool_decide (InputArtifact.origin_sha256 a = InputOrigin.sha256 (InputRepository.origin r)))
     || negb (bool_decide (InputArtifact.trust_sha256 a = InputRepositoryTrust.sha256 (InputRepository.trust r)))
  then inputs "artifact trust, origin, or generation differs from repository binding" else Ok tt.

Definition find_input (repositories : list InputRepository.t) (id : string) : option InputRepository.t :=
  head (base.filter (fun r => InputRepository.id r = id) repositories).

Definition validate_planned (artifacts : list InputArtifact.t) (action : ExplainedAction.t) : result ExecutorError.t unit :=
  if N.of_nat (length (base.filter (fun a => describes a action = true) artifacts)) =? 1
  then Ok tt else inputs "planned artifact is absent or ambiguous".

Definition has_artifact (action : ExplainedAction.t) : bool := is_some (ExplainedAction.artifact action).

(** ** The manifest *)

Definition validate_manifest_shape (m : InputManifest.t) : result ExecutorError.t unit :=
  let version := InputManifest.schema_version m in
  let repositories := InputManifest.repositories m in
  if negb ((3 <=? version) && (version <=? 5)) || bool_decide (repositories = []) then inputs "required input is absent"
  else if (version =? 3) && existsb (fun r => negb (bool_decide (extended_files r = []))) repositories
  then inputs "version three input contains extended metadata"
  else if (version =? 4) && existsb (fun r => is_some (InputRepository.updateinfo r)) repositories
  then inputs "version four input contains updateinfo metadata"
  else
    _ ← validate_repository_order repositories;
    if windows2_any (fun a b => geb (artifact_key a) (artifact_key b)) (InputManifest.artifacts m)
    then inputs "artifact entries are not strictly sorted" else Ok tt.

Definition validate_selected_repository_bindings (repositories : list InputRepository.t) (proposal : PlanEnvelope.t) :
    result ExecutorError.t unit :=
  let selected := PlanEnvelope.selected_repositories proposal in
  if negb (Nat.eqb (length repositories) (length selected))
  then inputs "staged repositories differ from selected proposal repositories"
  else for_each (fun binding =>
    r ← ok_or (ExecutorError.Inputs "selected proposal repository is not staged")
          (find_input repositories (RepositoryBinding.id binding));
    if negb (bool_decide (InputRepository.generation_sha256 r = Sha256Digest.as_str (RepositoryBinding.generation_sha256 binding)))
       || negb (bool_decide (InputOrigin.sha256 (InputRepository.origin r) = Sha256Digest.as_str (RepositoryBinding.origin_sha256 binding)))
       || negb (bool_decide (InputRepositoryTrust.sha256 (InputRepository.trust r) = Sha256Digest.as_str (RepositoryBinding.trust_sha256 binding)))
    then inputs "staged repository generation, origin, or trust differs from proposal binding" else Ok tt) selected.

Definition repository_files (repositories : list InputRepository.t) : list InputFile.t :=
  repositories ≫= (fun r => required_files r ++ extended_files r).

Definition repository_trust_files (repositories : list InputRepository.t) : list InputFile.t :=
  repositories ≫= (fun r => let trust := InputRepository.trust r in
    InputRepositoryTrust.policy trust :: (InputKey.file <$> InputRepositoryTrust.keys trust)).

Definition manifest_names (m : InputManifest.t) : list string :=
  InputFile.name <$> (InputManifest.policy m :: repository_files (InputManifest.repositories m)
    ++ repository_trust_files (InputManifest.repositories m) ++ (InputArtifact.file <$> InputManifest.artifacts m)).

(** The number of files that the manifest lists. *)
Definition descriptor_count (m : InputManifest.t) : nat :=
  (1 + length (repository_files (InputManifest.repositories m)) + length (InputManifest.repositories m)
   + sum_list ((fun r => length (InputRepositoryTrust.keys (InputRepository.trust r))) <$> InputManifest.repositories m)
   + length (InputManifest.artifacts m))%nat.

Definition validate_descriptor_uniqueness (m : InputManifest.t) : result ExecutorError.t unit :=
  if Nat.eqb (length (bset_of_list (manifest_names m))) (descriptor_count m)
  then Ok tt else inputs "duplicate input descriptor".

Section open.
Context {D : Type} (directory : InputsDirectory.t) (owner : N).

Definition validate_staged_artifact (repositories : list InputRepository.t) (plan : CanonicalSolverPlan.t) (a : InputArtifact.t) :
    Effects.io FaultPoint.t ExecutorError.t D unit :=
  _ ← check_file directory owner (InputArtifact.file a);
  r ← lift (ok_or (ExecutorError.Inputs "artifact repository is not staged") (find_input repositories (InputArtifact.repo_id a)));
  _ ← lift (validate_artifact_binding a r);
  lift (validate_artifact a plan).

Definition validate_artifacts (artifacts : list InputArtifact.t) (repositories : list InputRepository.t)
    (plan : CanonicalSolverPlan.t) : Effects.io FaultPoint.t ExecutorError.t D unit :=
  _ ← for_io (validate_staged_artifact repositories plan) artifacts;
  lift (for_each (validate_planned artifacts)
          (base.filter (fun action => has_artifact action = true) (CanonicalSolverPlan.actions plan))).

Definition validate_manifest (m : InputManifest.t) (plan : CanonicalSolverPlan.t) :
    Effects.io FaultPoint.t ExecutorError.t D unit :=
  let proposal := CanonicalSolverPlan.proposal plan in
  let repositories := InputManifest.repositories m in
  _ ← lift (validate_manifest_shape m);
  policy ← read_policy directory owner (InputManifest.policy m);
  digest ← lift (document (policy_sha256 policy));
  _ ← raise_if (negb (bool_decide (Sha256Digest.as_str digest = Sha256Digest.as_str (PlanEnvelope.policy_sha256 proposal))))
        (ExecutorError.Inputs "policy digest mismatch");
  _ ← check_file directory owner (InputManifest.policy m);
  _ ← validate_repositories directory owner repositories;
  _ ← lift (validate_selected_repository_bindings repositories proposal);
  _ ← raise_if (negb (bool_decide (metadata_digest repositories (InputManifest.schema_version m) = InputManifest.metadata_sha256 m))
                || negb (bool_decide (InputManifest.metadata_sha256 m = Sha256Digest.as_str (PlanEnvelope.metadata_sha256 proposal))))
        (ExecutorError.Inputs "metadata digest mismatch");
  _ ← raise_if (negb (bool_decide (trust_digest repositories = InputManifest.trust_sha256 m))
                || negb (bool_decide (InputManifest.trust_sha256 m = Sha256Digest.as_str (PlanEnvelope.trust_sha256 proposal))))
        (ExecutorError.Inputs "trust digest mismatch");
  _ ← validate_artifacts (InputManifest.artifacts m) repositories plan;
  lift (validate_descriptor_uniqueness m).

(** [open_under], from the opened directory on. *)
Definition open_locked (plan : CanonicalSolverPlan.t) : Effects.io FaultPoint.t ExecutorError.t D InputManifest.t :=
  _ ← sync;
  _ ← raise_if (negb (InputsDirectory.uid directory =? owner) || negb (N.land (InputsDirectory.mode directory) 18 =? 0))
        (ExecutorError.Inputs "unsafe input directory");
  _ ← sync;
  content ← read_manifest directory owner;
  manifest ← lift (map_err ExecutorError.Inputs (from_slice content));
  canonical ← lift (map_err ExecutorError.Inputs (to_vec manifest));
  _ ← raise_if (negb (bool_decide (canonical = content))) (ExecutorError.Inputs "manifest is not canonical JSON");
  _ ← validate_manifest manifest plan;
  mret manifest.
End open.

(** [RootInputs::open_under]: the directory of the plan's digest, which the open call only
    accepts when it is a directory. *)
Definition open_under {D} (parent : gmap string InputsDirectory.t) (digest : string) (plan : CanonicalSolverPlan.t) (owner : N) :
    Effects.io FaultPoint.t ExecutorError.t D (InputsDirectory.t * InputManifest.t) :=
  directory ← sys (fun d => match parent !! digest with Some v => Ok (d, v) | None => Err (ExecutorError.Inputs enoent) end);
  manifest ← open_locked directory owner plan;
  mret (directory, manifest).

(** [RootInputs::open]; opening the parent is one step. *)
Definition open {D} (parent : gmap string InputsDirectory.t) (plan : CanonicalSolverPlan.t) :
    Effects.io FaultPoint.t ExecutorError.t D (InputsDirectory.t * InputManifest.t) :=
  digest ← lift (map_err (fun e => ExecutorError.Inputs (PlanError.to_string e)) (CanonicalSolverPlan.sha256_digest sha256_hex plan));
  _ ← map_raise (fun e => match e with ExecutorError.Inputs m => ExecutorError.Staging m | e => e end) sync;
  open_under parent digest plan 0.

Definition base_arch {D} (opened : InputsDirectory.t * InputManifest.t) (owner : N) :
    Effects.io FaultPoint.t ExecutorError.t D Architecture.t :=
  policy ← read_policy opened.1 owner (InputManifest.policy opened.2);
  mret (SolverPolicy.base_arch policy).
End inputs.
