(* ===== verification/StagedInputs.v ===== *)
(** * Staged inputs ([dnfast-executor]: staged_inputs.rs, compact_inputs.rs; the records of
    [dnfast-native]: lib.rs)

    What a transaction works with: the policy, the repositories with their trust and keys, and
    the packages.  They come from the inputs directory ([stage_token_bound]) or from the
    manifest that the daemon hands to the executor ([CompactManifest]). *)
From S2P Require Import Prelude.
From S2P Require Import RustStr.
From S2P Require Import RustText.
From S2P Require Import Value.
From S2P Require Import Canonical.
From S2P Require Import Documents.
From S2P Require Import Policy.
From S2P Require Import Xml.
From S2P Require Import Metadata.
From S2P Require Import Repomd.
From S2P Require Import Primary.
From S2P Require Import Compression.
From S2P Require Import CorePlan.
From S2P Require Import SolverModel.
From S2P Require Import SolverPlan.
From S2P Require Import NativeAdapter.
From S2P Require Import CacheModel.
From S2P Require Import Snapshot.
From S2P Require Import Effects.
From S2P Require Import StateFs.
From S2P Require Import NativeTrust.
From S2P Require Import Artifact.
From S2P Require Import RootInputs.

#[local] Open Scope N_scope.

(** ** Data *)

(** [dnfast_native::Repository]. *)
Module NativeRepository.
Record t : Type := mk {
  id : string; repomd_path : string; primary_path : string; filelists_path : string; priority : Z; cost : Z
}.
#[global] Instance native_repository_eq_dec : EqDecision t.
Proof. solve_decision. Defined.
End NativeRepository.

Module StagedRepository.
Record t : Type := mk {
  repository : NativeRepository.t;
  trust : RepoTrustPolicy.t;
  keys : list VerifiedStagedKey.t;
  generation_sha256 : string;
  origin_sha256 : string;
  trust_sha256 : string
}.
End StagedRepository.

Module StagedArtifact.
Record t : Type := mk {
  file : ArtifactFile.t;
  expected : ExpectedPackage.t;
  sha256 : string;
  size : N;
  repo_id : string;
  generation_sha256 : string;
  origin_sha256 : string;
  trust_sha256 : string
}.
End StagedArtifact.

Module StagedInputs.
Record t : Type := mk {
  policy : SolverPolicy.t;
  repositories : list StagedRepository.t;
  candidates : list CandidatePackage.t;
  metadata : list (string * CompletePackage.t);
  artifacts : list StagedArtifact.t
}.
End StagedInputs.

(** ** Candidates *)

(** [policies]: whether the package of an identity is excluded. *)
Definition apply_module_artifact_policy (policies : gmap string bool) (c : CandidatePackage.t) : CandidatePackage.t :=
  match policies !! full_nevra c with
  | Some excluded =>
      CandidatePackage.mk (CandidatePackage.name c) (CandidatePackage.evra c) (CandidatePackage.vendor c)
        (CandidatePackage.repo_id c) (CandidatePackage.priority c) (CandidatePackage.cost c)
        (CandidatePackage.package_size c) (CandidatePackage.installed_size c) (CandidatePackage.checksum_sha256 c)
        (CandidatePackage.location c) excluded true
  | None => c
  end.

Definition parse_architecture (value : string) (base : Architecture.t) : result ExecutorError.t (option Architecture.t) :=
  if bool_decide (value = "aarch64") then Ok (Some Architecture.Aarch64)
  else if bool_decide (value = "x86_64") then Ok (Some Architecture.X86_64)
  else if bool_decide (value = "noarch") then Ok (Some Architecture.Noarch)
  else if bool_decide (value = "i686") && bool_decide (base = Architecture.X86_64) then Ok None
  else inputs "unsupported metadata architecture".

Definition metadata_vendor (item : CompletePackage.t) : string :=
  if str_is_empty (CompletePackage.vendor item) then "unknown" else CompletePackage.vendor item.

(** [u32::try_from] of the numbers of a repository. *)
Definition u32_of (name : string) (z : Z) : result ExecutorError.t N :=
  if (z <? 0)%Z then inputs ("negative repository " +:+ name) else Ok (Z.to_N z).

Definition candidate_of (r : InputRepository.t) (base : Architecture.t) (item : CompletePackage.t) :
    result ExecutorError.t (option CandidatePackage.t) :=
  arch ← parse_architecture (CompletePackage.arch item) base;
  match arch with
  | None => Ok None
  | Some arch =>
      epoch ← ok_or (ExecutorError.Inputs "invalid metadata epoch") (parse_unsigned u32_max (CompletePackage.epoch item));
      priority ← u32_of "priority" (InputRepository.priority r);
      cost ← u32_of "cost" (InputRepository.cost r);
      Ok (Some (CandidatePackage.mk (CompletePackage.name item)
            (Evra.mk epoch (CompletePackage.version item) (CompletePackage.release item) arch)
            (metadata_vendor item) (InputRepository.id r) priority cost
            (CompletePackage.package_size item) (CompletePackage.installed_size item)
            (CompletePackage.checksum item) (CompletePackage.location item) false false))
  end.

(** The decompressors, the tokenizer of the XML and the digest of the readers. *)
Class MetadataTools : Type := {
  zstd_new : list byte -> result string reads;
  gzip_new : list byte -> reads;
  unescape : string -> result string string;
  tokenize : reads -> list event;
  sha256_raw : list byte -> list byte
}.

Section staging.
Context `{SnapshotEnv} `{MetadataTools}.

Definition metadata_input {A} (r : result MetadataError.t A) : result ExecutorError.t A :=
  map_err (fun e => ExecutorError.Inputs (metadata_error_to_string debug_escaped e)) r.

Definition materialization {A} (role : string) (r : result MetadataError.t A) : result ExecutorError.t A :=
  map_err (fun e => ExecutorError.Inputs (role +:+ " rpm-md materialization failed: "
                                          +:+ metadata_error_to_string debug_escaped e)) r.

Definition repomd_records (content : list byte) : result MetadataError.t RepomdRecords.t :=
  parse_repomd_records unescape (tokenize [Ok content]).

Definition opened_primary (content : list byte) (record : MetadataRecord.t) : result MetadataError.t (list byte) :=
  decode_primary sha256_hex zstd_new gzip_new unescape tokenize content record.

Definition is_xml (content : list byte) : bool :=
  starts_with (bytes "<?xml") content || starts_with (bytes "<metadata") content.

(** [parse_candidates], from the bytes of the two files. *)
Definition parse_candidates (r : InputRepository.t) (repomd primary : list byte) (base : Architecture.t) :
    result ExecutorError.t (list CandidatePackage.t * list (string * CompletePackage.t)) :=
  records ← metadata_input (repomd_records repomd);
  decoded ← (if is_xml primary then Ok primary
             else metadata_input (opened_primary primary (RepomdRecords.primary records)));
  packages ← metadata_input (parse_primary_records unescape sha256_raw (tokenize [Ok decoded]));
  candidates ← mapM (candidate_of r base) packages;
  Ok (omap id candidates, pair (InputRepository.id r) <$> packages).

Definition materialize_native_metadata (repomd primary filelists : list byte) :
    result ExecutorError.t (list byte * list byte) :=
  records ← materialization "repomd" (repomd_records repomd);
  primary_xml ← materialization "primary" (opened_primary primary (RepomdRecords.primary records));
  filelists_xml ← materialization "filelists"
    (decode_record sha256_hex zstd_new gzip_new unescape tokenize filelists (RepomdRecords.filelists records));
  Ok (primary_xml, filelists_xml).

Definition listed_in (a : InputArtifact.t) (m : string * CompletePackage.t) : bool :=
  let '(repository, item) := m in
  bool_decide (repository = InputArtifact.repo_id a)
  && bool_decide (CompletePackage.name item = InputArtifact.name a)
  && bool_decide (parse_unsigned u32_max (CompletePackage.epoch item) = Some (InputArtifact.epoch a))
  && bool_decide (CompletePackage.version item = InputArtifact.version a)
  && bool_decide (CompletePackage.release item = InputArtifact.release a)
  && bool_decide (CompletePackage.arch item = InputArtifact.arch a)
  && bool_decide (CompletePackage.checksum item = InputFile.sha256 (InputArtifact.file a))
  && (CompletePackage.package_size item =? InputFile.size (InputArtifact.file a))
  && bool_decide (metadata_vendor item = InputArtifact.vendor a).

Definition validate_artifact_metadata (metadata : list (string * CompletePackage.t)) (a : InputArtifact.t) :
    result ExecutorError.t unit :=
  if existsb (listed_in a) metadata then Ok tt else inputs "artifact differs from staged rpm-md candidate".
End staging.

(** ** Staging from the inputs directory *)

Fixpoint map_io {F E D A B} (f : A -> Effects.io F E D B) (l : list A) : Effects.io F E D (list B) :=
  match l with
  | [] => mret []
  | x :: l => y ← f x; ys ← map_io f l; mret (y :: ys)
  end.

Section token.
Context `{SnapshotEnv} `{ErrnoText} {D : Type} (directory : InputsDirectory.t).

(** [open_retained]: files of the superuser. *)
Definition open_retained (file : InputFile.t) : Effects.io FaultPoint.t ExecutorError.t D ArtifactFile.t :=
  open_retained_as directory 0 file.

Definition parse_policy (file : InputFile.t) : Effects.io FaultPoint.t ExecutorError.t D SolverPolicy.t :=
  opened ← open_retained file;
  content ← read_file opened;
  lift (document (@from_canonical_json _ (SolverPolicy.policy_document policy_json) content)).

Definition parse_trust (file : InputFile.t) : Effects.io FaultPoint.t ExecutorError.t D RepoTrustPolicy.t :=
  opened ← open_retained file;
  content ← read_file opened;
  lift (document (@from_canonical_json _ (RepoTrustPolicy.trust_document trust_json) content)).

Definition stage_key (key : InputKey.t) : Effects.io FaultPoint.t ExecutorError.t D VerifiedStagedKey.t :=
  opened ← open_retained (InputKey.file key);
  certificate ← read_file opened;
  mret (VerifiedStagedKey.mk (InputKey.bundle_path key) certificate).

Definition native_repository (r : InputRepository.t) (repomd_path primary_path filelists_path : string) : NativeRepository.t :=
  NativeRepository.mk (InputRepository.id r) repomd_path primary_path filelists_path
    (InputRepository.priority r) (InputRepository.cost r).

Definition stage_repository (r : InputRepository.t) : Effects.io FaultPoint.t ExecutorError.t D StagedRepository.t :=
  trust ← parse_trust (InputRepositoryTrust.policy (InputRepository.trust r));
  keys ← map_io stage_key (InputRepositoryTrust.keys (InputRepository.trust r));
  mret (StagedRepository.mk (native_repository r "" "" "") trust keys (InputRepository.generation_sha256 r)
          (InputOrigin.sha256 (InputRepository.origin r)) (InputRepositoryTrust.sha256 (InputRepository.trust r))).

Definition expected_package (a : InputArtifact.t) : ExpectedPackage.t :=
  ExpectedPackage.mk (InputArtifact.name a) (InputArtifact.epoch a) (InputArtifact.version a)
    (InputArtifact.release a) (InputArtifact.arch a) (InputArtifact.vendor a).

Definition stage_input (a : InputArtifact.t) : Effects.io FaultPoint.t ExecutorError.t D StagedArtifact.t :=
  file ← open_retained (InputArtifact.file a);
  mret (StagedArtifact.mk file (expected_package a) (InputFile.sha256 (InputArtifact.file a))
          (InputFile.size (InputArtifact.file a)) (InputArtifact.repo_id a) (InputArtifact.generation_sha256 a)
          (InputArtifact.origin_sha256 a) (InputArtifact.trust_sha256 a)).

Definition stage_token_bound (m : InputManifest.t) : Effects.io FaultPoint.t ExecutorError.t D StagedInputs.t :=
  policy ← parse_policy (InputManifest.policy m);
  repositories ← map_io stage_repository (InputManifest.repositories m);
  artifacts ← map_io stage_input (InputManifest.artifacts m);
  mret (StagedInputs.mk policy repositories [] [] artifacts).
End token.

(** ** Compact inputs *)

Definition COMPACT_SCHEMA_VERSION : N := 1.
Definition MAX_COMPACT_BYTES : N := 16 * 1024 * 1024.
Definition MAX_COMPACT_ARTIFACTS : N := 1024.

Module CompactKey.
Record t : Type := mk { bundle_path : string; certificate_base64 : string }.
End CompactKey.

Module CompactRepository.
Record t : Type := mk {
  id : string;
  priority : Z;
  cost : Z;
  trust : RepoTrustPolicy.t;
  keys : list CompactKey.t;
  generation_sha256 : string;
  origin_sha256 : string;
  trust_sha256 : string
}.
End CompactRepository.

Module CompactArtifact.
Record t : Type := mk {
  fd_index : N;
  name : string;
  epoch : N;
  version : string;
  release : string;
  arch : string;
  vendor : string;
  sha256 : string;
  size : N;
  repo_id : string;
  generation_sha256 : string;
  origin_sha256 : string;
  trust_sha256 : string
}.
End CompactArtifact.

Module CompactManifest.
Record t : Type := mk {
  schema_version : N;
  plan_digest : string;
  planning_snapshot_sha256 : string;
  rpmdb_cookie : string;
  inventory : InstalledInventory.t;
  policy : SolverPolicy.t;
  repositories : list CompactRepository.t;
  artifacts : list CompactArtifact.t
}.
End CompactManifest.

Section compact.
Context `{SnapshotEnv} `{CanonicalSolverPlan.PlanSerde} (base64_encode : list byte -> string).

Definition plan_document {A} (r : domain A) : result ExecutorError.t A :=
  map_err (fun e => ExecutorError.Plan (DomainError.to_string e)) r.

Definition plan_digest (plan : CanonicalSolverPlan.t) : result ExecutorError.t string :=
  map_err (fun e => ExecutorError.Plan (PlanError.to_string e)) (CanonicalSolverPlan.sha256_digest sha256_hex plan).

(** *** Creating *)

Definition compact_repository (r : StagedRepository.t) : CompactRepository.t :=
  let native := StagedRepository.repository r in
  CompactRepository.mk (NativeRepository.id native) (NativeRepository.priority native) (NativeRepository.cost native)
    (StagedRepository.trust r)
    ((fun k => CompactKey.mk (VerifiedStagedKey.bundle_path k) (base64_encode (VerifiedStagedKey.certificate k)))
       <$> StagedRepository.keys r)
    (StagedRepository.generation_sha256 r) (StagedRepository.origin_sha256 r) (StagedRepository.trust_sha256 r).

Definition compact_artifact (index : nat) (a : StagedArtifact.t) : CompactArtifact.t :=
  let p := StagedArtifact.expected a in
  CompactArtifact.mk (N.of_nat index) (ExpectedPackage.name p) (ExpectedPackage.epoch p) (ExpectedPackage.version p)
    (ExpectedPackage.release p) (ExpectedPackage.arch p) (ExpectedPackage.vendor p) (StagedArtifact.sha256 a)
    (StagedArtifact.size a) (StagedArtifact.repo_id a) (StagedArtifact.generation_sha256 a)
    (StagedArtifact.origin_sha256 a) (StagedArtifact.trust_sha256 a).

(** *** Validating *)

Definition binds_repository (r : CompactRepository.t) (binding : RepositoryBinding.t) : result ExecutorError.t unit :=
  let differs := inputs "compact repository binding differs from plan" in
  if negb (bool_decide (CompactRepository.id r = RepositoryBinding.id binding))
     || negb (bool_decide (CompactRepository.generation_sha256 r = Sha256Digest.as_str (RepositoryBinding.generation_sha256 binding)))
     || negb (bool_decide (CompactRepository.origin_sha256 r = Sha256Digest.as_str (RepositoryBinding.origin_sha256 binding)))
     || negb (bool_decide (CompactRepository.trust_sha256 r = Sha256Digest.as_str (RepositoryBinding.trust_sha256 binding)))
     || negb (bool_decide (RepoTrustPolicy.repo_id (CompactRepository.trust r) = CompactRepository.id r))
  then differs
  else
    digest ← plan_document (trust_sha256 (CompactRepository.trust r));
    if negb (bool_decide (Sha256Digest.as_str digest = CompactRepository.trust_sha256 r)) then differs else Ok tt.

Definition find_compact (repositories : list CompactRepository.t) (id : string) : option CompactRepository.t :=
  head (base.filter (fun r => CompactRepository.id r = id) repositories).

Definition same_artifact (index : nat) (a : CompactArtifact.t) (action : ExplainedAction.t) (record : ArtifactRecord.t)
    (r : CompactRepository.t) : bool :=
  let evra := ExplainedAction.target_evra action in
  (CompactArtifact.fd_index a =? N.of_nat index)
  && bool_decide (CompactArtifact.name a = ExplainedAction.name action)
  && (CompactArtifact.epoch a =? Evra.epoch evra)
  && bool_decide (CompactArtifact.version a = Evra.version evra)
  && bool_decide (CompactArtifact.release a = Evra.release evra)
  && bool_decide (CompactArtifact.arch a = Architecture.as_rpm_arch (Evra.arch evra))
  && bool_decide (ExplainedAction.vendor action = Some (CompactArtifact.vendor a))
  && bool_decide (ExplainedAction.repo_id action = Some (CompactArtifact.repo_id a))
  && bool_decide (CompactArtifact.sha256 a = ArtifactRecord.checksum_sha256 record)
  && (CompactArtifact.size a =? ArtifactRecord.package_size record)
  && bool_decide (CompactArtifact.generation_sha256 a = CompactRepository.generation_sha256 r)
  && bool_decide (CompactArtifact.origin_sha256 a = CompactRepository.origin_sha256 r)
  && bool_decide (CompactArtifact.trust_sha256 a = CompactRepository.trust_sha256 r).

Definition binds_artifact (repositories : list CompactRepository.t) (p : nat * (CompactArtifact.t * ExplainedAction.t)) :
    result ExecutorError.t unit :=
  let '(index, (a, action)) := p in
  r ← ok_or (ExecutorError.Inputs "compact artifact repository is absent") (find_compact repositories (CompactArtifact.repo_id a));
  match ExplainedAction.artifact action with
  | Some record =>
      if same_artifact index a action record r then Ok tt else inputs "compact artifact binding differs from plan"
  | None => Ok tt
  end.

Definition planned_artifacts (plan : CanonicalSolverPlan.t) : list ExplainedAction.t :=
  base.filter (fun action => has_artifact action = true) (CanonicalSolverPlan.actions plan).

Definition validate_bindings (m : CompactManifest.t) (plan : CanonicalSolverPlan.t) : result ExecutorError.t unit :=
  let proposal := CanonicalSolverPlan.proposal plan in
  let bindings := PlanEnvelope.selected_repositories proposal in
  let planned := planned_artifacts plan in
  if negb (Nat.eqb (length (CompactManifest.repositories m)) (length bindings))
  then inputs "compact repository count differs from plan"
  else
    _ ← for_each (fun p => binds_repository p.1 p.2) (zip (CompactManifest.repositories m) bindings);
    if negb (Nat.eqb (length planned) (length (CompactManifest.artifacts m)))
    then inputs "compact artifact set differs from plan"
    else
      let pairs := zip (CompactManifest.artifacts m) planned in
      for_each (binds_artifact (CompactManifest.repositories m)) (zip (seq 0 (length pairs)) pairs).

(** The conditions are evaluated one after the other: only then the digests. *)
Definition validate_static (m : CompactManifest.t) (plan : CanonicalSolverPlan.t) (artifact_count : nat) :
    result ExecutorError.t unit :=
  let proposal := CanonicalSolverPlan.proposal plan in
  let differs := inputs "compact manifest binding differs from plan" in
  if negb (CompactManifest.schema_version m =? COMPACT_SCHEMA_VERSION) || str_is_empty (CompactManifest.rpmdb_cookie m)
     || (4096 <? str_len (CompactManifest.rpmdb_cookie m))
     || negb (Nat.eqb (length (CompactManifest.artifacts m)) artifact_count)
  then differs
  else
    digest ← plan_digest plan;
    if negb (bool_decide (CompactManifest.plan_digest m = digest)) then differs
    else if negb (bool_decide (CompactManifest.planning_snapshot_sha256 m
                               = Sha256Digest.as_str (PlanEnvelope.planning_snapshot_sha256 proposal))) then differs
    else
      inventory ← plan_document (inventory_sha256 (CompactManifest.inventory m));
      if negb (bool_decide (Sha256Digest.as_str inventory = Sha256Digest.as_str (PlanEnvelope.inventory_sha256 proposal)))
      then differs
      else
        policy ← plan_document (policy_sha256 (CompactManifest.policy m));
        if negb (bool_decide (Sha256Digest.as_str policy = Sha256Digest.as_str (PlanEnvelope.policy_sha256 proposal)))
        then differs
        else validate_bindings m plan.

(** [CompactExecution::create], up to the sealed files: the manifest with the files it counts. *)
Definition create (plan : CanonicalSolverPlan.t) (planning_snapshot_sha256 : string) (inventory : InstalledInventory.t)
    (rpmdb_cookie : string) (staged : StagedInputs.t) : result ExecutorError.t (CompactManifest.t * list ArtifactFile.t) :=
  if negb (Nat.eqb (length (StagedInputs.candidates staged)) 0) || negb (Nat.eqb (length (StagedInputs.metadata staged)) 0)
  then inputs "compact execution contains duplicated solver evidence"
  else if MAX_COMPACT_ARTIFACTS <? N.of_nat (length (StagedInputs.artifacts staged))
  then inputs "compact execution has too many artifacts"
  else
    let files := StagedArtifact.file <$> StagedInputs.artifacts staged in
    digest ← plan_digest plan;
    let manifest := CompactManifest.mk COMPACT_SCHEMA_VERSION digest planning_snapshot_sha256 rpmdb_cookie inventory
      (StagedInputs.policy staged) (compact_repository <$> StagedInputs.repositories staged)
      (imap compact_artifact (StagedInputs.artifacts staged)) in
    _ ← validate_static manifest plan (length files);
    Ok (manifest, files).

(** *** Against the current snapshot *)

Definition clamp_u32 (z : Z) : N := if (z <? 0)%Z then u32_max else Z.to_N z.

Definition differs_from_snapshot (current : PlanningRepository.t) (r : CompactRepository.t) : bool :=
  negb (PlanningRepository.priority current =? clamp_u32 (CompactRepository.priority r))
  || negb (PlanningRepository.cost current =? clamp_u32 (CompactRepository.cost r))
  || negb (bool_decide (PlanningRepository.generation_sha256 current = CompactRepository.generation_sha256 r))
  || negb (bool_decide (PlanningOrigin.sha256 (PlanningRepository.origin current) = CompactRepository.origin_sha256 r))
  || negb (bool_decide (PlanningRepository.trust current = CompactRepository.trust r))
  || negb (Nat.eqb (length (PlanningRepository.keys current)) (length (CompactRepository.keys r)))
  || existsb (fun '(own, other) =>
       negb (bool_decide (PlanningKey.bundle_path own = CompactKey.bundle_path other))
       || negb (bool_decide (PlanningKey.certificate_base64 own = CompactKey.certificate_base64 other)))
     (zip (PlanningRepository.keys current) (CompactRepository.keys r)).

(** [revalidate_runtime], from the snapshot that is current. *)
Definition revalidate_runtime (m : CompactManifest.t) (payload : PlanningPayload.t) : result ExecutorError.t unit :=
  if negb (bool_decide (PlanningPolicy.solver (PlanningPayload.policy payload) = CompactManifest.policy m))
     || negb (bool_decide (PlanningPayload.inventory payload = CompactManifest.inventory m))
  then inputs "compact policy or inventory differs from current snapshot"
  else for_each (fun r =>
    current ← ok_or (ExecutorError.Inputs "compact repository is absent from current snapshot")
                (find_repository (PlanningPayload.allowed_repositories payload) (CompactRepository.id r));
    if differs_from_snapshot current r then inputs "compact repository differs from current snapshot" else Ok tt)
    (CompactManifest.repositories m).

(** *** Using *)

Definition staged_key (key : CompactKey.t) : result ExecutorError.t VerifiedStagedKey.t :=
  certificate ← ok_or (ExecutorError.Inputs "compact key certificate is not base64")
                  (base64_decode (CompactKey.certificate_base64 key));
  Ok (VerifiedStagedKey.mk (CompactKey.bundle_path key) certificate).

Definition staged_repository (r : CompactRepository.t) : result ExecutorError.t StagedRepository.t :=
  keys ← mapM staged_key (CompactRepository.keys r);
  Ok (StagedRepository.mk (NativeRepository.mk (CompactRepository.id r) "" "" "" (CompactRepository.priority r) (CompactRepository.cost r))
        (CompactRepository.trust r) keys (CompactRepository.generation_sha256 r) (CompactRepository.origin_sha256 r)
        (CompactRepository.trust_sha256 r)).

Definition staged_artifact (p : CompactArtifact.t * ArtifactFile.t) : StagedArtifact.t :=
  let '(a, file) := p in
  StagedArtifact.mk file
    (ExpectedPackage.mk (CompactArtifact.name a) (CompactArtifact.epoch a) (CompactArtifact.version a)
       (CompactArtifact.release a) (CompactArtifact.arch a) (CompactArtifact.vendor a))
    (CompactArtifact.sha256 a) (CompactArtifact.size a) (CompactArtifact.repo_id a) (CompactArtifact.generation_sha256 a)
    (CompactArtifact.origin_sha256 a) (CompactArtifact.trust_sha256 a).

(** [into_transaction]: with the inventory and the cookie. *)
Definition into_transaction (m : CompactManifest.t) (files : list ArtifactFile.t) :
    result ExecutorError.t (StagedInputs.t * InstalledInventory.t * string) :=
  repositories ← mapM staged_repository (CompactManifest.repositories m);
  Ok (StagedInputs.mk (CompactManifest.policy m) repositories [] []
        (staged_artifact <$> zip (CompactManifest.artifacts m) files),
      CompactManifest.inventory m, CompactManifest.rpmdb_cookie m).
End compact.
