(* ===== verification/Execute.v ===== *)
(** * Execution of a checked plan ([dnfast-executor]: execute.rs)

    A plan on staged inputs: every package is verified with the keys of its own repository and
    once more with all of them, the transaction is tested, then run, checked and reconciled in
    the journal, and the reasons of the packages are recorded.  The machine is that of
    ExecutorInventory; checking the private root mount is a step that may fail. *)
From S2P Require Import Prelude.
From S2P Require Import RustStr.
From S2P Require Import RustText.
From S2P Require Import Value.
From S2P Require Import Canonical.
From S2P Require Import Documents.
From S2P Require Import Policy.
From S2P Require Import CorePlan.
From S2P Require Import SolverModel.
From S2P Require Import SolverPlan.
From S2P Require Import CacheModel.
From S2P Require Import Snapshot.
From S2P Require Import Effects.
From S2P Require Import StateFs.
From S2P Require Import Journal.
From S2P Require Import StateFile.
From S2P Require Import ReasonState.
From S2P Require Import NativeTrust.
From S2P Require Import Artifact.
From S2P Require Import ExecutorInventory.
From S2P Require Import RootInputs.
From S2P Require Import StagedInputs.

#[local] Open Scope N_scope.

(** ** Errors *)

Definition problem_texts (l : list TransactionProblem.t) : string := String.concat "; " (TransactionProblem.as_str <$> l).

Definition inventory_error (e : InventoryError.t) : ExecutorError.t :=
  match e with
  | InventoryError.TransactionPreflight l =>
      ExecutorError.Plan ("checked RPM transaction preflight failed: " +:+ problem_texts l)
  | InventoryError.PotentiallyStateful l journal_error =>
      ExecutorError.Plan ("real RPM transaction failed: " +:+ problem_texts l
        +:+ match journal_error with Some value => "; journal: " +:+ value | None => "" end)
  | other => ExecutorError.Plan (InventoryError.to_string other)
  end.

Definition phase (name : string) (e : InventoryError.t) : ExecutorError.t :=
  ExecutorError.Plan ("executor-phase=" +:+ name +:+ ": " +:+ ExecutorError.to_string (inventory_error e)).

Definition trust_input (e : TrustError.t) : ExecutorError.t := ExecutorError.Inputs (TrustError.to_string e).
Definition cache_error (e : ArtifactError.t) : ExecutorError.t := ExecutorError.Inputs (ArtifactError.to_string e).

(** ** Operations of a plan *)

Definition mode_of (operation : string) : option TransactionInstallMode.t :=
  if bool_decide (operation = "install") then Some TransactionInstallMode.Install
  else if bool_decide (operation = "upgrade") then Some TransactionInstallMode.Upgrade
  else if bool_decide (operation = "downgrade") then Some TransactionInstallMode.Downgrade
  else if bool_decide (operation = "reinstall") then Some TransactionInstallMode.Reinstall
  else None.

Definition installs (action : ExplainedAction.t) : bool := is_some (mode_of (ExplainedAction.operation action)).

(** [stage_identity]: the conditions under which an artifact is that of an action. *)
Definition staged_for (repository_id : string) (action : ExplainedAction.t) (a : StagedArtifact.t) : bool :=
  let p := StagedArtifact.expected a in
  let evra := ExplainedAction.target_evra action in
  bool_decide (StagedArtifact.repo_id a = repository_id)
  && bool_decide (ExpectedPackage.name p = ExplainedAction.name action)
  && (ExpectedPackage.epoch p =? Evra.epoch evra)
  && bool_decide (ExpectedPackage.version p = Evra.version evra)
  && bool_decide (ExpectedPackage.release p = Evra.release evra).

(** [iter().position]. *)
Fixpoint position_from {A} (f : A -> bool) (index : nat) (l : list A) : option (nat * A) :=
  match l with
  | [] => None
  | x :: l => if f x then Some (index, x) else position_from f (S index) l
  end.
Definition position {A} (f : A -> bool) (l : list A) : option (nat * A) := position_from f 0 l.

Definition find_staged (repositories : list StagedRepository.t) (id : string) : option StagedRepository.t :=
  head (base.filter (fun r => NativeRepository.id (StagedRepository.repository r) = id) repositories).

Definition same_binding (a : StagedArtifact.t) (r : StagedRepository.t) : bool :=
  bool_decide (StagedArtifact.generation_sha256 a = StagedRepository.generation_sha256 r)
  && bool_decide (StagedArtifact.origin_sha256 a = StagedRepository.origin_sha256 r)
  && bool_decide (StagedArtifact.trust_sha256 a = StagedRepository.trust_sha256 r).

(** ** What the transaction should leave *)

Definition changed_names (plan : CanonicalSolverPlan.t) : list string :=
  dedup (sort (ExplainedAction.name <$> CanonicalSolverPlan.actions plan)).

Definition replaced_instances (plan : CanonicalSolverPlan.t) : list N :=
  bset_of_list (omap ExplainedAction.installed_instance (CanonicalSolverPlan.actions plan)).

Definition stays (plan : CanonicalSolverPlan.t) (p : InstalledPackage.t) : bool :=
  contains_name (ExplainedAction.name <$> CanonicalSolverPlan.actions plan) p
  && negb (bset_contains (InstalledPackage.db_instance p) (replaced_instances plan)).

Definition installed_identity (action : ExplainedAction.t) : result ExecutorError.t identity :=
  vendor ← ok_or (ExecutorError.Plan "installed action has no vendor") (ExplainedAction.vendor action);
  Ok (ExplainedAction.name action, (ExplainedAction.target_evra action, vendor)).

Definition expected_incremental_identities (plan : CanonicalSolverPlan.t) (before : InstalledInventory.t) :
    result ExecutorError.t (list identity) :=
  installed ← mapM installed_identity (base.filter (fun a => installs a = true) (CanonicalSolverPlan.actions plan));
  Ok (sort (known_vendor <$>
        ((package_identity <$> base.filter (fun p => stays plan p = true) (InstalledInventory.packages before)) ++ installed))).

(** A verified package: its place among the artifacts, and how it is installed. *)
Module Verified.
Record t : Type := mk {
  index : nat; artifact : ArtifactFile.t; verified : VerifiedArtifact.t; mode : TransactionInstallMode.t
}.
End Verified.

(** ** The executor *)

Section execute.
Context `{SnapshotEnv} `{RpmLibrary} `{SerdeJson JournalEntry.t} `{SerdeJson ReasonState.t} `{ErrnoText} (pid : N).

Abbreviation executor_io := (Effects.io FaultPoint.t ExecutorError.t machine).

Definition call {A} (m : Effects.io FaultPoint.t InventoryError.t machine A) : executor_io A := map_raise inventory_error m.

#[local] Instance mount_domain : Domain FaultPoint.t ExecutorError.t :=
  {| unarmed := FaultPoint.None; io_error := ExecutorError.Mount |}.

(** [MountRoot::verify_unchanged]. *)
Definition verify_unchanged : executor_io unit := @sync _ _ mount_domain _.

(** *** Verification *)

Definition isolated_keyring (now : result string N) (r : StagedRepository.t) : result ExecutorError.t (string * KeyringInstalled) :=
  keyring ← map_err trust_input
    (from_revalidated_staged_bundle now (StagedRepository.trust r)
       (NativeRepository.id (StagedRepository.repository r)) (StagedRepository.keys r));
  Ok (NativeRepository.id (StagedRepository.repository r), keyring).

Definition find_keyring (keyrings : list (string * KeyringInstalled)) (id : string) : option KeyringInstalled :=
  snd <$> head (base.filter (fun p => p.1 = id) keyrings).

Definition verify_action (now : result string N) (staged : StagedInputs.t) (keyrings : list (string * KeyringInstalled))
    (seen : list Verified.t) (action : ExplainedAction.t) : executor_io (list Verified.t) :=
  match mode_of (ExplainedAction.operation action) with
  | None => mret seen
  | Some mode =>
      repository_id ← lift (ok_or (ExecutorError.Inputs "planned artifact has no repository") (ExplainedAction.repo_id action));
      found ← lift (ok_or (ExecutorError.Inputs "staged artifact for planned action is absent")
                      (position (staged_for repository_id action) (StagedInputs.artifacts staged)));
      let a := found.2 in
      repository ← lift (ok_or (ExecutorError.Inputs "staged artifact repository is absent")
                           (find_staged (StagedInputs.repositories staged) (StagedArtifact.repo_id a)));
      _ ← raise_if (negb (same_binding a repository)) (ExecutorError.Inputs "staged artifact repository binding differs");
      keyring ← lift (ok_or (ExecutorError.Inputs "isolated repository keyring is absent")
                        (find_keyring keyrings (StagedArtifact.repo_id a)));
      _ ← sync;
      cached ← map_raise cache_error
        (from_verified_root_file effective_uid (StagedArtifact.file a) (StagedArtifact.sha256 a) (StagedArtifact.size a));
      verified ← map_raise trust_input
        (verify_artifact keyring cached (StagedArtifact.expected a)
           (RepoTrustPolicy.signing_subkey_rule (StagedRepository.trust repository)));
      mret (seen ++ [Verified.mk found.1 cached verified mode])
  end.

Definition bundles (staged : StagedInputs.t) : list (RepoTrustPolicy.t * string * list VerifiedStagedKey.t) :=
  (fun r => (StagedRepository.trust r, NativeRepository.id (StagedRepository.repository r), StagedRepository.keys r))
    <$> StagedInputs.repositories staged.

(** *** Items *)

Definition add_action (k : KeyringInstalled) (inventory : InstalledInventory.t) (staged : StagedInputs.t)
    (verified : list Verified.t) (action : ExplainedAction.t) : executor_io unit :=
  let operation := ExplainedAction.operation action in
  if bool_decide (operation = "remove") then
    instance ← lift (ok_or (ExecutorError.Plan "remove action lacks installed instance") (ExplainedAction.installed_instance action));
    header ← lift (ok_or (ExecutorError.Plan "remove action lacks installed header") (ExplainedAction.installed_header_sha256 action));
    installed ← lift (map_err (fun e => ExecutorError.Plan (erase_error_to_string e))
                        (InstalledInventory.erase_target inventory instance header));
    call (add_erase installed)
  else if is_some (mode_of operation) then
    v ← lift (ok_or (ExecutorError.Plan "verified artifact is absent")
                (head (base.filter (fun v => ExpectedPackage.name <$> (StagedArtifact.expected <$>
                   StagedInputs.artifacts staged !! Verified.index v) = Some (ExplainedAction.name action)) verified)));
    call (add_install k (Verified.artifact v) (Verified.verified v) (Verified.mode v))
  else raise (ExecutorError.Plan "unknown planned operation").

(** *** Failures after the run *)

Definition stateful_or_preflight {A} (phase_name : string) (e : InventoryError.t) : executor_io A :=
  runs ← call real_runs;
  if runs =? 0 then raise (phase phase_name e)
  else
    database ← attempt (call verify_transaction_db);
    reconciliation ← attempt (call (reconcile_after_failure pid));
    mount ← attempt verify_unchanged;
    let text {B} (good bad : string) (r : result ExecutorError.t B) := match r with Ok _ => good | Err _ => bad end in
    raise (ExecutorError.Plan ("executor-phase=" +:+ phase_name +:+ ": transaction may be stateful; original="
      +:+ InventoryError.to_string e
      +:+ "; database=" +:+ text "verified" "failed" database
      +:+ "; reconciliation=" +:+ text "completed" "failed" reconciliation
      +:+ "; mount=" +:+ text "unchanged" "changed" mount)).

Definition checked {A} (phase_name : string) (m : Effects.io FaultPoint.t InventoryError.t machine A) : executor_io A :=
  r ← catch m;
  match r with
  | Ok a => mret a
  | Err e => stateful_or_preflight phase_name e
  end.

(** *** The transaction *)

Definition begin (architecture : Architecture.t) (k : KeyringInstalled) (inventory : InstalledInventory.t)
    (rpmdb_cookie : option string) (root : string) (authority : result InventoryError.t unit) : executor_io unit :=
  call (match rpmdb_cookie with
        | Some cookie => begin_at_root_with_cookie architecture k inventory cookie root authority
        | None => begin_at_root architecture k inventory root authority
        end).

Definition reconciliation (names : list string) (expected : option (list identity)) :
    Effects.io FaultPoint.t InventoryError.t machine InstalledInventory.t :=
  match expected with
  | Some expected => reconcile_selected_expected pid names expected
  | None => reconcile_selected pid names
  end.

(** From the test of the transaction on. *)
Definition transact (plan : CanonicalSolverPlan.t) (staged : StagedInputs.t) (inventory : InstalledInventory.t)
    (rpmdb_cookie : option string) : executor_io InstalledInventory.t :=
  _ ← map_raise (phase "test") (test_checked_transaction pid);
  _ ← verify_unchanged;
  _ ← checked "run" (run_checked_transaction pid);
  _ ← (match rpmdb_cookie with None => checked "verify-db" verify_transaction_db | Some _ => mret tt end);
  expected ← lift (match rpmdb_cookie with
                   | Some _ => Some <$> expected_incremental_identities plan inventory
                   | None => Ok None
                   end);
  _ ← checked "reconcile" (reconciliation (changed_names plan) expected);
  _ ← map_raise (fun e => ExecutorError.MountStateful (ExecutorError.to_string e)) verify_unchanged;
  after ← gets (fun m => Executor.inventory (executor m));
  _ ← map_raise (fun e => ExecutorError.Plan
        ("package reason state persistence failed after successful transaction: " +:+ StateError.to_string e))
        (zoom reasons_dir set_reasons_dir
           (record_success pid inventory after (CanonicalSolverPlan.proposal plan) (StagedInputs.policy staged)));
  mret after.

(** [run_inner]; the writing context ends with the executor, however that ends. *)
Definition run_inner (now : result string N) (authority : result InventoryError.t unit) (plan : CanonicalSolverPlan.t)
    (staged : StagedInputs.t) (inventory : InstalledInventory.t) (rpmdb_cookie : option string) (root : string) :
    executor_io InstalledInventory.t :=
  keyrings ← lift (mapM (isolated_keyring now) (StagedInputs.repositories staged));
  verified ← fold_io (verify_action now staged keyrings) [] (CanonicalSolverPlan.actions plan);
  keyring ← lift (map_err trust_input (from_revalidated_staged_bundles now (bundles staged)));
  finally (
    _ ← begin (SolverPolicy.base_arch (StagedInputs.policy staged)) keyring inventory rpmdb_cookie root authority;
    _ ← call bind_journal;
    _ ← for_io (add_action keyring inventory staged verified) (CanonicalSolverPlan.actions plan);
    transact plan staged inventory rpmdb_cookie)
    (fun m => set_context (end_write (context m)) m).

Definition run (now : result string N) (authority : result InventoryError.t unit) (plan : CanonicalSolverPlan.t)
    (staged : StagedInputs.t) (inventory : InstalledInventory.t) (root : string) : executor_io InstalledInventory.t :=
  run_inner now authority plan staged inventory None root.

Definition run_token_bound (now : result string N) (authority : result InventoryError.t unit) (plan : CanonicalSolverPlan.t)
    (staged : StagedInputs.t) (inventory : InstalledInventory.t) (rpmdb_cookie root : string) : executor_io InstalledInventory.t :=
  run_inner now authority plan staged inventory (Some rpmdb_cookie) root.
End execute.
