(* ===== verification/ExecuteFacts.v ===== *)
(** * Facts about the steps of the executor

    Which steps leave the RPM database, the journal and the items of the transaction alone, that
    the journal only grows, and what the steps that verify and add packages establish. *)
From S2P Require Import Prelude.
From S2P Require Import RustStr.
From S2P Require Import RustText.
From S2P Require Import Value.
From S2P Require Import Canonical.
From S2P Require Import Documents.
From S2P Require Import Policy.
From S2P Require Import CorePlan.
From S2P Require Import SolverModel.
From S2P Require Import SolverPlan.
From S2P Require Import CacheModel.
From S2P Require Import Snapshot.
From S2P Require Import Effects.
From S2P Require Import StateFs.
From S2P Require Import Journal.
From S2P Require Import JournalFacts.
From S2P Require Import JournalSafety.
From S2P Require Import StateFile.
From S2P Require Import ReasonState.
From S2P Require Import ReasonFacts.
From S2P Require Import NativeTrust.
From S2P Require Import Artifact.
From S2P Require Import ExecutorInventory.
From S2P Require Import RootInputs.
From S2P Require Import StagedInputs.
From S2P Require Import Execute.

#[local] Open Scope N_scope.

(** ** The journal only grows *)

Section journal.
Context `{SerdeJson JournalEntry.t} `{ErrnoText} (pid : N).

Definition grows (d d' : directory) : Prop := records d ⊆ records d'.

#[global] Instance grows_preorder : PreOrder grows.
Proof. split; [intros d; by unfold grows | intros d d' d'' H1 H2; unfold grows in *; by trans (records d')]. Qed.

Lemma transition_grows next native reconciliation : within grows (transition pid next native reconciliation).
Proof.
  apply within_triple. intros d0. unfold transition.
  eapply triple_bind.
  { eapply triple_conseq; [apply load_entries_triple | done | done | by intros d <-]. }
  intros es w [Hh Hw]. revert w Hw.
  enough (triple (eq d0) (previous ← lift (ok_or (StateError.Corrupt "journal is empty") (last es));
    _ ← raise_if (negb (legal (JournalEntry.state previous) next))
          (StateError.Transition (TransactionState.debug (JournalEntry.state previous) +:+ " -> " +:+ TransactionState.debug next));
    sequence ← lift (ok_or (StateError.Corrupt "sequence overflow") (u64_checked_add (JournalEntry.sequence previous) 1));
    publish pid (JournalEntry.mk 1 (JournalEntry.transaction_id previous) (JournalEntry.plan_sha256 previous) sequence next
      native reconciliation)) (fun _ => grows d0) (grows d0)) by done.
  assert (HR : forall d, d0 = d -> grows d0 d) by (by intros d <-).
  apply triple_lift_bind; [done |]. intros e He%ok_or_ok.
  eapply triple_seq; [by apply triple_raise_if |]. intros [] _.
  apply triple_lift_bind; [done |]. intros sequence Hs%ok_or_ok.
  unfold u64_checked_add in Hs. destruct (_ <=? _); simplify_eq.
  unfold publish. apply triple_lift_bind; [done |]. intros [] _. apply triple_lift_bind; [done |]. intros t _.
  eapply triple_seq; [by apply triple_raise_if |]. intros [] _.
  assert (Hfree : nodes d0 !! record_name (JournalEntry.sequence e + 1) = None).
  { apply (holds_fresh es); [done |]. rewrite (last_sequence es e); [lia | apply Hh | done]. }
  assert (Hpub : forall d, published (JournalEntry.sequence e + 1) t d0 d -> grows d0 d).
  { intros d [Hr _]. unfold grows. rewrite Hr. apply insert_subseteq.
    by rewrite records_lookup by apply record_name_json. }
  eapply triple_conseq; [by apply write_record_triple | done | by intros [] d Hd; apply Hpub |].
  intros d [[Hr _]|Hd]; [unfold grows; by rewrite Hr | by apply Hpub].
Qed.

(** The record of the start that follows [es]. *)
Definition start_recorded (es : list JournalEntry.t) (d : directory) : Prop :=
  exists e t, next_entry es JournalState.Started None None = Some e /\ text_of e t /\
    records d !! record_name (JournalEntry.sequence e) = Some (File t true).

Lemma grows_start es d d' : grows d d' -> start_recorded es d -> start_recorded es d'.
Proof. intros Hg (e & t & He & Ht & Hr). exists e, t. split; [done |]. split; [done |]. by eapply lookup_weaken. Qed.
End journal.

Section started.
Context `{SerdeJson JournalEntry.t} `{!SerdeJsonLaws JournalEntry.t (fun _ => True)} `{ErrnoText} (pid : N).
Context `{!JsonText JournalEntry.t JournalEntry.tree}.

Lemma grown_start es d : grown es JournalState.Started None None d -> start_recorded es d.
Proof.
  intros (e & He & _ & Hh). destruct (holds_record _ _ Hh e) as (t & Ht & Hr); [apply elem_of_app; right; by left | by exists e, t].
Qed.

Lemma mark_started_triple es d0 :
  holds es d0 -> triple (eq d0) (mark_started pid) (fun _ => grown es JournalState.Started None None) (fun _ => True).
Proof using JsonText0 SerdeJsonLaws0.
  intros Hh. eapply triple_conseq; [apply (transition_triple pid es d0) | done | done | done]; [done |].
  intros e He Hv. eapply fits_readable, next_fits; [done | apply no_payload_fits | exact He].
Qed.
End started.

(** ** Steps of the machine *)

Section machine.
Context `{SnapshotEnv} `{RpmLibrary} `{SerdeJson JournalEntry.t} `{ErrnoText} (pid : N).

(** The database as it was, and at most more records in the journal. *)
Definition onward (m m' : machine) : Prop := database m' = database m /\ grows (journal_dir m) (journal_dir m').

(** What the transaction and its journal depend on. *)
Definition view (m : machine) := (database m, journal_dir m, reasons_dir m, Context.items (context m), Executor.journal (executor m)).
Definition at_rest (m m' : machine) : Prop := view m' = view m.

#[global] Instance onward_preorder : PreOrder onward.
Proof.
  split; [intros m; split; [done | reflexivity] |]. intros m m' m'' [E1 H1'] [E2 H2'].
  split; [congruence | by trans (journal_dir m')].
Qed.
#[global] Instance at_rest_preorder : PreOrder at_rest.
Proof. unfold at_rest. split; [intros m; reflexivity | intros m m' m''; congruence]. Qed.

Lemma at_rest_onward m m' : at_rest m m' -> onward m m'.
Proof. intros E. injection E as Hd Hj _ _ _. split; [done |]. by rewrite Hj. Qed.

Lemma onward_modify (f : Context.t -> Context.t) m : onward m (set_context (f (context m)) m).
Proof. split; [done |]. reflexivity. Qed.
End machine.

(** Each step of an operation in its turn. *)
Ltac walk :=
  repeat match goal with
  | |- within _ (_ ≫= _) => apply within_bind; [apply _ | | intros ?]
  | |- within _ (mret _) => apply within_ret
  | |- within _ (lift _) => apply within_lift
  | |- within _ (raise _) => apply within_raise
  | |- within _ (raise_if _ _) => apply within_raise_if
  | |- within _ (gets _) => apply within_gets
  | |- within _ sync => apply within_sync
  | |- within _ (modify _) => apply within_modify; intros ?
  | |- within _ (map_raise _ _) => apply within_map_raise
  | |- within _ (catch _) => apply within_catch
  | |- within _ (attempt _) => apply within_attempt
  | |- within _ (let '_ := ?x in _) => destruct x
  | |- within _ (if ?b then _ else _) => destruct b
  | |- within _ (match ?x with _ => _ end) => destruct x
  | |- PreOrder _ => apply _
  end.

Create HintDb within.
Ltac steps := walk; try done; eauto with within.

Section rest.
Context `{SnapshotEnv} `{RpmLibrary} `{SerdeJson JournalEntry.t} `{ErrnoText} (pid : N).

Lemma modify_context_rest f : (forall c, Context.items (f c) = Context.items c) -> within at_rest (modify_context f).
Proof. intros Hf. apply within_modify. intros m. unfold at_rest, view. simpl. by rewrite Hf. Qed.
Hint Extern 1 (within at_rest (modify_context _)) => (apply modify_context_rest; intros []; repeat case_match; done) : within.

Lemma transaction_problems_rest : within at_rest transaction_problems.
Proof. unfold transaction_problems. steps. Qed.
Hint Resolve transaction_problems_rest : within.

Lemma problems_rest : within at_rest problems.
Proof. unfold problems. steps. Qed.
Hint Resolve problems_rest : within.

Lemma preflight_error_rest {A} e : within at_rest (preflight_error (A:=A) e).
Proof. unfold preflight_error. steps. Qed.
Hint Resolve preflight_error_rest : within.

Lemma in_state_rest ok : within at_rest (in_state ok).
Proof. unfold in_state. steps. Qed.
Hint Resolve in_state_rest : within.

Lemma set_state_rest s : within (F:=FaultPoint.t) (E:=InventoryError.t) at_rest (modify (set_state s)).
Proof. by apply within_modify. Qed.
Hint Resolve set_state_rest : within.

(** A test changes nothing that lasts. *)
Lemma test_run_rest items : within at_rest (rpmts_run true items).
Proof. intros w. unfold rpmts_run. by destruct (head (pending w)) as [[]|]. Qed.
Hint Resolve test_run_rest : within.

Lemma transaction_test_rest : within at_rest (transaction_test pid).
Proof. unfold transaction_test, transaction_execute. steps. Qed.
Hint Resolve transaction_test_rest : within.

Lemma test_checked_transaction_rest : within at_rest (test_checked_transaction pid).
Proof. unfold test_checked_transaction. steps. Qed.

Lemma verify_transaction_db_rest : within at_rest verify_transaction_db.
Proof. unfold verify_transaction_db, native_call, transaction_verify_db. steps. Qed.

Lemma take_cookie_rest : within at_rest take_cookie.
Proof. unfold take_cookie. steps. Qed.
Hint Resolve take_cookie_rest : within.

Lemma active_rest message : within at_rest (active message).
Proof. unfold active. steps. Qed.
Hint Resolve active_rest : within.

Lemma finish_cached_read_rest read : within at_rest (finish_cached_read read).
Proof. unfold finish_cached_read, domain_call, store_cached. steps. Qed.
Hint Resolve finish_cached_read_rest : within.

Lemma read_cached_rest cookie : within at_rest (read_locked_inventory_cached cookie).
Proof. unfold read_locked_inventory_cached. steps. Qed.
Hint Resolve read_cached_rest : within.

Lemma read_selected_rest names : within at_rest (read_locked_inventory_selected names).
Proof. unfold read_locked_inventory_selected. steps. Qed.
Hint Resolve read_selected_rest : within.

Lemma read_locked_rest : within at_rest read_locked.
Proof. unfold read_locked, native_call. steps. Qed.
Hint Resolve read_locked_rest : within.

Lemma read_locked_uncached_rest : within at_rest read_locked_uncached.
Proof. unfold read_locked_uncached, native_call. steps. Qed.
Hint Resolve read_locked_uncached_rest : within.

Lemma read_locked_selected_rest before names : within at_rest (read_locked_selected before names).
Proof. unfold read_locked_selected, native_call, domain_call, store_cached. steps. Qed.
Hint Resolve read_locked_selected_rest : within.

Lemma read_after_rest success names : within at_rest (read_after success names).
Proof. unfold read_after. steps. Qed.

(** ** Steps that only go onward *)

Lemma in_journal_onward {A} (m : io directory A) : within grows m -> within onward (in_journal m).
Proof. apply within_zoom. by intros m' d Hd. Qed.

Lemma record_result_onward code : within onward (record_result pid code).
Proof.
  unfold record_result, journal_error. steps.
  - eapply within_mono; [apply at_rest_onward | apply transaction_problems_rest].
  - apply in_journal_onward, transition_grows.
Qed.

Lemma reconcile_with_success_onward success names expected :
  within onward (reconcile_with_success pid success names expected).
Proof.
  unfold reconcile_with_success, domain_call, journal_error. steps.
  - eapply within_mono; [apply at_rest_onward | apply in_state_rest].
  - eapply within_mono; [apply at_rest_onward | apply read_after_rest].
  - apply in_journal_onward. unfold reconcile. walk. apply transition_grows.
Qed.
End rest.

(** ** Reading *)

Section values.
Context {F E D : Type} `{Domain F E}.

Lemma triple_exists {X A} (m : Effects.io F E D A) (P : X -> D -> Prop) Q (R : D -> Prop) :
  (forall x, Effects.triple (P x) m Q R) -> Effects.triple (fun d => exists x, P x d) m Q R.
Proof. intros Hm w [x Hx]. by apply (Hm x). Qed.

Lemma triple_pure {A} (m : Effects.io F E D A) (G : Prop) (P : D -> Prop) Q (R : D -> Prop) :
  (G -> Effects.triple P m Q R) -> Effects.triple (fun d => G /\ P d) m Q R.
Proof. intros Hm w [HG Hw]. by apply Hm. Qed.

Lemma read_to_end_value rest : forall seen (w w' : Effects.world F D) content,
  read_to_end seen rest w = (w', Value content) -> content = seen ++ concat rest.
Proof.
  induction rest as [|block rest IH]; intros seen w w' content; cbn [read_to_end]; unfold mbind, io_mbind;
    destruct (sync w) as [w1 [[]| |]]; try done.
  - intros [= _ ->]. by rewrite app_nil_r.
  - intros ->%IH. by rewrite <- app_assoc.
Qed.

Lemma read_file_value file (w w' : Effects.world F D) content :
  read_file file w = (w', Value content) -> content = ArtifactFile.content file.
Proof. intros ->%read_to_end_value. apply NativeTrustFacts.concat_blocks. Qed.

Lemma read_to_end_same rest : forall seen, within eq (read_to_end (D:=D) seen rest).
Proof. induction rest; intros seen; cbn [read_to_end]; steps. Qed.

Lemma read_file_same file : within eq (read_file (D:=D) file).
Proof. apply read_to_end_same. Qed.
End values.

Section artifacts.
Context `{SnapshotEnv} `{KeyLibrary} {D : Type}.

Lemma read_at_loop_same size rest : forall offset seen, within eq (read_at_loop (D:=D) size offset seen rest).
Proof. induction rest; intros offset seen; cbn [read_at_loop]; steps. Qed.

Lemma verify_artifact_same k file expected rule : within eq (verify_artifact (D:=D) k file expected rule).
Proof. unfold verify_artifact. steps. apply read_at_loop_same. Qed.

Lemma verify_artifact_triple k file expected rule (P : D -> Prop) :
  Effects.triple P (verify_artifact k file expected rule)
    (fun v d => NativeTrustFacts.vouched k file rule expected v /\ P d) P.
Proof.
  apply triple_yields; [apply verify_artifact_same |].
  intros w w' v Hv. by apply (NativeTrustFacts.verify_artifact_vouched k file expected rule w w').
Qed.

(** The file that was asked for. *)
Definition identified (euid : N) (file : ArtifactFile.t) (digest : string) (size : N) : Prop :=
  trusted_artifact euid file size = true /\ sha256_hex (ArtifactFile.content file) = digest.

Lemma verify_identity_triple euid file digest size (P : D -> Prop) :
  Effects.triple P (from_verified_root_file euid file digest size)
    (fun f d => (f = file /\ identified euid file digest size) /\ P d) P.
Proof.
  unfold from_verified_root_file, verify_identity. eapply triple_bind; [by apply triple_sync |]. intros [].
  eapply triple_seq; [by apply triple_raise_if |]. intros [] Ht%negb_false_iff.
  eapply triple_seq; [apply (triple_yields _ (fun c => c = ArtifactFile.content file)); [apply read_file_same | intros w w' c; apply read_file_value] |].
  intros content ->. eapply triple_seq; [by apply triple_raise_if |]. intros [] Hd%negb_false_iff%bool_decide_eq_true.
  eapply triple_bind; [by apply triple_sync |]. intros []. by apply triple_done.
Qed.
End artifacts.

(** ** Planned packages *)

Section planned.
Context `{SnapshotEnv} `{RpmLibrary}.
Context (now : result string N) (staged : StagedInputs.t) (inventory : InstalledInventory.t).

(** The package of an action: staged under the identity and the repository of the action, with
    the bytes of its digest, and signed by a key of that repository. *)
Definition verified_for (action : ExplainedAction.t) (v : Verified.t) : Prop :=
  exists id a r k,
    ExplainedAction.repo_id action = Some id /\ mode_of (ExplainedAction.operation action) = Some (Verified.mode v) /\
    StagedInputs.artifacts staged !! Verified.index v = Some a /\ staged_for id action a = true /\
    r ∈ StagedInputs.repositories staged /\ NativeRepository.id (StagedRepository.repository r) = id /\
    same_binding a r = true /\
    from_revalidated_staged_bundle now (StagedRepository.trust r) id (StagedRepository.keys r) = Ok k /\
    Verified.artifact v = StagedArtifact.file a /\
    identified effective_uid (StagedArtifact.file a) (StagedArtifact.sha256 a) (StagedArtifact.size a) /\
    NativeTrustFacts.vouched k (StagedArtifact.file a) (RepoTrustPolicy.signing_subkey_rule (StagedRepository.trust r))
      (StagedArtifact.expected a) (Verified.verified v).

(** The item of an action: the verified package, or the erasure of the planned instance. *)
Definition planned_item (action : ExplainedAction.t) (item : TransactionItem.t) : Prop :=
  (exists v digest, verified_for action v /\
     hex_decode (VerifiedArtifact.artifact_sha256 (Verified.verified v)) = Some digest /\
     item = TransactionItem.Install (Verified.artifact v) (raw_expected (Verified.verified v)) digest
              (VerifiedArtifact.artifact_size (Verified.verified v)) (Verified.mode v)) \/
  (exists instance header digest p,
     ExplainedAction.operation action = "remove" /\ ExplainedAction.installed_instance action = Some instance /\
     ExplainedAction.installed_header_sha256 action = Some header /\
     InstalledInventory.erase_target inventory instance header = Ok p /\
     hex_decode header = Some digest /\ item = TransactionItem.Erase instance digest).

Lemma position_from_lookup {A} (f : A -> bool) (l : list A) : forall i p,
  position_from f i l = Some p -> exists j, p.1 = (i + j)%nat /\ l !! j = Some p.2 /\ f p.2 = true.
Proof.
  induction l as [|x l IH]; intros i p; simpl; [done |]. destruct (f x) eqn:Hx.
  - intros [= <-]. exists 0%nat. split; [simpl; lia | done].
  - intros (j & Hj & Hl & Hf)%IH. exists (S j). split; [lia | done].
Qed.

Lemma find_staged_ok l id r : find_staged l id = Some r -> r ∈ l /\ NativeRepository.id (StagedRepository.repository r) = id.
Proof. intros Hr%head_Some_elem_of. apply list_elem_of_filter in Hr. tauto. Qed.

(** The keyring of an identifier is made of the keys of the repository it finds. *)
Lemma find_keyring_ok l ks id k r :
  mapM (isolated_keyring now) l = Ok ks -> find_keyring ks id = Some k -> find_staged l id = Some r ->
  from_revalidated_staged_bundle now (StagedRepository.trust r) id (StagedRepository.keys r) = Ok k.
Proof.
  intros Hks%mapM_ok. induction Hks as [|x p l ks Hp _ IH]; [done |]. unfold isolated_keyring in Hp.
  apply bind_ok in Hp as (k0 & Hk0%map_err_ok & [= <-]). unfold find_keyring, find_staged in *. rewrite !filter_cons. simpl.
  destruct (decide _) as [<-|Hne]; [intros [= <-] [= <-]; exact Hk0 | exact IH].
Qed.

(** *** Verifying *)

Lemma verify_action_triple keyrings seen action (P : machine -> Prop) :
  mapM (isolated_keyring now) (StagedInputs.repositories staged) = Ok keyrings ->
  Effects.triple P (verify_action now staged keyrings seen action)
    (fun s m => (installs action = false /\ s = seen \/
                 installs action = true /\ exists v, s = seen ++ [v] /\ verified_for action v) /\ P m) P.
Proof.
  intros Hks. unfold verify_action, installs. destruct (mode_of _) as [mode|] eqn:Hmode;
    [| apply triple_done; intros m Hm; split; [by left | done]].
  apply triple_lift_bind; [done |]. intros id Hid%ok_or_ok. apply triple_lift_bind; [done |]. intros [i a] Ha%ok_or_ok.
  apply position_from_lookup in Ha as (j & Hj & Hl & Hfor). simpl in *.
  apply triple_lift_bind; [done |]. intros r Hr%ok_or_ok. eapply triple_seq; [by apply triple_raise_if |].
  intros [] Hsame%negb_false_iff. apply triple_lift_bind; [done |]. intros k Hk%ok_or_ok.
  eapply triple_bind; [by apply triple_sync |]. intros [].
  eapply triple_seq; [by apply triple_map_raise, verify_identity_triple |]. intros f [-> Hf].
  eapply triple_seq; [by apply triple_map_raise, verify_artifact_triple |]. intros v Hv.
  apply triple_done. intros m Hm. split; [| done]. right. split; [done |]. eexists. split; [reflexivity |].
  assert (Hrepo : StagedArtifact.repo_id a = id).
  { unfold staged_for in Hfor. by bool_inv. }
  rewrite Hrepo in *. pose proof (find_keyring_ok _ _ _ _ _ Hks Hk Hr) as Hring.
  apply find_staged_ok in Hr as [Hin Hrid]. exists id, a, r, k. simpl. rewrite Hj. by split_and!.
Qed.

Lemma verify_triple keyrings actions (P : machine -> Prop) :
  mapM (isolated_keyring now) (StagedInputs.repositories staged) = Ok keyrings ->
  Effects.triple P (fold_io (verify_action now staged keyrings) [] actions)
    (fun s m => Forall2 verified_for (base.filter (fun a => installs a = true) actions) s /\ P m) P.
Proof.
  intros Hks. set (I := fun seen s (m : machine) =>
    Forall2 verified_for (base.filter (fun a => installs a = true) seen) s /\ P m).
  eapply triple_conseq; [apply (triple_fold _ I P) with (seen := []) (rest := actions) | | done | done].
  - by intros ??? [_ ?].
  - intros seen action rest s _ w [Hs Hw]. revert w Hw.
    eapply triple_conseq; [by apply (verify_action_triple keyrings s action P) | done | | done].
    intros s' m [Hs' Hm]. split; [| done]. rewrite filter_app, filter_cons, filter_nil.
    destruct Hs' as [[Hi ->]|(Hi & v & -> & Hv)]; rewrite Hi; simpl.
    + by rewrite app_nil_r.
    + apply Forall2_app; [done | by constructor].
  - intros m Hm. split; [by constructor | done].
Qed.

(** *** Adding *)

(** A machine with the database [db], the journal [j] and the items of the transaction. *)
Definition prepared (db : rpmdb) (j r : directory) (flag : bool) (l : list TransactionItem.t) (m : machine) : Prop :=
  view m = (db, j, r, l, flag).

Lemma triple_rest {E A B} (m : Effects.io FaultPoint.t E machine A) (k : A -> Effects.io FaultPoint.t E machine B)
    db j r flag l Q (R : machine -> Prop) :
  within at_rest m -> (forall m, prepared db j r flag l m -> R m) ->
  (forall a, Effects.triple (prepared db j r flag l) (k a) Q R) -> Effects.triple (prepared db j r flag l) (m ≫= k) Q R.
Proof.
  intros Hm HR Hk. eapply triple_bind; [| exact Hk].
  eapply triple_conseq; [apply (triple_within at_rest m (prepared db j r flag l)) | done | done | done]; [done |].
  unfold at_rest, prepared. congruence.
Qed.

Lemma append_item_triple item db j r flag l (R : machine -> Prop) :
  (forall m, prepared db j r flag l m -> R m) ->
  Effects.triple (prepared db j r flag l) (append_item item) (fun _ => prepared db j r flag (l ++ [item])) R.
Proof.
  intros HR. unfold append_item. eapply triple_bind; [apply triple_gets |]. intros c w [-> Hw]. revert w Hw.
  intros w Hw. set (n := N.of_nat _). unfold mbind, io_mbind, raise_if, lift, reject_if.
  destruct (max_packages <=? n); [by apply HR |]. simpl. unfold prepared, view in *. simpl.
  injection Hw as -> -> -> Hl ->. by rewrite Hl.
Qed.

Lemma add_install_triple k file v mode db j r flag l (R : machine -> Prop) :
  (forall m, prepared db j r flag l m -> R m) ->
  Effects.triple (prepared db j r flag l) (add_install k file v mode)
    (fun _ m => exists digest, hex_decode (VerifiedArtifact.artifact_sha256 v) = Some digest /\
       prepared db j r flag (l ++ [TransactionItem.Install file (raw_expected v) digest (VerifiedArtifact.artifact_size v) mode]) m) R.
Proof.
  intros HR. unfold add_install. apply triple_rest; [apply in_state_rest | done |]. intros [].
  apply triple_lift_bind; [done |]. intros digest Hd. unfold decode_digest in Hd.
  apply bind_ok in Hd as (d & Hhex%ok_or_ok & Hd). destruct (_ =? 32); [injection Hd as -> | done].
  apply triple_map_raise. unfold transaction_add_install_mode.
  apply triple_rest; [steps | done |]. intros _. apply triple_rest; [steps | done |]. intros c.
  apply triple_rest; [steps | done |]. intros []. apply triple_rest; [steps | done |]. intros [].
  apply triple_rest; [steps | done |]. intros actual. apply triple_rest; [steps | done |]. intros [].
  eapply triple_conseq; [by apply append_item_triple | done | | done]. intros [] m Hm. by exists digest.
Qed.

Lemma add_erase_triple p db j r flag l (R : machine -> Prop) :
  (forall m, prepared db j r flag l m -> R m) ->
  Effects.triple (prepared db j r flag l) (add_erase p)
    (fun _ m => exists digest, hex_decode (Sha256Digest.as_str (InstalledPackage.immutable_header_sha256 p)) = Some digest /\
       prepared db j r flag (l ++ [TransactionItem.Erase (InstalledPackage.db_instance p) digest]) m) R.
Proof.
  intros HR. unfold add_erase. apply triple_rest; [apply in_state_rest | done |]. intros [].
  apply triple_rest; [steps | done |]. intros ex. apply triple_rest; [steps | done |]. intros _.
  apply triple_lift_bind; [done |]. intros digest Hd. unfold decode_digest in Hd.
  apply bind_ok in Hd as (d & Hhex%ok_or_ok & Hd). destruct (_ =? 32); [injection Hd as -> | done].
  apply triple_map_raise. unfold transaction_add_erase.
  apply triple_rest; [steps | done |]. intros []. apply triple_rest; [steps | done |]. intros c.
  apply triple_rest; [steps | done |]. intros [].
  eapply triple_conseq; [by apply append_item_triple | done | | done]. intros [] m Hm. by exists digest.
Qed.

Lemma erase_target_identity i instance header p :
  InstalledInventory.erase_target i instance header = Ok p ->
  InstalledPackage.db_instance p = instance /\ Sha256Digest.as_str (InstalledPackage.immutable_header_sha256 p) = header.
Proof.
  unfold InstalledInventory.erase_target. destruct (base.filter _ _) as [|q [|]] eqn:Hf; [done | | done].
  case_bool_decide; [| done]. intros [= ->]. split; [| done].
  assert (Hin : p ∈ base.filter (fun p => InstalledPackage.db_instance p = instance) (InstalledInventory.packages i)) by (rewrite Hf; by left).
  by apply list_elem_of_filter in Hin as [? _].
Qed.

(** The packages of a plan are found by their names, which are distinct. *)
Lemma verified_by_name actions vs action v :
  NoDup (ExplainedAction.name <$> actions) -> action ∈ actions ->
  Forall2 verified_for (base.filter (fun a => installs a = true) actions) vs -> v ∈ vs ->
  ExpectedPackage.name <$> (StagedArtifact.expected <$> StagedInputs.artifacts staged !! Verified.index v)
    = Some (ExplainedAction.name action) ->
  verified_for action v.
Proof.
  intros Hnd Ha Hvs Hv Hname. destruct (elem_of_Forall2_r _ _ _ _ Hvs Hv) as (b & Hb & Hfor).
  apply list_elem_of_filter in Hb as [_ Hb].
  assert (Hsame : ExplainedAction.name b = ExplainedAction.name action).
  { destruct Hfor as (id & a & r & k & _ & _ & Hl & Hs & _). rewrite Hl in Hname. injection Hname as <-.
    unfold staged_for in Hs. by bool_inv. }
  by rewrite (fmap_NoDup_inj ExplainedAction.name actions action b Hnd Ha Hb (eq_sym Hsame)).
Qed.

Lemma add_action_triple k vs actions action seen db j r flag (R : machine -> Prop) :
  NoDup (ExplainedAction.name <$> actions) -> action ∈ actions ->
  Forall2 verified_for (base.filter (fun a => installs a = true) actions) vs ->
  (forall l m, prepared db j r flag l m -> R m) ->
  Effects.triple (fun m => exists l, Forall2 planned_item seen l /\ prepared db j r flag l m)
    (add_action k inventory staged vs action)
    (fun _ m => exists l, Forall2 planned_item (seen ++ [action]) l /\ prepared db j r flag l m) R.
Proof.
  intros Hnd Hin Hvs HR. apply triple_exists. intros l. apply triple_pure. intros Hl.
  enough (Effects.triple (prepared db j r flag l) (add_action k inventory staged vs action)
    (fun _ m => exists item, planned_item action item /\ prepared db j r flag (l ++ [item]) m) R) as Ht.
  { eapply triple_conseq; [exact Ht | done | | done]. intros [] m (item & Hi & Hm). exists (l ++ [item]).
    split; [| done]. apply Forall2_app; [done | by constructor]. }
  specialize (HR l). unfold add_action. case_bool_decide as Hop.
  - apply triple_lift_bind; [done |]. intros instance Hinst%ok_or_ok. apply triple_lift_bind; [done |]. intros header Hh%ok_or_ok.
    apply triple_lift_bind; [done |]. intros p Hp%map_err_ok. destruct (erase_target_identity _ _ _ _ Hp) as [Hi Hd].
    eapply triple_conseq; [by apply triple_map_raise, add_erase_triple | done | | done].
    intros [] m (digest & Hdig & Hm). rewrite Hd in Hdig. rewrite Hi in Hm. eexists. split; [| exact Hm]. right.
    by exists instance, header, digest, p.
  - destruct (is_some _); [| intros w Hw; by apply HR].
    apply triple_lift_bind; [done |]. intros v Hv%ok_or_ok%head_Some_elem_of%list_elem_of_filter. destruct Hv as [Hname Hv].
    eapply triple_conseq; [by apply triple_map_raise, add_install_triple | done | | done].
    intros [] m (digest & Hdig & Hm). eexists. split; [| exact Hm]. left. exists v, digest. split; [| done].
    by apply (verified_by_name actions vs).
Qed.

Lemma add_actions_triple k vs actions db j r flag (R : machine -> Prop) :
  NoDup (ExplainedAction.name <$> actions) ->
  Forall2 verified_for (base.filter (fun a => installs a = true) actions) vs ->
  (forall l m, prepared db j r flag l m -> R m) ->
  Effects.triple (prepared db j r flag []) (for_io (add_action k inventory staged vs) actions)
    (fun _ m => exists l, Forall2 planned_item actions l /\ prepared db j r flag l m) R.
Proof.
  intros Hnd Hvs HR. set (I := fun seen m => exists l, Forall2 planned_item seen l /\ prepared db j r flag l m).
  eapply triple_conseq; [apply (triple_for_each _ I R) with (rest := actions) (seen := []) | | done | done].
  - intros seen m (l & _ & Hm). by apply (HR l).
  - intros seen x rest Hx. apply (add_action_triple k vs actions); try done. simpl in Hx. rewrite Hx. set_solver.
  - intros m Hm. exists []. split; [constructor | done].
Qed.
End planned.
