(* ===== verification/RootInputsFacts.v ===== *)
(** * The inputs that the executor accepts

    What [RootInputs::open] has checked when it returns a manifest: the files it names, the
    repositories with their trust, the packages and their place in the plan; and that the
    repositories are the ones of the snapshot the plan was made from. *)
From S2P Require Import Prelude.
From S2P Require Import RustStr.
From S2P Require Import RustText.
From S2P Require Import Value.
From S2P Require Import Canonical.
From S2P Require Import Documents.
From S2P Require Import Policy.
From S2P Require Import Trust.
From S2P Require Import CacheModel.
From S2P Require Import CorePlan.
From S2P Require Import SolverModel.
From S2P Require Import SolverPlan.
From S2P Require Import Snapshot.
From S2P Require Import SnapshotFacts.
From S2P Require Import Effects.
From S2P Require Import StateFs.
From S2P Require Import NativeTrust.
From S2P Require Import Artifact.
From S2P Require Import ExecuteFacts.
From S2P Require Import RootInputs.

#[local] Open Scope N_scope.

Lemma yields_sys `{Domain F E} {D A} (f : D -> result E (D * A)) (G : A -> Prop) :
  (forall d d' a, f d = Ok (d', a) -> G a) -> yields (sys f) G.
Proof.
  intros HG w w' a. unfold sys. destruct (head (pending w)) as [[]|]; [| done | done |];
    (destruct (f (fsys w)) as [[d b]|] eqn:Hf; [| done]); intros [= _ <-]; by eapply HG.
Qed.

Section inputs.
Context `{SnapshotEnv} `{CanonicalSolverPlan.PlanSerde} `{ErrnoText} `{SerdeJson InputManifest.t}.

Section files.
Context {D : Type} (directory : InputsDirectory.t) (owner : N).

(** ** Files *)

(** The directory has the file of a descriptor: private to its owner and with its bytes. *)
Definition present_as (f : ArtifactFile.t) (e : InputFile.t) : Prop :=
  InputsDirectory.entries directory !! InputFile.name e = Some (Opened f) /\ private_file owner f = true /\
  Z.to_N (ArtifactFile.st_size f) = InputFile.size e /\ sha256_hex (ArtifactFile.content f) = InputFile.sha256 e.

Definition present (e : InputFile.t) : Prop := exists f, present_as f e.

Lemma open_input_yields name :
  yields (D:=D) (open_input directory name) (fun f => InputsDirectory.entries directory !! name = Some (Opened f)).
Proof.
  apply yields_sys. intros d d' f. by destruct (InputsDirectory.entries directory !! name) as [[]|]; intros [= _ ->].
Qed.

Lemma validate_metadata_yields f e limit :
  yields (D:=D) (validate_metadata owner f e limit)
    (fun _ => private_file owner f = true /\ Z.to_N (ArtifactFile.st_size f) = InputFile.size e /\ InputFile.size e <= limit).
Proof.
  apply yields_then. intros []. eapply yields_mono; [apply yields_raise_if |]. intros [].
  intros [[Hp%negb_false_iff Hs%negb_false_iff%N.eqb_eq]%orb_false_iff Hl%N.ltb_ge]%orb_false_iff. done.
Qed.

Lemma read_file_yields f : yields (D:=D) (E:=ExecutorError.t) (F:=FaultPoint.t) (read_file f) (fun c => c = ArtifactFile.content f).
Proof. intros w w' c. apply read_file_value. Qed.

Lemma read_input_yields e limit :
  yields (D:=D) (read_input directory owner e limit)
    (fun c => exists f, present_as f e /\ c = ArtifactFile.content f /\ N.of_nat (length c) = InputFile.size e).
Proof.
  apply yields_lift_bind. intros [] _. eapply yields_bind; [apply open_input_yields |]. intros f Hf.
  eapply yields_bind; [apply validate_metadata_yields |]. intros [] (Hp & Hs & _).
  eapply yields_bind; [apply read_file_yields |]. intros c ->.
  apply yields_unless. intros Hlen%negb_false_iff%N.eqb_eq. apply yields_unless. intros Hd%negb_false_iff%bool_decide_eq_true.
  apply yields_ret. exists f. by split_and!.
Qed.

Lemma check_digest_yields f e :
  yields (D:=D) (check_digest f e) (fun _ => sha256_hex (ArtifactFile.content f) = InputFile.sha256 e).
Proof.
  eapply yields_bind; [apply read_file_yields |]. intros c ->. eapply yields_mono; [apply yields_raise_if |].
  by intros [] Hd%negb_false_iff%bool_decide_eq_true.
Qed.

Lemma open_retained_yields e : yields (D:=D) (open_retained_as directory owner e) (fun f => present_as f e).
Proof.
  eapply yields_bind; [apply open_input_yields |]. intros f Hf.
  eapply yields_bind; [apply validate_metadata_yields |]. intros [] (Hp & Hs & _).
  eapply yields_bind; [apply check_digest_yields |]. intros [] Hd. apply yields_then. intros []. by apply yields_ret.
Qed.

Lemma check_file_yields e : yields (D:=D) (check_file directory owner e) (fun _ => present e).
Proof.
  apply yields_lift_bind. intros [] _. eapply yields_bind; [apply open_retained_yields |]. intros f Hf.
  eapply yields_mono; [apply yields_any |]. intros ? _. by exists f.
Qed.

Lemma read_policy_yields e :
  yields (D:=D) (read_policy directory owner e) (fun p => exists f, present_as f e /\
    @from_canonical_json _ (SolverPolicy.policy_document policy_json) (ArtifactFile.content f) = Ok p).
Proof.
  eapply yields_bind; [apply read_input_yields |]. intros c (f & Hf & -> & _).
  apply yields_lift. intros p Hp%map_err_ok. by exists f.
Qed.

Lemma read_trust_yields e :
  yields (D:=D) (read_trust directory owner e) (fun p => exists f, present_as f e /\
    @from_canonical_json _ (RepoTrustPolicy.trust_document trust_json) (ArtifactFile.content f) = Ok p).
Proof.
  eapply yields_bind; [apply read_input_yields |]. intros c (f & Hf & -> & _).
  apply yields_lift. intros p Hp%map_err_ok. by exists f.
Qed.

(** ** Keys *)

(** A key of the bundle and its certificate. *)
Definition key_read (repository : string) (key : InputKey.t) (certificate : list byte) : Prop :=
  validate_key_path repository (InputKey.bundle_path key) = Ok tt /\
  exists f, present_as f (InputKey.file key) /\ certificate = ArtifactFile.content f.

Definition bundle_bytes (keys : list InputKey.t) (certificates : list (list byte)) : list byte :=
  DOMAIN ++ concat (zip_with (fun k c => key_frame (InputKey.bundle_path k) c) keys certificates).

(** The keys of a repository are the ones its trust policy names. *)
Definition keys_bound (keys : list InputKey.t) (trust : RepoTrustPolicy.t) : Prop :=
  keys <> [] /\ StronglySorted clt (InputKey.bundle_path <$> keys) /\
  exists certificates, Forall2 (key_read (RepoTrustPolicy.repo_id trust)) keys certificates /\
    sha256_hex (bundle_bytes keys certificates) = Sha256Digest.as_str (RepoTrustPolicy.key_bundle_sha256 trust).

Lemma key_step_yields repository keys :
  yields (D:=D) (fold_io (key_step directory owner repository) DOMAIN keys)
    (fun digest => exists certificates, Forall2 (key_read repository) keys certificates /\ digest = bundle_bytes keys certificates).
Proof.
  eapply yields_mono; [apply (yields_fold _ (fun seen digest => exists certificates,
    Forall2 (key_read repository) seen certificates /\ digest = bundle_bytes seen certificates) keys) with (seen := []) |].
  - intros seen digest key (certificates & Hseen & ->) _. apply yields_lift_bind. intros [] Hpath.
    apply yields_lift_bind. intros [] _. apply yields_then. intros [].
    eapply yields_bind; [apply read_input_yields |]. intros c (f & Hf & -> & _). apply yields_ret.
    exists (certificates ++ [ArtifactFile.content f]). split.
    + apply Forall2_app; [done |]. constructor; [| done]. split; [done |]. by exists f.
    + unfold bundle_bytes. rewrite zip_with_app by (by eapply Forall2_length). rewrite concat_app, <- app_assoc.
      cbn [zip_with concat]. by rewrite app_nil_r.
  - exists []. split; [done |]. unfold bundle_bytes. cbn [zip_with concat]. by rewrite app_nil_r.
  - done.
Qed.

Lemma validate_key_bundle_yields keys trust :
  yields (D:=D) (validate_key_bundle directory owner keys trust) (fun _ => keys_bound keys trust).
Proof.
  apply yields_unless. intros [Hne%bool_decide_eq_false Hsort]%orb_false_iff.
  eapply yields_bind; [apply key_step_yields |]. intros digest (certificates & Hk & ->).
  eapply yields_mono; [apply yields_raise_if |]. intros [] Hd%negb_false_iff%bool_decide_eq_true.
  split; [done |]. split; [by apply SnapshotSafety.sorted_keys |]. by exists certificates.
Qed.

(** ** Repositories *)

Record repository_bound (r : InputRepository.t) : Prop := {
  bound_generation : InputRepository.generation_sha256 r = InputFile.sha256 (InputRepository.repomd r);
  bound_origin : sha256_hex (bytes (InputOrigin.repomd_url (InputRepository.origin r))) = InputOrigin.sha256 (InputRepository.origin r);
  bound_files : Forall present (required_files r ++ extended_files r);
  bound_trust : exists f trust digest,
    present_as f (InputRepositoryTrust.policy (InputRepository.trust r)) /\
    @from_canonical_json _ (RepoTrustPolicy.trust_document trust_json) (ArtifactFile.content f) = Ok trust /\
    RepoTrustPolicy.repo_id trust = InputRepository.id r /\
    trust_sha256 trust = Ok digest /\ Sha256Digest.as_str digest = InputRepositoryTrust.sha256 (InputRepository.trust r) /\
    keys_bound (InputRepositoryTrust.keys (InputRepository.trust r)) trust
}.

Lemma validate_origin_ok url digest : validate_origin url digest = Ok tt -> sha256_hex (bytes url) = digest.
Proof.
  unfold validate_origin. intros (u & _ & (o & _ & Hd)%bind_ok)%bind_ok. by case_bool_decide.
Qed.

Lemma validate_repository_yields r :
  yields (D:=D) (validate_repository directory owner r) (fun _ => repository_bound r).
Proof.
  apply yields_lift_bind. intros [] _. apply yields_lift_bind. intros [] _.
  apply yields_unless. intros Hgen%negb_false_iff%bool_decide_eq_true.
  apply yields_lift_bind. intros [] Horigin%validate_origin_ok.
  eapply yields_bind; [apply (yields_for _ present); intros e _; apply check_file_yields |]. intros [] Hreq.
  eapply yields_bind; [apply (yields_for _ present); intros e _; apply check_file_yields |]. intros [] Hext.
  eapply yields_bind; [apply read_trust_yields |]. intros trust (f & Hf & Htrust).
  apply yields_lift_bind. intros digest Hdigest%map_err_ok.
  apply yields_unless. intros [[Hid%negb_false_iff%bool_decide_eq_true Hsha%negb_false_iff%bool_decide_eq_true]%orb_false_iff _]%orb_false_iff.
  eapply yields_mono; [apply validate_key_bundle_yields |]. intros [] Hkeys.
  apply Forall_app in Hreq as [Hreq _]. split; [done | done | by apply Forall_app | by exists f, trust, digest].
Qed.

Lemma validate_repositories_yields repositories :
  yields (D:=D) (validate_repositories directory owner repositories)
    (fun _ => StronglySorted clt (InputRepository.id <$> repositories) /\ Forall repository_bound repositories).
Proof.
  apply yields_lift_bind. intros [] Hsort. eapply yields_mono; [apply (yields_for _ repository_bound); intros r _; apply validate_repository_yields |].
  intros [] Hall. split; [| done]. apply SnapshotSafety.sorted_keys. unfold validate_repository_order in Hsort. by destruct (windows2_any _ _).
Qed.

(** ** Packages *)

(** A package of the manifest: one that an action of the plan names, of a staged repository. *)
Definition artifact_bound (repositories : list InputRepository.t) (plan : CanonicalSolverPlan.t) (a : InputArtifact.t) : Prop :=
  present (InputArtifact.file a) /\
  (exists r, r ∈ repositories /\ InputRepository.id r = InputArtifact.repo_id a /\ validate_artifact_binding a r = Ok tt) /\
  exists action, action ∈ CanonicalSolverPlan.actions plan /\ describes a action = true.

Lemma validate_staged_yields repositories plan a :
  yields (D:=D) (validate_staged_artifact directory owner repositories plan a) (fun _ => artifact_bound repositories plan a).
Proof.
  eapply yields_bind; [apply check_file_yields |]. intros [] Hf. apply yields_lift_bind. intros r Hr%ok_or_ok.
  apply yields_lift_bind. intros [] Hb. apply yields_lift. intros [] Ha. split; [done |]. split.
  - exists r. unfold find_input in Hr. apply head_Some_elem_of, list_elem_of_filter in Hr as [Hid Hr]. by split_and!.
  - unfold validate_artifact in Ha. destruct (existsb _ _) eqn:Hx; [| done]. apply existsb_true in Hx as (action & Hin & Hd). by exists action.
Qed.

Definition planned_once (artifacts : list InputArtifact.t) (action : ExplainedAction.t) : Prop :=
  exists a, a ∈ artifacts /\ describes a action = true /\
    forall b, b ∈ artifacts -> describes b action = true -> b = a.

Lemma validate_planned_ok artifacts action : validate_planned artifacts action = Ok tt -> planned_once artifacts action.
Proof.
  unfold validate_planned. destruct (_ =? 1) eqn:Hn; [| done]. intros _. apply N.eqb_eq in Hn.
  destruct (base.filter _ artifacts) as [|a [|]] eqn:Hl; [done | | simpl in Hn; lia].
  assert (Hall : forall b, b ∈ artifacts -> describes b action = true -> b = a).
  { intros b Hb Hd. apply list_elem_of_singleton. rewrite <- Hl. by apply list_elem_of_filter. }
  assert (Ha : a ∈ base.filter (fun a => describes a action = true) artifacts) by (rewrite Hl; left).
  apply list_elem_of_filter in Ha as [Hd Ha]. by exists a.
Qed.

Lemma validate_artifacts_yields artifacts repositories plan :
  yields (D:=D) (validate_artifacts directory owner artifacts repositories plan)
    (fun _ => Forall (artifact_bound repositories plan) artifacts /\
       forall action, action ∈ CanonicalSolverPlan.actions plan -> has_artifact action = true -> planned_once artifacts action).
Proof.
  eapply yields_bind; [apply (yields_for _ (artifact_bound repositories plan)); intros a _; apply validate_staged_yields |].
  intros [] Hall. apply yields_lift. intros [] Hp%for_each_ok. split; [done |]. intros action Hin Ha.
  apply validate_planned_ok. rewrite Forall_forall in Hp. apply Hp. by apply list_elem_of_filter.
Qed.

(** ** The manifest *)

(** The selected repository of a plan is staged with its generation, origin and trust. *)
Definition binding_staged (repositories : list InputRepository.t) (binding : RepositoryBinding.t) : Prop :=
  exists r, r ∈ repositories /\ InputRepository.id r = RepositoryBinding.id binding /\
    InputRepository.generation_sha256 r = Sha256Digest.as_str (RepositoryBinding.generation_sha256 binding) /\
    InputOrigin.sha256 (InputRepository.origin r) = Sha256Digest.as_str (RepositoryBinding.origin_sha256 binding) /\
    InputRepositoryTrust.sha256 (InputRepository.trust r) = Sha256Digest.as_str (RepositoryBinding.trust_sha256 binding).

Lemma validate_bindings_ok repositories proposal :
  validate_selected_repository_bindings repositories proposal = Ok tt ->
  length repositories = length (PlanEnvelope.selected_repositories proposal) /\
  Forall (binding_staged repositories) (PlanEnvelope.selected_repositories proposal).
Proof.
  unfold validate_selected_repository_bindings. destruct (Nat.eqb _ _) eqn:Hlen; [| done]. apply Nat.eqb_eq in Hlen.
  intros Hall%for_each_ok. split; [done |]. eapply Forall_impl; [exact Hall |]. cbv beta. intros binding (r & Hr%ok_or_ok & Hb)%bind_ok.
  unfold find_input in Hr. apply head_Some_elem_of, list_elem_of_filter in Hr as [Hid Hr].
  destruct (_ || _) eqn:Hd; [done |]. apply orb_false_iff in Hd as [[Hg%negb_false_iff%bool_decide_eq_true Ho%negb_false_iff%bool_decide_eq_true]%orb_false_iff Ht%negb_false_iff%bool_decide_eq_true].
  by exists r.
Qed.

(** All the files a manifest names. *)
Definition manifest_files (m : InputManifest.t) : list InputFile.t :=
  InputManifest.policy m :: repository_files (InputManifest.repositories m)
    ++ repository_trust_files (InputManifest.repositories m) ++ (InputArtifact.file <$> InputManifest.artifacts m).

Lemma length_manifest_names m : length (manifest_names m) = descriptor_count m.
Proof.
  unfold manifest_names, descriptor_count. rewrite length_fmap. cbn [length]. rewrite !length_app, length_fmap.
  assert (E : length (repository_trust_files (InputManifest.repositories m)) =
    (length (InputManifest.repositories m) + sum_list ((fun r => length (InputRepositoryTrust.keys (InputRepository.trust r))) <$>
       InputManifest.repositories m))%nat); [| lia].
  unfold repository_trust_files. induction (InputManifest.repositories m) as [|r l IH]; [done |].
  cbn [mbind list_bind length]. rewrite length_app. cbn [length]. rewrite length_fmap, IH. csimpl. lia.
Qed.

Lemma uniqueness_ok m : validate_descriptor_uniqueness m = Ok tt -> NoDup (manifest_names m).
Proof.
  unfold validate_descriptor_uniqueness. destruct (Nat.eqb _ _) eqn:Hn; [| done]. intros _. apply Nat.eqb_eq in Hn.
  apply length_bset_of_list_NoDup. by rewrite length_manifest_names.
Qed.

Record inputs_bound (plan : CanonicalSolverPlan.t) (m : InputManifest.t) : Prop := {
  in_directory : InputsDirectory.uid directory = owner /\ N.land (InputsDirectory.mode directory) 18 = 0;
  in_files : Forall present (manifest_files m);
  in_names : NoDup (manifest_names m);
  in_policy : exists f policy digest, present_as f (InputManifest.policy m) /\
    @from_canonical_json _ (SolverPolicy.policy_document policy_json) (ArtifactFile.content f) = Ok policy /\
    policy_sha256 policy = Ok digest /\
    Sha256Digest.as_str digest = Sha256Digest.as_str (PlanEnvelope.policy_sha256 (CanonicalSolverPlan.proposal plan));
  in_version : 3 <= InputManifest.schema_version m <= 5;
  in_order : StronglySorted clt (InputRepository.id <$> InputManifest.repositories m);
  in_repositories : Forall repository_bound (InputManifest.repositories m);
  in_bindings : length (InputManifest.repositories m) = length (PlanEnvelope.selected_repositories (CanonicalSolverPlan.proposal plan)) /\
    Forall (binding_staged (InputManifest.repositories m)) (PlanEnvelope.selected_repositories (CanonicalSolverPlan.proposal plan));
  in_metadata : metadata_digest (InputManifest.repositories m) (InputManifest.schema_version m) =
    Sha256Digest.as_str (PlanEnvelope.metadata_sha256 (CanonicalSolverPlan.proposal plan));
  in_trust : trust_digest (InputManifest.repositories m) =
    Sha256Digest.as_str (PlanEnvelope.trust_sha256 (CanonicalSolverPlan.proposal plan));
  in_artifacts : Forall (artifact_bound (InputManifest.repositories m) plan) (InputManifest.artifacts m);
  in_planned : forall action, action ∈ CanonicalSolverPlan.actions plan -> has_artifact action = true ->
    planned_once (InputManifest.artifacts m) action
}.

Lemma shape_version m : validate_manifest_shape m = Ok tt -> 3 <= InputManifest.schema_version m <= 5.
Proof.
  unfold validate_manifest_shape. destruct (_ && _) eqn:Hv; [| done]. intros _.
  apply andb_prop in Hv as [Ha%N.leb_le Hb%N.leb_le]. done.
Qed.

Lemma present_manifest_files plan m :
  present (InputManifest.policy m) -> Forall repository_bound (InputManifest.repositories m) ->
  Forall (artifact_bound (InputManifest.repositories m) plan) (InputManifest.artifacts m) -> Forall present (manifest_files m).
Proof.
  intros Hp Hr Ha. unfold manifest_files. rewrite Forall_cons, !Forall_app, Forall_fmap. split_and!; [done | | |].
  - unfold repository_files. apply Forall_bind. eapply Forall_impl; [exact Hr |]. by intros r [].
  - unfold repository_trust_files. apply Forall_bind. eapply Forall_impl; [exact Hr |]. intros r [_ _ _ Ht].
    destruct Ht as (f & trust & digest & Hf & _ & _ & _ & _ & _ & _ & certificates & Hk & _). constructor; [by exists f |].
    apply Forall_fmap. eapply Forall2_Forall_l; [exact Hk |]. apply Forall_forall. intros c _ k (_ & g & Hg & _). by exists g.
  - eapply Forall_impl; [exact Ha |]. by intros a [].
Qed.

Lemma validate_manifest_yields m plan :
  InputsDirectory.uid directory = owner -> N.land (InputsDirectory.mode directory) 18 = 0 ->
  yields (D:=D) (validate_manifest directory owner m plan) (fun _ => inputs_bound plan m).
Proof.
  intros Huid Hmode. apply yields_lift_bind. intros [] Hshape%shape_version.
  eapply yields_bind; [apply read_policy_yields |]. intros policy (f & Hf & Hpolicy).
  apply yields_lift_bind. intros digest Hdigest%map_err_ok. apply yields_unless. intros Hpd%negb_false_iff%bool_decide_eq_true.
  eapply yields_bind; [apply check_file_yields |]. intros [] Hp.
  eapply yields_bind; [apply validate_repositories_yields |]. intros [] [Hsort Hrepos].
  apply yields_lift_bind. intros [] Hbindings%validate_bindings_ok.
  apply yields_unless. intros [Hmd%negb_false_iff%bool_decide_eq_true Hmp%negb_false_iff%bool_decide_eq_true]%orb_false_iff.
  apply yields_unless. intros [Htd%negb_false_iff%bool_decide_eq_true Htp%negb_false_iff%bool_decide_eq_true]%orb_false_iff.
  eapply yields_bind; [apply validate_artifacts_yields |]. intros [] [Harts Hplanned].
  apply yields_lift. intros [] Hnames%uniqueness_ok.
  split; [done | by eapply present_manifest_files | done | by exists f, policy, digest | done | done | done | done | congruence | congruence | done | done].
Qed.

Lemma open_locked_yields plan : yields (D:=D) (open_locked directory owner plan) (inputs_bound plan).
Proof.
  apply yields_then. intros []. apply yields_unless.
  intros [Hu%negb_false_iff%N.eqb_eq Hm%negb_false_iff%N.eqb_eq]%orb_false_iff.
  apply yields_then. intros []. apply yields_then. intros content. apply yields_lift_bind. intros m _.
  apply yields_lift_bind. intros canonical _. apply yields_unless. intros _.
  eapply yields_bind; [by apply validate_manifest_yields |]. intros [] Hb. by apply yields_ret.
Qed.
End files.

(** ** The repositories of the snapshot *)

(** The schema of snapshots that has the digest of a schema of manifests. *)
Definition snapshot_version (version : N) : N :=
  if version =? 5 then SNAPSHOT_SCHEMA_VERSION else if version =? 4 then EXTENDED_SNAPSHOT_SCHEMA_VERSION
  else LEGACY_SNAPSHOT_SCHEMA_VERSION.

Definition payload_of (e : InputFile.t) : PlanningBytes.t := PlanningBytes.mk (InputFile.sha256 e) (InputFile.size e) "".

(** A staged repository as the planner knew it, as far as digests tell. *)
Definition planning_of (r : InputRepository.t) : PlanningRepository.t * Sha256Digest.t :=
  (PlanningRepository.mk (InputRepository.id r) (Z.to_N (InputRepository.priority r mod 2 ^ 32))
     (Z.to_N (InputRepository.cost r mod 2 ^ 32)) (InputRepository.generation_sha256 r)
     (PlanningOrigin.mk (InputOrigin.repomd_url (InputRepository.origin r)) (InputOrigin.sha256 (InputRepository.origin r)))
     (payload_of (InputRepository.repomd r)) (payload_of (InputRepository.primary r)) (payload_of (InputRepository.filelists r))
     (payload_of <$> InputRepository.file_provides r) (payload_of <$> InputRepository.group r)
     (payload_of <$> InputRepository.modules r) (payload_of <$> InputRepository.updateinfo r)
     (RepoTrustPolicy.mk 1 "" (Sha256Digest.mk "") [] SigningSubkeyRule.PrimaryOnly 0 false) [] RepomdAuthentication.TransportOnly,
   Sha256Digest.mk (InputRepositoryTrust.sha256 (InputRepository.trust r))).

Lemma input_role_frame role e : input_role role e = role_frame role (payload_of <$> e).
Proof. by destruct e. Qed.

Lemma input_frame_planning version r : 3 <= version <= 5 ->
  input_frame version r = repository_frame (snapshot_version version) (planning_of r).1 (planning_of r).2.
Proof.
  intros Hv. assert (version = 3 \/ version = 4 \/ version = 5) as [->|[->| ->]] by lia;
    unfold input_frame, repository_frame, planning_of, required_files, required_payloads, i32_be; cbn [fst snd];
    rewrite !input_role_frame; reflexivity.
Qed.

Lemma input_domain_planning version : 3 <= version <= 5 -> input_domain version = metadata_domain (snapshot_version version).
Proof. intros Hv. by assert (version = 3 \/ version = 4 \/ version = 5) as [->|[->| ->]] by lia. Qed.

(** The text that the executor takes the metadata digest of. *)
Definition input_text (version : N) (repositories : list InputRepository.t) : list byte :=
  input_domain version ++ concat (input_frame version <$> repositories).

Lemma input_text_planning version repositories : 3 <= version <= 5 ->
  input_text version repositories = SnapshotSafety.metadata_text (snapshot_version version) (planning_of <$> repositories).
Proof.
  intros Hv. unfold input_text, SnapshotSafety.metadata_text, Framing.frames. rewrite input_domain_planning by done. do 2 f_equal.
  rewrite <- list_fmap_compose. apply list_fmap_ext. intros _ r _. by apply input_frame_planning.
Qed.

(** The widths of the integers and lengths of the machine. *)
Definition input_widths (r : InputRepository.t) : Prop :=
  Framing.short (InputRepository.id r) /\ Forall (fun e => InputFile.size e < 2 ^ 64) (required_files r ++ extended_files r).

Lemma planning_ok directory owner r : (forall l, valid_digest (sha256_hex l) = true) ->
  repository_bound directory owner r -> input_widths r ->
  Framing.repository_ok (planning_of r).1 (planning_of r).2.
Proof.
  intros Hhex [Hgen Horigin Hfiles Htrust] [Hid Hw].
  assert (Hok : Forall (Framing.payload_ok ∘ payload_of) (required_files r ++ extended_files r)).
  { rewrite Forall_forall in *. intros e He. split; [| by apply Hw]. destruct (Hfiles e He) as (f & _ & _ & _ & Hd).
    cbn. rewrite <- Hd. apply Hhex. }
  apply Forall_app in Hok as [Hreq Hext]. unfold required_files in Hreq. rewrite !Forall_cons in Hreq.
  destruct Hreq as (Hrepomd & Hprimary & Hfilelists & _).
  assert (Hmod : forall z : Z, Z.to_N (z mod 2 ^ 32) < 2 ^ 32).
  { intros z. pose proof (Z.mod_pos_bound z (2 ^ 32) ltac:(lia)). lia. }
  assert (Hrole : forall name o, str_len name < 64 -> Forall (Framing.payload_ok ∘ payload_of) (option_list o) ->
    Framing.role_ok (name, payload_of <$> o)).
  { intros name o Hn Ho. split; [done |]. intros b E. cbn in E. destruct o as [e|]; [| done]. injection E as <-.
    by apply Forall_cons in Ho as [? _]. }
  unfold extended_files in Hext. rewrite !Forall_app in Hext. destruct Hext as (Hx1 & Hx2 & Hx3 & Hx4).
  split; [done | apply Hmod | apply Hmod | | | | by apply Forall_cons_2, Forall_cons_2, Forall_cons_2, Forall_nil_2 |].
  - cbn. rewrite Hgen. apply Hrepomd.
  - cbn. rewrite <- Horigin. apply Hhex.
  - destruct Htrust as (f & trust & digest & _ & _ & _ & Hd & Hsha & _). cbn. rewrite <- Hsha.
    by eapply SnapshotSafety.trust_sha256_valid.
  - intros v. unfold Framing.roles. apply Forall_app. split; destruct (_ <=? _); rewrite ?Forall_cons, ?Forall_nil; split_and?; try done; by apply Hrole.
Qed.

(** Everything of a repository that its metadata digest tells. *)
Definition input_view (version : N) (r : InputRepository.t) := Framing.repository_view (snapshot_version version) (planning_of r).

Lemma inputs_bind_snapshot directory owner plan m s ids i :
  (forall l, valid_digest (sha256_hex l) = true) -> inputs_bound directory owner plan m ->
  Forall input_widths (InputManifest.repositories m) ->
  Forall SnapshotSafety.machine_widths (PlanningPayload.allowed_repositories (PlanningSnapshot.payload s)) ->
  integrity_for_repositories s ids = Ok i ->
  PlanEnvelope.metadata_sha256 (CanonicalSolverPlan.proposal plan) = PlanIntegrity.metadata_sha256 i ->
  exists l ts, selected_repositories s ids = Ok l /\ SnapshotSafety.trusts l = Ok ts /\
    (input_view (InputManifest.schema_version m) <$> InputManifest.repositories m =
       Framing.repository_view (PlanningSnapshot.schema_version s) <$> zip l ts \/
     SnapshotSafety.collide (input_text (InputManifest.schema_version m) (InputManifest.repositories m))
       (SnapshotSafety.metadata_text (PlanningSnapshot.schema_version s) (zip l ts))).
Proof.
  intros Hhex Hm Hw Hw' Hi Heq. pose proof (in_metadata _ _ _ _ Hm) as Hd. rewrite Heq in Hd. unfold metadata_digest in Hd.
  pose proof (input_text_planning _ (InputManifest.repositories m) (in_version _ _ _ _ Hm)) as Htext. unfold input_text in Htext.
  apply (SnapshotSafety.parts_of_integrity Hhex) in Hi as (Hs & l & d & dg & Hl & (ts & Hts & Hlen & ->)%SnapshotSafety.metadata_digest_ok & _ & Hmeta & _).
  exists l, ts. split; [done |]. split; [done |].
  rewrite Hmeta in Hd. apply SnapshotSafety.sha256_inj in Hd as [Hd|?]; [left | by right].
  rewrite Htext in Hd. apply SnapshotSafety.metadata_domain_inj in Hd as (Hd & E1 & E2).
  destruct (SnapshotSafety.same_layout _ _ (zip l ts) E1 E2) as [Ev Ef]. rewrite <- Ev. rewrite <- Ef in Hd.
  change (input_view (InputManifest.schema_version m)) with
    (Framing.repository_view (snapshot_version (InputManifest.schema_version m)) ∘ planning_of). rewrite list_fmap_compose.
  destruct (SnapshotSafety.selected_sound _ _ _ Hs Hl) as [Hok Hsub].
  apply (Framing.frames_inj (snapshot_version (InputManifest.schema_version m))); [| | exact Hd].
  - apply Forall_fmap. pose proof (in_repositories _ _ _ _ Hm) as Hr. rewrite Forall_forall in *. intros r Hin.
    by eapply planning_ok; [| apply Hr | apply Hw].
  - eapply SnapshotSafety.zip_forall_ok; [done | done | done |]. rewrite Forall_forall in *. intros r Hr. by apply Hw', Hsub.
Qed.
End inputs.
