(* ===== verification/ExecuteExamples.v ===== *)
(** * A machine to execute a plan on

    The plan of [PlanFacts] on a database of two packages: bash is upgraded, zsh installed and
    ksh removed.  The database is the number of the steps that a run made; keys are their
    certificates, and a package is known by its bytes. *)
From S2P Require Import Prelude.
From S2P Require Import RustStr.
From S2P Require Import Value.
From S2P Require Import Canonical.
From S2P Require Import Documents.
From S2P Require Import Policy.
From S2P Require Import CorePlan.
From S2P Require Import SolverModel.
From S2P Require Import SolverPlan.
From S2P Require Import CacheModel.
From S2P Require Import Snapshot.
From S2P Require Import SnapshotFacts.
From S2P Require Import Effects.
From S2P Require Import StateFs.
From S2P Require Import Journal.
From S2P Require Import JournalFacts.
From S2P Require Import JournalSafety.
From S2P Require Import StateFile.
From S2P Require Import ReasonState.
From S2P Require Import ReasonFacts.
From S2P Require Import NativeTrust.
From S2P Require Import Artifact.
From S2P Require Import ExecutorInventory.
From S2P Require Import RootInputs.
From S2P Require Import StagedInputs.
From S2P Require Import Execute.

#[local] Open Scope N_scope.

Module ExecuteExamples.

(** ** Codecs *)

#[export] Existing Instance JournalExamples.example_errno.

Definition before : InstalledInventory.t := ReasonExamples.before.
Definition after : InstalledInventory.t := ReasonExamples.after.

#[export] Instance env : SnapshotEnv := {|
  sha256_hex := SnapshotExamples.toy_hex;
  base64_decode s := if bool_decide (s = "Y2VydA==") then Some SnapshotExamples.certificate else None;
  url_parse := SnapshotExamples.parse_url;
  debug_escaped _ := false;
  policy_json := OneCodec.one_codec PlanFacts.example_policy (bytes "policy");
  trust_json := OneCodec.one_codec SnapshotExamples.trust (bytes "trust");
  inventory_json := TableCodec.table_codec [(before, bytes "before"); (after, bytes "after");
                                           (InventoryFacts.witness_inventory, bytes "inventory")];
  snapshot_json := OneCodec.one_codec SnapshotExamples.snapshot (bytes "snapshot")
|}.

Definition record (sequence : N) (state : JournalState.t) (native : option NativeResult.t)
    (reconciliation : option ReconcileResult.t) : JournalEntry.t :=
  JournalEntry.mk 1 JournalExamples.id JournalExamples.digest sequence state native reconciliation.
Definition callbacks : CallbackSummary.t := CallbackSummary.mk 0 0 1 0 2 0 false.
Definition prepared : JournalEntry.t := JournalExamples.prepared.
Definition started : JournalEntry.t := JournalExamples.started.
Definition finished : JournalEntry.t := record 2 JournalState.RpmResult (Some (NativeResult.mk 0 callbacks [])) None.
Definition reconciled : JournalEntry.t :=
  record 3 JournalState.Reconciled None (Some (ReconcileResult.mk (sha256_hex (bytes "after")) true 1)).

#[export] Instance entries : SerdeJson JournalEntry.t :=
  json_codec JournalEntry.tree [prepared; started; finished; reconciled].

#[export] Instance entries_laws : SerdeJsonLaws JournalEntry.t (fun _ => True).
Proof. apply json_codec_laws. by apply (bool_decide_unpack _); vm_compute. Qed.

#[export] Instance entries_text : JsonText JournalEntry.t JournalEntry.tree.
Proof. apply json_codec_text. Qed.

#[export] Instance states : SerdeJson ReasonState.t :=
  json_codec ReasonState.tree [ReasonExamples.known_reasons; ReasonExamples.new_reasons].

#[export] Instance states_laws : SerdeJsonLaws ReasonState.t (fun _ => True).
Proof. apply json_codec_laws. by apply (bool_decide_unpack _); vm_compute. Qed.

#[export] Instance states_text : JsonText ReasonState.t ReasonState.tree.
Proof. apply json_codec_text. Qed.

(** ** The libraries *)

Definition package (name : string) : VerifiedPackage.t :=
  VerifiedPackage.mk name "0" "2" "1" "x86_64" "Fedora" SnapshotExamples.fingerprint SnapshotExamples.fingerprint.

Definition file (name : string) : ArtifactFile.t :=
  ArtifactFile.mk true 0 384 1 (Z.of_nat (length (bytes name))) (bytes name).

#[export] Instance keys : KeyLibrary := {|
  keyring := list (list byte);
  keyring_open certificates := Ok certificates;
  keyring_verify_fd _ file :=
    if bool_decide (ArtifactFile.content file ∈ [bytes "bash"; bytes "zsh"])
    then Ok (package (of_bytes (ArtifactFile.content file)))
    else Err (SysError.mk 7 "rpm" "rpmReadPackageFile" "unsigned package")
|}.

Definition header (p : InstalledPackage.t) : InventoryPackage.t :=
  InventoryPackage.mk (InstalledPackage.name p) (Evra.version (InstalledPackage.evra p)) (Evra.release (InstalledPackage.evra p))
    "x86_64" (InstalledPackage.vendor p) (Evra.epoch (InstalledPackage.evra p)) (InstalledPackage.db_instance p)
    (InstalledPackage.install_time p) (Sha256Digest.as_str (InstalledPackage.immutable_header_sha256 p)).

#[export] Instance rpm : RpmLibrary := {|
  rpmdb := nat;
  rpmdb_cookie d := Ok (if Nat.eqb d 0 then "old" else "new");
  rpmdb_inventory d _ :=
    Ok (Inventory.mk "sqlite" "6.0" (header <$> InstalledInventory.packages (if Nat.eqb d 0 then before else after)));
  rpm_check _ _ _ _ := None;
  rpm_progress _ n d := (d + n)%nat;
  rpm_steps items _ := length items;
  rpm_outcome test _ _ := if test : bool then RunOutcome.mk 0 [] false 0 0 else RunOutcome.mk 0 [] false 1 2;
  rpm_verify_db _ := true;
  effective_uid := 0;
  c_char_signed := true;
  max_packages := 1000
|}.

(** ** The plan *)

Definition integrity : PlanIntegrity.t :=
  match integrity_for_repositories SnapshotExamples.snapshot ["fedora"] with Ok i => i | Err _ => PlanFacts.example_integrity end.

Definition proposal : PlanEnvelope.t :=
  PlanEnvelope.mk 2 "/" (PlanEnvelope.intent PlanFacts.example_plan) (PlanIntegrity.policy_sha256 integrity)
    (PlanIntegrity.trust_sha256 integrity) (PlanIntegrity.inventory_sha256 integrity) (PlanIntegrity.metadata_sha256 integrity)
    (PlanIntegrity.planning_snapshot_sha256 integrity) (PlanIntegrity.selected_repositories integrity) 100
    PlanFacts.example_actions.

Definition size (name : string) : N := N.of_nat (length (bytes name)).

Definition action (operation name : string) (evra : Evra.t) (instance : option N) (repo_id : option string) : ExplainedAction.t :=
  let digest := Sha256Digest.as_str PlanFacts.example_digest in
  ExplainedAction.mk operation name evra None instance (const digest <$> instance) (const "Fedora" <$> instance)
    (const "Fedora" <$> repo_id) repo_id PackageReason.User RequestedRelation.Requested None [] None (size name) 0
    (const (ArtifactRecord.mk (sha256_hex (bytes name)) name (size name)) <$> repo_id) (PlanProtection.mk false false false) "".

Definition plan : CanonicalSolverPlan.t :=
  CanonicalSolverPlan.mk "dnfast.solver-plan" proposal
    [ action "install" "zsh" PlanFacts.new_evra None (Some "fedora");
      action "upgrade" "bash" PlanFacts.new_evra (Some 3) (Some "fedora");
      action "remove" "ksh" PlanFacts.old_evra (Some 4) None ].

(** ** The inputs *)

Definition input (name content : string) (size : N) : InputFile.t := InputFile.mk name (sha256_hex (bytes content)) size.
Definition document (name : string) : InputFile.t := input (name +:+ ".json") name (size name).
Definition payload (name : string) : InputFile.t := input (name +:+ ".xml") name 9.

Definition trust_digest : string := sha256_hex (bytes "trust").
Definition url_digest : string := sha256_hex (bytes SnapshotExamples.url).
Definition key : InputKey.t := InputKey.mk (input "a.gpg" "cert" 4) (PlanningKey.bundle_path SnapshotExamples.key).

Definition repository : InputRepository.t :=
  InputRepository.mk "fedora" 99 1000 (sha256_hex (bytes "repomd")) (InputOrigin.mk SnapshotExamples.url url_digest)
    (payload "repomd") (payload "primary") (payload "filelists") None (Some (payload "group")) None None
    (InputRepositoryTrust.mk (document "trust") trust_digest [key]).

Definition artifact (name : string) : InputArtifact.t :=
  InputArtifact.mk (input (name +:+ ".rpm") name (size name)) "fedora" (sha256_hex (bytes "repomd")) url_digest trust_digest
    name 0 "2" "1" "x86_64" "Fedora".

Definition manifest : InputManifest.t :=
  InputManifest.mk 5 (document "policy") (Sha256Digest.as_str (PlanIntegrity.metadata_sha256 integrity))
    (Sha256Digest.as_str (PlanIntegrity.trust_sha256 integrity)) [repository] [artifact "bash"; artifact "zsh"].

#[export] Instance manifests : SerdeJson InputManifest.t := OneCodec.one_codec manifest (bytes "manifest").

Definition contents (size : Z) (content : string) : entry := Opened (ArtifactFile.mk true 0 384 1 size (bytes content)).
Definition exactly (content : string) : entry := contents (Z.of_N (size content)) content.

Definition inputs_directory : InputsDirectory.t :=
  InputsDirectory.mk 0 448 (list_to_map
    [("manifest.json", exactly "manifest"); ("policy.json", exactly "policy"); ("trust.json", exactly "trust");
     ("a.gpg", exactly "cert"); ("repomd.xml", contents 9 "repomd"); ("primary.xml", contents 9 "primary");
     ("filelists.xml", contents 9 "filelists"); ("group.xml", contents 9 "group");
     ("bash.rpm", exactly "bash"); ("zsh.rpm", exactly "zsh")]).

Definition idle : world unit := mk_world tt FaultPoint.None [].

Definition staged : StagedInputs.t :=
  match (stage_token_bound inputs_directory manifest idle).2 with
  | Value s => s
  | _ => StagedInputs.mk PlanFacts.example_policy [] [] [] []
  end.

Lemma inputs_open : open_locked inputs_directory 0 plan idle = (idle, Value manifest).
Proof. vm_compute. reflexivity. Qed.

Lemma inputs_staged : stage_token_bound inputs_directory manifest idle = (idle, Value staged).
Proof. vm_compute. reflexivity. Qed.

(** ** The machine *)

Definition journal : directory := fsys (publish 7 prepared (quiet JournalExamples.empty_directory)).1.

Definition machine_before : machine :=
  mk_machine _ _ 0%nat journal (ReasonExamples.directory_of ReasonExamples.known_reasons)
    (Context.mk _ None [] Preflight (TransactionCounts.mk 0 0 0 0) [] false)
    (Executor.mk before ExecutionState.Prepared false None) None.

Definition execution (outcomes : list outcome) : world machine * Effects.exit ExecutorError.t InstalledInventory.t :=
  run_inner 7 (Ok 10) (Ok tt) plan staged before (Some "old") "/" (mk_world machine_before FaultPoint.None outcomes).

Lemma first_entry_loads : load_entries (quiet journal) = (quiet journal, Value [prepared]).
Proof. vm_compute. reflexivity. Qed.

Lemma reasons_read :
  read_state reason_store (quiet (reasons_dir machine_before)) = (quiet (reasons_dir machine_before), Value ReasonExamples.known_reasons).
Proof. vm_compute. reflexivity. Qed.

Lemma names_distinct : NoDup (ExplainedAction.name <$> CanonicalSolverPlan.actions plan).
Proof. by apply (bool_decide_unpack _); vm_compute. Qed.

(** The process dies after the first step of the run. *)
Definition killed : list outcome := replicate 33 Succeeds ++ [Stops 1].

Lemma execution_run outcomes :
  run_inner 7 (Ok 10) (Ok tt) plan staged before (Some "old") "/" (mk_world machine_before FaultPoint.None outcomes)
  = ((execution outcomes).1, (execution outcomes).2).
Proof. unfold execution. apply surjective_pairing. Qed.

(** Nothing fails. *)
Example succeeds : (execution []).2 = Value after.
Proof. vm_compute. reflexivity. Qed.
End ExecuteExamples.
