(* ===== verification/ExecuteSafety.v ===== *)
(** * Safety of the executor

    However the execution of a plan ends, by success, by an error of any step or by the death of
    the process, the RPM database is as it was, or it was changed by running exactly the planned
    items and the journal says that the transaction was started. *)
From S2P Require Import Prelude.
From S2P Require Import RustStr.
From S2P Require Import RustText.
From S2P Require Import Value.
From S2P Require Import Canonical.
From S2P Require Import Documents.
From S2P Require Import Policy.
From S2P Require Import CorePlan.
From S2P Require Import SolverModel.
From S2P Require Import SolverPlan.
From S2P Require Import CacheModel.
From S2P Require Import Snapshot.
From S2P Require Import Effects.
From S2P Require Import StateFs.
From S2P Require Import Journal.
From S2P Require Import JournalFacts.
From S2P Require Import JournalSafety.
From S2P Require Import StateFile.
From S2P Require Import ReasonState.
From S2P Require Import NativeTrust.
From S2P Require Import Artifact.
From S2P Require Import ExecutorInventory.
From S2P Require Import RootInputs.
From S2P Require Import StagedInputs.
From S2P Require Import Execute.
From S2P Require Import ExecuteFacts.
From S2P Require Import ExecuteExamples.

#[local] Open Scope N_scope.

(** ** Beginning *)

Section begin.
Context `{SnapshotEnv} `{RpmLibrary} `{SerdeJson JournalEntry.t} `{ErrnoText}.

Definition based (db : rpmdb) (j r : directory) (m : machine) : Prop :=
  database m = db /\ journal_dir m = j /\ reasons_dir m = r.

Definition blank (db : rpmdb) (j r : directory) (m : machine) : Prop :=
  based db j r m /\ Context.items (context m) = [].

Definition emptied (m m' : machine) : Prop :=
  (database m', journal_dir m', reasons_dir m') = (database m, journal_dir m, reasons_dir m) /\
  (Context.items (context m) = [] -> Context.items (context m') = []).

#[global] Instance emptied_preorder : PreOrder emptied.
Proof.
  split; [by intros m |]. intros m m' m'' [E1 H1'] [E2 H2']. split; [congruence | auto].
Qed.

Lemma at_rest_emptied m m' : at_rest m m' -> emptied m m'.
Proof. intros E. injection E as E1 E2 E3 E4 _. unfold emptied. by rewrite E1, E2, E3, E4. Qed.

Lemma end_write_emptied : within emptied (native_call end_inventory_write).
Proof. apply within_map_raise, within_modify. intros m. by split. Qed.

Lemma begin_write_emptied k root : within emptied (begin_inventory_write k root).
Proof. unfold begin_inventory_write, modify_context. steps. Qed.

Lemma read_bound_emptied cookie expected : within emptied (read_locked_cookie_bound cookie expected).
Proof.
  unfold read_locked_cookie_bound, store_cached. steps.
  apply within_map_raise. eapply within_mono; [apply at_rest_emptied | apply read_cached_rest].
Qed.

Lemma read_locked_emptied : within emptied read_locked.
Proof. eapply within_mono; [apply at_rest_emptied | apply read_locked_rest]. Qed.

Hint Resolve end_write_emptied begin_write_emptied read_bound_emptied read_locked_emptied : within.

Lemma blank_step {E A B} (m : Effects.io FaultPoint.t E machine A) (k : A -> Effects.io FaultPoint.t E machine B) db j r Q :
  within emptied m -> (forall a, Effects.triple (blank db j r) (k a) Q (based db j r)) ->
  Effects.triple (blank db j r) (m ≫= k) Q (based db j r).
Proof.
  intros Hm Hk. eapply triple_bind; [| exact Hk].
  eapply triple_conseq; [apply (triple_within emptied m (blank db j r)) | done | done | by intros d [? _]]; [done |].
  intros d d' [(<- & <- & <-) Hi] [Hv Hi']. injection Hv as Hd Hj Hr. split; [by split_and! | auto].
Qed.

Lemma begin_controlled_triple architecture k expected cookie root authority db j r :
  Effects.triple (based db j r) (begin_controlled architecture k expected cookie root authority)
    (fun _ => prepared db j r false []) (based db j r).
Proof.
  unfold begin_controlled, domain_call. destruct (negb _); [by intros w Hw |]. destruct (negb _); [by intros w Hw |].
  apply triple_lift_bind; [done |]. intros [] _. apply triple_lift_bind; [done |]. intros _ _.
  eapply triple_bind; [by apply triple_map_raise, triple_sync |]. intros [].
  apply (triple_bind _ _ _ (fun _ => blank db j r)); [apply triple_modify; intros m Hm; by split |]. intros [].
  apply blank_step; [steps |]. intros began.
  apply blank_step; [steps |]. intros _.
  apply blank_step; [destruct cookie; steps |]. intros inventory.
  apply blank_step; [destruct cookie; steps |]. intros _.
  apply triple_modify. intros m [(<- & <- & <-) Hi]. unfold prepared, view. simpl. by rewrite Hi.
Qed.

Lemma begin_triple architecture k inventory cookie root authority db j r :
  Effects.triple (based db j r) (begin architecture k inventory cookie root authority)
    (fun _ => prepared db j r false []) (based db j r).
Proof.
  apply triple_map_raise. destruct cookie as [cookie|]; [| apply begin_controlled_triple].
  unfold begin_at_root_with_cookie. destruct (str_is_empty cookie); [by intros w Hw | apply begin_controlled_triple].
Qed.

Lemma bind_journal_triple db j r :
  Effects.triple (prepared db j r false []) bind_journal (fun _ => prepared db j r true []) (based db j r).
Proof.
  assert (HR : forall l flag m, prepared db j r flag l m -> based db j r m) by (intros l flag m Hm; injection Hm as ? ? ? _ _; by split_and!).
  unfold bind_journal. apply triple_rest; [steps | by apply HR |]. intros ex.
  apply triple_rest; [steps | by apply HR |]. intros [].
  apply triple_rest; [apply within_map_raise; by apply modify_context_rest | by apply HR |]. intros [].
  apply triple_modify. intros m Hm. injection Hm as Hd Hj Hr Hi _. unfold prepared, view. simpl. by rewrite Hd, Hj, Hr, Hi.
Qed.
End begin.

(** ** Running *)

Section run.
Context `{SnapshotEnv} `{RpmLibrary} `{SerdeJson JournalEntry.t} `{!SerdeJsonLaws JournalEntry.t (fun _ => True)} `{ErrnoText} (pid : N).
Context `{!JsonText JournalEntry.t JournalEntry.tree}.
Context (es : list JournalEntry.t) (db : rpmdb) (j r : directory) (Hholds : holds es j).

(** The database after some steps of a run of [items], of which the journal tells. *)
Definition ran (items : list TransactionItem.t) (m : machine) : Prop :=
  exists n, database m = rpm_progress items n db /\ start_recorded es (journal_dir m).

Definition safe (planned : list TransactionItem.t -> Prop) (m : machine) : Prop :=
  database m = db \/ exists items, planned items /\ ran items m.

Lemma safe_onward planned m m' : safe planned m -> onward m m' -> safe planned m'.
Proof.
  intros [Hd|(items & Hp & n & Hd & Hs)] [E Hg]; [left; congruence |]. right. exists items. split; [done |].
  exists n. split; [congruence | by eapply grows_start].
Qed.

Lemma safe_within {E A} (m : Effects.io FaultPoint.t E machine A) planned :
  within onward m -> Effects.triple (safe planned) m (fun _ => safe planned) (safe planned).
Proof. intros Hm. apply (triple_within onward); [done | apply safe_onward]. Qed.

Lemma based_safe planned m : based db j r m -> safe planned m.
Proof. intros [Hd _]. by left. Qed.

Lemma prepared_based flag l m : prepared db j r flag l m -> based db j r m.
Proof. intros Hm. injection Hm as ? ? ? _ _. by split_and!. Qed.

Lemma prepared_safe planned flag l m : prepared db j r flag l m -> safe planned m.
Proof. intros Hm. by eapply based_safe, prepared_based. Qed.

(** The journal tells of the start. *)
Definition begun (flag : bool) (l : list TransactionItem.t) (m : machine) : Prop :=
  database m = db /\ reasons_dir m = r /\ Context.items (context m) = l /\ Executor.journal (executor m) = flag /\
  grown es JournalState.Started None None (journal_dir m).

Lemma start_triple flag l :
  Effects.triple (prepared db j r flag l) (start pid)
    (fun b m => if b : bool then begun flag l m else database m = db) (fun m => database m = db).
Proof using JsonText0 SerdeJsonLaws0 Hholds.
  assert (HR : forall m, prepared db j r flag l m -> database m = db) by (intros m Hm; by injection Hm).
  unfold start. apply triple_rest; [steps | done |]. intros c. destruct (negb _); [by apply triple_done |].
  apply triple_all. intros m Hm.
  apply (triple_bind _ _ _ (fun s m' => match s with Ok _ => begun flag l m' | Err _ => database m' = db end)).
  - eapply triple_conseq; [apply triple_catch, (triple_zoom journal_dir set_journal_dir _ m) | done | |].
    + injection Hm as _ -> _ _ _. by apply (mark_started_triple pid es).
    + injection Hm as Hd Hj Hr Hi Hf. intros [[]|e] m'; [intros (d & -> & Hg); by split_and! |].
      by intros (d & -> & _).
    + injection Hm as Hd _ _ _ _. by intros m' (d & -> & _).
  - intros [[]|e]; [| by apply triple_done].
    apply (triple_bind _ _ _ (fun _ => begun flag l)); [| intros []; by apply triple_done].
    apply triple_modify. intros m' (Hd & Hr & Hi & Hf & Hg). by split_and!.
Qed.

(** What a run without failures leaves. *)
Definition completed (flag : bool) (l : list TransactionItem.t) (code : Z) (m : machine) : Prop :=
  database m = rpm_progress l (rpm_steps l db) db /\ reasons_dir m = r /\ Executor.journal (executor m) = flag /\
  Context.problems (context m) = [] /\ grown es JournalState.Started None None (journal_dir m) /\
  run_failed (rpm_outcome false l db) = false /\ code = RunOutcome.result (rpm_outcome false l db).

Lemma rpmts_run_triple flag l planned :
  planned l ->
  Effects.triple (begun flag l) (rpmts_run false l)
    (fun o m => safe planned m /\ (run_failed o = false ->
       database m = rpm_progress l (rpm_steps l db) db /\ reasons_dir m = r /\ Executor.journal (executor m) = flag /\
       grown es JournalState.Started None None (journal_dir m) /\ o = rpm_outcome false l db)) (safe planned).
Proof.
  intros Hp w (Hd & Hr & Hi & Hf & Hg). pose proof (grown_start es _ Hg) as Hs.
  assert (Hsafe : forall n, safe planned (progressed false l n (fsys w))).
  { intros n. right. exists l. split; [done |]. exists n. simpl. by rewrite Hd. }
  unfold rpmts_run. destruct (head (pending w)) as [[|n message|n]|]; simpl.
  - split; [by apply Hsafe |]. rewrite Hd. intros _. by split_and!.
  - split; [by apply Hsafe |]. intros Hrf. by vm_compute in Hrf.
  - by apply Hsafe.
  - split; [by apply Hsafe |]. rewrite Hd. intros _. by split_and!.
Qed.

Lemma triple_raise_safe {E A} (e : E) flag l planned (Q : A -> machine -> Prop) :
  Effects.triple (F:=FaultPoint.t) (prepared db j r flag l) (raise e) Q (safe planned).
Proof. intros w Hw. by eapply prepared_safe. Qed.

Lemma gets_items {E} flag l (R : machine -> Prop) :
  Effects.triple (F:=FaultPoint.t) (E:=E) (prepared db j r flag l) (gets context)
    (fun c m => Context.items c = l /\ prepared db j r flag l m) R.
Proof. intros w Hw. split; [by injection Hw | exact Hw]. Qed.

Lemma transaction_run_triple flag l (planned : list TransactionItem.t -> Prop) :
  planned l ->
  Effects.triple (prepared db j r flag l) (transaction_run pid) (fun code m => safe planned m /\ completed flag l code m) (safe planned).
Proof using JsonText0 SerdeJsonLaws0 Hholds.
  intros Hp. set (R := safe planned). assert (HR : forall m, prepared db j r flag l m -> R m) by apply prepared_safe.
  unfold transaction_run, transaction_execute. cbv zeta.
  eapply triple_bind; [apply gets_items |]. intros c. apply triple_pure. intros Hi. destruct (Context.write_keyring c) as [k|]; [| by apply triple_raise_safe].
  rewrite Hi. destruct l as [|item rest] eqn:El; [by apply triple_raise_safe |]. rewrite <- El in *. clear Hi.
  apply triple_rest; [steps | done |]. intros []. apply triple_rest; [steps | done |]. intros [].
  apply triple_rest; [steps | done |]. intros d. destruct (rpm_check _ _ _ _) as [found|].
  { apply triple_rest; [apply modify_context_rest; intros []; by destruct found | done |]. intros []. by apply triple_raise_safe. }
  apply triple_rest; [by apply modify_context_rest; intros [] | done |]. intros [].
  eapply triple_bind.
  { eapply triple_conseq; [by apply (start_triple flag l) | done | done | by intros m Hm; left]. }
  intros [|]; [| intros w Hw; by left].
  apply (triple_bind _ _ _ (fun _ => begun flag l)).
  { apply triple_modify. intros m (Hd & Hr & Hit & Hf & Hg). by split_and!. }
  intros []. eapply triple_bind; [by apply rpmts_run_triple |]. intros o.
  apply (triple_bind _ _ _ (fun _ m => safe planned m /\ (run_failed o = false -> completed flag l (RunOutcome.result o) m))).
  { apply triple_modify. intros m [Hs Ho]. split; [by apply (safe_onward planned m); [| split; [| reflexivity]] |].
    intros Hrf. destruct (Ho Hrf) as (Hd & Hr & Hf & Hg & ->). split_and!; try done. simpl.
    unfold run_failed in Hrf. apply orb_false_iff in Hrf as [Hrf _]. apply orb_false_iff in Hrf as [_ Hrf]. by bool_inv. }
  intros []. destruct (run_failed o); [by intros w [Hw _] |]. apply triple_done. intros m [Hs Hc]. auto.
Qed.

(** ** The whole transaction *)

Lemma set_state_onward s : within (F:=FaultPoint.t) (E:=InventoryError.t) onward (modify (set_state s)).
Proof. apply within_modify. intros m. split; [done | reflexivity]. Qed.
Hint Resolve set_state_onward : within.

Lemma rest_onward {E A} (m : Effects.io FaultPoint.t E machine A) : within at_rest m -> within onward m.
Proof. intros Hm. eapply within_mono; [apply at_rest_onward | exact Hm]. Qed.

Lemma problems_onward : within onward problems.
Proof. apply rest_onward, problems_rest. Qed.
Lemma preflight_error_onward {A} e : within onward (preflight_error (A:=A) e).
Proof. apply rest_onward, preflight_error_rest. Qed.
Lemma verify_db_onward : within onward verify_transaction_db.
Proof. apply rest_onward, verify_transaction_db_rest. Qed.
Hint Resolve problems_onward preflight_error_onward verify_db_onward record_result_onward
  reconcile_with_success_onward : within.

Lemma run_checked_triple flag l (planned : list TransactionItem.t -> Prop) :
  planned l ->
  Effects.triple (prepared db j r flag l) (run_checked_transaction pid) (fun _ => safe planned) (safe planned).
Proof using JsonText0 SerdeJsonLaws0 Hholds.
  intros Hp. unfold run_checked_transaction. apply triple_rest; [apply in_state_rest | apply prepared_safe |]. intros [].
  apply (triple_bind _ _ _ (fun _ => safe planned)).
  { eapply triple_conseq; [by apply triple_catch, triple_map_raise, (transaction_run_triple flag l planned) | done | | done].
    intros [code|e] m; [by intros [? _] | done]. }
  intros o. apply safe_within. unfold real_runs. steps.
Qed.

Lemma stateful_onward {A} name e : within onward (stateful_or_preflight pid (A:=A) name e).
Proof. unfold stateful_or_preflight, call, real_runs, verify_unchanged, reconcile_after_failure. steps. Qed.

Lemma checked_onward {A} name (m : Effects.io FaultPoint.t InventoryError.t machine A) :
  within onward m -> within onward (checked pid name m).
Proof. intros Hm. unfold checked. steps. by apply stateful_onward. Qed.

Context `{SerdeJson ReasonState.t}.

Lemma mount_within (R : relation machine) `{!PreOrder R} : within R verify_unchanged.
Proof. unfold verify_unchanged. by apply within_sync. Qed.

Lemma record_success_onward before after plan policy :
  within onward (zoom reasons_dir set_reasons_dir (record_success pid before after plan policy)).
Proof. apply (within_zoom _ (fun _ _ => True)); [| by intros w]. intros m d _. split; [done | reflexivity]. Qed.

Lemma transact_triple plan staged inventory cookie l (planned : list TransactionItem.t -> Prop) :
  planned l ->
  Effects.triple (prepared db j r true l) (transact pid plan staged inventory cookie) (fun _ => safe planned) (safe planned).
Proof using JsonText0 SerdeJsonLaws0 Hholds.
  intros Hp. assert (HR : forall m, prepared db j r true l m -> safe planned m) by apply prepared_safe.
  unfold transact. apply triple_rest; [apply within_map_raise, test_checked_transaction_rest | done |]. intros _.
  apply triple_rest; [apply mount_within, _ | done |]. intros [].
  apply (triple_bind _ _ _ (fun _ => safe planned)).
  { unfold checked. apply (triple_bind _ _ _ (fun _ => safe planned)).
    - eapply triple_conseq; [by apply triple_catch, (run_checked_triple true l planned) | done | by intros [] | done].
    - intros o. apply safe_within. destruct o; [steps | apply stateful_onward]. }
  intros code. apply safe_within. steps.
  - by apply checked_onward, verify_db_onward.
  - apply checked_onward. destruct a0; unfold reconciliation, reconcile_selected_expected, reconcile_selected; steps.
  - apply mount_within, _.
  - apply record_success_onward.
Qed.

(** However it ends, the items that ran are the planned ones. *)
Lemma run_inner_triple now authority plan staged inventory cookie root :
  NoDup (ExplainedAction.name <$> CanonicalSolverPlan.actions plan) ->
  let planned := Forall2 (planned_item now staged inventory) (CanonicalSolverPlan.actions plan) in
  Effects.triple (based db j r) (run_inner pid now authority plan staged inventory cookie root)
    (fun _ => safe planned) (safe planned).
Proof using JsonText0 SerdeJsonLaws0 Hholds.
  intros Hnd planned. assert (HB : forall m, based db j r m -> safe planned m) by apply based_safe.
  unfold run_inner. apply triple_lift_bind; [done |]. intros keyrings Hks.
  apply (triple_seq _ _ _ (fun vs => Forall2 (verified_for now staged) (base.filter (fun a => installs a = true)
    (CanonicalSolverPlan.actions plan)) vs)).
  { eapply triple_conseq; [by apply (verify_triple now staged keyrings _ (based db j r)) | done | done | done]. }
  intros vs Hvs. apply triple_lift_bind; [done |]. intros keyring _. apply triple_finally.
  assert (Hend : forall m, safe planned m -> safe planned (set_context (end_write (context m)) m)).
  { intros m Hm. apply (safe_onward planned m); [done |]. split; [done | reflexivity]. }
  assert (Hboth : forall m, safe planned m -> safe planned m /\ safe planned (set_context (end_write (context m)) m)) by auto.
  assert (HP : forall flag l m, prepared db j r flag l m -> safe planned m) by apply prepared_safe.
  eapply triple_bind; [eapply triple_conseq; [apply begin_triple | done | done | auto] |]. intros [].
  eapply triple_bind; [eapply triple_conseq; [by apply triple_map_raise, bind_journal_triple | done | done | auto] |]. intros [].
  eapply triple_bind; [eapply triple_conseq; [by apply (add_actions_triple now staged inventory keyring vs _ db j r true (safe planned)); [| | apply (HP true)] | done | done | auto] |].
  intros []. apply triple_exists. intros l. apply triple_pure. intros Hl.
  eapply triple_conseq; [by apply (transact_triple plan staged inventory cookie l planned) | done | | auto].
  intros after m. apply Hend.
Qed.
End run.

(** ** Theorems *)

Section theorems.
Context `{SnapshotEnv} `{RpmLibrary} `{SerdeJson JournalEntry.t} `{!SerdeJsonLaws JournalEntry.t (fun _ => True)}.
Context `{SerdeJson ReasonState.t} `{ErrnoText}.
Context `{!JsonText JournalEntry.t JournalEntry.tree}.

End theorems.

(** *** An execution *)

#[local] Existing Instances JournalExamples.example_errno ExecuteExamples.env ExecuteExamples.keys ExecuteExamples.rpm
  ExecuteExamples.entries ExecuteExamples.entries_laws ExecuteExamples.entries_text ExecuteExamples.states ExecuteExamples.states_laws.

