(* ===== verification/ExecuteInputs.v ===== *)
(** * From the accepted inputs to the database

    The executor reads its inputs, stages them and runs the plan.  What it installs is then what
    the plan recorded: the package of every action that installs has the digest, the size and
    the identity of the action, and is signed by a key that the trust policy of the selected
    repository allows. *)
From S2P Require Import Prelude.
From S2P Require Import RustStr.
From S2P Require Import RustText.
From S2P Require Import Value.
From S2P Require Import Canonical.
From S2P Require Import Documents.
From S2P Require Import Policy.
From S2P Require Import CorePlan.
From S2P Require Import SolverModel.
From S2P Require Import SolverPlan.
From S2P Require Import CacheModel.
From S2P Require Import Snapshot.
From S2P Require Import SnapshotFacts.
From S2P Require Import Effects.
From S2P Require Import StateFs.
From S2P Require Import Journal.
From S2P Require Import JournalFacts.
From S2P Require Import JournalSafety.
From S2P Require Import StateFile.
From S2P Require Import ReasonState.
From S2P Require Import NativeTrust.
From S2P Require Import Artifact.
From S2P Require Import ExecutorInventory.
From S2P Require Import RootInputs.
From S2P Require Import StagedInputs.
From S2P Require Import Execute.
From S2P Require Import ExecuteFacts.
From S2P Require Import RootInputsFacts.
From S2P Require Import ExecuteExamples.
From S2P Require Import ExecuteSafety.

#[local] Open Scope N_scope.

Lemma NoDup_fmap_same {A B} (f : A -> B) (l : list A) x y :
  NoDup (f <$> l) -> x ∈ l -> y ∈ l -> f x = f y -> x = y.
Proof.
  intros Hnd [i Hi]%list_elem_of_lookup [j Hj]%list_elem_of_lookup E.
  assert (i = j) as ->; [| congruence].
  eapply (NoDup_lookup _ i j (f x) Hnd); rewrite list_lookup_fmap; [by rewrite Hi | by rewrite Hj; simpl; rewrite E].
Qed.

Lemma Forall2_elem_r {A B} (R : A -> B -> Prop) l k y : Forall2 R l k -> y ∈ k -> exists x, x ∈ l /\ R x y.
Proof.
  intros H [i Hi]%list_elem_of_lookup. destruct (Forall2_lookup_r _ _ _ _ _ H Hi) as (x & Hx & Hr).
  exists x. split; [by eapply list_elem_of_lookup_2 | done].
Qed.

(** ** Staging *)

Section staging.
Context `{SnapshotEnv} `{CanonicalSolverPlan.PlanSerde} `{ErrnoText} `{SerdeJson InputManifest.t}.
Context {D : Type} (directory : InputsDirectory.t).

Lemma yields_map_io {F E X Y} (f : X -> Effects.io F E D Y) (G : X -> Y -> Prop) (l : list X) :
  (forall x, yields (f x) (G x)) -> yields (map_io f l) (Forall2 G l).
Proof.
  intros Hf. induction l as [|x l IH]; cbn [map_io]; [by apply yields_ret, Forall2_nil |].
  eapply yields_bind; [apply Hf |]. intros y Hy. eapply yields_bind; [apply IH |]. intros ys Hys.
  by apply yields_ret, Forall2_cons.
Qed.

(** A staged package and repository of the manifest. *)
Definition staged_as (a : InputArtifact.t) (s : StagedArtifact.t) : Prop :=
  present_as directory 0 (StagedArtifact.file s) (InputArtifact.file a) /\
  StagedArtifact.expected s = expected_package a /\ StagedArtifact.repo_id s = InputArtifact.repo_id a.

Definition repository_staged_as (r : InputRepository.t) (s : StagedRepository.t) : Prop :=
  NativeRepository.id (StagedRepository.repository s) = InputRepository.id r /\
  exists f, present_as directory 0 f (InputRepositoryTrust.policy (InputRepository.trust r)) /\
    @from_canonical_json _ (RepoTrustPolicy.trust_document trust_json) (ArtifactFile.content f) = Ok (StagedRepository.trust s).

Lemma stage_input_yields a : yields (D:=D) (stage_input directory a) (staged_as a).
Proof. eapply yields_bind; [apply open_retained_yields |]. intros f Hf. by apply yields_ret. Qed.

Lemma stage_repository_yields r : yields (D:=D) (stage_repository directory r) (repository_staged_as r).
Proof.
  eapply (yields_bind _ _ (fun trust => exists f, present_as directory 0 f (InputRepositoryTrust.policy (InputRepository.trust r)) /\
    @from_canonical_json _ (RepoTrustPolicy.trust_document trust_json) (ArtifactFile.content f) = Ok trust)).
  - eapply yields_bind; [apply open_retained_yields |]. intros f Hf. eapply yields_bind; [apply read_file_yields |].
    intros c ->. apply yields_lift. intros trust Ht%map_err_ok. by exists f.
  - intros trust Hf. apply yields_then. intros keys. by apply yields_ret.
Qed.

Definition staged_from (m : InputManifest.t) (staged : StagedInputs.t) : Prop :=
  Forall2 repository_staged_as (InputManifest.repositories m) (StagedInputs.repositories staged) /\
  Forall2 staged_as (InputManifest.artifacts m) (StagedInputs.artifacts staged).

Lemma stage_token_bound_yields m : yields (D:=D) (stage_token_bound directory m) (staged_from m).
Proof.
  apply yields_then. intros policy. eapply yields_bind; [apply yields_map_io, stage_repository_yields |]. intros rs Hrs.
  eapply yields_bind; [apply yields_map_io, stage_input_yields |]. intros arts Ha. by apply yields_ret.
Qed.

(** ** What the plan recorded *)

Context (plan : CanonicalSolverPlan.t) (m : InputManifest.t) (Hbound : inputs_bound directory 0 plan m).
Context (staged : StagedInputs.t) (Hstaged : staged_from m staged).
Context (Hnames : NoDup (ExplainedAction.name <$> CanonicalSolverPlan.actions plan)).

Lemma artifact_matches_spec a name evra repo vendor record :
  artifact_matches a name evra repo vendor record = true ->
  ArtifactRecord.checksum_sha256 record = InputFile.sha256 (InputArtifact.file a) /\
  ArtifactRecord.package_size record = InputFile.size (InputArtifact.file a) /\
  name = InputArtifact.name a /\ vendor = InputArtifact.vendor a /\
  InputArtifact.arch a = Architecture.as_rpm_arch (Evra.arch evra).
Proof. unfold artifact_matches. rewrite !andb_true_iff, !bool_decide_eq_true, !N.eqb_eq. tauto. Qed.

(** The staged package of an action has its digest, size, architecture and vendor. *)
Lemma staged_artifact_planned id action s :
  action ∈ CanonicalSolverPlan.actions plan -> s ∈ StagedInputs.artifacts staged -> staged_for id action s = true ->
  exists record vendor, ExplainedAction.artifact action = Some record /\ ExplainedAction.vendor action = Some vendor /\
    sha256_hex (ArtifactFile.content (StagedArtifact.file s)) = ArtifactRecord.checksum_sha256 record /\
    Z.to_N (ArtifactFile.st_size (StagedArtifact.file s)) = ArtifactRecord.package_size record /\
    ExpectedPackage.arch (StagedArtifact.expected s) = Architecture.as_rpm_arch (Evra.arch (ExplainedAction.target_evra action)) /\
    ExpectedPackage.vendor (StagedArtifact.expected s) = vendor.
Proof using Hbound Hstaged Hnames.
  intros Hin Hs Hfor. destruct (Forall2_elem_r _ _ _ _ (proj2 Hstaged) Hs) as (a & Ha & (Hf & He & Hrepo)).
  pose proof (in_artifacts _ _ _ _ Hbound) as Hall. rewrite Forall_forall in Hall.
  destruct (Hall a Ha) as (_ & _ & action' & Hin' & Hd). unfold describes in Hd.
  destruct (validate_artifact_descriptor a action') as [[]|] eqn:Hv; [| done].
  unfold validate_artifact_descriptor in Hv.
  apply bind_ok in Hv as (record & Hr%ok_or_ok & (repo & _ & (vendor & Hvendor%ok_or_ok & Hm)%bind_ok)%bind_ok).
  destruct (artifact_matches _ _ _ _ _ _) eqn:Hmatch; [| done]. apply artifact_matches_spec in Hmatch as (Hsum & Hsize & Hname & Hven & Harch).
  assert (action' = action) as ->.
  { apply (NoDup_fmap_same ExplainedAction.name _ _ _ Hnames Hin' Hin). unfold staged_for in Hfor.
    rewrite !andb_true_iff, !bool_decide_eq_true in Hfor. destruct Hfor as ((((_ & Hn) & _) & _) & _).
    rewrite He in Hn. cbn in Hn. congruence. }
  destruct Hf as (_ & _ & Hsz & Hsha). exists record, vendor. rewrite He. cbn. split_and!; congruence.
Qed.

(** The trust policy of a staged repository is the one the plan selected. *)
Lemma staged_trust_selected r :
  r ∈ StagedInputs.repositories staged -> exists digest, trust_sha256 (StagedRepository.trust r) = Ok digest /\
    forall binding, binding ∈ PlanEnvelope.selected_repositories (CanonicalSolverPlan.proposal plan) ->
      RepositoryBinding.id binding = NativeRepository.id (StagedRepository.repository r) ->
      Sha256Digest.as_str digest = Sha256Digest.as_str (RepositoryBinding.trust_sha256 binding).
Proof using Hbound Hstaged.
  intros Hr. destruct (Forall2_elem_r _ _ _ _ (proj1 Hstaged) Hr) as (i & Hi & Hid & f & Hf & Hparse).
  pose proof (in_repositories _ _ _ _ Hbound) as Hall. rewrite Forall_forall in Hall.
  destruct (bound_trust _ _ _ (Hall i Hi)) as (f' & trust & digest & Hf' & Hparse' & _ & Hd & Hsha & _).
  assert (f' = f) as -> by (destruct Hf as [E _], Hf' as [E' _]; congruence).
  rewrite Hparse in Hparse'. injection Hparse' as <-. exists digest. split; [done |].
  intros binding Hb Hbid. destruct (in_bindings _ _ _ _ Hbound) as [_ Hbs]. rewrite Forall_forall in Hbs.
  destruct (Hbs binding Hb) as (j & Hj & Hjid & _ & _ & Ht).
  assert (j = i) as ->; [| congruence].
  apply (NoDup_fmap_same InputRepository.id (InputManifest.repositories m)); [| done | done | congruence].
  apply clt_sorted_NoDup, (in_order _ _ _ _ Hbound).
Qed.
End staging.

(** ** Items *)

Section items.
Context `{SnapshotEnv} `{CanonicalSolverPlan.PlanSerde} `{RpmLibrary} `{ErrnoText} `{SerdeJson InputManifest.t}.

(** The package of an action that installs: the identity, the digest and the size that the plan
    recorded, signed by a key that the trust policy of the selected repository allows. *)
Definition exact_install (plan : CanonicalSolverPlan.t) (action : ExplainedAction.t) (item : TransactionItem.t) : Prop :=
  exists file package digest size mode record vendor id trust trust_digest,
    item = TransactionItem.Install file package digest size mode /\
    mode_of (ExplainedAction.operation action) = Some mode /\
    (ExplainedAction.artifact action = Some record /\ ExplainedAction.vendor action = Some vendor /\
     ExplainedAction.repo_id action = Some id) /\
    (sha256_hex (ArtifactFile.content file) = ArtifactRecord.checksum_sha256 record /\
     Z.to_N (ArtifactFile.st_size file) = ArtifactRecord.package_size record) /\
    (VerifiedPackage.name package = ExplainedAction.name action /\
     VerifiedPackage.epoch package = display (Evra.epoch (ExplainedAction.target_evra action)) /\
     VerifiedPackage.version package = Evra.version (ExplainedAction.target_evra action) /\
     VerifiedPackage.release package = Evra.release (ExplainedAction.target_evra action) /\
     VerifiedPackage.arch package = Architecture.as_rpm_arch (Evra.arch (ExplainedAction.target_evra action)) /\
     (VerifiedPackage.vendor package = vendor \/ vendor = "unknown" /\ VerifiedPackage.vendor package = "")) /\
    VerifiedPackage.primary_fingerprint package ∈ RepoTrustPolicy.allowed_primary_fingerprints trust /\
    trust_sha256 trust = Ok trust_digest /\
    (forall binding, binding ∈ PlanEnvelope.selected_repositories (CanonicalSolverPlan.proposal plan) ->
       RepositoryBinding.id binding = id ->
       Sha256Digest.as_str trust_digest = Sha256Digest.as_str (RepositoryBinding.trust_sha256 binding)).

(** The installed package that an action removes, as the inventory has it. *)
Definition exact_erase (inventory : InstalledInventory.t) (action : ExplainedAction.t) (item : TransactionItem.t) : Prop :=
  exists instance header p digest,
    item = TransactionItem.Erase instance digest /\ ExplainedAction.operation action = "remove" /\
    ExplainedAction.installed_instance action = Some instance /\
    ExplainedAction.installed_header_sha256 action = Some header /\ hex_decode header = Some digest /\
    InstalledInventory.erase_target inventory instance header = Ok p.

Definition exact_item (plan : CanonicalSolverPlan.t) (inventory : InstalledInventory.t) (action : ExplainedAction.t)
    (item : TransactionItem.t) : Prop :=
  exact_install plan action item \/ exact_erase inventory action item.

Lemma planned_item_exact directory plan m staged now inventory action item :
  inputs_bound directory 0 plan m -> staged_from directory m staged ->
  NoDup (ExplainedAction.name <$> CanonicalSolverPlan.actions plan) ->
  action ∈ CanonicalSolverPlan.actions plan -> planned_item now staged inventory action item -> exact_item plan inventory action item.
Proof.
  intros Hbound Hstaged Hnames Hin [(v & digest & Hv & Hd & ->)|(instance & header & digest & p & Ho & Hi & Hh & He & Hd & ->)];
    [left | right; by exists instance, header, p, digest].
  destruct Hv as (id & s & r & k & Hid & Hmode & Hs & Hfor & Hr & Hrid & _ & Hk & Hfile & _ & Hvouched).
  apply list_elem_of_lookup_2 in Hs.
  destruct (staged_artifact_planned directory plan m Hbound staged Hstaged Hnames id action s Hin Hs Hfor)
    as (record & vendor & Hrecord & Hvendor & Hsha & Hsize & Harch & Hven).
  destruct (staged_trust_selected directory plan m Hbound staged Hstaged r Hr) as (td & Htd & Hsel).
  destruct Hvouched as (_ & Hfinger & _ & (Hn & Hep & Hve & Hre & Har & Hvn) & _ & _).
  unfold staged_for in Hfor. rewrite !andb_true_iff, !bool_decide_eq_true, N.eqb_eq in Hfor.
  destruct Hfor as ((((_ & En) & Eep) & Eve) & Ere).
  do 5 eexists. exists record, vendor, id, (StagedRepository.trust r), td. rewrite Hfile. unfold raw_expected.
  split; [reflexivity |]. cbn. split; [done |]. split; [done |]. split; [done |].
  split; [split_and!; [congruence | congruence | congruence | congruence | congruence |] |].
  - destruct Hvn as [Hvn|[Hu Hvn]]; [left; congruence | right; split; congruence].
  - split; [| split; [done | intros binding Hb Hbid; apply Hsel; congruence]].
    apply NativeTrustFacts.from_revalidated_bound in Hk as [_ Hallowed]. rewrite Hallowed in Hfinger.
    cbn in Hfinger. rewrite elem_of_dedup, elem_of_sort in Hfinger. exact Hfinger.
Qed.
End items.

(** ** Theorems *)

(** C6: the inputs that the executor accepts for a plan are a directory that only its owner may
    write, of the digest that was asked for, whose manifest names files that are all there, each
    under its own name, private to the owner and with the digest and the size of its descriptor;
    the policy, the repositories with their origins, trust policies and keys, and the packages
    are those whose digests the plan recorded, and every planned package is there exactly once. *)
Theorem accepted_inputs_bound `{SnapshotEnv} `{ErrnoText} `{SerdeJson InputManifest.t} {D}
    (parent : gmap string InputsDirectory.t) (digest : string) (plan : CanonicalSolverPlan.t) (owner : N)
    (w w' : world D) (directory : InputsDirectory.t) (m : InputManifest.t)
    (Hopen : open_under parent digest plan owner w = (w', Value (directory, m))) :
  parent !! digest = Some directory /\ inputs_bound directory owner plan m.
Proof.
  cut (yields (D:=D) (open_under parent digest plan owner) (fun r => parent !! digest = Some r.1 /\ inputs_bound r.1 owner plan r.2)).
  { intros Hy. exact (Hy _ _ _ Hopen). }
  eapply yields_bind; [apply (yields_sys _ (fun v => parent !! digest = Some v)) |].
  - intros d d' v. destruct (parent !! digest) as [v'|]; [| done]. by intros [= _ ->].
  - intros v Hv. eapply yields_bind; [apply open_locked_yields |]. intros m' Hm. by apply yields_ret.
Qed.

(** C7: the repositories that the executor accepts for a plan are those of the snapshot that the
    plan was made from: the same ids, priorities, costs, generations, digests of origins and
    trust policies, and files in the same roles; or else the text of the accepted repositories
    and the text of the snapshot's, the two that were hashed, differ and have one digest. *)
Theorem inputs_are_the_snapshots `{SnapshotEnv} `{ErrnoText} `{SerdeJson InputManifest.t} {D}
    (Hhex : forall l, valid_digest (sha256_hex l) = true)
    (directory : InputsDirectory.t) (owner : N) (plan : CanonicalSolverPlan.t) (m : InputManifest.t) (w w' : world D)
    (s : PlanningSnapshot.t) (ids : list string) (i : PlanIntegrity.t)
    (Hopen : open_locked directory owner plan w = (w', Value m))
    (Hintegrity : integrity_for_repositories s ids = Ok i)
    (Hmade : PlanEnvelope.metadata_sha256 (CanonicalSolverPlan.proposal plan) = PlanIntegrity.metadata_sha256 i)
    (Hwidths : Forall input_widths (InputManifest.repositories m))
    (Hwidths' : Forall SnapshotSafety.machine_widths (PlanningPayload.allowed_repositories (PlanningSnapshot.payload s))) :
  exists l ts, selected_repositories s ids = Ok l /\ SnapshotSafety.trusts l = Ok ts /\
    (input_view (InputManifest.schema_version m) <$> InputManifest.repositories m =
       Framing.repository_view (PlanningSnapshot.schema_version s) <$> zip l ts \/
     SnapshotSafety.collide (input_text (InputManifest.schema_version m) (InputManifest.repositories m))
       (SnapshotSafety.metadata_text (PlanningSnapshot.schema_version s) (zip l ts))).
Proof.
  apply (inputs_bind_snapshot directory owner plan m s ids i Hhex (open_locked_yields directory owner plan _ _ _ Hopen)
    Hwidths Hwidths' Hintegrity Hmade).
Qed.

Section theorem.
Context `{SnapshotEnv} `{CanonicalSolverPlan.PlanSerde} `{RpmLibrary} `{SerdeJson InputManifest.t}.
Context `{SerdeJson JournalEntry.t} `{!SerdeJsonLaws JournalEntry.t (fun _ => True)} `{SerdeJson ReasonState.t} `{ErrnoText}.
Context `{!JsonText JournalEntry.t JournalEntry.tree}.

End theorem.

(** *** An execution *)

#[local] Existing Instances JournalExamples.example_errno ExecuteExamples.env ExecuteExamples.keys ExecuteExamples.rpm
  ExecuteExamples.entries ExecuteExamples.entries_laws ExecuteExamples.entries_text ExecuteExamples.states ExecuteExamples.manifests.

Lemma accepted_inputs_bound_witness :
  NoDup (manifest_names ExecuteExamples.manifest) /\ length (manifest_names ExecuteExamples.manifest) = 9%nat /\
  Forall (present ExecuteExamples.inputs_directory 0) (manifest_files ExecuteExamples.manifest).
Proof.
  destruct (accepted_inputs_bound {["plan" := ExecuteExamples.inputs_directory]} "plan" ExecuteExamples.plan 0
    ExecuteExamples.idle ExecuteExamples.idle ExecuteExamples.inputs_directory ExecuteExamples.manifest) as [_ []].
  { vm_compute. reflexivity. }
  split; [assumption |]. split; [vm_compute; reflexivity | assumption].
Defined.

Lemma inputs_are_the_snapshots_witness :
  exists l ts, selected_repositories SnapshotExamples.snapshot ["fedora"] = Ok l /\ SnapshotSafety.trusts l = Ok ts /\
    input_view 5 <$> [ExecuteExamples.repository] = Framing.repository_view 7 <$> zip l ts.
Proof.
  destruct (@inputs_are_the_snapshots ExecuteExamples.env _ _ unit SnapshotExamples.toy_hex_valid ExecuteExamples.inputs_directory 0 ExecuteExamples.plan
    ExecuteExamples.manifest ExecuteExamples.idle ExecuteExamples.idle SnapshotExamples.snapshot ["fedora"] ExecuteExamples.integrity
    ExecuteExamples.inputs_open) as (l & ts & Hl & Hts & Hview).
  - vm_compute. reflexivity.
  - reflexivity.
  - repeat constructor.
  - exact SnapshotExamples.snapshot_widths.
  - exists l, ts. split; [exact Hl |]. split; [exact Hts |]. destruct Hview as [Hview | [Hne _]]; [exact Hview | exfalso].
    assert (El : selected_repositories SnapshotExamples.snapshot ["fedora"] = Ok [SnapshotExamples.repository])
      by (vm_compute; reflexivity).
    assert (Et : SnapshotSafety.trusts [SnapshotExamples.repository] = Ok [Sha256Digest.mk ExecuteExamples.trust_digest])
      by (vm_compute; reflexivity).
    rewrite El in Hl. injection Hl as <-. rewrite Et in Hts. injection Hts as <-.
    apply Hne. vm_compute. reflexivity.
Defined.

