(* ===== verification/ExecuteOutcome.v ===== *)
(** * What a successful execution leaves

    When the execution of a plan returns an inventory, the planned items ran to their end
    without a problem, the journal has the start, the result and the reconciliation with the
    digest of that inventory, and the reasons of the packages are recorded for it. *)
From S2P Require Import Prelude.
From S2P Require Import RustStr.
From S2P Require Import RustText.
From S2P Require Import Value.
From S2P Require Import Canonical.
From S2P Require Import Documents.
From S2P Require Import Policy.
From S2P Require Import CorePlan.
From S2P Require Import SolverModel.
From S2P Require Import SolverPlan.
From S2P Require Import CacheModel.
From S2P Require Import Snapshot.
From S2P Require Import Effects.
From S2P Require Import StateFs.
From S2P Require Import Journal.
From S2P Require Import JournalFacts.
From S2P Require Import JournalSafety.
From S2P Require Import StateFile.
From S2P Require Import ReasonState.
From S2P Require Import ReasonFacts.
From S2P Require Import NativeTrust.
From S2P Require Import Artifact.
From S2P Require Import ExecutorInventory.
From S2P Require Import RootInputs.
From S2P Require Import StagedInputs.
From S2P Require Import Execute.
From S2P Require Import ExecuteFacts.
From S2P Require Import ExecuteExamples.
From S2P Require Import ExecuteSafety.

#[local] Open Scope N_scope.

(** Nothing is said of failures here. *)
Definition anything {D : Type} (_ : D) : Prop := True.

Section outcome.
Context `{SnapshotEnv} `{RpmLibrary} `{SerdeJson JournalEntry.t} `{!SerdeJsonLaws JournalEntry.t (fun _ => True)} `{ErrnoText} (pid : N).
Context `{!JsonText JournalEntry.t JournalEntry.tree}.

(** The entries after one more legal step. *)
Definition advanced (es : list JournalEntry.t) next native reconciliation (es' : list JournalEntry.t) : Prop :=
  exists e, next_entry es next native reconciliation = Some e /\ may_follow es next /\ es' = es ++ [e].

Lemma grown_advanced es next native reconciliation d :
  grown es next native reconciliation d -> exists es', advanced es next native reconciliation es' /\ holds es' d.
Proof. intros (e & He & Hm & Hh). eexists. split; [by exists e | done]. Qed.

(** A machine whose database is [db] and whose reasons are [r], with a journal of [J]. *)
Definition stage (db : rpmdb) (r : directory) (J : directory -> Prop) (m : machine) : Prop :=
  database m = db /\ reasons_dir m = r /\ Executor.journal (executor m) = true /\ J (journal_dir m).

Lemma stage_rest db r J m m' : stage db r J m -> at_rest m m' -> stage db r J m'.
Proof.
  intros (Hd & Hr & Hf & Hj) E. injection E as E1 E2 E3 _ E5.
  split; [congruence |]. split; [congruence |]. split; [congruence |]. by rewrite E2.
Qed.

Lemma stage_step {E A B} (m : Effects.io FaultPoint.t E machine A) (k : A -> Effects.io FaultPoint.t E machine B) db r J Q :
  within at_rest m -> (forall a, Effects.triple (stage db r J) (k a) Q anything) ->
  Effects.triple (stage db r J) (m ≫= k) Q anything.
Proof.
  intros Hm Hk. eapply triple_bind; [| exact Hk].
  eapply triple_conseq; [apply (triple_within at_rest m (stage db r J)) | done | done | done]; [done |].
  apply stage_rest.
Qed.

Lemma journal_step es db r next native reconciliation :
  payload_fits native reconciliation ->
  Effects.triple (stage db r (holds es)) (in_journal (transition pid next native reconciliation))
    (fun _ => stage db r (grown es next native reconciliation)) anything.
Proof using JsonText0 SerdeJsonLaws0.
  intros Hfits. apply triple_all. intros m (Hd & Hr & Hf & Hj).
  eapply triple_conseq; [apply (triple_zoom journal_dir set_journal_dir _ m) | done | | done].
  - apply (transition_triple pid es); [done |]. intros e He Hv.
    by eapply fits_readable, next_fits; [| exact Hfits |].
  - intros [] m' (d & -> & Hg). by split_and!.
Qed.

Lemma reconcile_step es db r result :
  Effects.triple (stage db r (holds es)) (in_journal (reconcile pid result))
    (fun _ => stage db r (grown es JournalState.Reconciled None (Some result))) anything.
Proof using JsonText0 SerdeJsonLaws0.
  apply triple_all. intros m (Hd & Hr & Hf & Hj).
  eapply triple_conseq; [apply (triple_zoom journal_dir set_journal_dir _ m (fun _ => grown es JournalState.Reconciled None (Some result)) anything) | done | | done].
  - unfold reconcile. apply triple_lift_bind; [done |]. intros [] Hdigest.
    eapply triple_conseq; [apply (transition_triple pid es) | done | done | done]; [done |]. intros e He Hv.
    eapply fits_readable, next_fits; [done | by eapply reconcile_fits | exact He].
  - intros [] m' (d & -> & Hg). by split_and!.
Qed.

Lemma triple_pre {E A} P' P (m : Effects.io FaultPoint.t E machine A) Q (R : machine -> Prop) :
  (forall d, P d -> P' d) -> Effects.triple P' m Q R -> Effects.triple P m Q R.
Proof. intros HP Hm w Hw. by apply Hm, HP. Qed.

(** *** Stateful failures never return *)

Lemma triple_anything {E A} (m : Effects.io FaultPoint.t E machine A) (P : machine -> Prop) : Effects.triple P m (fun _ => anything) anything.
Proof. intros w _. by destruct (m w) as [w' [a|e|]]. Qed.

Lemma stateful_raises {A} name e (Q : A -> machine -> Prop) :
  Effects.triple anything (stateful_or_preflight pid name e) Q anything.
Proof.
  unfold stateful_or_preflight. eapply triple_bind; [apply triple_anything |]. intros runs. destruct (_ =? _); [by intros w _ |].
  do 3 (eapply triple_bind; [apply triple_anything |]; intros ?). by intros w _.
Qed.

Lemma checked_triple {A} name (m : Effects.io FaultPoint.t InventoryError.t machine A) P (Q : A -> machine -> Prop) :
  Effects.triple P m Q anything -> Effects.triple P (checked pid name m) Q anything.
Proof.
  intros Hm. unfold checked. eapply triple_bind; [by apply triple_catch |]. intros [a|e].
  - by apply triple_done.
  - apply stateful_raises.
Qed.

(** *** The run *)

Section steps.
Context (es : list JournalEntry.t) (db : rpmdb) (j r : directory) (Hholds : holds es j) (l : list TransactionItem.t).

Definition finished : rpmdb := rpm_progress l (rpm_steps l db) db.

(** The entries of a successful run. *)
Definition run_entries (es2 : list JournalEntry.t) : Prop :=
  exists es1 callbacks,
    advanced es JournalState.Started None None es1 /\
    advanced es1 JournalState.RpmResult (Some (NativeResult.mk (RunOutcome.result (rpm_outcome false l db)) callbacks [])) None es2.

Definition run_recorded (m : machine) : Prop :=
  run_failed (rpm_outcome false l db) = false /\ exists es2, run_entries es2 /\ stage finished r (holds es2) m.

Lemma record_result_triple code es1 :
  Effects.triple (fun m => Context.problems (context m) = [] /\ stage finished r (holds es1) m) (record_result pid code)
    (fun _ m => exists callbacks, stage finished r (grown es1 JournalState.RpmResult (Some (NativeResult.mk code callbacks [])) None) m) anything.
Proof using JsonText0 SerdeJsonLaws0.
  unfold record_result. intros w [Hp Hs]. assert (Hf : Executor.journal (executor (fsys w)) = true) by apply Hs.
  unfold mbind at 1, io_mbind at 1, gets at 1. rewrite Hf. cbn [negb]. cbv iota beta.
  unfold mbind at 1, io_mbind at 1, gets at 1. unfold transaction_problems.
  unfold mbind at 1, io_mbind at 1, mbind at 1, io_mbind at 1, gets at 1. rewrite Hp. cbn [forallb mret io_mret].
  pose proof (journal_step es1 finished r JournalState.RpmResult
    (Some (NativeResult.mk code (CallbackSummary.mk 0 0 (TransactionCounts.script_stop (Context.counts (context (fsys w)))) 0
       (TransactionCounts.package_stop (Context.counts (context (fsys w)))) 0 false) [])) None) as Ht.
  specialize (Ht ltac:(split; [by intros res [= <-] | done])). apply (triple_map_raise (fun e => InventoryError.Journal (StateError.to_string e))) in Ht.
  specialize (Ht w Hs). unfold journal_error, record_rpm_result_with_problems.
  destruct (map_raise _ _ w) as [w' [[]|e|]]; [by eexists | done..].
Qed.

Lemma real_runs_keeps (P : machine -> Prop) : Effects.triple P real_runs (fun _ => P) anything.
Proof. by intros w Hw. Qed.

Lemma raises_after {A B} (m : Effects.io FaultPoint.t InventoryError.t machine A) (e : A -> InventoryError.t)
    (P : machine -> Prop) (Q : B -> machine -> Prop) :
  Effects.triple P (m ≫= fun a => raise (e a)) Q anything.
Proof. eapply triple_bind; [apply triple_anything |]. by intros a w _. Qed.

Lemma run_checked_outcome :
  Effects.triple (prepared db j r true l) (run_checked_transaction pid) (fun _ => run_recorded) anything.
Proof using JsonText0 SerdeJsonLaws0 Hholds.
  unfold run_checked_transaction. apply triple_rest; [apply in_state_rest | done |]. intros [].
  apply (triple_bind _ _ _ (fun o m => match o with Ok code => completed es db r true l code m | Err _ => True end)).
  { eapply triple_conseq; [apply triple_catch, triple_map_raise, (transaction_run_triple pid es db j r Hholds true l (eq l)) | done | | done]; [done |].
    by intros [code|e] m; [intros [_ ?] |]. }
  intros [code|e]; last first.
  { eapply triple_bind; [apply triple_anything |]. intros runs. destruct (_ =? _).
    - unfold preflight_error. eapply triple_bind; [apply triple_anything |]. intros ps. by destruct (bool_decide _); intros w _.
    - do 3 (eapply triple_bind; [apply triple_anything |]; intros ?). by intros w _. }
  eapply triple_bind; [apply (real_runs_keeps (completed es db r true l code)) |]. intros runs.
  destruct (negb _); [by apply raises_after |].
  apply (triple_bind _ _ _ (fun _ => completed es db r true l code)); [by apply triple_modify |]. intros [].
  apply (triple_bind _ _ _ (fun o m => match o with Ok _ => run_recorded m | Err _ => True end)).
  - eapply triple_conseq; [apply triple_attempt, (triple_all _ (completed es db r true l code)) | done | | done].
    + intros m (Hd & Hr & Hf & Hp & (e1 & Hn1 & Hm1 & Hh1) & Hrf & ->).
      eapply triple_conseq; [apply (record_result_triple (RunOutcome.result (rpm_outcome false l db)) (es ++ [e1])) | | | done].
      { by intros ? <-. }
      intros [] m' (callbacks & Hd' & Hr' & Hf' & Hg). apply grown_advanced in Hg as (es2 & Ha & Hh).
      instantiate (1 := fun _ => run_recorded). split; [done |]. exists es2. split; [| by split_and!].
      exists (es ++ [e1]), callbacks. split; [by exists e1 | done].
    + by intros [[]|e] m.
  - intros [[]|e]; [by apply triple_done | by apply raises_after].
Qed.

(** *** The reconciliation *)

Definition identities_agree (plan : CanonicalSolverPlan.t) (expected : option (list identity)) (after : InstalledInventory.t) : Prop :=
  forall wanted, expected = Some wanted -> actual_identities (changed_names plan) after = sort wanted.

(** The run and the reconciliation with [after] are in the journal. *)
Definition reconciled (plan : CanonicalSolverPlan.t) (expected : option (list identity)) (after : InstalledInventory.t) (m : machine) : Prop :=
  (run_failed (rpm_outcome false l db) = false /\ InstalledInventory.validate after = Ok tt /\
   identities_agree plan expected after) /\
  (exists es2 es3 content changed, run_entries es2 /\ inventory_bytes after = Ok content /\
    advanced es2 JournalState.Reconciled None (Some (ReconcileResult.mk (sha256_hex content) true changed)) es3 /\
    stage finished r (holds es3) m).

Lemma inventory_bytes_valid i content : inventory_bytes i = Ok content -> InstalledInventory.validate i = Ok tt.
Proof. unfold inventory_bytes. simpl. intros ([] & Hv & _)%bind_ok. done. Qed.

Lemma check_identities_ok plan expected i :
  check_identities (Some (changed_names plan)) expected i = Ok tt -> identities_agree plan expected i.
Proof. intros Hc wanted ->. simpl in Hc. apply reject_if_ok in Hc. by bool_inv. Qed.

Lemma same_keeps {E A} (P : machine -> Prop) (m : Effects.io FaultPoint.t E machine A) :
  within eq m -> Effects.triple P m (fun _ => P) anything.
Proof.
  intros Hm. eapply triple_conseq; [apply (triple_within eq m P) | done | done | done]; [done |]. by intros ? ? ? <-.
Qed.

Lemma run_keeps {E A} (m : Effects.io FaultPoint.t E machine A) :
  within at_rest m -> Effects.triple run_recorded m (fun _ => run_recorded) anything.
Proof.
  intros Hm. eapply triple_conseq; [apply (triple_within at_rest m run_recorded) | done | done | done]; [done |].
  intros d d' (Hf & es2 & Hr & Hs) Hd. split; [done |]. exists es2. split; [done | by eapply stage_rest].
Qed.

Lemma run_step {E A B} (m : Effects.io FaultPoint.t E machine A) (k : A -> Effects.io FaultPoint.t E machine B) Q :
  within at_rest m -> (forall a, Effects.triple run_recorded (k a) Q anything) -> Effects.triple run_recorded (m ≫= k) Q anything.
Proof. intros Hm Hk. eapply triple_bind; [by apply run_keeps | exact Hk]. Qed.

Lemma reconcile_triple plan expected :
  Effects.triple run_recorded (reconcile_with_success pid true (Some (changed_names plan)) expected)
    (fun _ m => reconciled plan expected (Executor.inventory (executor m)) m) anything.
Proof using JsonText0 SerdeJsonLaws0.
  unfold reconcile_with_success, domain_call. apply run_step; [apply in_state_rest |]. intros [].
  eapply triple_bind; [apply (triple_gets executor run_recorded anything) |]. intros ex.
  apply (triple_pre (fun m => Executor.journal ex = true /\ run_recorded m)).
  { intros m [-> Hm]. split; [| done]. by destruct Hm as (_ & es2 & _ & _ & _ & Hf & _). }
  apply triple_pure. intros Hj. apply triple_lift_bind; [done |]. intros before _.
  apply run_step; [apply read_after_rest |]. intros [after cookie]. cbn [fst snd].
  apply triple_lift_bind; [done |]. intros [] Hids%check_identities_ok.
  apply triple_lift_bind; [done |]. intros content Hc%map_err_ok. rewrite Hj.
  apply (triple_bind _ _ _ (fun _ => reconciled plan expected after)).
  - apply triple_all. intros m (Hrf & es2 & Hr & Hs).
    eapply triple_conseq; [apply triple_map_raise, (reconcile_step es2 finished r (ReconcileResult.mk (sha256_hex content) true
      (if bool_decide (before = content) then 0 else 1))) | by intros ? <- | | done].
    intros [] m' (Hd & Hr' & Hf & Hg). apply grown_advanced in Hg as (es3 & Ha & Hh).
    split; [split; [done | split; [by eapply inventory_bytes_valid | done]] |].
    eexists es2, es3, content, _. split_and!; [done | done | exact Ha | by split_and!].
  - intros []. eapply triple_bind; [apply (triple_modify _ _ (fun m => Executor.inventory (executor m) = after /\ reconciled plan expected after m)) |].
    + intros m (Hfacts & es2 & es3 & c & n & Hr & Hb & Ha & Hd & Hre & Hf & Hh). split; [done |]. split; [done |].
      exists es2, es3, c, n. by split_and!.
    + intros []. apply triple_done. by intros m [-> Hm].
Qed.

(** *** The whole transaction *)

Context `{SerdeJson ReasonState.t} `{!SerdeJsonLaws ReasonState.t (fun _ => True)}.
Context `{!JsonText ReasonState.t ReasonState.tree}.

(** The identities that are expected where the database had its mark. *)
Definition wanted_identities (plan : CanonicalSolverPlan.t) (inventory : InstalledInventory.t) (cookie : option string)
    (expected : option (list identity)) : Prop :=
  match cookie with
  | Some _ => exists wanted, expected = Some wanted /\ expected_incremental_identities plan inventory = Ok wanted
  | None => expected = None
  end.

(** What a successful execution leaves. *)
Definition executed (plan : CanonicalSolverPlan.t) (staged : StagedInputs.t) (inventory : InstalledInventory.t)
    (cookie : option string) (s : ReasonState.t) (after : InstalledInventory.t) (m : machine) : Prop :=
  exists expected m' s', wanted_identities plan inventory cookie expected /\ reconciled plan expected after m' /\
    database m = database m' /\ journal_dir m = journal_dir m' /\
    recorded s inventory after (CanonicalSolverPlan.proposal plan) (StagedInputs.policy staged) s' /\
    stored s' (reasons_dir m).

Lemma transact_outcome plan staged inventory cookie s :
  reads_as reason_store s r ->
  Effects.triple (prepared db j r true l) (transact pid plan staged inventory cookie) (executed plan staged inventory cookie s) anything.
Proof.
  intros Hs. unfold transact.
  apply triple_rest; [apply within_map_raise, test_checked_transaction_rest | done |]. intros _.
  apply triple_rest; [apply mount_within, _ | done |]. intros [].
  apply (triple_bind _ _ _ (fun _ => run_recorded)); [by apply checked_triple, run_checked_outcome |]. intros _.
  apply (triple_bind _ _ _ (fun _ => run_recorded)).
  { destruct cookie; [by apply triple_done |]. apply checked_triple, run_keeps, verify_transaction_db_rest. }
  intros []. apply triple_lift_bind; [done |]. intros expected Hexp.
  apply (triple_bind _ _ _ (fun _ m => reconciled plan expected (Executor.inventory (executor m)) m)).
  { apply checked_triple. destruct expected as [wanted|]; apply reconcile_triple. }
  intros _. eapply triple_bind; [apply triple_map_raise, same_keeps, mount_within, _ |]. intros [].
  eapply triple_bind; [apply triple_gets |]. intros after. apply triple_all. intros m [Ha Hm]. rewrite <- Ha in Hm.
  assert (Hafter : InstalledInventory.validate after = Ok tt) by apply Hm.
  assert (Hr : reasons_dir m = r) by (destruct Hm as (_ & es2 & es3 & c & n & _ & _ & _ & _ & Hr & _); exact Hr).
  destruct (record_success_triple pid r s inventory after (CanonicalSolverPlan.proposal plan)
    (StagedInputs.policy staged) Hs Hafter) as (s' & Hrec & Ht).
  apply (triple_bind _ _ _ (fun _ => executed plan staged inventory cookie s after)); [| intros []; by apply triple_done].
  eapply triple_conseq; [apply triple_map_raise, (triple_zoom reasons_dir set_reasons_dir _ m) | by intros ? <- | | done].
  - rewrite Hr. eapply triple_conseq; [exact Ht | done | done | done].
  - intros [] m' (d & -> & Hd). exists expected, m, s'. split_and!; try done.
    destruct cookie; simpl in *; [| by injection Hexp].
    destruct (expected_incremental_identities plan inventory) as [wanted|] eqn:Ew; [| done].
    exists wanted. by injection Hexp.
Qed.
End steps.

Context `{SerdeJson ReasonState.t} `{!SerdeJsonLaws ReasonState.t (fun _ => True)}.
Context `{!JsonText ReasonState.t ReasonState.tree}.

Lemma run_inner_outcome es m0 s now authority plan staged inventory cookie root :
  holds es (journal_dir m0) -> reads_as reason_store s (reasons_dir m0) ->
  NoDup (ExplainedAction.name <$> CanonicalSolverPlan.actions plan) ->
  Effects.triple (based (database m0) (journal_dir m0) (reasons_dir m0)) (run_inner pid now authority plan staged inventory cookie root)
    (fun after m => exists l, Forall2 (planned_item now staged inventory) (CanonicalSolverPlan.actions plan) l /\
       executed es (database m0) (reasons_dir m0) l plan staged inventory cookie s after m) anything.
Proof using JsonText0 JsonText1 SerdeJsonLaws0 SerdeJsonLaws1.
  intros Hh Hs Hnd. unfold run_inner. apply triple_lift_bind; [done |]. intros keyrings Hks.
  apply (triple_seq _ _ _ (fun vs => Forall2 (verified_for now staged) (base.filter (fun a => installs a = true)
    (CanonicalSolverPlan.actions plan)) vs)).
  { eapply triple_conseq; [by apply (verify_triple now staged keyrings _
      (based (database m0) (journal_dir m0) (reasons_dir m0))) | done | done | done]. }
  intros vs Hvs. apply triple_lift_bind; [done |]. intros keyring _. apply triple_finally.
  eapply triple_bind; [eapply triple_conseq; [apply begin_triple | done | done | done] |]. intros [].
  eapply triple_bind; [eapply triple_conseq; [by apply triple_map_raise, bind_journal_triple | done | done | done] |]. intros [].
  eapply triple_bind; [eapply triple_conseq; [by apply (add_actions_triple now staged inventory keyring vs _ (database m0)
    (journal_dir m0) (reasons_dir m0) true anything) | done | done | done] |]. intros [].
  apply triple_exists. intros l. apply triple_pure. intros Hl.
  eapply triple_conseq; [by apply (transact_outcome es (database m0) (journal_dir m0) (reasons_dir m0) Hh l plan staged inventory cookie s) | done | | done].
  intros after m (expected & m' & s' & Hw & Hr & Hd & Hj & Hrec & Hread). exists l. split; [done |]. by exists expected, m', s'.
Qed.
End outcome.

(** ** Theorem *)

Section theorem.
Context `{SnapshotEnv} `{RpmLibrary} `{SerdeJson JournalEntry.t} `{!SerdeJsonLaws JournalEntry.t (fun _ => True)}.
Context `{SerdeJson ReasonState.t} `{!SerdeJsonLaws ReasonState.t (fun _ => True)} `{ErrnoText}.
Context `{!JsonText JournalEntry.t JournalEntry.tree}.
Context `{!JsonText ReasonState.t ReasonState.tree}.

End theorem.

(** *** An execution *)

#[local] Existing Instances JournalExamples.example_errno ExecuteExamples.env ExecuteExamples.keys ExecuteExamples.rpm
  ExecuteExamples.entries ExecuteExamples.entries_laws ExecuteExamples.entries_text
  ExecuteExamples.states ExecuteExamples.states_laws ExecuteExamples.states_text.

