(* ===== verification/Recovery.v ===== *)
(** * Recovery before a new transaction ([dnfast-executor]: recovery.rs)

    Before an executor stages anything it goes through the journals of earlier transactions: one
    that was only prepared loses its staging directory, one that may have run is closed as failed
    with the inventory of the database as it is now, one that is closed stays.  The host has the
    journals, the staging root and the machine of ExecutorInventory, whose database is only
    read. *)
From S2P Require Import Prelude.
From S2P Require Import RustStr.
From S2P Require Import Value.
From S2P Require Import Canonical.
From S2P Require Import Documents.
From S2P Require Import CacheModel.
From S2P Require Import Snapshot.
From S2P Require Import Effects.
From S2P Require Import StateFs.
From S2P Require Import Journal.
From S2P Require Import NativeTrust.
From S2P Require Import ExecutorInventory.
From S2P Require Import RootInputs.
From S2P Require Import Execute.

#[local] Open Scope N_scope.

Record host `{RpmLibrary} : Type := mk_host {
  journals : root;
  staging : root;
  rpm : machine
}.

Section recovery.
Context `{SnapshotEnv} `{RpmLibrary} `{SerdeJson JournalEntry.t} `{ErrnoText} (pid : N).

Definition set_journals (v : root) (h : host) : host := mk_host _ _ v (staging h) (rpm h).
Definition set_rpm (v : machine) (h : host) : host := mk_host _ _ (journals h) (staging h) v.

(** ** Reading the inventory without a transaction *)

(** [Context::read_inventory_cached] of the root [/]: the lock for reading, then the cookie. *)
Definition read_inventory_cached (expected_cookie : option string) : Effects.io FaultPoint.t SysError.t machine InventoryRead.t :=
  _ ← sync;
  cookie ← take_cookie;
  if bool_decide (expected_cookie = Some cookie) then mret (InventoryRead.mk cookie None)
  else
    d ← gets database;
    inventory ← lift (rpmdb_inventory d None);
    mret (InventoryRead.mk cookie (Some inventory)).

#[local] Abbreviation inventory_io := (Effects.io FaultPoint.t InventoryError.t machine).

(** [read_snapshot_from_context]. *)
Definition read_snapshot_from_context : inventory_io (InstalledInventory.t * string) :=
  cache ← gets cached;
  read ← native_call (read_inventory_cached (CachedInventory.cookie <$> cache));
  inventory ← finish_cached_read read;
  mret (inventory, InventoryRead.cookie read).

Definition read_from_context : inventory_io InstalledInventory.t :=
  snapshot ← read_snapshot_from_context;
  mret snapshot.1.

(** [InventoryReader::open]: a context of its own, of which only the pool is checked. *)
Definition open_reader (architecture : Architecture.t) : inventory_io unit :=
  _ ← lift (map_err InventoryError.Native (pool_architecture architecture));
  native_call sync.

(** ** Recovery *)

#[local] Abbreviation recovery_io := (Effects.io FaultPoint.t ExecutorError.t host).

Definition state {A} (m : Effects.io FaultPoint.t StateError.t host A) : recovery_io A :=
  map_raise (fun e => ExecutorError.Plan (StateError.to_string e)) m.

Definition inventory {A} (m : inventory_io A) : recovery_io A :=
  map_raise (fun e => ExecutorError.Plan (InventoryError.to_string e)) (zoom rpm set_rpm m).

Definition in_journals {A} (m : io root A) : Effects.io FaultPoint.t StateError.t host A :=
  zoom journals set_journals m.

(** An operation on the open journal [name] and the staging root. *)
Definition with_staging {A} (name : string) (m : io (directory * root) A) :
    Effects.io FaultPoint.t StateError.t host A := fun w =>
  match children (journals (fsys w)) !! name with
  | Some (Some d) =>
      zoom (fun h => (d, staging h))
        (fun p h => mk_host _ _ (with_children (<[name := Some p.1]>) (journals h)) p.2 (rpm h)) m w
  | _ => (w, Raised (StateError.Io enoent))
  end.

(** The lock goes with the journal. *)
Definition release (name : string) (h : host) : host :=
  set_journals (with_children (alter (fmap (set_locked false)) name) (journals h)) h.

Definition recover_transaction (architecture : Architecture.t) (id : TransactionId.t) : recovery_io unit :=
  let name := TransactionId.as_str id in
  _ ← state (in_journals (open_journal id));
  finally (
    action ← state (with_staging name (recover_with_staging pid id));
    match action with
    | RecoveryAction.CleanupRevalidateAndReapprove | RecoveryAction.Terminal _ => mret tt
    | RecoveryAction.ReconcileOnly =>
        _ ← inventory (open_reader architecture);
        current ← inventory read_from_context;
        content ← lift (map_err (fun e => ExecutorError.Plan (DomainError.to_string e)) (inventory_bytes current));
        state (in_journals (in_dir name (reconcile pid (ReconcileResult.mk (sha256_hex content) false 0))))
    end)
    (release name).

Definition recover_pending_transactions (architecture : Architecture.t) : recovery_io unit :=
  ids ← state (in_journals transaction_ids);
  for_io (recover_transaction architecture) ids.
End recovery.
