(* ===== verification/RecoveryFacts.v ===== *)
(** * Recovery closes what may have run and touches nothing else

    What a recovery may write, whatever fails in it; and that an undisturbed one leaves every
    transaction prepared or closed. *)
From S2P Require Import Prelude.
From S2P Require Import RustStr.
From S2P Require Import Value.
From S2P Require Import Canonical.
From S2P Require Import Documents.
From S2P Require Import CacheModel.
From S2P Require Import Snapshot.
From S2P Require Import Effects.
From S2P Require Import StateFs.
From S2P Require Import Journal.
From S2P Require Import JournalFacts.
From S2P Require Import JournalSafety.
From S2P Require Import NativeTrust.
From S2P Require Import ExecutorInventory.
From S2P Require Import RootInputs.
From S2P Require Import Execute.
From S2P Require Import ExecuteFacts.
From S2P Require Import ExecuteExamples.
From S2P Require Import Recovery.

#[local] Open Scope N_scope.

(** What is computed is known to what follows. *)
Lemma within_lift_bind {F E D A B} (R : relation D) `{!PreOrder R} (r : result E A) (k : A -> Effects.io F E D B) :
  (forall a, r = Ok a -> within R (k a)) -> within R (lift r ≫= k).
Proof. intros Hk w. unfold mbind, io_mbind, lift. destruct r as [a|e]; [by apply Hk | done]. Qed.

Section recovery.
Context `{SnapshotEnv} `{RpmLibrary} `{SerdeJson JournalEntry.t} `{!SerdeJsonLaws JournalEntry.t (fun _ => True)}.
Context `{!JsonText JournalEntry.t JournalEntry.tree} `{ErrnoText} (pid : N).

(** ** Journals *)

(** The reconciliation of a transaction about which only the inventory is known. *)
Definition failed_with (content : list byte) : ReconcileResult.t := ReconcileResult.mk (sha256_hex content) false 0.

(** One entry more: the unknown result of a transaction that started, or its failure. *)
Inductive closing (es es' : list JournalEntry.t) : Prop :=
  | closing_unknown e :
      next_entry es JournalState.RpmResult (Some unknown_result) None = Some e ->
      may_follow es JournalState.RpmResult -> es' = es ++ [e] -> closing es es'
  | closing_failed inventory content e :
      inventory_bytes inventory = Ok content ->
      next_entry es JournalState.Reconciled None (Some (failed_with content)) = Some e ->
      may_follow es JournalState.Reconciled -> es' = es ++ [e] -> closing es es'.

Definition closes (d d' : directory) : Prop :=
  forall es, holds es d -> exists es', rtc closing es es' /\ holds es' d'.

#[global] Instance closes_preorder : PreOrder closes.
Proof.
  split; [by intros d es Hes; exists es |]. intros d d' d'' H1' H2' es Hes.
  destruct (H1' es Hes) as (es1 & Hc1 & Hh1). destruct (H2' es1 Hh1) as (es2 & Hc2 & Hh2).
  exists es2. split; [by etrans | done].
Qed.

Lemma closes_locked b d : closes d (set_locked b d).
Proof. intros es []. exists es. split; [done | by split]. Qed.

Lemma closing_state es es' : closing es es' ->
  exists e, last es' = Some e /\ (JournalEntry.state e = JournalState.RpmResult \/ JournalEntry.state e = JournalState.Reconciled).
Proof.
  unfold next_entry. intros [e (e0 & _ & ->)%fmap_Some _ ->|i c e _ (e0 & _ & ->)%fmap_Some _ ->];
    rewrite last_snoc; (eexists; split; [done |]); [by left | by right].
Qed.

Lemma closing_rank es es' : closing es es' ->
  exists e e', last es = Some e /\ last es' = Some e' /\ length es' = S (length es) /\
    rank (JournalEntry.state e') = S (rank (JournalEntry.state e)) /\ (1 <= rank (JournalEntry.state e))%nat.
Proof.
  unfold next_entry. intros Hc.
  assert (Hx : exists e next native result, last es = Some e /\ legal (JournalEntry.state e) next = true /\
    (1 <= rank (JournalEntry.state e))%nat /\ es' = es ++ [JournalEntry.mk 1 (JournalEntry.transaction_id e)
      (JournalEntry.plan_sha256 e) (JournalEntry.sequence e + 1) next native result]).
  { destruct Hc as [e (e0 & Hl & ->)%fmap_Some (e1 & Hl1 & Hm) ->|i c e _ (e0 & Hl & ->)%fmap_Some (e1 & Hl1 & Hm) ->];
      (rewrite Hl in Hl1; injection Hl1 as <-; eexists _, _, _, _; split; [done |]; split; [exact Hm |]; split; [| done]);
      apply legal_rank in Hm; simpl in Hm; lia. }
  destruct Hx as (e & next & native & result & Hl & Hm & Hr & ->). eexists e, _. split; [done |].
  split; [apply last_snoc |]. split; [rewrite length_app; simpl; lia |]. split; [by apply legal_rank | done].
Qed.

(** At most two entries more, and none to a transaction that did not start. *)
Lemma closings_rank es es' : rtc closing es es' -> es' = es \/
  exists e e', last es = Some e /\ last es' = Some e' /\
    (length es' + rank (JournalEntry.state e) = length es + rank (JournalEntry.state e'))%nat /\
    (1 <= rank (JournalEntry.state e))%nat.
Proof.
  induction 1 as [es|es es1 es2 (e & e1 & Hl & Hl1 & Hn & Hr & Hle)%closing_rank _ IH]; [by left |]. right.
  destruct IH as [->|(e1' & e2 & Hl1' & Hl2 & Hn2 & Hle2)].
  - exists e, e1. split_and!; [done | done | lia | done].
  - rewrite Hl1 in Hl1'. injection Hl1' as <-. exists e, e2. split_and!; [done | done | lia | done].
Qed.

Lemma closing_prepared es es' e :
  rtc closing es es' -> last es' = Some e -> JournalEntry.state e = JournalState.Prepared -> es' = es.
Proof.
  intros [->|(mid & _ & (e' & Hl' & Hs')%closing_state)]%rtc_inv_r Hl Hs; [done |]. destruct Hs'; congruence.
Qed.

Lemma within_closes {A} (m : io directory A) :
  (forall es d, holds es d -> Effects.triple (eq d) m (fun _ d' => exists es', rtc closing es es' /\ holds es' d')
                        (fun d' => exists es', rtc closing es es' /\ holds es' d')) ->
  within closes m.
Proof.
  intros Hm w es Hes. specialize (Hm es (fsys w) Hes w eq_refl). by destruct (m w) as [w' [a|e|]].
Qed.

Lemma recover_closes : within closes (recover pid).
Proof using JsonText0 SerdeJsonLaws0.
  apply within_closes. intros es d Hes.
  assert (Hsame : forall d', holds es d' -> exists es', rtc closing es es' /\ holds es' d') by (intros; by exists es).
  assert (Hmore : forall d', grown es JournalState.RpmResult (Some unknown_result) None d' ->
    exists es', rtc closing es es' /\ holds es' d').
  { intros d' (e & Hn & Hm & Hh). exists (es ++ [e]). split; [| done]. by apply rtc_once, (closing_unknown es _ e). }
  eapply triple_conseq; [by apply (recover_triple pid es d) | done | |].
  - intros action d'. unfold recovered. destruct (last es) as [e|]; simpl; [| done].
    destruct (JournalEntry.state e); naive_solver.
  - intros d' [?|?]; auto.
Qed.

Lemma reconcile_closes inventory content :
  inventory_bytes inventory = Ok content -> within closes (reconcile pid (failed_with content)).
Proof using JsonText0 SerdeJsonLaws0.
  intros Hc. apply within_closes. intros es d Hes.
  assert (Hsame : forall d', holds es d' -> exists es', rtc closing es es' /\ holds es' d') by (intros; by exists es).
  assert (Hmore : forall d', grown es JournalState.Reconciled None (Some (failed_with content)) d' ->
    exists es', rtc closing es es' /\ holds es' d').
  { intros d' (e & Hn & Hm & Hh). exists (es ++ [e]). split; [| done]. by apply rtc_once, (closing_failed es _ inventory content e). }
  unfold reconcile. apply triple_lift_bind; [by intros ? <-; apply Hsame |]. intros [] Hd.
  eapply triple_conseq; [apply (transition_triple pid es d _ _ _ Hes) | done | |].
  - intros e He Hv. eapply fits_readable, next_fits; [done | by eapply reconcile_fits | exact He].
  - intros [] d' Hg. by apply Hmore.
  - intros d' [?|?]; auto.
Qed.

(** ** The store *)

Definition child_closes (o o' : option (option directory)) : Prop :=
  match o, o' with Some (Some d), Some (Some d') => closes d d' | _, _ => o' = o end.

Definition store_closes (r r' : root) : Prop :=
  root_non_utf8 r' = root_non_utf8 r /\ forall name, child_closes (children r !! name) (children r' !! name).

#[global] Instance child_closes_preorder : PreOrder child_closes.
Proof.
  split; [by intros [[d|]|]; simpl |].
  intros [[d|]|] [[d'|]|] [[d''|]|]; simpl; try done. by intros; etrans.
Qed.

#[global] Instance store_closes_preorder : PreOrder store_closes.
Proof.
  split; [by split |]. intros r r' r'' [E1 H1'] [E2 H2']. split; [congruence |].
  intros name. by trans (children r' !! name).
Qed.

Lemma store_insert r name d d' :
  children r !! name = Some (Some d) -> closes d d' -> store_closes r (with_children (<[name := Some d']>) r).
Proof.
  intros Hd Hc. split; [done |]. intros other. simpl.
  destruct (decide (other = name)) as [->|Hne]; [by rewrite lookup_insert_eq, Hd | by rewrite lookup_insert_ne].
Qed.

Lemma in_dir_closes {A} name (m : io directory A) : within closes m -> within store_closes (in_dir name m).
Proof.
  intros Hm w. unfold in_dir. destruct (children (fsys w) !! name) as [[d|]|] eqn:Ed; [| done..].
  unfold zoom. specialize (Hm (mk_world d (faults w) (pending w))). destruct (m _) as [w' x].
  by eapply store_insert.
Qed.

Lemma open_journal_closes id : within store_closes (open_journal id).
Proof.
  unfold open_journal, open_transaction, lock. walk; [apply within_sys; [apply _ |] | apply in_dir_closes, within_sys; [apply _ |]..].
  - intros r r' []. destruct (children r !! _) as [[d|]|]; by intros [= <-].
  - intros d d' []. by destruct (private_dir d); intros [= <-].
  - intros d d' []. destruct (locked d); intros [= <-]. apply closes_locked.
Qed.

(** ** The staging root *)

Definition others_kept (name : string) (s s' : root) : Prop :=
  forall other, other <> name -> children s' !! other = children s !! other.

#[global] Instance others_kept_preorder name : PreOrder (others_kept name).
Proof. split; [by intros s other |]. intros s s' s'' H1' H2' other Hne. by rewrite H2', H1'. Qed.

Lemma in_dir_others {A} name (m : io directory A) : within (others_kept name) (in_dir name m).
Proof.
  intros w. unfold in_dir. destruct (children (fsys w) !! name) as [[d|]|]; [| done..].
  unfold zoom. destruct (m _) as [w' x]. intros other Hne. simpl. by rewrite lookup_insert_ne.
Qed.

Lemma cleanup_others name : within (others_kept name) (cleanup_private_child name).
Proof.
  unfold cleanup_private_child, open_transaction, remove_dir, child_names.
  walk; first [apply in_dir_others | apply within_sys; [apply _ |]]; intros s s' [] E;
    repeat case_match; simplify_eq; try done. intros other Hne. simpl. by rewrite lookup_delete_ne.
Qed.

Lemma recover_with_staging_others id :
  within (fun p p' => others_kept (TransactionId.as_str id) p.2 p'.2) (recover_with_staging pid id).
Proof.
  unfold recover_with_staging. set (R := fun p p' : directory * root => _).
  assert (PreOrder R).
  { split; [by intros p |]. intros p p' p'' H1' H2'. unfold R in *. by trans p'.2. }
  walk. 
  - apply (within_zoom R (fun _ _ => True)); [done | by intros w].
  - apply (within_zoom R (others_kept (TransactionId.as_str id))); [by intros [] ? | apply cleanup_others].
Qed.

Definition is_prepared (es : list JournalEntry.t) : Prop := JournalEntry.state <$> last es = Some JournalState.Prepared.

Lemma recover_with_staging_triple id es d s :
  holds es d ->
  let P p := (exists es', rtc closing es es' /\ holds es' p.1) /\ (p.2 = s \/ is_prepared es) in
  Effects.triple (eq (d, s)) (recover_with_staging pid id) (fun _ => P) P.
Proof using JsonText0 SerdeJsonLaws0.
  intros Hes P. unfold recover_with_staging.
  apply (triple_bind _ _ _ (fun action p => P p /\ (action = RecoveryAction.CleanupRevalidateAndReapprove -> is_prepared es))).
  - eapply triple_conseq.
    + apply (triple_zoom fst (fun d p => (d, p.2)) (recover pid) (d, s)
        (fun action d' => (exists es', rtc closing es es' /\ holds es' d') /\
           (action = RecoveryAction.CleanupRevalidateAndReapprove -> is_prepared es))
        (fun d' => exists es', rtc closing es es' /\ holds es' d')).
      intros w Hw. simpl in Hw. subst d. pose proof (recover_closes w es Hes) as Hc.
      pose proof (recover_triple pid es (fsys w) Hes w eq_refl) as Ht.
      destruct (recover pid w) as [w' [a|e|]]; [| done..]. split; [done |]. intros ->. unfold recovered in Ht.
      unfold is_prepared. destruct (last es) as [e|]; simpl in *; [| done].
      destruct (JournalEntry.state e); naive_solver.
    + done.
    + intros action p (d' & -> & Hc & Ha). split; [split; [done | by left] | done].
    + intros p (d' & -> & Hc). split; [done | by left].
  - intros action. case_bool_decide as Ha; last first.
    { eapply triple_bind; [apply triple_ret |]. intros []. apply triple_done. by intros p (_ & Hp & _). }
    intros w [Hp Hprep]. specialize (Hprep Ha).
    refine (triple_within (fun p p' : directory * root => p'.1 = p.1) _ P _ _ w Hp).
    + assert (PreOrder (fun p p' : directory * root => p'.1 = p.1)) by (split; [done | intros ? ? ?; congruence]).
      walk. by apply (within_zoom _ (fun _ _ => True)); [| intros w'].
    + intros p p' [Hx _] E. split; [by rewrite E | by right].
Qed.

(** ** The host *)

Record recovers (h h' : host) : Prop := {
  recovers_rpm : at_rest (rpm h) (rpm h');
  recovers_journals : store_closes (journals h) (journals h');
  recovers_other : forall name, children (journals h) !! name = None ->
    children (staging h') !! name = children (staging h) !! name;
  recovers_kept : forall name d es, children (journals h) !! name = Some (Some d) -> holds es d ->
    children (staging h') !! name = children (staging h) !! name \/ is_prepared es
}.

Lemma store_child r r' name d es :
  store_closes r r' -> children r !! name = Some (Some d) -> holds es d ->
  exists d' es', children r' !! name = Some (Some d') /\ rtc closing es es' /\ holds es' d'.
Proof.
  intros [_ Hc] Hd Hes. specialize (Hc name). rewrite Hd in Hc.
  destruct (children r' !! name) as [[d'|]|]; simpl in Hc; [| done..].
  destruct (Hc es Hes) as (es' & Hr & Hh). eauto.
Qed.

#[global] Instance recovers_preorder : PreOrder recovers.
Proof.
  split; [intros h; split; [done | done | done | by left] |].
  intros h h' h'' [R1 J1 O1 K1] [R2 J2 O2 K2]. split; [by etrans | by etrans | |].
  - intros name Hn. rewrite O2, O1; [done | done |]. destruct J1 as [_ J1]. specialize (J1 name). rewrite Hn in J1. exact J1.
  - intros name d es Hd Hes. destruct (K1 name d es Hd Hes) as [E|]; [| by right].
    destruct (store_child _ _ name d es J1 Hd Hes) as (d' & es' & Hd' & Hr & Hes').
    destruct (K2 name d' es' Hd' Hes') as [->|Hp]; [by left | right].
    unfold is_prepared in Hp. apply fmap_Some in Hp as (e & Hl & Hs).
    apply (closing_prepared es es' e) in Hr as ->; [| done..]. unfold is_prepared. rewrite Hl. simpl. congruence.
Qed.

Lemma in_journals_recovers {A} (m : io root A) : within store_closes m -> within recovers (in_journals m).
Proof. apply within_zoom. intros h r Hr. split; [done | done | done | by left]. Qed.

Lemma inventory_recovers {A} (m : Effects.io FaultPoint.t InventoryError.t machine A) :
  within at_rest m -> within recovers (inventory m).
Proof. intros Hm. apply within_map_raise, (within_zoom _ at_rest); [| done]. intros h v Hv. split; [done | done | done | by left]. Qed.

Lemma with_staging_recovers id :
  within recovers (with_staging (TransactionId.as_str id) (recover_with_staging pid id)).
Proof using JsonText0 SerdeJsonLaws0.
  intros w. set (name := TransactionId.as_str id). unfold with_staging.
  destruct (children (journals (fsys w)) !! name) as [[d|]|] eqn:Ed; [| done..].
  pose proof (recover_with_staging_others id (mk_world (d, staging (fsys w)) (faults w) (pending w))) as Ho.
  pose proof (fun es Hes => recover_with_staging_triple id es d (staging (fsys w)) Hes
                (mk_world (d, staging (fsys w)) (faults w) (pending w)) eq_refl) as Ht.
  unfold zoom. destruct (recover_with_staging pid id _) as [w' x]. simpl in Ho.
  assert (HP : forall es, holds es d -> (exists es', rtc closing es es' /\ holds es' (fsys w').1) /\
                ((fsys w').2 = staging (fsys w) \/ is_prepared es)).
  { intros es Hes. specialize (Ht es Hes). by destruct x. }
  split; simpl.
  - done.
  - eapply store_insert; [done |]. intros es Hes. apply (HP es Hes).
  - intros other Hn. apply Ho. intros ->. unfold name in Ed. congruence.
  - intros other d' es Hd' Hes. destruct (decide (other = name)) as [->|Hne]; [| left; by apply Ho].
    rewrite Ed in Hd'. injection Hd' as <-. destruct (HP es Hes) as [_ [->|]]; [by left | by right].
Qed.

Lemma release_recovers name h : recovers h (release name h).
Proof.
  split; [done | | done | by left]. split; [done |]. intros other. simpl.
  destruct (decide (other = name)) as [->|Hne]; [| by rewrite lookup_alter_ne].
  rewrite lookup_alter_eq. destruct (children (journals h) !! name) as [[d|]|]; simpl; [| done..]. apply closes_locked.
Qed.

Lemma open_reader_rest architecture : within at_rest (open_reader architecture).
Proof. unfold open_reader, native_call. steps. Qed.

Lemma read_from_context_rest : within at_rest read_from_context.
Proof.
  unfold read_from_context, read_snapshot_from_context, read_inventory_cached, native_call.
  steps; [apply take_cookie_rest | apply finish_cached_read_rest].
Qed.

Lemma recover_transaction_recovers architecture id : within recovers (recover_transaction pid architecture id).
Proof using JsonText0 SerdeJsonLaws0.
  unfold recover_transaction, state. apply within_bind; [apply _ | |].
  { by apply within_map_raise, in_journals_recovers, open_journal_closes. }
  intros []. apply within_finally; [apply _ | | apply release_recovers].
  apply within_bind; [apply _ | by apply within_map_raise, with_staging_recovers |].
  intros [| |r]; [apply within_ret, _ | | apply within_ret, _].
  apply within_bind; [apply _ | by apply inventory_recovers, open_reader_rest |]. intros [].
  apply within_bind; [apply _ | by apply inventory_recovers, read_from_context_rest |]. intros current.
  apply within_lift_bind; [apply _ |]. intros content Hc%map_err_ok. apply within_map_raise, in_journals_recovers, in_dir_closes. by apply (reconcile_closes current).
Qed.

Lemma recover_pending_recovers architecture : within recovers (recover_pending_transactions pid architecture).
Proof using JsonText0 SerdeJsonLaws0.
  unfold recover_pending_transactions, state. apply within_bind; [apply _ | |].
  - apply within_map_raise, in_journals_recovers. unfold transaction_ids, root_names. walk. apply within_sys; [apply _ |].
    intros r r' a E. destruct (root_non_utf8 r); by simplify_eq.
  - intros ids. apply within_for; [apply _ |]. intros id. apply recover_transaction_recovers.
Qed.
End recovery.

Section theorem.
Context `{SnapshotEnv} `{RpmLibrary} `{SerdeJson JournalEntry.t} `{!SerdeJsonLaws JournalEntry.t (fun _ => True)}.
Context `{!JsonText JournalEntry.t JournalEntry.tree} `{ErrnoText}.

(** C4: recovery before a new transaction, whatever fails in it and wherever it dies: it runs
    nothing, the database and the reasons are as they were; every journal that loads still
    loads, with at most the unknown result of a transaction that started and the failure of one
    that may have run added to it; and the staging directory of a transaction is only touched
    when its journal says that it never started, and then its journal is as it was. *)
Theorem recovery_safe (pid : N) (architecture : Architecture.t) (w w' : Effects.world FaultPoint.t host)
    (r : Effects.exit ExecutorError.t unit)
    (Hrun : recover_pending_transactions pid architecture w = (w', r)) :
  database (rpm (fsys w')) = database (rpm (fsys w)) /\
  reasons_dir (rpm (fsys w')) = reasons_dir (rpm (fsys w)) /\
  (forall name, children (journals (fsys w)) !! name = None ->
     children (journals (fsys w')) !! name = None /\
     children (staging (fsys w')) !! name = children (staging (fsys w)) !! name) /\
  forall name d es, children (journals (fsys w)) !! name = Some (Some d) ->
    load_entries (quiet d) = (quiet d, Value es) ->
    exists d' es', children (journals (fsys w')) !! name = Some (Some d') /\
      load_entries (quiet d') = (quiet d', Value es') /\ rtc closing es es' /\ (length es' <= length es + 2)%nat /\
      (children (staging (fsys w')) !! name <> children (staging (fsys w)) !! name ->
       is_prepared es /\ es' = es).
Proof using JsonText0 SerdeJsonLaws0.
  pose proof (recover_pending_recovers pid architecture w) as [Hr Hj Ho Hk]. rewrite Hrun in *. simpl in *.
  injection Hr as Hd _ Hre _ _. split; [done |]. split; [done |]. split.
  - intros name Hn. split; [| by apply Ho]. destruct Hj as [_ Hj]. specialize (Hj name). by rewrite Hn in Hj.
  - intros name d es Hc Hl%load_entries_iff. destruct (store_child _ _ name d es Hj Hc Hl) as (d' & es' & Hd' & Hes & Hh').
    exists d', es'. split; [done |]. split; [by apply load_entries_iff |]. split; [done |].
    apply closings_rank in Hes as Hrank. split.
    + destruct Hrank as [->|(e & e' & _ & _ & Hn & Hle)]; [lia |]. pose proof (rank_le (JournalEntry.state e')). lia.
    + intros Hne. destruct (Hk name d es Hc Hl) as [|Hp]; [done |]. split; [done |].
      destruct Hrank as [|(e & e' & Hle & _ & _ & Hr1)]; [done |]. unfold is_prepared in Hp. rewrite Hle in Hp.
      injection Hp as Hp. rewrite Hp in Hr1. simpl in Hr1. lia.
Qed.
End theorem.

(** ** Two earlier transactions: one that was only prepared, and one that started *)

Module RecoveryExamples.
#[local] Existing Instances JournalExamples.example_errno ExecuteExamples.env ExecuteExamples.keys ExecuteExamples.rpm.

Definition entry (id : string) (sequence : N) (state : JournalState.t) (native : option NativeResult.t)
    (reconciliation : option ReconcileResult.t) : JournalEntry.t :=
  JournalEntry.mk 1 id JournalExamples.digest sequence state native reconciliation.

Definition first : string := "01890f3e-7c1a-7b2c-8d3e-0123456789aa".
Definition second : string := JournalExamples.id.

Definition only_prepared : JournalEntry.t := entry first 0 JournalState.Prepared None None.
Definition prepared : JournalEntry.t := JournalExamples.prepared.
Definition started : JournalEntry.t := JournalExamples.started.
Definition unknown : JournalEntry.t := JournalExamples.unknown.
Definition failed : JournalEntry.t := entry second 3 JournalState.Reconciled None (Some (failed_with (bytes "before"))).

#[export] Instance entries : SerdeJson JournalEntry.t :=
  json_codec JournalEntry.tree [only_prepared; prepared; started; unknown; failed].

#[export] Instance entries_laws : SerdeJsonLaws JournalEntry.t (fun _ => True).
Proof. apply json_codec_laws. by apply (bool_decide_unpack _); vm_compute. Qed.

#[export] Instance entries_text : JsonText JournalEntry.t JournalEntry.tree.
Proof. apply json_codec_text. Qed.

Definition directory_of (files : list (string * list byte)) : directory :=
  mk_dir (list_to_map ((fun p => (p.1, File p.2 true)) <$> files)) false true false.

(** The directory with the records of some entries. *)
Definition journal_of (es : list JournalEntry.t) : directory :=
  directory_of ((fun e => (record_name (JournalEntry.sequence e), Json.print (JournalEntry.tree e))) <$> es).

Definition first_journal : directory := journal_of [only_prepared].
Definition second_journal : directory := journal_of [prepared; started].

Definition host_before : host :=
  mk_host _ _ (mk_root (list_to_map [(first, Some first_journal); (second, Some second_journal)]) false)
    (mk_root (list_to_map [(first, Some (directory_of [("plan.json", bytes "plan")]));
                           (second, Some (directory_of [("plan.json", bytes "plan")]))]) false)
    ExecuteExamples.machine_before.

Definition recovery (outcomes : list outcome) :=
  recover_pending_transactions 9 Architecture.X86_64 (mk_world host_before FaultPoint.None outcomes).

(** The process dies before the unknown result is in its place. *)
Definition killed : list outcome := replicate 45 Succeeds ++ [Stops 3].

Lemma recovery_run outcomes :
  recover_pending_transactions 9 Architecture.X86_64 (mk_world host_before FaultPoint.None outcomes)
  = ((recovery outcomes).1, (recovery outcomes).2).
Proof. unfold recovery. apply surjective_pairing. Qed.

Lemma second_loads : load_entries (quiet second_journal) = (quiet second_journal, Value [prepared; started]).
Proof. vm_compute. reflexivity. Qed.

Lemma second_there : children (journals host_before) !! second = Some (Some second_journal).
Proof. vm_compute. reflexivity. Qed.

Lemma killed_crashed : (recovery killed).2 = Crashed.
Proof. vm_compute. reflexivity. Qed.

Lemma killed_staging :
  children (staging (fsys (recovery killed).1)) !! second = children (staging host_before) !! second.
Proof. vm_compute. reflexivity. Qed.

Lemma recovery_safe_witness :
  let r := recovery killed in
  r.2 = Crashed /\ database (rpm (fsys r.1)) = 0%nat /\
  children (staging (fsys r.1)) !! second = children (staging host_before) !! second /\
  exists d' es', children (journals (fsys r.1)) !! second = Some (Some d') /\
    load_entries (quiet d') = (quiet d', Value es') /\ rtc closing [prepared; started] es'.
Proof.
  intros r. split; [exact killed_crashed |].
  destruct (recovery_safe 9 Architecture.X86_64
    (mk_world host_before FaultPoint.None killed) r.1 r.2 (recovery_run killed)) as (Hd & _ & _ & Hj).
  split; [exact Hd |]. split; [exact killed_staging |].
  destruct (Hj second second_journal [prepared; started] second_there second_loads) as (d' & es' & H1 & H2 & H3 & _).
  exists d', es'. split; [exact H1 |]. split; [exact H2 | exact H3].
Defined.
End RecoveryExamples.
