(* ===== verification/RecoverySettles.v ===== *)
(** * An undisturbed recovery settles every transaction

    When no call fails, recovery ends; every journal is then prepared or closed, and a second
    recovery changes none of them. *)
From S2P Require Import Prelude.
From S2P Require Import RustStr.
From S2P Require Import Value.
From S2P Require Import Canonical.
From S2P Require Import Documents.
From S2P Require Import CacheModel.
From S2P Require Import Snapshot.
From S2P Require Import Effects.
From S2P Require Import StateFs.
From S2P Require Import Journal.
From S2P Require Import JournalFacts.
From S2P Require Import JournalSafety.
From S2P Require Import NativeTrust.
From S2P Require Import ExecutorInventory.
From S2P Require Import RootInputs.
From S2P Require Import Execute.
From S2P Require Import ExecuteExamples.
From S2P Require Import Recovery.
From S2P Require Import RecoveryFacts.

#[local] Open Scope N_scope.

(** A world in which nothing fails. *)
Definition still {D : Type} (d : D) : Effects.world FaultPoint.t D := mk_world d FaultPoint.None [].

Lemma run_zoom {E D D' A} (get : D -> D') (put : D' -> D -> D) (m : Effects.io FaultPoint.t E D' A) d p x :
  m (still (get d)) = (still p, x) -> zoom get put m (still d) = (still (put p d), x).
Proof. intros Hm. unfold zoom, still in *. cbn [fsys faults pending]. by rewrite Hm. Qed.

Lemma run_still `{Domain FaultPoint.t E} {D A} (f : D -> result E (D * A)) d d' a :
  f d = Ok (d', a) -> sys f (still d) = (still d', Value a).
Proof. intros Hf. unfold sys, still. simpl. by rewrite Hf. Qed.

Lemma run_map_raise {E E' D A} (f : E -> E') (m : Effects.io FaultPoint.t E D A) w w' a :
  m w = (w', Value a) -> map_raise f m w = (w', Value a).
Proof. intros Hm. unfold map_raise. by rewrite Hm. Qed.

Lemma run_in_dir `{ErrnoText} {A} name (m : io directory A) r d d' x :
  children r !! name = Some (Some d) -> m (still d) = (still d', x) ->
  in_dir name m (still r) = (still (with_children (<[name := Some d']>) r), x).
Proof.
  intros Hd Hm. unfold in_dir. cbn [still fsys]. rewrite Hd.
  by apply (run_zoom (fun _ => d) (fun d' => with_children (<[name := Some d']>))).
Qed.

Section settle.
Context `{SnapshotEnv} `{RpmLibrary} `{SerdeJson JournalEntry.t} `{!SerdeJsonLaws JournalEntry.t (fun _ => True)} `{ErrnoText} (pid : N).
Context `{!JsonText JournalEntry.t JournalEntry.tree}.

(** ** One journal *)

(** Nothing of this process's writes is left over. *)
Definition no_leftover (d : directory) : Prop := forall n, nodes d !! temporary_name n pid = None.

(** An entry whose text fits a record. *)
Definition writable (e : JournalEntry.t) : Prop :=
  exists t, canonical_bytes e = Ok t /\ N.of_nat (length t) <= MAX_RECORD_BYTES.

Lemma next_valid e next native reconciliation :
  validate_entry e = Ok tt -> native = None \/ native = Some unknown_result ->
  let e' := JournalEntry.mk 1 (JournalEntry.transaction_id e) (JournalEntry.plan_sha256 e)
              (JournalEntry.sequence e + 1) next native reconciliation in
  payload_matches e' = true -> validate_entry e' = Ok tt.
Proof.
  intros Hv Hn e' Hp. unfold validate_entry in *. rewrite Hp. cbn [e' JournalEntry.schema_version JournalEntry.transaction_id
    JournalEntry.plan_sha256 JournalEntry.native_result].
  apply bind_ok in Hv as ([] & _ & (id & -> & ([] & -> & _)%bind_ok)%bind_ok). simpl. by destruct Hn as [->| ->].
Qed.

Lemma one_more es d e next native reconciliation :
  holds es d -> no_leftover d -> last es = Some e -> legal (JournalEntry.state e) next = true ->
  native = None \/ native = Some unknown_result -> payload_fits native reconciliation ->
  let e' := JournalEntry.mk 1 (JournalEntry.transaction_id e) (JournalEntry.plan_sha256 e)
              (JournalEntry.sequence e + 1) next native reconciliation in
  payload_matches e' = true -> writable e' ->
  exists d', transition pid next native reconciliation (still d) = (still d', Value tt) /\
    holds (es ++ [e']) d' /\ flags d' = flags d /\ no_leftover d'.
Proof using JsonText0 SerdeJsonLaws0.
  intros Hes Hfree Hl Hlegal Hn Hfits e' Hp (t & Ht & Hlen).
  assert (Hv : validate_entry e' = Ok tt).
  { apply next_valid; [| done | done]. apply (wf_valid _ (holds_wf _ _ Hes)). apply last_Some in Hl as [l ->]. set_solver. }
  destruct (transition_run pid es d e t next native reconciliation Hes Hl Hlegal Hv Ht Hlen (Hfree _)) as (d' & Hrun & Hnodes & Hf).
  change (transition pid next native reconciliation (still d) = (still d', Value tt)) in Hrun.
  exists d'. split; [exact Hrun |].
  assert (Hnext : next_entry es next native reconciliation = Some e') by (unfold next_entry; by rewrite Hl).
  pose proof (transition_triple pid es d next native reconciliation Hes
    (fun x Hx Hvx => fits_readable x Hvx (next_fits _ _ _ _ x Hfits Hx))) as Hg.
  specialize (Hg (still d) eq_refl). rewrite Hrun in Hg. destruct Hg as (x & Hx & _ & Hh). rewrite Hnext in Hx. injection Hx as <-.
  split; [exact Hh |]. split; [done |]. intros n. rewrite Hnodes, lookup_insert_ne; [apply Hfree |].
  intros E. pose proof (temporary_name_json n pid) as Hj. rewrite <- E in Hj. by rewrite record_name_json in Hj.
Qed.

(** What recovery makes of the entries of a journal where the inventory is [content]. *)
Definition settled_as (content : list byte) (es es' : list JournalEntry.t) : Prop :=
  match JournalEntry.state <$> last es with
  | Some JournalState.Started =>
      exists e1 e2, next_entry es JournalState.RpmResult (Some unknown_result) None = Some e1 /\
        next_entry (es ++ [e1]) JournalState.Reconciled None (Some (failed_with content)) = Some e2 /\
        es' = es ++ [e1] ++ [e2]
  | Some JournalState.RpmResult =>
      exists e1, next_entry es JournalState.Reconciled None (Some (failed_with content)) = Some e1 /\ es' = es ++ [e1]
  | _ => es' = es
  end.

(** There is room in the records for what recovery writes. *)
Definition room (content : list byte) (es : list JournalEntry.t) : Prop :=
  forall es' e, settled_as content es es' -> e ∈ es' -> writable e.

(** The journal after [recover], with the transactions that remain to be closed. *)
Definition recovered_as (es : list JournalEntry.t) (d : directory) (action : RecoveryAction.t)
    (es' : list JournalEntry.t) (d' : directory) : Prop :=
  match JournalEntry.state <$> last es with
  | Some JournalState.Prepared => action = RecoveryAction.CleanupRevalidateAndReapprove /\ es' = es /\ d' = d
  | Some JournalState.Started => action = RecoveryAction.ReconcileOnly /\
      exists e, next_entry es JournalState.RpmResult (Some unknown_result) None = Some e /\ es' = es ++ [e]
  | Some JournalState.RpmResult => action = RecoveryAction.ReconcileOnly /\ es' = es /\ d' = d
  | Some JournalState.Reconciled => (exists r, action = RecoveryAction.Terminal r) /\ es' = es /\ d' = d
  | None => False
  end.

Lemma recover_run content es d :
  holds es d -> no_leftover d -> room content es ->
  exists action es' d', recover pid (still d) = (still d', Value action) /\ holds es' d' /\ no_leftover d' /\
    flags d' = flags d /\ recovered_as es d action es' d'.
Proof using JsonText0 SerdeJsonLaws0.
  intros Hes Hfree Hroom. destruct (holds_last es d Hes) as [e Hl]. unfold recovered_as. rewrite Hl. cbn [fmap option_fmap option_map].
  destruct (JournalEntry.state e) eqn:Es.
  - exists RecoveryAction.CleanupRevalidateAndReapprove, es, d. split; [| done].
    by apply (recover_settled pid d es e); [| | rewrite Es].
  - destruct (one_more es d e JournalState.RpmResult (Some unknown_result) None) as (d' & Hrun & Hh & Hf & Hn); try done.
    { by rewrite Es. } { by right. } { apply unknown_result_fits. }
    { eapply Hroom; [unfold settled_as; rewrite Hl; simpl; rewrite Es; eexists _, _; unfold next_entry; rewrite last_snoc, Hl; done |].
      set_solver. }
    exists RecoveryAction.ReconcileOnly, (es ++ [JournalEntry.mk 1 (JournalEntry.transaction_id e) (JournalEntry.plan_sha256 e)
              (JournalEntry.sequence e + 1) JournalState.RpmResult (Some unknown_result) None]), d'.
    split; [| split_and!; try done; eexists; split; [unfold next_entry; by rewrite Hl | done]].
    unfold recover. eapply run_bind; [by apply load_entries_run |]. rewrite Hl. eapply run_bind; [done |]. rewrite Es.
    eapply run_bind; [exact Hrun | done].
  - exists RecoveryAction.ReconcileOnly, es, d. split; [| done].
    by apply (recover_settled pid d es e); [| | rewrite Es].
  - assert (Hv : validate_entry e = Ok tt).
    { apply (wf_valid _ (holds_wf _ _ Hes)). apply last_Some in Hl as [l ->]. set_solver. }
    assert (exists r, JournalEntry.reconciliation e = Some r) as [r Hr].
    { unfold validate_entry in Hv. apply bind_ok in Hv as ([] & _ & (id & _ & ([] & _ & ([] & Hp & _)%bind_ok)%bind_ok)%bind_ok).
      apply reject_if_ok, negb_false_iff in Hp. unfold payload_matches in Hp. rewrite Es in Hp.
      apply andb_true_iff in Hp as [_ Hp%bool_decide_eq_true]. exact Hp. }
    exists (RecoveryAction.Terminal r), es, d. split; [| split_and!; [done.. | by exists r | done | done]].
    apply (recover_settled pid d es e); [done | done |]. rewrite Es. by exists r.
Qed.

Lemma reconcile_run es d e content :
  holds es d -> no_leftover d -> last es = Some e -> JournalEntry.state e = JournalState.RpmResult ->
  Journal.validate_digest (sha256_hex content) = Ok tt ->
  (forall e', next_entry es JournalState.Reconciled None (Some (failed_with content)) = Some e' -> writable e') ->
  exists d' e', reconcile pid (failed_with content) (still d) = (still d', Value tt) /\
    next_entry es JournalState.Reconciled None (Some (failed_with content)) = Some e' /\
    holds (es ++ [e']) d' /\ no_leftover d' /\ flags d' = flags d.
Proof using JsonText0 SerdeJsonLaws0.
  intros Hes Hfree Hl Hs Hd Hw.
  destruct (one_more es d e JournalState.Reconciled None (Some (failed_with content))) as (d' & Hrun & Hh & Hf & Hn); try done.
  { by rewrite Hs. } { by left. } { by eapply reconcile_fits. } { apply Hw. unfold next_entry. by rewrite Hl. }
  eexists d', _. split; [| split; [unfold next_entry; rewrite Hl; done | done]].
  unfold reconcile. eapply run_bind; [| exact Hrun]. unfold failed_with, lift. simpl. by rewrite Hd.
Qed.

(** ** The staging directory *)

(** A directory that the program made, of private files only, or none. *)
Definition removable (o : option (option directory)) : Prop :=
  match o with
  | None => True
  | Some None => False
  | Some (Some d) => private_dir d = true /\ non_utf8 d = false /\
      forall name n, nodes d !! name = Some n -> exists content, n = File content true
  end.

Lemma unlink_all l d :
  NoDup l -> (forall name, name ∈ l -> exists content, nodes d !! name = Some (File content true)) ->
  for_io (fun name => n ← openat name; _ ← verify_file n; unlinkat name) l (still d)
  = (still (with_nodes (fun m => foldr delete m (rev l)) d), Value tt).
Proof.
  revert d. induction l as [|name l IH]; intros d Hnd Hall; [by destruct d |].
  apply NoDup_cons in Hnd as [Hnotin Hnd]. destruct (Hall name) as [content Hc]; [by left |]. cbn [for_io].
  eapply run_bind with (a := tt) (w' := still (with_nodes (delete name) d)).
  - eapply run_bind; [unfold openat; apply run_still; by rewrite Hc |].
    eapply run_bind; [by apply run_still |]. apply run_still. by rewrite Hc.
  - rewrite (IH (with_nodes (delete name) d)); [| done |].
    + unfold with_nodes. simpl. by rewrite foldr_app.
    + intros other Hin. destruct (Hall other) as [c' Hc']; [by right |]. exists c'. simpl. rewrite lookup_delete_ne; [done |].
      by intros ->.
Qed.

Lemma foldr_delete_empty (m : gmap string node) l : (forall name, is_Some (m !! name) -> name ∈ l) -> foldr delete m l = ∅.
Proof.
  intros Hin. apply map_eq. intros name. rewrite lookup_empty. destruct (decide (name ∈ l)) as [Hl|Hl].
  - clear Hin. induction l as [|x l IH]; [by apply not_elem_of_nil in Hl |]. simpl.
    destruct (decide (name = x)) as [->|Hne]; [apply lookup_delete_eq |]. rewrite lookup_delete_ne by done.
    apply IH. by apply elem_of_cons in Hl as [|].
  - destruct (foldr delete m l !! name) as [n|] eqn:E; [| done]. exfalso. apply Hl, Hin. clear Hl Hin.
    induction l as [|x l IH]; [by exists n |]. simpl in E. apply lookup_delete_Some in E as [_ E]. by apply IH.
Qed.

Lemma elem_of_names (d : directory) name : name ∈ sort (map_to_list (nodes d)).*1 <-> is_Some (nodes d !! name).
Proof.
  rewrite elem_of_sort, list_elem_of_fmap. split.
  - intros ([x n] & -> & Hx%elem_of_map_to_list). by exists n.
  - intros [n Hn]. exists (name, n). split; [done | by apply elem_of_map_to_list].
Qed.

Lemma NoDup_sorted_keys {A} (m : gmap string A) : NoDup (sort (map_to_list m).*1).
Proof. unfold sort. rewrite sort_by_perm. apply NoDup_fst_map_to_list. Qed.

Lemma open_transaction_run name r d :
  children r !! name = Some (Some d) -> private_dir d = true ->
  open_transaction name (still r) = (still r, Value tt).
Proof.
  intros Hd Hp. unfold open_transaction. eapply run_bind; [apply run_still; by rewrite Hd |].
  rewrite (run_in_dir name _ r d d (Value tt)); [| done | apply run_still; by rewrite Hp].
  f_equal. unfold still, with_children. rewrite insert_id by done. by destruct r.
Qed.

Lemma cleanup_run name s d :
  children s !! name = Some (Some d) -> removable (Some (Some d)) ->
  cleanup_private_child name (still s) = (still (with_children (delete name) s), Value tt).
Proof.
  intros Hd (Hp & Hu & Hfiles). unfold cleanup_private_child. eapply run_bind; [by apply run_still |].
  eapply run_bind; [by eapply open_transaction_run |].
  assert (Hs : with_children (<[name := Some d]>) s = s) by (unfold with_children; rewrite insert_id by done; by destruct s).
  eapply (run_bind _ _ _ (still s)).
  { rewrite (run_in_dir name _ s d d (Value (sort (map_to_list (nodes d)).*1))); [by rewrite Hs | done |].
    unfold child_names. apply run_still. by rewrite Hu. }
  eapply run_bind.
  { eapply run_in_dir; [done |]. apply unlink_all; [apply NoDup_sorted_keys |].
    intros other [n Hn]%elem_of_names. destruct (Hfiles other n Hn) as [content ->]. by exists content. }
  eapply run_bind; [by apply run_still |].
  eapply run_bind; [| by apply run_still].
  unfold remove_dir. apply run_still. simpl. rewrite lookup_insert_eq. simpl. rewrite Hu, foldr_delete_empty.
  - rewrite bool_decide_eq_true_2 by done. simpl. f_equal. unfold with_children. simpl. by rewrite delete_insert_eq.
  - intros other Ho. by apply list_elem_of_In, in_rev, list_elem_of_In; rewrite rev_involutive; apply elem_of_names.
Qed.

(** The staging root without the directory of a transaction that never started. *)
Definition cleaned (name : string) (es : list JournalEntry.t) (s : root) : root :=
  if bool_decide (is_prepared es) then with_children (delete name) s else s.

Context (enoent_text : contains (bytes "No such file") (bytes enoent) = true).

Lemma recover_with_staging_run content id es d s :
  let name := TransactionId.as_str id in
  holds es d -> no_leftover d -> room content es -> (is_prepared es -> removable (children s !! name)) ->
  exists action es' d', recover_with_staging pid id (still (d, s)) = (still (d', cleaned name es s), Value action) /\
    holds es' d' /\ no_leftover d' /\ flags d' = flags d /\ recovered_as es d action es' d'.
Proof using JsonText0 SerdeJsonLaws0 enoent_text.
  intros name Hes Hfree Hroom Hclean. destruct (recover_run content es d Hes Hfree Hroom) as (action & es' & d' & Hrun & Hh & Hn & Hf & Hr).
  exists action, es', d'. split; [| done]. unfold recover_with_staging.
  eapply run_bind; [by apply (run_zoom fst (fun d p => (d, p.2))) |]. cbn [snd].
  eapply run_bind; [| done]. instantiate (1 := tt).
  assert (Hprep : action = RecoveryAction.CleanupRevalidateAndReapprove <-> is_prepared es).
  { unfold recovered_as in Hr. unfold is_prepared. destruct (JournalEntry.state <$> last es) as [[]|]; [| | | |done]; naive_solver. }
  unfold cleaned. case_bool_decide as Ha; last first.
  { rewrite bool_decide_eq_false_2 by (rewrite <- Hprep; done). done. }
  rewrite bool_decide_eq_true_2 by (by apply Hprep). specialize (Hclean (proj1 Hprep Ha)).
  destruct (children s !! name) as [[c|]|] eqn:Ec; [| done |].
  - apply (run_bind _ _ _ (still (d', with_children (delete name) s)) (Ok tt)); [| done]. apply run_attempt.
    apply (run_zoom snd (fun s p => (p.1, s)) _ (d', s)). by eapply cleanup_run.
  - assert (Hs : with_children (delete name) s = s) by (unfold with_children; rewrite delete_id by done; by destruct s).
    rewrite Hs. eapply run_bind.
    { apply run_attempt_err, (run_zoom snd (fun s p => (p.1, s)) (cleanup_private_child (TransactionId.as_str id)) (d', s) s
        (Raised (StateError.Io enoent))).
      unfold cleanup_private_child. apply (run_bind _ _ _ (still s) tt); [by apply run_still |].
      unfold open_transaction, mbind, io_mbind, sys, still. simpl. fold name. by rewrite Ec. }
    cbv beta iota. by rewrite enoent_text.
Qed.

(** ** The inventory *)

Lemma read_again m m' inventory :
  read_from_context (still m) = (still m', Value inventory) -> read_from_context (still m') = (still m', Value inventory).
Proof.
  unfold read_from_context, read_snapshot_from_context, native_call, read_inventory_cached, take_cookie.
  unfold map_raise, mbind, io_mbind, gets, lift, sync, sys, still. cbn -[convert inventory_sha256].
  destruct (rpmdb_cookie (database m)) as [cookie|e] eqn:Ec; cbn -[convert inventory_sha256]; [| done].
  destruct (str_is_empty cookie) eqn:Ee; cbn -[convert inventory_sha256]; [done |].
  destruct (bool_decide (CachedInventory.cookie <$> cached m = Some cookie)) eqn:Eb; cbn -[convert inventory_sha256].
  - apply bool_decide_eq_true in Eb as Eb'. unfold finish_cached_read. simpl. unfold gets, mbind, io_mbind. cbn.
    destruct (cached m) as [c|] eqn:Em; simpl in Eb'; [| done]. injection Eb' as Eb'. rewrite Eb'.
    rewrite bool_decide_eq_true_2 by done. intros [= <- <-]. rewrite Ec. cbn. rewrite Ee, Em. simpl. rewrite Eb'.
    rewrite bool_decide_eq_true_2 by done. cbn. rewrite Em, Eb'. by rewrite bool_decide_eq_true_2 by done.
  - destruct (rpmdb_inventory (database m) None) as [raw|e]; cbn -[convert inventory_sha256]; [| done].
    unfold finish_cached_read, domain_call, store_cached, lift, modify. cbn -[convert inventory_sha256].
    unfold mbind, io_mbind. cbn -[convert inventory_sha256].
    destruct (convert raw) as [i|e]; cbn -[inventory_sha256]; [| done].
    destruct (map_err InventoryError.Domain (inventory_sha256 i)) as [digest|e]; cbn; [| done].
    intros [= <- <-]. simpl. rewrite Ec. cbn. rewrite Ee. cbn. rewrite bool_decide_eq_true_2 by done. cbn.
    unfold gets. cbn. rewrite bool_decide_eq_true_2 by done. done.
Qed.


Lemma run_finally {E D A} (m : Effects.io FaultPoint.t E D A) cleanup d d' a :
  m (still d) = (still d', Value a) -> finally m cleanup (still d) = (still (cleanup d'), Value a).
Proof. intros Hm. unfold finally. by rewrite Hm. Qed.

(** ** One transaction *)

Record ready (es : list JournalEntry.t) (d : directory) : Prop := {
  ready_holds : holds es d;
  ready_private : private_dir d = true;
  ready_unlocked : locked d = false;
  ready_clear : no_leftover d
}.

Lemma open_journal_run id r d :
  let name := TransactionId.as_str id in
  children r !! name = Some (Some d) -> private_dir d = true -> locked d = false ->
  open_journal id (still r) = (still (with_children (<[name := Some (set_locked true d)]>) r), Value tt).
Proof.
  intros name Hd Hp Hl. unfold open_journal. eapply run_bind; [by eapply open_transaction_run |].
  eapply run_in_dir; [done |]. unfold lock. apply run_still. by rewrite Hl.
Qed.

Lemma open_reader_run architecture m :
  architecture <> Architecture.Noarch -> open_reader architecture (still m) = (still m, Value tt).
Proof. intros Ha. unfold open_reader. by destruct architecture. Qed.

Section transaction.
Context (architecture : Architecture.t) (Harch : architecture <> Architecture.Noarch).
Context (current : InstalledInventory.t) (content : list byte).
Context (Hbytes : inventory_bytes current = Ok content) (Hdigest : Journal.validate_digest (sha256_hex content) = Ok tt).

Definition readable_now (m : machine) : Prop := exists m', read_from_context (still m) = (still m', Value current).

(** Steps of recovery on the open journal. *)
Lemma action_run id (h : host) es d :
  let name := TransactionId.as_str id in
  children (journals h) !! name = Some (Some d) -> holds es d -> no_leftover d -> room content es ->
  (is_prepared es -> removable (children (staging h) !! name)) -> readable_now (rpm h) ->
  exists d' es' m',
    (action ← state (with_staging name (recover_with_staging pid id));
     match action with
     | RecoveryAction.CleanupRevalidateAndReapprove | RecoveryAction.Terminal _ => mret tt
     | RecoveryAction.ReconcileOnly =>
         _ ← inventory (open_reader architecture);
         current ← inventory read_from_context;
         content ← lift (map_err (fun e => ExecutorError.Plan (DomainError.to_string e)) (inventory_bytes current));
         state (in_journals (in_dir name (reconcile pid (failed_with content))))
     end) (still h)
    = (still (mk_host _ _ (with_children (<[name := Some d']>) (journals h)) (cleaned name es (staging h)) m'), Value tt) /\
    holds es' d' /\ no_leftover d' /\ flags d' = flags d /\ settled_as content es es' /\ (es' = es -> d' = d) /\
    readable_now m'.
Proof using JsonText0 SerdeJsonLaws0 enoent_text Harch Hbytes Hdigest.
  intros name Hd Hes Hfree Hroom Hclean [m' Hm'].
  destruct (recover_with_staging_run content id es d (staging h) Hes Hfree Hroom Hclean) as (action & es1 & d1 & Hrun & Hh1 & Hn1 & Hf1 & Hr).
  set (h1 := mk_host _ _ (with_children (<[name := Some d1]>) (journals h)) (cleaned name es (staging h)) (rpm h)).
  assert (Hstep : state (with_staging name (recover_with_staging pid id)) (still h) = (still h1, Value action)).
  { apply run_map_raise. unfold with_staging. cbn [still fsys]. rewrite Hd.
    exact (run_zoom (fun h => (d, staging h))
      (fun p h => mk_host _ _ (with_children (<[name := Some p.1]>) (journals h)) p.2 (rpm h)) _ h _ _ Hrun). }
  destruct (decide (action = RecoveryAction.ReconcileOnly)) as [->|Hother]; last first.
  { exists d1, es1, (rpm h). split; [eapply run_bind; [exact Hstep | by destruct action] |].
    unfold recovered_as in Hr. unfold settled_as. destruct (JournalEntry.state <$> last es) as [[]|]; [| | | | done];
      destruct Hr as [Ha Hr]; [|done..|]; destruct Hr as [-> ->]; split_and!; try done; by exists m'. }
  assert (exists e, last es1 = Some e /\ JournalEntry.state e = JournalState.RpmResult) as (e & Hl & Hs).
  { unfold recovered_as in Hr. destruct (JournalEntry.state <$> last es) as [[]|] eqn:E; [by destruct Hr | | | by destruct Hr as [[]] | done].
    - destruct Hr as (_ & e & Hn & ->). exists e. split; [apply last_snoc |].
      unfold next_entry in Hn. by apply fmap_Some in Hn as (e0 & _ & ->).
    - destruct Hr as (_ & -> & _). apply fmap_Some in E as (e & -> & E). by exists e. }
  assert (Hw : forall e', next_entry es1 JournalState.Reconciled None (Some (failed_with content)) = Some e' -> writable e').
  { intros e' He'. apply (Hroom (es1 ++ [e'])); [| set_solver]. unfold recovered_as in Hr. unfold settled_as.
    destruct (JournalEntry.state <$> last es) as [[]|]; [by destruct Hr | | | by destruct Hr as [[]] | done].
    - destruct Hr as (_ & e1 & He1 & ->). exists e1, e'. by rewrite <- app_assoc.
    - destruct Hr as (_ & -> & _). by exists e'. }
  destruct (reconcile_run es1 d1 e content Hh1 Hn1 Hl Hs Hdigest Hw) as (d2 & e2 & Hrec & Hnext & Hh2 & Hn2 & Hf2).
  exists d2, (es1 ++ [e2]), m'. split.
  - eapply run_bind; [exact Hstep |].
    eapply run_bind; [apply run_map_raise, (run_zoom rpm set_rpm), open_reader_run, Harch |].
    eapply run_bind; [by apply run_map_raise, (run_zoom rpm set_rpm) |].
    eapply run_bind; [by rewrite Hbytes |].
    apply run_map_raise. unfold in_journals. erewrite run_zoom; [| eapply run_in_dir; [apply lookup_insert_eq | exact Hrec]].
    unfold set_journals, with_children, h1. simpl. by rewrite insert_insert_eq.
  - split_and!; [done | done | congruence | | | exists m'; by eapply read_again].
    + unfold recovered_as in Hr. unfold settled_as.
      destruct (JournalEntry.state <$> last es) as [[]|]; [by destruct Hr | | | by destruct Hr as [[]] | done].
      * destruct Hr as (_ & e1 & He1 & ->). exists e1, e2. by rewrite <- app_assoc.
      * destruct Hr as (_ & -> & _). by exists e2.
    + intros E. exfalso. unfold recovered_as in Hr. apply (f_equal length) in E. rewrite length_app in E. simpl in E.
      destruct (JournalEntry.state <$> last es) as [[]|]; [by destruct Hr | | | by destruct Hr as [[]] | done].
      * destruct Hr as (_ & e1 & He1 & ->). rewrite length_app in E. simpl in E. lia.
      * destruct Hr as (_ & -> & _). lia.
Qed.

Lemma recover_transaction_run id (h : host) es d :
  let name := TransactionId.as_str id in
  children (journals h) !! name = Some (Some d) -> ready es d -> room content es ->
  (is_prepared es -> removable (children (staging h) !! name)) -> readable_now (rpm h) ->
  exists d' es' m',
    recover_transaction pid architecture id (still h)
    = (still (mk_host _ _ (with_children (<[name := Some d']>) (journals h)) (cleaned name es (staging h)) m'), Value tt) /\
    ready es' d' /\ settled_as content es es' /\ (es' = es -> d' = d) /\ readable_now m'.
Proof using JsonText0 SerdeJsonLaws0 enoent_text Harch Hbytes Hdigest.
  intros name Hd [Hes Hp Hl Hfree] Hroom Hclean Hread.
  set (h1 := set_journals (with_children (<[name := Some (set_locked true d)]>) (journals h)) h).
  destruct (action_run id h1 es (set_locked true d)) as (d1 & es1 & m1 & Hrun & Hh1 & Hn1 & Hf1 & Hset & Hsame & Hread1).
  { apply lookup_insert_eq. } { by destruct Hes. } { done. } { done. } { done. } { done. }
  exists (set_locked false d1), es1, m1. split; [| split; [split | split_and!; try done]].
  - unfold recover_transaction.
    eapply run_bind; [apply run_map_raise, (run_zoom journals set_journals); by eapply open_journal_run |].
    rewrite (run_finally _ _ _ _ _ Hrun). f_equal. f_equal. unfold release, set_journals, with_children, h1. simpl.
    by rewrite insert_insert_eq, alter_insert_eq.
  - by destruct Hh1.
  - unfold flags in Hf1. simpl in Hf1. simpl. congruence.
  - done.
  - done.
  - intros E. rewrite (Hsame E). destruct d. simpl in *. by rewrite Hl.
Qed.

(** ** All of them *)

Definition ready_at (h : host) (name : string) (es : list JournalEntry.t) (d : directory) : Prop :=
  children (journals h) !! name = Some (Some d) /\ ready es d /\ room content es /\
  (is_prepared es -> removable (children (staging h) !! name)).

(** What recovery makes of the transaction [name]. *)
Definition settles (h h' : host) (name : string) : Prop :=
  forall es d, ready_at h name es d ->
  exists es' d', children (journals h') !! name = Some (Some d') /\ ready es' d' /\ settled_as content es es' /\
    (es' = es -> d' = d) /\ (is_prepared es -> children (staging h') !! name = None).

Definition untouched (h h' : host) (name : string) : Prop :=
  children (journals h') !! name = children (journals h) !! name /\
  children (staging h') !! name = children (staging h) !! name.

Lemma settle_all ids h :
  NoDup (TransactionId.as_str <$> ids) -> readable_now (rpm h) ->
  (forall id, id ∈ ids -> exists es d, ready_at h (TransactionId.as_str id) es d) ->
  exists h', for_io (recover_transaction pid architecture) ids (still h) = (still h', Value tt) /\
    readable_now (rpm h') /\ root_non_utf8 (journals h') = root_non_utf8 (journals h) /\
    (forall id, id ∈ ids -> settles h h' (TransactionId.as_str id)) /\
    (forall name, name ∉ TransactionId.as_str <$> ids -> untouched h h' name).
Proof using JsonText0 SerdeJsonLaws0 enoent_text Harch Hbytes Hdigest.
  revert h. induction ids as [|id ids IH]; intros h Hnd Hread Hready.
  { exists h. split_and!; try done. by intros id Hid%elem_of_nil. }
  apply NoDup_cons in Hnd as [Hnotin Hnd]. set (name := TransactionId.as_str id) in *.
  destruct (Hready id) as (es & d & Hd & Hr & Hroom & Hclean); [by left |].
  destruct (recover_transaction_run id h es d Hd Hr Hroom Hclean Hread) as (d' & es' & m' & Hrun & Hr' & Hset & Hsame & Hread').
  set (h1 := mk_host _ _ _ _ _) in Hrun.
  assert (Hoff : forall other, other <> name -> untouched h h1 other).
  { intros other Hne. split; simpl; [by rewrite lookup_insert_ne |]. unfold cleaned.
    case_bool_decide; simpl; [by rewrite lookup_delete_ne | done]. }
  assert (Hat : forall other es d, other <> name -> ready_at h other es d -> ready_at h1 other es d).
  { intros other es1 d1 Hne (H1' & H2' & H3'). destruct (Hoff other Hne) as [E1 E2]. unfold ready_at. by rewrite E1, E2. }
  assert (Hne : forall other, other ∈ ids -> TransactionId.as_str other <> name).
  { intros other Hin E. apply Hnotin. rewrite <- E. by apply list_elem_of_fmap_2. }
  destruct (IH h1) as (h2 & Hrun2 & Hread2 & Hu2 & Hset2 & Hoff2); [done | done | |].
  { intros other Hin. destruct (Hready other) as (es1 & d1 & H1'); [by right |]. exists es1, d1. apply Hat; [by apply Hne | done]. }
  exists h2. split; [cbn [for_io]; eapply run_bind; [exact Hrun | exact Hrun2] |].
  split; [done |]. split; [by rewrite Hu2 |]. split.
  - intros other Hin es1 d1 Hat1. apply elem_of_cons in Hin as [E|Hin]; [subst other | by apply Hset2, Hat; [| apply Hne |]].
    destruct Hat1 as (Hd1 & Hr1 & _). rewrite Hd in Hd1. injection Hd1 as <-. fold name.
    assert (es1 = es) as -> by (apply (holds_functional _ _ d); [apply Hr | apply Hr1]).
    destruct (Hoff2 name Hnotin) as [E1 E2]. exists es', d'. rewrite E1, E2. simpl. rewrite lookup_insert_eq.
    split_and!; try done. intros Hp. unfold cleaned. rewrite bool_decide_eq_true_2 by done. apply lookup_delete_eq.
  - intros other Hno. apply not_elem_of_cons in Hno as [Hno1 Hno2]. destruct (Hoff other Hno1) as [E1 E2].
    destruct (Hoff2 other Hno2) as [E3 E4]. split; congruence.
Qed.

Lemma parsed names : (forall name, name ∈ names -> is_ok (TransactionId.parse name) = true) ->
  exists ids, mapM TransactionId.parse names = Ok ids /\ TransactionId.as_str <$> ids = names.
Proof.
  induction names as [|name names IH]; intros Hall; [by exists [] |].
  destruct IH as (ids & Hm & E); [intros; apply Hall; by right |].
  destruct (TransactionId.parse name) as [id|e] eqn:Ep; [| specialize (Hall name ltac:(by left)); by rewrite Ep in Hall].
  exists (id :: ids). split; [simpl; rewrite Ep; simpl; by rewrite Hm |]. rewrite fmap_cons, E. f_equal.
  unfold TransactionId.parse in Ep. destruct (_ || _); [done |]. by injection Ep as <-.
Qed.

Definition all_ready (h : host) : Prop :=
  root_non_utf8 (journals h) = false /\ readable_now (rpm h) /\
  forall name o, children (journals h) !! name = Some o ->
    is_ok (TransactionId.parse name) = true /\ exists es d, ready_at h name es d.

Lemma settle_host h : all_ready h ->
  exists h', recover_pending_transactions pid architecture (still h) = (still h', Value tt) /\
    root_non_utf8 (journals h') = false /\ readable_now (rpm h') /\
    (forall name o, children (journals h) !! name = Some o -> settles h h' name) /\
    (forall name, children (journals h) !! name = None -> untouched h h' name).
Proof using JsonText0 SerdeJsonLaws0 enoent_text Harch Hbytes Hdigest.
  intros (Hu & Hread & Hall). set (names := sort (map_to_list (children (journals h))).*1).
  assert (Hin : forall name, name ∈ names <-> is_Some (children (journals h) !! name)).
  { intros name. unfold names. rewrite elem_of_sort, list_elem_of_fmap. split.
    - intros ([x o] & -> & Hx%elem_of_map_to_list). by exists o.
    - intros [o Ho]. exists (name, o). split; [done | by apply elem_of_map_to_list]. }
  destruct (parsed names) as (ids & Hm & E); [intros name [o Ho]%Hin; apply (Hall _ _ Ho) |].
  destruct (settle_all ids h) as (h' & Hrun & Hread' & Hu' & Hset & Hoff).
  { rewrite E. apply NoDup_sorted_keys. } { done. }
  { intros id Hid. assert (Hn : TransactionId.as_str id ∈ names) by (rewrite <- E; by apply list_elem_of_fmap_2).
    apply Hin in Hn as [o Ho]. apply (Hall _ _ Ho). }
  exists h'. split_and!.
  - unfold recover_pending_transactions. eapply run_bind; [| exact Hrun]. apply run_map_raise.
    unfold in_journals. rewrite (run_zoom journals set_journals _ h (journals h) (Value ids)); [by destruct h |].
    unfold transaction_ids, root_names. eapply run_bind; [apply run_still; rewrite Hu; done |]. unfold lift. fold names. by rewrite Hm.
  - congruence.
  - done.
  - intros name o Ho. assert (Hn : name ∈ names) by (apply Hin; by exists o).
    rewrite <- E in Hn. apply list_elem_of_fmap in Hn as (id & -> & Hid). by apply Hset.
  - intros name Hn. apply Hoff. rewrite E. intros [o Ho]%Hin. congruence.
Qed.
End transaction.
End settle.

Section theorem.
Context `{SnapshotEnv} `{RpmLibrary} `{SerdeJson JournalEntry.t} `{!SerdeJsonLaws JournalEntry.t (fun _ => True)} `{ErrnoText}.
Context `{!JsonText JournalEntry.t JournalEntry.tree}.

(** Prepared, or closed: there is nothing left to recover. *)
Definition is_settled (es : list JournalEntry.t) : Prop :=
  is_prepared es \/ JournalEntry.state <$> last es = Some JournalState.Reconciled.

Lemma last_two (es : list JournalEntry.t) e1 e2 : last (es ++ [e1] ++ [e2]) = Some e2.
Proof. by rewrite app_assoc, last_snoc. Qed.

Lemma settled_prepared es es' content : settled_as content es es' -> is_prepared es' -> es' = es.
Proof.
  unfold settled_as, is_prepared. destruct (JournalEntry.state <$> last es) as [[]|]; try done.
  - intros (e1 & e2 & _ & He2 & ->). rewrite last_two. by apply fmap_Some in He2 as (? & _ & ->).
  - intros (e1 & He1 & ->). rewrite last_snoc. by apply fmap_Some in He1 as (? & _ & ->).
Qed.

Lemma settled_is_settled es es' content : es <> [] -> settled_as content es es' -> is_settled es'.
Proof.
  unfold settled_as, is_settled, is_prepared. intros Hne. destruct (last es) as [e|] eqn:El; [| by apply last_None in El].
  cbn [fmap option_fmap option_map]. destruct (JournalEntry.state e) eqn:Es.
  - intros ->. left. rewrite El. simpl. by rewrite Es.
  - intros (e1 & e2 & _ & He2 & ->). right. rewrite last_two.
    by apply fmap_Some in He2 as (? & _ & ->).
  - intros (e1 & He1 & ->). right. rewrite last_snoc. by apply fmap_Some in He1 as (? & _ & ->).
  - intros ->. right. rewrite El. simpl. by rewrite Es.
Qed.

Lemma settled_again es es' content : is_settled es -> settled_as content es es' -> es' = es.
Proof. unfold is_settled, is_prepared, settled_as. by intros [->| ->]. Qed.

(** A transaction of an earlier process, which left nothing under the names this one writes. *)
Definition waiting (pid : N) (content : list byte) (h : host) (name : string) (o : option directory) : Prop :=
  is_ok (TransactionId.parse name) = true /\
  exists es d, o = Some d /\ load_entries (quiet d) = (quiet d, Value es) /\ private_dir d = true /\ locked d = false /\
    no_leftover pid d /\ room content es /\ (is_prepared es -> removable (children (staging h) !! name)).

(** C5: when no call fails, the inventory can be read and its digest taken, a missing directory
    is reported with the text the code looks for, and every journal is the private directory of
    a transaction id, loads, is nobody's, has room for the records of recovery and no temporary
    file under this process's names, and the staging directory of a prepared transaction is one
    the program made, a recovery ends well and leaves every transaction prepared, with no
    staging directory, or closed: one that started has the unknown result and then the failure with the digest of the
    inventory as it is, one with a result has that failure, and the other journals are as they
    were.  Recovering once more ends well and changes no journal. *)
Theorem recovery_settles (pid : N) (architecture : Architecture.t) (h : host) (current : InstalledInventory.t)
    (content : list byte)
    (Hnot_found : contains (bytes "No such file") (bytes enoent) = true)
    (Harch : architecture <> Architecture.Noarch)
    (Hread : exists m, read_from_context (still (rpm h)) = (still m, Value current))
    (Hbytes : inventory_bytes current = Ok content)
    (Hdigest : Journal.validate_digest (sha256_hex content) = Ok tt)
    (Hutf8 : root_non_utf8 (journals h) = false)
    (Hwaiting : forall name o, children (journals h) !! name = Some o -> waiting pid content h name o) :
  exists h', recover_pending_transactions pid architecture (still h) = (still h', Value tt) /\
    (forall name d es, children (journals h) !! name = Some (Some d) -> load_entries (quiet d) = (quiet d, Value es) ->
       exists d' es', children (journals h') !! name = Some (Some d') /\
         load_entries (quiet d') = (quiet d', Value es') /\ settled_as content es es' /\ is_settled es' /\
         locked d' = false /\ (es' = es -> d' = d) /\
         (is_prepared es -> children (staging h') !! name = None)) /\
    exists h'', recover_pending_transactions pid architecture (still h') = (still h'', Value tt) /\ journals h'' = journals h'.
Proof using JsonText0 SerdeJsonLaws0.
  assert (Hready : all_ready pid current content h).
  { split; [done |]. split; [done |]. intros name o Ho. destruct (Hwaiting name o Ho) as (Hok & es & d & -> & Hl & Hp & Hf & Hn & Hr & Hc).
    split; [done |]. exists es, d. split; [done |]. split; [split; [by apply load_entries_iff | done..] | done]. }
  destruct (settle_host pid Hnot_found architecture Harch current content Hbytes Hdigest h Hready)
    as (h' & Hrun & Hu' & Hread' & Hset & Hoff).
  assert (Hafter : forall name o', children (journals h') !! name = Some o' -> exists es' d',
    is_ok (TransactionId.parse name) = true /\ o' = Some d' /\ is_settled es' /\ ready_at pid content h' name es' d').
  { intros name o' Ho'. destruct (children (journals h) !! name) as [o|] eqn:Ho; [| destruct (Hoff name Ho) as [E _]; congruence].
    destruct (proj2 (proj2 Hready) name o Ho) as (Hok & es & d & Hat).
    destruct (Hset name o Ho es d Hat) as (es' & d' & Hd' & Hr' & Hs & Hsame & Hst). exists es', d'.
    destruct Hat as (_ & [Hh _ _ _] & Hroom & _). rewrite Ho' in Hd'. injection Hd' as ->.
    assert (Hset' : is_settled es') by (eapply settled_is_settled; [apply (wf_nonempty _ (holds_wf _ _ Hh)) | exact Hs]).
    split_and!; [done | done | done |]. split_and!; [done | done | |].
    - intros es2 e Hs2 He. apply settled_again in Hs2 as ->; [| done]. by eapply Hroom.
    - intros Hp. pose proof (settled_prepared _ _ _ Hs Hp) as ->. by rewrite Hst. }
  exists h'. split; [exact Hrun |]. split.
  - intros name d es Hd Hl%load_entries_iff. destruct (proj2 (proj2 Hready) name _ Hd) as (_ & es0 & d0 & Hat).
    pose proof Hat as (Hd0 & [Hh0 _ _ _] & _). rewrite Hd in Hd0. injection Hd0 as <-.
    assert (es0 = es) as -> by (by apply (holds_functional _ _ d)).
    destruct (Hset name _ Hd es d Hat) as (es' & d' & Hd' & [Hh' Hp' Hf' Hn'] & Hs & Hsame & Hst).
    exists d', es'. split; [done |]. split; [by apply load_entries_iff |]. split; [done |]. split; [| done].
    eapply settled_is_settled; [| exact Hs]. apply (wf_nonempty _ (holds_wf _ _ Hh0)).
  - destruct (settle_host pid Hnot_found architecture Harch current content Hbytes Hdigest h')
      as (h'' & Hrun2 & Hu2 & _ & Hset2 & Hoff2).
    { split; [done |]. split; [done |]. intros name o' Ho'. destruct (Hafter name o' Ho') as (es' & d' & Hok & _ & _ & Hat). eauto. }
    exists h''. split; [exact Hrun2 |].
    assert (Hchildren : children (journals h'') = children (journals h')).
    { apply map_eq. intros name. destruct (children (journals h') !! name) as [o'|] eqn:Ho'; last first.
      { destruct (Hoff2 name Ho') as [E _]. congruence. }
      destruct (Hafter name o' Ho') as (es' & d' & _ & -> & Hset' & Hat).
      destruct (Hset2 name _ Ho' es' d' Hat) as (es2 & d2 & Hd2 & _ & Hs2 & Hsame2 & _).
      apply settled_again in Hs2 as ->; [| done]. rewrite (Hsame2 eq_refl) in Hd2. congruence. }
    destruct (journals h''), (journals h'). simpl in *. congruence.
Qed.
End theorem.

(** ** The two transactions of [RecoveryExamples] *)

Section example.
#[local] Existing Instances JournalExamples.example_errno ExecuteExamples.env ExecuteExamples.keys ExecuteExamples.rpm
  RecoveryExamples.entries RecoveryExamples.entries_laws RecoveryExamples.entries_text.

Lemma directory_clear records pid :
  forallb (fun p => ends_with ".json" p.1) records = true -> no_leftover pid (RecoveryExamples.directory_of records).
Proof.
  intros Hall n. destruct (nodes _ !! temporary_name n pid) as [f|] eqn:E; [| done].
  apply elem_of_list_to_map_2, list_elem_of_fmap in E as ([name content] & E & Hin%list_elem_of_In).
  rewrite forallb_forall in Hall. specialize (Hall _ Hin). injection E as E _. simpl in *.
  by rewrite <- E, temporary_name_json in Hall.
Qed.

Lemma first_loads :
  load_entries (quiet RecoveryExamples.first_journal) = (quiet RecoveryExamples.first_journal, Value [RecoveryExamples.only_prepared]).
Proof. vm_compute. reflexivity. Qed.

Lemma first_there : children (journals RecoveryExamples.host_before) !! RecoveryExamples.first = Some (Some RecoveryExamples.first_journal).
Proof. vm_compute. reflexivity. Qed.

Lemma first_waits :
  waiting 9 (bytes "before") RecoveryExamples.host_before RecoveryExamples.first (Some RecoveryExamples.first_journal).
Proof.
  split; [vm_compute; reflexivity |]. exists [RecoveryExamples.only_prepared], RecoveryExamples.first_journal.
  split; [reflexivity |]. split; [exact first_loads |]. split; [reflexivity |]. split; [reflexivity |]. split; [| split].
  - apply directory_clear. vm_compute. reflexivity.
  - intros es' e Hs He. assert (es' = [RecoveryExamples.only_prepared]) as -> by exact Hs.
    apply list_elem_of_singleton in He as ->. eexists. split; [vm_compute; reflexivity | vm_compute; discriminate].
  - intros _. split; [done |]. split; [done |]. intros name n Hn.
    change (<["plan.json" := File (bytes "plan") true]> (∅ : gmap string node) !! name = Some n) in Hn.
    apply lookup_insert_Some in Hn as [[_ <-]|[_ Hn]]; [by eexists | done].
Qed.

Lemma second_settled es' :
  settled_as (bytes "before") [RecoveryExamples.prepared; RecoveryExamples.started] es' ->
  es' = [RecoveryExamples.prepared; RecoveryExamples.started; RecoveryExamples.unknown; RecoveryExamples.failed].
Proof.
  intros (e1 & e2 & He1 & He2 & ->). assert (e1 = RecoveryExamples.unknown) as -> by (vm_compute in He1; by injection He1).
  assert (e2 = RecoveryExamples.failed) as -> by (vm_compute in He2; by injection He2). done.
Qed.

Lemma second_waits :
  waiting 9 (bytes "before") RecoveryExamples.host_before RecoveryExamples.second (Some RecoveryExamples.second_journal).
Proof.
  split; [vm_compute; reflexivity |]. exists [RecoveryExamples.prepared; RecoveryExamples.started], RecoveryExamples.second_journal.
  split; [reflexivity |]. split; [exact RecoveryExamples.second_loads |]. split; [reflexivity |]. split; [reflexivity |]. split; [| split].
  - apply directory_clear. vm_compute. reflexivity.
  - intros es' e ->%second_settled He.
    repeat (apply elem_of_cons in He as [->|He]; [eexists; split; [vm_compute; reflexivity | vm_compute; discriminate] |]). by apply elem_of_nil in He.
  - intros Hp. discriminate Hp.
Qed.

Lemma both_wait name o :
  children (journals RecoveryExamples.host_before) !! name = Some o ->
  waiting 9 (bytes "before") RecoveryExamples.host_before name o.
Proof.
  intros Ho. change (<[RecoveryExamples.first := Some RecoveryExamples.first_journal]>
    (<[RecoveryExamples.second := Some RecoveryExamples.second_journal]> (∅ : gmap string (option directory))) !! name = Some o) in Ho.
  apply lookup_insert_Some in Ho as [[<- <-]|[_ Ho]]; [exact first_waits |].
  apply lookup_insert_Some in Ho as [[<- <-]|[_ Ho]]; [exact second_waits | done].
Qed.

Lemma recovery_settles_witness :
  exists h' d, recover_pending_transactions 9 Architecture.X86_64 (still RecoveryExamples.host_before) = (still h', Value tt) /\
    children (staging h') !! RecoveryExamples.first = None /\
    children (journals h') !! RecoveryExamples.second = Some (Some d) /\
    load_entries (quiet d) = (quiet d, Value [RecoveryExamples.prepared; RecoveryExamples.started;
                                             RecoveryExamples.unknown; RecoveryExamples.failed]).
Proof.
  assert (Hread : exists m, read_from_context (still (rpm RecoveryExamples.host_before)) = (still m, Value ExecuteExamples.before))
    by (eexists; vm_compute; reflexivity).
  assert (Hnot_found : contains (bytes "No such file") (bytes enoent) = true) by (vm_compute; reflexivity).
  assert (Hbytes : inventory_bytes ExecuteExamples.before = Ok (bytes "before")) by (vm_compute; reflexivity).
  assert (Hdigest : Journal.validate_digest (sha256_hex (bytes "before")) = Ok tt) by (vm_compute; reflexivity).
  destruct (recovery_settles 9 Architecture.X86_64
    RecoveryExamples.host_before ExecuteExamples.before (bytes "before") Hnot_found ltac:(discriminate) Hread Hbytes Hdigest
    eq_refl both_wait) as (h' & Hrun & Hall & _).
  destruct (Hall _ _ _ first_there first_loads) as (_ & _ & _ & _ & _ & _ & _ & _ & Hclean).
  destruct (Hall _ _ _ RecoveryExamples.second_there RecoveryExamples.second_loads) as (d & es' & Hd & Hl & Hs & _).
  apply second_settled in Hs. subst es'. exists h', d.
  split; [exact Hrun |]. split; [apply Hclean; reflexivity |]. split; [exact Hd | exact Hl].
Defined.
End example.
