(* ===== verification/Staging.v ===== *)
(** * The staging directory of a transaction ([dnfast-executor]: staging.rs, staged_inputs.rs)

    What a transaction works with is first copied into a directory of its own below
    [/var/lib/dnfast/staging], where nobody else writes.  The directory has the name of the
    transaction, made of random bytes; it is removed by [cleanup], or when the value goes.  The
    files are those of StateFs; reading the source of a copy is a sequence of reads. *)
From S2P Require Import Prelude.
From S2P Require Import RustStr.
From S2P Require Import RustText.
From S2P Require Import Value.
From S2P Require Import Canonical.
From S2P Require Import Documents.
From S2P Require Import Policy.
From S2P Require Import Xml.
From S2P Require Import Metadata.
From S2P Require Import Repomd.
From S2P Require Import Primary.
From S2P Require Import Compression.
From S2P Require Import SolverModel.
From S2P Require Import CacheModel.
From S2P Require Import Snapshot.
From S2P Require Import Effects.
From S2P Require Import StateFs.
From S2P Require Import NativeTrust.
From S2P Require Import Artifact.
From S2P Require Import RootInputs.
From S2P Require Import StagedInputs.

#[local] Open Scope N_scope.

(** ** Names *)

(** [bytes[index] = bytes[index] & keep | set]. *)
Definition stamp (index : nat) (keep set : N) (l : list byte) : list byte :=
  alter (fun b => Ascii.ascii_of_N (N.lor (N.land (byte_val b) keep) set)) index l.

(** [{:02x}] of the bytes from [first] to before [last]. *)
Definition hex_slice (l : list byte) (first last : nat) : string := hex_encode (take (last - first) (drop first l)).

Definition format_id (l : list byte) : string :=
  hex_slice l 0 4 +:+ "-" +:+ hex_slice l 4 6 +:+ "-" +:+ hex_slice l 6 8 +:+ "-" +:+ hex_slice l 8 10 +:+ "-" +:+ hex_slice l 10 16.

(** [random]: what [getrandom::fill] makes of sixteen bytes. *)
Definition transaction_id (random : result string (list byte)) : result ExecutorError.t string :=
  filled ← map_err ExecutorError.Staging random;
  Ok (format_id (stamp 8 63 128 (stamp 6 15 112 filled))).

(** ** The directory *)

(** The directory that holds the staging directories, and the files noted in the value. *)
Record workspace : Type := mk_workspace { parent : root; files : list string }.

Definition set_parent (v : root) (s : workspace) : workspace := mk_workspace v (files s).
Definition note (name : string) (s : workspace) : workspace := mk_workspace (parent s) (files s ++ [name]).

Definition PLAN_FILE : string := "plan.json".

Section operations.
Context `{SnapshotEnv} `{MetadataTools} `{ErrnoText} (euid : N).

Abbreviation staging_io := (Effects.io FaultPoint.t ExecutorError.t workspace).

(** [fn staging]: the error of a system call. *)
Definition staging_error (e : StateError.t) : ExecutorError.t :=
  match e with
  | StateError.Io m => ExecutorError.Staging m
  | other => ExecutorError.Staging (StateError.to_string other)
  end.

Definition in_parent {A} (m : io root A) : staging_io A :=
  map_raise staging_error (zoom parent set_parent m).

(** [openat] with [O_CREAT | O_EXCL] and the mode of private files. *)
Definition create_private (name : string) : io directory unit := sys (fun d =>
  match nodes d !! name with
  | None => Ok (with_nodes (<[name := File [] true]>) d, tt)
  | Some _ => Err (StateError.Io eexist)
  end).

Definition mkdir_private (name : string) : io root unit := sys (fun r =>
  match children r !! name with
  | None => Ok (with_children (<[name := Some (mk_dir ∅ false true false)]>) r, tt)
  | Some _ => Err (StateError.Io eexist)
  end).

(** [Staging::create], with the steps down to the parent as one; the value is the name. *)
Definition create (random : result string (list byte)) (plan : list byte) : staging_io string :=
  _ ← in_parent sync;
  child ← lift (transaction_id random);
  _ ← in_parent (mkdir_private child);
  _ ← in_parent sync;
  _ ← in_parent sync;
  _ ← in_parent (in_dir child (create_private PLAN_FILE));
  _ ← in_parent (in_dir child (write_all PLAN_FILE plan));
  _ ← in_parent sync;
  _ ← in_parent sync;
  _ ← modify (fun s => mk_workspace (parent s) []);
  mret child.

Definition path (child name : string) : string := "/var/lib/dnfast/staging/" +:+ child +:+ "/" +:+ name.

Section child.
Context (child : string).

Definition removed_files (s : workspace) : list string := files s ++ [PLAN_FILE].

Definition cleanup : staging_io unit :=
  names ← gets removed_files;
  _ ← for_io (fun name => in_parent (in_dir child (unlinkat name))) names;
  _ ← in_parent sync;
  _ ← in_parent (remove_dir child);
  in_parent sync.

(** [let _ = ..]. *)
Definition ignored (m : staging_io unit) : staging_io unit := _ ← attempt m; mret tt.

(** [Drop for Staging]. *)
Definition drop_staging : staging_io unit :=
  names ← gets removed_files;
  _ ← for_io (fun name => ignored (in_parent (in_dir child (unlinkat name)))) names;
  _ ← ignored (in_parent sync);
  _ ← ignored (in_parent (remove_dir child));
  ignored (in_parent sync).

(** A private file of the superuser that was just written and is read from its beginning. *)
Definition staged_file (content : list byte) : ArtifactFile.t :=
  ArtifactFile.mk true euid 384 1 (Z.of_nat (length content)) content.

(** The loop of [copy_file]: read a block, count it, write it. *)
Fixpoint copy_blocks (name : string) (total : N) (seen : list byte) (rest : list (list byte)) :
    staging_io (N * list byte) :=
  _ ← in_parent sync;
  match rest with
  | [] => mret (total, seen)
  | block :: rest =>
      total ← lift (ok_or (ExecutorError.Staging "input size overflow") (u64_checked_add total (N.of_nat (length block))));
      _ ← in_parent (in_dir child (write_all name block));
      copy_blocks name total (seen ++ block) rest
  end.

Definition copy_file (source : ArtifactFile.t) (name digest : string) (size : N) : staging_io ArtifactFile.t :=
  _ ← in_parent (in_dir child (create_private name));
  _ ← in_parent sync;
  copied ← copy_blocks name 0 [] (blocks (ArtifactFile.content source));
  _ ← raise_if (negb (copied.1 =? size) || negb (bool_decide (sha256_hex copied.2 = digest)))
        (ExecutorError.Staging "input changed during staging");
  _ ← in_parent sync;
  _ ← in_parent sync;
  _ ← in_parent sync;
  _ ← modify (note name);
  mret (staged_file copied.2).

Definition write_bytes (name : string) (content : list byte) : staging_io ArtifactFile.t :=
  _ ← in_parent (in_dir child (create_private name));
  _ ← in_parent (in_dir child (write_all name content));
  _ ← in_parent sync;
  _ ← in_parent sync;
  _ ← in_parent sync;
  _ ← modify (note name);
  mret (staged_file content).

(** ** Copies of the inputs *)

Section stage.
Context (directory : InputsDirectory.t).

Definition copy (input : InputFile.t) (name : string) : staging_io ArtifactFile.t :=
  source ← open_retained directory input;
  copy_file source name (InputFile.sha256 input) (InputFile.size input).

Definition copy_key (prefix : string) (p : nat * InputKey.t) : staging_io VerifiedStagedKey.t :=
  file ← copy (InputKey.file p.2) (prefix +:+ "-key-" +:+ display (N.of_nat p.1));
  certificate ← read_file file;
  mret (VerifiedStagedKey.mk (InputKey.bundle_path p.2) certificate).

(** [materialize_native_metadata] on open files, which are rewound. *)
Definition materialize_files (repomd primary filelists : ArtifactFile.t) : staging_io (list byte * list byte) :=
  repomd_bytes ← read_file repomd;
  _ ← sync;
  records ← lift (materialization "repomd" (repomd_records repomd_bytes));
  primary_bytes ← read_file primary;
  _ ← sync;
  primary_xml ← lift (materialization "primary" (opened_primary primary_bytes (RepomdRecords.primary records)));
  filelists_bytes ← read_file filelists;
  _ ← sync;
  filelists_xml ← lift (materialization "filelists"
    (decode_record sha256_hex zstd_new gzip_new unescape tokenize filelists_bytes (RepomdRecords.filelists records)));
  mret (primary_xml, filelists_xml).

(** [parse_candidates] on open files. *)
Definition parse_files (r : InputRepository.t) (repomd primary : ArtifactFile.t) (base : Architecture.t) :
    staging_io (list CandidatePackage.t * list (string * CompletePackage.t)) :=
  repomd_bytes ← read_file repomd;
  _ ← lift (metadata_input (repomd_records repomd_bytes));
  primary_bytes ← read_file primary;
  lift (parse_candidates r repomd_bytes primary_bytes base).

(** What has been staged of the repositories so far. *)
Definition staged_repositories : Type :=
  list StagedRepository.t * list CandidatePackage.t * list (string * CompletePackage.t).

Definition copy_repository (policy : SolverPolicy.t) (seen : staged_repositories) (p : nat * InputRepository.t) :
    staging_io staged_repositories :=
  let '(repositories, candidates, metadata) := seen in
  let r := p.2 in
  let prefix := "repo-" +:+ display (N.of_nat p.1) in
  repomd ← copy (InputRepository.repomd r) (prefix +:+ "-repomd");
  primary_source ← copy (InputRepository.primary r) (prefix +:+ "-primary");
  filelists_source ← copy (InputRepository.filelists r) (prefix +:+ "-filelists");
  xml ← materialize_files repomd primary_source filelists_source;
  primary ← write_bytes (prefix +:+ "-native-primary.xml") xml.1;
  _ ← write_bytes (prefix +:+ "-native-filelists.xml") xml.2;
  parsed ← parse_files r repomd primary (SolverPolicy.base_arch policy);
  trust ← parse_trust directory (InputRepositoryTrust.policy (InputRepository.trust r));
  keys ← map_io (copy_key prefix) (imap pair (InputRepositoryTrust.keys (InputRepository.trust r)));
  let native := native_repository r (path child (prefix +:+ "-repomd")) (path child (prefix +:+ "-native-primary.xml"))
                  (path child (prefix +:+ "-native-filelists.xml")) in
  mret (repositories ++ [StagedRepository.mk native trust keys (InputRepository.generation_sha256 r)
                           (InputOrigin.sha256 (InputRepository.origin r))
                           (InputRepositoryTrust.sha256 (InputRepository.trust r))],
        candidates ++ parsed.1, metadata ++ parsed.2).

Definition stage_artifact (metadata : list (string * CompletePackage.t)) (p : nat * InputArtifact.t) :
    staging_io StagedArtifact.t :=
  let a := p.2 in
  _ ← lift (validate_artifact_metadata metadata a);
  file ← copy (InputArtifact.file a) ("artifact-" +:+ display (N.of_nat p.1));
  mret (StagedArtifact.mk file (expected_package a) (InputFile.sha256 (InputArtifact.file a))
          (InputFile.size (InputArtifact.file a)) (InputArtifact.repo_id a) (InputArtifact.generation_sha256 a)
          (InputArtifact.origin_sha256 a) (InputArtifact.trust_sha256 a)).

Definition stage (m : InputManifest.t) : staging_io StagedInputs.t :=
  policy ← parse_policy directory (InputManifest.policy m);
  staged ← fold_io (copy_repository policy) ([], [], []) (imap pair (InputManifest.repositories m));
  let '(repositories, candidates, metadata) := staged in
  artifacts ← map_io (stage_artifact metadata) (imap pair (InputManifest.artifacts m));
  mret (StagedInputs.mk policy repositories candidates metadata artifacts).
End stage.
End child.
End operations.
