(* ===== verification/StagingFacts.v ===== *)
(** * A staging directory holds verified copies and goes without a trace

    What the operations of Staging do to the directory of their transaction: no file that is
    there changes, what is returned is what the directory holds, and removing it restores the
    directory above it. *)
From S2P Require Import Prelude.
From S2P Require Import RustStr.
From S2P Require Import RustText.
From S2P Require Import Value.
From S2P Require Import Canonical.
From S2P Require Import Documents.
From S2P Require Import Policy.
From S2P Require Import Xml.
From S2P Require Import Metadata.
From S2P Require Import Repomd.
From S2P Require Import Primary.
From S2P Require Import Compression.
From S2P Require Import SolverModel.
From S2P Require Import CacheModel.
From S2P Require Import Snapshot.
From S2P Require Import Effects.
From S2P Require Import StateFs.
From S2P Require Import Journal.
From S2P Require Import JournalCreate.
From S2P Require Import NativeTrust.
From S2P Require Import Artifact.
From S2P Require Import RootInputs.
From S2P Require Import StagedInputs.
From S2P Require Import ExecuteFacts.
From S2P Require Import RootInputsFacts.
From S2P Require Import ExecuteInputs.
From S2P Require Import Staging.

#[local] Open Scope N_scope.

Section facts.
Context `{SnapshotEnv} `{MetadataTools} `{ErrnoText} (euid : N) (child : string).

Abbreviation triple := (Effects.triple (F := FaultPoint.t) (E := ExecutorError.t)).

(** ** The directory of the transaction *)

Definition child_of (s : workspace) : option directory := mjoin (children (parent s) !! child).

Definition put_child (d : directory) (s : workspace) : workspace :=
  set_parent (with_children (<[child := Some d]>) (parent s)) s.

Definition with_file (name : string) (content : list byte) (d : directory) : directory :=
  with_nodes (<[name := File content true]>) d.

Lemma child_of_put d s : child_of (put_child d s) = Some d.
Proof. unfold child_of. simpl. by rewrite lookup_insert_eq. Qed.

Lemma put_put d d' s : put_child d' (put_child d s) = put_child d' s.
Proof. unfold put_child, set_parent, with_children. simpl. by rewrite insert_insert_eq. Qed.

Lemma put_same d s : child_of s = Some d -> put_child d s = s.
Proof.
  unfold child_of. destruct s as [[c u] fs]. simpl. destruct (c !! child) as [[x|]|] eqn:Hc; simpl; try done.
  intros [= ->]. unfold put_child, set_parent, with_children. simpl. by rewrite insert_id.
Qed.

Lemma with_file_twice name c c' d : with_file name c' (with_file name c d) = with_file name c' d.
Proof. unfold with_file, with_nodes. simpl. by rewrite insert_insert_eq. Qed.

Lemma in_child_triple {A} s d (m : io directory A) Q R :
  child_of s = Some d -> Effects.triple (eq d) m Q R ->
  triple (eq s) (in_parent (in_dir child m)) (fun a s' => exists d', s' = put_child d' s /\ Q a d')
    (fun s' => exists d', s' = put_child d' s /\ R d').
Proof.
  intros Hd Hm. assert (Hs : at_child (parent s) child (eq d) (parent s)).
  { exists d. split; [| done]. pose proof (put_same d s Hd) as E. destruct s as [r fs]. by injection E. }
  apply triple_map_raise. eapply triple_conseq.
  - apply (triple_zoom parent set_parent (in_dir child m) s).
    eapply triple_conseq; [apply (in_dir_triple (parent s) child _ _ _ _ Hm) | by intros r <- | by intros a r Hr; exact Hr | by intros r Hr; exact Hr].
  - done.
  - intros a s' (r & -> & d' & -> & Hq). by exists d'.
  - intros s' (r & -> & d' & -> & Hr). by exists d'.
Qed.

Lemma same_triple (P : workspace -> Prop) : triple P (in_parent sync) (fun _ => P) P.
Proof.
  apply triple_all. intros s Hs. apply triple_map_raise. eapply triple_conseq.
  - apply (triple_zoom parent set_parent sync s (fun _ => eq (parent s)) (eq (parent s))). by apply triple_sync.
  - done.
  - intros [] s' (r & -> & <-). by destruct s.
  - intros s' (r & -> & <-). by destruct s.
Qed.

Lemma create_private_triple d name :
  Effects.triple (eq d) (create_private name) (fun _ d' => nodes d !! name = None /\ d' = with_file name [] d) (eq d).
Proof. apply triple_sys; [done |]. intros ? d' [] <-. destruct (nodes d !! name) eqn:E; [done |]. by intros [= <-]. Qed.

Lemma put_bytes_file name c bs n d : put_bytes name bs n (with_file name c d) = with_file name (c ++ take n bs) d.
Proof. unfold put_bytes, with_file, with_nodes. simpl. rewrite lookup_insert_eq. by rewrite insert_insert_eq. Qed.

Lemma write_private_triple d name c bs :
  Effects.triple (eq (with_file name c d)) (write_all name bs) (fun _ => eq (with_file name (c ++ bs) d))
    (fun d' => exists k, d' = with_file name (c ++ take k bs) d).
Proof.
  apply triple_write.
  - intros ? n <- _. exists n. apply put_bytes_file.
  - intros ? <-. by rewrite put_bytes_file, firstn_all.
Qed.

(** ** A new file *)

(** [s] with [content] in the file [name], which was not there. *)
Definition copied (name : string) (content : list byte) (s s' : workspace) : Prop :=
  exists d, child_of s = Some d /\ nodes d !! name = None /\ s' = put_child (with_file name content d) s.

Definition started (name : string) (s s' : workspace) : Prop := s' = s \/ exists content, copied name content s s'.

Lemma create_file_triple s d name : child_of s = Some d ->
  triple (eq s) (in_parent (in_dir child (create_private name))) (fun _ => copied name [] s) (started name s).
Proof.
  intros Hd. eapply triple_conseq; [by apply (in_child_triple s d), create_private_triple | done | |].
  - intros [] s' (d' & -> & Hn & ->). by exists d.
  - intros s' (d' & -> & <-). left. by apply put_same.
Qed.

Lemma write_file_triple s name c bs :
  triple (copied name c s) (in_parent (in_dir child (write_all name bs))) (fun _ => copied name (c ++ bs) s) (started name s).
Proof.
  apply triple_all. intros s1 (d & Hd & Hn & ->). eapply triple_conseq.
  - apply (in_child_triple (put_child (with_file name c d) s) (with_file name c d)); [apply child_of_put | apply write_private_triple].
  - done.
  - intros [] s' (d' & -> & <-). exists d. by rewrite put_put.
  - intros s' (d' & -> & k & ->). right. exists (c ++ take k bs), d. by rewrite put_put.
Qed.

Lemma copy_blocks_triple s name : forall rest total seen, total = N.of_nat (length seen) ->
  triple (copied name seen s) (copy_blocks child name total seen rest)
    (fun r s' => r.2 = seen ++ concat rest /\ r.1 = N.of_nat (length r.2) /\ copied name r.2 s s') (started name s).
Proof.
  induction rest as [|block rest IH]; intros total seen Hlen; cbn [copy_blocks concat].
  - apply (triple_bind _ _ _ (fun _ => copied name seen s)).
    + eapply triple_conseq; [apply same_triple | done | done |]. intros s' Hs. right. by exists seen.
    + intros []. apply triple_done. intros s' Hs. simpl. by rewrite app_nil_r.
  - apply (triple_bind _ _ _ (fun _ => copied name seen s)).
    { eapply triple_conseq; [apply same_triple | done | done |]. intros s' Hs. right. by exists seen. }
    intros []. apply triple_lift_bind; [by intros s' Hs; right; exists seen |]. intros total' Ht%ok_or_ok.
    unfold u64_checked_add in Ht. destruct (_ <=? _); [| done]. injection Ht as <-.
    eapply triple_bind; [apply write_file_triple |]. intros []. rewrite app_assoc. apply IH.
    rewrite length_app. lia.
Qed.

Lemma started_sync s name content (k : unit -> Effects.io FaultPoint.t ExecutorError.t workspace ArtifactFile.t) Q :
  triple (copied name content s) (k tt) Q (started name s) ->
  triple (copied name content s) (in_parent sync ≫= k) Q (started name s).
Proof.
  intros Hk. apply (triple_bind _ _ _ (fun _ => copied name content s)); [| by intros []].
  eapply triple_conseq; [apply same_triple | done | done |]. intros s' Hs. right. by exists content.
Qed.

(** What the two operations that make a file do. *)
Definition file_made (name : string) (content : list byte) (s s' : workspace) : Prop :=
  exists s1, copied name content s s1 /\ s' = note name s1.

Lemma noted_triple s name content :
  triple (copied name content s) (_ ← modify (note name); mret (staged_file euid content))
    (fun f s' => f = staged_file euid content /\ file_made name content s s') (started name s).
Proof.
  apply (triple_bind _ _ _ (fun _ => file_made name content s)).
  - apply triple_modify. intros s1 Hs. by exists s1.
  - intros []. by apply triple_done.
Qed.

Lemma copy_file_triple s d source name digest size : child_of s = Some d ->
  triple (eq s) (copy_file euid child source name digest size)
    (fun f s' => f = staged_file euid (ArtifactFile.content source) /\ file_made name (ArtifactFile.content source) s s' /\
       sha256_hex (ArtifactFile.content source) = digest /\ N.of_nat (length (ArtifactFile.content source)) = size)
    (started name s).
Proof.
  intros Hd. unfold copy_file. eapply triple_bind; [by apply (create_file_triple s d) |]. intros [].
  apply (triple_bind _ _ _ (fun _ => copied name [] s)).
  { eapply triple_conseq; [apply same_triple | done | done |]. intros s' Hs. right. by exists []. }
  intros []. eapply triple_bind; [by apply (copy_blocks_triple s name _ 0 []) |]. intros [total c]. cbn.
  rewrite NativeTrustFacts.concat_blocks. apply triple_all. intros s1 (-> & -> & Hs). unfold raise_if.
  apply triple_lift_bind; [intros ? <-; right; by eexists |]. intros [] Hb%reject_if_ok.
  apply orb_false_iff in Hb as [Hsize%negb_false_iff%N.eqb_eq Hsha%negb_false_iff%bool_decide_eq_true].
  eapply triple_conseq; [do 3 apply started_sync; apply noted_triple | by intros ? <- | | done].
  intros f s' [-> Hs']. by split_and!.
Qed.

Lemma write_bytes_triple s d name content : child_of s = Some d ->
  triple (eq s) (write_bytes euid child name content)
    (fun f s' => f = staged_file euid content /\ file_made name content s s') (started name s).
Proof.
  intros Hd. unfold write_bytes. eapply triple_bind; [by apply (create_file_triple s d) |]. intros [].
  eapply triple_bind; [apply write_file_triple |]. intros []. do 3 apply started_sync. apply noted_triple.
Qed.

(** ** What holds between the operations *)

(** The files of the directory are those noted and the plan. *)
Record tidy (s : workspace) (d : directory) : Prop := {
  tidy_child : child_of s = Some d;
  tidy_utf8 : non_utf8 d = false;
  tidy_distinct : NoDup (removed_files s);
  tidy_names : forall name, is_Some (nodes d !! name) <-> name ∈ removed_files s;
  tidy_files : forall name n, nodes d !! name = Some n -> exists content, n = File content true
}.

Definition tidied (s : workspace) : Prop := exists d, tidy s d.

(** Other transactions stay, and so do the files that are there. *)
Definition grows (s s' : workspace) : Prop :=
  (forall other, other <> child -> children (parent s') !! other = children (parent s) !! other) /\
  root_non_utf8 (parent s') = root_non_utf8 (parent s) /\
  forall d, child_of s = Some d -> exists d', child_of s' = Some d' /\ nodes d ⊆ nodes d'.

#[global] Instance grows_preorder : PreOrder grows.
Proof.
  split.
  - intros s. split_and!; [done.. |]. intros d Hd. by exists d.
  - intros s s1 s2 (Ho & Hu & Hd) (Ho' & Hu' & Hd'). split_and!.
    + intros other Hne. by rewrite Ho', Ho.
    + congruence.
    + intros d (d1 & (d2 & Hd2 & Hs2)%Hd' & Hs1)%Hd. exists d2. split; [done | by etrans].
Qed.

Definition holds_file (name : string) (content : list byte) (s : workspace) : Prop :=
  exists d, child_of s = Some d /\ nodes d !! name = Some (File content true).

Lemma holds_file_grows name content s s' : grows s s' -> holds_file name content s -> holds_file name content s'.
Proof.
  intros (_ & _ & Hg) (d & (d' & Hd' & Hs)%Hg & Hn). exists d'. split; [done |]. by eapply lookup_weaken.
Qed.

Lemma copied_grows name content s s' : copied name content s s' -> grows s s'.
Proof.
  intros (d & Hd & Hn & ->). split_and!; [| done |].
  - intros other Hne. simpl. by rewrite lookup_insert_ne.
  - intros d0 Hd0. rewrite Hd in Hd0. injection Hd0 as <-. eexists. split; [apply child_of_put |].
    simpl. by apply insert_subseteq.
Qed.

Lemma started_grows name s s' : started name s s' -> grows s s'.
Proof. intros [->|(c & Hc)]; [done | by eapply copied_grows]. Qed.

Lemma file_made_grows name content s s' : file_made name content s s' -> grows s s'.
Proof. by intros (s1 & Hc%copied_grows & ->). Qed.

Lemma file_made_holds name content s s' : file_made name content s s' -> holds_file name content s'.
Proof.
  intros (s1 & (d & Hd & Hn & ->) & ->). exists (with_file name content d). split; [apply child_of_put |].
  simpl. by rewrite lookup_insert_eq.
Qed.

Lemma file_made_tidy name content s s' : file_made name content s s' -> tidied s -> tidied s'.
Proof.
  intros (s1 & (d & Hd & Hn & ->) & ->) [d0 []]. rewrite Hd in tidy_child0. injection tidy_child0 as <-.
  assert (Hr : forall s, removed_files (note name s) ≡ₚ name :: removed_files s).
  { intros s2. unfold removed_files. simpl. rewrite <- app_assoc. symmetry. apply Permutation_middle. }
  assert (Hr' : removed_files (put_child (with_file name content d) s) = removed_files s) by done.
  exists (with_file name content d). split.
  - apply child_of_put.
  - done.
  - rewrite Hr, Hr'. constructor; [| done]. rewrite <- tidy_names0, Hn. by intros [].
  - intros other. rewrite Hr, Hr', elem_of_cons, <- tidy_names0. simpl.
    destruct (decide (other = name)) as [->|Hne]; [rewrite lookup_insert_eq; naive_solver |].
    rewrite lookup_insert_ne by done. naive_solver.
  - intros other n. simpl. intros [[<- <-]|[_ Hx]]%lookup_insert_Some; [by eexists | by eapply tidy_files0].
Qed.

(** ** Sequences of operations

    [makes s m Q]: from the tidy state [s] the operation only adds files, and gives a value in
    [Q] with the tidy state it leaves. *)

Definition makes {A} (s : workspace) (m : Effects.io FaultPoint.t ExecutorError.t workspace A) (Q : A -> workspace -> Prop) : Prop :=
  tidied s -> triple (eq s) m (fun a s' => Q a s' /\ tidied s' /\ grows s s') (grows s).

Lemma makes_bind {A B} s (m : Effects.io FaultPoint.t ExecutorError.t workspace A)
    (k : A -> Effects.io FaultPoint.t ExecutorError.t workspace B) G Q :
  makes s m G -> (forall a s1, grows s s1 -> G a s1 -> makes s1 (k a) Q) -> makes s (m ≫= k) Q.
Proof.
  intros Hm Hk Ht. eapply triple_bind; [by apply Hm |]. intros a. apply triple_all. intros s1 (Ha & Ht1 & Hg).
  eapply triple_conseq; [by apply (Hk a s1 Hg Ha Ht1) | done | |].
  - intros b s2 (Hq & Ht2 & Hg2). split_and!; [done.. |]. by etrans.
  - intros s2 Hg2. by etrans.
Qed.

Lemma makes_ret {A} s (a : A) (Q : A -> workspace -> Prop) : Q a s -> makes s (mret a) Q.
Proof. intros Hq Ht. apply triple_done. by intros s' <-. Qed.

Lemma makes_lift {A} s (r : result ExecutorError.t A) : makes s (lift r) (fun a _ => r = Ok a).
Proof. intros Ht. eapply triple_conseq; [apply (triple_lift r (eq s) (grows s)) | done | | done]; [by intros s' <- | by intros a s' [-> <-]]. Qed.

(** Operations that only read. *)
Lemma makes_reads {A} s (m : Effects.io FaultPoint.t ExecutorError.t workspace A) (G : A -> Prop) :
  within eq m -> yields m G -> makes s m (fun a _ => G a).
Proof.
  intros Hm HG Ht. eapply triple_conseq; [by apply (triple_yields m G (eq s)) | done | |].
  - by intros a s' [Ha <-].
  - by intros s' <-.
Qed.

Lemma makes_map {X Y} (f : X -> Effects.io FaultPoint.t ExecutorError.t workspace Y) (G : X -> Y -> workspace -> Prop) l :
  (forall x y s s', grows s s' -> G x y s -> G x y s') -> (forall x s, x ∈ l -> makes s (f x) (G x)) ->
  forall s, makes s (map_io f l) (fun ys s' => Forall2 (fun x y => G x y s') l ys).
Proof.
  intros HG. induction l as [|x l IH]; intros Hf s; cbn [map_io]; [by apply makes_ret, Forall2_nil |].
  eapply makes_bind; [apply Hf; left |]. intros y s1 _ Hy.
  eapply makes_bind; [apply IH; intros x' s' Hx; apply Hf; by right |]. intros ys s2 Hg Hys.
  apply makes_ret, Forall2_cons. split; [by eapply HG | done].
Qed.

Lemma makes_fold {X S} (f : S -> X -> Effects.io FaultPoint.t ExecutorError.t workspace S) (I : list X -> S -> workspace -> Prop) l :
  (forall seen v x s, I seen v s -> x ∈ l -> makes s (f v x) (I (seen ++ [x]))) ->
  forall seen v s, I seen v s -> makes s (fold_io f v l) (I (seen ++ l)).
Proof.
  induction l as [|x l IH]; intros Hf seen v s Hv; cbn [fold_io]; [rewrite app_nil_r; by apply makes_ret |].
  eapply makes_bind; [apply Hf; [done | left] |]. intros v' s1 _ Hv'.
  change (x :: l) with ([x] ++ l). rewrite app_assoc. apply IH; [| done].
  intros seen' v'' y s' Hs' Hy. apply Hf; [done | by right].
Qed.

(** *** Operations that make a file *)

Lemma makes_file {A} s (m : Effects.io FaultPoint.t ExecutorError.t workspace A) name (Q : A -> list byte -> Prop) :
  (forall d, child_of s = Some d ->
     triple (eq s) m (fun a s' => exists content, file_made name content s s' /\ Q a content) (started name s)) ->
  makes s m (fun a s' => exists content, holds_file name content s' /\ Q a content).
Proof.
  intros Hm Ht. pose proof Ht as [d Hd]. eapply triple_conseq; [apply (Hm d (tidy_child s d Hd)) | done | |].
  - intros a s' (c & Hc & Hq). split_and!.
    + exists c. split; [by eapply file_made_holds | done].
    + by eapply file_made_tidy.
    + by eapply file_made_grows.
  - intros s' Hs. by eapply started_grows.
Qed.

Lemma write_bytes_makes s name content :
  makes s (write_bytes euid child name content) (fun f s' => f = staged_file euid content /\ holds_file name content s').
Proof.
  intros Ht. eapply triple_conseq; [apply (makes_file s _ name (fun f c => f = staged_file euid content /\ c = content)) | done | | done]; [| done |].
  - intros d Hd. eapply triple_conseq; [by apply (write_bytes_triple s d) | done | | done]. intros f s' [-> Hc]. by exists content.
  - by intros f s' ((c & Hc & -> & ->) & Ht' & Hg).
Qed.

(** ** Copies of the inputs *)

Section stage.
Context (directory : InputsDirectory.t).

#[local] Abbreviation present_as := (present_as directory 0).

Lemma sync_same {D} : within (D:=D) eq (sync (E:=ExecutorError.t)).
Proof. apply within_sync; apply _. Qed.

Lemma read_file_keeps {D} f : within (D:=D) eq (read_file (F:=FaultPoint.t) (E:=ExecutorError.t) f).
Proof.
  unfold read_file. generalize (blocks (ArtifactFile.content f)) ([] : list byte).
  induction l as [|block l IH]; intros seen; cbn [read_to_end]; walk; try apply IH; apply _.
Qed.

Lemma open_retained_same {D} e : within (D:=D) eq (open_retained directory e).
Proof.
  unfold open_retained, open_retained_as, open_input, validate_metadata, check_digest. walk; try apply read_file_keeps; try apply _.
  apply within_sys; [apply _ |]. intros d d' f. by destruct (InputsDirectory.entries directory !! InputFile.name e) as [[]|]; intros [= -> _].
Qed.

Lemma parse_trust_same {D} e : within (D:=D) eq (parse_trust directory e).
Proof. unfold parse_trust. walk; [apply open_retained_same | apply read_file_keeps]. Qed.

Lemma parse_policy_same {D} e : within (D:=D) eq (parse_policy directory e).
Proof. unfold parse_policy. walk; [apply open_retained_same | apply read_file_keeps]. Qed.

(** The bytes of an input with the digest and the size of the manifest, in the file [name] of the
    staging directory as well. *)
Definition input_copied (e : InputFile.t) (name : string) (content : list byte) (s : workspace) : Prop :=
  holds_file name content s /\ sha256_hex content = InputFile.sha256 e /\ N.of_nat (length content) = InputFile.size e /\
  exists f, present_as f e /\ ArtifactFile.content f = content.

Lemma input_copied_grows e name content s s' : grows s s' -> input_copied e name content s -> input_copied e name content s'.
Proof. intros Hg [Hh Hi]. split; [by eapply holds_file_grows | done]. Qed.

Lemma copy_makes s e name :
  makes s (copy euid child directory e name) (fun f s' => exists content, input_copied e name content s' /\ f = staged_file euid content).
Proof.
  eapply makes_bind; [apply makes_reads; [apply open_retained_same | apply (open_retained_yields directory 0)] |].
  intros source s1 _ Hsource. intros Ht. eapply triple_conseq;
    [apply (makes_file s1 _ name (fun f c => f = staged_file euid c /\ sha256_hex c = InputFile.sha256 e /\
        N.of_nat (length c) = InputFile.size e /\ c = ArtifactFile.content source)) | done | | done]; [| done |].
  - intros d Hd. eapply triple_conseq; [by apply (copy_file_triple s1 d) | done | | done].
    intros f s' (-> & Hm & Hsha & Hsize). by exists (ArtifactFile.content source).
  - intros f s' ((c & Hh & -> & Hsha & Hsize & ->) & Ht' & Hg). split_and!; [| done..].
    eexists. split; [| done]. split_and!; [done..|]. by exists source.
Qed.

(** *** Keys, repositories and packages *)

Definition key_staged (prefix : string) (p : nat * InputKey.t) (k : VerifiedStagedKey.t) (s : workspace) : Prop :=
  exists content, input_copied (InputKey.file p.2) (prefix +:+ "-key-" +:+ display (N.of_nat p.1)) content s /\
    k = VerifiedStagedKey.mk (InputKey.bundle_path p.2) content.

Lemma read_staged_makes s content :
  makes s (read_file (staged_file euid content)) (fun c _ => c = content).
Proof. apply makes_reads; [apply read_file_keeps | apply read_file_yields]. Qed.

Lemma copy_key_makes s prefix p : makes s (copy_key euid child directory prefix p) (fun k => key_staged prefix p k).
Proof.
  eapply makes_bind; [apply copy_makes |]. intros f s1 _ (c & Hc & ->).
  eapply makes_bind; [apply read_staged_makes |]. intros c' s2 Hg ->.
  apply makes_ret. exists c. split; [by eapply input_copied_grows | done].
Qed.

(** The trust policy that the file of the manifest holds. *)
Definition trust_read (e : InputFile.t) (trust : RepoTrustPolicy.t) : Prop :=
  exists f, present_as f e /\ @from_canonical_json _ (RepoTrustPolicy.trust_document trust_json) (ArtifactFile.content f) = Ok trust.

Definition policy_read (e : InputFile.t) (policy : SolverPolicy.t) : Prop :=
  exists f, present_as f e /\ @from_canonical_json _ (SolverPolicy.policy_document policy_json) (ArtifactFile.content f) = Ok policy.

Lemma parse_trust_yields {D} e : yields (D:=D) (parse_trust directory e) (trust_read e).
Proof.
  eapply yields_bind; [apply (open_retained_yields directory 0) |]. intros f Hf. eapply yields_bind; [apply read_file_yields |].
  intros c ->. apply yields_lift. intros trust Ht%map_err_ok. by exists f.
Qed.

Lemma parse_policy_yields {D} e : yields (D:=D) (parse_policy directory e) (policy_read e).
Proof.
  eapply yields_bind; [apply (open_retained_yields directory 0) |]. intros f Hf. eapply yields_bind; [apply read_file_yields |].
  intros c ->. apply yields_lift. intros policy Ht%map_err_ok. by exists f.
Qed.

Lemma parse_trust_makes s e : makes s (parse_trust directory e) (fun trust _ => trust_read e trust).
Proof. apply makes_reads; [apply parse_trust_same | apply parse_trust_yields]. Qed.

Lemma parse_policy_makes s e : makes s (parse_policy directory e) (fun policy _ => policy_read e policy).
Proof. apply makes_reads; [apply parse_policy_same | apply parse_policy_yields]. Qed.

Lemma materialize_files_makes s c1 c2 c3 :
  makes s (materialize_files (staged_file euid c1) (staged_file euid c2) (staged_file euid c3))
    (fun xml _ => materialize_native_metadata c1 c2 c3 = Ok xml).
Proof.
  apply makes_reads.
  - unfold materialize_files. walk; try apply read_file_keeps; apply _.
  - eapply yields_bind; [apply read_file_yields |]. intros ? ->. apply yields_then. intros [].
    apply yields_lift_bind. intros records Hr. eapply yields_bind; [apply read_file_yields |]. intros ? ->.
    apply yields_then. intros []. apply yields_lift_bind. intros primary Hp.
    eapply yields_bind; [apply read_file_yields |]. intros ? ->. apply yields_then. intros [].
    apply yields_lift_bind. intros filelists Hf. apply yields_ret. unfold materialize_native_metadata. simpl in *.
    rewrite Hr. simpl. rewrite Hp. simpl. by rewrite Hf.
Qed.

Lemma parse_files_makes s r c1 c2 base :
  makes s (parse_files r (staged_file euid c1) (staged_file euid c2) base) (fun parsed _ => parse_candidates r c1 c2 base = Ok parsed).
Proof.
  apply makes_reads.
  - unfold parse_files. walk; try apply read_file_keeps; apply _.
  - eapply yields_bind; [apply read_file_yields |]. intros ? ->. apply yields_lift_bind. intros records _.
    eapply yields_bind; [apply read_file_yields |]. intros ? ->. by apply yields_lift.
Qed.

(** A staged repository: the files the solver gets, made of verified copies, and what they list. *)
Record repository_staged (base : Architecture.t) (p : nat * InputRepository.t)
    (x : StagedRepository.t * (list CandidatePackage.t * list (string * CompletePackage.t))) (s : workspace) : Prop := {
  of_metadata : exists repomd primary filelists primary_xml filelists_xml,
    let prefix := "repo-" +:+ display (N.of_nat p.1) in
    input_copied (InputRepository.repomd p.2) (prefix +:+ "-repomd") repomd s /\
    input_copied (InputRepository.primary p.2) (prefix +:+ "-primary") primary s /\
    input_copied (InputRepository.filelists p.2) (prefix +:+ "-filelists") filelists s /\
    materialize_native_metadata repomd primary filelists = Ok (primary_xml, filelists_xml) /\
    holds_file (prefix +:+ "-native-primary.xml") primary_xml s /\
    holds_file (prefix +:+ "-native-filelists.xml") filelists_xml s /\
    parse_candidates p.2 repomd primary_xml base = Ok x.2 /\
    StagedRepository.repository x.1 = native_repository p.2 (path child (prefix +:+ "-repomd"))
      (path child (prefix +:+ "-native-primary.xml")) (path child (prefix +:+ "-native-filelists.xml"));
  of_trust : trust_read (InputRepositoryTrust.policy (InputRepository.trust p.2)) (StagedRepository.trust x.1);
  of_keys : Forall2 (fun q k => key_staged ("repo-" +:+ display (N.of_nat p.1)) q k s)
    (imap pair (InputRepositoryTrust.keys (InputRepository.trust p.2))) (StagedRepository.keys x.1);
  of_bindings : StagedRepository.generation_sha256 x.1 = InputRepository.generation_sha256 p.2 /\
    StagedRepository.origin_sha256 x.1 = InputOrigin.sha256 (InputRepository.origin p.2) /\
    StagedRepository.trust_sha256 x.1 = InputRepositoryTrust.sha256 (InputRepository.trust p.2)
}.

Lemma key_staged_grows prefix q k s s' : grows s s' -> key_staged prefix q k s -> key_staged prefix q k s'.
Proof. intros Hg (c & Hc & ->). exists c. split; [by eapply input_copied_grows | done]. Qed.

Lemma repository_staged_grows base p x s s' : grows s s' -> repository_staged base p x s -> repository_staged base p x s'.
Proof.
  intros Hg [(c1 & c2 & c3 & x1 & x2 & H1' & H2' & H3' & Hm & Hx1 & Hx2 & Hp & Hn) Ht Hk Hb]. split; [| done | | done].
  - exists c1, c2, c3, x1, x2. split_and!; eauto using input_copied_grows, holds_file_grows.
  - eapply Forall2_impl; [exact Hk |]. intros q k Hq. by eapply key_staged_grows.
Qed.

(** The repositories staged so far, as [fold_io] collects them. *)
Definition repositories_staged (base : Architecture.t) (l : list (nat * InputRepository.t)) (v : staged_repositories) (s : workspace) : Prop :=
  exists xs, Forall2 (fun p x => repository_staged base p x s) l xs /\ v = (xs.*1, concat (xs.*2).*1, concat (xs.*2).*2).

Lemma copy_repository_makes s policy v seen p : repositories_staged (SolverPolicy.base_arch policy) seen v s ->
  makes s (copy_repository euid child directory policy v p) (repositories_staged (SolverPolicy.base_arch policy) (seen ++ [p])).
Proof.
  intros (xs & Hxs & ->). unfold copy_repository. cbn zeta.
  eapply makes_bind; [apply copy_makes |]. intros f1 s1 G1 (c1 & C1 & ->).
  eapply makes_bind; [apply copy_makes |]. intros f2 s2 G2 (c2 & C2 & ->).
  eapply makes_bind; [apply copy_makes |]. intros f3 s3 G3 (c3 & C3 & ->).
  eapply makes_bind; [apply materialize_files_makes |]. intros [xml1 xml2] s4 G4 Hxml.
  eapply makes_bind; [apply write_bytes_makes |]. intros f5 s5 G5 [-> W5].
  eapply makes_bind; [apply write_bytes_makes |]. intros f6 s6 G6 [-> W6].
  eapply makes_bind; [apply parse_files_makes |]. intros parsed s7 G7 Hparsed.
  eapply makes_bind; [apply parse_trust_makes |]. intros trust s8 G8 Htrust.
  eapply makes_bind; [apply (makes_map _ (key_staged ("repo-" +:+ display (N.of_nat p.1)))) |].
  { intros q k s9 s10 Hg. by apply key_staged_grows. }
  { intros q s9 _. apply copy_key_makes. }
  intros keys s9 G9 Hkeys. apply makes_ret.
  match goal with |- context [xs.*1 ++ [?r]] => set (x := (r, parsed)) end.
  assert (Hx : repository_staged (SolverPolicy.base_arch policy) p x s9).
  { split; [| done..]. exists c1, c2, c3, xml1, xml2. split_and!; try done;
      first [eapply input_copied_grows; [| eassumption] | eapply holds_file_grows; [| eassumption]];
      repeat first [eassumption | etrans; [eassumption |]]. }
  exists (xs ++ [x]). split.
  - apply Forall2_app; [| by constructor]. eapply Forall2_impl; [exact Hxs |]. intros q y.
    apply repository_staged_grows. repeat first [eassumption | etrans; [eassumption |]].
  - rewrite !fmap_app, !concat_app. cbn. by rewrite !app_nil_r.
Qed.

(** A staged package: its copy, and the metadata that lists it. *)
Definition package_staged (metadata : list (string * CompletePackage.t)) (p : nat * InputArtifact.t) (a : StagedArtifact.t)
    (s : workspace) : Prop :=
  validate_artifact_metadata metadata p.2 = Ok tt /\
  exists content, input_copied (InputArtifact.file p.2) ("artifact-" +:+ display (N.of_nat p.1)) content s /\
    a = StagedArtifact.mk (staged_file euid content) (expected_package p.2) (InputFile.sha256 (InputArtifact.file p.2))
          (InputFile.size (InputArtifact.file p.2)) (InputArtifact.repo_id p.2) (InputArtifact.generation_sha256 p.2)
          (InputArtifact.origin_sha256 p.2) (InputArtifact.trust_sha256 p.2).

Lemma stage_artifact_makes s metadata p : makes s (stage_artifact euid child directory metadata p) (package_staged metadata p).
Proof.
  eapply makes_bind; [apply makes_lift |]. intros [] s1 _ Hv.
  eapply makes_bind; [apply copy_makes |]. intros f s2 _ (c & Hc & ->).
  apply makes_ret. split; [done |]. by exists c.
Qed.

(** What [stage] returns. *)
Record staged_well (m : InputManifest.t) (x : StagedInputs.t) (s : workspace) : Prop := {
  well_policy : policy_read (InputManifest.policy m) (StagedInputs.policy x);
  well_repositories : repositories_staged (SolverPolicy.base_arch (StagedInputs.policy x)) (imap pair (InputManifest.repositories m))
    (StagedInputs.repositories x, StagedInputs.candidates x, StagedInputs.metadata x) s;
  well_artifacts : Forall2 (fun p a => package_staged (StagedInputs.metadata x) p a s) (imap pair (InputManifest.artifacts m))
    (StagedInputs.artifacts x)
}.

Lemma stage_makes s m : makes s (stage euid child directory m) (staged_well m).
Proof.
  unfold stage. eapply makes_bind; [apply parse_policy_makes |]. intros policy s1 _ Hpolicy.
  eapply makes_bind.
  { apply (makes_fold _ (repositories_staged (SolverPolicy.base_arch policy)) _ ltac:(intros; by apply copy_repository_makes) []).
    by exists []. }
  intros [[repositories candidates] metadata] s2 _ Hrs. cbn [app] in Hrs.
  eapply makes_bind; [apply (makes_map _ (package_staged metadata)) |].
  { intros p a s3 s4 Hg [Hv (c & Hc & ->)]. split; [done |]. exists c. split; [by eapply input_copied_grows | done]. }
  { intros p s3 _. apply stage_artifact_makes. }
  intros artifacts s3 Hg Has. apply makes_ret. split; [done | | done].
  destruct Hrs as (xs & Hxs & E). exists xs. split; [| done].
  eapply Forall2_impl; [exact Hxs |]. intros q y. by apply repository_staged_grows.
Qed.
End stage.

(** ** Removal *)

Lemma run_in_child {A} (m : io directory A) d d' a s :
  child_of s = Some d -> m (quiet (E:=StateError.t) d) = (quiet (E:=StateError.t) d', Value a) ->
  in_parent (in_dir child m) (quiet s) = (quiet (put_child d' s), Value a).
Proof.
  unfold child_of. intros Hd Hm. unfold in_parent, map_raise, zoom, in_dir. cbn.
  destruct (children (parent s) !! child) as [[x|]|]; simpl in Hd; try done. injection Hd as ->.
  unfold zoom, quiet in *. cbn in *. by rewrite Hm.
Qed.

(** A loop that unlinks files of the directory. *)
Lemma unlink_loop (f : string -> Effects.io FaultPoint.t ExecutorError.t workspace unit)
    (Hf : forall name s s', in_parent (in_dir child (unlinkat name)) (quiet s) = (quiet s', Value tt) ->
            f name (quiet s) = (quiet s', Value tt)) :
  forall names d s, child_of s = Some d -> NoDup names ->
  (forall name, name ∈ names -> exists content, nodes d !! name = Some (File content true)) ->
  exists d', for_io f names (quiet s) = (quiet (put_child d' s), Value tt) /\ non_utf8 d' = non_utf8 d /\
    forall name, nodes d' !! name = if decide (name ∈ names) then None else nodes d !! name.
Proof.
  induction names as [|name names IH]; intros d s Hd Hnd Hfiles; cbn [for_io].
  { exists d. rewrite put_same by done. split_and!; [done.. |]. intros other. by rewrite decide_False by (by intros ?%elem_of_nil). }
  apply NoDup_cons in Hnd as [Hnew Hnd]. destruct (Hfiles name ltac:(left)) as [c Hc].
  set (d1 := with_nodes (delete name) d).
  assert (Hrun : f name (quiet s) = (quiet (put_child d1 s), Value tt)).
  { apply Hf, (run_in_child (unlinkat name) d); [done |]. apply run_sys. by rewrite Hc. }
  destruct (IH d1 (put_child d1 s)) as (d' & Hloop & Hu & Hn); [apply child_of_put | done | |].
  { intros other Ho. destruct (Hfiles other ltac:(by right)) as [c' Hc']. exists c'. simpl.
    rewrite lookup_delete_ne; [done |]. by intros <-. }
  exists d'. rewrite put_put in Hloop. split_and!; [| done |].
  - eapply run_bind; [exact Hrun | exact Hloop].
  - intros other. rewrite Hn. simpl. destruct (decide (other = name)) as [->|Hne].
    + rewrite lookup_delete_eq. rewrite (decide_True (P := name ∈ name :: names)) by left. by case_decide.
    + rewrite lookup_delete_ne by done. case_decide as Hin; [by rewrite decide_True by (by right) |].
      rewrite decide_False; [done |]. by intros [?|?]%elem_of_cons.
Qed.

Lemma run_same (s : workspace) : in_parent sync (quiet s) = (quiet s, Value tt).
Proof. by destruct s. Qed.

Lemma run_ignored (m : Effects.io FaultPoint.t ExecutorError.t workspace unit) w w' :
  m w = (w', Value tt) -> ignored m w = (w', Value tt).
Proof. intros Hm. unfold ignored, attempt, mbind, io_mbind. by rewrite Hm. Qed.

Lemma run_ignored_error (m : Effects.io FaultPoint.t ExecutorError.t workspace unit) w w' e :
  m w = (w', Raised e) -> ignored m w = (w', Value tt).
Proof. intros Hm. unfold ignored, attempt, mbind, io_mbind. by rewrite Hm. Qed.

Definition without_child (s : workspace) : workspace := set_parent (with_children (delete child) (parent s)) s.

Lemma run_remove_dir s d : child_of s = Some d -> nodes d = ∅ -> non_utf8 d = false ->
  in_parent (remove_dir child) (quiet s) = (quiet (without_child s), Value tt).
Proof.
  unfold child_of, in_parent, map_raise, zoom, remove_dir, sys. cbn. intros Hd Hn Hu.
  destruct (children (parent s) !! child) as [[x|]|]; simpl in Hd; try done. injection Hd as ->.
  by rewrite Hu, bool_decide_eq_true_2.
Qed.

Lemma without_put d s : without_child (put_child d s) = without_child s.
Proof. unfold without_child, put_child, set_parent, with_children. simpl. by rewrite delete_insert_eq. Qed.

(** The directory goes with its files, by [cleanup] or when the value goes. *)
Lemma removal_runs s : tidied s ->
  cleanup child (quiet s) = (quiet (without_child s), Value tt) /\
  drop_staging child (quiet s) = (quiet (without_child s), Value tt).
Proof.
  intros [d []].
  assert (Hfiles : forall name, name ∈ removed_files s -> exists content, nodes d !! name = Some (File content true)).
  { intros name [n Hn]%tidy_names0. destruct (tidy_files0 name n Hn) as [c ->]. by exists c. }
  assert (Hempty : forall d', (forall name, nodes d' !! name = if decide (name ∈ removed_files s) then None else nodes d !! name) -> nodes d' = ∅).
  { intros d' Hn. apply map_eq. intros name. rewrite Hn, lookup_empty. case_decide as Hin; [done |].
    apply eq_None_not_Some. by rewrite tidy_names0. }
  split.
  - destruct (unlink_loop (fun name => in_parent (in_dir child (unlinkat name))) (fun _ _ _ h => h) (removed_files s) d s)
      as (d' & Hloop & Hu & Hn); [done.. |].
    unfold cleanup. eapply run_bind; [done |]. eapply run_bind; [exact Hloop |]. eapply run_bind; [apply run_same |].
    eapply run_bind; [eapply run_remove_dir; [apply child_of_put | by apply Hempty | congruence] |].
    rewrite without_put. apply run_same.
  - destruct (unlink_loop (fun name => ignored (in_parent (in_dir child (unlinkat name))))
      ltac:(intros; by apply run_ignored) (removed_files s) d s) as (d' & Hloop & Hu & Hn); [done.. |].
    unfold drop_staging. eapply run_bind; [done |]. eapply run_bind; [exact Hloop |].
    eapply run_bind; [apply run_ignored, run_same |].
    eapply run_bind; [eapply run_ignored, run_remove_dir; [apply child_of_put | by apply Hempty | congruence] |].
    rewrite without_put. apply run_ignored, run_same.
Qed.
End facts.

(** ** Creation *)

Section creation.
Context `{SnapshotEnv} `{MetadataTools} `{ErrnoText}.

Definition fresh_child (plan : list byte) : directory := with_file PLAN_FILE plan (mk_dir ∅ false true false).

Definition created (child : string) (plan : list byte) (s : workspace) : workspace :=
  mk_workspace (with_children (<[child := Some (fresh_child plan)]>) (parent s)) [].

Lemma created_tidy child plan s : tidied child (created child plan s).
Proof.
  exists (fresh_child plan). split.
  - unfold child_of. simpl. by rewrite lookup_insert_eq.
  - done.
  - apply NoDup_singleton.
  - intros name. simpl. unfold removed_files. simpl. rewrite list_elem_of_singleton.
    destruct (decide (name = PLAN_FILE)) as [->|Hne]; [by rewrite lookup_insert_eq |].
    rewrite lookup_insert_ne, lookup_empty by done. split; [by intros [] | done].
  - intros name n. simpl. intros [[<- <-]|[_ Hn]]%lookup_insert_Some; [by eexists | done].
Qed.

Abbreviation triple := (Effects.triple (F := FaultPoint.t) (E := ExecutorError.t)).

(** Only the name that was drawn is touched. *)
Definition drawn (random : result string (list byte)) (s s' : workspace) : Prop :=
  forall other, transaction_id random <> Ok other -> children (parent s') !! other = children (parent s) !! other.

Lemma create_triple random plan s :
  triple (eq s) (create random plan)
    (fun child s' => transaction_id random = Ok child /\ children (parent s) !! child = None /\ s' = created child plan s)
    (drawn random s).
Proof.
  unfold create. apply (triple_bind _ _ _ (fun _ => eq s)).
  { eapply triple_conseq; [apply same_triple | done | done |]. by intros s' <-. }
  intros []. apply triple_lift_bind; [by intros s' <- |]. intros child Hid.
  assert (Hdrawn : forall s', grows child s s' -> drawn random s s').
  { intros s' (Ho & _) other Hne. apply Ho. congruence. }
  set (s1 := put_child child (mk_dir ∅ false true false) s).
  assert (Hs1 : forall s', grows child s1 s' -> drawn random s s').
  { intros s' (Ho & _) other Hne. rewrite Ho by congruence. simpl. rewrite lookup_insert_ne; [done | congruence]. }
  apply (triple_bind _ _ _ (fun _ s' => children (parent s) !! child = None /\ s' = s1)).
  { apply triple_map_raise. eapply triple_conseq; [apply (triple_zoom parent set_parent (mkdir_private child) s
      (fun _ r => children (parent s) !! child = None /\ r = with_children (<[child := Some (mk_dir ∅ false true false)]>) (parent s))
      (eq (parent s))) | done | |].
    - apply triple_sys; [done |]. intros r r' [] <-. destruct (children (parent s) !! child); [done |]. by intros [= <-].
    - by intros [] s' (r & -> & Hn & ->).
    - intros s' (r & -> & <-). apply Hdrawn. by destruct s. }
  intros []. apply triple_all. intros s' [Hnone ->].
  assert (Hchild : child_of child s1 = Some (mk_dir ∅ false true false)) by apply child_of_put.
  do 2 (apply (triple_bind _ _ _ (fun _ => eq s1)); [eapply triple_conseq; [apply same_triple | done | done |]; intros s' <-; by apply Hs1 | intros []]).
  apply (triple_bind _ _ _ (fun _ => copied child PLAN_FILE [] s1)).
  { eapply triple_conseq; [by eapply (create_file_triple child s1) | done | done |]. intros s' Hs%started_grows. by apply Hs1. }
  intros []. apply (triple_bind _ _ _ (fun _ => copied child PLAN_FILE plan s1)).
  { eapply triple_conseq; [apply (write_file_triple child s1) | done | done |]. intros s' Hs%started_grows. by apply Hs1. }
  intros []. do 2 (apply (triple_bind _ _ _ (fun _ => copied child PLAN_FILE plan s1));
    [eapply triple_conseq; [apply same_triple | done | done |]; intros s' Hs%copied_grows; by apply Hs1 | intros []]).
  eapply triple_bind; [eapply (triple_modify _ _ (fun s' => s' = created child plan s)) | intros []; by apply triple_done].
  intros s' (d & Hd & _ & ->). rewrite Hchild in Hd. injection Hd as <-. unfold s1. by rewrite put_put.
Qed.
End creation.
