(* ===== verification/StagingSafety.v ===== *)
(** * Staged inputs are verified copies, and staging leaves no trace

    The names of transactions, what staging gives and leaves, and its agreement with the inputs
    that are used in place. *)
From S2P Require Import Prelude.
From S2P Require Import RustStr.
From S2P Require Import RustText.
From S2P Require Import Value.
From S2P Require Import Canonical.
From S2P Require Import Documents.
From S2P Require Import Policy.
From S2P Require Import Xml.
From S2P Require Import Metadata.
From S2P Require Import Repomd.
From S2P Require Import Primary.
From S2P Require Import PrimaryFacts.
From S2P Require Import Compression.
From S2P Require Import SolverModel.
From S2P Require Import CacheModel.
From S2P Require Import Snapshot.
From S2P Require Import SnapshotFacts.
From S2P Require Import Effects.
From S2P Require Import StateFs.
From S2P Require Import Journal.
From S2P Require Import JournalSafety.
From S2P Require Import NativeTrust.
From S2P Require Import Artifact.
From S2P Require Import RootInputs.
From S2P Require Import StagedInputs.
From S2P Require Import RootInputsFacts.
From S2P Require Import ExecuteExamples.
From S2P Require Import ExecuteInputs.
From S2P Require Import Staging.
From S2P Require Import StagingFacts.

#[local] Open Scope N_scope.

(** ** Names of transactions *)

Lemma hex_digit_lower n : n < 16 -> TransactionId.lower_hex (hex_digit n) = true.
Proof.
  intros Hn. assert (Hin : n ∈ [0; 1; 2; 3; 4; 5; 6; 7; 8; 9; 10; 11; 12; 13; 14; 15]) by (rewrite !elem_of_cons; lia).
  revert n Hin Hn. by apply (proj1 (Forall_forall (fun n => n < 16 -> TransactionId.lower_hex (hex_digit n) = true) _)); repeat constructor.
Qed.

(** The digits of a byte. *)
Lemma high_digit b : TransactionId.lower_hex (hex_digit (byte_val b / 16)) = true.
Proof. apply hex_digit_lower, N.Div0.div_lt_upper_bound. pose proof (byte_val_lt b). lia. Qed.

Lemma low_digit b : TransactionId.lower_hex (hex_digit (byte_val b mod 16)) = true.
Proof. by apply hex_digit_lower, N.mod_lt. Qed.

Definition set_bits (keep set : N) (b : byte) : byte := Ascii.ascii_of_N (N.lor (N.land (byte_val b) keep) set).

Lemma version_digit b : hex_digit (byte_val (set_bits 15 112 b) / 16) = Ascii.ascii_of_N 55.
Proof. by destruct b as [[] [] [] [] [] [] [] []]. Qed.

Lemma variant_digit b : existsb (fun v => bool_decide (Some (byte_val (hex_digit (byte_val (set_bits 63 128 b) / 16))) = Some v))
  [56; 57; 97; 98] = true.
Proof. by destruct b as [[] [] [] [] [] [] [] []]. Qed.

(** The bytes that [transaction_id] formats. *)
Definition stamped (l : list byte) : list byte := stamp 8 63 128 (stamp 6 15 112 l).

Definition digits (b : byte) : list byte := [hex_digit (byte_val b / 16); hex_digit (byte_val b mod 16)].

Lemma digits_lower b : forallb TransactionId.lower_hex (digits b) = true.
Proof. unfold digits. cbn [forallb]. by rewrite high_digit, low_digit. Qed.

#[export] Instance digits_inj : Inj (=) (=) digits.
Proof.
  intros b b' [= Hh Hl]. rewrite <- (Ascii.ascii_N_embedding b), <- (Ascii.ascii_N_embedding b'). f_equal.
  change (byte_val b = byte_val b').
  assert (Hd : forall n m, n < 16 -> m < 16 -> hex_digit n = hex_digit m -> n = m).
  { intros n m Hn Hm E. apply (f_equal hex_value) in E.
    assert (Hv : forall n, n < 16 -> hex_value (hex_digit n) = Some n); [| rewrite !Hv in E by done; by injection E].
    clear. intros n Hn. assert (Hin : n ∈ [0; 1; 2; 3; 4; 5; 6; 7; 8; 9; 10; 11; 12; 13; 14; 15]) by (rewrite !elem_of_cons; lia).
    revert n Hin Hn. by apply (proj1 (Forall_forall (fun n => n < 16 -> hex_value (hex_digit n) = Some n) _)); repeat constructor. }
  pose proof (byte_val_lt b). pose proof (byte_val_lt b').
  apply Hd in Hh; [| by apply N.Div0.div_lt_upper_bound; lia..]. apply Hd in Hl; [| by apply N.mod_lt..].
  rewrite (N.div_mod (byte_val b) 16), (N.div_mod (byte_val b') 16) by done. congruence.
Qed.

Lemma bytes_format l : length l = 16%nat ->
  exists a b c d e, Forall2 (fun k n => length k = n) [a; b; c; d; e] [4; 2; 2; 2; 6]%nat /\ l = a ++ b ++ c ++ d ++ e /\
  bytes (format_id l) = concat (digits <$> a) ++ bytes "-" ++ concat (digits <$> b) ++ bytes "-" ++ concat (digits <$> c) ++
    bytes "-" ++ concat (digits <$> d) ++ bytes "-" ++ concat (digits <$> e).
Proof.
  intros Hlen. destruct l as [|b0 [|b1 [|b2 [|b3 [|b4 [|b5 [|b6 [|b7 [|b8 [|b9 [|b10 [|b11 [|b12 [|b13 [|b14 [|b15 [|? l]]]]]]]]]]]]]]]]]; try done.
  exists [b0; b1; b2; b3], [b4; b5], [b6; b7], [b8; b9], [b10; b11; b12; b13; b14; b15].
  split; [by repeat constructor |]. by split.
Qed.

Lemma digits_concat_inj : forall l l', length l = length l' -> concat (digits <$> l) = concat (digits <$> l') -> l = l'.
Proof.
  induction l as [|b l IH]; intros [|b' l']; try done. intros [= Hlen] [= E1 E2 E3].
  f_equal; [apply digits_inj; unfold digits; congruence | by apply IH].
Qed.

Lemma length_digits l : length (concat (digits <$> l)) = (2 * length l)%nat.
Proof. induction l as [|b l IH]; [done |]. cbn [fmap list_fmap concat]. rewrite length_app, IH. simpl. lia. Qed.

Lemma format_id_inj l l' : length l = 16%nat -> length l' = 16%nat -> format_id l = format_id l' -> l = l'.
Proof.
  intros Hl Hl' E. apply (f_equal bytes) in E.
  destruct (bytes_format l Hl) as (a & b & c & d & e & Hs & -> & Ef). rewrite Ef in E. clear Ef Hl.
  destruct (bytes_format l' Hl') as (a' & b' & c' & d' & e' & Hs' & -> & Ef). rewrite Ef in E. clear Ef Hl'.
  repeat match goal with H : Forall2 _ (_ :: _) (_ :: _) |- _ => apply Forall2_cons in H as [? H] end.
  repeat (apply app_inj_1 in E as [?%digits_concat_inj E]; [| rewrite ?length_digits; congruence..];
          apply app_inj_1 in E as [_ E]; [| done]).
  apply digits_concat_inj in E; congruence.
Qed.

Lemma byte_ok_digit n c : bool_decide (n ∈ [8; 13; 18; 23]%nat) = false -> TransactionId.lower_hex c = true ->
  TransactionId.byte_ok (n, c) = true.
Proof. intros Hn Hc. unfold TransactionId.byte_ok. simpl. by rewrite Hn. Qed.

Lemma byte_ok_dash n : bool_decide (n ∈ [8; 13; 18; 23]%nat) = true -> TransactionId.byte_ok (n, Ascii.ascii_of_N 45) = true.
Proof. intros Hn. unfold TransactionId.byte_ok. simpl. by rewrite Hn. Qed.

(** Whatever sixteen bytes the system draws, the name made of them is the text of a
    transaction, which the journals accept; and the name tells the bytes, except for the six
    bits that are fixed. *)
Theorem transaction_id_canonical (l : list byte) (Hlen : length l = 16%nat) :
  exists text, transaction_id (Ok l) = Ok text /\ TransactionId.parse text = Ok (TransactionId.mk text) /\
    forall l', length l' = 16%nat -> transaction_id (Ok l') = Ok text -> stamped l' = stamped l.
Proof.
  assert (Hs : forall l, length l = 16%nat -> length (stamped l) = 16%nat).
  { intros k Hk. unfold stamped, stamp. by rewrite !length_alter. }
  exists (format_id (stamped l)). split; [done |]. split.
  - destruct l as [|b0 [|b1 [|b2 [|b3 [|b4 [|b5 [|b6 [|b7 [|b8 [|b9 [|b10 [|b11 [|b12 [|b13 [|b14 [|b15 [|? l]]]]]]]]]]]]]]]]]; try done.
    change (stamped _) with [b0; b1; b2; b3; b4; b5; set_bits 15 112 b6; b7; set_bits 63 128 b8; b9; b10; b11; b12; b13; b14; b15].
    unfold TransactionId.parse.
    match goal with |- context [format_id ?k] =>
      change (bytes (format_id k)) with
        (concat (digits <$> take 4 k) ++ bytes "-" ++ concat (digits <$> take 2 (drop 4 k)) ++ bytes "-" ++
         concat (digits <$> take 2 (drop 6 k)) ++ bytes "-" ++ concat (digits <$> take 2 (drop 8 k)) ++ bytes "-" ++
         concat (digits <$> take 6 (drop 10 k))) end.
    cbn -[hex_digit TransactionId.byte_ok existsb set_bits format_id N.div N.modulo].
    repeat match goal with |- context [TransactionId.byte_ok ?p] =>
      replace (TransactionId.byte_ok p) with true
        by (symmetry; first [by apply byte_ok_dash | apply byte_ok_digit; [done | first [apply high_digit | apply low_digit]]]) end.
    by rewrite variant_digit, version_digit.
  - intros l' Hlen' [= E]. by apply format_id_inj; [apply Hs.. |].
Qed.

(** ** What staging gives and leaves *)

Section theorems.
Context `{SnapshotEnv} `{MetadataTools} `{ErrnoText} (euid : N).

(** The two steps, however they end. *)
Lemma staging_steps random plan directory m w0 w1 w2 child x :
  create random plan w0 = (w1, Value child) -> stage euid child directory m w1 = (w2, x) ->
  children (parent (fsys w0)) !! child = None /\ fsys w1 = created child plan (fsys w0) /\
  grows child (fsys w1) (fsys w2) /\
  forall inputs, x = Value inputs -> staged_well euid child directory m inputs (fsys w2) /\ tidied child (fsys w2).
Proof.
  intros Hc Hs. pose proof (create_triple random plan (fsys w0) w0 eq_refl) as Ht. rewrite Hc in Ht.
  destruct Ht as (_ & Hnone & E). split_and!; [done.. | |];
    pose proof (stage_makes euid child directory (fsys w1) m ltac:(rewrite E; apply created_tidy) w1 eq_refl) as Hm;
    rewrite Hs in Hm; destruct x; naive_solver.
Qed.

(** C8: staging touches no other transaction, keeps the plan it began with and, when it
    succeeds, has in its directory a copy of the repomd, primary and filelists file of every
    repository of the manifest, the ones the solver is given, and of every key and package,
    with the digest and the size of the manifest; the solver gets the XML made of those copies,
    the candidates are those they list, and each package is listed by them.  The other metadata
    files a manifest may name (file provides, groups, modules, updateinfo) are not copied. *)
Theorem staged_inputs_verified (random : result string (list byte)) (plan : list byte) (directory : InputsDirectory.t)
    (m : InputManifest.t) (w0 w1 w2 : world workspace) (child : string) (x : Effects.exit ExecutorError.t StagedInputs.t)
    (Hcreate : create random plan w0 = (w1, Value child)) (Hstage : stage euid child directory m w1 = (w2, x)) :
  (forall other, other <> child -> children (parent (fsys w2)) !! other = children (parent (fsys w0)) !! other) /\
  holds_file child PLAN_FILE plan (fsys w2) /\
  forall inputs, x = Value inputs -> staged_well euid child directory m inputs (fsys w2).
Proof.
  destruct (staging_steps _ _ _ _ _ _ _ _ _ Hcreate Hstage) as (Hnone & E & Hg & Hv). split_and!.
  - intros other Hne. destruct Hg as (Ho & _ & _). rewrite Ho, E by done. simpl. by rewrite lookup_insert_ne.
  - eapply holds_file_grows; [exact Hg |]. rewrite E. exists (fresh_child plan). unfold child_of. simpl.
    by rewrite !lookup_insert_eq.
  - intros inputs Hx. by apply Hv.
Qed.

(** C10: after a staging that succeeded, the removal of its directory succeeds unless a call of
    the system fails, and leaves the directory of all stagings exactly as it was before. *)
Theorem staging_leaves_no_trace (random : result string (list byte)) (plan : list byte) (directory : InputsDirectory.t)
    (m : InputManifest.t) (w0 w1 w2 : world workspace) (child : string) (inputs : StagedInputs.t)
    (Hcreate : create random plan w0 = (w1, Value child)) (Hstage : stage euid child directory m w1 = (w2, Value inputs)) :
  exists s, cleanup child (quiet (fsys w2)) = (quiet s, Value tt) /\ drop_staging child (quiet (fsys w2)) = (quiet s, Value tt) /\
    parent s = parent (fsys w0).
Proof.
  destruct (staging_steps _ _ _ _ _ _ _ _ _ Hcreate Hstage) as (Hnone & E & (Ho & Hu & _) & Hv).
  destruct (Hv inputs eq_refl) as [_ Ht]. destruct (removal_runs child _ Ht) as [Hclean Hdrop].
  exists (without_child child (fsys w2)). split_and!; [done.. |]. rewrite E in Ho, Hu.
  destruct w0 as [[[c u] fs] pt ps]. unfold without_child, set_parent, with_children. simpl in *. f_equal; [| done].
  apply map_eq. intros other. destruct (decide (other = child)) as [->|Hne]; [by rewrite lookup_delete_eq |].
  rewrite lookup_delete_ne, Ho by done. by rewrite lookup_insert_ne.
Qed.

(** *** Agreement with the inputs used in place *)

(** A repository and a package that are the same but for where their bytes are. *)
Definition same_repository (a b : StagedRepository.t) : Prop :=
  NativeRepository.id (StagedRepository.repository a) = NativeRepository.id (StagedRepository.repository b) /\
  NativeRepository.priority (StagedRepository.repository a) = NativeRepository.priority (StagedRepository.repository b) /\
  NativeRepository.cost (StagedRepository.repository a) = NativeRepository.cost (StagedRepository.repository b) /\
  StagedRepository.trust a = StagedRepository.trust b /\ StagedRepository.keys a = StagedRepository.keys b /\
  StagedRepository.generation_sha256 a = StagedRepository.generation_sha256 b /\
  StagedRepository.origin_sha256 a = StagedRepository.origin_sha256 b /\
  StagedRepository.trust_sha256 a = StagedRepository.trust_sha256 b.

Definition same_package (a b : StagedArtifact.t) : Prop :=
  ArtifactFile.content (StagedArtifact.file a) = ArtifactFile.content (StagedArtifact.file b) /\
  StagedArtifact.expected a = StagedArtifact.expected b /\ StagedArtifact.sha256 a = StagedArtifact.sha256 b /\
  StagedArtifact.size a = StagedArtifact.size b /\ StagedArtifact.repo_id a = StagedArtifact.repo_id b /\
  StagedArtifact.generation_sha256 a = StagedArtifact.generation_sha256 b /\
  StagedArtifact.origin_sha256 a = StagedArtifact.origin_sha256 b /\
  StagedArtifact.trust_sha256 a = StagedArtifact.trust_sha256 b.

Section agreement.
Context {D : Type} (directory : InputsDirectory.t).

Definition used_key (k : InputKey.t) (v : VerifiedStagedKey.t) : Prop :=
  exists f, present_as directory 0 f (InputKey.file k) /\ v = VerifiedStagedKey.mk (InputKey.bundle_path k) (ArtifactFile.content f).

Definition used_repository (r : InputRepository.t) (s : StagedRepository.t) : Prop :=
  exists trust keys, trust_read directory (InputRepositoryTrust.policy (InputRepository.trust r)) trust /\
    Forall2 used_key (InputRepositoryTrust.keys (InputRepository.trust r)) keys /\
    s = StagedRepository.mk (native_repository r "" "" "") trust keys (InputRepository.generation_sha256 r)
          (InputOrigin.sha256 (InputRepository.origin r)) (InputRepositoryTrust.sha256 (InputRepository.trust r)).

Definition used_package (a : InputArtifact.t) (s : StagedArtifact.t) : Prop :=
  exists f, present_as directory 0 f (InputArtifact.file a) /\
    s = StagedArtifact.mk f (expected_package a) (InputFile.sha256 (InputArtifact.file a))
          (InputFile.size (InputArtifact.file a)) (InputArtifact.repo_id a) (InputArtifact.generation_sha256 a)
          (InputArtifact.origin_sha256 a) (InputArtifact.trust_sha256 a).

Lemma used_in_place m :
  yields (D:=D) (stage_token_bound directory m) (fun x => policy_read directory (InputManifest.policy m) (StagedInputs.policy x) /\
    Forall2 used_repository (InputManifest.repositories m) (StagedInputs.repositories x) /\
    Forall2 used_package (InputManifest.artifacts m) (StagedInputs.artifacts x)).
Proof.
  eapply yields_bind; [apply parse_policy_yields |]. intros policy Hpolicy.
  eapply yields_bind; [apply (yields_map_io _ used_repository) |].
  { intros r. eapply yields_bind; [apply parse_trust_yields |]. intros trust Ht.
    eapply yields_bind; [apply (yields_map_io _ used_key) |].
    - intros k. eapply yields_bind; [apply (open_retained_yields directory 0) |]. intros f Hf.
      eapply yields_bind; [apply read_file_yields |]. intros c ->. apply yields_ret. by exists f.
    - intros keys Hkeys. apply yields_ret. by exists trust, keys. }
  intros rs Hrs. eapply yields_bind; [apply (yields_map_io _ used_package) |].
  { intros a. eapply yields_bind; [apply (open_retained_yields directory 0) |]. intros f Hf. apply yields_ret. by exists f. }
  intros arts Has. by apply yields_ret.
Qed.

Lemma present_as_unique f g e : present_as directory 0 f e -> present_as directory 0 g e -> f = g.
Proof. intros (Hf & _) (Hg & _). congruence. Qed.

Lemma agree_on {A B C} (R : nat * A -> B -> Prop) (R' : A -> C -> Prop) (S : B -> C -> Prop) l ys zs :
  (forall p y z, R p y -> R' p.2 z -> S y z) -> Forall2 R (imap pair l) ys -> Forall2 R' l zs -> Forall2 S ys zs.
Proof.
  intros HS Hy Hz. apply Forall2_same_length_lookup. pose proof (Forall2_length _ _ _ Hy) as Ly.
  pose proof (Forall2_length _ _ _ Hz) as Lz. rewrite length_imap in Ly. split; [congruence |].
  intros i y z Hi Hj. destruct (Forall2_lookup_r _ _ _ _ _ Hy Hi) as (p & Hp & Hr).
  apply list_lookup_imap_Some in Hp as (a & Ha & ->).
  destruct (Forall2_lookup_r _ _ _ _ _ Hz Hj) as (a' & Ha' & Hr'). rewrite Ha in Ha'. injection Ha' as <-. by eapply HS.
Qed.

(** C9: staging copies and using the inputs in place come to the same: the same policy, the
    same repositories with their trust policies and keys, and the same packages, byte for byte. *)
Theorem staged_inputs_agree (child : string) (m : InputManifest.t) (w w' : world workspace) (u u' : world D)
    (x y : StagedInputs.t) (Htidy : tidied child (fsys w))
    (Hstage : stage euid child directory m w = (w', Value x))
    (Hplace : stage_token_bound directory m u = (u', Value y)) :
  StagedInputs.policy x = StagedInputs.policy y /\
  Forall2 same_repository (StagedInputs.repositories x) (StagedInputs.repositories y) /\
  Forall2 same_package (StagedInputs.artifacts x) (StagedInputs.artifacts y).
Proof.
  destruct (used_in_place m _ _ _ Hplace) as (Hp & Hr & Ha).
  pose proof (stage_makes euid child directory (fsys w) m Htidy w eq_refl) as Hm. rewrite Hstage in Hm.
  destruct Hm as [[Hp' (xs & Hxs & E) Ha'] _]. split_and!.
  - destruct Hp as (f & Hf & Ef), Hp' as (g & Hg & Eg). rewrite (present_as_unique f g _ Hf Hg) in Ef. congruence.
  - injection E as -> _ _. apply Forall2_fmap_l.
    eapply (agree_on _ used_repository); [| exact Hxs | exact Hr]. clear.
    intros [i r] [s parsed] z [(c1 & c2 & c3 & x1 & x2 & _ & _ & _ & _ & _ & _ & _ & Hn) Ht Hk (Hgen & Horg & Htr)]
      (trust & keys & Ht' & Hk' & ->).
    cbn in *. unfold same_repository. cbn. rewrite Hn. split_and!; try done.
    + destruct Ht as (f & Hf & Ef), Ht' as (g & Hg & Eg). rewrite (present_as_unique f g _ Hf Hg) in Ef. cbn. congruence.
    + cbn. apply list_eq_Forall2. eapply (agree_on _ used_key); [| exact Hk | exact Hk'].
      intros [j k] v v' (c & (_ & _ & _ & f & Hf & <-) & ->) (g & Hg & ->). cbn in *. by rewrite (present_as_unique f g _ Hf Hg).
  - eapply (agree_on _ used_package); [| exact Ha' | exact Ha].
    intros [i a] s z [_ (c & (_ & _ & _ & f & Hf & <-) & ->)] (g & Hg & ->). cbn in *.
    rewrite (present_as_unique f g _ Hf Hg). by split_and!.
Qed.
End agreement.
End theorems.

(** ** A copy that fails *)

Section leak.
Context `{SnapshotEnv} `{ErrnoText} (euid : N) (child : string).

Lemma run_write_file s d name c bs : child_of child s = Some (with_file name c d) ->
  in_parent (in_dir child (write_all name bs)) (quiet s) = (quiet (put_child child (with_file name (c ++ bs) d) s), Value tt).
Proof.
  intros Hd. apply (run_in_child child _ (with_file name c d)); [done |].
  unfold write_all, write_call, quiet. cbn. by rewrite put_bytes_file, firstn_all.
Qed.

Lemma run_copy_blocks name d : forall rest total seen s, child_of child s = Some (with_file name seen d) ->
  total = N.of_nat (length seen) -> N.of_nat (length (seen ++ concat rest)) <= u64_max ->
  copy_blocks child name total seen rest (quiet s) =
    (quiet (put_child child (with_file name (seen ++ concat rest) d) s), Value (N.of_nat (length (seen ++ concat rest)), seen ++ concat rest)).
Proof.
  induction rest as [|block rest IH]; intros total seen s Hd -> Hw; cbn [copy_blocks concat] in *.
  - rewrite app_nil_r, put_same by done. eapply run_bind; [apply run_same | done].
  - eapply run_bind; [apply run_same |]. eapply run_bind.
    { unfold lift, ok_or, u64_checked_add. rewrite (proj2 (N.leb_le _ _)); [done |].
      rewrite !length_app in Hw. lia. }
    eapply run_bind; [by eapply run_write_file |]. rewrite app_assoc in *.
    rewrite (IH _ _ (put_child child (with_file name (seen ++ block) d) s)); [by rewrite put_put | apply child_of_put | rewrite length_app; lia | done].
Qed.

(** A copy that does not have the digest of the manifest fails, but its file is not noted: when
    the staging goes, the file stays and the directory with it. *)
Theorem failed_copy_leaks (s : workspace) (d : directory) (source : ArtifactFile.t) (name digest : string) (size : N)
    (Htidy : tidy child s d) (Hnew : nodes d !! name = None)
    (Hwidth : N.of_nat (length (ArtifactFile.content source)) <= u64_max)
    (Hbad : sha256_hex (ArtifactFile.content source) <> digest) :
  exists s1 s2,
    copy_file euid child source name digest size (quiet s) = (quiet s1, Raised (ExecutorError.Staging "input changed during staging")) /\
    drop_staging child (quiet s1) = (quiet s2, Value tt) /\
    holds_file child name (ArtifactFile.content source) s2.
Proof.
  set (c := ArtifactFile.content source). destruct Htidy.
  set (s1 := put_child child (with_file name c d) s).
  assert (Hnot : name ∉ removed_files s) by (rewrite <- tidy_names, Hnew; by intros []).
  assert (Hloop : exists d', for_io (fun name => ignored (in_parent (in_dir child (unlinkat name)))) (removed_files s) (quiet s1) =
      (quiet (put_child child d' s1), Value tt) /\ non_utf8 d' = non_utf8 (with_file name c d) /\
      forall other, nodes d' !! other = if decide (other ∈ removed_files s) then None else nodes (with_file name c d) !! other).
  { apply unlink_loop; [intros; by apply run_ignored | apply child_of_put | done |].
    intros other Ho. assert (Hx : is_Some (nodes d !! other)) by by apply tidy_names. destruct Hx as [n Hn].
    destruct (tidy_files other n Hn) as [c' ->]. exists c'. simpl. rewrite lookup_insert_ne; [done |]. by intros <-. }
  destruct Hloop as (d' & Hloop & Hu & Hn).
  assert (Hleft : nodes d' !! name = Some (File c true)).
  { rewrite Hn, decide_False by done. simpl. by rewrite lookup_insert_eq. }
  exists s1, (put_child child d' s1). split_and!.
  - unfold copy_file. eapply run_bind.
    { apply (run_in_child child (create_private name) d (with_file name [] d)); [done |]. apply run_sys. by rewrite Hnew. }
    eapply run_bind; [apply run_same |]. eapply run_bind.
    { apply (run_copy_blocks name d _ _ []); [apply child_of_put | done |]. cbn. by rewrite NativeTrustFacts.concat_blocks. }
    cbn [app]. rewrite NativeTrustFacts.concat_blocks, put_put. fold c s1. cbn.
    rewrite (bool_decide_eq_false_2 (sha256_hex c = digest)) by done. by rewrite orb_true_r.
  - unfold drop_staging. eapply run_bind; [done |]. eapply run_bind; [exact Hloop |].
    eapply run_bind; [apply run_ignored, run_same |]. eapply run_bind.
    + eapply run_ignored_error. unfold in_parent, map_raise, zoom, remove_dir, sys. cbn. rewrite lookup_insert_eq.
      rewrite bool_decide_eq_false_2; [done |]. intros E. by rewrite E in Hleft.
    + unfold quiet. cbn. by destruct s.
  - exists d'. split; [apply child_of_put | done].
Qed.
End leak.

(** ** A staging *)

Module StagingExamples.
Import RepomdSpec.

#[export] Existing Instance JournalExamples.example_errno.
#[export] Existing Instance ExecuteExamples.env.

Definition metadata_text : string := "<metadata/>".
Definition filelists_text : string := "<filelists/>".

Definition described (kind href content : string) : entry :=
  let digest := sha256_hex (bytes content) in
  let size := display (ExecuteExamples.size content) in
  Entry [("type", kind)]
    [ Leaf "location" [("href", href)]; Field "checksum" [("type", "sha256")] (Some digest);
      Field "open-checksum" [("type", "sha256")] (Some digest); Field "open-size" [] (Some size); Field "size" [] (Some size) ].

Definition package : list event :=
  [Start PrimaryExamples.common (PrimaryExamples.tag "package" [("type", "rpm")])] ++
  PrimaryExamples.field "name" "bash" ++ PrimaryExamples.field "arch" "x86_64" ++
  [Empty PrimaryExamples.common (PrimaryExamples.tag "version" [("epoch", "0"); ("ver", "2"); ("rel", "1")]);
   Start PrimaryExamples.common (PrimaryExamples.tag "checksum" [("type", "sha256"); ("pkgid", "YES")]);
   Text (Ok (sha256_hex (bytes "bash"))); End "checksum";
   Empty PrimaryExamples.common (PrimaryExamples.tag "size" [("package", "4"); ("installed", "9"); ("archive", "9")]);
   Empty PrimaryExamples.common (PrimaryExamples.tag "location" [("href", "Packages/b/bash.rpm")]); End "package"].

#[export] Instance tools : MetadataTools := {|
  zstd_new l := Ok [Ok l];
  gzip_new l := [Ok l];
  unescape := Ok;
  tokenize r :=
    if bool_decide (r = [Ok (bytes "repomd")])
    then document_events [described "primary" "repodata/primary.xml" metadata_text;
                          described "filelists" "repodata/filelists.xml" filelists_text]
    else [PrimaryExamples.open_root "1"] ++ package ++ [End "metadata"];
  sha256_raw := PrimaryExamples.no_digest
|}.

Definition input (name content : string) : InputFile.t := ExecuteExamples.input name content (ExecuteExamples.size content).

Definition repository : InputRepository.t :=
  InputRepository.mk "fedora" 99 1000 (sha256_hex (bytes "repomd")) (InputOrigin.mk SnapshotExamples.url ExecuteExamples.url_digest)
    (input "repomd.xml" "repomd") (input "primary.xml" metadata_text) (input "filelists.xml" filelists_text) None None None None
    (InputRepositoryTrust.mk (ExecuteExamples.document "trust") ExecuteExamples.trust_digest [ExecuteExamples.key]).

Definition artifact : InputArtifact.t :=
  InputArtifact.mk (input "bash.rpm" "bash") "fedora" (sha256_hex (bytes "repomd")) ExecuteExamples.url_digest
    ExecuteExamples.trust_digest "bash" 0 "2" "1" "x86_64" "unknown".

Definition manifest : InputManifest.t :=
  InputManifest.mk 5 (ExecuteExamples.document "policy") "" "" [repository] [artifact].

Definition directory : InputsDirectory.t :=
  InputsDirectory.mk 0 448 (list_to_map
    [("policy.json", ExecuteExamples.exactly "policy"); ("trust.json", ExecuteExamples.exactly "trust");
     ("a.gpg", ExecuteExamples.exactly "cert"); ("repomd.xml", ExecuteExamples.exactly "repomd");
     ("primary.xml", ExecuteExamples.exactly metadata_text); ("filelists.xml", ExecuteExamples.exactly filelists_text);
     ("bash.rpm", ExecuteExamples.exactly "bash")]).

Definition random : result string (list byte) := Ok (replicate 16 (Ascii.ascii_of_N 255)).
Definition empty : world workspace := quiet (mk_workspace (mk_root ∅ false) []).

Definition begun : world workspace := (create random (bytes "plan") empty).1.
Definition name : string := "ffffffff-ffff-7fff-bfff-ffffffffffff".

Lemma begins : create random (bytes "plan") empty = (begun, Value name).
Proof. vm_compute. reflexivity. Qed.

Definition ended : world workspace * Effects.exit ExecutorError.t StagedInputs.t := stage 0 name directory manifest begun.
Definition staged : StagedInputs.t :=
  match ended.2 with Value x => x | _ => ExecuteExamples.staged end.

Lemma ends : stage 0 name directory manifest begun = (ended.1, Value staged).
Proof. vm_compute. reflexivity. Qed.

(** The same inputs, used in place. *)
Definition in_place : StagedInputs.t :=
  match (stage_token_bound directory manifest ExecuteExamples.idle).2 with Value x => x | _ => ExecuteExamples.staged end.

Lemma used : stage_token_bound directory manifest ExecuteExamples.idle = (ExecuteExamples.idle, Value in_place).
Proof. vm_compute. reflexivity. Qed.
End StagingExamples.

#[local] Existing Instances JournalExamples.example_errno ExecuteExamples.env StagingExamples.tools.

Lemma transaction_id_canonical_witness :
  exists text, transaction_id StagingExamples.random = Ok text /\ text = StagingExamples.name /\
    TransactionId.parse text = Ok (TransactionId.mk text).
Proof.
  destruct (transaction_id_canonical (replicate 16 (Ascii.ascii_of_N 255)) eq_refl) as (text & Ht & Hp & _).
  exists text. split; [exact Ht |]. split; [| exact Hp]. assert (Hn : transaction_id StagingExamples.random = Ok StagingExamples.name)
    by (vm_compute; reflexivity). change (transaction_id StagingExamples.random = Ok text) in Ht. congruence.
Defined.

Lemma staged_inputs_verified_witness :
  length (StagedInputs.repositories StagingExamples.staged) = 1%nat /\ length (StagedInputs.artifacts StagingExamples.staged) = 1%nat /\
  length (StagedInputs.candidates StagingExamples.staged) = 1%nat /\
  staged_well 0 StagingExamples.name StagingExamples.directory StagingExamples.manifest StagingExamples.staged (fsys StagingExamples.ended.1).
Proof.
  split; [vm_compute; reflexivity |]. split; [vm_compute; reflexivity |]. split; [vm_compute; reflexivity |].
  apply (staged_inputs_verified 0 StagingExamples.random (bytes "plan") StagingExamples.directory StagingExamples.manifest
    StagingExamples.empty StagingExamples.begun StagingExamples.ended.1 StagingExamples.name (Value StagingExamples.staged)
    StagingExamples.begins StagingExamples.ends).
  reflexivity.
Defined.

Lemma staging_leaves_no_trace_witness :
  exists s, cleanup StagingExamples.name (quiet (fsys StagingExamples.ended.1)) = (quiet s, Value tt) /\
    parent s = mk_root ∅ false.
Proof.
  destruct (staging_leaves_no_trace 0 StagingExamples.random (bytes "plan") StagingExamples.directory StagingExamples.manifest
    StagingExamples.empty StagingExamples.begun StagingExamples.ended.1 StagingExamples.name StagingExamples.staged
    StagingExamples.begins StagingExamples.ends) as (s & Hc & _ & Hp).
  exists s. split; [exact Hc | exact Hp].
Defined.

Lemma staged_inputs_agree_witness :
  StagedInputs.policy StagingExamples.staged = StagedInputs.policy StagingExamples.in_place /\
  Forall2 same_package (StagedInputs.artifacts StagingExamples.staged) (StagedInputs.artifacts StagingExamples.in_place).
Proof.
  assert (Ht : tidied StagingExamples.name (fsys StagingExamples.begun))
    by exact (created_tidy StagingExamples.name (bytes "plan") (fsys StagingExamples.empty)).
  destruct (staged_inputs_agree 0 StagingExamples.directory StagingExamples.name StagingExamples.manifest StagingExamples.begun
    StagingExamples.ended.1 ExecuteExamples.idle ExecuteExamples.idle StagingExamples.staged StagingExamples.in_place
    Ht StagingExamples.ends StagingExamples.used) as (Hp & _ & Ha).
  split; [exact Hp | exact Ha].
Defined.
